(* ===== verification/_CoqProject ===== *)
-Q . S2P
Prelude.v
Text.v
BTree.v
Float.v
Ir.v
Config.v
Target.v
Routing.v
Router.v
RouterSpec.v
RouterOrder.v
RouterTheorems.v
Catalog.v
Ledger.v
UsageTable.v
LedgerTheorems.v
Time.v
Breaker.v
Availability.v
ScorecardEntry.v
Scorecard.v
ScorecardTheorems.v
Resolver.v
ResolverTheorems.v
Collect.v
StreamTheorems.v
Profiles.v
Trace.v
Lines.v
Value.v
OpenaiChat.v
OpenaiTheorems.v
Messages.v
MessagesStream.v
MessagesRequest.v
Schema.v
SchemaTheorems.v
Gemini.v
Responses.v
ResponsesStream.v
Access.v
Framing.v
FramingTheorems.v
Net.v
ConfigSchema.v
Plugins.v
Compress.v
Engine.v
EngineTheorems.v
EngineProperties.v
EngineBilling.v
EngineSamples.v
Leases.v
LeaseTheorems.v
Gateway.v
GatewayTheorems.v
Handlers.v
HandlerTheorems.v
GatewaySamples.v
NetTheorems.v
ConfigCheck.v
ConfigTheorems.v
Adapters.v
Accounts.v
Publish.v
PublishTheorems.v
Validate.v
Preview.v
Sign.v
Codecs.v
Wire.v
Chain.v
Execution.v
Embeddings.v
Pressure.v
Segments.v
SegmentTheorems.v
Quality.v
Enrollment.v
EnrollmentTheorems.v
