(* ===== verification/Prelude.v ===== *)
(** * Switchback: a verification development

    Switchback is a gateway for language-model providers. A request arrives in some
    wire format, becomes a canonical request, and is routed to one of several
    execution targets (a provider, a model, and accounts); when an attempt fails it
    falls over to the next target. What happened is written to a usage ledger and
    to an outcome scorecard, and both the provider circuit breaker and the
    scorecard feed back into later routing. In front of it a server authenticates
    the caller, makes retried requests replay one response, bounds concurrency and
    turns the result into a JSON body or a stream of server-sent events.

    ** Parts of the program and where they are modelled

    - The canonical request and the error taxonomy
      ([crates/sb-core/src/ir.rs], [error.rs]): [Ir.v].
    - Execution targets and the live signals stamped on them ([target.rs]):
      [Target.v]. The routing vocabulary ([routing.rs]): [Routing.v].
    - Configuration ([config.rs]): [Config.v] has the sections that routing, the
      breaker and the scorecard read, [ConfigSchema.v] the whole record with
      providers, accounts, egress, plugins and executors, [ConfigCheck.v] its
      validation ([semantic_problems], cut into a definition per section, and
      [has_inline_secret_material]), and [ConfigTheorems.v] the specification of a
      sound configuration ([config_ok]).
    - The adapter registry with the cost map, the pool of outbound paths and the
      latency averages ([crates/sb-adapters/src/registry.rs], [egress.rs],
      [latency.rs]): [Adapters.v], with the theorems.
    - Accounts from configuration: secrets, native tokens, pools, validation of
      credentials ([crates/sb-credentials/src/account.rs], [resolver.rs]):
      [Accounts.v], with the theorems.
    - Plugins ([crates/sb-plugin/src/lib.rs], [wasm.rs]): [Plugins.v].
    - The router ([crates/sb-router/src/lib.rs]): [Router.v] holds every function
      of the crate; the long body of [plan_route] is cut into the filtering loop
      ([filter_loop]), the demotion and ordering pass ([order_survivors]) and the
      closing pass ([close_decision]). [RouterSpec.v] states which candidates are
      eligible and proves the loop against it, [RouterOrder.v] does the same for
      the ordering, and [RouterTheorems.v] has the theorems on whole plans.
    - The catalog ([catalog.rs], [workload.rs]): [Catalog.v].
    - The usage ledger ([crates/sb-ledger/src/lib.rs]): [Ledger.v], written against
      the type class [UsageStore] (operations) with its laws [UsageStoreLaws];
      [UsageTable.v] models the usage table of the SQLite store
      ([crates/sb-store/src/lib.rs]) and discharges that interface;
      [LedgerTheorems.v] has the theorems, proved against the laws only.
    - The provider circuit breaker ([crates/sb-credentials/src/breaker.rs]) and
      per-account availability ([availability.rs]): [Breaker.v],
      [Availability.v], with instants and durations from [Time.v].
    - The outcome scorecard ([crates/sb-runtime/src/scorecard/]) and the seam
      through which every attempt ends ([finish_attempt.rs]): [ScorecardEntry.v]
      (one target's evidence), [Scorecard.v] (the shared map, persistence,
      [finish_attempt], which drives breaker and scorecard together), and
      [ScorecardTheorems.v].
    - The credential resolver ([crates/sb-credentials/src/resolver.rs],
      [account.rs], [sb-core/src/credential.rs]): [Resolver.v], over [Breaker.v]
      and [Availability.v]; [ResolverTheorems.v].
    - Streams: replay, collection and metering ([crates/sb-adapter/src/lib.rs],
      [sb-runtime/src/collect.rs], [stream.rs]): [Collect.v];
      [StreamTheorems.v].
    - From a request to a plan ([sb-runtime/src/profiles.rs], [helpers.rs]):
      [Profiles.v], over the resolver, the scorecard and the router. Request
      traces ([crates/sb-trace/src/lib.rs]): [Trace.v].
    - The execution engine ([sb-runtime/src/execute.rs], [hedge.rs], [usage.rs],
      [denial.rs], [outcome.rs]): [Engine.v]. The body of [execute_inner] is cut
      into the budget gates ([spend_gate]), resolution and planning ([run_route]),
      hedging and the closing errors ([run_plan]), the loop over targets
      ([target_loop]), the loop over accounts ([account_loop]), the work on one
      account ([try_account], [retry_loop], [complete_collected],
      [fail_attempt]) and the finalizer of a committed stream
      ([finalize_stream]). [EngineTheorems.v] has the program logic,
      [EngineProperties.v] and [EngineBilling.v] the theorems, [EngineSamples.v]
      a concrete system.
    - Compression of tool results ([crates/sb-compress/src/lib.rs]), which the
      engine applies before routing: [Compress.v].
    - Publication of configurations and route preview
      ([sb-runtime/src/snapshot.rs], [audit.rs], the revision and audit tables of
      [sb-store/src/lib.rs]): [Publish.v], [PublishTheorems.v], [Preview.v].
      [Validate.v] is [Engine::validate_config], which gathers the checks of all
      parts, and puts publication, validation, registry and routing together.
    - The coordination tables of the store ([sb-store/src/lib.rs], stored responses,
      in-flight claims, tenant and admission slots) and the interval of their
      renewal ([sb-server/src/lease.rs]): [Leases.v], [LeaseTheorems.v].
    - Authentication and roles ([sb-server/src/auth.rs], [tenancy.rs]):
      [Access.v].
    - Idempotency, admission and tenant limits ([sb-server/src/idempotency.rs],
      [admission.rs], [tenancy.rs]), over [Leases.v]: [Gateway.v],
      [GatewayTheorems.v].
    - The handlers that execute a request ([sb-server/src/handlers/openai.rs],
      [anthropic.rs], [common.rs], [http_response.rs], [sse.rs]): [Handlers.v],
      [HandlerTheorems.v], with a concrete gateway in [GatewaySamples.v]. The
      body of a handler is cut at the call of the engine: [enter] is what
      precedes it, [leave] what follows, and [handle] their composition.
    - The egress guard ([crates/sb-net/src/lib.rs], the host checks of
      [sb-core/src/config.rs]): [Net.v], [NetTheorems.v].
    - The protocol codecs ([crates/sb-protocols/src/]), over JSON values
      ([Value.v]): chat completions in [OpenaiChat.v], with streams and the
      gateway between two such ends in [OpenaiTheorems.v]; messages in
      [Messages.v], [MessagesStream.v] and [MessagesRequest.v]; responses in
      [Responses.v], [ResponsesStream.v]; content generation in [Gemini.v]. The rewriting of tool schemas into a provider's dialect:
      [Schema.v], [SchemaTheorems.v]. [Codecs.v] holds each codec as the record of
      operations the adapter is given.
    - Framing of response bodies (server-sent events, JSON lines, the binary event
      stream): [Framing.v], [FramingTheorems.v].
    - Request signing and the composed adapter ([sb-adapters/src/signer.rs],
      [sigv4.rs], [composed.rs]): [Sign.v], [Wire.v]. [Chain.v]
      puts a codec's two directions, framing and the stream pump together, so that
      one gateway calls another; its module [ChainSamples] has concrete ones.
    - Execution metadata and the exact-request cache
      ([sb-core/src/execution.rs], [sb-runtime/src/execution_meta.rs]): jobs,
      fingerprints, cache policy and lookups, receipts and events in [Execution.v].
    - Embeddings ([sb-runtime/src/embeddings.rs]): [Embeddings.v], the run of
      [execute_embeddings] over the world of [Engine.v].
    - The body log ([crates/sb-bodylog/src/]): the pressure controller that decides
      whether bodies are captured ([pressure.rs]) in [Pressure.v]; the segments,
      their frames and manifests, the index, recovery and rebuild ([lib.rs]) in
      [Segments.v], with the theorems in [SegmentTheorems.v].
    - Quality evaluation ([sb-runtime/src/quality_eval/], the judgment operations of
      [sb-store/src/lib.rs]): capture, rendering, the judge's request and answer, the
      pause, the worker and the table in [Quality.v]. [process_job] is cut at the
      call of the judge into [reserve_job] and [settle_job].
    - The authority over provider accounts
      ([crates/sb-credentials/src/provider_accounts/]): aliases, importers,
      reconciliation, the revisions in the database, resolution and adjudication in
      [Enrollment.v], with the theorems in [EnrollmentTheorems.v]. The retry loop of
      [reconcile] is cut into its turns ([reconcile_turn]).
    - Language and standard library: this file (results, saturating and wrapping
      integers, stable sorting), [Text.v] (strings), [Lines.v] (lines and
      words), [BTree.v] (ordered maps), [Float.v] (binary32 and binary64).

    ** How code becomes definitions

    Structs are records and enums are inductive types with the source's fields and
    constructors; constructors of the same name in different enums carry a prefix.
    An integer is a [Z] with the wrap-around or saturation of its operation
    written at the operation. Floating point is computed by the standard library's
    executable IEEE-754 specification, bit for bit, so scores, thresholds and
    their comparisons round as in the program. Strings are byte lists. A [HashMap]
    is a [gmap]; a [BTreeMap] is a key-sorted association list, because its
    iteration order decides the order of floating-point sums and of rendered
    lists. A method that takes a mutex is one atomic step on the value behind it;
    where calls from several threads interleave, theorems quantify over arbitrary
    sequences of steps ([breaker_invariant], [breaker_open_refuses],
    [scorecard_invariant], [ledger_health_invariant]). The clock is an argument.
    The engine is a state-passing program over the [World] it shares with other
    requests; each read of the clock and each await is a [yield], at which the
    environment performs any operations of other requests on the resolver, the
    scorecard and the ledger, so its theorems hold under every interleaving. At
    the edge of the server, guards that release on drop are values, and dropping
    one is a call; what other requests and other processes do to the shared tables
    meanwhile is a sequence of operations over which the theorems quantify.

    Every definition is total and evaluates. Where recursion is not structural
    there is fuel, and it is enough because of what a turn consumes. The scan for a
    maximal run in [tiebreak_loop] and the string scans ([trim_is_empty], trimming
    and splitting in [Lines.v]) take the length of their input and use up at least
    one element a turn. [account_loop] takes one more than the number of configured
    accounts, because every turn excludes another account and the last one finds
    none ([fallback_terminates] proves that the fuel is never used up). The wait for
    a durable admission slot takes the rounds of its environment; each sleeps at
    least ten milliseconds, so [acquire_terminates] bounds them by the timeout. The
    [loop] of the router's filter has at most two turns, because the first one sets
    the flag on which the second one breaks: [filter_loop] is those two turns. The
    decoders of [Framing.v] and [utf8_lossy_fuel] take the length of their buffer, of
    which every frame, message or character consumes at least one byte. The
    rewriting of schemas counts down [MAX_DOWNLEVEL_DEPTH], as the source does. The
    embeddings loop has the fuel of [account_loop]. [scan_frames] takes the length of
    the segment's file, of which every frame consumes its header; [valid_suffix] takes
    the bytes behind its start and drops one a turn ([valid_suffix_ok]).
    [base32_drain] has two turns, because at most four bits are left over when a byte
    adds eight.

    ** What the theorems show

    - Engine. The fallback ends in every environment within a bound on its calls
      ([fallback_terminates]); without hedging the calls of a run follow the plan,
      target by target, and the allow-lists ([fallback_order]); every call is finished exactly once
      ([attempts_finished_once]); a tenant's requests stay with its providers and
      accounts ([tenant_isolation]); used-up budgets stop a request or skip a
      provider ([over_budget_refused], [provider_gate_skips]); what is answered
      is billed once, at the price of the call that answered, and what fails is not,
      while no other request writes to the ledger ([response_billed_once],
      [stream_billed_on_clean_end]). Hedging escapes the allow-lists and the
      provider gates ([hedge_bypasses_policy]).
    - Edge of the server. A keyed request that was answered is answered from the
      store from then on, and while it runs a duplicate is refused
      ([duplicate_never_executes], [concurrent_duplicate_refused]); every path of
      the handler gives back what it took ([handler_gives_back]); the counters are
      exactly the guards that are out ([edge_accounts]); the request that runs
      belongs to the authenticated tenant ([request_attributed]); keys of different
      callers do not meet ([scoped_key_isolates]); the wait for a slot ends
      ([acquire_terminates]); the frames of a stream say how it ended
      ([sse_body_honest]).
    - Coordination tables, for any number of processes: slots stay within their
      limit ([slots_bounded]), a claim is exclusive and renewals keep it
      ([claim_exclusive], [renewal_keeps_claim]), a stored response is final
      ([replay_forever]), and what the tables hold for a key and answer about it is a
      function of the calls with that key ([claims_refine]).
    - Authentication. A principal is granted exactly for a configured key
      ([authenticate_characterized]), roles bound what it reaches
      ([access_control]), a key and its stored digest admit the same callers
      ([hashed_key_equivalent]).
    - Publication. Revisions are consecutive, a failed publication changes nothing
      and of competing ones a single one wins ([publications_linear]); with a
      required store the tables are the history of what was served
      ([required_history]); a preview says what execution does
      ([preview_agrees]) and has no effect ([preview_has_no_effect]).
    - Configuration. Validation finds no problem exactly in sound configurations
      ([semantic_problems_complete]), in which the order of routes decides nothing
      ([validated_order_irrelevant]); every published configuration resolves
      ([published_routes_resolve]). Pools hold the declared accounts
      ([pool_from_declarations]), can be built when validated
      ([validated_accounts_build]) and lease no expired token
      ([expired_token_never_leased]); a call leaves by the declared path, without
      authentication of the path's own ([egress_honest]); plugins add metadata or
      reject and change nothing else ([plugins_only_tag]).
    - Compression keeps a request's shape and never grows it
      ([compression_preserves]); collapsed lines can be expanded
      ([collapse_expands]). The egress guard blocks what resolves to a private
      address ([guard_blocks_private], with [private_ip_ranges], [parse_ip_wf]).
    - Wire formats. What one gateway sends as a stream another one collects to the
      same response, as far as the format carries it, through printing, framing,
      chunking and parsing ([chat_chain], [messages_chain], [responses_chain], for
      streams in the order each format can write); a request relayed between two
      chat-completion ends loses nothing ([chat_relay_lossless]); a stream of
      messages follows the protocol's nesting ([messages_stream_protocol]) and one
      of responses ends in an object that reads as what was collected, when reasoning
      comes first and arguments in place ([responses_completed_object]);
      streaming and not streaming give one response
      ([gemini_stream_is_response]). How the transport cuts a body does not matter, as
      long as text is cut between characters and line ends and fits the buffer
      ([adapter_stream_chunking]), frames of the event stream round-trip
      ([event_stream_roundtrip]). A request carries the credential of its lease, signed
      as AWS publishes it where that is the scheme, and under the reserved names no
      other ([auth_only_from_lease]), and a bounded number of cache marks
      ([cache_breakpoints_bounded]); a rewritten schema is in the dialect and one
      that was is kept ([downlevel_in_dialect], [downlevel_keeps_dialect]).
    - Resolver. Selections stay within bounds and fail only when they must
      ([resolve_within_bounds], [resolve_complete]); session affinity, round robin
      and fill-first; agreement with the pool health the router reads.
    - Streams. Collection gives the content or the right error
      ([collect_outcome]); replay and collection are inverse
      ([replay_collects]); a metered stream is transparent and accounted for once
      ([meter_exactly_once]).
    - Router. A plan holds exactly the eligible candidates
      ([plan_route_eligible]); vision is degraded exactly when it has to be and
      may be ([plan_route_degrades]); exhausted targets come last and demoted ones after
      the others that have an account, whatever the strategy ([plan_route_demotion]); within a rank the plan is
      sorted by the strategy's key or keeps its declared order
      ([plan_route_sorted], [plan_route_declared_order]); scores are in the unit
      interval ([plan_route_scores_unit]); the decision describes the plan
      ([plan_route_selection], [plan_route_rejections]).
    - Ledger. Every best-effort record is counted once and a required write fails
      closed, against any lawful store ([record_counted_once],
      [required_write_fails_closed]); the summary equals its definition by
      filtering; health is a function of the counters; recent rows, the event
      round trip, reconciliation and the bounds of cache savings.
    - Breaker and availability. An open circuit refuses until its cooldown ends,
      whatever interleaves; failures lock exactly what they are about; the
      backoff schedule; recovery; agreement of the views with the gates.
    - Scorecard. The invariant of all reachable scorecards; neutral outcomes never
      demote; a dead target is demoted and a recovered one is restored; a
      projected demotion rests on live evidence; replay rebuilds from the audit
      log and is idempotent; snapshots hydrate; a failed flush loses nothing.
    - Exact-request cache. It is a function of its history ([exact_cache_refines]); a
      redacted receipt says nothing of the body ([redacted_receipt_hides_body]); a
      receipt describes the plan ([receipt_describes_plan]).
    - Embeddings. The run ends with an answer or the error of its last failure
      ([embeddings_run]) and is billed once ([embeddings_billed_once]).
    - Body log. The controller implements a machine with three modes
      ([pressure_refines]), captures in full only while it is safe
      ([full_capture_safe]) and takes up capture again when the published conditions
      hold ([capture_resumes]); on a disk that takes the writes, what was reported done
      is read back whatever is recorded later, and after a write that is cut off, a
      stop and a recovery ([capture_durable]); a retry after such a write is not
      covered, and [retry_after_torn_append] shows why; recovery
      gives back every whole frame ([recovery_restores]) and a lost index is rebuilt
      ([rebuild_complete]).
    - Quality evaluation. Judgments and their cost stay within the caps of any 24 hours
      ([judgments_within_caps]); a job with a reservation is settled
      ([judged_job_settles]); what the judge reads is bounded and whole text
      ([render_bounded]).
    - Provider accounts. A reconciliation commits one revision against the state it
      read or changes nothing ([reconcile_atomic]); the enrolled accounts keep their
      invariant whatever is imported and adjudicated ([enrollments_invariant]); an
      alias resolves to an enrolled account without conflicts and a ready credential
      of it ([resolution_unambiguous]);
      reconciling the same observations again changes nothing
      ([reconcile_settled]); the token of one importer's file is never read
      ([zai_token_never_read]).
    - Divergences. Some comments of the source promise more than the code does:
      [plan_route_rejections_twice], [breaker_half_open_admits_all],
      [earliest_unlock_too_early], [reset_reports_expired_lock],
      [neutral_outcomes_lift_demotion], [request_fault_opens_circuit] state what
      the code does instead. [hedged_trace_not_stored] shows a trace that does not
      reach the store, [empty_server_key_admits] a configuration that admits an
      empty key, [restart_replaces_revision] a revision that a restart overwrites,
      [numeric_host_passes] and [mapped_loopback_passes] local hosts that pass the
      guard, [inline_secret_missed] a secret that is not detected,
      [router_and_ledger_prices_differ] and [cost_profile_precedence_differs]
      prices that disagree, [mock_ignores_overrides] overrides without effect,
      [sourceless_key_dropped] a declared account that validation passes and the
      pool leaves out, [truncated_reported_completed] and
      [truncated_decoded_as_stop] a truncated response reported as a complete one,
      [interleaved_args_misplaced], [late_reasoning_lost] and
      [streamed_image_lost] content a stream misplaces or loses,
      [path_sets_scheme_header] an outbound path that sends a header in which the
      provider expects its secret, [parameter_named_keyword_removed] and
      [bound_in_alternatives_kept] schemas rewritten too much and too little,
      [empty_body_digest_sent] a digest sent for an empty body,
      [server_tools_not_fingerprinted] requests that share a cache key,
      [unavailable_trace_not_stored] another trace that is not stored,
      [one_backup_resumes], [resumes_below_published_threshold] and
      [queue_drop_forgets_unbacked] capture that resumes or miscounts,
      [retry_after_torn_append], [short_segment_blocks_start] and
      [interrupted_rebuild_not_resumed] crashes the body log does not recover from,
      [skipped_probe_blocks] a pause that never ends, [count_stays_below_kept] a
      cap that cannot be reached, [merged_alias_unresolvable] and
      [merge_undone_by_reconcile] merges of accounts that do not hold,
      [expired_credential_fresh] an expired credential reported as fresh and
      [collision_across_revisions_missed] a collision that is not seen.

    ** Assumptions

    Parameters stand for what is not in the repository: SQLite's sums of real
    columns ([sum_energy] in [UsageTable.v]), the JSON rendering of an error
    histogram ([render_histogram] in [Scorecard.v]), the earliest instant the
    platform's monotonic clock can express ([clock_floor]), and the store behind
    the ledger, whose laws are the class [UsageStoreLaws], proved for the table
    model. The engine's parameters are the records [Env] (adapters, token sources,
    clocks, other requests, the order of a hedge race), [Host] (plugins, whose
    WASM modules are functions, request warnings, sampling, JSON) and [Registry]
    (targets, adapters, prices, egress names; [runtime_registry] in [Adapters.v]
    is the one of a configuration); no laws are assumed of them, except that the
    billing theorems ask that no other request writes to the ledger meanwhile.
    Accounts read the environment, the vault, files, JSON and base64 through the
    record [Sources]; the registry takes the construction of HTTP clients, the
    text of the cost map and the environment as arguments. At the edge the digest, the process
    environment, the JSON printer, the validity of header values and status codes,
    the codecs of the wire formats (fields of [Endpoint]), the URL parser and name
    resolution are parameters, of which a theorem assumes at most that a digest has
    32 bytes or does not collide on the inputs it names; the compilation of a
    snapshot from a configuration is one for publication. The codecs take fresh
    ids, the clock and base64 as arguments; framing takes CRC-32, signing SHA-256
    and HMAC, the adapter the HTTP client. The class [LineJson] says
    of the JSON library that a printed object is one line; where text is parsed
    back, a theorem asks that parsing inverts printing on the values it names.
    The body log takes the
    text of a record, compression, CRC-32 and SHA-256 as parameters with the laws of
    the class [CodecLaws] (reading inverts writing), and the disk, its failures and
    its locks as arguments. The cache takes the serializer of a fingerprint and the
    digest. The judge is a function from its request to an answer or a time-out, and
    what others do while it runs is a function on the shared state. Provider accounts
    take SHA-256, the JSON parser, Unicode normalization, base64 and the date parser
    as parameters and what the importers find on disk as the record [SourceFs]; no
    laws are assumed of them.
    Locks are never
    poisoned, because no modelled code panics while it holds one.

    ** Not modelled, and why

    The remaining tables of the store (drafts, trace events, scorecard rows, native
    history, evaluations) write rows and read them back. Retention, backup, compaction
    and reclaim of the body log walk directories around the segments that are
    modelled. Token
    refresh, the vault and OAuth are network exchange and cryptography. The control
    plane, the tap and the forward proxy are sockets, pages and process control around
    the engine; the command-line tools edit files and talk to a terminal; the
    evaluation harness is an offline tool. HTTP transport and third-party code are
    parameters where the code relies on them. *)

From Stdlib Require Import ZArith Lia Permutation Sorted.
From stdpp Require Import base list strings gmap pretty.

#[export] Set Warnings "-clear-no-such-hyp".

(** ** Notations *)

Declare Scope switchback_scope.
Delimit Scope switchback_scope with sb.
#[global] Open Scope Z_scope.

(** ** Tactics *)

(** Case analysis on every [if]/[match] of the goal and the context. *)
Ltac split_matches :=
  repeat (case_match; simplify_eq/=).

(** Split boolean connectives in the hypotheses into propositions. *)
Ltac bool_hyps :=
  repeat match goal with
  | H : (_ && _)%bool = true |- _ => apply andb_prop in H; destruct H
  | H : (_ || _)%bool = false |- _ => apply orb_false_elim in H; destruct H
  | H : negb _ = true |- _ => apply negb_true_iff in H
  | H : negb _ = false |- _ => apply negb_false_iff in H
  | H : (_ <? _) = true |- _ => apply Z.ltb_lt in H
  | H : (_ <? _) = false |- _ => apply Z.ltb_ge in H
  | H : (_ <=? _) = true |- _ => apply Z.leb_le in H
  | H : (_ <=? _) = false |- _ => apply Z.leb_gt in H
  | H : (_ =? _) = true |- _ => apply Z.eqb_eq in H
  | H : (_ =? _) = false |- _ => apply Z.eqb_neq in H
  end.

Create HintDb switchback.

(** ** Results of fallible code *)

(** Rust's [Result<A, E>]. *)
Inductive result (A E : Type) : Type :=
| Ok (a : A)
| Err (e : E).

Arguments Ok {A E} a.
Arguments Err {A E} e.

#[export] Instance result_eq_dec {A E} `{EqDecision A, EqDecision E} : EqDecision (result A E).
Proof. solve_decision. Defined.

(** The [?] operator. *)
Definition try {A B E} (r : result A E) (k : A -> result B E) : result B E :=
  match r with
  | Ok a => k a
  | Err e => Err e
  end.

Notation "'let?' x := r 'in' k" := (try r (fun x => k))
  (at level 10, x pattern, r at level 100, k at level 200,
   format "'[' 'let?'  x  :=  r  'in'  ']' '//' k") : switchback_scope.

(** ** Machine integers

    A [u32], [u64], [usize] or [i64] is a [Z]; the operations below write out
    what the Rust operation does at the bound. [usize] is 64 bits wide. *)

Definition u32_max : Z := 2 ^ 32 - 1.
Definition u64_max : Z := 2 ^ 64 - 1.
Definition i64_max : Z := 2 ^ 63 - 1.
Definition i64_min : Z := - 2 ^ 63.

Definition in_u32 (z : Z) : Prop := 0 <= z <= u32_max.
Definition in_u64 (z : Z) : Prop := 0 <= z <= u64_max.

(** [saturating_add], [saturating_mul], [saturating_sub] on an unsigned type
    whose largest value is [max]. *)
Definition sat_add (max a b : Z) : Z := Z.min max (a + b).
Definition sat_mul (max a b : Z) : Z := Z.min max (a * b).
Definition sat_sub (a b : Z) : Z := Z.max 0 (a - b).

(** Plain arithmetic and [as] casts on fixed-width integers: the release build
    wraps around. *)
Definition wrap32 (z : Z) : Z := z mod 2 ^ 32.
Definition wrap64 (z : Z) : Z := z mod 2 ^ 64.
Definition wrap_i64 (z : Z) : Z := (z + 2 ^ 63) mod 2 ^ 64 - 2 ^ 63.

(** [checked_add] on an unsigned type whose largest value is [max]. *)
Definition checked_add (max a b : Z) : option Z :=
  if a + b <=? max then Some (a + b) else None.

(** [saturating_sub] and [saturating_mul] on [i64]. *)
Definition i64_clamp (z : Z) : Z := Z.max i64_min (Z.min i64_max z).
Definition i64_sat_sub (a b : Z) : Z := i64_clamp (a - b).
Definition i64_sat_mul (a b : Z) : Z := i64_clamp (a * b).

Lemma wrap32_small z : in_u32 z -> wrap32 z = z.
Proof. unfold in_u32, u32_max, wrap32. intros H. apply Z.mod_small. lia. Qed.

Lemma wrap_i64_small z : i64_min <= z <= i64_max -> wrap_i64 z = z.
Proof.
  unfold i64_min, i64_max, wrap_i64. intros H. rewrite Z.mod_small; lia.
Qed.

Lemma wrap64_small z : in_u64 z -> wrap64 z = z.
Proof. unfold in_u64, u64_max, wrap64. intros H. apply Z.mod_small. lia. Qed.

Lemma sat_add_bounds max a b :
  0 <= max -> 0 <= a -> 0 <= b -> 0 <= sat_add max a b <= max.
Proof. unfold sat_add; lia. Qed.

Lemma sat_add_exact max a b : a + b <= max -> sat_add max a b = a + b.
Proof. unfold sat_add; lia. Qed.

Lemma sat_add_mono_l max a a' b : a <= a' -> sat_add max a b <= sat_add max a' b.
Proof. unfold sat_add; lia. Qed.

Lemma sat_sub_nonneg a b : 0 <= sat_sub a b.
Proof. unfold sat_sub; lia. Qed.

#[export] Hint Resolve sat_add_bounds sat_sub_nonneg : switchback.

(** ** Lists *)

Lemma omap_all_none {A B} (f : A -> option B) (l : list A) :
  (forall x, x ∈ l -> f x = None) -> omap f l = [].
Proof.
  induction l as [|x l IH]; intros H; simpl; [done|].
  rewrite (H x) by (by left). apply IH. intros y Hy. apply H. by right.
Qed.

(** ** Comparators and the stable sort

    [slice::sort_by] is a stable sort. The model is insertion sort; the section
    proves that a stable sort of a list under a comparator that is a total
    preorder is unique, so the choice of algorithm is not observable. *)

Class TotalPreorder {A : Type} (cmp : A -> A -> comparison) : Prop := {
  cmp_antisym : forall x y, cmp y x = CompOpp (cmp x y);
  cmp_trans : forall x y z, cmp x y <> Gt -> cmp y z <> Gt -> cmp x z <> Gt
}.

Arguments cmp_antisym {A} cmp {_} x y.
Arguments cmp_trans {A} cmp {_} x y z.

Section StableSort.
Context {A : Type} (cmp : A -> A -> comparison).

Fixpoint sort_insert (x : A) (l : list A) : list A :=
  match l with
  | [] => [x]
  | y :: l' => match cmp x y with
               | Gt => y :: sort_insert x l'
               | _ => x :: y :: l'
               end
  end.

Fixpoint sort_by (l : list A) : list A :=
  match l with
  | [] => []
  | x :: l' => sort_insert x (sort_by l')
  end.

Definition cmp_le (x y : A) : Prop := cmp x y <> Gt.

Definition same_class (x y : A) : bool :=
  match cmp x y with Eq => true | _ => false end.

Lemma sort_insert_perm x l : sort_insert x l ≡ₚ x :: l.
Proof.
  induction l as [|y l IH]; simpl; [done|].
  destruct (cmp x y); [done..|]. rewrite IH. apply Permutation_swap.
Qed.

Lemma sort_by_perm l : sort_by l ≡ₚ l.
Proof.
  induction l as [|x l IH]; simpl; [done|]. by rewrite sort_insert_perm, IH.
Qed.

Lemma elem_of_sort_by x l : x ∈ sort_by l <-> x ∈ l.
Proof. by rewrite sort_by_perm. Qed.

Lemma length_sort_by l : length (sort_by l) = length l.
Proof. by rewrite sort_by_perm. Qed.

Lemma sort_insert_forall (P : A -> Prop) x l :
  P x -> Forall P l -> Forall P (sort_insert x l).
Proof. intros. rewrite sort_insert_perm. by constructor. Qed.

Context `{!TotalPreorder cmp}.

Lemma cmp_refl x : cmp x x = Eq.
Proof. pose proof (cmp_antisym cmp x x) as H. by destruct (cmp x x). Qed.

Lemma cmp_le_total x y : cmp_le x y \/ cmp_le y x.
Proof. unfold cmp_le. rewrite (cmp_antisym cmp x y). by destruct (cmp x y); [left..|right]. Qed.

Lemma cmp_gt_le x y : cmp x y = Gt -> cmp_le y x.
Proof. unfold cmp_le. rewrite (cmp_antisym cmp x y). by intros ->. Qed.

Lemma sort_insert_sorted x l :
  StronglySorted cmp_le l -> StronglySorted cmp_le (sort_insert x l).
Proof.
  induction 1 as [|y l Hl IH Hy]; simpl; [by repeat constructor|].
  destruct (cmp x y) eqn:E.
  1,2: constructor; [by constructor|];
    constructor; [unfold cmp_le; congruence|];
    eapply Forall_impl; [exact Hy|]; intros z Hz;
    eapply (cmp_trans cmp); [|exact Hz]; congruence.
  constructor; [done|]. rewrite sort_insert_perm.
  constructor; [by apply cmp_gt_le|done].
Qed.

Lemma sort_by_sorted l : StronglySorted cmp_le (sort_by l).
Proof. induction l; simpl; [constructor|by apply sort_insert_sorted]. Qed.

(** Sorting a sorted list changes nothing. *)
Lemma sort_by_id l : StronglySorted cmp_le l -> sort_by l = l.
Proof.
  induction 1 as [|x l Hl IH Hx]; simpl; [done|]. rewrite IH.
  destruct Hx as [|y l Hy Hx]; simpl; [done|].
  unfold cmp_le in Hy. by destruct (cmp x y).
Qed.

Lemma same_class_eq x y : same_class x y = true -> cmp x y = Eq.
Proof. unfold same_class. by destruct (cmp x y). Qed.

(** Stability: each equivalence class keeps its relative order. *)
Lemma sort_insert_class z x l :
  List.filter (same_class z) (sort_insert x l)
  = List.filter (same_class z) (x :: l).
Proof.
  induction l as [|y l IH]; simpl; [done|].
  destruct (cmp x y) eqn:E; [done..|]. simpl. rewrite IH. simpl.
  destruct (same_class z x) eqn:Ex, (same_class z y) eqn:Ey; try done.
  exfalso. apply same_class_eq in Ex, Ey. assert (cmp x y <> Gt); [|done].
  apply (cmp_trans cmp x z y); [rewrite (cmp_antisym cmp), Ex|rewrite Ey]; done.
Qed.

Lemma sort_by_class z l :
  List.filter (same_class z) (sort_by l) = List.filter (same_class z) l.
Proof.
  induction l as [|x l IH]; simpl; [done|].
  rewrite sort_insert_class. simpl. by rewrite IH.
Qed.

Lemma same_class_refl x : same_class x x = true.
Proof. unfold same_class. by rewrite cmp_refl. Qed.

Lemma sorted_class_heads x y l l' :
  StronglySorted cmp_le (x :: l) -> StronglySorted cmp_le (y :: l') ->
  (forall z, List.filter (same_class z) (x :: l) = List.filter (same_class z) (y :: l')) ->
  x = y.
Proof.
  intros Hl Hl' Hc.
  assert (Hin : forall (a b : A) l1 l2, (forall z, List.filter (same_class z) (a :: l1)
      = List.filter (same_class z) (b :: l2)) -> In a (b :: l2)).
  { intros a b l1 l2 H. assert (In a (List.filter (same_class a) (b :: l2))) as H'.
    { rewrite <- H. simpl. rewrite same_class_refl. by left. }
    by apply List.filter_In in H' as [? _]. }
  assert (Hxy : cmp_le x y).
  { destruct (Hin y x l' l) as [->|Hy]; [done|unfold cmp_le; by rewrite cmp_refl|].
    apply StronglySorted_inv in Hl as [_ Hl]. rewrite List.Forall_forall in Hl. auto. }
  assert (Hyx : cmp_le y x).
  { destruct (Hin x y l l') as [->|Hx]; [done|unfold cmp_le; by rewrite cmp_refl|].
    apply StronglySorted_inv in Hl' as [_ Hl']. rewrite List.Forall_forall in Hl'. auto. }
  specialize (Hc x). simpl in Hc. rewrite same_class_refl in Hc.
  unfold same_class at 2 in Hc. unfold cmp_le in *.
  rewrite (cmp_antisym cmp x y) in Hyx.
  destruct (cmp x y); simpl in *; congruence.
Qed.

Lemma sorted_same_classes l l' :
  StronglySorted cmp_le l -> StronglySorted cmp_le l' ->
  (forall z, List.filter (same_class z) l = List.filter (same_class z) l') ->
  l = l'.
Proof.
  revert l'. induction l as [|x l IH]; intros [|y l'] Hl Hl' Hc; [done|..].
  - specialize (Hc y). simpl in Hc. by rewrite same_class_refl in Hc.
  - specialize (Hc x). simpl in Hc. by rewrite same_class_refl in Hc.
  - assert (x = y) as -> by (by eapply sorted_class_heads).
    f_equal. apply IH.
    + by apply StronglySorted_inv in Hl as [? _].
    + by apply StronglySorted_inv in Hl' as [? _].
    + intros z. specialize (Hc z). simpl in Hc.
      destruct (same_class z y); congruence.
Qed.

(** A sorted list that keeps every equivalence class of [l] in order is
    [sort_by l]. *)
Lemma stable_sort_unique l l' :
  StronglySorted cmp_le l' ->
  (forall z, List.filter (same_class z) l' = List.filter (same_class z) l) ->
  l' = sort_by l.
Proof.
  intros Hs Hc. apply sorted_same_classes; [done|apply sort_by_sorted|].
  intros z. by rewrite Hc, sort_by_class.
Qed.

End StableSort.

(** Two comparators that agree on the elements of a list sort it the same way. *)
Lemma sort_by_ext {A} (cmp cmp' : A -> A -> comparison) l :
  (forall x y, x ∈ l -> y ∈ l -> cmp x y = cmp' x y) ->
  sort_by cmp l = sort_by cmp' l.
Proof.
  intros Hext. induction l as [|x l IH]; simpl; [done|].
  rewrite IH by (intros; apply Hext; by apply elem_of_cons; right).
  assert (Hin : forall y, y ∈ sort_by cmp' l -> cmp x y = cmp' x y).
  { intros y Hy. apply Hext; [by left|]. right. by apply elem_of_sort_by in Hy. }
  clear IH Hext. induction (sort_by cmp' l) as [|y s IHs]; simpl; [done|].
  rewrite <- (Hin y) by (by left).
  destruct (cmp x y); [done..|]. f_equal. apply IHs. intros z Hz. apply Hin. by right.
Qed.

(** Comparing by a key, in reverse, and an optional key. *)
Lemma on_preorder {A B} (f : A -> B) (cmp : B -> B -> comparison)
  `{!TotalPreorder cmp} : TotalPreorder (fun a b => cmp (f a) (f b)).
Proof.
  split; intros; [apply (cmp_antisym cmp)|by eapply (cmp_trans cmp)].
Qed.

Lemma rev_preorder {A} (cmp : A -> A -> comparison)
  `{!TotalPreorder cmp} : TotalPreorder (fun a b => cmp b a).
Proof.
  split; intros; [apply (cmp_antisym cmp)|by eapply (cmp_trans cmp)].
Qed.

#[export] Instance Z_preorder : TotalPreorder Z.compare.
Proof.
  split; [intros; apply Z.compare_antisym|].
  intros x y z. destruct (Z.compare_spec x y), (Z.compare_spec y z),
    (Z.compare_spec x z); done || lia.
Qed.

(** [None] before every value ([none_first]) or after every value. *)
Definition none_last {A} (cmp : A -> A -> comparison) (a b : option A) : comparison :=
  match a, b with
  | Some x, Some y => cmp x y
  | Some _, None => Lt
  | None, Some _ => Gt
  | None, None => Eq
  end.

Definition none_first {A} (cmp : A -> A -> comparison) (a b : option A) : comparison :=
  match a, b with
  | Some x, Some y => cmp x y
  | None, Some _ => Lt
  | Some _, None => Gt
  | None, None => Eq
  end.

#[export] Instance none_last_preorder {A} (cmp : A -> A -> comparison)
  `{!TotalPreorder cmp} : TotalPreorder (none_last cmp).
Proof.
  split; [intros [x|] [y|]; simpl; try done; apply (cmp_antisym cmp)|].
  intros [x|] [y|] [z|]; simpl; try done. apply (cmp_trans cmp).
Qed.

#[export] Instance none_first_preorder {A} (cmp : A -> A -> comparison)
  `{!TotalPreorder cmp} : TotalPreorder (none_first cmp).
Proof.
  split; [intros [x|] [y|]; simpl; try done; apply (cmp_antisym cmp)|].
  intros [x|] [y|] [z|]; simpl; try done. apply (cmp_trans cmp).
Qed.

(** Lexicographic comparison. *)
Definition lex_cmp {A B} (ca : A -> A -> comparison) (cb : B -> B -> comparison)
    (x y : A * B) : comparison :=
  match ca x.1 y.1 with Eq => cb x.2 y.2 | c => c end.

#[export] Instance lex_preorder {A B} (ca : A -> A -> comparison) (cb : B -> B -> comparison)
  `{!TotalPreorder ca, !TotalPreorder cb} : TotalPreorder (lex_cmp ca cb).
Proof.
  unfold lex_cmp. split.
  - intros [a b] [a' b']; simpl. rewrite (cmp_antisym ca a a').
    destruct (ca a a'); simpl; [apply (cmp_antisym cb)|done..].
  - intros [a b] [a' b'] [a'' b'']; simpl. intros H1 H2.
    pose proof (cmp_trans ca a a' a'') as T1.
    pose proof (cmp_trans ca a'' a a') as T2.
    pose proof (cmp_trans ca a' a'' a) as T3.
    rewrite (cmp_antisym ca a a''), (cmp_antisym ca a' a'') in T2.
    rewrite (cmp_antisym ca a a''), (cmp_antisym ca a a') in T3.
    destruct (ca a a') eqn:E1, (ca a' a'') eqn:E2, (ca a a'') eqn:E3;
      simpl in *; try done; try (by eapply (cmp_trans cb));
      exfalso; first [by apply T1|by apply T2|by apply T3].
Qed.
