(* ===== verification/Text.v ===== *)
(** * Strings

    Rust strings are UTF-8 byte sequences; a [string] here is the list of those
    bytes. This file holds the string operations of the standard library that
    the modelled code calls, and the formatting of integers and booleans. *)

From Stdlib Require Import ZArith Lia Ascii.
From Stdlib Require String.
From stdpp Require Import base list strings pretty.
From S2P Require Import Prelude.

#[local] Open Scope Z_scope.

Notation "a ^^ b" := (String.append a b) (at level 60, right associativity) : switchback_scope.
#[global] Open Scope switchback_scope.

(** ** Formatting *)

(** [format!("{b}")] for a [bool] and [format!("{n}")] for an integer. *)
Definition fmt_bool (b : bool) : string := if b then "true" else "false".
Definition fmt_int (z : Z) : string := pretty z.

(** [slice::join]. *)
Fixpoint join (sep : string) (l : list string) : string :=
  match l with
  | [] => EmptyString
  | [s] => s
  | s :: l' => s ^^ sep ^^ join sep l'
  end.

(** ** Tests and searches *)

(** [==] on [&str]. *)
Definition str_eqb (a b : string) : bool := bool_decide (a = b).

(** [str::strip_prefix]. *)
Fixpoint strip_prefix (p s : string) : option string :=
  match p, s with
  | EmptyString, _ => Some s
  | String a p', String b s' => if Ascii.eqb a b then strip_prefix p' s' else None
  | String _ _, EmptyString => None
  end.

Definition starts_with (p s : string) : bool :=
  match strip_prefix p s with Some _ => true | None => false end.

(** [str::contains]. *)
Fixpoint contains (pat s : string) : bool :=
  starts_with pat s ||
  match s with
  | EmptyString => false
  | String _ s' => contains pat s'
  end.

(** [str::split_once]: cut at the first occurrence of the separator. *)
Fixpoint split_once (sep s : string) : option (string * string) :=
  match strip_prefix sep s with
  | Some rest => Some (EmptyString, rest)
  | None =>
      match s with
      | EmptyString => None
      | String c s' =>
          match split_once sep s' with
          | Some (a, b) => Some (String c a, b)
          | None => None
          end
      end
  end.

(** [str::is_empty]. *)
Definition is_empty (s : string) : bool :=
  match s with EmptyString => true | String _ _ => false end.

(** [str::to_ascii_lowercase]. *)
Definition ascii_lower (c : ascii) : ascii :=
  let n := nat_of_ascii c in
  if (Nat.leb 65 n && Nat.leb n 90)%bool then ascii_of_nat (n + 32) else c.

Fixpoint to_ascii_lowercase (s : string) : string :=
  match s with
  | EmptyString => EmptyString
  | String c s' => String (ascii_lower c) (to_ascii_lowercase s')
  end.

(** One leading white-space character removed, by its UTF-8 encoding: the code
    points with the Unicode property [White_Space], which is what [str::trim]
    removes. *)
Definition strip_ws (s : string) : option string :=
  match s with
  | EmptyString => None
  | String c s1 =>
      let n := nat_of_ascii c in
      if (Nat.leb 9 n && Nat.leb n 13)%bool || Nat.eqb n 32 then Some s1
      else match s1 with
      | EmptyString => None
      | String c2 s2 =>
          let n2 := nat_of_ascii c2 in
          if Nat.eqb n 194 && (Nat.eqb n2 133 || Nat.eqb n2 160) then Some s2
          else match s2 with
          | EmptyString => None
          | String c3 s3 =>
              let n3 := nat_of_ascii c3 in
              if (Nat.eqb n 225 && Nat.eqb n2 154 && Nat.eqb n3 128)
                 || (Nat.eqb n 226 && Nat.eqb n2 128
                     && ((Nat.leb 128 n3 && Nat.leb n3 138) || Nat.eqb n3 168
                         || Nat.eqb n3 169 || Nat.eqb n3 175))
                 || (Nat.eqb n 226 && Nat.eqb n2 129 && Nat.eqb n3 159)
                 || (Nat.eqb n 227 && Nat.eqb n2 128 && Nat.eqb n3 128)
              then Some s3 else None
          end
      end
  end.

(** [s.trim().is_empty()]: the string is white space only. The fuel is the
    length of the string, one more than the characters there are to remove. *)
Fixpoint blank_fuel (fuel : nat) (s : string) : bool :=
  match s with
  | EmptyString => true
  | String _ _ =>
      match fuel with
      | O => false
      | S f => match strip_ws s with Some s' => blank_fuel f s' | None => false end
      end
  end.

Definition trim_is_empty (s : string) : bool := blank_fuel (String.length s) s.

(** ** Lemmas *)

Lemma str_eqb_eq a b : str_eqb a b = true <-> a = b.
Proof. unfold str_eqb. by rewrite bool_decide_eq_true. Qed.

Lemma str_eqb_refl a : str_eqb a a = true.
Proof. by apply str_eqb_eq. Qed.

Lemma append_assoc a b c : (a ^^ b) ^^ c = a ^^ b ^^ c.
Proof. induction a as [|x a IH]; [done|]. apply (f_equal (String x)), IH. Qed.

Lemma append_nil_r a : a ^^ EmptyString = a.
Proof. induction a as [|x a IH]; [done|]. apply (f_equal (String x)), IH. Qed.

Lemma strip_prefix_spec p s r : strip_prefix p s = Some r <-> s = p ^^ r.
Proof.
  revert s. induction p as [|a p IH]; intros s; simpl.
  - split; [by intros [= ->]|by intros ->].
  - destruct s as [|b s]; simpl; [done|].
    destruct (Ascii.eqb_spec a b) as [->|Hne].
    + rewrite IH. split; [by intros ->|by intros [= ->]].
    + split; [done|]. by intros [= -> ->].
Qed.

Lemma split_once_spec sep s a b :
  split_once sep s = Some (a, b) -> s = a ^^ sep ^^ b.
Proof.
  revert a b. induction s as [|c s IH]; intros a b; cbn [split_once].
  - destruct (strip_prefix sep EmptyString) as [r|] eqn:E; intros [=<- <-].
    by apply strip_prefix_spec in E.
  - destruct (strip_prefix sep (String c s)) as [r|] eqn:E.
    + intros [=<- <-]. by apply strip_prefix_spec in E.
    + destruct (split_once sep s) as [[a' b']|]; [|done].
      intros [=<- <-]. simpl. by rewrite (IH a' b').
Qed.

Lemma strip_ws_shorter s s' : strip_ws s = Some s' -> (String.length s' < String.length s)%nat.
Proof.
  unfold strip_ws. intros H.
  repeat (case_match; simplify_eq/=; try lia).
Qed.

(** More fuel never changes the answer. *)
Lemma blank_fuel_enough s f g :
  (String.length s <= f)%nat -> (String.length s <= g)%nat ->
  blank_fuel f s = blank_fuel g s.
Proof.
  revert s g. induction f as [|f IH]; intros s g Hf Hg; destruct s as [|c s].
  - by destruct g.
  - simpl in Hf. lia.
  - by destruct g.
  - destruct g as [|g]; simpl in Hg; [lia|].
    cbn [blank_fuel]. destruct (strip_ws (String c s)) as [s'|] eqn:E; [|done].
    apply strip_ws_shorter in E. simpl in *. apply IH; lia.
Qed.

Example blank_example :
  trim_is_empty (String (ascii_of_nat 32) (String (ascii_of_nat 226)
    (String (ascii_of_nat 128) (String (ascii_of_nat 131) EmptyString)))) = true
  /\ trim_is_empty " x " = false /\ to_ascii_lowercase "Coder-7B" = "coder-7b"
  /\ contains "code" "qwen-coder" = true /\ join "," ["a"; "b"; "c"] = "a,b,c"
  /\ split_once ";base64," "image/png;base64,AA" = Some ("image/png", "AA").
Proof. vm_compute. done. Qed.
