(* ===== verification/BTree.v ===== *)
(** * Ordered maps

    [BTreeMap<K, V>] as the list of its entries in key order: iteration order,
    which is what floating-point sums and rendered lists depend on, is the order
    of the list. Keys are ordered by [key_cmp]. *)

From Stdlib Require Import ZArith Lia Ascii Sorted.
From Stdlib Require String.
From stdpp Require Import base list strings.
From S2P Require Import Prelude.

(** [Ord] on a key type, and its laws. *)
Class KeyOrd (K : Type) := key_cmp : K -> K -> comparison.

Class KeyOrdLaws (K : Type) `{KeyOrd K} : Prop := {
  key_cmp_eq : forall x y : K, key_cmp x y = Eq <-> x = y;
  key_cmp_antisym : forall x y : K, key_cmp y x = CompOpp (key_cmp x y);
  key_cmp_lt_trans : forall x y z : K,
    key_cmp x y = Lt -> key_cmp y z = Lt -> key_cmp x z = Lt
}.

(** Strings compare byte by byte. *)
#[export] Instance string_ord : KeyOrd string := String.compare.

Definition BTreeMap (K V : Type) : Type := list (K * V).

Section BTreeMap.
Context {K V : Type} `{KeyOrd K}.

Fixpoint bt_get (k : K) (m : BTreeMap K V) : option V :=
  match m with
  | [] => None
  | (k', v) :: m' => match key_cmp k k' with
                     | Lt => None
                     | Eq => Some v
                     | Gt => bt_get k m'
                     end
  end.

Fixpoint bt_insert (k : K) (v : V) (m : BTreeMap K V) : BTreeMap K V :=
  match m with
  | [] => [(k, v)]
  | (k', v') :: m' => match key_cmp k k' with
                      | Lt => (k, v) :: (k', v') :: m'
                      | Eq => (k, v) :: m'
                      | Gt => (k', v') :: bt_insert k v m'
                      end
  end.

(** [iter.collect::<BTreeMap<_, _>>()]: a later entry for a key replaces an
    earlier one. *)
Definition bt_collect (l : list (K * V)) : BTreeMap K V :=
  fold_left (fun m kv => bt_insert kv.1 kv.2 m) l [].

(** [map.entry(k).or_default()] followed by an update through the reference. *)
Definition bt_update (k : K) (default : V) (f : V -> V) (m : BTreeMap K V) : BTreeMap K V :=
  bt_insert k (f (match bt_get k m with Some v => v | None => default end)) m.

Definition bt_lt (a b : K * V) : Prop := key_cmp a.1 b.1 = Lt.

Definition bt_wf (m : BTreeMap K V) : Prop := StronglySorted bt_lt m.

Context `{!KeyOrdLaws K}.

Lemma key_cmp_refl (k : K) : key_cmp k k = Eq.
Proof. by apply key_cmp_eq. Qed.

Lemma key_cmp_gt (x y : K) : key_cmp x y = Gt -> key_cmp y x = Lt.
Proof. rewrite (key_cmp_antisym x y). by intros ->. Qed.

Lemma bt_get_insert_eq k v (m : BTreeMap K V) : bt_get k (bt_insert k v m) = Some v.
Proof.
  induction m as [|[k' v'] m IH]; simpl; [by rewrite key_cmp_refl|].
  destruct (key_cmp k k') eqn:E; simpl; rewrite ?key_cmp_refl, ?E; done.
Qed.

Lemma bt_get_below k (m : BTreeMap K V) v k0 :
  bt_wf ((k0, v) :: m) -> key_cmp k k0 <> Gt -> bt_get k m = None.
Proof.
  intros [Hm Hk]%StronglySorted_inv Hle.
  destruct m as [|[k1 v1] m]; simpl; [done|].
  inversion Hk as [|?? H1 _]; subst. unfold bt_lt in H1; simpl in H1.
  assert (key_cmp k k1 = Lt) as ->; [|done].
  destruct (key_cmp k k0) eqn:E; [|by eapply key_cmp_lt_trans|done].
  apply key_cmp_eq in E. by subst.
Qed.

Lemma bt_get_insert_ne k k' v (m : BTreeMap K V) :
  bt_wf m -> k <> k' -> bt_get k (bt_insert k' v m) = bt_get k m.
Proof.
  intros Hwf Hne. induction m as [|[k0 v0] m IH]; simpl.
  - destruct (key_cmp k k') eqn:E; [|done..]. by apply key_cmp_eq in E.
  - assert (Hwf' := Hwf). apply StronglySorted_inv in Hwf' as [Hm _].
    destruct (key_cmp k' k0) eqn:E; simpl.
    + apply key_cmp_eq in E as ->.
      destruct (key_cmp k k0) eqn:E'; [by apply key_cmp_eq in E'|done..].
    + destruct (key_cmp k k') eqn:E'; [by apply key_cmp_eq in E'| |done].
      by rewrite (key_cmp_lt_trans k k' k0).
    + by rewrite IH.
Qed.

Lemma bt_insert_forall (P : K * V -> Prop) k v (m : BTreeMap K V) :
  P (k, v) -> Forall P m -> Forall P (bt_insert k v m).
Proof.
  intros Hk. induction 1 as [|[k' v'] m Hx Hm IH]; simpl; [by repeat constructor|].
  destruct (key_cmp k k'); by repeat constructor.
Qed.

Lemma bt_insert_wf k v (m : BTreeMap K V) : bt_wf m -> bt_wf (bt_insert k v m).
Proof.
  unfold bt_wf. induction 1 as [|[k' v'] m Hm IH Hk]; simpl; [by repeat constructor|].
  destruct (key_cmp k k') eqn:E.
  - apply key_cmp_eq in E as ->. by constructor.
  - constructor; [by constructor|]. constructor; [done|].
    eapply Forall_impl; [exact Hk|]. intros x Hx.
    unfold bt_lt in *; simpl in *. by eapply key_cmp_lt_trans.
  - constructor; [done|]. apply bt_insert_forall; [|done].
    unfold bt_lt; simpl. by apply key_cmp_gt.
Qed.

Lemma bt_update_wf k d f (m : BTreeMap K V) : bt_wf m -> bt_wf (bt_update k d f m).
Proof. apply bt_insert_wf. Qed.

Lemma bt_get_update_eq k d f (m : BTreeMap K V) :
  bt_get k (bt_update k d f m)
  = Some (f (match bt_get k m with Some v => v | None => d end)).
Proof. apply bt_get_insert_eq. Qed.

Lemma bt_get_update_ne k k' d f (m : BTreeMap K V) :
  bt_wf m -> k <> k' -> bt_get k (bt_update k' d f m) = bt_get k m.
Proof. apply bt_get_insert_ne. Qed.

Lemma bt_collect_acc_wf (l : list (K * V)) m :
  bt_wf m -> bt_wf (fold_left (fun m kv => bt_insert kv.1 kv.2 m) l m).
Proof. revert m. induction l; simpl; [done|]. intros. by apply IHl, bt_insert_wf. Qed.

Lemma bt_collect_wf (l : list (K * V)) : bt_wf (bt_collect l).
Proof. apply bt_collect_acc_wf. constructor. Qed.

Lemma bt_collect_acc_get (l : list (K * V)) m k :
  bt_wf m -> k ∉ l.*1 ->
  bt_get k (fold_left (fun m kv => bt_insert kv.1 kv.2 m) l m) = bt_get k m.
Proof.
  revert m. induction l as [|[k' v'] l IH]; intros m Hm Hk; simpl; [done|].
  simpl in Hk. apply not_elem_of_cons in Hk as [Hne Hk].
  rewrite IH; [|by apply bt_insert_wf|done]. by apply bt_get_insert_ne.
Qed.

(** Collecting a list without duplicate keys looks up like the list. *)
Lemma bt_collect_get (l : list (K * V)) k v :
  NoDup l.*1 -> (k, v) ∈ l -> bt_get k (bt_collect l) = Some v.
Proof.
  unfold bt_collect. generalize (SSorted_nil bt_lt : bt_wf []).
  generalize ([] : BTreeMap K V). induction l as [|[k' v'] l IH]; intros m Hm Hnd Hin.
  { by apply not_elem_of_nil in Hin. }
  simpl in *. apply NoDup_cons in Hnd as [Hk' Hnd].
  apply elem_of_cons in Hin as [[= <- <-]|Hin].
  - rewrite bt_collect_acc_get; [apply bt_get_insert_eq|by apply bt_insert_wf|done].
  - apply IH; [by apply bt_insert_wf|done|done].
Qed.

End BTreeMap.

(** ** Strings are ordered *)

Lemma string_compare_lt_trans (x y z : string) :
  String.compare x y = Lt -> String.compare y z = Lt -> String.compare x z = Lt.
Proof.
  revert y z. induction x as [|a x IH]; intros [|b y] [|c z]; simpl; try done.
  unfold Ascii.compare. intros H1 H2.
  destruct (N.compare_spec (N_of_ascii a) (N_of_ascii b)) as [E1|E1|E1],
    (N.compare_spec (N_of_ascii b) (N_of_ascii c)) as [E2|E2|E2]; try done.
  - rewrite E1, E2, N.compare_refl. by eapply IH.
  - rewrite E1. by apply N.compare_lt_iff in E2 as ->.
  - rewrite <- E2. by apply N.compare_lt_iff in E1 as ->.
  - assert (E : (N_of_ascii a < N_of_ascii c)%N) by lia.
    by apply N.compare_lt_iff in E as ->.
Qed.

Lemma string_compare_refl (x : string) : String.compare x x = Eq.
Proof. induction x as [|a x IH]; simpl; [done|]. unfold Ascii.compare. by rewrite N.compare_refl. Qed.

#[export] Instance string_ord_laws : KeyOrdLaws string.
Proof.
  split.
  - intros x y. split; [apply String.compare_eq_iff|intros ->; apply string_compare_refl].
  - intros x y. apply String.compare_antisym.
  - apply string_compare_lt_trans.
Qed.

#[export] Instance string_preorder : TotalPreorder String.compare.
Proof.
  split.
  - intros x y. apply String.compare_antisym.
  - intros x y z Hxy Hyz. pose proof (String.compare_eq_iff x y) as E1.
    pose proof (String.compare_eq_iff y z) as E2.
    destruct (String.compare x y) eqn:Exy; [rewrite (E1 eq_refl); done| |done].
    destruct (String.compare y z) eqn:Eyz; [by rewrite <- (E2 eq_refl), Exy| |done].
    by rewrite (string_compare_lt_trans x y z).
Qed.
