(* ===== verification/Float.v ===== *)
(** * Floating point

    [f64] and [f32] are IEEE-754 binary64 and binary32, computed by the
    standard library's executable specification [SpecFloat]: every arithmetic
    operation below rounds to nearest, ties to even, as the Rust operators do.
    The file adds the Rust-level operations the code uses ([partial_cmp],
    [clamp], [min], [max], [as] casts, [{:.k}] formatting) and the order facts
    the routing proofs need. *)

From Stdlib Require Import ZArith Lia SpecFloat Ascii.
From stdpp Require Import base list strings pretty tactics.
From S2P Require Import Prelude Text.

#[local] Open Scope Z_scope.

Definition f64 : Type := spec_float.
Definition f32 : Type := spec_float.

Definition f64_add (x y : f64) : f64 := SFadd 53 1024 x y.
Definition f64_sub (x y : f64) : f64 := SFsub 53 1024 x y.
Definition f64_mul (x y : f64) : f64 := SFmul 53 1024 x y.
Definition f64_div (x y : f64) : f64 := SFdiv 53 1024 x y.
Definition f64_abs (x : f64) : f64 := SFabs x.
Definition f32_mul (x y : f32) : f32 := SFmul 24 128 x y.

(** [n as f64], [n as f32] from an integer. *)
Definition f64_of_Z (n : Z) : f64 := binary_normalize 53 1024 n 0 false.
Definition f32_of_Z (n : Z) : f32 := binary_normalize 24 128 n 0 false.

(** The literal [num / den], for a decimal literal whose numerator and
    denominator are exact: the division is the literal's correct rounding. *)
Definition f64_lit (num den : Z) : f64 := f64_div (f64_of_Z num) (f64_of_Z den).

Definition f64_zero : f64 := S754_zero false.
Definition f64_one : f64 := f64_of_Z 1.
Definition f64_half : f64 := f64_lit 1 2.

(** [f64::EPSILON], which is [2^-52]. *)
Definition f64_epsilon : f64 := f64_lit 1 (2 ^ 52).

(** [x as f32] and [x as f64]. *)
Definition f32_of_f64 (x : f64) : f32 :=
  match x with S754_finite s m e => binary_round 24 128 s m e | _ => x end.
Definition f64_of_f32 (x : f32) : f64 :=
  match x with S754_finite s m e => binary_round 53 1024 s m e | _ => x end.

(** [f64::from(bool)]. *)
Definition f64_of_bool (b : bool) : f64 := if b then f64_one else f64_zero.

Definition is_nan (x : spec_float) : bool :=
  match x with S754_nan => true | _ => false end.
Definition is_finite (x : spec_float) : bool :=
  match x with S754_nan | S754_infinity _ => false | _ => true end.

(** [partial_cmp] and the comparison operators (false on a NaN operand). *)
Definition partial_cmp (x y : spec_float) : option comparison := SFcompare x y.
Definition f_lt (x y : spec_float) : bool := SFltb x y.
Definition f_le (x y : spec_float) : bool := SFleb x y.

(** [x.partial_cmp(&y).unwrap_or(Ordering::Equal)]. *)
Definition cmp_or_eq (x y : spec_float) : comparison := default Eq (partial_cmp x y).

(** [f64::min], [f64::max]: the other operand when one is a NaN. *)
Definition f_min (x y : spec_float) : spec_float :=
  if is_nan x then y else if is_nan y then x else if f_lt y x then y else x.
Definition f_max (x y : spec_float) : spec_float :=
  if is_nan x then y else if is_nan y then x else if f_lt x y then y else x.

(** [f64::clamp]; a NaN stays a NaN. *)
Definition f_clamp (x lo hi : spec_float) : spec_float :=
  if f_lt x lo then lo else if f_lt hi x then hi else x.

(** [f64::ceil]. *)
Definition f64_ceil (x : f64) : f64 :=
  match x with
  | S754_finite s m e =>
      if 0 <=? e then x
      else
        let z := cond_Zopp s (Zpos m) in
        binary_normalize 53 1024 (- ((- z) / 2 ^ (- e))) 0 s
  | _ => x
  end.

(** [x as uN] where [max] is the largest value of the type: truncates towards
    zero, saturates, and maps a NaN to 0. *)
Definition f_to_uint (max : Z) (x : spec_float) : Z :=
  match x with
  | S754_finite false m e =>
      Z.min max (if 0 <=? e then Zpos m * 2 ^ e else Zpos m / 2 ^ (- e))
  | S754_infinity false => max
  | _ => 0
  end.

(** ** Formatting with [k] decimals *)

(** The integer nearest to [m * 2^e * 10^k], ties to even. *)
Definition scaled_digits (k : nat) (m : positive) (e : Z) : Z :=
  let n := Zpos m * 10 ^ Z.of_nat k in
  if 0 <=? e then n * 2 ^ e
  else
    let d := 2 ^ (- e) in
    let q := n / d in
    let r := n mod d in
    match 2 * r ?= d with
    | Lt => q
    | Gt => q + 1
    | Eq => if Z.even q then q else q + 1
    end.

(** [n] printed with at least [k] digits. *)
Definition pad_digits (k : nat) (n : Z) : string :=
  let s := fmt_int n in
  String.append (String.string_of_list_ascii
    (replicate (k - String.length s) "0"%char)) s.

(** [format!("{x:.k}")]. *)
Definition fmt_fixed (k : nat) (x : spec_float) : string :=
  let body (n : Z) : string :=
    let p := 10 ^ Z.of_nat k in
    if Nat.eqb k 0 then fmt_int n
    else fmt_int (n / p) ^^ "." ^^ pad_digits k (n mod p) in
  match x with
  | S754_nan => "NaN"
  | S754_infinity s => if s then "-inf" else "inf"
  | S754_zero s => (if s then "-" else EmptyString) ^^ body 0
  | S754_finite s m e => (if s then "-" else EmptyString) ^^ body (scaled_digits k m e)
  end.

(** ** Order facts *)

(** An order embedding of floats into triples of integers; NaN is below
    everything. *)
Definition f_key (x : spec_float) : Z * (Z * Z) :=
  match x with
  | S754_nan => (-3, (0, 0))
  | S754_infinity true => (-2, (0, 0))
  | S754_finite true m e => (-1, (- e, - Zpos m))
  | S754_zero _ => (0, (0, 0))
  | S754_finite false m e => (1, (e, Zpos m))
  | S754_infinity false => (2, (0, 0))
  end.

(** A total comparison that agrees with [partial_cmp] away from NaN. *)
Definition total_cmp (x y : spec_float) : comparison :=
  lex_cmp Z.compare (lex_cmp Z.compare Z.compare) (f_key x) (f_key y).

#[export] Instance total_cmp_preorder : TotalPreorder total_cmp.
Proof. exact (on_preorder f_key (lex_cmp Z.compare (lex_cmp Z.compare Z.compare))). Qed.

Lemma partial_cmp_total x y :
  is_nan x = false -> is_nan y = false -> partial_cmp x y = Some (total_cmp x y).
Proof.
  intros Hx Hy. destruct x as [sx|sx| |sx mx ex], y as [sy|sy| |sy my ey]; try done;
    try destruct sx; try destruct sy; try done.
  all: unfold partial_cmp, SFcompare, total_cmp, lex_cmp; simpl; f_equal.
  - rewrite Z.compare_opp, (Z.compare_antisym ex ey). by destruct (ex ?= ey).
Qed.

Lemma cmp_or_eq_total x y :
  is_nan x = false -> is_nan y = false -> cmp_or_eq x y = total_cmp x y.
Proof. intros Hx Hy. unfold cmp_or_eq. by rewrite partial_cmp_total. Qed.

Lemma f_le_total x y :
  is_nan x = false -> is_nan y = false ->
  f_le x y = match total_cmp x y with Gt => false | _ => true end.
Proof.
  intros Hx Hy. unfold f_le, SFleb. fold (partial_cmp x y).
  rewrite partial_cmp_total by done. by destruct (total_cmp x y).
Qed.

Lemma f_lt_total x y :
  is_nan x = false -> is_nan y = false ->
  f_lt x y = match total_cmp x y with Lt => true | _ => false end.
Proof.
  intros Hx Hy. unfold f_lt, SFltb. fold (partial_cmp x y).
  rewrite partial_cmp_total by done. by destruct (total_cmp x y).
Qed.

Lemma f_lt_not_nan x y : f_lt x y = true -> is_nan x = false /\ is_nan y = false.
Proof. by destruct x, y. Qed.

Lemma f_lt_irrefl x : f_lt x x = false.
Proof.
  destruct (is_nan x) eqn:E; [by destruct x|].
  rewrite f_lt_total by done. by rewrite (cmp_refl total_cmp).
Qed.

(** A clamped number that is not a NaN lies between the bounds. *)
Lemma f_clamp_bounds x lo hi :
  is_nan x = false -> f_le lo hi = true ->
  f_le lo (f_clamp x lo hi) = true /\ f_le (f_clamp x lo hi) hi = true
  /\ is_nan (f_clamp x lo hi) = false.
Proof.
  intros Hx Hle.
  assert (Hlo : is_nan lo = false) by (by destruct lo, hi).
  assert (Hhi : is_nan hi = false) by (by destruct lo, hi).
  unfold f_clamp. destruct (f_lt x lo) eqn:E1; [|destruct (f_lt hi x) eqn:E2].
  - rewrite !f_le_total in * by done. by rewrite (cmp_refl total_cmp).
  - rewrite !f_le_total in * by done. by rewrite (cmp_refl total_cmp).
  - rewrite !f_le_total, !f_lt_total in * by done.
    rewrite (cmp_antisym total_cmp x lo). rewrite (cmp_antisym total_cmp x hi) in E2.
    by destruct (total_cmp x lo), (total_cmp x hi).
Qed.

(** Clamping a NaN gives that NaN. *)
Lemma f_clamp_nan x lo hi : is_nan x = true -> f_clamp x lo hi = x.
Proof. destruct x; try done. by destruct hi. Qed.

Example float_examples :
  fmt_fixed 1 (f32_mul (f32_of_f64 (f64_lit 937 1000)) (f32_of_Z 100)) = "93.7"
  /\ fmt_fixed 3 (f64_lit 2 3) = "0.667" /\ fmt_fixed 0 (f64_lit 5 2) = "2"
  /\ fmt_fixed 2 (f64_lit (-3) 1000) = "-0.00"
  /\ fmt_fixed 4 (f64_div (f64_of_Z 12345) (f64_of_Z 1000000)) = "0.0123"
  /\ f_to_uint u64_max (f64_ceil (f64_mul (f64_div (f64_of_Z 95) (f64_of_Z 100)) (f64_of_Z 21))) = 20.
Proof. vm_compute. done. Qed.

(** ** Widening and narrowing

    [f64::from(x) as f32] is [x]: a number of 24 bits is exact in 53, and rounding
    it back loses nothing. *)

#[local] Open Scope Z_scope.

Lemma iter_pos_plain {A} (f : A -> A) n : forall x, SpecFloat.iter_pos f n x = Pos.iter f x n.
Proof.
  induction n as [n IH|n IH|]; intros x; simpl; [ | by rewrite !IH | reflexivity].
  rewrite !IH. by rewrite <- !Pos.iter_swap.
Qed.

Lemma digits_iter m k : Zpos (digits2_pos (Pos.iter xO m k)) = Zpos (digits2_pos m) + Zpos k.
Proof.
  induction k as [|k IH] using Pos.peano_ind; [simpl; lia|].
  rewrite Pos.iter_succ. simpl. lia.
Qed.

Lemma shr_iter m k :
  SpecFloat.iter_pos shr_1 k (Build_shr_record (Zpos (Pos.iter xO m k)) false false)
  = Build_shr_record (Zpos m) false false.
Proof.
  rewrite iter_pos_plain. induction k as [|k IH] using Pos.peano_ind; [done|].
  rewrite Pos.iter_succ_r, (Pos.iter_succ k positive xO m). exact IH.
Qed.

Section Round.
Context (prec emax : Z).

(** Rounding an exact number that already has the right exponent. *)
Lemma round_canonical s m e :
  fexp prec emax (Zpos (digits2_pos m) + e) = e -> e <= emax - prec ->
  binary_round_aux prec emax s (Zpos m) e loc_Exact = S754_finite s m e.
Proof.
  intros Hc Hb. unfold binary_round_aux, shr_fexp. simpl Zdigits2. rewrite Hc, Z.sub_diag. simpl.
  unfold shr_fexp. simpl Zdigits2. rewrite Hc, Z.sub_diag. simpl.
  destruct (Z.leb_spec e (emax - prec)); [done|lia].
Qed.

(** Rounding it when it is written with a smaller exponent. *)
Lemma round_shifted s m e k :
  fexp prec emax (Zpos (digits2_pos m) + e) = e -> e <= emax - prec ->
  binary_round prec emax s (Pos.iter xO m k) (e - Zpos k) = S754_finite s m e.
Proof.
  intros Hc Hb. unfold binary_round. rewrite digits_iter.
  replace (Zpos (digits2_pos m) + Zpos k + (e - Zpos k)) with (Zpos (digits2_pos m) + e) by lia.
  rewrite Hc. unfold shl_align. replace (e - (e - Zpos k)) with (Zpos k) by lia.
  unfold binary_round_aux, shr_fexp. simpl Zdigits2. rewrite digits_iter.
  replace (Zpos (digits2_pos m) + Zpos k + (e - Zpos k)) with (Zpos (digits2_pos m) + e) by lia.
  rewrite Hc. replace (e - (e - Zpos k)) with (Zpos k) by lia. cbn [shr shr_record_of_loc].
  rewrite shr_iter. cbn [shr_m loc_of_shr_record round_nearest_even Zdigits2]. replace (e - Zpos k + Zpos k) with e by lia.
  rewrite Hc, Z.sub_diag. simpl. destruct (Z.leb_spec e (emax - prec)); [done|lia].
Qed.

End Round.

(** Values of the type [f32]. *)
Definition is_f32 (x : f32) : bool := valid_binary 24 128 x.

Lemma narrow_widen x : is_f32 x = true -> f32_of_f64 (f64_of_f32 x) = x.
Proof.
  destruct x as [| | |s m e]; [done..|]. unfold is_f32, valid_binary, bounded, canonical_mantissa.
  intros [Hc%Z.eqb_eq Hb%Z.leb_le]%andb_prop. unfold f64_of_f32, binary_round.
  assert (Hd : fexp 53 1024 (Zpos (digits2_pos m) + e) < e) by (unfold fexp, emin in *; lia).
  unfold shl_align. destruct (fexp 53 1024 (Zpos (digits2_pos m) + e) - e) as [|?|k] eqn:Ek; [lia|lia|].
  assert (He : fexp 53 1024 (Zpos (digits2_pos m) + e) = e - Zpos k) by lia. rewrite He.
  rewrite round_canonical.
  - by apply round_shifted.
  - rewrite digits_iter.
    replace (Zpos (digits2_pos m) + Zpos k + (e - Zpos k)) with (Zpos (digits2_pos m) + e) by lia. done.
  - lia.
Qed.

Lemma widen_finite x : is_f32 x = true -> is_finite x = true -> is_finite (f64_of_f32 x) = true.
Proof.
  intros Hv Hf. pose proof (narrow_widen x Hv) as Hn. destruct x as [| | |s m e]; [done..|].
  destruct (f64_of_f32 (S754_finite s m e)); done.
Qed.
