(* ===== verification/Ir.v ===== *)
(** * Canonical request IR and the error taxonomy

    [crates/sb-core/src/ir.rs] and [crates/sb-core/src/error.rs]: the
    provider-agnostic request, its content parts, the questions the router asks
    of a request, and the error classes that drive fallback and cooldown. *)

From Stdlib Require Import ZArith Lia Ascii.
From stdpp Require Import base list strings sets.
From S2P Require Import Prelude Text BTree Float.

#[local] Open Scope Z_scope.

(** ** Opaque JSON *)

#[local] Set Warnings "-register-all".

(** [serde_json::Value]; objects iterate in key order. *)
Inductive Json : Type :=
| JNull
| JBool (b : bool)
| JInt (n : Z)
| JFloat (x : f64)
| JString (s : string)
| JArray (l : list Json)
| JObject (l : list (string * Json)).

(** ** Enumerations *)

Inductive Role := RoleSystem | RoleUser | RoleAssistant | RoleTool.

Inductive ImageDetail := DetailLow | DetailHigh | DetailAuto | DetailOriginal.

Inductive ImageSourceKind := KInlineBase64 | KRemoteUrl | KProviderFileRef.

Inductive ServerToolProtocol := OpenAiResponses | Anthropic.

Inductive Priority := PriorityLow | PriorityNormal | PriorityHigh.

Inductive PrivacyClass := Standard | Sensitive | Confidential.

Inductive FinishReason := Stop | Length | ToolCalls | ContentFilter | FinishError.

Inductive ErrorClass :=
| Authentication | Authorization | RateLimited | QuotaExceeded
| ProviderOverloaded | Timeout | Network | InvalidRequest | ContextTooLong
| UnsupportedCapability | SafetyBlocked | ServerError | StreamInterrupted
| Unknown.

#[export] Instance Role_eq_dec : EqDecision Role.
Proof. solve_decision. Defined.
#[export] Instance ImageSourceKind_eq_dec : EqDecision ImageSourceKind.
Proof. solve_decision. Defined.
#[export] Instance ServerToolProtocol_eq_dec : EqDecision ServerToolProtocol.
Proof. solve_decision. Defined.
#[export] Instance ErrorClass_eq_dec : EqDecision ErrorClass.
Proof. solve_decision. Defined.
#[export] Instance FinishReason_eq_dec : EqDecision FinishReason.
Proof. solve_decision. Defined.

(** ** Error taxonomy *)

Definition should_fallback (c : ErrorClass) : bool :=
  negb (bool_decide (c = InvalidRequest) || bool_decide (c = SafetyBlocked)).

Definition is_client_error (c : ErrorClass) : bool :=
  match c with
  | InvalidRequest | ContextTooLong | UnsupportedCapability => true
  | _ => false
  end.

Definition error_class_as_str (c : ErrorClass) : string :=
  match c with
  | Authentication => "authentication"
  | Authorization => "authorization"
  | RateLimited => "rate_limited"
  | QuotaExceeded => "quota_exceeded"
  | ProviderOverloaded => "provider_overloaded"
  | Timeout => "timeout"
  | Network => "network"
  | InvalidRequest => "invalid_request"
  | ContextTooLong => "context_too_long"
  | UnsupportedCapability => "unsupported_capability"
  | SafetyBlocked => "safety_blocked"
  | ServerError => "server_error"
  | StreamInterrupted => "stream_interrupted"
  | Unknown => "unknown"
  end.

Definition http_status (c : ErrorClass) : Z :=
  match c with
  | Authentication => 401
  | Authorization => 403
  | RateLimited | QuotaExceeded | ProviderOverloaded => 429
  | Timeout => 504
  | Network | ServerError | StreamInterrupted | Unknown => 502
  | InvalidRequest => 400
  | ContextTooLong => 413
  | UnsupportedCapability => 422
  | SafetyBlocked => 451
  end.

(** ** Images *)

Definition image_detail_parse (value : string) : result ImageDetail string :=
  if str_eqb value "low" then Ok DetailLow
  else if str_eqb value "high" then Ok DetailHigh
  else if str_eqb value "auto" then Ok DetailAuto
  else if str_eqb value "original" then Ok DetailOriginal
  else Err ("unsupported image detail `" ^^ value ^^ "`").

Definition image_detail_as_str (d : ImageDetail) : string :=
  match d with
  | DetailLow => "low"
  | DetailHigh => "high"
  | DetailAuto => "auto"
  | DetailOriginal => "original"
  end.

Definition image_source_kind_as_str (k : ImageSourceKind) : string :=
  match k with
  | KInlineBase64 => "inline_base64"
  | KRemoteUrl => "remote_url"
  | KProviderFileRef => "provider_file_ref"
  end.

Definition server_tool_protocol_as_str (p : ServerToolProtocol) : string :=
  match p with
  | OpenAiResponses => "openai_responses"
  | Anthropic => "anthropic"
  end.

Inductive ImageSource :=
| InlineBase64 (media_type data : string)
| RemoteUrl (url : string)
| ProviderFileRef (provider : option string) (id : string).

Definition image_source_kind (s : ImageSource) : ImageSourceKind :=
  match s with
  | InlineBase64 _ _ => KInlineBase64
  | RemoteUrl _ => KRemoteUrl
  | ProviderFileRef _ _ => KProviderFileRef
  end.

Definition image_source_validate (s : ImageSource) : result unit string :=
  match s with
  | InlineBase64 media_type data =>
      if trim_is_empty media_type then Err "inline image missing media_type"
      else if negb (starts_with "image/" media_type) then
        Err ("inline image media_type `" ^^ media_type ^^ "` is not image/*")
      else if trim_is_empty data then Err "inline image missing base64 data"
      else Ok tt
  | RemoteUrl url =>
      if trim_is_empty url then Err "remote image URL is empty" else Ok tt
  | ProviderFileRef provider id =>
      if match provider with Some p => is_empty p | None => false end
      then Err "provider file image has empty provider scope"
      else if trim_is_empty id then Err "provider file image missing id"
      else Ok tt
  end.

Definition image_source_scoped_for (s : ImageSource) (provider : string) : bool :=
  match s with
  | ProviderFileRef (Some owner) _ => str_eqb owner provider
  | ProviderFileRef None _ => true
  | _ => false
  end.

(** [split_base64_data_url]. *)
Definition split_base64_data_url (url : string) : option (string * string) :=
  match strip_prefix "data:" url with
  | None => None
  | Some rest =>
      match split_once ";base64," rest with
      | None => None
      | Some (media_type, data) =>
          if (is_empty media_type || is_empty data)%bool then None
          else Some (media_type, data)
      end
  end.

(** ** Message content *)

Inductive ToolResultContentPart :=
| TRText (text : string)
| TRImage (source : ImageSource) (detail : option ImageDetail).

Definition tool_result_part_validate (p : ToolResultContentPart) : result unit string :=
  match p with
  | TRImage source _ => image_source_validate source
  | TRText _ => Ok tt
  end.

Inductive ContentPart :=
| Text (text : string)
| Image (source : ImageSource) (detail : option ImageDetail)
| ToolUse (id name : string) (args : Json)
| ToolResult (tool_use_id content : string)
    (content_parts : list ToolResultContentPart) (is_error : bool)
| Reasoning (text : string) (signature : option string)
| Citation (url : string) (title snippet : option string)
| ServerToolUse (id name : string) (args : Json)
| ServerToolResult (id name content : string).

Definition image_url (url : string) (detail : option ImageDetail) : ContentPart :=
  Image match split_base64_data_url url with
        | Some (media_type, data) => InlineBase64 media_type data
        | None => RemoteUrl url
        end detail.

Definition image_base64 (media_type data : string) : ContentPart :=
  Image (InlineBase64 media_type data) None.

Definition image_file_ref (provider : option string) (id : string)
    (detail : option ImageDetail) : ContentPart :=
  Image (ProviderFileRef provider id) detail.

Definition content_image_source_kind (p : ContentPart) : option ImageSourceKind :=
  match p with
  | Image source _ => Some (image_source_kind source)
  | _ => None
  end.

(** [matches!(part, ContentPart::Image { .. })]. *)
Definition is_image (p : ContentPart) : bool :=
  match p with Image _ _ => true | _ => false end.

(** A [for] loop of fallible steps with [?]: the first error wins. *)
Fixpoint try_all {A} (f : A -> result unit string) (l : list A) : result unit string :=
  match l with
  | [] => Ok tt
  | x :: l' => let? _ := f x in try_all f l'
  end.

Definition content_validate (p : ContentPart) : result unit string :=
  match p with
  | Image source _ => image_source_validate source
  | ToolResult _ _ content_parts _ => try_all tool_result_part_validate content_parts
  | _ => Ok tt
  end.

Record CacheHint := mkCacheHint { ttl_seconds : option Z }.

Record Message := mkMessage {
  msg_role : Role;
  msg_content : list ContentPart;
  msg_cache_hint : option CacheHint
}.

Definition message_user (text : string) : Message := mkMessage RoleUser [Text text] None.
Definition message_assistant (text : string) : Message :=
  mkMessage RoleAssistant [Text text] None.

(** [Message::text]: the text parts, concatenated. *)
Definition message_text (m : Message) : string :=
  join EmptyString
    (omap (fun p => match p with Text t => Some t | _ => None end) (msg_content m)).

(** ** Requests *)

Record ToolSpec := mkToolSpec {
  tool_name : string;
  tool_description : option string;
  tool_parameters : Json;
  tool_defer_loading : bool
}.

Record ServerToolSpec := mkServerToolSpec {
  st_protocol : ServerToolProtocol;
  st_kind : string;
  st_config : Json
}.

Inductive ResponseFormat :=
| RfText
| RfJsonObject
| RfJsonSchema (name : string) (schema : Json) (strict : bool).

Record AiRequest := mkAiRequest {
  req_id : string;
  req_model : string;
  req_system : option string;
  req_messages : list Message;
  req_tools : list ToolSpec;
  req_server_tools : list ServerToolSpec;
  req_response_format : option ResponseFormat;
  req_stream : bool;
  req_max_output_tokens : option Z;
  req_temperature : option f32;
  req_priority : Priority;
  req_privacy_class : PrivacyClass;
  req_metadata : BTreeMap string string;
  req_tenant : option string;
  req_project : option string;
  req_passthrough : BTreeMap string Json;
  req_protocol_passthrough : BTreeMap string (BTreeMap string Json);
  req_system_cache_hint : option CacheHint;
  req_tools_cache_hint : option CacheHint
}.

(** [AiRequest::new]; the identifier is drawn by [sb_core::new_id]. *)
Definition AiRequest_new (id model : string) (messages : list Message) : AiRequest :=
  mkAiRequest id model None messages [] [] None false None None PriorityNormal Standard
    [] None None [] [] None None.

Definition requires_tools (r : AiRequest) : bool :=
  match req_tools r with [] => false | _ => true end.

Definition requires_server_tools (r : AiRequest) : bool :=
  match req_server_tools r with [] => false | _ => true end.

(** A [BTreeSet] over an enumeration, listed in its [Ord] order: the values of
    [all], in declaration order, that occur in [l]. *)
Definition enum_set {A} `{EqDecision A} (all l : list A) : list A :=
  filter (fun x => x ∈ l) all.

Definition all_image_source_kinds : list ImageSourceKind :=
  [KInlineBase64; KRemoteUrl; KProviderFileRef].
Definition all_server_tool_protocols : list ServerToolProtocol :=
  [OpenAiResponses; Anthropic].

Definition required_server_tool_protocols (r : AiRequest) : list ServerToolProtocol :=
  enum_set all_server_tool_protocols (st_protocol <$> req_server_tools r).

(** The content parts of the request, in order ([flat_map] over the messages). *)
Definition req_parts (r : AiRequest) : list ContentPart :=
  mjoin (msg_content <$> req_messages r).

Definition image_count (r : AiRequest) : Z :=
  Z.of_nat (length (List.filter is_image (req_parts r))).

Definition requires_vision (r : AiRequest) : bool := 0 <? image_count r.

Definition required_image_sources (r : AiRequest) : list ImageSourceKind :=
  enum_set all_image_source_kinds (omap content_image_source_kind (req_parts r)).

Definition with_messages (r : AiRequest) (ms : list Message) : AiRequest :=
  mkAiRequest (req_id r) (req_model r) (req_system r) ms (req_tools r)
    (req_server_tools r) (req_response_format r) (req_stream r)
    (req_max_output_tokens r) (req_temperature r) (req_priority r)
    (req_privacy_class r) (req_metadata r) (req_tenant r) (req_project r)
    (req_passthrough r) (req_protocol_passthrough r) (req_system_cache_hint r)
    (req_tools_cache_hint r).

(** [strip_image_parts]: two nested loops that overwrite image parts in place
    and count them. *)
Fixpoint strip_parts (marker : string) (dropped : Z) (ps : list ContentPart)
  : list ContentPart * Z :=
  match ps with
  | [] => ([], dropped)
  | p :: ps' =>
      if is_image p then
        let '(ps'', d) := strip_parts marker (dropped + 1) ps' in (Text marker :: ps'', d)
      else
        let '(ps'', d) := strip_parts marker dropped ps' in (p :: ps'', d)
  end.

Fixpoint strip_messages (marker : string) (dropped : Z) (ms : list Message)
  : list Message * Z :=
  match ms with
  | [] => ([], dropped)
  | m :: ms' =>
      let '(ps, d) := strip_parts marker dropped (msg_content m) in
      let '(ms'', d') := strip_messages marker d ms' in
      (mkMessage (msg_role m) ps (msg_cache_hint m) :: ms'', d')
  end.

Definition strip_image_parts (marker : string) (r : AiRequest) : AiRequest * Z :=
  let '(ms, d) := strip_messages marker 0 (req_messages r) in (with_messages r ms, d).

Definition validate_canonical (r : AiRequest) : result unit string :=
  try_all (fun m => try_all content_validate (msg_content m)) (req_messages r).

Definition last_user_text (r : AiRequest) : option string :=
  message_text <$> List.find (fun m => bool_decide (msg_role m = RoleUser))
    (rev (req_messages r)).

(** ** Responses and stream events *)

Record EnergyUsage := mkEnergyUsage {
  energy_joules : option f64;
  energy_kwh : option f64;
  duration_seconds : option f64;
  measurement_available : option bool;
  attribution_method : option string;
  energy_kwh_consumed : option f64;
  energy_kwh_charged : option f64;
  accounting_method : option string;
  total_cost_usd : option f64
}.

Definition opt_is_some {A} (o : option A) : bool :=
  match o with Some _ => true | None => false end.

Definition has_measured_energy (e : EnergyUsage) : bool :=
  negb (bool_decide (measurement_available e = Some false))
  && (opt_is_some (energy_joules e) || opt_is_some (energy_kwh e)
      || opt_is_some (energy_kwh_consumed e) || opt_is_some (energy_kwh_charged e)).

Record Usage := mkUsage {
  input_tokens : Z;
  output_tokens : Z;
  cached_input_tokens : Z;
  reasoning_tokens : Z;
  usage_energy : option EnergyUsage
}.

Definition Usage_default : Usage := mkUsage 0 0 0 0 None.

Record AiResponse := mkAiResponse {
  resp_id : string;
  resp_model : string;
  resp_message : Message;
  resp_finish_reason : FinishReason;
  resp_usage : Usage
}.

Inductive AiStreamEvent :=
| EvMessageStart (id model : string)
| EvTextDelta (text : string)
| EvReasoningDelta (text : string)
| EvToolCallStart (index : Z) (id name : string)
| EvToolCallArgsDelta (index : Z) (json : string)
| EvToolCallEnd (index : Z)
| EvOutputImage (media_type data : string)
| EvCitation (url : string) (title : option string)
| EvServerToolCall (id name status : string)
| EvUsageDelta (usage : Usage)
| EvMessageEnd (finish_reason : FinishReason)
| EvError (message : string) (class : ErrorClass).

(** ** Properties of the IR *)

Section Stripping.
Context (marker : string).

(** What stripping does to one part and to one message. *)
Definition strip_part (p : ContentPart) : ContentPart :=
  if is_image p then Text marker else p.

Definition strip_message (m : Message) : Message :=
  mkMessage (msg_role m) (strip_part <$> msg_content m) (msg_cache_hint m).

Lemma strip_parts_map d ps :
  strip_parts marker d ps
  = (strip_part <$> ps, d + Z.of_nat (length (List.filter is_image ps))).
Proof.
  revert d. induction ps as [|p ps IH]; intros d; simpl; [f_equal; lia|].
  unfold strip_part. destruct (is_image p); rewrite IH; simpl; f_equal; lia.
Qed.

Lemma strip_messages_map d ms :
  strip_messages marker d ms
  = (strip_message <$> ms,
     d + Z.of_nat (length (List.filter is_image (mjoin (msg_content <$> ms))))).
Proof.
  revert d. induction ms as [|m ms IH]; intros d; simpl; [f_equal; lia|].
  rewrite strip_parts_map, IH. simpl. f_equal.
  rewrite List.filter_app, length_app. unfold fmap. lia.
Qed.

Lemma strip_part_not_image p : is_image (strip_part p) = false.
Proof. unfold strip_part. by destruct p. Qed.

Lemma filter_strip_parts ps : List.filter is_image (strip_part <$> ps) = [].
Proof. induction ps as [|p ps IH]; simpl; [done|]. by rewrite strip_part_not_image. Qed.

Lemma strip_messages_no_image ms :
  List.filter is_image (mjoin (msg_content <$> (strip_message <$> ms))) = [].
Proof.
  induction ms as [|m ms IH]; simpl; [done|].
  rewrite List.filter_app, filter_strip_parts. exact IH.
Qed.

End Stripping.

(** Stripping images maps every image part to the marker text, leaves every
    other part, role, hint and request field alone, reports the number of
    images the request had, and leaves a request that needs no vision. *)
Lemma strip_image_parts_ok marker r :
  strip_image_parts marker r
  = (with_messages r (strip_message marker <$> req_messages r), image_count r)
  /\ image_count (strip_image_parts marker r).1 = 0
  /\ requires_vision (strip_image_parts marker r).1 = false.
Proof.
  assert (H : strip_image_parts marker r
      = (with_messages r (strip_message marker <$> req_messages r), image_count r)).
  { unfold strip_image_parts. rewrite strip_messages_map. simpl. f_equal. }
  assert (Hc : image_count (strip_image_parts marker r).1 = 0).
  { rewrite H. unfold image_count, req_parts. simpl. by rewrite strip_messages_no_image. }
  split_and!; [done|done|]. unfold requires_vision. by rewrite Hc.
Qed.

Lemma elem_of_enum_set {A} `{EqDecision A} (all l : list A) x :
  x ∈ enum_set all l <-> x ∈ l /\ x ∈ all.
Proof. unfold enum_set. by rewrite list_elem_of_filter. Qed.

Lemma try_all_ok {A} (f : A -> result unit string) l :
  try_all f l = Ok tt <-> Forall (fun x => f x = Ok tt) l.
Proof.
  induction l as [|x l IH]; simpl; [by split|]. unfold try.
  destruct (f x) as [[]|e] eqn:E.
  - rewrite IH. split; [by constructor|by inversion 1].
  - split; [done|]. inversion 1; congruence.
Qed.

(** The kinds a request requires are exactly the kinds of its image parts. *)
Lemma required_image_sources_spec r k :
  k ∈ required_image_sources r
  <-> exists s d, Image s d ∈ req_parts r /\ image_source_kind s = k.
Proof.
  unfold required_image_sources. rewrite elem_of_enum_set, list_elem_of_omap. split.
  - intros [(p & Hp & Hk) _]. destruct p; simplify_eq/=. eauto.
  - intros (s & d & Hp & <-). split; [exists (Image s d); done|].
    destruct s; simpl; unfold all_image_source_kinds; set_solver.
Qed.

Lemma image_count_pos r : 0 < image_count r <-> exists p, p ∈ req_parts r /\ is_image p = true.
Proof.
  unfold image_count. split.
  - intros H. destruct (List.filter is_image (req_parts r)) as [|p l] eqn:E; simpl in H; [lia|].
    exists p. assert (Hin : In p (List.filter is_image (req_parts r))) by (rewrite E; by left).
    apply List.filter_In in Hin. by rewrite list_elem_of_In.
  - intros (p & Hp & Hi). assert (Hin : In p (List.filter is_image (req_parts r))).
    { apply List.filter_In. by rewrite <- list_elem_of_In. }
    destruct (List.filter is_image (req_parts r)); simpl in *; [done|lia].
Qed.
