(* ===== verification/Config.v ===== *)
(** * Configuration records

    The parts of [crates/sb-core/src/config.rs] that the router, the circuit
    breaker and the scorecard read, with their default values. *)

From Stdlib Require Import ZArith Lia.
From stdpp Require Import base list strings.
From S2P Require Import Prelude Text Float Ir.

#[local] Open Scope Z_scope.

(** ** Circuit breaker *)

Record BreakerConfig := mkBreakerConfig {
  breaker_enabled : bool;
  breaker_failure_threshold : Z;
  breaker_open_secs : Z
}.

Definition BreakerConfig_default : BreakerConfig := mkBreakerConfig false 5 30.

(** ** Response-quality evaluation *)

Record QualityEvalConfig := mkQualityEvalConfig {
  qe_enabled : bool;
  qe_judge_route : string;
  qe_body_allowed_targets : list string;
  qe_max_judgments_per_24h : Z;
  qe_max_cost_micros_per_24h : Z;
  qe_min_input_chars : Z;
  qe_min_output_chars : Z;
  qe_max_input_bytes : Z;
  qe_max_output_bytes : Z;
  qe_capture_slots : Z;
  qe_queue_capacity : Z;
  qe_judge_timeout_ms : Z;
  qe_judge_max_output_tokens : Z;
  qe_failure_backoff_after : Z;
  qe_failure_backoff_secs : Z;
  qe_ewma_alpha : f64;
  qe_routing_min_samples : Z;
  qe_routing_full_confidence_samples : Z;
  qe_routing_weight : f64
}.

Definition QualityEvalConfig_default : QualityEvalConfig :=
  mkQualityEvalConfig false "auto/judge" [] 60 500000 32 64 32768 32768 8 8 60000 128
    3 3600 (f64_lit 20 100) 5 10 f64_zero.

(** ** Outcome scorecard *)

Record ScorecardWindowConfig := mkScorecardWindowConfig {
  window_max_samples : Z;
  window_ttl_secs : Z
}.

Definition ScorecardWindowConfig_default : ScorecardWindowConfig :=
  mkScorecardWindowConfig 200 86400.

Record ScorecardDemotionConfig := mkScorecardDemotionConfig {
  min_samples : Z;
  demote_success_rate : f64;
  recover_success_rate : f64;
  trunc_demote_rate : f64;
  fast_demote_streak : Z;
  fast_recover_streak : Z
}.

Definition ScorecardDemotionConfig_default : ScorecardDemotionConfig :=
  mkScorecardDemotionConfig 8 (f64_lit 60 100) (f64_lit 85 100) (f64_lit 25 100) 3 3.

Record ScorecardPriorConfig := mkScorecardPriorConfig {
  prior_config_weight : f64;
  prior_default_success_rate : f64
}.

Definition ScorecardPriorConfig_default : ScorecardPriorConfig :=
  mkScorecardPriorConfig (f64_of_Z 5) (f64_lit 95 100).

Record ScorecardPersistConfig := mkScorecardPersistConfig {
  persist_flush_secs : Z;
  persist_stale_hydrate_secs : Z
}.

Definition ScorecardPersistConfig_default : ScorecardPersistConfig :=
  mkScorecardPersistConfig 30 172800.

Record ScorecardConfig := mkScorecardConfig {
  sc_enabled : bool;
  sc_window : ScorecardWindowConfig;
  sc_demotion : ScorecardDemotionConfig;
  sc_prior : ScorecardPriorConfig;
  sc_score_weight : f64;
  sc_persist : ScorecardPersistConfig
}.

Definition ScorecardConfig_default : ScorecardConfig :=
  mkScorecardConfig true ScorecardWindowConfig_default ScorecardDemotionConfig_default
    ScorecardPriorConfig_default (f64_lit 15 100) ScorecardPersistConfig_default.

(** ** What a route requires of a target *)

Record RouteRequire := mkRouteRequire {
  rr_streaming : option bool;
  rr_tool_calling : option bool;
  rr_server_tools : option bool;
  rr_server_tool_protocols : list ServerToolProtocol;
  rr_vision_in : option bool;
  rr_vision_sources : list ImageSourceKind;
  rr_audio_in : option bool;
  rr_file_in : option bool;
  rr_image_out : option bool;
  rr_reasoning_summary : option bool;
  rr_min_context_tokens : option Z;
  rr_json_schema : option bool
}.

Definition RouteRequire_default : RouteRequire :=
  mkRouteRequire None None None [] None [] None None None None None None.
