(* ===== verification/Target.v ===== *)
(** * Execution targets

    [crates/sb-core/src/target.rs]: what a target can do, what it costs, and the
    live evidence stamped on it at routing time. *)

From Stdlib Require Import ZArith Lia.
From stdpp Require Import base list strings.
From S2P Require Import Prelude Text Float Ir.

#[local] Open Scope Z_scope.

Inductive ExecutionTargetKind :=
| ModelApi | OpenAiCompatibleApi | LocalRuntime | CodingAgent | McpTool
| RemoteAgent | Gateway | FallbackGroup.

Record CapabilityProfile := mkCapabilityProfile {
  cap_text_in : bool;
  cap_text_out : bool;
  cap_vision_in : bool;
  cap_vision_sources : list ImageSourceKind;
  cap_streaming : bool;
  cap_tool_calling : bool;
  cap_parallel_tool_calls : bool;
  cap_server_tools : bool;
  cap_server_tool_protocols : list ServerToolProtocol;
  cap_audio_in : bool;
  cap_file_in : bool;
  cap_image_out : bool;
  cap_reasoning_summary : bool;
  cap_json_schema : bool;
  cap_max_context_tokens : option Z;
  cap_max_output_tokens : option Z
}.

Definition CapabilityProfile_default : CapabilityProfile :=
  mkCapabilityProfile true true false [] true true false false [] false false false
    false false None None.

(** [CapabilityProfile::basic_text]: the default without tool calling. *)
Definition basic_text : CapabilityProfile :=
  mkCapabilityProfile true true false [] true false false false [] false false false
    false false None None.

Definition list_empty {A} (l : list A) : bool :=
  match l with [] => true | _ => false end.

Definition supports_image_source (c : CapabilityProfile) (s : ImageSourceKind) : bool :=
  cap_vision_in c
  && (list_empty (cap_vision_sources c) || bool_decide (s ∈ cap_vision_sources c)).

Definition supports_server_tool_protocol (c : CapabilityProfile) (p : ServerToolProtocol)
  : bool :=
  cap_server_tools c
  && (list_empty (cap_server_tool_protocols c)
      || bool_decide (p ∈ cap_server_tool_protocols c)).

Record CostProfile := mkCostProfile {
  input_per_mtok : f64;
  output_per_mtok : f64
}.

Definition blended_per_mtok (c : CostProfile) : f64 :=
  f64_add (input_per_mtok c) (output_per_mtok c).

Inductive HealthState := Healthy | Degraded | Down.

Inductive OutcomeTier := TierHealthy | TierDemoted.

Inductive DemoteTrigger := TriggerSuccess | TriggerTruncation | TriggerStreak.

#[export] Instance HealthState_eq_dec : EqDecision HealthState.
Proof. solve_decision. Defined.
#[export] Instance OutcomeTier_eq_dec : EqDecision OutcomeTier.
Proof. solve_decision. Defined.
#[export] Instance DemoteTrigger_eq_dec : EqDecision DemoteTrigger.
Proof. solve_decision. Defined.

Record OutcomeSignal := mkOutcomeSignal {
  os_samples : Z;
  os_success_rate : f32;
  os_p50_latency_ms : Z;
  os_p95_latency_ms : Z;
  os_cost_per_success_micros : Z;
  os_truncation_rate : f32;
  os_dominant_error : option ErrorClass;
  os_tier : OutcomeTier;
  os_health_factor : f32;
  os_demote_trigger : option DemoteTrigger;
  os_consecutive_failures : Z
}.

Record QualitySignal := mkQualitySignal {
  qs_ewma : f64;
  qs_samples : Z;
  qs_age_secs : Z;
  qs_evaluator_id : string
}.

Record ExecutionTarget := mkExecutionTarget {
  t_id : string;
  t_kind : ExecutionTargetKind;
  t_provider_id : string;
  t_model : string;
  t_capabilities : CapabilityProfile;
  t_cost : option CostProfile;
  t_latency_ewma_ms : option f64;
  t_ttft_ewma_ms : option f64;
  t_policy_tags : list string;
  t_task_tags : list string;
  t_health : HealthState;
  t_healthy_accounts : option Z;
  t_unverified : bool;
  t_outcome : option OutcomeSignal;
  t_quality : option QualitySignal
}.

Definition ExecutionTarget_new (provider_id model : string) (kind : ExecutionTargetKind)
  : ExecutionTarget :=
  mkExecutionTarget (provider_id ^^ "/" ^^ model) kind provider_id model
    CapabilityProfile_default None None None [] [] Healthy None false None None.
