(* ===== verification/Routing.v ===== *)
(** * The routing vocabulary

    [crates/sb-core/src/routing.rs]: execution profiles, the routing policy, the
    scoring weights, and the explainable route decision. *)

From Stdlib Require Import ZArith Lia.
From stdpp Require Import base list strings.
From S2P Require Import Prelude Text BTree Float Ir Config Target.

#[local] Open Scope Z_scope.

(** ** Execution profiles *)

Inductive ExecutionProfile :=
| Auto | Cheap | Fast | Coding | Private_ | LargeContext | Judge | Extract_.

#[export] Instance ExecutionProfile_eq_dec : EqDecision ExecutionProfile.
Proof. solve_decision. Defined.

Definition from_model (model : string) : option ExecutionProfile :=
  if str_eqb model "auto" then Some Auto
  else if str_eqb model "auto/cheap" then Some Cheap
  else if str_eqb model "auto/fast" then Some Fast
  else if str_eqb model "auto/coding" then Some Coding
  else if str_eqb model "auto/private" then Some Private_
  else if (str_eqb model "auto/large-context" || str_eqb model "auto/large_context")%bool
       then Some LargeContext
  else if (str_eqb model "auto/judge" || str_eqb model "auto/critique")%bool then Some Judge
  else if (str_eqb model "auto/extract" || str_eqb model "auto/classify")%bool
       then Some Extract_
  else None.

Definition profile_id (p : ExecutionProfile) : string :=
  match p with
  | Auto => "auto"
  | Cheap => "auto/cheap"
  | Fast => "auto/fast"
  | Coding => "auto/coding"
  | Private_ => "auto/private"
  | LargeContext => "auto/large-context"
  | Judge => "auto/judge"
  | Extract_ => "auto/extract"
  end.

(** ** Policies *)

Inductive UnknownCostPolicy := CostAllow | CostPenalize | CostReject.
Inductive UnknownContextPolicy := ContextAllow | ContextReject.

#[export] Instance UnknownCostPolicy_eq_dec : EqDecision UnknownCostPolicy.
Proof. solve_decision. Defined.
#[export] Instance UnknownContextPolicy_eq_dec : EqDecision UnknownContextPolicy.
Proof. solve_decision. Defined.

Record ScoringPolicy := mkScoringPolicy {
  w_selection_rank : f64;
  w_health : f64;
  w_account_availability : f64;
  w_cost : f64;
  w_latency : f64;
  w_ttft : f64;
  w_task_fit : f64;
  w_context_fit : f64
}.

(** The built-in weightings; a weight is written in hundredths. *)
Definition pct (n : Z) : f64 := f64_lit n 100.

Definition scoring_balanced : ScoringPolicy :=
  mkScoringPolicy (pct 10) (pct 25) (pct 15) (pct 15) (pct 15) f64_zero f64_zero (pct 20).
Definition scoring_cheap : ScoringPolicy :=
  mkScoringPolicy (pct 5) (pct 20) (pct 10) (pct 60) (pct 5) f64_zero f64_zero f64_zero.
Definition scoring_fast : ScoringPolicy :=
  mkScoringPolicy (pct 5) (pct 20) (pct 15) (pct 5) (pct 25) (pct 30) f64_zero f64_zero.
Definition scoring_coding : ScoringPolicy :=
  mkScoringPolicy (pct 5) (pct 20) (pct 15) (pct 10) (pct 10) f64_zero (pct 30) (pct 10).
Definition scoring_large_context : ScoringPolicy :=
  mkScoringPolicy (pct 5) (pct 15) (pct 10) (pct 5) (pct 5) f64_zero f64_zero (pct 60).
Definition scoring_judge : ScoringPolicy :=
  mkScoringPolicy (pct 35) (pct 25) (pct 15) (pct 5) (pct 5) f64_zero f64_zero (pct 15).
Definition scoring_extract : ScoringPolicy :=
  mkScoringPolicy (pct 10) (pct 20) (pct 15) (pct 35) (pct 10) f64_zero f64_zero (pct 10).

Definition weight_for (s : ScoringPolicy) (factor : string) : f64 :=
  if str_eqb factor "selection_rank" then w_selection_rank s
  else if str_eqb factor "health" then w_health s
  else if str_eqb factor "account_availability" then w_account_availability s
  else if str_eqb factor "cost" then w_cost s
  else if str_eqb factor "latency" then w_latency s
  else if str_eqb factor "ttft" then w_ttft s
  else if str_eqb factor "task_fit" then w_task_fit s
  else if str_eqb factor "context_fit" then w_context_fit s
  else f64_zero.

Record RoutingPolicy := mkRoutingPolicy {
  pol_profile : option ExecutionProfile;
  pol_scoring : option ScoringPolicy;
  pol_cost_aware : bool;
  pol_max_price_per_mtok : option f64;
  pol_latency_aware : bool;
  pol_allow_free : bool;
  pol_allow_promo : bool;
  pol_allow_aggregator : bool;
  pol_enforce_lane_policy : bool;
  pol_vision_degrade : bool;
  pol_unknown_cost : UnknownCostPolicy;
  pol_unknown_context : UnknownContextPolicy;
  pol_scorecard : ScorecardConfig;
  pol_quality_eval : QualityEvalConfig
}.

Definition RoutingPolicy_default : RoutingPolicy :=
  mkRoutingPolicy None None false None false true true true false true CostAllow
    ContextAllow ScorecardConfig_default QualityEvalConfig_default.

(** ** The route decision *)

Record TargetRef := mkTargetRef {
  tr_target_id : string;
  tr_account_id : option string
}.

Definition TargetRef_new (id : string) : TargetRef := mkTargetRef id None.

Record RejectedCandidate := mkRejectedCandidate {
  rej_target_id : string;
  rej_reason : string
}.

Record RouteScore := mkRouteScore {
  score_target_id : string;
  score_score : f64;
  score_factors : BTreeMap string f64
}.

Record CapabilityFallback := mkCapabilityFallback {
  cf_capability : string;
  cf_action : string;
  cf_detail : string
}.

(** The execution receipt ([decision.receipt]) is attached after routing by the
    runtime; [plan_route] leaves it [None] and it is not a field here. *)
Record RouteDecision := mkRouteDecision {
  d_request_id : string;
  d_strategy : string;
  d_profile : option string;
  d_selected : option TargetRef;
  d_fallbacks : list TargetRef;
  d_reason : list string;
  d_rejected : list RejectedCandidate;
  d_scores : list RouteScore;
  d_capability_fallback : list CapabilityFallback;
  d_unverified : bool
}.

Definition RouteDecision_new (request_id strategy : string) : RouteDecision :=
  mkRouteDecision request_id strategy None None [] [] [] [] [] false.

Definition set_profile (p : option string) (d : RouteDecision) : RouteDecision :=
  mkRouteDecision (d_request_id d) (d_strategy d) p (d_selected d) (d_fallbacks d)
    (d_reason d) (d_rejected d) (d_scores d) (d_capability_fallback d) (d_unverified d).

Definition set_selected (s : option TargetRef) (d : RouteDecision) : RouteDecision :=
  mkRouteDecision (d_request_id d) (d_strategy d) (d_profile d) s (d_fallbacks d)
    (d_reason d) (d_rejected d) (d_scores d) (d_capability_fallback d) (d_unverified d).

Definition set_fallbacks (l : list TargetRef) (d : RouteDecision) : RouteDecision :=
  mkRouteDecision (d_request_id d) (d_strategy d) (d_profile d) (d_selected d) l
    (d_reason d) (d_rejected d) (d_scores d) (d_capability_fallback d) (d_unverified d).

Definition set_reason (l : list string) (d : RouteDecision) : RouteDecision :=
  mkRouteDecision (d_request_id d) (d_strategy d) (d_profile d) (d_selected d)
    (d_fallbacks d) l (d_rejected d) (d_scores d) (d_capability_fallback d)
    (d_unverified d).

Definition set_rejected (l : list RejectedCandidate) (d : RouteDecision) : RouteDecision :=
  mkRouteDecision (d_request_id d) (d_strategy d) (d_profile d) (d_selected d)
    (d_fallbacks d) (d_reason d) l (d_scores d) (d_capability_fallback d)
    (d_unverified d).

Definition set_scores (l : list RouteScore) (d : RouteDecision) : RouteDecision :=
  mkRouteDecision (d_request_id d) (d_strategy d) (d_profile d) (d_selected d)
    (d_fallbacks d) (d_reason d) (d_rejected d) l (d_capability_fallback d)
    (d_unverified d).

Definition set_unverified (b : bool) (d : RouteDecision) : RouteDecision :=
  mkRouteDecision (d_request_id d) (d_strategy d) (d_profile d) (d_selected d)
    (d_fallbacks d) (d_reason d) (d_rejected d) (d_scores d) (d_capability_fallback d) b.

Definition add_capability_fallback (f : CapabilityFallback) (d : RouteDecision)
  : RouteDecision :=
  mkRouteDecision (d_request_id d) (d_strategy d) (d_profile d) (d_selected d)
    (d_fallbacks d) (d_reason d) (d_rejected d) (d_scores d)
    (d_capability_fallback d ++ [f]) (d_unverified d).

Definition degraded (capability : string) (d : RouteDecision) : bool :=
  existsb (fun f => str_eqb (cf_capability f) capability) (d_capability_fallback d).

Definition add_reason (r : string) (d : RouteDecision) : RouteDecision :=
  set_reason (d_reason d ++ [r]) d.

Definition reject (target_id reason : string) (d : RouteDecision) : RouteDecision :=
  set_rejected (d_rejected d ++ [mkRejectedCandidate target_id reason]) d.

Definition summary (d : RouteDecision) : string :=
  let sel := match d_selected d with Some t => tr_target_id t | None => "none" end in
  let fb := tr_target_id <$> d_fallbacks d in
  let degraded_s :=
    if list_empty (d_capability_fallback d) then EmptyString
    else " capability_fallback=["
         ^^ join "," ((fun f => cf_capability f ^^ ":" ^^ cf_action f)
                      <$> d_capability_fallback d) ^^ "]" in
  "strategy=" ^^ d_strategy d ^^ " selected=" ^^ sel ^^ " fallbacks=[" ^^ join "," fb
  ^^ "] rejected=" ^^ fmt_int (Z.of_nat (length (d_rejected d))) ^^ degraded_s.

(** ** Properties *)

(** Every profile's identifier parses back to the profile. *)
Lemma from_model_profile_id p : from_model (profile_id p) = Some p.
Proof. by destruct p. Qed.
