(* ===== verification/Router.v ===== *)
(** * The router: definitions

    [crates/sb-router/src/lib.rs]. [plan_route] filters the candidate targets on
    capabilities and policy, orders the survivors, and records why in a
    [RouteDecision]. Every function of the source has its definition here; the
    filtering loop, the demotion pass and the closing pass of [plan_route] are
    definitions of their own. *)

From Stdlib Require Import ZArith Lia Ascii.
From stdpp Require Import base list strings.
From S2P Require Import Prelude Text BTree Float Ir Config Target Routing.

#[local] Open Scope Z_scope.

Record RoutePlan := mkRoutePlan {
  plan_candidates : list ExecutionTarget;
  plan_decision : RouteDecision
}.

(** ** Small classifiers *)

Definition has_tag (target : ExecutionTarget) (tag : string) : bool :=
  existsb (fun t => str_eqb t tag) (t_policy_tags target).

Definition blocked_lane (target : ExecutionTarget) (policy : RoutingPolicy) : option string :=
  if negb (pol_allow_free policy) && has_tag target "free" then Some "free"
  else if negb (pol_allow_promo policy) && has_tag target "promo" then Some "promo"
  else if negb (pol_allow_aggregator policy) && has_tag target "aggregator"
       then Some "aggregator"
  else None.

Definition strategy_name (policy : RoutingPolicy) : string :=
  match pol_profile policy with
  | Some Auto => "auto"
  | Some Cheap => "auto/cheap"
  | Some Fast => "auto/fast"
  | Some Coding => "auto/coding"
  | Some Private_ => "auto/private"
  | Some LargeContext => "auto/large-context"
  | Some Judge => "auto/judge"
  | Some Extract_ => "auto/extract"
  | None =>
      if opt_is_some (pol_scoring policy) then "score"
      else if pol_cost_aware policy then "cost_aware"
      else if pol_latency_aware policy then "latency_aware"
      else "ordered_fallback"
  end.

Definition is_coding_target (target : ExecutionTarget) : bool :=
  let tag_ok := existsb (fun tag =>
    let tag := to_ascii_lowercase tag in
    str_eqb tag "coding" || str_eqb tag "code" || str_eqb tag "coder")
    (t_task_tags target ++ t_policy_tags target) in
  if tag_ok then true
  else
    let id := to_ascii_lowercase (t_id target) in
    contains "coding" id || contains "coder" id || contains "code" id.

Definition rank_factor (index len : Z) : f64 :=
  if len <=? 1 then f64_one
  else f64_sub f64_one (f64_div (f64_of_Z index) (f64_of_Z (len - 1))).

Definition account_availability_factor (target : ExecutionTarget) : f64 :=
  match t_healthy_accounts target with
  | Some n =>
      if n =? 0 then f64_zero
      else f_min (f64_div (f64_of_Z n) (f64_of_Z 4)) f64_one
  | None => f64_half
  end.

Definition health_factor (h : HealthState) : f64 :=
  match h with
  | Healthy => f64_one
  | Degraded => f64_half
  | Down => f64_zero
  end.

(** ** Demotion and outcome evidence *)

Definition demote_rank (target : ExecutionTarget) : Z :=
  if bool_decide (t_healthy_accounts target = Some 0) then 2
  else match t_outcome target with
       | Some o => if bool_decide (os_tier o = TierDemoted) then 1 else 0
       | None => 0
       end.

Definition format_pct (rate : f32) : string :=
  fmt_fixed 1 (f32_mul rate (f32_of_Z 100)) ^^ "%".

Definition format_latency_humanized (ms : Z) : string :=
  if 1000 <=? ms then fmt_fixed 1 (f64_div (f64_of_Z ms) (f64_of_Z 1000)) ^^ "s"
  else fmt_int ms ^^ "ms".

Definition format_cps_dollars (micros : Z) : string :=
  "$" ^^ fmt_fixed 4 (f64_div (f64_of_Z micros) (f64_of_Z 1000000)).

Definition format_outcome_select (target_id : string) (o : OutcomeSignal) : string :=
  let line := "outcome/select target=" ^^ target_id ^^ " ok=" ^^ format_pct (os_success_rate o)
    ^^ " p50=" ^^ format_latency_humanized (os_p50_latency_ms o)
    ^^ " p95=" ^^ format_latency_humanized (os_p95_latency_ms o)
    ^^ " n=" ^^ fmt_int (os_samples o) in
  if 0 <? os_cost_per_success_micros o
  then line ^^ " cps=" ^^ format_cps_dollars (os_cost_per_success_micros o)
  else line.

Definition demote_reason_code (o : OutcomeSignal) : string :=
  match os_demote_trigger o with
  | Some TriggerTruncation => "truncation"
  | Some TriggerStreak => "streak"
  | Some TriggerSuccess | None => "success"
  end.

Definition format_outcome_demote (target_id : string) (o : OutcomeSignal) : string :=
  let line := "outcome/demote target=" ^^ target_id ^^ " reason=" ^^ demote_reason_code o
    ^^ " ok=" ^^ format_pct (os_success_rate o)
    ^^ " trunc=" ^^ format_pct (os_truncation_rate o)
    ^^ " n=" ^^ fmt_int (os_samples o) ^^ " tier=demoted" in
  let line := if bool_decide (os_demote_trigger o = Some TriggerStreak)
    then line ^^ " fails=" ^^ fmt_int (os_consecutive_failures o) else line in
  match os_dominant_error o with
  | Some err => line ^^ " err=" ^^ error_class_as_str err
  | None => line
  end.

(** ** The qualified tie-break *)

Definition outcome_health (t : ExecutionTarget) : f32 :=
  match t_outcome t with Some o => os_health_factor o | None => f64_zero end.

Definition outcome_qualified (min_samples : Z) (t : ExecutionTarget) : bool :=
  match t_outcome t with Some o => min_samples <=? os_samples o | None => false end.

(** The comparator of the tie-break: higher health first. *)
Definition health_cmp (a b : ExecutionTarget) : comparison :=
  cmp_or_eq (outcome_health b) (outcome_health a).

Definition ids (l : list ExecutionTarget) : list string := t_id <$> l.

(** One run [survivors[i..j]]: sorted when it has two members or more and all of
    them are qualified. *)
Definition tiebreak_run (min_samples : Z) (run : list ExecutionTarget) (d : RouteDecision)
  : list ExecutionTarget * RouteDecision :=
  if (1 <? Z.of_nat (length run)) && forallb (outcome_qualified min_samples) run then
    let after := sort_by health_cmp run in
    match after with
    | winner :: over =>
        if bool_decide (ids run = ids after) then (after, d)
        else (after, add_reason ("outcome/tiebreak target=" ^^ t_id winner
               ^^ " health=" ^^ fmt_fixed 3 (outcome_health winner)
               ^^ " over=" ^^ join "," (ids over)) d)
    | [] => (after, d)
    end
  else (run, d).

(** The longest prefix of [l] in the group, and the rest. *)
Fixpoint span {A} (p : A -> bool) (l : list A) : list A * list A :=
  match l with
  | [] => ([], [])
  | x :: l' => if p x then let '(a, b) := span p l' in (x :: a, b) else ([], l)
  end.

(** The [while i < len] loop; the fuel is the length of the slice. *)
Fixpoint tiebreak_loop (fuel : nat) (min_samples : Z)
    (same_group : ExecutionTarget -> ExecutionTarget -> bool)
    (l : list ExecutionTarget) (d : RouteDecision) : list ExecutionTarget * RouteDecision :=
  match fuel, l with
  | S f, x :: rest =>
      let '(run_tail, rest') := span (same_group x) rest in
      let '(run, d1) := tiebreak_run min_samples (x :: run_tail) d in
      let '(tail, d2) := tiebreak_loop f min_samples same_group rest' d1 in
      (run ++ tail, d2)
  | _, _ => (l, d)
  end.

Definition apply_outcome_tiebreak (l : list ExecutionTarget) (min_samples : Z)
    (same_group : ExecutionTarget -> ExecutionTarget -> bool) (d : RouteDecision)
  : list ExecutionTarget * RouteDecision :=
  tiebreak_loop (length l) min_samples same_group l d.

(** ** Score factors *)

Definition inverse_range_factor (value min max : option f64) : f64 :=
  match value with
  | None => f64_zero
  | Some value =>
      match min, max with
      | Some min, Some max =>
          if f_lt (f64_abs (f64_sub max min)) f64_epsilon then f64_one
          else f_clamp (f64_div (f64_sub max value) (f64_sub max min)) f64_zero f64_one
      | _, _ => f64_one
      end
  end.

Definition range_bounds (values : list (option f64)) : option f64 * option f64 :=
  fold_left (fun acc value =>
    match value with
    | None => acc
    | Some value =>
        (Some match acc.1 with Some current => f_min current value | None => value end,
         Some match acc.2 with Some current => f_max current value | None => value end)
    end) values (None, None).

Record QualityContext := mkQualityContext {
  qc_baseline : f64;
  qc_qualified_factors : BTreeMap string f64
}.

(** The candidates with fresh, sufficiently sampled quality evidence. *)
Definition qualified_quality (candidates : list ExecutionTarget) (policy : RoutingPolicy)
  : list (ExecutionTarget * QualitySignal) :=
  omap (fun t => match t_quality t with
    | Some q =>
        if (qs_age_secs q <=? window_ttl_secs (sc_window (pol_scorecard policy)))
           && (qe_routing_min_samples (pol_quality_eval policy) <=? qs_samples q)
        then Some (t, q) else None
    | None => None
    end) candidates.

(** [iter.sum::<f64>()]: the standard library folds from [-0.0]. *)
Definition f64_sum (l : list f64) : f64 := fold_left f64_add l (SpecFloat.S754_zero true).

Definition QualityContext_new (candidates : list ExecutionTarget) (policy : RoutingPolicy)
  : option QualityContext :=
  let config := pol_quality_eval policy in
  if negb (opt_is_some (pol_scoring policy)) || negb (qe_enabled config)
     || f_le (qe_routing_weight config) f64_zero
  then None
  else
    let qualified := qualified_quality candidates policy in
    if Z.of_nat (length qualified) <? 2 then None
    else
      let baseline := f64_div (f64_sum ((fun tq => qs_ewma tq.2) <$> qualified))
        (f64_of_Z (Z.of_nat (length qualified))) in
      let factors := bt_collect ((fun tq : ExecutionTarget * QualitySignal =>
        let confidence := f_min (f64_div (f64_of_Z (qs_samples tq.2))
          (f64_of_Z (qe_routing_full_confidence_samples config))) f64_one in
        (t_id tq.1,
         f64_add baseline (f64_mul confidence (f64_sub (qs_ewma tq.2) baseline))))
        <$> qualified) in
      Some (mkQualityContext baseline factors).

Definition qc_factor (c : QualityContext) (target_id : string) : f64 :=
  match bt_get target_id (qc_qualified_factors c) with
  | Some f => f
  | None => qc_baseline c
  end.

Definition format_quality_reason (target : ExecutionTarget) (policy : RoutingPolicy)
    (context : option QualityContext) : option string :=
  if negb (qe_enabled (pol_quality_eval policy)) then None
  else match t_quality target with
  | None => None
  | Some q =>
      if window_ttl_secs (sc_window (pol_scorecard policy)) <? qs_age_secs q then None
      else
        let base := "outcome/quality target=" ^^ t_id target ^^ " q=" ^^ fmt_fixed 3 (qs_ewma q)
          ^^ " n=" ^^ fmt_int (qs_samples q) ^^ " age=" ^^ fmt_int (qs_age_secs q)
          ^^ "s rubric=quality-v1 mode=" in
        Some match context with
        | Some context =>
            base ^^ "score factor=" ^^ fmt_fixed 3 (qc_factor context (t_id target))
            ^^ " weight=" ^^ fmt_fixed 3 (qe_routing_weight (pol_quality_eval policy))
        | None => base ^^ "observe"
        end
  end.

(** The provider named by the first image reference that belongs to another
    provider than the candidate's. *)
Definition provider_file_ref_scope_mismatch (req : AiRequest) (candidate : ExecutionTarget)
  : option string :=
  head (omap (fun part => match part with
    | Image (ProviderFileRef (Some provider) _) _ =>
        if str_eqb provider (t_provider_id candidate) then None else Some provider
    | _ => None
    end) (req_parts req)).

(** ** Scoring *)

Definition weighted_score (factors : BTreeMap string f64) (scoring : ScoringPolicy)
    (outcome_weight quality_weight : f64) : f64 :=
  let '(weighted, total) := fold_left (fun acc fv =>
    let weight :=
      if str_eqb fv.1 "outcome_health" then outcome_weight
      else if str_eqb fv.1 "response_quality" then quality_weight
      else weight_for scoring fv.1 in
    if f_le weight f64_zero then acc
    else (f64_add acc.1 (f64_mul weight fv.2), f64_add acc.2 weight))
    factors (f64_zero, f64_zero) in
  if f_le total f64_epsilon then f64_zero
  else f_clamp (f64_div weighted total) f64_zero f64_one.

(** The latency a request ranks on: time to first token for a streaming one. *)
Definition latency_signal (streaming_required : bool) (t : ExecutionTarget) : option f64 :=
  if streaming_required then
    match t_ttft_ewma_ms t with Some x => Some x | None => t_latency_ewma_ms t end
  else t_latency_ewma_ms t.

Definition blended_cost (t : ExecutionTarget) : option f64 := blended_per_mtok <$> t_cost t.

(** [iter.max()] over integers. *)
Definition max_opt (l : list Z) : option Z :=
  fold_left (fun acc x => Some match acc with Some m => Z.max m x | None => x end) l None.

(** The bounds and evidence flags shared by every row of [route_scores]. *)
Record ScoreContext := mkScoreContext {
  sx_len : Z;
  sx_cost_bounds : option f64 * option f64;
  sx_latency_bounds : option f64 * option f64;
  sx_max_context : option Z;
  sx_any_outcome_evidence : bool
}.

Definition score_context (candidates : list ExecutionTarget) (policy : RoutingPolicy)
    (streaming_required : bool) : ScoreContext :=
  mkScoreContext (Z.of_nat (length candidates))
    (range_bounds (blended_cost <$> candidates))
    (range_bounds (latency_signal streaming_required <$> candidates))
    (max_opt (omap (fun t => cap_max_context_tokens (t_capabilities t)) candidates))
    (sc_enabled (pol_scorecard policy)
     && existsb (fun t => opt_is_some (t_outcome t)) candidates).

(** The factor map of one candidate; insertions as in the source, so a key is
    present exactly when the source inserts it. *)
Definition score_factors_of (sx : ScoreContext) (quality_context : option QualityContext)
    (rank : f64) (target : ExecutionTarget) : BTreeMap string f64 :=
  let factors := bt_collect
    [("selection_rank", rank);
     ("health", health_factor (t_health target));
     ("account_availability", account_availability_factor target);
     ("cost", match t_cost target with
              | Some cost => inverse_range_factor (Some (blended_per_mtok cost))
                               (sx_cost_bounds sx).1 (sx_cost_bounds sx).2
              | None => f64_zero
              end);
     ("latency", inverse_range_factor (t_latency_ewma_ms target)
                   (sx_latency_bounds sx).1 (sx_latency_bounds sx).2);
     ("ttft", inverse_range_factor
                match t_ttft_ewma_ms target with
                | Some x => Some x | None => t_latency_ewma_ms target end
                (sx_latency_bounds sx).1 (sx_latency_bounds sx).2);
     ("task_fit", f64_of_bool (is_coding_target target));
     ("context_fit", match sx_max_context sx with
                     | Some max_context =>
                         match cap_max_context_tokens (t_capabilities target) with
                         | Some context => f64_div (f64_of_Z context) (f64_of_Z max_context)
                         | None => f64_zero
                         end
                     | None => f64_zero
                     end)] in
  let factors :=
    if sx_any_outcome_evidence sx then
      bt_insert "outcome_health" match t_outcome target with
                                 | Some o => f64_of_f32 (os_health_factor o)
                                 | None => f64_one
                                 end factors
    else factors in
  match quality_context with
  | Some context => bt_insert "response_quality" (qc_factor context (t_id target)) factors
  | None => factors
  end.

Definition route_scores (candidates : list ExecutionTarget) (policy : RoutingPolicy)
    (streaming_required : bool) (quality_context : option QualityContext) : list RouteScore :=
  let sx := score_context candidates policy streaming_required in
  imap (fun index target =>
    let rank := rank_factor (Z.of_nat index) (sx_len sx) in
    let factors := score_factors_of sx quality_context rank target in
    let score := match pol_scoring policy with
      | Some scoring => weighted_score factors scoring
          (sc_score_weight (pol_scorecard policy))
          (qe_routing_weight (pol_quality_eval policy))
      | None => rank
      end in
    mkRouteScore (t_id target) score factors) candidates.

(** ** Ordering one demotion rank *)

Definition score_of (scores : BTreeMap string f64) (t : ExecutionTarget) : f64 :=
  match bt_get (t_id t) scores with Some s => s | None => f64_zero end.

(** The comparators of the strategies. *)
Definition score_cmp (scores : BTreeMap string f64) (a b : ExecutionTarget) : comparison :=
  cmp_or_eq (score_of scores b) (score_of scores a).

Definition coding_key (t : ExecutionTarget) : Z := if is_coding_target t then 0 else 1.

Definition coding_cmp (a b : ExecutionTarget) : comparison :=
  Z.compare (coding_key a) (coding_key b).

Definition context_of (t : ExecutionTarget) : Z :=
  default 0 (cap_max_context_tokens (t_capabilities t)).

Definition context_cmp (a b : ExecutionTarget) : comparison :=
  Z.compare (context_of b) (context_of a).

Definition cost_cmp (a b : ExecutionTarget) : comparison :=
  none_last cmp_or_eq (blended_cost a) (blended_cost b).

Definition latency_cmp (interactive : bool) (a b : ExecutionTarget) : comparison :=
  none_first cmp_or_eq (latency_signal interactive a) (latency_signal interactive b).

Definition is_eq (c : comparison) : bool := match c with Eq => true | _ => false end.

Definition order_partition (part : list ExecutionTarget) (policy : RoutingPolicy)
    (streaming_required : bool) (score_by_target : option (BTreeMap string f64))
    (d : RouteDecision) : list ExecutionTarget * RouteDecision :=
  let ms := min_samples (sc_demotion (pol_scorecard policy)) in
  match score_by_target with
  | Some scores => (sort_by (score_cmp scores) part, d)
  | None =>
      if bool_decide (pol_profile policy = Some Coding) then
        apply_outcome_tiebreak (sort_by coding_cmp part) ms
          (fun a b => Bool.eqb (is_coding_target a) (is_coding_target b)) d
      else if bool_decide (pol_profile policy = Some LargeContext) then
        apply_outcome_tiebreak (sort_by context_cmp part) ms
          (fun a b => context_of a =? context_of b) d
      else if pol_cost_aware policy then
        apply_outcome_tiebreak (sort_by cost_cmp part) ms (fun a b => is_eq (cost_cmp a b)) d
      else if pol_latency_aware policy then
        apply_outcome_tiebreak (sort_by (latency_cmp streaming_required) part) ms
          (fun a b => is_eq (latency_cmp streaming_required a b)) d
      else
        apply_outcome_tiebreak part ms (fun _ _ => true) d
  end.

Definition strategy_summary_reason (policy : RoutingPolicy) (selected : option ExecutionTarget)
    (streaming_required : bool) (score_by_target : option (BTreeMap string f64))
  : option string :=
  match selected with
  | None => None
  | Some selected =>
      match score_by_target with
      | Some scores =>
          Some ("score: selected=" ^^ t_id selected ^^ " score="
                ^^ fmt_fixed 3 (score_of scores selected))
      | None =>
          if bool_decide (pol_profile policy = Some Coding) then
            Some ("auto/coding: selected=" ^^ t_id selected ^^ " fit="
                  ^^ (if is_coding_target selected then "coding" else "unclassified"))
          else if bool_decide (pol_profile policy = Some LargeContext) then
            Some ("auto/large-context: widest=" ^^ t_id selected ^^ " context="
                  ^^ match cap_max_context_tokens (t_capabilities selected) with
                     | Some tokens => fmt_int tokens | None => "unknown" end)
          else if pol_cost_aware policy then
            Some ("cost_aware: cheapest=" ^^ t_id selected ^^ " blended="
                  ^^ match blended_cost selected with
                     | Some c => fmt_fixed 2 c ^^ "/Mtok" | None => "unpriced" end)
          else if pol_latency_aware policy then
            Some ("latency_aware: fastest=" ^^ t_id selected ^^ " "
                  ^^ (if streaming_required then "ttft" else "latency") ^^ "="
                  ^^ match latency_signal streaming_required selected with
                     | Some ms => fmt_fixed 0 ms ^^ "ms" | None => "unmeasured" end)
          else None
      end
  end.

(** ** What the request and the route need *)

Record Needs := mkNeeds {
  streaming_required : bool;
  tools_required : bool;
  server_tools_required : bool;
  server_tool_protocols : list ServerToolProtocol;
  vision_required : bool;
  audio_required : bool;
  file_required : bool;
  image_out_required : bool;
  reasoning_required : bool;
  image_sources : list ImageSourceKind;
  json_schema_required : bool
}.

(** [opt == Some(true)]. *)
Definition is_true_opt (o : option bool) : bool :=
  match o with Some true => true | _ => false end.

Definition is_json_schema (f : option ResponseFormat) : bool :=
  match f with Some (RfJsonSchema _ _ _) => true | _ => false end.

Definition needs_of (req : AiRequest) (require : RouteRequire) : Needs :=
  mkNeeds
    (is_true_opt (rr_streaming require) || req_stream req)
    (is_true_opt (rr_tool_calling require) || requires_tools req)
    (is_true_opt (rr_server_tools require) || requires_server_tools req)
    (enum_set all_server_tool_protocols
       ((st_protocol <$> req_server_tools req) ++ rr_server_tool_protocols require))
    (is_true_opt (rr_vision_in require) || negb (list_empty (rr_vision_sources require))
     || requires_vision req)
    (is_true_opt (rr_audio_in require))
    (is_true_opt (rr_file_in require))
    (is_true_opt (rr_image_out require))
    (is_true_opt (rr_reasoning_summary require))
    (enum_set all_image_source_kinds
       (omap content_image_source_kind (req_parts req) ++ rr_vision_sources require))
    (is_true_opt (rr_json_schema require) || is_json_schema (req_response_format req)).

(** The decision after the opening reasons. *)
Definition opening_decision (req : AiRequest) (route_name : string) (policy : RoutingPolicy)
    (n : Needs) : RouteDecision :=
  let d := RouteDecision_new (req_id req) (strategy_name policy) in
  let d := match pol_profile policy with
    | Some p => add_reason ("profile=" ^^ profile_id p) (set_profile (Some (profile_id p)) d)
    | None => d
    end in
  let d := add_reason ("route=" ^^ route_name) d in
  let d := add_reason ("stream_required=" ^^ fmt_bool (streaming_required n)) d in
  let d := add_reason ("tools_required=" ^^ fmt_bool (tools_required n)) d in
  let d := add_reason ("server_tools_required=" ^^ fmt_bool (server_tools_required n)) d in
  let d := if server_tools_required n && negb (list_empty (server_tool_protocols n))
    then add_reason ("server_tool_protocols="
           ^^ join "," (server_tool_protocol_as_str <$> server_tool_protocols n)) d
    else d in
  let d := add_reason ("vision_required=" ^^ fmt_bool (vision_required n)) d in
  let d := if vision_required n then
      let d := add_reason ("image_count=" ^^ fmt_int (image_count req)) d in
      if list_empty (image_sources n) then d
      else add_reason ("image_sources="
             ^^ join "," (image_source_kind_as_str <$> image_sources n)) d
    else d in
  add_reason ("json_schema_required=" ^^ fmt_bool (json_schema_required n)) d.

Definition vision_degradable (req : AiRequest) (require : RouteRequire)
    (policy : RoutingPolicy) (n : Needs) : bool :=
  vision_required n && pol_vision_degrade policy && requires_vision req
  && negb (is_true_opt (rr_vision_in require)) && list_empty (rr_vision_sources require).

(** ** The hard filter *)

(** The body of the candidate loop: it survives, or it is rejected for a reason,
    which may be a vision-class one (recorded in [vision_blocked]). *)
Inductive Verdict :=
| Survives
| Rejected (reason : string) (vision : bool).

Section Filter.
Context (req : AiRequest) (require : RouteRequire) (policy : RoutingPolicy) (n : Needs).

(** The checks on the target's capabilities, in source order, up to the
    reasoning-summary check. *)
Definition check_capabilities (relax_vision : bool) (c : ExecutionTarget) : Verdict :=
  let caps := t_capabilities c in
  if streaming_required n && negb (cap_streaming caps) then
    Rejected "streaming required but target does not support it" false
  else if tools_required n && negb (cap_tool_calling caps) then
    Rejected "tool calling required but target does not support it" false
  else if server_tools_required n && negb (cap_server_tools caps) then
    Rejected "server tools required but target does not support them" false
  else match (if server_tools_required n
              then List.find (fun p => negb (supports_server_tool_protocol caps p))
                     (server_tool_protocols n)
              else None) with
  | Some unsupported =>
      Rejected ("server tool protocol " ^^ server_tool_protocol_as_str unsupported
                ^^ " required but target does not support it") false
  | None =>
  if vision_required n && negb relax_vision && negb (cap_vision_in caps) then
    Rejected "vision input required but target does not support it" true
  else if audio_required n && negb (cap_audio_in caps) then
    Rejected "audio input required but target does not support it" false
  else if file_required n && negb (cap_file_in caps) then
    Rejected "file input required but target does not support it" false
  else if image_out_required n && negb (cap_image_out caps) then
    Rejected "image output required but target does not support it" false
  else if reasoning_required n && negb (cap_reasoning_summary caps) then
    Rejected "reasoning summary required but target does not support it" false
  else Survives
  end.

(** The checks on the image sources. *)
Definition check_image_sources (relax_vision : bool) (c : ExecutionTarget) : Verdict :=
  if vision_required n && negb relax_vision then
    match List.find (fun s => negb (supports_image_source (t_capabilities c) s))
            (image_sources n) with
    | Some unsupported =>
        Rejected ("image source " ^^ image_source_kind_as_str unsupported
                  ^^ " required but target does not support it") true
    | None =>
        match provider_file_ref_scope_mismatch req c with
        | Some owner =>
            Rejected ("provider file image ref belongs to `" ^^ owner
                      ^^ "` but target provider is `" ^^ t_provider_id c ^^ "`") true
        | None => Survives
        end
    end
  else Survives.

(** Structured output, context window, health, lanes and price. *)
Definition check_policy (c : ExecutionTarget) : Verdict :=
  let caps := t_capabilities c in
  if json_schema_required n && negb (cap_json_schema caps) then
    Rejected "structured output (json_schema) required but target does not support it" false
  else match (match rr_min_context_tokens require with
              | None => None
              | Some required =>
                  match cap_max_context_tokens caps with
                  | Some max_context =>
                      if max_context <? required
                      then Some ("context window " ^^ fmt_int max_context ^^ " < required "
                                 ^^ fmt_int required)
                      else None
                  | None =>
                      if bool_decide (pol_unknown_context policy = ContextReject)
                      then Some ("context window unknown for required " ^^ fmt_int required)
                      else None
                  end
              end) with
  | Some reason => Rejected reason false
  | None =>
  if bool_decide (t_health c = Down) then Rejected "target health is down" false
  else match blocked_lane c policy with
  | Some blocked => Rejected ("policy: `" ^^ blocked ^^ "` lane not allowed") false
  | None =>
      match pol_max_price_per_mtok policy with
      | Some max =>
          match t_cost c with
          | Some cost =>
              let blended := blended_per_mtok cost in
              if f_lt max blended then
                Rejected ("blended price " ^^ fmt_fixed 2 blended ^^ "/Mtok > max "
                          ^^ fmt_fixed 2 max ^^ "/Mtok") false
              else Survives
          | None =>
              if bool_decide (pol_unknown_cost policy = CostReject) then
                Rejected ("price unknown for max " ^^ fmt_fixed 2 max ^^ "/Mtok policy") false
              else Survives
          end
      | None =>
          if bool_decide (pol_unknown_cost policy = CostReject)
             && negb (opt_is_some (t_cost c))
          then Rejected "price unknown and policy rejects unknown cost" false
          else Survives
      end
  end
  end.

Definition and_then (v : Verdict) (k : Verdict) : Verdict :=
  match v with Survives => k | _ => v end.

Definition check_candidate (relax_vision : bool) (c : ExecutionTarget) : Verdict :=
  and_then (check_capabilities relax_vision c)
    (and_then (check_image_sources relax_vision c) (check_policy c)).

(** The mutable variables of the loop. *)
Record FilterState := mkFilterState {
  fs_survivors : list ExecutionTarget;
  fs_vision_blocked : list string;
  fs_decision : RouteDecision
}.

Definition filter_step (relax_vision : bool) (st : FilterState) (c : ExecutionTarget)
  : FilterState :=
  match check_candidate relax_vision c with
  | Survives =>
      mkFilterState (fs_survivors st ++ [c]) (fs_vision_blocked st) (fs_decision st)
  | Rejected reason vision =>
      mkFilterState (fs_survivors st)
        (if vision then fs_vision_blocked st ++ [t_id c] else fs_vision_blocked st)
        (reject (t_id c) reason (fs_decision st))
  end.

(** One run of the [for candidate in candidates] loop. *)
Definition filter_pass (relax_vision : bool) (candidates : list ExecutionTarget)
    (st : FilterState) : FilterState :=
  fold_left (filter_step relax_vision) candidates st.

(** Whether the outer [loop] breaks after a pass. *)
Definition loop_breaks (relax_vision : bool) (st : FilterState) : bool :=
  negb (list_empty (fs_survivors st)) || relax_vision
  || negb (vision_degradable req require policy n)
  || list_empty (fs_vision_blocked st).

(** The outer [loop]: a strict pass, and at most one relaxed pass, after which
    [loop_breaks true] holds. The result carries [relax_vision] and
    [strict_rejected_len]. *)
Definition filter_loop (candidates : list ExecutionTarget) (d : RouteDecision)
  : FilterState * bool * nat :=
  let strict := filter_pass false candidates (mkFilterState [] [] d) in
  if loop_breaks false strict then (strict, false, O)
  else
    let strict_rejected_len := length (d_rejected (fs_decision strict)) in
    (filter_pass true candidates
       (mkFilterState [] (fs_vision_blocked strict) (fs_decision strict)),
     true, strict_rejected_len).

End Filter.

(** The record of a degraded vision requirement. *)
Definition record_degradation (req : AiRequest) (route_name : string)
    (fr : FilterState * bool * nat) : FilterState :=
  let '(st, relax_vision, strict_rejected_len) := fr in
  if relax_vision && negb (list_empty (fs_survivors st)) then
    let d := fs_decision st in
    let d := set_rejected (take strict_rejected_len (d_rejected d)) d in
    let dropped := fmt_int (image_count req) in
    let detail := "no target on route `" ^^ route_name
      ^^ "` accepts this request's image input; " ^^ dropped
      ^^ " image part(s) dropped and served as text (blocked: "
      ^^ join "," (fs_vision_blocked st) ^^ ")" in
    let d := add_capability_fallback
      (mkCapabilityFallback "vision_in" "stripped_image_parts" detail) d in
    let d := add_reason ("capability_fallback=vision_in:" ^^ dropped ^^ "_images_dropped") d in
    mkFilterState (fs_survivors st) (fs_vision_blocked st) d
  else st.

(** ** Demotion, ordering, closing *)

Definition no_account (t : ExecutionTarget) : bool :=
  bool_decide (t_healthy_accounts t = Some 0).

Definition scorecard_demoted (survivors : list ExecutionTarget)
  : list (string * OutcomeSignal) :=
  omap (fun c => match t_outcome c with
    | Some o => if negb (no_account c) && bool_decide (os_tier o = TierDemoted)
                then Some (t_id c, o) else None
    | None => None
    end) survivors.

Definition demote_sort (survivors : list ExecutionTarget) : list ExecutionTarget :=
  if (0 <? Z.of_nat (length (List.filter no_account survivors)))
     || negb (list_empty (scorecard_demoted survivors))
  then sort_by (fun a b => Z.compare (demote_rank a) (demote_rank b)) survivors
  else survivors.

(** [partition_point]: on a partitioned slice, the length of the prefix on which
    the predicate holds. *)
Fixpoint partition_point {A} (p : A -> bool) (l : list A) : nat :=
  match l with
  | x :: l' => if p x then S (partition_point p l') else O
  | [] => O
  end.

(** The three rank slices. *)
Definition rank_slices (l : list ExecutionTarget)
  : list ExecutionTarget * list ExecutionTarget * list ExecutionTarget :=
  let end0 := partition_point (fun t => demote_rank t =? 0) l in
  let rest := drop end0 l in
  let end1 := partition_point (fun t => demote_rank t =? 1) rest in
  (take end0 l, take end1 rest, drop end1 rest).

Definition order_survivors (policy : RoutingPolicy) (streaming : bool)
    (score_by_target : option (BTreeMap string f64)) (l : list ExecutionTarget)
    (d : RouteDecision) : list ExecutionTarget * RouteDecision :=
  let '(part0, part1, part2) := rank_slices l in
  let '(o0, d) := order_partition part0 policy streaming score_by_target d in
  let '(o1, d) := order_partition part1 policy streaming score_by_target d in
  let '(o2, d) := order_partition part2 policy streaming score_by_target d in
  (o0 ++ o1 ++ o2, d).

(** The reasons for demotions, the strategy summary, the scores, the selection
    and the fallbacks. *)
Definition close_decision (policy : RoutingPolicy) (streaming : bool)
    (quality_context : option QualityContext)
    (score_by_target : option (BTreeMap string f64))
    (demoted : list (string * OutcomeSignal)) (no_account_demoted : Z)
    (survivors : list ExecutionTarget) (d : RouteDecision) : RouteDecision :=
  let d := if 0 <? no_account_demoted
    then add_reason ("demoted " ^^ fmt_int no_account_demoted
           ^^ " target(s) with no healthy accounts") d
    else d in
  let d := fold_left (fun d io => add_reason (format_outcome_demote io.1 io.2) d) demoted d in
  let d := match strategy_summary_reason policy (head survivors) streaming score_by_target with
    | Some reason => add_reason reason d
    | None => d
    end in
  let d := set_scores (route_scores survivors policy streaming quality_context) d in
  match survivors with
  | [] => d
  | selected :: fallbacks =>
      let d := set_selected (Some (TargetRef_new (t_id selected))) d in
      let d := match t_outcome selected with
        | Some o => add_reason (format_outcome_select (t_id selected) o) d
        | None => d
        end in
      let d := match format_quality_reason selected policy quality_context with
        | Some reason => add_reason reason d
        | None => d
        end in
      let d := if t_unverified selected
        then add_reason "unverified passthrough: capabilities + price not catalog-verified"
               (set_unverified true d)
        else d in
      set_fallbacks (d_fallbacks d ++ ((fun t => TargetRef_new (t_id t)) <$> fallbacks)) d
  end.

(** [score_by_target]: computed once over all survivors, for the score strategy
    only. *)
Definition score_map (survivors : list ExecutionTarget) (policy : RoutingPolicy)
    (streaming : bool) : option (BTreeMap string f64) :=
  match pol_scoring policy with
  | Some _ => Some (bt_collect ((fun s => (score_target_id s, score_score s))
      <$> route_scores survivors policy streaming (QualityContext_new survivors policy)))
  | None => None
  end.

Definition plan_route (req : AiRequest) (route_name : string) (require : RouteRequire)
    (candidates : list ExecutionTarget) (policy : RoutingPolicy) : RoutePlan :=
  let n := needs_of req require in
  let st := record_degradation req route_name
    (filter_loop req require policy n candidates
       (opening_decision req route_name policy n)) in
  let survivors := fs_survivors st in
  let quality_context := QualityContext_new survivors policy in
  let score_by_target := score_map survivors policy (streaming_required n) in
  let demoted := scorecard_demoted survivors in
  let no_account_demoted := Z.of_nat (length (List.filter no_account survivors)) in
  let '(ordered, d) := order_survivors policy (streaming_required n) score_by_target
    (demote_sort survivors) (fs_decision st) in
  mkRoutePlan ordered
    (close_decision policy (streaming_required n) quality_context score_by_target demoted
       no_account_demoted ordered d).
