(* ===== verification/RouterSpec.v ===== *)
(** * The router: filtering

    The declarative meaning of the hard filter and the proof that the loop of
    [plan_route] implements it: which candidates survive, which are rejected,
    and when the vision requirement is relaxed. *)

From Stdlib Require Import ZArith Lia.
From stdpp Require Import base list strings sets.
From S2P Require Import Prelude Text BTree Float Ir Config Target Routing Router.

#[local] Open Scope Z_scope.

(** ** Eligibility, declaratively *)

Section Eligibility.
Context (req : AiRequest) (require : RouteRequire) (policy : RoutingPolicy) (n : Needs).

(** The capabilities that are never relaxed. *)
Definition capable (c : ExecutionTarget) : Prop :=
  let caps := t_capabilities c in
  (streaming_required n = true -> cap_streaming caps = true)
  /\ (tools_required n = true -> cap_tool_calling caps = true)
  /\ (server_tools_required n = true ->
        cap_server_tools caps = true
        /\ forall p, p ∈ server_tool_protocols n -> supports_server_tool_protocol caps p = true)
  /\ (audio_required n = true -> cap_audio_in caps = true)
  /\ (file_required n = true -> cap_file_in caps = true)
  /\ (image_out_required n = true -> cap_image_out caps = true)
  /\ (reasoning_required n = true -> cap_reasoning_summary caps = true).

Definition schema_ok (c : ExecutionTarget) : Prop :=
  json_schema_required n = true -> cap_json_schema (t_capabilities c) = true.

(** The vision requirement: the target sees, it accepts every kind of image
    source the request and the route name, and no image refers to a file that
    another provider holds. *)
Definition sees (c : ExecutionTarget) : Prop :=
  vision_required n = true ->
  cap_vision_in (t_capabilities c) = true
  /\ (forall k, k ∈ image_sources n -> supports_image_source (t_capabilities c) k = true)
  /\ (forall owner id d,
        Image (ProviderFileRef (Some owner) id) d ∈ req_parts req -> owner = t_provider_id c).

Definition context_ok (c : ExecutionTarget) : Prop :=
  match rr_min_context_tokens require, cap_max_context_tokens (t_capabilities c) with
  | None, _ => True
  | Some required, Some max_context => required <= max_context
  | Some _, None => pol_unknown_context policy = ContextAllow
  end.

Definition lane_ok (c : ExecutionTarget) : Prop :=
  ("free" ∈ t_policy_tags c -> pol_allow_free policy = true)
  /\ ("promo" ∈ t_policy_tags c -> pol_allow_promo policy = true)
  /\ ("aggregator" ∈ t_policy_tags c -> pol_allow_aggregator policy = true).

Definition price_ok (c : ExecutionTarget) : Prop :=
  match pol_max_price_per_mtok policy, t_cost c with
  | Some max, Some cost => f_lt max (blended_per_mtok cost) = false
  | _, Some _ => True
  | _, None => pol_unknown_cost policy <> CostReject
  end.

Definition eligible (relax_vision : bool) (c : ExecutionTarget) : Prop :=
  capable c /\ (relax_vision = false -> sees c) /\ schema_ok c /\ context_ok c
  /\ t_health c <> Down /\ lane_ok c /\ price_ok c.

(** When the vision requirement may be given up: the request itself carries an
    image, the policy allows it, and the route asks for neither vision nor a kind
    of image source of its own. *)
Definition may_degrade : Prop :=
  0 < image_count req /\ pol_vision_degrade policy = true
  /\ rr_vision_in require <> Some true /\ rr_vision_sources require = [].

#[export] Instance may_degrade_dec : Decision may_degrade.
Proof. unfold may_degrade. apply _. Defined.

(** ** The checks decide eligibility *)

Lemma guard_survives (a b : bool) r v k :
  (if a && negb b then Rejected r v else k) = Survives
  <-> (a = true -> b = true) /\ k = Survives.
Proof. destruct a, b; simpl; naive_solver. Qed.

Lemma option_survives {A} (o : option A) (f : A -> Verdict) k :
  (forall x, f x <> Survives) ->
  match o with Some x => f x | None => k end = Survives <-> o = None /\ k = Survives.
Proof. intros Hf. destruct o as [x|]; [|naive_solver]. specialize (Hf x). naive_solver. Qed.

Lemma and_then_survives v k : and_then v k = Survives <-> v = Survives /\ k = Survives.
Proof. destruct v; simpl; naive_solver. Qed.

Lemma find_none_all {A} (p : A -> bool) (l : list A) :
  List.find (fun x => negb (p x)) l = None <-> (forall x, x ∈ l -> p x = true).
Proof.
  induction l as [|x l IH]; simpl.
  - split; [|done]. intros _ x Hx. by apply not_elem_of_nil in Hx.
  - destruct (p x) eqn:E; simpl.
    + rewrite IH. split.
      * intros H y [->|Hy]%elem_of_cons; auto.
      * intros H y Hy. apply H. by right.
    + split; [done|]. intros H. rewrite H in E; [done|by left].
Qed.

Lemma has_tag_spec c tag : has_tag c tag = true <-> tag ∈ t_policy_tags c.
Proof.
  unfold has_tag. rewrite existsb_exists. setoid_rewrite str_eqb_eq.
  rewrite list_elem_of_In. split; [by intros (x & Hx & ->)|by exists tag].
Qed.

Lemma scope_mismatch_none c :
  provider_file_ref_scope_mismatch req c = None
  <-> forall owner id d, Image (ProviderFileRef (Some owner) id) d ∈ req_parts req ->
      owner = t_provider_id c.
Proof.
  unfold provider_file_ref_scope_mismatch.
  induction (req_parts req) as [|p ps IH]; simpl.
  { split; [|done]. intros _ o i d H. by apply not_elem_of_nil in H. }
  assert (Hskip : (forall owner id d, p <> Image (ProviderFileRef (Some owner) id) d)
    \/ exists owner id d, p = Image (ProviderFileRef (Some owner) id) d).
  { destruct p as [|[| |[o|] i] d| | | | | |]; try (by left; intros ???).
    right. by exists o, i, d. }
  destruct Hskip as [Hne|(o & i & d & ->)].
  - assert (Hs : (match p with Image (ProviderFileRef (Some provider) _) _ =>
        if str_eqb provider (t_provider_id c) then None else Some provider
        | _ => None end) = None).
    { destruct p as [|[| |[o|] i] d| | | | | |]; try done. by destruct (Hne o i d). }
    rewrite Hs, IH. split.
    + intros H o i d [Heq|Hin]%elem_of_cons; [by destruct (Hne o i d)|by eapply H].
    + intros H o i d Hin. eapply H. by right.
  - destruct (str_eqb o (t_provider_id c)) eqn:E.
    + rewrite IH. apply str_eqb_eq in E. split.
      * intros H o' i' d' [[= -> -> ->]|Hin]%elem_of_cons; [done|by eapply H].
      * intros H o' i' d' Hin. eapply H. by right.
    + simpl. split; [done|]. intros H. exfalso.
      rewrite (H o i d) in E by (by left). by rewrite str_eqb_refl in E.
Qed.

Lemma protocols_spec c :
  (if server_tools_required n
   then List.find (fun p => negb (supports_server_tool_protocol (t_capabilities c) p))
          (server_tool_protocols n) else None) = None
  <-> (server_tools_required n = true -> forall p, p ∈ server_tool_protocols n ->
       supports_server_tool_protocol (t_capabilities c) p = true).
Proof.
  destruct (server_tools_required n); [|done]. rewrite find_none_all. split; auto.
Qed.

Lemma check_capabilities_spec relax c :
  check_capabilities n relax c = Survives
  <-> capable c
      /\ (relax = false -> vision_required n = true -> cap_vision_in (t_capabilities c) = true).
Proof.
  unfold check_capabilities, capable. cbv zeta.
  rewrite !guard_survives, option_survives, protocols_spec, !guard_survives by done.
  destruct relax; simpl; rewrite ?andb_false_r, ?andb_true_r; naive_solver.
Qed.

Lemma check_image_sources_spec relax c :
  check_image_sources req n relax c = Survives
  <-> (relax = false -> vision_required n = true ->
       (forall k, k ∈ image_sources n -> supports_image_source (t_capabilities c) k = true)
       /\ (forall owner id d, Image (ProviderFileRef (Some owner) id) d ∈ req_parts req ->
           owner = t_provider_id c)).
Proof.
  unfold check_image_sources. destruct relax; simpl; [by rewrite andb_false_r|].
  rewrite andb_true_r. destruct (vision_required n); [|done].
  rewrite option_survives, option_survives, find_none_all, scope_mismatch_none by done.
  naive_solver.
Qed.

Lemma blocked_lane_none c : blocked_lane c policy = None <-> lane_ok c.
Proof.
  unfold blocked_lane, lane_ok. rewrite <- !has_tag_spec.
  destruct (pol_allow_free policy), (pol_allow_promo policy), (pol_allow_aggregator policy),
    (has_tag c "free"), (has_tag c "promo"), (has_tag c "aggregator"); simpl; naive_solver.
Qed.

Lemma decide_survives (P : Prop) `{!Decision P} r v k :
  (if bool_decide P then Rejected r v else k) = Survives <-> ~ P /\ k = Survives.
Proof. case_bool_decide; naive_solver. Qed.

Lemma check_policy_spec c :
  check_policy require policy n c = Survives
  <-> schema_ok c /\ context_ok c /\ t_health c <> Down /\ lane_ok c /\ price_ok c.
Proof.
  unfold check_policy, schema_ok, price_ok. cbv zeta.
  rewrite guard_survives, option_survives, decide_survives, option_survives,
    blocked_lane_none by done.
  assert (Hctx : match rr_min_context_tokens require with
    | Some required => match cap_max_context_tokens (t_capabilities c) with
        | Some max_context => if max_context <? required
            then Some ("context window " ^^ fmt_int max_context ^^ " < required "
                       ^^ fmt_int required) else None
        | None => if bool_decide (pol_unknown_context policy = ContextReject)
            then Some ("context window unknown for required " ^^ fmt_int required) else None
        end
    | None => None end = None <-> context_ok c).
  { unfold context_ok. destruct (rr_min_context_tokens require) as [r|]; [|done].
    destruct (cap_max_context_tokens (t_capabilities c)) as [m|].
    - destruct (Z.ltb_spec m r); split; naive_solver lia.
    - case_bool_decide; destruct (pol_unknown_context policy); naive_solver. }
  rewrite Hctx. clear Hctx.
  destruct (pol_max_price_per_mtok policy) as [m|], (t_cost c) as [cost|]; simpl;
    try case_bool_decide; simpl; try (destruct (f_lt m (blended_per_mtok cost)));
    naive_solver.
Qed.

(** The source's chain of checks accepts a candidate exactly when it is
    eligible. *)
Lemma check_candidate_spec relax c :
  check_candidate req require policy n relax c = Survives <-> eligible relax c.
Proof.
  unfold check_candidate, eligible, sees.
  rewrite !and_then_survives, check_capabilities_spec, check_image_sources_spec,
    check_policy_spec.
  split; [intros ([? ?] & ? & ? & ? & ? & ? & ?)|intros (? & Hs & ? & ? & ? & ? & ?)];
    split_and!; auto; intros; destruct Hs as (? & ? & ?); auto.
Qed.

#[export] Instance eligible_dec relax c : Decision (eligible relax c).
Proof.
  refine (match check_candidate req require policy n relax c as v
    return check_candidate req require policy n relax c = v -> Decision (eligible relax c)
    with Survives => fun H => left _ | Rejected _ _ => fun H => right _ end eq_refl).
  - by apply check_candidate_spec.
  - intros He. apply check_candidate_spec in He. congruence.
Defined.

(** Relaxing vision only ever admits more candidates. *)
Lemma eligible_relax c : eligible false c -> eligible true c.
Proof. unfold eligible. naive_solver. Qed.

(** A vision-class rejection means the vision requirement is what fails. *)
Lemma vision_rejection_strict c reason :
  check_candidate req require policy n true c <> Rejected reason true.
Proof.
  unfold check_candidate, and_then, check_capabilities, check_image_sources, check_policy.
  rewrite !andb_false_r. simpl. repeat (case_match; simplify_eq/=; try done).
Qed.

(** A capable target can only be rejected by the vision checks of the strict
    pass. *)
Lemma capable_rejections c reason v :
  capable c -> check_capabilities n false c = Rejected reason v -> v = true.
Proof.
  intros Hc Hr. destruct v; [done|exfalso].
  assert (Hg : forall (a b : bool) r k, (a = true -> b = true) ->
    (if a && negb b then Rejected r false else k) = k) by (by intros [] [] ??; naive_solver).
  destruct Hc as (H1 & H2 & H3 & H4 & H5 & H6 & H7).
  unfold check_capabilities in Hr. cbv zeta in Hr.
  rewrite !Hg, (proj2 (protocols_spec c)) in Hr by naive_solver.
  destruct (vision_required n && _ && _); naive_solver.
Qed.

(** A rejection of the strict pass that is not a vision one is a rejection of the
    relaxed pass too. *)
Lemma other_rejection_stays c reason :
  check_candidate req require policy n false c = Rejected reason false ->
  ~ eligible true c.
Proof.
  intros H (Hc & _ & Hp). apply check_policy_spec in Hp. revert H. unfold check_candidate.
  rewrite Hp. destruct (check_capabilities n false c) as [|r v] eqn:E; simpl.
  - unfold check_image_sources. by repeat case_match.
  - intros [= -> ->]. by apply capable_rejections in E.
Qed.

(** ** The loop *)

Definition survivors_of (relax : bool) (cs : list ExecutionTarget) : list ExecutionTarget :=
  filter (eligible relax) cs.

(** The rejections of a pass, in candidate order. *)
Definition rejection_of (relax : bool) (c : ExecutionTarget) : option RejectedCandidate :=
  match check_candidate req require policy n relax c with
  | Survives => None
  | Rejected reason _ => Some (mkRejectedCandidate (t_id c) reason)
  end.

Definition vision_block_of (relax : bool) (c : ExecutionTarget) : option string :=
  match check_candidate req require policy n relax c with
  | Rejected _ true => Some (t_id c)
  | _ => None
  end.

Lemma set_rejected_twice l l' d : set_rejected l (set_rejected l' d) = set_rejected l d.
Proof. done. Qed.

Lemma set_rejected_id d : set_rejected (d_rejected d) d = d.
Proof. by destruct d. Qed.

Lemma filter_pass_spec relax cs st :
  filter_pass req require policy n relax cs st
  = mkFilterState (fs_survivors st ++ survivors_of relax cs)
      (fs_vision_blocked st ++ omap (vision_block_of relax) cs)
      (set_rejected (d_rejected (fs_decision st) ++ omap (rejection_of relax) cs)
         (fs_decision st)).
Proof.
  revert st. induction cs as [|c cs IH]; intros [sv vb d]; simpl.
  - unfold survivors_of. simpl. by rewrite !app_nil_r, set_rejected_id.
  - rewrite IH. unfold filter_step, survivors_of, rejection_of, vision_block_of. simpl.
    destruct (check_candidate req require policy n relax c) as [|reason v] eqn:E; simpl.
    + rewrite filter_cons_True by (by apply check_candidate_spec).
      by rewrite <- app_assoc.
    + rewrite filter_cons_False
        by (intros He; apply check_candidate_spec in He; congruence).
      unfold reject. rewrite set_rejected_twice. simpl.
      destruct v; by rewrite <- !app_assoc.
Qed.

(** The second, relaxed pass runs exactly when no candidate is eligible, the
    requirement may be degraded, and some candidate failed on vision. *)
Definition relaxes (cs : list ExecutionTarget) : bool :=
  list_empty (survivors_of false cs) && vision_degradable req require policy n
  && negb (list_empty (omap (vision_block_of false) cs)).

Lemma loop_breaks_relaxes cs d :
  loop_breaks req require policy n false
    (mkFilterState (survivors_of false cs) (omap (vision_block_of false) cs) d)
  = negb (relaxes cs).
Proof.
  unfold loop_breaks, relaxes. simpl. rewrite orb_false_r, !negb_andb, negb_involutive.
  done.
Qed.

Lemma filter_loop_spec cs d :
  d_rejected d = [] ->
  filter_loop req require policy n cs d
  = if relaxes cs
    then (mkFilterState (survivors_of true cs) (omap (vision_block_of false) cs)
            (set_rejected (omap (rejection_of false) cs ++ omap (rejection_of true) cs) d),
          true, length (omap (rejection_of false) cs))
    else (mkFilterState (survivors_of false cs) (omap (vision_block_of false) cs)
            (set_rejected (omap (rejection_of false) cs) d), false, O).
Proof.
  intros Hd. unfold filter_loop. rewrite !filter_pass_spec. simpl. rewrite Hd. simpl.
  rewrite loop_breaks_relaxes. destruct (relaxes cs); simpl; [|done].
  assert (omap (vision_block_of true) cs = []) as ->.
  { apply omap_all_none. intros c _. unfold vision_block_of.
    pose proof (vision_rejection_strict c) as Hv.
    destruct (check_candidate req require policy n true c) as [|r []]; try done.
    by destruct (Hv r). }
  by rewrite app_nil_r.
Qed.

(** A candidate that only fails on vision was recorded as blocked by vision. *)
Lemma vision_blocked_spec cs :
  (exists c, c ∈ cs /\ eligible true c) -> survivors_of false cs = [] ->
  omap (vision_block_of false) cs <> [].
Proof.
  intros (c & Hc & He) Hs Hv.
  assert (Hn : ~ eligible false c).
  { intros He'. assert (Hin : c ∈ survivors_of false cs) by (by apply list_elem_of_filter).
    rewrite Hs in Hin. by apply not_elem_of_nil in Hin. }
  assert (Hb : vision_block_of false c = Some (t_id c)).
  { unfold vision_block_of.
    destruct (check_candidate req require policy n false c) as [|r []] eqn:E; [|done|].
    - by apply check_candidate_spec in E.
    - by apply other_rejection_stays in E. }
  assert (Hin : t_id c ∈ omap (vision_block_of false) cs) by (apply list_elem_of_omap; eauto).
  rewrite Hv in Hin. by apply not_elem_of_nil in Hin.
Qed.

(** The outer loop needs no third pass. *)
Lemma filter_loop_breaks cs d :
  loop_breaks req require policy n (filter_loop req require policy n cs d).1.2
    (filter_loop req require policy n cs d).1.1 = true.
Proof.
  unfold filter_loop. destruct (loop_breaks req require policy n false _) eqn:E; [done|].
  simpl. unfold loop_breaks. by rewrite orb_true_r.
Qed.

(** What the filter hands to the ordering pass. *)
Lemma filtered_survivors route_name cs d :
  d_rejected d = [] ->
  fs_survivors (record_degradation req route_name (filter_loop req require policy n cs d))
  = survivors_of (relaxes cs) cs.
Proof.
  intros Hd. rewrite filter_loop_spec by done. unfold record_degradation.
  destruct (relaxes cs); simpl; [|done]. by destruct (list_empty _).
Qed.

(** The rejections it records: one for every candidate of the strict pass that is
    not eligible; when the relaxed pass ran and admitted nobody, its rejections
    too. *)
Definition final_rejections (cs : list ExecutionTarget) : list RejectedCandidate :=
  if relaxes cs && list_empty (survivors_of true cs)
  then omap (rejection_of false) cs ++ omap (rejection_of true) cs
  else omap (rejection_of false) cs.

Lemma filtered_rejections route_name cs d :
  d_rejected d = [] ->
  d_rejected (fs_decision
    (record_degradation req route_name (filter_loop req require policy n cs d)))
  = final_rejections cs.
Proof.
  intros Hd. rewrite filter_loop_spec by done. unfold record_degradation, final_rejections.
  destruct (relaxes cs); simpl; [|done].
  destruct (list_empty (survivors_of true cs)); simpl; [done|]. by rewrite take_app_length.
Qed.

Lemma filtered_degraded route_name cs d :
  d_rejected d = [] -> d_capability_fallback d = [] ->
  degraded "vision_in" (fs_decision
    (record_degradation req route_name (filter_loop req require policy n cs d)))
  = relaxes cs && negb (list_empty (survivors_of true cs)).
Proof.
  intros Hd Hc. rewrite filter_loop_spec by done. unfold record_degradation.
  destruct (relaxes cs); simpl; [|unfold degraded; simpl; by rewrite Hc].
  destruct (list_empty (survivors_of true cs)); unfold degraded; simpl; by rewrite Hc.
Qed.

End Eligibility.

Lemma vision_degradable_spec req require policy :
  vision_degradable req require policy (needs_of req require) = true
  <-> may_degrade req require policy.
Proof.
  unfold vision_degradable, may_degrade. simpl.
  rewrite !andb_true_iff, negb_true_iff, !orb_true_iff. unfold requires_vision.
  rewrite Z.ltb_lt.
  destruct (rr_vision_in require) as [[]|], (rr_vision_sources require); simpl; naive_solver.
Qed.
