(* ===== verification/RouterOrder.v ===== *)
(** * The router: ordering

    Lemmas on the demotion pass, the strategies' sorts and the qualified
    tie-break: they permute the survivors, they keep the demotion ranks apart,
    and within a rank they respect the strategy's comparator. *)

From Stdlib Require Import ZArith Lia Sorted Permutation.
From stdpp Require Import base list strings sets sorting.
From S2P Require Import Prelude Text BTree Float Ir Config Target Routing Router.

#[local] Open Scope Z_scope.

(** ** Permutations *)

Lemma span_app {A} (p : A -> bool) l : (span p l).1 ++ (span p l).2 = l.
Proof.
  induction l as [|x l IH]; simpl; [done|].
  destruct (p x); [|done]. destruct (span p l) as [a b]; simpl in *. by f_equal.
Qed.

Lemma span_all {A} (p : A -> bool) l x : x ∈ (span p l).1 -> p x = true.
Proof.
  induction l as [|y l IH]; simpl; [by intros ?%not_elem_of_nil|].
  destruct (p y) eqn:E; [|by intros ?%not_elem_of_nil].
  destruct (span p l) as [a b]; simpl in *. intros [->|Hx]%elem_of_cons; auto.
Qed.

Lemma span_length {A} (p : A -> bool) l : (length (span p l).2 <= length l)%nat.
Proof. rewrite <- (span_app p l) at 2. rewrite length_app. lia. Qed.

Lemma tiebreak_run_perm ms run d : (tiebreak_run ms run d).1 ≡ₚ run.
Proof.
  unfold tiebreak_run. destruct (_ && _); [|done].
  pose proof (sort_by_perm health_cmp run) as H.
  destruct (sort_by health_cmp run); [done|]. by case_bool_decide.
Qed.

Lemma tiebreak_loop_perm f ms sg l d : (tiebreak_loop f ms sg l d).1 ≡ₚ l.
Proof.
  revert l d. induction f as [|f IH]; intros [|x rest] d; simpl; try done.
  pose proof (span_app (sg x) rest) as Hs.
  destruct (span (sg x) rest) as [tl rest']; simpl in Hs.
  pose proof (tiebreak_run_perm ms (x :: tl) d) as Hr.
  destruct (tiebreak_run ms (x :: tl) d) as [run d1]; simpl in Hr.
  specialize (IH rest' d1).
  destruct (tiebreak_loop f ms sg rest' d1) as [t d2]; simpl in *.
  by rewrite Hr, IH, <- Hs.
Qed.

Lemma order_partition_perm part policy sr sc d :
  (order_partition part policy sr sc d).1 ≡ₚ part.
Proof.
  unfold order_partition, apply_outcome_tiebreak.
  repeat case_match; simpl; rewrite ?tiebreak_loop_perm; apply sort_by_perm || done.
Qed.

Lemma rank_slices_app l :
  (rank_slices l).1.1 ++ (rank_slices l).1.2 ++ (rank_slices l).2 = l.
Proof. unfold rank_slices; simpl. by rewrite !take_drop. Qed.

Lemma order_survivors_perm policy sr sc l d : (order_survivors policy sr sc l d).1 ≡ₚ l.
Proof.
  unfold order_survivors. pose proof (rank_slices_app l) as Hl.
  destruct (rank_slices l) as [[p0 p1] p2]; simpl in Hl.
  pose proof (order_partition_perm p0 policy sr sc d) as H0.
  destruct (order_partition p0 policy sr sc d) as [o0 d0]; simpl in H0.
  pose proof (order_partition_perm p1 policy sr sc d0) as H1.
  destruct (order_partition p1 policy sr sc d0) as [o1 d1]; simpl in H1.
  pose proof (order_partition_perm p2 policy sr sc d1) as H2.
  destruct (order_partition p2 policy sr sc d1) as [o2 d2]; simpl in *.
  by rewrite H0, H1, H2, Hl.
Qed.

Lemma demote_sort_perm l : demote_sort l ≡ₚ l.
Proof. unfold demote_sort. destruct (_ || _); [apply sort_by_perm|done]. Qed.

(** ** Demotion ranks *)

Definition rank_cmp (a b : ExecutionTarget) : comparison :=
  Z.compare (demote_rank a) (demote_rank b).

#[export] Instance rank_cmp_preorder : TotalPreorder rank_cmp.
Proof. exact (on_preorder demote_rank Z.compare). Qed.

Lemma demote_rank_range t : 0 <= demote_rank t <= 2.
Proof. unfold demote_rank. repeat case_match; lia. Qed.

Lemma rank_zero_iff t :
  demote_rank t = 0
  <-> no_account t = false
      /\ match t_outcome t with Some o => os_tier o <> TierDemoted | None => True end.
Proof.
  unfold demote_rank, no_account. case_bool_decide; [naive_solver|].
  destruct (t_outcome t) as [o|]; [case_bool_decide|]; naive_solver.
Qed.

(** When the demotion sort is skipped every survivor has rank 0. *)
Lemma all_rank_zero l :
  (0 <? Z.of_nat (length (List.filter no_account l)))
    || negb (list_empty (scorecard_demoted l)) = false ->
  Forall (fun t => demote_rank t = 0) l.
Proof.
  intros [H1 H2]%orb_false_elim. apply negb_false_iff in H2. bool_hyps.
  induction l as [|t l IH]; [constructor|].
  simpl in H1. unfold scorecard_demoted in H2. simpl in H2.
  destruct (no_account t) eqn:E; simpl in H1; [lia|].
  assert (Ht : demote_rank t = 0).
  { apply rank_zero_iff. split; [done|]. destruct (t_outcome t) as [o|]; [|done].
    simpl in H2. by case_bool_decide. }
  constructor; [done|]. apply IH; [done|]. apply rank_zero_iff in Ht as [_ Ht].
  destruct (t_outcome t) as [o|]; [|done]. simpl in H2.
  by rewrite bool_decide_eq_false_2 in H2.
Qed.

Lemma demote_sort_sorted l : StronglySorted (cmp_le rank_cmp) (demote_sort l).
Proof.
  unfold demote_sort. destruct (_ || _) eqn:E.
  - apply (sort_by_sorted rank_cmp).
  - apply all_rank_zero in E. induction E as [|t l Ht Hl IH]; constructor; [done|].
    eapply Forall_impl; [exact Hl|]. intros u Hu. simpl in *.
    unfold cmp_le, rank_cmp. by rewrite Ht, Hu.
Qed.

(** On a list sorted by rank, the slices are the rank classes. *)
Definition at_rank (r : Z) (t : ExecutionTarget) : bool := demote_rank t =? r.

Lemma partition_point_sorted r l :
  StronglySorted (cmp_le rank_cmp) l -> Forall (fun t => r <= demote_rank t) l ->
  take (partition_point (at_rank r) l) l = List.filter (at_rank r) l
  /\ drop (partition_point (at_rank r) l) l = List.filter (fun t => r <? demote_rank t) l.
Proof.
  induction 1 as [|t l Hl IH Ht]; intros Hr; [done|].
  inversion Hr as [|?? Hrt Hr']; subst. specialize (IH Hr') as [IH1 IH2].
  simpl. destruct (at_rank r t) eqn:E; unfold at_rank in E; bool_hyps.
  - destruct (Z.ltb_spec r (demote_rank t)); [lia|]. simpl. by rewrite IH1, IH2.
  - destruct (Z.ltb_spec r (demote_rank t)); [|lia]. simpl.
    assert (Hall : Forall (fun u => r < demote_rank u) l).
    { eapply Forall_impl; [exact Ht|]. intros u Hu. unfold cmp_le, rank_cmp in Hu; simpl in Hu.
      destruct (Z.compare_spec (demote_rank t) (demote_rank u)); done || lia. }
    clear -Hall. induction Hall as [|u l Hu Hl IH]; [done|]. simpl.
    assert (at_rank r u = false) as -> by (unfold at_rank; lia).
    destruct (Z.ltb_spec r (demote_rank u)); [|lia].
    destruct IH as [IH1 IH2]. injection IH2 as IH2. split; [done|]. by rewrite <- IH2.
Qed.

Lemma filter_filter_rank r l :
  List.filter (at_rank (r + 1)) (List.filter (fun t => r <? demote_rank t) l)
  = List.filter (at_rank (r + 1)) l.
Proof.
  induction l as [|t l IH]; simpl; [done|].
  destruct (Z.ltb_spec r (demote_rank t)); simpl; [by rewrite IH|].
  assert (at_rank (r + 1) t = false) as -> by (unfold at_rank; lia). done.
Qed.

Lemma StronglySorted_filter {A} (R : A -> A -> Prop) (p : A -> bool) l :
  StronglySorted R l -> StronglySorted R (List.filter p l).
Proof.
  induction 1 as [|x l Hl IH Hx]; simpl; [constructor|].
  destruct (p x); [|done]. constructor; [done|].
  rewrite List.Forall_forall in *. intros y Hy. apply List.filter_In in Hy as [? _]. auto.
Qed.

Lemma rank_slices_sorted l :
  StronglySorted (cmp_le rank_cmp) l ->
  rank_slices l = (List.filter (at_rank 0) l, List.filter (at_rank 1) l,
                   List.filter (at_rank 2) l).
Proof.
  intros Hl. unfold rank_slices. change (fun t => demote_rank t =? 0) with (at_rank 0).
  change (fun t => demote_rank t =? 1) with (at_rank 1).
  destruct (partition_point_sorted 0 l) as [H1 H2]; [done|..].
  { rewrite List.Forall_forall. intros t _. pose proof (demote_rank_range t). lia. }
  rewrite H1, H2. set (l1 := List.filter (fun t => 0 <? demote_rank t) l).
  destruct (partition_point_sorted 1 l1) as [H3 H4].
  { by apply StronglySorted_filter. }
  { rewrite List.Forall_forall. intros t Ht. apply List.filter_In in Ht as [_ Ht]. lia. }
  rewrite H3, H4. unfold l1.
  pose proof (filter_filter_rank 0 l) as Hf. change (0 + 1) with 1 in Hf. rewrite Hf. f_equal.
  clear. induction l as [|t l IH]; simpl; [done|]. pose proof (demote_rank_range t).
  destruct (Z.ltb_spec 0 (demote_rank t)); simpl.
  - destruct (Z.ltb_spec 1 (demote_rank t)); [|].
    + assert (at_rank 2 t = true) as -> by (unfold at_rank; lia). by rewrite IH.
    + assert (at_rank 2 t = false) as -> by (unfold at_rank; lia). done.
  - assert (at_rank 2 t = false) as -> by (unfold at_rank; lia). done.
Qed.

(** The demotion sort keeps the declared order within each rank. *)
Lemma demote_sort_stable r l :
  List.filter (at_rank r) (demote_sort l) = List.filter (at_rank r) l.
Proof.
  unfold demote_sort. destruct (_ || _); [|done].
  change (fun a b => Z.compare (demote_rank a) (demote_rank b)) with rank_cmp.
  destruct (List.filter (at_rank r) l) as [|t lf] eqn:El.
  - destruct (List.filter (at_rank r) (sort_by rank_cmp l)) as [|t lf'] eqn:E; [done|].
    assert (Hin : In t (List.filter (at_rank r) (sort_by rank_cmp l))) by (rewrite E; by left).
    apply List.filter_In in Hin as [Hin Hr]. apply list_elem_of_In, elem_of_sort_by in Hin.
    assert (Hin' : In t (List.filter (at_rank r) l)) by (apply List.filter_In; by rewrite <- list_elem_of_In).
    rewrite El in Hin'. done.
  - assert (Ht : demote_rank t = r).
    { assert (Hin : In t (List.filter (at_rank r) l)) by (rewrite El; by left).
      apply List.filter_In in Hin as [_ Hr]. unfold at_rank in Hr. lia. }
    rewrite <- El. pose proof (sort_by_class rank_cmp t l) as Hc.
    assert (Hext : forall l, List.filter (same_class rank_cmp t) l = List.filter (at_rank r) l).
    { intros l0. apply List.filter_ext. intros u. unfold same_class, rank_cmp, at_rank.
      rewrite Ht. destruct (Z.compare_spec r (demote_rank u)),
        (Z.eqb_spec (demote_rank u) r); done || lia. }
    by rewrite <- !Hext.
Qed.

(** The ordering pass, rank by rank, on the survivors in declared order. *)
Lemma order_survivors_ranks policy sr sc l d :
  exists d0 d1 d2,
  order_survivors policy sr sc (demote_sort l) d
  = ((order_partition (List.filter (at_rank 0) l) policy sr sc d).1
     ++ (order_partition (List.filter (at_rank 1) l) policy sr sc d0).1
     ++ (order_partition (List.filter (at_rank 2) l) policy sr sc d1).1, d2).
Proof.
  unfold order_survivors. rewrite (rank_slices_sorted _ (demote_sort_sorted l)).
  rewrite !demote_sort_stable.
  destruct (order_partition (List.filter (at_rank 0) l) policy sr sc d) as [o0 d0].
  destruct (order_partition (List.filter (at_rank 1) l) policy sr sc d0) as [o1 d1] eqn:E1.
  destruct (order_partition (List.filter (at_rank 2) l) policy sr sc d1) as [o2 d2] eqn:E2.
  exists d0, d1, d2. by rewrite E1, E2.
Qed.

(** ** Strategy order within a rank *)

(** The comparator a strategy sorts by, made total: on keys that are not NaN it
    is the comparator of the source. *)
Definition strategy_cmp (policy : RoutingPolicy) (sr : bool)
    (sc : option (BTreeMap string f64)) : ExecutionTarget -> ExecutionTarget -> comparison :=
  match sc with
  | Some scores => fun a b => total_cmp (score_of scores b) (score_of scores a)
  | None =>
      if bool_decide (pol_profile policy = Some Coding) then coding_cmp
      else if bool_decide (pol_profile policy = Some LargeContext) then context_cmp
      else if pol_cost_aware policy then
        fun a b => none_last total_cmp (blended_cost a) (blended_cost b)
      else if pol_latency_aware policy then
        fun a b => none_first total_cmp (latency_signal sr a) (latency_signal sr b)
      else fun _ _ => Eq
  end.

Definition opt_not_nan (o : option f64) : Prop :=
  match o with Some x => is_nan x = false | None => True end.

(** The strategy's key of the target is a number. *)
Definition comparable (policy : RoutingPolicy) (sr : bool) (sc : option (BTreeMap string f64))
    (t : ExecutionTarget) : Prop :=
  match sc with
  | Some scores => is_nan (score_of scores t) = false
  | None =>
      if bool_decide (pol_profile policy = Some Coding) then True
      else if bool_decide (pol_profile policy = Some LargeContext) then True
      else if pol_cost_aware policy then opt_not_nan (blended_cost t)
      else if pol_latency_aware policy then opt_not_nan (latency_signal sr t)
      else True
  end.

Lemma trivial_preorder {A} : TotalPreorder (fun _ _ : A => Eq).
Proof. by split. Qed.

#[export] Instance strategy_preorder policy sr sc : TotalPreorder (strategy_cmp policy sr sc).
Proof.
  unfold strategy_cmp. destruct sc as [scores|].
  { exact (rev_preorder _ (TotalPreorder0 := on_preorder (score_of scores) total_cmp)). }
  repeat case_match.
  - exact (on_preorder coding_key Z.compare).
  - exact (rev_preorder _ (TotalPreorder0 := on_preorder context_of Z.compare)).
  - exact (on_preorder blended_cost (none_last total_cmp)).
  - exact (on_preorder (latency_signal sr) (none_first total_cmp)).
  - apply trivial_preorder.
Qed.

Lemma none_last_total a b :
  opt_not_nan a -> opt_not_nan b -> none_last cmp_or_eq a b = none_last total_cmp a b.
Proof. destruct a, b; simpl; try done. apply cmp_or_eq_total. Qed.

Lemma none_first_total a b :
  opt_not_nan a -> opt_not_nan b -> none_first cmp_or_eq a b = none_first total_cmp a b.
Proof. destruct a, b; simpl; try done. apply cmp_or_eq_total. Qed.

Section Tiebreak.
Context (cmp : ExecutionTarget -> ExecutionTarget -> comparison) `{!TotalPreorder cmp}.
Context (ms : Z) (sg : ExecutionTarget -> ExecutionTarget -> bool).

Lemma same_class_sorted x l :
  (forall y, y ∈ l -> cmp x y = Eq) -> StronglySorted (cmp_le cmp) l.
Proof.
  induction l as [|y l IH]; intros H; constructor.
  - apply IH. intros z Hz. apply H. by right.
  - rewrite Forall_forall. intros z Hz. unfold cmp_le.
    apply (cmp_trans cmp y x z).
    + rewrite (cmp_antisym cmp x y), (H y) by (by left). done.
    + by rewrite (H z) by (by right).
Qed.

(** Reordering inside runs that the comparator does not distinguish keeps the
    list sorted; the fuel covers the whole list. *)
Lemma tiebreak_loop_sorted f l d :
  (length l <= f)%nat ->
  StronglySorted (cmp_le cmp) l ->
  (forall a b, a ∈ l -> b ∈ l -> sg a b = true -> cmp a b = Eq) ->
  StronglySorted (cmp_le cmp) (tiebreak_loop f ms sg l d).1.
Proof.
  revert l d. induction f as [|f IH]; intros [|x rest] d Hf Hl Hg; simpl in *; try done.
  pose proof (span_app (sg x) rest) as Hs. pose proof (span_length (sg x) rest) as Hn.
  pose proof (span_all (sg x) rest) as Ha.
  destruct (span (sg x) rest) as [tl rest']; simpl in Hs, Hn, Ha.
  pose proof (tiebreak_run_perm ms (x :: tl) d) as Hr.
  destruct (tiebreak_run ms (x :: tl) d) as [run d1]; simpl in Hr.
  pose proof (tiebreak_loop_perm f ms sg rest' d1) as Hp.
  specialize (IH rest' d1). destruct (tiebreak_loop f ms sg rest' d1) as [t d2]; simpl in *.
  subst rest. rewrite app_comm_cons in Hl. apply StronglySorted_app in Hl as (Hx & _ & Hl').
  apply StronglySorted_app_2.
  - intros a b Ha' Hb. rewrite Hr in Ha'. rewrite Hp in Hb. by apply Hx.
  - apply (same_class_sorted x). intros y Hy. rewrite Hr in Hy.
    apply elem_of_cons in Hy as [->|Hy]; [apply (cmp_refl cmp)|].
    apply Hg; [by left|right; apply elem_of_app; by left|by apply Ha].
  - apply IH; [lia|done|]. intros a b Hin Hin'. apply Hg; right; apply elem_of_app; by right.
Qed.

End Tiebreak.

Lemma order_partition_sorted part policy sr sc d :
  Forall (comparable policy sr sc) part ->
  StronglySorted (cmp_le (strategy_cmp policy sr sc)) (order_partition part policy sr sc d).1.
Proof.
  intros Hc. rewrite Forall_forall in Hc.
  assert (Hsort : forall cmp0, (forall a b, comparable policy sr sc a -> comparable policy sr sc b ->
      cmp0 a b = strategy_cmp policy sr sc a b) ->
    sort_by cmp0 part = sort_by (strategy_cmp policy sr sc) part).
  { intros cmp0 H. apply sort_by_ext. intros x y Hx Hy. apply H; auto. }
  assert (Htb : forall cmp0 sg, (forall a b, comparable policy sr sc a -> comparable policy sr sc b ->
      cmp0 a b = strategy_cmp policy sr sc a b) ->
    (forall a b, comparable policy sr sc a -> comparable policy sr sc b -> sg a b = true ->
      strategy_cmp policy sr sc a b = Eq) ->
    StronglySorted (cmp_le (strategy_cmp policy sr sc))
      (apply_outcome_tiebreak (sort_by cmp0 part)
         (min_samples (sc_demotion (pol_scorecard policy))) sg d).1).
  { intros cmp0 sg H Hg. rewrite (Hsort cmp0 H). apply tiebreak_loop_sorted; [apply _|done|..].
    - apply sort_by_sorted, _.
    - intros a b Ha Hb. rewrite elem_of_sort_by in Ha, Hb. apply Hg; auto. }
  unfold order_partition. cbv zeta. destruct sc as [scores|].
  { cbn [fst]. rewrite Hsort; [apply sort_by_sorted, _|].
    intros a b Ha Hb. simpl in *. by apply cmp_or_eq_total. }
  unfold strategy_cmp, comparable in *.
  repeat case_match; try (apply Htb; [done|]).
  - intros a b _ _ Hg%eqb_prop. unfold coding_cmp, coding_key. rewrite Hg. apply Z.compare_refl.
  - intros a b _ _ Hg. bool_hyps. unfold context_cmp. rewrite Hg. apply Z.compare_refl.
  - apply Htb; [intros; by apply none_last_total|].
    intros a b Ha Hb. rewrite <- none_last_total by done. fold (cost_cmp a b).
    by destruct (cost_cmp a b).
  - apply Htb; [intros; by apply none_first_total|].
    intros a b Ha Hb. rewrite <- none_first_total by done. fold (latency_cmp sr a b).
    by destruct (latency_cmp sr a b).
  - apply tiebreak_loop_sorted; [apply trivial_preorder|done| |done].
    clear. induction part; constructor; [done|]. by rewrite Forall_forall.
Qed.
