(* ===== verification/RouterTheorems.v ===== *)
(** * The router: what [plan_route] guarantees

    The theorems on whole plans, from the filter lemmas and the ordering lemmas:
    who is in the plan, in what order, and what the decision says about it. *)

From Stdlib Require Import ZArith Lia Sorted Permutation.
From stdpp Require Import base list strings sets sorting.
From S2P Require Import Prelude Text BTree Float Ir Config Target Routing Router RouterSpec RouterOrder.

#[local] Open Scope Z_scope.

(** ** The ordering passes only add reasons *)

(** A decision without its reasons. *)
Definition core (d : RouteDecision) : RouteDecision := set_reason [] d.

Lemma core_add_reason r d : core (add_reason r d) = core d.
Proof. done. Qed.

Lemma tiebreak_run_core ms run d : core (tiebreak_run ms run d).2 = core d.
Proof. unfold tiebreak_run. by repeat case_match. Qed.

Lemma tiebreak_loop_core f ms sg l d : core (tiebreak_loop f ms sg l d).2 = core d.
Proof.
  revert l d. induction f as [|f IH]; intros [|x rest] d; simpl; try done.
  destruct (span (sg x) rest) as [tl rest'].
  pose proof (tiebreak_run_core ms (x :: tl) d) as Hr.
  destruct (tiebreak_run ms (x :: tl) d) as [run d1]. specialize (IH rest' d1).
  destruct (tiebreak_loop f ms sg rest' d1) as [t d2]; simpl in *. congruence.
Qed.

Lemma order_partition_core part policy sr sc d :
  core (order_partition part policy sr sc d).2 = core d.
Proof.
  unfold order_partition, apply_outcome_tiebreak.
  repeat case_match; try done; apply tiebreak_loop_core.
Qed.

Lemma order_survivors_core policy sr sc l d :
  core (order_survivors policy sr sc l d).2 = core d.
Proof.
  unfold order_survivors. destruct (rank_slices l) as [[p0 p1] p2].
  pose proof (order_partition_core p0 policy sr sc d) as H0.
  destruct (order_partition p0 policy sr sc d) as [o0 d0].
  pose proof (order_partition_core p1 policy sr sc d0) as H1.
  destruct (order_partition p1 policy sr sc d0) as [o1 d1].
  pose proof (order_partition_core p2 policy sr sc d1) as H2.
  destruct (order_partition p2 policy sr sc d1) as [o2 d2]; simpl in *. congruence.
Qed.

(** The decision [plan_route] opens with has nothing but reasons. *)
Lemma opening_core req route_name policy n :
  core (opening_decision req route_name policy n)
  = core (set_profile (profile_id <$> pol_profile policy)
            (RouteDecision_new (req_id req) (strategy_name policy))).
Proof. unfold opening_decision. by repeat case_match. Qed.

Lemma fold_add_reason_core {A} (f : A -> string) (l : list A) d :
  core (fold_left (fun d x => add_reason (f x) d) l d) = core d.
Proof. revert d. induction l as [|x l IH]; intros d; simpl; [done|]. by rewrite IH. Qed.

(** What the closing pass writes. *)
Lemma close_decision_core policy sr qc sc demoted na survivors d :
  core (close_decision policy sr qc sc demoted na survivors d)
  = core (mkRouteDecision (d_request_id d) (d_strategy d) (d_profile d)
      match survivors with [] => d_selected d | t :: _ => Some (TargetRef_new (t_id t)) end
      (d_fallbacks d ++ ((fun t => TargetRef_new (t_id t)) <$> tail survivors))
      [] (d_rejected d) (route_scores survivors policy sr qc) (d_capability_fallback d)
      match survivors with [] => d_unverified d | t :: _ => t_unverified t || d_unverified d end).
Proof.
  unfold close_decision. set (d1 := if 0 <? na then _ else d).
  set (d2 := fold_left _ demoted d1).
  assert (Hd2 : core d2 = core d).
  { unfold d2. rewrite (fold_add_reason_core (fun io => format_outcome_demote io.1 io.2)).
    unfold d1. by destruct (0 <? na). }
  clearbody d2. clear d1. destruct d2, d. unfold core, set_reason in Hd2. simpl in Hd2.
  injection Hd2; intros; subst. clear. destruct survivors as [|t ts].
  - unfold core, set_reason. simpl. by rewrite app_nil_r.
  - cbn [head]. generalize (route_scores (t :: ts) policy sr qc). intros scores.
    destruct (strategy_summary_reason policy (Some t) sr sc), (t_outcome t),
      (format_quality_reason t policy qc), (t_unverified t); reflexivity.
Qed.

(** ** Plans, taken apart *)

Section Plans.
Context (req : AiRequest) (route_name : string) (require : RouteRequire)
  (policy : RoutingPolicy) (cs : list ExecutionTarget).

Let n := needs_of req require.
Let plan := plan_route req route_name require cs policy.
Let elig := eligible req require policy n.

(** The survivors of the hard filter, in candidate order. *)
Definition filtered : list ExecutionTarget :=
  survivors_of req require policy (needs_of req require)
    (relaxes req require policy (needs_of req require) cs) cs.

Let filter_result := record_degradation req route_name
  (filter_loop req require policy n cs (opening_decision req route_name policy n)).

Lemma opening_fields :
  d_rejected (opening_decision req route_name policy n) = []
  /\ d_capability_fallback (opening_decision req route_name policy n) = []
  /\ d_fallbacks (opening_decision req route_name policy n) = []
  /\ d_unverified (opening_decision req route_name policy n) = false
  /\ d_selected (opening_decision req route_name policy n) = None
  /\ d_request_id (opening_decision req route_name policy n) = req_id req
  /\ d_profile (opening_decision req route_name policy n) = profile_id <$> pol_profile policy
  /\ d_strategy (opening_decision req route_name policy n) = strategy_name policy.
Proof.
  pose proof (opening_core req route_name policy n) as H.
  unfold core, set_reason in H. simpl in H. by injection H.
Qed.

Lemma filter_result_survivors : fs_survivors filter_result = filtered.
Proof. apply filtered_survivors, opening_fields. Qed.

Lemma plan_candidates_order :
  plan_candidates plan
  = (order_survivors policy (streaming_required n)
       (score_map filtered policy (streaming_required n)) (demote_sort filtered)
       (fs_decision filter_result)).1.
Proof.
  unfold plan, plan_route. fold n filter_result. rewrite filter_result_survivors.
  by destruct (order_survivors _ _ _ _ _).
Qed.

Lemma plan_candidates_perm : plan_candidates plan ≡ₚ filtered.
Proof. rewrite plan_candidates_order, order_survivors_perm. apply demote_sort_perm. Qed.

(** The recorded degradation changes the rejections, the fallbacks and the
    reasons only. *)
Lemma filter_result_core :
  core (fs_decision filter_result)
  = core (set_rejected (final_rejections req require policy n cs)
      (mkRouteDecision (req_id req) (strategy_name policy) (profile_id <$> pol_profile policy)
         None [] [] [] [] (d_capability_fallback (fs_decision filter_result)) false)).
Proof.
  pose proof (opening_core req route_name policy n) as Ho.
  destruct opening_fields as (Hr & _).
  unfold filter_result, final_rejections. rewrite filter_loop_spec by done.
  unfold record_degradation. destruct (opening_decision req route_name policy n).
  unfold core, set_reason in *. simpl in Ho. injection Ho; intros; subst.
  destruct (relaxes req require policy n cs); simpl; [|done].
  destruct (list_empty _); simpl; [done|]. by rewrite take_app_length.
Qed.

Lemma plan_decision_core :
  core (plan_decision plan)
  = core (mkRouteDecision (req_id req) (strategy_name policy)
      (profile_id <$> pol_profile policy)
      ((fun t => TargetRef_new (t_id t)) <$> head (plan_candidates plan))
      ((fun t => TargetRef_new (t_id t)) <$> tail (plan_candidates plan))
      [] (final_rejections req require policy n cs)
      (route_scores (plan_candidates plan) policy (streaming_required n)
         (QualityContext_new filtered policy))
      (d_capability_fallback (fs_decision filter_result))
      match plan_candidates plan with t :: _ => t_unverified t | [] => false end).
Proof.
  rewrite plan_candidates_order.
  unfold plan, plan_route. fold n filter_result. rewrite filter_result_survivors.
  pose proof (order_survivors_core policy (streaming_required n)
    (score_map filtered policy (streaming_required n)) (demote_sort filtered)
    (fs_decision filter_result)) as Hc.
  rewrite filter_result_core in Hc.
  destruct (order_survivors _ _ _ _ _) as [ordered d]. cbn [plan_decision fst].
  rewrite close_decision_core. destruct d. unfold core, set_reason in *. simpl in *.
  injection Hc; intros; subst. destruct ordered; simpl; [done|]. by rewrite orb_false_r.
Qed.

(** ** The relaxation, declaratively *)

Lemma survivors_empty relax :
  list_empty (survivors_of req require policy n relax cs) = true
  <-> ~ Exists (elig relax) cs.
Proof.
  rewrite Exists_exists. unfold survivors_of. split.
  - intros H (c & Hc & He).
    assert (Hin : c ∈ filter (elig relax) cs) by (by apply list_elem_of_filter).
    unfold elig in Hin. destruct (filter _ cs); [by apply not_elem_of_nil in Hin|done].
  - intros H. destruct (filter _ cs) as [|c l] eqn:E; [done|]. exfalso. apply H.
    exists c. assert (Hin : c ∈ c :: l) by (by left). rewrite <- E in Hin.
    apply list_elem_of_filter in Hin as [? ?]. done.
Qed.

(** A run of the relaxed pass that admits somebody. *)
Definition degrades : Prop :=
  ~ Exists (eligible req require policy (needs_of req require) false) cs
  /\ may_degrade req require policy
  /\ Exists (eligible req require policy (needs_of req require) true) cs.

Lemma relaxes_admits :
  relaxes req require policy n cs && negb (list_empty (survivors_of req require policy n true cs))
  = true <-> degrades.
Proof.
  unfold degrades, relaxes. rewrite <- vision_degradable_spec. fold n.
  rewrite !andb_true_iff, !negb_true_iff.
  rewrite survivors_empty. split.
  - intros [[[H1 H2] H3] H4]. split_and!; [done|done|].
    apply not_true_iff_false in H4. rewrite survivors_empty in H4.
    by apply dec_stable in H4.
  - intros (H1 & H2 & H3). split_and!; [done|done| |].
    + pose proof H3 as (c & Hc & He)%Exists_exists.
      destruct (omap (vision_block_of req require policy n false) cs) eqn:E; [|done].
      exfalso. apply (vision_blocked_spec req require policy n cs); [by eauto| |done].
      apply survivors_empty in H1. by destruct (survivors_of _ _ _ _ _ _).
    + apply not_true_iff_false. rewrite survivors_empty. naive_solver.
Qed.

Lemma filtered_cases :
  filtered
  = if bool_decide (Exists (elig false) cs) then filter (elig false) cs
    else if bool_decide (may_degrade req require policy) then filter (elig true) cs else [].
Proof.
  assert (bool_decide (may_degrade req require policy) = vision_degradable req require policy n)
    as -> by (apply Bool.eq_iff_eq_true; rewrite bool_decide_eq_true; symmetry;
             apply vision_degradable_spec).
  unfold filtered. fold n. case_bool_decide as He.
  - assert (relaxes req require policy n cs = false) as ->; [|done].
    unfold relaxes. apply andb_false_intro1, andb_false_intro1, not_true_iff_false.
    rewrite survivors_empty. naive_solver.
  - pose proof relaxes_admits as Hr. unfold degrades in Hr.
    rewrite <- vision_degradable_spec in Hr. fold n in Hr.
    apply survivors_empty in He as He'.
    destruct (relaxes req require policy n cs) eqn:E.
    + unfold relaxes in E. bool_hyps. by destruct (vision_degradable _ _ _ _).
    + destruct (survivors_of req require policy n false cs) eqn:Es; [|done].
      destruct (vision_degradable req require policy n) eqn:Ed; [|done].
      simpl in Hr. destruct (filter (elig true) cs) as [|c l] eqn:Ef; [done|]. exfalso.
      assert (false = true); [|done]. apply Hr. split_and!; [done|done|].
      apply Exists_exists. exists c. assert (Hin : c ∈ c :: l) by (by left).
      rewrite <- Ef in Hin. apply list_elem_of_filter in Hin as [? ?]. done.
Qed.

End Plans.

(** ** The theorems *)

(** C5 (refinement). The plan holds exactly the eligible candidates: the strictly
    eligible ones when there are any, otherwise, and only if the vision
    requirement may be degraded, those that are eligible without it; each as often
    as the route declares it. *)
Theorem plan_route_eligible req route_name require (cs : list ExecutionTarget) policy :
  let n := needs_of req require in
  plan_candidates (plan_route req route_name require cs policy)
  ≡ₚ if bool_decide (Exists (eligible req require policy n false) cs)
     then filter (eligible req require policy n false) cs
     else if bool_decide (may_degrade req require policy)
     then filter (eligible req require policy n true) cs
     else [].
Proof. cbv zeta. rewrite plan_candidates_perm. by rewrite filtered_cases. Qed.

(** C6 (safety). The decision reports a degraded vision requirement, the signal on
    which the engine strips the images, exactly when no candidate meets the
    strict requirements, the requirement comes from the request alone and the
    policy lets it go, and some candidate is eligible without it. *)
Theorem plan_route_degrades req route_name require (cs : list ExecutionTarget) policy :
  degraded "vision_in" (plan_decision (plan_route req route_name require cs policy)) = true
  <-> degrades req require policy cs.
Proof.
  pose proof (plan_decision_core req route_name require policy cs) as Hc.
  destruct (opening_fields req route_name require policy) as (Hr & Hf & _).
  rewrite <- (relaxes_admits req require policy cs).
  rewrite <- (filtered_degraded req require policy (needs_of req require) route_name cs _ Hr Hf).
  unfold degraded. unfold core, set_reason in Hc. simpl in Hc. injection Hc; intros.
  by replace (d_capability_fallback (plan_decision _)) with (d_capability_fallback
    (fs_decision (record_degradation req route_name (filter_loop req require policy
      (needs_of req require) cs
      (opening_decision req route_name policy (needs_of req require)))))).
Qed.

(** The decision describes the plan: the head is selected, the
    tail are the fallbacks in order, there is one score per candidate in order,
    and the unverified flag is the selected target's. *)
Theorem plan_route_selection req route_name require (cs : list ExecutionTarget) policy :
  let p := plan_route req route_name require cs policy in
  tr_target_id <$> d_selected (plan_decision p) = t_id <$> head (plan_candidates p)
  /\ tr_target_id <$> d_fallbacks (plan_decision p) = t_id <$> tail (plan_candidates p)
  /\ score_target_id <$> d_scores (plan_decision p) = t_id <$> plan_candidates p
  /\ d_unverified (plan_decision p)
     = match plan_candidates p with t :: _ => t_unverified t | [] => false end.
Proof.
  cbv zeta. pose proof (plan_decision_core req route_name require policy cs) as Hc.
  unfold core, set_reason in Hc. simpl in Hc. injection Hc; intros Hu _ Hs _ Hf Hsel _ _ _.
  rewrite Hu, Hs, Hf, Hsel. split_and!.
  - by destruct (plan_candidates _).
  - by rewrite <- list_fmap_compose.
  - unfold route_scores. rewrite fmap_imap. symmetry. apply list_eq. intros i.
    by rewrite list_lookup_imap, list_lookup_fmap; destruct (_ !! i).
  - done.
Qed.

Lemma filter_all {A} (P : A -> Prop) `{!forall x, Decision (P x)} (l : list A) :
  Forall P l -> filter P l = l.
Proof.
  induction 1 as [|x l Hx Hl IH]; [done|]. rewrite filter_cons_True by done. by f_equal.
Qed.

Lemma rejection_ids req require policy n relax (cs : list ExecutionTarget) :
  rej_target_id <$> omap (rejection_of req require policy n relax) cs
  = t_id <$> filter (fun c => ~ eligible req require policy n relax c) cs.
Proof.
  induction cs as [|c cs IH]; [done|]. simpl. unfold rejection_of at 1.
  destruct (check_candidate req require policy n relax c) as [|r v] eqn:E.
  - rewrite filter_cons_False; [exact IH|]. intros H. by apply H, check_candidate_spec.
  - rewrite filter_cons_True; [simpl; f_equal; exact IH|].
    intros H%check_candidate_spec. congruence.
Qed.

(** Of a plan that serves somebody, the rejections are one per
    candidate that fails the strict requirements, in declared order, whether or
    not vision was degraded. *)
Theorem plan_route_rejections req route_name require (cs : list ExecutionTarget) policy :
  let p := plan_route req route_name require cs policy in
  plan_candidates p <> [] ->
  rej_target_id <$> d_rejected (plan_decision p)
  = t_id <$> filter (fun c => ~ eligible req require policy (needs_of req require) false c) cs.
Proof.
  cbv zeta. intros Hne. pose proof (plan_decision_core req route_name require policy cs) as Hc.
  unfold core, set_reason in Hc. simpl in Hc. injection Hc; intros _ _ _ Hr _ _ _ _ _.
  rewrite Hr, <- rejection_ids. unfold final_rejections.
  destruct (relaxes req require policy (needs_of req require) cs) eqn:E; [|done].
  destruct (survivors_of req require policy (needs_of req require) true cs) eqn:Es; [|done].
  destruct Hne. apply Permutation_nil_r. rewrite plan_candidates_perm. unfold filtered.
  by rewrite E, Es.
Qed.

(** When the relaxed pass runs and admits nobody, its rejections are
    not trimmed: the decision names every candidate twice. *)
Theorem plan_route_rejections_twice req route_name require (cs : list ExecutionTarget) policy :
  let p := plan_route req route_name require cs policy in
  relaxes req require policy (needs_of req require) cs = true ->
  plan_candidates p = [] ->
  rej_target_id <$> d_rejected (plan_decision p) = ids cs ++ ids cs.
Proof.
  cbv zeta. intros Hrel Hnil.
  pose proof (plan_decision_core req route_name require policy cs) as Hc.
  pose proof (plan_candidates_perm req route_name require policy cs) as Hp.
  unfold core, set_reason in Hc. simpl in Hc. injection Hc; intros _ _ _ Hr _ _ _ _ _.
  rewrite Hnil in Hp. apply Permutation_nil_l in Hp. unfold filtered in Hp.
  rewrite Hrel in Hp. rewrite Hr. unfold final_rejections. rewrite Hrel, <- Hp. simpl.
  rewrite fmap_app, !rejection_ids.
  assert (Hall : forall relax, survivors_of req require policy (needs_of req require) relax cs = [] ->
    filter (fun c => ~ eligible req require policy (needs_of req require) relax c) cs = cs).
  { intros relax H. apply filter_all, Forall_forall. intros c Hc' He.
    assert (Hin : c ∈ survivors_of req require policy (needs_of req require) relax cs)
      by (by apply list_elem_of_filter). rewrite H in Hin. by apply not_elem_of_nil in Hin. }
  rewrite !Hall; [done|done|]. unfold relaxes in Hrel. bool_hyps.
  by destruct (survivors_of _ _ _ _ false cs).
Qed.

(** ** Order *)

Lemma filtered_rank_order req route_name require policy (cs : list ExecutionTarget) :
  exists d0 d1 d2,
  plan_candidates (plan_route req route_name require cs policy)
  = let l := filtered req require policy cs in
    let sr := streaming_required (needs_of req require) in
    let sc := score_map l policy sr in
    (order_partition (List.filter (at_rank 0) l) policy sr sc d0).1
    ++ (order_partition (List.filter (at_rank 1) l) policy sr sc d1).1
    ++ (order_partition (List.filter (at_rank 2) l) policy sr sc d2).1.
Proof.
  rewrite plan_candidates_order.
  edestruct (order_survivors_ranks policy (streaming_required (needs_of req require)))
    as (d0 & d1 & d2 & H).
  eexists _, d0, d1. rewrite H. done.
Qed.

Lemma order_partition_rank r l policy sr sc d t :
  t ∈ (order_partition (List.filter (at_rank r) l) policy sr sc d).1 -> demote_rank t = r.
Proof.
  rewrite order_partition_perm, list_elem_of_In. intros [_ H]%List.filter_In.
  unfold at_rank in H. lia.
Qed.

Lemma order_partition_at_rank r r' l policy sr sc d :
  List.filter (at_rank r) (order_partition (List.filter (at_rank r') l) policy sr sc d).1
  = if r' =? r then (order_partition (List.filter (at_rank r') l) policy sr sc d).1 else [].
Proof.
  pose proof (fun t => order_partition_rank r' l policy sr sc d t) as H.
  induction (order_partition _ policy sr sc d).1 as [|t ts IH]; [by destruct (_ =? _)|].
  simpl. rewrite IH by (intros u Hu; apply H; by right). unfold at_rank.
  rewrite (H t) by (by left). by destruct (r' =? r).
Qed.

(** The plan, restricted to one demotion rank. *)
Lemma plan_at_rank req route_name require policy (cs : list ExecutionTarget) r :
  exists d,
  List.filter (at_rank r) (plan_candidates (plan_route req route_name require cs policy))
  = let l := filtered req require policy cs in
    let sr := streaming_required (needs_of req require) in
    (order_partition (List.filter (at_rank r) l) policy sr (score_map l policy sr) d).1.
Proof.
  destruct (filtered_rank_order req route_name require policy cs) as (d0 & d1 & d2 & H).
  rewrite H. cbv zeta. rewrite !List.filter_app, !order_partition_at_rank.
  destruct (Z.eqb_spec 0 r) as [<-|]; [exists d0; simpl; by rewrite app_nil_r|].
  destruct (Z.eqb_spec 1 r) as [<-|]; [exists d1; simpl; by rewrite app_nil_r|].
  destruct (Z.eqb_spec 2 r) as [<-|]; [by exists d2|].
  exists d0. assert (List.filter (at_rank r) (filtered req require policy cs) = []) as ->.
  { clear H. induction (filtered req require policy cs) as [|t ts IH]; [done|]. simpl.
    pose proof (demote_rank_range t).
    assert (at_rank r t = false) as -> by (unfold at_rank; lia). exact IH. }
  simpl. symmetry. apply Permutation_nil_r, order_partition_perm.
Qed.

(** The lexicographic order on the demotion rank and the strategy's key. *)
Definition plan_cmp (policy : RoutingPolicy) (sr : bool) (sc : option (BTreeMap string f64))
    (a b : ExecutionTarget) : comparison :=
  match rank_cmp a b with Eq => strategy_cmp policy sr sc a b | c => c end.

Lemma ranks_sorted policy sr sc (l : list ExecutionTarget) :
  (forall r, StronglySorted (cmp_le (strategy_cmp policy sr sc)) (List.filter (at_rank r) l)) ->
  StronglySorted (cmp_le rank_cmp) l ->
  StronglySorted (cmp_le (plan_cmp policy sr sc)) l.
Proof.
  intros Hs Hl. induction Hl as [|t l Hl IH Ht]; constructor.
  - apply IH. intros r. specialize (Hs r). simpl in Hs. destruct (at_rank r t); [|done].
    by inversion Hs.
  - rewrite Forall_forall in *. intros u Hu. specialize (Ht u Hu).
    specialize (Hs (demote_rank t)). simpl in Hs. unfold at_rank at 1 in Hs.
    rewrite Z.eqb_refl in Hs. inversion Hs as [|?? _ Ht']; subst. rewrite Forall_forall in Ht'.
    unfold cmp_le, plan_cmp in *. destruct (rank_cmp t u) eqn:E; [|done|done].
    apply Ht', list_elem_of_In, List.filter_In. split; [by apply list_elem_of_In|].
    unfold rank_cmp in E. apply Z.compare_eq in E. unfold at_rank. lia.
Qed.

Lemma plan_rank_sorted req route_name require (cs : list ExecutionTarget) policy :
  StronglySorted (fun a b => demote_rank a <= demote_rank b)
    (plan_candidates (plan_route req route_name require cs policy)).
Proof.
  destruct (filtered_rank_order req route_name require policy cs) as (d0 & d1 & d2 & ->).
  cbv zeta.
  assert (Hconst : forall r (l : list ExecutionTarget),
    (forall t, t ∈ l -> demote_rank t = r) ->
    StronglySorted (fun a b => demote_rank a <= demote_rank b) l).
  { intros r l. induction l as [|t l IH]; intros H; constructor.
    - apply IH. intros u Hu. apply H. by right.
    - apply Forall_forall. intros u Hu. rewrite (H t), (H u); [lia|by right|by left]. }
  repeat apply StronglySorted_app_2; try (eapply Hconst; apply order_partition_rank).
  - intros a b Ha%order_partition_rank _. pose proof (demote_rank_range b). lia.
  - intros a b Ha%order_partition_rank Hb%order_partition_rank. lia.
Qed.

(** C7 (safety). Demotion is respected whatever the strategy: a target whose
    accounts are all exhausted never precedes one that has an account, and a
    demoted target never precedes one that has an account and is not demoted.
    (Targets without an account come last, demoted or not.) *)
Theorem plan_route_demotion req route_name require (cs : list ExecutionTarget) policy
    before a between b after :
  plan_candidates (plan_route req route_name require cs policy)
  = before ++ a :: between ++ b :: after ->
  (no_account a = true -> no_account b = true)
  /\ (no_account b = false -> option_map os_tier (t_outcome a) = Some TierDemoted ->
      option_map os_tier (t_outcome b) = Some TierDemoted).
Proof.
  intros H. pose proof (plan_rank_sorted req route_name require cs policy) as Hs.
  rewrite H in Hs. apply StronglySorted_app in Hs as (_ & _ & Hs).
  inversion Hs as [|?? _ Ha]; subst. rewrite Forall_forall in Ha.
  specialize (Ha b). rewrite elem_of_app, elem_of_cons in Ha. specialize (Ha (or_intror (or_introl eq_refl))).
  simpl in Ha. unfold demote_rank, no_account in *.
  destruct (t_outcome a) as [oa|], (t_outcome b) as [ob|]; simpl;
    repeat case_bool_decide; split; intros; congruence || lia.
Qed.

(** C8 (functional). The plan is sorted by demotion rank first and by the
    strategy's key second: descending score, coding fit, descending context
    window, ascending price with unpriced targets last, ascending latency with
    unmeasured targets first, or no key; for keys that are numbers. *)
Theorem plan_route_sorted req route_name require (cs : list ExecutionTarget) policy :
  let sr := streaming_required (needs_of req require) in
  let sc := score_map (filtered req require policy cs) policy sr in
  Forall (comparable policy sr sc) cs ->
  StronglySorted (cmp_le (plan_cmp policy sr sc))
    (plan_candidates (plan_route req route_name require cs policy)).
Proof.
  cbv zeta. intros Hc. apply ranks_sorted.
  - intros r. destruct (plan_at_rank req route_name require policy cs r) as [d ->]. cbv zeta.
    apply order_partition_sorted. rewrite Forall_forall in *. intros t Ht. apply Hc.
    rewrite list_elem_of_In, List.filter_In, <- list_elem_of_In in Ht. destruct Ht as [Ht _].
    unfold filtered, survivors_of in Ht. by apply list_elem_of_filter in Ht as [_ ?].
  - pose proof (plan_rank_sorted req route_name require cs policy) as H.
    induction H as [|a l _ IH Ha]; constructor; [done|]. eapply Forall_impl; [exact Ha|].
    intros b Hb. unfold cmp_le, rank_cmp. by apply Z.compare_le_iff.
Qed.

(** The plan restricted to a rank, for a policy that neither scores nor sorts. *)
Definition plain_strategy (policy : RoutingPolicy) : bool :=
  negb (opt_is_some (pol_scoring policy))
  && negb (bool_decide (pol_profile policy = Some Coding))
  && negb (bool_decide (pol_profile policy = Some LargeContext))
  && negb (pol_cost_aware policy) && negb (pol_latency_aware policy).

Lemma span_true {A} (l : list A) : span (fun _ => true) l = (l, []).
Proof. induction l as [|x l IH]; simpl; [done|]. by rewrite IH. Qed.

Lemma tiebreak_run_cases ms run d :
  (tiebreak_run ms run d).1
  = if forallb (outcome_qualified ms) run then sort_by health_cmp run else run.
Proof.
  unfold tiebreak_run. destruct (forallb (outcome_qualified ms) run); [|by rewrite andb_false_r].
  rewrite andb_true_r. destruct (Z.ltb_spec 1 (Z.of_nat (length run))) as [Hlt|Hle].
  - destruct (sort_by health_cmp run); [done|]. by case_bool_decide.
  - destruct run as [|x [|y l]]; simpl in *; [done|done|lia].
Qed.

Lemma tiebreak_all ms l d :
  (apply_outcome_tiebreak l ms (fun _ _ => true) d).1
  = if forallb (outcome_qualified ms) l then sort_by health_cmp l else l.
Proof.
  unfold apply_outcome_tiebreak. destruct l as [|x l]; [done|].
  rewrite <- (tiebreak_run_cases ms (x :: l) d). cbn [length tiebreak_loop].
  rewrite span_true. destruct (tiebreak_run ms (x :: l) d) as [run d1].
  assert (tiebreak_loop (length l) ms (fun _ _ => true) [] d1 = ([], d1)) as ->
    by (by destruct (length l)).
  simpl. by rewrite app_nil_r.
Qed.

(** Without a scoring, coding, large-context, price or latency
    policy each demotion rank keeps the declared order, except that a rank whose
    members all have enough outcome evidence is ordered by measured health: one
    target without evidence pins the whole rank. *)
Theorem plan_route_declared_order req route_name require (cs : list ExecutionTarget) policy r :
  let part := List.filter (at_rank r) (filtered req require policy cs) in
  plain_strategy policy = true ->
  List.filter (at_rank r) (plan_candidates (plan_route req route_name require cs policy))
  = if forallb (outcome_qualified (min_samples (sc_demotion (pol_scorecard policy)))) part
    then sort_by health_cmp part else part.
Proof.
  cbv zeta. intros Hp. unfold plain_strategy in Hp.
  destruct (plan_at_rank req route_name require policy cs r) as [d ->]. cbv zeta.
  unfold score_map. destruct (pol_scoring policy); [done|]. unfold order_partition. simpl in Hp.
  destruct (bool_decide (pol_profile policy = Some Coding)),
    (bool_decide (pol_profile policy = Some LargeContext)),
    (pol_cost_aware policy), (pol_latency_aware policy); try done. apply tiebreak_all.
Qed.

(** ** Scores *)

(** A score is a number between 0 and 1, or a NaN. *)
Definition unit_or_nan (x : f64) : Prop :=
  is_nan x = true \/ f_le f64_zero x = true /\ f_le x f64_one = true.

Lemma weighted_score_unit factors scoring wo wq :
  unit_or_nan (weighted_score factors scoring wo wq).
Proof.
  unfold weighted_score. destruct (fold_left _ _ _) as [weighted total].
  destruct (f_le total f64_epsilon); [by right|].
  destruct (is_nan (f64_div weighted total)) eqn:E.
  - left. by rewrite f_clamp_nan.
  - right. destruct (f_clamp_bounds _ f64_zero f64_one E) as (? & ? & ?); done.
Qed.

(** Under a scoring policy every recorded score is between 0 and 1,
    or NaN when an input is. *)
Theorem plan_route_scores_unit req route_name require (cs : list ExecutionTarget) policy :
  opt_is_some (pol_scoring policy) = true ->
  Forall (fun s => unit_or_nan (score_score s))
    (d_scores (plan_decision (plan_route req route_name require cs policy))).
Proof.
  intros Hs. pose proof (plan_decision_core req route_name require policy cs) as Hc.
  unfold core, set_reason in Hc. simpl in Hc. injection Hc; intros _ _ -> _ _ _ _ _ _.
  unfold route_scores. destruct (pol_scoring policy) as [sp|]; [|done].
  apply Forall_forall. intros s (i & t & -> & _)%elem_of_lookup_imap.
  apply weighted_score_unit.
Qed.

(** ** Concrete plans *)

Module Samples.

Definition signal (n : Z) (tier : OutcomeTier) (health : f32) : OutcomeSignal :=
  mkOutcomeSignal n (f32_of_Z 1) 100 200 0 f64_zero None tier health None 0.

Definition target (id : string) (vision : bool) (cost : option CostProfile)
    (accounts : option Z) (o : option OutcomeSignal) : ExecutionTarget :=
  mkExecutionTarget id ModelApi "p" id
    (mkCapabilityProfile true true vision [] true false false false [] false false false
       false false None None)
    cost None None [] [] Healthy accounts false o None.

Definition image_request : AiRequest :=
  AiRequest_new "r1" "auto" [mkMessage RoleUser [Image (RemoteUrl "https://x/y.png") None] None].

Definition text_request : AiRequest :=
  AiRequest_new "r2" "auto" [message_user "hello"].

Definition cheap := target "cheap" false (Some (mkCostProfile f64_one f64_one)) None None.
Definition dear := target "dear" true (Some (mkCostProfile f64_one (f64_of_Z 9))) None None.
Definition exhausted := target "exhausted" true None (Some 0) None.
Definition demoted := target "demoted" true None (Some 1)
  (Some (signal 20 TierDemoted f64_half)).

(** Blind and unpriced: relaxing vision does not save it from a price policy. *)
Definition unpriced := target "unpriced" false None None None.

Definition strict_price_policy : RoutingPolicy :=
  mkRoutingPolicy None None false None false true true true false true CostReject ContextAllow
    ScorecardConfig_default QualityEvalConfig_default.

Definition cost_policy : RoutingPolicy :=
  mkRoutingPolicy None None true None false true true true false true CostAllow ContextAllow
    ScorecardConfig_default QualityEvalConfig_default.

Definition score_policy : RoutingPolicy :=
  mkRoutingPolicy (Some Cheap) (Some scoring_cheap) false None false true true true false true
    CostAllow ContextAllow ScorecardConfig_default QualityEvalConfig_default.

Lemma plan_route_rejections_witness :
  plan_candidates (plan_route image_request "r" RouteRequire_default [cheap; dear]
    RoutingPolicy_default) <> []
  /\ rej_target_id <$> d_rejected (plan_decision
       (plan_route image_request "r" RouteRequire_default [cheap; dear] RoutingPolicy_default))
     = ["cheap"].
Proof.
  split; [by vm_compute|].
  etransitivity; [apply plan_route_rejections; by vm_compute|by vm_compute].
Defined.

Lemma plan_route_rejections_twice_witness :
  rej_target_id <$> d_rejected (plan_decision
       (plan_route image_request "r" RouteRequire_default [unpriced] strict_price_policy))
     = ["unpriced"; "unpriced"].
Proof. apply plan_route_rejections_twice; by vm_compute. Defined.

Lemma plan_route_demotion_witness :
  plan_candidates (plan_route text_request "r" RouteRequire_default
    [exhausted; demoted; cheap] RoutingPolicy_default) = [cheap; demoted; exhausted]
  /\ (no_account demoted = true -> no_account exhausted = true).
Proof.
  split; [by vm_compute|].
  apply (plan_route_demotion text_request "r" RouteRequire_default [exhausted; demoted; cheap]
    RoutingPolicy_default [cheap] demoted [] exhausted []). by vm_compute.
Defined.

Lemma plan_route_sorted_witness :
  StronglySorted (cmp_le (plan_cmp cost_policy false None))
    (plan_candidates (plan_route text_request "r" RouteRequire_default
       [exhausted; unpriced; dear; cheap] cost_policy))
  /\ ids (plan_candidates (plan_route text_request "r" RouteRequire_default
       [exhausted; unpriced; dear; cheap] cost_policy))
     = ["cheap"; "dear"; "unpriced"; "exhausted"].
Proof.
  split; [|by vm_compute].
  apply (plan_route_sorted text_request "r" RouteRequire_default
    [exhausted; unpriced; dear; cheap] cost_policy).
  repeat constructor.
Defined.

Lemma plan_route_declared_order_witness :
  List.filter (at_rank 0) (plan_candidates (plan_route text_request "r" RouteRequire_default
    [dear; exhausted; cheap] RoutingPolicy_default)) = [dear; cheap].
Proof.
  etransitivity; [apply plan_route_declared_order; by vm_compute|by vm_compute].
Defined.

Lemma plan_route_scores_unit_witness :
  Forall (fun s => unit_or_nan (score_score s))
    (d_scores (plan_decision (plan_route text_request "r" RouteRequire_default
      [dear; exhausted; cheap; demoted] score_policy))).
Proof. apply plan_route_scores_unit. by vm_compute. Defined.

End Samples.
