(* ===== verification/Catalog.v ===== *)
(** * The catalog

    [crates/sb-core/src/catalog.rs]: providers, models, accounts, credentials and
    the price ledger, with price lookups and referential integrity; and the
    pricing units of [workload.rs]. *)

From Stdlib Require Import ZArith Lia Sorted.
From stdpp Require Import base list strings.
From S2P Require Import Prelude Text BTree Float Ir Target.

#[local] Open Scope Z_scope.

Inductive ApiKind := OpenAiCompatible | Anthropic | Gemini | Mock.
Inductive EntityStatus := Active | Disabled | Deprecated.
Inductive Modality := TextIn | TextOut | VisionIn | AudioIn | ImageOut | Embeddings.
Inductive CredentialKind := ApiKey | Oauth | NoCredential.
Inductive TokenKind := Input | Output | CachedInput | ReasoningTokens.
Inductive WorkloadKind :=
| TextGeneration | Embedding | ImageGeneration | VideoGeneration | WorkflowExecution.
Inductive PricingUnit :=
| PerImage | PerMegapixel | PerSecond | PerVideo | TokenMetered | Credits | Quota.

#[export] Instance Modality_eq_dec : EqDecision Modality.
Proof. solve_decision. Defined.
#[export] Instance TokenKind_eq_dec : EqDecision TokenKind.
Proof. solve_decision. Defined.
#[export] Instance PricingUnit_eq_dec : EqDecision PricingUnit.
Proof. solve_decision. Defined.

Definition default_capabilities (k : ApiKind) : CapabilityProfile :=
  match k with
  | Mock => CapabilityProfile_default
  | OpenAiCompatible =>
      mkCapabilityProfile true true false [] true true true false [] false false false false true
        None None
  | Anthropic | Gemini =>
      mkCapabilityProfile true true true [] true true false false [] false false false false true
        None None
  end.

Record Provider := mkProvider {
  prov_id : string;
  prov_tenant_id : Z;
  prov_name : string;
  prov_api_kind : ApiKind;
  prov_base_url : option string;
  prov_status : EntityStatus
}.

Record Model := mkModel {
  model_id : string;
  model_tenant_id : Z;
  model_provider_id : string;
  model_display_name : option string;
  model_context_window : option Z;
  model_modalities : list Modality;
  model_capabilities : CapabilityProfile;
  model_tags : list string;
  model_status : EntityStatus;
  model_deprecated_at : option string
}.

(** [Model::capability_profile]. *)
Definition capability_profile (m : Model) : CapabilityProfile :=
  let c := model_capabilities m in
  mkCapabilityProfile (cap_text_in c) (cap_text_out c)
    (if list_empty (model_modalities m) then cap_vision_in c
     else bool_decide (VisionIn ∈ model_modalities m))
    (cap_vision_sources c) (cap_streaming c) (cap_tool_calling c) (cap_parallel_tool_calls c)
    (cap_server_tools c) (cap_server_tool_protocols c) (cap_audio_in c) (cap_file_in c)
    (cap_image_out c) (cap_reasoning_summary c) (cap_json_schema c)
    match model_context_window m with
    | Some context => Some context | None => cap_max_context_tokens c end
    (cap_max_output_tokens c).

Record Account := mkAccount {
  acct_id : string;
  acct_tenant_id : Z;
  acct_provider_id : string;
  acct_owner_id : option string;
  acct_display_name : option string;
  acct_priority : Z;
  acct_active : bool
}.

Record Credential := mkCredential {
  cred_id : string;
  cred_tenant_id : Z;
  cred_account_id : string;
  cred_kind : CredentialKind;
  cred_source_ref : option string;
  cred_expires_at : option string
}.

Record Price := mkPrice {
  price_tenant_id : Z;
  price_model_id : string;
  price_token_kind : TokenKind;
  unit_price_micros_per_mtok : Z;
  effective_from : string;
  effective_to : option string
}.

Record UnitPrice := mkUnitPrice {
  up_pricing_unit : PricingUnit;
  up_unit_price_micros : Z
}.

Record Catalog := mkCatalog {
  cat_providers : list Provider;
  cat_models : list Model;
  cat_accounts : list Account;
  cat_credentials : list Credential;
  cat_prices : list Price
}.

Definition provider (c : Catalog) (id : string) : option Provider :=
  List.find (fun p => str_eqb (prov_id p) id) (cat_providers c).
Definition model (c : Catalog) (id : string) : option Model :=
  List.find (fun m => str_eqb (model_id m) id) (cat_models c).
Definition models_for_provider (c : Catalog) (id : string) : list Model :=
  List.filter (fun m => str_eqb (model_provider_id m) id) (cat_models c).
Definition accounts_for_provider (c : Catalog) (id : string) : list Account :=
  List.filter (fun a => str_eqb (acct_provider_id a) id) (cat_accounts c).
Definition credentials_for_account (c : Catalog) (id : string) : list Credential :=
  List.filter (fun x => str_eqb (cred_account_id x) id) (cat_credentials c).

(** ** Prices *)

(** [max_by] on [effective_from]: the last of the latest rows. *)
Definition latest (l : list Price) : option Price :=
  fold_left (fun acc p => match acc with
    | Some m => match String.compare (effective_from m) (effective_from p) with
                | Gt => Some m | _ => Some p end
    | None => Some p
    end) l None.

Definition str_le (a b : string) : bool :=
  match String.compare a b with Gt => false | _ => true end.
Definition str_lt (a b : string) : bool :=
  match String.compare a b with Lt => true | _ => false end.

Definition priced_for (mid : string) (kind : TokenKind) (p : Price) : bool :=
  str_eqb (price_model_id p) mid && bool_decide (price_token_kind p = kind).

Definition effective_price (c : Catalog) (mid : string) (kind : TokenKind) (at_ : string)
  : option Price :=
  latest (List.filter (fun p => match effective_to p with
                                | None => true | Some end_ => str_lt at_ end_ end)
    (List.filter (fun p => str_le (effective_from p) at_)
      (List.filter (priced_for mid kind) (cat_prices c)))).

Definition current_price (c : Catalog) (mid : string) (kind : TokenKind) : option Price :=
  latest (List.filter (fun p => priced_for mid kind p && negb (opt_is_some (effective_to p)))
    (cat_prices c)).

(** ** Referential integrity *)

Definition has_provider (c : Catalog) (id : string) : bool :=
  existsb (fun p => str_eqb (prov_id p) id) (cat_providers c).
Definition has_account (c : Catalog) (id : string) : bool :=
  existsb (fun a => str_eqb (acct_id a) id) (cat_accounts c).
Definition has_model (c : Catalog) (id : string) : bool :=
  existsb (fun m => str_eqb (model_id m) id) (cat_models c).

Definition validate (c : Catalog) : list string :=
  omap (fun m => if has_provider c (model_provider_id m) then None
    else Some ("model `" ^^ model_id m ^^ "` -> unknown provider `" ^^ model_provider_id m ^^ "`"))
    (cat_models c)
  ++ omap (fun a => if has_provider c (acct_provider_id a) then None
    else Some ("account `" ^^ acct_id a ^^ "` -> unknown provider `" ^^ acct_provider_id a ^^ "`"))
    (cat_accounts c)
  ++ omap (fun x => if has_account c (cred_account_id x) then None
    else Some ("credential `" ^^ cred_id x ^^ "` -> unknown account `" ^^ cred_account_id x ^^ "`"))
    (cat_credentials c)
  ++ omap (fun x => x) (imap (fun i p => if has_model c (price_model_id p) then None
    else Some ("price[" ^^ fmt_int (Z.of_nat i) ^^ "] -> unknown model `" ^^ price_model_id p ^^ "`"))
    (cat_prices c)).

(** ** Theorems *)

Lemma filter_andb {A} (p q : A -> bool) l :
  List.filter q (List.filter p l) = List.filter (fun x => p x && q x) l.
Proof.
  induction l as [|x l IH]; simpl; [done|]. destruct (p x); simpl; [|done].
  destruct (q x); by rewrite IH.
Qed.

(** The price of a request as it happens is the audited price:
    at an instant at which every row of the model and token kind has started and
    every closed row has ended, [effective_price] and [current_price] agree. *)
Theorem current_price_is_effective c mid kind at_ :
  Forall (fun p => priced_for mid kind p = true ->
    str_le (effective_from p) at_ = true
    /\ forall end_, effective_to p = Some end_ -> str_lt at_ end_ = false) (cat_prices c) ->
  effective_price c mid kind at_ = current_price c mid kind.
Proof.
  intros H. unfold effective_price, current_price. f_equal. rewrite !filter_andb.
  apply List.filter_ext_in. intros p Hp. rewrite List.Forall_forall in H. specialize (H p Hp).
  destruct (priced_for mid kind p); simpl; [|done]. destruct (H eq_refl) as [-> He]. simpl.
  destruct (effective_to p) as [end_|]; [|done]. by apply He.
Qed.

Lemma omap_nil_forall {A B} (f : A -> option B) (l : list A) :
  omap f l = [] <-> Forall (fun x => f x = None) l.
Proof.
  induction l as [|x l IH]; [split; constructor|].
  cbn [omap list_omap]. rewrite Forall_cons. destruct (f x) as [y|]; [naive_solver|].
  split; [intros H; split; [done|by apply IH]|intros [_ H]; by apply IH].
Qed.

Lemma existsb_id {A} (f : A -> string) id l :
  existsb (fun x => str_eqb (f x) id) l = true <-> id ∈ f <$> l.
Proof.
  rewrite existsb_exists, list_elem_of_fmap. setoid_rewrite str_eqb_eq.
  setoid_rewrite list_elem_of_In. naive_solver.
Qed.

(** Validation reports nothing exactly when every reference of
    the catalog resolves. *)
Theorem validate_clean c :
  validate c = []
  <-> (forall m, m ∈ cat_models c -> model_provider_id m ∈ prov_id <$> cat_providers c)
   /\ (forall a, a ∈ cat_accounts c -> acct_provider_id a ∈ prov_id <$> cat_providers c)
   /\ (forall x, x ∈ cat_credentials c -> cred_account_id x ∈ acct_id <$> cat_accounts c)
   /\ (forall p, p ∈ cat_prices c -> price_model_id p ∈ model_id <$> cat_models c).
Proof.
  unfold validate. rewrite !app_nil, !omap_nil_forall.
  assert (Hif : forall (b : bool) (s : string), (if b then None else Some s) = None <-> b = true)
    by (intros [] s; done).
  setoid_rewrite Hif. unfold has_provider, has_account, has_model.
  rewrite !Forall_forall. setoid_rewrite existsb_id.
  assert (Hp : (forall x, x ∈ imap (fun i p => if existsb (fun m => str_eqb (model_id m)
      (price_model_id p)) (cat_models c) then None
      else Some ("price[" ^^ fmt_int (Z.of_nat i) ^^ "] -> unknown model `"
        ^^ price_model_id p ^^ "`")) (cat_prices c) -> x = None)
    <-> forall p, p ∈ cat_prices c -> price_model_id p ∈ model_id <$> cat_models c).
  { setoid_rewrite <- (existsb_id model_id). split.
    - intros H p Hin. apply list_elem_of_lookup in Hin as [i Hi].
      eapply Hif, H, elem_of_lookup_imap. eauto.
    - intros H x (i & p & -> & Hi)%elem_of_lookup_imap. apply Hif, H.
      by eapply list_elem_of_lookup_2. }
  rewrite Hp. done.
Qed.

Example current_price_is_effective_witness :
  let p from to price := mkPrice 1 "m" Input price from to in
  let c := mkCatalog [] [] [] [] [p "2025" (Some "2026") 3; p "2026" None 2] in
  effective_price c "m" Input "2027" = current_price c "m" Input.
Proof.
  apply current_price_is_effective. repeat constructor; naive_solver.
Defined.
