(* ===== verification/Ledger.v ===== *)
(** * The usage ledger

    [crates/sb-ledger/src/lib.rs]: pricing, usage records, the ledger with its
    durable store behind an interface, durability health, summaries and
    reconciliation. Money is integer micro-USD with saturating arithmetic. The
    record, health and store mutexes are taken one at a time; a method is one step.
    Timestamps are arguments; the JSONL sink is the list of records handed to
    it. *)

From Stdlib Require Import ZArith Lia Sorted.
From stdpp Require Import base list strings gmap sorting.
From S2P Require Import Prelude Text BTree Float Ir Target Catalog.

#[local] Open Scope Z_scope.

(** ** Pricing *)

Definition price_per_mtok (c : Catalog) (mid : string) (k : TokenKind) : option Z :=
  unit_price_micros_per_mtok <$> current_price c mid k.

Definition cost_of (c : Catalog) (mid : string) (kind : TokenKind) (tokens : Z) : Z :=
  match price_per_mtok c mid kind with
  | Some p => sat_mul u64_max p tokens / 1000000
  | None => 0
  end.

Definition compute_cost_micros (c : Catalog) (mid : string) (u : Usage) : Z :=
  sat_add u64_max
    (sat_add u64_max
       (sat_add u64_max (cost_of c mid Input (input_tokens u))
          (cost_of c mid Output (output_tokens u)))
       (cost_of c mid CachedInput (cached_input_tokens u)))
    (cost_of c mid ReasoningTokens (reasoning_tokens u)).

Definition compute_cache_savings_micros (c : Catalog) (mid : string) (u : Usage) : Z :=
  let cached := cached_input_tokens u in
  if cached =? 0 then 0
  else match price_per_mtok c mid Input, price_per_mtok c mid CachedInput with
  | Some input, Some cached_rate =>
      if cached_rate <? input
      then sat_mul u64_max (sat_sub input cached_rate) cached / 1000000 else 0
  | _, _ => 0
  end.

(** [u64::MAX as f64]. *)
Definition u64_max_f64 : f64 := f64_of_Z u64_max.

Definition compute_unit_cost_micros (price : option UnitPrice) (units : option f64)
  : option Z :=
  price ← price;
  if bool_decide (up_pricing_unit price = TokenMetered) then None
  else
    units ← units;
    if negb (is_finite units) || f_lt units f64_zero then None
    else
      let micros := f64_mul units (f64_of_Z (up_unit_price_micros price)) in
      if negb (is_finite micros) || f_lt u64_max_f64 micros then None
      else Some (f_to_uint u64_max (f64_ceil micros)).

(** ** Records *)

Record UsageRecord := mkUsageRecord {
  ur_request_id : string;
  ur_tenant_id : Z;
  ur_owner_id : option string;
  ur_provider_id : string;
  ur_model : string;
  ur_account_id : option string;
  ur_timestamp_unix : Z;
  ur_usage : Usage;
  ur_cost_micros : option Z;
  ur_cache_savings_micros : option Z;
  ur_latency_ms : Z;
  ur_streamed : bool;
  ur_workload_kind : option WorkloadKind;
  ur_pricing_unit : option PricingUnit;
  ur_units_consumed : option f64;
  ur_tenant : option string;
  ur_project : option string
}.

Definition UsageRecord_new (request_id provider_id model : string) (account_id : option string)
    (usage : Usage) (latency_ms : Z) (streamed : bool) (c : Catalog) (now_unix : Z)
  : UsageRecord :=
  mkUsageRecord request_id 1 None provider_id model account_id now_unix usage
    (Some (compute_cost_micros c model usage)) (Some (compute_cache_savings_micros c model usage))
    latency_ms streamed None None None None None.

Definition UsageRecord_priced (request_id provider_id model : string)
    (account_id : option string) (usage : Usage) (latency_ms : Z) (streamed : bool)
    (cost_micros now_unix : Z) : UsageRecord :=
  mkUsageRecord request_id 1 None provider_id model account_id now_unix usage
    (Some cost_micros) None latency_ms streamed None None None None None.

Definition UsageRecord_workload (request_id provider_id model : string)
    (account_id : option string) (kind : WorkloadKind) (unit_ : option PricingUnit)
    (units_consumed : option f64) (cost_micros : option Z) (latency_ms now_unix : Z)
  : UsageRecord :=
  mkUsageRecord request_id 1 None provider_id model account_id now_unix Usage_default
    cost_micros None latency_ms false (Some kind) unit_ units_consumed None None.

(** ** Durability health *)

Record UsageDurabilityHealth := mkHealth {
  h_status : string;
  h_store_configured : bool;
  h_persisted_writes : Z;
  h_duplicate_ignored_writes : Z;
  h_memory_writes : Z;
  h_failed_writes : Z;
  h_post_commit_failed_writes : Z;
  h_rollup_failures : Z;
  h_last_outcome : option string;
  h_last_error : option string;
  h_last_request_id : option string
}.

Definition status_of (store_configured : bool) (failed post_commit rollup : Z) : string :=
  if 0 <? post_commit then "post_commit_failed"
  else if (0 <? failed) || (0 <? rollup) then "degraded"
  else if store_configured then "durable"
  else "memory_only".

Definition refresh_status (h : UsageDurabilityHealth) : UsageDurabilityHealth :=
  mkHealth (status_of (h_store_configured h) (h_failed_writes h)
              (h_post_commit_failed_writes h) (h_rollup_failures h))
    (h_store_configured h) (h_persisted_writes h) (h_duplicate_ignored_writes h)
    (h_memory_writes h) (h_failed_writes h) (h_post_commit_failed_writes h)
    (h_rollup_failures h) (h_last_outcome h) (h_last_error h) (h_last_request_id h).

Definition Health_new : UsageDurabilityHealth :=
  refresh_status (mkHealth EmptyString false 0 0 0 0 0 0 None None None).

Inductive RequiredUsagePhase := PreResponse | PostCommit.

Definition inc (n : Z) : Z := sat_add u64_max n 1.

Definition mark_store_configured (h : UsageDurabilityHealth) : UsageDurabilityHealth :=
  refresh_status (mkHealth (h_status h) true (h_persisted_writes h)
    (h_duplicate_ignored_writes h) (h_memory_writes h) (h_failed_writes h)
    (h_post_commit_failed_writes h) (h_rollup_failures h) (h_last_outcome h) (h_last_error h)
    (h_last_request_id h)).

Definition mark_persisted (id : string) (h : UsageDurabilityHealth) : UsageDurabilityHealth :=
  refresh_status (mkHealth (h_status h) (h_store_configured h) (inc (h_persisted_writes h))
    (h_duplicate_ignored_writes h) (h_memory_writes h) (h_failed_writes h)
    (h_post_commit_failed_writes h) (h_rollup_failures h) (Some "inserted") None (Some id)).

Definition mark_duplicate_ignored (id : string) (h : UsageDurabilityHealth)
  : UsageDurabilityHealth :=
  refresh_status (mkHealth (h_status h) (h_store_configured h) (h_persisted_writes h)
    (inc (h_duplicate_ignored_writes h)) (h_memory_writes h) (h_failed_writes h)
    (h_post_commit_failed_writes h) (h_rollup_failures h) (Some "duplicate_ignored") None
    (Some id)).

Definition mark_best_effort_failure (id error : string) (h : UsageDurabilityHealth)
  : UsageDurabilityHealth :=
  refresh_status (mkHealth (h_status h) (h_store_configured h) (h_persisted_writes h)
    (h_duplicate_ignored_writes h) (h_memory_writes h) (inc (h_failed_writes h))
    (h_post_commit_failed_writes h) (h_rollup_failures h) (Some "degraded_memory_fallback")
    (Some error) (Some id)).

Definition mark_required_failure (id error : string) (phase : RequiredUsagePhase)
    (h : UsageDurabilityHealth) : UsageDurabilityHealth :=
  refresh_status (mkHealth (h_status h) (h_store_configured h) (h_persisted_writes h)
    (h_duplicate_ignored_writes h) (h_memory_writes h) (inc (h_failed_writes h))
    match phase with PostCommit => inc (h_post_commit_failed_writes h)
                   | PreResponse => h_post_commit_failed_writes h end
    (h_rollup_failures h)
    (Some match phase with PostCommit => "post_commit_failed"
                         | PreResponse => "failed_closed" end)
    (Some error) (Some id)).

Definition mark_memory_write (outcome id : string) (h : UsageDurabilityHealth)
  : UsageDurabilityHealth :=
  refresh_status (mkHealth (h_status h) (h_store_configured h) (h_persisted_writes h)
    (h_duplicate_ignored_writes h) (inc (h_memory_writes h)) (h_failed_writes h)
    (h_post_commit_failed_writes h) (h_rollup_failures h) (Some outcome)
    (if str_eqb outcome "memory_only" then None else h_last_error h) (Some id)).

Definition mark_rollup_failure (error : string) (h : UsageDurabilityHealth)
  : UsageDurabilityHealth :=
  refresh_status (mkHealth (h_status h) (h_store_configured h) (h_persisted_writes h)
    (h_duplicate_ignored_writes h) (h_memory_writes h) (h_failed_writes h)
    (h_post_commit_failed_writes h) (inc (h_rollup_failures h)) (Some "rollup_failed")
    (Some error) (h_last_request_id h)).

(** ** Summaries *)

Record EnergySummary := mkEnergySummary {
  es_requests_with_energy : Z;
  es_energy_joules : f64;
  es_energy_kwh : f64;
  es_duration_seconds : f64;
  es_energy_kwh_consumed : f64;
  es_energy_kwh_charged : f64
}.

Definition EnergySummary_default : EnergySummary :=
  mkEnergySummary 0 f64_zero f64_zero f64_zero f64_zero f64_zero.

Definition or_zero (o : option f64) : f64 := default f64_zero o.

Definition has_energy (u : Usage) : bool :=
  match usage_energy u with Some e => has_measured_energy e | None => false end.

Definition add_usage (u : Usage) (s : EnergySummary) : EnergySummary :=
  match usage_energy u with
  | Some e =>
      if has_measured_energy e then
        mkEnergySummary (inc (es_requests_with_energy s))
          (f64_add (es_energy_joules s) (or_zero (energy_joules e)))
          (f64_add (es_energy_kwh s) (or_zero (energy_kwh e)))
          (f64_add (es_duration_seconds s) (or_zero (duration_seconds e)))
          (f64_add (es_energy_kwh_consumed s) (or_zero (energy_kwh_consumed e)))
          (f64_add (es_energy_kwh_charged s) (or_zero (energy_kwh_charged e)))
      else s
  | None => s
  end.

Record LedgerSummary := mkLedgerSummary {
  sum_requests : Z;
  sum_total_cost_micros : Z;
  sum_unknown_cost_requests : Z;
  sum_by_model : BTreeMap string (Z * Z);
  sum_by_provider : BTreeMap string (Z * Z);
  sum_by_tenant : BTreeMap string (Z * Z);
  sum_total_cache_savings_micros : Z;
  sum_cache_savings_by_model : BTreeMap string Z;
  sum_cache_savings_by_provider : BTreeMap string Z;
  sum_cache_savings_by_tenant : BTreeMap string Z;
  sum_energy : EnergySummary;
  sum_energy_by_model : BTreeMap string EnergySummary;
  sum_energy_by_provider : BTreeMap string EnergySummary;
  sum_energy_by_tenant : BTreeMap string EnergySummary
}.

Definition LedgerSummary_default : LedgerSummary :=
  mkLedgerSummary 0 0 0 [] [] [] 0 [] [] [] EnergySummary_default [] [] [].

(** [bucket.0 += 1; bucket.1 = bucket.1.saturating_add(cost)]. *)
Definition bump (cost : Z) (b : Z * Z) : Z * Z := (wrap64 (b.1 + 1), sat_add u64_max b.2 cost).

Definition bump_bucket (k : string) (cost : Z) (m : BTreeMap string (Z * Z))
  : BTreeMap string (Z * Z) := bt_update k (0, 0) (bump cost) m.

Definition bump_savings (k : string) (savings : Z) (m : BTreeMap string Z) : BTreeMap string Z :=
  if 0 <? savings then bt_update k 0 (fun s => sat_add u64_max s savings) m else m.

Definition bump_energy (k : string) (u : Usage) (m : BTreeMap string EnergySummary)
  : BTreeMap string EnergySummary :=
  if has_energy u then bt_update k EnergySummary_default (add_usage u) m else m.

(** The body of the loop of [apply_records]. *)
Definition apply_record (s : LedgerSummary) (r : UsageRecord) : LedgerSummary :=
  let cost := default 0 (ur_cost_micros r) in
  let savings := default 0 (ur_cache_savings_micros r) in
  mkLedgerSummary (sum_requests s)
    (sat_add u64_max (sum_total_cost_micros s) cost)
    (if opt_is_some (ur_cost_micros r) then sum_unknown_cost_requests s
     else inc (sum_unknown_cost_requests s))
    (bump_bucket (ur_model r) cost (sum_by_model s))
    (bump_bucket (ur_provider_id r) cost (sum_by_provider s))
    match ur_tenant r with
    | Some t => bump_bucket t cost (sum_by_tenant s) | None => sum_by_tenant s end
    (sat_add u64_max (sum_total_cache_savings_micros s) savings)
    (bump_savings (ur_model r) savings (sum_cache_savings_by_model s))
    (bump_savings (ur_provider_id r) savings (sum_cache_savings_by_provider s))
    match ur_tenant r with
    | Some t => bump_savings t savings (sum_cache_savings_by_tenant s)
    | None => sum_cache_savings_by_tenant s end
    (if has_energy (ur_usage r) then add_usage (ur_usage r) (sum_energy s) else sum_energy s)
    (bump_energy (ur_model r) (ur_usage r) (sum_energy_by_model s))
    (bump_energy (ur_provider_id r) (ur_usage r) (sum_energy_by_provider s))
    match ur_tenant r with
    | Some t => bump_energy t (ur_usage r) (sum_energy_by_tenant s)
    | None => sum_energy_by_tenant s end.

Definition add_requests (n : Z) (s : LedgerSummary) : LedgerSummary :=
  mkLedgerSummary (wrap64 (sum_requests s + n)) (sum_total_cost_micros s)
    (sum_unknown_cost_requests s) (sum_by_model s) (sum_by_provider s) (sum_by_tenant s)
    (sum_total_cache_savings_micros s) (sum_cache_savings_by_model s)
    (sum_cache_savings_by_provider s) (sum_cache_savings_by_tenant s) (sum_energy s)
    (sum_energy_by_model s) (sum_energy_by_provider s) (sum_energy_by_tenant s).

Definition apply_records (s : LedgerSummary) (records : list UsageRecord) : LedgerSummary :=
  fold_left apply_record records (add_requests (Z.of_nat (length records)) s).

(** ** Store events *)

(** [sb_store::UsageEvent]. *)
Record UsageEvent := mkUsageEvent {
  ev_request_id : string;
  ev_provider_id : string;
  ev_model : string;
  ev_account_id : option string;
  ev_tenant : option string;
  ev_project : option string;
  ev_cost_micros : option Z;
  ev_workload_kind : option string;
  ev_pricing_unit : option string;
  ev_units_consumed : option f64;
  ev_input_tokens : Z;
  ev_output_tokens : Z;
  ev_cached_input_tokens : Z;
  ev_cache_savings_micros : option Z;
  ev_latency_ms : Z;
  ev_streamed : bool;
  ev_energy : EnergyUsage;
  ev_created_at_ms : Z
}.

Definition workload_kind_name (k : WorkloadKind) : string :=
  match k with
  | TextGeneration => "text_generation"
  | Embedding => "embedding"
  | ImageGeneration => "image_generation"
  | VideoGeneration => "video_generation"
  | WorkflowExecution => "workflow_execution"
  end.

Definition pricing_unit_name (u : PricingUnit) : string :=
  match u with
  | PerImage => "per_image"
  | PerMegapixel => "per_megapixel"
  | PerSecond => "per_second"
  | PerVideo => "per_video"
  | TokenMetered => "token_metered"
  | Credits => "credits"
  | Quota => "quota"
  end.

Definition parse_workload_kind (v : string) : option WorkloadKind :=
  if str_eqb v "text_generation" then Some TextGeneration
  else if str_eqb v "embedding" then Some Embedding
  else if str_eqb v "image_generation" then Some ImageGeneration
  else if str_eqb v "video_generation" then Some VideoGeneration
  else if str_eqb v "workflow_execution" then Some WorkflowExecution
  else None.

Definition parse_pricing_unit (v : string) : option PricingUnit :=
  if str_eqb v "per_image" then Some PerImage
  else if str_eqb v "per_megapixel" then Some PerMegapixel
  else if str_eqb v "per_second" then Some PerSecond
  else if str_eqb v "per_video" then Some PerVideo
  else if str_eqb v "token_metered" then Some TokenMetered
  else if str_eqb v "credits" then Some Credits
  else if str_eqb v "quota" then Some Quota
  else None.

(** The nine [energy_*] columns of an event are the nine optional fields of an
    [EnergyUsage], all absent when the usage has no energy record. *)
Definition no_energy : EnergyUsage :=
  mkEnergyUsage None None None None None None None None None.

Definition record_to_event (r : UsageRecord) : UsageEvent :=
  mkUsageEvent (ur_request_id r) (ur_provider_id r) (ur_model r) (ur_account_id r)
    (ur_tenant r) (ur_project r) (ur_cost_micros r) (workload_kind_name <$> ur_workload_kind r)
    (pricing_unit_name <$> ur_pricing_unit r) (ur_units_consumed r)
    (input_tokens (ur_usage r)) (output_tokens (ur_usage r)) (cached_input_tokens (ur_usage r))
    (ur_cache_savings_micros r) (ur_latency_ms r) (ur_streamed r)
    (default no_energy (usage_energy (ur_usage r)))
    (i64_sat_mul (wrap_i64 (ur_timestamp_unix r)) 1000).

Definition event_to_record (e : UsageEvent) : UsageRecord :=
  mkUsageRecord (ev_request_id e) 1 None (ev_provider_id e) (ev_model e) (ev_account_id e)
    (wrap64 (Z.max (ev_created_at_ms e) 0) / 1000)
    (mkUsage (ev_input_tokens e) (ev_output_tokens e) (ev_cached_input_tokens e) 0 None)
    (ev_cost_micros e) (ev_cache_savings_micros e) (ev_latency_ms e) (ev_streamed e)
    (k ← ev_workload_kind e; parse_workload_kind k)
    (u ← ev_pricing_unit e; parse_pricing_unit u)
    (ev_units_consumed e) (ev_tenant e) (ev_project e).

Inductive UsageWriteOutcome := Inserted | DuplicateIgnored.

#[export] Instance UsageWriteOutcome_eq_dec : EqDecision UsageWriteOutcome.
Proof. solve_decision. Defined.

(** [sb_store::UsageRollup]; an energy bucket carries the same numbers as an
    [EnergySummary]. *)
Record UsageRollup := mkUsageRollup {
  ro_requests : Z;
  ro_total_cost_micros : Z;
  ro_unknown_cost_requests : Z;
  ro_by_provider : list (string * Z * Z);
  ro_by_model : list (string * Z * Z);
  ro_by_tenant : list (string * Z * Z);
  ro_total_cache_savings_micros : Z;
  ro_cache_savings_by_provider : list (string * Z);
  ro_cache_savings_by_model : list (string * Z);
  ro_cache_savings_by_tenant : list (string * Z);
  ro_energy : EnergySummary;
  ro_energy_by_provider : list (string * EnergySummary);
  ro_energy_by_model : list (string * EnergySummary);
  ro_energy_by_tenant : list (string * EnergySummary)
}.

Definition rollup_to_summary (r : UsageRollup) : LedgerSummary :=
  let to_map (l : list (string * Z * Z)) :=
    bt_collect ((fun b : string * Z * Z => (b.1.1, (b.1.2, b.2))) <$> l) in
  mkLedgerSummary (ro_requests r) (ro_total_cost_micros r) (ro_unknown_cost_requests r)
    (to_map (ro_by_model r)) (to_map (ro_by_provider r)) (to_map (ro_by_tenant r))
    (ro_total_cache_savings_micros r) (bt_collect (ro_cache_savings_by_model r))
    (bt_collect (ro_cache_savings_by_provider r)) (bt_collect (ro_cache_savings_by_tenant r))
    (ro_energy r) (bt_collect (ro_energy_by_model r)) (bt_collect (ro_energy_by_provider r))
    (bt_collect (ro_energy_by_tenant r)).

(** ** Reconciliation totals *)

Record Totals := mkTotals {
  tot_requests : Z;
  tot_cost_micros : Z
}.

Definition totals_from_summary (s : LedgerSummary) (tenant : option string) : Totals :=
  match tenant with
  | Some t =>
      let '(requests, cost) := default (0, 0) (bt_get t (sum_by_tenant s)) in
      mkTotals requests cost
  | None => mkTotals (sum_requests s) (sum_total_cost_micros s)
  end.

Definition in_scope (tenant : option string) (r : UsageRecord) : bool :=
  match tenant with
  | Some t => bool_decide (ur_tenant r = Some t)
  | None => true
  end.

Definition totals_from_records (records : list UsageRecord) (tenant : option string) : Totals :=
  fold_left (fun t r =>
    if in_scope tenant r
    then mkTotals (inc (tot_requests t))
           (sat_add u64_max (tot_cost_micros t) (default 0 (ur_cost_micros r)))
    else t) records (mkTotals 0 0).

(** ** The store interface *)

(** What the ledger calls of [sb_store::StateStore]; an error is its message. *)
Class UsageStore (S : Type) := {
  st_record_usage : S -> UsageEvent -> result UsageWriteOutcome string * S;
  st_usage_rollup : S -> result UsageRollup string;
  st_recent_usage : S -> Z -> result (list UsageEvent) string
}.

Definition ev_cost (e : UsageEvent) : Z := default 0 (ev_cost_micros e).

(** An event whose cost the store's signed columns can hold. *)
Definition billable (e : UsageEvent) : Prop := 0 <= ev_cost e <= i64_max.

(** An event whose counters the store's signed columns can hold. *)
Definition storable (e : UsageEvent) : Prop :=
  Forall (fun z => 0 <= z <= i64_max)
    [ev_cost e; ev_input_tokens e; ev_output_tokens e; ev_cached_input_tokens e;
     ev_latency_ms e; default 0 (ev_cache_savings_micros e)].

(** What the ledger may rely on, in states that satisfy the store's invariant: an
    insertion adds the event to the totals and puts it in front of the recent rows, a
    duplicate is among them when all are read, and a write that reports a duplicate
    or fails leaves the totals alone. *)
Class UsageStoreLaws (S : Type) `{UsageStore S} := {
  store_inv : S -> Prop;
  store_inv_record : forall s e res s',
    store_inv s -> billable e -> st_record_usage s e = (res, s') -> store_inv s';
  store_insert : forall s e s' r r',
    store_inv s -> billable e -> st_record_usage s e = (Ok Inserted, s') ->
    st_usage_rollup s = Ok r -> st_usage_rollup s' = Ok r' ->
    ro_requests r' = ro_requests r + 1
    /\ ro_total_cost_micros r' = ro_total_cost_micros r + ev_cost e;
  store_duplicate : forall s e s',
    st_record_usage s e = (Ok DuplicateIgnored, s') -> st_usage_rollup s' = st_usage_rollup s;
  store_failure : forall s e s' m,
    st_record_usage s e = (Err m, s') -> st_usage_rollup s' = st_usage_rollup s;
  store_recent_inserted : forall s e s' limit rows,
    st_record_usage s e = (Ok Inserted, s') -> 0 < limit <= i64_max ->
    st_recent_usage s' limit = Ok rows ->
    exists e', head rows = Some e' /\ ev_request_id e' = ev_request_id e
               /\ (storable e -> e' = e);
  store_recent_duplicate : forall s e s' limit rows,
    st_record_usage s e = (Ok DuplicateIgnored, s') ->
    Z.of_nat (length rows) < limit <= i64_max -> st_recent_usage s' limit = Ok rows ->
    exists e', e' ∈ rows /\ ev_request_id e' = ev_request_id e
}.

(** ** The ledger *)

Section Ledger.
Context {S : Type} `{UsageStore S}.

Record UsageLedger := mkUsageLedger {
  l_records : list UsageRecord;
  l_sink : option (list UsageRecord);
  l_store : option S;
  l_base : LedgerSummary;
  l_health : UsageDurabilityHealth
}.

Definition in_memory : UsageLedger :=
  mkUsageLedger [] None None LedgerSummary_default Health_new.

Definition with_sink : UsageLedger :=
  mkUsageLedger [] (Some []) None LedgerSummary_default Health_new.

Definition with_store (l : UsageLedger) (s : S) : UsageLedger :=
  let h := mark_store_configured (l_health l) in
  match st_usage_rollup s with
  | Ok r => mkUsageLedger (l_records l) (l_sink l) (Some s) (rollup_to_summary r) h
  | Err e => mkUsageLedger (l_records l) (l_sink l) (Some s) (l_base l) (mark_rollup_failure e h)
  end.

Definition with_store_lazy (l : UsageLedger) (s : S) : UsageLedger :=
  mkUsageLedger (l_records l) (l_sink l) (Some s) (l_base l)
    (mark_store_configured (l_health l)).

(** The append of a record that is not in the store, and its health mark. *)
Definition remember (r : UsageRecord) (outcome : string) (l : UsageLedger) : UsageLedger :=
  mkUsageLedger (l_records l ++ [r]) (l_sink l) (l_store l) (l_base l)
    (mark_memory_write outcome (ur_request_id r) (l_health l)).

Definition set_health (h : UsageDurabilityHealth) (l : UsageLedger) : UsageLedger :=
  mkUsageLedger (l_records l) (l_sink l) (l_store l) (l_base l) h.

Definition set_store (s : S) (l : UsageLedger) : UsageLedger :=
  mkUsageLedger (l_records l) (l_sink l) (Some s) (l_base l) (l_health l).

Definition append_sink (r : UsageRecord) (l : UsageLedger) : UsageLedger :=
  mkUsageLedger (l_records l) ((fun lines => lines ++ [r]) <$> l_sink l) (l_store l) (l_base l)
    (l_health l).

Definition not_configured : string := "usage store is required but not configured".

Definition record_inner (l : UsageLedger) (r : UsageRecord)
    (required_phase : option RequiredUsagePhase) : result unit string * UsageLedger :=
  let l := append_sink r l in
  let id := ur_request_id r in
  match l_store l with
  | Some s =>
      let '(outcome, s') := st_record_usage s (record_to_event r) in
      let l := set_store s' l in
      match outcome with
      | Ok Inserted => (Ok tt, set_health (mark_persisted id (l_health l)) l)
      | Ok DuplicateIgnored => (Ok tt, set_health (mark_duplicate_ignored id (l_health l)) l)
      | Err e =>
          match required_phase with
          | Some phase =>
              (Err ("usage store write failed: " ^^ e),
               set_health (mark_required_failure id e phase (l_health l)) l)
          | None =>
              (Ok tt, remember r "degraded_memory_fallback"
                        (set_health (mark_best_effort_failure id e (l_health l)) l))
          end
      end
  | None =>
      match required_phase with
      | Some phase =>
          (Err not_configured,
           set_health (mark_required_failure id not_configured phase (l_health l)) l)
      | None => (Ok tt, remember r "memory_only" l)
      end
  end.

(** [record]: the error, if any, is only logged. *)
Definition record_best_effort (l : UsageLedger) (r : UsageRecord) : UsageLedger :=
  (record_inner l r None).2.

Definition record_checked (l : UsageLedger) (r : UsageRecord)
  : result unit string * UsageLedger := record_inner l r (Some PreResponse).

Definition record_checked_post_commit (l : UsageLedger) (r : UsageRecord)
  : result unit string * UsageLedger := record_inner l r (Some PostCommit).

(** Newest first; among equal times by descending request id. *)
Definition recent_cmp (a b : UsageRecord) : comparison :=
  match Z.compare (ur_timestamp_unix b) (ur_timestamp_unix a) with
  | Eq => String.compare (ur_request_id b) (ur_request_id a)
  | c => c
  end.

(** [rows.retain(|row| seen.insert(id))]. *)
Fixpoint retain_first (seen : gset string) (l : list UsageRecord) : list UsageRecord :=
  match l with
  | [] => []
  | r :: l' =>
      if decide (ur_request_id r ∈ seen) then retain_first seen l'
      else r :: retain_first ({[ur_request_id r]} ∪ seen) l'
  end.

Definition recent (l : UsageLedger) (limit : Z) : list UsageRecord :=
  let rows := l_records l ++
    match l_store l with
    | Some s => match st_recent_usage s limit with
                | Ok events => event_to_record <$> events | Err _ => [] end
    | None => []
    end in
  take (Z.to_nat limit) (retain_first ∅ (sort_by recent_cmp rows)).

Definition ledger_summary (l : UsageLedger) : LedgerSummary * UsageLedger :=
  match l_store l with
  | Some s =>
      match st_usage_rollup s with
      | Ok r => (apply_records (rollup_to_summary r) (l_records l), l)
      | Err e =>
          (apply_records (l_base l) (l_records l),
           set_health (mark_rollup_failure e (l_health l)) l)
      end
  | None => (apply_records (l_base l) (l_records l), l)
  end.

Definition tenant_spend_usd (l : UsageLedger) (tenant : string) : f64 * UsageLedger :=
  let '(s, l') := ledger_summary l in
  (match bt_get tenant (sum_by_tenant s) with
   | Some (_, micros) => f64_div (f64_of_Z micros) (f64_of_Z 1000000)
   | None => f64_zero
   end, l').

Record ReconciliationReport := mkReport {
  rep_status : string;
  rep_billing_grade : bool;
  rep_store_configured : bool;
  rep_scope : option string;
  rep_durable : Totals;
  rep_ledger : Totals;
  rep_memory_fallback : Totals;
  rep_delta_requests : Z;
  rep_delta_cost : Z;
  rep_unexplained_requests : Z;
  rep_unexplained_cost : Z;
  rep_duplicate_ignored_writes : Z;
  rep_memory_writes : Z;
  rep_failed_writes : Z;
  rep_post_commit_failed_writes : Z;
  rep_rollup_failures : Z;
  rep_issues : list string
}.

(** [Vec::dedup]: drops an element equal to its predecessor. *)
Fixpoint dedup (l : list string) : list string :=
  match l with
  | x :: ((y :: _) as l') => if str_eqb x y then dedup l' else x :: dedup l'
  | _ => l
  end.

Definition reconcile (l : UsageLedger) (tenant : option string)
  : ReconciliationReport * UsageLedger :=
  let memory := totals_from_records (l_records l) tenant in
  let store_configured := opt_is_some (l_store l) in
  let '(durable, rollup_failed, issues0, health) :=
    match l_store l with
    | Some s =>
        match st_usage_rollup s with
        | Ok r => (totals_from_summary (rollup_to_summary r) tenant, false, [], l_health l)
        | Err e => (mkTotals 0 0, true, ["durable_rollup_failed"],
                    mark_rollup_failure e (l_health l))
        end
    | None => (mkTotals 0 0, false, ["state_store_disabled"], l_health l)
    end in
  let ledger :=
    if store_configured && negb rollup_failed
    then mkTotals (sat_add u64_max (tot_requests durable) (tot_requests memory))
           (sat_add u64_max (tot_cost_micros durable) (tot_cost_micros memory))
    else totals_from_summary (apply_records (l_base l) (l_records l)) tenant in
  let sub a b := wrap_i64 (wrap_i64 a - wrap_i64 b) in
  let delta_requests := sub (tot_requests ledger) (tot_requests durable) in
  let delta_cost := sub (tot_cost_micros ledger) (tot_cost_micros durable) in
  let unexplained_requests := sub delta_requests (tot_requests memory) in
  let unexplained_cost := sub delta_cost (tot_cost_micros memory) in
  let unexplained := negb (unexplained_requests =? 0) || negb (unexplained_cost =? 0) in
  let push (b : bool) (s : string) (issues : list string) :=
    if b then issues ++ [s] else issues in
  let issues := push (0 <? tot_requests memory) "memory_fallback" issues0 in
  let issues := push (0 <? h_failed_writes health) "usage_write_failures" issues in
  let issues := push (0 <? h_post_commit_failed_writes health) "post_commit_usage_failure" issues in
  let issues := push (0 <? h_rollup_failures health) "rollup_failures" issues in
  let issues := push unexplained "unexplained_usage_delta" issues in
  let issues := dedup (sort_by String.compare issues) in
  let status :=
    if (0 <? h_post_commit_failed_writes health) || unexplained then "inconsistent"
    else if negb store_configured || (0 <? tot_requests memory) || (0 <? h_failed_writes health)
            || (0 <? h_rollup_failures health) then "degraded"
    else "ok" in
  (mkReport status (str_eqb status "ok") store_configured tenant durable ledger memory
     delta_requests delta_cost unexplained_requests unexplained_cost
     (h_duplicate_ignored_writes health) (h_memory_writes health) (h_failed_writes health)
     (h_post_commit_failed_writes health) (h_rollup_failures health) issues,
   set_health health l).

End Ledger.

Arguments UsageLedger S : clear implicits.
