(* ===== verification/UsageTable.v ===== *)
(** * The usage table of the SQLite store

    [SqliteStore::record_usage], [usage_rollup], [recent_usage] and their helpers in
    [crates/sb-store/src/lib.rs], on the rows of the [usage] table in insertion
    order. The statements are the ones the source sends; integers are stored as
    [i64], and [SUM] over integers fails when it overflows. A database that cannot
    be reached fails every call. Sums of real columns, whose rounding SQLite does
    not specify, are a parameter. *)

From Stdlib Require Import ZArith Lia.
From stdpp Require Import base list strings.
From S2P Require Import Prelude Text BTree Float Ir Target Catalog Ledger.

#[local] Open Scope Z_scope.

Record UsageRow := mkUsageRow {
  rw_request_id : string;
  rw_provider_id : string;
  rw_model : string;
  rw_account_id : option string;
  rw_tenant : option string;
  rw_project : option string;
  rw_cost_micros : Z;
  rw_cost_known : bool;
  rw_workload_kind : option string;
  rw_pricing_unit : option string;
  rw_units_consumed : option f64;
  rw_input_tokens : Z;
  rw_output_tokens : Z;
  rw_latency_ms : Z;
  rw_streamed : bool;
  rw_energy : EnergyUsage;
  rw_created_at : Z;
  rw_cached_input_tokens : option Z;
  rw_cache_savings_micros : option Z
}.

Record UsageTable := mkUsageTable {
  ut_rows : list UsageRow;
  ut_reachable : bool
}.

(** The parameters bound by the [INSERT]. *)
Definition row_of_event (e : UsageEvent) : UsageRow :=
  mkUsageRow (ev_request_id e) (ev_provider_id e) (ev_model e) (ev_account_id e) (ev_tenant e)
    (ev_project e) (wrap_i64 (default 0 (ev_cost_micros e))) (opt_is_some (ev_cost_micros e))
    (ev_workload_kind e) (ev_pricing_unit e) (ev_units_consumed e)
    (wrap_i64 (ev_input_tokens e)) (wrap_i64 (ev_output_tokens e)) (wrap_i64 (ev_latency_ms e))
    (ev_streamed e) (ev_energy e) (ev_created_at_ms e)
    (Some (wrap_i64 (ev_cached_input_tokens e))) (wrap_i64 <$> ev_cache_savings_micros e).

(** The columns read back by [recent_usage]. *)
Definition event_of_row (r : UsageRow) : UsageEvent :=
  mkUsageEvent (rw_request_id r) (rw_provider_id r) (rw_model r) (rw_account_id r) (rw_tenant r)
    (rw_project r) (if rw_cost_known r then Some (wrap64 (rw_cost_micros r)) else None)
    (rw_workload_kind r) (rw_pricing_unit r) (rw_units_consumed r)
    (wrap64 (rw_input_tokens r)) (wrap64 (rw_output_tokens r))
    (wrap64 (default 0 (rw_cached_input_tokens r))) (wrap64 <$> rw_cache_savings_micros r)
    (wrap64 (rw_latency_ms r)) (rw_streamed r) (rw_energy r) (rw_created_at r).

Definition unreachable : string := "database unavailable".
Definition overflow : string := "integer overflow".

(** [INSERT OR IGNORE] under the unique index on [request_id]. *)
Definition record_usage (t : UsageTable) (e : UsageEvent)
  : result UsageWriteOutcome string * UsageTable :=
  if negb (ut_reachable t) then (Err unreachable, t)
  else if existsb (fun r => str_eqb (rw_request_id r) (ev_request_id e)) (ut_rows t)
  then (Ok DuplicateIgnored, t)
  else (Ok Inserted, mkUsageTable (ut_rows t ++ [row_of_event e]) true).

(** [COALESCE(SUM(col), 0)] on an integer column; NULL contributes nothing. *)
Definition sum_i64 (l : list Z) : result Z string :=
  fold_left (fun acc x =>
    let? a := acc in
    if (i64_min <=? a + x) && (a + x <=? i64_max) then Ok (a + x) else Err overflow)
    l (Ok 0).

(** [GROUP BY key ORDER BY key], rows without a key left out. *)
Definition group_by (kf : UsageRow -> option string) (rows : list UsageRow)
  : BTreeMap string (list UsageRow) :=
  fold_left (fun m r => match kf r with
    | Some k => bt_update k [] (fun g => g ++ [r]) m | None => m end) rows [].

(** One fallible row per group. *)
Fixpoint try_map {A B E} (f : A -> result B E) (l : list A) : result (list B) E :=
  match l with
  | [] => Ok []
  | x :: l' => let? y := f x in let? ys := try_map f l' in Ok (y :: ys)
  end.

Definition usage_buckets (kf : UsageRow -> option string) (rows : list UsageRow)
  : result (list (string * Z * Z)) string :=
  try_map (fun g : string * list UsageRow =>
    let? cost := sum_i64 (rw_cost_micros <$> g.2) in
    Ok (g.1, Z.of_nat (length g.2), wrap64 cost)) (group_by kf rows).

Definition savings_buckets (kf : UsageRow -> option string) (rows : list UsageRow)
  : result (list (string * Z)) string :=
  let? buckets := try_map (fun g : string * list UsageRow =>
    let? savings := sum_i64 (omap rw_cache_savings_micros g.2) in
    Ok (g.1, savings)) (group_by kf rows) in
  Ok ((fun b : string * Z => (b.1, wrap64 b.2)) <$> List.filter (fun b : string * Z => 0 <? b.2) buckets).

Definition row_has_energy (r : UsageRow) : bool :=
  match measurement_available (rw_energy r) with Some b => b | None => true end
  && (opt_is_some (energy_joules (rw_energy r)) || opt_is_some (energy_kwh (rw_energy r))
      || opt_is_some (energy_kwh_consumed (rw_energy r))
      || opt_is_some (energy_kwh_charged (rw_energy r))).

(** What the table stores of an event it reads back: an event with
    64-bit signed counters comes back unchanged through the row. *)
Theorem usage_event_roundtrip e :
  storable e -> event_of_row (row_of_event e) = e.
Proof.
  intros H. repeat (apply Forall_cons_1 in H as [? H]).
  assert (Hz : forall z, 0 <= z <= i64_max -> wrap64 (wrap_i64 z) = z).
  { intros z Hz. rewrite wrap_i64_small by (unfold i64_min; lia).
    apply wrap64_small. unfold in_u64, u64_max, i64_max in *. lia. }
  destruct e as [? ? ? ? ? ? cost ? ? ? ? ? ? savings ? ? ? ?]. unfold event_of_row, row_of_event.
  unfold ev_cost in *. simpl in *. rewrite !Hz by done.
  destruct cost as [c|], savings as [sv|]; simpl in *; rewrite ?Hz; done.
Qed.

Section Rollup.
(** [SUM] over the energy columns of some rows. *)
Context (sum_energy : list UsageRow -> EnergySummary).

Definition energy_buckets (kf : UsageRow -> option string) (rows : list UsageRow)
  : list (string * EnergySummary) :=
  (fun g : string * list UsageRow => (g.1, sum_energy g.2))
  <$> group_by kf (List.filter row_has_energy rows).

Definition usage_rollup (t : UsageTable) : result UsageRollup string :=
  let rows := ut_rows t in
  let provider r := Some (rw_provider_id r) in
  let model r := Some (rw_model r) in
  if negb (ut_reachable t) then Err unreachable
  else
    let? cost := sum_i64 (rw_cost_micros <$> rows) in
    let? savings := sum_i64 (omap rw_cache_savings_micros rows) in
    let? by_tenant := usage_buckets rw_tenant rows in
    let? by_provider := usage_buckets provider rows in
    let? by_model := usage_buckets model rows in
    let? savings_by_provider := savings_buckets provider rows in
    let? savings_by_model := savings_buckets model rows in
    let? savings_by_tenant := savings_buckets rw_tenant rows in
    Ok (mkUsageRollup (Z.of_nat (length rows)) (wrap64 cost)
          (Z.of_nat (length (List.filter (fun r => negb (rw_cost_known r)) rows)))
          by_provider by_model by_tenant (wrap64 savings) savings_by_provider savings_by_model
          savings_by_tenant (sum_energy rows) (energy_buckets provider rows)
          (energy_buckets model rows) (energy_buckets rw_tenant rows)).

(** [ORDER BY id DESC LIMIT n]; a negative limit is none. *)
Definition recent_usage (t : UsageTable) (limit : Z) : result (list UsageEvent) string :=
  if negb (ut_reachable t) then Err unreachable
  else
    let rows := rev (ut_rows t) in
    let n := wrap_i64 limit in
    Ok (event_of_row <$> if n <? 0 then rows else take (Z.to_nat n) rows).

#[export] Instance UsageTable_store : UsageStore UsageTable := {
  st_record_usage := record_usage;
  st_usage_rollup := usage_rollup;
  st_recent_usage := recent_usage
}.

(** ** The table keeps the laws *)

Definition table_inv (t : UsageTable) : Prop :=
  Forall (fun r => 0 <= rw_cost_micros r <= i64_max) (ut_rows t).

Lemma sum_i64_app l x :
  sum_i64 (l ++ [x])
  = let? a := sum_i64 l in
    if (i64_min <=? a + x) && (a + x <=? i64_max) then Ok (a + x) else Err overflow.
Proof. unfold sum_i64. by rewrite fold_left_app. Qed.

Lemma sum_i64_ok l s :
  Forall (fun x => 0 <= x <= i64_max) l -> sum_i64 l = Ok s -> 0 <= s <= i64_max.
Proof.
  revert s. induction l as [|x l IH] using rev_ind; intros s Hl.
  - intros [= <-]. unfold i64_max. lia.
  - apply Forall_app in Hl as [Hl Hx]. apply Forall_cons_1 in Hx as [Hx _].
    rewrite sum_i64_app. destruct (sum_i64 l) as [a|m]; simpl; [|done].
    specialize (IH a Hl eq_refl).
    destruct (Z.leb_spec i64_min (a + x)), (Z.leb_spec (a + x) i64_max); simpl; try done.
    intros [= <-]. lia.
Qed.

(** What a successful rollup says of the totals. *)
Lemma usage_rollup_totals t r :
  table_inv t -> usage_rollup t = Ok r ->
  ro_requests r = Z.of_nat (length (ut_rows t))
  /\ sum_i64 (rw_cost_micros <$> ut_rows t) = Ok (ro_total_cost_micros r).
Proof.
  intros Hi. unfold usage_rollup. cbv zeta. destruct (ut_reachable t); simpl; [|done].
  destruct (sum_i64 (rw_cost_micros <$> ut_rows t)) as [cost|] eqn:Ec; simpl; [|done].
  assert (Hc : 0 <= cost <= i64_max).
  { eapply sum_i64_ok; [|exact Ec]. apply Forall_fmap. exact Hi. }
  unfold try. repeat case_match; try done. intros [= <-]. simpl. split; [done|].
  f_equal. symmetry. apply wrap64_small. unfold in_u64, u64_max, i64_max in *. lia.
Qed.

(** The ledger's interface is implemented by the table. *)
#[export] Instance UsageTable_laws : UsageStoreLaws UsageTable.
Proof.
  refine {| store_inv := table_inv |}; simpl; unfold record_usage.
  - intros t e res t' Hi Hb. destruct (ut_reachable t); simpl; [|by intros [= _ <-]].
    destruct (existsb _ _); [by intros [= _ <-]|]. intros [= _ <-].
    apply Forall_app. split; [done|]. apply Forall_singleton. simpl.
    fold (ev_cost e). rewrite wrap_i64_small; [exact Hb|]. unfold billable, i64_min in *. lia.
  - intros t e t' r r' Hi Hb. destruct (ut_reachable t); simpl; [|done].
    destruct (existsb _ _); [done|]. intros [= <-] Hr Hr'.
    destruct (usage_rollup_totals _ _ Hi Hr) as [-> H1].
    destruct (usage_rollup_totals (mkUsageTable (ut_rows t ++ [row_of_event e]) true) r')
      as [-> H2]; [|done|].
    { apply Forall_app. split; [done|]. apply Forall_singleton. simpl. fold (ev_cost e).
      rewrite wrap_i64_small; [exact Hb|]. unfold billable, i64_min in *. lia. }
    simpl in *. rewrite length_app. simpl. split; [lia|].
    rewrite fmap_app in H2. simpl in H2. rewrite sum_i64_app, H1 in H2. simpl in H2.
    fold (ev_cost e) in H2. rewrite wrap_i64_small in H2 by (unfold billable, i64_min in *; lia).
    destruct (_ && _); [|done]. by injection H2.
  - intros t e t'. destruct (ut_reachable t); simpl; [|done].
    destruct (existsb _ _); [by intros [= <-]|done].
  - intros t e t' m. destruct (ut_reachable t); simpl; [|by intros [= _ <-]].
    by destruct (existsb _ _).
  - intros t e t' limit rows. destruct (ut_reachable t); simpl; [|done].
    destruct (existsb _ _); [done|]. intros [= <-] Hl. unfold recent_usage. simpl.
    rewrite wrap_i64_small by (unfold i64_min; lia). rewrite rev_app_distr. simpl.
    rewrite (proj2 (Z.ltb_ge limit 0)) by lia. intros [= <-].
    destruct (Z.to_nat limit) eqn:E; [lia|]. exists (event_of_row (row_of_event e)). split_and!; [done|done|].
    apply usage_event_roundtrip.
  - intros t e t' limit rows. destruct (ut_reachable t) eqn:Hr; simpl; [|done].
    destruct (existsb _ _) eqn:E; [|done]. intros [= <-] Hl. unfold recent_usage. rewrite Hr. simpl.
    intros [= <-]. rewrite wrap_i64_small in * by (unfold i64_min; lia).
    apply existsb_exists in E as (r & Hin & Hid). apply bool_decide_eq_true in Hid.
    exists (event_of_row r). split; [|done].
    destruct (limit <? 0); apply list_elem_of_fmap; exists r; (split; [done|]).
    + by apply list_elem_of_In; rewrite <- in_rev.
    + rewrite take_ge; [by apply list_elem_of_In; rewrite <- in_rev|].
      rewrite length_fmap, length_take in Hl. lia.
Defined.

End Rollup.

Lemma usage_event_roundtrip_witness :
  let e := mkUsageEvent "r" "p" "m" None (Some "t") None (Some 12) None None None 3 4 0 None 9 true
    no_energy 1000 in
  event_of_row (row_of_event e) = e.
Proof. apply usage_event_roundtrip. repeat constructor; by vm_compute. Defined.
