(* ===== verification/LedgerTheorems.v ===== *)
(** * The usage ledger: theorems

    Accounting against the store interface, fail-closed writes, summaries against
    their definition by filtering, health, reconciliation, and the event round
    trip. *)

From Stdlib Require Import ZArith Lia Sorted Permutation.
From stdpp Require Import base list strings gmap sorting.
From S2P Require Import Prelude Text BTree Float Ir Target Catalog Ledger UsageTable.

#[local] Open Scope Z_scope.

(** ** Sums *)

Definition rec_cost (r : UsageRecord) : Z := default 0 (ur_cost_micros r).

Fixpoint total_cost (rs : list UsageRecord) : Z :=
  match rs with [] => 0 | r :: rs' => rec_cost r + total_cost rs' end.

Definition costs_ok (rs : list UsageRecord) : Prop := Forall (fun r => 0 <= rec_cost r) rs.

Lemma total_cost_app a b : total_cost (a ++ b) = total_cost a + total_cost b.
Proof. induction a as [|r a IH]; simpl; lia. Qed.

Lemma total_cost_nonneg rs : costs_ok rs -> 0 <= total_cost rs.
Proof. induction 1; simpl; lia. Qed.

Lemma total_cost_filter_le (p : UsageRecord -> bool) rs :
  costs_ok rs -> 0 <= total_cost (List.filter p rs) <= total_cost rs.
Proof. induction 1 as [|r rs Hr _ IH]; simpl; [lia|]. destruct (p r); simpl; lia. Qed.

Lemma fold_apply_requests rs s : sum_requests (fold_left apply_record rs s) = sum_requests s.
Proof. revert s. induction rs as [|r rs IH]; intros s; simpl; [done|]. by rewrite IH. Qed.

Lemma fold_apply_total rs s :
  costs_ok rs -> sum_total_cost_micros s + total_cost rs <= u64_max ->
  sum_total_cost_micros (fold_left apply_record rs s) = sum_total_cost_micros s + total_cost rs.
Proof.
  intros Hc. revert s. induction Hc as [|r rs Hr Hc IH]; intros s Hb; simpl in *; [lia|].
  pose proof (total_cost_nonneg rs Hc). rewrite IH; simpl; fold (rec_cost r);
    rewrite sat_add_exact; lia.
Qed.

Lemma apply_records_totals s rs :
  costs_ok rs -> 0 <= sum_requests s ->
  sum_requests s + Z.of_nat (length rs) <= u64_max ->
  sum_total_cost_micros s + total_cost rs <= u64_max ->
  sum_requests (apply_records s rs) = sum_requests s + Z.of_nat (length rs)
  /\ sum_total_cost_micros (apply_records s rs) = sum_total_cost_micros s + total_cost rs.
Proof.
  intros Hc H0 Hr Ht. unfold apply_records. rewrite fold_apply_requests, fold_apply_total by done.
  simpl. split; [|done]. apply wrap64_small. unfold in_u64. lia.
Qed.

(** ** Accounting *)

Section Accounting.
Context {S : Type} `{HS : UsageStore S} `{!UsageStoreLaws S}.

(** The store and the records of a ledger with a working store, far from the
    64-bit limits. *)
Definition served (l : UsageLedger S) (s : S) (ro : UsageRollup) : Prop :=
  l_store l = Some s /\ store_inv s /\ st_usage_rollup s = Ok ro
  /\ costs_ok (l_records l) /\ 0 <= ro_requests ro
  /\ ro_requests ro + Z.of_nat (length (l_records l)) < u64_max
  /\ ro_total_cost_micros ro + total_cost (l_records l) <= u64_max.

Lemma served_summary l s ro :
  served l s ro ->
  sum_requests (ledger_summary l).1 = ro_requests ro + Z.of_nat (length (l_records l))
  /\ sum_total_cost_micros (ledger_summary l).1
     = ro_total_cost_micros ro + total_cost (l_records l).
Proof.
  intros (Hs & _ & Hr & Hc & Hz & Hn & Ht). unfold ledger_summary. rewrite Hs, Hr. simpl.
  apply (apply_records_totals (rollup_to_summary ro)); simpl; try done; lia.
Qed.

(** C9 (refinement). Against any store that keeps its laws, a best-effort record
    is counted exactly once in the served summary: in the store if it was
    inserted, in memory if the store failed, and not again if the store already
    had it. *)
Theorem record_counted_once (l : UsageLedger S) r s ro s' ro' :
  billable (record_to_event r) ->
  served l s ro -> served (record_best_effort l r) s' ro' ->
  let added := if bool_decide ((st_record_usage s (record_to_event r)).1
                               = Ok DuplicateIgnored) then 0 else 1 in
  sum_requests (ledger_summary (record_best_effort l r)).1
    = sum_requests (ledger_summary l).1 + added
  /\ sum_total_cost_micros (ledger_summary (record_best_effort l r)).1
    = sum_total_cost_micros (ledger_summary l).1 + added * rec_cost r.
Proof.
  intros Hb Hl Hl'. cbv zeta. destruct (served_summary _ _ _ Hl) as [-> ->].
  destruct (served_summary _ _ _ Hl') as [-> ->].
  destruct Hl as (Hs & Hi & Hr & _), Hl' as (Hs' & _ & Hr' & _). revert Hs' Hr'.
  unfold record_best_effort, record_inner. cbn [append_sink l_store]. rewrite Hs.
  destruct (st_record_usage s (record_to_event r)) as [[[|]|m] s1] eqn:E; cbn [snd fst].
  - intros [= ->] Hr'. destruct (store_insert _ _ _ _ _ Hi Hb E Hr Hr') as [-> ->]. simpl. unfold ev_cost, rec_cost.
    simpl. split; lia.
  - intros [= ->] Hr'. pose proof (store_duplicate _ _ _ E) as Hd. rewrite Hr, Hr' in Hd.
    injection Hd as ->. simpl. split; lia.
  - intros [= ->] Hr'. pose proof (store_failure _ _ _ _ E) as Hd. rewrite Hr, Hr' in Hd.
    injection Hd as ->. simpl. rewrite length_app, total_cost_app. simpl.
    split; lia.
Qed.

(** The store has an event: when all recent rows are read, one of them has its request
    id, and it is the event itself if the store was the first to be given it and its
    columns can hold the counters. *)
Definition has_event (s : S) (o : UsageWriteOutcome) (e : UsageEvent) : Prop :=
  forall limit rows, st_recent_usage s limit = Ok rows ->
  0 < limit <= i64_max -> Z.of_nat (length rows) < limit ->
  exists e', e' ∈ rows /\ ev_request_id e' = ev_request_id e
             /\ (o = Inserted -> storable e -> e' = e).

Lemma recorded_has_event s e o s' : st_record_usage s e = (Ok o, s') -> has_event s' o e.
Proof.
  intros E limit rows Hr Hlim Hlen. destruct o.
  - destruct (store_recent_inserted _ _ _ _ _ E Hlim Hr) as (e' & Hh & Hid & He).
    exists e'. split_and!; [by apply head_Some_elem_of|done|done].
  - destruct (store_recent_duplicate _ _ _ _ _ E (conj Hlen (proj2 Hlim)) Hr) as (e' & Hin & Hid). by exists e'.
Qed.

(** C10 (safety). A required write fails closed: if it returns an error the store's
    rollup and the in-memory records are what they were, and health shows it; if
    it succeeds the ledger goes on with the store as the write left it, that store has
    the event, and nothing is counted as failed. *)
Theorem required_write_fails_closed (l : UsageLedger S) r phase :
  let '(res, l') := record_inner l r (Some phase) in
  l_records l' = l_records l
  /\ match res with
     | Err _ =>
         option_map st_usage_rollup (l_store l') = option_map st_usage_rollup (l_store l)
         /\ h_failed_writes (l_health l') = inc (h_failed_writes (l_health l))
         /\ (0 <= h_failed_writes (l_health l) -> 0 <= h_post_commit_failed_writes (l_health l) ->
             h_status (l_health l') = match phase with
               | PostCommit => "post_commit_failed"
               | PreResponse => if 0 <? h_post_commit_failed_writes (l_health l)
                                then "post_commit_failed" else "degraded" end)
     | Ok _ =>
         exists s s' o, l_store l = Some s
         /\ st_record_usage s (record_to_event r) = (Ok o, s')
         /\ l_store l' = Some s' /\ has_event s' o (record_to_event r)
         /\ h_failed_writes (l_health l') = h_failed_writes (l_health l)
     end.
Proof.
  assert (Hstatus : forall h id m, 0 <= h_failed_writes h -> 0 <= h_post_commit_failed_writes h ->
    h_status (mark_required_failure id m phase h) = match phase with
      | PostCommit => "post_commit_failed"
      | PreResponse => if 0 <? h_post_commit_failed_writes h
                       then "post_commit_failed" else "degraded" end).
  { intros h id m Hf Hp. unfold mark_required_failure, refresh_status, status_of. simpl.
    unfold inc, sat_add. destruct phase; simpl.
    - destruct (0 <? h_post_commit_failed_writes h); [done|].
      destruct (Z.ltb_spec 0 (Z.min u64_max (h_failed_writes h + 1))); [done|unfold u64_max in *; lia].
    - destruct (Z.ltb_spec 0 (Z.min u64_max (h_post_commit_failed_writes h + 1)));
        [done|unfold u64_max in *; lia]. }
  unfold record_inner. cbn [append_sink l_store].
  destruct (l_store l) as [s|] eqn:Es.
  - destruct (st_record_usage s (record_to_event r)) as [[[|]|m] s1] eqn:E; simpl.
    1, 2: split; [done|]; eexists s, s1, _; rewrite E; split_and!; try done; by eapply recorded_has_event.
    split_and!; [done| |done|exact (Hstatus (l_health l) (ur_request_id r) m)]. f_equal. by eapply store_failure.
  - simpl. split_and!; [done|by rewrite ?Es|done|exact (Hstatus (l_health l) (ur_request_id r) not_configured)].
Qed.

End Accounting.

(** ** Breakdowns *)

Definition of_key (kf : UsageRecord -> option string) (k : string) (r : UsageRecord) : bool :=
  bool_decide (kf r = Some k).

Definition bucket_step (kf : UsageRecord -> option string) (m : BTreeMap string (Z * Z))
    (r : UsageRecord) : BTreeMap string (Z * Z) :=
  match kf r with Some k => bump_bucket k (rec_cost r) m | None => m end.

Lemma bucket_step_wf kf m r : bt_wf m -> bt_wf (bucket_step kf m r).
Proof. unfold bucket_step. destruct (kf r); [|done]. apply bt_update_wf. Qed.

Lemma bucket_fold kf rs m k :
  bt_wf m -> costs_ok rs ->
  let b := default (0, 0) (bt_get k m) in
  0 <= b.1 -> b.1 + Z.of_nat (length rs) <= u64_max -> b.2 + total_cost rs <= u64_max ->
  default (0, 0) (bt_get k (fold_left (bucket_step kf) rs m))
  = (b.1 + Z.of_nat (length (List.filter (of_key kf k) rs)),
     b.2 + total_cost (List.filter (of_key kf k) rs)).
Proof.
  intros Hm Hc. cbv zeta. revert m Hm. induction Hc as [|r rs Hr Hc IH]; intros m Hm H0 Hn Ht.
  - simpl. rewrite !Z.add_0_r. by destruct (default _ _).
  - cbn [fold_left]. pose proof (total_cost_nonneg rs Hc). cbn [length total_cost] in *.
    assert (Hstep : default (0, 0) (bt_get k (bucket_step kf m r))
      = let b := default (0, 0) (bt_get k m) in
        if of_key kf k r then (b.1 + 1, b.2 + rec_cost r) else b).
    { cbv zeta. unfold bucket_step, of_key. destruct (kf r) as [k'|]; [|done].
      case_bool_decide as Hk.
      - injection Hk as ->. unfold bump_bucket. rewrite bt_get_update_eq. simpl.
        unfold bump. f_equal.
        + apply wrap64_small. unfold in_u64. change (match bt_get k m with Some v => v | None => (0, 0) end)
            with (default (0, 0) (bt_get k m)). lia.
        + apply sat_add_exact. change (match bt_get k m with Some v => v | None => (0, 0) end)
            with (default (0, 0) (bt_get k m)). lia.
      - unfold bump_bucket. rewrite bt_get_update_ne; [done|done|congruence]. }
    rewrite IH; rewrite ?Hstep; [|by apply bucket_step_wf|..]; cbv zeta;
      cbn [List.filter]; destruct (of_key kf k r); cbn [fst snd length total_cost];
      try lia; f_equal; lia.
Qed.

Lemma fold_apply_by rs s :
  sum_by_model (fold_left apply_record rs s)
    = fold_left (bucket_step (fun r => Some (ur_model r))) rs (sum_by_model s)
  /\ sum_by_provider (fold_left apply_record rs s)
    = fold_left (bucket_step (fun r => Some (ur_provider_id r))) rs (sum_by_provider s)
  /\ sum_by_tenant (fold_left apply_record rs s)
    = fold_left (bucket_step ur_tenant) rs (sum_by_tenant s).
Proof.
  revert s. induction rs as [|r rs IH]; intros s; [done|]. cbn [fold_left].
  destruct (IH (apply_record s r)) as (-> & -> & ->). done.
Qed.

(** The one-pass summary is the summary by definition: its
    totals are the count and the cost of all records, and each model, provider and
    tenant has the count and the cost of its own records. *)
Theorem summary_by_definition rs k :
  costs_ok rs -> Z.of_nat (length rs) <= u64_max -> total_cost rs <= u64_max ->
  let s := apply_records LedgerSummary_default rs in
  let bucket m := default (0, 0) (bt_get k m) in
  let spec (p : UsageRecord -> bool) :=
    (Z.of_nat (length (List.filter p rs)), total_cost (List.filter p rs)) in
  sum_requests s = Z.of_nat (length rs) /\ sum_total_cost_micros s = total_cost rs
  /\ bucket (sum_by_model s) = spec (fun r => str_eqb (ur_model r) k)
  /\ bucket (sum_by_provider s) = spec (fun r => str_eqb (ur_provider_id r) k)
  /\ bucket (sum_by_tenant s) = spec (in_scope (Some k)).
Proof.
  intros Hc Hn Ht. cbv zeta.
  destruct (apply_records_totals LedgerSummary_default rs) as [H1 H2]; simpl; try done; try lia.
  split_and!; [exact H1|exact H2|..]; unfold apply_records;
    destruct (fold_apply_by rs (add_requests (Z.of_nat (length rs)) LedgerSummary_default))
      as (Hm & Hp & Htn);
    rewrite ?Hm, ?Hp, ?Htn; (rewrite bucket_fold; [|constructor|done|simpl; lia..]); simpl;
    (assert (Hext : forall p q : UsageRecord -> bool, (forall r, p r = q r) ->
       List.filter p rs = List.filter q rs) by (intros p q Hpq; by apply List.filter_ext)).
  - rewrite (Hext _ (fun r => str_eqb (ur_model r) k)); [done|]. intros r. unfold of_key.
    apply eq_true_iff_eq. rewrite bool_decide_eq_true, str_eqb_eq. naive_solver.
  - rewrite (Hext _ (fun r => str_eqb (ur_provider_id r) k)); [done|]. intros r. unfold of_key.
    apply eq_true_iff_eq. rewrite bool_decide_eq_true, str_eqb_eq. naive_solver.
  - by rewrite (Hext _ (in_scope (Some k))).
Qed.

(** ** Reconciliation *)

Lemma totals_from_records_spec rs tenant :
  costs_ok rs -> Z.of_nat (length rs) <= u64_max -> total_cost rs <= u64_max ->
  totals_from_records rs tenant
  = mkTotals (Z.of_nat (length (List.filter (in_scope tenant) rs)))
      (total_cost (List.filter (in_scope tenant) rs)).
Proof.
  intros Hc Hn Ht. unfold totals_from_records.
  assert (Hgen : forall rs t, costs_ok rs -> 0 <= tot_requests t ->
    tot_requests t + Z.of_nat (length rs) <= u64_max ->
    tot_cost_micros t + total_cost rs <= u64_max ->
    fold_left (fun t r => if in_scope tenant r
      then mkTotals (inc (tot_requests t))
             (sat_add u64_max (tot_cost_micros t) (default 0 (ur_cost_micros r))) else t) rs t
    = mkTotals (tot_requests t + Z.of_nat (length (List.filter (in_scope tenant) rs)))
        (tot_cost_micros t + total_cost (List.filter (in_scope tenant) rs))).
  { clear. intros rs t Hc. revert t. induction Hc as [|r rs Hr Hc IH]; intros t H0 Hn Ht.
    - simpl. destruct t. simpl. f_equal; lia.
    - cbn [fold_left List.filter length total_cost] in *.
      pose proof (total_cost_nonneg rs Hc). destruct (in_scope tenant r).
      + fold (rec_cost r). unfold inc. rewrite !sat_add_exact by lia.
        rewrite IH; cbn [tot_requests tot_cost_micros length total_cost]; try lia. f_equal; lia.
      + apply IH; lia. }
  rewrite Hgen; simpl; try done; lia.
Qed.

(** With a working store and numbers below 63 bits, the
    reconciliation never finds an unexplained difference, because the ledger side
    it compares is the durable total plus the memory fallback; its status is then
    decided by the fallback records and the health counters alone. *)
Theorem reconcile_never_unexplained {S} `{UsageStore S} (l : UsageLedger S) s ro tenant :
  l_store l = Some s -> st_usage_rollup s = Ok ro ->
  costs_ok (l_records l) ->
  let durable := totals_from_summary (rollup_to_summary ro) tenant in
  0 <= tot_requests durable -> 0 <= tot_cost_micros durable ->
  tot_requests durable + Z.of_nat (length (l_records l)) <= i64_max ->
  tot_cost_micros durable + total_cost (l_records l) <= i64_max ->
  let report := (reconcile l tenant).1 in
  rep_unexplained_requests report = 0 /\ rep_unexplained_cost report = 0
  /\ rep_status report =
     (if 0 <? h_post_commit_failed_writes (l_health l) then "inconsistent"
      else if (0 <? Z.of_nat (length (List.filter (in_scope tenant) (l_records l))))
              || (0 <? h_failed_writes (l_health l)) || (0 <? h_rollup_failures (l_health l))
      then "degraded" else "ok").
Proof.
  intros Hs Hr Hc. cbv zeta. intros H1 H2 H3 H4.
  pose proof (total_cost_nonneg _ Hc) as Hpos.
  pose proof (total_cost_filter_le (in_scope tenant) _ Hc) as Hf.
  pose proof (List.filter_length_le (in_scope tenant) (l_records l)) as Hfl.
  unfold reconcile. rewrite Hs, Hr. cbn [opt_is_some negb andb fst snd].
  rewrite totals_from_records_spec; [|done|unfold i64_max, u64_max in *; lia..].
  cbn [tot_requests tot_cost_micros].
  set (n := Z.of_nat (length (List.filter (in_scope tenant) (l_records l)))) in *.
  set (c := total_cost (List.filter (in_scope tenant) (l_records l))) in *.
  set (d := totals_from_summary _ _) in *.
  assert (Hn : 0 <= n <= Z.of_nat (length (l_records l))) by lia.
  assert (Hsat : forall a b, 0 <= a + b <= i64_max -> sat_add u64_max a b = a + b).
  { intros a b Hab. apply sat_add_exact. unfold i64_max, u64_max in *. lia. }
  rewrite !Hsat by lia.
  assert (Hz : forall a b, 0 <= a -> 0 <= b -> a + b <= i64_max ->
    wrap_i64 (wrap_i64 (wrap_i64 (wrap_i64 (a + b) - wrap_i64 a)) - wrap_i64 b) = 0).
  { intros a b Ha Hb Hab. rewrite !(wrap_i64_small a), !(wrap_i64_small b),
      (wrap_i64_small (a + b)) by (unfold i64_min; lia).
    replace (a + b - a) with b by lia. rewrite !(wrap_i64_small b) by (unfold i64_min; lia).
    by rewrite Z.sub_diag. }
  cbn [rep_unexplained_requests rep_unexplained_cost rep_status].
  rewrite !Hz by lia. split_and!; [done|done|]. by rewrite orb_false_r.
Qed.

(** ** Events *)

Lemma parse_workload_kind_name k : parse_workload_kind (workload_kind_name k) = Some k.
Proof. by destruct k. Qed.

Lemma parse_pricing_unit_name u : parse_pricing_unit (pricing_unit_name u) = Some u.
Proof. by destruct u. Qed.

(** What survives the trip through the store. *)
Definition forget (r : UsageRecord) : UsageRecord :=
  mkUsageRecord (ur_request_id r) 1 None (ur_provider_id r) (ur_model r) (ur_account_id r)
    (ur_timestamp_unix r)
    (mkUsage (input_tokens (ur_usage r)) (output_tokens (ur_usage r))
       (cached_input_tokens (ur_usage r)) 0 None)
    (ur_cost_micros r) (ur_cache_savings_micros r) (ur_latency_ms r) (ur_streamed r)
    (ur_workload_kind r) (ur_pricing_unit r) (ur_units_consumed r) (ur_tenant r) (ur_project r).

(** A record read back from the store is the record without its
    reasoning tokens, its energy measurement and its tenant and owner ids;
    everything else comes back, workload kind and pricing unit included. *)
Theorem record_event_roundtrip r :
  0 <= ur_timestamp_unix r <= i64_max / 1000 ->
  event_to_record (record_to_event r) = forget r.
Proof.
  intros Ht. unfold event_to_record, record_to_event, forget. simpl.
  assert (Hts : wrap64 (Z.max (i64_sat_mul (wrap_i64 (ur_timestamp_unix r)) 1000) 0) / 1000
    = ur_timestamp_unix r).
  { assert (Hle : ur_timestamp_unix r * 1000 <= i64_max).
    { pose proof (Z.mul_div_le i64_max 1000). unfold i64_max in *. lia. }
    rewrite wrap_i64_small by (unfold i64_min; lia).
    assert (i64_sat_mul (ur_timestamp_unix r) 1000 = ur_timestamp_unix r * 1000) as ->
      by (unfold i64_sat_mul, i64_clamp, i64_min; lia). rewrite Z.max_l by lia.
    rewrite wrap64_small by (unfold in_u64, u64_max, i64_max in *; lia).
    apply Z.div_mul. lia. }
  rewrite Hts. f_equal.
  - destruct (ur_workload_kind r) as [k|]; [|done]. simpl. apply parse_workload_kind_name.
  - destruct (ur_pricing_unit r) as [u|]; [|done]. simpl. apply parse_pricing_unit_name.
Qed.

(** ** Recent rows *)

Lemma retain_first_spec seen l :
  (forall r, r ∈ retain_first seen l -> r ∈ l /\ ur_request_id r ∉ seen)
  /\ NoDup (ur_request_id <$> retain_first seen l).
Proof.
  revert seen. induction l as [|r l IH]; intros seen; simpl.
  { split; [by intros r ?%not_elem_of_nil|constructor]. }
  destruct (decide (ur_request_id r ∈ seen)) as [Hin|Hin].
  - destruct (IH seen) as [H1 H2]. split; [|done]. intros r' Hr'. destruct (H1 r' Hr').
    split; [by right|done].
  - destruct (IH ({[ur_request_id r]} ∪ seen)) as [H1 H2]. split.
    + intros r' [->|Hr']%elem_of_cons; [split; [by left|done]|].
      destruct (H1 r' Hr') as [? Hn]. split; [by right|set_solver].
    + simpl. constructor; [|done]. intros Hr. apply list_elem_of_fmap in Hr as (r' & Heq & Hr').
      destruct (H1 r' Hr') as [_ Hn]. rewrite <- Heq in Hn. set_solver.
Qed.

Lemma retain_first_sublist seen l : retain_first seen l `sublist_of` l.
Proof.
  revert seen. induction l as [|r l IH]; intros seen; simpl; [done|].
  destruct (decide _); [by apply sublist_cons|by apply sublist_skip].
Qed.

Lemma sorted_sublist {A} (R : A -> A -> Prop) l l' :
  l `sublist_of` l' -> StronglySorted R l' -> StronglySorted R l.
Proof.
  induction 1 as [|x l l' Hl IH|x l l' Hl IH]; intros Hs; [constructor|..];
    inversion Hs as [|?? Hs' Hx]; subst; [|auto].
  constructor; [auto|]. rewrite Forall_forall in *. intros y Hy. apply Hx.
  eapply elem_of_submseteq; [exact Hy|by apply sublist_submseteq].
Qed.

#[local] Instance recent_preorder : TotalPreorder recent_cmp.
Proof.
  exact (rev_preorder _ (TotalPreorder0 := on_preorder
    (fun r => (ur_timestamp_unix r, ur_request_id r)) (lex_cmp Z.compare String.compare))).
Qed.

(** The recent rows are at most the requested number, newest
    first, and no request appears twice even when it is both in memory and in the
    store. *)
Theorem recent_rows {S} `{UsageStore S} (l : UsageLedger S) limit :
  0 <= limit ->
  Z.of_nat (length (recent l limit)) <= limit
  /\ NoDup (ur_request_id <$> recent l limit)
  /\ StronglySorted (fun a b => ur_timestamp_unix b <= ur_timestamp_unix a) (recent l limit).
Proof.
  intros Hlim. unfold recent. set (rows := _ ++ _).
  pose proof (retain_first_spec ∅ (sort_by recent_cmp rows)) as [_ Hnd].
  pose proof (retain_first_sublist ∅ (sort_by recent_cmp rows)) as Hsub.
  set (l' := retain_first _ _) in *. split_and!.
  - rewrite length_take. lia.
  - rewrite <- (take_drop (Z.to_nat limit) l'), fmap_app in Hnd. by apply NoDup_app in Hnd as [? _].
  - assert (Hs : StronglySorted (cmp_le recent_cmp) (take (Z.to_nat limit) l')).
    { eapply sorted_sublist; [|apply (sort_by_sorted recent_cmp rows)].
      etransitivity; [apply sublist_take|exact Hsub]. }
    induction Hs as [|a l0 _ IH Ha]; constructor; [done|].
    eapply Forall_impl; [exact Ha|]. intros b Hb. unfold cmp_le, recent_cmp in Hb. simpl in *.
    destruct (Z.compare_spec (ur_timestamp_unix b) (ur_timestamp_unix a)); lia || done.
Qed.

(** ** Prices *)

Lemma div_add_le a b d : 0 < d -> 0 <= a -> 0 <= b -> a / d + b / d <= (a + b) / d.
Proof.
  intros Hd Ha Hb. apply Z.div_le_lower_bound; [done|].
  pose proof (Z.mul_div_le a d). pose proof (Z.mul_div_le b d). lia.
Qed.

(** The savings attributed to cached tokens and what those tokens did
    cost never exceed what they would have cost at the input rate: no saving is
    invented by rounding. *)
Theorem savings_bounded c mid u pin pc :
  price_per_mtok c mid Input = Some pin -> price_per_mtok c mid CachedInput = Some pc ->
  0 <= pc <= pin -> 0 <= cached_input_tokens u -> pin * cached_input_tokens u <= u64_max ->
  0 <= compute_cache_savings_micros c mid u
  /\ compute_cache_savings_micros c mid u + cost_of c mid CachedInput (cached_input_tokens u)
     <= cost_of c mid Input (cached_input_tokens u).
Proof.
  intros Hi Hc Hp Hn Hb. unfold compute_cache_savings_micros, cost_of. rewrite Hi, Hc.
  set (n := cached_input_tokens u) in *.
  assert (Hpc : pc * n <= pin * n) by nia.
  assert (Hexact : forall p, 0 <= p <= pin -> sat_mul u64_max p n = p * n).
  { intros p Hpp. unfold sat_mul. apply Z.min_r. nia. }
  rewrite (Hexact pc), (Hexact pin) by lia.
  destruct (Z.eqb_spec n 0) as [->|Hn0]; [rewrite !Z.mul_0_r; split; by vm_compute|].
  assert (Hmono : pc * n / 1000000 <= pin * n / 1000000) by (apply Z.div_le_mono; lia).
  destruct (Z.ltb_spec pc pin); [|split; lia].
  unfold sat_sub. rewrite Z.max_r, Hexact by lia. split; [apply Z.div_pos; nia|].
  etransitivity; [apply div_add_le; nia|]. apply Z.div_le_mono; lia.
Qed.

(** ** Health *)

(** Every step refreshes the status. *)
Definition health_ok (h : UsageDurabilityHealth) : Prop :=
  h_status h = status_of (h_store_configured h) (h_failed_writes h)
    (h_post_commit_failed_writes h) (h_rollup_failures h)
  /\ Forall in_u64 [h_persisted_writes h; h_duplicate_ignored_writes h; h_memory_writes h;
       h_failed_writes h; h_post_commit_failed_writes h; h_rollup_failures h].

Inductive LedgerOp :=
| OpRecord (r : UsageRecord) (phase : option RequiredUsagePhase)
| OpSummary
| OpReconcile (tenant : option string).

Definition ledger_exec {S} `{UsageStore S} (l : UsageLedger S) (o : LedgerOp) : UsageLedger S :=
  match o with
  | OpRecord r phase => (record_inner l r phase).2
  | OpSummary => (ledger_summary l).2
  | OpReconcile tenant => (reconcile l tenant).2
  end.

Lemma inc_range n : in_u64 n -> in_u64 (inc n) /\ n <= inc n.
Proof. unfold in_u64, inc, sat_add, u64_max. lia. Qed.

Ltac health_marks :=
  intros [Hs Hf]; rewrite !Forall_cons in Hf; destruct Hf as (? & ? & ? & ? & ? & ? & _);
  split; [done|]; rewrite !Forall_cons; simpl;
  split_and!; first [done|by apply inc_range|by apply Forall_nil].

Lemma mark_persisted_ok id h : health_ok h -> health_ok (mark_persisted id h).
Proof. health_marks. Qed.
Lemma mark_duplicate_ok id h : health_ok h -> health_ok (mark_duplicate_ignored id h).
Proof. health_marks. Qed.
Lemma mark_best_effort_ok id e h : health_ok h -> health_ok (mark_best_effort_failure id e h).
Proof. health_marks. Qed.
Lemma mark_required_ok id e ph h : health_ok h -> health_ok (mark_required_failure id e ph h).
Proof. destruct ph; health_marks. Qed.
Lemma mark_memory_ok o id h : health_ok h -> health_ok (mark_memory_write o id h).
Proof. health_marks. Qed.
Lemma mark_rollup_ok e h : health_ok h -> health_ok (mark_rollup_failure e h).
Proof. health_marks. Qed.
Lemma mark_configured_ok h : health_ok h -> health_ok (mark_store_configured h).
Proof. health_marks. Qed.

#[local] Hint Resolve mark_persisted_ok mark_duplicate_ok mark_best_effort_ok mark_required_ok
  mark_memory_ok mark_rollup_ok mark_configured_ok : switchback.

Lemma ledger_exec_health {S} `{UsageStore S} (l : UsageLedger S) o :
  health_ok (l_health l) -> health_ok (l_health (ledger_exec l o)).
Proof.
  intros H0. destruct o as [r phase| |tenant]; simpl.
  - unfold record_inner. cbn [append_sink l_store].
    destruct (l_store l) as [s|]; [destruct (st_record_usage _ _) as [[[|]|m] s']|];
      try destruct phase; simpl; auto 6 with switchback.
  - unfold ledger_summary. repeat case_match; simpl; auto with switchback.
  - unfold reconcile. destruct (l_store l) as [s|]; [destruct (st_usage_rollup s)|]; simpl;
      auto with switchback.
Qed.

(** Whatever is recorded, summarised or reconciled, and however
    the store fails, the reported status is the one the counters imply, and the
    counters stay in range. *)
Theorem ledger_health_invariant {S} `{UsageStore S} (s : S) ops :
  health_ok (l_health (fold_left ledger_exec ops (with_store in_memory s))).
Proof.
  assert (Hinit : health_ok (l_health (with_store in_memory s))).
  { assert (Hnew : health_ok Health_new).
    { split; [done|]. rewrite !Forall_cons. split_and!; first [by apply Forall_nil|by vm_compute]. }
    unfold with_store. destruct (st_usage_rollup s); simpl; auto with switchback. }
  revert Hinit. generalize (with_store in_memory s). induction ops as [|o ops IH]; intros l Hl;
    simpl; [done|]. by apply IH, ledger_exec_health.
Qed.

(** ** A concrete ledger *)

Module LedgerSamples.

Definition energy0 (rows : list UsageRow) : EnergySummary := EnergySummary_default.

#[export] Instance sample_store : UsageStore UsageTable := UsageTable_store energy0.
#[export] Instance sample_laws : UsageStoreLaws UsageTable := UsageTable_laws energy0.

Definition usage : Usage := mkUsage 100 50 20 7 None.
Definition rec (id : string) (cost : Z) : UsageRecord :=
  mkUsageRecord id 1 None "p" "m" None 1000 usage (Some cost) None 5 false None None None
    (Some "t") None.

Definition ledger : UsageLedger UsageTable :=
  with_store in_memory (mkUsageTable [] true).
Definition ledger1 : UsageLedger UsageTable := record_best_effort ledger (rec "a" 12).
Definition ledger_down : UsageLedger UsageTable :=
  record_best_effort (set_store (mkUsageTable [] false) ledger) (rec "b" 3).

Lemma record_counted_once_witness :
  sum_requests (ledger_summary (record_best_effort ledger1 (rec "a" 12))).1
    = sum_requests (ledger_summary ledger1).1 + 0
  /\ sum_requests (ledger_summary ledger1).1 = 1.
Proof.
  split; [|by vm_compute].
  destruct (st_usage_rollup (mkUsageTable [row_of_event (record_to_event (rec "a" 12))] true))
    as [ro|] eqn:Ero; [|by vm_compute in Ero].
  assert (Hreq : ro_requests ro = 1 /\ ro_total_cost_micros ro = 12)
    by (vm_compute in Ero; by injection Ero as <-).
  assert (Hinv : table_inv (mkUsageTable [row_of_event (record_to_event (rec "a" 12))] true)).
  { apply Forall_cons. split; [by vm_compute|by apply Forall_nil]. }
  assert (Hserved : served ledger1 (mkUsageTable [row_of_event (record_to_event (rec "a" 12))] true) ro).
  { split_and!; [by vm_compute|exact Hinv|exact Ero|exact (List.Forall_nil _)|lia|..];
      destruct Hreq as [Hq1 Hq2]; rewrite ?Hq1, ?Hq2; by vm_compute. }
  destruct (record_counted_once ledger1 (rec "a" 12)
    (mkUsageTable [row_of_event (record_to_event (rec "a" 12))] true) ro
    (mkUsageTable [row_of_event (record_to_event (rec "a" 12))] true) ro) as [Hsum _];
    [by vm_compute|exact Hserved| |rewrite Hsum; f_equal; by vm_compute].
  split_and!; [by vm_compute|exact Hinv|exact Ero|exact (List.Forall_nil _)|lia|..];
    destruct Hreq as [Hq1 Hq2]; rewrite ?Hq1, ?Hq2; by vm_compute.
Defined.

Lemma summary_by_definition_witness :
  let rs := [rec "a" 12; rec "b" 3] in
  sum_total_cost_micros (apply_records LedgerSummary_default rs) = 15.
Proof.
  etransitivity; [apply (summary_by_definition [rec "a" 12; rec "b" 3] "m")|by vm_compute];
    [apply Forall_cons; split; [by vm_compute|]; apply Forall_cons; split;
       [by vm_compute|by apply Forall_nil]|by vm_compute|by vm_compute].
Defined.

Lemma reconcile_never_unexplained_witness :
  exists ro, st_usage_rollup (mkUsageTable [] true) = Ok ro
  /\ rep_unexplained_requests (reconcile ledger None).1 = 0.
Proof.
  destruct (st_usage_rollup (mkUsageTable [] true)) as [ro|] eqn:Ero; [|by vm_compute in Ero].
  exists ro. split; [reflexivity|].
  assert (Hro : ro_requests ro = 0 /\ ro_total_cost_micros ro = 0)
    by (vm_compute in Ero; by injection Ero as <-).
  apply (reconcile_never_unexplained ledger (mkUsageTable [] true) ro None);
    [by vm_compute|exact Ero|exact (List.Forall_nil _)|..]; simpl; destruct Hro as [Hq1 Hq2]; rewrite ?Hq1, ?Hq2; by vm_compute.
Defined.

Lemma record_event_roundtrip_witness :
  event_to_record (record_to_event (rec "a" 12)) = forget (rec "a" 12)
  /\ reasoning_tokens (ur_usage (rec "a" 12)) = 7.
Proof. split; [apply record_event_roundtrip; by vm_compute|done]. Defined.

Lemma recent_rows_witness :
  Z.of_nat (length (recent ledger1 10)) <= 10 /\ length (recent ledger1 10) = 1%nat.
Proof. split; [apply recent_rows; lia|by vm_compute]. Defined.

Definition prices : Catalog :=
  mkCatalog [] [] [] []
    [mkPrice 1 "m" Input 3000000 "2026" None; mkPrice 1 "m" CachedInput 300000 "2026" None].

Lemma savings_bounded_witness :
  compute_cache_savings_micros prices "m" usage + cost_of prices "m" CachedInput 20
    <= cost_of prices "m" Input 20
  /\ compute_cache_savings_micros prices "m" usage = 54.
Proof.
  split; [|by vm_compute].
  apply (savings_bounded prices "m" usage 3000000 300000); by vm_compute.
Defined.

End LedgerSamples.
