(* ===== verification/Time.v ===== *)
(** * Instants and durations

    [std::time] as the sources use it: an [Instant] or a [Duration] is a number of
    nanoseconds, and adding a duration to an instant is exact (the standard
    library panics if the platform's clock type overflows, after centuries). *)

From Stdlib Require Import ZArith Lia.
From stdpp Require Import base.
From S2P Require Import Prelude.

#[local] Open Scope Z_scope.

Definition Instant := Z.
Definition Duration := Z.
Definition from_millis (ms : Z) : Duration := ms * 1000000.
Definition from_secs (s : Z) : Duration := s * 1000000000.
Definition as_millis (d : Duration) : Z := d / 1000000.
Definition as_secs (d : Duration) : Z := d / 1000000000.

(** [a.saturating_duration_since(b)]. *)
Definition saturating_duration_since (a b : Instant) : Duration := Z.max 0 (a - b).
(** [a.checked_duration_since(b)]. *)
Definition checked_duration_since (a b : Instant) : option Duration :=
  if b <=? a then Some (a - b) else None.
(** [a.checked_sub(d)]; [floor] is the earliest instant the platform's clock type
    represents. *)
Definition checked_sub (floor a : Instant) (d : Duration) : option Instant :=
  if floor <=? a - d then Some (a - d) else None.
