(* ===== verification/Breaker.v ===== *)
(** * The provider circuit breaker

    [crates/sb-credentials/src/breaker.rs]. The state of every provider lives in
    one map behind a mutex; each method is one atomic step on it, and a run is any
    interleaving of such steps. *)

From Stdlib Require Import ZArith Lia.
From stdpp Require Import base list strings gmap.
From S2P Require Import Prelude Time Config.

#[local] Open Scope Z_scope.

Module Breaker.

(** ** State and operations *)

Record State := mkState {
  failures : Z;
  opened_until : option Instant;
  half_open : bool
}.

Definition State_default : State := mkState 0 None false.

Record CircuitBreaker := mkCircuitBreaker {
  enabled : bool;
  threshold : Z;
  open_for : Duration;
  states : gmap string State
}.

Inductive CircuitState := Closed | Open | HalfOpen.

Record CircuitView := mkCircuitView {
  view_state : CircuitState;
  consecutive_failures : Z;
  open_remaining_ms : option Z
}.

Definition view_closed (n : Z) : CircuitView := mkCircuitView Closed n None.

Definition new (cfg : BreakerConfig) : CircuitBreaker :=
  mkCircuitBreaker (breaker_enabled cfg) (Z.max (breaker_failure_threshold cfg) 1)
    (from_secs (breaker_open_secs cfg)) ∅.

(** [entry(provider).or_default()]. *)
Definition state_of (b : CircuitBreaker) (provider : string) : State :=
  default State_default (states b !! provider).

Definition set_state (b : CircuitBreaker) (provider : string) (s : State) : CircuitBreaker :=
  mkCircuitBreaker (enabled b) (threshold b) (open_for b) (<[provider := s]> (states b)).

Definition allows (b : CircuitBreaker) (provider : string) (now : Instant)
  : bool * CircuitBreaker :=
  if negb (enabled b) then (true, b)
  else
    let s := state_of b provider in
    match opened_until s with
    | Some until =>
        if now <? until then (false, set_state b provider s)
        else (true, set_state b provider (mkState (failures s) None true))
    | None => (true, set_state b provider s)
    end.

Definition view (b : CircuitBreaker) (provider : string) (now : Instant) : CircuitView :=
  if negb (enabled b) then view_closed 0
  else match states b !! provider with
  | None => view_closed 0
  | Some s =>
      match opened_until s with
      | Some until =>
          if now <? until
          then mkCircuitView Open 0 (Some (wrap64 (as_millis (until - now))))
          else mkCircuitView HalfOpen 0 None
      | None => if half_open s then mkCircuitView HalfOpen 0 None else view_closed (failures s)
      end
  end.

(** The new state of the provider after an outcome. *)
Definition record_state (b : CircuitBreaker) (s : State) (ok : bool) (now : Instant) : State :=
  if ok then mkState 0 None false
  else if half_open s then mkState 0 (Some (now + open_for b)) false
  else
    let failures := failures s + 1 in
    if threshold b <=? failures then mkState 0 (Some (now + open_for b)) (half_open s)
    else mkState failures (opened_until s) (half_open s).

Definition record (b : CircuitBreaker) (provider : string) (ok : bool) (now : Instant)
  : CircuitBreaker :=
  if negb (enabled b) then b
  else set_state b provider (record_state b (state_of b provider) ok now).

(** ** Runs *)

Inductive Op :=
| Allows (provider : string) (now : Instant)
| Record_ (provider : string) (ok : bool) (now : Instant).

Definition op_provider (o : Op) : string :=
  match o with Allows p _ => p | Record_ p _ _ => p end.

Definition op_time (o : Op) : Instant :=
  match o with Allows _ t => t | Record_ _ _ t => t end.

Definition exec (b : CircuitBreaker) (o : Op) : CircuitBreaker :=
  match o with
  | Allows p now => (allows b p now).2
  | Record_ p ok now => record b p ok now
  end.

Definition run (b : CircuitBreaker) (os : list Op) : CircuitBreaker := fold_left exec os b.

(** The steps of a breaker, interleaved in any order by the mutex. *)
Inductive reachable (cfg : BreakerConfig) : CircuitBreaker -> Prop :=
| reach_new : reachable cfg (new cfg)
| reach_step b o : reachable cfg b -> reachable cfg (exec b o).

Lemma run_app b os os' : run b (os ++ os') = run (run b os) os'.
Proof. apply fold_left_app. Qed.

(** The configuration never changes. *)
Lemma exec_config b o :
  enabled (exec b o) = enabled b /\ threshold (exec b o) = threshold b
  /\ open_for (exec b o) = open_for b.
Proof.
  destruct o as [p now|p ok now]; simpl; unfold allows, record; destruct (enabled b) eqn:E;
    simpl; try done; rewrite ?E; try done.
  destruct (opened_until _); simpl; [destruct (now <? _)|]; simpl; by rewrite E.
Qed.

Lemma run_config b os :
  enabled (run b os) = enabled b /\ threshold (run b os) = threshold b
  /\ open_for (run b os) = open_for b.
Proof.
  unfold run. revert b. induction os as [|o os IH]; intros b; simpl; [done|].
  destruct (IH (exec b o)) as (-> & -> & ->). apply exec_config.
Qed.

Lemma state_of_set b p s : state_of (set_state b p s) p = s.
Proof. unfold state_of, set_state. simpl. by rewrite lookup_insert_eq. Qed.

Lemma state_of_set_ne b p q s : p <> q -> state_of (set_state b p s) q = state_of b q.
Proof. intros H. unfold state_of, set_state. simpl. by rewrite lookup_insert_ne. Qed.

(** The step of one provider's state. *)
Definition exec_state (b : CircuitBreaker) (s : State) (o : Op) : State :=
  match o with
  | Allows _ now =>
      match opened_until s with
      | Some until => if now <? until then s else mkState (failures s) None true
      | None => s
      end
  | Record_ _ ok now => record_state b s ok now
  end.

Lemma state_of_exec b o :
  enabled b = true -> state_of (exec b o) (op_provider o) = exec_state b (state_of b (op_provider o)) o.
Proof.
  intros E. destruct o as [p now|p ok now]; simpl; unfold allows, record; rewrite E; simpl.
  - destruct (opened_until _) as [u|]; [destruct (now <? u)|]; simpl; apply state_of_set.
  - apply state_of_set.
Qed.

(** Operations on one provider do not touch another. *)
Lemma state_of_exec_ne b o q :
  op_provider o <> q -> state_of (exec b o) q = state_of b q.
Proof.
  intros Hq. destruct o as [p now|p ok now]; simpl in *; unfold allows, record;
    destruct (enabled b); simpl; try done; [|by apply state_of_set_ne].
  destruct (opened_until _) as [u|]; [destruct (now <? u)|]; simpl; by apply state_of_set_ne.
Qed.

(** What a provider's later [allows] answers. *)
Definition admits (s : State) (now : Instant) : bool :=
  match opened_until s with Some until => negb (now <? until) | None => true end.

Lemma allows_admits b p now :
  (allows b p now).1 = negb (enabled b) || admits (state_of b p) now.
Proof.
  unfold allows, admits. destruct (enabled b); simpl; [|done].
  destruct (opened_until _) as [u|]; [destruct (now <? u)|]; done.
Qed.

(** ** Invariant *)

Definition wf_state (thr : Z) (s : State) : Prop :=
  0 <= failures s < thr /\ (opened_until s <> None -> half_open s = false).

Lemma exec_state_wf b s o :
  1 <= threshold b -> wf_state (threshold b) s -> wf_state (threshold b) (exec_state b s o).
Proof.
  unfold wf_state. intros Ht [Hf Ho]. destruct o as [p now|p ok now]; simpl.
  - destruct (opened_until s) as [u|] eqn:E; [|by rewrite E].
    destruct (now <? u); simpl; [by rewrite E|done].
  - unfold record_state. destruct ok; simpl; [split; [lia|done]|].
    destruct (half_open s); simpl; [split; [lia|done]|].
    destruct (Z.leb_spec (threshold b) (failures s + 1)); simpl; split; (lia || done).
Qed.

Lemma reachable_config cfg b :
  reachable cfg b ->
  enabled b = breaker_enabled cfg /\ threshold b = Z.max (breaker_failure_threshold cfg) 1
  /\ open_for b = from_secs (breaker_open_secs cfg).
Proof.
  induction 1 as [|b o _ IH]; [done|]. by destruct (exec_config b o) as (-> & -> & ->).
Qed.

Lemma reachable_wf cfg b p : reachable cfg b -> wf_state (threshold b) (state_of b p).
Proof.
  intros Hb. induction Hb as [|b o Hb IH].
  - unfold new, state_of. simpl. rewrite lookup_empty. split; simpl; [lia|done].
  - destruct (exec_config b o) as (_ & Hthr & _). rewrite Hthr.
    destruct (reachable_config cfg b Hb) as (He & Ht & _).
    destruct (decide (op_provider o = p)) as [<-|Hne]; [|by rewrite state_of_exec_ne].
    destruct (enabled b) eqn:E.
    + rewrite state_of_exec by done. apply exec_state_wf; [lia|done].
    + destruct o; simpl in *; unfold allows, record; by rewrite E.
Qed.

(** However the calls interleave, a provider's failure count
    stays below the threshold, so it fits its 32 bits, and a provider is never
    open and half-open at once. *)
Theorem breaker_invariant cfg b p :
  in_u32 (breaker_failure_threshold cfg) -> reachable cfg b ->
  0 <= failures (state_of b p) < threshold b /\ in_u32 (failures (state_of b p) + 1)
  /\ (opened_until (state_of b p) <> None -> half_open (state_of b p) = false).
Proof.
  intros Hu Hb. destruct (reachable_wf cfg b p Hb) as [Hf Ho].
  destruct (reachable_config cfg b Hb) as (_ & Ht & _).
  split_and!; [lia|lia| |done]. unfold in_u32, u32_max in *. lia.
Qed.

(** ** Tripping *)

Definition failures_at (p : string) (ts : list Instant) : list Op := Record_ p false <$> ts.

(** A closed circuit with [k] failures stays closed and counts
    while failures arrive, and opens with the failure that reaches the threshold,
    for the cooldown counted from that failure. *)
Theorem breaker_trips b p ts last :
  enabled b = true ->
  opened_until (state_of b p) = None -> half_open (state_of b p) = false ->
  failures (state_of b p) + Z.of_nat (length ts) + 1 = threshold b ->
  state_of (run b (failures_at p ts)) p
    = mkState (failures (state_of b p) + Z.of_nat (length ts)) None false
  /\ state_of (run b (failures_at p (ts ++ [last]))) p
    = mkState 0 (Some (last + open_for b)) false.
Proof.
  intros He Ho Hh Hk.
  assert (Hcount : forall ts', failures (state_of b p) + Z.of_nat (length ts') < threshold b ->
    state_of (run b (failures_at p ts')) p
    = mkState (failures (state_of b p) + Z.of_nat (length ts')) None false).
  { clear Hk. intros ts'. induction ts' as [|t ts' IH] using rev_ind; intros Hk.
    - simpl. rewrite Z.add_0_r. rewrite <- Ho, <- Hh. by destruct (state_of b p).
    - unfold failures_at in *. rewrite fmap_app, run_app. simpl.
      rewrite length_app in *. simpl in *.
      destruct (run_config b (Record_ p false <$> ts')) as (E & T & _).
      change (record ?b' p false t) with (exec b' (Record_ p false t)).
      rewrite (state_of_exec _ (Record_ p false t)) by (by rewrite E). simpl.
      rewrite IH by lia. unfold record_state. simpl. rewrite T.
      destruct (Z.leb_spec (threshold b)
        (failures (state_of b p) + Z.of_nat (length ts') + 1)); [lia|]. f_equal. lia. }
  split; [apply Hcount; lia|].
  unfold failures_at in *. rewrite fmap_app, run_app. simpl.
  destruct (run_config b (Record_ p false <$> ts)) as (E & T & O).
  change (record ?b' p false last) with (exec b' (Record_ p false last)).
  rewrite (state_of_exec _ (Record_ p false last)) by (by rewrite E). simpl.
  rewrite Hcount by lia. unfold record_state. simpl. rewrite T, O, Hk.
  by rewrite Z.leb_refl.
Qed.

(** ** Open circuits *)

(** An operation that may happen while [p] is open until [u] without ending the
    cooldown: it is before [u], its clock has not gone back past the moment the
    circuit opened, and it does not report a success of [p]. *)
Definition within_cooldown (b : CircuitBreaker) (p : string) (u : Instant) (o : Op) : Prop :=
  op_time o < u <= op_time o + open_for b
  /\ match o with Record_ q true _ => q <> p | _ => True end.

Lemma still_open b p u os :
  enabled b = true ->
  (exists u', opened_until (state_of b p) = Some u' /\ u <= u') ->
  Forall (within_cooldown b p u) os ->
  exists u', opened_until (state_of (run b os) p) = Some u' /\ u <= u'.
Proof.
  intros He Hu Hos. induction os as [|o os IH] using rev_ind; [done|].
  apply Forall_app in Hos as [Hos Ho]. apply Forall_singleton in Ho as [Ht Ho].
  destruct (IH Hos) as (u' & Hu' & Hle). rewrite run_app. simpl.
  destruct (run_config b os) as (E & T & O).
  destruct (decide (op_provider o = p)) as [<-|Hne]; [|rewrite state_of_exec_ne by done; eauto].
  rewrite state_of_exec by (by rewrite E).
  destruct o as [q now|q [|] now]; simpl in *; [|done|].
  - rewrite Hu'. destruct (Z.ltb_spec now u'); [eauto|lia].
  - unfold record_state. rewrite O, T. destruct (half_open _); simpl; [eexists; split; [done|lia]|].
    destruct (_ <=? _); simpl; eexists; (split; [done|lia]).
Qed.

(** Once a circuit is open, every attempt before the end of the
    cooldown is refused, whatever other calls arrive in the meantime, late
    failures of requests in flight included, unless a success is reported. *)
Theorem breaker_open_refuses b p u os now :
  enabled b = true -> opened_until (state_of b p) = Some u ->
  Forall (within_cooldown b p u) os -> now < u ->
  (allows (run b os) p now).1 = false.
Proof.
  intros He Ho Hos Hn. destruct (still_open b p u os He) as (u' & Hu' & Hle); [by exists u|done|].
  rewrite allows_admits. destruct (run_config b os) as (-> & _). rewrite He. simpl.
  unfold admits. rewrite Hu'. destruct (Z.ltb_spec now u'); [done|lia].
Qed.

(** ** Half-open circuits *)

(** The answers of consecutive attempts. *)
Fixpoint attempts (b : CircuitBreaker) (p : string) (nows : list Instant) : list bool :=
  match nows with
  | [] => []
  | now :: rest => (allows b p now).1 :: attempts (allows b p now).2 p rest
  end.

Lemma attempts_closed b p nows :
  opened_until (state_of b p) = None ->
  attempts b p nows = replicate (length nows) true.
Proof.
  revert b. induction nows as [|now nows IH]; intros b Ho; simpl; [done|].
  rewrite allows_admits. unfold admits. rewrite Ho, orb_true_r. f_equal. apply IH.
  unfold allows. destruct (enabled b); simpl; [|done]. rewrite Ho. simpl.
  by rewrite state_of_set.
Qed.

(** After the cooldown the circuit refuses nobody: until an outcome is
    recorded, any number of attempts goes through, not one probe. *)
Theorem breaker_half_open_admits_all b p u now nows :
  opened_until (state_of b p) = Some u -> u <= now ->
  attempts b p (now :: nows) = replicate (S (length nows)) true.
Proof.
  intros Ho Hn. cbn [attempts length replicate]. rewrite allows_admits. unfold admits. rewrite Ho.
  destruct (Z.ltb_spec now u); [lia|]. rewrite orb_true_r. f_equal.
  destruct (enabled b) eqn:E.
  - apply attempts_closed. unfold allows. rewrite E. simpl. rewrite Ho.
    destruct (Z.ltb_spec now u); [lia|]. simpl. by rewrite state_of_set.
  - unfold allows. rewrite E. simpl. clear -E.
    induction nows as [|t nows IH]; simpl; [done|]. unfold allows at 1 2. rewrite E. simpl.
    by rewrite IH.
Qed.

(** The read-only view agrees with the gate: it shows OPEN
    exactly when an attempt would be refused; and after a failed probe it shows
    OPEN, after a success CLOSED with no failures. *)
Theorem breaker_view_agrees b p now later :
  enabled b = true -> 0 < open_for b -> now <= later < now + open_for b ->
  (view_state (view b p now) = Open <-> (allows b p now).1 = false)
  /\ (view_state (view b p now) = HalfOpen ->
      view_state (view (allows b p now).2 p now) = HalfOpen
      /\ view_state (view (record (allows b p now).2 p false now) p later) = Open)
  /\ view (record b p true now) p later = view_closed 0.
Proof.
  intros He Hpos Hl.
  unfold view, allows, record, record_state, state_of. rewrite He. simpl.
  split_and!; [| |by rewrite ?He; simpl; rewrite lookup_insert_eq].
  - destruct (states b !! p) as [s|]; simpl; [|done].
    destruct (opened_until s) as [u|]; [destruct (now <? u)|destruct (half_open s)]; done.
  - destruct (states b !! p) as [s|] eqn:Es; simpl; [|done].
    assert (Hlater : (later <? now + open_for b) = true) by lia.
    destruct (opened_until s) as [u|] eqn:Eo; simpl.
    + destruct (Z.ltb_spec now u); simpl; [done|]. intros _.
      do 4 (rewrite ?He, ?lookup_insert_eq; simpl). by rewrite Hlater.
    + destruct (half_open s) eqn:Eh; simpl; [|done]. intros _.
      do 4 (rewrite ?He, ?lookup_insert_eq, ?Eo, ?Eh; simpl). by rewrite Hlater.
Qed.

(** ** A concrete breaker *)

Definition sample_cfg : BreakerConfig := mkBreakerConfig true 2 30.
Definition tripped : CircuitBreaker := run (new sample_cfg) (failures_at "p" [0; 1]).

Lemma breaker_invariant_witness :
  0 <= failures (state_of (exec (new sample_cfg) (Record_ "p" false 0)) "p")
    < threshold (exec (new sample_cfg) (Record_ "p" false 0))
  /\ failures (state_of (exec (new sample_cfg) (Record_ "p" false 0)) "p") = 1.
Proof.
  split; [|done]. apply (breaker_invariant sample_cfg).
  - by vm_compute.
  - repeat constructor.
Defined.

Lemma breaker_trips_witness :
  state_of (run (new sample_cfg) (failures_at "p" ([0] ++ [1]))) "p"
  = mkState 0 (Some 30000000001) false.
Proof. apply (breaker_trips (new sample_cfg) "p" [0] 1); by vm_compute. Defined.

Lemma breaker_open_refuses_witness :
  (allows (run tripped [Record_ "p" false 2; Allows "q" 3; Allows "p" 4]) "p" 5).1 = false.
Proof.
  apply (breaker_open_refuses tripped "p" 30000000001); [done|done| |lia].
  repeat constructor; by vm_compute.
Defined.

Lemma breaker_half_open_admits_all_witness :
  attempts tripped "p" [30000000001; 30000000001; 30000000002] = [true; true; true].
Proof.
  apply (breaker_half_open_admits_all tripped "p" 30000000001); [done|lia].
Defined.

Lemma breaker_view_agrees_witness :
  view_state (view tripped "p" 2) = Open <-> (allows tripped "p" 2).1 = false.
Proof. apply (breaker_view_agrees tripped "p" 2 3); by vm_compute. Defined.

End Breaker.
