(* ===== verification/Availability.v ===== *)
(** * Per-account availability

    [crates/sb-credentials/src/availability.rs]: locks per (provider, account) and
    model, with a cooldown by error class. Each method is one atomic step on the
    map behind the mutex. *)

From Stdlib Require Import ZArith Lia Sorted.
From stdpp Require Import base list strings gmap sorting.
From S2P Require Import Prelude Text Time Ir.

#[local] Open Scope Z_scope.

Module Availability.

(** ** State *)

Definition MODEL_ALL : string := "__all__".

Record LockEntry := mkLockEntry {
  unlock_at : Instant;
  lock_class : ErrorClass
}.

Record AccountState := mkAccountState {
  locks : gmap string LockEntry;
  backoff_level : Z
}.

Definition AccountState_default : AccountState := mkAccountState ∅ 0.

Record LockSnapshot := mkLockSnapshot {
  snap_model : option string;
  snap_retry_after : Duration;
  snap_error_class : ErrorClass
}.

(** [Availability::inner]. *)
Abbreviation Inner := (gmap (string * string) AccountState).

(** ** Cooldown policy *)

Definition account_wide (class : ErrorClass) : bool :=
  match class with Authentication | Authorization => true | _ => false end.

Definition is_backoff (class : ErrorClass) : bool :=
  match class with RateLimited | QuotaExceeded | ProviderOverloaded => true | _ => false end.

(** [2000u64.saturating_mul(1u64 << level.min(8)).min(300_000)]. *)
Definition backoff_ms (level : Z) : Z :=
  Z.min (sat_mul u64_max 2000 (Z.shiftl 1 (Z.min level 8))) 300000.

Definition cooldown_for (class : ErrorClass) (level : Z) : Duration :=
  match class with
  | RateLimited | QuotaExceeded | ProviderOverloaded => from_millis (backoff_ms level)
  | Authentication | Authorization => from_secs 120
  | _ => from_secs 30
  end.

(** ** Operations *)

Definition locked (s : AccountState) (model_key : string) (now : Instant) : bool :=
  match locks s !! model_key with Some l => now <? unlock_at l | None => false end.

Definition is_available (av : Inner) (provider account model : string) (now : Instant)
  : bool :=
  match av !! (provider, account) with
  | None => true
  | Some s => negb (locked s MODEL_ALL now) && negb (locked s model now)
  end.

(** Classes that describe the request and lock nothing. *)
Definition request_fault (class : ErrorClass) : bool :=
  is_client_error class || bool_decide (class = SafetyBlocked).

Definition report_failure (av : Inner) (provider account model : string)
    (class : ErrorClass) (now : Instant) : Duration * Inner :=
  if request_fault class then (0, av)
  else
    let s := default AccountState_default (av !! (provider, account)) in
    let cooldown := cooldown_for class (backoff_level s) in
    let model_key := if account_wide class then MODEL_ALL else model in
    let locks' := <[model_key := mkLockEntry (now + cooldown) class]> (locks s) in
    let level := if is_backoff class then sat_add u32_max (backoff_level s) 1
                 else backoff_level s in
    (cooldown, <[(provider, account) := mkAccountState locks' level]> av).

Definition report_success (av : Inner) (provider account : string) : Inner :=
  match av !! (provider, account) with
  | Some _ => <[(provider, account) := AccountState_default]> av
  | None => av
  end.

(** [iter.min()] over instants. *)
Definition min_opt (l : list Z) : option Z :=
  fold_left (fun acc x => Some match acc with Some m => Z.min m x | None => x end) l None.

(** The unlock times of an account that bear on a model. *)
Definition relevant_unlocks (s : AccountState) (model : string) : list Instant :=
  unlock_at <$> omap (fun l => l) [locks s !! MODEL_ALL; locks s !! model].

Definition earliest_unlock (av : Inner) (provider : string) (accounts : list string)
    (model : string) (now : Instant) : option Instant :=
  min_opt (List.filter (fun u => now <? u)
    (mjoin ((fun s => relevant_unlocks s model)
            <$> omap (fun account => av !! (provider, account)) accounts))).

(** The map iterates in an unspecified order, here [map_to_list]'s; the sort by
    [retry_after] is stable. *)
Definition locks_for (av : Inner) (provider account model : string) (now : Instant)
  : list LockSnapshot :=
  match av !! (provider, account) with
  | None => []
  | Some s =>
      sort_by (fun a b => Z.compare (snap_retry_after a) (snap_retry_after b))
        ((fun kl : string * LockEntry =>
            mkLockSnapshot (if str_eqb kl.1 MODEL_ALL then None else Some kl.1)
              (saturating_duration_since (unlock_at kl.2) now) (lock_class kl.2))
         <$> List.filter (fun kl : string * LockEntry =>
               (now <? unlock_at kl.2)
               && (is_empty model || str_eqb kl.1 MODEL_ALL || str_eqb kl.1 model))
             (map_to_list (locks s)))
  end.

Definition reset_lockout (av : Inner) (provider account : string)
    (model : option string) : bool * Inner :=
  match av !! (provider, account) with
  | None => (false, av)
  | Some s =>
      let '(cleared, locks') :=
        match model with
        | Some model => (bool_decide (locks s !! model <> None), delete model (locks s))
        | None => (bool_decide (locks s <> ∅), ∅)
        end in
      (cleared,
       if bool_decide (locks' = ∅) then delete (provider, account) av
       else <[(provider, account) := mkAccountState locks' (backoff_level s)]> av)
  end.

(** ** Failures *)

Lemma lookup_report_failure (av : Inner) p a m class now :
  request_fault class = false ->
  (report_failure av p a m class now).2 !! (p, a)
  = Some (let s := default AccountState_default (av !! (p, a)) in
      mkAccountState
        (<[if account_wide class then MODEL_ALL else m
           := mkLockEntry (now + cooldown_for class (backoff_level s)) class]> (locks s))
        (if is_backoff class then sat_add u32_max (backoff_level s) 1 else backoff_level s)).
Proof. intros E. unfold report_failure. rewrite E. cbn [snd]. by rewrite lookup_insert_eq. Qed.

Lemma lookup_report_failure_ne (av : Inner) p a m class now p' a' :
  (p', a') <> (p, a) -> (report_failure av p a m class now).2 !! (p', a') = av !! (p', a').
Proof.
  intros Hne. unfold report_failure. destruct (request_fault class); [done|]. cbn [snd].
  by rewrite lookup_insert_ne.
Qed.

(** A failure locks exactly what it should: every other account
    is untouched; a failure that is not about credentials leaves the account's
    other models untouched; what it locks stays locked for the returned cooldown;
    and a failure that describes the request locks nothing. *)
Theorem report_failure_isolated (av : Inner) p a m class now p' a' m' t :
  let '(cooldown, av') := report_failure av p a m class now in
  (request_fault class = true -> cooldown = 0 /\ av' = av)
  /\ ((p', a') <> (p, a) -> is_available av' p' a' m' t = is_available av p' a' m' t)
  /\ (account_wide class = false -> m' <> m -> m <> MODEL_ALL ->
      is_available av' p a m' t = is_available av p a m' t)
  /\ (request_fault class = false -> account_wide class = true \/ m' = m ->
      t < now + cooldown -> is_available av' p a m' t = false).
Proof.
  destruct (report_failure av p a m class now) as [cd av'] eqn:E.
  pose proof (lookup_report_failure av p a m class now) as Hl.
  pose proof (lookup_report_failure_ne av p a m class now p' a') as Hne.
  rewrite E in Hl, Hne. simpl in Hl, Hne. unfold is_available. split_and!.
  - unfold report_failure in E. intros Hf. rewrite Hf in E. by simplify_eq.
  - intros H. by rewrite Hne.
  - intros Hw Hm Hall. destruct (request_fault class) eqn:Hf.
    { unfold report_failure in E. rewrite Hf in E. by simplify_eq. }
    rewrite Hl by done. rewrite Hw. unfold locked. simpl.
    rewrite !lookup_insert_ne by congruence. by destruct (av !! (p, a)).
  - intros Hf Haff Ht. rewrite Hl by done.
    assert (cd = cooldown_for class (backoff_level (default AccountState_default (av !! (p, a)))))
      as ->.
    { unfold report_failure in E. rewrite Hf in E. by simplify_eq. }
    apply Z.ltb_lt in Ht. unfold locked. simpl. destruct (account_wide class).
    + rewrite lookup_insert_eq. simpl. by rewrite Ht.
    + destruct Haff as [|<-]; [done|]. rewrite lookup_insert_eq. simpl. rewrite Ht. simpl.
      by rewrite andb_false_r.
Qed.

(** ** Backoff *)

Lemma backoff_ms_exact level :
  0 <= level -> backoff_ms level = Z.min (2000 * 2 ^ Z.min level 8) 300000.
Proof.
  intros H. unfold backoff_ms, sat_mul. rewrite Z.shiftl_1_l.
  assert (2 ^ Z.min level 8 <= 2 ^ 8) by (apply Z.pow_le_mono_r; lia).
  unfold u64_max. lia.
Qed.

(** The state after a series of rate-limit-family failures of one account. *)
Definition fail_all (av : Inner) (p a : string)
    (fs : list (string * ErrorClass * Instant)) : Inner :=
  fold_left (fun av f => (report_failure av p a f.1.1 f.1.2 f.2).2) fs av.

Lemma backoff_not_fault class : is_backoff class = true -> request_fault class = false.
Proof. by destruct class. Qed.

Lemma fail_all_level (av : Inner) p a fs :
  av !! (p, a) = None -> Forall (fun f => is_backoff f.1.2 = true) fs ->
  Z.of_nat (length fs) <= u32_max ->
  backoff_level (default AccountState_default (fail_all av p a fs !! (p, a)))
  = Z.of_nat (length fs).
Proof.
  intros Hn Hfs. induction fs as [|[[m c] t] fs IH] using rev_ind; intros Hlen.
  - unfold fail_all. simpl. by rewrite Hn.
  - apply Forall_app in Hfs as [Hfs Hc]. apply Forall_cons_1 in Hc as [Hc _].
    cbn [fst snd] in Hc.
    rewrite length_app in *. simpl in Hlen. unfold fail_all in *. rewrite fold_left_app.
    cbn [fold_left fst snd].
    rewrite lookup_report_failure by (by apply backoff_not_fault). simpl. rewrite Hc.
    rewrite IH by (done || lia). rewrite sat_add_exact; lia.
Qed.

(** The cooldowns of consecutive rate-limit-family failures double
    from two seconds and are capped at five minutes. *)
Theorem backoff_schedule (av : Inner) p a fs m class now :
  av !! (p, a) = None -> Forall (fun f => is_backoff f.1.2 = true) fs ->
  Z.of_nat (length fs) <= u32_max -> is_backoff class = true ->
  let cooldown := (report_failure (fail_all av p a fs) p a m class now).1 in
  cooldown = from_millis (Z.min (2000 * 2 ^ Z.min (Z.of_nat (length fs)) 8) 300000)
  /\ from_secs 2 <= cooldown <= from_secs 300.
Proof.
  intros Hn Hfs Hlen Hc. cbv zeta. unfold report_failure.
  rewrite backoff_not_fault by done. simpl. rewrite fail_all_level by done.
  assert (Heq : cooldown_for class (Z.of_nat (length fs))
    = from_millis (backoff_ms (Z.of_nat (length fs)))) by (by destruct class).
  rewrite Heq, backoff_ms_exact by lia. split; [done|].
  assert (2 ^ 0 <= 2 ^ Z.min (Z.of_nat (length fs)) 8) by (apply Z.pow_le_mono_r; lia).
  unfold from_millis, from_secs. lia.
Qed.

(** ** Retry hints *)

Lemma min_opt_spec l :
  match min_opt l with
  | Some m => m ∈ l /\ forall x, x ∈ l -> m <= x
  | None => l = []
  end.
Proof.
  unfold min_opt.
  assert (H : forall l acc, match fold_left (fun acc x => Some match acc with
      | Some m => Z.min m x | None => x end) l acc with
    | Some m => (m ∈ l \/ acc = Some m) /\ (forall x, x ∈ l \/ acc = Some x -> m <= x)
    | None => l = [] /\ acc = None end).
  { clear l. induction l as [|y l IH]; intros acc; simpl.
    - destruct acc as [m|]; [|done]. split; [by right|].
      intros x [Hx|Hx]; [by apply not_elem_of_nil in Hx|]. simplify_eq. lia.
    - match goal with |- context [fold_left _ l ?acc'] => specialize (IH acc') end.
      destruct (fold_left _ l _) as [m|]; [|by destruct IH].
      destruct IH as [Hin Hle]. split.
      + destruct Hin as [Hin|[= Hin]]; [left; by right|].
        destruct acc as [m0|]; [|subst; left; by left].
        destruct (Z.min_spec m0 y) as [[_ E]|[_ E]]; rewrite E in Hin; subst;
          [by right|left; by left].
      + intros x [[->|Hx]%elem_of_cons|Hx].
        * assert (m <= match acc with Some m0 => Z.min m0 y | None => y end) by (apply Hle; by right).
          destruct acc; lia.
        * apply Hle. by left.
        * subst. assert (m <= Z.min x y) by (apply Hle; by right). lia. }
  specialize (H l None). destruct (fold_left _ l None) as [m|]; [|naive_solver].
  destruct H as [H1 H2]. split; [naive_solver|]. intros x Hx. apply H2. by left.
Qed.

Lemma relevant_unlocks_spec s model u :
  u ∈ relevant_unlocks s model
  <-> exists k l, (k = MODEL_ALL \/ k = model) /\ locks s !! k = Some l /\ unlock_at l = u.
Proof.
  unfold relevant_unlocks. rewrite list_elem_of_fmap. split.
  - intros (l & -> & Hl). apply list_elem_of_omap in Hl as (o & Ho & ->).
    apply elem_of_cons in Ho as [Ho|Ho%list_elem_of_singleton]; eauto 10.
  - intros (k & l & Hk & Hl & <-). exists l. split; [done|]. apply list_elem_of_omap.
    exists (Some l). split; [|done].
    rewrite !elem_of_cons, <- Hl. destruct Hk as [->| ->]; auto.
Qed.

Lemma locked_at s model t :
  negb (locked s MODEL_ALL t) && negb (locked s model t) = false
  <-> exists u, u ∈ relevant_unlocks s model /\ t < u.
Proof.
  rewrite <- negb_orb, negb_false_iff, orb_true_iff.
  setoid_rewrite relevant_unlocks_spec. unfold locked. split.
  - intros [H|H]; destruct (_ !! _) as [l|] eqn:E; try done; apply Z.ltb_lt in H;
      exists (unlock_at l); split; eauto 10.
  - intros (u & (k & l & Hk & Hl & <-) & Ht). apply Z.ltb_lt in Ht.
    destruct Hk; subst; [left|right]; by rewrite Hl.
Qed.

Lemma elem_of_unlocks (av : Inner) (p : string) (accounts : list string) m now u :
  u ∈ List.filter (fun u => now <? u)
    (mjoin ((fun s => relevant_unlocks s m) <$> omap (fun a => av !! (p, a)) accounts))
  <-> now < u /\ exists a s, a ∈ accounts /\ av !! (p, a) = Some s /\ u ∈ relevant_unlocks s m.
Proof.
  rewrite list_elem_of_In, List.filter_In, <- list_elem_of_In, Z.ltb_lt, list_elem_of_join.
  split.
  - intros [(l & Hu & Hl) Hn]. split; [done|]. apply list_elem_of_fmap in Hl as (s & -> & Hs).
    apply list_elem_of_omap in Hs as (a & Ha & Hs). eauto.
  - intros (Hn & a & s & Ha & Hs & Hu). split; [|done]. exists (relevant_unlocks s m).
    split; [done|]. apply list_elem_of_fmap. exists s. split; [done|].
    apply list_elem_of_omap. eauto.
Qed.

(** When every account is locked for the model, the retry hint
    exists, lies in the future, and no account becomes usable before it. *)
Theorem earliest_unlock_bound (av : Inner) (p : string) (accounts : list string) m now :
  accounts <> [] ->
  Forall (fun a => is_available av p a m now = false) accounts ->
  exists u, earliest_unlock av p accounts m now = Some u /\ now < u
    /\ forall a t, a ∈ accounts -> now <= t < u -> is_available av p a m t = false.
Proof.
  intros Hne Hall. rewrite Forall_forall in Hall. unfold earliest_unlock.
  pose proof (fun u => elem_of_unlocks av p accounts m now u) as Hel.
  set (us := List.filter _ _) in *. pose proof (min_opt_spec us) as Hmin.
  assert (Hlock : forall a, a ∈ accounts -> exists s u, av !! (p, a) = Some s
    /\ u ∈ relevant_unlocks s m /\ now < u).
  { intros a Ha. specialize (Hall a Ha). unfold is_available in Hall.
    destruct (av !! (p, a)) as [s|]; [|done].
    apply locked_at in Hall as (u & Hu & Hlt). eauto. }
  destruct (min_opt us) as [u|].
  - destruct Hmin as [Hin Hle]. exists u. split; [done|]. split; [by apply Hel in Hin as [? _]|].
    intros a t Ha Ht. destruct (Hlock a Ha) as (s & v & Hs & Hv & Hlt).
    unfold is_available. rewrite Hs. apply locked_at. exists v. split; [done|].
    assert (u <= v); [|lia]. apply Hle, Hel. eauto 10.
  - exfalso. destruct accounts as [|a accounts]; [done|].
    destruct (Hlock a) as (s & v & Hs & Hv & Hlt); [by left|].
    assert (Hin : v ∈ us) by (apply Hel; split; [done|]; exists a, s; split; [by left|done]).
    rewrite Hmin in Hin. by apply not_elem_of_nil in Hin.
Qed.

(** The hint is the earliest end of any lock, not the earliest moment an
    account is usable: an account under a model lock and a longer account lock is
    still refused when the hinted moment comes. *)
Theorem earliest_unlock_too_early :
  exists av p a m now u,
    earliest_unlock av p [a] m now = Some u /\ is_available av p a m u = false.
Proof.
  exists (report_failure (report_failure ∅ "p" "a" "m" Network 0).2 "p" "a" "m"
            Authentication 0).2, "p", "a", "m", 0, (from_secs 30).
  by vm_compute.
Qed.

(** ** Snapshots and resets *)

#[local] Instance retry_preorder :
  TotalPreorder (fun a b => Z.compare (snap_retry_after a) (snap_retry_after b)).
Proof. exact (on_preorder snap_retry_after Z.compare). Qed.

(** An account is usable for a named model exactly when the
    operator's snapshot for that model shows no lock, and the snapshot is sorted
    by the time left. *)
Theorem locks_for_agrees (av : Inner) p a m now :
  m <> EmptyString ->
  (is_available av p a m now = true <-> locks_for av p a m now = [])
  /\ StronglySorted (fun x y => snap_retry_after x <= snap_retry_after y)
      (locks_for av p a m now).
Proof.
  intros Hm. assert (Hem : is_empty m = false) by (by destruct m).
  unfold is_available, locks_for. destruct (av !! (p, a)) as [s|]; [|split; [done|constructor]].
  split.
  - set (l := List.filter _ _).
    assert (Hnil : sort_by (fun x y => Z.compare (snap_retry_after x) (snap_retry_after y))
        ((fun kl : string * LockEntry => mkLockSnapshot
           (if str_eqb kl.1 MODEL_ALL then None else Some kl.1)
           (saturating_duration_since (unlock_at kl.2) now) (lock_class kl.2)) <$> l) = []
      <-> l = []).
    { split; [|by intros ->]. intros H. apply (f_equal length) in H.
      rewrite length_sort_by, length_fmap in H. by destruct l. }
    rewrite Hnil. clear Hnil. rewrite <- not_false_iff_true, locked_at. split.
    + intros H. destruct l as [|[k e] l'] eqn:El; [done|]. destruct H.
      assert (Hin : (k, e) ∈ l) by (rewrite El; by left). unfold l in Hin.
      rewrite list_elem_of_In, List.filter_In, <- list_elem_of_In, elem_of_map_to_list in Hin.
      destruct Hin as [Hin Hc]. rewrite Hem in Hc. simpl in Hc. bool_hyps.
      exists (unlock_at e). rewrite relevant_unlocks_spec. split; [|done].
      match goal with H : _ || _ = true |- _ => apply orb_true_iff in H as [H|H];
        apply str_eqb_eq in H; subst end; eauto 10.
    + intros Hl (u & (k & e & Hk & He & <-)%relevant_unlocks_spec & Ht).
      assert (Hin : (k, e) ∈ l); [|rewrite Hl in Hin; by apply not_elem_of_nil in Hin].
      unfold l. rewrite list_elem_of_In, List.filter_In, <- list_elem_of_In,
        elem_of_map_to_list. split; [done|]. simpl. apply Z.ltb_lt in Ht. rewrite Ht, Hem.
      simpl. destruct Hk; subst; rewrite str_eqb_refl; by rewrite ?orb_true_r.
  - pose proof (sort_by_sorted (fun x y => Z.compare (snap_retry_after x) (snap_retry_after y)))
      as Hs. match goal with |- StronglySorted _ (sort_by _ ?l) => specialize (Hs l) end.
    induction Hs as [|x l Hl IH Hx]; constructor; [done|].
    eapply Forall_impl; [exact Hx|]. intros y Hy. unfold cmp_le in Hy. simpl in Hy.
    by apply Z.compare_le_iff.
Qed.

(** After a success, or after an operator reset of the whole
    account, the account is usable for every model at every time, other accounts
    are untouched, and the next rate-limit failure starts the backoff over. *)
Theorem recovery_clears (av : Inner) p a m t class now :
  let ok := report_success av p a in
  let reset := (reset_lockout av p a None).2 in
  is_available ok p a m t = true /\ is_available reset p a m t = true
  /\ (is_backoff class = true ->
      (report_failure ok p a m class now).1 = from_secs 2
      /\ (report_failure reset p a m class now).1 = from_secs 2)
  /\ (forall p' a', (p', a') <> (p, a) ->
      is_available ok p' a' m t = is_available av p' a' m t
      /\ is_available reset p' a' m t = is_available av p' a' m t).
Proof.
  cbv zeta. unfold report_success, reset_lockout.
  destruct (av !! (p, a)) as [s|] eqn:E; cbn [snd].
  - rewrite bool_decide_eq_true_2 by done. unfold is_available.
    rewrite lookup_insert_eq, lookup_delete_eq. split_and!; [done|done| |].
    + intros Hc. unfold report_failure. rewrite backoff_not_fault by done. cbn [fst].
      rewrite lookup_insert_eq, lookup_delete_eq. by destruct class.
    + intros p' a' Hne. by rewrite lookup_insert_ne, lookup_delete_ne.
  - unfold is_available. rewrite E. split_and!; [done|done| |done].
    intros Hc. unfold report_failure. rewrite backoff_not_fault by done. cbn [fst].
    rewrite E. by destruct class.
Qed.

(** A reset reports a cleared lock even when that lock had expired: its
    result does not say whether an active lock was removed. *)
Theorem reset_reports_expired_lock :
  exists av p a m now,
    is_available av p a m now = true /\ locks_for av p a EmptyString now = []
    /\ (reset_lockout av p a (Some m)).1 = true.
Proof.
  exists (report_failure ∅ "p" "a" "m" Network 0).2, "p", "a", "m", (from_secs 31).
  by vm_compute.
Qed.

(** Two of the classes that lock nothing are not surfaced verbatim either: the
    executor falls back on them. *)
Lemma request_faults_that_fall_back :
  List.filter (fun c => request_fault c && should_fallback c)
    [Authentication; Authorization; RateLimited; QuotaExceeded; ProviderOverloaded; Timeout;
     Network; InvalidRequest; ContextTooLong; UnsupportedCapability; SafetyBlocked; ServerError;
     StreamInterrupted; Unknown]
  = [ContextTooLong; UnsupportedCapability].
Proof. done. Qed.

(** ** Concrete accounts *)

Definition limited : Inner := (report_failure ∅ "p" "a" "m" RateLimited 0).2.

Lemma backoff_schedule_witness :
  (report_failure (fail_all ∅ "p" "a" [("m", RateLimited, 0); ("m", QuotaExceeded, 1)])
     "p" "a" "m" RateLimited 2).1 = from_secs 8.
Proof.
  apply (backoff_schedule ∅ "p" "a" [("m", RateLimited, 0); ("m", QuotaExceeded, 1)] "m"
    RateLimited 2); [done|by repeat constructor|by vm_compute|done].
Defined.

Lemma earliest_unlock_bound_witness :
  exists u, earliest_unlock limited "p" ["a"] "m" 0 = Some u /\ 0 < u
    /\ forall a t, a ∈ ["a"] -> 0 <= t < u -> is_available limited "p" a "m" t = false.
Proof. apply earliest_unlock_bound; [done|by repeat constructor]. Defined.

Lemma locks_for_agrees_witness :
  is_available limited "p" "a" "other" 0 = true <-> locks_for limited "p" "a" "other" 0 = [].
Proof. by apply (locks_for_agrees limited "p" "a" "other" 0). Defined.

End Availability.
