(* ===== verification/ScorecardEntry.v ===== *)
(** * The outcome scorecard: one entry

    [crates/sb-runtime/src/scorecard/class.rs] and [entry.rs]: the outcome
    taxonomy, the sample rings, the window statistics, the demotion hysteresis and
    the validation of persisted rows. Counters wrap at their width. *)

From Stdlib Require Import ZArith Lia Sorted.
From stdpp Require Import base list strings sorting.
From S2P Require Import Prelude Text BTree Float Time Ir Config Target.

#[local] Open Scope Z_scope.

(** ** Taxonomy *)

Inductive AttemptOutcome :=
| AttemptOk (reason : FinishReason)
| AttemptFailed (err : ErrorClass)
| AttemptCancelled.

Inductive OutcomeClass :=
| Success | Truncated | Refusal | TargetFailure | ClientOrAccountFault | Cancelled.

#[export] Instance OutcomeClass_eq_dec : EqDecision OutcomeClass.
Proof. solve_decision. Defined.

Definition is_scoreable (c : OutcomeClass) : bool :=
  match c with Success | Truncated | TargetFailure => true | _ => false end.

Definition classify (o : AttemptOutcome) : OutcomeClass :=
  match o with
  | AttemptOk reason =>
      match reason with
      | Length => Truncated
      | ContentFilter => Refusal
      | FinishError => TargetFailure
      | Stop | ToolCalls => Success
      end
  | AttemptFailed err =>
      match err with
      | Authentication | Authorization | QuotaExceeded | InvalidRequest | ContextTooLong
      | UnsupportedCapability => ClientOrAccountFault
      | SafetyBlocked => Refusal
      | RateLimited | ProviderOverloaded | Timeout | Network | ServerError
      | StreamInterrupted | Unknown => TargetFailure
      end
  | AttemptCancelled => Cancelled
  end.

(** ** Entries *)

Record Sample := mkSample {
  s_ts : Instant;
  s_class : OutcomeClass;
  s_latency_ms : Z;
  s_cost_micros : option Z;
  s_err : option ErrorClass
}.

Record QualitySample := mkQualitySample {
  q_judgment_id : string;
  q_ts : Instant;
  q_created_at_ms : Z;
  q_score_norm : f64
}.

Record Prior := mkPrior {
  prior_success_rate : f64;
  prior_weight : f64
}.

Definition Prior_from_config (cfg : ScorecardConfig) : Prior :=
  mkPrior (prior_default_success_rate (sc_prior cfg)) (prior_config_weight (sc_prior cfg)).

Record Entry := mkEntry {
  ring : list Sample;
  quality_ring : list QualitySample;
  quality_evaluator_id : option string;
  consecutive_failures : Z;
  consecutive_successes : Z;
  tier : OutcomeTier;
  demoted_since : option Instant;
  demote_trigger : option DemoteTrigger;
  prior : Prior;
  hydrated : bool;
  dirty : bool
}.

Definition Entry_new (p : Prior) : Entry :=
  mkEntry [] [] None 0 0 TierHealthy None None p false false.

Definition set_ring (l : list Sample) (e : Entry) : Entry :=
  mkEntry l (quality_ring e) (quality_evaluator_id e) (consecutive_failures e)
    (consecutive_successes e) (tier e) (demoted_since e) (demote_trigger e) (prior e)
    (hydrated e) (dirty e).

Definition set_quality (l : list QualitySample) (ev : option string) (e : Entry) : Entry :=
  mkEntry (ring e) l ev (consecutive_failures e) (consecutive_successes e) (tier e)
    (demoted_since e) (demote_trigger e) (prior e) (hydrated e) (dirty e).

Definition set_streaks (f s : Z) (e : Entry) : Entry :=
  mkEntry (ring e) (quality_ring e) (quality_evaluator_id e) f s (tier e) (demoted_since e)
    (demote_trigger e) (prior e) (hydrated e) (dirty e).

Definition set_tier (t : OutcomeTier) (since : option Instant) (trigger : option DemoteTrigger)
    (e : Entry) : Entry :=
  mkEntry (ring e) (quality_ring e) (quality_evaluator_id e) (consecutive_failures e)
    (consecutive_successes e) t since trigger (prior e) (hydrated e) (dirty e).

Definition set_dirty (b : bool) (e : Entry) : Entry :=
  mkEntry (ring e) (quality_ring e) (quality_evaluator_id e) (consecutive_failures e)
    (consecutive_successes e) (tier e) (demoted_since e) (demote_trigger e) (prior e)
    (hydrated e) b.

(** ** The rings *)

(** [while self.ring.len() >= bound { pop_front }]. *)
Fixpoint pop_while_ge {A} (bound : Z) (l : list A) : list A :=
  match l with
  | x :: l' => if bound <=? Z.of_nat (length l) then pop_while_ge bound l' else l
  | [] => []
  end.

Definition push (sample : Sample) (max_samples : Z) (e : Entry) : Entry :=
  set_ring (pop_while_ge (Z.max max_samples 1) (ring e) ++ [sample]) e.

(** [iter_mut().find(..)] replaced in place, or pushed at the back. *)
Fixpoint replace_or_push (sample : QualitySample) (l : list QualitySample)
  : list QualitySample :=
  match l with
  | [] => [sample]
  | x :: l' =>
      if str_eqb (q_judgment_id x) (q_judgment_id sample) then sample :: l'
      else x :: replace_or_push sample l'
  end.

(** By creation time, then by judgment id. *)
Definition quality_cmp (a b : QualitySample) : comparison :=
  match Z.compare (q_created_at_ms a) (q_created_at_ms b) with
  | Eq => String.compare (q_judgment_id a) (q_judgment_id b)
  | c => c
  end.

(** [while ring.len() > bound { pop_front }]. *)
Fixpoint pop_while_gt {A} (bound : Z) (l : list A) : list A :=
  match l with
  | x :: l' => if bound <? Z.of_nat (length l) then pop_while_gt bound l' else l
  | [] => []
  end.

Definition push_quality_ring (sample : QualitySample) (max_samples : Z)
    (l : list QualitySample) : list QualitySample :=
  pop_while_gt (Z.max max_samples 1) (sort_by quality_cmp (replace_or_push sample l)).

Definition push_quality (sample : QualitySample) (max_samples : Z) (e : Entry) : Entry :=
  set_quality (push_quality_ring sample max_samples (quality_ring e)) (quality_evaluator_id e) e.

Definition is_live (ts now : Instant) (ttl : Duration) : bool :=
  match checked_duration_since now ts with Some age => age <=? ttl | None => true end.

Definition prune_quality (l : list QualitySample) (now : Instant) (ttl : Duration)
  : list QualitySample * bool :=
  let l' := List.filter (fun s => is_live (q_ts s) now ttl) l in
  (l', negb (Nat.eqb (length l') (length l))).

Record QualityStats := mkQualityStats {
  qst_ewma : f64;
  qst_samples : Z;
  qst_age_secs : Z;
  qst_updated_at_ms : Z
}.

Definition in_unit (x : f64) : bool := f_le f64_zero x && f_le x f64_one.

Definition ewma_step (alpha : f64) (acc : f64) (s : QualitySample) : f64 :=
  f64_add (f64_mul alpha (q_score_norm s)) (f64_mul (f64_sub f64_one alpha) acc).

Definition quality_stats (l : list QualitySample) (now : Instant) (ttl : Duration)
    (alpha : f64) : option QualityStats :=
  if negb (is_finite alpha && f_lt f64_zero alpha && f_le alpha f64_one) then None
  else
    let live := sort_by quality_cmp (List.filter (fun s =>
      is_live (q_ts s) now ttl && is_finite (q_score_norm s) && in_unit (q_score_norm s)) l) in
    match head live, last live with
    | Some first, Some newest =>
        let ewma := fold_left (ewma_step alpha) (tail live) (q_score_norm first) in
        if Z.of_nat (length live) <=? u32_max then
          Some (mkQualityStats ewma (Z.of_nat (length live))
            match checked_duration_since now (q_ts newest) with
            | Some age => as_secs age | None => 0 end
            (q_created_at_ms newest))
        else None
    | _, _ => None
    end.

(** ** Window statistics *)

Record WindowStats := mkWindowStats {
  n_scoreable : Z;
  success_count : Z;
  truncated_count : Z;
  target_fail_count : Z;
  p_hat : f64;
  trunc_rate : f64;
  ws_health_factor : f32;
  p50_latency_ms : Z;
  p95_latency_ms : Z;
  cost_per_success_micros : Z;
  dominant_error : option ErrorClass
}.

Fixpoint bump_error (counts : list (ErrorClass * Z)) (err : ErrorClass)
  : list (ErrorClass * Z) :=
  match counts with
  | [] => [(err, 1)]
  | (e, n) :: rest =>
      if bool_decide (e = err) then (e, wrap32 (n + 1)) :: rest
      else (e, n) :: bump_error rest err
  end.

Definition percentile (sorted : list Z) (p : f64) : Z :=
  let len := Z.of_nat (length sorted) in
  if list_empty sorted then 0
  else
    let rank := f_to_uint u64_max
      (f64_ceil (f64_mul (f64_div p (f64_of_Z 100)) (f64_of_Z len))) in
    let idx := Z.min (sat_sub rank 1) (len - 1) in
    default 0 (sorted !! Z.to_nat idx).

(** The variables of the loop over the live samples. *)
Record Tally := mkTally {
  ty_success : Z;
  ty_truncated : Z;
  ty_target_fail : Z;
  ty_errors : list (ErrorClass * Z);
  ty_latencies : list Z;
  ty_cost_sum : Z
}.

Definition tally_step (t : Tally) (s : Sample) : Tally :=
  match s_class s with
  | Success =>
      mkTally (wrap32 (ty_success t + 1)) (ty_truncated t) (ty_target_fail t) (ty_errors t)
        (ty_latencies t ++ [s_latency_ms s])
        match s_cost_micros s with
        | Some cost => wrap64 (ty_cost_sum t + cost) | None => ty_cost_sum t end
  | Truncated =>
      mkTally (ty_success t) (wrap32 (ty_truncated t + 1)) (ty_target_fail t) (ty_errors t)
        (ty_latencies t ++ [s_latency_ms s]) (ty_cost_sum t)
  | TargetFailure =>
      mkTally (ty_success t) (ty_truncated t) (wrap32 (ty_target_fail t + 1))
        match s_err s with Some err => bump_error (ty_errors t) err | None => ty_errors t end
        (ty_latencies t) (ty_cost_sum t)
  | Refusal | ClientOrAccountFault | Cancelled => t
  end.

Definition live_samples (l : list Sample) (now : Instant) (ttl : Duration) : list Sample :=
  List.filter (fun s => is_live (s_ts s) now ttl) l.

Definition tally (l : list Sample) (now : Instant) (ttl : Duration) : Tally :=
  fold_left tally_step (live_samples l now ttl) (mkTally 0 0 0 [] [] 0).

(** [max_by_key]: the last of the maximal elements. *)
Definition max_by_count (l : list (ErrorClass * Z)) : option (ErrorClass * Z) :=
  fold_left (fun acc x => match acc with
    | Some m => if m.2 <=? x.2 then Some x else Some m
    | None => Some x end) l None.

Definition window_stats (l : list Sample) (pr : Prior) (now : Instant) (ttl : Duration)
  : WindowStats :=
  let t := tally l now ttl in
  let n := wrap32 (wrap32 (ty_success t + ty_truncated t) + ty_target_fail t) in
  let p_hat := f64_div
    (f64_add (f64_mul (prior_weight pr) (prior_success_rate pr)) (f64_of_Z (ty_success t)))
    (f64_add (prior_weight pr) (f64_of_Z n)) in
  let trunc_rate := if n =? 0 then f64_zero
    else f64_div (f64_of_Z (ty_truncated t)) (f64_of_Z n) in
  let health_factor := f32_of_f64 (f_clamp
    (f64_mul p_hat (f64_sub f64_one (f64_mul f64_half trunc_rate))) f64_zero f64_one) in
  let latencies := sort_by Z.compare (ty_latencies t) in
  let '(p50, p95) := if 2 <=? Z.of_nat (length latencies)
    then (percentile latencies (f64_of_Z 50), percentile latencies (f64_of_Z 95))
    else (0, 0) in
  mkWindowStats n (ty_success t) (ty_truncated t) (ty_target_fail t) p_hat trunc_rate
    health_factor p50 p95
    (if ty_success t =? 0 then 0 else ty_cost_sum t / ty_success t)
    (fst <$> max_by_count (ty_errors t)).

(** The counts that [error_histogram_json] renders: every live sample that carries
    an error, neutral faults included. *)
Definition error_counts (l : list Sample) (now : Instant) (ttl : Duration)
  : list (ErrorClass * Z) :=
  fold_left (fun counts s =>
    match s_err s with Some err => bump_error counts err | None => counts end)
    (live_samples l now ttl) [].

(** ** Hysteresis *)

Definition target_negative (c : OutcomeClass) : bool :=
  match c with TargetFailure | Truncated => true | _ => false end.

Definition apply_hysteresis (stats : WindowStats) (cfg : ScorecardDemotionConfig)
    (now : Instant) (sample_class : OutcomeClass) (e : Entry) : Entry :=
  match tier e with
  | TierHealthy =>
      if negb (target_negative sample_class) then e
      else
        let fast_path := fast_demote_streak cfg <=? consecutive_failures e in
        let trunc_triggered := (min_samples cfg <=? n_scoreable stats)
          && f_le (trunc_demote_rate cfg) (trunc_rate stats) in
        let success_rate_triggered := (min_samples cfg <=? n_scoreable stats)
          && f_le (p_hat stats) (demote_success_rate cfg) in
        if fast_path || trunc_triggered || success_rate_triggered then
          set_tier TierDemoted (Some now)
            (Some (if trunc_triggered then TriggerTruncation
                   else if fast_path then TriggerStreak else TriggerSuccess)) e
        else e
  | TierDemoted =>
      let fast_recover := fast_recover_streak cfg <=? consecutive_successes e in
      let gated_recover := (min_samples cfg <=? n_scoreable stats)
        && f_le (recover_success_rate cfg) (p_hat stats)
        && (consecutive_failures e =? 0) in
      if fast_recover || gated_recover then set_tier TierHealthy None None e else e
  end.

Definition reset_if_ttl_lapsed (stats : WindowStats) (e : Entry) : Entry * bool :=
  if negb (n_scoreable stats =? 0) then (e, false)
  else
    let changed := negb (bool_decide (tier e = TierHealthy))
      || opt_is_some (demoted_since e) || opt_is_some (demote_trigger e)
      || negb (consecutive_failures e =? 0) || negb (consecutive_successes e =? 0) in
    (set_streaks 0 0 (set_tier TierHealthy None None e), changed).

(** ** Persisted rows *)

Record ScorecardRow := mkScorecardRow {
  row_target_id : string;
  row_class : string;
  row_scoreable_samples : Z;
  row_success_count : Z;
  row_truncated_count : Z;
  row_target_fail_count : Z;
  row_p50_latency_ms : Z;
  row_p95_latency_ms : Z;
  row_cost_per_success_micros : Z;
  row_error_histogram : string;
  row_consecutive_failures : Z;
  row_tier : Z;
  row_demoted_since_ms : option Z;
  row_quality_ewma : option f64;
  row_quality_samples : Z;
  row_quality_updated_at_ms : option Z;
  row_quality_evaluator_id : option string;
  row_updated_at_ms : Z;
  row_schema_ver : Z
}.

Definition hydrate_row (row : ScorecardRow) (cfg : ScorecardConfig) (now_epoch_ms : Z)
  : option (Prior * OutcomeTier) :=
  partial ← checked_add u32_max (row_success_count row) (row_truncated_count row);
  sum ← checked_add u32_max partial (row_target_fail_count row);
  if negb (sum =? row_scoreable_samples row) then None
  else if row_scoreable_samples row =? 0 then None
  else
    tier ← (if row_tier row =? 0 then Some TierHealthy
            else if row_tier row =? 1 then Some TierDemoted else None);
    let age_ms := i64_sat_sub now_epoch_ms (row_updated_at_ms row) in
    let stale_ms := i64_sat_mul (wrap_i64 (persist_stale_hydrate_secs (sc_persist cfg))) 1000 in
    if stale_ms <? age_ms then None
    else
      let weight := f64_of_Z (Z.min (row_scoreable_samples row) 50) in
      let success_rate := f64_div (f64_of_Z (row_success_count row))
        (f64_of_Z (row_scoreable_samples row)) in
      Some (mkPrior success_rate weight, tier).

(** ** Ring lemmas *)

Lemma pop_while_ge_suffix {A} bound (l : list A) : pop_while_ge bound l `suffix_of` l.
Proof.
  induction l as [|x l IH]; [done|]. cbn [pop_while_ge].
  destruct (bound <=? _); [|done]. by apply suffix_cons_r.
Qed.

Lemma pop_while_ge_length {A} bound (l : list A) :
  1 <= bound -> Z.of_nat (length (pop_while_ge bound l)) <= bound - 1.
Proof.
  intros Hb. induction l as [|x l IH]; cbn [pop_while_ge]; [simpl; lia|].
  destruct (Z.leb_spec bound (Z.of_nat (length (x :: l)))); [done|lia].
Qed.

Lemma pop_while_ge_id {A} bound (l : list A) :
  Z.of_nat (length l) < bound -> pop_while_ge bound l = l.
Proof.
  destruct l as [|x l]; [done|]. intros H. cbn [pop_while_ge].
  by destruct (Z.leb_spec bound (Z.of_nat (length (x :: l)))); [lia|].
Qed.

Lemma push_length s max e :
  Z.of_nat (length (ring (push s max e))) <= Z.max max 1.
Proof.
  simpl. rewrite length_app. simpl.
  pose proof (pop_while_ge_length (Z.max max 1) (ring e)). lia.
Qed.

Lemma pop_while_gt_suffix {A} bound (l : list A) : pop_while_gt bound l `suffix_of` l.
Proof.
  induction l as [|x l IH]; [done|]. cbn [pop_while_gt].
  destruct (bound <? _); [|done]. by apply suffix_cons_r.
Qed.

Lemma pop_while_gt_length {A} bound (l : list A) :
  0 <= bound -> Z.of_nat (length (pop_while_gt bound l)) <= bound.
Proof.
  intros Hb. induction l as [|x l IH]; cbn [pop_while_gt]; [simpl; lia|].
  destruct (Z.ltb_spec bound (Z.of_nat (length (x :: l)))); [done|lia].
Qed.

(** ** Counting lemmas *)

Definition count_class (p : OutcomeClass -> bool) (l : list Sample) : Z :=
  Z.of_nat (length (List.filter (fun s => p (s_class s)) l)).

Lemma count_class_bound p l : 0 <= count_class p l <= Z.of_nat (length l).
Proof.
  unfold count_class. split; [lia|]. pose proof (List.filter_length_le (fun s => p (s_class s)) l).
  lia.
Qed.

Lemma count_class_cons p s l :
  count_class p (s :: l) = (if p (s_class s) then 1 else 0) + count_class p l.
Proof. unfold count_class. simpl. destruct (p (s_class s)); simpl; lia. Qed.

Lemma tally_counts l t :
  0 <= ty_success t -> 0 <= ty_truncated t -> 0 <= ty_target_fail t ->
  ty_success t + ty_truncated t + ty_target_fail t + Z.of_nat (length l) <= u32_max ->
  ty_success (fold_left tally_step l t)
    = ty_success t + count_class (fun c => bool_decide (c = Success)) l
  /\ ty_truncated (fold_left tally_step l t)
    = ty_truncated t + count_class (fun c => bool_decide (c = Truncated)) l
  /\ ty_target_fail (fold_left tally_step l t)
    = ty_target_fail t + count_class (fun c => bool_decide (c = TargetFailure)) l.
Proof.
  revert t. induction l as [|s l IH]; intros t H1 H2 H3 Hb.
  - unfold count_class. simpl. lia.
  - cbn [fold_left length] in *. rewrite !count_class_cons.
    assert (Hw : forall z, 0 <= z <= u32_max -> wrap32 z = z)
      by (intros; by apply wrap32_small).
    destruct (s_class s) eqn:E;
      (destruct (IH (tally_step t s)) as (-> & -> & ->);
        unfold tally_step; rewrite E; simpl; rewrite ?Hw; lia).
Qed.

Lemma count_split l :
  count_class (fun c => bool_decide (c = Success)) l
  + count_class (fun c => bool_decide (c = Truncated)) l
  + count_class (fun c => bool_decide (c = TargetFailure)) l = count_class is_scoreable l.
Proof.
  induction l as [|s l IH]; [done|]. rewrite !count_class_cons. by destruct (s_class s); simpl; lia.
Qed.

(** The denominator of the posterior: the live samples of a scoreable class. *)
Lemma n_scoreable_spec l pr now ttl :
  Z.of_nat (length l) <= u32_max ->
  n_scoreable (window_stats l pr now ttl) = count_class is_scoreable (live_samples l now ttl).
Proof.
  intros Hl. unfold window_stats. cbv zeta.
  destruct (if 2 <=? _ then _ else _) as [p50 p95]. cbn [n_scoreable].
  set (t := tally l now ttl).
  assert (Hlen : Z.of_nat (length (live_samples l now ttl)) <= u32_max).
  { unfold live_samples.
    pose proof (List.filter_length_le (fun s => is_live (s_ts s) now ttl) l). lia. }
  destruct (tally_counts (live_samples l now ttl) (mkTally 0 0 0 [] [] 0)) as (E1 & E2 & E3);
    simpl; try lia.
  fold (tally l now ttl) in E1, E2, E3. fold t in E1, E2, E3. simpl in *.
  pose proof (count_split (live_samples l now ttl)) as Hsplit.
  pose proof (count_class_bound is_scoreable (live_samples l now ttl)).
  pose proof (count_class_bound (fun c => bool_decide (c = Success)) (live_samples l now ttl)).
  pose proof (count_class_bound (fun c => bool_decide (c = Truncated)) (live_samples l now ttl)).
  pose proof (count_class_bound (fun c => bool_decide (c = TargetFailure)) (live_samples l now ttl)).
  assert (Hw : forall z, 0 <= z <= u32_max -> wrap32 z = z) by (intros; by apply wrap32_small).
  rewrite (Hw (ty_success t + ty_truncated t)) by lia. rewrite Hw; lia.
Qed.
