(* ===== verification/Scorecard.v ===== *)
(** * The outcome scorecard

    [crates/sb-runtime/src/scorecard/mod.rs] and [finish_attempt.rs]. The map from
    keys to entries never drops or replaces an entry, so the shared
    [Arc<Mutex<Entry>>] of a key is modelled by the value stored under it; the work
    on one entry happens under its own lock and is one step. Poisoned locks (no
    code panics while it holds one) are not modelled. The iteration order of the
    hash map is [map_to_list]'s. *)

From Stdlib Require Import ZArith Lia Sorted.
From stdpp Require Import base list strings gmap sorting.
From S2P Require Import Prelude Text BTree Float Time Ir Config Target Breaker ScorecardEntry.

#[local] Open Scope Z_scope.

Abbreviation Key := (string * string)%type.
Abbreviation Scorecard := (gmap Key Entry).

Definition Scorecard_new : Scorecard := ∅.

Definition ttl_of (cfg : ScorecardConfig) : Duration :=
  from_secs (window_ttl_secs (sc_window cfg)).

(** [get_or_create], the entry to work on. *)
Definition get_or_create (sc : Scorecard) (target_id class : string) (seed : Prior) : Entry :=
  default (Entry_new seed) (sc !! (target_id, class)).

(** ** Outcomes *)

(** The counters after a sample of the class. *)
Definition count_streak (c : OutcomeClass) (e : Entry) : Entry :=
  match c with
  | TargetFailure => set_streaks (wrap32 (consecutive_failures e + 1)) 0 e
  | Success => set_streaks 0 (wrap32 (consecutive_successes e + 1)) e
  | Truncated | Refusal | ClientOrAccountFault | Cancelled => e
  end.

(** The TTL reset both paths start with. *)
Definition ttl_reset (stats : WindowStats) (e : Entry) : Entry :=
  let '(e, changed) := reset_if_ttl_lapsed stats e in
  if changed then set_dirty true e else e.

(** [record], on the locked entry. *)
Definition record_entry (cfg : ScorecardConfig) (sample : Sample) (e : Entry) : Entry :=
  let now := s_ts sample in
  let ttl := ttl_of cfg in
  let e := ttl_reset (window_stats (ring e) (prior e) now ttl) e in
  let e := push sample (window_max_samples (sc_window cfg)) e in
  let e := count_streak (s_class sample) e in
  let stats := window_stats (ring e) (prior e) now ttl in
  set_dirty true (apply_hysteresis stats (sc_demotion cfg) now (s_class sample) e).

Definition record (sc : Scorecard) (target_id class : string) (seed : Prior)
    (cfg : ScorecardConfig) (sample : Sample) : Scorecard :=
  if negb (sc_enabled cfg) then sc
  else <[(target_id, class) := record_entry cfg sample (get_or_create sc target_id class seed)]> sc.

(** [project], on the locked entry. *)
Definition project_entry (cfg : ScorecardConfig) (now : Instant) (e : Entry)
  : option OutcomeSignal * Entry :=
  let stats := window_stats (ring e) (prior e) now (ttl_of cfg) in
  let e := ttl_reset stats e in
  (if (n_scoreable stats =? 0) && negb (hydrated e) then None
   else if negb (is_finite (p_hat stats)) || negb (is_finite (ws_health_factor stats)) then None
   else
     let trigger := if bool_decide (tier e = TierDemoted) then demote_trigger e else None in
     Some (mkOutcomeSignal (n_scoreable stats) (f32_of_f64 (p_hat stats))
       (p50_latency_ms stats) (p95_latency_ms stats) (cost_per_success_micros stats)
       (f32_of_f64 (trunc_rate stats)) (dominant_error stats) (tier e)
       (ws_health_factor stats) trigger (ScorecardEntry.consecutive_failures e)),
   e).

Definition project (sc : Scorecard) (target_id class : string) (cfg : ScorecardConfig)
    (now : Instant) : option OutcomeSignal * Scorecard :=
  if negb (sc_enabled cfg) then (None, sc)
  else match sc !! (target_id, class) with
  | None => (None, sc)
  | Some e =>
      let '(signal, e') := project_entry cfg now e in
      (signal, <[(target_id, class) := e']> sc)
  end.

(** ** Quality *)

Definition quality_sample_ok (evaluator_id : string) (sample : QualitySample) : bool :=
  negb (trim_is_empty evaluator_id) && negb (trim_is_empty (q_judgment_id sample))
  && (0 <=? q_created_at_ms sample) && is_finite (q_score_norm sample)
  && in_unit (q_score_norm sample).

(** [record_quality], on the locked entry. *)
Definition record_quality_entry (max_samples : Z) (evaluator_id : string)
    (sample : QualitySample) (e : Entry) : Entry :=
  let e := if bool_decide (quality_evaluator_id e = Some evaluator_id) then e
           else set_quality [] (Some evaluator_id) e in
  set_dirty true (push_quality sample max_samples e).

Definition record_quality (sc : Scorecard) (target_id class evaluator_id : string)
    (cfg : ScorecardConfig) (quality_cfg : QualityEvalConfig) (sample : QualitySample)
  : Scorecard :=
  if negb (sc_enabled cfg) || negb (qe_enabled quality_cfg)
     || negb (quality_sample_ok evaluator_id sample) then sc
  else <[(target_id, class) :=
          record_quality_entry (window_max_samples (sc_window cfg)) evaluator_id sample
            (get_or_create sc target_id class (Prior_from_config cfg))]> sc.

Definition project_quality (sc : Scorecard) (target_id class evaluator_id : string)
    (cfg : ScorecardConfig) (quality_cfg : QualityEvalConfig) (now : Instant)
  : option QualitySignal * Scorecard :=
  if negb (sc_enabled cfg) || negb (qe_enabled quality_cfg) then (None, sc)
  else match sc !! (target_id, class) with
  | None => (None, sc)
  | Some e =>
      if negb (bool_decide (quality_evaluator_id e = Some evaluator_id)) then (None, sc)
      else
        let '(ring', pruned) := prune_quality (quality_ring e) now (ttl_of cfg) in
        let e' := set_quality ring' (quality_evaluator_id e) e in
        let e' := if pruned then set_dirty true e' else e' in
        ((fun stats => mkQualitySignal (qst_ewma stats) (qst_samples stats)
            (qst_age_secs stats) evaluator_id)
         <$> quality_stats ring' now (ttl_of cfg) (qe_ewma_alpha quality_cfg),
         <[(target_id, class) := e']> sc)
  end.

(** One target after the other, as the iterator chain does. *)
Definition project_all_quality (sc : Scorecard) (class evaluator_id : string)
    (cfg : ScorecardConfig) (quality_cfg : QualityEvalConfig) (now : Instant)
  : BTreeMap string QualitySignal * Scorecard :=
  let target_ids := fst <$> List.filter (fun k : Key => str_eqb k.2 class)
    (fst <$> map_to_list sc) in
  let '(signals, sc') := fold_left (fun acc target_id =>
    let '(signal, sc') := project_quality acc.2 target_id class evaluator_id cfg quality_cfg now in
    (match signal with Some s => acc.1 ++ [(target_id, s)] | None => acc.1 end, sc'))
    target_ids ([], sc) in
  (bt_collect signals, sc').

Record QualityJudgmentRecord := mkQualityJudgmentRecord {
  qj_judgment_id : string;
  qj_served_target_id : string;
  qj_class : string;
  qj_evaluator_id : string;
  qj_status : string;
  qj_score_norm : option f64;
  qj_created_at_ms : Z
}.

Section Replay.
(** The earliest instant of the platform's clock. *)
Context (clock_floor : Instant).

(** The first loop of [replay_quality]: every ring is emptied. *)
Definition clear_quality (evaluator_id : string) (e : Entry) : Entry :=
  if negb (list_empty (quality_ring e))
     || negb (bool_decide (quality_evaluator_id e = Some evaluator_id))
  then set_dirty true (set_quality [] (Some evaluator_id) e)
  else e.

(** The sample a row stands for, if the row is replayed. *)
Definition replay_sample (evaluator_id : string) (cfg : ScorecardConfig) (now : Instant)
    (now_epoch_ms : Z) (row : QualityJudgmentRecord) : option QualitySample :=
  let ttl_ms := i64_sat_mul (wrap_i64 (window_ttl_secs (sc_window cfg))) 1000 in
  if negb (str_eqb (qj_status row) "scored")
     || negb (str_eqb (qj_evaluator_id row) evaluator_id)
     || (qj_created_at_ms row <? i64_sat_sub now_epoch_ms ttl_ms) then None
  else match qj_score_norm row with
  | None => None
  | Some score_norm =>
      let age_ms := wrap64 (Z.max (i64_sat_sub now_epoch_ms (qj_created_at_ms row)) 0) in
      let ts := default now (checked_sub clock_floor now (from_millis age_ms)) in
      Some (mkQualitySample (qj_judgment_id row) ts (qj_created_at_ms row) score_norm)
  end.

Definition replay_row (evaluator_id : string) (cfg : ScorecardConfig)
    (quality_cfg : QualityEvalConfig) (now : Instant) (now_epoch_ms : Z) (sc : Scorecard)
    (row : QualityJudgmentRecord) : Scorecard :=
  match replay_sample evaluator_id cfg now now_epoch_ms row with
  | None => sc
  | Some sample =>
      record_quality sc (qj_served_target_id row) (qj_class row) evaluator_id cfg quality_cfg
        sample
  end.

Definition replay_quality (sc : Scorecard) (rows : list QualityJudgmentRecord)
    (evaluator_id : string) (cfg : ScorecardConfig) (quality_cfg : QualityEvalConfig)
    (now : Instant) (now_epoch_ms : Z) : Scorecard :=
  if negb (sc_enabled cfg) || negb (qe_enabled quality_cfg) || trim_is_empty evaluator_id
  then sc
  else fold_left (replay_row evaluator_id cfg quality_cfg now now_epoch_ms) rows
    (clear_quality evaluator_id <$> sc).

(** ** Persistence *)

Definition hydrate_step (cfg : ScorecardConfig) (now : Instant) (now_epoch_ms : Z)
    (sc : Scorecard) (row : ScorecardRow) : Scorecard :=
  match hydrate_row row cfg now_epoch_ms with
  | None => sc
  | Some (pr, t) =>
      let e := get_or_create sc (row_target_id row) (row_class row) pr in
      let since :=
        if bool_decide (t = TierDemoted) then
          ms ← row_demoted_since_ms row;
          let age_ms := wrap64 (Z.max (i64_sat_sub now_epoch_ms ms) 0) in
          checked_sub clock_floor now (from_millis age_ms)
        else None in
      <[(row_target_id row, row_class row) :=
         mkEntry (ring e) (quality_ring e) (quality_evaluator_id e) (ScorecardEntry.consecutive_failures e)
           (consecutive_successes e) t since (demote_trigger e) pr true (dirty e)]> sc
  end.

Definition hydrate (sc : Scorecard) (rows : list ScorecardRow) (cfg : ScorecardConfig)
    (now : Instant) (now_epoch_ms : Z) : Scorecard :=
  fold_left (hydrate_step cfg now now_epoch_ms) rows sc.

End Replay.

Section Snapshot.
(** [serde_json] rendering the error counts. *)
Context (render_histogram : list (ErrorClass * Z) -> string).

(** The row of one dirty entry, and the entry after it was read. *)
Definition snapshot_entry (cfg : ScorecardConfig) (quality_cfg : QualityEvalConfig)
    (now : Instant) (now_epoch_ms : Z) (k : Key) (e : Entry) : ScorecardRow * Entry :=
  let ttl := ttl_of cfg in
  let stats := window_stats (ring e) (prior e) now ttl in
  let qring := (prune_quality (quality_ring e) now ttl).1 in
  let e := set_quality qring (quality_evaluator_id e) e in
  let quality := if qe_enabled quality_cfg
    then quality_stats qring now ttl (qe_ewma_alpha quality_cfg) else None in
  let demoted_since_ms :=
    since ← demoted_since e;
    age ← checked_duration_since now since;
    Some (wrap_i64 (now_epoch_ms - wrap_i64 (as_millis age))) in
  (mkScorecardRow k.1 k.2 (n_scoreable stats) (success_count stats) (truncated_count stats)
     (target_fail_count stats) (p50_latency_ms stats) (p95_latency_ms stats)
     (cost_per_success_micros stats) (render_histogram (error_counts (ring e) now ttl))
     (ScorecardEntry.consecutive_failures e)
     match tier e with TierHealthy => 0 | TierDemoted => 1 end
     demoted_since_ms (qst_ewma <$> quality)
     match quality with Some q => qst_samples q | None => 0 end
     (qst_updated_at_ms <$> quality)
     match quality with Some _ => quality_evaluator_id e | None => None end
     now_epoch_ms 1,
   set_dirty false e).

Definition dirty_snapshot_inner (sc : Scorecard) (cfg : ScorecardConfig)
    (quality_cfg : QualityEvalConfig) (now : Instant) (now_epoch_ms : Z)
  : list ScorecardRow * Scorecard :=
  fold_left (fun acc (ke : Key * Entry) =>
    if negb (dirty ke.2) then acc
    else
      let '(row, e') := snapshot_entry cfg quality_cfg now now_epoch_ms ke.1 ke.2 in
      (acc.1 ++ [row], <[ke.1 := e']> acc.2))
    (map_to_list sc) ([], sc).

Definition dirty_snapshot (sc : Scorecard) (cfg : ScorecardConfig) (now : Instant)
    (now_epoch_ms : Z) : list ScorecardRow * Scorecard :=
  dirty_snapshot_inner sc cfg QualityEvalConfig_default now now_epoch_ms.

End Snapshot.

Definition mark_dirty (sc : Scorecard) (keys : list Key) : Scorecard :=
  fold_left (fun sc k =>
    match sc !! k with Some e => <[k := set_dirty true e]> sc | None => sc end) keys sc.

(** ** The attempt-terminal seam *)

Inductive FinishOutcome :=
| FinishOk (finish_reason : FinishReason) (cost_micros : option Z)
| FinishFailed (error_class : ErrorClass)
| FinishCancelled.

Record AttemptFinishCtx := mkAttemptFinishCtx {
  fc_request_id : string;
  fc_target_id : string;
  fc_provider_id : string;
  fc_account_id : string;
  fc_egress : string;
  fc_latency_ms : Z
}.

(** What the plugins are told. *)
Record AttemptInfo := mkAttemptInfo {
  ai_ctx : AttemptFinishCtx;
  ai_ok : bool;
  ai_error_class : option string
}.

(** The components an attempt's end touches: the resolver's breaker, the plugin
    host (as the list of notifications it received) and the scorecard. *)
Record AttemptWorld := mkAttemptWorld {
  w_breaker : Breaker.CircuitBreaker;
  w_post_attempts : list AttemptInfo;
  w_scorecard : Scorecard
}.

(** [now_breaker] and [now] are the two clock reads of the source, one in
    [circuit_record] and one for the sample. *)
Definition finish_attempt (w : AttemptWorld) (cfg : ScorecardConfig) (ctx : AttemptFinishCtx)
    (outcome : FinishOutcome) (now_breaker now : Instant) : AttemptWorld :=
  let breaker := match outcome with
    | FinishOk _ _ => Breaker.record (w_breaker w) (fc_provider_id ctx) true now_breaker
    | FinishFailed _ => Breaker.record (w_breaker w) (fc_provider_id ctx) false now_breaker
    | FinishCancelled => w_breaker w
    end in
  let '(ok, error_class_str) := match outcome with
    | FinishOk _ _ => (true, None)
    | FinishFailed error_class => (false, Some (error_class_as_str error_class))
    | FinishCancelled => (false, Some "client_aborted")
    end in
  let info := mkAttemptInfo ctx ok error_class_str in
  let cost_micros := match outcome with FinishOk _ cost => cost | _ => None end in
  let latency_ms_u32 := if fc_latency_ms ctx <=? u32_max then fc_latency_ms ctx else u32_max in
  let attempt_outcome := match outcome with
    | FinishOk finish_reason _ => AttemptOk finish_reason
    | FinishFailed error_class => AttemptFailed error_class
    | FinishCancelled => AttemptCancelled
    end in
  let err := match attempt_outcome with AttemptFailed e => Some e | _ => None end in
  let sample := mkSample now (classify attempt_outcome) latency_ms_u32 cost_micros err in
  mkAttemptWorld breaker (w_post_attempts w ++ [info])
    (record (w_scorecard w) (fc_target_id ctx) "any" (Prior_from_config cfg) cfg sample).
