(* ===== verification/ScorecardTheorems.v ===== *)
(** * The outcome scorecard: theorems

    The invariant of reachable scorecards, demotion and recovery, projections,
    replay of quality judgments and persistence. *)

From Stdlib Require Import ZArith Lia Sorted Permutation.
From stdpp Require Import base list strings gmap sorting.
From S2P Require Import Prelude Text BTree Float Time Ir Config Target Breaker ScorecardEntry Availability Scorecard.

#[local] Open Scope Z_scope.

(** ** The quality ring *)

Definition quality_key (s : QualitySample) : Z * string := (q_created_at_ms s, q_judgment_id s).

#[export] Instance quality_preorder : TotalPreorder quality_cmp.
Proof. exact (on_preorder quality_key (lex_cmp Z.compare String.compare)). Qed.

(** Bounded, in chronological order, one sample per judgment. *)
Definition quality_wf (max : Z) (l : list QualitySample) : Prop :=
  Z.of_nat (length l) <= Z.max max 1
  /\ StronglySorted (cmp_le quality_cmp) l
  /\ NoDup (q_judgment_id <$> l).

Lemma replace_or_push_ids s l :
  q_judgment_id <$> replace_or_push s l
  = if decide (q_judgment_id s ∈ q_judgment_id <$> l) then q_judgment_id <$> l
    else (q_judgment_id <$> l) ++ [q_judgment_id s].
Proof.
  induction l as [|x l IH]; [done|]. cbn [replace_or_push].
  destruct (str_eqb (q_judgment_id x) (q_judgment_id s)) eqn:E.
  - apply str_eqb_eq in E. rewrite decide_True by (rewrite fmap_cons, E; by left).
    by rewrite !fmap_cons, E.
  - assert (Hne : q_judgment_id x <> q_judgment_id s).
    { intros Heq. rewrite Heq, str_eqb_refl in E. done. }
    rewrite !fmap_cons, IH. destruct (decide (q_judgment_id s ∈ q_judgment_id <$> l)) as [Hin|Hin].
    + rewrite decide_True by (by right). done.
    + rewrite decide_False; [done|]. intros [Heq|?]%elem_of_cons; [by apply Hne|done].
Qed.

Lemma suffix_sorted {A} (R : A -> A -> Prop) l l' :
  l `suffix_of` l' -> StronglySorted R l' -> StronglySorted R l.
Proof. intros [k ->] H. by apply StronglySorted_app in H as (_ & _ & ?). Qed.

Lemma push_quality_wf s max l : quality_wf max l -> quality_wf max (push_quality_ring s max l).
Proof.
  intros (_ & _ & Hnd). unfold push_quality_ring, quality_wf.
  pose proof (pop_while_gt_suffix (Z.max max 1) (sort_by quality_cmp (replace_or_push s l))) as Hs.
  split_and!.
  - apply pop_while_gt_length. lia.
  - apply (suffix_sorted _ _ _ Hs). apply sort_by_sorted, _.
  - destruct Hs as [k Hk].
    assert (Hd : NoDup (q_judgment_id <$> sort_by quality_cmp (replace_or_push s l))).
    { rewrite (sort_by_perm quality_cmp), replace_or_push_ids. case_decide; [done|].
      apply NoDup_app. split_and!; [done| |apply NoDup_singleton].
      by intros x Hx ->%list_elem_of_singleton. }
    rewrite Hk, fmap_app in Hd. by apply NoDup_app in Hd as (_ & _ & ?).
Qed.

Lemma filter_quality_wf max (p : QualitySample -> bool) l :
  quality_wf max l -> quality_wf max (List.filter p l).
Proof.
  intros (Hl & Hs & Hd). split_and!.
  - pose proof (List.filter_length_le p l). lia.
  - clear Hl Hd. induction Hs as [|x l Hl IH Hx]; simpl; [constructor|].
    destruct (p x); [|done]. constructor; [done|]. rewrite List.Forall_forall in *.
    intros y Hy. apply List.filter_In in Hy as [? _]. auto.
  - clear Hl Hs. induction l as [|x l IH]; [done|]. simpl in *.
    apply NoDup_cons in Hd as [Hx Hd]. destruct (p x); [|auto]. simpl. constructor; [|auto].
    intros Hin. apply Hx. apply list_elem_of_fmap in Hin as (y & -> & Hy).
    apply list_elem_of_fmap. exists y. split; [done|].
    apply list_elem_of_In, List.filter_In in Hy as [? _]. by apply list_elem_of_In.
Qed.

Lemma nil_quality_wf max : quality_wf max [].
Proof. split_and!; [simpl; lia|constructor|constructor]. Qed.

(** ** The invariant *)

Record entry_wf (max : Z) (e : Entry) : Prop := {
  wf_ring : Z.of_nat (length (ring e)) <= Z.max max 1;
  wf_quality : quality_wf max (quality_ring e);
  wf_tier : tier e = TierHealthy -> demoted_since e = None /\ demote_trigger e = None;
  wf_streaks : ScorecardEntry.consecutive_failures e = 0 \/ consecutive_successes e = 0;
  wf_widths : in_u32 (ScorecardEntry.consecutive_failures e) /\ in_u32 (consecutive_successes e)
}.

Lemma wrap32_range z : in_u32 (wrap32 z).
Proof. unfold in_u32, u32_max, wrap32. pose proof (Z.mod_pos_bound z (2 ^ 32)). lia. Qed.

Lemma in_u32_0 : in_u32 0.
Proof. unfold in_u32, u32_max. lia. Qed.

#[local] Hint Resolve wrap32_range in_u32_0 nil_quality_wf : switchback.

Lemma Entry_new_wf max p : entry_wf max (Entry_new p).
Proof. split; simpl; auto with switchback; lia. Qed.

Lemma ttl_reset_wf max stats e : entry_wf max e -> entry_wf max (ttl_reset stats e).
Proof.
  intros [Hr Hq Ht Hs Hw]. unfold ttl_reset, reset_if_ttl_lapsed.
  destruct (negb (n_scoreable stats =? 0)); [by split|].
  destruct (_ || _); split; simpl; auto with switchback.
Qed.

Lemma count_streak_wf max c e : entry_wf max e -> entry_wf max (count_streak c e).
Proof.
  intros [Hr Hq Ht Hs Hw]. destruct c; split; simpl; auto; split; auto with switchback.
Qed.

Lemma apply_hysteresis_wf max stats cfg now c e :
  entry_wf max e -> entry_wf max (apply_hysteresis stats cfg now c e).
Proof.
  intros He. unfold apply_hysteresis. pose proof He as [Hr Hq Ht Hs Hw].
  destruct (tier e) eqn:E; [destruct (negb _); [done|]|]; destruct (_ || _); try done;
    split; simpl; auto; done.
Qed.

Lemma set_dirty_wf max b e : entry_wf max e -> entry_wf max (set_dirty b e).
Proof. intros []. by split. Qed.

Lemma push_wf max s e : entry_wf max e -> entry_wf max (push s max e).
Proof. intros []. split; auto. apply push_length. Qed.

Lemma set_quality_wf max l ev e :
  quality_wf max l -> entry_wf max e -> entry_wf max (set_quality l ev e).
Proof. intros Hl []. by split. Qed.

Lemma record_entry_wf cfg s e :
  entry_wf (window_max_samples (sc_window cfg)) e ->
  entry_wf (window_max_samples (sc_window cfg)) (record_entry cfg s e).
Proof.
  intros He. unfold record_entry. cbv zeta.
  apply set_dirty_wf, apply_hysteresis_wf, count_streak_wf, push_wf, ttl_reset_wf, He.
Qed.

Lemma record_quality_entry_wf max ev s e :
  entry_wf max e -> entry_wf max (record_quality_entry max ev s e).
Proof.
  intros He. unfold record_quality_entry. cbv zeta. apply set_dirty_wf. unfold push_quality.
  case_bool_decide; repeat apply set_quality_wf; try apply push_quality_wf; try apply He;
    try apply nil_quality_wf.
Qed.

Lemma clear_quality_wf max ev e : entry_wf max e -> entry_wf max (clear_quality ev e).
Proof.
  intros He. unfold clear_quality. destruct (_ || _); [|done].
  apply set_dirty_wf, set_quality_wf; [apply nil_quality_wf|done].
Qed.

Lemma prune_quality_wf max l now ttl :
  quality_wf max l -> quality_wf max (prune_quality l now ttl).1.
Proof. apply filter_quality_wf. Qed.

(** ** Runs *)

(** A run of the process: one hydration at start, then any interleaving of the
    operations. *)
Inductive reachable (clock_floor : Instant) (render : list (ErrorClass * Z) -> string)
    (cfg : ScorecardConfig) (qcfg : QualityEvalConfig) : Scorecard -> Prop :=
| reach_hydrate rows now ms :
    reachable clock_floor render cfg qcfg (hydrate clock_floor Scorecard_new rows cfg now ms)
| reach_record sc t c seed s :
    reachable clock_floor render cfg qcfg sc ->
    reachable clock_floor render cfg qcfg (record sc t c seed cfg s)
| reach_project sc t c now :
    reachable clock_floor render cfg qcfg sc ->
    reachable clock_floor render cfg qcfg (project sc t c cfg now).2
| reach_record_quality sc t c ev s :
    reachable clock_floor render cfg qcfg sc ->
    reachable clock_floor render cfg qcfg (record_quality sc t c ev cfg qcfg s)
| reach_project_quality sc t c ev now :
    reachable clock_floor render cfg qcfg sc ->
    reachable clock_floor render cfg qcfg (project_quality sc t c ev cfg qcfg now).2
| reach_replay sc rows ev now ms :
    reachable clock_floor render cfg qcfg sc ->
    reachable clock_floor render cfg qcfg (replay_quality clock_floor sc rows ev cfg qcfg now ms)
| reach_snapshot sc now ms :
    reachable clock_floor render cfg qcfg sc ->
    reachable clock_floor render cfg qcfg (dirty_snapshot_inner render sc cfg qcfg now ms).2
| reach_mark sc keys :
    reachable clock_floor render cfg qcfg sc ->
    reachable clock_floor render cfg qcfg (mark_dirty sc keys).

Section Invariant.
Context (clock_floor : Instant) (render : list (ErrorClass * Z) -> string)
  (cfg : ScorecardConfig) (qcfg : QualityEvalConfig).

Let max := window_max_samples (sc_window cfg).

Definition sc_wf (sc : Scorecard) : Prop :=
  map_Forall (fun _ e => entry_wf (window_max_samples (sc_window cfg)) e) sc.

Lemma get_or_create_wf sc t c seed : sc_wf sc -> entry_wf max (get_or_create sc t c seed).
Proof.
  intros H. unfold get_or_create. destruct (sc !! (t, c)) as [e|] eqn:E; simpl.
  - by apply (H (t, c)).
  - apply Entry_new_wf.
Qed.

Lemma insert_wf sc k e : sc_wf sc -> entry_wf max e -> sc_wf (<[k := e]> sc).
Proof. intros H He. by apply map_Forall_insert_2. Qed.

Lemma record_quality_wf sc t c ev s : sc_wf sc -> sc_wf (record_quality sc t c ev cfg qcfg s).
Proof.
  intros H. unfold record_quality. destruct (_ || _); [done|].
  apply insert_wf, record_quality_entry_wf, get_or_create_wf; done.
Qed.

Lemma replay_wf rows ev now ms sc :
  sc_wf sc -> sc_wf (fold_left (replay_row clock_floor ev cfg qcfg now ms) rows sc).
Proof.
  revert sc. induction rows as [|row rows IH]; intros sc H; simpl; [done|]. apply IH.
  unfold replay_row. destruct (replay_sample _ _ _ _ _ _); [|done]. by apply record_quality_wf.
Qed.

Lemma snapshot_wf now ms l acc :
  (forall k e, (k, e) ∈ l -> entry_wf max e) -> sc_wf acc.2 ->
  sc_wf (fold_left (fun acc (ke : Key * Entry) =>
    if negb (dirty ke.2) then acc
    else
      let '(row, e') := snapshot_entry render cfg qcfg now ms ke.1 ke.2 in
      (acc.1 ++ [row], <[ke.1 := e']> acc.2)) l acc).2.
Proof.
  revert acc. induction l as [|[k e] l IH]; intros acc Hl Ha; [done|]. cbn [fold_left fst snd].
  apply IH; [intros k' e' Hin; apply (Hl k' e'); by right|].
  destruct (negb (dirty e)); [done|]. unfold snapshot_entry. cbn [snd]. apply insert_wf; [done|].
  assert (He : entry_wf max e) by (apply (Hl k e); by left).
  apply set_dirty_wf, set_quality_wf; [|done]. apply prune_quality_wf, He.
Qed.

(** While hydrating, no entry has a trigger. *)
Lemma hydrate_wf rows now ms sc :
  sc_wf sc -> map_Forall (fun _ e => demote_trigger e = None) sc ->
  sc_wf (hydrate clock_floor sc rows cfg now ms).
Proof.
  unfold hydrate. revert sc. induction rows as [|row rows IH]; intros sc H Ht; [done|].
  cbn [fold_left]. apply IH; unfold hydrate_step;
    destruct (hydrate_row row cfg ms) as [[pr t]|]; try done.
  - pose proof (get_or_create_wf sc (row_target_id row) (row_class row) pr H) as [].
    apply insert_wf; [done|]. split; simpl; try done. intros ->. split; [done|].
    unfold get_or_create. destruct (sc !! _) as [e|] eqn:E; [|done]. by apply (Ht _ _ E).
  - apply map_Forall_insert_2; [|done]. simpl. unfold get_or_create.
    destruct (sc !! _) as [e|] eqn:E; [|done]. by apply (Ht _ _ E).
Qed.

Lemma mark_dirty_wf keys sc : sc_wf sc -> sc_wf (mark_dirty sc keys).
Proof.
  unfold mark_dirty. revert sc. induction keys as [|k keys IH]; intros sc H; [done|].
  cbn [fold_left]. apply IH. destruct (sc !! k) as [e|] eqn:E; [|done].
  apply insert_wf; [done|]. apply set_dirty_wf. by apply (H k).
Qed.

Lemma scorecard_reachable_wf sc : reachable clock_floor render cfg qcfg sc -> sc_wf sc.
Proof.
  induction 1 as [rows now ms|sc t c seed s _ IH|sc t c now _ IH|sc t c ev s _ IH
    |sc t c ev now _ IH|sc rows ev now ms _ IH|sc now ms _ IH|sc keys _ IH].
  - apply hydrate_wf; apply map_Forall_empty.
  - unfold record. destruct (negb _); [done|].
    apply insert_wf, record_entry_wf, get_or_create_wf; done.
  - unfold project. destruct (negb _); [done|]. destruct (sc !! (t, c)) as [e|] eqn:E; [|done].
    unfold project_entry. cbn [snd]. apply insert_wf, ttl_reset_wf; [done|]. by apply (IH (t, c)).
  - by apply record_quality_wf.
  - unfold project_quality. destruct (_ || _); [done|].
    destruct (sc !! (t, c)) as [e|] eqn:E; [|done]. destruct (negb _); [done|].
    assert (He : entry_wf max e) by (by apply (IH (t, c))).
    pose proof (prune_quality_wf max (quality_ring e) now (ttl_of cfg) (wf_quality _ _ He)) as Hp.
    destruct (prune_quality _ _ _) as [l pruned]. cbn [snd]. apply insert_wf; [done|].
    destruct pruned; [apply set_dirty_wf|]; by apply set_quality_wf.
  - unfold replay_quality. destruct (_ || _); [done|]. apply replay_wf.
    intros k e. rewrite lookup_fmap. destruct (sc !! k) as [e0|] eqn:E; [|done].
    intros [= <-]. apply clear_quality_wf. by apply (IH k).
  - apply snapshot_wf; [|done]. intros k e Hin. apply elem_of_map_to_list in Hin. by apply (IH k).
  - by apply mark_dirty_wf.
Qed.

End Invariant.

(** C37 (invariant). However the operations interleave after the start-up
    hydration, every entry's rings stay within the configured window, the quality
    ring is chronological with one sample per judgment, a healthy entry carries no
    demotion mark, and the two streak counters are never both running. *)
Theorem scorecard_invariant clock_floor render cfg qcfg sc k e :
  reachable clock_floor render cfg qcfg sc -> sc !! k = Some e ->
  entry_wf (window_max_samples (sc_window cfg)) e.
Proof. intros H He. by apply (scorecard_reachable_wf clock_floor render cfg qcfg sc H k). Qed.

(** ** Who can demote *)

Lemma tier_push s max e : tier (push s max e) = tier e.
Proof. done. Qed.

Lemma tier_count_streak c e : tier (count_streak c e) = tier e.
Proof. by destruct c. Qed.

Lemma tier_ttl_reset stats e :
  tier (ttl_reset stats e) = if n_scoreable stats =? 0 then TierHealthy else tier e.
Proof.
  unfold ttl_reset, reset_if_ttl_lapsed. destruct (n_scoreable stats =? 0); simpl; [|done].
  by destruct (_ || _).
Qed.

Lemma ring_ttl_reset stats e : ring (ttl_reset stats e) = ring e.
Proof. unfold ttl_reset, reset_if_ttl_lapsed. repeat case_match; by simplify_eq/=. Qed.

Lemma ring_hysteresis stats cfg now c e : ring (apply_hysteresis stats cfg now c e) = ring e.
Proof. unfold apply_hysteresis. by repeat case_match. Qed.

Lemma streaks_hysteresis stats cfg now c e :
  ScorecardEntry.consecutive_failures (apply_hysteresis stats cfg now c e)
    = ScorecardEntry.consecutive_failures e
  /\ consecutive_successes (apply_hysteresis stats cfg now c e) = consecutive_successes e.
Proof. unfold apply_hysteresis. by repeat case_match. Qed.

(** The ring after a record. *)
Lemma ring_record_entry cfg s e :
  ring (record_entry cfg s e)
  = pop_while_ge (Z.max (window_max_samples (sc_window cfg)) 1) (ring e) ++ [s].
Proof.
  unfold record_entry. cbv zeta. simpl. rewrite ring_hysteresis.
  destruct (s_class s); simpl; by rewrite ring_ttl_reset.
Qed.

Lemma record_entry_demotes cfg s e :
  tier (record_entry cfg s e) = TierDemoted ->
  tier e = TierDemoted \/ target_negative (s_class s) = true.
Proof.
  unfold record_entry. cbv zeta. cbn [set_dirty tier].
  set (e1 := ttl_reset _ e). assert (H1 : tier e1 = TierDemoted -> tier e = TierDemoted).
  { unfold e1. rewrite tier_ttl_reset. by destruct (_ =? 0). }
  clearbody e1. set (e2 := count_streak _ _).
  assert (H2 : tier e2 = tier e1) by (unfold e2; by rewrite tier_count_streak).
  clearbody e2. unfold apply_hysteresis. rewrite H2.
  destruct (tier e1); [|auto]. destruct (target_negative (s_class s)); [auto|]. simpl.
  rewrite H2. auto.
Qed.

(** An outcome that says nothing against the target: a cancellation, an answer
    that was neither cut short nor an error, a failure that describes the request,
    or one that concerns the account. *)
Definition not_the_target (o : FinishOutcome) : Prop :=
  match o with
  | FinishCancelled => True
  | FinishOk r _ => r <> Length /\ r <> FinishError
  | FinishFailed c =>
      Availability.request_fault c = true \/ Availability.account_wide c = true
      \/ c = QuotaExceeded
  end.

(** Ending an attempt with an outcome that says nothing against the
    target demotes nobody: every demoted entry was demoted before. *)
Theorem neutral_never_demotes w cfg ctx outcome nb now k e :
  not_the_target outcome ->
  w_scorecard (finish_attempt w cfg ctx outcome nb now) !! k = Some e ->
  tier e = TierDemoted ->
  exists e0, w_scorecard w !! k = Some e0 /\ tier e0 = TierDemoted.
Proof.
  intros Hn Hk Ht. unfold finish_attempt in Hk.
  destruct (match outcome with FinishOk _ _ => (true, None) | _ => _ end) as [ok str].
  cbn [w_scorecard] in Hk. unfold record in Hk.
  destruct (negb (sc_enabled cfg)); [eauto|].
  destruct (decide (k = (fc_target_id ctx, "any"))) as [->|Hne];
    [|rewrite lookup_insert_ne in Hk by done; eauto].
  rewrite lookup_insert_eq in Hk. injection Hk as <-.
  apply record_entry_demotes in Ht as [Ht|Ht].
  - unfold get_or_create in Ht. destruct (w_scorecard w !! _) as [e0|]; [eauto|done].
  - exfalso. destruct outcome as [[] ?|[]|]; simpl in *; naive_solver.
Qed.

(** ** Projections *)

Lemma live_scoreable cfg e now :
  Z.of_nat (length (ring e)) <= u32_max ->
  n_scoreable (window_stats (ring e) (prior e) now (ttl_of cfg)) <> 0 ->
  exists s, s ∈ ring e /\ is_scoreable (s_class s) = true
    /\ is_live (s_ts s) now (ttl_of cfg) = true.
Proof.
  intros Hl Hn. rewrite n_scoreable_spec in Hn by done. unfold count_class in Hn.
  destruct (List.filter _ (live_samples _ _ _)) as [|s l] eqn:E; [done|].
  assert (Hin : In s (s :: l)) by (by left). rewrite <- E in Hin.
  apply List.filter_In in Hin as [Hin Hs]. apply List.filter_In in Hin as [Hin Hv].
  exists s. by rewrite list_elem_of_In.
Qed.

(** A demotion the router is told about rests on live evidence: the
    entry is demoted by hysteresis and holds a scoreable sample within the TTL; so
    a demotion whose evidence has aged out is lifted by the read that looks at
    it. *)
Theorem projected_demotion_is_live clock_floor render cfg qcfg sc t c now o :
  window_max_samples (sc_window cfg) <= u32_max ->
  reachable clock_floor render cfg qcfg sc ->
  (project sc t c cfg now).1 = Some o -> os_tier o = TierDemoted ->
  exists e s, sc !! (t, c) = Some e /\ tier e = TierDemoted
    /\ s ∈ ring e /\ is_scoreable (s_class s) = true
    /\ is_live (s_ts s) now (ttl_of cfg) = true.
Proof.
  intros Hmax Hr. unfold project. destruct (negb _); [done|].
  destruct (sc !! (t, c)) as [e|] eqn:E; [|done]. unfold project_entry. cbv zeta. cbn [fst].
  intros Hp Ho. destruct (_ && _); [done|]. destruct (_ || _); [done|]. injection Hp as <-. cbn [os_tier] in Ho.
  rewrite tier_ttl_reset in Ho. destruct (Z.eqb_spec (n_scoreable
    (window_stats (ring e) (prior e) now (ttl_of cfg))) 0) as [|Hn]; [done|].
  apply live_scoreable in Hn as (s & ? & ? & ?); [by exists e, s|].
  pose proof (wf_ring _ _ (scorecard_reachable_wf _ _ _ _ _ Hr _ _ E)). unfold u32_max in *. lia.
Qed.

(** ** Streaks *)

Definition record_all (cfg : ScorecardConfig) (ss : list Sample) (e : Entry) : Entry :=
  fold_left (fun e s => record_entry cfg s e) ss e.

Lemma record_all_snoc cfg ss s e :
  record_all cfg (ss ++ [s]) e = record_entry cfg s (record_all cfg ss e).
Proof. unfold record_all. by rewrite fold_left_app. Qed.

Lemma streaks_ttl_reset stats e :
  ScorecardEntry.consecutive_failures (ttl_reset stats e)
    = (if n_scoreable stats =? 0 then 0 else ScorecardEntry.consecutive_failures e)
  /\ consecutive_successes (ttl_reset stats e)
    = (if n_scoreable stats =? 0 then 0 else consecutive_successes e).
Proof.
  unfold ttl_reset, reset_if_ttl_lapsed. destruct (n_scoreable stats =? 0); simpl; [|done].
  by destruct (_ || _).
Qed.

(** A success recorded: the entry is healthy, or the streak is one longer and
    still too short. *)
Lemma record_success cfg s e n :
  s_class s = Success -> 0 <= n -> in_u32 (consecutive_successes e + 1) ->
  tier e = TierHealthy \/ n <= consecutive_successes e ->
  0 <= consecutive_successes e ->
  0 <= consecutive_successes (record_entry cfg s e) <= consecutive_successes e + 1
  /\ (tier (record_entry cfg s e) = TierHealthy
      \/ n + 1 <= consecutive_successes (record_entry cfg s e)
         /\ n + 1 < fast_recover_streak (sc_demotion cfg)).
Proof.
  intros Hs Hn Hb Hc Hpos. unfold record_entry. cbv zeta. rewrite Hs.
  set (stats0 := window_stats (ring e) (prior e) (s_ts s) (ttl_of cfg)). set (e1 := push _ _ _).
  assert (Ht : tier e1 = if n_scoreable stats0 =? 0 then TierHealthy else tier e)
    by (unfold e1; rewrite tier_push; apply tier_ttl_reset).
  assert (Hc1 : consecutive_successes e1
    = if n_scoreable stats0 =? 0 then 0 else consecutive_successes e)
    by (exact (proj2 (streaks_ttl_reset stats0 e))).
  clearbody e1. set (stats := window_stats _ _ _ _). clearbody stats.
  cbn [set_dirty tier consecutive_successes]. rewrite (proj2 (streaks_hysteresis _ _ _ _ _)).
  cbn [count_streak set_streaks consecutive_successes]. rewrite wrap32_small.
  2: { rewrite Hc1. unfold in_u32, u32_max in *. destruct (n_scoreable stats0 =? 0); lia. }
  split; [rewrite Hc1; destruct (n_scoreable stats0 =? 0); lia|].
  unfold apply_hysteresis. cbn [count_streak set_streaks tier consecutive_successes
    ScorecardEntry.consecutive_failures target_negative negb].
  destruct (tier e1) eqn:E1; [left; simpl; congruence|].
  destruct (Z.leb_spec (fast_recover_streak (sc_demotion cfg)) (consecutive_successes e1 + 1))
    as [Hf|Hf]; [by left|].
  cbn [orb]. destruct (_ && _); [by left|]. right. rewrite Hc1 in *.
  destruct (n_scoreable stats0 =? 0); [done|].
  destruct Hc as [Hc|Hc]; [congruence|]. lia.
Qed.

(** Enough consecutive successes, however spaced in time, bring any
    entry back to healthy. *)
Theorem successes_recover cfg ss e :
  Forall (fun s => s_class s = Success) ss -> ss <> [] ->
  fast_recover_streak (sc_demotion cfg) <= Z.of_nat (length ss) ->
  0 <= consecutive_successes e ->
  consecutive_successes e + Z.of_nat (length ss) <= u32_max ->
  tier (record_all cfg ss e) = TierHealthy.
Proof.
  intros Hss Hne Hlen H0 Hb.
  assert (H : forall n ss', ss' = take n ss -> ss' <> [] ->
    0 <= consecutive_successes (record_all cfg ss' e)
      <= consecutive_successes e + Z.of_nat (length ss')
    /\ (tier (record_all cfg ss' e) = TierHealthy
        \/ Z.of_nat (length ss') <= consecutive_successes (record_all cfg ss' e)
           /\ Z.of_nat (length ss') < fast_recover_streak (sc_demotion cfg))).
  { intros n ss'. revert n. induction ss' as [|s ss' IH] using rev_ind; intros n Heq Hn; [done|].
    assert (Hin : s ∈ ss) by (rewrite <- (take_drop n ss), <- Heq; set_solver).
    assert (Hle : (length (ss' ++ [s]) <= length ss)%nat) by (rewrite Heq, length_take; lia).
    assert (Hpre : ss' = take (length ss') ss).
    { rewrite <- (take_drop n ss), <- Heq, <- app_assoc. by rewrite take_app_length. }
    rewrite record_all_snoc. rewrite length_app in *. cbn [length] in *.
    rewrite Forall_forall in Hss.
    destruct (decide (ss' = [])) as [->|Hne'].
    - destruct (record_success cfg s e 0) as [Hr1 Hr2];
        [by apply Hss|lia|unfold in_u32; simpl in *; lia|by right|done|].
      simpl in *. split; [lia|]. destruct Hr2; [by left|right; lia].
    - destruct (IH _ Hpre Hne') as [Hc Ht].
      destruct (record_success cfg s (record_all cfg ss' e) (Z.of_nat (length ss')))
        as [Hr1 Hr2]; [by apply Hss|lia|unfold in_u32; lia|naive_solver|lia|].
      split; [lia|]. destruct Hr2; [by left|right; lia]. }
  destruct (H (length ss) ss) as [_ [Ht|[_ Ht]]]; [by rewrite firstn_all|done|done|lia].
Qed.

(** A target failure recorded while evidence is live, or as the first of a
    series. *)
Lemma record_failure cfg s e n :
  s_class s = TargetFailure -> 1 <= fast_recover_streak (sc_demotion cfg) ->
  0 <= n <= ScorecardEntry.consecutive_failures e ->
  in_u32 (ScorecardEntry.consecutive_failures e + 1) ->
  n = 0 \/ n_scoreable (window_stats (ring e) (prior e) (s_ts s) (ttl_of cfg)) <> 0 ->
  n + 1 <= ScorecardEntry.consecutive_failures (record_entry cfg s e)
    <= ScorecardEntry.consecutive_failures e + 1
  /\ (fast_demote_streak (sc_demotion cfg) <= n + 1 ->
      tier (record_entry cfg s e) = TierDemoted).
Proof.
  intros Hs Hr Hn Hb Hlive. unfold record_entry. cbv zeta. rewrite Hs.
  set (stats0 := window_stats (ring e) (prior e) (s_ts s) (ttl_of cfg)) in *.
  set (e1 := push _ _ _).
  assert (Hc1 : ScorecardEntry.consecutive_failures e1
    = if n_scoreable stats0 =? 0 then 0 else ScorecardEntry.consecutive_failures e)
    by (exact (proj1 (streaks_ttl_reset stats0 e))).
  assert (Hc : n <= ScorecardEntry.consecutive_failures e1
    <= ScorecardEntry.consecutive_failures e).
  { rewrite Hc1. destruct (Z.eqb_spec (n_scoreable stats0) 0); [|lia].
    destruct Hlive; [lia|done]. }
  clearbody e1. set (stats := window_stats _ _ _ _). clearbody stats.
  cbn [set_dirty tier ScorecardEntry.consecutive_failures].
  rewrite (proj1 (streaks_hysteresis _ _ _ _ _)).
  cbn [count_streak set_streaks ScorecardEntry.consecutive_failures]. rewrite wrap32_small.
  2: { unfold in_u32, u32_max in *. lia. }
  split; [lia|]. intros Hst. unfold apply_hysteresis.
  cbn [set_streaks tier consecutive_successes ScorecardEntry.consecutive_failures
    target_negative negb].
  destruct (tier e1) eqn:E1.
  - destruct (Z.leb_spec (fast_demote_streak (sc_demotion cfg))
      (ScorecardEntry.consecutive_failures e1 + 1)); [done|lia].
  - destruct (Z.leb_spec (fast_recover_streak (sc_demotion cfg)) 0); [lia|].
    destruct (Z.eqb_spec (ScorecardEntry.consecutive_failures e1 + 1) 0); [lia|].
    rewrite andb_false_r. done.
Qed.

Lemma last_sample_live cfg s e now :
  Z.max (window_max_samples (sc_window cfg)) 1 <= u32_max ->
  is_scoreable (s_class s) = true -> is_live (s_ts s) now (ttl_of cfg) = true ->
  n_scoreable (window_stats (ring (record_entry cfg s e)) (prior (record_entry cfg s e)) now
    (ttl_of cfg)) <> 0.
Proof.
  intros Hm Hs Hl. rewrite n_scoreable_spec, ring_record_entry.
  - unfold count_class, live_samples. rewrite List.filter_app, List.filter_app. simpl.
    rewrite Hl. simpl. rewrite Hs, length_app. simpl. lia.
  - rewrite ring_record_entry, length_app. simpl.
    pose proof (pop_while_ge_length (Z.max (window_max_samples (sc_window cfg)) 1) (ring e)). lia.
Qed.

(** A dead target is demoted: enough target failures within one TTL
    window demote any entry, below the sample gate too. *)
Theorem dead_target_demoted cfg ss e t0 :
  Forall (fun s => s_class s = TargetFailure /\ t0 <= s_ts s <= t0 + ttl_of cfg) ss ->
  ss <> [] -> fast_demote_streak (sc_demotion cfg) <= Z.of_nat (length ss) ->
  1 <= fast_recover_streak (sc_demotion cfg) ->
  Z.max (window_max_samples (sc_window cfg)) 1 <= u32_max ->
  0 <= ScorecardEntry.consecutive_failures e ->
  ScorecardEntry.consecutive_failures e + Z.of_nat (length ss) <= u32_max ->
  tier (record_all cfg ss e) = TierDemoted.
Proof.
  intros Hss Hne Hlen Hrec Hm H0 Hb. rewrite Forall_forall in Hss.
  assert (H : forall ss' s, ss' ++ [s] `prefix_of` ss ->
    let n := Z.of_nat (length ss') in
    n + 1 <= ScorecardEntry.consecutive_failures (record_all cfg (ss' ++ [s]) e)
      <= ScorecardEntry.consecutive_failures e + n + 1
    /\ (fast_demote_streak (sc_demotion cfg) <= n + 1 ->
        tier (record_all cfg (ss' ++ [s]) e) = TierDemoted)).
  { intros ss'. cbv zeta. induction ss' as [|p ss' IH] using rev_ind; intros s Hpre;
      (assert (Hin : s ∈ ss) by (destruct Hpre as [k ->]; set_solver));
      destruct (Hss s Hin) as [Hcl Hts]; rewrite record_all_snoc.
    - assert (Hle : (0 < length ss)%nat) by (destruct Hpre as [k ->]; simpl; lia).
      destruct (record_failure cfg s e 0) as [H1 H2];
        [done|done|lia|unfold in_u32; simpl in *; lia|by left|]. simpl in *. split; [lia|done].
    - assert (Hpre' : ss' ++ [p] `prefix_of` ss) by (by eapply prefix_app_l).
      specialize (IH p Hpre') as [H1 _].
      assert (Hp : p ∈ ss) by (destruct Hpre' as [k ->]; set_solver).
      destruct (Hss p Hp) as [Hcl' Hts'].
      assert (Hl2 : (length (ss' ++ [p] ++ [s]) <= length ss)%nat)
        by (destruct Hpre as [k ->]; rewrite !length_app; simpl; lia).
      rewrite !length_app in *. cbn [length] in *.
      destruct (record_failure cfg s (record_all cfg (ss' ++ [p]) e)
        (Z.of_nat (length ss' + 1))) as [H3 H4]; [done|done|lia|unfold in_u32; lia| |].
      + right. rewrite record_all_snoc. apply last_sample_live; [done|by rewrite Hcl'|].
        unfold is_live, checked_duration_since. destruct (Z.leb_spec (s_ts p) (s_ts s)); [|done].
        apply Z.leb_le. lia.
      + split; [lia|]. intros. apply H4. lia. }
  destruct ss as [|s ss] using rev_ind; [done|]. rewrite length_app in *. cbn [length] in *.
  apply (H ss s); [done|lia].
Qed.

(** ** Neutral outcomes and the window *)

(** The ring after a series of records is the tail of everything recorded. *)
Lemma record_all_ring cfg ss e :
  exists pre, ring e ++ ss = pre ++ ring (record_all cfg ss e).
Proof.
  induction ss as [|s ss IH] using rev_ind; [exists []; by rewrite app_nil_r|].
  destruct IH as (pre & Hpre). rewrite record_all_snoc, ring_record_entry.
  destruct (pop_while_ge_suffix (Z.max (window_max_samples (sc_window cfg)) 1)
    (ring (record_all cfg ss e))) as [k Hk].
  exists (pre ++ k). rewrite !app_assoc, Hpre, Hk at 1. by rewrite <- !app_assoc.
Qed.

Lemma all_neutral_count l now ttl :
  Forall (fun s => is_scoreable (s_class s) = false) l ->
  count_class is_scoreable (live_samples l now ttl) = 0.
Proof.
  induction 1 as [|s l Hs _ IH]; [done|]. unfold live_samples. simpl.
  destruct (is_live _ _ _); [|done]. rewrite count_class_cons, Hs. exact IH.
Qed.

(** Neutral outcomes are not without influence: they take places in the
    same bounded ring, so a full window of them evicts every scoreable sample, and
    the next read lifts a demotion although its evidence is within the TTL. *)
Theorem neutral_outcomes_lift_demotion cfg ss e now :
  Forall (fun s => is_scoreable (s_class s) = false) ss ->
  Z.max (window_max_samples (sc_window cfg)) 1 <= Z.of_nat (length ss) ->
  Z.max (window_max_samples (sc_window cfg)) 1 <= u32_max ->
  tier (project_entry cfg now (record_all cfg ss e)).2 = TierHealthy.
Proof.
  intros Hss Hlen Hm. unfold project_entry. cbv zeta. cbn [snd].
  rewrite tier_ttl_reset. set (e' := record_all cfg ss e).
  assert (Hr : Z.of_nat (length (ring e')) <= Z.max (window_max_samples (sc_window cfg)) 1).
  { unfold e'. destruct ss as [|s ss _] using rev_ind; [simpl in *; lia|].
    rewrite record_all_snoc, ring_record_entry, length_app. simpl.
    pose proof (pop_while_ge_length (Z.max (window_max_samples (sc_window cfg)) 1)
      (ring (record_all cfg ss e))). lia. }
  destruct (record_all_ring cfg ss e) as (pre & Hpre). fold e' in Hpre.
  assert (Hsub : ring e' `suffix_of` ss).
  { exists (drop (length (ring e)) pre).
    assert (Hl : (length (ring e) <= length pre)%nat).
    { apply (f_equal length) in Hpre. rewrite !length_app in Hpre. lia. }
    rewrite <- (take_drop (length (ring e)) pre), <- app_assoc in Hpre.
    apply app_inj_1 in Hpre as [_ ?]; [done|]. rewrite length_take. lia. }
  rewrite n_scoreable_spec by lia. rewrite all_neutral_count; [done|].
  destruct Hsub as [k Hk]. clearbody e'. subst ss. by apply Forall_app in Hss as [_ ?].
Qed.

(** ** Hydration *)

Lemma hydrate_rings clock_floor rows cfg now ms sc :
  map_Forall (fun _ e => ring e = []) sc ->
  map_Forall (fun _ e => ring e = []) (hydrate clock_floor sc rows cfg now ms).
Proof.
  unfold hydrate. revert sc. induction rows as [|row rows IH]; intros sc H; [done|].
  cbn [fold_left]. apply IH. unfold hydrate_step.
  destruct (hydrate_row row cfg ms) as [[pr t]|]; [|done].
  apply map_Forall_insert_2; [|done]. simpl. unfold get_or_create.
  destruct (sc !! _) as [e|] eqn:E; [|done]. by apply (H _ _ E).
Qed.

(** Whatever rows a start-up hydrates, the first read of a target
    reports it healthy with no samples: a persisted demotion does not reach the
    router. *)
Theorem hydrated_demotion_not_projected clock_floor rows cfg now ms t c later o :
  (project (hydrate clock_floor Scorecard_new rows cfg now ms) t c cfg later).1 = Some o ->
  os_tier o = TierHealthy /\ os_samples o = 0.
Proof.
  unfold project. destruct (negb _); [done|].
  destruct (_ !! (t, c)) as [e|] eqn:E; [|done].
  assert (Hr : ring e = []) by (by apply (hydrate_rings clock_floor rows cfg now ms Scorecard_new
    (map_Forall_empty _) _ _ E)).
  unfold project_entry. cbv zeta. cbn [fst]. intros Hp.
  destruct (_ && _); [done|]. destruct (_ || _); [done|]. injection Hp as <-.
  cbn [os_tier os_samples]. rewrite tier_ttl_reset, n_scoreable_spec, Hr; [done|].
  rewrite Hr. by vm_compute.
Qed.

(** ** Persistence *)

Lemma window_counts l pr now ttl :
  Z.of_nat (length l) <= u32_max ->
  let st := window_stats l pr now ttl in
  n_scoreable st = success_count st + truncated_count st + target_fail_count st
  /\ 0 <= success_count st /\ 0 <= truncated_count st /\ 0 <= target_fail_count st
  /\ n_scoreable st <= u32_max.
Proof.
  intros Hl. cbv zeta. rewrite n_scoreable_spec by done. unfold window_stats. cbv zeta.
  destruct (if 2 <=? _ then _ else _) as [p50 p95].
  cbn [success_count truncated_count target_fail_count].
  assert (Hlen : Z.of_nat (length (live_samples l now ttl)) <= u32_max).
  { unfold live_samples.
    pose proof (List.filter_length_le (fun s => is_live (s_ts s) now ttl) l). lia. }
  destruct (tally_counts (live_samples l now ttl) (mkTally 0 0 0 [] [] 0)) as (E1 & E2 & E3);
    simpl; try lia. simpl in *. unfold tally. rewrite E1, E2, E3. rewrite <- count_split.
  pose proof (count_split (live_samples l now ttl)).
  pose proof (count_class_bound is_scoreable (live_samples l now ttl)).
  pose proof (count_class_bound (fun c => bool_decide (c = Success)) (live_samples l now ttl)).
  pose proof (count_class_bound (fun c => bool_decide (c = Truncated)) (live_samples l now ttl)).
  pose proof (count_class_bound (fun c => bool_decide (c = TargetFailure)) (live_samples l now ttl)).
  lia.
Qed.

(** A row that a snapshot wrote with at least one scoreable sample
    is accepted by the hydration of a later start, until it is stale: it restores
    the tier, and the prior is the measured success rate with the sample count,
    capped at 50, as its weight. *)
Theorem snapshot_hydrates render cfg qcfg now ms k e later_ms :
  Z.of_nat (length (ring e)) <= u32_max ->
  let row := (snapshot_entry render cfg qcfg now ms k e).1 in
  let st := window_stats (ring e) (prior e) now (ttl_of cfg) in
  n_scoreable st <> 0 ->
  i64_sat_sub later_ms ms
    <= i64_sat_mul (wrap_i64 (persist_stale_hydrate_secs (sc_persist cfg))) 1000 ->
  hydrate_row row cfg later_ms
  = Some (mkPrior (f64_div (f64_of_Z (success_count st)) (f64_of_Z (n_scoreable st)))
            (f64_of_Z (Z.min (n_scoreable st) 50)), tier e).
Proof.
  intros Hl. cbv zeta. intros Hn Hst.
  destruct (window_counts (ring e) (prior e) now (ttl_of cfg) Hl) as (Hsum & H1 & H2 & H3 & H4).
  unfold snapshot_entry. cbv zeta. cbn [fst]. unfold hydrate_row.
  cbn [row_success_count row_truncated_count row_target_fail_count row_scoreable_samples
    row_tier row_updated_at_ms].
  set (st := window_stats _ _ _ _) in *. unfold checked_add.
  destruct (Z.leb_spec (success_count st + truncated_count st) u32_max); [|lia]. cbn [mbind option_bind].
  destruct (Z.leb_spec (success_count st + truncated_count st + target_fail_count st) u32_max);
    [|lia]. cbn [mbind option_bind]. rewrite <- Hsum, Z.eqb_refl. cbn [negb].
  destruct (Z.eqb_spec (n_scoreable st) 0); [done|].
  assert (Htier : (if (match tier e with TierHealthy => 0 | TierDemoted => 1 end) =? 0
    then Some TierHealthy
    else if (match tier e with TierHealthy => 0 | TierDemoted => 1 end) =? 1
    then Some TierDemoted else None) = Some (tier e)) by (by destruct (tier e)).
  cbn [set_quality tier]. rewrite Htier. cbn [mbind option_bind].
  destruct (Z.ltb_spec (i64_sat_mul (wrap_i64 (persist_stale_hydrate_secs (sc_persist cfg))) 1000)
    (i64_sat_sub later_ms ms)); [lia|done].
Qed.

(** ** Flushing *)

Lemma mark_dirty_lookup sc keys k :
  mark_dirty sc keys !! k
  = (if decide (k ∈ keys) then set_dirty true <$> sc !! k else sc !! k).
Proof.
  unfold mark_dirty. revert sc. induction keys as [|k' keys IH]; intros sc; cbn [fold_left].
  { rewrite decide_False; [done|]. apply not_elem_of_nil. }
  rewrite IH. set (sc' := match sc !! k' with Some e => _ | None => _ end).
  assert (Hsc' : sc' !! k = if decide (k = k') then set_dirty true <$> sc !! k else sc !! k).
  { unfold sc'. destruct (decide (k = k')) as [->|Hne].
    - destruct (sc !! k') as [e|] eqn:E; [by rewrite lookup_insert_eq|by rewrite E].
    - destruct (sc !! k') as [e|] eqn:E; [by rewrite lookup_insert_ne|done]. }
  rewrite Hsc'. clear Hsc'. clearbody sc'. pose proof (elem_of_cons keys k k') as Hc.
  destruct (decide (k ∈ keys)) as [Hk|Hk], (decide (k = k')) as [Hk'|Hk'],
    (decide (k ∈ k' :: keys)) as [Hkk|Hkk]; try done; try (exfalso; tauto);
    by destruct (sc !! k).
Qed.

Section Flush.
Context (render : list (ErrorClass * Z) -> string) (cfg : ScorecardConfig)
  (qcfg : QualityEvalConfig) (now : Instant) (ms : Z).

Let step := (fun acc (ke : Key * Entry) =>
    if negb (dirty ke.2) then acc
    else
      let '(row, e') := snapshot_entry render cfg qcfg now ms ke.1 ke.2 in
      (acc.1 ++ [row], <[ke.1 := e']> acc.2)) : list ScorecardRow * Scorecard -> _ -> _.

Lemma snapshot_fold_rows l acc :
  (fold_left step l acc).1
  = acc.1 ++ omap (fun ke => if dirty ke.2
      then Some (snapshot_entry render cfg qcfg now ms ke.1 ke.2).1 else None) l.
Proof.
  revert acc. induction l as [|[k e] l IH]; intros acc; cbn [fold_left omap list_omap].
  - by rewrite app_nil_r.
  - rewrite IH. unfold step at 1. cbn [fst snd]. destruct (dirty e); cbn [negb]; [|done].
    destruct (snapshot_entry _ _ _ _ _ _ _) as [row e'] eqn:E. cbn [fst].
    by rewrite <- app_assoc.
Qed.

Lemma snapshot_fold_ne l acc k :
  k ∉ l.*1 -> (fold_left step l acc).2 !! k = acc.2 !! k.
Proof.
  revert acc. induction l as [|[k' e] l IH]; intros acc Hk; [done|]. simpl in Hk.
  apply not_elem_of_cons in Hk as [Hne Hk]. cbn [fold_left]. rewrite IH by done.
  unfold step. cbn [fst snd]. destruct (negb (dirty e)); [done|].
  destruct (snapshot_entry _ _ _ _ _ _ _) as [row e']. cbn [snd]. by rewrite lookup_insert_ne.
Qed.

Lemma snapshot_fold_eq l acc k e :
  NoDup l.*1 -> (k, e) ∈ l -> acc.2 !! k = Some e ->
  (fold_left step l acc).2 !! k
  = Some (if dirty e then (snapshot_entry render cfg qcfg now ms k e).2 else e).
Proof.
  revert acc. induction l as [|[k' e'] l IH]; intros acc Hnd Hin Hacc.
  { by apply not_elem_of_nil in Hin. }
  simpl in Hnd. apply NoDup_cons in Hnd as [Hk' Hnd]. cbn [fold_left].
  apply elem_of_cons in Hin as [[= <- <-]|Hin].
  - rewrite snapshot_fold_ne by done. unfold step. cbn [fst snd].
    destruct (dirty e); cbn [negb]; [|done].
    destruct (snapshot_entry _ _ _ _ _ _ _) as [row e'] eqn:E. cbn [snd].
    by rewrite lookup_insert_eq.
  - apply IH; [done|done|]. unfold step. cbn [fst snd]. destruct (negb (dirty e')); [done|].
    destruct (snapshot_entry _ _ _ _ _ k' e') as [row e'']. cbn [snd].
    rewrite lookup_insert_ne; [done|]. intros ->. apply Hk', list_elem_of_fmap.
    by exists (k, e).
Qed.

Lemma snapshot_lookup sc k :
  (dirty_snapshot_inner render sc cfg qcfg now ms).2 !! k
  = (fun e => if dirty e then (snapshot_entry render cfg qcfg now ms k e).2 else e) <$> sc !! k.
Proof.
  unfold dirty_snapshot_inner. fold step. destruct (sc !! k) as [e|] eqn:E; simpl.
  - apply (snapshot_fold_eq _ ([], sc)); [apply NoDup_fst_map_to_list| |done].
    by apply elem_of_map_to_list.
  - rewrite (snapshot_fold_ne _ ([], sc)); [done|]. intros Hin.
    apply list_elem_of_fmap in Hin as ([k' e] & -> & Hin). apply elem_of_map_to_list in Hin.
    simpl in *. congruence.
Qed.

Lemma snapshot_keys sc k :
  k ∈ (fun r => (row_target_id r, row_class r))
      <$> (dirty_snapshot_inner render sc cfg qcfg now ms).1
  <-> exists e, sc !! k = Some e /\ dirty e = true.
Proof.
  unfold dirty_snapshot_inner. fold step. rewrite (snapshot_fold_rows _ ([], sc)).
  cbn [app fst]. rewrite list_elem_of_fmap. split.
  - intros (r & -> & Hr). apply list_elem_of_omap in Hr as ([[t c] e] & Hin & He).
    apply elem_of_map_to_list in Hin. simpl in He. destruct (dirty e) eqn:Ed; [|done].
    injection He as <-. exists e. done.
  - intros (e & He & Hd). exists (snapshot_entry render cfg qcfg now ms k e).1. split.
    + by destruct k.
    + apply list_elem_of_omap. exists (k, e). split; [by apply elem_of_map_to_list|].
      simpl. by rewrite Hd.
Qed.

End Flush.

(** No aggregate is lost to a failed write: a snapshot leaves every
    entry clean and reports exactly the dirty keys, and marking the reported keys
    again leaves exactly the entries dirty that were dirty before it. *)
Theorem failed_flush_retries render sc cfg qcfg now ms :
  let '(rows, sc') := dirty_snapshot_inner render sc cfg qcfg now ms in
  let keys := (fun r => (row_target_id r, row_class r)) <$> rows in
  (forall k e, sc' !! k = Some e -> dirty e = false)
  /\ (forall k, k ∈ keys <-> exists e, sc !! k = Some e /\ dirty e = true)
  /\ (forall k, dirty <$> mark_dirty sc' keys !! k = dirty <$> sc !! k).
Proof.
  pose proof (snapshot_lookup render cfg qcfg now ms sc) as Hl.
  pose proof (snapshot_keys render cfg qcfg now ms sc) as Hk.
  destruct (dirty_snapshot_inner render sc cfg qcfg now ms) as [rows sc'].
  cbn [fst snd] in *. cbv zeta. split_and!; [|done|].
  - intros k e He. rewrite Hl in He. destruct (sc !! k) as [e0|]; [|done].
    injection He as <-. destruct (dirty e0) eqn:E; [reflexivity|exact E].
  - intros k. rewrite mark_dirty_lookup, Hl. specialize (Hk k).
    destruct (decide _) as [Hd|Hd].
    + apply Hk in Hd as (e & -> & Hd). simpl. by rewrite Hd.
    + destruct (sc !! k) as [e|]; [|done]. simpl. destruct (dirty e) eqn:E; [|by rewrite E].
      destruct Hd. apply Hk. by exists e.
Qed.

(** ** Replay of quality judgments *)

Section ReplaySpec.
Context (clock_floor : Instant) (ev : string) (cfg : ScorecardConfig)
  (qcfg : QualityEvalConfig) (now : Instant) (ms : Z).

(** The samples of the audit log that belong to a key. *)
Definition replayed (rows : list QualityJudgmentRecord) (k : Key) : list QualitySample :=
  omap (fun row =>
    if decide ((qj_served_target_id row, qj_class row) = k) then
      match replay_sample clock_floor ev cfg now ms row with
      | Some s => if quality_sample_ok ev s then Some s else None
      | None => None
      end
    else None) rows.

Let record_q := (fun e s => record_quality_entry (window_max_samples (sc_window cfg)) ev s e).

(** The ring that the samples alone produce. *)
Definition rebuilt (ss : list QualitySample) : list QualitySample :=
  fold_left (fun l s => push_quality_ring s (window_max_samples (sc_window cfg)) l) ss [].

Lemma replay_fold_lookup rows sc k :
  sc_enabled cfg = true -> qe_enabled qcfg = true ->
  fold_left (replay_row clock_floor ev cfg qcfg now ms) rows sc !! k
  = match replayed rows k with
    | [] => sc !! k
    | ss => Some (fold_left record_q ss (default (Entry_new (Prior_from_config cfg)) (sc !! k)))
    end.
Proof.
  intros He Hq. revert sc. induction rows as [|row rows IH]; intros sc; [done|].
  cbn [fold_left]. rewrite IH. unfold replayed at 2. cbn [omap list_omap].
  fold (replayed rows k). unfold replay_row.
  destruct (replay_sample clock_floor ev cfg now ms row) as [s|]; [|by case_decide].
  unfold record_quality. rewrite He, Hq. cbn [negb orb].
  destruct (quality_sample_ok ev s) eqn:Eok; cbn [negb]; [|by case_decide].
  case_decide as Hk.
  - subst k. rewrite lookup_insert_eq. cbn [default]. by destruct (replayed rows _).
  - by rewrite lookup_insert_ne by done.
Qed.

Lemma record_q_fold s ss e :
  fold_left record_q (s :: ss) e
  = set_dirty true (set_quality
      (fold_left (fun l s => push_quality_ring s (window_max_samples (sc_window cfg)) l) (s :: ss)
         (if bool_decide (quality_evaluator_id e = Some ev) then quality_ring e else []))
      (Some ev) e).
Proof.
  induction ss as [|s' ss IH] using rev_ind.
  - simpl. unfold record_q, record_quality_entry, push_quality. simpl.
    case_bool_decide as Hev; [by rewrite Hev|done].
  - rewrite app_comm_cons, !fold_left_app, IH. cbn [fold_left].
    unfold record_q at 1, record_quality_entry, push_quality. simpl.
    by rewrite bool_decide_eq_true_2.
Qed.

Lemma clear_then_default k sc :
  default (Entry_new (Prior_from_config cfg)) ((clear_quality ev <$> sc : Scorecard) !! k)
  = from_option (clear_quality ev) (Entry_new (Prior_from_config cfg)) (sc !! k).
Proof. rewrite lookup_fmap. by destruct (sc !! k). Qed.

Lemma clear_quality_ring e :
  (if bool_decide (quality_evaluator_id (clear_quality ev e) = Some ev)
   then quality_ring (clear_quality ev e) else []) = [].
Proof.
  case_bool_decide as H; [|done]. revert H. unfold clear_quality.
  destruct (quality_ring e) eqn:E; simpl; [|done]. case_bool_decide; simpl; [done|done].
Qed.

Lemma set_clear_quality l e :
  set_dirty true (set_quality l (Some ev) (clear_quality ev e))
  = set_dirty true (set_quality l (Some ev) e).
Proof. unfold clear_quality. by destruct (_ || _). Qed.

Lemma replay_lookup rows sc k :
  sc_enabled cfg = true -> qe_enabled qcfg = true -> trim_is_empty ev = false ->
  replay_quality clock_floor sc rows ev cfg qcfg now ms !! k
  = match replayed rows k with
    | [] => clear_quality ev <$> sc !! k
    | ss => Some (set_dirty true (set_quality (rebuilt ss) (Some ev)
              (default (Entry_new (Prior_from_config cfg)) (sc !! k))))
    end.
Proof.
  intros He Hq Ht. unfold replay_quality. rewrite He, Hq, Ht. cbn [negb orb].
  rewrite replay_fold_lookup by done. rewrite clear_then_default, lookup_fmap.
  destruct (replayed rows k) as [|s ss]; [done|]. rewrite record_q_fold.
  destruct (sc !! k) as [e|]; simpl.
  - by rewrite clear_quality_ring, set_clear_quality.
  - done.
Qed.

End ReplaySpec.

(** A replay rebuilds the quality evidence from the audit log
    alone: after it, every ring is what the log's valid, fresh rows of that key
    produce, whatever was in memory, and nothing else of an entry changes. *)
Theorem replay_rebuilds clock_floor ev cfg qcfg now ms rows sc k e :
  sc_enabled cfg = true -> qe_enabled qcfg = true -> trim_is_empty ev = false ->
  replay_quality clock_floor sc rows ev cfg qcfg now ms !! k = Some e ->
  quality_ring e = rebuilt cfg (replayed clock_floor ev cfg now ms rows k)
  /\ quality_evaluator_id e = Some ev
  /\ let e0 := default (Entry_new (Prior_from_config cfg)) (sc !! k) in
     ring e = ring e0 /\ tier e = tier e0 /\ prior e = prior e0 /\ hydrated e = hydrated e0
     /\ ScorecardEntry.consecutive_failures e = ScorecardEntry.consecutive_failures e0
     /\ consecutive_successes e = consecutive_successes e0
     /\ demoted_since e = demoted_since e0 /\ demote_trigger e = demote_trigger e0.
Proof.
  intros He Hq Ht. rewrite replay_lookup by done. cbv zeta.
  destruct (replayed _ _ _ _ _ rows k) as [|s ss]; [|by intros [= <-]].
  destruct (sc !! k) as [e0|]; [|done]. intros [= <-]. cbn [default from_option id]. unfold clear_quality, rebuilt.
  destruct (quality_ring e0) eqn:E; simpl; [|done].
  case_bool_decide as Hev; simpl; by rewrite ?E, ?Hev.
Qed.

(** Replaying the same log twice is the same as replaying it
    once. *)
Theorem replay_idempotent clock_floor ev cfg qcfg now ms rows sc :
  let replay s := replay_quality clock_floor s rows ev cfg qcfg now ms in
  replay (replay sc) = replay sc.
Proof.
  cbv zeta. destruct (sc_enabled cfg) eqn:He; [|unfold replay_quality; by rewrite He].
  destruct (qe_enabled qcfg) eqn:Hq; [|unfold replay_quality; by rewrite He, Hq].
  destruct (trim_is_empty ev) eqn:Ht; [unfold replay_quality; by rewrite He, Hq, Ht|].
  apply map_eq. intros k. rewrite !replay_lookup by done.
  destruct (replayed _ _ _ _ _ rows k) as [|s ss]; [|done].
  destruct (sc !! k) as [e|]; [|done]. simpl. f_equal. unfold clear_quality.
  destruct (quality_ring e) eqn:E; simpl.
  - case_bool_decide as Hev; simpl; rewrite ?E; simpl; by rewrite bool_decide_eq_true_2.
  - by rewrite bool_decide_eq_true_2.
Qed.

(** ** The attempt seam and the breaker *)

(** The breaker does not look at why an attempt failed: the failure
    that reaches the threshold opens the provider's circuit also when it describes
    the request, a class that locks no account and demotes no target. *)
Theorem request_fault_opens_circuit w cfg ctx c nb now :
  let p := fc_provider_id ctx in
  let b := w_breaker w in
  Availability.request_fault c = true ->
  Breaker.enabled b = true -> Breaker.half_open (Breaker.state_of b p) = false ->
  Breaker.failures (Breaker.state_of b p) + 1 = Breaker.threshold b ->
  Breaker.opened_until
    (Breaker.state_of (w_breaker (finish_attempt w cfg ctx (FinishFailed c) nb now)) p)
  = Some (nb + Breaker.open_for b).
Proof.
  cbv zeta. intros _ He Hh Hf. cbn [finish_attempt w_breaker]. unfold Breaker.record.
  rewrite He. cbn [negb]. rewrite Breaker.state_of_set. unfold Breaker.record_state.
  rewrite Hh, Hf, Z.leb_refl. done.
Qed.

(** ** Concrete entries *)

Module ScorecardSamples.

Definition small_window : ScorecardConfig :=
  mkScorecardConfig true (mkScorecardWindowConfig 3 3600) ScorecardDemotionConfig_default
    ScorecardPriorConfig_default (f64_lit 15 100) ScorecardPersistConfig_default.

Definition sample (ts : Instant) (c : OutcomeClass) (err : option ErrorClass) : Sample :=
  mkSample ts c 10 None err.

Definition failing : list Sample :=
  [sample 0 TargetFailure (Some Network); sample 1 TargetFailure (Some Network);
   sample 2 TargetFailure (Some Timeout)].

Definition fresh : Entry := Entry_new (Prior_from_config small_window).
Definition down : Entry := record_all small_window failing fresh.
Definition sc0 : Scorecard := record Scorecard_new "t" "any" (Prior_from_config small_window)
  small_window (sample 0 TargetFailure (Some Network)).

Definition sc_down : Scorecard :=
  fold_left (fun sc s => record sc "t" "any" (Prior_from_config small_window) small_window s)
    failing (hydrate 0 Scorecard_new [] small_window 0 0).

Lemma sc_down_reachable render :
  reachable 0 render small_window QualityEvalConfig_default sc_down.
Proof.
  unfold sc_down. cbn [fold_left failing]. repeat apply reach_record. apply reach_hydrate.
Qed.

Definition ctx : AttemptFinishCtx := mkAttemptFinishCtx "r" "t" "p" "a" "direct" 10.
Definition world : AttemptWorld :=
  mkAttemptWorld (Breaker.new (mkBreakerConfig true 1 30)) [] sc_down.

Definition quality_on : QualityEvalConfig :=
  mkQualityEvalConfig true "auto/judge" [] 60 500000 32 64 32768 32768 8 8 60000 128
    3 3600 (f64_lit 20 100) 5 10 f64_zero.

Definition judged : list QualityJudgmentRecord :=
  [mkQualityJudgmentRecord "j2" "t" "any" "ev" "scored" (Some f64_half) 20;
   mkQualityJudgmentRecord "j1" "t" "any" "ev" "scored" (Some f64_one) 10;
   mkQualityJudgmentRecord "j3" "t" "any" "other" "scored" (Some f64_one) 30].

Lemma scorecard_invariant_witness :
  exists e, sc_down !! ("t", "any") = Some e /\ tier e = TierDemoted /\ entry_wf 3 e.
Proof.
  exists down. assert (H : sc_down !! ("t", "any") = Some down) by (by vm_compute).
  split_and!; [done|by vm_compute|].
  apply (scorecard_invariant 0 (fun _ => "{}") small_window QualityEvalConfig_default sc_down
    ("t", "any")); [apply sc_down_reachable|done].
Defined.

Lemma neutral_never_demotes_witness :
  exists e0, w_scorecard world !! ("t", "any") = Some e0 /\ tier e0 = TierDemoted.
Proof.
  apply (neutral_never_demotes world small_window ctx (FinishFailed InvalidRequest) 5 5 _
    (record_entry small_window (sample 5 ClientOrAccountFault (Some InvalidRequest)) down));
    [by left|by vm_compute|by vm_compute].
Defined.

Lemma projected_demotion_is_live_witness :
  exists o e s, (project sc_down "t" "any" small_window 5).1 = Some o
    /\ sc_down !! ("t", "any") = Some e /\ s ∈ ring e.
Proof.
  destruct ((project sc_down "t" "any" small_window 5).1) as [o|] eqn:E; [|by vm_compute in E].
  destruct (projected_demotion_is_live 0 (fun _ => "{}") small_window QualityEvalConfig_default
    sc_down "t" "any" 5 o) as (e & s & He & _ & Hs & _);
    [by vm_compute|apply sc_down_reachable|exact E| |exists o, e, s; split; [reflexivity|by split]].
  assert (Ht : option_map os_tier (project sc_down "t" "any" small_window 5).1
    = Some TierDemoted) by (by vm_compute).
  rewrite E in Ht. by injection Ht.
Defined.

Lemma successes_recover_witness :
  tier down = TierDemoted
  /\ tier (record_all small_window
       [sample 10 Success None; sample 20 Success None; sample 30 Success None] down)
     = TierHealthy.
Proof.
  split; [by vm_compute|].
  apply successes_recover; [by repeat constructor|done|by vm_compute..].
Defined.

Lemma dead_target_demoted_witness : tier (record_all small_window failing fresh) = TierDemoted.
Proof.
  apply (dead_target_demoted small_window failing fresh 0);
    [repeat constructor; by vm_compute|done|by vm_compute..].
Defined.

Lemma neutral_outcomes_lift_demotion_witness :
  tier down = TierDemoted
  /\ tier (project_entry small_window 6 (record_all small_window
       [sample 3 Cancelled None; sample 4 Cancelled None; sample 5 Refusal None] down)).2
     = TierHealthy.
Proof.
  split; [by vm_compute|].
  apply neutral_outcomes_lift_demotion; [by repeat constructor|by vm_compute..].
Defined.

Definition down_row : ScorecardRow :=
  (snapshot_entry (fun _ => "{}") small_window QualityEvalConfig_default 5 1000
     ("t", "any") down).1.

Lemma snapshot_hydrates_witness :
  hydrate_row down_row small_window 2000
  = Some (mkPrior (f64_div (f64_of_Z 0) (f64_of_Z 3)) (f64_of_Z 3), TierDemoted).
Proof.
  apply (snapshot_hydrates (fun _ => "{}") small_window QualityEvalConfig_default 5 1000
    ("t", "any") down 2000); by vm_compute.
Defined.

Lemma hydrated_demotion_not_projected_witness :
  exists o, (project (hydrate 0 Scorecard_new [down_row] small_window 5 2000) "t" "any"
    small_window 6).1 = Some o /\ os_tier o = TierHealthy /\ os_samples o = 0.
Proof.
  destruct ((project (hydrate 0 Scorecard_new [down_row] small_window 5 2000) "t" "any"
    small_window 6).1) as [o|] eqn:E; [|by vm_compute in E].
  exists o. split; [reflexivity|].
  apply (hydrated_demotion_not_projected 0 [down_row] small_window 5 2000 "t" "any" 6 o E).
Defined.

Lemma replay_rebuilds_witness :
  exists e, replay_quality 0 ∅ judged "ev" small_window quality_on 100 50 !! ("t", "any") = Some e
    /\ q_judgment_id <$> quality_ring e = ["j1"; "j2"].
Proof.
  destruct (replay_quality 0 ∅ judged "ev" small_window quality_on 100 50 !! ("t", "any"))
    as [e|] eqn:E; [|by vm_compute in E].
  exists e. split; [reflexivity|].
  destruct (replay_rebuilds 0 "ev" small_window quality_on 100 50 judged ∅ ("t", "any") e)
    as [-> _]; [done|done|by vm_compute|exact E|by vm_compute].
Defined.

Lemma request_fault_opens_circuit_witness :
  Breaker.opened_until (Breaker.state_of
    (w_breaker (finish_attempt world small_window ctx (FinishFailed InvalidRequest) 7 8)) "p")
  = Some (7 + from_secs 30).
Proof.
  apply (request_fault_opens_circuit world small_window ctx InvalidRequest 7 8); by vm_compute.
Defined.

End ScorecardSamples.
