(* ===== verification/Resolver.v ===== *)
(** * The credential resolver

    [crates/sb-credentials/src/resolver.rs], with the leases of
    [crates/sb-core/src/credential.rs] and the accounts of [account.rs]: which
    account of a provider a request uses. The providers are fixed when the
    resolver is built; the availability locks, the round-robin cursors, the
    session affinities and the breaker are each behind a mutex of their own. The
    clock is read once per call. *)

From Stdlib Require Import ZArith Lia.
From stdpp Require Import base list strings gmap option.
From S2P Require Import Prelude Text Float Time Ir Config Target Breaker Availability.

#[local] Open Scope Z_scope.

(** ** Leases *)

(** A [Secret] is the string it hides. *)
Inductive AuthKind := AuthNone | AuthApiKey | AuthBearer | AuthAwsSigV4.

Record AwsSigV4Lease := mkAwsSigV4Lease {
  access_key_id : string;
  secret_access_key : string;
  session_token : option string
}.

Record CredentialLease := mkCredentialLease {
  provider_account_id : string;
  auth_kind : AuthKind;
  lease_secret : string;
  lease_aws_sigv4 : option AwsSigV4Lease;
  chatgpt_account_id : option string
}.

Definition lease_bearer (account key : string) : CredentialLease :=
  mkCredentialLease account AuthBearer key None None.

Definition lease_none (account : string) : CredentialLease :=
  mkCredentialLease account AuthNone EmptyString None None.

Definition lease_aws (account access_key secret_key : string) (session : option string)
  : CredentialLease :=
  mkCredentialLease account AuthAwsSigV4 EmptyString
    (Some (mkAwsSigV4Lease access_key secret_key session)) None.

(** ** Accounts *)

Inductive NativeOauthKind := NativeCodex | NativeClaudeCode.

Inductive ResolvedAuth :=
| RaNone
| RaApiKey (secret : string)
| RaOauth (token refresh refresh_vault token_url client_id client_secret : option string)
| RaNativeOauth (kind : NativeOauthKind) (token token_env token_file : option string)
    (access_token_pointer : string)
| RaJsonToken (token_file access_token_pointer : string)
| RaKimiCodeOauth (home : string)
| RaServiceAccount (client_email private_key token_uri : string) (scope : option string)
| RaAwsSigV4 (access_key_id secret_access_key : string) (session_token : option string).

Record Account := mkAccount {
  acc_id : string;
  acc_provider_id : string;
  acc_auth : ResolvedAuth;
  acc_priority : Z;
  acc_policy_tags : list string
}.

(** [Account::lease]: the static lease; live credentials are minted later. *)
Definition lease (a : Account) : CredentialLease :=
  match acc_auth a with
  | RaNone => lease_none (acc_id a)
  | RaApiKey secret => lease_bearer (acc_id a) secret
  | RaOauth token _ _ _ _ _ => lease_bearer (acc_id a) (default EmptyString token)
  | RaNativeOauth _ _ _ _ _ | RaJsonToken _ _ | RaKimiCodeOauth _
  | RaServiceAccount _ _ _ _ => lease_bearer (acc_id a) EmptyString
  | RaAwsSigV4 access_key secret_key session => lease_aws (acc_id a) access_key secret_key session
  end.

Inductive SelectionStrategy := FillFirst | RoundRobin.

Record ProviderAccounts := mkProviderAccounts {
  pa_accounts : list Account;
  pa_strategy : SelectionStrategy;
  pa_sticky : Z
}.

Record RrState := mkRrState { rr_cursor : Z; rr_count : Z }.

Definition RrState_default : RrState := mkRrState 0 0.

(** ** The resolver *)

Abbreviation Affinities := (gmap (string * string) string).

Record CredentialResolver := mkCredentialResolver {
  providers : gmap string ProviderAccounts;
  availability : Availability.Inner;
  rr : gmap string RrState;
  session_affinity : Affinities;
  breaker : Breaker.CircuitBreaker
}.

Definition set_availability (av : Availability.Inner) (r : CredentialResolver) :=
  mkCredentialResolver (providers r) av (rr r) (session_affinity r) (breaker r).
Definition set_rr (x : gmap string RrState) (r : CredentialResolver) :=
  mkCredentialResolver (providers r) (availability r) x (session_affinity r) (breaker r).
Definition set_affinity (x : Affinities) (r : CredentialResolver) :=
  mkCredentialResolver (providers r) (availability r) (rr r) x (breaker r).
Definition set_breaker (b : Breaker.CircuitBreaker) (r : CredentialResolver) :=
  mkCredentialResolver (providers r) (availability r) (rr r) (session_affinity r) b.

Inductive ResolveOutcome :=
| Selected (account_id : string) (l : CredentialLease)
| AllUnavailable (retry_after : option Duration)
| NoAccounts.

(** [with_parts], without the token minters. *)
Definition resolver_new (ps : gmap string ProviderAccounts) (b : Breaker.CircuitBreaker)
  : CredentialResolver := mkCredentialResolver ps ∅ ∅ ∅ b.

Definition circuit_allows (r : CredentialResolver) (provider_id : string) (now : Instant)
  : bool * CredentialResolver :=
  let '(ok, b) := Breaker.allows (breaker r) provider_id now in (ok, set_breaker b r).

Definition circuit_record (r : CredentialResolver) (provider_id : string) (ok : bool)
    (now : Instant) : CredentialResolver :=
  set_breaker (Breaker.record (breaker r) provider_id ok now) r.

Definition circuit_view (r : CredentialResolver) (provider_id : string) (now : Instant)
  : Breaker.CircuitView := Breaker.view (breaker r) provider_id now.

Definition has_provider (r : CredentialResolver) (provider_id : string) : bool :=
  opt_is_some (providers r !! provider_id).

Definition account_ids (r : CredentialResolver) (provider_id : string) : list string :=
  match providers r !! provider_id with
  | Some p => acc_id <$> pa_accounts p
  | None => []
  end.

Record PoolHealth := mkPoolHealth {
  ph_total : Z;
  ph_healthy : Z;
  ph_circuit_open : bool
}.

Definition is_open (s : Breaker.CircuitState) : bool :=
  match s with Breaker.Open => true | _ => false end.

Definition pool_health (r : CredentialResolver) (provider_id model : string) (now : Instant)
  : PoolHealth :=
  match providers r !! provider_id with
  | Some pa =>
      mkPoolHealth (Z.of_nat (length (pa_accounts pa)))
        (Z.of_nat (length (List.filter (fun a =>
           Availability.is_available (availability r) provider_id (acc_id a) model now)
           (pa_accounts pa))))
        (is_open (Breaker.view_state (Breaker.view (breaker r) provider_id now)))
  | None => mkPoolHealth 0 0 false
  end.

Record AccountLockHealth := mkAccountLockHealth {
  lh_scope : string;
  lh_model : option string;
  lh_error_class : ErrorClass;
  lh_retry_after_ms : Z
}.

Record AccountHealth := mkAccountHealth {
  ah_id : string;
  ah_healthy : bool;
  ah_locks : list AccountLockHealth
}.

Definition account_health (r : CredentialResolver) (provider_id model : string)
    (now : Instant) : list AccountHealth :=
  match providers r !! provider_id with
  | None => []
  | Some pa =>
      (fun account =>
         mkAccountHealth (acc_id account)
           (Availability.is_available (availability r) provider_id (acc_id account) model now)
           ((fun lock =>
               mkAccountLockHealth
                 (if opt_is_some (Availability.snap_model lock) then "model" else "account")
                 (Availability.snap_model lock) (Availability.snap_error_class lock)
                 (wrap64 (as_millis (Availability.snap_retry_after lock))))
            <$> Availability.locks_for (availability r) provider_id (acc_id account) model now))
      <$> pa_accounts pa
  end.

(** [exclude.contains(id)], and membership in the optional allow-list. *)
Definition set_has (s : gset string) (x : string) : bool := bool_decide (x ∈ s).
Definition allow_has (allowed : option (gset string)) (x : string) : bool :=
  match allowed with Some s => set_has s x | None => true end.

(** The filters of [resolve_with_session_allowed], on one account. *)
Definition usable (r : CredentialResolver) (provider_id model : string)
    (exclude : gset string) (allowed : option (gset string)) (now : Instant)
    (a : Account) : bool :=
  negb (set_has exclude (acc_id a)) && allow_has allowed (acc_id a)
  && Availability.is_available (availability r) provider_id (acc_id a) model now.

(** [iter().enumerate().filter(..).map(|(i, _)| i)]. *)
Fixpoint positions_from {A} (i : nat) (p : A -> bool) (l : list A) : list nat :=
  match l with
  | [] => []
  | x :: l' => if p x then i :: positions_from (S i) p l' else positions_from (S i) p l'
  end.

Definition positions {A} (p : A -> bool) (l : list A) : list nat := positions_from 0 p l.

(** [min_by_key]: the first of the least keys. *)
Fixpoint min_by_key {A} (key : A -> Z) (best : A) (l : list A) : A :=
  match l with
  | [] => best
  | x :: l' => min_by_key key (if key x <? key best then x else best) l'
  end.

(** The scan of [pick_round_robin]: the first available position at or after the
    start, wrapping, with its offset. *)
Fixpoint rr_scan (start n : nat) (available : list nat) (offs : list nat)
  : option (nat * nat) :=
  match offs with
  | [] => None
  | off :: offs' =>
      let idx := ((start + off) mod n)%nat in
      if bool_decide (idx ∈ available) then Some (off, idx)
      else rr_scan start n available offs'
  end.

Definition pick_round_robin (st : RrState) (n : nat) (available : list nat) (sticky : Z)
  : nat * RrState :=
  let st := if Z.max sticky 1 <=? rr_count st
            then mkRrState (wrap64 (rr_cursor st + 1)) 0 else st in
  let start := Z.to_nat (rr_cursor st mod Z.of_nat n) in
  match rr_scan start n available (seq 0 n) with
  | Some (off, idx) =>
      let count := if bool_decide (off <> 0%nat) then 0 else rr_count st in
      (idx, mkRrState (Z.of_nat idx) (wrap32 (count + 1)))
  | None => (default 0%nat (head available), st)
  end.

Definition selected (pa : ProviderAccounts) (idx : nat) : ResolveOutcome :=
  match pa_accounts pa !! idx with
  | Some account => Selected (acc_id account) (lease account)
  | None => NoAccounts
  end.

(** [session_id.filter(|s| !s.is_empty())]. *)
Definition live_session (session_id : option string) : option string :=
  match session_id with
  | Some s => if is_empty s then None else Some s
  | None => None
  end.

(** The position of the account this session used before, if it is usable. *)
Definition affine (r : CredentialResolver) (pa : ProviderAccounts) (provider_id : string)
    (exclude : gset string) (session : option string) (available : list nat) : option nat :=
  match session with
  | None => None
  | Some s =>
      match session_affinity r !! (provider_id, s) with
      | None => None
      | Some account_id =>
          List.find (fun idx =>
            match pa_accounts pa !! idx with
            | Some a => str_eqb (acc_id a) account_id && negb (set_has exclude account_id)
            | None => false
            end) available
      end
  end.

Definition priority_at (pa : ProviderAccounts) (idx : nat) : Z :=
  match pa_accounts pa !! idx with Some a => acc_priority a | None => 0 end.

(** The account the selection strategy picks among the available ones. *)
Definition pick (r : CredentialResolver) (pa : ProviderAccounts) (provider_id : string)
    (first : nat) (available : list nat) : nat * CredentialResolver :=
  match pa_strategy pa with
  | FillFirst => (min_by_key (priority_at pa) first available, r)
  | RoundRobin =>
      let st := default RrState_default (rr r !! provider_id) in
      let '(idx, st') :=
        pick_round_robin st (length (pa_accounts pa)) (first :: available) (pa_sticky pa) in
      (idx, set_rr (<[provider_id := st']> (rr r)) r)
  end.

Definition resolve_with_session_allowed (r : CredentialResolver)
    (provider_id model : string) (exclude : gset string) (session_id : option string)
    (allowed_accounts : option (gset string)) (now : Instant)
  : ResolveOutcome * CredentialResolver :=
  match providers r !! provider_id with
  | None => (NoAccounts, r)
  | Some pa =>
      match pa_accounts pa with
      | [] => (NoAccounts, r)
      | _ =>
          match positions (usable r provider_id model exclude allowed_accounts now)
                  (pa_accounts pa) with
          | [] =>
              let ids := acc_id <$> List.filter (fun a => allow_has allowed_accounts (acc_id a))
                                      (pa_accounts pa) in
              (AllUnavailable
                 ((fun unlock => saturating_duration_since unlock now)
                  <$> Availability.earliest_unlock (availability r) provider_id ids model now), r)
          | first :: available =>
              let session := live_session session_id in
              match affine r pa provider_id exclude session (first :: available) with
              | Some idx => (selected pa idx, r)
              | None =>
                  let '(idx, r) := pick r pa provider_id first available in
                  let r := match session, pa_accounts pa !! idx with
                    | Some s, Some account =>
                        set_affinity (<[(provider_id, s) := acc_id account]>
                                        (session_affinity r)) r
                    | _, _ => r
                    end in
                  (selected pa idx, r)
              end
          end
      end
  end.

Definition resolve_with_session (r : CredentialResolver) (provider_id model : string)
    (exclude : gset string) (session_id : option string) (now : Instant) :=
  resolve_with_session_allowed r provider_id model exclude session_id None now.

Definition resolve (r : CredentialResolver) (provider_id model : string)
    (exclude : gset string) (now : Instant) :=
  resolve_with_session r provider_id model exclude None now.

Definition report_failure (r : CredentialResolver) (provider_id account_id model : string)
    (class : ErrorClass) (now : Instant) : Duration * CredentialResolver :=
  let '(cooldown, av) :=
    Availability.report_failure (availability r) provider_id account_id model class now in
  (cooldown, set_availability av r).

Definition report_success (r : CredentialResolver) (provider_id account_id : string)
  : CredentialResolver :=
  set_availability (Availability.report_success (availability r) provider_id account_id) r.

Definition reset_lockout (r : CredentialResolver) (provider_id account_id : string)
    (model : option string) : option bool * CredentialResolver :=
  match providers r !! provider_id with
  | None => (None, r)
  | Some pa =>
      if negb (existsb (fun a => str_eqb (acc_id a) account_id) (pa_accounts pa))
      then (None, r)
      else
        let '(cleared, av) :=
          Availability.reset_lockout (availability r) provider_id account_id model in
        (Some cleared, set_availability av r)
  end.

(** ** Runs

    The operations of other requests and of operators, in any order. *)

Inductive ROp :=
| RResolve (provider_id model : string) (exclude : gset string) (session : option string)
    (allowed : option (gset string)) (now : Instant)
| RFailure (provider_id account_id model : string) (class : ErrorClass) (now : Instant)
| RSuccess (provider_id account_id : string)
| RReset (provider_id account_id : string) (model : option string)
| RAllows (provider_id : string) (now : Instant)
| RRecord (provider_id : string) (ok : bool) (now : Instant).

Definition rexec (r : CredentialResolver) (o : ROp) : CredentialResolver :=
  match o with
  | RResolve p m ex s al now => (resolve_with_session_allowed r p m ex s al now).2
  | RFailure p a m c now => (report_failure r p a m c now).2
  | RSuccess p a => report_success r p a
  | RReset p a m => (reset_lockout r p a m).2
  | RAllows p now => (circuit_allows r p now).2
  | RRecord p ok now => circuit_record r p ok now
  end.

Definition rrun (r : CredentialResolver) (os : list ROp) : CredentialResolver :=
  fold_left rexec os r.
