(* ===== verification/ResolverTheorems.v ===== *)
(** * The credential resolver: theorems

    Which account a resolution returns and when it returns none, session
    stickiness, the round-robin rotation, and the agreement with the pool health
    the router reads. *)

From Stdlib Require Import ZArith Lia Sorted.
From stdpp Require Import base list strings gmap option sorting.
From S2P Require Import Prelude Text Float Time Ir Config Target Breaker Availability Resolver.

#[local] Open Scope Z_scope.

(** ** Positions *)

Lemma elem_of_positions_from {A} (p : A -> bool) (l : list A) i k :
  k ∈ positions_from i p l
  <-> exists j x, k = (i + j)%nat /\ l !! j = Some x /\ p x = true.
Proof.
  revert i. induction l as [|y l IH]; intros i; simpl.
  - split; [by intros H%not_elem_of_nil|]. intros (j & x & _ & H & _). by destruct j.
  - assert (Hs : (exists j x, k = (S i + j)%nat /\ l !! j = Some x /\ p x = true)
      <-> exists j x, k = (i + S j)%nat /\ (y :: l) !! S j = Some x /\ p x = true).
    { split; intros (j & x & -> & H); exists j, x; (split; [lia|done]). }
    assert (Hc : (exists j x, k = (i + j)%nat /\ (y :: l) !! j = Some x /\ p x = true)
      <-> (k = i /\ p y = true)
          \/ exists j x, k = (i + S j)%nat /\ (y :: l) !! S j = Some x /\ p x = true).
    { split.
      - intros ([|j] & x & -> & H & Hp); [left|right; by exists j, x].
        simplify_eq/=. split; [lia|done].
      - intros [[-> Hp]|(j & x & H)]; [exists 0%nat, y|by exists (S j), x].
        split_and!; [lia|done|done]. }
    rewrite Hc. destruct (p y) eqn:E; rewrite ?elem_of_cons, IH, Hs; naive_solver.
Qed.

Lemma elem_of_positions {A} (p : A -> bool) (l : list A) k :
  k ∈ positions p l <-> exists x, l !! k = Some x /\ p x = true.
Proof.
  unfold positions. rewrite elem_of_positions_from. simpl. split.
  - intros (j & x & -> & H). by exists x.
  - intros (x & H). by exists k, x.
Qed.

Lemma positions_nil {A} (p : A -> bool) (l : list A) :
  positions p l = [] <-> forall x, x ∈ l -> p x = false.
Proof.
  split.
  - intros H x [k Hk]%list_elem_of_lookup. apply not_true_iff_false. intros Hp.
    assert (k ∈ positions p l) as Hin by (apply elem_of_positions; eauto).
    rewrite H in Hin. by apply not_elem_of_nil in Hin.
  - intros H. destruct (positions p l) as [|k ks] eqn:E; [done|].
    assert (k ∈ positions p l) as (x & Hk & Hp)%elem_of_positions by (rewrite E; by left).
    rewrite H in Hp; [done|]. by eapply list_elem_of_lookup_2.
Qed.

(** Positions ascend. *)
Lemma positions_from_sorted {A} (p : A -> bool) (l : list A) i :
  StronglySorted lt (positions_from i p l).
Proof.
  revert i. induction l as [|y l IH]; intros i; simpl; [constructor|].
  destruct (p y); [|apply IH]. constructor; [apply IH|].
  apply List.Forall_forall. intros k (j & x & -> & _)%list_elem_of_In%elem_of_positions_from. lia.
Qed.

(** ** Least keys *)

(** The result is the first of the least elements. *)
Lemma min_by_key_spec {A} (key : A -> Z) (b : A) l :
  exists l1 l2, b :: l = l1 ++ min_by_key key b l :: l2
  /\ Forall (fun x => key (min_by_key key b l) < key x) l1
  /\ Forall (fun x => key (min_by_key key b l) <= key x) l2.
Proof.
  revert b. induction l as [|y l IH]; intros b; simpl; [by exists [], []|].
  destruct (Z.ltb_spec (key y) (key b)) as [H|H].
  - destruct (IH y) as (l1 & l2 & E & H1 & H2). exists (b :: l1), l2. rewrite E.
    split_and!; [done| |done]. constructor; [|done].
    destruct l1 as [|z l1]; injection E as E1 E2; [by rewrite <- E1|]. subst z.
    inversion H1; subst. lia.
  - destruct (IH b) as (l1 & l2 & E & H1 & H2). destruct l1 as [|z l1]; injection E as E1 E2.
    + subst l2. exists [], (y :: l). rewrite <- E1 in *. split_and!; [done|constructor|].
      by constructor.
    + subst z. exists (b :: y :: l1), l2. apply Forall_cons_1 in H1 as [Hb H1].
      split_and!; [by rewrite E2 at 1| |done]. repeat constructor; [done|lia|done].
Qed.

Lemma min_by_key_elem {A} (key : A -> Z) (b : A) l : min_by_key key b l ∈ b :: l.
Proof.
  destruct (min_by_key_spec key b l) as (l1 & l2 & E & _). rewrite E. set_solver.
Qed.

(** ** Round robin *)

Lemma rr_scan_elem start n av offs off idx :
  rr_scan start n av offs = Some (off, idx) ->
  idx ∈ av /\ off ∈ offs /\ idx = ((start + off) mod n)%nat.
Proof.
  induction offs as [|o offs IH]; simpl; [done|].
  case_bool_decide as H; intros E; simplify_eq.
  - split_and!; [done|by left|done].
  - destruct (IH E) as (? & ? & ?). split_and!; [done|by right|done].
Qed.

(** The scan meets every position. *)
Lemma rr_scan_some start n av k :
  (k < n)%nat -> (start < n)%nat -> k ∈ av ->
  exists off idx, rr_scan start n av (seq 0 n) = Some (off, idx).
Proof.
  intros Hk Hs Hin.
  set (o := if decide (start <= k)%nat then (k - start)%nat else (n + k - start)%nat).
  assert (Ho : (o < n)%nat /\ ((start + o) mod n)%nat = k).
  { unfold o. case_decide.
    - split; [lia|]. replace (start + (k - start))%nat with k by lia. by apply Nat.mod_small.
    - split; [lia|]. replace (start + (n + k - start))%nat with (k + 1 * n)%nat by lia.
      rewrite Nat.Div0.mod_add. by apply Nat.mod_small. }
  destruct Ho as [Ho Hm].
  assert (Hseq : o ∈ seq 0 n) by (apply elem_of_seq; lia).
  induction (seq 0 n) as [|x l IH]; [by apply not_elem_of_nil in Hseq|]. simpl.
  case_bool_decide as E; [by eauto|].
  apply elem_of_cons in Hseq as [<-|Hseq]; [by rewrite Hm in E|]. auto.
Qed.

Lemma pick_round_robin_elem st n av sticky :
  av <> [] -> Forall (fun k => (k < n)%nat) av ->
  (pick_round_robin st n av sticky).1 ∈ av.
Proof.
  intros Hne Hlt. destruct av as [|k av]; [done|]. clear Hne.
  assert (Hn : (k < n)%nat) by (by inversion Hlt).
  unfold pick_round_robin.
  set (st' := if Z.max sticky 1 <=? rr_count st then _ else st).
  destruct (rr_scan_some (Z.to_nat (rr_cursor st' mod Z.of_nat n)) n (k :: av) k)
    as (off & idx & E); [done| |by left|].
  { pose proof (Z.mod_pos_bound (rr_cursor st') (Z.of_nat n)). lia. }
  rewrite E. by apply rr_scan_elem in E as (? & _).
Qed.

(** With every position available the scan stops at its start. *)
Lemma rr_scan_full start n :
  (start < n)%nat -> rr_scan start n (seq 0 n) (seq 0 n) = Some (0%nat, start).
Proof.
  intros H. destruct n as [|n]; [lia|]. cbn [seq rr_scan]. rewrite Nat.add_0_r.
  rewrite Nat.mod_small by done. rewrite bool_decide_eq_true_2; [done|].
  change (start ∈ seq 0 (S n)). apply elem_of_seq. lia.
Qed.

(** The state after [k] picks with every position available. *)
Definition rr_after (sticky : Z) (n k : nat) : RrState :=
  match k with
  | O => RrState_default
  | S j => mkRrState ((Z.of_nat j / sticky) mod Z.of_nat n) (Z.of_nat j mod sticky + 1)
  end.

Lemma pick_round_robin_full (n k : nat) sticky :
  (0 < n)%nat -> Z.of_nat n <= u64_max -> 0 < sticky <= u32_max ->
  pick_round_robin (rr_after sticky n k) n (seq 0 n) sticky
  = (Z.to_nat ((Z.of_nat k / sticky) mod Z.of_nat n), rr_after sticky n (S k)).
Proof.
  intros Hn Hn64 Hs. unfold pick_round_robin. rewrite Z.max_l by lia.
  set (st := if sticky <=? _ then _ else _).
  assert (Hst : rr_cursor st mod Z.of_nat n = (Z.of_nat k / sticky) mod Z.of_nat n
    /\ rr_count st = Z.of_nat k mod sticky).
  { unfold st. clear st. destruct k as [|j]; simpl rr_count.
    - replace (sticky <=? 0) with false by lia. simpl.
      rewrite Z.div_0_l, Z.mod_0_l, Z.mod_0_l by lia. done.
    - simpl rr_cursor. rewrite Nat2Z.inj_succ. generalize (Z.of_nat j), (Nat2Z.is_nonneg j).
      clear j. intros j Hj.
      assert (Hd : exists q m, j = q * sticky + m /\ 0 <= m < sticky).
      { exists (j / sticky), (j mod sticky). pose proof (Z.div_mod j sticky ltac:(lia)).
        pose proof (Z.mod_pos_bound j sticky ltac:(lia)). lia. }
      destruct Hd as (q & m & -> & Hm).
      rewrite (Z.add_comm (q * sticky)), Z.div_add, Z.mod_add, (Z.div_small m sticky),
        (Z.mod_small m sticky), Z.add_0_l by lia.
      pose proof (Z.mod_pos_bound q (Z.of_nat n) ltac:(lia)).
      destruct (Z.leb_spec sticky (m + 1)); simpl rr_cursor; simpl rr_count.
      + rewrite wrap64_small by (unfold in_u64; lia).
        replace (Z.succ (m + q * sticky)) with ((q + 1) * sticky) by lia.
        rewrite Z.div_mul, Z.mod_mul by lia. split; [|done]. by rewrite Zplus_mod_idemp_l.
      + replace (Z.succ (m + q * sticky)) with (m + 1 + q * sticky) by lia.
        rewrite Z.div_add, Z.mod_add, (Z.div_small (m + 1)), (Z.mod_small (m + 1)) by lia.
        rewrite Z.add_0_l. split; [|done]. apply Z.mod_mod. lia. }
  destruct Hst as [-> ->].
  pose proof (Z.mod_pos_bound (Z.of_nat k / sticky) (Z.of_nat n)).
  pose proof (Z.mod_pos_bound (Z.of_nat k) sticky).
  rewrite rr_scan_full by lia. rewrite bool_decide_eq_false_2 by naive_solver.
  rewrite Z2Nat.id by lia. by rewrite wrap32_small by (unfold in_u32; lia).
Qed.

Lemma positions_from_all {A} (p : A -> bool) (l : list A) i :
  (forall x, x ∈ l -> p x = true) -> positions_from i p l = seq i (length l).
Proof.
  revert i. induction l as [|x l IH]; intros i H; [done|]. simpl.
  rewrite H by (by left). f_equal. apply IH. intros y Hy. apply H. by right.
Qed.

(** ** Resolution *)

Section Resolution.
Context (r : CredentialResolver) (provider_id model : string) (exclude : gset string)
  (session : option string) (allowed : option (gset string)) (now : Instant).

Local Abbreviation use := (usable r provider_id model exclude allowed now).
Local Abbreviation outcome :=
  (resolve_with_session_allowed r provider_id model exclude session allowed now).

(** The position a resolution settles on is one of the usable ones. *)
Lemma pick_usable pa k ks :
  positions use (pa_accounts pa) = k :: ks ->
  (pick r pa provider_id k ks).1 ∈ positions use (pa_accounts pa).
Proof.
  intros E. rewrite E. unfold pick. destruct (pa_strategy pa); simpl.
  - apply min_by_key_elem.
  - destruct (pick_round_robin _ _ _ _) as [idx st'] eqn:Ep. simpl.
    replace idx with (idx, st').1 by done. rewrite <- Ep.
    apply pick_round_robin_elem; [done|]. apply List.Forall_forall. intros j Hj.
    rewrite <- E in Hj. apply list_elem_of_In in Hj. apply elem_of_positions in Hj as (x & Hx & _).
    by apply lookup_lt_Some in Hx.
Qed.

Lemma affine_usable pa ps idx :
  affine r pa provider_id exclude (live_session session) ps = Some idx -> idx ∈ ps.
Proof.
  unfold affine. intros H. split_matches. apply find_some in H as [H _].
  by apply list_elem_of_In.
Qed.

(** What a resolution does, case by case. *)
Lemma resolve_cases :
  match providers r !! provider_id with
  | None => outcome.1 = NoAccounts
  | Some pa =>
      match positions use (pa_accounts pa) with
      | [] => if bool_decide (pa_accounts pa = []) then outcome.1 = NoAccounts
              else exists d, outcome.1 = AllUnavailable d
      | _ => exists a, a ∈ pa_accounts pa /\ use a = true
             /\ outcome.1 = Selected (acc_id a) (lease a)
      end
  end.
Proof.
  unfold resolve_with_session_allowed.
  destruct (providers r !! provider_id) as [pa|]; [|done].
  destruct (pa_accounts pa) as [|a0 l0] eqn:Ea; [done|]. rewrite <- Ea.
  destruct (positions use (pa_accounts pa)) as [|k ks] eqn:E.
  - case_bool_decide; [congruence|]. eauto.
  - assert (Hsel : forall idx, idx ∈ positions use (pa_accounts pa) ->
      exists a, a ∈ pa_accounts pa /\ use a = true /\ selected pa idx = Selected (acc_id a) (lease a)).
    { intros idx (a & Ha & Hu)%elem_of_positions. exists a. unfold selected. rewrite Ha.
      split_and!; [by eapply list_elem_of_lookup_2|done|done]. }
    destruct (affine _ _ _ _ _ _) as [idx|] eqn:Eaf; simpl.
    + apply Hsel. rewrite E. by eapply affine_usable.
    + pose proof (pick_usable pa k ks E) as Hp. destruct (pick r pa provider_id k ks) as [idx r'].
      simpl. by apply Hsel.
Qed.

Lemma usable_iff a :
  use a = true
  <-> (acc_id a ∉ exclude) /\ (forall s, allowed = Some s -> acc_id a ∈ s)
      /\ Availability.is_available (availability r) provider_id (acc_id a) model now = true.
Proof.
  unfold usable, set_has, allow_has, set_has. rewrite !andb_true_iff, negb_true_iff.
  rewrite bool_decide_eq_false. destruct allowed; rewrite ?bool_decide_eq_true; naive_solver.
Qed.

Lemma elem_of_account_ids id :
  id ∈ account_ids r provider_id
  <-> exists pa a, providers r !! provider_id = Some pa /\ a ∈ pa_accounts pa /\ acc_id a = id.
Proof.
  unfold account_ids. destruct (providers r !! provider_id) as [pa|].
  - rewrite list_elem_of_fmap. naive_solver.
  - split; [by intros H%not_elem_of_nil|naive_solver].
Qed.

Lemma resolve_selects_iff :
  (exists id l, outcome.1 = Selected id l)
  <-> exists id, id ∈ account_ids r provider_id /\ (id ∉ exclude)
      /\ (forall s, allowed = Some s -> id ∈ s)
      /\ Availability.is_available (availability r) provider_id id model now = true.
Proof.
  pose proof resolve_cases as Hc. setoid_rewrite elem_of_account_ids. split.
  - intros (id & l & E). rewrite E in Hc.
    destruct (providers r !! provider_id) as [pa|]; [|done].
    destruct (positions use _); [case_bool_decide; [done|by destruct Hc]|].
    destruct Hc as (a & Ha & Hu%usable_iff & _). exists (acc_id a). naive_solver.
  - intros (id & (pa & a & Hpa & Ha & <-) & Hu). rewrite Hpa in Hc.
    destruct (positions use _) as [|k ks] eqn:E; [|naive_solver].
    exfalso. rewrite positions_nil in E. specialize (E a Ha).
    apply not_true_iff_false in E. apply E. by apply usable_iff.
Qed.

Lemma resolve_no_accounts_iff :
  outcome.1 = NoAccounts <-> account_ids r provider_id = [].
Proof.
  pose proof resolve_cases as Hc. unfold account_ids.
  destruct (providers r !! provider_id) as [pa|]; [|done].
  destruct (positions use _) as [|k ks].
  - case_bool_decide as He; [by rewrite He|]. destruct Hc as (d & ->).
    split; [done|]. by intros ?%fmap_nil_inv.
  - destruct Hc as (a & Ha & _ & ->). split; [done|]. intros E%fmap_nil_inv. rewrite E in Ha.
    by apply not_elem_of_nil in Ha.
Qed.

Lemma resolve_hint d :
  outcome.1 = AllUnavailable d -> exclude = ∅ ->
  (exists id, id ∈ account_ids r provider_id /\ forall s, allowed = Some s -> id ∈ s) ->
  exists u, d = Some u /\ 0 < u
    /\ forall id t, id ∈ account_ids r provider_id -> (forall s, allowed = Some s -> id ∈ s) ->
         now <= t < now + u ->
         Availability.is_available (availability r) provider_id id model t <> true.
Proof.
  intros Hd He (id0 & Hin0 & Hal0).
  assert (Hnone : forall id, id ∈ account_ids r provider_id ->
      (forall s, allowed = Some s -> id ∈ s) ->
      Availability.is_available (availability r) provider_id id model now = false).
  { intros id Hin Hal. apply not_true_iff_false. intros Hav.
    assert (exists id l, outcome.1 = Selected id l) as (? & ? & E); [|congruence].
    apply resolve_selects_iff. exists id. set_solver. }
  unfold resolve_with_session_allowed, account_ids in *.
  destruct (providers r !! provider_id) as [pa|]; [|done].
  destruct (pa_accounts pa) as [|a0 l0] eqn:Ea; [done|].
  rewrite <- Ea in Hd, Hin0, Hnone |- *.
  destruct (positions use (pa_accounts pa)) as [|k ks].
  2: { simpl in Hd. unfold selected in Hd. repeat case_match; simplify_eq/=; done. }
  simpl in Hd. injection Hd as <-. set (ids := acc_id <$> _).
  assert (Hids : forall id, id ∈ ids <-> id ∈ acc_id <$> pa_accounts pa
      /\ forall s, allowed = Some s -> id ∈ s).
  { intros id. unfold ids. rewrite !list_elem_of_fmap. setoid_rewrite list_elem_of_In.
    setoid_rewrite List.filter_In. unfold allow_has, set_has.
    destruct allowed; setoid_rewrite bool_decide_eq_true || idtac; naive_solver. }
  destruct (Availability.earliest_unlock_bound (availability r) provider_id ids model now)
    as (u & -> & Hu & Hb).
  - intros E. assert (id0 ∈ ids) as Hi by (by apply Hids). rewrite E in Hi.
    by apply not_elem_of_nil in Hi.
  - apply List.Forall_forall. intros id [? ?]%list_elem_of_In%Hids. auto.
  - exists (u - now). unfold saturating_duration_since. simpl. split_and!; [f_equal; lia|lia|].
    intros id t Hin Hal Ht. rewrite (Hb id t); [done| |lia]. by apply Hids.
Qed.

End Resolution.

Lemma resolve_selected r p m ex s al now id l r' :
  resolve_with_session_allowed r p m ex s al now = (Selected id l, r') ->
  exists pa a, providers r !! p = Some pa /\ a ∈ pa_accounts pa
    /\ usable r p m ex al now a = true /\ id = acc_id a /\ l = lease a.
Proof.
  intros H. pose proof (resolve_cases r p m ex s al now) as Hc. rewrite H in Hc. simpl in Hc.
  destruct (providers r !! p) as [pa|]; [|done].
  destruct (positions _ _) as [|k ks]; [case_bool_decide; [done|by destruct Hc]|].
  destruct Hc as (a & Ha & Hu & E). simplify_eq. eauto 10.
Qed.

(** The remembered account is returned while it is usable. *)
Lemma sticky_selects r p m ex s al now id :
  is_empty s = false -> session_affinity r !! (p, s) = Some id ->
  id ∈ account_ids r p -> (id ∉ ex) -> (forall a, al = Some a -> id ∈ a) ->
  Availability.is_available (availability r) p id m now = true ->
  exists l, (resolve_with_session_allowed r p m ex (Some s) al now).1 = Selected id l.
Proof.
  intros Hs Haff (pa & a & Hpa & Ha & <-)%elem_of_account_ids Hex Hal Hav.
  unfold resolve_with_session_allowed. rewrite Hpa.
  destruct (pa_accounts pa) as [|a0 l0] eqn:Ea; [by apply not_elem_of_nil in Ha|].
  rewrite <- Ea in *. clear Ea.
  assert (Hu : usable r p m ex al now a = true) by (by apply usable_iff).
  pose proof Ha as [k Hk]%list_elem_of_lookup.
  assert (Hpos : k ∈ positions (usable r p m ex al now) (pa_accounts pa))
    by (apply elem_of_positions; eauto).
  destruct (positions _ _) as [|k0 ks]; [by apply not_elem_of_nil in Hpos|].
  simpl. rewrite Hs. unfold affine. rewrite Haff. unfold set_has at 1.
  rewrite (bool_decide_eq_false_2 (acc_id a ∈ ex)) by done.
  destruct (List.find _ _) as [idx|] eqn:Ef.
  - apply find_some in Ef as [_ Ef]. simpl. unfold selected.
    destruct (pa_accounts pa !! idx) as [b|]; [|done]. bool_hyps.
    apply str_eqb_eq in H. rewrite <- H. eauto.
  - exfalso. apply list_elem_of_In in Hpos. pose proof (find_none _ _ Ef _ Hpos) as Hn.
    cbv beta in Hn. rewrite Hk, str_eqb_refl in Hn. done.
Qed.

(** ** Runs *)

(** The operation is not a resolution of this session at this provider. *)
Definition other_session (provider_id s : string) (o : ROp) : Prop :=
  match o with
  | RResolve p _ _ s' _ _ => (p, live_session s') <> (provider_id, Some s)
  | _ => True
  end.

Lemma pick_keeps r pa p k ks :
  session_affinity (pick r pa p k ks).2 = session_affinity r
  /\ providers (pick r pa p k ks).2 = providers r
  /\ availability (pick r pa p k ks).2 = availability r.
Proof. unfold pick. destruct (pa_strategy pa); [done|]. by destruct (pick_round_robin _ _ _ _). Qed.

Lemma resolve_providers r p m ex s al now :
  providers (resolve_with_session_allowed r p m ex s al now).2 = providers r
  /\ availability (resolve_with_session_allowed r p m ex s al now).2 = availability r.
Proof.
  unfold resolve_with_session_allowed.
  destruct (providers r !! p) as [pa|]; [|done]. destruct (pa_accounts pa); [done|].
  destruct (positions _ _) as [|k ks]; [done|]. destruct (affine _ _ _ _ _ _); [done|].
  pose proof (pick_keeps r pa p k ks) as (_ & Hp & Ha). destruct (pick r pa p k ks) as [idx r'].
  simpl in *. by repeat case_match.
Qed.

Lemma resolve_affinity_other r p m ex s al now p' s' :
  (p, live_session s) <> (p', Some s') ->
  session_affinity (resolve_with_session_allowed r p m ex s al now).2 !! (p', s')
  = session_affinity r !! (p', s').
Proof.
  intros Hne. unfold resolve_with_session_allowed.
  destruct (providers r !! p) as [pa|]; [|done]. destruct (pa_accounts pa); [done|].
  destruct (positions _ _) as [|k ks]; [done|]. destruct (affine _ _ _ _ _ _); [done|].
  pose proof (pick_keeps r pa p k ks) as [Hs _]. destruct (pick r pa p k ks) as [idx r'].
  cbn [snd] in *. repeat case_match; simpl; try (by rewrite Hs).
  rewrite lookup_insert_ne by congruence. by rewrite Hs.
Qed.

Lemma resolve_records_affinity r p m ex s al now id l r' :
  is_empty s = false ->
  resolve_with_session_allowed r p m ex (Some s) al now = (Selected id l, r') ->
  session_affinity r' !! (p, s) = Some id.
Proof.
  intros Hs. unfold resolve_with_session_allowed.
  destruct (providers r !! p) as [pa|]; [|done]. destruct (pa_accounts pa) as [|a0 l0] eqn:Ea; [done|].
  rewrite <- Ea. clear Ea. destruct (positions _ _) as [|k ks]; [done|]. simpl. rewrite Hs.
  destruct (affine _ _ _ _ _ _) as [idx|] eqn:Ef.
  - intros [= Hsel <-]. unfold affine in Ef.
    destruct (session_affinity r !! (p, s)) as [id0|]; [|done].
    apply find_some in Ef as [_ Ef]. unfold selected in Hsel.
    destruct (pa_accounts pa !! idx) as [a|]; [|done]. bool_hyps.
    apply str_eqb_eq in H. congruence.
  - destruct (pick r pa p k ks) as [idx r'']. intros [= Hsel <-]. unfold selected in Hsel.
    destruct (pa_accounts pa !! idx) as [a|]; [|done]. simplify_eq/=.
    by rewrite lookup_insert_eq.
Qed.

Lemma rexec_keeps r o p s :
  other_session p s o ->
  session_affinity (rexec r o) !! (p, s) = session_affinity r !! (p, s)
  /\ providers (rexec r o) = providers r.
Proof.
  intros Ho. destruct o; simpl in *.
  - split; [by apply resolve_affinity_other|by apply resolve_providers].
  - unfold report_failure. by destruct (Availability.report_failure _ _ _ _ _ _).
  - done.
  - unfold reset_lockout. destruct (providers r !! _); [|done].
    destruct (negb _); [done|]. by destruct (Availability.reset_lockout _ _ _ _).
  - unfold circuit_allows. by destruct (Breaker.allows _ _ _).
  - done.
Qed.

Lemma rrun_keeps os r p s :
  Forall (other_session p s) os ->
  session_affinity (rrun r os) !! (p, s) = session_affinity r !! (p, s)
  /\ providers (rrun r os) = providers r.
Proof.
  revert r. induction os as [|o os IH]; intros r H; [done|].
  apply Forall_cons_1 in H as [Ho H]. destruct (rexec_keeps r o p s Ho) as [Hs Hp].
  destruct (IH (rexec r o) H) as [Hs' Hp']. unfold rrun in *. simpl. by rewrite Hs', Hp'.
Qed.

(** ** The theorems *)

(** A resolution never leaves its bounds: the account it returns is
    configured for the provider, was not tried before, is on the allow-list if
    there is one, has no active lock for the model, and the lease it comes with is
    that account's. *)
Theorem resolve_within_bounds r provider_id model exclude session allowed now id l r' :
  resolve_with_session_allowed r provider_id model exclude session allowed now
  = (Selected id l, r') ->
  id ∈ account_ids r provider_id
  /\ (id ∉ exclude)
  /\ (forall s, allowed = Some s -> id ∈ s)
  /\ Availability.is_available (availability r) provider_id id model now = true
  /\ provider_account_id l = id.
Proof.
  intros H. apply resolve_selected in H as (pa & a & Hpa & Ha & Hu & -> & ->).
  apply usable_iff in Hu as (? & ? & ?). split_and!; try done.
  - apply elem_of_account_ids. eauto.
  - unfold lease. by destruct (acc_auth a).
Qed.

(** A resolution fails only when it must: it selects an account
    exactly when one is usable, reports [NoAccounts] exactly when the provider has
    none, and otherwise reports unavailability. When nothing was tried yet and
    some account is allowed, the report carries a hint in the future, and no
    allowed account becomes usable before it. *)
Theorem resolve_complete r provider_id model exclude session allowed now :
  let out := (resolve_with_session_allowed r provider_id model exclude session allowed now).1 in
  let permitted id := forall s, allowed = Some s -> id ∈ s in
  let free id t := Availability.is_available (availability r) provider_id id model t = true in
  ((exists id l, out = Selected id l)
   <-> exists id, id ∈ account_ids r provider_id /\ (id ∉ exclude) /\ permitted id /\ free id now)
  /\ (out = NoAccounts <-> account_ids r provider_id = [])
  /\ (forall d, out = AllUnavailable d -> exclude = ∅ ->
        (exists id, id ∈ account_ids r provider_id /\ permitted id) ->
        exists u, d = Some u /\ 0 < u
          /\ forall id t, id ∈ account_ids r provider_id -> permitted id ->
               now <= t < now + u -> ~ free id t).
Proof.
  cbv zeta. split_and!.
  - apply resolve_selects_iff.
  - apply resolve_no_accounts_iff.
  - intros d Hd He Hex. by apply resolve_hint in Hd.
Qed.

(** A session sticks to its account: once a resolution gave a
    session an account, the next resolution of that session at the provider gives
    it the same account, whatever other sessions, failures, successes and resets
    happen in between, provided the account is usable then. *)
Theorem session_sticks r p m ex s al now id l r' os m' ex' al' later :
  is_empty s = false ->
  resolve_with_session_allowed r p m ex (Some s) al now = (Selected id l, r') ->
  Forall (other_session p s) os ->
  (id ∉ ex') -> (forall a, al' = Some a -> id ∈ a) ->
  Availability.is_available (availability (rrun r' os)) p id m' later = true ->
  exists l', (resolve_with_session_allowed (rrun r' os) p m' ex' (Some s) al' later).1
             = Selected id l'.
Proof.
  intros Hs H Hos Hex Hal Hav.
  assert (Hin : id ∈ account_ids r p).
  { apply resolve_selected in H as (pa & a & ? & ? & _ & -> & _).
    apply elem_of_account_ids. eauto. }
  apply resolve_records_affinity in H as Haff; [|done].
  pose proof (resolve_providers r p m ex (Some s) al now) as [Hp _]. rewrite H in Hp.
  simpl in Hp. destruct (rrun_keeps os r' p s Hos) as [Haff' Hp'].
  rewrite Haff in Haff'. rewrite Hp in Hp'.
  apply (sticky_selects (rrun r' os) p m' ex' s al' later id); try done.
  unfold account_ids in *. by rewrite Hp'.
Qed.

(** Successive resolutions at the given times, without session or exclusions. *)
Fixpoint resolve_seq (r : CredentialResolver) (p m : string) (nows : list Instant)
  : list ResolveOutcome :=
  match nows with
  | [] => []
  | now :: nows' =>
      let '(out, r') := resolve r p m ∅ now in out :: resolve_seq r' p m nows'
  end.

Lemma resolve_rotates r p m pa now k :
  providers r !! p = Some pa -> pa_strategy pa = RoundRobin -> pa_accounts pa <> [] ->
  Z.of_nat (length (pa_accounts pa)) <= u64_max -> 0 < pa_sticky pa <= u32_max ->
  default RrState_default (rr r !! p) = rr_after (pa_sticky pa) (length (pa_accounts pa)) k ->
  (forall a, a ∈ pa_accounts pa ->
     Availability.is_available (availability r) p (acc_id a) m now = true) ->
  resolve r p m ∅ now
  = (selected pa (Z.to_nat ((Z.of_nat k / pa_sticky pa) mod Z.of_nat (length (pa_accounts pa)))),
     set_rr (<[p := rr_after (pa_sticky pa) (length (pa_accounts pa)) (S k)]> (rr r)) r).
Proof.
  intros Hpa Hst Hne Hn Hs Hrr Hav.
  unfold resolve, resolve_with_session, resolve_with_session_allowed. rewrite Hpa.
  assert (Hpos : positions (usable r p m ∅ None now) (pa_accounts pa)
    = seq 0 (length (pa_accounts pa))).
  { apply positions_from_all. intros a Ha. apply usable_iff. set_solver. }
  rewrite Hpos. destruct (pa_accounts pa) as [|a0 l0] eqn:Ea; [done|]. rewrite <- Ea in *.
  destruct (length (pa_accounts pa)) as [|n] eqn:El; [by rewrite Ea in El|]. cbn [seq].
  simpl. unfold pick. rewrite Hst, Hrr, El. change (0%nat :: seq 1 n) with (seq 0 (S n)).
  rewrite pick_round_robin_full by (done || lia). done.
Qed.

(** Round robin rotates: while every account is usable, the
    resolutions of a fresh provider walk through its accounts in order, each
    [sticky] times in a row, and start over after the last. *)
Theorem round_robin_rotation r p m pa nows k now :
  providers r !! p = Some pa -> pa_strategy pa = RoundRobin -> pa_accounts pa <> [] ->
  Z.of_nat (length (pa_accounts pa)) <= u64_max -> 0 < pa_sticky pa <= u32_max ->
  rr r !! p = None ->
  (forall t a, t ∈ nows -> a ∈ pa_accounts pa ->
     Availability.is_available (availability r) p (acc_id a) m t = true) ->
  nows !! k = Some now ->
  resolve_seq r p m nows !! k
  = Some (selected pa (Z.to_nat ((Z.of_nat k / pa_sticky pa)
                                  mod Z.of_nat (length (pa_accounts pa))))).
Proof.
  intros Hpa Hst Hne Hn Hs Hrr Hav Hk.
  assert (Hgen : forall j r, providers r !! p = Some pa ->
    default RrState_default (rr r !! p) = rr_after (pa_sticky pa) (length (pa_accounts pa)) j ->
    (forall t a, t ∈ nows -> a ∈ pa_accounts pa ->
       Availability.is_available (availability r) p (acc_id a) m t = true) ->
    resolve_seq r p m nows !! k
    = Some (selected pa (Z.to_nat ((Z.of_nat (j + k) / pa_sticky pa)
                                    mod Z.of_nat (length (pa_accounts pa)))))).
  2: { apply (Hgen 0%nat r Hpa); [by rewrite Hrr|done]. }
  clear r Hpa Hrr Hav. revert k Hk. induction nows as [|t nows IH]; intros k Hk j r Hpa Hrr Hav.
  { done. }
  cbn [resolve_seq]. rewrite (resolve_rotates r p m pa t j) by (auto; intros; apply Hav; auto; by left).
  destruct k as [|k]; simpl.
  - by rewrite Nat.add_0_r.
  - rewrite (IH k Hk (S j)); [by rewrite Nat.add_succ_r|done| |].
    + simpl. by rewrite lookup_insert_eq.
    + intros t' a Ht Ha. apply Hav; [by right|done].
Qed.

(** Without a session, fill-first picks the preferred usable
    account: none has a lower priority value, and of several with the same value
    it is the first declared. *)
Theorem fill_first_preferred r p m ex al now pa id l r' :
  providers r !! p = Some pa -> pa_strategy pa = FillFirst ->
  resolve_with_session_allowed r p m ex None al now = (Selected id l, r') ->
  exists k a, pa_accounts pa !! k = Some a /\ acc_id a = id /\ l = lease a
    /\ forall j b, pa_accounts pa !! j = Some b -> usable r p m ex al now b = true ->
       acc_priority a <= acc_priority b /\ ((j < k)%nat -> acc_priority a < acc_priority b).
Proof.
  intros Hpa Hst. unfold resolve_with_session_allowed. rewrite Hpa.
  destruct (pa_accounts pa) as [|a0 l0] eqn:Ea; [done|]. rewrite <- Ea. clear Ea a0 l0.
  set (ps := positions _ _). assert (Hps : ps = positions (usable r p m ex al now) (pa_accounts pa))
    by done. clearbody ps.
  destruct ps as [|k0 ks] eqn:Eps; [done|]. simpl. unfold pick. rewrite Hst.
  set (k := min_by_key _ _ _). unfold selected.
  destruct (pa_accounts pa !! k) as [a|] eqn:Ek; [|done]. intros [= <- <- <-].
  exists k, a. split_and!; [done|done|done|]. intros j b Hj Hu.
  destruct (min_by_key_spec (priority_at pa) k0 ks) as (l1 & l2 & E & H1 & H2). fold k in E, H1, H2.
  assert (Hpk : priority_at pa k = acc_priority a) by (unfold priority_at; by rewrite Ek).
  assert (Hpj : priority_at pa j = acc_priority b) by (unfold priority_at; by rewrite Hj).
  assert (Hin : j ∈ l1 ++ k :: l2).
  { rewrite <- E, Hps. apply elem_of_positions. eauto. }
  assert (Hsort : StronglySorted lt (l1 ++ k :: l2))
    by (rewrite <- E, Hps; apply positions_from_sorted).
  rewrite List.Forall_forall in H1, H2. rewrite elem_of_app, elem_of_cons in Hin.
  destruct Hin as [Hin|[->|Hin]]; try rewrite list_elem_of_In in Hin.
  - specialize (H1 _ Hin). cbv beta in H1. lia.
  - rewrite Hj in Ek. injection Ek as ->. lia.
  - assert (k < j)%nat as Hkj; [|specialize (H2 _ Hin); cbv beta in H2; lia].
    apply StronglySorted_app in Hsort as (_ & _ & Hs2).
    inversion Hs2 as [|? ? ? Hf]; subst. rewrite List.Forall_forall in Hf. auto.
Qed.

(** The pool health the router reads tells the truth about the
    next resolution: it counts a healthy account exactly when a request without
    restrictions would get one. *)
Theorem pool_health_agrees r p m now session :
  0 < ph_healthy (pool_health r p m now)
  <-> exists id l, (resolve_with_session r p m ∅ session now).1 = Selected id l.
Proof.
  unfold resolve_with_session. rewrite resolve_selects_iff. setoid_rewrite elem_of_account_ids.
  unfold pool_health. destruct (providers r !! p) as [pa|]; simpl.
  - set (f := List.filter _ _). split.
    + intros H. destruct f as [|a f'] eqn:E; [done|].
      assert (In a f) as Hin by (rewrite E; by left). unfold f in Hin.
      apply List.filter_In in Hin as [Ha Hf]. apply list_elem_of_In in Ha.
      exists (acc_id a). split_and!; [by exists pa, a|set_solver|done|done].
    + intros (id & (pa' & a & [= <-] & Ha & <-) & _ & _ & Hf).
      assert (In a f) as Hin by (apply List.filter_In; split; [by apply list_elem_of_In|done]).
      destruct f; [done|]. simpl. lia.
  - split; [lia|]. intros (id & (pa & a & ? & _) & _). done.
Qed.

(** ** Samples *)

Module ResolverSamples.

Definition acc (id : string) (priority : Z) : Account :=
  mkAccount id "p" (RaApiKey ("key-" ^^ id)) priority [].

Definition pool (s : SelectionStrategy) (sticky : Z) : ProviderAccounts :=
  mkProviderAccounts [acc "a" 1; acc "b" 0; acc "c" 0] s sticky.

Definition res (s : SelectionStrategy) (sticky : Z) : CredentialResolver :=
  resolver_new {[ "p" := pool s sticky ]} (Breaker.new BreakerConfig_default).

Definition step (s : SelectionStrategy) (ex : gset string) (session : option string) :=
  resolve_with_session_allowed (res s 2) "p" "m" ex session None 0.

Lemma step_b : step FillFirst ∅ None
  = (Selected "b" (lease (acc "b" 0)), (step FillFirst ∅ None).2).
Proof. vm_compute. reflexivity. Qed.

Lemma step_c : step FillFirst {[ "b" ]} (Some "s")
  = (Selected "c" (lease (acc "c" 0)), (step FillFirst {[ "b" ]} (Some "s")).2).
Proof. vm_compute. reflexivity. Qed.

Lemma resolve_within_bounds_witness : "b" ∈ account_ids (res FillFirst 2) "p".
Proof. exact (proj1 (resolve_within_bounds _ _ _ _ _ _ _ _ _ _ step_b)). Defined.

Lemma session_sticks_witness :
  exists l, (resolve_with_session_allowed
    (rrun (step FillFirst {[ "b" ]} (Some "s")).2 [RFailure "p" "a" "m" RateLimited 5])
    "p" "m" ∅ (Some "s") None 9).1 = Selected "c" l.
Proof.
  apply (session_sticks _ _ _ _ "s" _ _ _ _ _ [RFailure "p" "a" "m" RateLimited 5] "m" ∅ None 9
           eq_refl step_c).
  - by repeat constructor.
  - set_solver.
  - done.
  - vm_compute. reflexivity.
Defined.

Lemma round_robin_rotation_witness :
  resolve_seq (res RoundRobin 2) "p" "m" [0; 1; 2; 3; 4; 5; 6] !! 5%nat
  = Some (Selected "c" (lease (acc "c" 0))).
Proof.
  rewrite (round_robin_rotation (res RoundRobin 2) "p" "m" (pool RoundRobin 2)
             [0; 1; 2; 3; 4; 5; 6] 5%nat 5); try (done || reflexivity).
Defined.

Lemma fill_first_preferred_witness :
  exists k a, pa_accounts (pool FillFirst 2) !! k = Some a /\ acc_id a = "b".
Proof.
  destruct (fill_first_preferred (res FillFirst 2) "p" "m" ∅ None 0 (pool FillFirst 2) _ _ _
              eq_refl eq_refl step_b) as (k & a & Hk & Ha & _).
  exact (ex_intro _ k (ex_intro _ a (conj Hk Ha))).
Defined.

End ResolverSamples.
