(* ===== verification/Collect.v ===== *)
(** * Event streams

    [crates/sb-adapter/src/lib.rs] (the adapter error and the replay of a whole
    response as events), [crates/sb-runtime/src/collect.rs] (assembly of a
    response, the peek before a stream is committed) and [stream.rs] (metering of
    a committed stream). A finished event stream is the list of its items. The
    client of a metered stream polls it and may drop it at any moment. Byte counts
    are added exactly: a counter of 64 bits does not overflow on what a process
    can receive. *)

From Stdlib Require Import ZArith Lia Sorted.
From stdpp Require Import base list strings gmap option.
From S2P Require Import Prelude Text BTree Float Ir.

#[local] Open Scope Z_scope.

(** ** Adapter errors and replayed responses *)

Record AdapterError := mkAdapterError {
  err_class : ErrorClass;
  err_message : string;
  err_status : option Z;
  err_retry_after_ms : option Z
}.

Definition AdapterError_new (class : ErrorClass) (message : string) : AdapterError :=
  mkAdapterError class message None None.

Abbreviation Item := (result AiStreamEvent AdapterError).
Abbreviation EventStream := (list Item).

#[export] Instance index_ord : KeyOrd Z := Z.compare.

#[export] Instance index_ord_laws : KeyOrdLaws Z.
Proof.
  split; unfold key_cmp, index_ord.
  - apply Z.compare_eq_iff.
  - intros x y. apply Z.compare_antisym.
  - intros x y z. rewrite !Z.compare_lt_iff. lia.
Qed.

Section Json.
(** [serde_json::from_str] and [serde_json::to_string] on values. *)
Context (parse_json : string -> option Json) (print_json : Json -> string).

(** The tool calls of a response as events, numbered from [i]. *)
Fixpoint tool_events (i : Z) (parts : list ContentPart) : list AiStreamEvent :=
  match parts with
  | [] => []
  | ToolUse id name args :: parts' =>
      EvToolCallStart i id name :: EvToolCallArgsDelta i (print_json args)
      :: EvToolCallEnd i :: tool_events (i + 1) parts'
  | _ :: parts' => tool_events i parts'
  end.

Definition response_to_events (resp : AiResponse) : list AiStreamEvent :=
  let text := message_text (resp_message resp) in
  [EvMessageStart (resp_id resp) (resp_model resp)]
  ++ (if is_empty text then [] else [EvTextDelta text])
  ++ tool_events 0 (msg_content (resp_message resp))
  ++ [EvUsageDelta (resp_usage resp); EvMessageEnd (resp_finish_reason resp)].

(** ** Assembly *)

Record Collector := mkCollector {
  c_content : string;
  c_reasoning : string;
  c_images : list ContentPart;
  c_citations : list ContentPart;
  c_server_tools : list ContentPart;
  c_tool_uses : BTreeMap Z (string * string * string);
  c_finish_reason : option FinishReason;
  c_usage : Usage;
  c_assembled : Z
}.

Definition Collector_new : Collector :=
  mkCollector EmptyString EmptyString [] [] [] [] None Usage_default 0.

Definition set_content x (c : Collector) :=
  mkCollector x (c_reasoning c) (c_images c) (c_citations c) (c_server_tools c)
    (c_tool_uses c) (c_finish_reason c) (c_usage c) (c_assembled c).
Definition set_reasoning x (c : Collector) :=
  mkCollector (c_content c) x (c_images c) (c_citations c) (c_server_tools c)
    (c_tool_uses c) (c_finish_reason c) (c_usage c) (c_assembled c).
Definition set_images x (c : Collector) :=
  mkCollector (c_content c) (c_reasoning c) x (c_citations c) (c_server_tools c)
    (c_tool_uses c) (c_finish_reason c) (c_usage c) (c_assembled c).
Definition set_citations x (c : Collector) :=
  mkCollector (c_content c) (c_reasoning c) (c_images c) x (c_server_tools c)
    (c_tool_uses c) (c_finish_reason c) (c_usage c) (c_assembled c).
Definition set_server_tools x (c : Collector) :=
  mkCollector (c_content c) (c_reasoning c) (c_images c) (c_citations c) x
    (c_tool_uses c) (c_finish_reason c) (c_usage c) (c_assembled c).
Definition set_tool_uses x (c : Collector) :=
  mkCollector (c_content c) (c_reasoning c) (c_images c) (c_citations c) (c_server_tools c)
    x (c_finish_reason c) (c_usage c) (c_assembled c).
Definition set_c_finish x (c : Collector) :=
  mkCollector (c_content c) (c_reasoning c) (c_images c) (c_citations c) (c_server_tools c)
    (c_tool_uses c) x (c_usage c) (c_assembled c).
Definition set_c_usage x (c : Collector) :=
  mkCollector (c_content c) (c_reasoning c) (c_images c) (c_citations c) (c_server_tools c)
    (c_tool_uses c) (c_finish_reason c) x (c_assembled c).
Definition set_assembled x (c : Collector) :=
  mkCollector (c_content c) (c_reasoning c) (c_images c) (c_citations c) (c_server_tools c)
    (c_tool_uses c) (c_finish_reason c) (c_usage c) x.

(** [over_cap]. *)
Definition over_cap (max_bytes : option Z) (assembled : Z) : option AdapterError :=
  match max_bytes with
  | Some max =>
      if max <? assembled
      then Some (AdapterError_new ServerError
                   ("response exceeded max_response_bytes (" ^^ fmt_int max ^^ ")"))
      else None
  | None => None
  end.

(** Count the bytes, refuse over the ceiling, otherwise keep them. *)
Definition take_bytes (max_bytes : option Z) (s : string) (keep : Collector -> Collector)
    (c : Collector) : result Collector AdapterError :=
  let assembled := c_assembled c + Z.of_nat (String.length s) in
  match over_cap max_bytes assembled with
  | Some err => Err err
  | None => Ok (keep (set_assembled assembled c))
  end.

Definition collect_step (max_bytes : option Z) (c : Collector) (item : Item)
  : result Collector AdapterError :=
  match item with
  | Err e => Err e
  | Ok ev =>
      match ev with
      | EvTextDelta text =>
          take_bytes max_bytes text (fun c => set_content (c_content c ^^ text) c) c
      | EvToolCallStart index id name =>
          Ok (set_tool_uses (bt_insert index (id, name, EmptyString) (c_tool_uses c)) c)
      | EvToolCallArgsDelta index json =>
          take_bytes max_bytes json (fun c =>
            match bt_get index (c_tool_uses c) with
            | Some (id, name, args) =>
                set_tool_uses (bt_insert index (id, name, args ^^ json) (c_tool_uses c)) c
            | None => c
            end) c
      | EvToolCallEnd _ => Ok c
      | EvUsageDelta delta => Ok (set_c_usage delta c)
      | EvMessageEnd finish => Ok (set_c_finish (Some finish) c)
      | EvError message class => Err (AdapterError_new class message)
      | EvReasoningDelta text =>
          take_bytes max_bytes text (fun c => set_reasoning (c_reasoning c ^^ text) c) c
      | EvOutputImage media_type data =>
          take_bytes max_bytes data
            (fun c => set_images (c_images c ++ [image_base64 media_type data]) c) c
      | EvCitation url title =>
          Ok (set_citations (c_citations c ++ [Citation url title None]) c)
      | EvServerToolCall id name status =>
          if str_eqb status "completed"
          then Ok (set_server_tools (c_server_tools c ++ [ServerToolUse id name JNull]) c)
          else Ok c
      | EvMessageStart _ _ => Ok c
      end
  end.

Fixpoint collect_loop (max_bytes : option Z) (c : Collector) (stream : EventStream)
  : result Collector AdapterError :=
  match stream with
  | [] => Ok c
  | item :: stream' =>
      let? c := collect_step max_bytes c item in collect_loop max_bytes c stream'
  end.

(** Arguments that are not JSON are kept as a string. *)
Definition tool_use_part (t : string * string * string) : ContentPart :=
  let '(id, name, args) := t in
  ToolUse id name (default (JString args) (parse_json args)).

Definition collector_parts (c : Collector) : list ContentPart :=
  (if is_empty (c_reasoning c) then [] else [Reasoning (c_reasoning c) None])
  ++ (if is_empty (c_content c) then [] else [Text (c_content c)])
  ++ c_images c ++ c_citations c ++ c_server_tools c
  ++ (tool_use_part <$> (c_tool_uses c).*2).

Definition collect_response (stream : EventStream) (request_id model : string)
    (max_bytes : option Z) : result AiResponse AdapterError :=
  let? c := collect_loop max_bytes Collector_new stream in
  Ok (mkAiResponse request_id model
        (mkMessage RoleAssistant (collector_parts c) None)
        (default Stop (c_finish_reason c)) (c_usage c)).

End Json.

(** ** Commitment *)

(** Peek at the first item before the stream is handed to the client. *)
Definition precommit_stream (stream : EventStream) : result EventStream AdapterError :=
  match stream with
  | Ok (EvError message class) :: _ => Err (AdapterError_new class message)
  | Ok first :: rest => Ok (Ok first :: rest)
  | Err error :: _ => Err error
  | [] => Err (AdapterError_new StreamInterrupted "upstream stream ended before first event")
  end.

(** ** Metering *)

Inductive StreamFinish := Clean | UpstreamError (class : ErrorClass) | Aborted.

(** What the finalizer is called with. *)
Abbreviation Finish := (Usage * option FinishReason * StreamFinish)%type.

(** [FinishGuard]: the finalizer is armed until it fires. *)
Record FinishGuard := mkFinishGuard {
  g_usage : Usage;
  g_finish_reason : option FinishReason;
  g_armed : bool
}.

(** The state of the [unfold], with the calls made so far: of [on_first] (whether
    it fired) and of [on_finish]. [m_open] turns false when the unfold has
    returned [None] or was dropped. *)
Record Meter := mkMeter {
  m_stream : EventStream;
  m_guard : FinishGuard;
  m_first_fired : bool;
  m_finishes : list Finish;
  m_open : bool
}.

Definition meter_stream (stream : EventStream) : Meter :=
  mkMeter stream (mkFinishGuard Usage_default None true) false [] true.

(** [complete], [error] and [drop]: fire and disarm, if armed. *)
Definition fire (f : StreamFinish) (g : FinishGuard) (fs : list Finish)
  : FinishGuard * list Finish :=
  if g_armed g
  then (mkFinishGuard Usage_default None false, fs ++ [(g_usage g, g_finish_reason g, f)])
  else (g, fs).

(** One poll of the metered stream: the item it yields, or [None] at the end. *)
Definition poll (m : Meter) : option Item * Meter :=
  if negb (m_open m) then (None, m)
  else match m_stream m with
  | item :: rest =>
      let g := m_guard m in
      let g := match item with
        | Ok (EvUsageDelta latest) => mkFinishGuard latest (g_finish_reason g) (g_armed g)
        | _ => g
        end in
      let g := match item with
        | Ok (EvMessageEnd reason) => mkFinishGuard (g_usage g) (Some reason) (g_armed g)
        | _ => g
        end in
      let '(g, fs) := match item with
        | Err error => fire (UpstreamError (err_class error)) g (m_finishes m)
        | Ok (EvError _ class) => fire (UpstreamError class) g (m_finishes m)
        | _ => (g, m_finishes m)
        end in
      (Some item, mkMeter rest g true fs true)
  | [] =>
      let '(g, fs) := fire Clean (m_guard m) (m_finishes m) in
      (None, mkMeter [] g (m_first_fired m) fs false)
  end.

(** Dropping the metered stream drops the guard. *)
Definition drop_meter (m : Meter) : Meter :=
  if negb (m_open m) then m
  else let '(g, fs) := fire Aborted (m_guard m) (m_finishes m) in
       mkMeter (m_stream m) g (m_first_fired m) fs false.

(** The client polls [n] times. *)
Fixpoint polls (n : nat) (m : Meter) : list Item * Meter :=
  match n with
  | O => ([], m)
  | S n' =>
      let '(item, m) := poll m in
      let '(items, m) := polls n' m in
      (match item with Some i => i :: items | None => items end, m)
  end.
