(* ===== verification/StreamTheorems.v ===== *)
(** * Event streams: theorems

    A metered stream is transparent and finishes exactly once; collection
    assembles what the deltas carry, within the byte ceiling; a replayed response
    collects to itself. *)

From Stdlib Require Import ZArith Lia Sorted.
From stdpp Require Import base list strings gmap option.
From S2P Require Import Prelude Text BTree Float Ir Collect.

#[local] Open Scope Z_scope.

(** ** What a prefix of a stream says *)

Definition item_error (i : Item) : option ErrorClass :=
  match i with
  | Err e => Some (err_class e)
  | Ok (EvError _ class) => Some class
  | _ => None
  end.

(** The items before the first error, and its class. *)
Fixpoint first_error (l : list Item) : option (list Item * ErrorClass) :=
  match l with
  | [] => None
  | i :: l' =>
      match item_error i with
      | Some c => Some ([], c)
      | None => match first_error l' with Some (p, c) => Some (i :: p, c) | None => None end
      end
  end.

(** The last usage and the last finish reason reported. *)
Definition last_usage (l : list Item) : Usage :=
  fold_left (fun u i => match i with Ok (EvUsageDelta v) => v | _ => u end) l Usage_default.

Definition last_reason (l : list Item) : option FinishReason :=
  fold_left (fun u i => match i with Ok (EvMessageEnd r) => Some r | _ => u end) l None.

(** How a stream ends for a client that polls it [n] times and drops it. *)
Definition expected_finish (s : list Item) (n : nat) : Finish :=
  match first_error (take n s) with
  | Some (p, c) => (last_usage p, last_reason p, UpstreamError c)
  | None => (last_usage (take n s), last_reason (take n s),
             if (length s <? n)%nat then Clean else Aborted)
  end.

Lemma first_error_snoc l i :
  first_error (l ++ [i])
  = match first_error l with
    | Some r => Some r
    | None => match item_error i with Some c => Some (l, c) | None => None end
    end.
Proof.
  induction l as [|x l IH]; simpl.
  - by destruct (item_error i).
  - destruct (item_error x); [done|]. rewrite IH.
    destruct (first_error l) as [[? ?]|]; [done|]. by destruct (item_error i).
Qed.

(** ** Metering *)

(** The meter has yielded [pre] and has [rest] to go. *)
Definition meter_inv (pre rest : list Item) (m : Meter) : Prop :=
  m_stream m = rest /\ m_open m = true /\ m_first_fired m = negb (bool_decide (pre = []))
  /\ match first_error pre with
     | Some (p, c) => g_armed (m_guard m) = false
         /\ m_finishes m = [(last_usage p, last_reason p, UpstreamError c)]
     | None => m_guard m = mkFinishGuard (last_usage pre) (last_reason pre) true
         /\ m_finishes m = []
     end.

Lemma poll_inv pre i rest m :
  meter_inv pre (i :: rest) m ->
  (poll m).1 = Some i /\ meter_inv (pre ++ [i]) rest (poll m).2.
Proof.
  intros (Hs & Ho & _ & Hg). unfold poll. rewrite Ho, Hs. simpl.
  unfold meter_inv. rewrite first_error_snoc. unfold last_usage, last_reason in *.
  destruct (first_error pre) as [[p c]|]; destruct Hg as [Hg Hf]; rewrite ?Hg, ?Hf.
  - destruct i as [[]|]; simpl; unfold fire; simpl; rewrite ?Hg, ?Hf; simpl; rewrite ?Hg;
      split_and!; try done; by destruct pre.
  - destruct i as [[]|]; simpl; unfold fire; simpl; rewrite ?fold_left_app;
      split_and!; try done; by destruct pre.
Qed.

Lemma polls_inv n pre rest m :
  meter_inv pre rest m -> (n <= length rest)%nat ->
  (polls n m).1 = take n rest
  /\ meter_inv (pre ++ take n rest) (drop n rest) (polls n m).2.
Proof.
  revert pre rest m. induction n as [|n IH]; intros pre rest m H Hn.
  - simpl. by rewrite app_nil_r.
  - destruct rest as [|i rest]; [simpl in Hn; lia|].
    destruct (poll_inv pre i rest m H) as [Hp Hinv]. simpl.
    destruct (poll m) as [o m1]. simpl in *. subst o.
    destruct (IH (pre ++ [i]) rest m1 Hinv) as [Hl Hi]; [lia|].
    destruct (polls n m1) as [items m2]. simpl in *. subst items.
    split; [done|]. by rewrite <- app_assoc in Hi.
Qed.

Lemma polls_closed n m : m_open m = false -> polls n m = ([], m).
Proof.
  intros H. induction n as [|n IH]; [done|]. simpl. unfold poll. rewrite H. simpl.
  by rewrite IH.
Qed.

Lemma polls_add a b m :
  polls (a + b) m = ((polls a m).1 ++ (polls b (polls a m).2).1, (polls b (polls a m).2).2).
Proof.
  revert m. induction a as [|a IH]; intros m; simpl; [by destruct (polls b m)|].
  destruct (poll m) as [o m1]. rewrite IH. destruct (polls a m1) as [l1 m2]. simpl.
  by destruct o, (polls b m2).
Qed.

(** A metered stream is transparent and is accounted for exactly
    once: however often the client polls and wherever it stops, it sees the
    upstream's items unchanged, the finalizer fires once, with the last usage and
    finish reason before that point, and says whether the stream ended, failed
    (in band or not) or was abandoned. *)
Theorem meter_exactly_once s n :
  let '(items, m) := polls n (meter_stream s) in
  items = take n s
  /\ m_finishes (drop_meter m) = [expected_finish s n]
  /\ m_first_fired (drop_meter m) = negb (bool_decide (take n s = [])).
Proof.
  destruct (decide (n <= length s)%nat) as [Hn|Hn].
  - destruct (polls_inv n [] s (meter_stream s)) as [Hl Hi]; [done|done|].
    destruct (polls n (meter_stream s)) as [items m]. simpl in *. subst items.
    split; [done|]. destruct Hi as (_ & Ho & Hf & Hg). unfold drop_meter, expected_finish.
    rewrite Ho. simpl. rewrite (proj2 (Nat.ltb_ge _ _)) by done.
    destruct (first_error (take n s)) as [[p c]|]; destruct Hg as [Hg Hfs]; unfold fire;
      rewrite Hg; simpl; rewrite ?Hfs; done.
  - assert (Hlen : exists b, n = (length s + S b)%nat) by (exists (n - length s - 1)%nat; lia).
    destruct Hlen as [b ->]. rewrite polls_add.
    destruct (polls_inv (length s) [] s (meter_stream s)) as [Hl Hi]; [done|done|].
    destruct (polls (length s) (meter_stream s)) as [items m]. simpl in Hl, Hi |- *. subst items.
    rewrite firstn_all, drop_all in Hi. destruct Hi as (Hs & Ho & Hf & Hg).
    unfold poll. rewrite Ho, Hs. simpl. unfold expected_finish.
    rewrite !(take_ge s) by lia. rewrite (proj2 (Nat.ltb_lt _ _)) by lia.
    destruct (first_error s) as [[p c]|]; destruct Hg as [Hg Hfs]; unfold fire;
      rewrite Hg; simpl; rewrite polls_closed by done; simpl;
      rewrite ?app_nil_r, ?Hfs; split_and!; done.
Qed.

(** ** Collection *)

Definition item_bytes (i : Item) : Z :=
  match i with
  | Ok (EvTextDelta s) | Ok (EvReasoningDelta s) | Ok (EvToolCallArgsDelta _ s)
  | Ok (EvOutputImage _ s) => Z.of_nat (String.length s)
  | _ => 0
  end.

Definition total_bytes (l : list Item) : Z := fold_right (fun i n => item_bytes i + n) 0 l.

(** The text of the text deltas. *)
Definition text_of (l : list Item) : string :=
  fold_right (fun i s => match i with Ok (EvTextDelta t) => t ^^ s | _ => s end) EmptyString l.

Definition fits (max : option Z) (n : Z) : bool :=
  match max with Some m => n <=? m | None => true end.

(** A step without a ceiling, on an item that is not an error. *)
Definition absorb (c : Collector) (i : Item) : Collector :=
  match collect_step None c i with Ok c' => c' | Err _ => c end.

Lemma item_bytes_nonneg i : 0 <= item_bytes i.
Proof. destruct i as [[]|]; simpl; lia. Qed.

Lemma total_bytes_nonneg l : 0 <= total_bytes l.
Proof. induction l as [|i l IH]; simpl; [lia|]. pose proof (item_bytes_nonneg i). lia. Qed.

Lemma absorb_assembled c i :
  item_error i = None -> c_assembled (absorb c i) = c_assembled c + item_bytes i.
Proof.
  destruct i as [[]|]; intros H; simplify_eq/=; unfold absorb; simpl; try lia;
    unfold take_bytes; simpl; repeat case_match; simplify_eq/=; lia.
Qed.

Definition cap_error (e : AdapterError) : Prop := err_class e = ServerError.

Lemma collect_step_spec max c i :
  item_error i = None -> fits max (c_assembled c) = true ->
  if fits max (c_assembled c + item_bytes i)
  then collect_step max c i = Ok (absorb c i)
  else exists e, collect_step max c i = Err e /\ cap_error e.
Proof.
  intros Hi Hf.
  assert (Ht : forall s keep, item_bytes i = Z.of_nat (String.length s) ->
    collect_step None c i = take_bytes None s keep c ->
    collect_step max c i = take_bytes max s keep c ->
    if fits max (c_assembled c + item_bytes i) then collect_step max c i = Ok (absorb c i)
    else exists e, collect_step max c i = Err e /\ cap_error e).
  { intros s keep Hb Hn Hm. unfold absorb. rewrite Hn, Hm, Hb. unfold take_bytes, over_cap, fits.
    destruct max as [m|]; [|done]. rewrite Z.leb_antisym.
    destruct (m <? _); simpl; [|done]. eexists. split; [done|done]. }
  destruct i as [[]|]; simplify_eq/=;
    try (eapply Ht; [reflexivity|reflexivity|reflexivity]);
    rewrite Z.add_0_r, Hf; unfold absorb; simpl; try done.
  by destruct (str_eqb _ _).
Qed.

Lemma collect_loop_spec max s c :
  Forall (fun i => item_error i = None) s -> fits max (c_assembled c) = true ->
  if fits max (c_assembled c + total_bytes s)
  then collect_loop max c s = Ok (fold_left absorb s c)
  else exists e, collect_loop max c s = Err e /\ cap_error e.
Proof.
  revert c. induction s as [|i s IH]; intros c Hs Hf; simpl.
  { by rewrite Z.add_0_r, Hf. }
  apply Forall_cons_1 in Hs as [Hi Hs]. pose proof (collect_step_spec max c i Hi Hf) as Hstep.
  pose proof (total_bytes_nonneg s). pose proof (item_bytes_nonneg i).
  destruct (fits max (c_assembled c + item_bytes i)) eqn:E.
  - rewrite Hstep. simpl. rewrite Z.add_assoc, <- (absorb_assembled c i) by done.
    apply IH; [done|]. by rewrite absorb_assembled.
  - assert (fits max (c_assembled c + (item_bytes i + total_bytes s)) = false) as ->.
    { unfold fits in *. destruct max as [m|]; [|done]. apply Z.leb_gt in E. apply Z.leb_gt. lia. }
    destruct Hstep as (e & -> & He). simpl. eauto.
Qed.

(** The loop up to and including the first error. *)
Lemma collect_loop_error max s c p cl :
  first_error s = Some (p, cl) -> fits max (c_assembled c) = true ->
  exists e, collect_loop max c s = Err e
    /\ if fits max (c_assembled c + total_bytes p) then err_class e = cl else cap_error e.
Proof.
  revert c p. induction s as [|i s IH]; intros c p H Hf; [done|]. simpl in *.
  destruct (item_error i) as [c'|] eqn:Ei.
  - injection H as <- <-. simpl. rewrite Z.add_0_r, Hf.
    destruct i as [[]|e]; simplify_eq/=; eexists; split; done.
  - destruct (first_error s) as [[q c']|]; [|done]. injection H as <- <-.
    pose proof (collect_step_spec max c i Ei Hf) as Hstep. simpl.
    pose proof (total_bytes_nonneg q). pose proof (item_bytes_nonneg i).
    destruct (fits max (c_assembled c + item_bytes i)) eqn:E.
    + rewrite Hstep. simpl. destruct (IH (absorb c i) q) as (e & He & Hc); [done| |].
      { by rewrite absorb_assembled. }
      exists e. split; [done|]. by rewrite absorb_assembled, <- Z.add_assoc in Hc.
    + destruct Hstep as (e & -> & He). exists e. split; [done|].
      assert (fits max (c_assembled c + (item_bytes i + total_bytes q)) = false) as ->; [|done].
      unfold fits in *. destruct max as [m|]; [|done]. apply Z.leb_gt in E. apply Z.leb_gt. lia.
Qed.

Lemma absorb_fields c i :
  item_error i = None ->
  c_content (absorb c i) = c_content c ^^ match i with Ok (EvTextDelta t) => t | _ => EmptyString end
  /\ c_usage (absorb c i) = match i with Ok (EvUsageDelta u) => u | _ => c_usage c end
  /\ c_finish_reason (absorb c i)
     = match i with Ok (EvMessageEnd r) => Some r | _ => c_finish_reason c end.
Proof.
  destruct i as [[]|]; intros H; simplify_eq/=; unfold absorb; simpl; rewrite ?append_nil_r;
    try done; repeat case_match; simplify_eq/=; rewrite ?append_nil_r; done.
Qed.

Lemma absorb_all_fields s c :
  Forall (fun i => item_error i = None) s ->
  c_content (fold_left absorb s c) = c_content c ^^ text_of s
  /\ c_usage (fold_left absorb s c)
     = fold_left (fun u i => match i with Ok (EvUsageDelta v) => v | _ => u end) s (c_usage c)
  /\ c_finish_reason (fold_left absorb s c)
     = fold_left (fun u i => match i with Ok (EvMessageEnd r) => Some r | _ => u end) s
         (c_finish_reason c).
Proof.
  revert c. induction s as [|i s IH]; intros c Hs; simpl; [by rewrite append_nil_r|].
  apply Forall_cons_1 in Hs as [Hi Hs]. destruct (IH (absorb c i) Hs) as (H1 & H2 & H3).
  destruct (absorb_fields c i Hi) as (A1 & A2 & A3). rewrite H1, H2, H3, A1, A2, A3.
  split_and!; destruct i as [[]|]; rewrite ?append_nil_r, ?append_assoc; done.
Qed.

(** Images, citations and tools carry no text. *)
Definition textless (p : ContentPart) : Prop := match p with Text _ => False | _ => True end.

Lemma textless_filter l :
  Forall textless l -> omap (fun p => match p with Text t => Some t | _ => None end) l = [].
Proof. induction 1 as [|p l Hp Hl IH]; [done|]. by destruct p. Qed.

Lemma absorb_textless c i :
  Forall textless (c_images c ++ c_citations c ++ c_server_tools c) ->
  Forall textless (c_images (absorb c i) ++ c_citations (absorb c i) ++ c_server_tools (absorb c i)).
Proof.
  rewrite !Forall_app. intros (? & ? & ?).
  destruct i as [[]|]; unfold absorb; simpl; rewrite ?Forall_app; try done;
    repeat case_match; simplify_eq/=; rewrite ?Forall_app; split_and!; try done;
    by constructor.
Qed.

Lemma collector_text parse c :
  Forall textless (c_images c ++ c_citations c ++ c_server_tools c) ->
  message_text (mkMessage RoleAssistant (collector_parts parse c) None) = c_content c.
Proof.
  intros H. unfold message_text, collector_parts. simpl. rewrite !omap_app.
  assert (Ht : Forall textless (tool_use_part parse <$> (c_tool_uses c).*2)).
  { apply List.Forall_forall. intros p (t & -> & _)%list_elem_of_In%list_elem_of_fmap.
    by destruct t as [[? ?] ?]. }
  rewrite !Forall_app in H. destruct H as (H1 & H2 & H3).
  rewrite (textless_filter (c_images c)), (textless_filter (c_citations c)),
    (textless_filter (c_server_tools c)), (textless_filter _ Ht) by done.
  destruct (is_empty (c_reasoning c)), (c_content c); done.
Qed.

Lemma absorb_all_textless s c :
  Forall textless (c_images c ++ c_citations c ++ c_server_tools c) ->
  Forall textless (c_images (fold_left absorb s c) ++ c_citations (fold_left absorb s c)
                   ++ c_server_tools (fold_left absorb s c)).
Proof.
  revert c. induction s as [|i s IH]; intros c H; [done|]. simpl. by apply IH, absorb_textless.
Qed.

Lemma first_error_none s :
  first_error s = None -> Forall (fun i => item_error i = None) s.
Proof.
  induction s as [|i s IH]; intros H; [constructor|]. simpl in H.
  destruct (item_error i) eqn:E; [done|]. destruct (first_error s) as [[? ?]|]; [done|].
  constructor; auto.
Qed.

(** Collecting a stream gives a response or one error, and the
    reason is the right one: within the byte ceiling the first error of the
    stream, in band or not, is the result; a stream without errors gives the
    concatenated text, the last usage and the last finish reason; and whatever
    goes over the ceiling before that is refused as a server error. *)
Theorem collect_outcome parse s request_id model max :
  fits max 0 = true ->
  let out := collect_response parse s request_id model max in
  match first_error s with
  | Some (p, c) =>
      exists e, out = Err e
        /\ err_class e = if fits max (total_bytes p) then c else ServerError
  | None =>
      if fits max (total_bytes s)
      then exists resp, out = Ok resp
        /\ message_text (resp_message resp) = text_of s
        /\ resp_usage resp = last_usage s
        /\ resp_finish_reason resp = default Stop (last_reason s)
      else exists e, out = Err e /\ err_class e = ServerError
  end.
Proof.
  intros Hmax. cbv zeta. unfold collect_response.
  destruct (first_error s) as [[p c]|] eqn:E.
  - destruct (collect_loop_error max s Collector_new p c E Hmax) as (e & -> & He).
    change (c_assembled Collector_new) with 0 in He. rewrite Z.add_0_l in He. exists e. split; [done|]. unfold cap_error in He.
    by destruct (fits max (total_bytes p)).
  - apply first_error_none in E.
    pose proof (collect_loop_spec max s Collector_new E Hmax) as H.
    change (c_assembled Collector_new) with 0 in H. rewrite Z.add_0_l in H.
    destruct (fits max (total_bytes s)).
    + rewrite H. eexists. split; [done|]. simpl.
      destruct (absorb_all_fields s Collector_new E) as (H1 & H2 & H3). rewrite H2, H3.
      split_and!; [|done|done]. rewrite collector_text; [by rewrite H1|].
      apply absorb_all_textless. constructor.
    + destruct H as (e & -> & He). simpl. eauto.
Qed.

(** ** Replay *)

Definition is_tool_use (p : ContentPart) : bool :=
  match p with ToolUse _ _ _ => true | _ => false end.

Lemma bt_insert_last {V} (m : BTreeMap Z V) k v v' :
  Forall (fun kv => kv.1 < k) m ->
  bt_insert k v m = m ++ [(k, v)] /\ bt_get k (m ++ [(k, v)]) = Some v
  /\ bt_insert k v' (m ++ [(k, v)]) = m ++ [(k, v')].
Proof.
  induction 1 as [|[j w] m Hj Hm IH]; simpl in *.
  - unfold key_cmp, index_ord. by rewrite Z.compare_refl.
  - unfold key_cmp, index_ord in *. rewrite (proj2 (Z.compare_gt_iff k j)) by lia.
    destruct IH as (-> & -> & ->). done.
Qed.

Section Replay.
Context (parse_json : string -> option Json) (print_json : Json -> string).

Definition tool_entries (i : Z) (parts : list ContentPart)
  : list (Z * (string * string * string)) :=
  imap (fun j t => (i + Z.of_nat j, t))
    (omap (fun p => match p with ToolUse id name args => Some (id, name, print_json args)
                    | _ => None end) parts).

Lemma tool_entries_cons i id name args parts :
  tool_entries i (ToolUse id name args :: parts)
  = (i, (id, name, print_json args)) :: tool_entries (i + 1) parts.
Proof.
  unfold tool_entries. simpl. rewrite Z.add_0_r. f_equal. apply imap_ext.
  intros j t _. simpl. f_equal. lia.
Qed.

(** The entries of printable tool calls become the tool calls again. *)
Lemma tool_entries_parts i parts :
  (forall id name args, ToolUse id name args ∈ parts ->
     parse_json (print_json args) = Some args) ->
  tool_use_part parse_json <$> (tool_entries i parts).*2 = List.filter is_tool_use parts.
Proof.
  revert i. induction parts as [|p parts IH]; intros i Hp; [done|].
  assert (IH' : forall i, tool_use_part parse_json <$> (tool_entries i parts).*2
    = List.filter is_tool_use parts).
  { intros j. apply IH. intros id name args Hin. apply (Hp id name). by right. }
  destruct p; try apply IH'. rewrite tool_entries_cons. simpl. rewrite IH'.
  by rewrite (Hp id name args) by (by left).
Qed.

(** Replaying tool calls appends them to the ones already there. *)
Lemma collect_tool_events parts i c rest :
  Forall (fun kv => kv.1 < i) (c_tool_uses c) ->
  exists n, collect_loop None c ((Ok <$> tool_events print_json i parts) ++ rest)
  = collect_loop None (set_assembled n (set_tool_uses (c_tool_uses c ++ tool_entries i parts) c))
      rest.
Proof.
  revert i c. induction parts as [|p parts IH]; intros i c Hc.
  { exists (c_assembled c). simpl. unfold tool_entries. simpl. rewrite app_nil_r. by destruct c. }
  destruct p; try (apply IH; done).
  rewrite tool_entries_cons. simpl. unfold take_bytes, over_cap. simpl.
  destruct (bt_insert_last (c_tool_uses c) i (id, name, EmptyString)
    (id, name, print_json args) Hc) as (-> & Hg & Hi). rewrite Hg. simpl.
  change (EmptyString ^^ print_json args) with (print_json args). rewrite Hi.
  match goal with |- context [collect_loop None ?c' (_ ++ rest)] =>
    destruct (IH (i + 1) c') as (n & Hn) end.
  - simpl. rewrite Forall_app. split; [|by repeat constructor; simpl; lia].
    eapply List.Forall_impl; [|exact Hc]. simpl. intros; lia.
  - exists n. etransitivity; [exact Hn|]. simpl. by rewrite <- app_assoc.
Qed.

(** A whole response replayed as events and collected again is the
    response as the gateway sees it: its text in one part, its tool calls in
    order with their arguments, its usage and its finish reason, under the
    request's own identifier and model; given that printed tool arguments parse
    back. *)
Theorem replay_collects resp request_id model :
  (forall id name args, ToolUse id name args ∈ msg_content (resp_message resp) ->
     parse_json (print_json args) = Some args) ->
  collect_response parse_json (Ok <$> response_to_events print_json resp) request_id model None
  = let text := message_text (resp_message resp) in
    Ok (mkAiResponse request_id model
          (mkMessage RoleAssistant
             ((if is_empty text then [] else [Text text])
              ++ List.filter is_tool_use (msg_content (resp_message resp))) None)
          (resp_finish_reason resp) (resp_usage resp)).
Proof.
  intros Hp. unfold collect_response, response_to_events. cbv zeta.
  set (text := message_text (resp_message resp)). rewrite !fmap_app. simpl.
  assert (Htools : forall c rest, c_tool_uses c = [] ->
    exists n, collect_loop None c
      ((Ok <$> tool_events print_json 0 (msg_content (resp_message resp))) ++ rest)
    = collect_loop None (set_assembled n (set_tool_uses
        (tool_entries 0 (msg_content (resp_message resp))) c)) rest).
  { intros c rest Hc. destruct (collect_tool_events (msg_content (resp_message resp)) 0 c rest)
      as (n & Hn); [by rewrite Hc|]. exists n. by rewrite Hn, Hc. }
  assert (Hparts : tool_use_part parse_json
      <$> (tool_entries 0 (msg_content (resp_message resp))).*2
    = List.filter is_tool_use (msg_content (resp_message resp))).
  { by apply tool_entries_parts. }
  destruct (is_empty text) eqn:Et; simpl; unfold take_bytes; simpl;
    edestruct Htools as (n & ->); try done; simpl; unfold collector_parts; simpl;
    rewrite ?Hparts; change (EmptyString ^^ text) with text; by rewrite ?Et.
Qed.

End Replay.

(** ** Samples *)

Module StreamSamples.

Definition parse (s : string) : option Json := if str_eqb s "null" then Some JNull else None.
Definition print (j : Json) : string := match j with JNull => "null" | _ => "?" end.

Definition resp : AiResponse :=
  mkAiResponse "up" "gpt" (mkMessage RoleAssistant
    [Text "he"; ToolUse "t1" "look" JNull; Text "llo"] None) ToolCalls
    (mkUsage 3 5 0 0 None).

Lemma replay_collects_witness :
  collect_response parse (Ok <$> response_to_events print resp) "req" "auto" None
  = Ok (mkAiResponse "req" "auto" (mkMessage RoleAssistant
      [Text "hello"; ToolUse "t1" "look" JNull] None) ToolCalls (mkUsage 3 5 0 0 None)).
Proof.
  rewrite (replay_collects parse print resp "req" "auto").
  - reflexivity.
  - intros id name args H.
    repeat (apply elem_of_cons in H as [H|H]; [simplify_eq; reflexivity|]).
    exact (False_ind _ (not_elem_of_nil _ H)).
Defined.

Definition broken : list Item :=
  [Ok (EvTextDelta "hello"); Ok (EvError "overloaded" ProviderOverloaded);
   Ok (EvTextDelta "never read")].

Lemma collect_outcome_witness :
  exists e, collect_response parse broken "req" "auto" (Some 5) = Err e
    /\ err_class e = ProviderOverloaded.
Proof. exact (collect_outcome parse broken "req" "auto" (Some 5) eq_refl). Defined.

End StreamSamples.

Lemma bt_insert_above {V} (m : BTreeMap Z V) k v :
  Forall (fun kv => kv.1 < k) m -> bt_insert k v m = m ++ [(k, v)].
Proof. intros H. apply (bt_insert_last m k v v H). Qed.

Lemma bt_get_last {V} (m : BTreeMap Z V) k v :
  Forall (fun kv => kv.1 < k) m -> bt_get k (m ++ [(k, v)]) = Some v.
Proof. intros H. apply (bt_insert_last m k v v H). Qed.

Lemma bt_update_last {V} (m : BTreeMap Z V) k v v' :
  Forall (fun kv => kv.1 < k) m -> bt_insert k v (m ++ [(k, v')]) = m ++ [(k, v)].
Proof. intros H. apply (bt_insert_last m k v' v H). Qed.

(** What is assembled without a ceiling. *)
Definition collected (parse : string -> option Json) (request_id model : string) (c : Collector) : AiResponse :=
  mkAiResponse request_id model (mkMessage RoleAssistant (collector_parts parse c) None)
    (default Stop (c_finish_reason c)) (c_usage c).

Lemma collect_no_errors parse s request_id model :
  Forall (fun i => item_error i = None) s ->
  collect_response parse s request_id model None = Ok (collected parse request_id model (fold_left absorb s Collector_new)).
Proof. intros H. unfold collect_response. by rewrite (collect_loop_spec None s Collector_new H eq_refl). Qed.

Lemma collect_response_spec parse s request_id model resp :
  collect_response parse s request_id model None = Ok resp ->
  Forall (fun i => item_error i = None) s
  /\ resp = collected parse request_id model (fold_left absorb s Collector_new).
Proof.
  intros H. assert (Forall (fun i => item_error i = None) s) as Hs.
  { apply first_error_none. unfold collect_response in H. destruct (first_error s) as [[p cl]|] eqn:E; [|done].
    by destruct (collect_loop_error None s Collector_new _ _ E eq_refl) as (e & He & _); rewrite He in H. }
  split; [done|]. rewrite collect_no_errors in H by done. congruence.
Qed.
