(* ===== verification/Profiles.v ===== *)
(** * From a request to a plan

    [crates/sb-runtime/src/profiles.rs] and [helpers.rs]: the configuration a
    request is resolved against, client profiles, tenants and their allow-lists,
    candidate resolution and the policy handed to the router. The adapter registry
    ([crates/sb-adapters/src/registry.rs]) is seen through the operations the
    runtime calls. *)

From Stdlib Require Import ZArith Lia.
From stdpp Require Import base list strings gmap option.
From S2P Require Import Prelude Text BTree Float Time Ir Config Target Routing Router.
From S2P Require Import Breaker Availability ScorecardEntry Scorecard Resolver.

#[local] Open Scope Z_scope.

(** ** Configuration *)

Record TenantConfig := mkTenantConfig {
  tn_id : string;
  tn_allowed_routes : list string;
  tn_allowed_providers : list string;
  tn_allowed_accounts : list string;
  tn_budget_usd : option f64;
  tn_max_concurrency : option Z
}.

Inductive ClientProfileKind := ClientCodex | ClientClaudeCode.

Definition client_protocol (k : ClientProfileKind) : string :=
  match k with
  | ClientCodex => "openai_responses"
  | ClientClaudeCode => "anthropic_messages"
  end.

Inductive ClientProfileMode := SwitchbackIngress | NativeRelay | Tap | ScoutApi.

Definition client_mode_as_str (m : ClientProfileMode) : string :=
  match m with
  | SwitchbackIngress => "switchback_ingress"
  | NativeRelay => "native_relay"
  | Tap => "tap"
  | ScoutApi => "scout_api"
  end.

Record ClientProfileConfig := mkClientProfileConfig {
  cp_id : string;
  cp_kind : ClientProfileKind;
  cp_enabled : bool;
  cp_mode : ClientProfileMode;
  cp_models : list string;
  cp_accounts : list string;
  cp_description : option string
}.

Record RouteConfig := mkRouteConfig {
  rt_name : string;
  rt_match_model : option string;
  rt_require : RouteRequire;
  rt_targets : list string
}.

Inductive ComboStrategy := ComboFallback | ComboRoundRobin.

Definition combo_as_str (s : ComboStrategy) : string :=
  match s with ComboFallback => "fallback" | ComboRoundRobin => "round_robin" end.

Record ComboConfig := mkComboConfig {
  combo_strategy : ComboStrategy;
  combo_require : RouteRequire;
  combo_models : list string
}.

Record RetryConfig := mkRetryConfig {
  retry_max_retries : Z;
  retry_base_delay_ms : Z;
  retry_max_delay_ms : Z
}.

Record HedgeConfig := mkHedgeConfig {
  hedge_cfg_enabled : bool;
  hedge_delay_ms : Z;
  hedge_max_parallel : Z
}.

Record BudgetConfig := mkBudgetConfig {
  budget_max : option f64;
  per_provider_usd : BTreeMap string f64
}.

(** The server settings the runtime reads. *)
Record ServerConfig := mkServerConfig {
  sv_max_response_bytes : option Z;
  sv_strict_schema_downlevel : bool;
  sv_compress_tool_results : bool;
  sv_default_provider : option string;
  sv_default_egress : option string;
  sv_cost_aware : bool;
  sv_latency_aware : bool;
  sv_cost_max_per_mtok : option f64;
  sv_cost_allow_free : bool;
  sv_cost_allow_promo : bool;
  sv_cost_allow_aggregator : bool;
  sv_cost_unknown : UnknownCostPolicy;
  sv_context_unknown : UnknownContextPolicy;
  sv_vision_degrade : bool;
  sv_retry : RetryConfig;
  sv_hedge : HedgeConfig;
  sv_budget : BudgetConfig;
  sv_scorecard : ScorecardConfig;
  sv_quality_eval : QualityEvalConfig
}.

(** The outbound path of a provider and of its accounts. *)
Record ProviderEgress := mkProviderEgress {
  pe_id : string;
  pe_egress : option string;
  pe_accounts : list (string * option string)
}.

Record EngineConfig := mkEngineConfig {
  cf_server : ServerConfig;
  cf_providers : list ProviderEgress;
  cf_combos : BTreeMap string ComboConfig;
  cf_routes : list RouteConfig;
  cf_tenants : list TenantConfig;
  cf_client_profiles : list ClientProfileConfig
}.

Definition tenant (cfg : EngineConfig) (id : string) : option TenantConfig :=
  List.find (fun t => str_eqb (tn_id t) id) (cf_tenants cfg).

Definition exact_route_for (cfg : EngineConfig) (model : string) : option RouteConfig :=
  List.find (fun r => bool_decide (rt_match_model r = Some model)) (cf_routes cfg).

Definition wildcard_route (cfg : EngineConfig) : option RouteConfig :=
  List.find (fun r => bool_decide (rt_match_model r = Some "*")) (cf_routes cfg).

Definition combo_for (cfg : EngineConfig) (model : string) : option ComboConfig :=
  bt_get model (cf_combos cfg).

(** [Runtime], the live knobs. *)
Record Runtime := mkRuntime {
  rtm_cost_aware : bool;
  rtm_latency_aware : bool;
  rtm_hedge_enabled : bool;
  rtm_retry_max : Z;
  rtm_budget_max_usd : option f64
}.

Definition Runtime_from_config (cfg : EngineConfig) : Runtime :=
  let s := cf_server cfg in
  mkRuntime (sv_cost_aware s) (sv_latency_aware s) (hedge_cfg_enabled (sv_hedge s))
    (retry_max_retries (sv_retry s)) (budget_max (sv_budget s)).

(** The operations of the adapter registry the runtime uses. *)
Record Registry := mkRegistry {
  reg_has_adapter : string -> bool;
  reg_target_for : string -> option ExecutionTarget;
  reg_target_for_provider_model : string -> string -> option ExecutionTarget;
  reg_cost_micros : string -> string -> Usage -> Z;
  reg_cache_savings_micros : string -> string -> Usage -> Z;
  reg_effective_egress : option string -> string
}.

(** [Snapshot]: what a request pins for its lifetime. The resolver's own state is
    shared between requests and lives in the world. *)
Record Snapshot := mkSnapshot {
  sn_revision : Z;
  sn_config : EngineConfig;
  sn_registry : Registry;
  sn_runtime : Runtime
}.

(** ** Errors *)

Record ExecError := mkExecError {
  xe_status : Z;
  xe_error_type : string;
  xe_message : string;
  xe_summary : option string;
  xe_retry_after : option Duration
}.

Definition ExecError_new (status : Z) (error_type message : string) (summary : option string)
  : ExecError := mkExecError status error_type message summary None.

Definition with_retry_after (e : ExecError) (d : Duration) : ExecError :=
  mkExecError (xe_status e) (xe_error_type e) (xe_message e) (xe_summary e) (Some d).

(** ** Helpers *)

Definition resolve_egress (cfg : EngineConfig) (provider_id account_id : string)
  : option string :=
  match List.find (fun p => str_eqb (pe_id p) provider_id) (cf_providers cfg) with
  | Some provider =>
      match List.find (fun a => str_eqb a.1 account_id) (pe_accounts provider) with
      | Some (_, Some egress) => Some egress
      | _ => match pe_egress provider with
             | Some egress => Some egress
             | None => sv_default_egress (cf_server cfg)
             end
      end
  | None => sv_default_egress (cf_server cfg)
  end.

Definition retryable (class : ErrorClass) : bool :=
  match class with Timeout | Network | ServerError => true | _ => false end.

(** [2u64.saturating_pow(attempt.saturating_sub(1))], scaled and capped. *)
Definition retry_backoff (retry : RetryConfig) (attempt : Z) : Duration :=
  let factor := Z.min (2 ^ sat_sub attempt 1) u64_max in
  from_millis (Z.min (sat_mul u64_max (retry_base_delay_ms retry) factor)
                 (retry_max_delay_ms retry)).

Definition session_keys : list string :=
  ["session_id"; "switchback_session_id"; "codex_session_id"].

Fixpoint first_some {A B} (f : A -> option B) (l : list A) : option B :=
  match l with
  | [] => None
  | x :: l' => match f x with Some y => Some y | None => first_some f l' end
  end.

(** The value of a key in an object. *)
Definition json_field (key : string) (fields : list (string * Json)) : option Json :=
  snd <$> List.find (fun kv => str_eqb kv.1 key) fields.

Definition session_affinity_key (req : AiRequest) : option string :=
  match first_some (fun key =>
          match bt_get key (req_metadata req) with
          | Some v => if is_empty v then None else Some v
          | None => None
          end) session_keys with
  | Some v => Some v
  | None =>
      match bt_get "metadata" (req_passthrough req) with
      | Some (JObject fields) =>
          first_some (fun key =>
            match json_field key fields with
            | Some (JString v) => if is_empty v then None else Some v
            | _ => None
            end) session_keys
      | _ => None
      end
  end.

Definition high_lossiness_schema_warning (warnings : list string) : option string :=
  first_some (fun warning =>
    match (match strip_prefix "schema_downlevel:" warning with
           | Some rest => Some rest
           | None => snd <$> split_once ": schema_downlevel:" warning
           end) with
    | Some payload => if starts_with "high:" payload then Some warning else None
    | None => None
    end) warnings.

(** [provider_id == provider] of the references [provider/account], as a set. *)
Definition accounts_for_provider_refs (refs : list string) (provider_id : string)
  : gset string :=
  list_to_set (omap (fun account_ref =>
    match split_once "/" account_ref with
    | Some (provider, account) => if str_eqb provider provider_id then Some account else None
    | None => None
    end) refs).

Definition tenant_allowed_accounts (t : TenantConfig) (provider_id : string) : gset string :=
  accounts_for_provider_refs (tn_allowed_accounts t) provider_id.

Definition profile_accounts_for_provider (p : ClientProfileConfig) (provider_id : string)
  : gset string := accounts_for_provider_refs (cp_accounts p) provider_id.

Definition client_profile_allowed_accounts (profile : option ClientProfileConfig)
    (provider_id : string) : option (gset string) :=
  match profile with
  | Some p => if list_empty (cp_accounts p) then None
              else Some (profile_accounts_for_provider p provider_id)
  | None => None
  end.

Definition combine_allowed_accounts (l r : option (gset string)) : option (gset string) :=
  match l, r with
  | None, None => None
  | Some a, None | None, Some a => Some a
  | Some a, Some b => Some (a ∩ b)
  end.

(** [tenant.filter(|t| !t.allowed_accounts.is_empty()).map(..)] of the loop. *)
Definition request_allowed_accounts (cfg : EngineConfig) (req : AiRequest)
    (profile : option ClientProfileConfig) (provider_id : string) : option (gset string) :=
  let by_tenant :=
    match req_tenant req with
    | Some id =>
        match tenant cfg id with
        | Some t => if list_empty (tn_allowed_accounts t) then None
                    else Some (tenant_allowed_accounts t provider_id)
        | None => None
        end
    | None => None
    end in
  combine_allowed_accounts by_tenant (client_profile_allowed_accounts profile provider_id).

(** ** Client profiles *)

Definition infer_client_profile_for_model (cfg : EngineConfig) (req : AiRequest)
  : result (option ClientProfileConfig) ExecError :=
  let matches := List.filter (fun p => existsb (fun m => str_eqb m (req_model req)) (cp_models p))
                   (cf_client_profiles cfg) in
  match matches with
  | _ :: _ :: _ =>
      Err (ExecError_new 409 "ambiguous_client_profile"
             ("model `" ^^ req_model req ^^ "` matches multiple client profiles: "
              ^^ join ", " (cp_id <$> matches)) None)
  | _ => Ok (head matches)
  end.

Definition with_metadata (m : BTreeMap string string) (r : AiRequest) : AiRequest :=
  mkAiRequest (req_id r) (req_model r) (req_system r) (req_messages r) (req_tools r)
    (req_server_tools r) (req_response_format r) (req_stream r) (req_max_output_tokens r)
    (req_temperature r) (req_priority r) (req_privacy_class r) m (req_tenant r)
    (req_project r) (req_passthrough r) (req_protocol_passthrough r)
    (req_system_cache_hint r) (req_tools_cache_hint r).

(** The checks on the profile that applies. *)
Definition check_client_profile (profile : ClientProfileConfig) (req : AiRequest)
  : result unit ExecError :=
  if negb (cp_enabled profile) then
    Err (ExecError_new 403 "client_profile_disabled"
           ("client profile `" ^^ cp_id profile ^^ "` is disabled") None)
  else
    let expected := client_protocol (cp_kind profile) in
    let? _ := match bt_get "client_protocol" (req_metadata req) with
      | Some protocol =>
          if str_eqb protocol expected then Ok tt
          else Err (ExecError_new 422 "invalid_request_error"
                 ("client profile `" ^^ cp_id profile ^^ "` expects protocol `" ^^ expected
                  ^^ "` but request used `" ^^ protocol ^^ "`") None)
      | None => Ok tt
      end in
    if negb (list_empty (cp_models profile))
       && negb (existsb (fun m => str_eqb m (req_model req)) (cp_models profile))
    then Err (ExecError_new 403 "client_profile_model_denied"
                ("client profile `" ^^ cp_id profile ^^ "` does not allow model `"
                 ^^ req_model req ^^ "`") None)
    else Ok tt.

Definition apply_request_client_profile (cfg : EngineConfig) (req : AiRequest)
  : result (option ClientProfileConfig * AiRequest) ExecError :=
  let requested := bt_get "client_profile" (req_metadata req) in
  let header := bool_decide (bt_get "client_profile_source" (req_metadata req)
                             = Some "header") in
  let configured := match requested with
    | Some id => List.find (fun p => str_eqb (cp_id p) id) (cf_client_profiles cfg)
    | None => None
    end in
  let? inferred := if negb (opt_is_some configured) && negb header
                   then infer_client_profile_for_model cfg req else Ok None in
  match (match configured with Some p => Some p | None => inferred end) with
  | None =>
      if header then
        Err (ExecError_new 422 "invalid_request_error"
               ("client profile `" ^^ default EmptyString requested ^^ "` is not configured")
               None)
      else Ok (None, req)
  | Some profile =>
      let? _ := check_client_profile profile req in
      let m := bt_insert "client_profile" (cp_id profile) (req_metadata req) in
      let m := bt_insert "client_profile_mode" (client_mode_as_str (cp_mode profile)) m in
      Ok (Some profile, with_metadata m req)
  end.

(** ** The policy *)

Definition base_policy (snap : Snapshot) (profile : option ExecutionProfile)
    (scoring : option ScoringPolicy) (cost_aware latency_aware : bool) : RoutingPolicy :=
  let s := cf_server (sn_config snap) in
  mkRoutingPolicy profile scoring cost_aware (sv_cost_max_per_mtok s) latency_aware
    (sv_cost_allow_free s) (sv_cost_allow_promo s) (sv_cost_allow_aggregator s) false
    (sv_vision_degrade s) (sv_cost_unknown s) (sv_context_unknown s) (sv_scorecard s)
    (sv_quality_eval s).

Definition private_policy (snap : Snapshot) (p : RoutingPolicy) : RoutingPolicy :=
  mkRoutingPolicy (pol_profile p) (pol_scoring p) (pol_cost_aware p)
    (pol_max_price_per_mtok p) (pol_latency_aware p) false false false true
    (pol_vision_degrade p) (pol_unknown_cost p) (pol_unknown_context p) (pol_scorecard p)
    (pol_quality_eval p).

Definition routing_policy (snap : Snapshot) (profile : option ExecutionProfile)
  : RoutingPolicy :=
  let cost := rtm_cost_aware (sn_runtime snap) in
  let latency := rtm_latency_aware (sn_runtime snap) in
  match profile with
  | Some Auto => base_policy snap profile (Some scoring_balanced) cost latency
  | Some Cheap => base_policy snap profile (Some scoring_cheap) true false
  | Some Fast => base_policy snap profile (Some scoring_fast) false true
  | Some Coding => base_policy snap profile (Some scoring_coding) cost latency
  | Some Private_ => private_policy snap (base_policy snap profile None cost latency)
  | Some LargeContext => base_policy snap profile (Some scoring_large_context) cost latency
  | Some Judge => base_policy snap profile (Some scoring_judge) cost latency
  | Some Extract_ => base_policy snap profile (Some scoring_extract) true latency
  | None => base_policy snap profile None cost latency
  end.

(** ** Candidates *)

Record ResolvedCombo := mkResolvedCombo {
  rcb_name : string;
  rcb_strategy : ComboStrategy
}.

Record CandidateResolution := mkCandidateResolution {
  cr_route_name : string;
  cr_require : RouteRequire;
  cr_candidates : list ExecutionTarget;
  cr_unknown : list string;
  cr_profile : option ExecutionProfile;
  cr_combo : option ResolvedCombo
}.

Definition set_candidates (cs : list ExecutionTarget) (r : CandidateResolution) :=
  mkCandidateResolution (cr_route_name r) (cr_require r) cs (cr_unknown r) (cr_profile r)
    (cr_combo r).

(** The targets of a route, known and unknown. *)
Definition lookup_targets (reg : Registry) (ids : list string)
  : list ExecutionTarget * list string :=
  (omap (reg_target_for reg) ids,
   List.filter (fun id => negb (opt_is_some (reg_target_for reg id))) ids).

Definition mark_unverified (t : ExecutionTarget) : ExecutionTarget :=
  mkExecutionTarget (t_id t) (t_kind t) (t_provider_id t) (t_model t) (t_capabilities t)
    (t_cost t) (t_latency_ewma_ms t) (t_ttft_ewma_ms t) (t_policy_tags t) (t_task_tags t)
    (t_health t) (t_healthy_accounts t) true (t_outcome t) (t_quality t).

(** The route, combo, target or default provider a model names. *)
Definition match_candidates (snap : Snapshot) (model : string)
  : result CandidateResolution ExecError :=
  let cfg := sn_config snap in
  let reg := sn_registry snap in
  let profile := from_model model in
  let of_route name route combo :=
    let '(known, unknown) := lookup_targets reg (rt_targets route) in
    mkCandidateResolution name (rt_require route) known unknown profile combo in
  match profile with
  | Some p =>
      match (match exact_route_for cfg model with
             | Some r => Some r | None => wildcard_route cfg end) with
      | None =>
          Err (ExecError_new 404 "invalid_request_error"
                 ("execution profile `" ^^ profile_id p
                  ^^ "` needs a matching route or catch-all `*` route") None)
      | Some route =>
          Ok (of_route (if bool_decide (rt_match_model route = Some model)
                        then rt_name route
                        else profile_id p ^^ " via " ^^ rt_name route) route None)
      end
  | None =>
      match exact_route_for cfg model with
      | Some route => Ok (of_route (rt_name route) route None)
      | None =>
          match combo_for cfg model with
          | Some combo =>
              let '(known, unknown) := lookup_targets reg (combo_models combo) in
              Ok (mkCandidateResolution ("combo/" ^^ model) (combo_require combo) known
                    unknown None (Some (mkResolvedCombo model (combo_strategy combo))))
          | None =>
              match reg_target_for reg model with
              | Some target =>
                  Ok (mkCandidateResolution "direct" RouteRequire_default [target] [] None None)
              | None =>
                  match wildcard_route cfg with
                  | Some route => Ok (of_route (rt_name route) route None)
                  | None =>
                      match sv_default_provider (cf_server cfg) with
                      | Some provider =>
                          match reg_target_for_provider_model reg provider model with
                          | Some target =>
                              Ok (mkCandidateResolution ("default:" ^^ provider)
                                    RouteRequire_default [mark_unverified target] [] None None)
                          | None =>
                              Err (ExecError_new 404 "invalid_request_error"
                                     ("default_provider `" ^^ provider
                                      ^^ "` is not a configured provider") None)
                          end
                      | None =>
                          Err (ExecError_new 404 "invalid_request_error"
                                 ("no route or target for model `" ^^ model
                                  ^^ "` — add a route, use `provider/model`, or set server.default_provider")
                                 None)
                      end
                  end
              end
          end
      end
  end.

Section Stamping.
(** [quality_eval::evaluator_id], a hash of the judge's targets. *)
Context (evaluator_id : list string -> string).

Definition stamp_candidate (snap : Snapshot) (r : CredentialResolver) (now : Instant)
    (acc : list ExecutionTarget * Scorecard) (c : ExecutionTarget)
  : list ExecutionTarget * Scorecard :=
  let s := cf_server (sn_config snap) in
  let ph := pool_health r (t_provider_id c) (t_model c) now in
  let healthy := Some (if ph_circuit_open ph then 0 else ph_healthy ph) in
  let '(outcome, sc) := project acc.2 (t_id c) "any" (sv_scorecard s) now in
  let '(quality, sc) :=
    if qe_enabled (sv_quality_eval s)
    then project_quality sc (t_id c) "any"
           (evaluator_id (qe_body_allowed_targets (sv_quality_eval s)))
           (sv_scorecard s) (sv_quality_eval s) now
    else (t_quality c, sc) in
  (acc.1 ++ [mkExecutionTarget (t_id c) (t_kind c) (t_provider_id c) (t_model c)
     (t_capabilities c) (t_cost c) (t_latency_ewma_ms c) (t_ttft_ewma_ms c)
     (t_policy_tags c) (t_task_tags c) (t_health c) healthy (t_unverified c) outcome quality],
   sc).

Definition resolve_candidates (snap : Snapshot) (model : string) (r : CredentialResolver)
    (sc : Scorecard) (now : Instant)
  : result CandidateResolution ExecError * Scorecard :=
  match match_candidates snap model with
  | Err e => (Err e, sc)
  | Ok res =>
      let '(cs, sc) := fold_left (stamp_candidate snap r now) (cr_candidates res) ([], sc) in
      (Ok (set_candidates cs res), sc)
  end.

End Stamping.

(** ** Planning *)

(** [rotate_left]. *)
Definition rotate_left {A} (k : nat) (l : list A) : list A := drop k l ++ take k l.

Definition apply_combo_order (combo_rr : gmap string Z) (res : CandidateResolution)
    (advance_cursor : bool) : CandidateResolution * gmap string Z :=
  match cr_combo res with
  | Some combo =>
      match rcb_strategy combo with
      | ComboFallback => (res, combo_rr)
      | ComboRoundRobin =>
          let len := Z.of_nat (length (cr_candidates res)) in
          if len <=? 1 then (res, combo_rr)
          else
            let cursor := default 0 (combo_rr !! rcb_name combo) in
            let offset := cursor mod len in
            let cursor' := if advance_cursor then wrap64 (cursor + 1) else cursor in
            (set_candidates (rotate_left (Z.to_nat offset) (cr_candidates res)) res,
             <[rcb_name combo := cursor']> combo_rr)
      end
  | None => (res, combo_rr)
  end.

Definition ends_with (suffix s : string) : bool :=
  (String.length suffix <=? String.length s)%nat
  && str_eqb suffix (String.substring (String.length s - String.length suffix)
                       (String.length suffix) s).

Definition tenant_route_allowed (t : TenantConfig) (route_name : string) : bool :=
  list_empty (tn_allowed_routes t)
  || existsb (fun allowed => str_eqb allowed route_name
       || str_eqb route_name ("combo/" ^^ allowed)
       || ends_with (" via " ^^ allowed) route_name) (tn_allowed_routes t).

Definition tenant_provider_allowed (t : TenantConfig) (provider_id : string) : bool :=
  list_empty (tn_allowed_providers t)
  || existsb (fun allowed => str_eqb allowed provider_id) (tn_allowed_providers t).

(** Some configured account of the candidate's provider is among the references;
    no references allow every account. *)
Definition has_ref_account (r : CredentialResolver) (refs : list string)
    (c : ExecutionTarget) : bool :=
  list_empty refs
  || let allowed := accounts_for_provider_refs refs (t_provider_id c) in
     existsb (fun id => set_has allowed id) (account_ids r (t_provider_id c)).

Definition tenant_candidate_has_account (r : CredentialResolver) (t : TenantConfig)
    (c : ExecutionTarget) : bool := has_ref_account r (tn_allowed_accounts t) c.

Definition client_profile_candidate_has_account (r : CredentialResolver)
    (p : ClientProfileConfig) (c : ExecutionTarget) : bool :=
  has_ref_account r (cp_accounts p) c.

(** [retain] with the rejections it records. *)
Definition retain_or {A R} (f : A -> option R) (l : list A) : list A * list R :=
  (List.filter (fun x => negb (opt_is_some (f x))) l, omap f l).

Definition tenant_verdict (r : CredentialResolver) (t : TenantConfig) (c : ExecutionTarget)
  : option (string * string) :=
  if negb (tenant_provider_allowed t (t_provider_id c)) then
    Some (t_id c, "tenant policy: provider `" ^^ t_provider_id c ^^ "` is not allowed")
  else if negb (tenant_candidate_has_account r t c) then
    Some (t_id c, "tenant policy: no allowed account for provider")
  else None.

Definition profile_verdict (r : CredentialResolver) (p : ClientProfileConfig)
    (c : ExecutionTarget) : option (string * string) :=
  if client_profile_candidate_has_account r p c then None
  else Some (t_id c, "client profile `" ^^ cp_id p ^^ "`: no pinned account for provider `"
                       ^^ t_provider_id c ^^ "`").

Definition set_strategy (s : string) (d : RouteDecision) : RouteDecision :=
  mkRouteDecision (d_request_id d) s (d_profile d) (d_selected d) (d_fallbacks d)
    (d_reason d) (d_rejected d) (d_scores d) (d_capability_fallback d) (d_unverified d).

Definition annotate_decision (combo : option ResolvedCombo) (tn : option TenantConfig)
    (profile : option ClientProfileConfig) (rejections : list (string * string))
    (d : RouteDecision) : RouteDecision :=
  let d := match combo with
    | Some c =>
        add_reason ("combo_strategy=" ^^ combo_as_str (rcb_strategy c))
          (add_reason ("combo=" ^^ rcb_name c)
             (set_strategy match rcb_strategy c with
                           | ComboFallback => "combo_fallback"
                           | ComboRoundRobin => "combo_round_robin"
                           end d))
    | None => d
    end in
  let d := match tn with Some t => add_reason ("tenant=" ^^ tn_id t) d | None => d end in
  let d := match profile with
    | Some p => add_reason ("client_profile_mode=" ^^ client_mode_as_str (cp_mode p))
                  (add_reason ("client_profile=" ^^ cp_id p) d)
    | None => d
    end in
  fold_left (fun d tr => reject tr.1 tr.2 d) rejections d.

Definition plan_resolved_route (combo_rr : gmap string Z) (snap : Snapshot)
    (r : CredentialResolver) (req : AiRequest) (client_profile : option ClientProfileConfig)
    (resolved : CandidateResolution) (advance_combo_cursor : bool)
  : result (string * RoutePlan) ExecError * gmap string Z :=
  let '(resolved, combo_rr) := apply_combo_order combo_rr resolved advance_combo_cursor in
  let route_name := cr_route_name resolved in
  let tn := match req_tenant req with Some id => tenant (sn_config snap) id | None => None end in
  let denied := match tn with
    | Some t => negb (tenant_route_allowed t route_name) | None => false end in
  if denied then
    (Err (ExecError_new 403 "tenant_policy_denied"
            ("tenant `" ^^ match tn with Some t => tn_id t | None => EmptyString end
             ^^ "` is not allowed to use route `" ^^ route_name ^^ "`") None), combo_rr)
  else
    let '(cs, tenant_rejections) := match tn with
      | Some t => retain_or (tenant_verdict r t) (cr_candidates resolved)
      | None => (cr_candidates resolved, [])
      end in
    let '(cs, profile_rejections) := match client_profile with
      | Some p => if list_empty (cp_accounts p) then (cs, [])
                  else retain_or (profile_verdict r p) cs
      | None => (cs, [])
      end in
    let policy := routing_policy snap (cr_profile resolved) in
    let plan := plan_route req route_name (cr_require resolved) cs policy in
    (Ok (route_name,
         mkRoutePlan (plan_candidates plan)
           (annotate_decision (cr_combo resolved) tn client_profile
              (tenant_rejections ++ profile_rejections) (plan_decision plan))), combo_rr).
