(* ===== verification/Trace.v ===== *)
(** * Request traces

    [crates/sb-trace/src/lib.rs]: one record per request with the route decision
    and every attempt, and the bounded log of recent records. The evaluation
    events, the native-client observation and the JSONL copy of the log are not
    modelled. *)

From Stdlib Require Import ZArith Lia.
From stdpp Require Import base list strings option.
From S2P Require Import Prelude Text Float Ir Routing.

#[local] Open Scope Z_scope.

Inductive AttemptResult :=
| AttemptSuccess
| AttemptFailure (class : string) (fell_over : bool).

Record Attempt := mkAttempt {
  at_target_id : string;
  at_provider_id : string;
  at_model : string;
  at_account_id : string;
  at_egress : string;
  at_latency_ms : Z;
  at_outcome : AttemptResult
}.

Record TraceRecord := mkTraceRecord {
  tr_request_id : string;
  tr_revision : Z;
  tr_tenant : option string;
  tr_project : option string;
  tr_session_id : option string;
  tr_client_profile : option string;
  tr_client_protocol : option string;
  tr_timestamp_unix : Z;
  tr_inbound_model : string;
  tr_route : string;
  tr_decision : RouteDecision;
  tr_attempts : list Attempt;
  tr_selected_account_id : option string;
  tr_warnings : list string;
  tr_final_status : Z;
  tr_total_latency_ms : Z;
  tr_streamed : bool;
  tr_usage : option Usage;
  tr_cost_micros : Z
}.

Record RequestTrace := mkRequestTrace {
  rq_request_id : string;
  rq_revision : Z;
  rq_tenant : option string;
  rq_project : option string;
  rq_session_id : option string;
  rq_client_profile : option string;
  rq_client_protocol : option string;
  rq_inbound_model : string;
  rq_route : string;
  rq_decision : RouteDecision;
  rq_attempts : list Attempt;
  rq_warnings : list string;
  rq_usage : option Usage;
  rq_cost_micros : Z
}.

Definition trace_start (request_id : string) (revision : Z) (inbound_model route : string)
    (decision : RouteDecision) : RequestTrace :=
  mkRequestTrace request_id revision None None None None None inbound_model route decision
    [] [] None 0.

Definition with_principal (tenant project : option string) (t : RequestTrace) : RequestTrace :=
  mkRequestTrace (rq_request_id t) (rq_revision t) tenant project (rq_session_id t)
    (rq_client_profile t) (rq_client_protocol t) (rq_inbound_model t) (rq_route t)
    (rq_decision t) (rq_attempts t) (rq_warnings t) (rq_usage t) (rq_cost_micros t).

(** [filter(|id| !id.is_empty())]. *)
Definition non_empty (s : option string) : option string :=
  match s with Some x => if is_empty x then None else Some x | None => None end.

Definition with_session_id (session_id : option string) (t : RequestTrace) : RequestTrace :=
  mkRequestTrace (rq_request_id t) (rq_revision t) (rq_tenant t) (rq_project t)
    (non_empty session_id) (rq_client_profile t) (rq_client_protocol t) (rq_inbound_model t)
    (rq_route t) (rq_decision t) (rq_attempts t) (rq_warnings t) (rq_usage t)
    (rq_cost_micros t).

Definition with_client_metadata (profile protocol : option string) (t : RequestTrace)
  : RequestTrace :=
  mkRequestTrace (rq_request_id t) (rq_revision t) (rq_tenant t) (rq_project t)
    (rq_session_id t) (non_empty profile) (non_empty protocol) (rq_inbound_model t)
    (rq_route t) (rq_decision t) (rq_attempts t) (rq_warnings t) (rq_usage t)
    (rq_cost_micros t).

Definition trace_attempt (a : Attempt) (t : RequestTrace) : RequestTrace :=
  mkRequestTrace (rq_request_id t) (rq_revision t) (rq_tenant t) (rq_project t)
    (rq_session_id t) (rq_client_profile t) (rq_client_protocol t) (rq_inbound_model t)
    (rq_route t) (rq_decision t) (rq_attempts t ++ [a]) (rq_warnings t) (rq_usage t)
    (rq_cost_micros t).

(** A warning already there is not repeated. *)
Definition trace_warning (w : string) (t : RequestTrace) : RequestTrace :=
  if existsb (fun x => str_eqb x w) (rq_warnings t) then t
  else mkRequestTrace (rq_request_id t) (rq_revision t) (rq_tenant t) (rq_project t)
    (rq_session_id t) (rq_client_profile t) (rq_client_protocol t) (rq_inbound_model t)
    (rq_route t) (rq_decision t) (rq_attempts t) (rq_warnings t ++ [w]) (rq_usage t)
    (rq_cost_micros t).

Definition trace_set_usage (usage : Usage) (cost : Z) (t : RequestTrace) : RequestTrace :=
  mkRequestTrace (rq_request_id t) (rq_revision t) (rq_tenant t) (rq_project t)
    (rq_session_id t) (rq_client_profile t) (rq_client_protocol t) (rq_inbound_model t)
    (rq_route t) (rq_decision t) (rq_attempts t) (rq_warnings t) (Some usage) cost.

(** The account of the last successful attempt. *)
Definition selected_account (attempts : list Attempt) : option string :=
  at_account_id <$> List.find (fun a => match at_outcome a with
                                 | AttemptSuccess => true | _ => false end) (rev attempts).

Definition trace_finish (final_status total_latency_ms now_unix : Z) (streamed : bool)
    (t : RequestTrace) : TraceRecord :=
  mkTraceRecord (rq_request_id t) (rq_revision t) (rq_tenant t) (rq_project t)
    (rq_session_id t) (rq_client_profile t) (rq_client_protocol t) now_unix
    (rq_inbound_model t) (rq_route t) (rq_decision t) (rq_attempts t)
    (selected_account (rq_attempts t)) (rq_warnings t) final_status total_latency_ms streamed
    (rq_usage t) (rq_cost_micros t).

(** ** The log *)

Record TraceLog := mkTraceLog {
  tl_ring : list TraceRecord;
  tl_cap : Z
}.

Definition TraceLog_new (cap : Z) : TraceLog := mkTraceLog [] (Z.max cap 1).

(** [sampled] is the decision of the hash of the request id. *)
Definition trace_record (sampled : string -> bool) (l : TraceLog) (r : TraceRecord) : TraceLog :=
  if negb (sampled (tr_request_id r)) then l
  else
    let ring := if Z.of_nat (length (tl_ring l)) =? tl_cap l then tail (tl_ring l)
                else tl_ring l in
    mkTraceLog (ring ++ [r]) (tl_cap l).
