(* ===== verification/Lines.v ===== *)
(** * Lines and words

    The string operations of the standard library that work by characters, lines
    and words, on UTF-8 bytes. White space is the Unicode property [White_Space],
    as in [Text.strip_ws]; a character of several bytes cannot begin inside
    another one, so cutting at its encoding is cutting at characters. *)

From Stdlib Require Import ZArith Lia Ascii.
From Stdlib Require String.
From stdpp Require Import base list strings.
From S2P Require Import Prelude Text.

#[local] Open Scope Z_scope.

(** [str::trim_start]; the fuel is the length. *)
Fixpoint trim_start_fuel (fuel : nat) (s : string) : string :=
  match fuel with
  | O => s
  | S f => match strip_ws s with Some s' => trim_start_fuel f s' | None => s end
  end.

Definition trim_start (s : string) : string := trim_start_fuel (String.length s) s.

(** [str::trim_end]: cut before the longest blank suffix. *)
Fixpoint trim_end (s : string) : string :=
  match s with
  | EmptyString => EmptyString
  | String c s' => if trim_is_empty s then EmptyString else String c (trim_end s')
  end.

Definition trim (s : string) : string := trim_end (trim_start s).

(** [s.contains(char::is_whitespace)]. *)
Fixpoint has_ws (s : string) : bool :=
  match strip_ws s with
  | Some _ => true
  | None => match s with EmptyString => false | String _ s' => has_ws s' end
  end.

(** [s.trim_start_matches(p)] for a non-empty pattern. *)
Fixpoint trim_start_matches_fuel (fuel : nat) (p s : string) : string :=
  match fuel with
  | O => s
  | S f => match strip_prefix p s with Some s' => trim_start_matches_fuel f p s' | None => s end
  end.

Definition trim_start_matches (p s : string) : string :=
  trim_start_matches_fuel (String.length s) p s.

(** [s.trim_end_matches(c)]. *)
Fixpoint trim_end_matches (c : ascii) (s : string) : string :=
  match s with
  | EmptyString => EmptyString
  | String a s' =>
      let r := trim_end_matches c s' in
      if is_empty r && Ascii.eqb a c then EmptyString else String a r
  end.

(** [s.split(c)]: never empty. *)
Fixpoint split_char (c : ascii) (s : string) : list string :=
  match s with
  | EmptyString => [EmptyString]
  | String a s' =>
      if Ascii.eqb a c then EmptyString :: split_char c s'
      else match split_char c s' with
           | [] => [String a EmptyString]
           | w :: ws => String a w :: ws
           end
  end.

(** [s.rsplit_once(c)]: cut at the last occurrence. *)
Fixpoint rsplit_once (c : ascii) (s : string) : option (string * string) :=
  match s with
  | EmptyString => None
  | String a s' =>
      match rsplit_once c s' with
      | Some (l, r) => Some (String a l, r)
      | None => if Ascii.eqb a c then Some (EmptyString, s') else None
      end
  end.

Definition newline : ascii := ascii_of_nat 10.
Definition nl : string := String newline EmptyString.

(** [line.strip_suffix('\r')], or the line. *)
Fixpoint strip_cr (s : string) : string :=
  match s with
  | EmptyString => EmptyString
  | String c EmptyString => if Nat.eqb (nat_of_ascii c) 13 then EmptyString else s
  | String c s' => String c (strip_cr s')
  end.

(** [str::lines]: the pieces between line feeds; one that a line feed ends loses a
    carriage return, and the piece after the last one counts if it is not
    empty. *)
Fixpoint ended_lines (l : list string) : list string :=
  match l with
  | [] => []
  | [last] => if is_empty last then [] else [last]
  | line :: l' => strip_cr line :: ended_lines l'
  end.

Definition lines (s : string) : list string := ended_lines (split_char newline s).

(** [str::split_whitespace]; the fuel is the length. [word] is the part of the
    current word that was read. *)
Fixpoint words_fuel (fuel : nat) (word s : string) : list string :=
  match fuel with
  | O => if is_empty word then [] else [word]
  | S f =>
      match s with
      | EmptyString => if is_empty word then [] else [word]
      | String c s' =>
          match strip_ws s with
          | Some rest => (if is_empty word then [] else [word]) ++ words_fuel f EmptyString rest
          | None => words_fuel f (word ^^ String c EmptyString) s'
          end
      end
  end.

Definition split_whitespace (s : string) : list string :=
  words_fuel (S (String.length s)) EmptyString s.

Definition byte_len (s : string) : Z := Z.of_nat (String.length s).

(** [s.as_bytes().get(n)]. *)
Definition byte_at (n : nat) (s : string) : option ascii := String.get n s.

Definition is_ascii_whitespace (c : ascii) : bool :=
  let n := nat_of_ascii c in
  Nat.eqb n 9 || Nat.eqb n 10 || Nat.eqb n 12 || Nat.eqb n 13 || Nat.eqb n 32.

Definition is_ascii_digit (c : ascii) : bool :=
  let n := nat_of_ascii c in (Nat.leb 48 n && Nat.leb n 57)%bool.

Fixpoint all_bytes (p : ascii -> bool) (s : string) : bool :=
  match s with
  | EmptyString => true
  | String c s' => p c && all_bytes p s'
  end.

(** ** Lemmas *)

Lemma length_append a b :
  String.length (a ^^ b) = (String.length a + String.length b)%nat.
Proof. induction a as [|c a IH]; [done|]. simpl. by rewrite <- IH. Qed.

Lemma trim_end_no_ws s : has_ws s = false -> trim_end s = s.
Proof.
  induction s as [|c s IH]; [done|]. cbn [has_ws trim_end].
  destruct (strip_ws (String c s)) as [r|] eqn:E; [done|]. intros Hs.
  unfold trim_is_empty. cbn [String.length blank_fuel]. rewrite E. by rewrite IH.
Qed.

Lemma trim_no_ws s : has_ws s = false -> trim s = s.
Proof.
  intros Hs. unfold trim. replace (trim_start s) with s; [by apply trim_end_no_ws|].
  unfold trim_start. destruct s as [|c s]; [done|]. cbn [String.length trim_start_fuel].
  cbn [has_ws] in Hs. by destruct (strip_ws (String c s)).
Qed.

Example lines_example :
  lines ("a" ^^ nl ^^ nl ^^ "b") = ["a"; EmptyString; "b"] /\ lines ("a" ^^ nl) = ["a"]
  /\ lines EmptyString = [] /\ split_whitespace "  ab  c " = ["ab"; "c"]
  /\ trim "  ab c " = "ab c" /\ rsplit_once "/" "a/b/c" = Some ("a/b", "c")
  /\ split_char "/" "a//b" = ["a"; EmptyString; "b"].
Proof. vm_compute. done. Qed.
