(* ===== verification/Value.v ===== *)
(** * JSON values

    The part of [serde_json::Value] the protocol codecs use: typed access, member
    lookup, and objects as the [json!] macro and [Map::insert] build them. An
    object is an ordered map, so its entries are in key order. *)

From Stdlib Require Import ZArith Lia.
From stdpp Require Import base list strings option sets gmap.
From S2P Require Import Prelude Text BTree Float Ir.

#[local] Open Scope Z_scope.
#[local] Open Scope switchback_scope.

(** ** Access *)

Definition u32_max : Z := 2 ^ 32 - 1.

Definition as_str (v : Json) : option string := match v with JString s => Some s | _ => None end.
Definition as_bool (v : Json) : option bool := match v with JBool b => Some b | _ => None end.
Definition as_array (v : Json) : option (list Json) := match v with JArray l => Some l | _ => None end.
Definition as_object (v : Json) : option (BTreeMap string Json) :=
  match v with JObject m => Some m | _ => None end.
Definition is_null (v : Json) : bool := match v with JNull => true | _ => false end.
Definition is_number (v : Json) : bool := match v with JInt _ | JFloat _ => true | _ => false end.

Definition as_u64 (v : Json) : option Z :=
  match v with JInt n => if (0 <=? n) && (n <=? u64_max) then Some n else None | _ => None end.
Definition as_i64 (v : Json) : option Z :=
  match v with JInt n => if (- 2 ^ 63 <=? n) && (n <? 2 ^ 63) then Some n else None | _ => None end.

(** An integer is converted, rounding to the nearest double. *)
Definition as_f64 (v : Json) : option f64 :=
  match v with JInt n => Some (f64_of_Z n) | JFloat x => Some x | _ => None end.

(** [u32::try_from(n).ok()]. *)
Definition to_u32 (n : Z) : option Z := if (0 <=? n) && (n <=? u32_max) then Some n else None.

(** [value.get(key)]. *)
Definition get (key : string) (v : Json) : option Json := as_object v ≫= bt_get key.

(** Optional chains such as [value.get(key).and_then(Value::as_str)]. *)
Definition get_str (key : string) (v : Json) : option string := get key v ≫= as_str.
Definition get_array (key : string) (v : Json) : option (list Json) := get key v ≫= as_array.
Definition get_bool (key : string) (v : Json) : option bool := get key v ≫= as_bool.
Definition get_u64 (key : string) (v : Json) : option Z := get key v ≫= as_u64.
Definition get_f64 (key : string) (v : Json) : option f64 := get key v ≫= as_f64.

(** [value.get(key).and_then(Value::as_object)], as a value again. *)
Definition get_object (key : string) (v : Json) : option Json :=
  JObject <$> (get key v ≫= as_object).

(** [value.pointer("/a/b")] for member names that need no escaping. *)
Fixpoint pointer (path : list string) (v : Json) : option Json :=
  match path with
  | [] => Some v
  | key :: path => get key v ≫= pointer path
  end.

(** [option.or_else(..)]. *)
Definition or_else {A} (a b : option A) : option A := match a with Some x => Some x | None => b end.

#[global] Arguments or_else : simpl never.
#[global] Arguments as_u64 : simpl never.
#[global] Arguments get_object : simpl never.
#[global] Arguments to_u32 : simpl never.

(** ** Building *)

(** [json!({ .. })]. *)
Definition obj (l : list (string * Json)) : Json := JObject (bt_collect l).

(** [value[key] = x] on an object, and [map.insert(key, x)]. *)
Definition put (key : string) (x : Json) (v : Json) : Json :=
  match v with JObject m => JObject (bt_insert key x m) | _ => v end.

Definition put_opt (key : string) (x : option Json) (v : Json) : Json :=
  match x with Some x => put key x v | None => v end.

(** [body.entry(key).or_insert_with(|| value)] for every entry of [extra]. *)
Definition put_missing (extra : BTreeMap string Json) (v : Json) : Json :=
  fold_left (fun v kv => match get kv.1 v with Some _ => v | None => put kv.1 kv.2 v end) extra v.

(** [serde_json::Number::from_f64]. *)
Definition number_from_f64 (x : f64) : option Json := if is_finite x then Some (JFloat x) else None.

(** [serde_json::to_value] of a double. *)
Definition f64_value (x : f64) : Json := default JNull (number_from_f64 x).

Definition opt_string (s : option string) : Json := match s with Some s => JString s | None => JNull end.

(** [option.ok_or_else(..)]. *)
Definition ok_or {A} (o : option A) (e : string) : result A string :=
  match o with Some a => Ok a | None => Err e end.

(** [iter.map(f).collect::<Result<Vec<_>, _>>()], and a [for] loop that pushes
    fallible results. *)
Fixpoint try_map {A B} (f : A -> result B string) (l : list A) : result (list B) string :=
  match l with
  | [] => Ok []
  | x :: l => let? y := f x in let? ys := try_map f l in Ok (y :: ys)
  end.

(** ** Lookup in what was built *)

(** A well-formed object. *)
Definition is_obj (v : Json) : Prop := exists m, v = JObject m /\ bt_wf m.

(** The value a list of entries gives a key: the last one, or the first one. *)
Fixpoint find_last (k : string) (l : list (string * Json)) : option Json :=
  match l with
  | [] => None
  | (k', v) :: l =>
      match find_last k l with Some x => Some x | None => if String.eqb k k' then Some v else None end
  end.

Fixpoint find_first (k : string) (l : list (string * Json)) : option Json :=
  match l with
  | [] => None
  | (k', v) :: l => if String.eqb k k' then Some v else find_first k l
  end.

Lemma get_object_wf k m : get k (JObject m) = bt_get k m.
Proof. done. Qed.

Lemma is_obj_obj l : is_obj (obj l).
Proof. eexists. split; [done|apply bt_collect_wf]. Qed.

Lemma is_obj_put k x v : is_obj v -> is_obj (put k x v).
Proof. intros (m & -> & Hm). eexists. split; [done|by apply bt_insert_wf]. Qed.

Lemma is_obj_put_opt k x v : is_obj v -> is_obj (put_opt k x v).
Proof. destruct x; [apply is_obj_put|done]. Qed.

Lemma get_put k k' x v :
  is_obj v -> get k (put k' x v) = if String.eqb k k' then Some x else get k v.
Proof.
  intros (m & -> & Hm). simpl. rewrite !get_object_wf. destruct (String.eqb_spec k k') as [->|Hne].
  - apply bt_get_insert_eq.
  - by apply bt_get_insert_ne.
Qed.

Lemma get_put_opt k k' x v :
  is_obj v -> get k (put_opt k' x v) = if String.eqb k k' then or_else x (get k v) else get k v.
Proof. intros Hv. destruct x; simpl; [|by destruct (k =? k')%string]. rewrite get_put by done. by destruct (k =? k')%string. Qed.

Lemma obj_acc l : forall m, bt_wf m ->
  forall k, bt_get k (fold_left (fun m kv => bt_insert kv.1 kv.2 m) l m)
            = or_else (find_last k l) (bt_get k m).
Proof.
  induction l as [|[k' v] l IH]; intros m Hm k; simpl; [done|].
  rewrite IH by (by apply bt_insert_wf). destruct (find_last k l); [done|]. simpl.
  destruct (String.eqb_spec k k') as [->|Hne]; simpl.
  - apply bt_get_insert_eq.
  - by apply bt_get_insert_ne.
Qed.

Lemma or_else_none {A} (o : option A) : or_else o None = o.
Proof. by destruct o. Qed.

Lemma get_obj k l : get k (obj l) = find_last k l.
Proof.
  unfold obj, bt_collect. rewrite get_object_wf, obj_acc by constructor. simpl.
  by destruct (find_last k l).
Qed.

Lemma is_obj_put_missing extra : forall v, is_obj v -> is_obj (put_missing extra v).
Proof.
  induction extra as [|[k x] extra IH]; intros v Hv; simpl; [done|].
  destruct (get k v); apply IH; [done|by apply is_obj_put].
Qed.

Lemma get_put_missing extra : forall k v, is_obj v ->
  get k (put_missing extra v) = or_else (get k v) (find_first k extra).
Proof.
  induction extra as [|[k' x] extra IH]; intros k v Hv; simpl; [by destruct (get k v)|].
  destruct (get k' v) eqn:E; rewrite IH by (try apply is_obj_put; done).
  - destruct (String.eqb_spec k k') as [->|]; [by rewrite E|done].
  - rewrite get_put by done. destruct (String.eqb_spec k k') as [->|]; [by rewrite E|done].
Qed.

(** In an ordered map the first entry of a key is the only one. *)
Lemma find_first_get m k : bt_wf m -> find_first k m = bt_get k m.
Proof.
  induction m as [|[k' v] m IH]; intros Hm; simpl; [done|]. inversion Hm as [|? ? Hs Hf]; subst.
  destruct (String.eqb_spec k k') as [->|Hne].
  - by rewrite key_cmp_refl.
  - destruct (key_cmp k k') eqn:E; [by apply key_cmp_eq in E| |by apply IH].
    rewrite IH by done. eapply bt_get_below; [done|]. by rewrite E.
Qed.

Create HintDb json.
#[export] Hint Resolve is_obj_obj is_obj_put is_obj_put_opt is_obj_put_missing : json.

(** Read the members of what [json!] and [insert] built. *)
Ltac json_get :=
  repeat (first [rewrite get_obj | rewrite get_put by (auto 20 with json)
                | rewrite get_put_opt by (auto 20 with json)
                | rewrite get_put_missing by (auto 20 with json)]; simpl).

Lemma try_map_ok {A B} (f : A -> result B string) (g : A -> B) l :
  (forall x, x ∈ l -> f x = Ok (g x)) -> try_map f l = Ok (g <$> l).
Proof.
  induction l as [|x l IH]; intros H; simpl; [done|].
  rewrite H by set_solver. simpl. rewrite IH; [done|]. set_solver.
Qed.

(** ** Ordered maps are determined by their lookups *)

Lemma bt_get_in (m : BTreeMap string Json) k v : bt_wf m -> bt_get k m = Some v <-> (k, v) ∈ m.
Proof.
  intros Hm. rewrite <- find_first_get by done. induction m as [|[k' v'] m IH]; simpl; [set_solver|].
  inversion Hm as [|? ? Hs Hf]; subst. destruct (String.eqb_spec k k') as [->|Hne].
  - split; [intros [= ->]; set_solver|]. intros [[= ->]|Hin]%elem_of_cons; [done|].
    rewrite Forall_forall in Hf. specialize (Hf _ Hin). unfold bt_lt in Hf. simpl in Hf.
    by rewrite key_cmp_refl in Hf.
  - rewrite IH by done. set_solver.
Qed.

Lemma bt_wf_ext (m1 m2 : BTreeMap string Json) :
  bt_wf m1 -> bt_wf m2 -> (forall k, bt_get k m1 = bt_get k m2) -> m1 = m2.
Proof.
  intros H1 H2 Hg.
  assert (Hin : forall kv, kv ∈ m1 <-> kv ∈ m2).
  { intros [k v]. rewrite <- !bt_get_in by done. by rewrite Hg. }
  clear Hg. revert m2 H2 Hin. induction H1 as [|[k1 v1] m1 Hs IH Hf]; intros m2 H2 Hin.
  { destruct m2 as [|kv m2]; [done|]. specialize (Hin kv). set_solver. }
  destruct H2 as [|[k2 v2] m2 Hs2 Hf2]; [specialize (Hin (k1, v1)); set_solver|].
  rewrite Forall_forall in Hf, Hf2.
  assert (E : (k1, v1) = (k2, v2)).
  { assert (H12 : (k1, v1) ∈ (k2, v2) :: m2) by (apply Hin; set_solver).
    assert (H21 : (k2, v2) ∈ (k1, v1) :: m1) by (apply Hin; set_solver).
    apply elem_of_cons in H12 as [H12|H12]; [done|]. apply elem_of_cons in H21 as [H21|H21]; [done|].
    specialize (Hf _ H21). specialize (Hf2 _ H12). unfold bt_lt in *. simpl in *.
    pose proof (key_cmp_lt_trans _ _ _ Hf Hf2) as Hx. by rewrite key_cmp_refl in Hx. }
  injection E as <- <-. f_equal. apply IH; [done|]. intros kv. specialize (Hin kv).
  assert (Hself : forall m : list (string * Json), (forall x, x ∈ m -> bt_lt (k1, v1) x) -> (k1, v1) ∉ m).
  { intros m Hm Hx. specialize (Hm _ Hx). unfold bt_lt in Hm. by rewrite key_cmp_refl in Hm. }
  pose proof (Hself _ Hf). pose proof (Hself _ Hf2). set_solver.
Qed.

Lemma bt_filter_get (f : string -> bool) (m : BTreeMap string Json) k :
  bt_wf m ->
  bt_get k (bt_collect (List.filter (fun kv => f kv.1) m)) = if f k then bt_get k m else None.
Proof.
  intros Hm. unfold bt_collect. rewrite obj_acc by constructor. simpl.
  rewrite <- (find_first_get m k) by done.
  induction m as [|[k' v] m IH]; simpl; [by destruct (f k)|].
  inversion Hm as [|? ? Hs Hf]; subst. specialize (IH Hs).
  destruct (String.eqb_spec k k') as [->|Hne].
  - destruct (f k') eqn:Efk; simpl; [|by rewrite IH].
    rewrite String.eqb_refl. rewrite find_first_get in IH by done.
    assert (Hnone : bt_get k' m = None).
    { eapply bt_get_below; [exact Hm|]. by rewrite key_cmp_refl. }
    rewrite Hnone in IH. by destruct (find_last _ _).
  - destruct (f k') eqn:Efk; simpl; [|exact IH].
    destruct (String.eqb_spec k k') as [->|_]; [done|].
    by destruct (find_last _ _).
Qed.
