(* ===== verification/OpenaiChat.v ===== *)
(** * OpenAI Chat Completions

    [crates/sb-protocols/src/openai.rs]: client bodies to canonical requests and
    canonical responses to client bodies, the same for upstreams in the other
    direction, and the encoder and decoder of streams. JSON text, the clock and
    fresh identifiers are parameters. *)

From Stdlib Require Import ZArith Lia.
From stdpp Require Import base list strings option gmap.
From S2P Require Import Prelude Text Lines BTree Float Ir Target Value.

#[local] Open Scope Z_scope.
#[local] Open Scope switchback_scope.

(** ** Usage *)

Definition parse_energy_usage (value : option Json) : option EnergyUsage :=
  v ← (value ≫= (fun v => JObject <$> as_object v));
  let energy := mkEnergyUsage (get_f64 "energy_joules" v) (get_f64 "energy_kwh" v)
    (get_f64 "duration_seconds" v) (get_bool "measurement_available" v)
    (get_str "attribution_method" v) (get_f64 "energy_kwh_consumed" v)
    (get_f64 "energy_kwh_charged" v) (get_str "accounting_method" v)
    (get_f64 "total_cost_usd" v) in
  if has_measured_energy energy || opt_is_some (duration_seconds energy)
     || opt_is_some (measurement_available energy) || opt_is_some (attribution_method energy)
     || opt_is_some (accounting_method energy) || opt_is_some (total_cost_usd energy)
  then Some energy else None.

(** The derived serialization: absent fields are skipped. *)
Definition energy_usage_json (e : EnergyUsage) : Json :=
  put_opt "energy_joules" (f64_value <$> energy_joules e)
  (put_opt "energy_kwh" (f64_value <$> energy_kwh e)
  (put_opt "duration_seconds" (f64_value <$> duration_seconds e)
  (put_opt "measurement_available" (JBool <$> measurement_available e)
  (put_opt "attribution_method" (JString <$> attribution_method e)
  (put_opt "energy_kwh_consumed" (f64_value <$> energy_kwh_consumed e)
  (put_opt "energy_kwh_charged" (f64_value <$> energy_kwh_charged e)
  (put_opt "accounting_method" (JString <$> accounting_method e)
  (put_opt "total_cost_usd" (f64_value <$> total_cost_usd e) (obj []))))))))).

(** [Usage::total]. *)
Definition usage_total (u : Usage) : Z := wrap64 (input_tokens u + output_tokens u).

Definition openai_usage_json (u : Usage) : Json :=
  put_opt "energy" (energy_usage_json <$> usage_energy u)
    (obj [("prompt_tokens", JInt (input_tokens u)); ("completion_tokens", JInt (output_tokens u));
          ("total_tokens", JInt (usage_total u))]).

(** The usage a response or a chunk reports. *)
Definition parse_openai_usage (body : Json) : Usage :=
  let usage := get_object "usage" body in
  mkUsage (default 0 (usage ≫= get_u64 "prompt_tokens")) (default 0 (usage ≫= get_u64 "completion_tokens"))
    0 0
    (or_else (parse_energy_usage (get "energy" body))
             (parse_energy_usage (usage ≫= get "energy"))).

(** ** Content *)

Definition split_data_url (url : string) : option (string * string) :=
  rest ← strip_prefix "data:" url;
  '(media_type, data) ← split_once ";base64," rest;
  if is_empty media_type || is_empty data then None else Some (media_type, data).

Definition parse_image_detail (value : option string) : result (option ImageDetail) string :=
  match value with
  | None => Ok None
  | Some v => let? d := image_detail_parse v in Ok (Some d)
  end.

Definition image_from_url (url : string) (detail : option ImageDetail) : ContentPart :=
  Image match split_data_url url with
        | Some (media_type, data) => InlineBase64 media_type data
        | None => RemoteUrl url
        end detail.

Definition parse_openai_part (part : Json) : result ContentPart string :=
  match get_str "type" part with
  | None => Err "message content part missing string `type`"
  | Some kind =>
      if str_eqb kind "text" then
        let? text := ok_or (get_str "text" part) "message text part missing string `text`" in
        Ok (Text text)
      else if str_eqb kind "image_url" then
        let? image_url := ok_or (get "image_url" part) "OpenAI image_url part missing `image_url`" in
        let? detail := parse_image_detail (or_else (get "detail" image_url) (get "detail" part) ≫= as_str) in
        let? url := match image_url with
          | JString url => Ok url
          | JObject _ => ok_or (get_str "url" image_url)
                           "OpenAI image_url part missing string `image_url.url`"
          | _ => Err "OpenAI image_url part must be a string or object"
          end in
        Ok (image_from_url url detail)
      else Err ("unsupported OpenAI content part `" ^^ kind ^^ "`")
  end.

Definition parse_openai_content_parts (content : option Json) : result (list ContentPart) string :=
  match content with
  | None | Some JNull => Ok []
  | Some (JString text) => Ok [Text text]
  | Some (JArray parts) => try_map parse_openai_part parts
  | Some _ => Err "message content must be a string, null, or array"
  end.

Definition content_parts_to_text (parts : list ContentPart) : string :=
  join EmptyString (omap (fun p => match p with Text t => Some t | _ => None end) parts).

Definition reject_image_parts (parts : list ContentPart) (where_ : string) : result unit string :=
  if existsb is_image parts then Err (where_ ^^ " cannot contain image content") else Ok tt.

Definition parse_text_content (content : option Json) : result string string :=
  let? parts := parse_openai_content_parts content in
  let? _ := reject_image_parts parts "OpenAI non-user messages" in
  Ok (content_parts_to_text parts).

Definition finish_reason_to_openai (r : FinishReason) : string :=
  match r with
  | Stop => "stop"
  | Length => "length"
  | ToolCalls => "tool_calls"
  | ContentFilter => "content_filter"
  | FinishError => "stop"
  end.

Definition finish_reason_from_openai (reason : option string) : FinishReason :=
  match reason with
  | None => Stop
  | Some r =>
      if str_eqb r "stop" then Stop
      else if str_eqb r "length" then Length
      else if str_eqb r "tool_calls" then ToolCalls
      else if str_eqb r "content_filter" then ContentFilter
      else if str_eqb r "error" then FinishError
      else Stop
  end.

Definition role_to_openai (role : Role) : string :=
  match role with
  | RoleSystem => "system"
  | RoleUser => "user"
  | RoleAssistant => "assistant"
  | RoleTool => "tool"
  end.

Definition image_to_openai_url (source : ImageSource) : result string string :=
  let? _ := image_source_validate source in
  match source with
  | InlineBase64 media_type data => Ok ("data:" ^^ media_type ^^ ";base64," ^^ data)
  | RemoteUrl url => Ok url
  | ProviderFileRef _ _ =>
      Err "OpenAI Chat Completions cannot encode provider file image references"
  end.

(** The wire parts of one part: at most one. *)
Definition part_to_openai (p : ContentPart) : result (list Json) string :=
  match p with
  | Text text =>
      Ok (if is_empty text then [] else [obj [("type", JString "text"); ("text", JString text)]])
  | Image source detail =>
      let? url := image_to_openai_url source in
      Ok [obj [("type", JString "image_url");
               ("image_url", put_opt "detail" (JString ∘ image_detail_as_str <$> detail)
                               (obj [("url", JString url)]))]]
  | _ => Ok []
  end.

Definition content_parts_to_openai_message_content (parts : list ContentPart) : result Json string :=
  if negb (existsb is_image parts) then Ok (JString (content_parts_to_text parts))
  else let? content := try_map part_to_openai parts in Ok (JArray (mjoin content)).

Section Chat.
Context (parse_json : string -> option Json) (print_json : Json -> string).

Definition parse_tool_args (arguments : string) : Json :=
  default (JString arguments) (parse_json arguments).

(** ** Client requests *)

Definition parse_openai_tool_call (tool_call : Json) : result ContentPart string :=
  let? id := ok_or (get_str "id" tool_call) "tool call missing string `id`" in
  let? function := ok_or (get_object "function" tool_call) "tool call missing object `function`" in
  let? name := ok_or (get_str "name" function) "tool call missing string `function.name`" in
  let? arguments := ok_or (get_str "arguments" function) "tool call missing string `function.arguments`" in
  Ok (ToolUse id name (parse_tool_args arguments)).

(** Text, then tool calls: the content of an assistant message. *)
Definition parse_openai_assistant (message : Json) (not_array : string)
  : result (list ContentPart) string :=
  let? text := parse_text_content (get "content" message) in
  let content := if is_empty text then [] else [Text text] in
  match get "tool_calls" message with
  | None => Ok content
  | Some tool_calls =>
      let? tool_calls := ok_or (as_array tool_calls) not_array in
      let? calls := try_map parse_openai_tool_call tool_calls in
      Ok (content ++ calls)
  end.

(** A message is a chunk of the system prompt or a message of the request. *)
Definition parse_openai_message (message : Json) : result (string + Message) string :=
  let? role := ok_or (get_str "role" message) "message missing string `role`" in
  if str_eqb role "system" || str_eqb role "developer" then
    let? system := parse_text_content (get "content" message) in Ok (inl system)
  else if str_eqb role "user" then
    let? content := parse_openai_content_parts (get "content" message) in
    Ok (inr (mkMessage RoleUser content None))
  else if str_eqb role "assistant" then
    let? content := parse_openai_assistant message "`tool_calls` must be an array" in
    Ok (inr (mkMessage RoleAssistant content None))
  else if str_eqb role "tool" then
    let? tool_use_id := ok_or (get_str "tool_call_id" message)
                          "tool message missing string `tool_call_id`" in
    let? content := parse_text_content (get "content" message) in
    Ok (inr (mkMessage RoleTool [ToolResult tool_use_id content [] false] None))
  else Err ("unsupported message role `" ^^ role ^^ "`").

Definition system_of (m : string + Message) : option string :=
  match m with inl s => if is_empty s then None else Some s | inr _ => None end.

Definition message_of (m : string + Message) : option Message :=
  match m with inl _ => None | inr m => Some m end.

(** Tools of another type than a function are skipped. *)
Definition parse_openai_tool (tool : Json) : result (list ToolSpec) string :=
  if negb (bool_decide (get_str "type" tool = Some "function")) then Ok []
  else
    let? function := ok_or (get_object "function" tool) "tool missing object `function`" in
    let? name := ok_or (get_str "name" function) "tool missing string `function.name`" in
    Ok [mkToolSpec name (get_str "description" function) (default JNull (get "parameters" function))
          false].

Definition parse_openai_tools (tools : option Json) : result (list ToolSpec) string :=
  match tools with
  | None => Ok []
  | Some tools =>
      let? tools := ok_or (as_array tools) "`tools` must be an array" in
      let? specs := try_map parse_openai_tool tools in
      Ok (mjoin specs)
  end.

Definition parse_response_format (format : option Json) : result (option ResponseFormat) string :=
  match format with
  | None => Ok None
  | Some format =>
      match get_str "type" format with
      | None => Ok None
      | Some kind =>
          if str_eqb kind "text" then Ok (Some RfText)
          else if str_eqb kind "json_object" then Ok (Some RfJsonObject)
          else if str_eqb kind "json_schema" then
            let? schema := ok_or (get_object "json_schema" format)
                             "response_format.json_schema must be an object" in
            let? name := ok_or (get_str "name" schema) "response_format.json_schema.name missing" in
            Ok (Some (RfJsonSchema name (default JNull (get "schema" schema))
                        (default false (get_bool "strict" schema))))
          else Ok None
      end
  end.

Definition MODELED_KEYS : list string :=
  ["model"; "messages"; "tools"; "response_format"; "stream"; "temperature"; "max_tokens";
   "max_completion_tokens"].

Definition modeled (key : string) : bool := existsb (String.eqb key) MODELED_KEYS.

(** The parameters without a field of their own. *)
Definition unmodeled (body : Json) : BTreeMap string Json :=
  bt_collect (List.filter (fun kv => negb (modeled kv.1)) (default [] (as_object body))).

Definition parse_max_tokens (body : Json) : option Z :=
  or_else (get_u64 "max_completion_tokens" body) (get_u64 "max_tokens" body) ≫= to_u32.

Definition request_from_openai_chat (fresh_id : string) (body : Json) : result AiRequest string :=
  let? model := ok_or (get_str "model" body) "missing or invalid `model`" in
  let? messages := ok_or (get_array "messages" body) "missing or invalid `messages`" in
  let? parsed := try_map parse_openai_message messages in
  let system := match omap system_of parsed with
    | [] => None
    | chunks => Some (join nl chunks)
    end in
  let? tools := parse_openai_tools (get "tools" body) in
  let? response_format := parse_response_format (get "response_format" body) in
  Ok (mkAiRequest fresh_id model system (omap message_of parsed) tools [] response_format
        (default false (get_bool "stream" body)) (parse_max_tokens body)
        (f32_of_f64 <$> get_f64 "temperature" body) PriorityNormal Standard [] None None
        (unmodeled body) [] None None).

(** ** Client responses *)

Definition tool_call_json (p : ContentPart) : option Json :=
  match p with
  | ToolUse id name args =>
      Some (obj [("id", JString id); ("type", JString "function");
                 ("function", obj [("name", JString name);
                                   ("arguments", JString (print_json args))])])
  | _ => None
  end.

Definition response_to_openai_chat (now : Z) (resp : AiResponse) : Json :=
  let parts := msg_content (resp_message resp) in
  let content := content_parts_to_text parts in
  let tool_calls := omap tool_call_json parts in
  let message := put_opt "tool_calls" (if list_empty tool_calls then None else Some (JArray tool_calls))
    (obj [("role", JString "assistant");
          ("content", if is_empty content then JNull else JString content)]) in
  put_opt "energy" (energy_usage_json <$> usage_energy (resp_usage resp))
    (obj [("id", JString (resp_id resp)); ("object", JString "chat.completion");
          ("created", JInt now); ("model", JString (resp_model resp));
          ("choices", JArray [obj [("index", JInt 0); ("message", message);
             ("finish_reason", JString (finish_reason_to_openai (resp_finish_reason resp)))]]);
          ("usage", openai_usage_json (resp_usage resp))]).

(** ** Client streams *)

Record OpenAiStreamEncoder := mkOpenAiStreamEncoder {
  oe_id : string;
  oe_model : string;
  oe_created : Z;
  oe_message_started : bool
}.

Definition OpenAiStreamEncoder_new (now : Z) (id model : string) : OpenAiStreamEncoder :=
  mkOpenAiStreamEncoder id model now false.

(** The JSON of a chunk. *)
Definition openai_chunk (e : OpenAiStreamEncoder) (choices : Json) (usage : option Json) : Json :=
  put_opt "usage" usage
    (obj [("id", JString (oe_id e)); ("object", JString "chat.completion.chunk");
          ("created", JInt (oe_created e)); ("model", JString (oe_model e)); ("choices", choices)]).

Definition one_choice (delta finish : Json) : Json :=
  JArray [obj [("index", JInt 0); ("delta", delta); ("finish_reason", finish)]].

(** What an event is on the wire: at most one chunk. *)
Definition openai_encode_chunk (e : OpenAiStreamEncoder) (ev : AiStreamEvent)
  : OpenAiStreamEncoder * option Json :=
  let started := mkOpenAiStreamEncoder (oe_id e) (oe_model e) (oe_created e) true in
  match ev with
  | EvMessageStart _ _ =>
      if oe_message_started e then (e, None)
      else (started, Some (openai_chunk started (one_choice (obj [("role", JString "assistant")]) JNull) None))
  | EvOutputImage _ _ | EvCitation _ _ | EvServerToolCall _ _ _ => (e, None)
  | EvTextDelta text => (e, Some (openai_chunk e (one_choice (obj [("content", JString text)]) JNull) None))
  | EvToolCallStart index id name =>
      (e, Some (openai_chunk e (one_choice (obj [("tool_calls", JArray [
         obj [("index", JInt index); ("id", JString id); ("type", JString "function");
              ("function", obj [("name", JString name); ("arguments", JString "")])]])]) JNull) None))
  | EvToolCallArgsDelta index json =>
      (e, Some (openai_chunk e (one_choice (obj [("tool_calls", JArray [
         obj [("index", JInt index); ("function", obj [("arguments", JString json)])]])]) JNull) None))
  | EvToolCallEnd _ => (e, None)
  | EvUsageDelta usage => (e, Some (openai_chunk e (JArray []) (Some (openai_usage_json usage))))
  | EvReasoningDelta _ => (e, None)
  | EvMessageEnd finish_reason =>
      (e, Some (openai_chunk e (one_choice (obj []) (JString (finish_reason_to_openai finish_reason))) None))
  | EvError _ _ => (e, None)
  end.

(** A frame of server-sent events. *)
Definition sse_frame (data : string) : string := "data: " ^^ data ^^ nl ^^ nl.

Definition openai_encode (e : OpenAiStreamEncoder) (ev : AiStreamEvent) : OpenAiStreamEncoder * list string :=
  let '(e, value) := openai_encode_chunk e ev in
  (e, match value with Some v => [sse_frame (print_json v)] | None => [] end).

Definition openai_done : string := sse_frame "[DONE]".

(** ** Upstream requests *)

Definition tool_message_json (p : ContentPart) : result (list Json) string :=
  match p with
  | ToolResult tool_use_id content _ _ =>
      Ok [obj [("role", JString "tool"); ("tool_call_id", JString tool_use_id);
               ("content", JString content)]]
  | Text text => Ok [obj [("role", JString "tool"); ("content", JString text)]]
  | Image _ _ => Err "OpenAI Chat cannot encode image content in tool messages"
  | _ => Ok []
  end.

Definition message_to_openai (m : Message) : result (list Json) string :=
  match msg_role m with
  | RoleTool => let? parts := try_map tool_message_json (msg_content m) in Ok (mjoin parts)
  | RoleAssistant =>
      let? _ := reject_image_parts (msg_content m) "OpenAI assistant messages" in
      let text := content_parts_to_text (msg_content m) in
      let tool_calls := omap tool_call_json (msg_content m) in
      Ok [if list_empty tool_calls
          then obj [("role", JString "assistant"); ("content", JString text)]
          else obj [("role", JString "assistant");
                    ("content", if is_empty text then JNull else JString text);
                    ("tool_calls", JArray tool_calls)]]
  | RoleSystem =>
      let? _ := reject_image_parts (msg_content m) "OpenAI system messages" in
      let? content := content_parts_to_openai_message_content (msg_content m) in
      Ok [obj [("role", JString "system"); ("content", content)]]
  | RoleUser =>
      let? content := content_parts_to_openai_message_content (msg_content m) in
      Ok [obj [("role", JString "user"); ("content", content)]]
  end.

Definition tool_to_openai (t : ToolSpec) : Json :=
  obj [("type", JString "function");
       ("function", put_opt "description" (JString <$> tool_description t)
          (obj [("name", JString (tool_name t)); ("parameters", tool_parameters t)]))].

Definition response_format_json (f : ResponseFormat) : Json :=
  match f with
  | RfText => obj [("type", JString "text")]
  | RfJsonObject => obj [("type", JString "json_object")]
  | RfJsonSchema name schema strict =>
      obj [("type", JString "json_schema");
           ("json_schema", obj [("name", JString name); ("schema", schema); ("strict", JBool strict)])]
  end.

Definition request_to_openai_wire (req : AiRequest) (upstream_model : string) (stream : bool)
  : result Json string :=
  let? _ := validate_canonical req in
  let system := match req_system req with
    | Some s => [obj [("role", JString "system"); ("content", JString s)]]
    | None => []
    end in
  let? messages := try_map message_to_openai (req_messages req) in
  Ok (put_missing (req_passthrough req)
     (put_opt "response_format" (response_format_json <$> req_response_format req)
     (put_opt "tools" (match req_tools req with
                       | [] => None
                       | tools => Some (JArray (tool_to_openai <$> tools))
                       end)
     (put_opt "temperature" (req_temperature req ≫= (fun t => number_from_f64 (f64_of_f32 t)))
     (put_opt "max_tokens" (JInt <$> req_max_output_tokens req)
     (obj [("model", JString upstream_model); ("messages", JArray (system ++ mjoin messages));
           ("stream", JBool stream)])))))).

(** ** Upstream responses *)

Definition parse_openai_chat_response (fresh_id : string) (body : Json) : result AiResponse string :=
  let? choice := ok_or (get_array "choices" body ≫= head) "missing `choices[0]`" in
  let? message := ok_or (get_object "message" choice) "missing object `choices[0].message`" in
  let? content := parse_openai_assistant message "`choices[0].message.tool_calls` must be an array" in
  Ok (mkAiResponse (default fresh_id (get_str "id" body)) (default EmptyString (get_str "model" body))
        (mkMessage RoleAssistant content None)
        (finish_reason_from_openai (get_str "finish_reason" choice)) (parse_openai_usage body)).

End Chat.

(** ** Upstream streams *)

Record OpenAiStreamDecoder := mkOpenAiStreamDecoder {
  od_started : bool;
  od_ended : bool;
  od_seen_tool_calls : gset Z
}.

Definition OpenAiStreamDecoder_new : OpenAiStreamDecoder := mkOpenAiStreamDecoder false false ∅.

(** The events of the tool calls of a chunk, with the indices opened so far. *)
Fixpoint decode_tool_calls (seen : gset Z) (calls : list Json) : gset Z * list AiStreamEvent :=
  match calls with
  | [] => (seen, [])
  | tool_call :: calls =>
      let index := default 0 (get_u64 "index" tool_call ≫= to_u32) in
      let start :=
        if bool_decide (index ∈ seen) then []
        else [EvToolCallStart index (default EmptyString (get_str "id" tool_call))
                (default EmptyString (get_object "function" tool_call ≫= get_str "name"))] in
      let args := match get_object "function" tool_call ≫= get_str "arguments" with
        | Some arguments => [EvToolCallArgsDelta index arguments]
        | None => []
        end in
      let '(seen, events) := decode_tool_calls ({[index]} ∪ seen) calls in
      (seen, start ++ args ++ events)
  end.

Definition decode_choice (d : OpenAiStreamDecoder) (choice : Json)
  : OpenAiStreamDecoder * list AiStreamEvent :=
  let text := match get_object "delta" choice ≫= get_str "content" with
    | Some content => if is_empty content then [] else [EvTextDelta content]
    | None => []
    end in
  let '(seen, calls) := match get_object "delta" choice ≫= get_array "tool_calls" with
    | Some tool_calls => decode_tool_calls (od_seen_tool_calls d) tool_calls
    | None => (od_seen_tool_calls d, [])
    end in
  let finished := negb (is_null (default JNull (get "finish_reason" choice))) in
  (mkOpenAiStreamDecoder (od_started d) (finished || od_ended d) seen,
   text ++ calls
   ++ if finished then [EvMessageEnd (finish_reason_from_openai (get_str "finish_reason" choice))]
      else []).

Definition openai_decode (d : OpenAiStreamDecoder) (chunk_json : Json)
  : OpenAiStreamDecoder * list AiStreamEvent :=
  let start := if od_started d then []
    else [EvMessageStart (default EmptyString (get_str "id" chunk_json))
            (default EmptyString (get_str "model" chunk_json))] in
  let d := mkOpenAiStreamDecoder true (od_ended d) (od_seen_tool_calls d) in
  let usage := parse_openai_usage chunk_json in
  let metered := if opt_is_some (get_object "usage" chunk_json) || opt_is_some (usage_energy usage)
    then [EvUsageDelta usage] else [] in
  match get_array "choices" chunk_json ≫= head with
  | None => (d, start ++ metered)
  | Some choice =>
      let '(d, events) := decode_choice d choice in (d, start ++ metered ++ events)
  end.

Definition openai_finish (d : OpenAiStreamDecoder) : OpenAiStreamDecoder * list AiStreamEvent :=
  if od_started d && negb (od_ended d)
  then (mkOpenAiStreamDecoder true true (od_seen_tool_calls d), [EvMessageEnd Stop])
  else (d, []).
