(* ===== verification/OpenaiTheorems.v ===== *)
(** * OpenAI Chat Completions: theorems

    What survives the wire format: a rendered response is parsed back as its chat
    view, a relayed request reaches the upstream as it was understood, and a
    streamed response is assembled by its reader to what was collected here. *)

From Stdlib Require Import ZArith Lia.
From stdpp Require Import base list strings option gmap.
From S2P Require Import Prelude Text Lines BTree Float Ir Target Collect StreamTheorems Value OpenaiChat.

#[local] Open Scope Z_scope.
#[local] Open Scope switchback_scope.

#[local] Arguments finish_reason_from_openai : simpl never.
#[local] Arguments openai_decode : simpl never.
#[local] Arguments openai_chunk : simpl never.
#[local] Arguments one_choice : simpl never.
#[local] Arguments decode_choice : simpl never.

(** ** Usage *)

Definition finite_opt (x : option f64) : bool := match x with Some x => is_finite x | None => true end.

(** Doubles JSON can carry, and something to report. *)
Definition energy_ok (e : EnergyUsage) : bool :=
  forallb finite_opt [energy_joules e; energy_kwh e; duration_seconds e; energy_kwh_consumed e;
                      energy_kwh_charged e; total_cost_usd e]
  && (has_measured_energy e || opt_is_some (duration_seconds e)
      || opt_is_some (measurement_available e) || opt_is_some (attribution_method e)
      || opt_is_some (accounting_method e) || opt_is_some (total_cost_usd e)).

Definition in_u64b (n : Z) : bool := (0 <=? n) && (n <=? u64_max).

Definition usage_ok (u : Usage) : bool :=
  in_u64b (input_tokens u) && in_u64b (output_tokens u)
  && match usage_energy u with Some e => energy_ok e | None => true end.

Lemma f64_value_finite x : finite_opt x = true -> (f64_value <$> x) ≫= as_f64 = x.
Proof. destruct x as [x|]; [|done]. simpl. unfold f64_value, number_from_f64. by intros ->. Qed.

Lemma parse_energy_json e :
  energy_ok e = true -> parse_energy_usage (Some (energy_usage_json e)) = Some e.
Proof.
  unfold energy_ok. intros [Hf Hr]%andb_prop. simpl in Hf. bool_hyps.
  unfold parse_energy_usage.
  assert (Ho : JObject <$> as_object (energy_usage_json e) = Some (energy_usage_json e)).
  { assert (Hobj : is_obj (energy_usage_json e)) by (unfold energy_usage_json; auto 12 with json).
    by destruct Hobj as (m & -> & _). }
  simpl. rewrite Ho. simpl. unfold get_f64, get_bool, get_str, energy_usage_json.
  json_get.
  assert (Hb : (JBool <$> measurement_available e) ≫= as_bool = measurement_available e)
    by (by destruct (measurement_available e)).
  assert (Hs1 : (JString <$> attribution_method e) ≫= as_str = attribution_method e)
    by (by destruct (attribution_method e)).
  assert (Hs2 : (JString <$> accounting_method e) ≫= as_str = accounting_method e)
    by (by destruct (accounting_method e)).
  rewrite !or_else_none, !f64_value_finite, Hb, Hs1, Hs2 by done.
  destruct e; simpl in *. by rewrite Hr.
Qed.

(** What the chat format reports of the usage. *)
Definition chat_usage (u : Usage) : Usage := mkUsage (input_tokens u) (output_tokens u) 0 0 (usage_energy u).

Lemma get_object_value k v w : get k v = Some w -> is_obj w -> get_object k v = Some w.
Proof. intros H (m & -> & _). unfold get_object. by rewrite H. Qed.

Lemma get_object_none k v : get k v = None -> get_object k v = None.
Proof. unfold get_object. by intros ->. Qed.

Lemma is_obj_usage u : is_obj (openai_usage_json u).
Proof. unfold openai_usage_json. auto with json. Qed.

Lemma is_obj_energy e : is_obj (energy_usage_json e).
Proof. unfold energy_usage_json. auto 12 with json. Qed.
#[local] Hint Resolve is_obj_usage is_obj_energy : json.

Lemma as_u64_int n : in_u64b n = true -> as_u64 (JInt n) = Some n.
Proof. unfold in_u64b, as_u64. by intros ->. Qed.

(** Any body with the usage of a response, and its energy or none besides. *)
Lemma parse_usage_json u body :
  usage_ok u = true -> get "usage" body = Some (openai_usage_json u) ->
  get "energy" body = energy_usage_json <$> usage_energy u \/ get "energy" body = None ->
  parse_openai_usage body = chat_usage u.
Proof.
  unfold usage_ok. intros [[Hi Ho]%andb_prop He]%andb_prop Hu Hb. unfold parse_openai_usage.
  rewrite (get_object_value _ _ _ Hu) by auto with json. simpl. unfold get_u64, openai_usage_json.
  json_get. rewrite !as_u64_int by done. simpl.
  rewrite or_else_none.
  unfold chat_usage. f_equal. destruct (usage_energy u) as [e|]; simpl in *.
  - rewrite (parse_energy_json e He). destruct Hb as [->| ->]; [|done]. by rewrite parse_energy_json.
  - by destruct Hb as [->| ->].
Qed.

(** ** Responses *)

Definition is_tool_use (p : ContentPart) : bool := match p with ToolUse _ _ _ => true | _ => false end.

(** The text first, then the tool calls. *)
Definition chat_content (parts : list ContentPart) : list ContentPart :=
  let text := content_parts_to_text parts in
  (if is_empty text then [] else [Text text]) ++ List.filter is_tool_use parts.

(** An error has no name of its own in the format. *)
Definition chat_finish (r : FinishReason) : FinishReason :=
  match r with FinishError => Stop | r => r end.

Definition chat_view (resp : AiResponse) : AiResponse :=
  mkAiResponse (resp_id resp) (resp_model resp)
    (mkMessage RoleAssistant (chat_content (msg_content (resp_message resp))) None)
    (chat_finish (resp_finish_reason resp)) (chat_usage (resp_usage resp)).

Lemma finish_reason_back r :
  finish_reason_from_openai (Some (finish_reason_to_openai r)) = chat_finish r.
Proof. by destruct r. Qed.

Section Chat.
Context (parse_json : string -> option Json) (print_json : Json -> string).

(** The arguments of a tool call can be printed and parsed. *)
Definition args_print (p : ContentPart) : Prop :=
  match p with ToolUse _ _ args => parse_json (print_json args) = Some args | _ => True end.

Lemma parse_tool_calls_json parts :
  Forall args_print parts ->
  try_map (parse_openai_tool_call parse_json) (omap (tool_call_json print_json) parts)
  = Ok (List.filter is_tool_use parts).
Proof.
  induction 1 as [|p parts Hp Hparts IH]; [done|]. destruct p; try exact IH.
  cbn [try_map omap list_omap tool_call_json List.filter is_tool_use].
  change (list_omap _ _ (tool_call_json print_json) parts) with (omap (tool_call_json print_json) parts).
  rewrite IH. unfold parse_openai_tool_call at 1. unfold get_str, get_object. json_get.
  unfold get_str. json_get. unfold parse_tool_args. by rewrite Hp.
Qed.

Lemma parse_text_string content text :
  content = Some (JString text) \/ (content = Some JNull /\ text = EmptyString) ->
  parse_text_content content = Ok text.
Proof. intros [->|[-> ->]]; done. Qed.

Lemma parse_assistant_json message parts not_array :
  Forall args_print parts ->
  get "content" message = Some (JString (content_parts_to_text parts))
  \/ (get "content" message = Some JNull /\ content_parts_to_text parts = EmptyString) ->
  (get "tool_calls" message = None /\ omap (tool_call_json print_json) parts = []
   \/ get "tool_calls" message = Some (JArray (omap (tool_call_json print_json) parts))) ->
  parse_openai_assistant parse_json message not_array = Ok (chat_content parts).
Proof.
  intros Hall Hc Ht. unfold parse_openai_assistant. rewrite (parse_text_string _ _ Hc). simpl.
  pose proof (parse_tool_calls_json parts Hall) as Hp. unfold chat_content.
  destruct Ht as [[-> Hn]| ->].
  - rewrite Hn in Hp. simpl in Hp. injection Hp as <-. by rewrite app_nil_r.
  - simpl. by rewrite Hp.
Qed.

Lemma text_or_null text :
  Some (if is_empty text then JNull else JString text) = Some (JString text)
  \/ (Some (if is_empty text then JNull else JString text) = Some JNull /\ text = EmptyString).
Proof. destruct text; [by right|by left]. Qed.

Lemma calls_or_none (calls : list Json) :
  (or_else (if list_empty calls then None else Some (JArray calls)) None = None /\ calls = [])
  \/ or_else (if list_empty calls then None else Some (JArray calls)) None = Some (JArray calls).
Proof. destruct calls; [by left|by right]. Qed.

(** A response rendered for a chat client and parsed as that of a
    chat upstream is its chat view: identifier, model, text, tool calls with their
    arguments, usage; the text is joined, and an error is a stop. *)
Theorem chat_response_roundtrip fresh now resp :
  usage_ok (resp_usage resp) = true -> Forall args_print (msg_content (resp_message resp)) ->
  parse_openai_chat_response parse_json fresh (response_to_openai_chat print_json now resp)
  = Ok (chat_view resp).
Proof.
  intros Hu Hargs. unfold parse_openai_chat_response, response_to_openai_chat. cbv zeta.
  unfold get_array, get_str. json_get.
  erewrite (get_object_value "message"); [|by json_get|by auto with json]. simpl.
  rewrite (parse_assistant_json _ (msg_content (resp_message resp))).
  - simpl. unfold chat_view. rewrite (parse_usage_json (resp_usage resp)); [|done| |].
    + by rewrite finish_reason_back.
    + by json_get.
    + left. json_get. by destruct (usage_energy (resp_usage resp)).
  - done.
  - json_get. apply text_or_null.
  - json_get. apply calls_or_none.
Qed.

End Chat.

(** ** Streams *)

(** The chunks a client gets for events, and the events a reader makes of chunks. *)
Fixpoint encode_values (e : OpenAiStreamEncoder) (evs : list AiStreamEvent) : list Json :=
  match evs with
  | [] => []
  | ev :: evs => let '(e, v) := openai_encode_chunk e ev in option_list v ++ encode_values e evs
  end.

Fixpoint decode_values (d : OpenAiStreamDecoder) (vs : list Json)
  : OpenAiStreamDecoder * list AiStreamEvent :=
  match vs with
  | [] => (d, [])
  | v :: vs =>
      let '(d, evs) := openai_decode d v in
      let '(d, more) := decode_values d vs in (d, evs ++ more)
  end.

Definition decode_stream (vs : list Json) : list AiStreamEvent :=
  let '(d, evs) := decode_values OpenAiStreamDecoder_new vs in evs ++ (openai_finish d).2.

(** Tool calls are opened once, before their arguments, under 32-bit indices, and
    usage can be written. *)
Fixpoint stream_wf (open : gset Z) (evs : list AiStreamEvent) : bool :=
  match evs with
  | [] => true
  | EvToolCallStart i _ _ :: evs =>
      (0 <=? i) && (i <=? u32_max) && negb (bool_decide (i ∈ open)) && stream_wf ({[i]} ∪ open) evs
  | EvToolCallArgsDelta i _ :: evs => bool_decide (i ∈ open) && stream_wf open evs
  | EvUsageDelta u :: evs => usage_ok u && stream_wf open evs
  | _ :: evs => stream_wf open evs
  end.

(** *** One chunk *)

(** The start that the first chunk announces. *)
Definition opening (d : OpenAiStreamDecoder) (e : OpenAiStreamEncoder) : list AiStreamEvent :=
  if od_started d then [] else [EvMessageStart (oe_id e) (oe_model e)].

Definition choice_json (delta finish : Json) : Json :=
  obj [("index", JInt 0); ("delta", delta); ("finish_reason", finish)].

Lemma decode_chunk d e delta finish :
  openai_decode d (openai_chunk e (one_choice delta finish) None)
  = let '(d', evs) := decode_choice (mkOpenAiStreamDecoder true (od_ended d) (od_seen_tool_calls d))
                        (choice_json delta finish) in
    (d', opening d e ++ evs).
Proof.
  unfold openai_decode, parse_openai_usage.
  assert (Hu : get "usage" (openai_chunk e (one_choice delta finish) None) = None)
    by (unfold openai_chunk; by json_get).
  assert (He : get "energy" (openai_chunk e (one_choice delta finish) None) = None)
    by (unfold openai_chunk; by json_get).
  rewrite (get_object_none _ _ Hu), He. unfold openai_chunk, one_choice, get_array, get_str. json_get.
  fold (choice_json delta finish). by destruct (decode_choice _ _).
Qed.

Lemma decode_usage d e u :
  usage_ok u = true ->
  openai_decode d (openai_chunk e (JArray []) (Some (openai_usage_json u)))
  = (mkOpenAiStreamDecoder true (od_ended d) (od_seen_tool_calls d),
     opening d e ++ [EvUsageDelta (chat_usage u)]).
Proof.
  intros Hu. unfold openai_decode.
  rewrite (parse_usage_json u) by (done || (try right); unfold openai_chunk; by json_get).
  rewrite (get_object_value "usage" _ (openai_usage_json u))
    by (done || auto with json || (unfold openai_chunk; by json_get)).
  unfold openai_chunk, get_array, get_str. json_get. done.
Qed.

Lemma delta_object delta finish : is_obj delta -> get_object "delta" (choice_json delta finish) = Some delta.
Proof. intros H. apply get_object_value; [|done]. unfold choice_json. by json_get. Qed.

Lemma decode_choice_json d delta finish :
  is_obj delta ->
  decode_choice d (choice_json delta finish)
  = let text := match get_str "content" delta with
      | Some content => if is_empty content then [] else [EvTextDelta content]
      | None => []
      end in
    let '(seen, calls) := match get_array "tool_calls" delta with
      | Some tool_calls => decode_tool_calls (od_seen_tool_calls d) tool_calls
      | None => (od_seen_tool_calls d, [])
      end in
    (mkOpenAiStreamDecoder (od_started d) (negb (is_null finish) || od_ended d) seen,
     text ++ calls
     ++ if negb (is_null finish) then [EvMessageEnd (finish_reason_from_openai (as_str finish))] else []).
Proof.
  intros H. unfold decode_choice. rewrite !delta_object by done. simpl.
  assert (Hf : get "finish_reason" (choice_json delta finish) = Some finish)
    by (unfold choice_json; by json_get).
  unfold get_str at 2. rewrite !Hf. done.
Qed.

Lemma index_back i : 0 <= i <= u32_max -> as_u64 (JInt i) ≫= to_u32 = Some i.
Proof.
  intros H. unfold u32_max in H. rewrite as_u64_int.
  - simpl. unfold to_u32, u32_max. destruct (Z.leb_spec 0 i), (Z.leb_spec i (2 ^ 32 - 1)); simpl; done || lia.
  - unfold in_u64b, u64_max. apply andb_true_intro. split; apply Z.leb_le; lia.
Qed.

(** The events a reader makes of one event. *)
Definition reread (open : gset Z) (ev : AiStreamEvent) : list AiStreamEvent :=
  match ev with
  | EvTextDelta t => if is_empty t then [] else [EvTextDelta t]
  | EvToolCallStart i id name => [EvToolCallStart i id name; EvToolCallArgsDelta i EmptyString]
  | EvToolCallArgsDelta i json => [EvToolCallArgsDelta i json]
  | EvUsageDelta u => [EvUsageDelta (chat_usage u)]
  | EvMessageEnd r => [EvMessageEnd (chat_finish r)]
  | _ => []
  end.

Definition opened (open : gset Z) (ev : AiStreamEvent) : gset Z :=
  match ev with EvToolCallStart i _ _ => {[i]} ∪ open | _ => open end.

Definition is_end (ev : AiStreamEvent) : bool := match ev with EvMessageEnd _ => true | _ => false end.

Definition indices_u32 (open : gset Z) : Prop := forall i, i ∈ open -> 0 <= i <= u32_max.

Lemma decode_single d v :
  decode_values d (option_list (Some v)) = let '(d, evs) := openai_decode d v in (d, evs ++ []).
Proof. done. Qed.

Lemma reread_event e d ev evs :
  stream_wf (od_seen_tool_calls d) (ev :: evs) = true -> indices_u32 (od_seen_tool_calls d) ->
  let '(e', v) := openai_encode_chunk e ev in
  let '(d', out) := decode_values d (option_list v) in
  oe_id e' = oe_id e /\ oe_model e' = oe_model e
  /\ od_seen_tool_calls d' = opened (od_seen_tool_calls d) ev
  /\ od_ended d' = is_end ev || od_ended d
  /\ (out = reread (od_seen_tool_calls d) ev
      \/ out = opening d e ++ reread (od_seen_tool_calls d) ev).
Proof.
  intros Hwf Hr. destruct ev;
    cbn [openai_encode_chunk opened reread is_end]; try (by split_and!; auto).
  - destruct (oe_message_started e); [by split_and!; auto|].
    rewrite decode_single, decode_chunk, decode_choice_json by auto with json. unfold get_str, get_array. json_get.
    split_and!; auto. right. by rewrite !app_nil_r.
  - rewrite decode_single, decode_chunk, decode_choice_json by auto with json. unfold get_str, get_array. json_get.
    split_and!; auto. right. by rewrite !app_nil_r.
  - simpl in Hwf. bool_hyps. apply bool_decide_eq_false in H1.
    rewrite decode_single, decode_chunk, decode_choice_json by auto with json. unfold get_str, get_array. json_get.
    unfold get_u64, get_str, get_object. json_get. unfold get_str. json_get.
    rewrite index_back by lia. simpl. rewrite bool_decide_eq_false_2 by done. simpl.
    split_and!; auto. right. by rewrite !app_nil_r.
  - simpl in Hwf. apply andb_prop in Hwf as [Hi%bool_decide_eq_true Hwf].
    rewrite decode_single, decode_chunk, decode_choice_json by auto with json. unfold get_str, get_array. json_get.
    unfold get_u64, get_str, get_object. json_get. unfold get_str. json_get.
    rewrite index_back by auto. simpl. rewrite bool_decide_eq_true_2 by done. simpl.
    split_and!; auto; [set_solver|]. right. by rewrite !app_nil_r.
  - simpl in Hwf. apply andb_prop in Hwf as [Hu Hwf]. rewrite decode_single, decode_usage by done. simpl.
    split_and!; auto. right. by rewrite app_nil_r.
  - rewrite decode_single, decode_chunk, decode_choice_json by auto with json. unfold get_str, get_array. json_get.
    rewrite finish_reason_back. split_and!; auto. right. by rewrite app_nil_r.
Qed.

(** *** Assembly *)

(** A reader of the wire and the collector here have assembled the same. *)
Record same_view (c c' : Collector) (open : gset Z) : Prop := {
  sv_content : c_content c' = c_content c;
  sv_others : c_reasoning c' = EmptyString /\ c_images c' = [] /\ c_citations c' = []
              /\ c_server_tools c' = [];
  sv_tool_uses : c_tool_uses c' = c_tool_uses c;
  sv_finish : default Stop (c_finish_reason c') = chat_finish (default Stop (c_finish_reason c));
  sv_usage : c_usage c' = chat_usage (c_usage c);
  sv_wf : bt_wf (c_tool_uses c);
  sv_open : forall i, i ∈ open -> is_Some (bt_get i (c_tool_uses c))
}.

Lemma bt_insert_twice {V} (m : BTreeMap Z V) k v v' : bt_insert k v (bt_insert k v' m) = bt_insert k v m.
Proof.
  induction m as [|[k0 v0] m IH]; simpl; [by rewrite key_cmp_refl|].
  destruct (key_cmp k k0) eqn:E; simpl; rewrite ?key_cmp_refl, ?E; [done|done|]. by rewrite IH.
Qed.

Lemma same_view_reread c c' open ev evs :
  item_error (Ok ev) = None -> stream_wf open (ev :: evs) = true -> same_view c c' open ->
  same_view (absorb c (Ok ev)) (fold_left absorb (Ok <$> reread open ev) c') (opened open ev)
  /\ stream_wf (opened open ev) evs = true.
Proof.
  intros He Hwf Hs. destruct Hs as [H1 H2 H3 H4 H5 H6 H7].
  destruct ev; simpl in He, Hwf; try done; simpl;
    try (split; [|done]; split; unfold absorb; simpl; done).
  - split; [|done]. destruct text as [|a text]; split; unfold absorb; simpl; rewrite ?append_nil_r; try done.
    by rewrite H1.
  - bool_hyps. split; [|done]. unfold absorb. simpl. unfold take_bytes. simpl.
    rewrite !bt_get_insert_eq. split; simpl; try done.
    + rewrite H3. by rewrite bt_insert_twice.
    + by apply bt_insert_wf.
    + intros i [->%elem_of_singleton|Hi]%elem_of_union; [rewrite bt_get_insert_eq; by eexists|].
      destruct (decide (i = index)) as [->|Hne]; [rewrite bt_get_insert_eq; by eexists|].
      rewrite bt_get_insert_ne by done. by apply H7.
  - apply andb_prop in Hwf as [Hi%bool_decide_eq_true Hwf]. split; [|done].
    unfold absorb. simpl. unfold take_bytes. simpl. rewrite H3.
    destruct (H7 _ Hi) as [[[id name] args] Hg]. rewrite Hg. split; simpl; try done.
    + by apply bt_insert_wf.
    + intros i Hx. destruct (decide (i = index)) as [->|Hne]; [rewrite bt_get_insert_eq; by eexists|].
      rewrite bt_get_insert_ne by done. by apply H7.
  - split; [|done]. unfold absorb. simpl. by destruct (str_eqb _ _); split.
  - apply andb_prop in Hwf as [Hu Hwf]. split; [|done]. split; unfold absorb; simpl; done.
Qed.

Lemma absorb_opening d e c : fold_left absorb (Ok <$> opening d e) c = c.
Proof. unfold opening. by destruct (od_started d). Qed.

Lemma reread_no_error open ev :
  item_error (Ok ev) = None -> Forall (fun i => item_error i = None) (Ok <$> reread open ev : EventStream).
Proof. destruct ev; simpl; intros H; repeat constructor. by destruct (is_empty text); repeat constructor. Qed.

Definition no_errors (evs : list AiStreamEvent) : Prop :=
  Forall (fun i => item_error i = None) (Ok <$> evs : EventStream).

(** A reader that has not seen the end of the message has no reason for it. *)
Definition end_agrees (d : OpenAiStreamDecoder) (c : Collector) : Prop :=
  od_ended d = false -> c_finish_reason c = None.

Lemma reread_finish open ev c :
  item_error (Ok ev) = None -> is_end ev = false ->
  c_finish_reason (fold_left absorb (Ok <$> reread open ev) c) = c_finish_reason c.
Proof.
  intros He Hn. destruct ev; simpl; try done; [by destruct (is_empty text)|..].
  - unfold absorb. simpl. unfold take_bytes. simpl. by rewrite bt_get_insert_eq.
  - unfold absorb. simpl. unfold take_bytes. simpl. by destruct (bt_get _ _) as [[[? ?] ?]|].
Qed.

Lemma decode_values_app d vs ws :
  decode_values d (vs ++ ws)
  = let '(d, out) := decode_values d vs in let '(d, more) := decode_values d ws in (d, out ++ more).
Proof.
  revert d. induction vs as [|v vs IH]; intros d; simpl; [by destruct (decode_values d ws)|].
  destruct (openai_decode d v) as [d1 o1]. rewrite IH. destruct (decode_values d1 vs) as [d2 o2].
  destruct (decode_values d2 ws) as [d3 o3]. by rewrite app_assoc.
Qed.

Lemma opening_no_error d e : no_errors (opening d e).
Proof. unfold opening, no_errors. destruct (od_started d); repeat constructor. Qed.

Lemma no_errors_app a b : no_errors a -> no_errors b -> no_errors (a ++ b).
Proof. unfold no_errors. rewrite fmap_app, Forall_app. done. Qed.

Lemma reread_stream evs : forall e d c c',
  no_errors evs -> stream_wf (od_seen_tool_calls d) evs = true -> indices_u32 (od_seen_tool_calls d) ->
  same_view c c' (od_seen_tool_calls d) -> end_agrees d c' ->
  let '(d', out) := decode_values d (encode_values e evs) in
  no_errors out
  /\ same_view (fold_left absorb (Ok <$> evs) c) (fold_left absorb (Ok <$> out) c') (od_seen_tool_calls d')
  /\ end_agrees d' (fold_left absorb (Ok <$> out) c').
Proof.
  induction evs as [|ev evs IH]; intros e d c c' Hne Hwf Hr Hs Hend; [by split_and!|].
  apply Forall_cons_1 in Hne as [He Hne]. cbn [encode_values].
  pose proof (reread_event e d ev evs Hwf Hr) as Hev.
  destruct (openai_encode_chunk e ev) as [e' v]. rewrite decode_values_app.
  destruct (decode_values d (option_list v)) as [d1 out]. destruct Hev as (_ & _ & Hseen & Hended & Hout).
  destruct (same_view_reread c c' _ ev evs He Hwf Hs) as [Hs1 Hwf1].
  assert (Hfold : no_errors out /\ fold_left absorb (Ok <$> out) c'
                  = fold_left absorb (Ok <$> reread (od_seen_tool_calls d) ev) c').
  { pose proof (reread_no_error (od_seen_tool_calls d) ev He). destruct Hout as [->| ->]; [done|].
    rewrite fmap_app, fold_left_app, absorb_opening. split; [|done].
    by apply no_errors_app; [apply opening_no_error|]. }
  destruct Hfold as [Hno Hfold]. rewrite <- Hfold, <- Hseen in Hs1. rewrite <- Hseen in Hwf1.
  specialize (IH e' d1 (absorb c (Ok ev)) (fold_left absorb (Ok <$> out) c') Hne Hwf1).
  destruct (decode_values d1 (encode_values e' evs)) as [d2 more]. cbn [fmap list_fmap fold_left].
  rewrite fmap_app, fold_left_app. destruct IH as (Hno2 & Hs2 & Hend2).
  - rewrite Hseen. destruct ev; simpl; try done. simpl in Hwf. bool_hyps.
    intros i [->%elem_of_singleton|Hi]%elem_of_union; [lia|by apply Hr].
  - done.
  - intros Hx. rewrite Hended in Hx. apply orb_false_elim in Hx as [Hn Hx].
    rewrite Hfold, reread_finish by done. by apply Hend.
  - split_and!; [by apply no_errors_app|done|done].
Qed.

(** ** What the client assembles *)

Lemma chat_content_parts parse c :
  Forall textless (c_images c ++ c_citations c ++ c_server_tools c) ->
  List.filter is_tool_use (c_images c ++ c_citations c ++ c_server_tools c) = [] ->
  chat_content (collector_parts parse c)
  = (if is_empty (c_content c) then [] else [Text (c_content c)])
    ++ (tool_use_part parse <$> (c_tool_uses c).*2).
Proof.
  intros Ht Hf. unfold chat_content.
  change (content_parts_to_text (collector_parts parse c))
    with (message_text (mkMessage RoleAssistant (collector_parts parse c) None)).
  rewrite collector_text by done. f_equal. unfold collector_parts.
  rewrite !List.filter_app in *. apply app_nil in Hf as [-> [-> ->]%app_nil].
  assert (Hx : List.filter is_tool_use (tool_use_part parse <$> (c_tool_uses c).*2)
               = tool_use_part parse <$> (c_tool_uses c).*2).
  { induction (c_tool_uses c) as [|[i [[id name] args]] l IH]; [done|]. simpl. by f_equal. }
  rewrite Hx. by destruct (is_empty (c_reasoning c)), (is_empty (c_content c)).
Qed.

Lemma absorb_toolless c i :
  List.filter is_tool_use (c_images c ++ c_citations c ++ c_server_tools c) = [] ->
  List.filter is_tool_use
    (c_images (absorb c i) ++ c_citations (absorb c i) ++ c_server_tools (absorb c i)) = [].
Proof.
  rewrite !List.filter_app. intros [H1 [H2 H3]%app_nil]%app_nil.
  destruct i as [[]|]; unfold absorb; simpl; rewrite ?List.filter_app; try (by rewrite H1, H2, H3);
    repeat case_match; simplify_eq/=; rewrite ?List.filter_app, ?H1, ?H2, ?H3; done.
Qed.

Lemma absorb_all_toolless s c :
  List.filter is_tool_use (c_images c ++ c_citations c ++ c_server_tools c) = [] ->
  List.filter is_tool_use
    (c_images (fold_left absorb s c) ++ c_citations (fold_left absorb s c)
     ++ c_server_tools (fold_left absorb s c)) = [].
Proof. revert c. induction s as [|i s IH]; intros c H; [done|]. simpl. by apply IH, absorb_toolless. Qed.

Lemma same_view_finish c c' open :
  same_view c c' open -> c_finish_reason c' = None -> same_view c (absorb c' (Ok (EvMessageEnd Stop))) open.
Proof. intros [] Hn. split; try done. unfold absorb. simpl. by rewrite Hn in *. Qed.

(** A chat client that assembles its stream gets what a client that
    does not stream is sent: if events are collected to a response, the chunks they
    are encoded as, decoded and collected, give its chat view. *)
Theorem chat_stream_roundtrip parse now id wire_model evs request_id model resp :
  stream_wf ∅ evs = true ->
  collect_response parse (Ok <$> evs) request_id model None = Ok resp ->
  collect_response parse
    (Ok <$> decode_stream (encode_values (OpenAiStreamEncoder_new now id wire_model) evs))
    request_id model None
  = Ok (chat_view resp).
Proof.
  intros Hwf Hc.
  assert (Hne : no_errors evs).
  { apply first_error_none. unfold collect_response in Hc.
    destruct (first_error (Ok <$> evs)) as [[p cl]|] eqn:E; [|done].
    by destruct (collect_loop_error None _ Collector_new _ _ E eq_refl) as (e & He & _); rewrite He in Hc. }
  pose proof (reread_stream evs (OpenAiStreamEncoder_new now id wire_model) OpenAiStreamDecoder_new
    Collector_new Collector_new Hne Hwf) as H.
  unfold decode_stream. destruct (decode_values _ _) as [d out].
  destruct H as (Hno & Hs & Hend); [by intros i Hi%not_elem_of_empty| |done|].
  { split; try done. constructor. }
  set (c := fold_left absorb (Ok <$> evs) Collector_new) in *.
  set (c' := fold_left absorb (Ok <$> out) Collector_new) in *.
  assert (Hfin : exists more, (openai_finish d).2 = more /\ no_errors more
                 /\ same_view c (fold_left absorb (Ok <$> more) c') (od_seen_tool_calls d)).
  { unfold openai_finish. destruct (od_started d), (od_ended d) eqn:Ed; simpl;
      eexists; (split; [done|]); (split; [repeat constructor|]); try done.
    apply same_view_finish; [done|]. by apply Hend. }
  destruct Hfin as (more & -> & Hmo & Hs'). clear Hs. rename Hs' into Hs.
  unfold collect_response in *.
  pose proof (collect_loop_spec None (Ok <$> evs) Collector_new Hne eq_refl) as Hl. simpl in Hl.
  rewrite Hl in Hc. simpl in Hc. injection Hc as <-.
  pose proof (collect_loop_spec None (Ok <$> (out ++ more)) Collector_new
    (no_errors_app _ _ Hno Hmo) eq_refl) as Hl'. simpl in Hl'. rewrite Hl'. simpl.
  rewrite fmap_app, fold_left_app. fold c c'. set (c2 := fold_left absorb (Ok <$> more) c') in *.
  destruct Hs as [H1 (H2 & H3 & H4 & H5) H6 H7 H8 _ _]. unfold chat_view. simpl.
  rewrite chat_content_parts; [|apply absorb_all_textless; constructor|by apply absorb_all_toolless].
  fold c. unfold collector_parts. rewrite H1, H2, H3, H4, H5, H6, H7, H8. done.
Qed.

(** ** Relaying chat requests

    A client's chat body becomes a canonical request and that becomes the body for
    an OpenAI-compatible upstream. Read again, the second body is the request that
    was understood from the first. *)

#[local] Open Scope Z_scope.
#[local] Open Scope switchback_scope.

#[local] Arguments parse_openai_assistant : simpl never.

(** ** The requests a chat body can express *)

Definition data_url (media_type data : string) : string := "data:" ^^ media_type ^^ ";base64," ^^ data.

(** Images that are read back from the address they are written as. *)
Definition chat_source (s : ImageSource) : Prop :=
  match s with
  | InlineBase64 media_type data => split_data_url (data_url media_type data) = Some (media_type, data)
  | RemoteUrl url => split_data_url url = None
  | ProviderFileRef _ _ => False
  end.

Definition chat_part (p : ContentPart) : Prop :=
  match p with Text _ => True | Image source _ => chat_source source | _ => False end.

Definition text_and_calls (text : string) (calls : list ContentPart) : list ContentPart :=
  (if is_empty text then [] else [Text text]) ++ calls.

Definition chat_message (m : Message) : Prop :=
  msg_cache_hint m = None /\
  match msg_role m with
  | RoleUser => Forall chat_part (msg_content m)
  | RoleAssistant => exists text calls, msg_content m = text_and_calls text calls
                       /\ Forall (fun p => is_tool_use p = true) calls
  | RoleTool => exists id content, msg_content m = [ToolResult id content [] false]
  | RoleSystem => False
  end.

Definition unmodeled_map (m : BTreeMap string Json) : Prop :=
  bt_wf m /\ forall k, modeled k = true -> bt_get k m = None.

Record chat_request (r : AiRequest) : Prop := {
  cr_system : match req_system r with Some s => s <> EmptyString | None => True end;
  cr_messages : Forall chat_message (req_messages r);
  cr_tools : Forall (fun t => tool_defer_loading t = false) (req_tools r);
  cr_max_tokens : match req_max_output_tokens r with Some n => 0 <= n <= u32_max | None => True end;
  cr_passthrough : unmodeled_map (req_passthrough r)
}.

(** ** What reading a body gives *)

Lemma let_ok {A B} (x : result A string) (f : A -> result B string) b :
  (let? a := x in f a) = Ok b -> exists a, x = Ok a /\ f a = Ok b.
Proof. destruct x; [|done]. intros H. eexists. by split. Qed.

Lemma ok_or_ok {A} (o : option A) e a : ok_or o e = Ok a -> o = Some a.
Proof. destruct o; [|done]. by intros [= ->]. Qed.

Lemma try_map_forall {A B} (f : A -> result B string) (P : B -> Prop) l ys :
  (forall x y, f x = Ok y -> P y) -> try_map f l = Ok ys -> Forall P ys.
Proof.
  intros Hf. revert ys. induction l as [|x l IH]; intros ys; simpl; [by intros [= <-]|].
  intros (y & Hy & (zs & Hz & [= <-])%let_ok)%let_ok. constructor; eauto.
Qed.

Lemma image_from_url_chat url detail : chat_part (image_from_url url detail).
Proof.
  unfold image_from_url. destruct (split_data_url url) as [[mt data]|] eqn:E; simpl; [|done].
  replace (data_url mt data) with url; [done|]. unfold split_data_url in E.
  destruct (strip_prefix "data:" url) as [rest|] eqn:Ep; [|done]. simpl in E.
  destruct (split_once ";base64," rest) as [[a b]|] eqn:Es; [|done]. simpl in E.
  destruct (is_empty a || is_empty b); [done|]. injection E as -> ->.
  apply strip_prefix_spec in Ep as ->. by apply split_once_spec in Es as ->.
Qed.

Lemma parse_part_chat j p : parse_openai_part j = Ok p -> chat_part p.
Proof.
  unfold parse_openai_part. destruct (get_str "type" j) as [kind|]; [|done].
  destruct (str_eqb kind "text").
  { by intros (t & _ & [= <-])%let_ok. }
  destruct (str_eqb kind "image_url"); [|done].
  intros (u & _ & (d & _ & (url & _ & [= <-])%let_ok)%let_ok)%let_ok. apply image_from_url_chat.
Qed.

Lemma parse_content_chat content parts :
  parse_openai_content_parts content = Ok parts -> Forall chat_part parts.
Proof.
  destruct content as [[]|]; simpl; try done; try (by intros [= <-]; repeat constructor).
  apply try_map_forall. apply parse_part_chat.
Qed.

Section Relay.
Context (parse_json : string -> option Json) (print_json : Json -> string).

Lemma parse_call_tool j p : parse_openai_tool_call parse_json j = Ok p -> is_tool_use p = true.
Proof.
  by intros (id & _ & (f & _ & (n & _ & (a & _ & [= <-])%let_ok)%let_ok)%let_ok)%let_ok.
Qed.

Lemma parse_message_chat j m : parse_openai_message parse_json j = Ok (inr m) -> chat_message m.
Proof.
  unfold parse_openai_message. intros (role & _ & H)%let_ok.
  destruct (str_eqb role "system" || _); [by apply let_ok in H as (? & _ & ?)|].
  destruct (str_eqb role "user").
  { apply let_ok in H as (parts & Hp & [= <-]). split; [done|]. by eapply parse_content_chat. }
  destruct (str_eqb role "assistant").
  { apply let_ok in H as (parts & Hp & [= <-]). split; [done|]. simpl.
    unfold parse_openai_assistant in Hp. apply let_ok in Hp as (text & _ & Hp). exists text.
    destruct (get "tool_calls" j) as [calls|].
    - apply let_ok in Hp as (l & _ & (cs & Hcs & [= <-])%let_ok). exists cs. split; [done|].
      eapply try_map_forall; [|done]. apply parse_call_tool.
    - injection Hp as <-. exists []. by rewrite <- (app_nil_r (if is_empty text then _ else _)). }
  destruct (str_eqb role "tool"); [|done].
  apply let_ok in H as (id & _ & (c & _ & [= <-])%let_ok). split; [done|]. simpl. eauto.
Qed.

Lemma unmodeled_wf body : unmodeled_map (unmodeled body).
Proof.
  unfold unmodeled. split; [apply bt_collect_wf|]. intros k Hk.
  unfold bt_collect. rewrite obj_acc by constructor. simpl.
  assert (H : forall l, find_last k (List.filter (fun kv => negb (modeled kv.1)) l) = None); [|by rewrite H].
  induction l as [|[k' v] l IH]; simpl; [done|]. destruct (modeled k') eqn:E; simpl; [done|].
  rewrite IH. destruct (String.eqb_spec k k') as [->|]; [congruence|done].
Qed.

Lemma join_nonempty sep l : l <> [] -> Forall (fun s => s <> EmptyString) l -> join sep l <> EmptyString.
Proof. destruct l as [|s l]; [done|]. intros _ [Hs _]%Forall_cons_1. destruct l, s; simpl; done. Qed.

Lemma parsed_chat_request fresh body r :
  request_from_openai_chat parse_json fresh body = Ok r -> chat_request r.
Proof.
  unfold request_from_openai_chat.
  intros (model & _ & (messages & _ & (parsed & Hp & (tools & Ht & (rf & _ & [= <-])%let_ok)%let_ok)%let_ok)%let_ok)%let_ok.
  split; cbn [req_system req_messages req_tools req_max_output_tokens req_passthrough].
  - destruct (omap system_of parsed) as [|s chunks] eqn:E; [done|]. apply (join_nonempty nl (s :: chunks)); [done|].
    rewrite <- E. clear. induction parsed as [|[t|m] l IH]; simpl; [constructor| |done].
    destruct t; simpl; [done|]. by constructor.
  - assert (Hall : forall (ms : list Json), try_map (parse_openai_message parse_json) ms = Ok parsed ->
      Forall (fun p => match p with inr m => chat_message m | inl _ => True end) parsed).
    { intros ms. apply try_map_forall. intros x [s|m] H; [done|]. by eapply parse_message_chat. }
    apply Hall in Hp. clear - Hp. induction Hp as [|[t|m] l Hm Hl IH]; simpl; [constructor|done|]. by constructor.
  - unfold parse_openai_tools in Ht. destruct (get "tools" body) as [ts|]; [|by injection Ht as <-].
    apply let_ok in Ht as (l & _ & (specs & Hs & [= <-])%let_ok).
    apply try_map_forall with (P := Forall (fun t => tool_defer_loading t = false)) in Hs.
    + clear - Hs. induction Hs; simpl; [constructor|]. by apply Forall_app.
    + intros x y. unfold parse_openai_tool. destruct (negb _); [intros [= <-]; constructor|].
      intros (f & _ & (n & _ & [= <-])%let_ok)%let_ok. by repeat constructor.
  - unfold parse_max_tokens. destruct (or_else _ _) as [n|]; simpl; [|done]. unfold to_u32.
    destruct (_ && _) eqn:E; [|done]. bool_hyps. done.
  - apply unmodeled_wf.
Qed.

(** ** What the upstream reads *)

Abbreviation args_print := (args_print parse_json print_json).

Definition keeps_part (p : ContentPart) : bool := match p with Text t => negb (is_empty t) | _ => true end.

(** Without images the text is one part; with images empty text is left out. *)
Definition relayed_content (parts : list ContentPart) : list ContentPart :=
  if existsb is_image parts then List.filter keeps_part parts else [Text (content_parts_to_text parts)].

Definition relayed_message (m : Message) : Message :=
  match msg_role m with
  | RoleUser => mkMessage RoleUser (relayed_content (msg_content m)) None
  | _ => m
  end.

(** The request as another gateway would understand it. *)
Definition relayed (fresh upstream_model : string) (stream : bool) (r : AiRequest) : AiRequest :=
  mkAiRequest fresh upstream_model (req_system r) (relayed_message <$> req_messages r) (req_tools r) []
    (req_response_format r) stream (req_max_output_tokens r)
    (t ← req_temperature r; if is_finite t then Some t else None)
    PriorityNormal Standard [] None None (req_passthrough r) [] None None.

Lemma image_detail_back d : image_detail_parse (image_detail_as_str d) = Ok d.
Proof. by destruct d. Qed.

Lemma image_url_back source url detail :
  chat_source source -> image_to_openai_url source = Ok url -> image_from_url url detail = Image source detail.
Proof.
  intros Hs. unfold image_to_openai_url. intros (u & _ & H)%let_ok. unfold image_from_url.
  destruct source as [mt data|u'|]; simpl in *; [|injection H as <-; by rewrite Hs|done].
  assert (Hu : url = data_url mt data) by (by injection H). by rewrite Hu, Hs.
Qed.

Lemma part_back p js :
  chat_part p -> part_to_openai p = Ok js ->
  try_map parse_openai_part js = Ok (if keeps_part p then [p] else []).
Proof.
  intros Hc H. destruct p; simpl in *; try done.
  - injection H as <-. destruct text as [|a text]; [done|]. cbn [is_empty try_map negb].
    unfold parse_openai_part, get_str. by json_get.
  - apply let_ok in H as (url & Hu & [= <-]). cbn [try_map]. unfold parse_openai_part, get_str. json_get.
    rewrite !or_else_none.
    assert (Hd : parse_image_detail ((JString ∘ image_detail_as_str <$> detail) ≫= as_str) = Ok detail).
    { destruct detail; simpl; [by rewrite image_detail_back|done]. }
    rewrite Hd. simpl.
    assert (Ho : exists m, put_opt "detail" (JString ∘ image_detail_as_str <$> detail) (obj [("url", JString url)])
      = JObject m).
    { destruct (is_obj_put_opt "detail" (JString ∘ image_detail_as_str <$> detail) _ (is_obj_obj [("url", JString url)]))
        as (m & -> & _). by eexists. }
    destruct Ho as [m Ho]. rewrite Ho. simpl. by rewrite (image_url_back source).
Qed.

Lemma parts_back parts content :
  Forall chat_part parts -> try_map part_to_openai parts = Ok content ->
  try_map parse_openai_part (mjoin content) = Ok (List.filter keeps_part parts).
Proof.
  intros Hc. revert content. induction Hc as [|p parts Hp Hc IH]; intros content; simpl; [by intros [= <-]|].
  intros (js & Hj & (cs & Hcs & [= <-])%let_ok)%let_ok. simpl.
  assert (Happ : forall a b (xs ys : list ContentPart), try_map parse_openai_part a = Ok xs ->
    try_map parse_openai_part b = Ok ys -> try_map parse_openai_part (a ++ b) = Ok (xs ++ ys)).
  { clear. intros a. induction a as [|x a IHa]; intros b xs ys; simpl; [by intros [= <-]|].
    intros (y & -> & (zs & Hz & [= <-])%let_ok)%let_ok Hb. simpl. by rewrite (IHa b zs ys). }
  rewrite (Happ _ _ _ _ (part_back p js Hp Hj) (IH _ Hcs)). by destruct (keeps_part p).
Qed.

Lemma content_back parts c :
  Forall chat_part parts -> content_parts_to_openai_message_content parts = Ok c ->
  parse_openai_content_parts (Some c) = Ok (relayed_content parts).
Proof.
  intros Hc. unfold content_parts_to_openai_message_content, relayed_content.
  destruct (existsb is_image parts); simpl; [|by intros [= <-]].
  intros (cs & Hcs & [= <-])%let_ok. simpl. by apply parts_back.
Qed.

Lemma filter_calls calls : Forall (fun p => is_tool_use p = true) calls -> List.filter is_tool_use calls = calls.
Proof. induction 1 as [|p l Hp Hl IH]; [done|]. simpl. by rewrite Hp, IH. Qed.

Lemma calls_text calls : Forall (fun p => is_tool_use p = true) calls -> content_parts_to_text calls = EmptyString.
Proof. unfold content_parts_to_text. induction 1 as [|p l Hp Hl IH]; [done|]. by destruct p. Qed.

Lemma text_and_calls_view text calls :
  Forall (fun p => is_tool_use p = true) calls -> chat_content (text_and_calls text calls) = text_and_calls text calls.
Proof.
  intros Hc. unfold chat_content, text_and_calls.
  assert (Ht : content_parts_to_text ((if is_empty text then [] else [Text text]) ++ calls) = text).
  { pose proof (calls_text _ Hc) as He. unfold content_parts_to_text in *. rewrite omap_app.
    destruct text as [|a text]; [exact He|]. cbn [is_empty].
    assert (Hn : omap (fun p => match p with Text t => Some t | _ => None end) calls = []).
    { clear He. induction Hc as [|p l Hp Hl IH]; [done|]. by destruct p. }
    rewrite Hn. done. }
  rewrite Ht. f_equal. rewrite List.filter_app, (filter_calls calls) by done. by destruct (is_empty text).
Qed.

Lemma message_back m js :
  chat_message m -> Forall args_print (msg_content m) -> message_to_openai print_json m = Ok js ->
  exists j, js = [j] /\ parse_openai_message parse_json j = Ok (inr (relayed_message m)).
Proof.
  intros [Hh Hc] Hargs H. unfold message_to_openai in H. unfold relayed_message.
  destruct m as [role content hint]; simpl in *. subst hint. destruct role; [done|..].
  - apply let_ok in H as (c & Hcont & [= <-]). eexists. split; [done|].
    pose proof (content_back _ _ Hc Hcont) as Hb. unfold parse_openai_message, get_str.
    json_get. unfold parse_openai_content_parts in Hb. by rewrite Hb.
  - apply let_ok in H as (u & _ & [= <-]). eexists. split; [done|]. destruct Hc as (text & calls & -> & Hcalls).
    set (parts := text_and_calls text calls) in *.
    assert (Hp : forall msg, get "role" msg = Some (JString "assistant") ->
      parse_openai_assistant parse_json msg "`tool_calls` must be an array" = Ok (chat_content parts) ->
      parse_openai_message parse_json msg = Ok (inr (mkMessage RoleAssistant parts None))).
    { intros msg Hr Ha. unfold parse_openai_message, get_str. rewrite Hr. simpl. rewrite Ha.
      unfold parts at 1. by rewrite text_and_calls_view. }
    destruct (list_empty (omap (tool_call_json print_json) parts)) eqn:E; apply Hp; try (by json_get);
      apply (parse_assistant_json parse_json print_json); try exact Hargs.
    + left. by json_get.
    + left. json_get. split; [done|]. by destruct (omap (tool_call_json print_json) parts).
    + json_get. apply text_or_null.
    + right. by json_get.
  - destruct Hc as (id & c & ->). simpl in H. injection H as <-. eexists. split; [done|].
    unfold parse_openai_message, get_str. by json_get.
Qed.

Lemma messages_back ms js :
  Forall chat_message ms -> Forall (fun m => Forall args_print (msg_content m)) ms ->
  try_map (message_to_openai print_json) ms = Ok js ->
  try_map (parse_openai_message parse_json) (mjoin js) = Ok (inr <$> (relayed_message <$> ms)).
Proof.
  intros Hc. revert js. induction Hc as [|m ms Hm Hc IH]; intros js Hargs; simpl; [by intros [= <-]|].
  apply Forall_cons_1 in Hargs as [Hma Hargs].
  intros (j & Hj & (rest & Hr & [= <-])%let_ok)%let_ok. destruct (message_back m j Hm Hma Hj) as (x & -> & Hx).
  change (mjoin ([x] :: rest)) with (x :: mjoin rest). cbn [try_map]. by rewrite Hx, (IH rest Hargs Hr).
Qed.

Definition tools_json (tools : list ToolSpec) : option Json :=
  match tools with [] => None | t :: ts => Some (JArray (tool_to_openai <$> t :: ts)) end.

Lemma tools_back tools :
  Forall (fun t => tool_defer_loading t = false) tools -> parse_openai_tools (tools_json tools) = Ok tools.
Proof.
  intros Ht.
  assert (Hone : try_map parse_openai_tool (tool_to_openai <$> tools) = Ok ((fun t => [t]) <$> tools)).
  { induction Ht as [|[name desc params defer] ts Hd Ht IH]; [done|]. cbn [fmap list_fmap try_map].
    change (list_fmap _ _ tool_to_openai ts) with (tool_to_openai <$> ts). rewrite IH.
    unfold parse_openai_tool, tool_to_openai. unfold get_str at 1. json_get.
    rewrite (get_object_value "function" _ (put_opt "description" (JString <$> desc)
      (obj [("name", JString name); ("parameters", params)]))); [|by json_get|by auto with json].
    unfold get_str. json_get. rewrite or_else_none. simpl in Hd. subst defer. by destruct desc. }
  assert (Hj : mjoin ((fun t => [t]) <$> tools) = tools) by (clear; induction tools; simpl; by f_equal).
  assert (Hall : forall l, parse_openai_tools (Some (JArray l))
    = let? specs := try_map parse_openai_tool l in Ok (mjoin specs)) by done.
  destruct tools as [|t ts]; [done|].
  change (parse_openai_tools (Some (JArray (tool_to_openai <$> t :: ts))) = Ok (t :: ts)).
  rewrite Hall, Hone. exact (f_equal Ok Hj).
Qed.

Lemma format_back rf : parse_response_format (response_format_json <$> rf) = Ok rf.
Proof.
  destruct rf as [[| |name schema strict]|]; [done|done| |done].
  set (schema_json := obj [("name", JString name); ("schema", schema); ("strict", JBool strict)]).
  assert (Ho : get_object "json_schema" (obj [("type", JString "json_schema"); ("json_schema", schema_json)])
               = Some schema_json).
  { apply get_object_value; [by json_get|apply is_obj_obj]. }
  unfold parse_response_format. cbn [fmap option_fmap option_map response_format_json]. fold schema_json.
  rewrite Ho. unfold get_str at 1. rewrite get_obj. simpl. unfold schema_json, get_str, get_bool. by json_get.
Qed.

Lemma system_messages_back system ms :
  match system with Some s => s <> EmptyString | None => True end ->
  forall js, try_map (parse_openai_message parse_json) js = Ok (inr <$> ms) ->
  let head := match system with
    | Some s => [obj [("role", JString "system"); ("content", JString s)]]
    | None => []
    end in
  exists parsed, try_map (parse_openai_message parse_json) (head ++ js) = Ok parsed
    /\ match omap system_of parsed with [] => None | chunks => Some (join nl chunks) end = system
    /\ omap message_of parsed = ms.
Proof.
  intros Hs js Hj.
  assert (Hm : omap system_of (inr <$> ms : list (string + Message)) = [] /\ omap message_of (inr <$> ms) = ms).
  { clear. induction ms as [|m ms [IH1 IH2]]; [done|]. simpl in *. split; [done|by f_equal]. }
  destruct Hm as [Hm1 Hm2]. destruct system as [s|]; cbv zeta; cbn [app].
  - assert (Hx : parse_openai_message parse_json (obj [("role", JString "system"); ("content", JString s)])
                 = Ok (inl s)).
    { unfold parse_openai_message, get_str. by json_get. }
    exists (inl s :: (inr <$> ms)). cbn [try_map]. rewrite Hx, Hj. split; [done|].
    cbn [omap list_omap system_of message_of].
    change (list_omap _ _ system_of (inr <$> ms)) with (omap system_of (inr <$> ms : list (string + Message))).
    change (list_omap _ _ message_of (inr <$> ms)) with (omap message_of (inr <$> ms : list (string + Message))).
    rewrite Hm1, Hm2. by destruct s.
  - exists (inr <$> ms). by rewrite Hm1, Hm2.
Qed.

(** The body that is sent. *)
Definition wire_fields (r : AiRequest) (upstream_model : string) (stream : bool) (messages : list Json) : Json :=
  put_opt "response_format" (response_format_json <$> req_response_format r)
  (put_opt "tools" (tools_json (req_tools r))
  (put_opt "temperature" (req_temperature r ≫= (fun t => number_from_f64 (f64_of_f32 t)))
  (put_opt "max_tokens" (JInt <$> req_max_output_tokens r)
  (obj [("model", JString upstream_model); ("messages", JArray messages); ("stream", JBool stream)])))).

Lemma wire_fields_obj r m s ms : is_obj (wire_fields r m s ms).
Proof. unfold wire_fields. auto 20 with json. Qed.

Lemma wire_unmodeled r m s ms :
  unmodeled_map (req_passthrough r) ->
  unmodeled (put_missing (req_passthrough r) (wire_fields r m s ms)) = req_passthrough r.
Proof.
  intros [Hwf Hm]. pose proof (wire_fields_obj r m s ms) as Hf.
  pose proof (is_obj_put_missing (req_passthrough r) _ Hf) as (w & Hw & Hww).
  unfold unmodeled. rewrite Hw. simpl. apply bt_wf_ext; [apply bt_collect_wf|done|].
  intros k. rewrite (bt_filter_get (fun k => negb (modeled k))) by done. rewrite <- get_object_wf, <- Hw, get_put_missing by done.
  rewrite find_first_get by done. destruct (modeled k) eqn:Ek; simpl; [by rewrite Hm|].
  assert (Hg : get k (wire_fields r m s ms) = None); [|by rewrite Hg].
  unfold modeled, MODELED_KEYS in Ek. cbn [existsb] in Ek.
  repeat (apply orb_false_elim in Ek as [? Ek]).
  unfold wire_fields. rewrite !get_put_opt by (auto 20 with json). rewrite get_obj. cbn [find_last].
  repeat match goal with H : (k =? _)%string = false |- _ => rewrite H; clear H end. done.
Qed.

Lemma wire_get r m s ms k :
  unmodeled_map (req_passthrough r) -> modeled k = true ->
  get k (put_missing (req_passthrough r) (wire_fields r m s ms)) = get k (wire_fields r m s ms).
Proof.
  intros [Hwf Hm] Hk. rewrite get_put_missing by apply wire_fields_obj.
  rewrite find_first_get, Hm by done. apply or_else_none.
Qed.

Lemma temperature_back t :
  match t with Some t => is_f32 t = true | None => True end ->
  f32_of_f64 <$> ((t ≫= (fun t => number_from_f64 (f64_of_f32 t))) ≫= as_f64)
  = (t ≫= fun t => if is_finite t then Some t else None).
Proof.
  destruct t as [t|]; [|done]. intros Ht. simpl. unfold number_from_f64.
  destruct (is_finite t) eqn:Ef.
  - rewrite widen_finite by done. simpl. by rewrite narrow_widen.
  - by destruct t.
Qed.

(** C24 (roundtrip). What a client asked for is what the upstream reads: if a chat
    body is understood as a request and that is written for an upstream, reading
    the written body gives the request again, with the upstream's model and stream
    flag: system prompt, messages with their images and tool calls, tools, format,
    limits, and every parameter without a field of its own, unchanged. Only the
    text of a user message is joined (or, next to images, dropped when empty), and
    a temperature that overflows is not sent. *)
Theorem chat_relay_lossless fresh fresh' body r upstream_model stream w :
  request_from_openai_chat parse_json fresh body = Ok r ->
  match req_temperature r with Some t => is_f32 t = true | None => True end ->
  Forall (fun m => Forall args_print (msg_content m)) (req_messages r) ->
  request_to_openai_wire print_json r upstream_model stream = Ok w ->
  request_from_openai_chat parse_json fresh' w = Ok (relayed fresh' upstream_model stream r).
Proof.
  intros [Hs Hm Ht Hn Hp]%parsed_chat_request Hf Hargs H. unfold request_to_openai_wire in H.
  apply let_ok in H as (u & _ & (js & Hjs & [= <-])%let_ok).
  pose proof (system_messages_back (req_system r) _ Hs _ (messages_back _ _ Hm Hargs Hjs))
    as (parsed & Hparsed & Hsys & Hmsgs).
  set (messages := _ ++ mjoin js) in *.
  change (put_opt "response_format" _ _) with (wire_fields r upstream_model stream messages).
  unfold request_from_openai_chat, get_str, get_array, get_bool, get_f64, parse_max_tokens, get_u64.
  rewrite !wire_get, wire_unmodeled by done. unfold wire_fields. json_get. rewrite !or_else_none.
  rewrite Hparsed. cbv beta iota. rewrite tools_back, format_back by done. cbv beta iota zeta.
  unfold relayed. simpl. f_equal. f_equal; [exact Hsys|exact Hmsgs| |by apply temperature_back].
  destruct (req_max_output_tokens r) as [n|]; [|done]. by apply index_back.
Qed.

End Relay.

(** ** Samples *)

Module ChatSamples.

(** Stand-ins for the JSON text of the arguments below. *)
Definition parse (s : string) : option Json := if str_eqb s "{}" then Some (obj []) else None.
Definition print (v : Json) : string := "{}".

Definition lookup_call : ContentPart := ToolUse "call_1" "lookup" (obj []).

Definition sample_response : AiResponse :=
  mkAiResponse "resp_1" "gpt" (mkMessage RoleAssistant [Text "a"; lookup_call; Text "b"] None) ToolCalls
    (mkUsage 12 3 2 1 None).

Lemma chat_response_roundtrip_witness :
  parse_openai_chat_response parse "fresh" (response_to_openai_chat print 7 sample_response)
  = Ok (mkAiResponse "resp_1" "gpt" (mkMessage RoleAssistant [Text "ab"; lookup_call] None) ToolCalls
          (mkUsage 12 3 0 0 None)).
Proof.
  apply (chat_response_roundtrip parse print "fresh" 7 sample_response);
    [reflexivity|repeat constructor].
Defined.

Definition sample_events : list AiStreamEvent :=
  [EvMessageStart "m" "gpt"; EvTextDelta "Hel"; EvTextDelta "lo"; EvToolCallStart 0 "call_1" "lookup";
   EvToolCallArgsDelta 0 "{"; EvToolCallArgsDelta 0 "}"; EvToolCallEnd 0;
   EvUsageDelta (mkUsage 12 3 2 1 None); EvMessageEnd ToolCalls].

Lemma chat_stream_roundtrip_witness :
  collect_response parse
    (Ok <$> decode_stream (encode_values (OpenAiStreamEncoder_new 7 "m" "gpt") sample_events)) "r" "gpt" None
  = Ok (mkAiResponse "r" "gpt" (mkMessage RoleAssistant [Text "Hello"; lookup_call] None) ToolCalls
          (mkUsage 12 3 0 0 None)).
Proof.
  apply (chat_stream_roundtrip parse 7 "m" "gpt" sample_events "r" "gpt"
    (mkAiResponse "r" "gpt" (mkMessage RoleAssistant [Text "Hello"; lookup_call] None) ToolCalls
       (mkUsage 12 3 2 1 None)));
    vm_compute; reflexivity.
Defined.

Definition sample_body : Json :=
  obj [("model", JString "gpt"); ("seed", JInt 5);
       ("messages", JArray
         [obj [("role", JString "system"); ("content", JString "be brief")];
          obj [("role", JString "user"); ("content", JArray
            [obj [("type", JString "text"); ("text", JString "look")];
             obj [("type", JString "image_url");
                  ("image_url", obj [("url", JString "data:image/png;base64,AA")])]])]])].

Lemma chat_relay_lossless_witness :
  match request_from_openai_chat parse "q" sample_body with
  | Ok r => match request_to_openai_wire print r "upstream" true with
            | Ok w => request_from_openai_chat parse "q2" w = Ok (relayed "q2" "upstream" true r)
            | Err _ => False
            end
  | Err _ => False
  end.
Proof.
  destruct (request_from_openai_chat parse "q" sample_body) as [r|] eqn:E; [|vm_compute in E; discriminate].
  destruct (request_to_openai_wire print r "upstream" true) as [w|] eqn:Ew.
  - apply (chat_relay_lossless parse print "q" "q2" sample_body r "upstream" true w E); [| |exact Ew];
      vm_compute in E; injection E as <-; vm_compute; repeat constructor.
  - vm_compute in E. injection E as <-. vm_compute in Ew. discriminate.
Defined.

End ChatSamples.
