(* ===== verification/Messages.v ===== *)
(** * Anthropic Messages

    [crates/sb-protocols/src/anthropic.rs]: canonical requests to upstream bodies
    and client bodies to canonical requests, responses both ways, the decoder of
    upstream streams and the encoder of client streams. Its helpers on data URLs
    are those of the chat format, word for word. JSON text and fresh identifiers
    are parameters. *)

From Stdlib Require Import ZArith Lia.
From stdpp Require Import base list strings option gmap.
From S2P Require Import Prelude Text Lines BTree Float Ir Target Value OpenaiChat.

#[local] Open Scope Z_scope.
#[local] Open Scope switchback_scope.

Definition DEFAULT_MAX_TOKENS : Z := 4096.
Definition ANTHROPIC_VERSION : string := "2023-06-01".
Definition ANTHROPIC_PROTOCOL : string := "anthropic".
Definition ANTHROPIC_PASSTHROUGH_KEYS : list string :=
  ["thinking"; "tool_choice"; "stop_sequences"; "top_p"; "top_k"; "service_tier"; "metadata";
   "container"; "mcp_servers"].

(** ** Images and reasons *)

Definition image_from_anthropic_source (source : option Json) : result ContentPart string :=
  let? source := ok_or source "Anthropic image block missing `source`" in
  match get_str "type" source with
  | None => Err "Anthropic image source missing string `type`"
  | Some kind =>
      if str_eqb kind "base64" then
        let? media_type := ok_or (get_str "media_type" source) "Anthropic base64 image missing `media_type`" in
        let? data := ok_or (get_str "data" source) "Anthropic base64 image missing `data`" in
        Ok (Image (InlineBase64 media_type data) None)
      else if str_eqb kind "url" then
        let? url := ok_or (get_str "url" source) "Anthropic url image missing `url`" in
        Ok (image_from_url url None)
      else if str_eqb kind "file" then
        let? file_id := ok_or (get_str "file_id" source) "Anthropic file image missing `file_id`" in
        Ok (Image (ProviderFileRef (Some "anthropic") file_id) None)
      else Err ("unsupported Anthropic image source `" ^^ kind ^^ "`")
  end.

Definition image_to_anthropic_block (source : ImageSource) : result Json string :=
  let? _ := image_source_validate source in
  let? source := match source with
    | InlineBase64 media_type data =>
        Ok (obj [("type", JString "base64"); ("media_type", JString media_type); ("data", JString data)])
    | RemoteUrl url => Ok (obj [("type", JString "url"); ("url", JString url)])
    | ProviderFileRef _ _ => Err "Anthropic file image references require Files API beta header support"
    end in
  Ok (obj [("type", JString "image"); ("source", source)]).

Definition stop_reason_to_finish (reason : option string) : FinishReason :=
  match reason with
  | Some r =>
      if str_eqb r "end_turn" || str_eqb r "stop_sequence" then Stop
      else if str_eqb r "max_tokens" then Length
      else if str_eqb r "tool_use" then ToolCalls
      else Stop
  | None => Stop
  end.

Definition finish_to_stop_reason (r : FinishReason) : string :=
  match r with
  | Stop => "end_turn"
  | Length => "max_tokens"
  | ToolCalls => "tool_use"
  | ContentFilter => "end_turn"
  | FinishError => "end_turn"
  end.

(** ** Cache breakpoints *)

Definition cache_hint_from_cache_control (value : Json) : CacheHint :=
  mkCacheHint match get_str "ttl" value with
              | Some ttl => if str_eqb ttl "1h" then Some 3600
                            else if str_eqb ttl "5m" then Some 300 else None
              | None => None
              end.

Definition cache_control_wire (hint : CacheHint) : Json :=
  match ttl_seconds hint with
  | Some ttl => if 3600 <=? ttl then obj [("type", JString "ephemeral"); ("ttl", JString "1h")]
                else obj [("type", JString "ephemeral")]
  | None => obj [("type", JString "ephemeral")]
  end.

(** [list.last_mut().map(f)]. *)
Fixpoint alter_last {A} (f : A -> A) (l : list A) : list A :=
  match l with
  | [] => []
  | [x] => [f x]
  | x :: l => x :: alter_last f l
  end.

Definition set_last_block_cache_control (hint : CacheHint) (message : Json) : Json :=
  match get_array "content" message with
  | Some blocks =>
      put "content" (JArray (alter_last (put "cache_control" (cache_control_wire hint)) blocks)) message
  | None => message
  end.

(** ** Upstream requests *)

(** The block of one content part, in a message with this role. *)
Definition part_to_anthropic (role : Role) (p : ContentPart) : result (option Json) string :=
  match p with
  | Text text =>
      Ok (if is_empty text then None else Some (obj [("type", JString "text"); ("text", JString text)]))
  | Image source _ =>
      if negb (bool_decide (role = RoleUser)) then
        Err "Anthropic can only encode image content in user messages"
      else let? block := image_to_anthropic_block source in Ok (Some block)
  | ToolUse id name args =>
      Ok (Some (obj [("type", JString "tool_use"); ("id", JString id); ("name", JString name);
                     ("input", args)]))
  | ToolResult tool_use_id content _ is_error =>
      Ok (Some (put_opt "is_error" (if (is_error : bool) then Some (JBool true) else None)
                  (obj [("type", JString "tool_result"); ("tool_use_id", JString tool_use_id);
                        ("content", JString content)])))
  | Reasoning text signature =>
      Ok ((fun s => obj [("type", JString "thinking"); ("thinking", JString text);
                         ("signature", JString s)]) <$> signature)
  | Citation _ _ _ | ServerToolUse _ _ _ | ServerToolResult _ _ _ => Ok None
  end.

Definition message_content_blocks (m : Message) : result (option (list Json)) string :=
  let? blocks := try_map (part_to_anthropic (msg_role m)) (msg_content m) in
  Ok match omap (fun b => b) blocks with [] => None | blocks => Some blocks end.

(** The accumulators of the loop over the messages. *)
Record Turns := mkTurns {
  t_system : list string;
  t_messages : list Json;
  t_hints : list (nat * CacheHint)
}.

Definition add_turn (role : string) (m : Message) (t : Turns) : result Turns string :=
  let? blocks := message_content_blocks m in
  Ok match blocks with
     | None => t
     | Some blocks =>
         mkTurns (t_system t)
           (t_messages t ++ [obj [("role", JString role); ("content", JArray blocks)]])
           (t_hints t ++ match msg_cache_hint m with
                         | Some hint => [(length (t_messages t), hint)]
                         | None => []
                         end)
     end.

Definition add_message (t : Turns) (m : Message) : result Turns string :=
  match msg_role m with
  | RoleSystem =>
      let? _ := reject_image_parts (msg_content m) "Anthropic system messages" in
      let text := message_text m in
      Ok (if is_empty text then t else mkTurns (t_system t ++ [text]) (t_messages t) (t_hints t))
  | RoleTool | RoleUser => add_turn "user" m t
  | RoleAssistant => add_turn "assistant" m t
  end.

Fixpoint add_messages (t : Turns) (l : list Message) : result Turns string :=
  match l with
  | [] => Ok t
  | m :: l => let? t := add_message t m in add_messages t l
  end.

Definition has_tools (req : AiRequest) : bool :=
  negb (list_empty (req_tools req)) || negb (list_empty (req_server_tools req)).

Definition tools_hint (req : AiRequest) : option CacheHint :=
  if has_tools req then req_tools_cache_hint req else None.

Definition count_opt {A} (o : option A) : nat := if opt_is_some o then 1 else 0.

(** The breakpoints on messages that stay: the last two when there are too many. *)
Definition kept_hints (req : AiRequest) (hints : list (nat * CacheHint)) : list (nat * CacheHint) :=
  if Nat.ltb 4 (count_opt (req_system_cache_hint req) + count_opt (tools_hint req) + length hints)
  then drop (length hints - 2) hints else hints.

Definition apply_hints (hints : list (nat * CacheHint)) (messages : list Json) : list Json :=
  fold_left (fun ms (h : nat * CacheHint) => alter (set_last_block_cache_control h.2) h.1 ms)
    hints messages.

Definition system_value (req : AiRequest) (text : string) : Json :=
  match req_system_cache_hint req with
  | Some hint => JArray [obj [("type", JString "text"); ("text", JString text);
                              ("cache_control", cache_control_wire hint)]]
  | None => JString text
  end.

Definition tool_to_anthropic (t : ToolSpec) : Json :=
  put_opt "defer_loading" (if tool_defer_loading t then Some (JBool true) else None)
    (put_opt "description" (JString <$> tool_description t)
       (obj [("name", JString (tool_name t)); ("input_schema", tool_parameters t)])).

Definition server_tool_to_anthropic (t : ServerToolSpec) : result Json string :=
  if bool_decide (st_protocol t = Anthropic) then Ok (st_config t)
  else Err ("Anthropic cannot encode " ^^ server_tool_protocol_as_str (st_protocol t)
              ^^ " server tool `" ^^ st_kind t ^^ "`").

Definition anthropic_tools (req : AiRequest) : result (option Json) string :=
  if has_tools req then
    let? server := try_map server_tool_to_anthropic (req_server_tools req) in
    let tools := (tool_to_anthropic <$> req_tools req) ++ server in
    Ok (Some (JArray match tools_hint req with
                     | Some hint => alter_last (put "cache_control" (cache_control_wire hint)) tools
                     | None => tools
                     end))
  else Ok None.

Definition request_to_anthropic_wire (req : AiRequest) (upstream_model : string) (stream : bool)
  : result Json string :=
  let? _ := validate_canonical req in
  let system := match req_system req with
    | Some s => if is_empty s then [] else [s]
    | None => []
    end in
  let? t := add_messages (mkTurns system [] []) (req_messages req) in
  let? tools := anthropic_tools req in
  Ok (put_missing (default [] (bt_get ANTHROPIC_PROTOCOL (req_protocol_passthrough req)))
     (put_opt "temperature" (req_temperature req ≫= (fun t => number_from_f64 (f64_of_f32 t)))
     (put_opt "tools" tools
     (put_opt "system" (match t_system t with
                        | [] => None
                        | chunks => Some (system_value req (join nl chunks))
                        end)
     (obj [("model", JString upstream_model);
           ("max_tokens", JInt (default DEFAULT_MAX_TOKENS (req_max_output_tokens req)));
           ("stream", JBool stream);
           ("messages", JArray (apply_hints (kept_hints req (t_hints t)) (t_messages t)))]))))).

(** ** Responses *)

Definition usage_from_json (usage : option Json) : Usage :=
  mkUsage (default 0 (usage ≫= get_u64 "input_tokens")) (default 0 (usage ≫= get_u64 "output_tokens"))
    (default 0 (usage ≫= get_u64 "cache_read_input_tokens")) 0 None.

(** The [type] of a block. *)
Definition has_type (kind : string) (block : Json) : bool :=
  match get_str "type" block with Some k => str_eqb k kind | None => false end.

Definition parse_response_block (block : Json) : result (option ContentPart) string :=
  if has_type "text" block then
    Ok (text ← get_str "text" block; if is_empty text then None else Some (Text text))
  else if has_type "tool_use" block then
    let? id := ok_or (get_str "id" block) "tool_use block missing string `id`" in
    let? name := ok_or (get_str "name" block) "tool_use block missing string `name`" in
    Ok (Some (ToolUse id name (default JNull (get "input" block))))
  else if has_type "thinking" block then
    Ok (text ← get_str "thinking" block;
        if is_empty text then None else Some (Reasoning text (get_str "signature" block)))
  else Ok None.

Definition parse_anthropic_response (fresh_id : string) (body : Json) : result AiResponse string :=
  let? content := ok_or (get_array "content" body) "missing array `content`" in
  let? parts := try_map parse_response_block content in
  Ok (mkAiResponse (default fresh_id (get_str "id" body)) (default EmptyString (get_str "model" body))
        (mkMessage RoleAssistant (omap (fun p => p) parts) None)
        (stop_reason_to_finish (get_str "stop_reason" body)) (usage_from_json (get "usage" body))).

Definition response_block (p : ContentPart) : option Json :=
  match p with
  | Text text => Some (obj [("type", JString "text"); ("text", JString text)])
  | ToolUse id name args =>
      Some (obj [("type", JString "tool_use"); ("id", JString id); ("name", JString name); ("input", args)])
  | Reasoning text signature =>
      Some (put_opt "signature" (JString <$> signature)
              (obj [("type", JString "thinking"); ("thinking", JString text)]))
  | _ => None
  end.

Definition response_to_anthropic (resp : AiResponse) : Json :=
  obj [("id", JString (resp_id resp)); ("type", JString "message"); ("role", JString "assistant");
       ("model", JString (resp_model resp));
       ("content", JArray (omap response_block (msg_content (resp_message resp))));
       ("stop_reason", JString (finish_to_stop_reason (resp_finish_reason resp)));
       ("stop_sequence", JNull);
       ("usage", obj [("input_tokens", JInt (input_tokens (resp_usage resp)));
                      ("output_tokens", JInt (output_tokens (resp_usage resp)))])].

(** ** Upstream streams *)

Definition index_of (data : Json) : Z := default 0 (get_u64 "index" data ≫= to_u32).

Record AnthropicStreamDecoder := mkAnthropicStreamDecoder {
  ad_started : bool;
  ad_ended : bool;
  ad_tool_blocks : gset Z;
  ad_stop_reason : option FinishReason;
  ad_usage : Usage
}.

Definition AnthropicStreamDecoder_new : AnthropicStreamDecoder :=
  mkAnthropicStreamDecoder false false ∅ None Usage_default.

Definition set_output_tokens (n : Z) (u : Usage) : Usage :=
  mkUsage (input_tokens u) n (cached_input_tokens u) (reasoning_tokens u) (usage_energy u).

(** [content_block_start]. *)
Definition decode_block_start (d : AnthropicStreamDecoder) (index : Z) (block : Json)
  : AnthropicStreamDecoder * list AiStreamEvent :=
  if has_type "tool_use" block then
    (mkAnthropicStreamDecoder (ad_started d) (ad_ended d) ({[index]} ∪ ad_tool_blocks d)
       (ad_stop_reason d) (ad_usage d),
     [EvToolCallStart index (default EmptyString (get_str "id" block))
        (default EmptyString (get_str "name" block))])
  else if has_type "text" block then
    (d, match get_str "text" block with
        | Some text => if is_empty text then [] else [EvTextDelta text]
        | None => []
        end)
  else (d, []).

(** [content_block_delta]. *)
Definition decode_block_delta (index : Z) (delta : Json) : list AiStreamEvent :=
  if has_type "text_delta" delta then
    match get_str "text" delta with Some text => [EvTextDelta text] | None => [] end
  else if has_type "input_json_delta" delta then
    match get_str "partial_json" delta with Some json => [EvToolCallArgsDelta index json] | None => [] end
  else if has_type "thinking_delta" delta then
    match get_str "thinking" delta with Some text => [EvReasoningDelta text] | None => [] end
  else [].

Definition anthropic_decode (d : AnthropicStreamDecoder) (data : Json)
  : AnthropicStreamDecoder * list AiStreamEvent :=
  if has_type "message_start" data then
    let message := get "message" data in
    (mkAnthropicStreamDecoder true (ad_ended d) (ad_tool_blocks d) (ad_stop_reason d)
       (usage_from_json (message ≫= get "usage")),
     [EvMessageStart (default EmptyString (message ≫= get_str "id"))
        (default EmptyString (message ≫= get_str "model"))])
  else if has_type "content_block_start" data then
    decode_block_start d (index_of data) (default JNull (get "content_block" data))
  else if has_type "content_block_delta" data then
    (d, decode_block_delta (index_of data) (default JNull (get "delta" data)))
  else if has_type "content_block_stop" data then
    (d, if bool_decide (index_of data ∈ ad_tool_blocks d) then [EvToolCallEnd (index_of data)] else [])
  else if has_type "message_delta" data then
    let stop_reason := match get "delta" data ≫= get_str "stop_reason" with
      | Some reason => Some (stop_reason_to_finish (Some reason))
      | None => ad_stop_reason d
      end in
    let usage := match get "usage" data ≫= get_u64 "output_tokens" with
      | Some output => set_output_tokens output (ad_usage d)
      | None => ad_usage d
      end in
    (mkAnthropicStreamDecoder (ad_started d) (ad_ended d) (ad_tool_blocks d) stop_reason usage,
     [EvUsageDelta usage])
  else if has_type "message_stop" data then
    (mkAnthropicStreamDecoder (ad_started d) true (ad_tool_blocks d) (ad_stop_reason d) (ad_usage d),
     [EvMessageEnd (default Stop (ad_stop_reason d))])
  else (d, []).

Definition anthropic_finish (d : AnthropicStreamDecoder)
  : AnthropicStreamDecoder * list AiStreamEvent :=
  if ad_started d && negb (ad_ended d) then
    (mkAnthropicStreamDecoder true true (ad_tool_blocks d) (ad_stop_reason d) (ad_usage d),
     [EvMessageEnd (default Stop (ad_stop_reason d))])
  else (d, []).

(** ** Client requests *)

Definition block_texts (blocks : list Json) : string := join EmptyString (omap (get_str "text") blocks).

Definition tool_result_text (content : option Json) : string :=
  match content with
  | Some (JString s) => s
  | Some (JArray blocks) => block_texts blocks
  | _ => EmptyString
  end.

(** The last breakpoint among blocks or tools. *)
Definition last_hint (hint : option CacheHint) (blocks : list Json) : option CacheHint :=
  fold_left (fun hint block => match get "cache_control" block with
                               | Some cc => Some (cache_hint_from_cache_control cc)
                               | None => hint
                               end) blocks hint.

(** The top-level [system] and its breakpoint. *)
Definition parse_system (system : option Json) : option string * option CacheHint :=
  match system with
  | Some (JString s) => (if is_empty s then None else Some s, None)
  | Some (JArray blocks) =>
      let s := block_texts blocks in
      (if is_empty s then None else Some s, last_hint None blocks)
  | _ => (None, None)
  end.

(** A [system] message extends the prompt. *)
Definition extend_system (system : option string) (text : string) : option string :=
  if is_empty text then system
  else Some match system with
            | Some existing => if is_empty existing then text else existing ^^ nl ^^ text
            | None => text
            end.

Definition system_message_text (content : option Json) : string :=
  match content with
  | Some (JString text) => text
  | Some (JArray blocks) =>
      join EmptyString
        (omap (fun b => if has_type "text" b
                        then text ← get_str "text" b; if is_empty text then None else Some text
                        else None) blocks)
  | _ => EmptyString
  end.

Definition user_message (parts : list ContentPart) : list Message :=
  match parts with [] => [] | _ => [mkMessage RoleUser parts None] end.

(** The loop over the blocks of a user turn, with the parts read since the last
    tool result. *)
Fixpoint user_blocks (parts : list ContentPart) (blocks : list Json) : result (list Message) string :=
  match blocks with
  | [] => Ok (user_message parts)
  | block :: blocks =>
      if has_type "text" block then
        user_blocks (parts ++ match get_str "text" block with Some t => [Text t] | None => [] end) blocks
      else if has_type "image" block then
        let? image := image_from_anthropic_source (get "source" block) in
        user_blocks (parts ++ [image]) blocks
      else if has_type "tool_result" block then
        let? tool_use_id := ok_or (get_str "tool_use_id" block) "tool_result missing string `tool_use_id`" in
        let? rest := user_blocks [] blocks in
        Ok (user_message parts
            ++ mkMessage RoleTool
                 [ToolResult tool_use_id (tool_result_text (get "content" block)) []
                    (default false (get_bool "is_error" block))] None :: rest)
      else Err ("unsupported Anthropic user content block `" ^^ default "unknown" (get_str "type" block)
                  ^^ "`; multimodal content is not supported in this build")
  end.

Definition set_cache_hint (hint : option CacheHint) (m : Message) : Message :=
  mkMessage (msg_role m) (msg_content m) hint.

Definition user_turn (content : option Json) : result (list Message) string :=
  match content with
  | Some (JString text) => Ok [message_user text]
  | Some (JArray blocks) =>
      let? messages := user_blocks [] blocks in
      Ok match last_hint None blocks with
         | Some hint => alter_last (set_cache_hint (Some hint)) messages
         | None => messages
         end
  | _ => Ok []
  end.

Definition assistant_block (block : Json) : result (option ContentPart) string :=
  if has_type "text" block then Ok (Text <$> get_str "text" block)
  else if has_type "tool_use" block then
    let? id := ok_or (get_str "id" block) "tool_use missing string `id`" in
    let? name := ok_or (get_str "name" block) "tool_use missing string `name`" in
    Ok (Some (ToolUse id name (default JNull (get "input" block))))
  else Err ("unsupported Anthropic assistant content block `" ^^ default "unknown" (get_str "type" block)
              ^^ "`").

Definition assistant_turn (content : option Json) : result Message string :=
  match content with
  | Some (JString text) =>
      Ok (mkMessage RoleAssistant (if is_empty text then [] else [Text text]) None)
  | Some (JArray blocks) =>
      let? parts := try_map assistant_block blocks in
      Ok (mkMessage RoleAssistant (omap (fun p => p) parts) (last_hint None blocks))
  | _ => Ok (mkMessage RoleAssistant [] None)
  end.

(** One message: the prompt it leaves and the messages it adds. *)
Definition parse_turn (system : option string) (message : Json)
  : result (option string * list Message) string :=
  let? role := ok_or (get_str "role" message) "message missing string `role`" in
  let content := get "content" message in
  if str_eqb role "system" then Ok (extend_system system (system_message_text content), [])
  else if str_eqb role "user" then let? ms := user_turn content in Ok (system, ms)
  else if str_eqb role "assistant" then let? m := assistant_turn content in Ok (system, [m])
  else Err ("unsupported message role `" ^^ role ^^ "`").

Fixpoint parse_turns (system : option string) (l : list Json)
  : result (option string * list Message) string :=
  match l with
  | [] => Ok (system, [])
  | message :: l =>
      let? r := parse_turn system message in
      let? rest := parse_turns r.1 l in
      Ok (rest.1, r.2 ++ rest.2)
  end.

Definition parse_anthropic_tool (tool : Json) : result (ServerToolSpec + ToolSpec) string :=
  match get_str "type" tool with
  | Some kind => Ok (inl (mkServerToolSpec Anthropic kind tool))
  | None =>
      let? name := ok_or (get_str "name" tool) "tool missing string `name`" in
      Ok (inr (mkToolSpec name (get_str "description" tool) (default JNull (get "input_schema" tool))
                 (default false (get_bool "defer_loading" tool))))
  end.

Definition left_of {A B} (x : A + B) : option A := match x with inl a => Some a | inr _ => None end.
Definition right_of {A B} (x : A + B) : option B := match x with inl _ => None | inr b => Some b end.

Definition anthropic_passthrough (body : Json) : BTreeMap string Json :=
  bt_collect (omap (fun key => (fun v => (key, v)) <$> get key body) ANTHROPIC_PASSTHROUGH_KEYS).

Definition request_from_anthropic (fresh_id : string) (body : Json) : result AiRequest string :=
  let? model := ok_or (get_str "model" body) "missing or invalid `model`" in
  let '(system, system_hint) := parse_system (get "system" body) in
  let? messages := ok_or (get_array "messages" body) "missing or invalid `messages`" in
  let? turns := parse_turns system messages in
  let tools := default [] (get_array "tools" body) in
  let? parsed := try_map parse_anthropic_tool tools in
  Ok (mkAiRequest fresh_id model turns.1 turns.2 (omap right_of parsed) (omap left_of parsed) None
        (default false (get_bool "stream" body)) (get_u64 "max_tokens" body ≫= to_u32)
        (f32_of_f64 <$> get_f64 "temperature" body) PriorityNormal Standard [] None None []
        match anthropic_passthrough body with
        | [] => []
        | passthrough => [(ANTHROPIC_PROTOCOL, passthrough)]
        end
        system_hint (last_hint None tools)).

(** ** Token estimates *)

Section Printed.
(** [Value]'s [Display]. *)
Context (print_json : Json -> string).

(** The bytes and the image tokens a part counts. *)
Definition part_estimate (p : ContentPart) : Z * Z :=
  match p with
  | Text text => (byte_len text, 0)
  | Reasoning text _ => (byte_len text, 0)
  | Citation url _ _ => (byte_len url, 0)
  | ServerToolResult _ _ content => (byte_len content, 0)
  | ServerToolUse _ name _ => (byte_len name, 0)
  | Image _ _ => (0, 1600)
  | ToolUse _ name args => (byte_len name + byte_len (print_json args), 0)
  | ToolResult _ content _ _ => (byte_len content, 0)
  end.

Definition sum_z (l : list Z) : Z := foldr Z.add 0 l.

Definition estimate_input_tokens (req : AiRequest) : Z :=
  let parts := part_estimate <$> (req_messages req ≫= msg_content) in
  let chars := match req_system req with Some s => byte_len s | None => 0 end
    + sum_z (parts.*1)
    + sum_z ((fun t => byte_len (tool_name t) + byte_len (print_json (tool_parameters t)))
             <$> req_tools req) in
  (chars + 3) / 4 + sum_z (parts.*2).

(** ** Client streams *)

Inductive OpenBlock := OpenText (index : Z) | OpenReasoning (index : Z) | OpenTool (index : Z).

Definition open_index (b : OpenBlock) : Z :=
  match b with OpenText i | OpenReasoning i | OpenTool i => i end.

Record AnthropicStreamEncoder := mkAnthropicStreamEncoder {
  ae_id : string;
  ae_model : string;
  ae_message_started : bool;
  ae_ended : bool;
  ae_open_block : option OpenBlock;
  ae_next_index : Z;
  ae_tool_index_map : gmap Z Z;
  ae_usage : Usage
}.

Definition AnthropicStreamEncoder_new (id model : string) : AnthropicStreamEncoder :=
  mkAnthropicStreamEncoder id model false false None 0 ∅ Usage_default.

(** A frame: the name of the event and its data, which repeats the name. *)
Definition Frame : Type := string * Json.

Definition typed (kind : string) (fields : list (string * Json)) : Frame :=
  (kind, obj (("type", JString kind) :: fields)).

Definition frame_text (f : Frame) : string :=
  "event: " ^^ f.1 ^^ nl ^^ "data: " ^^ print_json f.2 ^^ nl ^^ nl.

Definition with_open (open : option OpenBlock) (e : AnthropicStreamEncoder) : AnthropicStreamEncoder :=
  mkAnthropicStreamEncoder (ae_id e) (ae_model e) (ae_message_started e) (ae_ended e) open
    (ae_next_index e) (ae_tool_index_map e) (ae_usage e).

Definition ensure_started (e : AnthropicStreamEncoder) : AnthropicStreamEncoder * list Frame :=
  if ae_message_started e then (e, [])
  else
    (mkAnthropicStreamEncoder (ae_id e) (ae_model e) true (ae_ended e) (ae_open_block e)
       (ae_next_index e) (ae_tool_index_map e) (ae_usage e),
     [typed "message_start" [("message",
        obj [("id", JString (ae_id e)); ("type", JString "message"); ("role", JString "assistant");
             ("model", JString (ae_model e)); ("content", JArray []); ("stop_reason", JNull);
             ("stop_sequence", JNull);
             ("usage", obj [("input_tokens", JInt (input_tokens (ae_usage e)));
                            ("output_tokens", JInt 0)])])]]).

Definition close_block (e : AnthropicStreamEncoder) : AnthropicStreamEncoder * list Frame :=
  match ae_open_block e with
  | Some open => (with_open None e, [typed "content_block_stop" [("index", JInt (open_index open))]])
  | None => (e, [])
  end.

(** Take the next index for a block and announce the block. *)
Definition open_block (make : Z -> OpenBlock) (block : Json) (e : AnthropicStreamEncoder)
  : AnthropicStreamEncoder * list Frame :=
  let index := ae_next_index e in
  (mkAnthropicStreamEncoder (ae_id e) (ae_model e) (ae_message_started e) (ae_ended e)
     (Some (make index)) (wrap32 (index + 1)) (ae_tool_index_map e) (ae_usage e),
   [typed "content_block_start" [("index", JInt index); ("content_block", block)]]).

Definition block_delta (index : Z) (delta : Json) : Frame :=
  typed "content_block_delta" [("index", JInt index); ("delta", delta)].

Definition map_tool (tool index : Z) (e : AnthropicStreamEncoder) : AnthropicStreamEncoder :=
  mkAnthropicStreamEncoder (ae_id e) (ae_model e) (ae_message_started e) (ae_ended e)
    (ae_open_block e) (ae_next_index e) (<[tool := index]> (ae_tool_index_map e)) (ae_usage e).

(** Run two steps of the encoder. *)
Definition then_frames (r : AnthropicStreamEncoder * list Frame)
    (f : AnthropicStreamEncoder -> AnthropicStreamEncoder * list Frame)
  : AnthropicStreamEncoder * list Frame :=
  let '(e, out) := r in let '(e, more) := f e in (e, out ++ more).

(** A delta of text or reasoning: in the open block of its kind, or in a new one. *)
Definition delta_in (is_kind : OpenBlock -> bool) (make : Z -> OpenBlock) (block delta : Json)
    (e : AnthropicStreamEncoder) : AnthropicStreamEncoder * list Frame :=
  let opened :=
    if match ae_open_block e with Some b => is_kind b | None => false end then (e, [])
    else then_frames (close_block e) (open_block make block) in
  then_frames opened (fun e =>
    (e, [block_delta match ae_open_block e with
                     | Some b => if is_kind b then open_index b else 0
                     | None => 0
                     end delta])).

Definition is_open_text (b : OpenBlock) : bool := match b with OpenText _ => true | _ => false end.
Definition is_open_reasoning (b : OpenBlock) : bool :=
  match b with OpenReasoning _ => true | _ => false end.

Definition name_message (id model : string) (e : AnthropicStreamEncoder) : AnthropicStreamEncoder :=
  mkAnthropicStreamEncoder (if is_empty (ae_id e) then id else ae_id e)
    (if is_empty (ae_model e) then model else ae_model e) (ae_message_started e) (ae_ended e)
    (ae_open_block e) (ae_next_index e) (ae_tool_index_map e) (ae_usage e).

Definition end_message (finish_reason : FinishReason) (e : AnthropicStreamEncoder)
  : AnthropicStreamEncoder * list Frame :=
  (mkAnthropicStreamEncoder (ae_id e) (ae_model e) (ae_message_started e) true (ae_open_block e)
     (ae_next_index e) (ae_tool_index_map e) (ae_usage e),
   [typed "message_delta"
      [("delta", obj [("stop_reason", JString (finish_to_stop_reason finish_reason));
                      ("stop_sequence", JNull)]);
       ("usage", obj [("output_tokens", JInt (output_tokens (ae_usage e)))])];
    typed "message_stop" []]).

Definition anthropic_frames (e : AnthropicStreamEncoder) (ev : AiStreamEvent)
  : AnthropicStreamEncoder * list Frame :=
  if ae_ended e then (e, [])
  else match ev with
  | EvMessageStart id model => ensure_started (name_message id model e)
  | EvOutputImage _ _ | EvCitation _ _ | EvServerToolCall _ _ _ => (e, [])
  | EvTextDelta text =>
      if is_empty text then (e, [])
      else then_frames (ensure_started e)
             (delta_in is_open_text OpenText (obj [("type", JString "text"); ("text", JString "")])
                (obj [("type", JString "text_delta"); ("text", JString text)]))
  | EvReasoningDelta text =>
      then_frames (ensure_started e)
        (delta_in is_open_reasoning OpenReasoning
           (obj [("type", JString "thinking"); ("thinking", JString "")])
           (obj [("type", JString "thinking_delta"); ("thinking", JString text)]))
  | EvToolCallStart tool id name =>
      then_frames (then_frames (ensure_started e) close_block)
        (fun e => open_block OpenTool
           (obj [("type", JString "tool_use"); ("id", JString id); ("name", JString name);
                 ("input", obj [])])
           (map_tool tool (ae_next_index e) e))
  | EvToolCallArgsDelta tool json =>
      then_frames (ensure_started e) (fun e =>
        (e, [block_delta (default 0 (ae_tool_index_map e !! tool))
               (obj [("type", JString "input_json_delta"); ("partial_json", JString json)])]))
  | EvToolCallEnd tool =>
      match ae_open_block e with
      | Some (OpenTool index) =>
          if default index (ae_tool_index_map e !! tool) =? index then close_block e else (e, [])
      | _ => (e, [])
      end
  | EvUsageDelta usage =>
      (mkAnthropicStreamEncoder (ae_id e) (ae_model e) (ae_message_started e) (ae_ended e)
         (ae_open_block e) (ae_next_index e) (ae_tool_index_map e) usage, [])
  | EvMessageEnd finish_reason =>
      then_frames (then_frames (ensure_started e) close_block) (end_message finish_reason)
  | EvError _ _ => (e, [])
  end.

Definition anthropic_encode (e : AnthropicStreamEncoder) (ev : AiStreamEvent)
  : AnthropicStreamEncoder * list string :=
  let '(e, frames) := anthropic_frames e ev in (e, frame_text <$> frames).

End Printed.
