(* ===== verification/MessagesStream.v ===== *)
(** * Streams in the Messages format

    What [AnthropicStreamEncoder] writes is a stream of the Messages protocol, and
    a client that assembles it gets the response that a client without streaming
    would have been sent. *)

From Stdlib Require Import ZArith Lia.
From stdpp Require Import base tactics list strings option gmap.
From S2P Require Import Prelude Text Lines BTree Float Ir Target Collect StreamTheorems Value OpenaiChat.
From S2P Require Import OpenaiTheorems Messages.

#[local] Open Scope Z_scope.
#[local] Open Scope switchback_scope.

#[local] Arguments has_type : simpl never.
#[local] Arguments index_of : simpl never.
#[local] Arguments obj : simpl never.
#[local] Arguments get : simpl never.
#[local] Arguments anthropic_decode : simpl never.
#[local] Arguments stop_reason_to_finish : simpl never.

(** ** Reading frames *)

(** Decide comparisons of literal strings. *)
Ltac literals :=
  repeat match goal with
  | |- context [str_eqb ?a ?b] =>
      first [change (str_eqb a b) with true | change (str_eqb a b) with false]
  end; simpl.

Lemma type_typed k kind fields :
  find_last "type" fields = None -> has_type k (obj (("type", JString kind) :: fields)) = str_eqb kind k.
Proof. intros H. unfold has_type, get_str. rewrite get_obj. simpl. by rewrite H. Qed.

Lemma get_typed k kind fields :
  k <> "type" -> get k (obj (("type", JString kind) :: fields)) = find_last k fields.
Proof.
  intros H. rewrite get_obj. simpl. destruct (find_last k fields); [done|].
  by destruct (String.eqb_spec k "type").
Qed.

Ltac read_typed := unfold typed; cbn [fst snd]; rewrite ?type_typed by done; literals.

Lemma index_typed kind i fields :
  0 <= i <= u32_max -> find_last "index" fields = None ->
  index_of (obj (("type", JString kind) :: ("index", JInt i) :: fields)) = i.
Proof.
  intros Hi H. unfold index_of, get_u64. rewrite get_typed by done. simpl. rewrite H.
  pose proof (index_back i Hi) as E. simpl in *. by rewrite E.
Qed.

(** ** The protocol *)

(** The state of a stream: before its message, between blocks with the index of
    the next one, inside a block of a type, after the last delta, over. *)
Inductive Phase := Before | Between (next : Z) | Inside (kind : string) (index : Z) | Closing | Over.

(** The delta that belongs in a block. *)
Definition delta_of (kind : string) : string :=
  if str_eqb kind "text" then "text_delta"
  else if str_eqb kind "thinking" then "thinking_delta" else "input_json_delta".

Definition messages_step (p : Phase) (f : Frame) : option Phase :=
  let data := f.2 in
  if negb (has_type f.1 data) then None
  else match p with
  | Before => if has_type "message_start" data then Some (Between 0) else None
  | Between next =>
      if has_type "content_block_start" data && (index_of data =? next) then
        kind ← (get "content_block" data ≫= get_str "type"); Some (Inside kind next)
      else if has_type "message_delta" data then Some Closing else None
  | Inside kind index =>
      if has_type "content_block_delta" data && (index_of data =? index)
         && has_type (delta_of kind) (default JNull (get "delta" data)) then Some p
      else if has_type "content_block_stop" data && (index_of data =? index)
      then Some (Between (index + 1)) else None
  | Closing => if has_type "message_stop" data then Some Over else None
  | Over => None
  end.

Fixpoint messages_run (p : Phase) (frames : list Frame) : option Phase :=
  match frames with
  | [] => Some p
  | f :: frames => p ← messages_step p f; messages_run p frames
  end.

Lemma messages_run_app p fs gs : messages_run p (fs ++ gs) = (messages_run p fs ≫= fun p => messages_run p gs).
Proof.
  revert p. induction fs as [|f fs IH]; intros p; simpl; [done|].
  destruct (messages_step p f); simpl; [apply IH|done].
Qed.

Fixpoint encode_frames (e : AnthropicStreamEncoder) (evs : list AiStreamEvent) : list Frame :=
  match evs with
  | [] => []
  | ev :: evs => let '(e, fs) := anthropic_frames e ev in fs ++ encode_frames e evs
  end.

(** [cur] is the tool call whose block is open: arguments and the end of a tool
    call are in place only there. *)
Definition in_place (cur : option Z) (ev : AiStreamEvent) : bool :=
  match ev with
  | EvToolCallArgsDelta i _ => bool_decide (cur = Some i)
  | EvToolCallEnd i => bool_decide (cur = Some i \/ cur = None)
  | _ => true
  end.

Definition next_cur (cur : option Z) (ev : AiStreamEvent) : option Z :=
  match ev with
  | EvToolCallStart i _ _ => Some i
  | EvToolCallEnd _ | EvReasoningDelta _ => None
  | EvTextDelta t => if is_empty t then cur else None
  | _ => cur
  end.

(** Up to the end of the message, everything is in place. *)
Fixpoint args_in_place (cur : option Z) (evs : list AiStreamEvent) : bool :=
  match evs with
  | [] => true
  | ev :: evs => in_place cur ev && (is_end ev || args_in_place (next_cur cur ev) evs)
  end.

Definition block_kind (b : OpenBlock) : string :=
  match b with OpenText _ => "text" | OpenReasoning _ => "thinking" | OpenTool _ => "tool_use" end.

(** The phase of the stream is the state of the encoder. *)
Definition phase_of (e : AnthropicStreamEncoder) : Phase :=
  if ae_ended e then Over
  else if ae_message_started e then
    match ae_open_block e with
    | Some b => Inside (block_kind b) (open_index b)
    | None => Between (ae_next_index e)
    end
  else Before.

Record encoder_ok (cur : option Z) (room : Z) (e : AnthropicStreamEncoder) : Prop := {
  eo_next : 0 <= ae_next_index e /\ ae_next_index e + room <= u32_max;
  eo_open : match ae_open_block e with
            | Some b => open_index b + 1 = ae_next_index e /\ 0 <= open_index b
            | None => True
            end;
  eo_fresh : ae_message_started e = false -> ae_open_block e = None /\ ae_next_index e = 0;
  eo_cur : match cur with
           | Some i => exists j, ae_open_block e = Some (OpenTool j) /\ ae_tool_index_map e !! i = Some j
           | None => forall j, ae_open_block e <> Some (OpenTool j)
           end
}.

(** *** The pieces of an encoding *)

Lemma run_started e :
  ae_ended e = false -> (ae_message_started e = false -> ae_open_block e = None /\ ae_next_index e = 0) ->
  messages_run (phase_of e) (ensure_started e).2 = Some (phase_of (ensure_started e).1).
Proof.
  intros He Hf. unfold ensure_started, phase_of. destruct (ae_message_started e) eqn:E; simpl; rewrite He; [by rewrite E|].
  destruct (Hf eq_refl) as [-> ->]. unfold messages_step. read_typed. done.
Qed.

Lemma run_close e :
  ae_ended e = false -> ae_message_started e = true ->
  match ae_open_block e with
  | Some b => open_index b + 1 = ae_next_index e /\ 0 <= open_index b
  | None => True end ->
  ae_next_index e <= u32_max ->
  messages_run (phase_of e) (close_block e).2 = Some (Between (ae_next_index e)).
Proof.
  intros He Hs Ho Hn. unfold close_block, phase_of. rewrite He, Hs. destruct (ae_open_block e) as [b|]; [|done].
  cbn [messages_run snd]. unfold messages_step. read_typed. rewrite index_typed by (done || lia).
  rewrite Z.eqb_refl. simpl. f_equal. f_equal. lia.
Qed.

Lemma run_open next make block e kind :
  next = ae_next_index e -> 0 <= next <= u32_max -> get_str "type" block = Some kind ->
  messages_run (Between next) (open_block make block e).2 = Some (Inside kind next).
Proof.
  intros -> Hn Hk. unfold open_block. cbn [messages_run snd]. unfold messages_step. read_typed.
  rewrite index_typed by done. rewrite Z.eqb_refl. simpl. rewrite ?get_typed by done. simpl. by rewrite Hk.
Qed.

Lemma run_delta kind index delta :
  0 <= index <= u32_max -> has_type (delta_of kind) delta = true ->
  messages_run (Inside kind index) [block_delta index delta] = Some (Inside kind index).
Proof.
  intros Hi Hd. cbn [messages_run]. unfold messages_step, block_delta. read_typed.
  rewrite index_typed by done. rewrite Z.eqb_refl, ?get_typed by done. simpl. by rewrite Hd.
Qed.

Lemma then_frames_eq r f :
  then_frames r f = ((f r.1).1, r.2 ++ (f r.1).2).
Proof. destruct r as [e out]. simpl. by destruct (f e). Qed.

Lemma then_frames_assoc r f g :
  then_frames (then_frames r f) g = then_frames r (fun e => then_frames (f e) g).
Proof. rewrite !then_frames_eq. cbn [fst snd]. by rewrite app_assoc. Qed.

Lemma ended_silent e evs : ae_ended e = true -> encode_frames e evs = [].
Proof.
  intros He. induction evs as [|ev evs IH]; [done|]. simpl. unfold anthropic_frames. by rewrite He.
Qed.

Lemma run_then p r f q :
  messages_run p r.2 = Some q ->
  messages_run p (then_frames r f).2 = messages_run q (f r.1).2.
Proof. intros H. rewrite then_frames_eq. simpl. by rewrite messages_run_app, H. Qed.

Lemma started_ok cur room e :
  encoder_ok cur room e ->
  encoder_ok cur room (ensure_started e).1 /\ ae_message_started (ensure_started e).1 = true
  /\ ae_ended (ensure_started e).1 = ae_ended e.
Proof.
  intros Hok. unfold ensure_started. destruct (ae_message_started e) eqn:E; simpl; [done|]. destruct Hok as [Hn Ho Hf Hc].
  split; [|done]. by split.
Qed.

Lemma room_less cur room room' e : room' <= room -> encoder_ok cur room e -> encoder_ok cur room' e.
Proof. intros Hr [Hn Ho Hf Hc]. split; try done. lia. Qed.

Lemma close_ok cur room e :
  encoder_ok cur room e ->
  encoder_ok None room (close_block e).1 /\ ae_open_block (close_block e).1 = None
  /\ ae_next_index (close_block e).1 = ae_next_index e
  /\ ae_message_started (close_block e).1 = ae_message_started e
  /\ ae_ended (close_block e).1 = ae_ended e.
Proof.
  intros [Hn Ho Hf Hc]. unfold close_block. destruct (ae_open_block e) eqn:E; simpl.
  - split; [|done]. split; simpl; try done. intros H. by destruct (Hf H).
  - rewrite E. split_and!; try done. split; try done; by rewrite E.
Qed.

Lemma open_ok make block room e :
  (forall i, open_index (make i) = i) ->
  0 <= ae_next_index e -> ae_next_index e + (room + 1) <= u32_max -> 0 <= room ->
  ae_message_started e = true ->
  let e' := (open_block make block e).1 in
  ae_next_index e' = ae_next_index e + 1 /\ ae_open_block e' = Some (make (ae_next_index e))
  /\ ae_message_started e' = true /\ ae_ended e' = ae_ended e
  /\ (0 <= ae_next_index e' /\ ae_next_index e' + room <= u32_max)
  /\ (open_index (make (ae_next_index e)) + 1 = ae_next_index e' /\ 0 <= open_index (make (ae_next_index e))).
Proof.
  intros Hm Hn Hr H0 Hs. simpl. rewrite Hm.
  assert (E : wrap32 (ae_next_index e + 1) = ae_next_index e + 1).
  { apply wrap32_small. unfold in_u32, Prelude.u32_max. unfold u32_max in *. lia. }
  rewrite E. split_and!; done || lia.
Qed.

Lemma run_delta_in is_kind make kind block delta cur room e :
  (forall b, is_kind b = true -> block_kind b = kind /\ forall j, b <> OpenTool j) ->
  (forall i, is_kind (make i) = true /\ open_index (make i) = i) ->
  get_str "type" block = Some kind -> has_type (delta_of kind) delta = true ->
  0 <= room -> ae_ended e = false -> ae_message_started e = true -> encoder_ok cur (room + 1) e ->
  let r := delta_in is_kind make block delta e in
  messages_run (phase_of e) r.2 = Some (phase_of r.1) /\ ae_ended r.1 = false
  /\ encoder_ok None room r.1.
Proof.
  intros Hk Hm Hb Hd H0 He Hs Hok. unfold delta_in. cbv zeta.
  destruct (match ae_open_block e with Some b => is_kind b | None => false end) eqn:E.
  - destruct (ae_open_block e) as [b|] eqn:Eb; [|done]. rewrite then_frames_eq. cbn [fst snd app].
    rewrite Eb, E. destruct (Hk b E) as [Hkb Hnt]. destruct Hok as [Hn Ho Hf Hc]. rewrite Eb in *.
    unfold phase_of. rewrite He, Hs, Eb, Hkb. split_and!; [|done|].
    + apply run_delta; [lia|done].
    + split; rewrite ?Eb; try done; [lia|]. intros j [= ->]. by eapply Hnt.
  - destruct (close_ok _ _ _ Hok) as (Hok1 & Eo & En & Es & Ee).
    assert (Hrun : messages_run (phase_of e) (close_block e).2 = Some (Between (ae_next_index e))).
    { destruct Hok as [Hn Ho Hf Hc]. apply run_close; done || lia. }
    destruct Hok as [Hn Ho Hf Hc].
    destruct (open_ok make block room (close_block e).1) as (Hx1 & Hx2 & Hx3 & Hx4 & Hx5 & Hx6);
      [intros; apply Hm|rewrite ?En; lia..|by rewrite Es|].
    rewrite (then_frames_eq (then_frames _ _)). rewrite (then_frames_eq (close_block e)). cbn [fst snd].
    rewrite !Hx2. destruct (Hm (ae_next_index (close_block e).1)) as [Hmk Hmi]. rewrite Hmk, Hmi.
    destruct (Hk _ Hmk) as [Hkb Hnt].
    split_and!; [|by rewrite Hx4, Ee|].
    + rewrite !messages_run_app, Hrun. cbn [mbind option_bind]. rewrite (run_open _ _ _ _ kind); [|by rewrite En|lia|done].
      cbn [mbind option_bind]. rewrite En, run_delta by (done || lia).
      unfold phase_of. rewrite Hx4, Ee, He, Hx3, Hx2, Hkb, Hmi. by rewrite En.
    + split; rewrite ?Hx2; try done; [by rewrite Hx3|]. intros j [= Hj]. by eapply Hnt.
Qed.

(** *** One event *)

(** Encoding one event is a move of the protocol, and leaves room for the rest. *)
Definition step_ok (cur : option Z) (room : Z) (p : Phase) (ev : AiStreamEvent)
    (r : AnthropicStreamEncoder * list Frame) : Prop :=
  messages_run p r.2 = Some (phase_of r.1) /\ ae_ended r.1 = is_end ev
  /\ (is_end ev = false -> encoder_ok (next_cur cur ev) room r.1).

Lemma run_close_ok cur room e :
  0 <= room -> ae_ended e = false -> ae_message_started e = true -> encoder_ok cur room e ->
  messages_run (phase_of e) (close_block e).2 = Some (Between (ae_next_index e)).
Proof. intros H0 He Hs [Hn Ho Hf Hc]. apply run_close; done || lia. Qed.

Lemma run_tool_start cur room e index id name :
  0 <= room -> ae_ended e = false -> ae_message_started e = true -> encoder_ok cur (room + 1) e ->
  step_ok cur room (phase_of e) (EvToolCallStart index id name)
    (then_frames (close_block e)
      (fun e => open_block OpenTool
         (obj [("type", JString "tool_use"); ("id", JString id); ("name", JString name);
               ("input", obj [])])
         (map_tool index (ae_next_index e) e))).
Proof.
  intros H0 He Hs Hok. set (block := obj [("type", JString "tool_use"); _; _; _]).
  pose proof (run_close_ok cur (room + 1) e ltac:(lia) He Hs Hok) as Hrun.
  destruct (close_ok _ _ _ Hok) as ([Hn2 Ho2 Hf2 Hc2] & Eo & En & Es & Ee).
  unfold step_ok. rewrite then_frames_eq. cbn [fst snd]. set (e2 := (close_block e).1) in *.
  destruct (open_ok OpenTool block room (map_tool index (ae_next_index e2) e2))
    as (Hx1 & Hx2 & Hx3 & Hx4 & Hx5 & Hx6); [done|simpl; lia..|simpl; by rewrite Es|].
  split_and!.
  - rewrite messages_run_app, Hrun. cbn [mbind option_bind].
    rewrite (run_open _ _ _ _ "tool_use"); [|by rewrite <- En|rewrite <- En; lia|done].
    unfold phase_of. rewrite Hx4, Hx3, Hx2. simpl. rewrite Ee, He. simpl. by rewrite En.
  - rewrite Hx4. simpl. by rewrite Ee.
  - intros _. split; rewrite ?Hx2; try done.
    + by rewrite Hx3.
    + exists (ae_next_index e2). split; [done|]. simpl. by rewrite lookup_insert_eq.
Qed.

Lemma run_tool_end cur room e index :
  0 <= room -> ae_ended e = false -> encoder_ok cur room e ->
  in_place cur (EvToolCallEnd index) = true ->
  step_ok cur room (phase_of e) (EvToolCallEnd index) (anthropic_frames e (EvToolCallEnd index)).
Proof.
  intros H0 He Hok Hev. unfold step_ok, anthropic_frames. rewrite He.
  apply bool_decide_eq_true in Hev. destruct Hev as [->| ->].
  - destruct (eo_cur _ _ _ Hok) as (j & Ej & Em). rewrite Ej, Em. simpl default. rewrite Z.eqb_refl.
    destruct (close_ok _ _ _ Hok) as (Hok2 & Eo & En & Es & Ee).
    assert (Hst : ae_message_started e = true).
    { destruct (ae_message_started e) eqn:E; [done|]. destruct (eo_fresh _ _ _ Hok E). congruence. }
    split_and!; [|by rewrite Ee|by eauto].
    rewrite (run_close_ok (Some index) room) by done. unfold phase_of. by rewrite Ee, He, Es, Hst, Eo, En.
  - pose proof (eo_cur _ _ _ Hok) as Hc. simpl in Hc.
    destruct (ae_open_block e) as [[]|]; try (by exfalso; eapply Hc); split_and!; eauto.
Qed.

Lemma run_message_end cur room e r :
  0 <= room -> ae_ended e = false -> ae_message_started e = true -> encoder_ok cur room e ->
  step_ok cur room (phase_of e) (EvMessageEnd r) (then_frames (close_block e) (end_message r)).
Proof.
  intros H0 He Hs Hok. unfold step_ok. rewrite then_frames_eq. cbn [fst snd]. split_and!; [|done|done].
  rewrite messages_run_app, (run_close_ok cur room) by done. cbn [mbind option_bind].
  unfold end_message. cbn [snd messages_run]. unfold messages_step. read_typed. done.
Qed.

(** The message is started first, where an event has something to say. *)
Lemma step_ok_then cur room p q ev r f :
  messages_run p r.2 = Some q -> step_ok cur room q ev (f r.1) -> step_ok cur room p ev (then_frames r f).
Proof.
  intros Hr (H1 & H2 & H3). unfold step_ok. rewrite (run_then _ _ _ _ Hr), then_frames_eq. by split_and!.
Qed.

Lemma run_text_like is_kind make kind block delta cur room e ev :
  (forall b, is_kind b = true -> block_kind b = kind /\ forall j, b <> OpenTool j) ->
  (forall i, is_kind (make i) = true /\ open_index (make i) = i) ->
  get_str "type" block = Some kind -> has_type (delta_of kind) delta = true ->
  0 <= room -> ae_ended e = false -> ae_message_started e = true -> encoder_ok cur (room + 1) e ->
  is_end ev = false -> next_cur cur ev = None ->
  step_ok cur room (phase_of e) ev (delta_in is_kind make block delta e).
Proof.
  intros Hk Hm Hb Hd H0 He Hs Hok Hev Hevs.
  destruct (run_delta_in is_kind make kind block delta cur room e) as (Hr & He2 & Hok2); try done.
  unfold step_ok. rewrite Hev, Hevs. by split_and!.
Qed.

Lemma run_event cur room e ev :
  0 <= room -> ae_ended e = false -> encoder_ok cur (room + 1) e ->
  in_place cur ev = true -> step_ok cur room (phase_of e) ev (anthropic_frames e ev).
Proof.
  intros H0 He Hok Hev.
  destruct (started_ok _ _ _ Hok) as (Hok1 & Hs1 & He1).
  pose proof (run_started e He (eo_fresh _ _ _ Hok)) as Hrun1. rewrite He in He1.
  assert (Hsame : encoder_ok cur room e) by (eapply room_less; [|done]; lia).
  destruct ev; try (by apply (run_tool_end cur)); unfold anthropic_frames; rewrite He;
    try (by unfold step_ok; split_and!).
  - assert (Hok' : encoder_ok cur (room + 1) (name_message id model e)) by (by destruct Hok; split).
    destruct (started_ok _ _ _ Hok') as (Hok2 & Hs2 & He2). unfold step_ok. split_and!.
    + apply (run_started (name_message id model e)); [done|]. apply Hok.
    + by rewrite He2.
    + intros _. eapply room_less; [|done]. lia.
  - destruct (is_empty text) eqn:Et; [unfold step_ok; simpl; rewrite Et; by split_and!|].
    eapply step_ok_then; [done|]. eapply run_text_like; try done; [by intros []|]. simpl. by rewrite Et.
  - eapply step_ok_then; [done|]. eapply run_text_like; try done. by intros [].
  - rewrite then_frames_assoc. eapply step_ok_then; [done|]. by eapply run_tool_start.
  - apply bool_decide_eq_true in Hev as ->. eapply step_ok_then; [done|].
    destruct (eo_cur _ _ _ Hok1) as (j & Ej & Em). rewrite Em.
    assert (Hsame1 : encoder_ok (Some index) room (ensure_started e).1) by (eapply room_less; [|done]; lia).
    unfold step_ok. cbn [fst snd]. split_and!; [|done|done].
    unfold phase_of. rewrite He1, Hs1, Ej. cbn [default block_kind open_index].
    pose proof (eo_open _ _ _ Hok1) as Ho. rewrite Ej in Ho. simpl in Ho.
    apply run_delta; [|done]. destruct Hok1 as [Hn _ _ _]. lia.
  - unfold step_ok. split_and!; [unfold phase_of; simpl; by rewrite He|done|]. intros _.
    by destruct Hsame; split.
  - rewrite then_frames_assoc. eapply step_ok_then; [done|]. apply (run_message_end cur); try done.
    eapply room_less; [|done]; lia.
Qed.

(** C22 (refinement). Whatever happens upstream, a client reads a stream of the
    Messages protocol: the message is announced first, blocks have consecutive
    indices, follow each other, and hold only deltas of their own type, and the
    message ends after its last block. For that, the arguments of a tool call have
    to follow its start before anything else opens a block. *)
Theorem messages_stream_protocol id model evs :
  args_in_place None evs = true -> Z.of_nat (length evs) <= u32_max ->
  exists p, messages_run Before (encode_frames (AnthropicStreamEncoder_new id model) evs) = Some p
            /\ (existsb is_end evs = true -> p = Over).
Proof.
  intros Hin Hlen.
  assert (Hok : encoder_ok None (Z.of_nat (length evs)) (AnthropicStreamEncoder_new id model)).
  { split; simpl; done || lia. }
  change Before with (phase_of (AnthropicStreamEncoder_new id model)).
  assert (He : ae_ended (AnthropicStreamEncoder_new id model) = false) by done.
  clear Hlen. revert He Hok Hin. generalize (AnthropicStreamEncoder_new id model) as e.
  generalize (@None Z) as cur. induction evs as [|ev evs IH]; intros cur e He Hok Hin; [by eexists|].
  simpl length in Hok. replace (Z.of_nat (S (length evs))) with (Z.of_nat (length evs) + 1) in Hok by lia.
  cbn [args_in_place] in Hin. apply andb_prop in Hin as [Hev Hin].
  destruct (run_event cur (Z.of_nat (length evs)) e ev) as (Hr & He' & Hnext); try done; [lia|].
  cbn [encode_frames existsb]. destruct (anthropic_frames e ev) as [e' fs]. cbn [fst snd] in *.
  rewrite messages_run_app, Hr. cbn [mbind option_bind]. destruct (is_end ev) eqn:Eend.
  - exists Over. rewrite (ended_silent e' evs He'). split; [|done]. unfold phase_of. by rewrite He'.
  - destruct (IH (next_cur cur ev) e' He' (Hnext eq_refl) Hin) as (p & Hp & Hover). by exists p.
Qed.

(** ** What a Messages client assembles

    A response rendered for a client and read again, and a stream encoded for a
    client, decoded and assembled: both give the part of the canonical response
    that the format can carry. *)

#[local] Open Scope Z_scope.
#[local] Open Scope switchback_scope.

#[local] Arguments has_type : simpl never.
#[local] Arguments index_of : simpl never.
#[local] Arguments get : simpl never.
#[local] Arguments obj : simpl never.
#[local] Arguments anthropic_decode : simpl never.
#[local] Arguments stop_reason_to_finish : simpl never.
#[local] Arguments close_block : simpl never.
#[local] Arguments open_block : simpl never.

(** ** The view of a client *)

(** Text, reasoning and tool calls; not images, citations or server tools. *)
Definition messages_part (p : ContentPart) : bool :=
  match p with
  | Text t | Reasoning t _ => negb (is_empty t)
  | ToolUse _ _ _ => true
  | _ => false
  end.

(** Filtered and failed messages are reported as ended turns. *)
Definition messages_finish (r : FinishReason) : FinishReason :=
  match r with ContentFilter | FinishError => Stop | r => r end.

Definition messages_view (usage : Usage) (resp : AiResponse) : AiResponse :=
  mkAiResponse (resp_id resp) (resp_model resp)
    (mkMessage RoleAssistant (List.filter messages_part (msg_content (resp_message resp))) None)
    (messages_finish (resp_finish_reason resp)) usage.

Lemma stop_reason_back r :
  stop_reason_to_finish (Some (finish_to_stop_reason r)) = messages_finish r.
Proof. by destruct r. Qed.

(** ** Responses *)

Lemma usage_back i o :
  in_u64b i = true -> in_u64b o = true ->
  usage_from_json (Some (obj [("input_tokens", JInt i); ("output_tokens", JInt o)])) = mkUsage i o 0 0 None.
Proof.
  intros Hi Ho. unfold usage_from_json, get_u64. cbn [mbind option_bind]. json_get.
  by rewrite !as_u64_int by done.
Qed.

Lemma parse_block_back parts :
  exists parsed, try_map parse_response_block (omap response_block parts) = Ok parsed
                 /\ omap (fun p => p) parsed = List.filter messages_part parts.
Proof.
  induction parts as [|p parts (parsed & Hp & Hf)]; [by exists []|].
  destruct p; cbn [omap list_omap response_block List.filter messages_part];
    try (by exists parsed); cbn [try_map]; unfold parse_response_block at 1.
  - read_typed. unfold get_str. json_get. rewrite Hp. simpl.
    eexists. split; [done|]. rewrite <- Hf. by destruct (is_empty text).
  - read_typed. unfold get_str. json_get. rewrite Hp. simpl. eexists. split; [done|]. by rewrite <- Hf.
  - unfold has_type, get_str. json_get. rewrite or_else_none. simpl. unfold has_type, get_str. literals.
    rewrite Hp. simpl. eexists. split; [done|]. rewrite <- Hf.
    destruct (is_empty text); [done|]. by destruct signature.
Qed.

(** A response rendered for a Messages client is read back as its view, with both
    token counts. *)
Lemma messages_response_roundtrip fresh resp :
  in_u64b (input_tokens (resp_usage resp)) = true -> in_u64b (output_tokens (resp_usage resp)) = true ->
  parse_anthropic_response fresh (response_to_anthropic resp)
  = Ok (messages_view (mkUsage (input_tokens (resp_usage resp)) (output_tokens (resp_usage resp)) 0 0 None)
          resp).
Proof.
  intros Hi Ho. unfold parse_anthropic_response, response_to_anthropic, get_array, get_str. json_get.
  destruct (parse_block_back (msg_content (resp_message resp))) as (parsed & -> & Hf). simpl.
  rewrite Hf, usage_back by done. by rewrite stop_reason_back.
Qed.

(** ** Reading frames *)

Fixpoint decode_frames (d : AnthropicStreamDecoder) (fs : list Frame)
  : AnthropicStreamDecoder * list AiStreamEvent :=
  match fs with
  | [] => (d, [])
  | f :: fs =>
      let '(d, evs) := anthropic_decode d f.2 in
      let '(d, more) := decode_frames d fs in (d, evs ++ more)
  end.

Definition decode_messages (fs : list Frame) : list AiStreamEvent :=
  let '(d, evs) := decode_frames AnthropicStreamDecoder_new fs in evs ++ (anthropic_finish d).2.

Lemma decode_frames_app d fs gs :
  decode_frames d (fs ++ gs)
  = ((decode_frames (decode_frames d fs).1 gs).1,
     (decode_frames d fs).2 ++ (decode_frames (decode_frames d fs).1 gs).2).
Proof.
  revert d. induction fs as [|f fs IH]; intros d; simpl; [by destruct (decode_frames d gs)|].
  destruct (anthropic_decode d f.2) as [d1 o1]. rewrite IH. destruct (decode_frames d1 fs) as [d2 o2].
  destruct (decode_frames d2 gs) as [d3 o3]. simpl. by rewrite app_assoc.
Qed.

Definition add_tool_block (i : Z) (d : AnthropicStreamDecoder) : AnthropicStreamDecoder :=
  mkAnthropicStreamDecoder (ad_started d) (ad_ended d) ({[i]} ∪ ad_tool_blocks d) (ad_stop_reason d)
    (ad_usage d).

Lemma decode_stop d i :
  0 <= i <= u32_max ->
  anthropic_decode d (typed "content_block_stop" [("index", JInt i)]).2
  = (d, if bool_decide (i ∈ ad_tool_blocks d) then [EvToolCallEnd i] else []).
Proof. intros Hi. unfold anthropic_decode. read_typed. by rewrite index_typed. Qed.

Lemma decode_start d i block :
  0 <= i <= u32_max ->
  anthropic_decode d (typed "content_block_start" [("index", JInt i); ("content_block", block)]).2
  = decode_block_start d i block.
Proof.
  intros Hi. unfold anthropic_decode. read_typed. rewrite index_typed, ?get_typed by done. done.
Qed.

Lemma decode_delta d i delta :
  0 <= i <= u32_max -> anthropic_decode d (block_delta i delta).2 = (d, decode_block_delta i delta).
Proof.
  intros Hi. unfold anthropic_decode, block_delta. read_typed. by rewrite index_typed, ?get_typed by done.
Qed.

(** Ends of tool calls leave what is assembled as it is. *)
Definition inert (evs : list AiStreamEvent) : Prop := Forall (fun ev => exists i, ev = EvToolCallEnd i) evs.

Lemma inert_absorb evs c : inert evs -> fold_left absorb (Ok <$> evs) c = c.
Proof. intros H. induction H as [|ev evs [i ->] H IH]; [done|]. by destruct c. Qed.

Lemma inert_no_errors evs : inert evs -> no_errors evs.
Proof. intros H. induction H as [|ev evs [i ->] H IH]; constructor; done. Qed.

Lemma decode_close d e cur room :
  0 <= room -> encoder_ok cur room e ->
  exists out, decode_frames d (close_block e).2 = (d, out) /\ inert out.
Proof.
  intros H0 [Hn Ho Hf Hc]. unfold close_block. destruct (ae_open_block e) as [b|]; [|exists []; split; [done|constructor]].
  cbn [snd decode_frames]. rewrite decode_stop by lia. eexists. split; [done|].
  destruct (bool_decide _); repeat constructor. by eexists.
Qed.

(** ** Complete streams *)

(** A stream that ends with its message, in which everything is in place, tool
    calls start in the order of their indices, and usage can be written. *)
Fixpoint complete (cur : option Z) (top : Z) (evs : list AiStreamEvent) : bool :=
  match evs with
  | [] => false
  | EvMessageEnd _ :: evs => list_empty evs
  | ev :: evs =>
      in_place cur ev
      && match ev with
         | EvToolCallStart i _ _ => (top <? i) && complete (next_cur cur ev) i evs
         | EvUsageDelta u => in_u64b (output_tokens u) && complete (next_cur cur ev) top evs
         | _ => complete (next_cur cur ev) top evs
         end
  end.

(** What the collector here and the client have assembled. The tool calls of the
    client are numbered by their blocks; the one being written is the last. *)
Record same_message (cur : option Z) (top : Z) (e : AnthropicStreamEncoder) (c c' : Collector) : Prop := {
  sm_text : c_content c' = c_content c /\ c_reasoning c' = c_reasoning c;
  sm_others : c_images c' = [] /\ c_citations c' = [] /\ c_server_tools c' = [];
  sm_tools : (c_tool_uses c').*2 = (c_tool_uses c).*2;
  sm_keys : Forall (fun kv => kv.1 <= top) (c_tool_uses c)
            /\ Forall (fun kv => kv.1 < ae_next_index e) (c_tool_uses c');
  sm_last : match cur with
            | Some i => exists j v m m', ae_tool_index_map e !! i = Some j
                /\ c_tool_uses c = m ++ [(i, v)] /\ c_tool_uses c' = m' ++ [(j, v)]
                /\ Forall (fun kv => kv.1 < i) m /\ Forall (fun kv => kv.1 < j) m'
            | None => True
            end;
  sm_usage : c_usage c = ae_usage e;
  sm_finish : c_finish_reason c = None
}.

(** ** One event *)

Definition reading (d : AnthropicStreamDecoder) : Prop :=
  ad_started d = true /\ ad_ended d = false /\ ad_stop_reason d = None /\ ad_usage d = Usage_default.

(** The encoder and the client in the middle of a message. *)
Record live (cur : option Z) (top room : Z) (e : AnthropicStreamEncoder) (d : AnthropicStreamDecoder)
    (c c' : Collector) : Prop := {
  lv_started : ae_message_started e = true;
  lv_ended : ae_ended e = false;
  lv_encoder : encoder_ok cur room e;
  lv_decoder : reading d;
  lv_same : same_message cur top e c c'
}.

Lemma ensure_started_id e : ae_message_started e = true -> ensure_started e = (e, []).
Proof. unfold ensure_started. by intros ->. Qed.

(** Text and reasoning are decoded as they were encoded; blocks are opened and
    closed around them. *)
Lemma decode_delta_in is_kind make kind block delta cur room e d ev :
  (forall b, is_kind b = true -> block_kind b = kind /\ forall j, b <> OpenTool j) ->
  (forall i, is_kind (make i) = true /\ open_index (make i) = i) ->
  (forall i, decode_block_start d i block = (d, [])) -> (forall i, decode_block_delta i delta = [ev]) ->
  0 <= room -> ae_message_started e = true -> encoder_ok cur (room + 1) e ->
  let r := delta_in is_kind make block delta e in
  (exists out, decode_frames d r.2 = (d, out ++ [ev]) /\ inert out)
  /\ ae_message_started r.1 = true /\ ae_usage r.1 = ae_usage e
  /\ ae_next_index e <= ae_next_index r.1.
Proof.
  intros Hk Hm Hb Hd H0 Hs Hok. unfold delta_in. cbv zeta.
  destruct (match ae_open_block e with Some b => is_kind b | None => false end) eqn:E.
  - destruct (ae_open_block e) as [b|] eqn:Eb; [|done]. rewrite then_frames_eq. cbn [fst snd app].
    rewrite Eb, E. split_and!; [|done|done|lia]. exists []. split; [|constructor].
    destruct Hok as [Hn Ho Hf Hc]. rewrite Eb in Ho. cbn [decode_frames].
    rewrite decode_delta by lia. by rewrite Hd.
  - destruct (decode_close d e cur (room + 1)) as (out & Hout & Hin); [lia|done|].
    destruct (close_ok _ _ _ Hok) as ([Hn2 Ho2 Hf2 Hc2] & Eo & En & Es & Ee).
    destruct (open_ok make block room (close_block e).1) as (Hx1 & Hx2 & Hx3 & Hx4 & Hx5 & Hx6);
      [intros; apply Hm|lia..|by rewrite Es|].
    rewrite (then_frames_eq (then_frames _ _)), (then_frames_eq (close_block e)). cbn [fst snd].
    rewrite !Hx2. destruct (Hm (ae_next_index (close_block e).1)) as [Hmk Hmi]. rewrite Hmk, Hmi.
    split_and!; [|done|unfold open_block, close_block; by destruct (ae_open_block e)|lia].
    exists out. split; [|done]. rewrite !decode_frames_app, Hout. cbn [fst snd].
    unfold open_block. cbn [snd decode_frames]. rewrite decode_start by lia. rewrite Hb. cbn [fst snd app].
    rewrite decode_delta by lia. rewrite Hd. simpl. by rewrite app_nil_r.
Qed.

Lemma same_grow cur top e e' c c' :
  same_message cur top e c c' -> ae_usage e' = ae_usage e -> ae_next_index e <= ae_next_index e' ->
  same_message None top e' c c'.
Proof.
  intros [H1 H2 H3 [H4 H5] H6 H7 H8] Hu Hn. split; try done; [|by rewrite Hu]. split; [done|].
  eapply Forall_impl; [done|]. simpl. lia.
Qed.

(** Both sides take in the same text or reasoning. *)
Lemma same_absorb_text cur top e c c' ev :
  match ev with EvTextDelta _ | EvReasoningDelta _ => True | _ => False end ->
  same_message cur top e c c' -> same_message cur top e (absorb c (Ok ev)) (absorb c' (Ok ev)).
Proof.
  intros Hev [[H1 H1'] H2 H3 H4 H5 H6 H7]. destruct ev; try done; split; unfold absorb; simpl; try done.
  - by rewrite H1.
  - by rewrite H1'.
Qed.

(** What the format drops, only the collector here takes in. *)
Definition dropped (ev : AiStreamEvent) : bool :=
  match ev with
  | EvMessageStart _ _ | EvOutputImage _ _ | EvCitation _ _ | EvServerToolCall _ _ _
  | EvToolCallEnd _ => true
  | EvTextDelta t => is_empty t
  | _ => false
  end.

Lemma same_absorb_dropped cur top e c c' ev :
  dropped ev = true -> same_message cur top e c c' -> same_message cur top e (absorb c (Ok ev)) c'.
Proof.
  intros Hev [[H1 H1'] H2 H3 H4 H5 H6 H7]. destruct ev; try done; unfold absorb; simpl;
    try (split; simpl; done).
  - destruct text; [|done]. split; simpl; try done. by rewrite append_nil_r.
  - by destruct (str_eqb status "completed"); split.
Qed.

Lemma same_tool_start cur top e c c' i id name j e' :
  same_message cur top e c c' -> top < i -> ae_next_index e <= j -> ae_next_index e' = j + 1 ->
  ae_usage e' = ae_usage e -> ae_tool_index_map e' !! i = Some j ->
  same_message (Some i) i e' (absorb c (Ok (EvToolCallStart i id name)))
    (absorb c' (Ok (EvToolCallStart j id name))).
Proof.
  intros [H1 H2 H3 [H4 H5] H6 H7 H8] Hi Hj Hn Hu Hm.
  assert (Ha : Forall (fun kv => kv.1 < i) (c_tool_uses c)) by (eapply Forall_impl; [done|]; simpl; lia).
  assert (Hb : Forall (fun kv => kv.1 < j) (c_tool_uses c')) by (eapply Forall_impl; [done|]; simpl; lia).
  unfold absorb. simpl. rewrite !bt_insert_above by done.
  split; simpl; try done; rewrite ?Hu; try done.
  - by rewrite !fmap_app, H3.
  - split; apply Forall_app; (split; [eapply Forall_impl; [done|]; simpl; lia|]);
      (constructor; [simpl; lia|constructor]).
  - by exists j, (id, name, EmptyString), (c_tool_uses c), (c_tool_uses c').
Qed.

Lemma same_tool_args i top e c c' json j :
  same_message (Some i) top e c c' -> ae_tool_index_map e !! i = Some j ->
  same_message (Some i) top e (absorb c (Ok (EvToolCallArgsDelta i json)))
    (absorb c' (Ok (EvToolCallArgsDelta j json))).
Proof.
  intros [H1 H2 H3 [H4 H5] (j' & [[id name] args] & m & m' & Hj & Ec & Ec' & Hm & Hm') H7 H8] Hj'.
  assert (j' = j) as -> by congruence. unfold absorb. simpl. unfold take_bytes. simpl.
  rewrite Ec, Ec', !bt_get_last, !bt_update_last by done.
  rewrite Ec, Ec', !fmap_app in H3. apply app_inj_2 in H3 as [H3 _]; [|done].
  rewrite Ec in H4. rewrite Ec' in H5. apply Forall_app in H4 as [H4 [H4' _]%Forall_cons_1].
  apply Forall_app in H5 as [H5 [H5' _]%Forall_cons_1].
  split; simpl; try done.
  - by rewrite !fmap_app, H3.
  - split; apply Forall_app; (split; [done|]); (constructor; [done|constructor]).
  - by exists j, (id, name, args ^^ json), m, m'.
Qed.

(** An event of the message moves both sides alike. *)
Definition moves (cur : option Z) (room : Z) (d : AnthropicStreamDecoder) (c c' : Collector)
    (ev : AiStreamEvent) (evs : list AiStreamEvent) (r : AnthropicStreamEncoder * list Frame) : Prop :=
  exists top d' out, decode_frames d r.2 = (d', out) /\ no_errors out
    /\ live (next_cur cur ev) top room r.1 d' (absorb c (Ok ev)) (fold_left absorb (Ok <$> out) c')
    /\ complete (next_cur cur ev) top evs = true.

Lemma absorb_tail out ev c :
  inert out -> fold_left absorb (Ok <$> (out ++ [ev])) c = absorb c (Ok ev).
Proof. intros H. rewrite fmap_app, fold_left_app, (inert_absorb out) by done. done. Qed.

Lemma no_errors_tail out ev : inert out -> item_error (Ok ev) = None -> no_errors (out ++ [ev]).
Proof. intros H He. apply no_errors_app; [by apply inert_no_errors|]. by constructor. Qed.

Lemma moves_text_like is_kind make kind block delta cur top room e d c c' ev evs :
  (forall b, is_kind b = true -> block_kind b = kind /\ forall j, b <> OpenTool j) ->
  (forall i, is_kind (make i) = true /\ open_index (make i) = i) ->
  (forall i, decode_block_start d i block = (d, [])) -> (forall i, decode_block_delta i delta = [ev]) ->
  get_str "type" block = Some kind -> has_type (delta_of kind) delta = true ->
  match ev with EvTextDelta _ | EvReasoningDelta _ => True | _ => False end ->
  next_cur cur ev = None -> 0 <= room -> live cur top (room + 1) e d c c' ->
  complete None top evs = true ->
  moves cur room d c c' ev evs (delta_in is_kind make block delta e).
Proof.
  intros Hk Hm Hb Hd Ht Hdt Hev Hcur H0 [Hs He Hok Hrd Hsm] Hc.
  destruct (decode_delta_in is_kind make kind block delta cur room e d ev)
    as ((out & Hout & Hin) & Hs' & Hu & Hn); try done.
  destruct (run_delta_in is_kind make kind block delta cur room e) as (_ & He' & Hok'); try done.
  exists top, d, (out ++ [ev]). rewrite Hcur. split_and!; [done| |split|done]; try done.
  - apply no_errors_tail; [done|]. by destruct ev.
  - rewrite absorb_tail by done. apply same_absorb_text; [done|]. by eapply same_grow.
Qed.

(** Events without frames. *)
Lemma moves_dropped cur top room e e' d c c' ev evs :
  dropped ev = true -> live cur top (room + 1) e d c c' -> ae_ended e' = false ->
  ae_message_started e' = true -> encoder_ok (next_cur cur ev) room e' ->
  same_message (next_cur cur ev) top e' c c' -> complete (next_cur cur ev) top evs = true ->
  moves cur room d c c' ev evs (e', []).
Proof.
  intros Hd [Hs He Hok Hrd Hsm] He' Hs' Hok' Hsm' Hc. exists top, d, []. split_and!; [done|constructor| |done].
  split; try done. by apply same_absorb_dropped.
Qed.

Lemma moves_tool_start cur top room e d c c' i id name evs :
  0 <= room -> live cur top (room + 1) e d c c' -> top < i ->
  complete (Some i) i evs = true ->
  moves cur room d c c' (EvToolCallStart i id name) evs (anthropic_frames e (EvToolCallStart i id name)).
Proof.
  intros H0 [Hs He Hok Hrd Hsm] Hi Hc.
  destruct (run_event cur room e (EvToolCallStart i id name)) as (_ & He' & Hok'); try done.
  specialize (Hok' eq_refl). revert He' Hok'. unfold anthropic_frames. rewrite He, ensure_started_id by done.
  destruct (decode_close d e cur (room + 1)) as (out & Hout & Hin); [lia|done|].
  destruct (close_ok _ _ _ Hok) as ([Hn2 Ho2 Hf2 Hc2] & Eo & En & Es & Ee).
  rewrite (then_frames_eq (then_frames _ _)), (then_frames_eq (e, [])). cbn [fst snd app].
  set (e2 := (close_block e).1) in *. set (block := obj [("type", JString "tool_use"); _; _; _]).
  destruct (open_ok OpenTool block room (map_tool i (ae_next_index e2) e2))
    as (Hx1 & Hx2 & Hx3 & Hx4 & Hx5 & Hx6); [done|simpl; lia..|simpl; by rewrite Es|].
  intros He' Hok'. exists i, (add_tool_block (ae_next_index e2) d), (out ++ [EvToolCallStart (ae_next_index e2) id name]).
  split_and!; [| |split|done]; try done.
  - cbn [snd]. rewrite decode_frames_app, Hout. cbn [fst snd]. unfold open_block. cbn [snd decode_frames ae_next_index map_tool].
    rewrite decode_start by lia. unfold decode_block_start, block. read_typed. unfold get_str. json_get. done.
  - by apply no_errors_tail.
  - rewrite absorb_tail by done. eapply same_tool_start; try done.
    + by rewrite En.
    + unfold open_block, map_tool, e2, close_block. simpl. by destruct (ae_open_block e).
    + unfold open_block, map_tool. simpl. by rewrite lookup_insert_eq.
Qed.

Lemma moves_tool_args cur top room e d c c' i json evs :
  0 <= room -> live cur top (room + 1) e d c c' -> cur = Some i -> complete cur top evs = true ->
  moves cur room d c c' (EvToolCallArgsDelta i json) evs (anthropic_frames e (EvToolCallArgsDelta i json)).
Proof.
  intros H0 [Hs He Hok Hrd Hsm] -> Hc. unfold anthropic_frames. rewrite He, ensure_started_id by done.
  rewrite then_frames_eq. cbn [fst snd app].
  destruct (eo_cur _ _ _ Hok) as (j & Ej & Em). rewrite Em.
  pose proof (eo_open _ _ _ Hok) as Ho. rewrite Ej in Ho. simpl in Ho.
  exists top, d, [EvToolCallArgsDelta j json]. split_and!; [|by repeat constructor|split|done]; try done.
  - cbn [snd default decode_frames]. rewrite decode_delta by (destruct Hok as [Hn _ _ _]; simpl; lia).
    unfold decode_block_delta. read_typed. unfold get_str. json_get. done.
  - eapply room_less; [|done]. lia.
  - by apply same_tool_args.
Qed.

Lemma moves_tool_end cur top room e d c c' i evs :
  0 <= room -> live cur top (room + 1) e d c c' -> in_place cur (EvToolCallEnd i) = true ->
  complete None top evs = true ->
  moves cur room d c c' (EvToolCallEnd i) evs (anthropic_frames e (EvToolCallEnd i)).
Proof.
  intros H0 Hlive Hp Hc. pose proof Hlive as [Hs He Hok Hrd Hsm].
  destruct (run_event cur room e (EvToolCallEnd i)) as (_ & He' & Hok'); try done.
  specialize (Hok' eq_refl). revert He' Hok'. unfold anthropic_frames. rewrite He.
  assert (Hsame : same_message None top e c c') by (eapply same_grow; done || lia).
  destruct (ae_open_block e) as [[| |j]|] eqn:Eo; try (intros; by eapply moves_dropped).
  destruct (default j (ae_tool_index_map e !! i) =? j) eqn:Ej; [|intros; by eapply moves_dropped].
  intros He' Hok'. destruct (decode_close d e cur (room + 1)) as (out & Hout & Hin); [lia|done|].
  destruct (close_ok _ _ _ Hok) as (_ & _ & En & Es & _).
  exists top, d, out. split_and!; [done|by apply inert_no_errors|split|done]; try done; [by rewrite Es|].
  rewrite inert_absorb by done. apply same_absorb_dropped; [done|]. eapply same_grow; [done| |lia].
  unfold close_block. by rewrite Eo.
Qed.

Lemma moves_event cur top room e d c c' ev evs :
  0 <= room -> live cur top (room + 1) e d c c' -> item_error (Ok ev) = None -> is_end ev = false ->
  complete cur top (ev :: evs) = true -> moves cur room d c c' ev evs (anthropic_frames e ev).
Proof.
  intros H0 Hlive Herr Hend Hc. pose proof Hlive as [Hs He Hok Hrd Hsm].
  assert (Hok' : encoder_ok cur room e) by (eapply room_less; [|done]; lia).
  destruct ev; try done; cbn [complete] in Hc; apply andb_prop in Hc as [Hp Hc].
  - unfold anthropic_frames. rewrite He. rewrite ensure_started_id by done.
    eapply moves_dropped; try done; [by destruct Hok'; split|]. by destruct Hsm; split.
  - unfold anthropic_frames. rewrite He, ensure_started_id by done.
    destruct (is_empty text) eqn:Et; cbn [next_cur] in Hc; rewrite Et in Hc.
    + eapply moves_dropped; try done; simpl; by rewrite Et.
    + rewrite then_frames_eq. cbn [fst snd app]. rewrite <- surjective_pairing.
      eapply moves_text_like; try done; [by intros []|simpl; by rewrite Et].
  - unfold anthropic_frames. rewrite He, ensure_started_id by done.
    rewrite then_frames_eq. cbn [fst snd app]. rewrite <- surjective_pairing.
    eapply moves_text_like; try done. by intros [].
  - apply andb_prop in Hc as [Ht%Z.ltb_lt Hc]. by eapply moves_tool_start.
  - apply bool_decide_eq_true in Hp. by eapply moves_tool_args.
  - by eapply moves_tool_end.
  - unfold anthropic_frames. rewrite He. by eapply moves_dropped.
  - unfold anthropic_frames. rewrite He. by eapply moves_dropped.
  - unfold anthropic_frames. rewrite He. by eapply moves_dropped.
  - unfold anthropic_frames. rewrite He. apply andb_prop in Hc as [_ Hc].
    exists top, d, []. split_and!; [done|constructor|split|done]; try done; [by destruct Hok'; split|].
    by destruct Hsm; split.
Qed.

(** ** The whole message *)

Record same_end (c c' : Collector) : Prop := {
  se_text : c_content c' = c_content c /\ c_reasoning c' = c_reasoning c;
  se_others : c_images c' = [] /\ c_citations c' = [] /\ c_server_tools c' = [];
  se_tools : (c_tool_uses c').*2 = (c_tool_uses c).*2;
  se_usage : c_usage c' = mkUsage 0 (output_tokens (c_usage c)) 0 0 None;
  se_finish : default Stop (c_finish_reason c') = messages_finish (default Stop (c_finish_reason c))
}.

Lemma decode_end d e r :
  reading d -> in_u64b (output_tokens (ae_usage e)) = true ->
  exists d', ad_ended d' = true
    /\ decode_frames d (end_message r e).2
       = (d', [EvUsageDelta (mkUsage 0 (output_tokens (ae_usage e)) 0 0 None); EvMessageEnd (messages_finish r)]).
Proof.
  intros (Hs & He & Hr & Hu) Ho. unfold end_message. cbn [snd decode_frames].
  unfold anthropic_decode at 1. read_typed. rewrite ?get_typed by done. cbn [find_last mbind option_bind].
  unfold get_str, get_u64. simpl. json_get. rewrite as_u64_int by done. simpl.
  unfold anthropic_decode. read_typed. rewrite stop_reason_back, Hu. eexists. split; [|reflexivity]. done.
Qed.

Lemma same_message_end cur top e c c' r usage :
  same_message cur top e c c' -> usage = mkUsage 0 (output_tokens (ae_usage e)) 0 0 None ->
  same_end (absorb c (Ok (EvMessageEnd r)))
    (absorb (absorb c' (Ok (EvUsageDelta usage))) (Ok (EvMessageEnd (messages_finish r)))).
Proof. intros [H1 H2 H3 H4 H5 H6 H7] ->. split; try done. simpl. by rewrite H6. Qed.

Lemma reread_messages evs : forall cur top e d c c',
  live cur top (Z.of_nat (length evs)) e d c c' -> no_errors evs -> complete cur top evs = true ->
  in_u64b (output_tokens (c_usage c)) = true ->
  exists d' out, decode_frames d (encode_frames e evs) = (d', out) /\ no_errors out /\ ad_ended d' = true
    /\ same_end (fold_left absorb (Ok <$> evs) c) (fold_left absorb (Ok <$> out) c').
Proof.
  induction evs as [|ev evs IH]; intros cur top e d c c' Hlive Hno Hc Hu; [done|].
  apply Forall_cons_1 in Hno as [Herr Hno]. simpl length in Hlive.
  replace (Z.of_nat (S (length evs))) with (Z.of_nat (length evs) + 1) in Hlive by lia.
  destruct (is_end ev) eqn:Eend.
  - destruct ev; try done. simpl in Hc. destruct evs; [|done]. cbn [encode_frames].
    pose proof Hlive as [Hs He Hok Hrd Hsm]. unfold anthropic_frames. rewrite He, ensure_started_id by done.
    rewrite (then_frames_eq (then_frames _ _)), (then_frames_eq (e, [])). cbn [fst snd app].
    destruct (decode_close d e cur (0 + 1)) as (out & Hout & Hin); [done|done|].
    assert (Hus : ae_usage (close_block e).1 = ae_usage e).
    { unfold close_block. by destruct (ae_open_block e). }
    destruct (decode_end d (close_block e).1 finish_reason) as (d' & Hd' & Hdec); [done| |].
    { rewrite Hus, <- (sm_usage _ _ _ _ _ Hsm). done. }
    rewrite app_nil_r, decode_frames_app, Hout. cbn [fst snd]. rewrite Hdec. cbn [fst snd].
    eexists d', _. split_and!; [done| |done|].
    + apply no_errors_app; [by apply inert_no_errors|by repeat constructor].
    + rewrite fmap_app, fold_left_app, (inert_absorb out) by done. cbn [fmap list_fmap fold_left].
      eapply same_message_end; [done|]. by rewrite Hus.
  - destruct (moves_event cur top (Z.of_nat (length evs)) e d c c' ev evs)
      as (top' & d1 & out & Hout & Hno1 & Hlive' & Hc'); try done; [lia|].
    cbn [encode_frames]. destruct (anthropic_frames e ev) as [e' fs]. cbn [fst snd] in *.
    destruct (IH _ _ _ _ _ _ Hlive' Hno Hc') as (d2 & more & Hmore & Hno2 & Hended & Hse).
    { destruct (absorb_fields c (Ok ev) Herr) as (_ & Hux & _). rewrite Hux. destruct ev; try done.
      cbn [complete] in Hc. apply andb_prop in Hc as [_ [Hx _]%andb_prop]. done. }
    exists d2, (out ++ more). rewrite decode_frames_app, Hout. cbn [fst snd]. rewrite Hmore. split_and!; try done.
    + by apply no_errors_app.
    + by rewrite fmap_app, fold_left_app.
Qed.

(** ** Assembly *)

Lemma absorb_partless c i :
  List.filter messages_part (c_images c ++ c_citations c ++ c_server_tools c) = [] ->
  List.filter messages_part
    (c_images (absorb c i) ++ c_citations (absorb c i) ++ c_server_tools (absorb c i)) = [].
Proof.
  rewrite !List.filter_app. intros [H1 [H2 H3]%app_nil]%app_nil.
  destruct i as [[]|]; unfold absorb; simpl; rewrite ?List.filter_app; try (by rewrite H1, H2, H3);
    repeat case_match; simplify_eq/=; rewrite ?List.filter_app, ?H1, ?H2, ?H3; done.
Qed.

Lemma absorb_all_partless s c :
  List.filter messages_part (c_images c ++ c_citations c ++ c_server_tools c) = [] ->
  List.filter messages_part
    (c_images (fold_left absorb s c) ++ c_citations (fold_left absorb s c)
     ++ c_server_tools (fold_left absorb s c)) = [].
Proof. revert c. induction s as [|i s IH]; intros c H; [done|]. simpl. by apply IH, absorb_partless. Qed.

Lemma messages_parts parse c :
  List.filter messages_part (c_images c ++ c_citations c ++ c_server_tools c) = [] ->
  List.filter messages_part (collector_parts parse c)
  = (if is_empty (c_reasoning c) then [] else [Reasoning (c_reasoning c) None])
    ++ (if is_empty (c_content c) then [] else [Text (c_content c)])
    ++ (tool_use_part parse <$> (c_tool_uses c).*2).
Proof.
  intros H. unfold collector_parts. rewrite !List.filter_app in *. apply app_nil in H as [-> [-> ->]%app_nil].
  assert (Hx : List.filter messages_part (tool_use_part parse <$> (c_tool_uses c).*2)
               = tool_use_part parse <$> (c_tool_uses c).*2).
  { induction (c_tool_uses c) as [|[i [[id name] args]] l IH]; [done|]. simpl. by f_equal. }
  rewrite Hx. by destruct (is_empty (c_reasoning c)) eqn:E1, (is_empty (c_content c)) eqn:E2;
    simpl; rewrite ?E1, ?E2.
Qed.

Lemma same_end_response parse c c' request_id model :
  same_end c c' -> List.filter messages_part (c_images c ++ c_citations c ++ c_server_tools c) = [] ->
  mkAiResponse request_id model (mkMessage RoleAssistant (collector_parts parse c') None)
    (default Stop (c_finish_reason c')) (c_usage c')
  = messages_view (mkUsage 0 (output_tokens (c_usage c)) 0 0 None)
      (mkAiResponse request_id model (mkMessage RoleAssistant (collector_parts parse c) None)
         (default Stop (c_finish_reason c)) (c_usage c)).
Proof.
  intros [[H1 H2] (H3 & H4 & H5) H6 H7 H8] Hp. unfold messages_view. simpl.
  rewrite messages_parts by done. unfold collector_parts. by rewrite H1, H2, H3, H4, H5, H6, H7, H8.
Qed.

Lemma encode_first e id model :
  ae_ended e = false ->
  anthropic_frames e (EvMessageStart id model)
  = ((ensure_started (name_message id model e)).1, (ensure_started (name_message id model e)).2).
Proof. intros He. unfold anthropic_frames. rewrite He. by destruct (ensure_started _). Qed.

Lemma decode_first e :
  ae_message_started e = false -> ae_usage e = Usage_default ->
  decode_frames AnthropicStreamDecoder_new (ensure_started e).2
  = (mkAnthropicStreamDecoder true false ∅ None Usage_default, [EvMessageStart (ae_id e) (ae_model e)]).
Proof.
  intros Hs Hu. unfold ensure_started. rewrite Hs, Hu. cbn [snd decode_frames].
  unfold anthropic_decode. read_typed. rewrite ?get_typed by done. cbn [find_last mbind option_bind].
  simpl. unfold get_str. json_get. rewrite usage_back by done. done.
Qed.

(** A Messages client that assembles its stream gets the response:
    text, reasoning, tool calls in order with their arguments, the reason it ended,
    and the tokens of the output. The input is reported as zero, since its count is
    written only at the start of the message. *)
Theorem messages_stream_roundtrip parse wire_id wire_model id0 model0 evs request_id model resp :
  complete None (-1) evs = true -> Z.of_nat (length evs) <= u32_max ->
  collect_response parse (Ok <$> EvMessageStart id0 model0 :: evs) request_id model None = Ok resp ->
  collect_response parse
    (Ok <$> decode_messages
              (encode_frames (AnthropicStreamEncoder_new wire_id wire_model) (EvMessageStart id0 model0 :: evs)))
    request_id model None
  = Ok (messages_view (mkUsage 0 (output_tokens (resp_usage resp)) 0 0 None) resp).
Proof.
  intros Hc Hlen Hcol.
  assert (Hne : no_errors (EvMessageStart id0 model0 :: evs)).
  { apply first_error_none. unfold collect_response in Hcol.
    destruct (first_error (Ok <$> _)) as [[p cl]|] eqn:E; [|done].
    by destruct (collect_loop_error None _ Collector_new _ _ E eq_refl) as (e & He & _); rewrite He in Hcol. }
  apply Forall_cons_1 in Hne as [_ Hne]. change (no_errors evs) in Hne.
  set (e := (ensure_started (name_message id0 model0 (AnthropicStreamEncoder_new wire_id wire_model))).1).
  set (d := mkAnthropicStreamDecoder true false ∅ None Usage_default).
  destruct (reread_messages evs None (-1) e d Collector_new Collector_new) as (d' & out & Hout & Hno & Hend & Hse);
    try done.
  assert (Hdec : exists i m, decode_messages (encode_frames (AnthropicStreamEncoder_new wire_id wire_model)
                   (EvMessageStart id0 model0 :: evs)) = EvMessageStart i m :: out).
  { eexists _, _. unfold decode_messages. cbn [encode_frames]. rewrite (encode_first _ id0 model0) by done.
    fold e. rewrite decode_frames_app, decode_first by done. fold d. cbn [fst snd]. rewrite Hout. cbn [fst snd].
    unfold anthropic_finish. rewrite Hend, andb_false_r. by rewrite app_nil_r. }
  destruct Hdec as (i & m & ->). unfold collect_response in *.
  pose proof (collect_loop_spec None (Ok <$> evs : EventStream) Collector_new Hne eq_refl) as Hl.
  pose proof (collect_loop_spec None (Ok <$> out : EventStream) Collector_new Hno eq_refl) as Hl'. simpl in Hl, Hl'.
  change (collect_loop None Collector_new (Ok <$> EvMessageStart id0 model0 :: evs))
    with (collect_loop None Collector_new (Ok <$> evs)) in Hcol.
  change (collect_loop None Collector_new (Ok <$> EvMessageStart i m :: out))
    with (collect_loop None Collector_new (Ok <$> out)).
  rewrite Hl in Hcol. rewrite Hl'. cbn beta iota in Hcol. cbn beta iota.
  injection Hcol as <-. pose proof (absorb_all_partless (Ok <$> evs) Collector_new eq_refl) as Hp.
  exact (f_equal Ok (same_end_response parse _ _ request_id model Hse Hp)).
Qed.
