(* ===== verification/MessagesRequest.v ===== *)
(** * Cache breakpoints of Messages requests

    Anthropic accepts at most four [cache_control] breakpoints in a request. The
    bound holds for what the gateway adds; breakpoints inside the configuration of
    server tools come on top. *)

From Stdlib Require Import ZArith Lia.
From stdpp Require Import base tactics list strings option gmap.
From S2P Require Import Prelude Text Lines BTree Float Ir Target Collect Value OpenaiChat OpenaiTheorems.
From S2P Require Import Messages MessagesStream.

#[local] Open Scope nat_scope.
#[local] Open Scope switchback_scope.

#[local] Arguments get : simpl never.

(** ** Counting *)

Definition marked (v : Json) : bool := opt_is_some (get "cache_control" v).
Definition count_marked (l : list Json) : nat := length (List.filter marked l).
Definition sum_nat (l : list nat) : nat := foldr Nat.add 0 l.

Definition message_marks (m : Json) : nat := count_marked (default [] (get_array "content" m)).

(** The breakpoints of a body: on blocks of the system prompt, on tools, and on
    blocks of messages. *)
Definition breakpoints (body : Json) : nat :=
  count_marked (default [] (get_array "system" body)) + count_marked (default [] (get_array "tools" body))
  + sum_nat (message_marks <$> default [] (get_array "messages" body)).

Lemma count_marked_app a b : count_marked (a ++ b) = count_marked a + count_marked b.
Proof. unfold count_marked. by rewrite List.filter_app, length_app. Qed.

Lemma count_unmarked l : Forall (fun v => marked v = false) l -> count_marked l = 0.
Proof. unfold count_marked. induction 1 as [|v l Hv H IH]; simpl; [done|]. by rewrite Hv. Qed.

Lemma count_alter_last f l : count_marked (alter_last f l) <= count_marked l + 1.
Proof.
  unfold count_marked. induction l as [|x l IH]; simpl; [lia|]. destruct l as [|y l]; simpl in *.
  - destruct (marked (f x)); simpl; lia.
  - destruct (marked x); simpl; destruct (marked y); simpl in *; lia.
Qed.

(** ** Messages *)

Lemma part_unmarked role p b : part_to_anthropic role p = Ok (Some b) -> marked b = false.
Proof.
  destruct p; simpl; try done.
  - destruct (is_empty text); [done|]. intros [= <-]. done.
  - destruct (negb _); [done|]. unfold image_to_anthropic_block. destruct (image_source_validate source); [|done].
    destruct source; simpl; try done; by intros [= <-].
  - by intros [= <-].
  - intros [= <-]. unfold marked. json_get. by destruct is_error.
  - destruct signature; [|done]. by intros [= <-].
Qed.

Lemma blocks_unmarked role parts blocks :
  try_map (part_to_anthropic role) parts = Ok blocks ->
  Forall (fun v => marked v = false) (omap (fun b => b) blocks).
Proof.
  revert blocks. induction parts as [|p parts IH]; intros blocks; simpl; [by intros [= <-]|].
  destruct (part_to_anthropic role p) as [[b|]|] eqn:E; simpl; try done;
    destruct (try_map _ parts) as [bs|]; try done; intros [= <-]; simpl; [|by apply IH].
  constructor; [by eapply part_unmarked|by apply IH].
Qed.

Lemma turn_unmarked role m t t' :
  add_turn role m t = Ok t' ->
  sum_nat (message_marks <$> t_messages t') = sum_nat (message_marks <$> t_messages t).
Proof.
  unfold add_turn, message_content_blocks. destruct (try_map _ _) as [bs|] eqn:E; [|done]. simpl.
  apply blocks_unmarked in E. destruct (omap _ bs) as [|b blocks] eqn:Eb; intros [= <-]; simpl; [done|].
  assert (H0 : message_marks (obj [("role", JString role); ("content", JArray (b :: blocks))]) = 0).
  { unfold message_marks, get_array. json_get. by apply count_unmarked. }
  rewrite fmap_app. unfold sum_nat. rewrite foldr_app. cbn [fmap list_fmap foldr]. by rewrite H0.
Qed.

Lemma messages_unmarked l : forall t t', add_messages t l = Ok t' ->
  sum_nat (message_marks <$> t_messages t') = sum_nat (message_marks <$> t_messages t).
Proof.
  induction l as [|m l IH]; intros t t'; simpl; [by intros [= <-]|].
  destruct (add_message t m) as [t1|] eqn:E; [|done]. simpl. intros H. rewrite (IH _ _ H). clear H.
  unfold add_message in E. destruct (msg_role m); try (by eapply turn_unmarked).
  destruct (reject_image_parts _ _); [|done]. simpl in E. injection E as <-. by destruct (is_empty _).
Qed.

Lemma marks_set_last hint m :
  message_marks (set_last_block_cache_control hint m) <= message_marks m + 1.
Proof.
  unfold set_last_block_cache_control, message_marks.
  destruct (get_array "content" m) as [blocks|] eqn:E; [|rewrite E; lia].
  destruct m as [| | | | | |l]; try done. unfold get_array. cbn [put]. unfold get. simpl.
  rewrite bt_get_insert_eq. simpl. apply count_alter_last.
Qed.

Lemma sum_alter (f : Json -> Json) i ms :
  (forall m, message_marks (f m) <= message_marks m + 1) ->
  sum_nat (message_marks <$> alter f i ms) <= sum_nat (message_marks <$> ms) + 1.
Proof.
  intros Hf. revert i. induction ms as [|m ms IH]; intros [|i]; simpl; try lia.
  - specialize (Hf m). lia.
  - specialize (IH i). unfold fmap, alter in IH. simpl in IH. lia.
Qed.

Lemma hints_marks hints : forall ms,
  sum_nat (message_marks <$> apply_hints hints ms) <= sum_nat (message_marks <$> ms) + length hints.
Proof.
  unfold apply_hints. induction hints as [|h hints IH]; intros ms; simpl; [lia|].
  specialize (IH (alter (set_last_block_cache_control h.2) h.1 ms)).
  pose proof (sum_alter (set_last_block_cache_control h.2) h.1 ms (marks_set_last _)). lia.
Qed.

(** ** Tools and the prompt *)

Definition unmarked_tools (req : AiRequest) : Prop :=
  Forall (fun t => marked (st_config t) = false) (req_server_tools req).

Lemma server_unmarked l ts :
  Forall (fun t => marked (st_config t) = false) l ->
  try_map server_tool_to_anthropic l = Ok ts -> Forall (fun v => marked v = false) ts.
Proof.
  intros H. revert ts. induction H as [|t l Ht H IH]; intros ts; simpl; [by intros [= <-]|].
  unfold server_tool_to_anthropic at 1. destruct (bool_decide _); simpl; [|done].
  destruct (try_map _ l); simpl; [|done]. intros [= <-]. constructor; [done|by apply IH].
Qed.

Lemma tool_unmarked t : marked (tool_to_anthropic t) = false.
Proof. unfold marked, tool_to_anthropic. json_get. by destruct (tool_defer_loading t), (tool_description t). Qed.

Lemma tools_marks req tools :
  unmarked_tools req -> anthropic_tools req = Ok tools ->
  count_marked (default [] (tools ≫= as_array)) <= count_opt (tools_hint req).
Proof.
  intros Hu. unfold anthropic_tools, tools_hint. destruct (has_tools req); [|intros [= <-]; unfold count_marked; simpl; lia].
  destruct (try_map _ _) as [server|] eqn:E; cbn beta iota; [|done]. intros [= <-].
  assert (H0 : count_marked ((tool_to_anthropic <$> req_tools req) ++ server) = 0).
  { apply count_unmarked, Forall_app. split; [|by eapply server_unmarked].
    apply Forall_fmap, Forall_true. intros t. apply tool_unmarked. }
  cbn [mbind option_bind as_array default]. destruct (req_tools_cache_hint req).
  - etransitivity; [apply count_alter_last|]. exact (Nat.eq_le_incl _ _ (f_equal (fun n => n + 1) H0)).
  - exact (Nat.eq_le_incl _ _ H0).
Qed.

Lemma system_marks req (chunks : list string) :
  count_marked (default [] (match chunks with
                            | [] => None
                            | _ => Some (system_value req (join nl chunks))
                            end ≫= as_array)) <= count_opt (req_system_cache_hint req).
Proof.
  destruct chunks; unfold count_marked, count_opt, system_value; simpl; [lia|].
  by destruct (req_system_cache_hint req).
Qed.

Lemma kept_bound req hints :
  count_opt (req_system_cache_hint req) + count_opt (tools_hint req) + length (kept_hints req hints) <= 4.
Proof.
  unfold kept_hints.
  destruct (Nat.ltb_spec 4 (count_opt (req_system_cache_hint req) + count_opt (tools_hint req) + length hints));
    unfold count_opt in *; [rewrite length_drop|];
    destruct (req_system_cache_hint req), (tools_hint req); simpl in *; lia.
Qed.

(** An upstream body carries at most four cache breakpoints, however
    many the client set, as long as none hides in the configuration of a server
    tool or in a parameter passed through. *)
Theorem cache_breakpoints_bounded req model stream body :
  unmarked_tools req ->
  (forall k, k = "system" \/ k = "tools" ->
     find_first k (default [] (bt_get ANTHROPIC_PROTOCOL (req_protocol_passthrough req))) = None) ->
  request_to_anthropic_wire req model stream = Ok body ->
  breakpoints body <= 4.
Proof.
  intros Hu Hp. unfold request_to_anthropic_wire. destruct (validate_canonical req); [|done]. simpl.
  destruct (add_messages _ _) as [t|] eqn:Et; [|done]. simpl.
  destruct (anthropic_tools req) as [tools|] eqn:Etl; [|done]. intros [= <-].
  unfold breakpoints, get_array. json_get. rewrite !Hp, !or_else_none by auto. rewrite ?or_else_none. simpl.
  pose proof (hints_marks (kept_hints req (t_hints t)) (t_messages t)) as Hm.
  rewrite (messages_unmarked _ _ _ Et) in Hm. simpl in Hm.
  pose proof (tools_marks req tools Hu Etl) as Ht. pose proof (kept_bound req (t_hints t)) as Hk.
  pose proof (system_marks req (t_system t)) as Hs.
  match goal with
  | |- ?a + _ + _ <= _ =>
      assert (a <= count_opt (req_system_cache_hint req)) by (destruct (t_system t); exact Hs)
  end. lia.
Qed.

(** ** Samples *)

Module MessagesSamples.

Definition ask : list AiStreamEvent :=
  [EvReasoningDelta "let me see"; EvTextDelta "It is "; EvTextDelta "sunny.";
   EvToolCallStart 0 "call_1" "forecast"; EvToolCallArgsDelta 0 "{}"; EvToolCallEnd 0;
   EvToolCallStart 3 "call_2" "clock"; EvToolCallArgsDelta 3 "{}"; EvUsageDelta (mkUsage 5 7 0 0 None);
   EvMessageEnd ToolCalls].

Definition no_parse (s : string) : option Json := None.

Lemma messages_stream_protocol_witness :
  exists p, messages_run Before (encode_frames (AnthropicStreamEncoder_new "msg" "claude") ask) = Some p
            /\ (existsb is_end ask = true -> p = Over).
Proof. apply messages_stream_protocol; [reflexivity|vm_compute; discriminate]. Defined.

Definition asked : AiResponse :=
  mkAiResponse "req" "claude"
    (mkMessage RoleAssistant
       [Reasoning "let me see" None; Text "It is sunny."; ToolUse "call_1" "forecast" (JString "{}");
        ToolUse "call_2" "clock" (JString "{}")] None)
    ToolCalls (mkUsage 5 7 0 0 None).

Lemma messages_stream_roundtrip_witness :
  collect_response no_parse
    (Ok <$> decode_messages
              (encode_frames (AnthropicStreamEncoder_new "msg" "claude") (EvMessageStart "up" "gpt" :: ask)))
    "req" "claude" None
  = Ok (messages_view (mkUsage 0 7 0 0 None) asked).
Proof.
  apply (messages_stream_roundtrip no_parse "msg" "claude" "up" "gpt" ask "req" "claude" asked);
    [reflexivity|vm_compute; discriminate|reflexivity].
Defined.

Definition hour : option CacheHint := Some (mkCacheHint (Some 3600%Z)).

Definition cached : AiRequest :=
  mkAiRequest "req" "claude" (Some "be brief")
    [mkMessage RoleUser [Text "one"] hour; mkMessage RoleAssistant [Text "two"] hour;
     mkMessage RoleUser [Text "three"] hour]
    [mkToolSpec "f" None JNull false] [] None false None None PriorityNormal Standard [] None None [] []
    hour hour.

Definition cached_body : Json :=
  match request_to_anthropic_wire cached "claude" false with Ok b => b | Err _ => JNull end.

Lemma cache_breakpoints_bounded_witness : breakpoints cached_body = 4 /\ breakpoints cached_body <= 4.
Proof.
  split; [reflexivity|].
  apply (cache_breakpoints_bounded cached "claude" false);
    [constructor|intros k [->| ->]; reflexivity|reflexivity].
Defined.

(** Arguments of a tool call that come after another one started are written into
    a block that is closed. *)
Lemma late_args_break_protocol :
  messages_run Before
    (encode_frames (AnthropicStreamEncoder_new "msg" "claude")
       [EvMessageStart "up" "gpt"; EvToolCallStart 0 "a" "f"; EvToolCallStart 1 "b" "g";
        EvToolCallArgsDelta 0 "{}"; EvToolCallArgsDelta 1 "{}"; EvMessageEnd ToolCalls])
  = None.
Proof. reflexivity. Qed.

(** An OpenAI upstream reports usage in a chunk after the one with the reason to
    stop. A Messages client is then told that no tokens were put out. *)
Definition openai_chunks : list Json :=
  [obj [("id", JString "c"); ("model", JString "gpt");
        ("choices", JArray [obj [("delta", obj [("content", JString "hi")]); ("finish_reason", JNull)]])];
   obj [("choices", JArray [obj [("delta", obj []); ("finish_reason", JString "stop")]])];
   obj [("choices", JArray []);
        ("usage", obj [("prompt_tokens", JInt 5); ("completion_tokens", JInt 7)])]].

Definition usage_of (r : result AiResponse AdapterError) : option Usage :=
  match r with Ok resp => Some (resp_usage resp) | Err _ => None end.

Lemma usage_after_end_lost :
  let evs := decode_stream openai_chunks in
  usage_of (collect_response no_parse (Ok <$> evs) "r" "m" None) = Some (mkUsage 5 7 0 0 None)
  /\ usage_of (collect_response no_parse
                 (Ok <$> decode_messages (encode_frames (AnthropicStreamEncoder_new "msg" "claude") evs))
                 "r" "m" None)
     = Some (mkUsage 0 0 0 0 None).
Proof. split; reflexivity. Qed.

(** A client body with four breakpoints, one on a server tool that is not the last
    tool, becomes an upstream body with five: the configuration keeps its own, and
    the last tool gets another. *)
Definition ephemeral : string * Json := ("cache_control", obj [("type", JString "ephemeral")]).

Definition four_marks : Json :=
  obj [("model", JString "claude");
       ("system", JArray [obj [("type", JString "text"); ("text", JString "s"); ephemeral]]);
       ("tools", JArray [obj [("type", JString "web_search"); ("name", JString "web_search"); ephemeral];
                         obj [("type", JString "bash"); ("name", JString "bash")]]);
       ("messages", JArray
          [obj [("role", JString "user");
                ("content", JArray [obj [("type", JString "text"); ("text", JString "a"); ephemeral]])];
           obj [("role", JString "user");
                ("content", JArray [obj [("type", JString "text"); ("text", JString "b"); ephemeral]])]])].

Lemma server_tool_breakpoint_doubled :
  breakpoints four_marks = 4
  /\ exists req body, request_from_anthropic "r" four_marks = Ok req
       /\ request_to_anthropic_wire req "claude" false = Ok body /\ breakpoints body = 5.
Proof.
  split; [reflexivity|]. eexists _, _. split; [reflexivity|]. split; [reflexivity|]. reflexivity.
Qed.

End MessagesSamples.
