(* ===== verification/Schema.v ===== *)
(** * Downleveling of JSON schemas

    [crates/sb-protocols/src/schema.rs]. The recursion of the source counts its
    depth up to [MAX_DOWNLEVEL_DEPTH] and truncates there; here it counts down what
    is left of that depth. An object is visited in the order of its keys. *)

From Stdlib Require Import ZArith Lia Ascii Floats.SpecFloat.
From stdpp Require Import base list strings option pretty.
From S2P Require Import Prelude Text Lines BTree Float Ir Target Value.

#[local] Open Scope switchback_scope.

Record SchemaCaps := mkSchemaCaps {
  sc_unions : bool;
  sc_all_of : bool;
  sc_const_keyword : bool;
  sc_type_arrays : bool;
  sc_refs : bool;
  sc_string_enums_only : bool;
  sc_empty_objects : bool;
  sc_additional_properties : bool
}.

Definition permissive : SchemaCaps := mkSchemaCaps true true true true true false true true.
Definition gemini : SchemaCaps := mkSchemaCaps false false false false false true false false.

Definition ALWAYS_STRIP : list string := ["$schema"; "$id"; "$comment"; "$anchor"; "examples"].

Inductive SchemaLossiness := LossMetadata | LossLow | LossMedium | LossHigh.

Definition lossiness_as_str (l : SchemaLossiness) : string :=
  match l with
  | LossMetadata => "metadata" | LossLow => "low" | LossMedium => "medium" | LossHigh => "high"
  end.

Record SchemaWarning := mkSchemaWarning {
  sw_path : string;
  sw_keyword : string;
  sw_lossiness : SchemaLossiness;
  sw_message : string
}.

Definition prepend_path (prefix : string) (w : SchemaWarning) : SchemaWarning :=
  if is_empty prefix then w
  else mkSchemaWarning (if is_empty (sw_path w) then prefix else prefix ^^ sw_path w) (sw_keyword w)
         (sw_lossiness w) (sw_message w).

(** [Display]. *)
Definition warning_text (w : SchemaWarning) : string :=
  "schema_downlevel:" ^^ lossiness_as_str (sw_lossiness w) ^^ ":"
  ^^ (if is_empty (sw_path w) then "/" else sw_path w) ^^ ":" ^^ sw_keyword w ^^ ": " ^^ sw_message w.

Definition MAX_DOWNLEVEL_DEPTH : nat := 100.

Definition Schema : Type := BTreeMap string Json.

(** [segment.replace('~', "~0").replace('/', "~1")], in one pass: neither
    replacement makes a character the other replaces. *)
Fixpoint escape_json_pointer (s : string) : string :=
  match s with
  | EmptyString => EmptyString
  | String c s =>
      (if Ascii.eqb c "~"%char then "~0" else if Ascii.eqb c "/"%char then "~1" else String c EmptyString)
      ^^ escape_json_pointer s
  end.

Definition join_path (path segment : string) : string := path ^^ "/" ^^ escape_json_pointer segment.

Definition warn (path keyword : string) (lossiness : SchemaLossiness) (message : string) : SchemaWarning :=
  mkSchemaWarning (join_path path keyword) keyword lossiness message.

(** The first branch that is not of type null, else the first object. *)
Fixpoint find_branch (p : Schema -> bool) (branches : list Json) : option Schema :=
  match branches with
  | [] => None
  | JObject m :: branches => if p m then Some m else find_branch p branches
  | _ :: branches => find_branch p branches
  end.

Definition is_null_type (m : Schema) : bool := bool_decide ((bt_get "type" m ≫= as_str) = Some "null").

Definition pick_branch (branches : list Json) : option Schema :=
  or_else (find_branch (fun m => negb (is_null_type m)) branches) (find_branch (fun _ => true) branches).

Definition insert_missing (m extra : Schema) : Schema :=
  fold_left (fun m kv => match bt_get kv.1 m with Some _ => m | None => bt_insert kv.1 kv.2 m end) extra m.

(** [Value]'s equality: numbers of the same kind, doubles by value. *)
Fixpoint json_eqb (a b : Json) : bool :=
  match a, b with
  | JNull, JNull => true
  | JBool x, JBool y => Bool.eqb x y
  | JInt x, JInt y => Z.eqb x y
  | JFloat x, JFloat y => SFeqb x y
  | JString x, JString y => String.eqb x y
  | JArray l, JArray l' =>
      (fix go l l' := match l, l' with
        | [], [] => true
        | x :: l, y :: l' => json_eqb x y && go l l'
        | _, _ => false
        end) l l'
  | JObject m, JObject m' =>
      (fix go (l l' : list (string * Json)) := match l, l' with
        | [], [] => true
        | (k, x) :: l, (k', y) :: l' => String.eqb k k' && json_eqb x y && go l l'
        | _, _ => false
        end) m m'
  | _, _ => false
  end.

Definition push_missing (l extra : list Json) : list Json :=
  fold_left (fun l v => if existsb (fun x => json_eqb x v) l then l else l ++ [v]) extra l.

Definition merge_entry (out : Schema) (kv : string * Json) : Schema :=
  let '(key, value) := kv in
  match bt_get key out with
  | None => bt_insert key value out
  | Some existing =>
      match existing, value with
      | JObject existing, JObject incoming =>
          if str_eqb key "properties" then bt_insert key (JObject (insert_missing existing incoming)) out
          else out
      | JArray existing, JArray incoming =>
          if str_eqb key "required" then bt_insert key (JArray (push_missing existing incoming)) out
          else out
      | _, _ => out
      end
  end.

Definition merge_into (out src : Schema) : Schema := fold_left merge_entry src out.

Section Downlevel.
(** [Value]'s [Display]. *)
Context (print_json : Json -> string) (caps : SchemaCaps).

Definition stringify (v : Json) : string := match v with JString s => s | v => print_json v end.

(** The union of a node, with its keyword. *)
Definition union_of (obj : Schema) : option (string * list Json) :=
  or_else ((fun b => ("anyOf", b)) <$> (bt_get "anyOf" obj ≫= as_array))
          ((fun b => ("oneOf", b)) <$> (bt_get "oneOf" obj ≫= as_array)).

(** Keywords that are left out, with the warning, if there is one. *)
Definition left_out (path key : string) : option (list SchemaWarning) :=
  let w loss message := Some [warn path key loss message] in
  if existsb (str_eqb key) ALWAYS_STRIP || starts_with "x-" key then
    w LossMetadata "stripped schema metadata unsupported by provider dialect"
  else if negb (sc_unions caps) && (str_eqb key "anyOf" || str_eqb key "oneOf") then
    w LossHigh "dropped unsupported union keyword"
  else if negb (sc_all_of caps) && str_eqb key "allOf" then
    w LossMedium "merged unsupported `allOf` shallowly"
  else if negb (sc_const_keyword caps) && str_eqb key "const" then Some []
  else if negb (sc_refs caps) && (str_eqb key "$ref" || str_eqb key "$defs" || str_eqb key "definitions") then
    w LossHigh "dropped unsupported JSON Schema reference keyword"
  else if negb (sc_additional_properties caps) && str_eqb key "additionalProperties" then
    w LossMedium "dropped unsupported `additionalProperties` constraint"
  else None.

Definition Warned (A : Type) : Type := A * list SchemaWarning.

(** [type] when arrays of types are not supported. *)
Definition downlevel_type (path : string) (value : Json) (out : Schema) : Warned Schema :=
  match value with
  | JArray types =>
      let warnings := if Nat.ltb 1 (length types)
        then [warn path "type" LossMedium "collapsed unsupported type array to one type"] else [] in
      let chosen := or_else (List.find (fun t => negb (bool_decide (as_str t = Some "null"))) types)
                            (head types) in
      (match chosen with Some t => bt_insert "type" t out | None => out end, warnings)
  | value => (bt_insert "type" value out, [])
  end.

Definition is_string (v : Json) : bool := match v with JString _ => true | _ => false end.

(** [enum] when its values have to be strings. *)
Definition downlevel_enum (path : string) (value : Json) (out : Schema) : Warned Schema :=
  match value with
  | JArray values =>
      (bt_insert "type" (JString "string")
         (bt_insert "enum" (JArray ((fun v => JString (stringify v)) <$> values)) out),
       if existsb (fun v => negb (is_string v)) values
       then [warn path "enum" LossLow "stringified non-string enum values"] else [])
  | value => (bt_insert "enum" value out, [])
  end.

(** Run two steps and collect their warnings. *)
Definition and_then {A B} (r : Warned A) (f : A -> Warned B) : Warned B :=
  let '(a, w) := r in let '(b, w') := f a in (b, w ++ w').

Fixpoint downlevel_all (value : string -> Json -> Warned Json) (path : string) (props : list (string * Json))
    (out : Schema) : Warned Schema :=
  match props with
  | [] => (out, [])
  | (pk, pv) :: props =>
      and_then (value (join_path (join_path path "properties") pk) pv)
        (fun v => downlevel_all value path props (bt_insert pk v out))
  end.

(** One keyword of a node; [value] downlevels a nested schema. *)
Definition downlevel_key (value : string -> Json -> Warned Json) (path key : string) (v : Json) (out : Schema)
  : Warned Schema :=
  match left_out path key with
  | Some warnings => (out, warnings)
  | None =>
      if str_eqb key "type" && negb (sc_type_arrays caps) then downlevel_type path v out
      else if str_eqb key "enum" && sc_string_enums_only caps then downlevel_enum path v out
      else if str_eqb key "properties" then
        match v with
        | JObject props =>
            and_then (downlevel_all value path props [])
              (fun props => (bt_insert "properties" (JObject props) out, []))
        | _ => (out, [])
        end
      else if str_eqb key "items" then
        let nested v := and_then (value (join_path path "items") v)
          (fun v => (bt_insert "items" v out, [])) in
        match v with
        | JArray items =>
            if sc_type_arrays caps then nested v
            else
              and_then (tt, [warn path "items" LossMedium
                               "collapsed unsupported tuple item schemas to the first item"])
                (fun _ => match head items with Some first => nested first | None => (out, []) end)
        | v => nested v
        end
      else (bt_insert key v out, [])
  end.

Fixpoint downlevel_keys (value : string -> Json -> Warned Json) (path : string) (l : list (string * Json))
    (out : Schema) : Warned Schema :=
  match l with
  | [] => (out, [])
  | (key, v) :: l => and_then (downlevel_key value path key v out) (downlevel_keys value path l)
  end.

Definition rewrite_const (path : string) (obj out : Schema) : Warned Schema :=
  match (if sc_const_keyword caps then None else bt_get "const" obj) with
  | Some value =>
      let '(out, entry) := if sc_string_enums_only caps
        then (bt_insert "type" (JString "string") out, JString (stringify value)) else (out, value) in
      (bt_insert "enum" (JArray [entry]) out,
       [warn path "const" LossLow "rewrote unsupported `const` as a single-value enum"])
  | None => (out, [])
  end.

(** The members of [allOf] from index [i]. *)
Fixpoint merge_members (object : string -> Schema -> Warned Schema) (path : string) (i : Z)
    (members : list Json) (out : Schema) : Warned Schema :=
  match members with
  | [] => (out, [])
  | JObject member :: members =>
      and_then (object (join_path (join_path path "allOf") (fmt_int i)) member)
        (fun down => merge_members object path (i + 1) members (merge_into out down))
  | _ :: members => merge_members object path (i + 1) members out
  end.

Definition merge_all_of (object : string -> Schema -> Warned Schema) (path : string) (obj out : Schema)
  : Warned Schema :=
  match (if sc_all_of caps then None else bt_get "allOf" obj ≫= as_array) with
  | Some members => merge_members object path 0 members out
  | None => (out, [])
  end.

Definition placeholder : Json :=
  obj [("type", JString "string");
       ("description", JString "placeholder (schema declared no properties)")].

Definition fill_object (path : string) (out : Schema) : Warned Schema :=
  if negb (sc_empty_objects caps) && bool_decide ((bt_get "type" out ≫= as_str) = Some "object") then
    if match bt_get "properties" out ≫= as_object with Some props => list_empty props | None => true end then
      (bt_insert "properties" (obj [("_", placeholder)]) out,
       [warn path "properties" LossMedium "added placeholder property to unsupported empty object schema"])
    else (out, [])
  else (out, []).

Definition depth_warning (path : string) : SchemaWarning :=
  warn path "$depth" LossHigh
    ("schema nesting exceeded the maximum supported depth (" ^^ fmt_int (Z.of_nat MAX_DOWNLEVEL_DEPTH)
       ^^ "); truncated to a permissive value").

(** A nested schema, given how objects are downleveled. *)
Definition downlevel_value_with (object : string -> Schema -> Warned Schema) (path : string) (v : Json)
  : Warned Json :=
  match v with
  | JObject m => and_then (object path m) (fun m => (JObject m, []))
  | v => (v, [])
  end.

(** The union that is collapsed, if there is one and objects are among it. *)
Definition collapsed (obj : Schema) : option (string * list Json) :=
  if sc_unions caps then None else union_of obj.

Fixpoint downlevel_object (room : nat) (path : string) (obj : Schema) : Warned Schema :=
  match room with
  | O => ([("type", JString "string")], [depth_warning path])
  | S room =>
      let union := collapsed obj in
      let warned := match union with
        | Some (keyword, _) =>
            [warn path keyword LossHigh ("collapsed unsupported `" ^^ keyword ^^ "` union to one branch")]
        | None => []
        end in
      match union ≫= (fun u => pick_branch u.2) with
      | Some branch =>
          and_then (tt, warned) (fun _ =>
          and_then (downlevel_object room path branch) (fun chosen =>
            (match bt_get "description" obj with
             | Some desc => insert_missing chosen [("description", desc)]
             | None => chosen
             end, [])))
      | None =>
          and_then (tt, warned) (fun _ =>
          and_then (downlevel_keys (downlevel_value_with (downlevel_object room)) path obj []) (fun out =>
          and_then (rewrite_const path obj out) (fun out =>
          and_then (merge_all_of (downlevel_object room) path obj out) (fun out =>
            fill_object path out))))
      end
  end.

Definition downlevel_value (room : nat) (path : string) (v : Json) : Warned Json :=
  downlevel_value_with (downlevel_object room) path v.

Definition downlevel_with_warnings (schema : Json) : Warned Json :=
  downlevel_value MAX_DOWNLEVEL_DEPTH EmptyString schema.

Definition downlevel (schema : Json) : Json := (downlevel_with_warnings schema).1.

End Downlevel.
