(* ===== verification/SchemaTheorems.v ===== *)
(** * Downleveled schemas are in the dialect

    Whatever schema a client declares, what is sent to a Gemini model is in its
    dialect, at every level, and a schema that is in the dialect is sent as it is. *)

From Stdlib Require Import ZArith Lia.
From stdpp Require Import base tactics list strings option.
From S2P Require Import Prelude Text Lines BTree Float Ir Target Value Schema.

#[local] Open Scope switchback_scope.

#[local] Arguments left_out : simpl never.

(** ** The dialect *)

(** Keywords the dialect knows: no unions, [allOf], [const], references or
    [additionalProperties], and no metadata. *)
Definition dialect_key (key : string) : bool :=
  match left_out gemini EmptyString key with None => true | Some _ => false end.

(** A keyword with its value; [nested] is what a nested schema has to satisfy. *)
Record entry_ok (nested : Json -> Prop) (key : string) (v : Json) : Prop := {
  eo_key : dialect_key key = true;
  eo_type : key = "type" -> forall l, v <> JArray l;
  eo_enum : key = "enum" -> forall l, v = JArray l -> Forall (fun x => is_string x = true) l;
  eo_props : key = "properties" ->
             exists p, v = JObject p /\ bt_wf p /\ forall k x, bt_get k p = Some x -> nested x;
  eo_items : key = "items" -> nested v /\ forall l, v <> JArray l
}.

Definition entries_ok (nested : Json -> Prop) (m : Schema) : Prop :=
  bt_wf m /\ forall key v, bt_get key m = Some v -> entry_ok nested key v.

(** A schema of type [object] declares at least one property. *)
Definition object_ok (m : Schema) : Prop :=
  bt_get "type" m = Some (JString "object") -> exists p, bt_get "properties" m = Some (JObject p) /\ p <> [].

(** In the dialect down to a depth. *)
Fixpoint dialect (n : nat) (m : Schema) : Prop :=
  match n with
  | O => True
  | S n =>
      entries_ok (fun v => match v with JObject m => dialect n m | _ => True end) m /\ object_ok m
  end.

Definition nested_dialect (n : nat) (v : Json) : Prop :=
  match v with JObject m => dialect n m | _ => True end.

(** An array in which no element is an array. *)
Definition flat (v : Json) : bool :=
  match v with
  | JArray l => forallb (fun x => match x with JArray _ => false | _ => true end) l
  | _ => true
  end.

(** No array of types or of tuple items has an array in it. *)
Fixpoint plain (v : Json) : bool :=
  match v with
  | JArray l => forallb plain l
  | JObject m =>
      forallb (fun kv => (negb (str_eqb kv.1 "type" || str_eqb kv.1 "items") || flat kv.2) && plain kv.2) m
  | _ => true
  end.

Section Dialect.
Context (print_json : Json -> string).

(** ** Building nodes *)

Lemma entries_insert nested m key v :
  entries_ok nested m -> entry_ok nested key v -> entries_ok nested (bt_insert key v m).
Proof.
  intros [Hwf Hm] Hv. split; [by apply bt_insert_wf|]. intros k x.
  destruct (decide (k = key)) as [->|Hne].
  - rewrite bt_get_insert_eq. by intros [= <-].
  - rewrite bt_get_insert_ne by done. apply Hm.
Qed.

Lemma entries_nil nested : entries_ok nested [].
Proof. split; [constructor|done]. Qed.

Definition special (key : string) : bool :=
  str_eqb key "type" || str_eqb key "enum" || str_eqb key "properties" || str_eqb key "items".

Lemma entry_plain nested key v : dialect_key key = true -> special key = false -> entry_ok nested key v.
Proof. intros Hk Hs. split; try done; intros ->; done. Qed.

Lemma entry_type nested v : (forall l, v <> JArray l) -> entry_ok nested "type" v.
Proof. intros Hv. by split. Qed.

Lemma entry_enum nested v :
  (forall l, v = JArray l -> Forall (fun x => is_string x = true) l) -> entry_ok nested "enum" v.
Proof. intros Hv. by split. Qed.

Lemma entry_items nested v : nested v -> (forall l, v <> JArray l) -> entry_ok nested "items" v.
Proof. intros Hn Hv. by split. Qed.

Lemma entry_props nested p :
  bt_wf p -> (forall k x, bt_get k p = Some x -> nested x) -> entry_ok nested "properties" (JObject p).
Proof. intros Hw Hp. split; try done. intros _. eauto. Qed.

Lemma strings_strings l : Forall (fun x => is_string x = true) ((fun v => JString (stringify print_json v)) <$> l).
Proof. apply Forall_fmap, Forall_true. done. Qed.

(** ** Single keywords *)

Lemma flat_elem l x : flat (JArray l) = true -> x ∈ l -> forall l', x <> JArray l'.
Proof. simpl. rewrite forallb_forall. intros H Hin%list_elem_of_In l' ->. by specialize (H _ Hin). Qed.

Lemma type_entries nested path v out :
  flat v = true ->
  entries_ok nested out -> entries_ok nested (downlevel_type path v out).1.
Proof.
  intros Hv Ho. destruct v; simpl; try (apply entries_insert; [done|]; by apply entry_type).
  destruct (or_else _ _) as [t|] eqn:E; [|done]. apply entries_insert; [done|]. apply entry_type.
  eapply flat_elem; [done|]. unfold or_else in E. destruct (List.find _ l) as [t'|] eqn:Ef.
  - injection E as <-. apply find_some in Ef as [Hin _]. by apply list_elem_of_In.
  - destruct l; [done|]. injection E as <-. left.
Qed.

Lemma enum_entries nested path v out :
  entries_ok nested out -> entries_ok nested (downlevel_enum print_json path v out).1.
Proof.
  intros Ho. destruct v; simpl; try (apply entries_insert; [done|]; by apply entry_enum).
  apply entries_insert; [apply entries_insert; [done|]|by apply entry_type].
  apply entry_enum. intros l' [= <-]. apply strings_strings.
Qed.

Lemma all_entries nested (value : string -> Json -> Warned Json) path props :
  (forall p k v, (k, v) ∈ props -> nested (value p v).1) ->
  forall out, bt_wf out -> (forall k x, bt_get k out = Some x -> nested x) ->
  bt_wf (downlevel_all value path props out).1
  /\ forall k x, bt_get k (downlevel_all value path props out).1 = Some x -> nested x.
Proof.
  induction props as [|[pk pv] props IH]; intros Hv out Hw Ho; simpl; [done|].
  pose proof (Hv (join_path (join_path path "properties") pk) pk pv ltac:(left)) as Hn.
  destruct (value _ pv) as [v w]. simpl in *.
  destruct (downlevel_all value path props (bt_insert pk v out)) as [r w'] eqn:E. simpl.
  replace r with (downlevel_all value path props (bt_insert pk v out)).1 by (by rewrite E).
  apply IH; [intros; eapply Hv; by right|by apply bt_insert_wf|].
  intros k x. destruct (decide (k = pk)) as [->|Hne].
  - rewrite bt_get_insert_eq. by intros [= <-].
  - rewrite bt_get_insert_ne by done. apply Ho.
Qed.

Lemma fst_and_then {A B} (r : Warned A) (f : A -> Warned B) : (and_then r f).1 = (f r.1).1.
Proof. destruct r as [a w]. simpl. by destruct (f a). Qed.

Lemma bt_get_elem (m : Schema) k v : bt_get k m = Some v -> (k, v) ∈ m.
Proof.
  induction m as [|[k' v'] m IH]; simpl; [done|]. destruct (key_cmp k k') eqn:E; [|done|].
  - apply key_cmp_eq in E as ->. intros [= ->]. left.
  - intros H. right. by apply IH.
Qed.

Lemma plain_entry m key v : plain (JObject m) = true -> (key, v) ∈ m ->
  plain v = true /\ (key = "type" \/ key = "items" -> flat v = true).
Proof.
  simpl. rewrite forallb_forall. intros H Hin%list_elem_of_In. specialize (H _ Hin). simpl in H.
  apply andb_prop in H as [Hf Hp]. split; [done|]. by intros [-> | ->].
Qed.

Lemma plain_elem l v : plain (JArray l) = true -> v ∈ l -> plain v = true.
Proof. simpl. rewrite forallb_forall. intros H Hin. apply H. by apply list_elem_of_In. Qed.

Lemma left_out_key path key : left_out gemini path key = None -> dialect_key key = true.
Proof.
  unfold dialect_key, left_out. intros H.
  repeat match goal with H : context [if ?b then _ else _] |- _ => destruct b; [done|] end. done.
Qed.

Lemma str_eqb_true a b : str_eqb a b = true -> a = b.
Proof. apply bool_decide_eq_true. Qed.

Lemma key_entries nested (value : string -> Json -> Warned Json) path key v out :
  (forall p x, plain x = true -> nested (value p x).1) ->
  (forall p x l, (value p x).1 = JArray l -> exists l', x = JArray l') ->
  plain v = true ->
  (key = "type" \/ key = "items" -> flat v = true) ->
  entries_ok nested out -> entries_ok nested (downlevel_key print_json gemini value path key v out).1.
Proof.
  intros Hn Hna Hp Ht Ho. unfold downlevel_key. destruct (left_out gemini path key) eqn:Ek; [done|].
  apply left_out_key in Ek. cbn [gemini sc_type_arrays sc_string_enums_only negb]. rewrite !andb_true_r.
  destruct (str_eqb key "type") eqn:E1; [apply str_eqb_true in E1 as ->; apply type_entries; auto|].
  destruct (str_eqb key "enum") eqn:E2; [by apply enum_entries|].
  destruct (str_eqb key "properties") eqn:E3.
  { destruct v as [| | | | | |props]; try done. rewrite fst_and_then. simpl. apply entries_insert; [done|].
    destruct (all_entries nested value path props) with (out := @nil (string * Json)) as [Hw Hx];
      [|constructor|done|by apply entry_props].
    intros p k x Hin. apply Hn. by eapply (plain_entry props k x). }
  destruct (str_eqb key "items") eqn:E4.
  { assert (Hnest : forall x, plain x = true -> (forall l, x <> JArray l) ->
      entries_ok nested (and_then (value (join_path path "items") x) (fun v => (bt_insert "items" v out, []))).1).
    { intros x Hx Hnx. rewrite fst_and_then. simpl. apply entries_insert; [done|]. apply entry_items; [by apply Hn|].
      intros l Hl. apply Hna in Hl as [l' ->]. by eapply Hnx. }
    destruct v as [| | | | |items|]; try (by apply Hnest).
    cbv zeta. rewrite fst_and_then. destruct items as [|first items]; [done|]. cbn [head fst].
    apply Hnest; [eapply plain_elem; [done|left]|]. apply (flat_elem (first :: items)); [|left].
    apply Ht. right. by apply str_eqb_true. }
  simpl. apply entries_insert; [done|]. apply entry_plain; [done|]. unfold special. by rewrite E1, E2, E3, E4.
Qed.
(** ** Nodes *)

(** What a node downleveled with less room satisfies, and what it keeps of arrays. *)
Definition good (nested : Json -> Prop) (value : string -> Json -> Warned Json) : Prop :=
  (forall p x, plain x = true -> nested (value p x).1)
  /\ forall p x l, (value p x).1 = JArray l -> exists l', x = JArray l'.

Lemma keys_entries nested value path l : good nested value -> forall out,
  (forall key v, (key, v) ∈ l -> plain v = true /\ (key = "type" \/ key = "items" -> flat v = true)) ->
  entries_ok nested out -> entries_ok nested (downlevel_keys print_json gemini value path l out).1.
Proof.
  intros [Hn Hna]. induction l as [|[key v] l IH]; intros out Hl Ho; [done|]. cbn [downlevel_keys].
  rewrite fst_and_then. apply IH; [intros; apply Hl; by right|].
  destruct (Hl key v ltac:(left)) as [Hp Hf]. by apply key_entries.
Qed.

Lemma const_entries nested path m out :
  entries_ok nested out -> entries_ok nested (rewrite_const print_json gemini path m out).1.
Proof.
  intros Ho. unfold rewrite_const. simpl. destruct (bt_get "const" m) as [v|]; [|done]. simpl.
  apply entries_insert; [apply entries_insert; [done|by apply entry_type]|].
  apply entry_enum. intros l [= <-]. by constructor.
Qed.

Lemma insert_missing_get m extra k x :
  bt_wf m -> bt_get k (insert_missing m extra) = Some x -> bt_get k m = Some x \/ (k, x) ∈ extra.
Proof.
  unfold insert_missing. revert m. induction extra as [|[k' v] extra IH]; intros m Hw; simpl; [by left|].
  intros H. apply IH in H; [|destruct (bt_get k' m); [done|by apply bt_insert_wf]].
  destruct H as [H|H]; [|right; by right]. destruct (bt_get k' m); [by left|].
  destruct (decide (k = k')) as [->|Hne].
  - rewrite bt_get_insert_eq in H. injection H as <-. right. left.
  - rewrite bt_get_insert_ne in H by done. by left.
Qed.

Lemma insert_missing_wf m extra : bt_wf m -> bt_wf (insert_missing m extra).
Proof.
  unfold insert_missing. revert m. induction extra as [|[k' v] extra IH]; intros m Hw; simpl; [done|].
  apply IH. destruct (bt_get k' m); [done|by apply bt_insert_wf].
Qed.

Lemma insert_missing_keeps m extra k : bt_wf m -> is_Some (bt_get k m) ->
  bt_get k (insert_missing m extra) = bt_get k m.
Proof.
  unfold insert_missing. revert m. induction extra as [|[k' v] extra IH]; intros m Hw Hk; simpl; [done|].
  destruct (bt_get k' m) eqn:E; [by apply IH|].
  assert (k <> k') by (intros ->; rewrite E in Hk; by destruct Hk).
  rewrite IH; rewrite ?bt_get_insert_ne by done; [done|by apply bt_insert_wf|done].
Qed.

Lemma merge_entry_entries nested out key v :
  entries_ok nested out -> entry_ok nested key v -> entries_ok nested (merge_entry out (key, v)).
Proof.
  intros Ho Hv. simpl. destruct (bt_get key out) as [existing|] eqn:E; [|by apply entries_insert].
  destruct existing; try done; destruct v; try done.
  - destruct (str_eqb key "required") eqn:Ek; [|done]. apply str_eqb_true in Ek as ->.
    apply entries_insert; [done|]. by apply entry_plain.
  - destruct (str_eqb key "properties") eqn:Ek; [|done]. apply str_eqb_true in Ek as ->.
    apply entries_insert; [done|].
    destruct (eo_props _ _ _ (proj2 Ho _ _ E) eq_refl) as (p & [= ->] & Hw & Hp).
    destruct (eo_props _ _ _ Hv eq_refl) as (q & [= ->] & Hw' & Hq).
    apply entry_props; [by apply insert_missing_wf|].
    intros k x [Hx|Hx]%insert_missing_get; [by eapply Hp| |done].
    eapply Hq. by apply bt_get_in.
Qed.

Lemma merge_entries nested out src :
  entries_ok nested out -> entries_ok nested src -> entries_ok nested (merge_into out src).
Proof.
  intros Ho [Hw Hs]. unfold merge_into.
  assert (Hl : forall key v, (key, v) ∈ src -> entry_ok nested key v) by (intros; apply Hs; by apply bt_get_in).
  clear Hw Hs. revert out Ho. induction src as [|[key v] src IH]; intros out Ho; [done|].
  cbn [fold_left]. apply IH; [intros; apply Hl; by right|]. apply merge_entry_entries; [done|]. apply Hl. left.
Qed.

Lemma members_entries nested object path members :
  (forall p m, plain (JObject m) = true -> entries_ok nested (object p m).1) ->
  forall i out, Forall (fun v => plain v = true) members -> entries_ok nested out ->
  entries_ok nested (merge_members object path i members out).1.
Proof.
  intros Hobj. induction members as [|v members IH]; intros i out Hp Ho; [done|].
  apply Forall_cons_1 in Hp as [Hv Hp]. destruct v; cbn [merge_members]; try (by apply IH).
  rewrite fst_and_then. apply IH; [done|]. apply merge_entries; [done|]. by apply Hobj.
Qed.

(** The placeholder is in the dialect. *)
Lemma placeholder_dialect n : nested_dialect n placeholder.
Proof.
  destruct n as [|n]; [done|]. split; [|done].
  split; [apply bt_collect_wf|]. intros key v H. apply bt_get_elem in H.
  apply elem_of_cons in H as [[= -> ->]|[[= -> ->]|H]%elem_of_cons];
    [by apply entry_plain|by apply entry_type|by apply elem_of_nil in H].
Qed.

Lemma filled n out :
  entries_ok (nested_dialect n) out ->
  dialect (S n) (bt_insert "properties" (obj [("_", placeholder)]) out).
Proof.
  intros Ho. split.
  - apply entries_insert; [done|]. apply entry_props; [apply bt_collect_wf|].
    intros k x H. apply bt_get_elem, elem_of_cons in H as [[= -> ->]|H%elem_of_nil]; [|done].
    apply placeholder_dialect.
  - intros _. rewrite bt_get_insert_eq. by eexists.
Qed.

Lemma fill_dialect n path out :
  entries_ok (nested_dialect n) out -> dialect (S n) (fill_object gemini path out).1.
Proof.
  intros Ho. unfold fill_object. simpl. destruct (bool_decide _) eqn:Et.
  - apply bool_decide_eq_true in Et. destruct (bt_get "properties" out ≫= as_object) as [props|] eqn:Ep.
    + destruct props as [|x props]; simpl.
      * apply filled. done.
      * split; [done|]. intros _. destruct (bt_get "properties" out) as [[]|]; try done.
        injection Ep as ->. eauto.
    + apply filled. done.
  - split; [done|]. intros Ht. simpl in Ht. rewrite Ht in Et. by apply bool_decide_eq_false in Et.
Qed.

Lemma object_insert m key v :
  bt_wf m -> key <> "type" -> key <> "properties" -> object_ok m -> object_ok (bt_insert key v m).
Proof.
  intros Hw H1 H2 Hm. unfold object_ok. by rewrite !bt_get_insert_ne by congruence.
Qed.

Lemma pick_branch_in branches m : pick_branch branches = Some m -> JObject m ∈ branches.
Proof.
  assert (Hfind : forall p, find_branch p branches = Some m -> JObject m ∈ branches).
  { intros p. induction branches as [|b branches IH]; [done|]. destruct b; cbn [find_branch]; try (right; by apply IH).
    destruct (p l); [intros [= ->]; left|]. right. by apply IH. }
  unfold pick_branch, or_else. destruct (find_branch _ branches) eqn:E; [|apply Hfind].
  intros [= ->]. by eapply Hfind.
Qed.

Lemma union_in m u : union_of m = Some u -> exists key, (key, JArray u.2) ∈ m.
Proof.
  unfold union_of, or_else.
  destruct (bt_get "anyOf" m) as [[]|] eqn:E1; simpl;
    try (intros [= <-]; eexists; by apply bt_get_elem in E1);
    destruct (bt_get "oneOf" m) as [[]|] eqn:E2; simpl; try done;
    intros [= <-]; eexists; by apply bt_get_elem in E2.
Qed.

(** A description is added to a branch that has none. *)
Lemma describe_dialect n m desc :
  dialect n m -> dialect n (insert_missing m [("description", desc)]).
Proof.
  destruct n as [|n]; [done|]. intros [He Ho]. unfold insert_missing. cbn [fold_left fst snd].
  destruct (bt_get "description" m); [done|]. split.
  - apply entries_insert; [done|]. by apply entry_plain.
  - apply object_insert; [apply He|done..].
Qed.

Lemma value_good n object :
  (forall p m, plain (JObject m) = true -> dialect n (object p m).1) ->
  good (nested_dialect n) (downlevel_value_with object).
Proof.
  intros Ho. split.
  - intros p x Hx. destruct x; try done. simpl. rewrite fst_and_then. by apply Ho.
  - intros p x l. destruct x; simpl; try done; [by eauto|]. by rewrite fst_and_then.
Qed.

Lemma downlevel_object_dialect room : forall path m n,
  plain (JObject m) = true -> dialect n (downlevel_object print_json gemini room path m).1.
Proof.
  induction room as [|room IH]; intros path m n Hp; (destruct n as [|n]; [done|]).
  { split; [|done]. apply (entries_insert _ [] "type"); [apply entries_nil|]. by apply entry_type. }
  cbn [downlevel_object]. unfold collapsed. cbn [gemini sc_unions]. fold gemini.
  destruct (union_of m ≫= (fun u => pick_branch u.2)) as [branch|] eqn:Eu.
  - rewrite !fst_and_then.
    assert (Hb : plain (JObject branch) = true).
    { destruct (union_of m) as [u|] eqn:Em; [|done]. apply union_in in Em as [key Hin]. simpl in Eu.
      apply pick_branch_in in Eu. destruct (plain_entry _ _ _ Hp Hin) as [Ha _]. by eapply plain_elem. }
    cbn [fst]. destruct (bt_get "description" m); [apply describe_dialect|]; by apply IH.
  - rewrite !fst_and_then. apply fill_dialect.
    assert (Hobj : forall p o, plain (JObject o) = true ->
              entries_ok (nested_dialect n) (downlevel_object print_json gemini room p o).1).
    { intros p o Ho. apply (IH p o (S n) Ho). }
    unfold merge_all_of. cbn [gemini sc_all_of]. fold gemini.
    assert (Hk : entries_ok (nested_dialect n)
      (rewrite_const print_json gemini path m
         (downlevel_keys print_json gemini (downlevel_value_with (downlevel_object print_json gemini room))
            path m []).1).1).
    { apply const_entries, keys_entries; [|intros key v Hin; by apply (plain_entry m)|apply entries_nil].
      apply value_good. intros p o Ho. by apply IH. }
    destruct (bt_get "allOf" m) as [[]|] eqn:Ea; simpl; try done.
    apply members_entries; [done| |done]. apply Forall_forall. intros v Hv.
    apply bt_get_elem in Ea. destruct (plain_entry _ _ _ Hp Ea) as [Hpl _]. eapply plain_elem; [done|]. by apply list_elem_of_In.
Qed.

(** Whatever schema a client declares, what is sent is in the
    dialect of the target at every level of its properties and items: no unions,
    [allOf], [const], references or metadata, single types, enumerations of
    strings, and no object without properties. *)
Theorem downlevel_in_dialect schema n :
  plain schema = true -> nested_dialect n (downlevel print_json gemini schema).
Proof.
  intros Hp. unfold downlevel, downlevel_with_warnings, downlevel_value. destruct schema; try done.
  unfold downlevel_value_with. rewrite fst_and_then. cbn [fst]. by apply downlevel_object_dialect.
Qed.

(** ** Schemas that need no change *)

(** An array of values is enumerated under a declared type. *)
Definition typed_enum (m : Schema) : Prop :=
  forall l, bt_get "enum" m = Some (JArray l) -> is_Some (bt_get "type" m).

(** In the dialect, and not deeper than the room there is. *)
Fixpoint settled (room : nat) (m : Schema) : Prop :=
  match room with
  | O => False
  | S room =>
      entries_ok (fun v => match v with JObject m => settled room m | _ => True end) m
      /\ object_ok m /\ typed_enum m
  end.

Definition nested_settled (room : nat) (v : Json) : Prop :=
  match v with JObject m => settled room m | _ => True end.

Lemma dialect_left_out path key : dialect_key key = true -> left_out gemini path key = None.
Proof.
  unfold dialect_key, left_out. cbv zeta.
  repeat match goal with
         | |- context [if ?b then _ else _] => match type of b with bool => destruct b; [done|] end
         end. done.
Qed.

Lemma absent_key nested m key : entries_ok nested m -> dialect_key key = false -> bt_get key m = None.
Proof.
  intros [_ Hm] Hk. destruct (bt_get key m) as [v|] eqn:E; [|done]. by rewrite (eo_key _ _ _ (Hm _ _ E)) in Hk.
Qed.

Lemma collect_wf (m : Schema) : bt_wf m -> bt_collect m = m.
Proof.
  intros Hm. apply bt_wf_ext; [apply bt_collect_wf|done|]. intros k.
  pose proof (bt_filter_get (fun _ => true) m k Hm) as H. simpl in H.
  assert (Hid : forall l : Schema, List.filter (fun _ => true) l = l).
  { induction l as [|kv l IH]; [done|]. simpl. by rewrite IH. }
  by rewrite Hid in H.
Qed.

(** Strings are their own text. *)
Lemma stringify_strings l :
  Forall (fun x => is_string x = true) l ->
  (fun v => JString (stringify print_json v)) <$> l = l /\ existsb (fun v => negb (is_string v)) l = false.
Proof.
  induction 1 as [|v l Hv H [IH1 IH2]]; [done|]. destruct v; try done. simpl.
  split; [by f_equal|done].
Qed.

Lemma all_unchanged (value : string -> Json -> Warned Json) path props :
  (forall p k v, (k, v) ∈ props -> value p v = (v, [])) ->
  forall out, downlevel_all value path props out = (fold_left (fun m kv => bt_insert kv.1 kv.2 m) props out, []).
Proof.
  induction props as [|[pk pv] props IH]; intros Hv out; [done|]. cbn [downlevel_all].
  rewrite (Hv _ pk pv) by left. cbn [and_then]. rewrite IH by (intros; eapply Hv; by right). done.
Qed.

(** What the loop over the keywords does with those of the dialect. *)
Definition settle_step (out : Schema) (kv : string * Json) : Schema :=
  let out := bt_insert kv.1 kv.2 out in
  match kv.2 with
  | JArray _ => if str_eqb kv.1 "enum" then bt_insert "type" (JString "string") out else out
  | _ => out
  end.

Lemma key_unchanged nested (value : string -> Json -> Warned Json) path key v out :
  (forall p x, nested x -> value p x = (x, [])) -> entry_ok nested key v ->
  downlevel_key print_json gemini value path key v out = (settle_step out (key, v), []).
Proof.
  intros Hv He. unfold downlevel_key. rewrite (dialect_left_out path key) by apply He.
  cbn [gemini sc_type_arrays sc_string_enums_only negb]. rewrite !andb_true_r. unfold settle_step. cbn [fst snd].
  destruct (str_eqb key "type") eqn:E1.
  { apply str_eqb_true in E1 as ->. destruct v; try done. by destruct (eo_type _ _ _ He eq_refl l). }
  destruct (str_eqb key "enum") eqn:E2.
  { apply str_eqb_true in E2 as ->. destruct v; try done. simpl.
    destruct (stringify_strings l) as [-> ->]; [|done]. by apply (eo_enum _ _ _ He). }
  destruct (str_eqb key "properties") eqn:E3.
  { apply str_eqb_true in E3 as ->. destruct (eo_props _ _ _ He eq_refl) as (p & -> & Hw & Hp).
    rewrite all_unchanged.
    - cbn [and_then app]. fold (bt_collect p). by rewrite collect_wf.
    - intros q k x Hx. apply Hv. eapply Hp. by apply bt_get_in. }
  destruct (str_eqb key "items") eqn:E4.
  { apply str_eqb_true in E4 as ->. destruct (eo_items _ _ _ He eq_refl) as [Hn Ha].
    destruct v; try (by rewrite Hv). by destruct (Ha l). }
  by destruct v.
Qed.

Lemma keys_unchanged nested (value : string -> Json -> Warned Json) path l :
  (forall p x, nested x -> value p x = (x, [])) -> (forall k v, (k, v) ∈ l -> entry_ok nested k v) ->
  forall out, downlevel_keys print_json gemini value path l out = (fold_left settle_step l out, []).
Proof.
  intros Hv. induction l as [|[k v] l IH]; intros Hl out; [done|]. cbn [downlevel_keys].
  rewrite (key_unchanged nested) by (done || apply Hl; left). cbn [and_then].
  rewrite IH by (intros; apply Hl; by right). done.
Qed.

Lemma settle_get k l : k <> "type" -> forall out, bt_wf out ->
  bt_get k (fold_left settle_step l out) = or_else (find_last k l) (bt_get k out).
Proof.
  intros Hk. induction l as [|[k' v] l IH]; intros out Hw; [done|].
  assert (Hstep : bt_wf (settle_step out (k', v))
    /\ bt_get k (settle_step out (k', v)) = bt_get k (bt_insert k' v out)).
  { unfold settle_step. cbn [fst snd]. assert (Hw' := bt_insert_wf k' v out Hw).
    destruct v; try done. destruct (str_eqb k' "enum"); [|done].
    split; [by apply bt_insert_wf|]. by rewrite (bt_get_insert_ne k "type") by done. }
  cbn [fold_left find_last]. rewrite IH by apply Hstep. destruct (find_last k l); [done|].
  rewrite (proj2 Hstep). destruct (String.eqb_spec k k') as [->|Hne].
  - by rewrite bt_get_insert_eq.
  - by rewrite bt_get_insert_ne.
Qed.

(** Nothing but the keyword itself and enumerations set the type. *)
Lemma settle_type_keeps l : forall out,
  bt_wf out -> (forall k v, (k, v) ∈ l -> k <> "type" /\ (k = "enum" -> forall vs, v <> JArray vs)) ->
  bt_get "type" (fold_left settle_step l out) = bt_get "type" out.
Proof.
  induction l as [|[k v] l IH]; intros out Hw Hl; [done|]. cbn [fold_left].
  destruct (Hl k v ltac:(left)) as [Hk He].
  assert (Hstep : settle_step out (k, v) = bt_insert k v out).
  { unfold settle_step. cbn [fst snd]. destruct v; try done. destruct (str_eqb k "enum") eqn:E; [|done].
    apply str_eqb_true in E. by destruct (He E l0). }
  rewrite Hstep, IH; [|by apply bt_insert_wf|intros; apply Hl; by right].
  apply bt_get_insert_ne; [done|]. by apply not_eq_sym.
Qed.

Lemma settle_wf l : forall out, bt_wf out -> bt_wf (fold_left settle_step l out).
Proof.
  induction l as [|[k v] l IH]; intros out Hw; [done|]. cbn [fold_left]. apply IH.
  unfold settle_step. cbn [fst snd]. assert (Hw' := bt_insert_wf k v out Hw).
  destruct v; try done. destruct (str_eqb k "enum"); [by apply bt_insert_wf|done].
Qed.

(** After the keyword [type] there are only greater ones. *)
Lemma settle_type_last (l : Schema) t : bt_wf l -> bt_get "type" l = Some t -> forall out, bt_wf out ->
  bt_get "type" (fold_left settle_step l out) = Some t.
Proof.
  intros Hw. induction Hw as [|[k v] l Hs IH Hf]; intros Ht out Ho; [done|]. cbn [fold_left].
  assert (Ho' : bt_wf (settle_step out (k, v))) by (by apply (settle_wf [(k, v)])).
  cbn [bt_get] in Ht. destruct (key_cmp "type" k) eqn:E; [|done|by apply IH].
  apply key_cmp_eq in E as <-. injection Ht as ->. rewrite settle_type_keeps; [|done|].
  - unfold settle_step. cbn [fst snd]. change (str_eqb "type" "enum") with false. destruct t; by rewrite bt_get_insert_eq.
  - intros k v Hin%list_elem_of_In. rewrite Forall_forall in Hf. specialize (Hf _ Hin). unfold bt_lt in Hf. cbn [fst] in Hf.
    split; [intros ->; by rewrite key_cmp_refl in Hf|]. by intros ->.
Qed.

Lemma find_last_get (m : Schema) k : bt_wf m -> find_last k m = bt_get k m.
Proof.
  intros Hm. rewrite <- (collect_wf m Hm) at 2. unfold bt_collect. rewrite obj_acc by constructor.
  cbn [bt_get]. by rewrite or_else_none.
Qed.

Lemma settle_same m : bt_wf m -> typed_enum m -> fold_left settle_step m [] = m.
Proof.
  intros Hw Ht. apply bt_wf_ext; [by apply settle_wf; constructor|done|]. intros k.
  destruct (decide (k = "type")) as [->|Hk].
  - destruct (bt_get "type" m) as [t|] eqn:E; [by apply settle_type_last; [..|constructor]|].
    rewrite settle_type_keeps; [done|constructor|]. intros k v Hin. apply bt_get_in in Hin; [|done].
    split; [intros ->; congruence|]. intros -> vs ->. apply Ht in Hin as [? ?]. congruence.
  - rewrite settle_get by (done || constructor). rewrite find_last_get by done. cbn [bt_get]. by rewrite or_else_none.
Qed.

Lemma fill_unchanged path m : object_ok m -> fill_object gemini path m = (m, []).
Proof.
  intros Ho. unfold fill_object. simpl. destruct (bool_decide _) eqn:E; [|done].
  apply bool_decide_eq_true in E. destruct Ho as (p & Hp & Hne).
  - destruct (bt_get "type" m) as [[]|]; try done. by injection E as ->.
  - rewrite Hp. simpl. by destruct p.
Qed.

Lemma downlevel_settled room : forall path m,
  settled room m -> downlevel_object print_json gemini room path m = (m, []).
Proof.
  induction room as [|room IH]; intros path m Hm; [done|]. destruct Hm as (He & Ho & Ht).
  cbn [downlevel_object]. unfold collapsed, union_of. cbn [gemini sc_unions]. fold gemini.
  rewrite (absent_key _ m "anyOf" He), (absent_key _ m "oneOf" He) by done. simpl.
  rewrite (keys_unchanged (nested_settled room)).
  - simpl. rewrite settle_same by (done || apply He). unfold rewrite_const, merge_all_of.
    cbn [gemini sc_const_keyword sc_all_of]. fold gemini.
    rewrite (absent_key _ m "const" He), (absent_key _ m "allOf" He) by done. simpl.
    by rewrite fill_unchanged.
  - intros p x Hx. destruct x; try done. simpl. by rewrite (IH p).
  - intros k v Hin. apply He. by apply bt_get_in; [apply He|].
Qed.

(** A schema that is in the dialect, and not nested deeper than
    the limit, is sent as it is, without a warning. *)
Theorem downlevel_keeps_dialect m :
  settled MAX_DOWNLEVEL_DEPTH m -> downlevel_with_warnings print_json gemini (JObject m) = (JObject m, []).
Proof.
  intros Hm. unfold downlevel_with_warnings, downlevel_value, downlevel_value_with.
  by rewrite downlevel_settled.
Qed.
End Dialect.

Module SchemaSamples.

Definition print_int (v : Json) : string := match v with JInt n => fmt_int n | _ => "null" end.

Definition declared : Json :=
  obj [("$schema", JString "https://json-schema.org/draft/2020-12/schema");
       ("type", JString "object");
       ("properties",
        obj [("tag", obj [("const", JInt 7)]);
             ("either", obj [("anyOf", JArray [obj [("type", JString "null")];
                                               obj [("type", JArray [JString "null"; JString "string"])]])]);
             ("empty", obj [("type", JString "object")])])].

Lemma downlevel_in_dialect_witness :
  plain declared = true /\ nested_dialect 3 (downlevel print_int gemini declared).
Proof. split; [reflexivity|]. apply downlevel_in_dialect. reflexivity. Defined.

Definition accepted : Schema :=
  [("properties", obj [("city", obj [("enum", JArray [JString "Oslo"]); ("type", JString "string")])]);
   ("required", JArray [JString "city"]); ("type", JString "object")].

Lemma accepted_settled : settled MAX_DOWNLEVEL_DEPTH accepted.
Proof.
  assert (Hinner : settled 99 [("enum", JArray [JString "Oslo"]); ("type", JString "string")]).
  { split; [|split; [done|by intros l _]]. split; [repeat constructor|]. intros key v H.
    apply bt_get_elem in H. apply elem_of_cons in H as [[= -> ->]|[[= -> ->]|H]%elem_of_cons].
    - apply entry_enum. intros l [= <-]. by constructor.
    - by apply entry_type.
    - by apply elem_of_nil in H. }
  split; [|split; [intros _; by eexists|done]]. split; [repeat constructor|]. intros key v H.
  apply bt_get_elem in H. repeat apply elem_of_cons in H as [[= -> ->]|H]; [..|by apply elem_of_nil in H].
  - apply entry_props; [repeat constructor|]. intros k x Hk.
    apply bt_get_elem, elem_of_cons in Hk as [[= -> ->]|Hk]; [exact Hinner|by apply elem_of_nil in Hk].
  - by apply entry_plain.
  - by apply entry_type.
Qed.

Lemma downlevel_keeps_dialect_witness :
  downlevel_with_warnings print_int gemini (JObject accepted) = (JObject accepted, []).
Proof. apply downlevel_keeps_dialect. exact accepted_settled. Defined.

(** The values of an enumeration become strings and its type is set to [string],
    but [type] comes after [enum] in the object: a declared type is put back, and
    no value has it. *)
Lemma typed_enum_keeps_type :
  downlevel print_int gemini (obj [("type", JString "integer"); ("enum", JArray [JInt 1; JInt 2])])
  = obj [("type", JString "integer"); ("enum", JArray [JString "1"; JString "2"])].
Proof. reflexivity. Qed.

End SchemaSamples.
