(* ===== verification/Gemini.v ===== *)
(** * Gemini GenerateContent

    [crates/sb-protocols/src/gemini.rs]: canonical requests to upstream bodies, with
    the schemas downleveled, upstream responses and streams to canonical ones. Its
    helpers on data URLs are those of the chat format. JSON text and fresh
    identifiers are parameters. *)

From Stdlib Require Import ZArith Lia.
From stdpp Require Import base tactics list strings option gmap.
From S2P Require Import Prelude Text Lines BTree Float Ir Target Collect StreamTheorems Value OpenaiChat OpenaiTheorems.
From S2P Require Import Schema.

#[local] Open Scope Z_scope.
#[local] Open Scope switchback_scope.

Definition finish_reason_from_gemini (reason : option string) (had_tool_call : bool) : FinishReason :=
  if had_tool_call then ToolCalls
  else match reason with
  | Some r =>
      if str_eqb r "STOP" then Stop
      else if str_eqb r "MAX_TOKENS" then Length
      else if str_eqb r "SAFETY" || str_eqb r "BLOCKLIST" || str_eqb r "PROHIBITED_CONTENT"
      then ContentFilter
      else Stop
  | None => Stop
  end.

Definition finish_reason_to_gemini (r : FinishReason) : string :=
  match r with
  | Stop | ToolCalls | FinishError => "STOP"
  | Length => "MAX_TOKENS"
  | ContentFilter => "SAFETY"
  end.

(** ** Requests *)

Definition inline_data (media_type data : string) : Json :=
  obj [("inlineData", obj [("mimeType", JString media_type); ("data", JString data)])].
Definition file_data (uri : string) : Json :=
  obj [("fileData", obj [("mimeType", JString "image/png"); ("fileUri", JString uri)])].

Definition image_to_gemini_part (source : ImageSource) : result Json string :=
  let? _ := image_source_validate source in
  match source with
  | InlineBase64 media_type data => Ok (inline_data media_type data)
  | RemoteUrl url =>
      Ok match split_data_url url with
         | Some (media_type, data) => inline_data media_type data
         | None => file_data url
         end
  | ProviderFileRef provider id =>
      match provider with
      | Some owner =>
          if negb (str_eqb owner "gemini") && negb (str_eqb owner "vertex") then
            Err ("Gemini cannot encode provider file ref owned by `" ^^ owner ^^ "`")
          else Ok (file_data id)
      | None => Ok (file_data id)
      end
  end.

Definition text_part (text : string) : list Json :=
  if is_empty text then [] else [obj [("text", JString text)]].

Definition user_part (p : ContentPart) : result (list Json) string :=
  match p with
  | Text text => Ok (text_part text)
  | Image source _ => let? image := image_to_gemini_part source in Ok [image]
  | _ => Ok []
  end.

Definition user_parts (m : Message) : result (list Json) string :=
  let? parts := try_map user_part (msg_content m) in Ok (mjoin parts).

(** The names of the tools by the identifiers of their calls. *)
Definition tool_names (messages : list Message) : gmap string string :=
  fold_left (fun names p => match p with ToolUse id name _ => <[id := name]> names | _ => names end)
    (messages ≫= msg_content) ∅.

Definition function_call (name : string) (args : Json) : Json :=
  obj [("functionCall", obj [("name", JString name); ("args", args)])].

Definition model_part (p : ContentPart) : list Json :=
  match p with
  | Text text => text_part text
  | ToolUse _ name args => [function_call name args]
  | _ => []
  end.

Definition tool_part (names : gmap string string) (p : ContentPart) : list Json :=
  match p with
  | ToolResult tool_use_id content _ _ =>
      [obj [("functionResponse",
             obj [("name", JString (default tool_use_id (names !! tool_use_id)));
                  ("response", obj [("result", JString content)])])]]
  | _ => []
  end.

Definition gemini_turn (role : string) (parts : list Json) : list Json :=
  match parts with
  | [] => []
  | _ => [obj [("role", JString role); ("parts", JArray parts)]]
  end.

(** One message: what it adds to the system prompt and to the contents. *)
Definition message_to_gemini (names : gmap string string) (m : Message)
  : result (list string * list Json) string :=
  match msg_role m with
  | RoleSystem =>
      let? _ := reject_image_parts (msg_content m) "Gemini system messages" in
      let text := message_text m in
      Ok (if is_empty text then [] else [text], [])
  | RoleUser => let? parts := user_parts m in Ok ([], gemini_turn "user" parts)
  | RoleAssistant =>
      let? _ := reject_image_parts (msg_content m) "Gemini assistant messages" in
      Ok ([], gemini_turn "model" (msg_content m ≫= model_part))
  | RoleTool =>
      let? _ := reject_image_parts (msg_content m) "Gemini tool messages" in
      Ok ([], gemini_turn "user" (msg_content m ≫= tool_part names))
  end.

Section Wire.
Context (parse_json : string -> option Json) (print_json : Json -> string).

Definition downlevel_gemini_schema (schema : Json) (path_prefix : string) : Warned Json :=
  let '(schema, warnings) := downlevel_with_warnings print_json gemini schema in
  (schema, prepend_path path_prefix <$> warnings).

Definition tool_to_gemini (t : ToolSpec) : Warned Json :=
  let decl := put_opt "description" (JString <$> tool_description t) (obj [("name", JString (tool_name t))]) in
  if is_null (tool_parameters t) then (decl, [])
  else
    let '(schema, warnings) :=
      downlevel_gemini_schema (tool_parameters t) ("/tools/" ^^ tool_name t ^^ "/parameters") in
    (put "parameters" schema decl, warnings).

Definition json_mime : Json -> Json := put "responseMimeType" (JString "application/json").

Definition generation_config (req : AiRequest) : Warned Json :=
  let base := put_opt "maxOutputTokens" (JInt <$> req_max_output_tokens req)
    (put_opt "temperature" (req_temperature req ≫= (fun t => number_from_f64 (f64_of_f32 t))) (obj [])) in
  match req_response_format req with
  | Some RfJsonObject => (json_mime base, [])
  | Some (RfJsonSchema _ schema _) =>
      let '(schema, warnings) := downlevel_gemini_schema schema "/response_format/schema" in
      (put "responseSchema" schema (json_mime base), warnings)
  | Some RfText | None => (base, [])
  end.

Definition request_to_gemini_wire_with_warnings (req : AiRequest) : result (Json * list SchemaWarning) string :=
  let? _ := validate_canonical req in
  let names := tool_names (req_messages req) in
  let? turns := try_map (message_to_gemini names) (req_messages req) in
  let system := match req_system req with Some s => if is_empty s then [] else [s] | None => [] end
    ++ mjoin (turns.*1) in
  let tools := tool_to_gemini <$> req_tools req in
  let '(generation, warnings) := generation_config req in
  Ok (put_opt "generationConfig" (match as_object generation with Some [] => None | _ => Some generation end)
     (put_opt "tools" (match tools with
                       | [] => None
                       | _ => Some (JArray [obj [("functionDeclarations", JArray (tools.*1))]])
                       end)
     (put_opt "systemInstruction"
        (match system with
         | [] => None
         | _ => Some (obj [("parts", JArray [obj [("text", JString (join nl system))]])])
         end)
     (obj [("contents", JArray (mjoin (turns.*2)))]))),
     mjoin (tools.*2) ++ warnings).

Definition request_to_gemini_wire (req : AiRequest) : result Json string :=
  let? r := request_to_gemini_wire_with_warnings req in Ok r.1.

Definition schema_downlevel_warnings (req : AiRequest) : list SchemaWarning :=
  match request_to_gemini_wire_with_warnings req with Ok r => r.2 | Err _ => [] end.

(** ** Responses *)

Definition usage_from_gemini (meta : option Json) : Usage :=
  mkUsage (default 0 (meta ≫= get_u64 "promptTokenCount")) (default 0 (meta ≫= get_u64 "candidatesTokenCount"))
    (default 0 (meta ≫= get_u64 "cachedContentTokenCount")) 0 None.

Definition call_id (i : Z) : string := "call_" ^^ fmt_int i.

Fixpoint parse_parts (i : Z) (parts : list Json) : list ContentPart :=
  match parts with
  | [] => []
  | part :: parts =>
      match get_str "text" part with
      | Some text => (if is_empty text then [] else [Text text]) ++ parse_parts i parts
      | None =>
          match get_object "functionCall" part with
          | Some call =>
              ToolUse (call_id i) (default EmptyString (get_str "name" call)) (default JNull (get "args" call))
              :: parse_parts (wrap32 (i + 1)) parts
          | None => parse_parts i parts
          end
      end
  end.

Definition candidate_parts (candidate : Json) : option (list Json) :=
  get "content" candidate ≫= get_array "parts".

Definition parse_gemini_response (fresh_id : string) (body : Json) : result AiResponse string :=
  let? candidate := ok_or (get_array "candidates" body ≫= head) "missing `candidates[0]`" in
  let content := parse_parts 0 (default [] (candidate_parts candidate)) in
  Ok (mkAiResponse (default fresh_id (get_str "responseId" body))
        (default EmptyString (get_str "modelVersion" body)) (mkMessage RoleAssistant content None)
        (finish_reason_from_gemini (get_str "finishReason" candidate) (existsb is_tool_use content))
        (usage_from_gemini (get "usageMetadata" body))).

Definition response_part (p : ContentPart) : option Json :=
  match p with
  | Text text => Some (obj [("text", JString text)])
  | ToolUse _ name args => Some (function_call name args)
  | _ => None
  end.

Definition response_to_gemini (resp : AiResponse) : Json :=
  obj [("candidates", JArray [
          obj [("content", obj [("role", JString "model");
                                ("parts", JArray (omap response_part (msg_content (resp_message resp))))]);
               ("finishReason", JString (finish_reason_to_gemini (resp_finish_reason resp)))]]);
       ("usageMetadata", obj [("promptTokenCount", JInt (input_tokens (resp_usage resp)));
                              ("candidatesTokenCount", JInt (output_tokens (resp_usage resp)))])].

(** ** Streams *)

Record GeminiStreamDecoder := mkGeminiStreamDecoder {
  gd_started : bool;
  gd_ended : bool;
  gd_model : string;
  gd_tool_index : Z;
  gd_stop_reason : option FinishReason;
  gd_usage : Usage
}.

Definition GeminiStreamDecoder_new (model : string) : GeminiStreamDecoder :=
  mkGeminiStreamDecoder false false model 0 None Usage_default.

(** The parts of a chunk, with the next tool index and the reason to stop. *)
Fixpoint decode_parts (i : Z) (stop : option FinishReason) (parts : list Json)
  : Z * option FinishReason * list AiStreamEvent :=
  match parts with
  | [] => (i, stop, [])
  | part :: parts =>
      match get_str "text" part with
      | Some text =>
          let '(j, stop, evs) := decode_parts i stop parts in
          (j, stop, (if is_empty text then [] else [EvTextDelta text]) ++ evs)
      | None =>
          match get_object "functionCall" part with
          | Some call =>
              let '(j, stop, evs) := decode_parts (wrap32 (i + 1)) (Some ToolCalls) parts in
              (j, stop,
               EvToolCallStart i (call_id i) (default EmptyString (get_str "name" call))
               :: EvToolCallArgsDelta i (print_json (default JNull (get "args" call)))
               :: EvToolCallEnd i :: evs)
          | None => decode_parts i stop parts
          end
      end
  end.

Definition gemini_decode (d : GeminiStreamDecoder) (chunk : Json) : GeminiStreamDecoder * list AiStreamEvent :=
  let start := if gd_started d then []
    else [EvMessageStart (default EmptyString (get_str "responseId" chunk))
            (default (gd_model d) (get_str "modelVersion" chunk))] in
  let usage := match get "usageMetadata" chunk with
    | Some meta => usage_from_gemini (Some meta)
    | None => gd_usage d
    end in
  match get_array "candidates" chunk ≫= head with
  | None =>
      (mkGeminiStreamDecoder true (gd_ended d) (gd_model d) (gd_tool_index d) (gd_stop_reason d) usage, start)
  | Some candidate =>
      let '(i, stop, evs) :=
        decode_parts (gd_tool_index d) (gd_stop_reason d) (default [] (candidate_parts candidate)) in
      let stop := match get_str "finishReason" candidate with
        | Some reason =>
            Some (finish_reason_from_gemini (Some reason)
                    match stop with Some ToolCalls => true | _ => false end)
        | None => stop
        end in
      (mkGeminiStreamDecoder true (gd_ended d) (gd_model d) i stop usage, start ++ evs)
  end.

Definition gemini_finish (d : GeminiStreamDecoder) : GeminiStreamDecoder * list AiStreamEvent :=
  if gd_ended d then (d, [])
  else
    (mkGeminiStreamDecoder (gd_started d) true (gd_model d) (gd_tool_index d) (gd_stop_reason d) (gd_usage d),
     if gd_started d then [EvUsageDelta (gd_usage d); EvMessageEnd (default Stop (gd_stop_reason d))]
     else []).

Fixpoint gemini_chunks (d : GeminiStreamDecoder) (chunks : list Json)
  : GeminiStreamDecoder * list AiStreamEvent :=
  match chunks with
  | [] => (d, [])
  | chunk :: chunks =>
      let '(d, evs) := gemini_decode d chunk in
      let '(d, more) := gemini_chunks d chunks in (d, evs ++ more)
  end.

Definition decode_gemini (model : string) (chunks : list Json) : list AiStreamEvent :=
  let '(d, evs) := gemini_chunks (GeminiStreamDecoder_new model) chunks in evs ++ (gemini_finish d).2.

(** ** Streams and responses *)

(** What the chunks of a stream report together. *)
Definition chunk_candidate (chunk : Json) : option Json := get_array "candidates" chunk ≫= head.
Definition all_parts (chunks : list Json) : list Json :=
  chunks ≫= (fun chunk => default [] (chunk_candidate chunk ≫= candidate_parts)).
Definition last_some {A} (f : Json -> option A) (chunks : list Json) : option A :=
  fold_left (fun acc chunk => or_else (f chunk) acc) chunks None.
Definition last_reason : list Json -> option string :=
  last_some (fun chunk => chunk_candidate chunk ≫= get_str "finishReason").
Definition last_usage : list Json -> option Json := last_some (get "usageMetadata").

(** The tool calls of parts as the collector keeps them. *)
Fixpoint call_entries (i : Z) (parts : list Json) : list (Z * (string * string * string)) :=
  match parts with
  | [] => []
  | part :: parts =>
      match get_str "text" part, get_object "functionCall" part with
      | None, Some call =>
          (i, (call_id i, default EmptyString (get_str "name" call), print_json (default JNull (get "args" call))))
          :: call_entries (wrap32 (i + 1)) parts
      | _, _ => call_entries i parts
      end
  end.

Lemma call_entries_parts i parts :
  Forall (args_print parse_json print_json) (parse_parts i parts) ->
  tool_use_part parse_json <$> (call_entries i parts).*2 = List.filter is_tool_use (parse_parts i parts).
Proof.
  revert i. induction parts as [|part parts IH]; intros i H; [done|]. cbn [call_entries parse_parts] in *.
  destruct (get_str "text" part) as [text|].
  - destruct (is_empty text); cbn [app] in *; [by apply IH|]. apply Forall_cons_1 in H as [_ H]. by apply IH.
  - destruct (get_object "functionCall" part) as [call|]; [|by apply IH].
    apply Forall_cons_1 in H as [Ha H]. simpl in Ha. cbn [fmap list_fmap snd List.filter is_tool_use].
    rewrite <- IH by done. unfold tool_use_part at 1. by rewrite Ha.
Qed.

Lemma gemini_text_cons text parts :
  content_parts_to_text (Text text :: parts) = text ^^ content_parts_to_text parts.
Proof.
  unfold content_parts_to_text.
  set (texts := fun p => match p with Text t => Some t | _ => None end).
  change (omap texts (Text text :: parts)) with (text :: omap texts parts).
  destruct (omap texts parts); simpl; [by rewrite append_nil_r|done].
Qed.

(** The state of the collector after events, as far as a stream of parts moves it. *)
Record took (c c' : Collector) (text : string) (calls : list (Z * (string * string * string))) : Prop := {
  tk_content : c_content c' = c_content c ^^ text;
  tk_tools : c_tool_uses c' = c_tool_uses c ++ calls;
  tk_others : c_reasoning c' = c_reasoning c /\ c_images c' = c_images c /\ c_citations c' = c_citations c
              /\ c_server_tools c' = c_server_tools c /\ c_usage c' = c_usage c
              /\ c_finish_reason c' = c_finish_reason c
}.

Lemma took_text c text c' more calls :
  took (absorb c (Ok (EvTextDelta text))) c' more calls -> took c c' (text ^^ more) calls.
Proof.
  intros [H1 H2 H3]. split; [|done|done]. rewrite H1. unfold absorb. simpl. by rewrite append_assoc.
Qed.

Lemma took_call c i id name args c' text calls :
  Forall (fun kv => kv.1 < i) (c_tool_uses c) ->
  took (absorb (absorb (absorb c (Ok (EvToolCallStart i id name))) (Ok (EvToolCallArgsDelta i args)))
          (Ok (EvToolCallEnd i))) c' text calls ->
  took c c' text ((i, (id, name, args)) :: calls).
Proof.
  intros Hk. unfold absorb, take_bytes. simpl. rewrite bt_insert_above, bt_get_last, bt_update_last by done.
  simpl. intros [H1 H2 H3]. split; simpl in *; [done| |done]. by rewrite H2, <- app_assoc.
Qed.

(** The events of some parts do to the collector what the parts say. *)
Lemma decode_parts_took parts : forall i stop c,
  0 <= i -> i + Z.of_nat (length parts) <= u32_max -> Forall (fun kv => kv.1 < i) (c_tool_uses c) ->
  let '(j, stop', evs) := decode_parts i stop parts in
  no_errors evs /\ i <= j <= i + Z.of_nat (length parts)
  /\ Forall (fun kv => kv.1 < j) (call_entries i parts)
  /\ stop' = (if existsb is_tool_use (parse_parts i parts) then Some ToolCalls else stop)
  /\ took c (fold_left absorb (Ok <$> evs) c) (content_parts_to_text (parse_parts i parts)) (call_entries i parts).
Proof.
  induction parts as [|part parts IH]; intros i stop c Hi Hb Hk; cbn [decode_parts parse_parts call_entries].
  - split_and!; [constructor|lia|lia|constructor|done|].
    by split; simpl; rewrite ?append_nil_r, ?app_nil_r.
  - cbn [length] in *. destruct (get_str "text" part) as [text|].
    + destruct (is_empty text) eqn:Et.
      * specialize (IH i stop c Hi ltac:(lia) Hk). destruct (decode_parts i stop parts) as [[j s] evs].
        destruct IH as (H1 & H2 & H3 & H4 & H5). split_and!; done || lia.
      * specialize (IH i stop (absorb c (Ok (EvTextDelta text))) Hi ltac:(lia)).
        destruct (decode_parts i stop parts) as [[j s] evs].
        destruct IH as (H1 & H2 & H3 & H4 & H5); [done|]. split_and!; try done; try lia.
        -- by constructor.
        -- apply took_text in H5. cbn [app]. by rewrite gemini_text_cons.
    + destruct (get_object "functionCall" part) as [call|].
      * assert (Hw : wrap32 (i + 1) = i + 1).
        { apply wrap32_small. unfold in_u32, Prelude.u32_max. unfold u32_max in *. lia. }
        rewrite Hw.
        set (name := default EmptyString (get_str "name" call)).
        set (args := print_json (default JNull (get "args" call))).
        set (c1 := absorb (absorb (absorb c (Ok (EvToolCallStart i (call_id i) name)))
                     (Ok (EvToolCallArgsDelta i args))) (Ok (EvToolCallEnd i))).
        assert (Hc1 : c_tool_uses c1 = c_tool_uses c ++ [(i, (call_id i, name, args))]).
        { unfold c1, absorb, take_bytes. simpl. by rewrite bt_insert_above, bt_get_last, bt_update_last. }
        specialize (IH (i + 1) (Some ToolCalls) c1 ltac:(lia) ltac:(lia)).
        destruct (decode_parts (i + 1) (Some ToolCalls) parts) as [[j s] evs].
        destruct IH as (H1 & H2 & H3 & H4 & H5).
        { rewrite Hc1. apply Forall_app. split; [eapply Forall_impl; [done|]; simpl; lia|].
          constructor; [simpl; lia|constructor]. }
        split_and!; try lia.
        -- repeat (constructor; [done|]). done.
        -- constructor; [simpl; lia|done].
        -- rewrite H4. simpl. by destruct (existsb _ _).
        -- by apply took_call.
      * specialize (IH i stop c Hi ltac:(lia) Hk). destruct (decode_parts i stop parts) as [[j s] evs].
        destruct IH as (H1 & H2 & H3 & H4 & H5). split_and!; done || lia.
Qed.

Lemma decode_parts_stop parts : forall i stop,
  decode_parts i stop parts
  = ((decode_parts i None parts).1.1, or_else (decode_parts i None parts).1.2 stop, (decode_parts i None parts).2)
  /\ ((decode_parts i None parts).1.2 = None \/ (decode_parts i None parts).1.2 = Some ToolCalls).
Proof.
  induction parts as [|part parts IH]; intros i stop; cbn [decode_parts]; [by split; [|left]|].
  destruct (get_str "text" part) as [text|].
  - destruct (IH i stop) as [-> Ht]. by destruct (decode_parts i None parts) as [[j s] evs].
  - destruct (get_object "functionCall" part) as [call|]; [|apply IH].
    destruct (IH (wrap32 (i + 1)) (Some ToolCalls)) as [E Ht]. rewrite E.
    destruct (decode_parts (wrap32 (i + 1)) None parts) as [[j s] evs]. cbn [fst snd] in *.
    destruct Ht as [-> | ->]; (split; [done|by right]).
Qed.

Lemma decode_parts_app a b : forall i,
  decode_parts i None (a ++ b)
  = let '(j, s, evs) := decode_parts i None a in
    let '(k, s', more) := decode_parts j None b in (k, or_else s' s, evs ++ more).
Proof.
  induction a as [|part a IH]; intros i; cbn [app decode_parts].
  { destruct (decode_parts i None b) as [[k s] evs]. by rewrite or_else_none. }
  destruct (get_str "text" part) as [text|].
  - rewrite IH. destruct (decode_parts i None a) as [[j s] evs].
    destruct (decode_parts j None b) as [[k s'] more]. by rewrite app_assoc.
  - destruct (get_object "functionCall" part) as [call|]; [|apply IH].
    destruct (decode_parts_stop (a ++ b) (wrap32 (i + 1)) (Some ToolCalls)) as [-> _].
    destruct (decode_parts_stop a (wrap32 (i + 1)) (Some ToolCalls)) as [-> _]. rewrite IH.
    destruct (decode_parts (wrap32 (i + 1)) None a) as [[j s] evs]. cbn [fst snd].
    destruct (decode_parts j None b) as [[k s'] more]. cbn [fst snd]. by destruct s'.
Qed.

Lemma last_some_acc {A} (f : Json -> option A) chunks : forall acc,
  fold_left (fun acc chunk => or_else (f chunk) acc) chunks acc = or_else (last_some f chunks) acc.
Proof.
  unfold last_some. induction chunks as [|c chunks IH]; intros acc; [done|]. cbn [fold_left].
  rewrite (IH (or_else (f c) acc)), (IH (or_else (f c) None)).
  destruct (fold_left _ chunks None); [done|]. cbn. by destruct (f c).
Qed.

Lemma last_some_cons {A} (f : Json -> option A) c chunks :
  last_some f (c :: chunks) = or_else (last_some f chunks) (f c).
Proof. unfold last_some at 1. cbn [fold_left]. rewrite last_some_acc. by rewrite or_else_none. Qed.

(** The reason a stream ends with, from what it was. *)
Definition final_stop (called : option FinishReason) (reason : option string) (stop : option FinishReason)
  : option FinishReason :=
  if bool_decide (stop = Some ToolCalls) then Some ToolCalls
  else match called with
  | Some _ => Some ToolCalls
  | None => match reason with Some r => Some (finish_reason_from_gemini (Some r) false) | None => stop end
  end.

Lemma plain_reason r : finish_reason_from_gemini (Some r) false <> ToolCalls.
Proof. unfold finish_reason_from_gemini. repeat case_match; done. Qed.

(** One chunk. *)
Lemma gemini_decode_spec d chunk :
  let parts := default [] (chunk_candidate chunk ≫= candidate_parts) in
  let '(j, called, evs) := decode_parts (gd_tool_index d) None parts in
  gemini_decode d chunk
  = (mkGeminiStreamDecoder true (gd_ended d) (gd_model d) j
       (final_stop called (chunk_candidate chunk ≫= get_str "finishReason") (gd_stop_reason d))
       (match get "usageMetadata" chunk with Some m => usage_from_gemini (Some m) | None => gd_usage d end),
     (if gd_started d then []
      else [EvMessageStart (default EmptyString (get_str "responseId" chunk))
              (default (gd_model d) (get_str "modelVersion" chunk))]) ++ evs).
Proof.
  cbv zeta. unfold gemini_decode, chunk_candidate. destruct (get_array "candidates" chunk ≫= head) as [cand|]; simpl.
  - destruct (decode_parts_stop (default [] (candidate_parts cand)) (gd_tool_index d) (gd_stop_reason d)) as [E Ht].
    destruct (decode_parts (gd_tool_index d) None (default [] (candidate_parts cand))) as [[j called] evs].
    cbn [fst snd] in *. rewrite E. f_equal. f_equal. unfold final_stop.
    destruct Ht as [-> | ->]; destruct (get_str "finishReason" cand), (gd_stop_reason d) as [[]|]; done.
  - rewrite app_nil_r. f_equal. f_equal. unfold final_stop. by destruct (gd_stop_reason d) as [[]|].
Qed.

Lemma final_stop_twice called reason called' reason' stop :
  (called = None \/ called = Some ToolCalls) -> (called' = None \/ called' = Some ToolCalls) ->
  final_stop called' reason' (final_stop called reason stop)
  = final_stop (or_else called' called) (or_else reason' reason) stop.
Proof.
  intros H H'. unfold final_stop. destruct (bool_decide (stop = Some ToolCalls)) eqn:Es; [done|].
  destruct H as [-> | ->]; [|by destruct H' as [-> | ->]]. destruct H' as [-> | ->]; cbn [or_else].
  - destruct reason as [r|].
    + rewrite bool_decide_eq_false_2 by (intros [= Hx]; by apply plain_reason in Hx). by destruct reason'.
    + rewrite Es. by destruct reason'.
  - destruct reason as [r|]; [|by rewrite Es].
    by rewrite bool_decide_eq_false_2 by (intros [= Hx]; by apply plain_reason in Hx).
Qed.

Lemma all_parts_cons chunk chunks :
  all_parts (chunk :: chunks) = default [] (chunk_candidate chunk ≫= candidate_parts) ++ all_parts chunks.
Proof. done. Qed.

(** A stream of chunks is one chunk with all their parts. *)
Lemma gemini_chunks_spec chunks : forall d,
  let '(j, called, evs) := decode_parts (gd_tool_index d) None (all_parts chunks) in
  exists start, Forall (fun ev => exists id model, ev = EvMessageStart id model) start
  /\ (gd_started d = true -> start = [])
  /\ gemini_chunks d chunks
     = (mkGeminiStreamDecoder (negb (list_empty chunks) || gd_started d) (gd_ended d) (gd_model d) j
          (final_stop called (last_reason chunks) (gd_stop_reason d))
          (match last_usage chunks with Some m => usage_from_gemini (Some m) | None => gd_usage d end),
        start ++ evs).
Proof.
  induction chunks as [|chunk chunks IH]; intros d.
  { cbn. exists []. split_and!; [constructor|done|]. unfold final_stop. destruct d as [? ? ? ? [[]|] ?]; done. }
  rewrite all_parts_cons, decode_parts_app. cbn [gemini_chunks].
  pose proof (gemini_decode_spec d chunk) as Hd. cbv zeta in Hd.
  set (parts := default [] (chunk_candidate chunk ≫= candidate_parts)) in *.
  destruct (decode_parts_stop parts (gd_tool_index d) None) as [_ Hc].
  destruct (decode_parts (gd_tool_index d) None parts) as [[j called] evs]. cbn [fst snd] in Hc. rewrite Hd.
  match goal with |- context [gemini_chunks ?x chunks] => specialize (IH x) end. cbn [gd_tool_index] in IH.
  destruct (decode_parts_stop (all_parts chunks) j None) as [_ Hc'].
  destruct (decode_parts j None (all_parts chunks)) as [[k called'] more]. cbn [fst snd] in Hc'.
  destruct IH as (start & Hst & Hs & ->). cbn [gd_started gd_ended gd_model gd_stop_reason gd_usage] in *.
  rewrite (Hs eq_refl). unfold last_reason, last_usage. rewrite !last_some_cons, final_stop_twice by done.
  eexists. split_and!; [| |rewrite orb_true_r, <- app_assoc; f_equal; f_equal; by destruct (last_some (get _) chunks)].
  - destruct (gd_started d); constructor; [by eexists _, _|constructor].
  - by intros ->.
Qed.

Lemma starts_absorb start c :
  Forall (fun ev => exists id model, ev = EvMessageStart id model) start ->
  no_errors start /\ fold_left absorb (Ok <$> start) c = c.
Proof.
  induction 1 as [|ev start (id & model & ->) H [IH1 IH2]]; [split; [constructor|done]|].
  split; [by constructor|exact IH2].
Qed.

(** However Gemini cuts a response into chunks, the collected
    stream is the response: the text joined, the tool calls in order under their
    made-up identifiers, the reason it ended and its usage. *)
Theorem gemini_stream_is_response chunks body fresh resp model request_id name :
  chunks <> [] -> all_parts chunks = all_parts [body] -> last_reason chunks = last_reason [body] ->
  last_usage chunks = last_usage [body] ->
  Z.of_nat (length (all_parts [body])) <= u32_max ->
  parse_gemini_response fresh body = Ok resp ->
  Forall (args_print parse_json print_json) (msg_content (resp_message resp)) ->
  collect_response parse_json (Ok <$> decode_gemini model chunks) request_id name None
  = Ok (mkAiResponse request_id name
          (mkMessage RoleAssistant (chat_content (msg_content (resp_message resp))) None)
          (resp_finish_reason resp) (resp_usage resp)).
Proof.
  intros Hne Hparts Hreason Husage Hlen Hparse Hargs. unfold decode_gemini.
  pose proof (gemini_chunks_spec chunks (GeminiStreamDecoder_new model)) as H.
  cbn [GeminiStreamDecoder_new gd_tool_index] in H. rewrite Hparts, Hreason, Husage in H.
  pose proof (decode_parts_took (all_parts [body]) 0 None Collector_new) as Ht.
  destruct (decode_parts 0 None (all_parts [body])) as [[j called] evs].
  destruct H as (start & Hst & _ & ->). destruct Ht as (Hno & _ & _ & -> & Htook); [lia|lia|constructor|].
  assert (Hc : negb (list_empty chunks) = true) by (by destruct chunks). rewrite Hc. cbn [orb].
  unfold gemini_finish. cbn [gd_ended gd_started GeminiStreamDecoder_new snd].
  destruct (starts_absorb start Collector_new Hst) as [Hsn Hsa].
  unfold parse_gemini_response in Hparse.
  destruct (get_array "candidates" body ≫= head) as [cand|] eqn:Ecand; [|done]. simpl in Hparse.
  assert (Hall : all_parts [body] = default [] (candidate_parts cand)).
  { unfold all_parts, chunk_candidate. simpl. rewrite Ecand. simpl. by rewrite app_nil_r. }
  rewrite Hall in *. injection Hparse as <-. cbn [resp_message msg_content resp_finish_reason resp_usage] in *.
  set (content := parse_parts 0 (default [] (candidate_parts cand))) in *.
  set (c := fold_left absorb (Ok <$> evs) Collector_new) in *.
  unfold collect_response.
  match goal with |- context [collect_loop None Collector_new (Ok <$> ?l)] => set (all := l) end.
  assert (Hall_no : no_errors all).
  { apply no_errors_app; [by apply no_errors_app|]. by repeat constructor. }
  pose proof (collect_loop_spec None (Ok <$> all : EventStream) Collector_new Hall_no eq_refl) as Hl.
  simpl in Hl. rewrite Hl. clear Hl. cbn beta iota. unfold all. rewrite !fmap_app, !fold_left_app, Hsa. fold c.
  cbn [fmap list_fmap fold_left]. unfold absorb. cbn [collect_step].
  destruct Htook as [H1 H2 (H3 & H4 & H5 & H6 & H7 & H8)]. simpl in H1, H2.
  simpl. f_equal. f_equal; [f_equal|..].
  - unfold collector_parts, chat_content. simpl. rewrite H1, H2, H3, H4, H5, H6. simpl.
    f_equal. by apply call_entries_parts.
  - unfold final_stop. rewrite bool_decide_eq_false_2 by done. cbn [last_reason]. unfold last_reason.
    rewrite last_some_cons. cbn [or_else last_some fold_left]. unfold chunk_candidate. rewrite Ecand. simpl.
    fold content. destruct (existsb is_tool_use content); [done|]. by destruct (get_str "finishReason" cand).
  - unfold last_usage. rewrite last_some_cons. cbn. by destruct (get "usageMetadata" body).
Qed.
End Wire.

Module GeminiSamples.

(** Texts and JSON that print as themselves, for one pair of values. *)
Definition print_sample (v : Json) : string := match v with JBool true => "true" | _ => "null" end.
Definition parse_sample (s : string) : option Json :=
  if String.eqb s "true" then Some (JBool true) else if String.eqb s "null" then Some JNull else None.

Definition text_json (t : string) : Json := obj [("text", JString t)].
Definition candidate (parts : list Json) (extra : list (string * Json)) : Json :=
  obj (("content", obj [("parts", JArray parts)]) :: extra).
Definition call_json : Json := function_call "f" (JBool true).
Definition done_with : list (string * Json) := [("finishReason", JString "STOP")].
Definition meta : string * Json :=
  ("usageMetadata", obj [("promptTokenCount", JInt 3); ("candidatesTokenCount", JInt 4)]).

Definition body : Json :=
  obj [("candidates", JArray [candidate [text_json "Hel"; text_json "lo"; call_json] done_with]); meta].
Definition chunks : list Json :=
  [obj [("candidates", JArray [candidate [text_json "Hel"] []])];
   obj [("candidates", JArray [candidate [text_json "lo"; call_json] []])];
   obj [("candidates", JArray [candidate [] done_with]); meta]].

Lemma gemini_stream_is_response_witness :
  collect_response parse_sample (Ok <$> decode_gemini print_sample "gemini" chunks) "r" "gemini" None
  = Ok (mkAiResponse "r" "gemini"
          (mkMessage RoleAssistant [Text "Hello"; ToolUse "call_0" "f" (JBool true)] None)
          ToolCalls (mkUsage 3 4 0 0 None)).
Proof.
  eapply (gemini_stream_is_response parse_sample print_sample chunks body "fresh"
            (mkAiResponse "fresh" ""
               (mkMessage RoleAssistant [Text "Hel"; Text "lo"; ToolUse "call_0" "f" (JBool true)] None)
               ToolCalls (mkUsage 3 4 0 0 None)));
    [discriminate|reflexivity|reflexivity|reflexivity|vm_compute; discriminate|reflexivity|
     repeat constructor].
Defined.

End GeminiSamples.
