(* ===== verification/Responses.v ===== *)
(** * OpenAI Responses

    [crates/sb-protocols/src/responses.rs], and the decoder of its streams in
    [crates/sb-adapters/src/codec.rs]: client bodies to canonical requests and
    canonical responses and streams to client ones, the same for upstreams in the
    other direction. Helpers that the source repeats from the chat format, word for
    word, are those of the chat format. JSON text and fresh identifiers are
    parameters: [new_id prefix n] is an identifier drawn for the [n]th item. *)

From Stdlib Require Import ZArith Lia.
From stdpp Require Import base list strings option gmap.
From S2P Require Import Prelude Text Lines BTree Float Ir Target Value OpenaiChat Messages.

#[local] Open Scope Z_scope.
#[local] Open Scope switchback_scope.

(** [str::strip_suffix]. *)
Fixpoint strip_suffix (suffix s : string) : option string :=
  if String.eqb s suffix then Some EmptyString
  else match s with
       | EmptyString => None
       | String c s => String c <$> strip_suffix suffix s
       end.

Section Responses.
Context (parse_json : string -> option Json) (print_json : Json -> string)
        (new_id : string -> nat -> string).

(** ** Client requests *)

Definition is_supported_responses_server_tool (kind : string) : bool :=
  existsb (str_eqb kind)
    ["web_search"; "web_search_preview"; "file_search"; "tool_search"; "mcp"; "computer_use";
     "computer_use_preview"; "image_generation"; "code_interpreter"; "shell"; "local_shell"].

(** An [input_image], in a message or in the result of a tool. *)
Definition parse_input_image (item : Json) (missing : string)
  : result (ImageSource * option ImageDetail) string :=
  let? detail := parse_image_detail (get_str "detail" item) in
  match get_str "image_url" item, get_str "file_id" item with
  | Some url, _ =>
      Ok (match split_data_url url with
          | Some (media_type, data) => InlineBase64 media_type data
          | None => RemoteUrl url
          end, detail)
  | None, Some file_id => Ok (ProviderFileRef (Some "openai") file_id, detail)
  | None, None => Err missing
  end.

Definition responses_part (part : Json) : result ContentPart string :=
  match get_str "type" part with
  | None => Err "Responses content part missing string `type`"
  | Some kind =>
      if str_eqb kind "input_text" || str_eqb kind "output_text" then
        let? text := ok_or (get_str "text" part) "Responses text content part missing string `text`" in
        Ok (Text text)
      else if str_eqb kind "input_image" then
        let? image := parse_input_image part "Responses input_image part missing `image_url` or `file_id`" in
        Ok (Image image.1 image.2)
      else Err ("unsupported Responses content part `" ^^ kind ^^ "`")
  end.

Definition content_to_parts (content : option Json) : result (list ContentPart) string :=
  match content with
  | None | Some JNull => Ok []
  | Some (JString s) => Ok [Text s]
  | Some (JArray parts) => try_map responses_part parts
  | Some _ => Err "Responses message content must be a string, null, or array"
  end.

Definition content_to_text (content : option Json) : result string string :=
  let? parts := content_to_parts content in Ok (content_parts_to_text parts).

Definition tool_result_parts_to_text (parts : list ToolResultContentPart) : string :=
  join nl (omap (fun p => match p with
                          | TRText text => if is_empty text then None else Some text
                          | TRImage _ _ => None
                          end) parts).

Definition tool_result_part (item : Json) : result ToolResultContentPart string :=
  match get_str "type" item with
  | None => Err "Responses tool result content part missing string `type`"
  | Some kind =>
      if str_eqb kind "input_text" then
        let? text := ok_or (get_str "text" item) "Responses tool result input_text missing string `text`" in
        Ok (TRText text)
      else if str_eqb kind "input_image" then
        let? image := parse_input_image item
          "Responses tool result input_image missing `image_url` or `file_id`" in
        Ok (TRImage image.1 image.2)
      else Err ("unsupported Responses tool result content part `" ^^ kind ^^ "`")
  end.

Definition parse_tool_result_output (output : option Json)
  : result (string * list ToolResultContentPart) string :=
  match output with
  | None | Some JNull => Ok (EmptyString, [])
  | Some (JString text) => Ok (text, if is_empty text then [] else [TRText text])
  | Some (JArray items) =>
      let? parts := try_map tool_result_part items in Ok (tool_result_parts_to_text parts, parts)
  | Some _ => Err "Responses function_call_output `output` must be a string, null, or array"
  end.

(** [serde_json::from_str(s).ok()] of the arguments, or null. *)
Definition parse_arguments (item : Json) : Json :=
  default JNull (get_str "arguments" item ≫= parse_json).

Definition call_id_of (item : Json) : string :=
  default EmptyString (or_else (get "call_id" item) (get "id" item) ≫= as_str).

(** One input item: the prompt it leaves and the messages it adds. *)
Definition parse_input_item (system : option string) (item : Json)
  : result (option string * list Message) string :=
  let kind := default "message" (get_str "type" item) in
  if str_eqb kind "message" then
    let role := default "user" (get_str "role" item) in
    let? parts := content_to_parts (get "content" item) in
    let text := content_parts_to_text parts in
    if str_eqb role "system" || str_eqb role "developer" then
      let? _ := reject_image_parts parts "Responses system/developer messages" in
      Ok (if is_empty text then system
          else Some match system with Some existing => existing ^^ nl ^^ text | None => text end, [])
    else if str_eqb role "assistant" then
      let? _ := reject_image_parts parts "Responses assistant messages" in
      Ok (system, [mkMessage RoleAssistant parts None])
    else Ok (system, [mkMessage RoleUser parts None])
  else if str_eqb kind "function_call" then
    Ok (system,
        [mkMessage RoleAssistant
           [ToolUse (call_id_of item) (default EmptyString (get_str "name" item)) (parse_arguments item)] None])
  else if str_eqb kind "function_call_output" then
    let? output := parse_tool_result_output (get "output" item) in
    Ok (system,
        [mkMessage RoleTool
           [ToolResult (default EmptyString (get_str "call_id" item)) output.1 output.2 false] None])
  else Err ("unsupported Responses input item `" ^^ kind ^^ "`").

Fixpoint parse_input_items (system : option string) (l : list Json)
  : result (option string * list Message) string :=
  match l with
  | [] => Ok (system, [])
  | item :: l =>
      let? r := parse_input_item system item in
      let? rest := parse_input_items r.1 l in
      Ok (rest.1, r.2 ++ rest.2)
  end.

Definition parse_responses_tool (tool : Json) : result (ServerToolSpec + ToolSpec) string :=
  match get_str "type" tool with
  | None => Err "Responses tool missing string `type`"
  | Some kind =>
      if str_eqb kind "function" then
        let? name := ok_or (get_str "name" tool) "Responses function tool missing string `name`" in
        Ok (inr (mkToolSpec name (get_str "description" tool) (default JNull (get "parameters" tool))
                   (default false (get_bool "defer_loading" tool))))
      else if is_supported_responses_server_tool kind then
        Ok (inl (mkServerToolSpec OpenAiResponses kind tool))
      else Err ("unsupported Responses tool type `" ^^ kind ^^ "`")
  end.

Definition RESPONSES_MODELED : list string :=
  ["model"; "instructions"; "input"; "tools"; "stream"; "temperature"; "max_output_tokens"].

Definition responses_passthrough (body : Json) : BTreeMap string Json :=
  bt_collect (List.filter (fun kv => negb (existsb (String.eqb kv.1) RESPONSES_MODELED))
                (default [] (as_object body))).

Definition request_from_openai_responses (fresh_id : string) (body : Json) : result AiRequest string :=
  let? model := ok_or (get_str "model" body) "missing or invalid `model`" in
  let system := match get_str "instructions" body with
    | Some s => if is_empty s then None else Some s
    | None => None
    end in
  let? input := match get "input" body with
    | Some (JString text) => Ok (system, [message_user text])
    | Some (JArray items) => parse_input_items system items
    | _ => Err "missing or invalid `input`"
    end in
  let? tools := try_map parse_responses_tool (default [] (get_array "tools" body)) in
  Ok (mkAiRequest fresh_id model input.1 input.2 (omap right_of tools) (omap left_of tools) None
        (default false (get_bool "stream" body)) (get_u64 "max_output_tokens" body ≫= to_u32)
        (f32_of_f64 <$> get_f64 "temperature" body) PriorityNormal Standard [] None None
        (responses_passthrough body) [] None None).

(** ** Upstream requests *)

Definition image_to_responses (source : ImageSource) (detail : option ImageDetail) : result Json string :=
  let? _ := image_source_validate source in
  let image := obj [("type", JString "input_image");
                    ("detail", JString (image_detail_as_str (default DetailAuto detail)))] in
  match source with
  | InlineBase64 media_type data =>
      Ok (put "image_url" (JString ("data:" ^^ media_type ^^ ";base64," ^^ data)) image)
  | RemoteUrl url => Ok (put "image_url" (JString url) image)
  | ProviderFileRef provider id =>
      match provider with
      | Some owner =>
          if str_eqb owner "openai" then Ok (put "file_id" (JString id) image)
          else Err ("OpenAI Responses cannot encode provider file ref owned by `" ^^ owner ^^ "`")
      | None => Ok (put "file_id" (JString id) image)
      end
  end.

Definition tool_result_part_json (p : ToolResultContentPart) : result Json string :=
  match p with
  | TRText text => Ok (obj [("type", JString "input_text"); ("text", JString text)])
  | TRImage source detail => image_to_responses source detail
  end.

Definition tool_result_output_to_responses (content : string) (parts : list ToolResultContentPart)
  : result Json string :=
  match parts with
  | [] => Ok (JString content)
  | [TRText text] =>
      if str_eqb text content then Ok (JString content)
      else Ok (JArray [obj [("type", JString "input_text"); ("text", JString text)]])
  | parts => let? output := try_map tool_result_part_json parts in Ok (JArray output)
  end.

Definition responses_content (role : Role) (p : ContentPart) : result (list Json) string :=
  match p with
  | Text text =>
      Ok (if is_empty text then []
          else [obj [("type", JString (if bool_decide (role = RoleAssistant) then "output_text" else "input_text"));
                     ("text", JString text)]])
  | Image source detail =>
      if negb (bool_decide (role = RoleUser)) then
        Err "OpenAI Responses can only encode image content in user messages"
      else let? image := image_to_responses source detail in Ok [image]
  | _ => Ok []
  end.

Definition message_content_to_responses_parts (m : Message) : result (list Json) string :=
  let? parts := try_map (responses_content (msg_role m)) (msg_content m) in Ok (mjoin parts).

Definition call_item (p : ContentPart) : option Json :=
  match p with
  | ToolUse id name args =>
      Some (obj [("type", JString "function_call"); ("call_id", JString id); ("name", JString name);
                 ("arguments", JString (print_json args))])
  | _ => None
  end.

Definition tool_message_part (p : ContentPart) : result (list Json) string :=
  match p with
  | ToolResult tool_use_id content content_parts _ =>
      let? output := tool_result_output_to_responses content content_parts in
      Ok [obj [("type", JString "function_call_output"); ("call_id", JString tool_use_id); ("output", output)]]
  | Image _ _ => Err "OpenAI Responses cannot encode image content in tool messages"
  | _ => Ok []
  end.

(** One message: the instructions it sets and the items it adds. *)
Definition message_to_responses (m : Message) : result (option string * list Json) string :=
  match msg_role m with
  | RoleSystem =>
      let? _ := reject_image_parts (msg_content m) "Responses system messages" in
      let text := message_text m in
      Ok (if is_empty text then None else Some text, [])
  | RoleUser | RoleAssistant =>
      let? content := message_content_to_responses_parts m in
      let role := if bool_decide (msg_role m = RoleAssistant) then "assistant" else "user" in
      Ok (None,
          match content with
          | [] => []
          | _ => [obj [("type", JString "message"); ("role", JString role); ("content", JArray content)]]
          end ++ omap call_item (msg_content m))
  | RoleTool => let? items := try_map tool_message_part (msg_content m) in Ok (None, mjoin items)
  end.

Definition tool_to_responses (t : ToolSpec) : Json :=
  put_opt "defer_loading" (if tool_defer_loading t then Some (JBool true) else None)
    (obj [("type", JString "function"); ("name", JString (tool_name t));
          ("description", opt_string (tool_description t)); ("parameters", tool_parameters t)]).

Definition server_tool_to_responses (has_deferred_tools : bool) (t : ServerToolSpec)
  : result (list Json) string :=
  let search := starts_with "tool_search_tool_" (st_kind t) in
  match st_protocol t with
  | OpenAiResponses => Ok [st_config t]
  | Anthropic =>
      if search && has_deferred_tools then Ok [obj [("type", JString "tool_search")]]
      else if search then Ok []
      else Err ("OpenAI Responses cannot encode " ^^ server_tool_protocol_as_str (st_protocol t)
                  ^^ " server tool `" ^^ st_kind t ^^ "`")
  end.

(** The last one that is set. *)
Definition last_set (l : list (option string)) (initial : option string) : option string :=
  fold_left (fun acc o => or_else o acc) l initial.

Definition request_to_openai_responses_wire (req : AiRequest) (model : string) (stream : bool)
  : result Json string :=
  let? _ := validate_canonical req in
  let? items := try_map message_to_responses (req_messages req) in
  let instructions := last_set (items.*1)
    match req_system req with Some s => if is_empty s then None else Some s | None => None end in
  let? server :=
    try_map (server_tool_to_responses (existsb tool_defer_loading (req_tools req))) (req_server_tools req) in
  let tools := if has_tools req
    then Some (JArray ((tool_to_responses <$> req_tools req) ++ mjoin server)) else None in
  Ok (put_missing (req_passthrough req)
     (put_opt "max_output_tokens" (JInt <$> req_max_output_tokens req)
     (put_opt "temperature" ((fun t => f64_value (f64_of_f32 t)) <$> req_temperature req)
     (put_opt "tools" tools
     (put_opt "instructions" (JString <$> instructions)
     (obj [("model", JString model); ("stream", JBool stream); ("input", JArray (mjoin (items.*2)))])))))).

(** ** Client responses *)

Definition responses_usage_json (u : Usage) : Json :=
  put_opt "energy" (energy_usage_json <$> usage_energy u)
    (obj [("input_tokens", JInt (input_tokens u)); ("output_tokens", JInt (output_tokens u));
          ("total_tokens", JInt (usage_total u))]).

Definition finish_str (reason : FinishReason) : string :=
  match reason with
  | Stop => "completed"
  | Length => "incomplete"
  | ToolCalls => "completed"
  | ContentFilter => "incomplete"
  | FinishError => "failed"
  end.

Definition reasoning_item (id text : string) : Json :=
  obj [("type", JString "reasoning"); ("id", JString id);
       ("summary", JArray [obj [("type", JString "summary_text"); ("text", JString text)]])].

Definition message_item (id text : string) (annotations : list Json) : Json :=
  obj [("type", JString "message"); ("id", JString id); ("status", JString "completed");
       ("role", JString "assistant");
       ("content", JArray [obj [("type", JString "output_text"); ("text", JString text);
                                ("annotations", JArray annotations)]])].

Definition function_call_item (id call_id name arguments : string) : Json :=
  obj [("type", JString "function_call"); ("id", JString id); ("call_id", JString call_id);
       ("name", JString name); ("arguments", JString arguments); ("status", JString "completed")].

Definition image_item (id media_type data : string) : Json :=
  obj [("type", JString "image_generation_call"); ("id", JString id); ("status", JString "completed");
       ("result", JString data); ("output_format", JString media_type)].

Definition url_citation (url : string) (title : option string) : Json :=
  obj [("type", JString "url_citation"); ("url", JString url); ("title", opt_string title)].

Definition reasoning_output (n : nat) (p : ContentPart) : list Json :=
  match p with
  | Reasoning text _ => if is_empty text then [] else [reasoning_item (new_id "rs" n) text]
  | _ => []
  end.

Definition annotation_of (p : ContentPart) : option Json :=
  match p with Citation url title _ => Some (url_citation url title) | _ => None end.

Definition call_output (n : nat) (p : ContentPart) : list Json :=
  match p with
  | ToolUse id name args => [function_call_item (new_id "fc" n) id name (print_json args)]
  | Image (InlineBase64 media_type data) _ => [image_item (new_id "img" n) media_type data]
  | ServerToolUse id name args =>
      [obj [("type", JString (name ^^ "_call")); ("id", JString id); ("status", JString "completed");
            ("action", args)]]
  | _ => []
  end.

Definition responses_output (m : Message) : list Json :=
  let content := msg_content m in
  let text := message_text m in
  mjoin (imap reasoning_output content)
  ++ (if is_empty text then []
      else [message_item (new_id "msg" 0) text (omap annotation_of content)])
  ++ mjoin (imap call_output content).

Definition responses_object (id status model : string) (output : list Json) (usage : Usage) : Json :=
  put_opt "energy" (energy_usage_json <$> usage_energy usage)
    (obj [("id", JString id); ("object", JString "response"); ("status", JString status);
          ("model", JString model); ("output", JArray output); ("usage", responses_usage_json usage)]).

Definition response_to_openai_responses (resp : AiResponse) : Json :=
  responses_object (resp_id resp) "completed" (resp_model resp) (responses_output (resp_message resp))
    (resp_usage resp).

(** ** Upstream responses *)

Definition output_format_to_media_type (format : option string) : string :=
  let format := default "png" format in
  if contains "/" format then format else "image/" ^^ format.

Definition summary_text (part : Json) : option string :=
  if has_type "summary_text" part then get_str "text" part else None.

Definition reasoning_summary_text (item : Json) : string :=
  match get_array "summary" item with
  | Some summary => join EmptyString (omap summary_text summary)
  | None => EmptyString
  end.

Definition citation_part (annotation : Json) : option ContentPart :=
  if has_type "url_citation" annotation then
    (fun url => Citation url (get_str "title" annotation) None) <$> get_str "url" annotation
  else None.

Definition output_part (part : Json) : list ContentPart :=
  match get_str "text" part with
  | Some text => if is_empty text then [] else [Text text]
  | None => []
  end ++ omap citation_part (default [] (get_array "annotations" part)).

Definition message_output_parts (item : Json) : result (list ContentPart) string :=
  match get_array "content" item with
  | None =>
      let? text := content_to_text (get "content" item) in
      Ok (if is_empty text then [] else [Text text])
  | Some content => Ok (content ≫= output_part)
  end.

Definition parse_output_item (item : Json) : result (list ContentPart) string :=
  match get_str "type" item with
  | None => Ok []
  | Some kind =>
      if str_eqb kind "message" then message_output_parts item
      else if str_eqb kind "reasoning" then
        let text := reasoning_summary_text item in
        Ok (if is_empty text then [] else [Reasoning text None])
      else if str_eqb kind "function_call" then
        Ok [ToolUse (call_id_of item) (default EmptyString (get_str "name" item)) (parse_arguments item)]
      else if str_eqb kind "image_generation_call" then
        Ok match get_str "result" item with
           | Some data =>
               [Image (InlineBase64 (output_format_to_media_type (get_str "output_format" item)) data) None]
           | None => []
           end
      else match strip_suffix "_call" kind with
           | Some name =>
               Ok [ServerToolUse (default EmptyString (get_str "id" item)) name
                     (default JNull (get "action" item))]
           | None => Ok []
           end
  end.

Definition finish_reason_from_status (status : option string) : FinishReason :=
  match status with
  | Some s => if str_eqb s "incomplete" then Length else if str_eqb s "failed" then FinishError else Stop
  | None => Stop
  end.

Definition parse_usage (value energy_value : option Json) : Usage :=
  let energy := parse_energy_usage energy_value in
  match value with
  | None => mkUsage 0 0 0 0 energy
  | Some value =>
      mkUsage (default 0 (get_u64 "input_tokens" value)) (default 0 (get_u64 "output_tokens" value))
        (default 0 (pointer ["input_tokens_details"; "cached_tokens"] value ≫= as_u64))
        (default 0 (pointer ["output_tokens_details"; "reasoning_tokens"] value ≫= as_u64)) energy
  end.

Definition parse_openai_responses_response (body : Json) : result AiResponse string :=
  let? output := ok_or (get_array "output" body) "Responses response missing `output` array" in
  let? content := try_map parse_output_item output in
  Ok (mkAiResponse (default "resp" (get_str "id" body)) (default EmptyString (get_str "model" body))
        (mkMessage RoleAssistant (mjoin content) None)
        (finish_reason_from_status (get_str "status" body))
        (parse_usage (get "usage" body) (or_else (get "energy" body) (pointer ["usage"; "energy"] body)))).

(** ** Client streams *)

(** A tool call: its identifier, its name and the text of its arguments. *)
Definition ToolText : Type := string * string * string.

Record OpenAiResponsesStreamEncoder := mkOpenAiResponsesStreamEncoder {
  re_response_id : string;
  re_model : string;
  re_item_id : string;
  re_output_index : Z;
  re_text_open : bool;
  re_text : string;
  re_usage : Usage;
  re_status : string;
  re_tool_calls : list ToolText;
  re_cur_tool : option ToolText;
  re_reasoning_id : string;
  re_reasoning : string;
  re_reasoning_open : bool;
  re_reasoning_item : option Json
}.

Definition OpenAiResponsesStreamEncoder_new (response_id model : string) : OpenAiResponsesStreamEncoder :=
  mkOpenAiResponsesStreamEncoder response_id model (new_id "msg" 0) 0 false EmptyString Usage_default
    "completed" [] None (new_id "rs" 0) EmptyString false None.

(** The fields that the operations below set. *)
Definition with_index (n : Z) (e : OpenAiResponsesStreamEncoder) : OpenAiResponsesStreamEncoder :=
  mkOpenAiResponsesStreamEncoder (re_response_id e) (re_model e) (re_item_id e) n (re_text_open e)
    (re_text e) (re_usage e) (re_status e) (re_tool_calls e) (re_cur_tool e) (re_reasoning_id e)
    (re_reasoning e) (re_reasoning_open e) (re_reasoning_item e).

Definition with_text (text : string) (e : OpenAiResponsesStreamEncoder) : OpenAiResponsesStreamEncoder :=
  mkOpenAiResponsesStreamEncoder (re_response_id e) (re_model e) (re_item_id e) (re_output_index e) true
    text (re_usage e) (re_status e) (re_tool_calls e) (re_cur_tool e) (re_reasoning_id e)
    (re_reasoning e) (re_reasoning_open e) (re_reasoning_item e).

Definition with_usage (usage : Usage) (e : OpenAiResponsesStreamEncoder) : OpenAiResponsesStreamEncoder :=
  mkOpenAiResponsesStreamEncoder (re_response_id e) (re_model e) (re_item_id e) (re_output_index e)
    (re_text_open e) (re_text e) usage (re_status e) (re_tool_calls e) (re_cur_tool e) (re_reasoning_id e)
    (re_reasoning e) (re_reasoning_open e) (re_reasoning_item e).

Definition with_status (status : string) (e : OpenAiResponsesStreamEncoder) : OpenAiResponsesStreamEncoder :=
  mkOpenAiResponsesStreamEncoder (re_response_id e) (re_model e) (re_item_id e) (re_output_index e)
    (re_text_open e) (re_text e) (re_usage e) status (re_tool_calls e) (re_cur_tool e) (re_reasoning_id e)
    (re_reasoning e) (re_reasoning_open e) (re_reasoning_item e).

Definition with_tools (calls : list ToolText) (cur : option ToolText) (e : OpenAiResponsesStreamEncoder)
  : OpenAiResponsesStreamEncoder :=
  mkOpenAiResponsesStreamEncoder (re_response_id e) (re_model e) (re_item_id e) (re_output_index e)
    (re_text_open e) (re_text e) (re_usage e) (re_status e) calls cur (re_reasoning_id e)
    (re_reasoning e) (re_reasoning_open e) (re_reasoning_item e).

Definition with_reasoning (text : string) (item : option Json) (e : OpenAiResponsesStreamEncoder)
  : OpenAiResponsesStreamEncoder :=
  mkOpenAiResponsesStreamEncoder (re_response_id e) (re_model e) (re_item_id e) (re_output_index e)
    (re_text_open e) (re_text e) (re_usage e) (re_status e) (re_tool_calls e) (re_cur_tool e)
    (re_reasoning_id e) text true item.

Definition next_item (e : OpenAiResponsesStreamEncoder) : OpenAiResponsesStreamEncoder :=
  with_index (wrap32 (re_output_index e + 1)) e.

Definition item_frame (kind : string) (index : Z) (item : Json) : Frame :=
  typed kind [("output_index", JInt index); ("item", item)].

Definition content_frame (kind item_id : string) (index : Z) (place : string) (fields : list (string * Json))
  : Frame :=
  typed kind ([("item_id", JString item_id); ("output_index", JInt index); (place, JInt 0)] ++ fields).

Definition close_reasoning (e : OpenAiResponsesStreamEncoder) : OpenAiResponsesStreamEncoder * list Frame :=
  if negb (re_reasoning_open e) || opt_is_some (re_reasoning_item e) then (e, [])
  else
    let item := reasoning_item (re_reasoning_id e) (re_reasoning e) in
    (next_item (with_reasoning (re_reasoning e) (Some item) e),
     [content_frame "response.reasoning_summary_text.done" (re_reasoning_id e) (re_output_index e)
        "summary_index" [("text", JString (re_reasoning e))];
      item_frame "response.output_item.done" (re_output_index e) item]).

Definition created (e : OpenAiResponsesStreamEncoder) : Frame :=
  typed "response.created" [("response",
    obj [("id", JString (re_response_id e)); ("object", JString "response");
         ("status", JString "in_progress"); ("model", JString (re_model e)); ("output", JArray [])])].

(** An item announced and completed at once. *)
Definition whole_item (index : Z) (item : Json) : list Frame :=
  [item_frame "response.output_item.added" index item; item_frame "response.output_item.done" index item].

Definition take_tool (e : OpenAiResponsesStreamEncoder) : OpenAiResponsesStreamEncoder :=
  match re_cur_tool e with
  | Some tc => with_tools (re_tool_calls e ++ [tc]) None e
  | None => e
  end.

Definition output_text (text : string) : Json :=
  obj [("type", JString "output_text"); ("text", JString text); ("annotations", JArray [])].

(** The message item closed: its frames and the item. *)
Definition finish_text (e : OpenAiResponsesStreamEncoder)
  : OpenAiResponsesStreamEncoder * list Frame * list Json :=
  if re_text_open e then
    let i := re_output_index e in
    let item := message_item (re_item_id e) (re_text e) [] in
    (next_item e,
     [content_frame "response.output_text.done" (re_item_id e) i "content_index" [("text", JString (re_text e))];
      content_frame "response.content_part.done" (re_item_id e) i "content_index"
        [("part", output_text (re_text e))];
      item_frame "response.output_item.done" i item],
     [item])
  else (e, [], []).

Fixpoint finish_tools (index : Z) (calls : list ToolText) : Z * list Frame * list Json :=
  match calls with
  | [] => (index, [], [])
  | (call_id, name, args) :: calls =>
      let item := function_call_item (new_id "fc" (Z.to_nat index)) call_id name args in
      let '(last, frames, items) := finish_tools (wrap32 (index + 1)) calls in
      (last, whole_item index item ++ frames, item :: items)
  end.

Definition responses_finish (e : OpenAiResponsesStreamEncoder) : OpenAiResponsesStreamEncoder * list Frame :=
  let '(e, reasoning) := close_reasoning e in
  let '(e, text, message) := finish_text e in
  let e := take_tool e in
  let '(index, tools, calls) := finish_tools (re_output_index e) (re_tool_calls e) in
  let output := option_list (re_reasoning_item e) ++ message ++ calls in
  (with_index index e,
   reasoning ++ text ++ tools
   ++ [typed "response.completed"
         [("response", responses_object (re_response_id e) (re_status e) (re_model e) output (re_usage e))]]).

Definition responses_frames (e : OpenAiResponsesStreamEncoder) (ev : AiStreamEvent)
  : OpenAiResponsesStreamEncoder * list Frame :=
  match ev with
  | EvMessageStart _ _ => (e, [created e])
  | EvServerToolCall id name status =>
      (e, [typed ("response." ^^ name ^^ "_call." ^^ status)
             [("item_id", JString id); ("output_index", JInt (re_output_index e))]])
  | EvOutputImage media_type data =>
      let '(e, closed) := close_reasoning e in
      (next_item e,
       closed ++ whole_item (re_output_index e)
                   (image_item (new_id "img" (Z.to_nat (re_output_index e))) media_type data))
  | EvCitation url title =>
      (e, [content_frame "response.output_text.annotation.added" (re_item_id e) (re_output_index e)
             "content_index" [("annotation", url_citation url title)]])
  | EvTextDelta text =>
      let '(e, closed) := close_reasoning e in
      let i := re_output_index e in
      let opened := if re_text_open e then [] else
        [item_frame "response.output_item.added" i
           (obj [("type", JString "message"); ("id", JString (re_item_id e)); ("status", JString "in_progress");
                 ("role", JString "assistant"); ("content", JArray [])]);
         content_frame "response.content_part.added" (re_item_id e) i "content_index"
           [("part", output_text EmptyString)]] in
      (with_text (re_text e ^^ text) e,
       closed ++ opened
       ++ [content_frame "response.output_text.delta" (re_item_id e) i "content_index"
             [("delta", JString text)]])
  | EvToolCallStart _ id name =>
      let e := take_tool e in (with_tools (re_tool_calls e) (Some (id, name, EmptyString)) e, [])
  | EvToolCallArgsDelta _ json =>
      (match re_cur_tool e with
       | Some (id, name, args) => with_tools (re_tool_calls e) (Some (id, name, args ^^ json)) e
       | None => e
       end, [])
  | EvToolCallEnd _ => (take_tool e, [])
  | EvUsageDelta usage => (with_usage usage e, [])
  | EvMessageEnd finish_reason => responses_finish (with_status (finish_str finish_reason) e)
  | EvError message _ =>
      (with_status "failed" e,
       [typed "response.failed" [("response",
          obj [("id", JString (re_response_id e)); ("status", JString "failed");
               ("error", obj [("message", JString message)])])]])
  | EvReasoningDelta text =>
      let i := re_output_index e in
      let opened := if re_reasoning_open e then [] else
        [item_frame "response.output_item.added" i
           (obj [("type", JString "reasoning"); ("id", JString (re_reasoning_id e)); ("summary", JArray [])]);
         content_frame "response.reasoning_summary_part.added" (re_reasoning_id e) i "summary_index"
           [("part", obj [("type", JString "summary_text"); ("text", JString "")])]] in
      (with_reasoning (re_reasoning e ^^ text) (re_reasoning_item e) e,
       opened ++ [content_frame "response.reasoning_summary_text.delta" (re_reasoning_id e) i
                    "summary_index" [("delta", JString text)]])
  end.

Definition responses_encode (e : OpenAiResponsesStreamEncoder) (ev : AiStreamEvent)
  : OpenAiResponsesStreamEncoder * list string :=
  let '(e, frames) := responses_frames e ev in (e, frame_text print_json <$> frames).

(** ** Upstream streams *)

Record OpenAiResponsesDecoder := mkOpenAiResponsesDecoder {
  rd_model : string;
  rd_tool_indices : gset Z;
  rd_tool_args_streamed : gset Z
}.

Definition responses_output_index (frame : Json) : Z :=
  default 0 (get_u64 "output_index" frame ≫= to_u32).

Definition option_event {A} (o : option A) (f : A -> AiStreamEvent) : list AiStreamEvent :=
  match o with Some x => [f x] | None => [] end.

(** A new item: a tool call, unless the index is known. *)
Definition decode_item_added (d : OpenAiResponsesDecoder) (frame : Json)
  : OpenAiResponsesDecoder * list AiStreamEvent :=
  let index := responses_output_index frame in
  if negb (bool_decide ((pointer ["item"; "type"] frame ≫= as_str) = Some "function_call"))
     || bool_decide (index ∈ rd_tool_indices d) then (d, [])
  else
    let id := default EmptyString (or_else (pointer ["item"; "call_id"] frame) (pointer ["item"; "id"] frame) ≫= as_str) in
    let name := default EmptyString (pointer ["item"; "name"] frame ≫= as_str) in
    let args := default EmptyString (pointer ["item"; "arguments"] frame ≫= as_str) in
    let started := EvToolCallStart index id name in
    if is_empty args
    then (mkOpenAiResponsesDecoder (rd_model d) ({[index]} ∪ rd_tool_indices d) (rd_tool_args_streamed d), [started])
    else (mkOpenAiResponsesDecoder (rd_model d) ({[index]} ∪ rd_tool_indices d)
            ({[index]} ∪ rd_tool_args_streamed d), [started; EvToolCallArgsDelta index args]).

Definition decode_args_delta (d : OpenAiResponsesDecoder) (frame : Json)
  : OpenAiResponsesDecoder * list AiStreamEvent :=
  match get_str "delta" frame with
  | Some delta =>
      let index := responses_output_index frame in
      (mkOpenAiResponsesDecoder (rd_model d) (rd_tool_indices d) ({[index]} ∪ rd_tool_args_streamed d),
       [EvToolCallArgsDelta index delta])
  | None => (d, [])
  end.

Definition decode_args_done (d : OpenAiResponsesDecoder) (frame : Json) : list AiStreamEvent :=
  let index := responses_output_index frame in
  if bool_decide (index ∈ rd_tool_indices d) then
    (let args := default EmptyString (get_str "arguments" frame) in
     if bool_decide (index ∈ rd_tool_args_streamed d) || is_empty args then []
     else [EvToolCallArgsDelta index args])
    ++ [EvToolCallEnd index]
  else [].

Definition completed_usage (model : string) (frame : Json) : Usage :=
  default Usage_default (
    usage ← get "response" frame ≫= get "usage";
    match parse_openai_responses_response
            (obj [("id", JString "resp"); ("model", JString model); ("status", JString "completed");
                  ("output", JArray []); ("usage", usage);
                  ("energy", default JNull (or_else (pointer ["response"; "energy"] frame)
                                              (pointer ["response"; "usage"; "energy"] frame)))]) with
    | Ok response => Some (resp_usage response)
    | Err _ => None
    end).

(** [response.<name>_call.<status>] of the tools the upstream runs. *)
Definition server_tool_call (kind : string) (frame : Json) : list AiStreamEvent :=
  if starts_with "response." kind && contains "_call." kind
     && (contains "web_search" kind || contains "code_interpreter" kind || contains "file_search" kind) then
    option_event (strip_prefix "response." kind ≫= split_once "_call.") (fun '(name, status) =>
      EvServerToolCall
        (default EmptyString (or_else (get "item_id" frame) (pointer ["item"; "id"] frame) ≫= as_str))
        name status)
  else [].

Definition responses_decode (d : OpenAiResponsesDecoder) (frame : Json)
  : OpenAiResponsesDecoder * list AiStreamEvent :=
  match get_str "type" frame with
  | None => (d, [])
  | Some kind =>
      if str_eqb kind "response.created" then
        (d, [EvMessageStart (default "resp" (pointer ["response"; "id"] frame ≫= as_str))
               (default (rd_model d) (pointer ["response"; "model"] frame ≫= as_str))])
      else if str_eqb kind "response.output_text.delta" then
        (d, option_event (get_str "delta" frame) EvTextDelta)
      else if str_eqb kind "response.reasoning_summary_text.delta"
              || str_eqb kind "response.reasoning_text.delta" then
        (d, option_event (get_str "delta" frame) EvReasoningDelta)
      else if str_eqb kind "response.output_item.added" then decode_item_added d frame
      else if str_eqb kind "response.function_call_arguments.delta" then decode_args_delta d frame
      else if str_eqb kind "response.function_call_arguments.done" then (d, decode_args_done d frame)
      else if str_eqb kind "response.completed" then
        (d, [EvUsageDelta (completed_usage (rd_model d) frame); EvMessageEnd Stop])
      else if str_eqb kind "response.failed" then
        (d, [EvError (default "Responses stream failed" (pointer ["response"; "error"; "message"] frame ≫= as_str))
               ServerError])
      else if str_eqb kind "response.output_text.annotation.added" then
        (d, option_event (pointer ["annotation"; "url"] frame ≫= as_str) (fun url =>
              EvCitation url (pointer ["annotation"; "title"] frame ≫= as_str)))
      else if str_eqb kind "response.image_generation_call.completed" then
        (d, option_event (or_else (get "result" frame) (pointer ["item"; "result"] frame) ≫= as_str) (fun data =>
              EvOutputImage (default "image/png" (get_str "output_format" frame)) data))
      else (d, server_tool_call kind frame)
  end.

End Responses.
