(* ===== verification/ResponsesStream.v ===== *)
(** * OpenAI Responses: theorems

    A rendered response is read back as its Responses view; the object that ends a
    stream is the response that the stream carried; and a client that decodes a
    stream assembles what was collected here, less what the frames do not carry. *)

From Stdlib Require Import ZArith Lia.
From stdpp Require Import base tactics list strings option gmap.
From S2P Require Import Prelude Text Lines BTree Float Ir Target Collect StreamTheorems Value OpenaiChat.
From S2P Require Import OpenaiTheorems Messages MessagesStream Responses.

#[local] Open Scope Z_scope.
#[local] Open Scope switchback_scope.

#[local] Arguments has_type : simpl never.
#[local] Arguments get : simpl never.
#[local] Arguments obj : simpl never.
#[local] Arguments pointer : simpl never.
#[local] Arguments str_eqb : simpl never.

Lemma strip_suffix_app suffix name : strip_suffix suffix (name ^^ suffix) = Some name.
Proof.
  induction name as [|c name IH].
  - change (EmptyString ^^ suffix) with suffix. destruct suffix as [|c suffix]; [done|].
    unfold strip_suffix. by rewrite (String.eqb_refl (String c suffix)).
  - change (String c name ^^ suffix) with (String c (name ^^ suffix)). cbn [strip_suffix]. rewrite IH.
    destruct (String.eqb_spec (String c (name ^^ suffix)) suffix) as [E|]; [|done].
    exfalso. apply (f_equal String.length) in E. simpl in E. rewrite length_append in E. lia.
Qed.

Lemma usage_total_ok u : is_obj (responses_usage_json u).
Proof. unfold responses_usage_json. auto with json. Qed.

(** ** Responses *)

Section Responses.
Context (parse_json : string -> option Json) (print_json : Json -> string)
        (new_id : string -> nat -> string).

(** Arguments can be printed and parsed; the type of an image is spelled out; the
    name of a server tool is not that of a kind of call with a shape of its own. *)
Definition part_ok (p : ContentPart) : Prop :=
  match p with
  | ToolUse _ _ args => parse_json (print_json args) = Some args
  | Image (InlineBase64 media_type _) _ => contains "/" media_type = true
  | ServerToolUse _ name _ => name <> "function" /\ name <> "image_generation"
  | _ => True
  end.

Definition reasoning_view (p : ContentPart) : list ContentPart :=
  match p with
  | Reasoning text _ => if is_empty text then [] else [Reasoning text None]
  | _ => []
  end.

Definition citation_view (p : ContentPart) : option ContentPart :=
  match p with Citation url title _ => Some (Citation url title None) | _ => None end.

Definition call_view (p : ContentPart) : list ContentPart :=
  match p with
  | ToolUse _ _ _ | ServerToolUse _ _ _ => [p]
  | Image (InlineBase64 media_type data) _ => [Image (InlineBase64 media_type data) None]
  | _ => []
  end.

(** Reasoning, the joined text with its citations, then the calls and the images. *)
Definition responses_content_view (m : Message) : list ContentPart :=
  (msg_content m ≫= reasoning_view)
  ++ (if is_empty (message_text m) then [] else Text (message_text m) :: omap citation_view (msg_content m))
  ++ (msg_content m ≫= call_view).

(** Every response is reported as completed. *)
Definition responses_view (resp : AiResponse) : AiResponse :=
  mkAiResponse (resp_id resp) (resp_model resp)
    (mkMessage RoleAssistant (responses_content_view (resp_message resp)) None)
    Stop (chat_usage (resp_usage resp)).

Lemma try_map_app {A B} (f : A -> result B string) l1 l2 r1 r2 :
  try_map f l1 = Ok r1 -> try_map f l2 = Ok r2 -> try_map f (l1 ++ l2) = Ok (r1 ++ r2).
Proof.
  revert r1. induction l1 as [|x l1 IH]; intros r1; simpl; [by intros [= <-]|].
  destruct (f x); [|done]. simpl. destruct (try_map f l1) eqn:E; [|done]. simpl.
  intros [= <-] H2. by rewrite (IH _ eq_refl H2).
Qed.

(** Items that come one or none from each part are parsed part by part. *)
Lemma parse_items_of (item : nat -> ContentPart -> list Json) (view : ContentPart -> list ContentPart) parts :
  (forall n p, p ∈ parts -> exists rs,
     try_map (parse_output_item parse_json) (item n p) = Ok rs /\ mjoin rs = view p) ->
  exists rs, try_map (parse_output_item parse_json) (mjoin (imap item parts)) = Ok rs
             /\ mjoin rs = parts ≫= view.
Proof.
  revert item. induction parts as [|p parts IH]; intros item H; simpl; [by exists []|].
  destruct (H 0%nat p) as (r1 & H1 & V1); [by left|].
  destruct (IH (fun n => item (S n))) as (r2 & H2 & V2); [intros n q Hq; apply H; by right|].
  exists (r1 ++ r2). split; [by apply try_map_app|]. rewrite join_app. by rewrite V1, V2.
Qed.

Lemma parse_reasoning_item id text :
  parse_output_item parse_json (reasoning_item id text)
  = Ok (if is_empty text then [] else [Reasoning text None]).
Proof.
  unfold parse_output_item, reasoning_item, get_str. rewrite get_obj. cbn [find_last]. literals.
  unfold reasoning_summary_text, get_array. rewrite get_typed by done. done.
Qed.

Lemma parse_citations (parts : list ContentPart) :
  omap citation_part (omap annotation_of parts) = omap citation_view parts.
Proof.
  induction parts as [|p parts IH]; [done|]. destruct p; try exact IH. cbn.
  assert (citation_part (url_citation url title) = Some (Citation url title None)) as ->
    by (by destruct title). by f_equal.
Qed.

Lemma parse_message_item id text annotations :
  parse_output_item parse_json (message_item id text annotations)
  = Ok ((if is_empty text then [] else [Text text]) ++ omap citation_part annotations).
Proof.
  unfold parse_output_item, message_item, get_str. rewrite get_obj. cbn [find_last]. literals.
  unfold message_output_parts, get_array. rewrite get_typed by done. simpl.
  unfold output_part, get_str, get_array. rewrite !get_typed by done. simpl. by rewrite app_nil_r.
Qed.

Lemma parse_function_call id call_id name args :
  parse_output_item parse_json (function_call_item id call_id name args)
  = Ok [ToolUse call_id name (default JNull (parse_json args))].
Proof.
  unfold parse_output_item, function_call_item, get_str. rewrite get_obj. cbn [find_last]. literals.
  unfold call_id_of, parse_arguments, get_str. rewrite !get_typed by done. done.
Qed.

Lemma call_name_back name s : str_eqb (name ^^ "_call") (s ^^ "_call") = true -> name = s.
Proof.
  intros H%str_eqb_eq. apply (f_equal (strip_suffix "_call")) in H. rewrite !strip_suffix_app in H. congruence.
Qed.

(** No call is a message or reasoning. *)
Lemma call_kind name s : strip_suffix "_call" s = None -> str_eqb (name ^^ "_call") s = false.
Proof.
  intros H. destruct (str_eqb (name ^^ "_call") s) eqn:E; [|done]. apply str_eqb_eq in E. subst s.
  by rewrite strip_suffix_app in H.
Qed.

Lemma parse_call_output n p :
  part_ok p -> exists rs,
    try_map (parse_output_item parse_json) (call_output print_json new_id n p) = Ok rs
    /\ mjoin rs = call_view p.
Proof.
  intros Hp. destruct p as [|[media_type data| |]|id name args| | | | |]; try (by exists []);
    cbn [call_output try_map].
  - eexists. unfold parse_output_item at 1, image_item, get_str. rewrite get_obj. cbn [find_last]. literals.
    unfold output_format_to_media_type. cbn in Hp |- *. rewrite Hp. split; done.
  - eexists. rewrite parse_function_call. simpl in Hp. rewrite Hp. split; done.
  - destruct Hp as [H1 H2]. eexists. unfold parse_output_item at 1, get_str. rewrite get_obj. cbn [find_last].
    simpl. rewrite !(call_kind name) by done.
    destruct (str_eqb (name ^^ "_call") "function_call") eqn:E; [by apply (call_name_back name "function") in E|].
    destruct (str_eqb (name ^^ "_call") "image_generation_call") eqn:E2;
      [by apply (call_name_back name "image_generation") in E2|].
    rewrite strip_suffix_app. split; done.
Qed.

Lemma parse_reasoning_output n p :
  exists rs, try_map (parse_output_item parse_json) (reasoning_output new_id n p) = Ok rs
             /\ mjoin rs = reasoning_view p.
Proof.
  destruct p; try (by exists []). simpl. destruct (is_empty text) eqn:E; [by exists []|].
  cbn [try_map]. rewrite parse_reasoning_item, E. by eexists.
Qed.

Lemma is_obj_responses_usage u : is_obj (responses_usage_json u).
Proof. unfold responses_usage_json. auto with json. Qed.
#[local] Hint Resolve is_obj_responses_usage is_obj_energy : json.

Lemma parse_usage_written u energy :
  usage_ok u = true ->
  energy = (energy_usage_json <$> usage_energy u) \/ energy = Some (default JNull (energy_usage_json <$> usage_energy u)) ->
  parse_usage (Some (responses_usage_json u)) energy = chat_usage u.
Proof.
  unfold usage_ok. intros [[Hi Ho]%andb_prop He]%andb_prop Hb.
  unfold parse_usage, chat_usage, get_u64, responses_usage_json, pointer. json_get. rewrite ?or_else_none.
  rewrite !as_u64_int by done. simpl. f_equal.
  destruct (usage_energy u) as [e|]; simpl in *; destruct Hb as [-> | ->]; try done; by apply parse_energy_json.
Qed.

(** A response object is read back, item by item. *)
Lemma parse_object id status model output usage rs :
  usage_ok usage = true -> try_map (parse_output_item parse_json) output = Ok rs ->
  parse_openai_responses_response parse_json (responses_object id status model output usage)
  = Ok (mkAiResponse id model (mkMessage RoleAssistant (mjoin rs) None)
          (finish_reason_from_status (Some status)) (chat_usage usage)).
Proof.
  intros Hu Hrs. unfold parse_openai_responses_response, responses_object, get_array, get_str, pointer. json_get.
  rewrite Hrs. simpl. do 3 f_equal. apply parse_usage_written; [done|].
  left. unfold responses_usage_json. json_get. by destruct (usage_energy usage).
Qed.

(** A response rendered for a Responses client and read as that of
    a Responses upstream is its view: reasoning, then the text joined with its
    citations, then tool calls with their arguments, images and server tools in
    their order, and the usage; every reason to stop is read as a plain end. *)
Theorem responses_response_roundtrip resp :
  usage_ok (resp_usage resp) = true -> Forall part_ok (msg_content (resp_message resp)) ->
  parse_openai_responses_response parse_json (response_to_openai_responses print_json new_id resp)
  = Ok (responses_view resp).
Proof.
  intros Hu Hall. unfold response_to_openai_responses, responses_view, responses_content_view, responses_output.
  set (m := resp_message resp) in *.
  destruct (parse_items_of (reasoning_output new_id) reasoning_view (msg_content m)) as (r1 & H1 & V1);
    [intros; apply parse_reasoning_output|].
  destruct (parse_items_of (call_output print_json new_id) call_view (msg_content m)) as (r3 & H3 & V3).
  { intros n p Hp. apply parse_call_output. rewrite Forall_forall in Hall. by apply Hall. }
  set (message := if is_empty (message_text m) then []
                  else [message_item (new_id "msg" 0) (message_text m) (omap annotation_of (msg_content m))]).
  assert (exists r2, try_map (parse_output_item parse_json) message = Ok r2
    /\ mjoin r2 = if is_empty (message_text m) then []
                  else Text (message_text m) :: omap citation_view (msg_content m)) as (r2 & H2 & V2).
  { subst message. destruct (is_empty (message_text m)) eqn:E; [by exists []|]. cbn [try_map].
    rewrite parse_message_item, E, parse_citations. eexists. split; [done|]. simpl. by rewrite app_nil_r. }
  rewrite (parse_object _ _ _ _ _ (r1 ++ r2 ++ r3)); [|done|by repeat apply try_map_app].
  rewrite !join_app, V1, V2, V3. done.
Qed.

End Responses.

(** ** Streams in the Responses format

    What [OpenAiResponsesStreamEncoder] writes, decoded as the stream of an upstream
    and assembled; and the object that ends it. *)

#[local] Open Scope Z_scope.
#[local] Open Scope switchback_scope.

#[local] Arguments get : simpl never.
#[local] Arguments obj : simpl never.
#[local] Arguments pointer : simpl never.
#[local] Arguments str_eqb : simpl never.
#[local] Arguments responses_decode : simpl never.
#[local] Arguments function_call_item : simpl never.

(** The server tools whose life cycle the decoder follows. *)
Definition followed (name : string) : bool :=
  existsb (str_eqb name) ["web_search"; "code_interpreter"; "file_search"].

Lemma followed_names name :
  followed name = true -> name = "web_search" \/ name = "code_interpreter" \/ name = "file_search".
Proof.
  unfold followed. intros H. apply existsb_exists in H as (x & Hx & E). apply str_eqb_eq in E. subst x.
  simpl in Hx. naive_solver.
Qed.

Section Stream.
Context (parse_json : string -> option Json) (new_id : string -> nat -> string).

Fixpoint encode_responses (e : OpenAiResponsesStreamEncoder) (evs : list AiStreamEvent)
  : OpenAiResponsesStreamEncoder * list Frame :=
  match evs with
  | [] => (e, [])
  | ev :: evs =>
      let '(e, fs) := responses_frames new_id e ev in
      let '(e, more) := encode_responses e evs in (e, fs ++ more)
  end.

Fixpoint decode_responses (d : OpenAiResponsesDecoder) (fs : list Frame)
  : OpenAiResponsesDecoder * list AiStreamEvent :=
  match fs with
  | [] => (d, [])
  | f :: fs =>
      let '(d, evs) := responses_decode parse_json d f.2 in
      let '(d, more) := decode_responses d fs in (d, evs ++ more)
  end.

Lemma decode_responses_app d fs gs :
  decode_responses d (fs ++ gs)
  = ((decode_responses (decode_responses d fs).1 gs).1,
     (decode_responses d fs).2 ++ (decode_responses (decode_responses d fs).1 gs).2).
Proof.
  revert d. induction fs as [|f fs IH]; intros d; simpl; [by destruct (decode_responses d gs)|].
  destruct (responses_decode parse_json d f.2) as [d1 o1]. rewrite IH.
  destruct (decode_responses d1 fs) as [d2 o2]. destruct (decode_responses d2 gs) as [d3 o3]. simpl.
  by rewrite app_assoc.
Qed.

(** Read the type of a frame and choose the branch of the decoder. *)
Ltac decode_typed :=
  unfold responses_decode, typed; cbn [snd]; unfold get_str at 1; rewrite get_obj; cbn [find_last app];
  simpl; literals.

(** ** Frames one by one *)

(** Frames the decoder reads nothing from. *)
Definition silent (f : Frame) : Prop := forall d, responses_decode parse_json d f.2 = (d, []).

Lemma silent_all d fs : Forall silent fs -> decode_responses d fs = (d, []).
Proof. induction 1 as [|f fs Hf Hfs IH]; [done|]. simpl. by rewrite Hf, IH. Qed.

Lemma silent_two f g : silent f -> silent g -> Forall silent [f; g].
Proof. intros Hf Hg. by apply Forall_cons; split; [|apply Forall_singleton]. Qed.

Lemma silent_done i item : silent (item_frame "response.output_item.done" i item).
Proof. intros d. unfold item_frame. by decode_typed. Qed.

Lemma silent_content kind id i place k v :
  kind ∈ ["response.reasoning_summary_text.done"; "response.output_text.done"; "response.content_part.done";
          "response.content_part.added"; "response.reasoning_summary_part.added"] ->
  k <> "type" -> place <> "type" -> silent (content_frame kind id i place [(k, v)]).
Proof.
  intros Hk Hn Hp d. unfold content_frame, typed, responses_decode. cbn [snd]. unfold get_str at 1.
  rewrite get_obj. cbn [find_last app]. destruct (String.eqb_spec "type" k); [congruence|].
  destruct (String.eqb_spec "type" place); [congruence|]. simpl.
  by repeat (apply elem_of_cons in Hk as [->|Hk]; [done|]); apply elem_of_nil in Hk.
Qed.

(** An announced item that is not a tool call. *)
Lemma silent_added i kind fields :
  find_last "type" fields = None -> kind <> "function_call" ->
  silent (item_frame "response.output_item.added" i (obj (("type", JString kind) :: fields))).
Proof.
  intros Hf Hk d. unfold item_frame. decode_typed. unfold decode_item_added, pointer.
  rewrite get_typed by done. simpl. rewrite get_obj. simpl. rewrite Hf. simpl.
  by rewrite bool_decide_eq_false_2 by congruence.
Qed.

Lemma silent_closed e : Forall silent (close_reasoning e).2.
Proof.
  unfold close_reasoning. destruct (_ || _); [apply Forall_nil_2|].
  apply silent_two; [apply silent_content; set_solver|apply silent_done].
Qed.

Lemma decode_text d id i text :
  responses_decode parse_json d (content_frame "response.output_text.delta" id i "content_index" [("delta", JString text)]).2
  = (d, [EvTextDelta text]).
Proof. reflexivity. Qed.

Lemma decode_reasoning d id i text :
  responses_decode parse_json d
    (content_frame "response.reasoning_summary_text.delta" id i "summary_index" [("delta", JString text)]).2
  = (d, [EvReasoningDelta text]).
Proof. reflexivity. Qed.

Lemma decode_citation d id i url title :
  responses_decode parse_json d
    (content_frame "response.output_text.annotation.added" id i "content_index"
       [("annotation", url_citation url title)]).2
  = (d, [EvCitation url title]).
Proof. by destruct title. Qed.

Lemma server_tool_call_back id i name status :
  followed name = true ->
  server_tool_call ("response." ^^ name ^^ "_call." ^^ status)
    (typed ("response." ^^ name ^^ "_call." ^^ status) [("item_id", JString id); ("output_index", JInt i)]).2
  = [EvServerToolCall id name status].
Proof.
  intros H. unfold server_tool_call.
  assert (starts_with "response." ("response." ^^ name ^^ "_call." ^^ status)
          && contains "_call." ("response." ^^ name ^^ "_call." ^^ status)
          && (contains "web_search" ("response." ^^ name ^^ "_call." ^^ status)
              || contains "code_interpreter" ("response." ^^ name ^^ "_call." ^^ status)
              || contains "file_search" ("response." ^^ name ^^ "_call." ^^ status)) = true) as ->.
  { apply followed_names in H as [->|[-> | ->]]; simpl; by rewrite ?orb_true_r. }
  by apply followed_names in H as [->|[-> | ->]].
Qed.

Lemma decode_server_tool d id i name status :
  followed name = true ->
  responses_decode parse_json d
    (typed ("response." ^^ name ^^ "_call." ^^ status) [("item_id", JString id); ("output_index", JInt i)]).2
  = (d, [EvServerToolCall id name status]).
Proof.
  intros H. rewrite <- (server_tool_call_back id i name status H).
  by apply followed_names in H as [->|[-> | ->]].
Qed.

(** ** Tool calls *)

Definition open_tool (i : Z) (args : string) (d : OpenAiResponsesDecoder) : OpenAiResponsesDecoder :=
  mkOpenAiResponsesDecoder (rd_model d) ({[i]} ∪ rd_tool_indices d)
    (if is_empty args then rd_tool_args_streamed d else {[i]} ∪ rd_tool_args_streamed d).

Lemma decode_call d i id call_id name args :
  0 <= i <= u32_max -> i ∉ rd_tool_indices d ->
  decode_responses d (whole_item i (function_call_item id call_id name args))
  = (open_tool i args d,
     EvToolCallStart i call_id name :: if is_empty args then [] else [EvToolCallArgsDelta i args]).
Proof.
  intros Hi Hd.
  assert (responses_decode parse_json d
            (item_frame "response.output_item.added" i (function_call_item id call_id name args)).2
          = (open_tool i args d,
             EvToolCallStart i call_id name :: if is_empty args then [] else [EvToolCallArgsDelta i args])) as H.
  { transitivity (decode_item_added d (item_frame "response.output_item.added" i
                                         (function_call_item id call_id name args)).2); [reflexivity|].
    unfold decode_item_added, responses_output_index, item_frame, typed. cbn [snd].
    unfold get_u64. rewrite get_typed by done. cbn [find_last String.eqb Ascii.eqb Bool.eqb].
    cbn [mbind option_bind]. rewrite (index_back i Hi).
    rewrite bool_decide_eq_true_2 by reflexivity. rewrite (bool_decide_eq_false_2 (i ∈ _)) by done.
    unfold open_tool. by destruct args. }
  unfold whole_item. cbn [decode_responses]. rewrite H, silent_done. by rewrite !app_nil_r.
Qed.

(** Absorbing the events of a call adds it after the others. *)
Lemma absorb_call c i call_id name args :
  Forall (fun kv => kv.1 < i) (c_tool_uses c) ->
  fold_left absorb (Ok <$> (EvToolCallStart i call_id name :: if is_empty args then [] else [EvToolCallArgsDelta i args]))
    c
  = set_assembled (c_assembled c + Z.of_nat (String.length args))
      (set_tool_uses (c_tool_uses c ++ [(i, (call_id, name, args))]) c).
Proof.
  intros Hk. destruct (is_empty args) eqn:E; simpl; unfold absorb at 1; simpl.
  - destruct args; [|done]. rewrite bt_insert_above, Z.add_0_r by done. by destruct c.
  - rewrite bt_insert_above by done. unfold absorb, collect_step, take_bytes. simpl.
    rewrite bt_get_last, bt_update_last by done. by destruct c.
Qed.

Lemma wrap32_next i : 0 <= i < u32_max -> wrap32 (i + 1) = i + 1.
Proof. intros H. unfold wrap32, u32_max in *. apply Z.mod_small. lia. Qed.

(** The calls written at the end of a message, read and assembled. *)
Lemma decode_calls calls : forall d i c,
  0 <= i -> i + Z.of_nat (length calls) <= u32_max ->
  (forall j, j ∈ rd_tool_indices d -> j < i) -> Forall (fun kv => kv.1 < i) (c_tool_uses c) ->
  exists d' evs n m, decode_responses d (finish_tools new_id i calls).1.2 = (d', evs)
    /\ rd_model d' = rd_model d /\ no_errors evs
    /\ fold_left absorb (Ok <$> evs) c = set_assembled n (set_tool_uses (c_tool_uses c ++ m) c) /\ m.*2 = calls.
Proof.
  induction calls as [|[[call_id name] args] calls IH]; intros d i c H0 Hi Hd Hk.
  { exists d, [], (c_assembled c), []. repeat split; [constructor|]. rewrite app_nil_r. by destruct c. }
  cbn [finish_tools length] in *.
  destruct (IH (open_tool i args d) (i + 1)
              (set_assembled (c_assembled c + Z.of_nat (String.length args))
                 (set_tool_uses (c_tool_uses c ++ [(i, (call_id, name, args))]) c)))
    as (d' & evs & n & m & Hdec & Hm & Hno & Habs & Hv); [lia|lia| | |].
  { simpl. intros j [->%elem_of_singleton|Hj%Hd]%elem_of_union; lia. }
  { simpl. apply Forall_app. split; [|repeat constructor; simpl; lia].
    eapply Forall_impl; [exact Hk|]. simpl. lia. }
  rewrite (wrap32_next i) by lia. destruct (finish_tools new_id (i + 1) calls) as [[last fs] items]. cbn [fst snd] in *.
  rewrite decode_responses_app, decode_call by (try lia; intros Hj%Hd; lia).
  cbn [fst snd]. rewrite Hdec. cbn [fst snd].
  eexists _, _, n, ((i, (call_id, name, args)) :: m). split; [reflexivity|].
  split; [done|]. split.
  { apply no_errors_app; [|done]. destruct (is_empty args); repeat constructor. }
  rewrite fmap_app, fold_left_app, absorb_call, Habs by done. split; [|by rewrite fmap_cons, Hv].
  simpl. by rewrite <- app_assoc.
Qed.

(** ** Complete streams *)

(** A stream that ends with its message, in which tool calls start in the order of
    their indices, arguments belong to the call that is being written, and usage
    and server tools can be written. *)
Fixpoint responses_complete (cur : option Z) (top : Z) (evs : list AiStreamEvent) : bool :=
  match evs with
  | [] => false
  | EvMessageEnd _ :: evs => list_empty evs
  | EvToolCallStart i _ _ :: evs => (top <? i) && responses_complete (Some i) i evs
  | EvToolCallArgsDelta i _ :: evs => bool_decide (cur = Some i) && responses_complete cur top evs
  | EvToolCallEnd _ :: evs => responses_complete None top evs
  | EvUsageDelta u :: evs => usage_ok u && responses_complete cur top evs
  | EvServerToolCall _ name _ :: evs => followed name && responses_complete cur top evs
  | _ :: evs => responses_complete cur top evs
  end.

(** What the encoder has accumulated, against the collector here. *)
Record accumulated (cur : option Z) (top : Z) (e : OpenAiResponsesStreamEncoder) (c : Collector) : Prop := {
  ac_tools : re_tool_calls e ++ option_list (re_cur_tool e) = (c_tool_uses c).*2;
  ac_keys : Forall (fun kv => kv.1 <= top) (c_tool_uses c);
  ac_cur : match cur with
           | Some i => i = top /\ exists m t, c_tool_uses c = m ++ [(i, t)] /\ Forall (fun kv => kv.1 < i) m
                                              /\ re_cur_tool e = Some t
           | None => re_cur_tool e = None
           end;
  ac_usage : re_usage e = c_usage c /\ usage_ok (c_usage c) = true
}.

(** What the client has assembled, against the collector here: the calls and the
    usage come last. *)
Record same_prefix (c c' : Collector) : Prop := {
  sp_text : c_content c' = c_content c /\ c_reasoning c' = c_reasoning c;
  sp_others : c_citations c' = c_citations c /\ c_server_tools c' = c_server_tools c;
  sp_late : c_images c' = [] /\ c_tool_uses c' = []
}.

Definition next_cur_tool (cur : option Z) (ev : AiStreamEvent) : option Z :=
  match ev with
  | EvToolCallStart i _ _ => Some i
  | EvToolCallEnd _ => None
  | _ => cur
  end.

Definition next_top (top : Z) (ev : AiStreamEvent) : Z :=
  match ev with EvToolCallStart i _ _ => i | _ => top end.

(** An event other than the end of a complete stream. *)
Definition event_ok (cur : option Z) (top : Z) (ev : AiStreamEvent) : bool :=
  match ev with
  | EvMessageEnd _ => false
  | EvToolCallStart i _ _ => top <? i
  | EvToolCallArgsDelta i _ => bool_decide (cur = Some i)
  | EvUsageDelta u => usage_ok u
  | EvServerToolCall _ name _ => followed name
  | _ => true
  end.

Lemma complete_cons cur top ev evs :
  responses_complete cur top (ev :: evs) = true ->
  (exists r, ev = EvMessageEnd r /\ evs = [])
  \/ (event_ok cur top ev = true /\ responses_complete (next_cur_tool cur ev) (next_top top ev) evs = true).
Proof.
  destruct ev; simpl; intros H; try (by right);
    try (apply andb_prop in H as [H1 H2]; right; split; by auto).
  left. destruct evs; [by eauto|done].
Qed.

Lemma close_keeps e :
  let e' := (close_reasoning e).1 in
  re_tool_calls e' = re_tool_calls e /\ re_cur_tool e' = re_cur_tool e /\ re_usage e' = re_usage e.
Proof. unfold close_reasoning. by destruct (_ || _). Qed.

Lemma take_tool_calls e : re_tool_calls (take_tool e) = re_tool_calls e ++ option_list (re_cur_tool e)
                          /\ re_cur_tool (take_tool e) = None.
Proof. unfold take_tool. destruct (re_cur_tool e) eqn:E; simpl; [done|]. by rewrite app_nil_r. Qed.

Lemma take_tool_usage e : re_usage (take_tool e) = re_usage e.
Proof. unfold take_tool. by destruct (re_cur_tool e). Qed.

(** One event keeps what is accumulated. *)
Lemma accumulated_step cur top e c ev :
  event_ok cur top ev = true -> item_error (Ok ev) = None -> accumulated cur top e c ->
  accumulated (next_cur_tool cur ev) (next_top top ev) (responses_frames new_id e ev).1 (absorb c (Ok ev)).
Proof.
  intros Hev Herr [Ht Hk Hc Hu]. destruct ev; try done; cbn [next_cur_tool next_top responses_frames event_ok] in *.
  all: try (by constructor).
  1, 5: pose proof (close_keeps e) as (K1 & K2 & K3); destruct (close_reasoning e) as [e1 fs1];
    cbn [fst snd] in *; constructor; simpl; by rewrite ?K1, ?K2, ?K3.
  - (* start *) apply Z.ltb_lt in Hev. destruct (take_tool_calls e) as [T1 T2].
    assert (Forall (fun kv => kv.1 < index) (c_tool_uses c)) as Hlt
      by (eapply Forall_impl; [exact Hk|]; simpl; lia).
    constructor; unfold absorb; simpl; rewrite ?take_tool_usage, ?bt_insert_above by done; try done.
    + rewrite T1, Ht, fmap_app. done.
    + apply Forall_app. split; [|repeat constructor; simpl; lia]. eapply Forall_impl; [exact Hlt|]. simpl. lia.
    + split; [done|]. by eexists _, _.
  - (* arguments *) apply bool_decide_eq_true in Hev. subst cur.
    destruct Hc as [<- (m & [[id name] args] & Hm & Hlt & Hcur)].
    rewrite Hcur in *. unfold absorb, collect_step, take_bytes. simpl. rewrite Hm, bt_get_last, bt_update_last by done.
    simpl in Ht. rewrite Hm, fmap_app in Ht. apply app_inj_tail in Ht as [Ht _].
    constructor; simpl; try done.
    + by rewrite Ht, fmap_app.
    + rewrite Hm in Hk. apply Forall_app in Hk as [Hk _]. apply Forall_app. split; [done|]. by repeat constructor.
    + split; [done|]. by eexists _, _.
  - (* end *) destruct (take_tool_calls e) as [T1 T2]. constructor; simpl; rewrite ?take_tool_usage; try done.
    by rewrite T1, T2, app_nil_r.
  - (* server tool *) unfold absorb. simpl. by destruct (str_eqb status "completed").
Qed.

(** One event is read back, but for images, calls and usage. *)
Lemma reread_step cur top e d c c' ev :
  event_ok cur top ev = true -> item_error (Ok ev) = None ->
  (forall id model, ev <> EvMessageStart id model) -> same_prefix c c' ->
  exists out, decode_responses d (responses_frames new_id e ev).2 = (d, out)
              /\ no_errors out /\ same_prefix (absorb c (Ok ev)) (fold_left absorb (Ok <$> out) c').
Proof.
  intros Hev Herr Hms [[H1 H2] [H3 H4] [H5 H6]]. destruct ev; try done; cbn [responses_frames event_ok] in *.
  all: try (exists []; split; [done|split; [constructor|by constructor]]).
  - by edestruct Hms.
  - (* text *) exists [EvTextDelta text]. pose proof (silent_closed e) as Hs. destruct (close_reasoning e) as [e1 fs1].
    cbn [snd] in *. rewrite decode_responses_app, (silent_all d fs1 Hs). cbn [fst snd app].
    rewrite decode_responses_app, (silent_all d).
    2:{ destruct (re_text_open e1); [constructor|].
        apply silent_two; [by apply silent_added|by apply silent_content; [set_solver|..]]. }
    cbn [fst snd app decode_responses]. rewrite decode_text. split; [done|]. split; [repeat constructor|].
    constructor; simpl; rewrite ?H1; done.
  - (* reasoning *) exists [EvReasoningDelta text]. cbn [snd]. rewrite decode_responses_app, (silent_all d).
    2:{ destruct (re_reasoning_open e); [constructor|].
        apply silent_two; [by apply silent_added|by apply silent_content; [set_solver|..]]. }
    cbn [fst snd app decode_responses]. rewrite decode_reasoning. split; [done|]. split; [repeat constructor|].
    constructor; simpl; rewrite ?H2; done.
  - (* arguments *) exists []. split; [done|]. split; [constructor|]. unfold absorb, collect_step, take_bytes. simpl.
    by destruct (bt_get index (c_tool_uses c)) as [[[id name] args]|].
  - (* image *) exists []. pose proof (silent_closed e) as Hs. destruct (close_reasoning e) as [e1 fs1].
    cbn [snd] in *. rewrite silent_all; [by repeat constructor|]. apply Forall_app. split; [done|].
    apply silent_two; [by apply silent_added|apply silent_done].
  - (* citation *) exists [EvCitation url title]. cbn [snd decode_responses]. rewrite decode_citation.
    split; [done|]. split; [repeat constructor|]. constructor; simpl; rewrite ?H3; done.
  - (* server tool *) exists [EvServerToolCall id name status]. cbn [snd decode_responses].
    rewrite decode_server_tool by done. split; [done|]. split; [repeat constructor|].
    unfold absorb. simpl. destruct (str_eqb status "completed"); constructor; simpl; rewrite ?H4; done.
Qed.

(** The indices used and those the calls will need. *)
Definition span (e : OpenAiResponsesStreamEncoder) : Z :=
  re_output_index e + Z.of_nat (length (re_tool_calls e ++ option_list (re_cur_tool e))).

Definition room (n : Z) (e : OpenAiResponsesStreamEncoder) : Prop :=
  0 <= re_output_index e /\ span e + n <= u32_max.

Lemma room_close n e : 0 <= n -> room (n + 1) e -> room n (close_reasoning e).1.
Proof.
  unfold close_reasoning, room, span. intros Hn [H0 H1]. destruct (_ || _); simpl; [lia|].
  rewrite wrap32_next by lia. lia.
Qed.

Lemma room_take n e : room n e -> room n (take_tool e).
Proof.
  unfold room, span. destruct (take_tool_calls e) as [-> ->].
  assert (re_output_index (take_tool e) = re_output_index e) as ->
    by (unfold take_tool; by destruct (re_cur_tool e)). simpl. by rewrite app_nil_r.
Qed.

Lemma room_next n e : 0 <= n -> room (n + 1) e -> room n (next_item e).
Proof. unfold room, span. simpl. intros Hn [H0 H1]. rewrite wrap32_next by lia. lia. Qed.

Lemma room_shrinks n m e : n <= m -> room m e -> room n e.
Proof. unfold room. lia. Qed.

Lemma room_step n e ev :
  0 <= n -> (forall r, ev <> EvMessageEnd r) -> room (n + 2) e -> room n (responses_frames new_id e ev).1.
Proof.
  intros Hn He H. assert (room n e) as Hr by (by apply (room_shrinks n (n + 2)); [lia|]).
  destruct ev; cbn [responses_frames fst]; try done.
  - pose proof (room_close (n + 1) e) as Hc. destruct (close_reasoning e) as [e1 fs1]. simpl.
    apply (room_shrinks n (n + 1)); [lia|]. apply Hc; [lia|]. by replace (n + 1 + 1) with (n + 2) by lia.
  - assert (room (n + 1) (take_tool e)) as Ht by (apply room_take, (room_shrinks _ (n + 2)); [lia|done]).
    destruct (take_tool_calls e) as [T1 T2]. revert Ht. unfold room, span. simpl. rewrite T2, !length_app. simpl. lia.
  - unfold room, span in *. destruct (re_cur_tool e) as [[[id name] args]|] eqn:E; simpl in *.
    + rewrite ?E. rewrite !length_app in *. simpl in *. lia.
    + rewrite ?E. simpl. lia.
  - by apply room_take.
  - pose proof (room_close (n + 1) e) as Hc. destruct (close_reasoning e) as [e1 fs1]. simpl.
    apply room_next, Hc; [lia|lia|]. by replace (n + 1 + 1) with (n + 2) by lia.
  - by edestruct He.
Qed.

(** ** The end of a stream *)

Lemma completed_usage_back m id status model output u :
  usage_ok u = true ->
  completed_usage parse_json m
    (typed "response.completed" [("response", responses_object id status model output u)]).2 = chat_usage u.
Proof.
  intros Hu. unfold completed_usage, pointer, typed. cbn [snd]. rewrite !get_typed by done. cbn [find_last].
  cbn [String.eqb Ascii.eqb Bool.eqb mbind option_bind].
  assert (get "usage" (responses_object id status model output u) = Some (responses_usage_json u)) as Hg
    by (unfold responses_object; by json_get).
  assert (get "energy" (responses_object id status model output u) = energy_usage_json <$> usage_energy u) as Heg
    by (unfold responses_object; json_get; by destruct (usage_energy u)).
  assert (get "energy" (responses_usage_json u) = energy_usage_json <$> usage_energy u) as Heu
    by (unfold responses_usage_json; json_get; by destruct (usage_energy u)).
  rewrite Hg. cbn [mbind option_bind]. rewrite Heg, Heu.
  unfold parse_openai_responses_response, get_array. rewrite !get_obj. simpl.
  unfold or_else. simpl. apply parse_usage_written; [done|]. right. by destruct (usage_energy u).
Qed.

Lemma decode_completed d id status model output u :
  usage_ok u = true ->
  responses_decode parse_json d
    (typed "response.completed" [("response", responses_object id status model output u)]).2
  = (d, [EvUsageDelta (chat_usage u); EvMessageEnd Stop]).
Proof.
  intros Hu. rewrite <- (completed_usage_back (rd_model d) id status model output u Hu). reflexivity.
Qed.

Lemma silent_text e : Forall silent (finish_text e).1.2.
Proof.
  unfold finish_text. destruct (re_text_open e); [|constructor].
  apply Forall_cons. split; [by apply silent_content; [set_solver|..]|].
  apply silent_two; [by apply silent_content; [set_solver|..]|apply silent_done].
Qed.

Lemma finish_text_keeps e :
  let e' := (finish_text e).1.1 in
  re_tool_calls e' = re_tool_calls e /\ re_cur_tool e' = re_cur_tool e /\ re_usage e' = re_usage e.
Proof. unfold finish_text. by destruct (re_text_open e). Qed.

Lemma room_text n e : 0 <= n -> room (n + 1) e -> room n (finish_text e).1.1.
Proof.
  intros Hn H. unfold finish_text. destruct (re_text_open e); simpl; [by apply room_next|].
  by apply (room_shrinks n (n + 1)); [lia|].
Qed.

Lemma reread_finish_responses cur top e d c c' :
  accumulated cur top e c -> same_prefix c c' -> room 2 e -> rd_tool_indices d = ∅ ->
  exists d' out, decode_responses d (responses_finish new_id e).2 = (d', out) /\ no_errors out
    /\ exists n m, m.*2 = (c_tool_uses c).*2
       /\ fold_left absorb (Ok <$> out) c'
          = set_c_finish (Some Stop) (set_c_usage (chat_usage (c_usage c)) (set_assembled n (set_tool_uses m c'))).
Proof.
  intros [Ht Hk Hc [Hu Huo]] [_ _ [_ Hz]] Hroom Hd. unfold responses_finish.
  pose proof (silent_closed e) as S1. pose proof (close_keeps e) as (K1 & K2 & K3).
  pose proof (room_close 1 e ltac:(lia) Hroom) as R1.
  destruct (close_reasoning e) as [e1 fs1]. cbn [fst snd] in *.
  pose proof (silent_text e1) as S2. pose proof (finish_text_keeps e1) as (L1 & L2 & L3).
  pose proof (room_text 0 e1 ltac:(lia) R1) as R2.
  destruct (finish_text e1) as [[e2 fs2] items]. cbn [fst snd] in *.
  destruct (take_tool_calls e2) as [T1 T2]. pose proof (room_take 0 e2 R2) as [R3 R4]. unfold span in R4.
  rewrite T2, app_nil_r in R4.
  destruct (decode_calls (re_tool_calls (take_tool e2)) d (re_output_index (take_tool e2)) c')
    as (d' & evs & n & m & Hdec & Hmod & Hno & Habs & Hv); [done|lia| |by rewrite Hz|].
  { rewrite Hd. set_solver. }
  destruct (finish_tools new_id (re_output_index (take_tool e2)) (re_tool_calls (take_tool e2))) as [[last fs3] calls].
  cbn [fst snd] in *. rewrite !decode_responses_app, (silent_all d fs1 S1). cbn [fst snd].
  rewrite (silent_all d fs2 S2). cbn [fst snd]. rewrite Hdec. cbn [fst snd app decode_responses].
  rewrite take_tool_usage, L3, K3, Hu, decode_completed by done.
  eexists _, _. split; [done|]. split; [apply no_errors_app; [done|repeat constructor]|].
  exists n, m. split; [by rewrite Hv, T1, L1, L2, K1, K2, Ht|].
  rewrite fmap_app, fold_left_app, Habs, Hz. done.
Qed.

(** The rest of a complete stream. *)
Lemma reread_responses evs : forall cur top e d c c',
  responses_complete cur top evs = true -> no_errors evs ->
  Forall (fun ev => forall id model, ev <> EvMessageStart id model) evs ->
  accumulated cur top e c -> same_prefix c c' -> room (2 * Z.of_nat (length evs)) e -> rd_tool_indices d = ∅ ->
  exists d' out, decode_responses d (encode_responses e evs).2 = (d', out) /\ no_errors out
    /\ same_prefix (fold_left absorb (Ok <$> evs) c)
         (set_images [] (set_tool_uses [] (fold_left absorb (Ok <$> out) c')))
    /\ (c_tool_uses (fold_left absorb (Ok <$> out) c')).*2 = (c_tool_uses (fold_left absorb (Ok <$> evs) c)).*2
    /\ c_images (fold_left absorb (Ok <$> out) c') = []
    /\ c_finish_reason (fold_left absorb (Ok <$> out) c') = Some Stop
    /\ c_usage (fold_left absorb (Ok <$> out) c') = chat_usage (c_usage (fold_left absorb (Ok <$> evs) c)).
Proof.
  induction evs as [|ev evs IH]; intros cur top e d c c' Hc Hno Hms Hacc Hsame Hroom Hd; [done|].
  apply Forall_cons in Hno as [Herr Hno]. apply Forall_cons in Hms as [Hm Hms].
  apply complete_cons in Hc as [(r & -> & ->)|[Hev Hc]].
  - cbn [encode_responses responses_frames].
    destruct (reread_finish_responses cur top (with_status (finish_str r) e) d c c')
      as (d' & out & Hdec & Ho & n & m & Hv & Habs); try done; [by destruct Hacc|].
    destruct (responses_finish new_id (with_status (finish_str r) e)) as [e' fs]. cbn [fst snd] in *.
    rewrite app_nil_r, Hdec. exists d', out. rewrite Habs. destruct Hsame as [? ? []].
    repeat split; naive_solver.
  - destruct (reread_step cur top e d c c' ev) as (out & Hdec & Ho & Hsame'); try done.
    pose proof (accumulated_step cur top e c ev Hev Herr Hacc) as Hacc'.
    assert (room (2 * Z.of_nat (length evs)) (responses_frames new_id e ev).1) as Hroom'.
    { apply room_step; [lia|intros r ->; done|]. simpl length in Hroom. eapply room_shrinks; [|exact Hroom]. lia. }
    cbn [encode_responses]. destruct (responses_frames new_id e ev) as [e' fs]. cbn [fst snd] in *.
    destruct (IH _ _ e' d _ _ Hc Hno Hms Hacc' Hsame' Hroom' Hd) as (d2 & out2 & Hdec2 & Hno2 & Hrest).
    destruct (encode_responses e' evs) as [e2 fs2]. cbn [fst snd] in *.
    rewrite decode_responses_app, Hdec. cbn [fst snd]. rewrite Hdec2.
    exists d2, (out ++ out2). split; [done|]. split; [by apply no_errors_app|].
    rewrite fmap_app, fold_left_app. exact Hrest.
Qed.

Definition not_image (p : ContentPart) : bool := match p with Image _ _ => false | _ => true end.

(** Images are not carried in frames that the decoder reads, and every end is a
    plain stop. *)
Definition responses_stream_view (resp : AiResponse) : AiResponse :=
  mkAiResponse (resp_id resp) (resp_model resp)
    (mkMessage RoleAssistant (List.filter not_image (msg_content (resp_message resp))) None)
    Stop (chat_usage (resp_usage resp)).

(** Each kind of part where the collector keeps it. *)
Definition sorted_parts (c : Collector) : Prop :=
  Forall (fun p => exists source detail, p = Image source detail) (c_images c)
  /\ Forall (fun p => exists url title, p = Citation url title None) (c_citations c)
  /\ Forall (fun p => exists id name, p = ServerToolUse id name JNull) (c_server_tools c).

Lemma absorb_sorted c i : sorted_parts c -> sorted_parts (absorb c i).
Proof.
  unfold sorted_parts.
  intros (H1 & H2 & H3). destruct i as [[]|]; unfold absorb; simpl; try done.
  - unfold take_bytes. simpl. by destruct (bt_get index (c_tool_uses c)) as [[[]]|].
  - split; [|done]. apply Forall_app. split; [done|]. apply Forall_singleton. by eexists _, _.
  - split; [done|]. split; [|done]. apply Forall_app. split; [done|]. apply Forall_singleton. by eexists _, _.
  - destruct (str_eqb status "completed"); [|done]. split; [done|]. split; [done|].
    apply Forall_app. split; [done|]. apply Forall_singleton. by eexists _, _.
Qed.

Lemma absorb_all_sorted s c : sorted_parts c -> sorted_parts (fold_left absorb s c).
Proof. revert c. induction s as [|i s IH]; intros c H; [done|]. by apply IH, absorb_sorted. Qed.

Lemma bfilter_none {A} (f : A -> bool) l : Forall (fun x => f x = false) l -> List.filter f l = [].
Proof. induction 1 as [|x l H _ IH]; [done|]. simpl. by rewrite H. Qed.

Lemma bfilter_all {A} (f : A -> bool) l : Forall (fun x => f x = true) l -> List.filter f l = l.
Proof. induction 1 as [|x l H _ IH]; [done|]. simpl. by rewrite H, IH. Qed.

(** Choosing parts by their kind. *)
Lemma filter_parts (keep : ContentPart -> bool) (image citation server : bool) parse c :
  (forall t, keep (Text t) = true) -> (forall t sg, keep (Reasoning t sg) = true) ->
  (forall id name args, keep (ToolUse id name args) = true) ->
  (forall source detail, keep (Image source detail) = image) ->
  (forall url title, keep (Citation url title None) = citation) ->
  (forall id name, keep (ServerToolUse id name JNull) = server) ->
  sorted_parts c ->
  List.filter keep (collector_parts parse c)
  = (if is_empty (c_reasoning c) then [] else [Reasoning (c_reasoning c) None])
    ++ (if is_empty (c_content c) then [] else [Text (c_content c)])
    ++ (if image then c_images c else []) ++ (if citation then c_citations c else [])
    ++ (if server then c_server_tools c else []) ++ (tool_use_part parse <$> (c_tool_uses c).*2).
Proof.
  intros Kt Kr Ku Ki Kc Ks (H1 & H2 & H3). unfold collector_parts. rewrite !List.filter_app.
  assert (forall (b : bool) l, Forall (fun p => keep p = b) l -> List.filter keep l = if b then l else []) as F
    by (intros [] l Hl; [by apply bfilter_all|by apply bfilter_none]).
  rewrite (F image (c_images c)), (F citation (c_citations c)), (F server (c_server_tools c)).
  - rewrite (F true (tool_use_part parse <$> _)) by (apply Forall_fmap, Forall_forall; intros [[]] _; apply Ku).
    destruct (is_empty (c_reasoning c)), (is_empty (c_content c)); simpl; by rewrite ?Kr, ?Kt.
  - eapply Forall_impl; [exact H3|]. intros p (id & name & ->). apply Ks.
  - eapply Forall_impl; [exact H2|]. intros p (url & title & ->). apply Kc.
  - eapply Forall_impl; [exact H1|]. intros p (source & detail & ->). apply Ki.
Qed.

(** A client that decodes a Responses stream and assembles it gets
    the response: text, reasoning, citations, server tools and tool calls with
    their arguments, and the usage. Images are lost, and the reason is always a
    plain stop. *)
Theorem responses_stream_roundtrip parse response_id wire_model reader id0 model0 evs request_id model resp :
  responses_complete None (-1) evs = true -> 2 * Z.of_nat (length evs) <= u32_max ->
  Forall (fun ev => forall id m, ev <> EvMessageStart id m) evs ->
  collect_response parse (Ok <$> EvMessageStart id0 model0 :: evs) request_id model None = Ok resp ->
  collect_response parse
    (Ok <$> (decode_responses (mkOpenAiResponsesDecoder reader ∅ ∅)
       (encode_responses (OpenAiResponsesStreamEncoder_new new_id response_id wire_model)
          (EvMessageStart id0 model0 :: evs)).2).2) request_id model None
  = Ok (responses_stream_view resp).
Proof.
  intros Hc Hlen Hms Hcol. apply collect_response_spec in Hcol as [Hne ->].
  apply Forall_cons_1 in Hne as [_ Hne]. change (no_errors evs) in Hne.
  set (e := OpenAiResponsesStreamEncoder_new new_id response_id wire_model).
  set (d := mkOpenAiResponsesDecoder reader ∅ ∅).
  destruct (reread_responses evs None (-1) e d Collector_new Collector_new)
    as (d' & out & Hdec & Hno & Hs & Ht & Hi & Hf & Hu); try done.
  cbn [encode_responses responses_frames]. destruct (encode_responses e evs) as [e' fs]. cbn [fst snd app] in *.
  cbn [decode_responses].
  assert (exists i m, responses_decode parse_json d (created e).2 = (d, [EvMessageStart i m])) as (i & m & ->)
    by (by eexists _, _).
  rewrite Hdec. cbn [snd app]. rewrite (collect_no_errors parse (Ok <$> EvMessageStart i m :: out)); [|by constructor].
  pose proof (absorb_all_sorted (Ok <$> evs) Collector_new ltac:(by repeat constructor)) as Hsort.
  change (fold_left absorb (Ok <$> EvMessageStart i m :: out) Collector_new)
    with (fold_left absorb (Ok <$> out) Collector_new).
  change (fold_left absorb (Ok <$> EvMessageStart id0 model0 :: evs) Collector_new)
    with (fold_left absorb (Ok <$> evs) Collector_new).
  unfold responses_stream_view, collected. cbn [resp_message msg_content resp_id resp_model resp_usage].
  rewrite (filter_parts not_image false true true) by done. destruct Hs as [[S1 S2] [S3 S4] _]. simpl in S1, S2, S3, S4.
  unfold collector_parts. by rewrite S1, S2, S3, S4, Ht, Hi, Hf, Hu.
Qed.

(** ** The object that ends a stream *)

(** No reasoning after text or an image. *)
Fixpoint reasoning_leads (closed : bool) (evs : list AiStreamEvent) : bool :=
  match evs with
  | [] => true
  | EvTextDelta _ :: evs | EvOutputImage _ _ :: evs => reasoning_leads true evs
  | EvReasoningDelta _ :: evs => negb closed && reasoning_leads closed evs
  | _ :: evs => reasoning_leads closed evs
  end.

Definition next_closed (closed : bool) (ev : AiStreamEvent) : bool :=
  match ev with EvTextDelta _ | EvOutputImage _ _ => true | _ => closed end.

(** Text and reasoning accumulated, and the reasoning item if it is closed. *)
Record written (closed : bool) (e : OpenAiResponsesStreamEncoder) (c : Collector) : Prop := {
  wr_text : re_text e = c_content c /\ (re_text_open e = false -> c_content c = EmptyString);
  wr_reasoning : re_reasoning e = c_reasoning c /\ (re_reasoning_open e = false -> c_reasoning c = EmptyString);
  wr_item : match re_reasoning_item e with
            | Some item => closed = true /\ item = reasoning_item (re_reasoning_id e) (c_reasoning c)
            | None => closed = false \/ re_reasoning_open e = false
            end
}.

Lemma written_close closed e c :
  written closed e c -> written true (close_reasoning e).1 c.
Proof.
  intros [Ht [Hr1 Hr2] Hi]. unfold close_reasoning.
  destruct (re_reasoning_open e) eqn:E1; [destruct (re_reasoning_item e) as [item|] eqn:E2|]; simpl.
  - destruct Hi as [_ ->]. by constructor; rewrite ?E1, ?E2.
  - constructor; simpl; [done|by split|]. by rewrite Hr1.
  - constructor; rewrite ?E1; try done. destruct (re_reasoning_item e) as [item|]; [|by right]. naive_solver.
Qed.

Lemma written_step closed e c ev evs cur top :
  event_ok cur top ev = true -> item_error (Ok ev) = None ->
  reasoning_leads closed (ev :: evs) = true -> written closed e c ->
  written (next_closed closed ev) (responses_frames new_id e ev).1 (absorb c (Ok ev)).
Proof.
  intros Hev Herr Hl Hw. pose proof (written_close closed e c Hw) as Hc. pose proof Hw as [[Ht1 Ht2] [Hr1 Hr2] Hi].
  destruct ev; try done; cbn [responses_frames next_closed].
  - destruct (close_reasoning e) as [e1 fs1]. cbn [fst] in *. destruct Hc as [[Ht Hto] Hr Hi'].
    constructor; simpl; [|done|done]. by rewrite Ht.
  - simpl in Hl. destruct closed; [done|]. constructor; simpl; [done|by rewrite Hr1|].
    destruct (re_reasoning_item e); [by destruct Hi|by left].
  - unfold take_tool. destruct (re_cur_tool e); by constructor.
  - unfold absorb, collect_step, take_bytes. simpl.
    destruct (re_cur_tool e) as [[[? ?] ?]|], (bt_get index (c_tool_uses c)) as [[[? ?] ?]|]; by constructor.
  - unfold take_tool. destruct (re_cur_tool e); by constructor.
  - destruct (close_reasoning e) as [e1 fs1]. cbn [fst] in *. by destruct Hc; constructor.
  - unfold absorb. simpl. by destruct (str_eqb status "completed").
Qed.

Lemma leads_cons closed ev evs :
  reasoning_leads closed (ev :: evs) = true -> reasoning_leads (next_closed closed ev) evs = true.
Proof. destruct ev; simpl; try done. by intros [_ H]%andb_prop. Qed.

Lemma parse_calls i calls :
  try_map (parse_output_item parse_json) (finish_tools new_id i calls).2
  = Ok ((fun t => [ToolUse t.1.1 t.1.2 (default JNull (parse_json t.2))]) <$> calls).
Proof.
  revert i. induction calls as [|[[call_id name] args] calls IH]; intros i; [done|]. cbn [finish_tools].
  specialize (IH (wrap32 (i + 1))). destruct (finish_tools new_id (wrap32 (i + 1)) calls) as [[last fs] items].
  cbn [snd] in *. cbn [try_map]. by rewrite parse_function_call, IH.
Qed.

Definition carried_part (p : ContentPart) : bool :=
  match p with Text _ | Reasoning _ _ | ToolUse _ _ _ => true | _ => false end.

(** The object has the text, the reasoning and the calls of the response; the
    reasons for its end that have a status are kept. *)
Definition completed_view (resp : AiResponse) : AiResponse :=
  mkAiResponse (resp_id resp) (resp_model resp)
    (mkMessage RoleAssistant (List.filter carried_part (msg_content (resp_message resp))) None)
    (finish_reason_from_status (Some (finish_str (resp_finish_reason resp)))) (chat_usage (resp_usage resp)).

Definition names (e : OpenAiResponsesStreamEncoder) : string * string := (re_response_id e, re_model e).

Lemma names_close e : names (close_reasoning e).1 = names e.
Proof. unfold close_reasoning. by destruct (_ || _). Qed.

Lemma names_take e : names (take_tool e) = names e.
Proof. unfold take_tool. by destruct (re_cur_tool e). Qed.

Lemma names_step e ev : (forall r, ev <> EvMessageEnd r) -> names (responses_frames new_id e ev).1 = names e.
Proof.
  intros H. pose proof (names_close e) as Hc. pose proof (names_take e) as Ht.
  destruct ev; cbn [responses_frames]; try done; try (by destruct (close_reasoning e) as [e1 fs1]; exact Hc).
  - by destruct (re_cur_tool e) as [[[? ?] ?]|].
  - by edestruct H.
Qed.

Definition at_calls (e : OpenAiResponsesStreamEncoder) : OpenAiResponsesStreamEncoder :=
  take_tool (finish_text (close_reasoning e).1).1.1.

(** The end of a message, step by step. *)
Lemma responses_finish_frames e :
  (responses_finish new_id e).2
  = (close_reasoning e).2 ++ (finish_text (close_reasoning e).1).1.2
    ++ (finish_tools new_id (re_output_index (at_calls e)) (re_tool_calls (at_calls e))).1.2
    ++ [typed "response.completed" [("response",
          responses_object (re_response_id (at_calls e)) (re_status (at_calls e)) (re_model (at_calls e))
            (option_list (re_reasoning_item (at_calls e)) ++ (finish_text (close_reasoning e).1).2
             ++ (finish_tools new_id (re_output_index (at_calls e)) (re_tool_calls (at_calls e))).2)
            (re_usage (at_calls e)))]].
Proof.
  unfold responses_finish, at_calls. destruct (close_reasoning e) as [e1 fs1]. cbn [fst snd].
  destruct (finish_text e1) as [[e2 fs2] item]. cbn [fst snd]. by destruct (finish_tools new_id _ _) as [[? ?] ?].
Qed.

(** What the end of a message writes last. *)
Lemma finish_shape e : exists frames i,
  (responses_finish new_id e).2
  = frames ++ [typed "response.completed" [("response",
      responses_object (re_response_id e) (re_status e) (re_model e)
        (option_list (re_reasoning_item (close_reasoning e).1)
         ++ (if re_text_open e then [message_item (re_item_id e) (re_text e) []] else [])
         ++ (finish_tools new_id i (re_tool_calls e ++ option_list (re_cur_tool e))).2) (re_usage e))]].
Proof.
  rewrite responses_finish_frames.
  exists ((close_reasoning e).2 ++ (finish_text (close_reasoning e).1).1.2
    ++ (finish_tools new_id (re_output_index (at_calls e)) (re_tool_calls (at_calls e))).1.2), (re_output_index (at_calls e)).
  rewrite <- !app_assoc. do 3 f_equal.
  destruct e as [rid m iid idx topen text usage status calls cur rsid rs ropen ritem].
  destruct ropen, ritem, topen, cur; cbn -[finish_tools]; by rewrite ?app_nil_r.
Qed.

Lemma finish_object cur top closed e c :
  accumulated cur top e c -> written closed e c ->
  exists frames output rs,
    (responses_finish new_id e).2
    = frames ++ [typed "response.completed"
                   [("response", responses_object (re_response_id e) (re_status e) (re_model e) output (c_usage c))]]
    /\ try_map (parse_output_item parse_json) output = Ok rs
    /\ mjoin rs
       = (if is_empty (c_reasoning c) then [] else [Reasoning (c_reasoning c) None])
         ++ (if is_empty (c_content c) then [] else [Text (c_content c)])
         ++ ((fun t => ToolUse t.1.1 t.1.2 (default JNull (parse_json t.2))) <$> (c_tool_uses c).*2).
Proof.
  intros [Ht Hk Hc [Hu Huo]] Hw. destruct (finish_shape e) as (frames & i & ->). rewrite Ht, Hu.
  destruct (Hw) as [[W1 W2] _ _]. apply written_close in Hw as [_ [W3 W4] W5].
  eexists frames, _, ((if opt_is_some (re_reasoning_item (close_reasoning e).1)
                       then [if is_empty (c_reasoning c) then [] else [Reasoning (c_reasoning c) None]] else [])
                      ++ (if re_text_open e then [if is_empty (c_content c) then [] else [Text (c_content c)]] else [])
                      ++ ((fun t => [ToolUse t.1.1 t.1.2 (default JNull (parse_json t.2))]) <$> (c_tool_uses c).*2)).
  split; [done|]. split.
  - repeat apply try_map_app; [| |apply parse_calls].
    + destruct (re_reasoning_item (close_reasoning e).1) as [item|]; [|done]. destruct W5 as [_ ->].
      change (option_list (Some ?x)) with [x]. cbn [try_map]. by rewrite parse_reasoning_item.
    + destruct (re_text_open e); [|done]. cbn [try_map]. rewrite parse_message_item, W1, app_nil_r. done.
  - rewrite !join_app. f_equal; [|f_equal].
    + destruct (re_reasoning_item (close_reasoning e).1); simpl; [by rewrite app_nil_r|].
      destruct W5 as [|W5]; [done|]. by rewrite W4.
    + destruct (re_text_open e); simpl; [by rewrite app_nil_r|]. by rewrite W2.
    + clear Ht. induction ((c_tool_uses c).*2) as [|t l IH]; [done|]. cbn. f_equal. exact IH.
Qed.

Lemma object_of_rest evs : forall cur top closed e c,
  responses_complete cur top evs = true -> reasoning_leads closed evs = true -> no_errors evs ->
  accumulated cur top e c -> written closed e c ->
  exists frames output rs,
    let c' := fold_left absorb (Ok <$> evs) c in
    (encode_responses e evs).2
    = frames ++ [typed "response.completed"
        [("response", responses_object (re_response_id e)
             (finish_str (default Stop (c_finish_reason c'))) (re_model e) output (c_usage c'))]]
    /\ usage_ok (c_usage c') = true /\ try_map (parse_output_item parse_json) output = Ok rs
    /\ mjoin rs
       = (if is_empty (c_reasoning c') then [] else [Reasoning (c_reasoning c') None])
         ++ (if is_empty (c_content c') then [] else [Text (c_content c')])
         ++ ((fun t => ToolUse t.1.1 t.1.2 (default JNull (parse_json t.2))) <$> (c_tool_uses c').*2).
Proof.
  induction evs as [|ev evs IH]; intros cur top closed e c Hc Hl Hno Hacc Hw; [done|].
  apply Forall_cons in Hno as [Herr Hno]. apply complete_cons in Hc as [(r & -> & ->)|[Hev Hc]].
  - cbn [encode_responses responses_frames].
    destruct (finish_object cur top closed (with_status (finish_str r) e) c) as (frames & output & rs & Hf & Hp & Hj);
      [by destruct Hacc|by destruct Hw|].
    destruct (responses_finish new_id (with_status (finish_str r) e)) as [e' fs]. cbn [snd] in *.
    exists frames, output, rs. rewrite app_nil_r. by destruct Hacc as [_ _ _ [_ ?]].
  - pose proof (accumulated_step cur top e c ev Hev Herr Hacc) as Hacc'.
    pose proof (written_step closed e c ev evs cur top Hev Herr Hl Hw) as Hw'.
    pose proof (names_step e ev ltac:(intros r ->; done)) as Hn.
    cbn [encode_responses]. destruct (responses_frames new_id e ev) as [e' fs]. cbn [fst snd] in *.
    destruct (IH _ _ _ e' _ Hc (leads_cons _ _ _ Hl) Hno Hacc' Hw') as (frames & output & rs & Hf & Hrest).
    destruct (encode_responses e' evs) as [e2 fs2]. cbn [snd] in *.
    exists (fs ++ frames), output, rs. rewrite Hf. injection Hn as <- <-. split; [by rewrite <- app_assoc|exact Hrest].
Qed.

(** C23 (equivalence). A Responses stream ends with a frame whose object, read as a whole
    response, is the response that was collected from the same events: its reasoning, text and tool
    calls, the status of its reason for the end, and the usage; citations, images and server tools
    are not in it. This is for a stream that is collected without an error, ends with its message
    and nothing after it, gives reasoning before text and images, starts tool calls in the order of
    their indices and gives arguments to the call that is being written, with arguments that are
    JSON, usage that can be written and server tools of the three known names. *)
Theorem responses_completed_object response_id wire_model id0 model0 evs resp :
  responses_complete None (-1) evs = true -> reasoning_leads false evs = true ->
  Forall (fun t => is_Some (parse_json t.2)) (c_tool_uses (fold_left absorb (Ok <$> evs) Collector_new)).*2 ->
  collect_response parse_json (Ok <$> EvMessageStart id0 model0 :: evs) response_id wire_model None = Ok resp ->
  exists frames object,
    (encode_responses (OpenAiResponsesStreamEncoder_new new_id response_id wire_model)
       (EvMessageStart id0 model0 :: evs)).2
    = frames ++ [typed "response.completed" [("response", object)]]
    /\ parse_openai_responses_response parse_json object = Ok (completed_view resp).
Proof.
  intros Hc Hl Hargs Hcol. apply collect_response_spec in Hcol as [Hne ->].
  apply Forall_cons_1 in Hne as [_ Hne]. change (no_errors evs) in Hne.
  set (e := OpenAiResponsesStreamEncoder_new new_id response_id wire_model).
  destruct (object_of_rest evs None (-1) false e Collector_new) as (frames & output & rs & Hf & Hu & Hp & Hj); try done.
  { repeat constructor. }
  change (fold_left absorb (Ok <$> EvMessageStart id0 model0 :: evs) Collector_new)
    with (fold_left absorb (Ok <$> evs) Collector_new).
  set (c := fold_left absorb (Ok <$> evs) Collector_new) in *.
  cbn [encode_responses responses_frames]. destruct (encode_responses e evs) as [e' fs]. cbn [snd] in *. rewrite Hf.
  eexists (created e :: frames), _. split; [done|]. rewrite (parse_object _ _ _ _ _ _ rs) by done. f_equal.
  unfold completed_view, collected. cbn [resp_message msg_content resp_id resp_model resp_usage resp_finish_reason].
  rewrite (filter_parts carried_part false false false); [|done..|by apply absorb_all_sorted; repeat constructor].
  rewrite Hj. cbn [app]. do 4 f_equal. apply list_fmap_ext. intros i [[id name] args] Ht. cbn.
  rewrite Forall_forall in Hargs. destruct (Hargs (id, name, args)) as [v Hv]; [by eapply list_elem_of_lookup_2|].
  simpl in Hv. by rewrite Hv.
Qed.

End Stream.

Module ResponsesSamples.

Definition any_id (prefix : string) (n : nat) : string := prefix ^^ "_1".
Definition parse_null (s : string) : option Json := if str_eqb s "null" then Some JNull else None.
Definition print_null (v : Json) : string := match v with JNull => "null" | _ => "?" end.

Definition answer : AiResponse :=
  mkAiResponse "resp" "gpt"
    (mkMessage RoleAssistant
       [Reasoning "let me see" (Some "sig"); Text "It is sunny."; Citation "https://w" None (Some "s");
        ToolUse "call_1" "forecast" JNull; Image (InlineBase64 "image/png" "AAAA") None;
        ServerToolUse "ws_1" "web_search" JNull] None)
    Length (mkUsage 5 7 2 1 None).

Lemma responses_response_roundtrip_witness :
  parse_openai_responses_response parse_null (response_to_openai_responses print_null any_id answer)
  = Ok (responses_view answer).
Proof.
  apply (responses_response_roundtrip parse_null print_null any_id answer); [reflexivity|].
  repeat constructor; discriminate.
Defined.

Definition told : list AiStreamEvent :=
  [EvReasoningDelta "let me see"; EvServerToolCall "ws_1" "web_search" "completed"; EvTextDelta "It is ";
   EvTextDelta "sunny."; EvCitation "https://w" (Some "W"); EvOutputImage "image/png" "AAAA";
   EvToolCallStart 0 "call_1" "forecast"; EvToolCallArgsDelta 0 "null"; EvToolCallEnd 0;
   EvUsageDelta (mkUsage 5 7 0 0 None); EvMessageEnd Length].

Definition told_response : AiResponse :=
  mkAiResponse "resp" "gpt"
    (mkMessage RoleAssistant
       [Reasoning "let me see" None; Text "It is sunny."; image_base64 "image/png" "AAAA";
        Citation "https://w" (Some "W") None; ServerToolUse "ws_1" "web_search" JNull;
        ToolUse "call_1" "forecast" JNull] None)
    Length (mkUsage 5 7 0 0 None).

Lemma responses_stream_roundtrip_witness :
  collect_response parse_null
    (Ok <$> (decode_responses parse_null (mkOpenAiResponsesDecoder "m" ∅ ∅)
       (encode_responses any_id (OpenAiResponsesStreamEncoder_new any_id "resp" "gpt")
          (EvMessageStart "up" "gpt" :: told)).2).2) "resp" "gpt" None
  = Ok (responses_stream_view told_response).
Proof.
  apply (responses_stream_roundtrip parse_null any_id parse_null "resp" "gpt" "m" "up" "gpt" told "resp" "gpt"
           told_response); [reflexivity|vm_compute; discriminate|repeat constructor; discriminate|reflexivity].
Defined.

Lemma responses_completed_object_witness :
  exists frames object,
    (encode_responses any_id (OpenAiResponsesStreamEncoder_new any_id "resp" "gpt")
       (EvMessageStart "up" "gpt" :: told)).2
    = frames ++ [typed "response.completed" [("response", object)]]
    /\ parse_openai_responses_response parse_null object = Ok (completed_view told_response).
Proof.
  apply (responses_completed_object parse_null any_id "resp" "gpt" "up" "gpt" told told_response);
    [reflexivity|reflexivity|repeat constructor; by eexists|reflexivity].
Defined.

(** A truncated response is reported as completed, where a stream of the same
    response ends with the status of a truncated one. *)
Lemma truncated_reported_completed :
  get_str "status" (response_to_openai_responses print_null any_id answer) = Some "completed"
  /\ finish_str (resp_finish_reason answer) = "incomplete".
Proof. done. Qed.

Definition last_object (evs : list AiStreamEvent) : result AiResponse string :=
  match last (encode_responses any_id (OpenAiResponsesStreamEncoder_new any_id "resp" "gpt") evs).2 with
  | Some f => parse_openai_responses_response parse_null (default JNull (get "response" f.2))
  | None => Err "no frame"
  end.

Definition parts_of (r : result AiResponse string) : list ContentPart :=
  match r with Ok resp => msg_content (resp_message resp) | Err _ => [] end.

(** Arguments go to the call that started last, whatever their index. *)
Lemma interleaved_args_misplaced :
  parts_of (last_object [EvToolCallStart 0 "a" "f"; EvToolCallStart 1 "b" "g"; EvToolCallArgsDelta 0 "nu";
                         EvToolCallArgsDelta 0 "ll"; EvMessageEnd ToolCalls])
  = [ToolUse "a" "f" JNull; ToolUse "b" "g" JNull]
  /\ (encode_responses any_id (OpenAiResponsesStreamEncoder_new any_id "resp" "gpt")
        [EvToolCallStart 0 "a" "f"; EvToolCallStart 1 "b" "g"; EvToolCallArgsDelta 0 "null";
         EvMessageEnd ToolCalls]).1.(re_tool_calls)
     = [("a", "f", EmptyString); ("b", "g", "null")].
Proof. split; reflexivity. Qed.

(** Reasoning that comes after text is streamed, and missing from the object. *)
Lemma late_reasoning_lost :
  parts_of (last_object [EvReasoningDelta "one"; EvTextDelta "t"; EvReasoningDelta "two"; EvMessageEnd Stop])
  = [Reasoning "one" None; Text "t"].
Proof. reflexivity. Qed.

(** An image is streamed, and missing from the object. *)
Lemma streamed_image_lost :
  parts_of (last_object [EvTextDelta "t"; EvOutputImage "image/png" "AAAA"; EvMessageEnd Stop]) = [Text "t"].
Proof. reflexivity. Qed.

(** A stream that an upstream truncated is decoded as one that stopped. *)
Lemma truncated_decoded_as_stop :
  (responses_decode parse_null (mkOpenAiResponsesDecoder "m" ∅ ∅)
     (obj [("type", JString "response.completed");
           ("response", obj [("status", JString "incomplete")])])).2
  = [EvUsageDelta Usage_default; EvMessageEnd Stop]
  /\ (responses_decode parse_null (mkOpenAiResponsesDecoder "m" ∅ ∅)
        (obj [("type", JString "response.incomplete");
              ("response", obj [("status", JString "incomplete")])])).2 = [].
Proof. split; reflexivity. Qed.

End ResponsesSamples.
