(* ===== verification/Access.v ===== *)
(** * Authentication and roles

    [crates/sb-server/src/tenancy.rs] (authentication), [crates/sb-server/src/auth.rs]
    (the middleware in front of every handler) and the key matching of
    [crates/sb-core/src/config.rs]. The digest and the process environment are
    parameters; a request's headers are the function that gives the readable value
    of a header, [headers.get(name).and_then(|v| v.to_str().ok())]. *)

From Stdlib Require Import ZArith Lia Ascii.
From stdpp Require Import base list strings.
From S2P Require Import Prelude Text Lines BTree Float Ir Profiles.

#[local] Open Scope Z_scope.

(** ** Bytes *)

Definition byte_val (c : ascii) : Z := Z.of_N (N_of_ascii c).

(** [HEX[n]]. *)
Definition hex_digit (n : Z) : ascii :=
  default "0"%char (String.get (Z.to_nat n) "0123456789abcdef").

(** The loop that renders a digest. *)
Fixpoint hex_bytes (s : string) : string :=
  match s with
  | EmptyString => EmptyString
  | String b s' =>
      String (hex_digit (Z.shiftr (byte_val b) 4))
        (String (hex_digit (Z.land (byte_val b) 15)) (hex_bytes s'))
  end.

(** [for (a, b) in x.iter().zip(y) { diff |= a ^ b }]. *)
Fixpoint digest_diff (x y : string) (diff : Z) : Z :=
  match x, y with
  | String a x', String b y' => digest_diff x' y' (Z.lor diff (Z.lxor (byte_val a) (byte_val b)))
  | _, _ => diff
  end.

(** ** Configuration *)

Inductive ApiKeyRole := RoleClient | RoleOperator | RoleAdmin.

#[export] Instance api_key_role_eq_dec : EqDecision ApiKeyRole.
Proof. solve_decision. Defined.

Record ApiKeyConfig := mkApiKeyConfig {
  ak_key : option string;
  ak_key_env : option string;
  ak_key_hash : option string;
  ak_prefix : option string;
  ak_tenant : string;
  ak_project : option string;
  ak_role : ApiKeyRole
}.

(** The fields of the configuration that authentication reads. *)
Record AccessConfig := mkAccessConfig {
  ac_api_keys : list ApiKeyConfig;
  ac_server_api_key : option string
}.

Record Principal := mkPrincipal {
  pl_tenant : option string;
  pl_project : option string;
  pl_role : ApiKeyRole
}.

Definition admin : Principal := mkPrincipal None None RoleAdmin.

Definition is_admin (p : Principal) : bool :=
  match pl_role p with RoleAdmin => true | _ => false end.

Definition is_operator_or_admin (p : Principal) : bool :=
  match pl_role p with RoleOperator | RoleAdmin => true | RoleClient => false end.

Definition role_name (p : Principal) : string :=
  match pl_role p with
  | RoleClient => "client"
  | RoleOperator => "operator"
  | RoleAdmin => "admin"
  end.

(** ** Responses

    A response as the handlers build it: the status, the headers they insert and
    the body. *)

Inductive Body :=
| BodyJson (value : Json)
| BodyBytes (bytes : string)
| BodyStream (frames : list string).

Record Response := mkResponse {
  rs_status : Z;
  rs_headers : BTreeMap string string;
  rs_body : Body
}.

Definition json_response (status : Z) (value : Json) : Response :=
  mkResponse status [] (BodyJson value).

(** [openai_error], and the bodies written with [json!] in the same shape. *)
Definition openai_error (message type_ : string) : Json :=
  JObject [("error", JObject [("message", JString message); ("type", JString type_)])].

Definition unauthorized : Response :=
  json_response 401 (openai_error "missing or invalid api key" "invalid_request_error").

Definition forbidden : Response :=
  json_response 403
    (openai_error "api key is not authorized for this endpoint" "permission_error").

(** The readable value of a header, by its name in lower case. *)
Definition Headers : Type := string -> option string.

(** ** Keys *)

Section Access.
Context (sha256 : string -> string) (env_var : string -> option string).

Definition sha256_hex (bytes : string) : string := hex_bytes (sha256 bytes).

Definition constant_time_secret_eq (expected presented : string) : bool :=
  digest_diff (sha256 expected) (sha256 presented) 0 =? 0.

Definition is_lower_hex (c : ascii) : bool :=
  let n := nat_of_ascii c in is_ascii_digit c || (Nat.leb 97 n && Nat.leb n 102).

Definition normalize_sha256_hash (hash : string) : option string :=
  match strip_prefix "sha256:" hash with
  | Some h => if (byte_len h =? 64) && all_bytes is_lower_hex h then Some h else None
  | None => None
  end.

(** [value.filter(|v| !v.is_empty())]. *)
Definition filled (value : option string) : option string :=
  match value with Some v => if is_empty v then None else Some v | None => None end.

Definition api_key_matches (configured : ApiKeyConfig) (presented : string) : bool :=
  let matched := false in
  let matched := match filled (ak_key configured) with
    | Some expected => matched || constant_time_secret_eq expected presented
    | None => matched
    end in
  let matched := match filled (ak_key_env configured) with
    | Some name =>
        match env_var name with
        | Some expected =>
            if is_empty expected then matched
            else matched || constant_time_secret_eq expected presented
        | None => matched
        end
    | None => matched
    end in
  match ak_key_hash configured ≫= normalize_sha256_hash with
  | Some expected_hash => matched || constant_time_secret_eq expected_hash (sha256_hex presented)
  | None => matched
  end.

(** Every key is tried; the last one that matches decides. *)
Definition principal_for_key (cfg : AccessConfig) (key : string)
  : option (string * option string * ApiKeyRole) :=
  fold_left (fun matched configured =>
    if api_key_matches configured key
    then Some (ak_tenant configured, ak_project configured, ak_role configured)
    else matched) (ac_api_keys cfg) None.

Definition server_api_key_matches (cfg : AccessConfig) (key : string) : bool :=
  match ac_server_api_key cfg with
  | Some expected => constant_time_secret_eq expected key
  | None => false
  end.

(** ** Authentication *)

Definition bearer (headers : Headers) : option string :=
  v ← headers "authorization"; s ← strip_prefix "Bearer " v; Some (trim s).

Definition x_api_key (headers : Headers) : option string := trim <$> headers "x-api-key".

(** [bearer.or(x_api_key)]. *)
Definition effective_key (headers : Headers) : option string :=
  match bearer headers with Some b => Some b | None => x_api_key headers end.

Definition authenticate (cfg : AccessConfig) (headers : Headers) : result Principal Response :=
  match ac_api_keys cfg with
  | _ :: _ =>
      match effective_key headers ≫= principal_for_key cfg with
      | Some (tenant, project, role) => Ok (mkPrincipal (Some tenant) project role)
      | None => Err unauthorized
      end
  | [] =>
      match ac_server_api_key cfg with
      | Some _ =>
          if match effective_key headers with
             | Some key => server_api_key_matches cfg key
             | None => false
             end
          then Ok admin else Err unauthorized
      | None => Ok admin
      end
  end.

(** ** The gate in front of the handlers *)

Definition client_posts : list string :=
  ["/v1/chat/completions"; "/v1/responses"; "/v1/messages"; "/v1/messages/count_tokens";
   "/v1/embeddings"; "/v1/images/generations"].

Definition client_surface (method path : string) : bool :=
  (str_eqb method "GET" && str_eqb path "/v1/models")
  || (str_eqb method "POST" && existsb (str_eqb path) client_posts).

Definition operator_surface (method path : string) : bool :=
  if client_surface method path then true
  else if str_eqb method "GET" && (starts_with "/v1/" path || starts_with "/cp/v1" path) then true
  else str_eqb method "POST"
       && (str_eqb path "/cp/v1/route-preview" || str_eqb path "/cp/v1/admission-preview"
           || (starts_with "/v1/jobs/" path && ends_with "/cancel" path)
           || (starts_with "/cp/v1/drafts/" path && ends_with "/validate" path)).

Definition unauthorized_role (principal : Principal) (method path : string) : option Response :=
  if is_admin principal
     || (is_operator_or_admin principal && operator_surface method path)
     || client_surface method path
  then None else Some forbidden.

(** What the middleware does with a request: pass it on without a principal, with
    one, or answer it. *)
Inductive Gated :=
| Public
| Forward (principal : Principal)
| Refuse (response : Response).

Definition require_auth (cfg : AccessConfig) (method path : string) (headers : Headers) : Gated :=
  if str_eqb path "/" || str_eqb path "/health" || starts_with "/requests/" path then Public
  else match authenticate cfg headers with
  | Ok principal =>
      match unauthorized_role principal method path with
      | Some resp => Refuse resp
      | None => Forward principal
      end
  | Err resp => Refuse resp
  end.

End Access.

(** ** Who gets in

    A comparison of digests is an equality of digests, so a principal is granted
    exactly for a key whose digest is that of a configured one; and the role of the
    principal bounds what it can reach. No property of the digest is assumed but
    its width. *)

#[local] Open Scope Z_scope.

(** ** Bytes *)

Lemma byte_val_range c : 0 <= byte_val c < 256.
Proof. unfold byte_val. pose proof (N_ascii_bounded c). lia. Qed.

Lemma byte_val_inj a b : byte_val a = byte_val b -> a = b.
Proof.
  unfold byte_val. intros H. rewrite <- (ascii_N_embedding a), <- (ascii_N_embedding b).
  f_equal. lia.
Qed.

(** The accumulated difference is zero if and only if nothing differed. *)
Lemma digest_diff_zero x : forall y d,
  String.length x = String.length y ->
  digest_diff x y d = 0 <-> d = 0 /\ x = y.
Proof.
  induction x as [|a x IH]; intros [|b y] d Hl; try done; simpl.
  - naive_solver.
  - rewrite IH by (simpl in Hl; lia). rewrite Z.lor_eq_0_iff, Z.lxor_eq_0_iff. split.
    + intros [[-> Hab%byte_val_inj] ->]. by subst.
    + intros [-> [= -> ->]]. auto.
Qed.

Definition hex_value (c : ascii) : Z :=
  let n := Z.of_N (N_of_ascii c) in if n <? 58 then n - 48 else n - 87.

Lemma hex_digit_value n : 0 <= n < 16 -> hex_value (hex_digit n) = n.
Proof.
  intros H. assert (E : n = Z.of_nat (Z.to_nat n)) by lia.
  assert (Hn : (Z.to_nat n < 16)%nat) by lia. revert Hn. rewrite E at 2 3. generalize (Z.to_nat n).
  clear. intros k Hk. do 16 (destruct k as [|k]; [reflexivity|]). lia.
Qed.

Lemma nibbles c :
  byte_val c = 16 * Z.shiftr (byte_val c) 4 + Z.land (byte_val c) 15
  /\ 0 <= Z.shiftr (byte_val c) 4 < 16 /\ 0 <= Z.land (byte_val c) 15 < 16.
Proof.
  pose proof (byte_val_range c).
  rewrite Z.shiftr_div_pow2 by lia. change 15 with (Z.ones 4). rewrite Z.land_ones by lia.
  change (2 ^ 4) with 16. pose proof (Z.div_mod (byte_val c) 16).
  pose proof (Z.mod_pos_bound (byte_val c) 16). lia.
Qed.

Lemma hex_bytes_inj x : forall y, hex_bytes x = hex_bytes y -> x = y.
Proof.
  induction x as [|a x IH]; intros [|b y]; try done. cbn [hex_bytes].
  intros [= H1 H2 H3]. rewrite (IH _ H3). f_equal. apply byte_val_inj.
  destruct (nibbles a) as (Ea & ? & ?), (nibbles b) as (Eb & ? & ?).
  apply (f_equal hex_value) in H1, H2. rewrite !hex_digit_value in H1, H2 by lia. lia.
Qed.

Lemma hex_bytes_length s : String.length (hex_bytes s) = (2 * String.length s)%nat.
Proof. induction s as [|c s IH]; [done|]. cbn [hex_bytes String.length]. lia. Qed.

Lemma hex_digit_lower n : 0 <= n < 16 -> is_lower_hex (hex_digit n) = true.
Proof.
  intros H. assert (Hn : (Z.to_nat n < 16)%nat) by lia.
  unfold hex_digit. revert Hn. generalize (Z.to_nat n). clear. intros k Hk.
  do 16 (destruct k as [|k]; [reflexivity|]). lia.
Qed.

Lemma hex_bytes_lower s : all_bytes is_lower_hex (hex_bytes s) = true.
Proof.
  induction s as [|c s IH]; [done|]. cbn [hex_bytes all_bytes].
  destruct (nibbles c) as (_ & ? & ?). by rewrite !hex_digit_lower, IH by lia.
Qed.

Section Theorems.
Context (sha256 : string -> string) (env_var : string -> option string).
Hypothesis sha256_width : forall s, String.length (sha256 s) = 32%nat.

(** ** Keys *)

Lemma secret_eq_digest expected presented :
  constant_time_secret_eq sha256 expected presented = true <-> sha256 expected = sha256 presented.
Proof.
  unfold constant_time_secret_eq. rewrite Z.eqb_eq, digest_diff_zero by (by rewrite !sha256_width).
  naive_solver.
Qed.

Lemma filled_spec v s : filled v = Some s <-> v = Some s /\ s <> EmptyString.
Proof. destruct v as [[|c v]|]; simpl; naive_solver. Qed.

(** The digest by which a configured key admits [presented]: that of the key, of the
    value of its environment variable, or of the configured hash, then compared
    with the presented key's hash. *)
Definition admits (c : ApiKeyConfig) (presented : string) : Prop :=
  (exists k, filled (ak_key c) = Some k /\ sha256 k = sha256 presented)
  \/ (exists name k, filled (ak_key_env c) = Some name /\ filled (env_var name) = Some k
        /\ sha256 k = sha256 presented)
  \/ (exists h, ak_key_hash c ≫= normalize_sha256_hash = Some h
        /\ sha256 h = sha256 (sha256_hex sha256 presented)).

(** The three sources of a key, side by side. *)
Lemma api_key_matches_alt c presented :
  api_key_matches sha256 env_var c presented
  = from_option (fun k => constant_time_secret_eq sha256 k presented) false (filled (ak_key c))
    || from_option (fun k => constant_time_secret_eq sha256 k presented) false
         (filled (ak_key_env c) ≫= (fun name => filled (env_var name)))
    || from_option (fun h => constant_time_secret_eq sha256 h (sha256_hex sha256 presented)) false
         (ak_key_hash c ≫= normalize_sha256_hash).
Proof.
  unfold api_key_matches. destruct (ak_key_hash c ≫= normalize_sha256_hash) as [h|].
  all: destruct (filled (ak_key c)) as [k|], (filled (ak_key_env c)) as [name|]; simpl.
  all: try (destruct (env_var name) as [[|a e]|]; simpl).
  all: by rewrite ?orb_false_r.
Qed.

Lemma from_option_true {A} (f : A -> bool) o :
  from_option f false o = true <-> exists x, o = Some x /\ f x = true.
Proof. destruct o; naive_solver. Qed.

Lemma api_key_matches_spec c presented :
  api_key_matches sha256 env_var c presented = true <-> admits c presented.
Proof.
  rewrite api_key_matches_alt, !orb_true_iff, !from_option_true. unfold admits.
  setoid_rewrite secret_eq_digest.
  split; [intros [[?|H]|?]|intros [?|[H|?]]]; try tauto.
  - destruct H as (k & (name & Hn & Hk)%bind_Some & Hd). right. left. by exists name, k.
  - destruct H as (name & k & Hn & Hk & Hd). left. right. exists k. split; [|done].
    apply bind_Some. by exists name.
Qed.

(** The last key of the list that admits the presented one. *)
Lemma principal_for_key_spec cfg key r :
  principal_for_key sha256 env_var cfg key = Some r <->
  exists before c after, ac_api_keys cfg = before ++ c :: after
    /\ r = (ak_tenant c, ak_project c, ak_role c)
    /\ admits c key /\ Forall (fun c' => ~ admits c' key) after.
Proof.
  unfold principal_for_key. induction (ac_api_keys cfg) as [|c l IH] using rev_ind.
  { split; [done|]. intros (before & c & after & H & _). by destruct before. }
  rewrite fold_left_app. simpl. destruct (api_key_matches sha256 env_var c key) eqn:E.
  - apply api_key_matches_spec in E. split.
    + intros [= <-]. exists l, c, []. by split_and!.
    + intros (before & c' & after & Hl & -> & Ha & Hf).
      destruct after as [|c2 after _] using rev_ind.
      * apply app_inj_tail in Hl as [_ ->]. done.
      * rewrite app_comm_cons, app_assoc in Hl. apply app_inj_tail in Hl as [_ ->].
        apply Forall_app in Hf as [_ Hf]. by apply Forall_cons_1 in Hf as [Hf _].
  - assert (Hn : ~ admits c key) by (rewrite <- api_key_matches_spec; congruence).
    rewrite IH. split; intros (before & c' & after & Hl & -> & Ha & Hf).
    + exists before, c', (after ++ [c]). rewrite Hl, <- app_assoc. split_and!; try done.
      apply Forall_app. by repeat constructor.
    + destruct after as [|c2 after _] using rev_ind.
      * apply app_inj_tail in Hl as [_ ->]. done.
      * rewrite app_comm_cons, app_assoc in Hl. apply app_inj_tail in Hl as [-> ->].
        apply Forall_app in Hf as [Hf _]. by exists before, c', after.
Qed.

(** ** Principals *)

(** How a principal is granted: by a configured key, by the single server key, or
    because the gateway is open. *)
Inductive granted (cfg : AccessConfig) (headers : Headers) : Principal -> Prop :=
| granted_key b before c after :
    effective_key headers = Some b -> ac_api_keys cfg = before ++ c :: after ->
    admits c b -> Forall (fun c' => ~ admits c' b) after ->
    granted cfg headers (mkPrincipal (Some (ak_tenant c)) (ak_project c) (ak_role c))
| granted_server b k :
    ac_api_keys cfg = [] -> ac_server_api_key cfg = Some k -> effective_key headers = Some b ->
    sha256 k = sha256 b -> granted cfg headers admin
| granted_open :
    ac_api_keys cfg = [] -> ac_server_api_key cfg = None -> granted cfg headers admin.

Lemma authenticate_spec cfg headers p :
  authenticate sha256 env_var cfg headers = Ok p <-> granted cfg headers p.
Proof.
  unfold authenticate. split.
  - destruct (ac_api_keys cfg) as [|c0 l] eqn:El.
    + destruct (ac_server_api_key cfg) as [k|] eqn:Es; [|intros [= <-]; by apply granted_open].
      unfold server_api_key_matches. rewrite Es.
      destruct (effective_key headers) as [b|] eqn:Eb; [|done].
      destruct (constant_time_secret_eq sha256 k b) eqn:Ec; [|done]. intros [= <-].
      apply secret_eq_digest in Ec. by eapply granted_server.
    + destruct (effective_key headers) as [b|] eqn:Eb; [|done]. simpl.
      destruct (principal_for_key sha256 env_var cfg b) as [[[t pr] r]|] eqn:Ep; [|done].
      intros [= <-]. apply principal_for_key_spec in Ep as (bf & c & af & Hl & [= -> -> ->] & Ha & Hf).
      by eapply granted_key.
  - intros [b before c after Eb El Ha Hf|b k El Es Eb Hd|El Es].
    + destruct (ac_api_keys cfg) as [|c0 l] eqn:E0; [by destruct before|].
      rewrite Eb. simpl. assert (Hp : principal_for_key sha256 env_var cfg b
        = Some (ak_tenant c, ak_project c, ak_role c)).
      { apply principal_for_key_spec. exists before, c, after. rewrite E0. by split_and!. }
      by rewrite Hp.
    + rewrite El, Es, Eb. unfold server_api_key_matches. rewrite Es.
      by rewrite (proj2 (secret_eq_digest k b) Hd).
    + by rewrite El, Es.
Qed.

Lemma authenticate_refuses cfg headers r :
  authenticate sha256 env_var cfg headers = Err r -> r = unauthorized.
Proof. unfold authenticate. repeat case_match; naive_solver. Qed.

(** Authentication, on every branch: a request gets a principal if
    and only if the key it presents (the bearer token, else [x-api-key]) has the
    digest of a configured secret, and then it is the tenant, the project and the
    role of the last such entry; with no keys configured it is the unattributed
    administrator, if the single server key is unset or its digest is the
    presented one. Every refusal is the same 401. *)
Theorem authenticate_characterized cfg headers :
  (forall p, authenticate sha256 env_var cfg headers = Ok p <-> granted cfg headers p)
  /\ (forall r, authenticate sha256 env_var cfg headers = Err r ->
        r = unauthorized /\ forall p, ~ granted cfg headers p).
Proof.
  split; [intros; apply authenticate_spec|]. intros r Hr.
  split; [by eapply authenticate_refuses|]. intros p Hp%authenticate_spec. congruence.
Qed.

(** ** Roles *)

(** What a principal that is not an administrator may do that is not a read. *)
Definition unprivileged_write (method path : string) : Prop :=
  method = "POST" /\ (path ∈ client_posts
    \/ path = "/cp/v1/route-preview" \/ path = "/cp/v1/admission-preview"
    \/ (starts_with "/v1/jobs/" path = true /\ ends_with "/cancel" path = true)
    \/ (starts_with "/cp/v1/drafts/" path = true /\ ends_with "/validate" path = true)).

Lemma client_surface_spec method path :
  client_surface method path = true <->
  (method = "GET" /\ path = "/v1/models") \/ (method = "POST" /\ path ∈ client_posts).
Proof.
  unfold client_surface. rewrite orb_true_iff, !andb_true_iff, !str_eqb_eq, existsb_exists.
  setoid_rewrite str_eqb_eq. setoid_rewrite <- list_elem_of_In. naive_solver.
Qed.

Lemma operator_surface_write method path :
  method <> "GET" -> operator_surface method path = true -> unprivileged_write method path.
Proof.
  intros Hm. unfold operator_surface, unprivileged_write.
  destruct (client_surface method path) eqn:E.
  { apply client_surface_spec in E. naive_solver. }
  replace (str_eqb method "GET") with false by (symmetry; apply bool_decide_eq_false; done).
  simpl. rewrite !andb_true_iff, !orb_true_iff, !andb_true_iff, !str_eqb_eq. naive_solver.
Qed.

(** C16 (safety). Access control: the middleware passes a request on only if the path is
    one of the three public ones, or with a principal that authentication grants;
    and then the principal is an administrator, or the request is a read ([GET])
    or one of the named posts, which change no configuration; a client's request
    is one of the client endpoints. *)
Theorem access_control cfg method path headers :
  match require_auth sha256 env_var cfg method path headers with
  | Public => path = "/" \/ path = "/health" \/ starts_with "/requests/" path = true
  | Forward p =>
      granted cfg headers p
      /\ (pl_role p = RoleAdmin \/ method = "GET" \/ unprivileged_write method path)
      /\ (pl_role p = RoleClient -> client_surface method path = true)
  | Refuse r => r = unauthorized \/ r = forbidden
  end.
Proof.
  unfold require_auth. destruct (str_eqb path "/" || _ || _) eqn:Ep.
  { rewrite !orb_true_iff, !str_eqb_eq in Ep. naive_solver. }
  destruct (authenticate sha256 env_var cfg headers) as [p|r] eqn:Ea;
    [|left; by eapply authenticate_refuses].
  unfold unauthorized_role. destruct (_ || _ || client_surface method path) eqn:Eu; [|by right].
  split; [by apply authenticate_spec|].
  unfold is_admin, is_operator_or_admin in Eu.
  destruct (pl_role p); simpl in Eu; (split; [|done || by intros _]).
  - right. apply client_surface_spec in Eu as [[? _]|[? ?]]; [by left|right; by split; [|left]].
  - right. apply orb_true_iff in Eu as [Eu|Eu].
    + destruct (decide (method = "GET")); [by left|right]. by apply operator_surface_write.
    + apply client_surface_spec in Eu as [[? _]|[? ?]]; [by left|right; by split; [|left]].
  - by left.
Qed.

(** ** Hashed keys *)

Definition clear_key (k tenant : string) (project : option string) (role : ApiKeyRole) :=
  mkApiKeyConfig (Some k) None None None tenant project role.
Definition hashed_key (k tenant : string) (project : option string) (role : ApiKeyRole) :=
  mkApiKeyConfig None None (Some ("sha256:" ^^ sha256_hex sha256 k)) None tenant project role.

Lemma normalize_own_hash k :
  normalize_sha256_hash ("sha256:" ^^ sha256_hex sha256 k) = Some (sha256_hex sha256 k).
Proof.
  unfold normalize_sha256_hash.
  rewrite (proj2 (strip_prefix_spec "sha256:" _ (sha256_hex sha256 k)) eq_refl).
  unfold byte_len, sha256_hex. by rewrite hex_bytes_length, sha256_width, hex_bytes_lower.
Qed.

(** A key configured by its hash admits what the same key in clear
    admits, and nothing more unless two different hexadecimal digests collide
    under the digest. *)
Theorem hashed_key_equivalent k tenant project role presented :
  k <> EmptyString ->
  let clear := api_key_matches sha256 env_var (clear_key k tenant project role) presented in
  let hashed := api_key_matches sha256 env_var (hashed_key k tenant project role) presented in
  (clear = true -> hashed = true)
  /\ (hashed = true -> clear = true
      \/ (sha256_hex sha256 k <> sha256_hex sha256 presented
          /\ sha256 (sha256_hex sha256 k) = sha256 (sha256_hex sha256 presented))).
Proof.
  intros Hk. cbv zeta. rewrite !api_key_matches_alt. cbn [clear_key hashed_key ak_key ak_key_env
    ak_key_hash mbind option_bind filled from_option]. rewrite normalize_own_hash.
  destruct k as [|c k]; [done|]. cbn [is_empty from_option orb].
  rewrite !orb_false_r, !secret_eq_digest. split.
  - intros H. unfold sha256_hex. by rewrite H.
  - intros H. destruct (decide (sha256 (String c k) = sha256 presented)) as [|Hne]; [by left|right].
    split; [|done]. intros Hx%hex_bytes_inj. done.
Qed.

End Theorems.

(** ** Samples *)

Module AccessSamples.

(** A digest of the right width: the first 32 bytes, padded. *)
Fixpoint pad (n : nat) (s : string) : string :=
  match n with
  | O => EmptyString
  | S n => match s with
           | EmptyString => String zero (pad n EmptyString)
           | String c s' => String c (pad n s')
           end
  end.

Definition digest (s : string) : string := pad 32 s.

Lemma digest_width s : String.length (digest s) = 32%nat.
Proof.
  unfold digest. generalize 32%nat. intros n. revert s.
  induction n as [|n IH]; intros [|c s]; simpl; auto.
Qed.

Definition keys : AccessConfig :=
  mkAccessConfig
    [clear_key "alpha" "acme" (Some "web") RoleClient; clear_key "beta" "ops" None RoleOperator]
    None.

Definition with_bearer (key name : string) : option string :=
  if str_eqb name "authorization" then Some ("Bearer " ^^ key) else None.

Lemma authenticate_characterized_witness :
  granted digest (fun _ => None) keys (with_bearer "alpha")
    (mkPrincipal (Some "acme") (Some "web") RoleClient).
Proof.
  apply (proj1 (authenticate_characterized digest (fun _ => None) digest_width keys
    (with_bearer "alpha"))). vm_compute. reflexivity.
Defined.

(** The operator may preview a route and may not publish a draft. *)
Lemma access_control_witness :
  granted digest (fun _ => None) keys (with_bearer "beta") (mkPrincipal (Some "ops") None RoleOperator)
  /\ require_auth digest (fun _ => None) keys "POST" "/cp/v1/drafts/d1/publish"
       (with_bearer "beta") = Refuse forbidden.
Proof.
  split; [|vm_compute; reflexivity].
  pose proof (access_control digest (fun _ => None) digest_width keys "POST"
    "/cp/v1/route-preview" (with_bearer "beta")) as H.
  replace (require_auth digest (fun _ => None) keys "POST" "/cp/v1/route-preview"
    (with_bearer "beta")) with (Forward (mkPrincipal (Some "ops") None RoleOperator)) in H
    by (vm_compute; reflexivity).
  exact (proj1 H).
Defined.

Lemma hashed_key_equivalent_witness :
  api_key_matches digest (fun _ => None) (hashed_key digest "alpha" "acme" None RoleClient) "alpha"
  = true.
Proof.
  apply (proj1 (hashed_key_equivalent digest (fun _ => None) digest_width "alpha" "acme" None
    RoleClient "alpha" ltac:(discriminate))). vm_compute. reflexivity.
Defined.

End AccessSamples.

(** A server key that is configured but empty closes nothing: a request with an empty
    [x-api-key] header is the administrator, whatever the digest. *)
Lemma empty_server_key_admits sha256 env_var :
  (forall s, String.length (sha256 s) = 32%nat) ->
  authenticate sha256 env_var (mkAccessConfig [] (Some EmptyString))
    (fun name => if str_eqb name "x-api-key" then Some EmptyString else None) = Ok admin.
Proof.
  intros Hw. apply (authenticate_spec _ _ Hw).
  by apply (granted_server sha256 env_var _ _ EmptyString EmptyString).
Qed.
