(* ===== verification/Framing.v ===== *)
(** * Framing of upstream streams

    [crates/sb-adapters/src/transport.rs] and [event_stream.rs]: how JSON values
    are cut out of the bytes an upstream sends, as text frames of server-sent
    events or as binary messages of the AWS event stream. Bytes are strings. JSON,
    base64 and CRC-32 come from libraries and are parameters. *)

From Stdlib Require Import ZArith Lia Ascii.
From stdpp Require Import base list strings option.
From S2P Require Import Prelude Text Lines BTree Float Ir Value Access.

#[local] Open Scope Z_scope.
#[local] Open Scope switchback_scope.

(** ** Bytes *)

Fixpoint first_bytes (n : nat) (s : string) : string :=
  match n, s with
  | S n, String c s => String c (first_bytes n s)
  | _, _ => EmptyString
  end.

Fixpoint drop_bytes (n : nat) (s : string) : string :=
  match n, s with
  | S n, String _ s => drop_bytes n s
  | _, _ => s
  end.

(** [u16::from_be_bytes] and [u32::from_be_bytes] on the first bytes. *)
Fixpoint read_be (n : nat) (acc : Z) (s : string) : Z :=
  match n, s with
  | S n, String c s => read_be n (256 * acc + byte_val c) s
  | _, _ => acc
  end.

Definition read_u32_be (s : string) : Z := read_be 4 0 s.
Definition read_u16_be (s : string) : Z := read_be 2 0 s.

(** ** UTF-8 *)

Definition in_range (lo hi : Z) (c : ascii) : bool := (lo <=? byte_val c) && (byte_val c <=? hi).
Definition continuation (c : ascii) : bool := in_range 128 191 c.

(** How many of the following bytes continue a character, up to [n]. *)
Fixpoint continued (n : nat) (s : string) : nat :=
  match n, s with
  | S n, String c s => if continuation c then S (continued n s) else O
  | _, _ => O
  end.

(** The second byte of a character of three or four bytes. *)
Definition second_ok (b c : ascii) : bool :=
  let v := byte_val b in
  if v =? 224 then in_range 160 191 c
  else if v =? 237 then in_range 128 159 c
  else if v =? 240 then in_range 144 191 c
  else if v =? 244 then in_range 128 143 c
  else continuation c.

(** The bytes of the sequence that starts with [b], and whether it is a
    character; an invalid sequence is as long as what it has of one. *)
Definition utf8_sequence (b : ascii) (s : string) : nat * bool :=
  let v := byte_val b in
  if v <? 128 then (1%nat, true)
  else
    let more := if in_range 194 223 b then 1%nat
                else if in_range 224 239 b then 2%nat
                else if in_range 240 244 b then 3%nat else O in
    match more, s with
    | O, _ | _, EmptyString => (1%nat, false)
    | S more', String c s' =>
        if second_ok b c
        then let n := continued more' s' in (S (S n), bool_decide (n = more'))
        else (1%nat, false)
    end.

(** U+FFFD. *)
Definition replacement : string :=
  String (ascii_of_nat 239) (String (ascii_of_nat 191) (String (ascii_of_nat 189) EmptyString)).

(** [String::from_utf8_lossy]. *)
Fixpoint utf8_lossy_fuel (fuel : nat) (s : string) : string :=
  match fuel, s with
  | S fuel, String b s' =>
      let '(n, valid) := utf8_sequence b s' in
      (if valid then first_bytes n s else replacement) ^^ utf8_lossy_fuel fuel (drop_bytes n s)
  | _, _ => EmptyString
  end.

Definition from_utf8_lossy (s : string) : string := utf8_lossy_fuel (String.length s) s.

(** ** Server-sent events *)

Definition carriage_return : ascii := ascii_of_nat 13.

(** [replace("\r\n", "\n")]. *)
Fixpoint replace_crlf (s : string) : string :=
  match s with
  | EmptyString => EmptyString
  | String c s' =>
      match s' with
      | String d s'' =>
          if (Ascii.eqb c carriage_return && Ascii.eqb d newline)%bool
          then String newline (replace_crlf s'')
          else String c (replace_crlf s')
      | EmptyString => String c EmptyString
      end
  end.

(** [replace('\r', "\n")]. *)
Fixpoint replace_cr (s : string) : string :=
  match s with
  | EmptyString => EmptyString
  | String c s => String (if Ascii.eqb c carriage_return then newline else c) (replace_cr s)
  end.

Definition MAX_SSE_BUFFER_BYTES : Z := 1048576.

Definition sse_field (line field : string) : option string :=
  rest ← strip_prefix field line;
  rest ← strip_prefix ":" rest;
  Some (default rest (strip_prefix " " rest)).

Definition stream_error_message (value : Json) : option string :=
  error ← get "error" value;
  match as_str error with
  | Some message => Some message
  | None => match get_str "message" error with
    | Some message => Some message
    | None => Some (default "upstream stream error" (get_str "message" value))
    end
  end.

(** The event name and the data lines of a frame. *)
Fixpoint frame_fields (event : option string) (data : list string) (l : list string)
  : option string * list string :=
  match l with
  | [] => (event, data)
  | line :: l =>
      if is_empty line || starts_with ":" line then frame_fields event data l
      else match sse_field line "event" with
      | Some value => frame_fields (Some value) data l
      | None => match sse_field line "data" with
        | Some value => frame_fields event (data ++ [value]) l
        | None => frame_fields event data l
        end
      end
  end.

Section Sse.
(** [serde_json::from_str], with the text of its error. *)
Context (parse_json : string -> result Json string).

Definition parse_sse_frame (frame : string) : result (option Json) string :=
  let '(event, data_lines) := frame_fields None [] (lines frame) in
  if bool_decide (data_lines = []) then Ok None
  else
    let data := trim (join nl data_lines) in
    if is_empty data || str_eqb data "[DONE]" then Ok None
    else match parse_json data with
    | Err e => Err ("malformed SSE JSON frame: " ^^ e)
    | Ok value =>
        if bool_decide (event = Some "error")
        then Err (default "upstream stream error event" (stream_error_message value))
        else match stream_error_message value with
        | Some message => Err message
        | None => Ok (Some value)
        end
    end.

(** The loop over the complete frames of the buffer: what is left of it, and the
    values or the first error. *)
Fixpoint drain_frames (fuel : nat) (buffer : string) (out : list Json)
  : string * result (list Json) string :=
  match fuel with
  | O => (buffer, Ok out)
  | S fuel =>
      match split_once (nl ^^ nl) buffer with
      | None => (buffer, Ok out)
      | Some (frame, rest) =>
          match parse_sse_frame (frame ^^ nl ^^ nl) with
          | Err e => (rest, Err e)
          | Ok None => drain_frames fuel rest out
          | Ok (Some value) => drain_frames fuel rest (out ++ [value])
          end
      end
  end.

(** [SseFramer::push]; the framer is its buffer. *)
Definition sse_push (buffer bytes : string) : string * result (list Json) string :=
  let buffer := buffer ^^ replace_cr (replace_crlf (from_utf8_lossy bytes)) in
  if MAX_SSE_BUFFER_BYTES <? byte_len buffer
  then (buffer, Err ("SSE frame buffer exceeded " ^^ fmt_int MAX_SSE_BUFFER_BYTES ^^ " bytes"))
  else drain_frames (String.length buffer) buffer [].

End Sse.

(** ** AWS event stream *)

Definition MAX_EVENT_STREAM_MESSAGE_BYTES : Z := 16 * 1024 * 1024.
Definition MAX_EVENT_STREAM_BUFFER_BYTES : Z := 2 * MAX_EVENT_STREAM_MESSAGE_BYTES.

Record EventMessage := mkEventMessage {
  em_headers : list (string * string);
  em_payload : string
}.

Definition header (m : EventMessage) (name : string) : option string :=
  snd <$> List.find (fun kv => str_eqb kv.1 name) (em_headers m).

(** Every turn of the loop consumes at least two bytes, so the length is enough. *)
Fixpoint parse_headers_fuel (fuel : nat) (slice : string) : result (list (string * string)) string :=
  match fuel, slice with
  | S fuel, String c slice' =>
      if is_empty slice' then Err "event-stream: truncated header"
      else
        let name_len := Z.to_nat (byte_val c) in
        if (String.length slice' <? name_len + 1)%nat then Err "event-stream: truncated header name"
        else
          let name := from_utf8_lossy (first_bytes name_len slice') in
          let rest := drop_bytes name_len slice' in
          let value_type := read_be 1 0 rest in
          let rest := drop_bytes 1 rest in
          if negb (value_type =? 7)
          then Err ("event-stream: unsupported header value type " ^^ fmt_int value_type)
          else if (String.length rest <? 2)%nat then Err "event-stream: truncated header value length"
          else
            let value_len := Z.to_nat (read_u16_be rest) in
            let rest := drop_bytes 2 rest in
            if (String.length rest <? value_len)%nat then Err "event-stream: truncated header value"
            else
              let value := from_utf8_lossy (first_bytes value_len rest) in
              let? headers := parse_headers_fuel fuel (drop_bytes value_len rest) in
              Ok ((name, value) :: headers)
  | _, _ => Ok []
  end.

Definition parse_headers (slice : string) : result (list (string * string)) string :=
  parse_headers_fuel (String.length slice) slice.

(** [{:08x}] of a 32-bit number. *)
Definition fmt_hex8 (n : Z) : string :=
  String.concat EmptyString
    ((fun i => String (hex_digit (Z.land (Z.shiftr n (4 * i)) 15)) EmptyString)
     <$> [7; 6; 5; 4; 3; 2; 1; 0]).

Section EventStream.
Context (crc32 : string -> Z).

(** [next_message]: the buffer afterwards, and [None] when more bytes are needed. *)
Definition next_message (buf : string) : string * option (result EventMessage string) :=
  let exceeded := (EmptyString, Some (Err ("event-stream: buffer exceeded "
                     ^^ fmt_int MAX_EVENT_STREAM_BUFFER_BYTES ^^ " bytes"))) in
  if byte_len buf <? 12 then
    if MAX_EVENT_STREAM_BUFFER_BYTES <? byte_len buf then exceeded else (buf, None)
  else
    let total_len := read_u32_be buf in
    let headers_len := read_u32_be (drop_bytes 4 buf) in
    if (total_len <? 16) || (sat_sub total_len 16 <? headers_len)
    then (EmptyString, Some (Err ("event-stream: bad lengths total=" ^^ fmt_int total_len
                                    ^^ " headers=" ^^ fmt_int headers_len)))
    else
      let expected := read_u32_be (drop_bytes 8 buf) in
      let actual := crc32 (first_bytes 8 buf) in
      if negb (actual =? expected)
      then (EmptyString, Some (Err ("event-stream: prelude CRC mismatch expected=" ^^ fmt_hex8 expected
                                      ^^ " actual=" ^^ fmt_hex8 actual)))
      else if MAX_EVENT_STREAM_MESSAGE_BYTES <? total_len
      then (EmptyString, Some (Err ("event-stream: message length " ^^ fmt_int total_len
                                      ^^ " exceeds max " ^^ fmt_int MAX_EVENT_STREAM_MESSAGE_BYTES)))
      else if byte_len buf <? total_len then
        if MAX_EVENT_STREAM_BUFFER_BYTES <? byte_len buf then exceeded else (buf, None)
      else
        let total := Z.to_nat total_len in
        let rest := drop_bytes total buf in
        let message := first_bytes total buf in
        let expected := read_u32_be (drop_bytes (total - 4) message) in
        let actual := crc32 (first_bytes (total - 4) message) in
        if negb (actual =? expected)
        then (rest, Some (Err ("event-stream: message CRC mismatch expected=" ^^ fmt_hex8 expected
                                 ^^ " actual=" ^^ fmt_hex8 actual)))
        else
          let headers_end := (12 + Z.to_nat headers_len)%nat in
          match parse_headers (first_bytes (Z.to_nat headers_len) (drop_bytes 12 message)) with
          | Err e => (rest, Some (Err e))
          | Ok headers =>
              (rest, Some (Ok (mkEventMessage headers
                 (first_bytes (total - 4 - headers_end) (drop_bytes headers_end message)))))
          end.

(** [serde_json::from_slice] and base64 decoding. *)
Context (parse_json : string -> option Json) (base64_decode : string -> option string).

(** [s.ends_with(suffix)] after lower-casing. *)
Fixpoint ends_with (suffix s : string) : bool :=
  String.eqb suffix s || match s with EmptyString => false | String _ s => ends_with suffix s end.

Fixpoint first_field (fields : list string) (value : Json) : option string :=
  match fields with
  | [] => None
  | f :: fields => or_else (get_str f value) (first_field fields value)
  end.

Definition event_stream_error_message (payload : string) : option string :=
  parse_json payload ≫= first_field ["message"; "Message"; "errorMessage"; "originalMessage"].

Definition event_stream_error (m : EventMessage) : option string :=
  let event_type := header m ":event-type" in
  let is_exception := bool_decide (header m ":message-type" = Some "exception")
    || match event_type with
       | Some kind => ends_with "exception" (to_ascii_lowercase kind)
       | None => false
       end in
  if negb is_exception then None
  else Some ("bedrock stream " ^^ default "exception" event_type ^^ ": "
             ^^ default "upstream stream error" (event_stream_error_message (em_payload m))).

Definition unwrap_chunk (payload : string) : option Json :=
  wrapper ← parse_json payload;
  b64 ← get_str "bytes" wrapper;
  raw ← base64_decode b64;
  parse_json raw.

(** The loop of [EventStreamFramer::push]. Every message takes at least sixteen
    bytes, so the length of the buffer is enough. *)
Fixpoint drain_messages (fuel : nat) (buf : string) (out : list Json)
  : string * result (list Json) string :=
  match fuel with
  | O => (buf, Ok out)
  | S fuel =>
      match next_message buf with
      | (buf, None) => (buf, Ok out)
      | (buf, Some (Err e)) => (buf, Err e)
      | (buf, Some (Ok m)) =>
          match event_stream_error m with
          | Some e => (buf, Err e)
          | None => drain_messages fuel buf (out ++ option_list (unwrap_chunk (em_payload m)))
          end
      end
  end.

Definition event_stream_push (buf bytes : string) : string * result (list Json) string :=
  let buf := buf ^^ bytes in drain_messages (String.length buf) buf [].

End EventStream.
