(* ===== verification/FramingTheorems.v ===== *)
(** * Framing: theorems

    What is decoded of an upstream stream does not depend on how the network cut
    it into chunks: always for the binary event stream, and for text frames when
    no chunk ends inside a character or between carriage return and line feed.
    Both framers are instances of one loop, over the class [FrameStep]. *)

From Stdlib Require Import ZArith Lia Ascii.
From stdpp Require Import base list strings option.
From S2P Require Import Prelude Text Lines BTree Float Ir Value Access Framing.

#[local] Open Scope Z_scope.
#[local] Open Scope switchback_scope.

(** ** Strings *)

Lemma first_drop n s : first_bytes n s ^^ drop_bytes n s = s.
Proof. revert s. induction n; intros [|c s]; [done..|]. apply (f_equal (String c)), IHn. Qed.

Lemma length_first n s : (n <= String.length s)%nat -> String.length (first_bytes n s) = n.
Proof. revert s. induction n; intros [|c s] H; simpl in *; [done|done|lia|]. rewrite IHn; lia. Qed.

Lemma first_app n a b : (n <= String.length a)%nat -> first_bytes n (a ^^ b) = first_bytes n a.
Proof.
  revert a. induction n; intros [|c a] H; simpl in *; [by destruct b|done|lia|]. by rewrite IHn by lia.
Qed.

Lemma drop_app n a b : (n <= String.length a)%nat -> drop_bytes n (a ^^ b) = drop_bytes n a ^^ b.
Proof.
  revert a. induction n; intros [|c a] H; simpl in *; [by destruct b|done|lia|]. apply IHn. lia.
Qed.

Lemma length_drop n s : String.length (drop_bytes n s) = (String.length s - n)%nat.
Proof. revert s. induction n; intros [|c s]; simpl; [done..|]. apply IHn. Qed.

Lemma read_be_app n : forall acc a b,
  (n <= String.length a)%nat -> read_be n acc (a ^^ b) = read_be n acc a.
Proof.
  induction n; intros acc [|c a] b H; simpl in *; [by destruct b|done|lia|]. apply IHn. lia.
Qed.

(** ** A framer cuts one frame after the other *)

(** What a framer does with its buffer: [None] if it holds no whole frame,
    otherwise the rest and the values of the frame, or an error. More bytes do not
    change a frame that is whole. *)
Class FrameStep (step : string -> option (string * result (list Json) string)) : Prop := {
  step_empty : step EmptyString = None;
  step_shrinks : forall b r vs, step b = Some (r, Ok vs) -> (String.length r < String.length b)%nat;
  step_more : forall b r vs m, step b = Some (r, Ok vs) -> step (b ^^ m) = Some (r ^^ m, Ok vs);
  step_error : forall b r e m, step b = Some (r, Err e) -> exists r', step (b ^^ m) = Some (r', Err e)
}.

Section Drain.
Context (step : string -> option (string * result (list Json) string)) `{!FrameStep step}.

Fixpoint drain (fuel : nat) (buf : string) (out : list Json) : string * result (list Json) string :=
  match fuel with
  | O => (buf, Ok out)
  | S fuel =>
      match step buf with
      | None => (buf, Ok out)
      | Some (rest, Err e) => (rest, Err e)
      | Some (rest, Ok vs) => drain fuel rest (out ++ vs)
      end
  end.

Lemma drain_fuel f1 : forall f2 buf out,
  (String.length buf <= f1)%nat -> (String.length buf <= f2)%nat ->
  drain f1 buf out = drain f2 buf out.
Proof.
  induction f1 as [|f1 IH]; intros f2 buf out H1 H2.
  - destruct buf; [|simpl in H1; lia]. destruct f2; simpl; [done|]. by rewrite step_empty.
  - destruct f2 as [|f2]; simpl.
    + destruct buf; [|simpl in H2; lia]. by rewrite step_empty.
    + destruct (step buf) as [[r [vs|e]]|] eqn:E; [|done..].
      apply step_shrinks in E. apply IH; lia.
Qed.

Lemma drain_out fuel : forall buf out,
  drain fuel buf out = match drain fuel buf [] with
                       | (b, Ok vs) => (b, Ok (out ++ vs))
                       | (b, Err e) => (b, Err e)
                       end.
Proof.
  induction fuel as [|fuel IH]; intros buf out; simpl; [by rewrite app_nil_r|].
  destruct (step buf) as [[r [vs|e]]|]; [|done|by rewrite app_nil_r].
  rewrite (IH r (out ++ vs)), (IH r vs). destruct (drain fuel r []) as [b [ws|e]]; [|done].
  by rewrite app_assoc.
Qed.

(** Draining, with more bytes, what one push leaves. *)
Lemma drain_more fuel : forall buf m out f2,
  (String.length buf <= fuel)%nat -> (String.length (buf ^^ m) <= f2)%nat ->
  match drain fuel buf out with
  | (b, Ok vs) => drain f2 (buf ^^ m) out = drain f2 (b ^^ m) vs
                  /\ (String.length b <= String.length buf)%nat
  | (_, Err e) => exists b, drain f2 (buf ^^ m) out = (b, Err e)
  end.
Proof.
  induction fuel as [|fuel IH]; intros buf m out f2 Hf Hf2; simpl; [done|].
  destruct (step buf) as [[r x]|] eqn:E; [|done].
  destruct x as [vs|e].
  - pose proof (step_shrinks _ _ _ E) as Hs. pose proof (step_more _ _ _ m E) as Em.
    destruct f2 as [|f2]; [rewrite length_append in Hf2; lia|].
    specialize (IH r m (out ++ vs) f2). rewrite !length_append in *.
    destruct (drain fuel r (out ++ vs)) as [b [ws|e]].
    + destruct IH as [IH Hb]; [lia|lia|]. split; [|lia]. simpl. rewrite Em, IH.
      change (match step (b ^^ m) with
              | Some (rest, Ok vs0) => drain f2 rest (ws ++ vs0)
              | Some (rest, Err e) => (rest, Err e)
              | None => (b ^^ m, Ok ws)
              end) with (drain (S f2) (b ^^ m) ws).
      apply drain_fuel; rewrite length_append; lia.
    + simpl. rewrite Em. apply IH; lia.
  - destruct (step_error _ _ _ m E) as [r' Em]. destruct f2 as [|f2].
    + destruct buf; [by rewrite step_empty in E|]. simpl in Hf2. lia.
    + simpl. rewrite Em. by eexists.
Qed.

End Drain.

(** ** Chunks *)

(** The read loop of a stream: push chunk after chunk, up to the first error. *)
Fixpoint push_all {S} (push : S -> string -> S * result (list Json) string) (st : S)
    (chunks : list string) : S * result (list Json) string :=
  match chunks with
  | [] => (st, Ok [])
  | c :: chunks =>
      match push st c with
      | (st, Err e) => (st, Err e)
      | (st, Ok vs) =>
          match push_all push st chunks with
          | (st, Ok ws) => (st, Ok (vs ++ ws))
          | (st, Err e) => (st, Err e)
          end
      end
  end.

Definition concat_all (l : list string) : string := foldr String.append EmptyString l.

Section Chunks.
Context (step : string -> option (string * result (list Json) string)) `{!FrameStep step}.

Definition drain_all (buf : string) : string * result (list Json) string :=
  drain step (String.length buf) buf [].

Definition push_step (buf bytes : string) : string * result (list Json) string :=
  drain_all (buf ^^ bytes).

(** The same values, the same rest, or the same error. *)
Definition agree (a b : string * result (list Json) string) : Prop :=
  match a, b with
  | (b1, Ok vs), (b2, Ok ws) => b1 = b2 /\ vs = ws
  | (_, Err e1), (_, Err e2) => e1 = e2
  | _, _ => False
  end.

Lemma agree_refl a : agree a a.
Proof. destruct a as [? [?|?]]; simpl; done. Qed.

Lemma drain_all_app a b :
  agree (match drain_all a with
         | (r, Ok vs) => match drain_all (r ^^ b) with
                         | (r', Ok ws) => (r', Ok (vs ++ ws))
                         | (r', Err e) => (r', Err e)
                         end
         | (r, Err e) => (r, Err e)
         end) (drain_all (a ^^ b)).
Proof.
  unfold drain_all at 1 3.
  pose proof (drain_more step (String.length a) a b [] (String.length (a ^^ b))) as H.
  destruct (drain step (String.length a) a []) as [r [vs|e]].
  - destruct H as [H Hr]; [lia|lia|]. rewrite H, (drain_out step _ _ vs).
    unfold drain_all. rewrite (drain_fuel step (String.length (a ^^ b)) (String.length (r ^^ b)));
      [|rewrite !length_append; lia|lia].
    apply agree_refl.
  - destruct H as [r' ->]; [lia|lia|]. done.
Qed.

Lemma push_all_whole chunks : forall buf, drain_all buf = (buf, Ok []) ->
  agree (push_all push_step buf chunks) (push_step buf (concat_all chunks)).
Proof.
  induction chunks as [|c chunks IH]; intros buf Hbuf; simpl.
  { unfold push_step. rewrite append_nil_r, Hbuf. done. }
  unfold push_step at 1 3. rewrite <- append_assoc.
  pose proof (drain_all_app (buf ^^ c) (concat_all chunks)) as Hd.
  destruct (drain_all (buf ^^ c)) as [r [vs|e]] eqn:E; [|done].
  assert (Hr : drain_all r = (r, Ok [])).
  { pose proof (drain_all_app (buf ^^ c) EmptyString) as H. rewrite E, !append_nil_r, E in H.
    destruct (drain_all r) as [r' [ws|e]] eqn:E'; simpl in H; [|done].
    destruct H as [-> Hw]. f_equal. f_equal. apply (f_equal length) in Hw.
    rewrite length_app in Hw. destruct ws; [done|simpl in Hw; lia]. }
  specialize (IH r Hr). unfold push_step in IH at 2.
  destruct (push_all push_step r chunks) as [r1 [ws|e]];
    destruct (drain_all (r ^^ concat_all chunks)) as [r2 [us|e']];
    destruct (drain_all ((buf ^^ c) ^^ concat_all chunks)) as [r3 [xs|e'']]; simpl in *;
    try done.
  - destruct IH as [-> ->]. done.
  - congruence.
Qed.

End Chunks.

(** ** Text frames *)

Lemma strip_prefix_more p s r m : strip_prefix p s = Some r -> strip_prefix p (s ^^ m) = Some (r ^^ m).
Proof. rewrite !strip_prefix_spec. intros ->. apply append_assoc. Qed.

Lemma strip_prefix_none p : forall s m, (String.length p <= String.length s)%nat ->
  strip_prefix p s = None -> strip_prefix p (s ^^ m) = None.
Proof.
  induction p as [|a p IH]; intros [|b s] m Hl H; simpl in *; try done; [lia|].
  destruct (Ascii.eqb a b); [|done]. apply IH; [lia|done].
Qed.

Lemma split_once_more sep s a b m :
  split_once sep s = Some (a, b) -> split_once sep (s ^^ m) = Some (a, b ^^ m).
Proof.
  revert a b. induction s as [|c s IH]; intros a b; cbn [split_once].
  - destruct (strip_prefix sep EmptyString) as [r|] eqn:E; intros [= <- <-].
    apply strip_prefix_spec in E. destruct sep, r; [|done..]. by destruct m.
  - destruct (strip_prefix sep (String c s)) as [r|] eqn:E.
    + intros [= <- <-]. apply strip_prefix_more with (m := m) in E.
      change (String c s ^^ m) with (String c (s ^^ m)) in *. cbn [split_once]. by rewrite E.
    + destruct (split_once sep s) as [[a' b']|] eqn:Es; [|done]. intros [= <- <-].
      apply strip_prefix_none with (m := m) in E.
      * change (String c s ^^ m) with (String c (s ^^ m)) in *. cbn [split_once].
        by rewrite E, (IH a' b').
      * apply split_once_spec in Es as ->. simpl. rewrite !length_append. lia.
Qed.

Section Sse.
Context (parse_json : string -> result Json string).

Definition sse_step (b : string) : option (string * result (list Json) string) :=
  '(frame, rest) ← split_once (nl ^^ nl) b;
  Some (rest, match parse_sse_frame parse_json (frame ^^ nl ^^ nl) with
              | Ok v => Ok (option_list v)
              | Err e => Err e
              end).

#[export] Instance sse_step_frames : FrameStep sse_step.
Proof.
  split.
  - done.
  - intros b r vs. unfold sse_step. destruct (split_once (nl ^^ nl) b) as [[f rest]|] eqn:E; [|done].
    simpl. intros [= -> _]. apply split_once_spec in E as ->. rewrite !length_append. simpl. lia.
  - intros b r vs m. unfold sse_step. destruct (split_once (nl ^^ nl) b) as [[f rest]|] eqn:E; [|done].
    apply split_once_more with (m := m) in E. rewrite E. simpl. by intros [= -> ->].
  - intros b r e m. unfold sse_step. destruct (split_once (nl ^^ nl) b) as [[f rest]|] eqn:E; [|done].
    apply split_once_more with (m := m) in E. rewrite E. simpl. intros [= -> ->]. by eexists.
Qed.

Lemma drain_frames_drain fuel : forall buf out,
  drain_frames parse_json fuel buf out = drain sse_step fuel buf out.
Proof.
  induction fuel as [|fuel IH]; intros buf out; [done|]. cbn [drain_frames drain]. unfold sse_step at 1.
  destruct (split_once (nl ^^ nl) buf) as [[f rest]|]; [|done]. simpl.
  destruct (parse_sse_frame parse_json (f ^^ nl ^^ nl)) as [[v|]|e]; simpl; [apply IH| |done].
  by rewrite app_nil_r.
Qed.

End Sse.

(** *** Where a text may be cut *)

(** Only whole characters. *)
Fixpoint valid_utf8_fuel (fuel : nat) (s : string) : bool :=
  match fuel, s with
  | S fuel, String b s' =>
      let '(n, valid) := utf8_sequence b s' in valid && valid_utf8_fuel fuel (drop_bytes n s)
  | _, _ => true
  end.

Definition valid_utf8 (s : string) : bool := valid_utf8_fuel (String.length s) s.

Fixpoint ends_in_cr (s : string) : bool :=
  match s with
  | EmptyString => false
  | String c EmptyString => Ascii.eqb c carriage_return
  | String _ s => ends_in_cr s
  end.

(** A chunk that ends neither inside a character nor between the two bytes of a
    line end. *)
Definition clean_cut (chunk : string) : bool := valid_utf8 chunk && negb (ends_in_cr chunk).

Lemma continued_le n s : (continued n s <= n)%nat /\ (continued n s <= String.length s)%nat.
Proof.
  revert s. induction n; intros [|c s]; simpl; [lia..|].
  destruct (continuation c); [|lia]. destruct (IHn s). lia.
Qed.

Lemma continued_app n : forall s m, continued n s = n -> continued n (s ^^ m) = n.
Proof.
  induction n; intros [|c s] m; simpl; [by destruct m|done|done|].
  destruct (continuation c); [|done]. intros H. f_equal. apply IHn. lia.
Qed.

Lemma utf8_sequence_pos b s : (1 <= (utf8_sequence b s).1 <= S (String.length s))%nat.
Proof.
  unfold utf8_sequence. destruct (byte_val b <? 128); [simpl; lia|].
  destruct (if in_range 194 223 b then _ else _) as [|more]; [simpl; lia|].
  destruct s as [|c s]; [simpl; lia|]. destruct (second_ok b c); [|simpl; lia].
  simpl. pose proof (continued_le more s). lia.
Qed.

Lemma utf8_sequence_app b s n m : utf8_sequence b s = (n, true) -> utf8_sequence b (s ^^ m) = (n, true).
Proof.
  unfold utf8_sequence. destruct (byte_val b <? 128); [done|].
  destruct (if in_range 194 223 b then _ else _) as [|more]; [done|].
  destruct s as [|c s]; [done|]. change (String c s ^^ m) with (String c (s ^^ m)).
  destruct (second_ok b c) eqn:Es; [|done]. intros [= <- Hc%bool_decide_eq_true].
  cbv iota zeta. rewrite Es. rewrite (continued_app _ _ _ Hc), Hc. f_equal. by apply bool_decide_eq_true_2.
Qed.

Lemma utf8_lossy_fuel_enough f1 : forall f2 s,
  (String.length s <= f1)%nat -> (String.length s <= f2)%nat ->
  utf8_lossy_fuel f1 s = utf8_lossy_fuel f2 s.
Proof.
  induction f1 as [|f1 IH]; intros f2 [|b s] H1 H2; try (by destruct f2); simpl in *; [lia|].
  destruct f2 as [|f2]; [lia|]. pose proof (utf8_sequence_pos b s) as Hp. simpl.
  destruct (utf8_sequence b s) as [n v]. simpl in Hp. f_equal.
  pose proof (length_drop n (String b s)) as Hl. simpl in Hl. apply IH; lia.
Qed.

Lemma utf8_lossy_valid fuel : forall s m f2,
  (String.length s <= fuel)%nat -> (String.length (s ^^ m) <= f2)%nat ->
  valid_utf8_fuel fuel s = true ->
  utf8_lossy_fuel f2 (s ^^ m) = s ^^ from_utf8_lossy m.
Proof.
  induction fuel as [|fuel IH]; intros [|b s] m f2 Hf H2 Hv; try (simpl in Hf; lia);
    try (by apply utf8_lossy_fuel_enough).
  simpl in Hv. destruct (utf8_sequence b s) as [n v] eqn:E. apply andb_prop in Hv as [-> Hv].
  pose proof (utf8_sequence_pos b s) as Hp. rewrite E in Hp. simpl in Hp.
  change (String b s ^^ m) with (String b (s ^^ m)) in *. destruct f2 as [|f2]; [simpl in H2; lia|].
  cbn [utf8_lossy_fuel]. rewrite (utf8_sequence_app _ _ _ _ E).
  change (String b (s ^^ m)) with (String b s ^^ m).
  rewrite first_app by (simpl; lia). rewrite drop_app by (simpl; lia).
  pose proof (length_drop n (String b s)) as Hl. simpl in Hl, Hf, H2.
  rewrite (IH (drop_bytes n (String b s)) m f2); [|lia|rewrite length_append in *; lia|done].
  by rewrite <- append_assoc, first_drop.
Qed.

Lemma from_utf8_lossy_app a b :
  valid_utf8 a = true -> from_utf8_lossy (a ^^ b) = a ^^ from_utf8_lossy b.
Proof. intros. by eapply utf8_lossy_valid. Qed.

Lemma replace_cr_app a b : replace_cr (a ^^ b) = replace_cr a ^^ replace_cr b.
Proof. induction a as [|c a IH]; [done|]. apply (f_equal (String _)), IH. Qed.

Lemma replace_crlf_app a b :
  ends_in_cr a = false -> replace_crlf (a ^^ b) = replace_crlf a ^^ replace_crlf b.
Proof.
  remember (String.length a) as n eqn:Hn. revert a Hn.
  induction (lt_wf n) as [n _ IH]; intros a -> He.
  destruct a as [|c [|d a]]; [done| |].
  - simpl in He. change (String c EmptyString ^^ b) with (String c b). cbn [replace_crlf].
    destruct b as [|d b]; [done|]. by rewrite He.
  - change (String c (String d a) ^^ b) with (String c (String d (a ^^ b))). cbn [replace_crlf].
    destruct (Ascii.eqb c carriage_return && Ascii.eqb d newline) eqn:E.
    + apply andb_prop in E as [_ Ed]. apply (f_equal (String newline)). apply (IH (String.length a)); [simpl; lia|done|].
      destruct a; [done|exact He].
    + apply (f_equal (String c)). apply (IH (String.length (String d a)) ltac:(simpl; lia) (String d a)); done.
Qed.

(** The text a framer works on. *)
Definition normal_text (bytes : string) : string := replace_cr (replace_crlf (from_utf8_lossy bytes)).

Lemma normal_text_app a b : clean_cut a = true -> normal_text (a ^^ b) = normal_text a ^^ normal_text b.
Proof.
  unfold clean_cut, normal_text. intros [Hv He%negb_true_iff]%andb_prop.
  rewrite from_utf8_lossy_app by done. rewrite replace_crlf_app by done. rewrite replace_cr_app.
  f_equal. f_equal. f_equal.
  pose proof (from_utf8_lossy_app a EmptyString Hv) as H. rewrite append_nil_r in H. rewrite H.
  change (from_utf8_lossy EmptyString) with EmptyString. by rewrite append_nil_r.
Qed.

Lemma normal_text_concat chunks :
  forallb clean_cut chunks = true -> normal_text (concat_all chunks) = concat_all (normal_text <$> chunks).
Proof.
  induction chunks as [|c chunks IH]; [done|]. simpl. intros [Hc Hr]%andb_prop.
  by rewrite normal_text_app, IH.
Qed.

Section SseChunks.
Context (parse_json : string -> result Json string).

(** What a push leaves is the end of the buffer, and no blank line is in it. *)
Lemma sse_step_drained fuel : forall b out r vs,
  (String.length b <= fuel)%nat -> drain (sse_step parse_json) fuel b out = (r, Ok vs) ->
  (exists x, b = x ^^ r) /\ split_once (nl ^^ nl) r = None.
Proof.
  induction fuel as [|fuel IH]; intros b out r vs Hf H; cbn [drain] in H.
  { injection H as <- _. destruct b; [|simpl in Hf; lia]. by split; [exists EmptyString|]. }
  destruct (sse_step parse_json b) as [[rest x]|] eqn:E; unfold sse_step in E;
    destruct (split_once (nl ^^ nl) b) as [[frame rest']|] eqn:Es; try done; cbn in E.
  - injection E as -> <-. apply split_once_spec in Es. destruct (parse_sse_frame parse_json _) as [v|e]; [|done].
    rewrite Es, !length_append in Hf. cbn [String.length nl] in Hf.
    apply IH in H as [[y ->] Hr]; [|lia]. split; [|done].
    exists (frame ^^ (nl ^^ nl) ^^ y). by rewrite Es, !append_assoc.
  - injection H as <- _. by split; [exists EmptyString|].
Qed.

(** The frames of a whole text. *)
Definition sse_whole (text : string) : string * result (list Json) string :=
  drain_frames parse_json (String.length text) text [].

Definition sse_overflow : string :=
  "SSE frame buffer exceeded " ^^ fmt_int MAX_SSE_BUFFER_BYTES ^^ " bytes".

Lemma sse_push_cases buf bytes :
  sse_push parse_json buf bytes = push_step (sse_step parse_json) buf (normal_text bytes)
  \/ ((sse_push parse_json buf bytes).2 = Err sse_overflow
      /\ MAX_SSE_BUFFER_BYTES < byte_len buf + byte_len (normal_text bytes)).
Proof.
  unfold sse_push. fold (normal_text bytes).
  destruct (Z.ltb_spec MAX_SSE_BUFFER_BYTES (byte_len (buf ^^ normal_text bytes))) as [H|H].
  - right. split; [done|]. revert H. unfold byte_len. rewrite length_append. lia.
  - left. apply drain_frames_drain.
Qed.

(** At some place of a text, the part of a frame that has arrived and one of the
    chunks, which comes next, are more than the buffer takes. *)
Definition overfull (text : string) (chunks : list string) : Prop :=
  exists x r c y, text = x ^^ r ^^ normal_text c ^^ y /\ split_once (nl ^^ nl) r = None /\ c ∈ chunks
    /\ MAX_SSE_BUFFER_BYTES < byte_len r + byte_len (normal_text c).

Lemma overfull_long text chunks : overfull text chunks -> MAX_SSE_BUFFER_BYTES < byte_len text.
Proof. intros (x & r & c & y & -> & _ & _ & H). unfold byte_len in *. rewrite !length_append. lia. Qed.

Lemma sse_push_all_cases chunks : forall buf,
  split_once (nl ^^ nl) buf = None ->
  push_all (sse_push parse_json) buf chunks
    = push_all (push_step (sse_step parse_json)) buf (normal_text <$> chunks)
  \/ ((push_all (sse_push parse_json) buf chunks).2 = Err sse_overflow
      /\ overfull (buf ^^ concat_all (normal_text <$> chunks)) chunks).
Proof.
  induction chunks as [|c chunks IH]; intros buf Hbuf; [by left|]. rewrite fmap_cons. cbn [push_all concat_all foldr].
  fold (concat_all (normal_text <$> chunks)).
  destruct (sse_push_cases buf c) as [->|[He Hl]].
  - destruct (push_step (sse_step parse_json) buf (normal_text c)) as [r [vs|e]] eqn:E; [|by left].
    apply sse_step_drained in E as [[x E] Hr]; [|done].
    destruct (IH r Hr) as [->|[He (x' & r' & c' & y' & Ht & Hr' & Hc' & Hl')]]; [by left|right].
    destruct (push_all (sse_push parse_json) r chunks) as [r1 [ws|e]]; simpl in *; [done|].
    split; [done|]. exists (x ^^ x'), r', c', y'. rewrite <- (append_assoc buf), E, !append_assoc, Ht.
    split; [done|]. split; [done|]. split; [by right|done].
  - right. destruct (sse_push parse_json buf c) as [r [vs|e]]; simpl in *; [done|].
    split; [done|]. exists EmptyString, buf, c, (concat_all (normal_text <$> chunks)).
    split; [done|]. split; [done|]. split; [by left|done].
Qed.

(** Text framing does not depend on how the network cuts the
    stream: if no chunk ends inside a character or between carriage return and
    line feed, pushing the chunks one by one gives the values and the rest that
    parsing the whole text gives, or its error; the only other error is that the
    buffer is full, and then a chunk and the part of a frame before it are more
    than it takes. *)
Theorem sse_chunking chunks :
  forallb clean_cut chunks = true ->
  let text := normal_text (concat_all chunks) in
  match push_all (sse_push parse_json) EmptyString chunks with
  | (rest, Ok values) => sse_whole text = (rest, Ok values)
  | (_, Err e) => (sse_whole text).2 = Err e \/ (e = sse_overflow /\ overfull text chunks)
  end.
Proof.
  intros Hc text. subst text. rewrite normal_text_concat by done. unfold sse_whole.
  rewrite drain_frames_drain.
  pose proof (push_all_whole (sse_step parse_json) (normal_text <$> chunks) EmptyString eq_refl) as Hw.
  unfold push_step in Hw at 2. simpl in Hw. unfold drain_all in Hw.
  destruct (sse_push_all_cases chunks EmptyString eq_refl) as [->|[He Hl]].
  - destruct (push_all _ _ (normal_text <$> chunks)) as [r [vs|e]];
      destruct (drain _ _ _ _) as [r' [ws|e']]; simpl in Hw; [|done|done|].
    + by destruct Hw as [-> ->].
    + left. by subst e'.
  - destruct (push_all (sse_push parse_json) EmptyString chunks) as [r [vs|e]]; simpl in He; [done|].
    right. split; [congruence|done].
Qed.

End SseChunks.

(** ** Binary messages *)

Section EventStreamChunks.
Context (crc32 : string -> Z) (parse_json : string -> option Json)
        (base64_decode : string -> option string).

Lemma next_message_none b b' : next_message crc32 b = (b', None) -> b' = b.
Proof.
  unfold next_message. cbv zeta. intros H.
  repeat match type of H with context [if ?c then _ else _] => destruct c; simplify_eq; try done end.
  by destruct (parse_headers _).
Qed.

(** A message that is whole, or malformed, stays so when more bytes arrive. *)
Lemma next_message_more b r x m :
  next_message crc32 b = (r, Some x) ->
  match x with
  | Ok _ => next_message crc32 (b ^^ m) = (r ^^ m, Some x) /\ (String.length r < String.length b)%nat
  | Err _ => exists r', next_message crc32 (b ^^ m) = (r', Some x)
  end.
Proof.
  intros H. unfold next_message in H. cbv zeta in H.
  destruct (Z.ltb_spec (byte_len b) 12) as [Hlt|Hge].
  { destruct (Z.ltb_spec MAX_EVENT_STREAM_BUFFER_BYTES (byte_len b)); [|done].
    unfold MAX_EVENT_STREAM_BUFFER_BYTES, MAX_EVENT_STREAM_MESSAGE_BYTES in *. lia. }
  unfold byte_len in Hge.
  assert (Hge' : (byte_len (b ^^ m) <? 12) = false).
  { apply Z.ltb_ge. unfold byte_len. rewrite length_append. lia. }
  unfold next_message. cbv zeta. rewrite Hge'. unfold read_u32_be in *.
  rewrite !drop_app, first_app, !read_be_app by (rewrite ?length_drop; lia).
  destruct ((read_be 4 0 b <? 16) || _) eqn:Elen; [simplify_eq; by eexists|].
  destruct (negb (crc32 (first_bytes 8 b) =? _)); [simplify_eq; by eexists|].
  destruct (Z.ltb_spec MAX_EVENT_STREAM_MESSAGE_BYTES (read_be 4 0 b)); [simplify_eq; by eexists|].
  apply orb_false_elim in Elen as [Emin%Z.ltb_ge _].
  destruct (Z.ltb_spec (byte_len b) (read_be 4 0 b)) as [Hs|Hs].
  { destruct (Z.ltb_spec MAX_EVENT_STREAM_BUFFER_BYTES (byte_len b)); [|done].
    unfold MAX_EVENT_STREAM_BUFFER_BYTES in *. lia. }
  assert (Hs' : (byte_len (b ^^ m) <? read_be 4 0 b) = false).
  { apply Z.ltb_ge. unfold byte_len in *. rewrite length_append. lia. }
  unfold byte_len in Hs. rewrite Hs'. rewrite first_app, drop_app by lia.
  destruct (negb (crc32 _ =? _)); [simplify_eq; by eexists|].
  destruct (parse_headers _) as [hs|e]; simplify_eq; [|by eexists].
  split; [done|]. rewrite length_drop. lia.
Qed.

Definition event_step (b : string) : option (string * result (list Json) string) :=
  match next_message crc32 b with
  | (_, None) => None
  | (rest, Some (Err e)) => Some (rest, Err e)
  | (rest, Some (Ok m)) =>
      Some (rest, match event_stream_error parse_json m with
                  | Some e => Err e
                  | None => Ok (option_list (unwrap_chunk parse_json base64_decode (em_payload m)))
                  end)
  end.

#[export] Instance event_step_frames : FrameStep event_step.
Proof.
  split.
  - done.
  - intros b r vs. unfold event_step. destruct (next_message crc32 b) as [r' [[msg|e]|]] eqn:E; [|done..].
    apply next_message_more with (m := EmptyString) in E as [_ Hl]. destruct (event_stream_error _ msg); [done|].
    by intros [= <- _].
  - intros b r vs m. unfold event_step.
    destruct (next_message crc32 b) as [r' [[msg|e]|]] eqn:E; [|done..].
    apply next_message_more with (m := m) in E as [-> _].
    destruct (event_stream_error _ msg); [done|]. by intros [= -> ->].
  - intros b r e m. unfold event_step.
    destruct (next_message crc32 b) as [r' [[msg|e']|]] eqn:E; [| |done].
    + apply next_message_more with (m := m) in E as [-> _].
      destruct (event_stream_error _ msg); [|done]. intros [= -> ->]. by eexists.
    + apply next_message_more with (m := m) in E as [r'' ->]. intros [= -> ->]. by eexists.
Qed.

Lemma drain_messages_drain fuel : forall buf out,
  drain_messages crc32 parse_json base64_decode fuel buf out = drain event_step fuel buf out.
Proof.
  induction fuel as [|fuel IH]; intros buf out; [done|]. cbn [drain_messages drain]. unfold event_step at 1.
  destruct (next_message crc32 buf) as [r [[msg|e]|]] eqn:E; [|done|].
  - destruct (event_stream_error parse_json msg); [done|apply IH].
  - by apply next_message_none in E as ->.
Qed.

Lemma event_stream_agree chunks :
  agree (push_all (event_stream_push crc32 parse_json base64_decode) EmptyString chunks)
    (event_stream_push crc32 parse_json base64_decode EmptyString (concat_all chunks)).
Proof.
  assert (Hp : forall b c, event_stream_push crc32 parse_json base64_decode b c = push_step event_step b c).
  { intros b c. apply drain_messages_drain. }
  rewrite Hp. replace (push_all _ _ chunks) with (push_all (push_step event_step) EmptyString chunks).
  - by apply push_all_whole; [apply _|].
  - generalize EmptyString. induction chunks as [|c chunks IH]; intros b; [done|]. cbn [push_all].
    rewrite Hp. destruct (push_step event_step b c) as [r [vs|e]]; [|done]. by rewrite IH.
Qed.

(** Binary framing does not depend on how the network cuts the
    stream, wherever it cuts it: two ways of cutting the same bytes give the same
    values and the same rest, or the same error. *)
Theorem event_stream_chunking chunks chunks' :
  concat_all chunks = concat_all chunks' ->
  agree (push_all (event_stream_push crc32 parse_json base64_decode) EmptyString chunks)
    (push_all (event_stream_push crc32 parse_json base64_decode) EmptyString chunks').
Proof.
  intros E. pose proof (event_stream_agree chunks) as H. pose proof (event_stream_agree chunks') as H'.
  rewrite E in H. revert H H'. unfold agree.
  repeat match goal with |- context [match ?p with (_, _) => _ end] => destruct p as [? [?|?]] end;
    naive_solver congruence.
Qed.

End EventStreamChunks.

(** ** The event-stream format

    The format the module documentation of [crates/sb-adapters/src/event_stream.rs]
    describes, as an encoder, and the decoder against it; and concrete streams,
    among them those that show where text framing depends on the cuts. *)

#[local] Open Scope Z_scope.
#[local] Open Scope switchback_scope.

(** ** The format *)

Definition byte (z : Z) : ascii := ascii_of_N (Z.to_N z).

(** Big-endian numbers of [n] bytes. *)
Fixpoint be_bytes (n : nat) (z : Z) : string :=
  match n with
  | O => EmptyString
  | S n => String (byte ((z / 256 ^ Z.of_nat n) mod 256)) (be_bytes n z)
  end.

(** A header: a name and a value of type 7, a string. *)
Definition header_bytes (h : string * string) : string :=
  String (byte (byte_len h.1)) (h.1 ^^ String (byte 7) (be_bytes 2 (byte_len h.2) ^^ h.2)).

Definition headers_bytes (hs : list (string * string)) : string := concat_all (header_bytes <$> hs).

Section Format.
Context (crc32 : string -> Z).

Definition message_total (m : EventMessage) : Z :=
  16 + byte_len (headers_bytes (em_headers m)) + byte_len (em_payload m).

Definition prelude (m : EventMessage) : string :=
  be_bytes 4 (message_total m) ^^ be_bytes 4 (byte_len (headers_bytes (em_headers m))).

Definition message_body (m : EventMessage) : string :=
  prelude m ^^ be_bytes 4 (crc32 (prelude m)) ^^ headers_bytes (em_headers m) ^^ em_payload m.

Definition message_bytes (m : EventMessage) : string :=
  message_body m ^^ be_bytes 4 (crc32 (message_body m)).

(** What the format can express, within the limits of the decoder. *)
Definition header_fits (h : string * string) : bool :=
  (byte_len h.1 <? 256) && (byte_len h.2 <? 65536) && valid_utf8 h.1 && valid_utf8 h.2.

Definition message_fits (m : EventMessage) : bool :=
  forallb header_fits (em_headers m) && (message_total m <=? MAX_EVENT_STREAM_MESSAGE_BYTES).

(** ** Decoding what was encoded *)

Lemma byte_val_byte z : 0 <= z < 256 -> byte_val (byte z) = z.
Proof.
  intros H. unfold byte_val, byte. rewrite N_ascii_embedding by lia. lia.
Qed.

Lemma length_be n z : String.length (be_bytes n z) = n.
Proof. induction n; simpl; [done|]. by rewrite IHn. Qed.

Lemma read_be_bytes n : forall acc z s,
  read_be n acc (be_bytes n z ^^ s) = acc * 256 ^ Z.of_nat n + z mod 256 ^ Z.of_nat n.
Proof.
  induction n as [|n IH]; intros acc z s.
  { simpl be_bytes. simpl read_be. change (256 ^ Z.of_nat 0) with 1. rewrite Z.mod_1_r. destruct s; lia. }
  change (be_bytes (S n) z ^^ s) with (String (byte ((z / 256 ^ Z.of_nat n) mod 256)) (be_bytes n z ^^ s)).
  cbn [read_be]. rewrite IH, byte_val_byte by (apply Z.mod_pos_bound; lia).
  replace (Z.of_nat (S n)) with (Z.of_nat n + 1) by lia.
  rewrite Z.pow_add_r, Z.pow_1_r by lia. rewrite Z.rem_mul_r by (pose proof (Z.pow_pos_nonneg 256 (Z.of_nat n)); lia).
  ring.
Qed.

Lemma read_be_value n z s : 0 <= z < 256 ^ Z.of_nat n -> read_be n 0 (be_bytes n z ^^ s) = z.
Proof. intros H. rewrite read_be_bytes, Z.mod_small by done. lia. Qed.

Lemma drop_prefix a b n : n = String.length a -> drop_bytes n (a ^^ b) = b.
Proof.
  intros ->. rewrite drop_app by lia.
  assert (H : drop_bytes (String.length a) a = EmptyString) by (induction a; done).
  by rewrite H.
Qed.

Lemma first_prefix a b n : n = String.length a -> first_bytes n (a ^^ b) = a.
Proof.
  intros ->. rewrite first_app by lia.
  induction a as [|c a IH]; [done|]. apply (f_equal (String c)), IH.
Qed.

Lemma read_be_one c s : read_be 1 0 (String c s) = byte_val c.
Proof. destruct s; simpl read_be; lia. Qed.

Lemma drop_one c s : drop_bytes 1 (String c s) = s.
Proof. by destruct s. Qed.

Lemma lossy_valid s : valid_utf8 s = true -> from_utf8_lossy s = s.
Proof.
  intros H. pose proof (from_utf8_lossy_app s EmptyString H) as E. by rewrite !append_nil_r in E.
Qed.

Lemma parse_headers_bytes hs : forall fuel, forallb header_fits hs = true ->
  (String.length (headers_bytes hs) <= fuel)%nat -> parse_headers_fuel fuel (headers_bytes hs) = Ok hs.
Proof.
  induction hs as [|[k v] hs IH]; intros fuel Hf Hl; [by destruct fuel|].
  simpl in Hf. apply andb_prop in Hf as [Hh Hf]. unfold header_fits in Hh. simpl in Hh. bool_hyps.
  assert (E : headers_bytes ((k, v) :: hs)
    = String (byte (byte_len k)) (k ^^ String (byte 7) (be_bytes 2 (byte_len v) ^^ v ^^ headers_bytes hs))).
  { change (headers_bytes ((k, v) :: hs)) with (String (byte (byte_len k))
      ((k ^^ String (byte 7) (be_bytes 2 (byte_len v) ^^ v)) ^^ headers_bytes hs)).
    rewrite append_assoc. change (String (byte 7) (be_bytes 2 (byte_len v) ^^ v) ^^ headers_bytes hs)
      with (String (byte 7) ((be_bytes 2 (byte_len v) ^^ v) ^^ headers_bytes hs)).
    by rewrite append_assoc. }
  rewrite E in *. destruct fuel as [|fuel]; [simpl in Hl; lia|]. cbn [parse_headers_fuel].
  unfold byte_len in *.
  rewrite byte_val_byte by lia. rewrite Nat2Z.id.
  destruct (is_empty _) eqn:Ee.
  { destruct k; simpl in Ee; done. }
  destruct (Nat.ltb_spec (String.length (k ^^ String (byte 7) (be_bytes 2 (Z.of_nat (String.length v)) ^^ v ^^ headers_bytes hs)))
    (String.length k + 1)) as [Hlt|_].
  { rewrite length_append in Hlt. simpl in Hlt. lia. }
  rewrite first_prefix, drop_prefix by done. rewrite read_be_one, drop_one.
  rewrite byte_val_byte by lia. simpl negb. cbn iota.
  destruct (Nat.ltb_spec (String.length (be_bytes 2 (Z.of_nat (String.length v)) ^^ v ^^ headers_bytes hs)) 2) as [Hlt|_].
  { rewrite length_append, length_be in Hlt. lia. }
  unfold read_u16_be. rewrite read_be_value by (simpl; lia).
  rewrite (drop_prefix (be_bytes 2 _)) by (by rewrite length_be). rewrite Nat2Z.id.
  destruct (Nat.ltb_spec (String.length (v ^^ headers_bytes hs)) (String.length v)) as [Hlt|_].
  { rewrite length_append in Hlt. lia. }
  rewrite first_prefix, drop_prefix by done. rewrite IH; [|done|].
  - simpl. by rewrite !lossy_valid.
  - cbn [String.length] in Hl. rewrite length_append in Hl. cbn [String.length] in Hl.
    rewrite !length_append in Hl. lia.
Qed.

Context (Hcrc : forall s, 0 <= crc32 s < 2 ^ 32).

Lemma message_bytes_length m : byte_len (message_bytes m) = message_total m.
Proof.
  unfold byte_len, message_bytes, message_body, prelude, message_total, byte_len.
  rewrite !length_append, !length_be. lia.
Qed.

Lemma next_message_whole b total hlen headers :
  read_u32_be b = total -> read_u32_be (drop_bytes 4 b) = hlen ->
  16 <= total <= MAX_EVENT_STREAM_MESSAGE_BYTES -> hlen <= total - 16 ->
  crc32 (first_bytes 8 b) = read_u32_be (drop_bytes 8 b) -> byte_len b = total ->
  crc32 (first_bytes (Z.to_nat total - 4) b) = read_u32_be (drop_bytes (Z.to_nat total - 4) b) ->
  parse_headers (first_bytes (Z.to_nat hlen) (drop_bytes 12 b)) = Ok headers ->
  next_message crc32 b
  = (EmptyString, Some (Ok (mkEventMessage headers
       (first_bytes (Z.to_nat total - 4 - (12 + Z.to_nat hlen)) (drop_bytes (12 + Z.to_nat hlen) b))))).
Proof.
  intros H4 H8 Htot Hh Hc Hb Hm Hp. unfold next_message. cbv zeta. rewrite H4, H8, Hb, Hc, Z.eqb_refl.
  assert (Hall : first_bytes (Z.to_nat total) b = b /\ drop_bytes (Z.to_nat total) b = EmptyString).
  { unfold byte_len in Hb. pose proof (first_prefix b EmptyString (Z.to_nat total)) as Hf.
    pose proof (drop_prefix b EmptyString (Z.to_nat total)) as Hd. rewrite append_nil_r in Hf, Hd.
    split; [apply Hf|apply Hd]; lia. }
  destruct Hall as [-> ->]. rewrite Hm, Hp, Z.eqb_refl, Z.ltb_irrefl.
  destruct (Z.ltb_spec total 12); [lia|]. destruct (Z.ltb_spec total 16); [lia|].
  destruct (Z.ltb_spec (sat_sub total 16) hlen) as [Hx|_]; [unfold sat_sub in Hx; lia|].
  destruct (Z.ltb_spec MAX_EVENT_STREAM_MESSAGE_BYTES total); [lia|]. done.
Qed.

Lemma next_message_bytes m :
  message_fits m = true -> next_message crc32 (message_bytes m) = (EmptyString, Some (Ok m)).
Proof.
  intros [Hh Ht%Z.leb_le]%andb_prop. pose proof (message_bytes_length m) as Hlen.
  set (hs := headers_bytes (em_headers m)) in *.
  assert (Hparts : 0 <= byte_len hs /\ 0 <= byte_len (em_payload m) /\ message_total m < 2 ^ 32
                   /\ message_total m = 16 + byte_len hs + byte_len (em_payload m)).
  { unfold MAX_EVENT_STREAM_MESSAGE_BYTES, message_total, byte_len in *. fold hs in Ht |- *. lia. }
  destruct Hparts as (Hp1 & Hp2 & Hp3 & Htot).
  assert (Hpre : String.length (prelude m) = 8%nat).
  { unfold prelude. by rewrite length_append, !length_be. }
  assert (Hbody : byte_len (message_body m) = message_total m - 4).
  { unfold message_body, byte_len in *. rewrite !length_append, length_be, Hpre. fold hs. lia. }
  assert (E4 : read_u32_be (message_bytes m) = message_total m).
  { unfold read_u32_be, message_bytes, message_body, prelude. rewrite !append_assoc.
    apply read_be_value. simpl. lia. }
  assert (E8 : read_u32_be (drop_bytes 4 (message_bytes m)) = byte_len hs).
  { unfold read_u32_be, message_bytes, message_body, prelude. rewrite !append_assoc.
    rewrite (drop_prefix (be_bytes 4 _)) by (by rewrite length_be). apply read_be_value. fold hs. simpl. lia. }
  assert (Ebytes : message_bytes m = prelude m ^^ be_bytes 4 (crc32 (prelude m)) ^^ hs
                     ^^ em_payload m ^^ be_bytes 4 (crc32 (message_body m))).
  { unfold message_bytes, message_body. by rewrite !append_assoc. }
  assert (Ecrc : read_u32_be (drop_bytes 8 (message_bytes m)) = crc32 (first_bytes 8 (message_bytes m))).
  { rewrite Ebytes, drop_prefix, first_prefix by done. apply read_be_value. apply Hcrc. }
  assert (Hlb : (String.length (message_body m) = Z.to_nat (message_total m) - 4)%nat).
  { unfold byte_len in Hbody. lia. }
  rewrite (next_message_whole (message_bytes m) (message_total m) (byte_len hs) (em_headers m));
    [|done|done|lia|lia|done|done|rewrite <- Hlb; unfold message_bytes|].
  - rewrite Ebytes. rewrite <- (append_assoc (prelude m)), <- (append_assoc _ hs).
    assert (Hx : (12 + Z.to_nat (byte_len hs))%nat = String.length ((prelude m ^^ be_bytes 4 (crc32 (prelude m))) ^^ hs)).
    { rewrite !length_append, length_be, Hpre. unfold byte_len. lia. }
    rewrite Hx, drop_prefix by done. rewrite first_prefix; [by destruct m|].
    rewrite !length_append, length_be, Hpre. unfold byte_len in *. lia.
  - rewrite first_prefix, drop_prefix by done. rewrite <- (append_nil_r (be_bytes 4 _)).
    symmetry. apply read_be_value, Hcrc.
  - rewrite Ebytes, <- (append_assoc (prelude m)). rewrite drop_prefix.
    + rewrite first_prefix; [|unfold byte_len; lia]. by apply parse_headers_bytes.
    + rewrite length_append, length_be, Hpre. done.
Qed.

Lemma message_bytes_more m rest :
  message_fits m = true -> next_message crc32 (message_bytes m ^^ rest) = (rest, Some (Ok m)).
Proof. intros H%next_message_bytes. by apply next_message_more with (m := rest) in H as [-> _]. Qed.
Context (parse_json : string -> option Json) (base64_decode : string -> option string).

Lemma drain_message_bytes ms : forall fuel out,
  forallb message_fits ms = true -> Forall (fun m => event_stream_error parse_json m = None) ms ->
  (String.length (concat_all (message_bytes <$> ms)) <= fuel)%nat ->
  drain_messages crc32 parse_json base64_decode fuel (concat_all (message_bytes <$> ms)) out
  = (EmptyString, Ok (out ++ omap (fun m => unwrap_chunk parse_json base64_decode (em_payload m)) ms)).
Proof.
  induction ms as [|m ms IH]; intros fuel out Hf He Hl.
  { destruct fuel; simpl; by rewrite app_nil_r. }
  simpl in Hf. apply andb_prop in Hf as [Hm Hf]. apply Forall_cons_1 in He as [Hem He].
  change (concat_all (message_bytes <$> m :: ms))
    with (message_bytes m ^^ concat_all (message_bytes <$> ms)) in *.
  pose proof (message_bytes_length m) as Hlen. unfold byte_len, message_total, byte_len in Hlen.
  rewrite length_append in Hl. destruct fuel as [|fuel]; [lia|].
  cbn [drain_messages]. rewrite message_bytes_more by done. rewrite Hem, IH; [|done|done|lia].
  rewrite <- app_assoc. simpl. by destruct (unwrap_chunk _ _ _).
Qed.

(** The decoder reads the documented format: messages that are
    encoded with lengths, checksums and headers, and arrive cut into any chunks,
    give the JSON values of their payloads in order and leave nothing over. *)
Theorem event_stream_roundtrip ms chunks :
  forallb message_fits ms = true -> Forall (fun m => event_stream_error parse_json m = None) ms ->
  concat_all chunks = concat_all (message_bytes <$> ms) ->
  push_all (event_stream_push crc32 parse_json base64_decode) EmptyString chunks
  = (EmptyString, Ok (omap (fun m => unwrap_chunk parse_json base64_decode (em_payload m)) ms)).
Proof.
  intros Hf He Hc. pose proof (event_stream_agree crc32 parse_json base64_decode chunks) as Ha.
  unfold event_stream_push in Ha at 2. rewrite Hc in Ha. cbv zeta in Ha.
  change (EmptyString ^^ concat_all (message_bytes <$> ms)) with (concat_all (message_bytes <$> ms)) in Ha.
  rewrite drain_message_bytes in Ha by done.
  destruct (push_all _ _ chunks) as [r [vs|e]]; simpl in Ha; [|done]. by destruct Ha as [-> ->].
Qed.

End Format.

(** ** Samples *)

Module FramingSamples.

Definition checksum (s : string) : Z := byte_len s mod 2 ^ 32.

Lemma checksum_range s : 0 <= checksum s < 2 ^ 32.
Proof. apply Z.mod_pos_bound. lia. Qed.

(** Stand-ins for the JSON parser: a text is a string value, or the wrapper of one. *)
Definition parse_text (s : string) : result Json string := Ok (JString s).
Definition parse_wrapped (s : string) : option Json := Some (obj [("bytes", JString s)]).

Definition hello : EventMessage := mkEventMessage [(":event-type", "chunk")] "hello".

Lemma event_stream_roundtrip_witness :
  let text := message_bytes checksum hello in
  push_all (event_stream_push checksum parse_wrapped Some) EmptyString
    [first_bytes 7 text; drop_bytes 7 text]
  = (EmptyString, Ok [obj [("bytes", JString "hello")]]).
Proof.
  apply (event_stream_roundtrip checksum checksum_range parse_wrapped Some [hello]);
    [vm_compute; reflexivity|repeat constructor|vm_compute; reflexivity].
Defined.

Lemma event_stream_chunking_witness :
  agree (push_all (event_stream_push checksum parse_wrapped Some) EmptyString ["ab"; "cdefghijklmn"])
    (push_all (event_stream_push checksum parse_wrapped Some) EmptyString ["abcdefg"; "hijklmn"]).
Proof. apply (event_stream_chunking checksum parse_wrapped Some). reflexivity. Defined.

Definition cr : string := String carriage_return EmptyString.

Lemma sse_chunking_witness :
  sse_whole parse_text (normal_text (concat_all ["data: a" ^^ nl; nl ^^ "data:"; "b" ^^ nl ^^ nl]))
  = (EmptyString, Ok [JString "a"; JString "b"]).
Proof.
  exact (sse_chunking parse_text ["data: a" ^^ nl; nl ^^ "data:"; "b" ^^ nl ^^ nl]
           ltac:(vm_compute; reflexivity)).
Defined.

(** The two bytes of U+00E9. *)
Definition e_acute : string := String (ascii_of_nat 195) (String (ascii_of_nat 169) EmptyString).

(** A character that two chunks share is lost. *)
Lemma split_character_corrupted :
  let text := "data: " ^^ e_acute ^^ nl ^^ nl in
  sse_push parse_text EmptyString text = (EmptyString, Ok [JString e_acute])
  /\ push_all (sse_push parse_text) EmptyString [first_bytes 7 text; drop_bytes 7 text]
     = (EmptyString, Ok [JString (replacement ^^ replacement)]).
Proof. vm_compute. by split. Qed.

(** A chunk that ends between carriage return and line feed ends the frame, so an
    error event is read as data. *)
Lemma split_line_end_breaks_frame :
  let head := "event: error" ^^ cr in
  let tail := nl ^^ "data: overloaded" ^^ cr ^^ nl ^^ cr ^^ nl in
  (sse_push parse_text EmptyString (head ^^ tail)).2 = Err "upstream stream error event"
  /\ (push_all (sse_push parse_text) EmptyString [head; tail]).2 = Ok [JString "overloaded"].
Proof. vm_compute. by split. Qed.

(** Values that were complete before an error are dropped if they arrive in the
    same chunk. *)
Lemma values_before_error_dropped :
  let good := "data: a" ^^ nl ^^ nl in
  let bad := "event: error" ^^ nl ^^ "data: b" ^^ nl ^^ nl in
  sse_push parse_text EmptyString (good ^^ bad) = (EmptyString, Err "upstream stream error event")
  /\ sse_push parse_text EmptyString good = (EmptyString, Ok [JString "a"]).
Proof. vm_compute. by split. Qed.

End FramingSamples.
