(* ===== verification/Net.v ===== *)
(** * The egress guard

    [crates/sb-net/src/lib.rs] and the host checks of [crates/sb-core/src/config.rs]
    ([private_url_reason], [private_ip_reason], [host_from_url]), with the parser of
    IP addresses of the standard library. The URL parser and the name resolution
    are parameters. *)

From Stdlib Require Import ZArith Lia Ascii.
From Stdlib Require String.
From stdpp Require Import base list strings.
From S2P Require Import Prelude Text Lines Ir Profiles Access.

#[local] Open Scope Z_scope.

(** ** Addresses *)

Inductive IpAddr :=
| V4 (a b c d : Z)
| V6 (segments : list Z).

Definition segment0 (segments : list Z) : Z := default 0 (head segments).

(** [Ipv4Addr::is_private], [is_loopback], [is_link_local], [is_unspecified]. *)
Definition v4_is_private (a b : Z) : bool :=
  (a =? 10) || ((a =? 172) && (16 <=? b) && (b <=? 31)) || ((a =? 192) && (b =? 168)).
Definition v4_is_loopback (a : Z) : bool := a =? 127.
Definition v4_is_link_local (a b : Z) : bool := (a =? 169) && (b =? 254).
Definition v4_is_unspecified (a b c d : Z) : bool := (a =? 0) && (b =? 0) && (c =? 0) && (d =? 0).

(** [Ipv6Addr::is_loopback] and [is_unspecified]: the value is one, or zero. *)
Definition v6_value (segments : list Z) : Z := fold_left (fun v s => v * 65536 + s) segments 0.

Definition private_ip_reason (ip : IpAddr) : option string :=
  let blocked := match ip with
    | V4 a b c d =>
        v4_is_private a b || v4_is_loopback a || v4_is_link_local a b
        || v4_is_unspecified a b c d || ((a =? 169) && (b =? 254))
    | V6 segments =>
        let first := segment0 segments in
        (v6_value segments =? 1) || (v6_value segments =? 0)
        || (Z.land first 65024 =? 64512) || (Z.land first 65472 =? 65152)
    end in
  if blocked then Some "private or local IP" else None.

(** ** Parsing addresses

    [IpAddr::from_str]: a recursive descent over the remaining bytes, which a parser
    that fails gives back. *)

Definition Parser (A : Type) : Type := string -> option (A * string).

Definition digit_value (radix : Z) (c : ascii) : option Z :=
  let n := byte_val c in
  let v := if (48 <=? n) && (n <=? 57) then Some (n - 48)
           else if (97 <=? n) && (n <=? 122) then Some (n - 87)
           else if (65 <=? n) && (n <=? 90) then Some (n - 55)
           else None in
  match v with Some d => if d <? radix then Some d else None | None => None end.

(** The digits of a number of at most [max_digits] digits and value at most [max]:
    the loop of [read_number]. *)
Fixpoint read_digits (radix max : Z) (max_digits : Z) (count value : Z) (s : string)
  : option (Z * Z * string) :=
  match s with
  | EmptyString => Some (count, value, s)
  | String c s' =>
      match digit_value radix c with
      | None => Some (count, value, s)
      | Some d =>
          let value := value * radix + d in
          if max <? value then None
          else if max_digits <? count + 1 then None
          else read_digits radix max max_digits (count + 1) value s'
      end
  end.

Definition read_number (radix max max_digits : Z) (allow_zero_prefix : bool) : Parser Z := fun s =>
  let has_leading_zero := starts_with "0" s in
  match read_digits radix max max_digits 0 0 s with
  | None => None
  | Some (count, value, rest) =>
      if count =? 0 then None
      else if negb allow_zero_prefix && has_leading_zero && (1 <? count) then None
      else Some (value, rest)
  end.

(** [read_separator]: the separator before every element but the first. *)
Definition read_separator {A} (sep : string) (index : nat) (inner : Parser A) : Parser A := fun s =>
  match index with
  | O => inner s
  | S _ => match strip_prefix sep s with Some rest => inner rest | None => None end
  end.

Definition read_octet (index : nat) : Parser Z :=
  read_separator "." index (read_number 10 255 3 false).

Definition read_ipv4_addr : Parser (Z * Z * Z * Z) := fun s =>
  match read_octet 0 s with
  | None => None
  | Some (a, s) => match read_octet 1 s with
    | None => None
    | Some (b, s) => match read_octet 2 s with
      | None => None
      | Some (c, s) => match read_octet 3 s with
        | None => None
        | Some (d, s) => Some ((a, b, c, d), s)
        end
      end
    end
  end.

(** [read_groups]: the groups before a gap, with whether they end in an IPv4 part; at
    most [left] of them. *)
Fixpoint read_groups (left index : nat) (s : string) : list Z * bool * string :=
  match left with
  | O => ([], false, s)
  | S left' =>
      let group s :=
        match read_separator ":" index (read_number 16 65535 4 true) s with
        | Some (g, s) =>
            let '(gs, v4, s) := read_groups left' (S index) s in (g :: gs, v4, s)
        | None => ([], false, s)
        end in
      match left' with
      | O => group s
      | S _ =>
          match read_separator ":" index read_ipv4_addr s with
          | Some ((a, b, c, d), s) => ([a * 256 + b; c * 256 + d], true, s)
          | None => group s
          end
      end
  end.

Definition read_ipv6_addr : Parser (list Z) := fun s =>
  let '(head, head_ipv4, s) := read_groups 8 0 s in
  let n := length head in
  if Nat.eqb n 8 then Some (head, s)
  else if head_ipv4 then None
  else match strip_prefix "::" s with
  | None => None
  | Some s =>
      let '(tail, _, s) := read_groups (7 - n) 0 s in
      Some (head ++ repeat 0 (8 - n - length tail) ++ tail, s)
  end.

Definition parse_ip (s : string) : option IpAddr :=
  match match read_ipv4_addr s with
        | Some ((a, b, c, d), rest) => Some (V4 a b c d, rest)
        | None => match read_ipv6_addr s with
                  | Some (segments, rest) => Some (V6 segments, rest)
                  | None => None
                  end
        end with
  | Some (ip, EmptyString) => Some ip
  | _ => None
  end.

(** ** Hosts *)

(** [s.split(pred).next()]: up to the first byte in [stops]. *)
Fixpoint before_any (stops : list ascii) (s : string) : string :=
  match s with
  | EmptyString => EmptyString
  | String c s' => if existsb (Ascii.eqb c) stops then EmptyString
                   else String c (before_any stops s')
  end.

(** [s.rsplit(c).next()]: after the last [c]. *)
Definition after_last (c : ascii) (s : string) : string :=
  match rsplit_once c s with Some (_, r) => r | None => s end.

Definition host_from_url (url : string) : option string :=
  match split_once "://" url with
  | None => None
  | Some (_, rest) =>
      let authority := before_any ["/"; "?"; "#"]%char rest in
      let host_port := after_last "@" authority in
      if starts_with "[" host_port
      then (fun hp : string * string => trim_start_matches "[" hp.1) <$> split_once "]" host_port
      else
        let host := before_any [":"%char] host_port in
        if is_empty host then None else Some host
  end.

Definition private_url_reason (url : string) : option string :=
  match host_from_url url with
  | None => None
  | Some host =>
      let lower := to_ascii_lowercase host in
      if str_eqb lower "localhost" || ends_with ".localhost" lower then Some "localhost host"
      else match parse_ip lower with
      | Some ip =>
          if opt_is_some (private_ip_reason ip)
          then Some ("private or local IP host `" ^^ host ^^ "`") else None
      | None => None
      end
  end.

(** ** The guard *)

Inductive NetworkUrlKind := ProviderUpstream | OauthToken | ServiceAccountToken | Proxy.

Definition label (k : NetworkUrlKind) : string :=
  match k with
  | ProviderUpstream => "provider upstream"
  | OauthToken => "OAuth token endpoint"
  | ServiceAccountToken => "service-account token endpoint"
  | Proxy => "proxy"
  end.

Inductive NetworkGuardError :=
| InvalidUrl (message : string)
| ResolveFailed (message : string)
| BlockedPrivate (message : string).

Definition guard_error_text (e : NetworkGuardError) : string :=
  match e with InvalidUrl m | ResolveFailed m | BlockedPrivate m => m end.

(** The parts of a parsed URL that the guard reads. *)
Record ParsedUrl := mkParsedUrl {
  pu_host_str : option string;
  pu_port_or_known_default : option Z
}.

Section Guard.
Context (url_parse : string -> result ParsedUrl string)
        (lookup_host : string -> Z -> result (list IpAddr) string)
        (to_socket_addrs : string -> Z -> result (list IpAddr) string)
        (fmt_ip : IpAddr -> string).

Definition guard_literal_url (url : string) (kind : NetworkUrlKind)
  : result (string * Z) NetworkGuardError :=
  match private_url_reason url with
  | Some reason =>
      Err (BlockedPrivate ("blocked private-network " ^^ label kind ^^ " URL `" ^^ url ^^ "`: "
             ^^ reason))
  | None =>
      match url_parse url with
      | Err e => Err (InvalidUrl ("invalid " ^^ label kind ^^ " URL `" ^^ url ^^ "`: " ^^ e))
      | Ok parsed =>
          match pu_host_str parsed with
          | None => Err (InvalidUrl (label kind ^^ " URL `" ^^ url ^^ "` has no host"))
          | Some host => Ok (host, default 443 (pu_port_or_known_default parsed))
          end
      end
  end.

(** The loop over the resolved addresses. *)
Fixpoint check_resolved (kind : NetworkUrlKind) (host : string) (addrs : list IpAddr)
  : result unit NetworkGuardError :=
  match addrs with
  | [] => Ok tt
  | ip :: addrs =>
      if opt_is_some (private_ip_reason ip)
      then Err (BlockedPrivate ("blocked " ^^ label kind ^^ " host `" ^^ host
                  ^^ "` resolving to private/local IP `" ^^ fmt_ip ip ^^ "`"))
      else check_resolved kind host addrs
  end.

(** The body that both guards share, over their way of resolving a name. *)
Definition guard_with (resolve : string -> Z -> result (list IpAddr) string)
    (url : string) (kind : NetworkUrlKind) (block_private_networks : bool)
  : result unit NetworkGuardError :=
  if negb block_private_networks then Ok tt
  else
    let? hp := guard_literal_url url kind in
    let '(host, port) := hp in
    match parse_ip host with
    | Some _ => Ok tt
    | None =>
        match resolve host port with
        | Err e => Err (ResolveFailed ("resolve " ^^ label kind ^^ " host `" ^^ host ^^ "`: " ^^ e))
        | Ok resolved => check_resolved kind host resolved
        end
    end.

Definition guard_url := guard_with lookup_host.

Definition guard_url_blocking := guard_with to_socket_addrs.

End Guard.

Example parse_ip_samples :
  parse_ip "127.0.0.1" = Some (V4 127 0 0 1) /\ parse_ip "127.0.0.01" = None
  /\ parse_ip "256.0.0.1" = None /\ parse_ip "1.2.3" = None
  /\ parse_ip "::1" = Some (V6 [0; 0; 0; 0; 0; 0; 0; 1]) /\ parse_ip "::" = Some (V6 (repeat 0 8))
  /\ parse_ip "fe80::1:2" = Some (V6 [65152; 0; 0; 0; 0; 0; 1; 2])
  /\ parse_ip "::ffff:127.0.0.1" = Some (V6 [0; 0; 0; 0; 0; 65535; 32512; 1])
  /\ parse_ip "1:2:3:4:5:6:7:8" = Some (V6 [1; 2; 3; 4; 5; 6; 7; 8])
  /\ parse_ip "1:2:3:4:5:6:7:8:9" = None /\ parse_ip "1::2::3" = None /\ parse_ip "12345::" = None
  /\ host_from_url "https://user:pw@Example.com:8443/v1?x" = Some "Example.com"
  /\ host_from_url "http://[::1]:80/" = Some "::1" /\ host_from_url "nohost" = None.
Proof. vm_compute. by split_and!. Qed.
