(* ===== verification/ConfigSchema.v ===== *)
(** * The configuration file

    The sections of [crates/sb-core/src/config.rs] that the runtime does not read
    per request: providers with their accounts and ways to authenticate, outbound
    paths, plugins, local executors and harness descriptors, and the whole
    [Config]. The sections the runtime reads are in [Config.v] and [Profiles.v],
    and [engine_config] gives what it sees of a [Config]. *)

From Stdlib Require Import ZArith Lia.
From stdpp Require Import base list strings.
From S2P Require Import Prelude Text BTree Float Ir Config Target Catalog Resolver Profiles Access.

#[local] Open Scope Z_scope.

(** ** Providers *)

Inductive AuthScheme :=
| SchemeNone
| SchemeBearer
| SchemeHeader (name : string)
| SchemeQuery (name : string).

Inductive OpenAiWire := WireChat | WireResponses.

Record ComfyUiWorkflowConfig := mkComfyUiWorkflowConfig {
  cw_id : string;
  cw_kind : WorkloadKind;
  cw_version : option string;
  cw_graph : Json;
  cw_bindings : BTreeMap string (list string);
  cw_output_node_ids : list string
}.

Inductive ProviderKind :=
| PkMock
| PkOpenaiCompatible (base_url : string) (api_key_env api_key : option string)
    (auth_scheme : option AuthScheme) (wire : OpenAiWire)
| PkAnthropic (base_url : string) (api_key_env api_key : option string)
    (auth_scheme : option AuthScheme)
| PkGemini (base_url : string) (api_key_env api_key : option string)
| PkVertex (project region : string) (base_url api_key_env api_key : option string)
| PkBedrock (region access_key_env secret_key_env : string) (session_token_env base_url : option string)
| PkComfyUi (base_url : string) (workflows : list ComfyUiWorkflowConfig)
| PkFal (base_url platform_base_url : string) (api_key_env api_key : option string)
    (low_balance_threshold_usd : f64)
| PkCodexNativeRelay (base_url : option string)
| PkClaudeCodeNativeRelay (base_url : option string).

(** [AuthConfig::Oauth] has many fields, so they are a record. *)
Record OauthConfig := mkOauthConfig {
  oa_token_env : option string;
  oa_token : option string;
  oa_token_vault : option string;
  oa_refresh_env : option string;
  oa_refresh : option string;
  oa_refresh_vault : option string;
  oa_token_url : option string;
  oa_client_id : option string;
  oa_client_secret_env : option string;
  oa_client_secret : option string;
  oa_client_secret_vault : option string
}.

Inductive AuthConfig :=
| AuthNone
| AuthApiKey (env inline vault : option string)
| AuthJsonToken (token_file access_token_pointer : string)
| AuthKimiCodeOauth (home : option string)
| AuthOauth (o : OauthConfig)
| AuthCodexOauth (token_env token_vault token_file : option string) (access_token_pointer : string)
| AuthClaudeCodeOauth (token_env token_vault token_file : option string)
    (access_token_pointer : string)
| AuthServiceAccount (key_file key_env scope : option string)
| AuthAwsSigV4 (access_key_env : string) (access_key : option string) (secret_key_env : string)
    (secret_key session_token_env session_token : option string).

Record AccountConfig := mkAccountConfig {
  acc_id : string;
  acc_auth : AuthConfig;
  acc_priority : Z;
  acc_policy_tags : list string;
  acc_egress : option string
}.

Record CapabilityOverrides := mkCapabilityOverrides {
  ov_vision_in : option bool;
  ov_vision_sources : list ImageSourceKind;
  ov_server_tools : option bool;
  ov_json_schema : option bool;
  ov_tool_calling : option bool;
  ov_parallel_tool_calls : option bool;
  ov_streaming : option bool;
  ov_audio_in : option bool;
  ov_file_in : option bool;
  ov_image_out : option bool;
  ov_reasoning_summary : option bool;
  ov_max_context_tokens : option Z;
  ov_max_output_tokens : option Z
}.

Definition CapabilityOverrides_default : CapabilityOverrides :=
  mkCapabilityOverrides None [] None None None None None None None None None None None.

(** Every assignment of [apply_to] writes a field of its own, so they are one record. *)
Definition apply_to (o : CapabilityOverrides) (caps : CapabilityProfile) : CapabilityProfile :=
  mkCapabilityProfile (cap_text_in caps) (cap_text_out caps)
    (default (cap_vision_in caps) (ov_vision_in o))
    (match ov_vision_sources o with [] => cap_vision_sources caps | l => l end)
    (default (cap_streaming caps) (ov_streaming o))
    (default (cap_tool_calling caps) (ov_tool_calling o))
    (default (cap_parallel_tool_calls caps) (ov_parallel_tool_calls o))
    (default (cap_server_tools caps) (ov_server_tools o))
    (cap_server_tool_protocols caps)
    (default (cap_audio_in caps) (ov_audio_in o))
    (default (cap_file_in caps) (ov_file_in o))
    (default (cap_image_out caps) (ov_image_out o))
    (default (cap_reasoning_summary caps) (ov_reasoning_summary o))
    (default (cap_json_schema caps) (ov_json_schema o))
    (match ov_max_context_tokens o with Some n => Some n | None => cap_max_context_tokens caps end)
    (match ov_max_output_tokens o with Some n => Some n | None => cap_max_output_tokens caps end).

Record ProviderConfig := mkProviderConfig {
  pc_id : string;
  pc_kind : ProviderKind;
  pc_model_hint : option string;
  pc_accounts : list AccountConfig;
  pc_selection : SelectionStrategy;
  pc_sticky : option Z;
  pc_egress : option string;
  pc_capabilities : CapabilityOverrides
}.

(** ** Outbound paths, plugins, executors, harnesses *)

Inductive EgressKind :=
| EgressDirect
| EgressProxy (url url_env : option string).

Record EgressConfig := mkEgressConfig {
  eg_id : string;
  eg_kind : EgressKind;
  eg_enabled : bool;
  eg_user_agent : option string;
  eg_headers : BTreeMap string string
}.

Record VaultConfig := mkVaultConfig {
  vt_path : string;
  vt_keychain_service : string
}.

Inductive PluginFailureMode := FailOpen | FailClosed.

Inductive PluginConfig :=
| PluginModelBlocklist (models : list string)
| PluginRequestTag (tags : BTreeMap string string)
| PluginEgressPin (egress : string) (models : list string)
| PluginWasm (path : string) (failure_mode : PluginFailureMode) (timeout_ms fuel : Z).

Record LocalExecutorConfig := mkLocalExecutorConfig {
  le_name : string;
  le_base_url : string;
  le_health_endpoint : string;
  le_wake_command : option string;
  le_poweroff_command : option string;
  le_restart_command : option string;
  le_boot_timeout_secs : Z;
  le_wake_retry_interval_secs : Z;
  le_idle_timeout_secs : Z;
  le_retry_budget : Z;
  le_health_poll_interval_ms : Z
}.

Inductive ExecutionTaskType :=
| TaskChat | TaskCoding | TaskExtraction | TaskJudge | TaskToolAgent | TaskEmbeddings | TaskUnknown.

Record HarnessCapabilities := mkHarnessCapabilities {
  hc_streaming_events : bool;
  hc_artifacts : bool;
  hc_tool_logs : bool;
  hc_cost_metadata : bool;
  hc_latency_metadata : bool
}.

Record HarnessDescriptor := mkHarnessDescriptor {
  hn_name : string;
  hn_version : string;
  hn_capabilities : HarnessCapabilities;
  hn_supported_task_types : list ExecutionTaskType;
  hn_required_tools : list string;
  hn_input_contract : string;
  hn_output_contract : string
}.

Inductive StateStoreConfig :=
| StorePath (path : string)
| StoreDetailed (path : string) (required : bool).

Definition store_path (s : StateStoreConfig) : string :=
  match s with StorePath p | StoreDetailed p _ => p end.

Definition store_required (s : StateStoreConfig) : bool :=
  match s with StorePath _ => false | StoreDetailed _ r => r end.

Record ExecutionCacheConfig := mkExecutionCacheConfig {
  xc_enabled : bool;
  xc_ttl_seconds : option Z;
  xc_allow_sensitive : bool;
  xc_allow_confidential : bool
}.

Definition ExecutionCacheConfig_default : ExecutionCacheConfig :=
  mkExecutionCacheConfig true (Some 3600) false false.

(** ** The whole configuration

    [cg_server] are the server settings the runtime reads; the ones that only
    start-up, authentication and validation read follow it. *)

Record Config := mkConfig {
  cg_server : ServerConfig;
  cg_api_key : option string;
  cg_block_private_networks : bool;
  cg_state_store : option StateStoreConfig;
  cg_execution_cache : ExecutionCacheConfig;
  cg_cost_map : option string;
  cg_egress_enabled : bool;
  cg_vault : option VaultConfig;
  cg_catalog : option Catalog;
  cg_providers : list ProviderConfig;
  cg_client_profiles : list ClientProfileConfig;
  cg_harnesses : list HarnessDescriptor;
  cg_combos : BTreeMap string ComboConfig;
  cg_routes : list RouteConfig;
  cg_tenants : list TenantConfig;
  cg_api_keys : list ApiKeyConfig;
  cg_plugins : list PluginConfig;
  cg_egress : list EgressConfig;
  cg_local_executors : list LocalExecutorConfig
}.

(** What the runtime reads of it. *)
Definition provider_egress (p : ProviderConfig) : ProviderEgress :=
  mkProviderEgress (pc_id p) (pc_egress p) ((fun a => (acc_id a, acc_egress a)) <$> pc_accounts p).

Definition engine_config (c : Config) : EngineConfig :=
  mkEngineConfig (cg_server c) (provider_egress <$> cg_providers c) (cg_combos c) (cg_routes c)
    (cg_tenants c) (cg_client_profiles c).

Definition access_config (c : Config) : AccessConfig :=
  mkAccessConfig (cg_api_keys c) (cg_api_key c).
