(* ===== verification/Plugins.v ===== *)
(** * Plugins

    [crates/sb-plugin/src/lib.rs] and the [Plugin] implementation of [wasm.rs]: the
    built-in plugins and the chain that runs them before routing and when an
    outbound path is chosen. A hook of a built-in cannot panic, so the guard around
    hooks has nothing to catch. What a sandboxed module answers for a model, or
    that running it fails, is the function the plugin carries. The observing hooks
    have no effect on the gateway. *)

From Stdlib Require Import ZArith Lia Ascii Sorted.
From Stdlib Require String.
From stdpp Require Import base list strings.
From S2P Require Import Prelude Text BTree Ir ConfigSchema.

#[local] Open Scope Z_scope.
#[local] Open Scope switchback_scope.

Inductive PluginOutcome :=
| PluginContinue
| PluginReject (status : Z) (message : string).

Inductive Plugin :=
| ModelBlocklist (models : list string)
| RequestTag (tags : BTreeMap string string)
| EgressPin (egress : string) (models : list string)
| NullPlugin (name : string)
| WasmPlugin (label : string) (failure_mode : PluginFailureMode) (run : string -> result Z string).

(** [pattern.strip_suffix('*')]. *)
Fixpoint strip_star (pattern : string) : option string :=
  match pattern with
  | EmptyString => None
  | String c EmptyString => if Ascii.eqb c "*"%char then Some EmptyString else None
  | String c p => String c <$> strip_star p
  end.

Definition glob_match (pattern value : string) : bool :=
  match strip_star pattern with
  | Some prefix => starts_with prefix value
  | None => str_eqb pattern value
  end.

Definition plugin_name (p : Plugin) : string :=
  match p with
  | ModelBlocklist _ => "model_blocklist"
  | RequestTag _ => "request_tag"
  | EgressPin _ _ => "egress_pin"
  | NullPlugin name => name
  | WasmPlugin label _ _ => label
  end.

(** [entry(k).or_insert(v)] for every tag. *)
Definition add_tags (tags : BTreeMap string string) (m : BTreeMap string string)
  : BTreeMap string string :=
  fold_left (fun m kv => match bt_get kv.1 m with
                         | Some _ => m
                         | None => bt_insert kv.1 kv.2 m
                         end) tags m.

Definition set_req_metadata (m : BTreeMap string string) (r : AiRequest) : AiRequest :=
  mkAiRequest (req_id r) (req_model r) (req_system r) (req_messages r) (req_tools r)
    (req_server_tools r) (req_response_format r) (req_stream r) (req_max_output_tokens r)
    (req_temperature r) (req_priority r) (req_privacy_class r) m (req_tenant r) (req_project r)
    (req_passthrough r) (req_protocol_passthrough r) (req_system_cache_hint r)
    (req_tools_cache_hint r).

Definition is_closed (m : PluginFailureMode) : bool :=
  match m with FailClosed => true | FailOpen => false end.

(** [code.clamp(400, 599)]. *)
Definition clamp_status (code : Z) : Z := Z.max 400 (Z.min 599 code).

Definition plugin_pre_route (p : Plugin) (req : AiRequest) : PluginOutcome * AiRequest :=
  match p with
  | ModelBlocklist models =>
      if existsb (fun pat => glob_match pat (req_model req)) models
      then (PluginReject 403 ("model `" ^^ req_model req ^^ "` is blocked by policy"), req)
      else (PluginContinue, req)
  | RequestTag tags => (PluginContinue, set_req_metadata (add_tags tags (req_metadata req)) req)
  | WasmPlugin label mode run =>
      (match run (req_model req) with
       | Ok code =>
           if code =? 0 then PluginContinue
           else PluginReject (clamp_status code) ("rejected by wasm plugin `" ^^ label ^^ "`")
       | Err _ =>
           if is_closed mode
           then PluginReject 503 ("wasm plugin `" ^^ label ^^ "` failed closed")
           else PluginContinue
       end, req)
  | EgressPin _ _ | NullPlugin _ => (PluginContinue, req)
  end.

Definition plugin_select_egress (p : Plugin) (req : AiRequest) (target_id : string)
  : option string :=
  match p with
  | EgressPin egress models =>
      match models with
      | [] => Some egress
      | _ => if existsb (fun pat => glob_match pat (req_model req)) models then Some egress else None
      end
  | _ => None
  end.

(** ** The host *)

Definition PluginHost : Type := list Plugin.

Fixpoint pre_route (host : PluginHost) (req : AiRequest) : PluginOutcome * AiRequest :=
  match host with
  | [] => (PluginContinue, req)
  | p :: host =>
      match plugin_pre_route p req with
      | (PluginReject status message, req) => (PluginReject status message, req)
      | (PluginContinue, req) => pre_route host req
      end
  end.

Fixpoint select_egress (host : PluginHost) (req : AiRequest) (target_id : string)
  : option string :=
  match host with
  | [] => None
  | p :: host =>
      match plugin_select_egress p req target_id with
      | Some e => Some e
      | None => select_egress host req target_id
      end
  end.

Section Build.
(** Loading a module, in a build with the sandbox; [None] in one without. *)
Context (wasm_load : option (string -> PluginFailureMode -> Z -> Z ->
                             result (string * (string -> result Z string)) string)).

Definition build_wasm (index : Z) (path : string) (mode : PluginFailureMode) (timeout_ms fuel : Z)
  : result Plugin string :=
  match wasm_load with
  | Some load =>
      match load path mode timeout_ms fuel with
      | Ok (label, run) => Ok (WasmPlugin label mode run)
      | Err e =>
          if is_closed mode
          then Err ("plugins[" ^^ fmt_int index ^^ "] wasm plugin failed closed: " ^^ e)
          else Ok (NullPlugin "wasm_load_failed")
      end
  | None =>
      if is_closed mode
      then Err ("plugins[" ^^ fmt_int index ^^ "] wasm plugin `" ^^ path
                ^^ "` requires the `wasm` feature")
      else Ok (NullPlugin "wasm_disabled")
  end.

Definition build_plugin (index : Z) (config : PluginConfig) : result Plugin string :=
  match config with
  | PluginModelBlocklist models => Ok (ModelBlocklist models)
  | PluginRequestTag tags => Ok (RequestTag tags)
  | PluginEgressPin egress models => Ok (EgressPin egress models)
  | PluginWasm path mode timeout_ms fuel => build_wasm index path mode timeout_ms fuel
  end.

Fixpoint build_plugins (index : Z) (configs : list PluginConfig) : result (list Plugin) string :=
  match configs with
  | [] => Ok []
  | c :: configs =>
      let? p := build_plugin index c in
      let? rest := build_plugins (index + 1) configs in
      Ok (p :: rest)
  end.

Definition try_from_config (configs : list PluginConfig) : result PluginHost string :=
  build_plugins 0 configs.

Definition PluginHost_from_config (configs : list PluginConfig) : PluginHost :=
  match try_from_config configs with
  | Ok host => host
  | Err _ => [NullPlugin "plugin_config_failed"]
  end.

End Build.

(** ** What plugins can do to a request *)

(** The verdict of a plugin depends on the model alone. *)
Definition plugin_verdict (p : Plugin) (model : string) : option (Z * string) :=
  match p with
  | ModelBlocklist models =>
      if existsb (fun pat => glob_match pat model) models
      then Some (403, "model `" ^^ model ^^ "` is blocked by policy") else None
  | WasmPlugin label mode run =>
      match run model with
      | Ok code => if code =? 0 then None
                   else Some (clamp_status code, "rejected by wasm plugin `" ^^ label ^^ "`")
      | Err _ => if is_closed mode then Some (503, "wasm plugin `" ^^ label ^^ "` failed closed")
                 else None
      end
  | _ => None
  end.

Fixpoint first_verdict (host : PluginHost) (model : string) : option (Z * string) :=
  match host with
  | [] => None
  | p :: host => match plugin_verdict p model with
                 | Some v => Some v | None => first_verdict host model end
  end.

Lemma add_tags_keeps tags m k v : bt_wf m -> bt_get k m = Some v -> bt_get k (add_tags tags m) = Some v.
Proof.
  revert m. induction tags as [|[k' v'] tags IH]; intros m Hm Hk; [done|]. simpl.
  destruct (bt_get k' m) eqn:E; [by apply IH|]. apply IH; [by apply bt_insert_wf|].
  rewrite bt_get_insert_ne; [done|done|]. congruence.
Qed.

Lemma add_tags_wf tags m : bt_wf m -> bt_wf (add_tags tags m).
Proof.
  revert m. induction tags as [|[k' v'] tags IH]; intros m Hm; [done|]. simpl.
  destruct (bt_get k' m) eqn:E; apply IH; [done|]. by apply bt_insert_wf.
Qed.

Lemma plugin_pre_route_spec p req :
  bt_wf (req_metadata req) ->
  exists m, plugin_pre_route p req
    = (match plugin_verdict p (req_model req) with
       | Some (status, message) => PluginReject status message | None => PluginContinue end,
       set_req_metadata m req)
  /\ bt_wf m /\ forall k v, bt_get k (req_metadata req) = Some v -> bt_get k m = Some v.
Proof.
  intros Hwf. assert (Hr : set_req_metadata (req_metadata req) req = req) by (by destruct req).
  destruct p as [models|tags|egress models|name|label mode run]; simpl.
  1: exists (req_metadata req); rewrite Hr; by destruct (existsb _ models).
  2-4: exists (req_metadata req); rewrite Hr.
  - exists (add_tags tags (req_metadata req)). split_and!; [done|by apply add_tags_wf|].
    intros k v. by apply add_tags_keeps.
  - done.
  - done.
  - split_and!; [|done|done]. destruct (run (req_model req)) as [code|].
    + by destruct (code =? 0).
    + by destruct (is_closed mode).
Qed.

(** Plugins decide by the model and only add tags: the outcome of the
    chain is the verdict of the first plugin that rejects the requested model;
    the request that goes on differs from the one that came in by additional
    metadata alone, and no entry that was there is changed. *)
Theorem plugins_only_tag host req :
  bt_wf (req_metadata req) ->
  exists m, pre_route host req
    = (match first_verdict host (req_model req) with
       | Some (status, message) => PluginReject status message | None => PluginContinue end,
       set_req_metadata m req)
  /\ bt_wf m /\ forall k v, bt_get k (req_metadata req) = Some v -> bt_get k m = Some v.
Proof.
  revert req. induction host as [|p host IH]; intros req Hwf; simpl.
  { exists (req_metadata req). split_and!; [by destruct req|done|done]. }
  destruct (plugin_pre_route_spec p req Hwf) as (m & -> & Hm & Hk).
  destruct (plugin_verdict p (req_model req)) as [[status message]|]; [by exists m|].
  destruct (IH (set_req_metadata m req) Hm) as (m' & -> & Hm' & Hk').
  exists m'. split_and!; [done|done|]. intros k v Hv. by apply Hk', Hk.
Qed.

(** Whatever the plugins, the identity of a request survives them. *)
Lemma pre_route_keeps host req :
  req_id (pre_route host req).2 = req_id req /\ req_tenant (pre_route host req).2 = req_tenant req.
Proof.
  revert req. induction host as [|p host IH]; intros req; simpl; [done|].
  assert (Hp : req_id (plugin_pre_route p req).2 = req_id req
               /\ req_tenant (plugin_pre_route p req).2 = req_tenant req).
  { destruct p; simpl; try case_match; done. }
  destruct (plugin_pre_route p req) as [[|status message] req']; simpl in *; [|done].
  destruct (IH req') as [-> ->]. done.
Qed.

Lemma plugins_only_tag_witness :
  let req := set_req_metadata [("a", "1")] (AiRequest_new "id" "gpt-4" []) in
  exists m, pre_route [RequestTag [("a", "2"); ("b", "3")]; ModelBlocklist ["gpt-*"]] req
    = (PluginReject 403 "model `gpt-4` is blocked by policy", set_req_metadata m req)
  /\ bt_wf m /\ forall k v, bt_get k [("a", "1")] = Some v -> bt_get k m = Some v.
Proof.
  exact (plugins_only_tag [RequestTag [("a", "2"); ("b", "3")]; ModelBlocklist ["gpt-*"]]
    (set_req_metadata [("a", "1")] (AiRequest_new "id" "gpt-4" []))
    (SSorted_cons _ (SSorted_nil _) (List.Forall_nil _))).
Defined.
