(* ===== verification/Compress.v ===== *)
(** * Compression of tool results

    [crates/sb-compress/src/lib.rs]: before a request is dispatched, the text of
    bulky tool results is replaced by a summary, if a filter recognises it and the
    summary is shorter and not empty. The filters are total functions, so the
    guard against a filter that panics has nothing to catch. *)

From Stdlib Require Import ZArith Lia Ascii.
From stdpp Require Import base list strings.
From S2P Require Import Prelude Text Lines BTree Float Ir.

#[local] Open Scope Z_scope.

Definition MIN_COMPRESS_BYTES : Z := 500.
Definition MAX_COMPRESS_BYTES : Z := 10 * 1024 * 1024.

Record CompressionStats := mkCompressionStats {
  bytes_before : Z;
  bytes_after : Z;
  filters_applied : list string
}.

Definition CompressionStats_default : CompressionStats := mkCompressionStats 0 0 [].

Definition saved (s : CompressionStats) : Z := sat_sub (bytes_before s) (bytes_after s).

Definition ratio (s : CompressionStats) : f64 :=
  if bytes_before s =? 0 then f64_zero
  else f64_div (f64_of_Z (saved s)) (f64_of_Z (bytes_before s)).

(** ** Shapes of lines *)

Definition ellipsis : string := "…".

Definition is_path_like (line : string) : bool :=
  let t := trim line in
  negb (is_empty t) && negb (has_ws t) && (contains "/" t || contains "." t).

Definition is_tree_line (line : string) : bool :=
  let t := trim_start line in
  contains "├──" t || contains "└──" t || contains "│" t
  || starts_with "|-- " t || starts_with "`-- " t.

Definition is_ls_long_line (line : string) : bool :=
  let t := trim_start line in
  if starts_with "total " t then false
  else match byte_at 0 t with
  | None => false
  | Some first =>
      (Ascii.eqb first "-" || Ascii.eqb first "d" || Ascii.eqb first "l")
      && (10 <? byte_len t)
      && match byte_at 10 t with Some b => is_ascii_whitespace b | None => false end
      && (8 <=? Z.of_nat (length (split_whitespace t)))
  end.

Definition tab : string := String (ascii_of_nat 9) EmptyString.

Definition is_stack_trace_line (line : string) : bool :=
  let t := trim_start line in
  starts_with "at " t || starts_with ("at" ^^ tab) t || starts_with "at async " t
  || starts_with "0:" t || starts_with "1:" t || contains " panicked at " t
  || (contains ".rs:" t && contains "::" t).

Definition parse_grep_line (line : string) : option (string * string) :=
  match split_once ":" line with
  | None => None
  | Some (file, rest) =>
      match split_once ":" rest with
      | None => None
      | Some (num, content) =>
          if is_empty file || is_empty num || negb (all_bytes is_ascii_digit num) then None
          else Some (file, num ^^ ": " ^^ trim content)
      end
  end.

(** ** Filters *)

Definition count_where {A} (p : A -> bool) (l : list A) : Z :=
  Z.of_nat (length (List.filter p l)).

(** [out.push_str(..)] for every element. *)
Definition push_all {A} (f : A -> string) (l : list A) (out : string) : string :=
  fold_left (fun out x => out ^^ f x) l out.

(** The lines shown of a list and the note on the rest. *)
Definition push_more (n : nat) (len : nat) (what out : string) : string :=
  if (n <? len)%nat
  then out ^^ nl ^^ "  " ^^ ellipsis ^^ " " ^^ fmt_int (Z.of_nat len - Z.of_nat n) ^^ " more" ^^ what
  else out.

Record DiffFile := mkDiffFile { df_path : string; df_added : Z; df_removed : Z }.

Definition diff_step (st : list DiffFile * option DiffFile) (line : string)
  : list DiffFile * option DiffFile :=
  let '(files, cur) := st in
  match strip_prefix "diff --git " line with
  | Some rest =>
      let files := match cur with Some done => files ++ [done] | None => files end in
      let path := match split_whitespace rest with w :: _ => w | [] => "?" end in
      (files, Some (mkDiffFile (trim_start_matches "a/" path) 0 0))
  | None =>
      if starts_with "+++" line || starts_with "---" line || starts_with "@@" line
         || starts_with "index " line then st
      else match cur with
      | Some c =>
          if starts_with "+" line
          then (files, Some (mkDiffFile (df_path c) (df_added c + 1) (df_removed c)))
          else if starts_with "-" line
          then (files, Some (mkDiffFile (df_path c) (df_added c) (df_removed c + 1)))
          else st
      | None => st
      end
  end.

Definition filter_git_diff (text : string) : string :=
  let '(files, cur) := fold_left diff_step (lines text) ([], None) in
  let files := match cur with Some done => files ++ [done] | None => files end in
  match files with
  | [] => text
  | _ => push_all (fun f => nl ^^ "  " ^^ df_path f ^^ ": +" ^^ fmt_int (df_added f) ^^ " -"
                              ^^ fmt_int (df_removed f)) files "[git diff summary]"
  end.

(** [map.entry(k).or_insert(0) += 1]. *)
Definition bump_count (k : string) (m : BTreeMap string Z) : BTreeMap string Z :=
  bt_insert k (default 0 (bt_get k m) + 1) m.

Definition filter_grep (text : string) : string :=
  let by_file := fold_left (fun (m : BTreeMap string (list string)) line =>
    match parse_grep_line line with
    | Some (file, rest) => bt_insert file (default [] (bt_get file m) ++ [rest]) m
    | None => m
    end) (lines text) [] in
  match by_file with
  | [] => text
  | _ => push_all (fun fm : string * list string =>
           let '(file, matches) := fm in
           push_more 10 (length matches) EmptyString
             (push_all (fun m => nl ^^ "  " ^^ m) (take 10 matches)
                (nl ^^ file ^^ " (" ^^ fmt_int (Z.of_nat (length matches)) ^^ " matches)")))
           by_file "[grep matches by file]"
  end.

(** The name on a line of a tree. *)
Definition tree_entry (trimmed : string) : string :=
  trim (trim_start_matches "`--" (trim_start_matches "|--" (trim_start_matches "└──"
    (trim_start_matches "├──" (trim_start (trim_start_matches "│" trimmed)))))).

Definition tree_step (st : BTreeMap string Z * Z * Z) (line : string)
  : BTreeMap string Z * Z * Z :=
  let '(top, files, dirs) := st in
  let trimmed := trim line in
  if is_empty trimmed || str_eqb trimmed "." then st
  else
    let entry := tree_entry trimmed in
    if is_empty entry then st
    else
      let '(files, dirs) := if contains "." entry then (files + 1, dirs) else (files, dirs + 1) in
      let root := match split_char "/" entry with w :: _ => w | [] => entry end in
      (bump_count root top, files, dirs).

Definition filter_tree (text : string) : string :=
  let '(top, files, dirs) := fold_left tree_step (lines text) ([], 0, 0) in
  push_more 20 (length top) " entries"
    (push_all (fun nc : string * Z => nl ^^ "  " ^^ nc.1 ^^ ": " ^^ fmt_int nc.2 ^^ " entries")
       (take 20 top)
       ("[tree summary]" ^^ nl ^^ "  " ^^ fmt_int files ^^ " files, " ^^ fmt_int dirs ^^ " dirs")).

Record LsState := mkLsState {
  lsf_files : Z; lsf_dirs : Z; lsf_links : Z; lsf_names : list string
}.

Definition ls_step (st : LsState) (line : string) : LsState :=
  let t := trim_start line in
  if negb (is_ls_long_line t) then st
  else
    let names := match list.last (split_whitespace t) with
                 | Some name => lsf_names st ++ [name] | None => lsf_names st end in
    match byte_at 0 t with
    | Some c =>
        if Ascii.eqb c "d" then mkLsState (lsf_files st) (lsf_dirs st + 1) (lsf_links st) names
        else if Ascii.eqb c "l"
        then mkLsState (lsf_files st) (lsf_dirs st) (lsf_links st + 1) names
        else mkLsState (lsf_files st + 1) (lsf_dirs st) (lsf_links st) names
    | None => mkLsState (lsf_files st + 1) (lsf_dirs st) (lsf_links st) names
    end.

Definition filter_ls (text : string) : string :=
  let st := fold_left ls_step (lines text) (mkLsState 0 0 0 []) in
  let total := lsf_files st + lsf_dirs st + lsf_links st in
  push_more 20 (length (lsf_names st)) EmptyString
    (push_all (fun name => nl ^^ "  " ^^ name) (take 20 (lsf_names st))
       ("[ls summary]" ^^ nl ^^ "  " ^^ fmt_int total ^^ " entries: " ^^ fmt_int (lsf_files st)
        ^^ " files, " ^^ fmt_int (lsf_dirs st) ^^ " dirs, " ^^ fmt_int (lsf_links st) ^^ " links")).

Definition compact_stack_frame (frame : string) : string :=
  let trimmed := trim (trim_start_matches "at " frame) in
  match rsplit_once "(" trimmed with
  | Some (_, location) => trim_end_matches ")" location
  | None => trimmed
  end.

Definition stack_step (st : option string * list string) (line : string)
  : option string * list string :=
  let '(header, frames) := st in
  let t := trim line in
  if negb (opt_is_some header) && negb (is_empty t) && negb (is_stack_trace_line t)
  then (Some t, frames)
  else if is_stack_trace_line t then (header, frames ++ [compact_stack_frame t]) else st.

Definition filter_stack_trace (text : string) : string :=
  let '(header, frames) := fold_left stack_step (lines text) (None, []) in
  let out := match header with
    | Some h => "[stack trace summary]" ^^ nl ^^ "  " ^^ h
    | None => "[stack trace summary]"
    end in
  push_more 20 (length frames) " frames"
    (push_all (fun f => nl ^^ "  " ^^ f) (take 20 frames)
       (out ^^ nl ^^ "  " ^^ fmt_int (Z.of_nat (length frames)) ^^ " frames")).

Definition filter_find (text : string) : string :=
  let by_dir := fold_left (fun m line =>
    let path := trim line in
    if is_empty path then m
    else bump_count (match rsplit_once "/" path with Some (d, _) => d | None => "." end) m)
    (lines text) [] in
  match by_dir with
  | [] => text
  | _ => push_more 40 (length by_dir) " dirs"
           (push_all (fun dc : string * Z => nl ^^ "  " ^^ dc.1 ^^ "/ — " ^^ fmt_int dc.2
                                               ^^ " entries")
              (take 40 by_dir) "[paths grouped by directory]")
  end.

Definition build_step (st : Z * list string * list string) (line : string)
  : Z * list string * list string :=
  let '(progress, errors, warnings) := st in
  let t := trim_start line in
  if starts_with "Compiling " t || starts_with "Downloading " t || starts_with "Downloaded " t
     || starts_with "Checking " t
  then (progress + 1, errors, warnings)
  else if starts_with "error" t then (progress, errors ++ [line], warnings)
  else if starts_with "warning" t then (progress, errors, warnings ++ [line])
  else st.

Definition filter_build_output (text : string) : string :=
  let '(progress, errors, warnings) := fold_left build_step (lines text) (0, [], []) in
  let out := "[build output summary]" in
  let out := if 0 <? progress
             then out ^^ nl ^^ "  " ^^ fmt_int progress ^^ " progress lines collapsed" else out in
  let out := push_more 20 (length errors) " errors"
               (push_all (fun e => nl ^^ e) (take 20 errors) out) in
  push_more 5 (length warnings) " warnings"
    (push_all (fun w => nl ^^ w) (take 5 warnings) out).

(** Consecutive duplicates with their number; the run that is open comes last. *)
Definition collapse_step (collapsed : list (string * Z)) (line : string) : list (string * Z) :=
  match list.last collapsed with
  | Some (last, n) =>
      if str_eqb last line then removelast collapsed ++ [(last, n + 1)]
      else collapsed ++ [(line, 1)]
  | None => [(line, 1)]
  end.

Definition filter_dedup_truncate (text : string) : string :=
  let collapsed := fold_left collapse_step (lines text) [] in
  let ls := (fun lc : string * Z =>
    if 1 <? lc.2 then lc.1 ^^ "  (×" ^^ fmt_int lc.2 ^^ ")" else lc.1) <$> collapsed in
  let n := length ls in
  let ls := if (181 <? n)%nat
    then take 120 ls ++ ["  " ^^ ellipsis ^^ " " ^^ fmt_int (Z.of_nat n - 180)
                           ^^ " lines omitted " ^^ ellipsis] ++ drop (n - 60) ls
    else ls in
  join nl ls.

(** ** Detection *)

Definition Filter : Type := string -> string.

Definition build_line (l : string) : bool :=
  let t := trim_start l in
  starts_with "Compiling " t || starts_with "error[" t || starts_with "error:" t
  || starts_with "warning:" t || starts_with "Finished " t.

Definition autodetect (text : string) : option (string * Filter) :=
  let nonempty := List.filter (fun l => negb (trim_is_empty l)) (lines text) in
  let head := take 8 nonempty in
  match head with
  | [] => None
  | first :: _ =>
      if existsb (fun l => starts_with "diff --git " l || starts_with "@@ " l
                           || starts_with "--- a/" l) head
      then Some ("git_diff", filter_git_diff)
      else if 2 <=? count_where is_tree_line head then Some ("tree", filter_tree)
      else if (2 <=? count_where is_stack_trace_line head)
              || existsb (fun l => str_eqb (trim l) "stack backtrace:") head
      then Some ("stack_trace", filter_stack_trace)
      else if existsb build_line head then Some ("build_output", filter_build_output)
      else
        let grep_like := count_where (fun l => opt_is_some (parse_grep_line l)) head in
        if (2 <=? grep_like) && (Z.of_nat (length head) <=? grep_like * 2)
        then Some ("grep", filter_grep)
        else
          let ls_like := count_where is_ls_long_line head in
          if (2 <=? ls_like) || (starts_with "total " first && (1 <=? ls_like))
          then Some ("ls", filter_ls)
          else if (3 <=? Z.of_nat (length nonempty)) && forallb is_path_like nonempty
          then Some ("find", filter_find)
          else if 8 <=? Z.of_nat (length nonempty)
          then Some ("dedup_truncate", filter_dedup_truncate)
          else None
  end.

(** ** Compression *)

Definition safe_apply (text : string) (f : Filter) : option string :=
  let out := f text in
  if negb (is_empty out) && (byte_len out <? byte_len text) then Some out else None.

Definition compress_text (text : string) : string * option string :=
  match autodetect text with
  | Some (name, f) =>
      match safe_apply text f with
      | Some out => (out, Some name)
      | None => (text, None)
      end
  | None => (text, None)
  end.

(** The parts of a tool result that compression may touch: none, or one text part
    that repeats the content. *)
Definition plain_parts (content : string) (parts : list ToolResultContentPart) : bool :=
  match parts with
  | [] => true
  | [TRText text] => str_eqb text content
  | _ => false
  end.

Definition compress_part (stats : CompressionStats) (part : ContentPart)
  : CompressionStats * ContentPart :=
  match part with
  | ToolResult id content parts is_error =>
      let before := byte_len content in
      if is_error || negb (plain_parts content parts)
         || negb ((MIN_COMPRESS_BYTES <=? before) && (before <=? MAX_COMPRESS_BYTES))
      then (stats, part)
      else
        let '(compressed, filter) := compress_text content in
        (mkCompressionStats (bytes_before stats + before)
           (bytes_after stats + byte_len compressed)
           (filters_applied stats ++ match filter with Some n => [n] | None => [] end),
         ToolResult id compressed
           match parts with [TRText _] => [TRText compressed] | _ => parts end is_error)
  | _ => (stats, part)
  end.

(** A loop that updates its elements in place and threads the statistics. *)
Fixpoint compress_each {A} (f : CompressionStats -> A -> CompressionStats * A)
    (stats : CompressionStats) (l : list A) : CompressionStats * list A :=
  match l with
  | [] => (stats, [])
  | x :: l' =>
      let '(stats, x') := f stats x in
      let '(stats, l'') := compress_each f stats l' in
      (stats, x' :: l'')
  end.

Definition compress_message (stats : CompressionStats) (m : Message)
  : CompressionStats * Message :=
  let '(stats, parts) := compress_each compress_part stats (msg_content m) in
  (stats, mkMessage (msg_role m) parts (msg_cache_hint m)).

Definition compress_request (req : AiRequest) : CompressionStats * AiRequest :=
  let '(stats, ms) := compress_each compress_message CompressionStats_default (req_messages req) in
  (stats, with_messages req ms).

(** ** What compression may change

    A request comes out of [compress_request] with the same shape, and only plain,
    bulky tool results are replaced, by something shorter that is not empty; the
    statistics are the bytes that were really saved. The collapse of duplicate lines
    keeps what is needed to expand them again. *)

#[local] Open Scope Z_scope.

(** ** One text *)

(** What a caller may rely on: the text itself when no filter is named, and
    something strictly shorter that is not empty when one is. *)
Lemma compress_text_spec text :
  match compress_text text with
  | (out, None) => out = text
  | (out, Some _) => out <> EmptyString /\ byte_len out < byte_len text
  end.
Proof.
  unfold compress_text. destruct (autodetect text) as [[name f]|]; [|done].
  unfold safe_apply. destruct (f text) as [|c s] eqn:E; simpl; [done|].
  destruct (Z.ltb_spec (byte_len (String c s)) (byte_len text)); [done|done].
Qed.

Lemma compress_text_le text : byte_len (compress_text text).1 <= byte_len text.
Proof.
  pose proof (compress_text_spec text) as H.
  destruct (compress_text text) as [out [n|]]; simpl; [lia|by rewrite H].
Qed.

(** ** The shape of a request *)

(** A tool result that compression looks at. *)
Definition eligible_result (p : ContentPart) : Prop :=
  match p with
  | ToolResult _ content parts is_error =>
      is_error = false /\ (parts = [] \/ parts = [TRText content])
      /\ MIN_COMPRESS_BYTES <= byte_len content <= MAX_COMPRESS_BYTES
  | _ => False
  end.

(** The part after compression, by a case distinction on eligibility alone. *)
Inductive compressed_part : ContentPart -> ContentPart -> Prop :=
| kept_part p : ~ eligible_result p -> compressed_part p p
| shrunk_part id content parts out :
    eligible_result (ToolResult id content parts false) ->
    out = content \/ (out <> EmptyString /\ byte_len out < byte_len content) ->
    compressed_part (ToolResult id content parts false)
      (ToolResult id out match parts with [] => [] | _ => [TRText out] end false).

Definition compressed_message (m m' : Message) : Prop :=
  msg_role m' = msg_role m /\ msg_cache_hint m' = msg_cache_hint m
  /\ Forall2 compressed_part (msg_content m) (msg_content m').

(** The bytes of a part, a message, a request that are text of tool results. *)
Definition part_bytes (p : ContentPart) : Z :=
  match p with ToolResult _ content _ _ => byte_len content | _ => 0 end.

Definition zsum (l : list Z) : Z := foldr Z.add 0 l.

Definition message_bytes (m : Message) : Z := zsum (part_bytes <$> msg_content m).

Definition request_bytes (r : AiRequest) : Z := zsum (message_bytes <$> req_messages r).

(** What the statistics gained over [s]: the difference of the two sizes. *)
Definition gained (s s' : CompressionStats) (before after : Z) : Prop :=
  (bytes_before s' - bytes_after s') - (bytes_before s - bytes_after s) = before - after.

Lemma plain_parts_spec content parts :
  plain_parts content parts = true <-> parts = [] \/ parts = [TRText content].
Proof.
  destruct parts as [|[t|src d] [|q l]]; simpl; split; intros H;
    try (by auto); try (by destruct H); try (by destruct H as [H|[= H]]).
  - apply str_eqb_eq in H. subst. auto.
  - destruct H as [H|[= ->]]; [done|]. apply str_eqb_refl.
Qed.

Lemma compress_part_ineligible s p : ~ eligible_result p -> compress_part s p = (s, p).
Proof.
  destruct p as [| | |id content parts is_error| | | |]; try done. simpl. intros Hn.
  destruct is_error; [done|]. destruct (plain_parts content parts) eqn:Hp; [|done].
  apply plain_parts_spec in Hp. simpl.
  destruct (Z.leb_spec MIN_COMPRESS_BYTES (byte_len content)); [|done].
  destruct (Z.leb_spec (byte_len content) MAX_COMPRESS_BYTES); [|done].
  by destruct Hn.
Qed.

Lemma compress_part_eligible s id content parts :
  eligible_result (ToolResult id content parts false) ->
  let '(out, f) := compress_text content in
  compress_part s (ToolResult id content parts false)
  = (mkCompressionStats (bytes_before s + byte_len content) (bytes_after s + byte_len out)
       (filters_applied s ++ match f with Some n => [n] | None => [] end),
     ToolResult id out match parts with [] => [] | _ => [TRText out] end false).
Proof.
  intros (_ & Hp & Hlo & Hhi). destruct (compress_text content) as [out f] eqn:E.
  cbn [compress_part]. rewrite (proj2 (plain_parts_spec content parts) Hp).
  rewrite (proj2 (Z.leb_le _ _) Hlo), (proj2 (Z.leb_le _ _) Hhi), E. simpl.
  by destruct Hp as [->| ->].
Qed.

Lemma eligible_result_dec p : eligible_result p \/ ~ eligible_result p.
Proof.
  destruct p as [| | |id content parts is_error| | | |]; try (by right; intros []).
  simpl. destruct is_error; [right; by intros []|].
  destruct (plain_parts content parts) eqn:Hp.
  - apply plain_parts_spec in Hp.
    destruct (Z.le_gt_cases MIN_COMPRESS_BYTES (byte_len content));
    destruct (Z.le_gt_cases (byte_len content) MAX_COMPRESS_BYTES);
      try (by left); right; intros (_ & _ & ? & ?); lia.
  - right. intros (_ & H & _). apply plain_parts_spec in H. congruence.
Qed.

Lemma compress_part_spec s p :
  let '(s', p') := compress_part s p in
  compressed_part p p' /\ gained s s' (part_bytes p) (part_bytes p').
Proof.
  destruct (eligible_result_dec p) as [H|H].
  - destruct p as [| | |id content parts is_error| | | |]; try (by destruct H).
    destruct is_error; [by destruct H|].
    pose proof (compress_part_eligible s id content parts H) as Hc.
    pose proof (compress_text_spec content) as Ht.
    destruct (compress_text content) as [out f]. rewrite Hc. split.
    + apply shrunk_part; [done|]. destruct f; auto.
    + unfold gained. simpl. lia.
  - rewrite compress_part_ineligible by done. split; [by apply kept_part|].
    unfold gained. lia.
Qed.

(** The loop, for any step that relates its element and accounts for it. *)
Lemma compress_each_spec {A} (f : CompressionStats -> A -> CompressionStats * A)
    (R : A -> A -> Prop) (size : A -> Z) l s :
  (forall s x, let '(s', x') := f s x in R x x' /\ gained s s' (size x) (size x')) ->
  let '(s', l') := compress_each f s l in
  Forall2 R l l' /\ gained s s' (zsum (size <$> l)) (zsum (size <$> l')).
Proof.
  intros Hf. revert s. induction l as [|x l IH]; intros s; cbn [compress_each].
  - split; [constructor|]. unfold gained. simpl. lia.
  - specialize (Hf s x). destruct (f s x) as [s1 x'].
    specialize (IH s1). destruct (compress_each f s1 l) as [s2 l'].
    destruct Hf as [HR Hg], IH as [HR' Hg']. split; [by constructor|].
    unfold gained in *. cbn [zsum foldr fmap list_fmap] in *. unfold zsum in *. lia.
Qed.

Lemma compress_message_spec s m :
  let '(s', m') := compress_message s m in
  compressed_message m m' /\ gained s s' (message_bytes m) (message_bytes m').
Proof.
  unfold compress_message.
  pose proof (compress_each_spec compress_part compressed_part part_bytes (msg_content m) s
                compress_part_spec) as H.
  destruct (compress_each compress_part s (msg_content m)) as [s' ps].
  by destruct H as [HR Hg].
Qed.

(** The fields that dispatch and billing go by. *)
Lemma compress_request_fields req :
  (compress_request req).2 = with_messages req (req_messages (compress_request req).2).
Proof. unfold compress_request. by destruct (compress_each _ _ _). Qed.

(** Compression only touches what it may: every field of the request other
    than its messages is the same, every message keeps its role, its cache hint and
    the number and order of its parts, and a part is either kept as it is or is a
    tool result that is not an error, has no structured parts of its own and has
    between 500 bytes and 10 MiB of text; then its text is kept or replaced by a
    shorter one that is not empty, and the text part that repeats it follows. The
    statistics report exactly the bytes by which the tool results shrank. *)
Theorem compression_preserves req :
  let '(stats, req') := compress_request req in
  req' = with_messages req (req_messages req')
  /\ Forall2 compressed_message (req_messages req) (req_messages req')
  /\ saved stats = request_bytes req - request_bytes req'
  /\ 0 <= saved stats.
Proof.
  unfold compress_request.
  pose proof (compress_each_spec compress_message compressed_message message_bytes
                (req_messages req) CompressionStats_default compress_message_spec) as H.
  destruct (compress_each compress_message _ _) as [stats ms].
  destruct H as [HR Hg]. split; [done|]. split; [done|].
  unfold gained in Hg. cbn [bytes_before bytes_after CompressionStats_default] in Hg.
  assert (Hle : zsum (message_bytes <$> ms) <= zsum (message_bytes <$> req_messages req)).
  { clear Hg. induction HR as [|m m' l l' Hm _ IH]; [done|].
    cbn [zsum foldr fmap list_fmap] in *. unfold zsum in *.
    enough (message_bytes m' <= message_bytes m) by lia.
    destruct Hm as (_ & _ & Hp). unfold message_bytes, zsum. clear IH.
    induction Hp as [|p p' ps ps' Hpp _ IHp]; [done|]. cbn [fmap list_fmap foldr].
    enough (part_bytes p' <= part_bytes p) by (simpl in IHp; lia).
    destruct Hpp as [|id content parts out _ [->|[_ Hlt]]]; simpl; lia. }
  unfold saved, sat_sub, request_bytes. cbn [req_messages with_messages] in *.
  split; lia.
Qed.


(** ** Collapsing duplicate lines *)

(** The lines that a run stands for. *)
Definition expand (runs : list (string * Z)) : list string :=
  mjoin ((fun r : string * Z => replicate (Z.to_nat r.2) r.1) <$> runs).

(** No two neighbours are the same line. *)
Fixpoint runs_maximal (runs : list (string * Z)) : Prop :=
  match runs with
  | r :: ((r' :: _) as l) => r.1 <> r'.1 /\ runs_maximal l
  | _ => True
  end.

Lemma expand_app l l' : expand (l ++ l') = expand l ++ expand l'.
Proof. unfold expand. by rewrite fmap_app, join_app. Qed.

Lemma expand_one line n : expand [(line, n)] = replicate (Z.to_nat n) line.
Proof. unfold expand. simpl. by rewrite app_nil_r. Qed.

Lemma runs_maximal_snoc l r :
  runs_maximal l -> (forall x, list.last l = Some x -> x.1 <> r.1) -> runs_maximal (l ++ [r]).
Proof.
  induction l as [|x [|y l'] IH]; [done| |].
  - intros _ H. simpl. split; [by apply (H x)|done].
  - intros [Hne Hm] H. change ((x :: y :: l') ++ [r]) with (x :: ((y :: l') ++ [r])).
    cbn [runs_maximal app]. split; [done|]. apply IH; [done|]. intros z Hz. by apply H.
Qed.

Lemma runs_maximal_renumber l line n n' :
  runs_maximal (l ++ [(line, n)]) -> runs_maximal (l ++ [(line, n')]).
Proof.
  induction l as [|x [|y l'] IH]; [done|by intros []|].
  cbn [app runs_maximal]. intros [Hne Hm]. split; [done|]. by apply IH.
Qed.

(** One line read: the runs expand to one line more and stay maximal. *)
Lemma collapse_step_spec runs line :
  runs_maximal runs -> Forall (fun r => 1 <= r.2) runs ->
  let runs' := collapse_step runs line in
  expand runs' = expand runs ++ [line] /\ runs_maximal runs'
  /\ Forall (fun r => 1 <= r.2) runs'.
Proof.
  intros Hm Hp. unfold collapse_step.
  destruct runs as [|r runs' _] using rev_ind; [repeat constructor; simpl; lia|].
  rewrite last_snoc, removelast_last. destruct r as [l n].
  apply Forall_app in Hp as [Hp1 Hp2]. apply Forall_cons_1 in Hp2 as [Hn _]. simpl in Hn.
  destruct (str_eqb l line) eqn:E.
  - apply str_eqb_eq in E as ->. split_and!.
    + rewrite !expand_app, !expand_one, <- app_assoc. f_equal.
      replace (Z.to_nat (n + 1)) with (Z.to_nat n + 1)%nat by lia.
      by rewrite replicate_add.
    + by eapply runs_maximal_renumber.
    + apply Forall_app. split; [done|]. repeat constructor. simpl. lia.
  - split_and!.
    + by rewrite expand_app, (expand_one line).
    + apply runs_maximal_snoc; [done|]. intros x Hx. rewrite last_snoc in Hx.
      injection Hx as <-. simpl. intros ->. by rewrite str_eqb_refl in E.
    + apply Forall_app. split; [apply Forall_app; split; [done|by repeat constructor]|].
      repeat constructor. simpl. lia.
Qed.

(** Collapsing duplicates loses nothing: expanding the runs that
    [filter_dedup_truncate] computes gives back the lines of the text, in order, and
    the runs are as long as possible, so no two neighbours show the same line. *)
Theorem collapse_expands text :
  let runs := fold_left collapse_step (lines text) [] in
  expand runs = lines text /\ runs_maximal runs /\ Forall (fun r => 1 <= r.2) runs.
Proof.
  enough (H : forall ls runs, runs_maximal runs -> Forall (fun r => 1 <= r.2) runs ->
            let runs' := fold_left collapse_step ls runs in
            expand runs' = expand runs ++ ls /\ runs_maximal runs'
            /\ Forall (fun r => 1 <= r.2) runs').
  { by apply (H (lines text) []). }
  induction ls as [|line ls IH]; intros runs Hm Hp; simpl.
  - by rewrite app_nil_r.
  - destruct (collapse_step_spec runs line Hm Hp) as (He & Hm' & Hp').
    destruct (IH _ Hm' Hp') as (He' & Hm'' & Hp''). split_and!; try done.
    by rewrite He', He, <- app_assoc.
Qed.

(** ** Samples *)

Definition sample_diff : string :=
  "diff --git a/src/main.rs b/src/main.rs" ^^ nl ^^ "index 111..222 100644" ^^ nl
  ^^ join EmptyString (replicate 60 ("+added line" ^^ nl))
  ^^ join EmptyString (replicate 20 ("-removed line" ^^ nl)).

Definition sample_grep : string :=
  join EmptyString (replicate 12 ("src/lib.rs:7:  let x = 1;" ^^ nl))
  ^^ "src/main.rs:3: foo();" ^^ nl.

Example compress_samples :
  compress_text sample_diff
  = ("[git diff summary]" ^^ nl ^^ "  src/main.rs: +60 -20", Some "git_diff")
  /\ (compress_text sample_grep).1
     = "[grep matches by file]" ^^ nl ^^ "src/lib.rs (12 matches)"
       ^^ join EmptyString (replicate 10 (nl ^^ "  7: let x = 1;"))
       ^^ nl ^^ "  … 2 more" ^^ nl ^^ "src/main.rs (1 matches)" ^^ nl ^^ "  3: foo();".
Proof. split; vm_compute; reflexivity. Qed.
