(* ===== verification/Engine.v ===== *)
(** * The execution engine

    [crates/sb-runtime/src/execute.rs], with [hedge.rs], [usage.rs], [denial.rs]
    and [outcome.rs]: the run of one request from the budget checks through the
    two-level fallback over targets and accounts to a committed outcome.

    The run is a state-passing program over the [World], the state shared with
    other requests. Every read of the clock and every await is a [yield]: before
    the run goes on, the environment performs whatever operations other requests
    perform on the resolver, the scorecard and the ledger. What lies outside the
    modelled crates is in two records of parameters: [Env] answers the calls that
    leave the process or depend on time (adapters, token sources, clocks, the
    interleaving), [Host] the pure ones (sampling, JSON) and the plugins.

    Left out, because no later step of the run reads them: the exact-cache receipt
    attached to the decision, the evaluation events and the native-execution
    observation of the trace, log lines and spans, the post-route plugin hook, the
    first-event latency, and the tee that captures a stream for quality
    evaluation. *)

From Stdlib Require Import ZArith Lia.
From stdpp Require Import base list strings gmap option.
From S2P Require Import Prelude Text BTree Float Time Ir Config Target Routing Router.
From S2P Require Import Catalog Ledger Breaker Availability ScorecardEntry Scorecard.
From S2P Require Import Resolver Collect Profiles Trace Compress Plugins.

#[local] Open Scope Z_scope.

(** ** Requests to adapters *)

Record PreparedRequest := mkPreparedRequest {
  pr_request : AiRequest;
  pr_target : ExecutionTarget;
  pr_lease : option CredentialLease;
  pr_egress_id : option string
}.

(** The plugins of the snapshot and the pure operations of other crates. *)
Record Host := mkHost {
  h_plugins : PluginHost;
  h_request_warnings : string -> AiRequest -> ExecutionTarget -> list string;
  h_captures : AiRequest -> bool;
  h_sampled : string -> bool;
  h_evaluator_id : list string -> string;
  h_parse_json : string -> option Json
}.

Definition h_pre_route (h : Host) : AiRequest -> PluginOutcome * AiRequest := pre_route (h_plugins h).

Definition h_select_egress (h : Host) : AiRequest -> string -> option string :=
  select_egress (h_plugins h).

(** A committed stream and what its finalizer has captured. *)
Record StreamCommit := mkStreamCommit {
  sm_target : ExecutionTarget;
  sm_account_id : string;
  sm_egress : string;
  sm_attempt_started : Instant;
  sm_started : Instant;
  sm_trace : RequestTrace
}.

Inductive ExecOutcome :=
| OutStream (m : Meter) (commit : StreamCommit) (summary : string)
| OutCollected (response : AiResponse) (summary : string)
| OutError (e : ExecError).

Definition upstream (e : AdapterError) (summary : string) : ExecError :=
  mkExecError (http_status (err_class e)) "upstream_error" (err_message e) (Some summary) None.

Section Engine.
Context {S : Type} `{UsageStore S}.

(** ** The world *)

Record World := mkWorld {
  w_tick : nat;
  w_resolver : CredentialResolver;
  w_scorecard : Scorecard;
  w_posts : list AttemptInfo;
  w_ledger : UsageLedger S;
  w_combo_rr : gmap string Z;
  w_trace_log : TraceLog;
  w_trace_rows : list TraceRecord;
  w_latency : list (string * string * Z);
  w_captured : list (string * AiResponse);
  w_scoped : option (string * Z);
  w_dispatched : list PreparedRequest
}.

(** What the rest of the process does at one point of the run. *)
Record Others := mkOthers {
  o_resolver : list ROp;
  o_scorecard : Scorecard -> Scorecard;
  o_ledger : UsageLedger S -> UsageLedger S
}.

Record Env := mkEnv {
  e_clock : nat -> Instant;
  e_unix : nat -> Z;
  e_others : nat -> Others;
  e_execute : nat -> PreparedRequest -> result EventStream AdapterError;
  e_minters : nat -> list (string -> string -> option (result (string * option string) string));
  e_race : nat -> list nat;
  e_in_flight : nat -> bool
}.

Context (env : Env) (host : Host) (store_required : bool) (snap : Snapshot).

(** ** Programs *)

Definition M (A : Type) : Type := World -> A * World.

Definition ret {A} (a : A) : M A := fun w => (a, w).
Definition bind {A B} (m : M A) (k : A -> M B) : M B :=
  fun w => let '(a, w) := m w in k a w.

#[local] Notation "'let*' x := m 'in' k" := (bind m (fun x => k))
  (at level 10, x pattern, m at level 100, k at level 200,
   format "'[v' let*  x  :=  m  in '/' k ']'").

Definition gets {A} (f : World -> A) : M A := fun w => (f w, w).
Definition modify (f : World -> World) : M unit := fun w => (tt, f w).

Definition set_resolver (r : CredentialResolver) (w : World) : World :=
  mkWorld (w_tick w) r (w_scorecard w) (w_posts w) (w_ledger w) (w_combo_rr w)
    (w_trace_log w) (w_trace_rows w) (w_latency w) (w_captured w) (w_scoped w)
    (w_dispatched w).
Definition set_scorecard (s : Scorecard) (w : World) : World :=
  mkWorld (w_tick w) (w_resolver w) s (w_posts w) (w_ledger w) (w_combo_rr w)
    (w_trace_log w) (w_trace_rows w) (w_latency w) (w_captured w) (w_scoped w)
    (w_dispatched w).
Definition set_ledger (l : UsageLedger S) (w : World) : World :=
  mkWorld (w_tick w) (w_resolver w) (w_scorecard w) (w_posts w) l (w_combo_rr w)
    (w_trace_log w) (w_trace_rows w) (w_latency w) (w_captured w) (w_scoped w)
    (w_dispatched w).
Definition set_combo_rr (c : gmap string Z) (w : World) : World :=
  mkWorld (w_tick w) (w_resolver w) (w_scorecard w) (w_posts w) (w_ledger w) c
    (w_trace_log w) (w_trace_rows w) (w_latency w) (w_captured w) (w_scoped w)
    (w_dispatched w).
Definition log_dispatch (p : PreparedRequest) (w : World) : World :=
  mkWorld (w_tick w) (w_resolver w) (w_scorecard w) (w_posts w) (w_ledger w) (w_combo_rr w)
    (w_trace_log w) (w_trace_rows w) (w_latency w) (w_captured w) (w_scoped w)
    (w_dispatched w ++ [p]).
Definition log_latency (p m : string) (ms : Z) (w : World) : World :=
  mkWorld (w_tick w) (w_resolver w) (w_scorecard w) (w_posts w) (w_ledger w) (w_combo_rr w)
    (w_trace_log w) (w_trace_rows w) (w_latency w ++ [(p, m, ms)]) (w_captured w) (w_scoped w)
    (w_dispatched w).
Definition log_capture (target : string) (r : AiResponse) (w : World) : World :=
  mkWorld (w_tick w) (w_resolver w) (w_scorecard w) (w_posts w) (w_ledger w) (w_combo_rr w)
    (w_trace_log w) (w_trace_rows w) (w_latency w) (w_captured w ++ [(target, r)]) (w_scoped w)
    (w_dispatched w).
Definition set_scoped (x : option (string * Z)) (w : World) : World :=
  mkWorld (w_tick w) (w_resolver w) (w_scorecard w) (w_posts w) (w_ledger w) (w_combo_rr w)
    (w_trace_log w) (w_trace_rows w) (w_latency w) (w_captured w) x (w_dispatched w).
Definition log_trace (r : TraceRecord) (w : World) : World :=
  mkWorld (w_tick w) (w_resolver w) (w_scorecard w) (w_posts w) (w_ledger w) (w_combo_rr w)
    (trace_record (h_sampled host) (w_trace_log w) r) (w_trace_rows w) (w_latency w)
    (w_captured w) (w_scoped w) (w_dispatched w).
Definition log_trace_row (r : TraceRecord) (w : World) : World :=
  mkWorld (w_tick w) (w_resolver w) (w_scorecard w) (w_posts w) (w_ledger w) (w_combo_rr w)
    (w_trace_log w) (w_trace_rows w ++ [r]) (w_latency w) (w_captured w) (w_scoped w)
    (w_dispatched w).

(** A point at which other requests run; its number identifies it to [env]. *)
Definition yield : M nat := fun w =>
  let n := w_tick w in
  let o := e_others env n in
  (n, mkWorld (Datatypes.S n) (rrun (w_resolver w) (o_resolver o))
        (o_scorecard o (w_scorecard w)) (w_posts w) (o_ledger o (w_ledger w)) (w_combo_rr w)
        (w_trace_log w) (w_trace_rows w) (w_latency w) (w_captured w) (w_scoped w)
        (w_dispatched w)).

Definition now : M Instant := let* n := yield in ret (e_clock env n).
Definition now_unix : M Z := let* n := yield in ret (e_unix env n).

(** [started.elapsed().as_millis() as u64]. *)
Definition elapsed_ms (started : Instant) : M Z :=
  let* t := now in ret (wrap64 (as_millis (saturating_duration_since t started))).

(** ** Calls to the components *)

Definition engine_finish_attempt (ctx : AttemptFinishCtx) (o : FinishOutcome) : M unit :=
  let* now_breaker := now in
  let* now_sample := now in
  modify (fun w =>
    let a := finish_attempt
      (mkAttemptWorld (breaker (w_resolver w)) (w_posts w) (w_scorecard w))
      (sv_scorecard (cf_server (sn_config snap))) ctx o now_breaker now_sample in
    mkWorld (w_tick w) (set_breaker (w_breaker a) (w_resolver w))
      (Scorecard.w_scorecard a) (w_post_attempts a) (w_ledger w) (w_combo_rr w)
      (w_trace_log w) (w_trace_rows w) (w_latency w) (w_captured w) (w_scoped w)
      (w_dispatched w)).

Definition engine_report_failure (provider account model : string) (class : ErrorClass)
  : M unit :=
  let* t := now in
  modify (fun w =>
    set_resolver (report_failure (w_resolver w) provider account model class t).2 w).

Definition engine_report_success (provider account : string) : M unit :=
  modify (fun w => set_resolver (report_success (w_resolver w) provider account) w).

Definition engine_circuit_allows (provider : string) : M bool :=
  let* t := now in
  fun w => let '(ok, r) := circuit_allows (w_resolver w) provider t in (ok, set_resolver r w).

Definition engine_resolve (provider model : string) (exclude : gset string)
    (session : option string) (allowed : option (gset string)) : M ResolveOutcome :=
  let* t := now in
  fun w => let '(o, r) := resolve_with_session_allowed (w_resolver w) provider model exclude
                            session allowed t in (o, set_resolver r w).

(** One call of an adapter. *)
Definition dispatch (p : PreparedRequest) : M (result EventStream AdapterError) :=
  let* n := yield in
  let* _ := modify (log_dispatch p) in
  ret (e_execute env n p).

(** [fresh_lease]: the first of the token sources that knows the account mints its
    lease, or fails; an account none of them knows keeps its static lease. *)
Definition fresh_lease (n : nat) (provider account : string) (l : CredentialLease)
  : result CredentialLease string :=
  match first_some (fun mint => mint provider account) (e_minters env n) with
  | Some (Ok (token, chatgpt)) => Ok (mkCredentialLease account AuthBearer token None chatgpt)
  | Some (Err e) => Err e
  | None => Ok l
  end.

(** [record_trace]: to the store, if there is one (a failed write is only logged),
    and to the log. [w_trace_rows] are the rows handed to the store. *)
Definition engine_record_trace (r : TraceRecord) : M unit :=
  modify (fun w => log_trace r
    (if opt_is_some (l_store (w_ledger w)) then log_trace_row r w else w)).

Definition finish_trace (tr : RequestTrace) (status : Z) (started : Instant)
    (streamed : bool) : M TraceRecord :=
  let* ms := elapsed_ms started in
  let* unix := now_unix in
  ret (trace_finish status ms unix streamed tr).

(** [record_trace(trace.finish(..))]. *)
Definition close_trace (tr : RequestTrace) (status : Z) (started : Instant)
    (streamed : bool) : M unit :=
  let* r := finish_trace tr status started streamed in engine_record_trace r.

Definition record_denial_trace (req : AiRequest) (e : ExecError) (started : Instant) : M unit :=
  let d := RouteDecision_new (req_id req) "denied" in
  let d := add_reason (xe_error_type e ^^ ": " ^^ xe_message e) d in
  let d := reject (req_model req) (xe_error_type e) d in
  close_trace
    (with_principal (req_tenant req) (req_project req)
       (trace_start (req_id req) (sn_revision snap) (req_model req) "denied" d))
    (xe_status e) started (req_stream req).

(** A refusal before any attempt. *)
Definition deny (req : AiRequest) (e : ExecError) (started : Instant) : M ExecOutcome :=
  let* _ := record_denial_trace req e started in ret (OutError e).

(** ** Usage *)

Definition usage_record (req : AiRequest) (provider model account : string) (usage : Usage)
    (latency : Z) (streamed : bool) (unix : Z) : UsageRecord :=
  let r := UsageRecord_priced (req_id req) provider model (Some account) usage latency streamed
             (reg_cost_micros (sn_registry snap) provider model usage) unix in
  mkUsageRecord (ur_request_id r) (ur_tenant_id r) (ur_owner_id r) (ur_provider_id r)
    (ur_model r) (ur_account_id r) (ur_timestamp_unix r) (ur_usage r) (ur_cost_micros r)
    (Some (reg_cache_savings_micros (sn_registry snap) provider model usage)) (ur_latency_ms r)
    (ur_streamed r) (ur_workload_kind r) (ur_pricing_unit r) (ur_units_consumed r)
    (req_tenant req) (req_project req).

Definition record_usage (req : AiRequest) (provider model account : string) (usage : Usage)
    (started : Instant) (streamed : bool) : M (result unit string) :=
  let* latency := elapsed_ms started in
  let* unix := now_unix in
  let r := usage_record req provider model account usage latency streamed unix in
  fun w =>
    if store_required then
      let '(res, l) := record_checked (w_ledger w) r in (res, set_ledger l w)
    else (Ok tt, set_ledger (record_best_effort (w_ledger w) r) w).

Definition micros_usd (micros : Z) : f64 := f64_div (f64_of_Z micros) (f64_of_Z 1000000).

(** The shared shape of [global_spend_usd], [tenant_spend_usd] and
    [provider_spend_usd]: the store's rollup if it answers, an error if it must
    answer and does not, and otherwise the ledger's summary. *)
Definition spend_usd (of_rollup : UsageRollup -> Z) (of_summary : LedgerSummary -> f64)
  : M (result f64 string) :=
  let* _ := yield in
  fun w =>
    let fallback :=
      let '(s, l) := ledger_summary (w_ledger w) in (Ok (of_summary s), set_ledger l w) in
    match l_store (w_ledger w) with
    | Some s =>
        match st_usage_rollup s with
        | Ok r => (Ok (micros_usd (of_rollup r)), w)
        | Err e => if store_required then (Err ("usage store rollup failed: " ^^ e), w)
                   else fallback
        end
    | None => fallback
    end.

(** The micros of an id in a rollup's bucket list. *)
Definition bucket_micros (id : string) (l : list (string * Z * Z)) : Z :=
  match List.find (fun b => str_eqb b.1.1 id) l with Some b => b.2 | None => 0 end.

(** The dollars of an id in a summary's bucket map. *)
Definition bucket_usd (id : string) (m : BTreeMap string (Z * Z)) : f64 :=
  match bt_get id m with Some (_, micros) => micros_usd micros | None => f64_zero end.

Definition global_spend_usd : M (result f64 string) :=
  spend_usd ro_total_cost_micros (fun s => micros_usd (sum_total_cost_micros s)).

Definition engine_tenant_spend_usd (id : string) : M (result f64 string) :=
  spend_usd (fun r => bucket_micros id (ro_by_tenant r))
    (fun s => bucket_usd id (sum_by_tenant s)).

Definition provider_spend_usd (id : string) : M (result f64 string) :=
  spend_usd (fun r => bucket_micros id (ro_by_provider r))
    (fun s => bucket_usd id (sum_by_provider s)).

(** ** One attempt *)

(** How an account's turn ends: the request has its outcome, or the loop goes on
    with the next account. *)
Inductive Flow :=
| FDone (o : ExecOutcome)
| FNext (e : AdapterError) (tr : RequestTrace).

Section Attempt.
Context (req : AiRequest) (summary : string) (started : Instant) (scoped : bool).

Definition attempt_ctx (target : ExecutionTarget) (account egress : string) (ms : Z)
  : AttemptFinishCtx :=
  mkAttemptFinishCtx (req_id req) (t_id target) (t_provider_id target) account egress ms.

Definition attempt_of (target : ExecutionTarget) (account egress : string) (ms : Z)
    (r : AttemptResult) : Attempt :=
  mkAttempt (t_id target) (t_provider_id target) (t_model target) account egress ms r.

(** The tail shared by a failed dispatch, a failed commitment and a failed
    collection. *)
Definition fail_attempt (target : ExecutionTarget) (account egress : string)
    (attempt_started : Instant) (error : AdapterError) (tr : RequestTrace) : M Flow :=
  let* _ := engine_report_failure (t_provider_id target) account (t_model target)
              (err_class error) in
  let fell_over := should_fallback (err_class error) in
  let* ms := elapsed_ms attempt_started in
  let tr := trace_attempt (attempt_of target account egress ms
              (AttemptFailure (error_class_as_str (err_class error)) fell_over)) tr in
  let* _ := engine_finish_attempt (attempt_ctx target account egress ms)
              (FinishFailed (err_class error)) in
  if fell_over then ret (FNext error tr)
  else
    let* _ := close_trace tr (http_status (err_class error)) started false in
    ret (FDone (OutError (upstream error summary))).

(** The same-account retries: [fuel] is the number of retries left. Each failed
    dispatch is finished as an attempt of its own before the next one. *)
Fixpoint retry_loop (fuel : nat) (p : PreparedRequest) (account egress : string)
    (attempt_started : Instant) (exec : result EventStream AdapterError)
  : M (result EventStream AdapterError) :=
  match exec, fuel with
  | Err err, Datatypes.S fuel' =>
      if retryable (err_class err) then
        let* ms := elapsed_ms attempt_started in
        let* _ := engine_finish_attempt (attempt_ctx (pr_target p) account egress ms)
                    (FinishFailed (err_class err)) in
        let* _ := yield in
        let* exec := dispatch p in
        retry_loop fuel' p account egress attempt_started exec
      else ret exec
  | _, _ => ret exec
  end.

(** A collected response: the attempt is finished as a success before its usage is
    recorded, and a required usage write that fails fails the request. *)
Definition complete_collected (target : ExecutionTarget) (account egress : string)
    (attempt_started : Instant) (response : AiResponse) (tr : RequestTrace) : M ExecOutcome :=
  let provider := t_provider_id target in
  let model := t_model target in
  let* _ := engine_report_success provider account in
  let* ms := elapsed_ms attempt_started in
  let cost := reg_cost_micros (sn_registry snap) provider model (resp_usage response) in
  let* _ := engine_finish_attempt (attempt_ctx target account egress ms)
              (FinishOk (resp_finish_reason response) (Some cost)) in
  let* recorded := record_usage req provider model account (resp_usage response) started false in
  match recorded with
  | Err e =>
      let* _ := close_trace tr 500 started false in
      ret (OutError (ExecError_new 500 "usage_persistence_failed"
                       ("usage persistence failed: " ^^ e) None))
  | Ok _ =>
      let tr := trace_attempt (attempt_of target account egress ms AttemptSuccess) tr in
      let* _ := modify (log_latency provider model ms) in
      let tr := trace_set_usage (resp_usage response) cost tr in
      let* _ := modify (fun w => if scoped then set_scoped (Some (t_id target, cost)) w else w) in
      let* _ := close_trace tr 200 started false in
      let* _ := modify (fun w => if h_captures host req then log_capture (t_id target) response w
                                 else w) in
      ret (OutCollected response summary)
  end.

(** The work on one selected account. *)
Definition try_account (target : ExecutionTarget) (account : string) (l : CredentialLease)
    (tr : RequestTrace) : M Flow :=
  let provider := t_provider_id target in
  let cfg := sn_config snap in
  let* attempt_started := now in
  let egress_id := match h_select_egress host req (t_id target) with
    | Some e => Some e
    | None => resolve_egress cfg provider account
    end in
  let egress := reg_effective_egress (sn_registry snap) egress_id in
  let* n := yield in
  match fresh_lease n provider account l with
  | Err e =>
      let error := AdapterError_new Authentication ("oauth refresh failed: " ^^ e) in
      let* _ := engine_report_failure provider account (t_model target) (err_class error) in
      let* ms := elapsed_ms attempt_started in
      ret (FNext error (trace_attempt (attempt_of target account egress ms
             (AttemptFailure (error_class_as_str (err_class error)) true)) tr))
  | Ok l =>
      let warnings := h_request_warnings host provider req target in
      let tr := fold_left (fun tr w => trace_warning (t_id target ^^ ": " ^^ w) tr) warnings tr in
      let rejected := if sv_strict_schema_downlevel (cf_server cfg)
                      then high_lossiness_schema_warning warnings else None in
      match rejected with
      | Some warning =>
          let* ms := elapsed_ms attempt_started in
          let class := error_class_as_str UnsupportedCapability in
          let tr := trace_attempt (attempt_of target account egress ms
                      (AttemptFailure class false)) tr in
          let* _ := modify (fun w =>
            mkWorld (w_tick w) (w_resolver w) (w_scorecard w)
              (w_posts w ++ [mkAttemptInfo (attempt_ctx target account egress ms) false
                               (Some class)])
              (w_ledger w) (w_combo_rr w) (w_trace_log w) (w_trace_rows w) (w_latency w)
              (w_captured w) (w_scoped w) (w_dispatched w)) in
          let* _ := close_trace tr (http_status UnsupportedCapability) started false in
          ret (FDone (OutError (ExecError_new (http_status UnsupportedCapability)
                 "schema_downlevel_rejected"
                 ("high-lossiness schema downlevel rejected for target `" ^^ t_id target
                  ^^ "`: " ^^ warning) (Some summary))))
      | None =>
          let p := mkPreparedRequest req target (Some l) egress_id in
          let* exec := dispatch p in
          let* exec := retry_loop (Z.to_nat (rtm_retry_max (sn_runtime snap))) p account egress
                         attempt_started exec in
          match exec with
          | Err error => fail_attempt target account egress attempt_started error tr
          | Ok stream =>
              if req_stream req then
                match precommit_stream stream with
                | Err error => fail_attempt target account egress attempt_started error tr
                | Ok stream =>
                    ret (FDone (OutStream (meter_stream stream)
                      (mkStreamCommit target account egress attempt_started started tr) summary))
                end
              else
                match collect_response (h_parse_json host) stream (req_id req) (req_model req)
                        (sv_max_response_bytes (cf_server cfg)) with
                | Ok response =>
                    let* o := complete_collected target account egress attempt_started response tr in
                    ret (FDone o)
                | Err error => fail_attempt target account egress attempt_started error tr
                end
          end
      end
  end.

(** ** The loops *)

(** Where the fallback stands: the trace, the last error, and the shortest hint
    of an unavailable target. *)
Record Progress := mkProgress {
  pg_trace : RequestTrace;
  pg_last_err : option AdapterError;
  pg_retry_after : option Duration
}.

Inductive TargetFlow :=
| TDone (o : ExecOutcome)
| TNext (pg : Progress)
| TOutOfFuel.

(** The [loop] over the accounts of one target. *)
Fixpoint account_loop (fuel : nat) (target : ExecutionTarget)
    (allowed : option (gset string)) (tried : gset string) (pg : Progress) : M TargetFlow :=
  match fuel with
  | O => ret TOutOfFuel
  | Datatypes.S fuel' =>
      let* out := engine_resolve (t_provider_id target) (t_model target) tried
                    (session_affinity_key req) allowed in
      match out with
      | Selected account l =>
          let* flow := try_account target account l (pg_trace pg) in
          match flow with
          | FDone o => ret (TDone o)
          | FNext error tr =>
              account_loop fuel' target allowed ({[account]} ∪ tried)
                (mkProgress tr (Some error) (pg_retry_after pg))
          end
      | AllUnavailable (Some d) =>
          ret (TNext (mkProgress (pg_trace pg) (pg_last_err pg)
                 (Some match pg_retry_after pg with Some c => Z.min c d | None => d end)))
      | AllUnavailable None => ret (TNext pg)
      | NoAccounts => ret (TNext pg)
      end
  end.

(** The gates in front of a target: a circuit that is open or a spent budget skip
    it; a required store that cannot answer ends the request. *)
Inductive Gate := GateOpen | GateSkip | GateFail (o : ExecOutcome).

Definition target_gate (target : ExecutionTarget) : M Gate :=
  let provider := t_provider_id target in
  if negb (reg_has_adapter (sn_registry snap) provider) then ret GateSkip
  else
    let* allows := engine_circuit_allows provider in
    if negb allows then ret GateSkip
    else match bt_get provider (per_provider_usd (sv_budget (cf_server (sn_config snap)))) with
    | None => ret GateOpen
    | Some cap =>
        let* spent := provider_spend_usd provider in
        match spent with
        | Err e =>
            let* o := deny req (ExecError_new 503 "usage_store_unavailable"
                        ("usage store unavailable for budget check: " ^^ e) None) started in
            ret (GateFail o)
        | Ok spent => ret (if f_le cap spent then GateSkip else GateOpen)
        end
    end.

(** A number of turns that is enough for a provider's accounts. *)
Definition account_fuel (target : ExecutionTarget) : M nat :=
  gets (fun w => Datatypes.S (length (account_ids (w_resolver w) (t_provider_id target)))).

Fixpoint target_loop (client_profile : option ClientProfileConfig)
    (targets : list ExecutionTarget) (pg : Progress) : M TargetFlow :=
  match targets with
  | [] => ret (TNext pg)
  | target :: targets' =>
      let* gate := target_gate target in
      match gate with
      | GateFail o => ret (TDone o)
      | GateSkip => target_loop client_profile targets' pg
      | GateOpen =>
          let allowed := request_allowed_accounts (sn_config snap) req client_profile
                           (t_provider_id target) in
          let* fuel := account_fuel target in
          let* flow := account_loop fuel target allowed ∅ pg in
          match flow with
          | TNext pg => target_loop client_profile targets' pg
          | done => ret done
          end
      end
  end.

End Attempt.

(** ** The end of a committed stream *)

(** The finalizer of a metered stream. The latencies are read once. *)
Definition finalize_stream (req : AiRequest) (c : StreamCommit) (f : Finish) : M unit :=
  let '(usage, reason, finish) := f in
  let provider := t_provider_id (sm_target c) in
  let model := t_model (sm_target c) in
  let* latency := elapsed_ms (sm_started c) in
  let* ms := elapsed_ms (sm_attempt_started c) in
  let attempt r := trace_attempt
    (attempt_of (sm_target c) (sm_account_id c) (sm_egress c) ms r) (sm_trace c) in
  let ctx := attempt_ctx req (sm_target c) (sm_account_id c) (sm_egress c) ms in
  let close tr status :=
    let* unix := now_unix in engine_record_trace (trace_finish status latency unix true tr) in
  match finish with
  | Clean =>
      let* _ := engine_report_success provider (sm_account_id c) in
      let tr := attempt AttemptSuccess in
      let* _ := modify (log_latency provider model ms) in
      let cost := reg_cost_micros (sn_registry snap) provider model usage in
      let* _ := engine_finish_attempt ctx (FinishOk (default Stop reason) (Some cost)) in
      let* unix := now_unix in
      let r := usage_record req provider model (sm_account_id c) usage latency true unix in
      let* _ := modify (fun w => set_ledger
        (if store_required then (record_checked_post_commit (w_ledger w) r).2
         else record_best_effort (w_ledger w) r) w) in
      close (trace_set_usage usage cost tr) 200
  | UpstreamError class =>
      let* _ := engine_report_failure provider (sm_account_id c) model class in
      let tr := attempt (AttemptFailure (error_class_as_str class) false) in
      let* _ := engine_finish_attempt ctx (FinishFailed class) in
      close tr (http_status class)
  | Aborted =>
      let tr := attempt (AttemptFailure "client_aborted" false) in
      let* _ := engine_finish_attempt ctx FinishCancelled in
      close tr 499
  end.

(** ** Hedging *)

Record HedgeWin := mkHedgeWin {
  hw_response : AiResponse;
  hw_target : ExecutionTarget;
  hw_account_id : string;
  hw_egress : string;
  hw_latency_ms : Z;
  hw_canceled : list ExecutionTarget
}.

(** One racer. [dropped] is whether the race ends while its dispatch is in
    flight: the guard then finishes the attempt as cancelled. *)
Definition hedge_attempt (req : AiRequest) (dropped : bool) (target : ExecutionTarget)
  : M (option HedgeWin) :=
  let provider := t_provider_id target in
  let cfg := sn_config snap in
  let* started := now in
  if negb (reg_has_adapter (sn_registry snap) provider) then ret None
  else
    let* out := engine_resolve provider (t_model target) ∅ (session_affinity_key req) None in
    match out with
    | Selected account l =>
        let egress_id := match h_select_egress host req (t_id target) with
          | Some e => Some e
          | None => resolve_egress cfg provider account
          end in
        let egress := reg_effective_egress (sn_registry snap) egress_id in
        let* n := yield in
        match fresh_lease n provider account l with
        | Err _ => ret None
        | Ok l =>
            let* exec := dispatch (mkPreparedRequest req target (Some l) egress_id) in
            let finish o :=
              let* ms := elapsed_ms started in
              engine_finish_attempt (attempt_ctx req target account egress ms) o in
            let fail error :=
              let* _ := engine_report_failure provider account (t_model target)
                          (err_class error) in
              let* _ := finish (FinishFailed (err_class error)) in
              ret None in
            if dropped then let* _ := finish FinishCancelled in ret None
            else match exec with
            | Err error => fail error
            | Ok stream =>
                match collect_response (h_parse_json host) stream (req_id req) (req_model req)
                        (sv_max_response_bytes (cf_server cfg)) with
                | Err error => fail error
                | Ok response =>
                    let* _ := engine_report_success provider account in
                    let cost := reg_cost_micros (sn_registry snap) provider (t_model target)
                                  (resp_usage response) in
                    let* ms := elapsed_ms started in
                    let* _ := finish (FinishOk (resp_finish_reason response) (Some cost)) in
                    ret (Some (mkHedgeWin response target account egress ms []))
                end
            end
        end
    | _ => ret None
    end.

(** The racers in the order in which they complete; after the first success the
    ones still in flight are dropped. The order, and which racers had been
    dispatched when the race ended, are the environment's; what the racers do to
    shared state while another one is between two steps is covered by [yield]. *)
Fixpoint race (req : AiRequest) (racers : list ExecutionTarget) (order : list nat)
  : M (option HedgeWin) :=
  match order with
  | [] => ret None
  | i :: order' =>
      match racers !! i with
      | None => race req racers order'
      | Some target =>
          let* win := hedge_attempt req false target in
          match win with
          | None => race req racers order'
          | Some win =>
              let* _ := fold_left (fun m j =>
                let* _ := m in
                match racers !! j with
                | Some t => if e_in_flight env j
                            then let* _ := hedge_attempt req true t in ret tt else ret tt
                | None => ret tt
                end) order' (ret tt) in
              ret (Some (mkHedgeWin (hw_response win) (hw_target win) (hw_account_id win)
                     (hw_egress win) (hw_latency_ms win)
                     (List.filter (fun t => negb (str_eqb (t_id t) (t_id target))) racers)))
          end
      end
  end.

Definition run_hedge (req : AiRequest) (candidates : list ExecutionTarget)
  : M (option HedgeWin) :=
  let n := Nat.min (Z.to_nat (Z.max (hedge_max_parallel (sv_hedge (cf_server (sn_config snap)))) 1))
             (length candidates) in
  let* tick := yield in
  race req (take n candidates) (e_race env tick).

(** What the engine does with a winner. *)
Definition complete_hedge (req : AiRequest) (summary : string) (started : Instant)
    (tr : RequestTrace) (win : HedgeWin) : M ExecOutcome :=
  let target := hw_target win in
  let provider := t_provider_id target in
  let usage := resp_usage (hw_response win) in
  let* recorded := record_usage req provider (t_model target) (hw_account_id win) usage
                     started false in
  match recorded with
  | Err e =>
      let* _ := close_trace tr 500 started false in
      ret (OutError (ExecError_new 500 "usage_persistence_failed"
                       ("usage persistence failed: " ^^ e) None))
  | Ok _ =>
      let tr := trace_attempt (attempt_of target (hw_account_id win) (hw_egress win)
                  (hw_latency_ms win) AttemptSuccess) tr in
      let* tr := fold_left (fun m t =>
        let* tr := m in
        let* ms := elapsed_ms started in
        ret (trace_attempt (attempt_of t "unknown" "unknown" ms
               (AttemptFailure "hedge_cancelled" false)) tr)) (hw_canceled win) (ret tr) in
      let cost := reg_cost_micros (sn_registry snap) provider (t_model target) usage in
      let tr := trace_set_usage usage cost tr in
      let* r := finish_trace tr 200 started false in
      let* _ := modify (log_trace r) in
      let* _ := modify (fun w => if h_captures host req
                                 then log_capture (t_id target) (hw_response win) w else w) in
      ret (OutCollected (hw_response win) summary)
  end.

(** ** The run of a request *)

(** The spend caps in front of everything else. *)
Definition spend_gate (cap : option f64) (spend : M (result f64 string))
    (error_type prefix : string) (req : AiRequest) (started : Instant)
  : M (option ExecOutcome) :=
  match cap with
  | None => ret None
  | Some max =>
      let* spent := spend in
      match spent with
      | Err e =>
          let* o := deny req (ExecError_new 503 "usage_store_unavailable"
                      ("usage store unavailable for budget check: " ^^ e) None) started in
          ret (Some o)
      | Ok spent =>
          if f_le max spent then
            let* o := deny req (ExecError_new 402 error_type
              (prefix ^^ "budget exceeded: spent $" ^^ fmt_fixed 4 spent ^^ " of $"
               ^^ fmt_fixed 4 max ^^ " cap") None) started in
            ret (Some o)
          else ret None
      end
  end.

(** Goes on with [k] unless the gate ended the request. *)
Definition unless {A} (gate : M (option A)) (k : M A) : M A :=
  let* g := gate in match g with Some a => ret a | None => k end.

(** The closing error, when no target gave an outcome. *)
Definition no_outcome (req : AiRequest) (summary : string) (started : Instant)
    (d : RouteDecision) (unknown : list string) (pg : Progress) : M ExecOutcome :=
  match pg_last_err pg, pg_retry_after pg with
  | Some error, _ =>
      let* _ := close_trace (pg_trace pg) (http_status (err_class error)) started false in
      ret (OutError (upstream error summary))
  | None, Some d =>
      let* _ := close_trace (pg_trace pg) 503 started false in
      ret (OutError (with_retry_after (ExecError_new 503 "provider_unavailable"
        ("all accounts for eligible targets are temporarily unavailable; retry after "
         ^^ fmt_int (as_millis d) ^^ "ms") (Some summary)) d))
  | None, None =>
      let* _ := close_trace (pg_trace pg) 400 started false in
      let rejected := join "," ((fun r => rej_target_id r ^^ ":" ^^ rej_reason r)
                                <$> d_rejected d) in
      ret (OutError (ExecError_new 400 "invalid_request_error"
        ("no eligible target: rejected=" ^^ rejected ^^ " unknown=[" ^^ join "," unknown ^^ "]")
        (Some summary)))
  end.

Definition image_marker : string :=
  "[image omitted: this model cannot accept image input, so the attached image was not sent]".

(** The run with its plan: hedging, then the fallback loop. *)
Definition run_plan (req : AiRequest) (client_profile : option ClientProfileConfig)
    (scope : option (gset string)) (started : Instant) (route_name : string)
    (unknown : list string) (plan : RoutePlan) : M ExecOutcome :=
  let d := plan_decision plan in
  let req := if degraded "vision_in" d then (strip_image_parts image_marker req).1 else req in
  let summary := summary d in
  let session := session_affinity_key req in
  let tr := with_client_metadata (bt_get "client_profile" (req_metadata req))
              (bt_get "client_protocol" (req_metadata req))
              (with_session_id session
                 (with_principal (req_tenant req) (req_project req)
                    (trace_start (req_id req) (sn_revision snap) (req_model req) route_name d))) in
  let sequential :=
    let* flow := target_loop req summary started (opt_is_some scope) client_profile
                   (plan_candidates plan) (mkProgress tr None None) in
    match flow with
    | TDone o => ret o
    | TNext pg => no_outcome req summary started d unknown pg
    | TOutOfFuel => ret (OutError (ExecError_new 0 "out of fuel" EmptyString None))
    end in
  if negb (opt_is_some scope) && rtm_hedge_enabled (sn_runtime snap) && negb (req_stream req)
     && (2 <=? Z.of_nat (length (plan_candidates plan)))
  then
    let* win := run_hedge req (plan_candidates plan) in
    match win with
    | Some win => complete_hedge req summary started tr win
    | None => sequential
    end
  else sequential.

(** Candidate resolution and planning; the targets outside the scope are removed
    before planning and listed as rejected after it. *)
Definition run_route (req : AiRequest) (client_profile : option ClientProfileConfig)
    (scope : option (gset string)) (started : Instant) : M ExecOutcome :=
  let* t := now in
  let* resolved := (fun w =>
    let '(r, sc) := resolve_candidates (h_evaluator_id host) snap (req_model req)
                      (w_resolver w) (w_scorecard w) t in (r, set_scorecard sc w)) in
  match resolved with
  | Err e => deny req e started
  | Ok resolved =>
      let '(cs, scope_rejected) := match scope with
        | Some allowed => retain_or (fun c => if set_has allowed (t_id c) then None
                                              else Some (t_id c)) (cr_candidates resolved)
        | None => (cr_candidates resolved, [])
        end in
      let* planned := (fun w =>
        let '(p, c) := plan_resolved_route (w_combo_rr w) snap (w_resolver w) req client_profile
                         (set_candidates cs resolved) true in (p, set_combo_rr c w)) in
      match planned with
      | Err e => deny req e started
      | Ok (route_name, plan) =>
          let d := fold_left (fun d id =>
            reject id "quality_eval scope: target not body-allowlisted" d) scope_rejected
            (plan_decision plan) in
          run_plan req client_profile scope started route_name (cr_unknown resolved)
            (mkRoutePlan (plan_candidates plan) d)
      end
  end.

Definition execute_inner (req : AiRequest) (started : Instant) (scope : option (gset string))
  : M ExecOutcome :=
  let cfg := sn_config snap in
  unless (spend_gate (rtm_budget_max_usd (sn_runtime snap)) global_spend_usd
            "budget_exceeded" EmptyString req started)
  (let tenant_cap := match req_tenant req with
     | Some id => match tenant cfg id with Some t => tn_budget_usd t | None => None end
     | None => None
     end in
   let id := default EmptyString (req_tenant req) in
   unless (spend_gate tenant_cap (engine_tenant_spend_usd id) "tenant_budget_exceeded"
             ("tenant `" ^^ id ^^ "` ") req started)
   (let req := if sv_compress_tool_results (cf_server cfg) then (compress_request req).2 else req in
    let '(verdict, req) := h_pre_route host req in
    match verdict with
    | PluginReject status message =>
        deny req (ExecError_new status "plugin_rejected" message None) started
    | PluginContinue =>
        match apply_request_client_profile cfg req with
        | Err e => deny req e started
        | Ok (client_profile, req) => run_route req client_profile scope started
        end
    end)).

Definition execute (req : AiRequest) (started : Instant) : M (Z * ExecOutcome) :=
  let* o := execute_inner req started None in ret (sn_revision snap, o).

Definition execute_scoped (req : AiRequest) (started : Instant) (allowed : gset string)
  : M (ExecOutcome * option (string * Z)) :=
  let* _ := modify (set_scoped None) in
  let* o := execute_inner req started (Some allowed) in
  let* success := gets w_scoped in ret (o, success).

End Engine.
