(* ===== verification/EngineTheorems.v ===== *)
(** * The execution engine: theorems

    Every theorem holds for every environment: whatever the adapters answer, and
    whatever other requests do to the resolver, the scorecard and the ledger
    between any two steps of the run. *)

From Stdlib Require Import ZArith Lia.
From stdpp Require Import base list strings gmap option.
From S2P Require Import Prelude Text BTree Float Time Ir Config Target Routing Router.
From S2P Require Import Catalog Ledger Breaker Availability ScorecardEntry Scorecard.
From S2P Require Import Plugins.
From S2P Require Import Resolver ResolverTheorems Collect Profiles Trace Engine.

#[local] Open Scope Z_scope.

(** ** Triples

    The proofs follow the run through what it leaves behind that other requests
    cannot touch: the configured providers, the calls made to adapters, and the
    number of attempts reported as finished. *)

Section Runs.
Context {S : Type} `{UsageStore S}.
Context (env : Env (S := S)) (host : Host) (store_required : bool) (snap : Snapshot).

Local Abbreviation W := (World (S := S)).

Definition View : Type := gmap string ProviderAccounts * list PreparedRequest * Z.

Definition view (w : W) : View :=
  (providers (w_resolver w), w_dispatched w, Z.of_nat (length (w_posts w))).

(** From a state with the view [v] the program ends with a result and a view in
    [Q]. *)
Definition triple {A} (v : View) (m : M A) (Q : A -> View -> Prop) : Prop :=
  forall w : W, view w = v -> Q (m w).1 (view (m w).2).

Lemma triple_ret {A} v (a : A) (Q : A -> View -> Prop) : Q a v -> triple v (ret a) Q.
Proof. intros Hq w <-. done. Qed.

Lemma triple_bind {A B} v (m : M A) (k : A -> M B) R Q :
  triple v m R -> (forall a v', R a v' -> triple v' (k a) Q) -> triple v (bind m k) Q.
Proof.
  intros Hm Hk w Hw. unfold bind. specialize (Hm w Hw). destruct (m w) as [a w'].
  by apply (Hk a _ Hm).
Qed.

Lemma triple_weaken {A} v (m : M A) (Q Q' : A -> View -> Prop) :
  triple v m Q' -> (forall a v', Q' a v' -> Q a v') -> triple v m Q.
Proof. intros Hm Hq w Hw. apply Hq, Hm, Hw. Qed.

(** A step that the view does not show. *)
Definition silent {A} (m : M A) : Prop := forall w : W, view (m w).2 = view w.

Lemma silent_ret {A} (a : A) : silent (ret a).
Proof. done. Qed.

Lemma silent_bind {A B} (m : M A) (k : A -> M B) :
  silent m -> (forall a, silent (k a)) -> silent (bind m k).
Proof.
  intros Hm Hk w. unfold bind. specialize (Hm w). destruct (m w) as [a w']. simpl in Hm.
  by rewrite Hk.
Qed.

Lemma silent_modify f : (forall w : W, view (f w) = view w) -> silent (modify f).
Proof. intros Hf w. apply Hf. Qed.

Lemma triple_silent {A} v (m : M A) (Q : A -> View -> Prop) :
  silent m -> (forall a, Q a v) -> triple v m Q.
Proof. intros Hm Hq w <-. rewrite Hm. apply Hq. Qed.

(** A silent step in front. *)
Lemma triple_then {A B} v (m : M A) (k : A -> M B) Q :
  silent m -> (forall a, triple v (k a) Q) -> triple v (bind m k) Q.
Proof.
  intros Hm Hk. apply (triple_bind v m k (fun _ v' => v' = v)).
  - by apply triple_silent.
  - intros a v' ->. apply Hk.
Qed.

Create HintDb engine.
#[local] Hint Resolve silent_ret silent_bind silent_modify : engine.
#[local] Hint Extern 1 (silent (if _ then _ else _)) => case_match : engine.
#[local] Hint Extern 1 (silent (match _ with _ => _ end)) => case_match : engine.
#[local] Hint Extern 2 (view _ = view _) => (reflexivity || (case_match; reflexivity)) : engine.

Lemma rrun_providers os r : providers (rrun r os) = providers r.
Proof.
  revert r. induction os as [|o os IH]; intros r; [done|]. unfold rrun in *. simpl.
  rewrite IH. destruct o; simpl.
  - apply resolve_providers.
  - unfold report_failure. by destruct (Availability.report_failure _ _ _ _ _ _).
  - done.
  - unfold reset_lockout. destruct (providers r !! _); [|done].
    destruct (negb _); [done|]. by destruct (Availability.reset_lockout _ _ _ _).
  - unfold circuit_allows. by destruct (Breaker.allows _ _ _).
  - done.
Qed.

Lemma silent_yield : silent (yield env).
Proof. intros w. unfold view. simpl. by rewrite rrun_providers. Qed.
#[local] Hint Resolve silent_yield : engine.

Lemma silent_now : silent (now env).
Proof. unfold now. eauto with engine. Qed.
Lemma silent_now_unix : silent (now_unix env).
Proof. unfold now_unix. eauto with engine. Qed.
#[local] Hint Resolve silent_now silent_now_unix : engine.

Lemma silent_elapsed t : silent (elapsed_ms env t).
Proof. unfold elapsed_ms. eauto with engine. Qed.
#[local] Hint Resolve silent_elapsed : engine.

Lemma silent_report_failure p a m c : silent (engine_report_failure env p a m c).
Proof.
  unfold engine_report_failure. apply silent_bind; [eauto with engine|]. intros t w.
  unfold modify, report_failure. simpl. by destruct (Availability.report_failure _ _ _ _ _ _).
Qed.

Lemma silent_report_success p a : silent (engine_report_success p a).
Proof. unfold engine_report_success. eauto with engine. Qed.

Lemma silent_circuit_allows p : silent (engine_circuit_allows env p).
Proof.
  unfold engine_circuit_allows. apply silent_bind; [eauto with engine|]. intros t w.
  unfold circuit_allows. by destruct (Breaker.allows _ _ _).
Qed.

Lemma silent_record_trace r : silent (engine_record_trace host r).
Proof. unfold engine_record_trace. apply silent_modify. intros w. by destruct (opt_is_some _). Qed.
#[local] Hint Resolve silent_report_failure silent_report_success silent_circuit_allows
  silent_record_trace : engine.

Lemma silent_finish_trace tr s t b : silent (finish_trace env tr s t b).
Proof. unfold finish_trace. eauto with engine. Qed.
#[local] Hint Resolve silent_finish_trace : engine.
Lemma silent_close_trace tr s t b : silent (close_trace env host tr s t b).
Proof. unfold close_trace. eauto with engine. Qed.
#[local] Hint Resolve silent_close_trace : engine.

Lemma silent_deny req e t : silent (deny env host snap req e t).
Proof. unfold deny, record_denial_trace. eauto with engine. Qed.

Lemma silent_record_usage req p m a u t b :
  silent (record_usage env store_required snap req p m a u t b).
Proof.
  unfold record_usage. apply silent_bind; [eauto with engine|]. intros l.
  apply silent_bind; [eauto with engine|]. intros x w.
  destruct store_required; [|done]. by destruct (record_checked _ _).
Qed.

Lemma silent_spend f g : silent (spend_usd env store_required f g).
Proof.
  unfold spend_usd. apply silent_bind; [eauto with engine|]. intros n w.
  destruct (l_store _); [destruct (st_usage_rollup _); [done|destruct store_required; [done|]]|];
    by destruct (ledger_summary _).
Qed.
#[local] Hint Resolve silent_deny silent_record_usage silent_spend : engine.

Lemma silent_resolve p m ex s al : silent (engine_resolve env p m ex s al).
Proof.
  unfold engine_resolve. apply silent_bind; [eauto with engine|]. intros t w.
  destruct (resolve_with_session_allowed _ _ _ _ _ _ _) as [o r] eqn:E. unfold view. simpl.
  pose proof (resolve_providers (w_resolver w) p m ex s al t) as [Hp _]. rewrite E in Hp.
  by simpl in Hp; rewrite Hp.
Qed.

(** ** Visible steps *)

Definition ids_of (pv : gmap string ProviderAccounts) (provider : string) : list string :=
  match pv !! provider with Some pa => acc_id <$> pa_accounts pa | None => [] end.

Lemma triple_resolve v p m ex s al :
  triple v (engine_resolve env p m ex s al) (fun out v' => v' = v
    /\ forall a l, out = Selected a l ->
         a ∈ ids_of v.1.1 p /\ (a ∉ ex) /\ (forall x, al = Some x -> a ∈ x)
         /\ provider_account_id l = a).
Proof.
  intros w Hw. split; [by rewrite silent_resolve|]. intros a l.
  unfold engine_resolve, bind, now. unfold bind, yield, ret. simpl.
  set (r := rrun _ _). destruct (resolve_with_session_allowed _ _ _ _ _ _ _) as [o r'] eqn:E.
  simpl. intros ->. assert (Hp : providers r = v.1.1).
  { unfold r. rewrite rrun_providers. by rewrite <- Hw. }
  apply resolve_selected in E as (pa & acc & Hpa & Ha & Hu & -> & ->).
  apply usable_iff in Hu as (? & ? & _). split_and!; try done.
  - unfold ids_of. rewrite <- Hp, Hpa. apply list_elem_of_fmap. by exists acc.
  - unfold lease. by destruct (acc_auth acc).
Qed.

Lemma triple_finish pv d n ctx o :
  triple (pv, d, n) (engine_finish_attempt env snap ctx o) (fun _ v' => v' = (pv, d, n + 1)).
Proof.
  unfold engine_finish_attempt. apply triple_then; [eauto with engine|]. intros t1.
  apply triple_then; [eauto with engine|]. intros t2 w [= <- <- <-]. unfold view, modify. simpl.
  f_equal. destruct o; simpl; rewrite length_app; simpl; lia.
Qed.

Lemma triple_dispatch pv d n p :
  triple (pv, d, n) (dispatch env p) (fun _ v' => v' = (pv, d ++ [p], n)).
Proof.
  unfold dispatch. apply triple_then; [eauto with engine|]. intros t w [= <- <- <-].
  done.
Qed.

(** Retries repeat the same call, at most [fuel] times, and each call they give up
    on is finished. *)
Lemma triple_retry fuel p account egress t exec pv d n :
  triple (pv, d, n) (retry_loop env snap (pr_request p) fuel p account egress t exec)
    (fun _ v' => exists k, (k <= fuel)%nat
       /\ v' = (pv, d ++ replicate k p, n + Z.of_nat k)).
Proof.
  assert (Hstop : forall (m : M (result EventStream AdapterError)) d n, silent m ->
    triple (pv, d, n) m (fun _ v' => exists k, (k <= fuel)%nat
       /\ v' = (pv, d ++ replicate k p, n + Z.of_nat k))).
  { intros m d0 n0 Hm. apply triple_silent; [done|]. intros _. exists 0%nat.
    rewrite Z.add_0_r. simpl. rewrite app_nil_r. split; [lia|done]. }
  revert d n exec Hstop. induction fuel as [|fuel IH]; intros d n exec Hstop; simpl.
  { destruct exec; apply Hstop, silent_ret. }
  destruct exec as [stream|err]; [apply Hstop, silent_ret|].
  destruct (retryable (err_class err)); [|apply Hstop, silent_ret].
  apply triple_then; [eauto with engine|]. intros ms.
  eapply triple_bind; [apply triple_finish|]. intros _ v' ->.
  apply triple_then; [eauto with engine|]. intros _.
  eapply triple_bind; [apply triple_dispatch|]. intros exec v' ->.
  eapply triple_weaken; [apply IH|].
  - intros m d0 n0 Hm. apply triple_silent; [done|]. intros _. exists 0%nat.
    rewrite Z.add_0_r. simpl. rewrite app_nil_r. split; [lia|done].
  - intros _ v' (k & Hk & ->). exists (Datatypes.S k). split; [lia|].
    simpl. rewrite <- app_assoc. simpl. f_equal. lia.
Qed.

(** ** One attempt *)

(** The attempts of an outcome that are still to be finished: the one behind a
    committed stream; a schema rejection is reported without a call. *)
Definition unsettled (o : ExecOutcome) : Z :=
  match o with
  | OutStream _ _ _ => 1
  | OutError e => if str_eqb (xe_error_type e) "schema_downlevel_rejected" then -1 else 0
  | OutCollected _ _ => 0
  end.

Section Request.
Context (req : AiRequest) (summary : string) (started : Instant) (scoped : bool).

Lemma triple_fail target account egress t error tr pv d n :
  triple (pv, d, n)
    (fail_attempt env host snap req summary started target account egress t error tr)
    (fun flow v' => v' = (pv, d, n + 1)
       /\ match flow with
          | FNext e _ => e = error /\ should_fallback (err_class error) = true
          | FDone o => o = OutError (upstream error summary)
              /\ should_fallback (err_class error) = false
          end).
Proof.
  unfold fail_attempt. apply triple_then; [eauto with engine|]. intros _.
  apply triple_then; [eauto with engine|]. intros ms.
  eapply triple_bind; [apply triple_finish|]. intros _ v' ->.
  destruct (should_fallback (err_class error)); [by apply triple_ret|].
  apply triple_then; [eauto with engine|]. intros _. by apply triple_ret.
Qed.

Lemma triple_collected target account egress t response tr pv d n :
  triple (pv, d, n)
    (complete_collected env host store_required snap req summary started scoped target account
       egress t response tr)
    (fun o v' => v' = (pv, d, n + 1) /\ unsettled o = 0).
Proof.
  unfold complete_collected. apply triple_then; [eauto with engine|]. intros _.
  apply triple_then; [eauto with engine|]. intros ms.
  eapply triple_bind; [apply triple_finish|]. intros _ v' ->.
  apply triple_then; [eauto with engine|]. intros [u|e].
  - repeat (apply triple_then; [eauto with engine|intros _]). by apply triple_ret.
  - apply triple_then; [eauto with engine|]. intros _. by apply triple_ret.
Qed.

(** The calls of one account's turn. *)
Definition turn (target : ExecutionTarget) (account : string) (l : list PreparedRequest)
  : Prop :=
  (length l <= Datatypes.S (Z.to_nat (rtm_retry_max (sn_runtime snap))))%nat
  /\ Forall (fun p => pr_request p = req /\ pr_target p = target
       /\ exists le, pr_lease p = Some le /\ provider_account_id le = account) l.

Lemma triple_try target account le tr pv d n :
  provider_account_id le = account ->
  triple (pv, d, n)
    (try_account env host store_required snap req summary started scoped target account le tr)
    (fun flow v' => exists l k, v' = (pv, d ++ l, n + k) /\ turn target account l
       /\ match flow with
          | FNext _ _ => k = Z.of_nat (length l)
          | FDone o => k + unsettled o = Z.of_nat (length l)
          end).
Proof.
  intros Hle. unfold try_account. apply triple_then; [eauto with engine|]. intros t.
  apply triple_then; [eauto with engine|]. intros tick.
  set (egress := reg_effective_egress _ _). set (egress_id := match h_select_egress _ _ _ with
    Some _ => _ | None => _ end) in *.
  assert (Hnil : turn target account []) by (split; [simpl; lia|constructor]).
  destruct (fresh_lease env tick (t_provider_id target) account le) as [le'|e] eqn:Efresh.
  2: { apply triple_then; [eauto with engine|]. intros _.
       apply triple_then; [eauto with engine|]. intros ms. apply triple_ret.
       exists [], 0. rewrite app_nil_r, Z.add_0_r. done. }
  assert (Hle' : provider_account_id le' = account).
  { unfold fresh_lease in Efresh. by repeat case_match; simplify_eq/=. }
  destruct (if sv_strict_schema_downlevel _ then _ else None) as [warning|].
  { apply triple_then; [eauto with engine|]. intros ms.
    apply (triple_bind _ _ _ (fun _ v' => v' = (pv, d, n + 1))).
    { intros w [= <- <- <-]. unfold view, modify. simpl. rewrite length_app. simpl.
      f_equal. lia. }
    intros _ v' ->. apply triple_then; [eauto with engine|]. intros _. apply triple_ret.
    exists [], 1. rewrite app_nil_r. done. }
  set (p := mkPreparedRequest req target (Some le') egress_id).
  eapply triple_bind; [apply triple_dispatch|]. intros exec v' ->.
  eapply triple_bind; [apply (triple_retry _ p)|]. intros exec' v' (k & Hk & ->).
  assert (Hturn : turn target account (replicate (Datatypes.S k) p)).
  { split; [rewrite length_replicate; lia|]. apply List.Forall_forall.
    intros q Hq. apply list_elem_of_In, elem_of_replicate in Hq as [-> _]. simpl. eauto. }
  assert (Hd : (d ++ [p]) ++ replicate k p = d ++ replicate (Datatypes.S k) p)
    by (by rewrite <- app_assoc).
  assert (Hfail : forall error tr, triple (pv, (d ++ [p]) ++ replicate k p, n + Z.of_nat k)
    (fail_attempt env host snap req summary started target account egress t error tr)
    (fun flow v' => exists l k', v' = (pv, d ++ l, n + k') /\ turn target account l
       /\ match flow with
          | FNext _ _ => k' = Z.of_nat (length l)
          | FDone o => k' + unsettled o = Z.of_nat (length l)
          end)).
  { intros error tr'. eapply triple_weaken; [apply triple_fail|].
    intros flow v' [-> Hf]. exists (replicate (Datatypes.S k) p), (Z.of_nat k + 1).
    rewrite Hd, length_replicate. split_and!; [f_equal; lia|done|].
    destruct flow as [o|e' tr'']; [destruct Hf as [-> _]; simpl|]; lia. }
  destruct exec' as [stream|error]; [|apply Hfail].
  destruct (req_stream req).
  - destruct (precommit_stream stream) as [stream'|error]; [|apply Hfail].
    apply triple_ret. exists (replicate (Datatypes.S k) p), (Z.of_nat k).
    rewrite Hd, length_replicate. split_and!; [done|done|simpl; lia].
  - destruct (collect_response _ _ _ _ _) as [response|error]; [|apply Hfail].
    eapply triple_bind; [apply triple_collected|]. intros o v' [-> Ho]. apply triple_ret.
    exists (replicate (Datatypes.S k) p), (Z.of_nat k + 1).
    rewrite Hd, length_replicate, Ho. split_and!; [f_equal; lia|done|lia].
Qed.

(** ** The loops *)

Definition account_of (p : PreparedRequest) : option string :=
  provider_account_id <$> pr_lease p.

Definition per_account : nat := Datatypes.S (Z.to_nat (rtm_retry_max (sn_runtime snap))).

(** The accounts of a provider that were not tried. *)
Definition untried (pv : gmap string ProviderAccounts) (provider : string)
    (tried : gset string) : nat :=
  size ((list_to_set (ids_of pv provider) : gset string) ∖ tried).

(** A call that the policy of the request permits. *)
Definition permitted (pv : gmap string ProviderAccounts) (target : ExecutionTarget)
    (allowed : option (gset string)) (p : PreparedRequest) : Prop :=
  pr_request p = req /\ pr_target p = target
  /\ exists a, account_of p = Some a /\ a ∈ ids_of pv (t_provider_id target)
     /\ forall s, allowed = Some s -> a ∈ s.

(** The calls of one target. *)
Definition calls (pv : gmap string ProviderAccounts) (target : ExecutionTarget)
    (allowed : option (gset string)) (tried : gset string) (l : list PreparedRequest) : Prop :=
  Forall (permitted pv target allowed) l
  /\ Forall (fun p => forall a, account_of p = Some a -> a ∉ tried) l
  /\ (forall a, length (filter (fun p => account_of p = Some a) l) <= per_account)%nat
  /\ (length l <= untried pv (t_provider_id target) tried * per_account)%nat.

Lemma calls_nil pv target allowed tried : calls pv target allowed tried [].
Proof. split_and!; [constructor|constructor|simpl; lia|simpl; lia]. Qed.

Lemma untried_step pv p tried a :
  a ∈ ids_of pv p -> (a ∉ tried) ->
  untried pv p tried = Datatypes.S (untried pv p ({[a]} ∪ tried)).
Proof.
  intros Ha Ht. unfold untried. set (X := list_to_set (ids_of pv p) : gset string).
  assert (HX : a ∈ X ∖ tried) by (unfold X; set_solver). clearbody X.
  replace (X ∖ ({[a]} ∪ tried)) with ((X ∖ tried) ∖ {[a]}) by set_solver.
  rewrite (size_difference (X ∖ tried) {[a]}) by (by apply singleton_subseteq_l).
  rewrite size_singleton.
  assert (size (X ∖ tried) <> 0%nat); [|lia]. intros H0%size_empty_inv. set_solver.
Qed.

Lemma filter_none {A} (P : A -> Prop) `{!forall x, Decision (P x)} (l : list A) :
  Forall (fun x => ~ P x) l -> filter P l = [].
Proof. induction 1 as [|x l Hx Hl IH]; [done|]. by rewrite filter_cons_False. Qed.

Lemma calls_turn pv target allowed tried a l1 l2 :
  a ∈ ids_of pv (t_provider_id target) -> (a ∉ tried) ->
  (forall s, allowed = Some s -> a ∈ s) ->
  turn target a l1 -> calls pv target allowed ({[a]} ∪ tried) l2 ->
  calls pv target allowed tried (l1 ++ l2).
Proof.
  intros Ha Ht Hal [Hlen H1] (H2 & H2t & H2c & H2l).
  assert (H1a : Forall (fun p => account_of p = Some a) l1).
  { eapply List.Forall_impl; [|exact H1]. intros p (_ & _ & le & E & <-). unfold account_of.
    by rewrite E. }
  unfold calls. rewrite !Forall_app. split_and!; [|done| | | |].
  - eapply List.Forall_impl; [|exact H1]. intros p (Hr & Htg & le & E & Hacc).
    split_and!; [done|done|]. exists a. unfold account_of. rewrite E. simpl. by rewrite Hacc.
  - eapply List.Forall_impl; [|exact H1a]. intros p E a' E'. congruence.
  - eapply List.Forall_impl; [|exact H2t]. intros p Hp a' E. specialize (Hp a' E). set_solver.
  - intros b. rewrite list.filter_app, length_app. destruct (decide (b = a)) as [->|Hne].
    + rewrite (filter_none _ l2).
      * pose proof (length_filter (fun p => account_of p = Some a) l1). simpl.
        unfold per_account. lia.
      * eapply List.Forall_impl; [|exact H2t]. intros p Hp E. specialize (Hp a E). set_solver.
    + rewrite (filter_none _ l1).
      * apply H2c.
      * eapply List.Forall_impl; [|exact H1a]. intros p E E'. congruence.
  - rewrite length_app, (untried_step _ _ _ a Ha Ht). unfold per_account in *. lia.
Qed.

Lemma triple_account_loop target allowed pv :
  forall fuel tried pg d n,
  (untried pv (t_provider_id target) tried < fuel)%nat ->
  triple (pv, d, n)
    (account_loop env host store_required snap req summary started scoped fuel target allowed
       tried pg)
    (fun flow v' => flow <> TOutOfFuel
       /\ exists l k, v' = (pv, d ++ l, n + k) /\ calls pv target allowed tried l
          /\ match flow with
             | TDone o => k + unsettled o = Z.of_nat (length l)
             | _ => k = Z.of_nat (length l)
             end).
Proof.
  induction fuel as [|fuel IH]; intros tried pg d n Hfuel; [lia|]. simpl.
  assert (Hstop : forall pg', triple (pv, d, n) (ret (TNext pg'))
    (fun flow v' => flow <> TOutOfFuel
       /\ exists l k, v' = (pv, d ++ l, n + k) /\ calls pv target allowed tried l
          /\ match flow with
             | TDone o => k + unsettled o = Z.of_nat (length l)
             | _ => k = Z.of_nat (length l)
             end)).
  { intros pg'. apply triple_ret. split; [done|]. exists [], 0.
    rewrite app_nil_r, Z.add_0_r. split_and!; [done|apply calls_nil|done]. }
  eapply triple_bind; [apply triple_resolve|]. intros out v' [-> Hsel].
  destruct out as [account le|[hint|]|]; [|apply Hstop|apply Hstop|apply Hstop].
  destruct (Hsel account le eq_refl) as (Ha & Ht & Hal & Hle). simpl in Ha.
  eapply triple_bind; [by apply triple_try|]. intros flow v' (l1 & k1 & -> & Hturn & Hk1).
  destruct flow as [o|error tr].
  - apply triple_ret. split; [done|]. exists l1, k1. split_and!; [done| |done].
    rewrite <- (app_nil_r l1). eapply calls_turn; try done. apply calls_nil.
  - eapply triple_weaken; [apply IH|].
    + rewrite (untried_step _ _ _ account) in Hfuel by done. lia.
    + intros flow' v' (Hf & l2 & k2 & -> & Hc & Hk2). split; [done|].
      exists (l1 ++ l2), (k1 + k2). rewrite app_assoc, Z.add_assoc, length_app.
      split_and!; [done|by eapply calls_turn|]. destruct flow'; lia.
Qed.

Lemma silent_gate target : silent (target_gate env host store_required snap req started target).
Proof. unfold target_gate, provider_spend_usd. eauto 12 with engine. Qed.

(** The result of a gate that ends the request owes nothing. *)
Lemma gate_settled target :
  forall v, triple v (target_gate env host store_required snap req started target)
    (fun g v' => v' = v /\ match g with GateFail o => unsettled o = 0 | _ => True end).
Proof.
  intros v w Hw. split; [by rewrite silent_gate|].
  unfold target_gate, bind. repeat case_match; simplify_eq/=; try done.
  unfold deny, bind, ret in *. repeat case_match; by simplify_eq/=.
Qed.

(** The calls of the targets in the order of the plan. *)
Definition plan_calls (pv : gmap string ProviderAccounts)
    (client_profile : option ClientProfileConfig) (targets : list ExecutionTarget)
    (l : list PreparedRequest) : Prop :=
  exists ls, l = concat ls
  /\ Forall2 (fun t lt => calls pv t (request_allowed_accounts (sn_config snap) req
       client_profile (t_provider_id t)) ∅ lt) targets ls.

Lemma plan_calls_nil pv cp targets : plan_calls pv cp targets [].
Proof.
  exists ((fun _ => []) <$> targets). split.
  - induction targets as [|t targets IH]; [done|]. exact IH.
  - apply Forall2_fmap_r. apply Forall_Forall2_diag. apply Forall_true. intros t. apply calls_nil.
Qed.

Lemma plan_calls_cons pv cp t targets l1 l2 :
  calls pv t (request_allowed_accounts (sn_config snap) req cp (t_provider_id t)) ∅ l1 ->
  plan_calls pv cp targets l2 -> plan_calls pv cp (t :: targets) (l1 ++ l2).
Proof. intros H1 (ls & -> & H2). exists (l1 :: ls). split; [done|by constructor]. Qed.

Lemma untried_bound pv p : (untried pv p ∅ <= length (ids_of pv p))%nat.
Proof.
  unfold untried. etransitivity; [apply subseteq_size, subseteq_difference_l; reflexivity|].
  induction (ids_of pv p) as [|x l IH]; simpl; [done|].
  rewrite size_union_alt, size_singleton.
  assert (size ((list_to_set l : gset string) ∖ {[x]}) <= size (list_to_set l : gset string))%nat
    by (apply subseteq_size; set_solver).
  lia.
Qed.

Lemma triple_target_loop cp pv :
  forall targets pg d n,
  triple (pv, d, n)
    (target_loop env host store_required snap req summary started scoped cp targets pg)
    (fun flow v' => flow <> TOutOfFuel
       /\ exists l k, v' = (pv, d ++ l, n + k) /\ plan_calls pv cp targets l
          /\ match flow with
             | TDone o => k + unsettled o = Z.of_nat (length l)
             | _ => k = Z.of_nat (length l)
             end).
Proof.
  induction targets as [|t targets IH]; intros pg d n; simpl.
  { apply triple_ret. split; [done|]. exists [], 0. rewrite app_nil_r, Z.add_0_r.
    split_and!; [done|apply plan_calls_nil|done]. }
  eapply triple_bind; [apply gate_settled|]. intros gate v' [-> Hgate].
  destruct gate as [| |o].
  - apply (triple_bind _ _ _ (fun fuel v' => v' = (pv, d, n)
      /\ fuel = Datatypes.S (length (ids_of pv (t_provider_id t))))).
    { intros w [= <- <- <-]. done. }
    intros fuel v' [-> ->]. eapply triple_bind.
    { apply triple_account_loop. pose proof (untried_bound pv (t_provider_id t)). lia. }
    intros flow v' (Hf & l1 & k1 & -> & Hc & Hk1). destruct flow as [o|pg'|]; [| |done].
    + apply triple_ret. split; [done|]. exists l1, k1. split_and!; [done| |done].
      rewrite <- (app_nil_r l1). apply plan_calls_cons; [done|apply plan_calls_nil].
    + eapply triple_weaken; [apply IH|]. intros flow v' (Hf' & l2 & k2 & -> & Hc2 & Hk2).
      split; [done|]. exists (l1 ++ l2), (k1 + k2). rewrite app_assoc, Z.add_assoc, length_app.
      split_and!; [done|by apply plan_calls_cons|]. destruct flow; lia.
  - eapply triple_weaken; [apply IH|]. intros flow v' (Hf' & l2 & k2 & -> & Hc2 & Hk2).
    split; [done|]. exists l2, k2. split_and!; [done| |done].
    apply (plan_calls_cons pv cp t targets [] l2); [apply calls_nil|done].
  - apply triple_ret. split; [done|]. exists [], 0. rewrite app_nil_r, Z.add_0_r, Hgate.
    split_and!; [done|apply plan_calls_nil|done].
Qed.

End Request.

(** ** Whole runs *)

(** Every call the program makes is finished by the program. *)
Definition settles {A} (m : M A) (owes : A -> Z) : Prop := forall pv d n,
  triple (pv, d, n) m (fun a v' => exists l k, v' = (pv, d ++ l, n + k)
    /\ k + owes a = Z.of_nat (length l)).

Definition nothing {A} (_ : A) : Z := 0.

Lemma settles_silent {A} (m : M A) owes :
  silent m -> (forall w, owes (m w).1 = 0) -> settles m owes.
Proof.
  intros Hs Ho pv d n w Hw. exists [], 0. rewrite Hs, Hw, app_nil_r, Z.add_0_r.
  split; [done|]. by rewrite Ho.
Qed.

Lemma settles_ret {A} (a : A) owes : owes a = 0 -> settles (ret a) owes.
Proof. intros Ha. by apply settles_silent; [apply silent_ret|]. Qed.

Lemma settles_bind {A B} (m : M A) (k : A -> M B) owes :
  settles m nothing -> (forall a, settles (k a) owes) -> settles (bind m k) owes.
Proof.
  intros Hm Hk pv d n. eapply triple_bind; [apply Hm|]. intros a v' (l1 & k1 & -> & E1).
  eapply triple_weaken; [apply Hk|]. intros b v' (l2 & k2 & -> & E2).
  exists (l1 ++ l2), (k1 + k2). rewrite app_assoc, Z.add_assoc, length_app.
  unfold nothing in E1. split; [done|lia].
Qed.

Lemma settles_then {A B} (m : M A) (k : A -> M B) owes :
  silent m -> (forall a, settles (k a) owes) -> settles (bind m k) owes.
Proof. intros Hm Hk. apply settles_bind; [by apply settles_silent|done]. Qed.

(** A silent step whose result the rest depends on. *)
Lemma settles_then_post {A B} (m : M A) (k : A -> M B) (post : A -> Prop) owes :
  silent m -> (forall w, post (m w).1) -> (forall a, post a -> settles (k a) owes) ->
  settles (bind m k) owes.
Proof.
  intros Hm Hp Hk pv d n. apply (triple_bind _ _ _ (fun a v' => v' = (pv, d, n) /\ post a)).
  - intros w Hw. by rewrite Hm.
  - intros a v' [-> Ha]. by apply Hk.
Qed.

#[local] Hint Resolve silent_resolve : engine.

(** A racer finishes the call it makes, whether it wins, fails or is dropped. *)
Lemma settles_hedge_attempt req dropped target :
  settles (hedge_attempt env host snap req dropped target) nothing.
Proof.
  unfold hedge_attempt. apply settles_then; [eauto with engine|]. intros t.
  destruct (negb _); [by apply settles_ret|].
  apply settles_then; [eauto with engine|]. intros out.
  destruct out as [account le| |]; [|by apply settles_ret|by apply settles_ret].
  apply settles_then; [eauto with engine|]. intros tick.
  destruct (fresh_lease _ _ _ _ _) as [le'|]; [|by apply settles_ret].
  set (p := mkPreparedRequest _ _ _ _). intros pv d n.
  eapply triple_bind; [apply triple_dispatch|]. intros exec v' ->.
  assert (Hend : forall (m : M (option HedgeWin)) ctx o,
    (forall v, triple v m (fun _ v' => v' = v)) ->
    triple (pv, d ++ [p], n)
      (bind (bind (elapsed_ms env t) (fun ms => engine_finish_attempt env snap (ctx ms) o))
            (fun _ => m))
      (fun a v' => exists l k, v' = (pv, d ++ l, n + k) /\ k + nothing a = Z.of_nat (length l))).
  { intros m ctx o Hm. eapply triple_bind.
    - apply triple_then; [eauto with engine|]. intros ms. apply triple_finish.
    - intros _ v' ->. eapply triple_weaken; [apply Hm|]. intros a v' ->.
      exists [p], 1. done. }
  assert (Hret : forall (a : option HedgeWin) v, triple v (ret a) (fun _ v' => v' = v))
    by (intros a v; by apply triple_ret).
  assert (Hfail : forall error, triple (pv, d ++ [p], n)
    (bind (engine_report_failure env (t_provider_id target) account (t_model target)
             (err_class error)) (fun _ =>
     bind (bind (elapsed_ms env t) (fun ms => engine_finish_attempt env snap
             (attempt_ctx req target account
                (reg_effective_egress (sn_registry snap) (pr_egress_id p)) ms)
             (FinishFailed (err_class error)))) (fun _ => ret (None : option HedgeWin))))
    (fun a v' => exists l k, v' = (pv, d ++ l, n + k) /\ k + nothing a = Z.of_nat (length l))).
  { intros error. apply triple_then; [eauto with engine|]. intros _. apply Hend. intros v.
    apply Hret. }
  destruct dropped.
  { apply (Hend (ret (None : option HedgeWin))). intros v. apply Hret. }
  destruct exec as [stream|error]; [|apply Hfail].
  destruct (collect_response _ _ _ _ _) as [response|error]; [|apply Hfail].
  apply triple_then; [eauto with engine|]. intros _.
  apply triple_then; [eauto with engine|]. intros ms. apply Hend. intros v. apply Hret.
Qed.

Lemma settles_fold {A} (f : A -> M unit) (l : list A) (m : M unit) :
  settles m nothing -> (forall a, settles (f a) nothing) ->
  settles (fold_left (fun m a => bind m (fun _ => f a)) l m) nothing.
Proof.
  intros Hm Hf. revert m Hm. induction l as [|a l IH]; intros m Hm; [done|]. simpl.
  apply IH. by apply settles_bind.
Qed.

Lemma settles_race req racers order : settles (race env host snap req racers order) nothing.
Proof.
  induction order as [|i order IH]; simpl; [by apply settles_ret|].
  destruct (racers !! i) as [target|]; [|apply IH].
  apply settles_bind; [apply settles_hedge_attempt|]. intros [win|]; [|apply IH].
  apply settles_bind; [|intros _; by apply settles_ret].
  apply settles_fold; [by apply settles_ret|]. intros j.
  destruct (racers !! j) as [t|]; [|by apply settles_ret].
  destruct (e_in_flight env j); [|by apply settles_ret].
  apply settles_bind; [apply settles_hedge_attempt|]. intros _. by apply settles_ret.
Qed.

Lemma silent_fold {A B} (f : B -> A -> M B) (l : list A) (m : M B) :
  silent m -> (forall b a, silent (f b a)) ->
  silent (fold_left (fun m a => bind m (fun b => f b a)) l m).
Proof.
  intros Hm Hf. revert m Hm. induction l as [|a l IH]; intros m Hm; [done|]. simpl.
  apply IH. eauto with engine.
Qed.

Lemma settles_complete_hedge req summary t tr win :
  settles (complete_hedge env host store_required snap req summary t tr win) unsettled.
Proof.
  unfold complete_hedge. apply settles_then; [eauto with engine|]. intros [u|e].
  - apply settles_then.
    { apply silent_fold; [eauto with engine|]. intros b a. eauto with engine. }
    intros tr'. repeat (apply settles_then; [eauto with engine|]; intros ?).
    by apply settles_ret.
  - apply settles_then; [eauto with engine|]. intros _. by apply settles_ret.
Qed.

Lemma settles_no_outcome req summary t d unknown pg :
  settles (no_outcome env host req summary t d unknown pg) unsettled.
Proof.
  unfold no_outcome. destruct (pg_last_err pg), (pg_retry_after pg);
    (apply settles_then; [eauto with engine|]; intros _; by apply settles_ret).
Qed.

Lemma settles_run_plan req cp scope t route_name unknown plan :
  settles (run_plan env host store_required snap req cp scope t route_name unknown plan)
    unsettled.
Proof.
  unfold run_plan. set (req' := if degraded _ _ then _ else _). set (tr := with_client_metadata _ _ _).
  set (d := plan_decision plan). cbv zeta.
  set (seq := bind (target_loop _ _ _ _ _ _ _ _ _ _ _) _).
  assert (Hseq : settles seq unsettled).
  { intros pv dl n. unfold seq. eapply triple_bind; [apply triple_target_loop|].
    intros flow v' (Hf & l & k & -> & _ & Hk). destruct flow as [o|pg|]; [| |done].
    - apply triple_ret. eauto.
    - eapply triple_weaken; [apply settles_no_outcome|]. intros o v' (l2 & k2 & -> & E).
      exists (l ++ l2), (k + k2). rewrite app_assoc, Z.add_assoc, length_app.
      split; [done|lia]. }
  clearbody seq. destruct (_ && _ && _ && _); [|done].
  apply settles_bind.
  - unfold run_hedge. apply settles_then; [eauto with engine|]. intros tick. apply settles_race.
  - intros [win|]; [apply settles_complete_hedge|done].
Qed.

(** A refusal, whose error is not the schema rejection. *)
Lemma settles_deny req e t :
  xe_error_type e <> "schema_downlevel_rejected" -> settles (deny env host snap req e t) unsettled.
Proof.
  intros He. unfold deny. apply settles_then; [unfold record_denial_trace; eauto with engine|].
  intros _. apply settles_ret. simpl. unfold str_eqb. by rewrite bool_decide_eq_false_2.
Qed.

Lemma match_candidates_error model e :
  match_candidates snap model = Err e -> xe_error_type e <> "schema_downlevel_rejected".
Proof. unfold match_candidates. intros Hm. repeat case_match; by simplify_eq/=. Qed.

Lemma client_profile_error cfg req e :
  apply_request_client_profile cfg req = Err e ->
  xe_error_type e <> "schema_downlevel_rejected".
Proof.
  unfold apply_request_client_profile, try, infer_client_profile_for_model, check_client_profile, try.
  intros Hm. repeat case_match; by simplify_eq/=.
Qed.

Lemma settles_run_route req cp scope t :
  settles (run_route env host store_required snap req cp scope t) unsettled.
Proof.
  unfold run_route. apply settles_then; [eauto with engine|]. intros now.
  apply (settles_then_post _ _ (fun r => match r with
    | Err e => xe_error_type e <> "schema_downlevel_rejected" | Ok _ => True end)).
  - intros w. by destruct (resolve_candidates _ _ _ _ _ _).
  - intros w. unfold resolve_candidates. destruct (match_candidates _ _) eqn:E; simpl.
    + by destruct (fold_left _ _ _).
    + by apply match_candidates_error in E.
  - intros [resolved|e] He; [|by apply settles_deny].
    destruct (match scope with Some _ => _ | None => _ end) as [cs rejected].
    apply (settles_then_post _ _ (fun r => match r with
      | Err e => xe_error_type e <> "schema_downlevel_rejected" | Ok _ => True end)).
    + intros w. by destruct (plan_resolved_route _ _ _ _ _ _ _).
    + intros w. unfold plan_resolved_route. repeat case_match; by simplify_eq/=.
    + intros [[route_name plan]|e] He'; [apply settles_run_plan|by apply settles_deny].
Qed.

Lemma settles_spend_gate cap spend ty pre req t :
  silent spend -> ty <> "schema_downlevel_rejected" ->
  settles (spend_gate env host snap cap spend ty pre req t)
    (fun o => match o with Some o => unsettled o | None => 0 end).
Proof.
  intros Hs Hty. unfold spend_gate. destruct cap as [max|]; [|by apply settles_ret].
  apply settles_then; [done|]. intros [spent|e]; [destruct (f_le max spent)|].
  2: by apply settles_ret.
  all: intros pv d n; eapply triple_bind; [apply settles_deny; done|];
    intros o v' Ho; apply triple_ret; exact Ho.
Qed.

Lemma settles_unless gate k :
  settles gate (fun o => match o with Some o => unsettled o | None => 0 end) ->
  settles k unsettled -> settles (unless gate k) unsettled.
Proof.
  intros Hg Hk pv d n. unfold unless. eapply triple_bind; [apply Hg|].
  intros [o|] v' (l & x & -> & E).
  - apply triple_ret. eauto.
  - eapply triple_weaken; [apply Hk|]. intros o v' (l2 & k2 & -> & E2).
    exists (l ++ l2), (x + k2). rewrite app_assoc, Z.add_assoc, length_app. split; [done|lia].
Qed.

Lemma settles_execute req t scope :
  settles (execute_inner env host store_required snap req t scope) unsettled.
Proof.
  unfold execute_inner. apply settles_unless.
  { apply settles_spend_gate; [unfold global_spend_usd; eauto with engine|done]. }
  apply settles_unless.
  { apply settles_spend_gate; [unfold engine_tenant_spend_usd; eauto with engine|done]. }
  destruct (h_pre_route _ _) as [[|status message] req']; [|by apply settles_deny].
  destruct (apply_request_client_profile _ _) as [[cp req'']|e] eqn:E.
  - apply settles_run_route.
  - apply settles_deny. by apply client_profile_error in E.
Qed.

(** The end of a stream finishes its attempt and makes no call. *)
Lemma triple_finalize req c f pv d n :
  triple (pv, d, n) (finalize_stream env host store_required snap req c f)
    (fun _ v' => v' = (pv, d, n + 1)).
Proof.
  destruct f as [[usage reason] finish]. unfold finalize_stream.
  apply triple_then; [eauto with engine|]. intros latency.
  apply triple_then; [eauto with engine|]. intros ms.
  assert (Hclose : forall status tr v, triple v
    (bind (now_unix env) (fun unix =>
       engine_record_trace host (trace_finish status latency unix true tr)))
    (fun _ v' => v' = v)).
  { intros status tr v. apply triple_silent; [eauto with engine|done]. }
  destruct finish as [|class|].
  - do 2 (apply triple_then; [eauto with engine|]; intros _).
    eapply triple_bind; [apply triple_finish|]. intros _ v' ->.
    do 2 (apply triple_then; [eauto with engine|]; intros ?). apply Hclose.
  - apply triple_then; [eauto with engine|]. intros _.
    eapply triple_bind; [apply triple_finish|]. intros _ v' ->. apply Hclose.
  - eapply triple_bind; [apply triple_finish|]. intros _ v' ->. apply Hclose.
Qed.

End Runs.
