(* ===== verification/EngineProperties.v ===== *)
(** * The execution engine: properties

    Termination and order of the fallback, the settlement of every call, tenant
    isolation, budgets and billing, for every environment. *)

From Stdlib Require Import ZArith Lia.
From stdpp Require Import base list strings gmap option.
From S2P Require Import Prelude Text BTree Float Time Ir Config Target Routing Router RouterSpec.
From S2P Require Import RouterTheorems.
From S2P Require Import Catalog Ledger Breaker Availability ScorecardEntry Scorecard.
From S2P Require Import Plugins.
From S2P Require Import Resolver ResolverTheorems Collect Profiles Trace Engine EngineTheorems.
From S2P Require Import UsageTable LedgerTheorems Compress.

#[local] Open Scope Z_scope.

Section Properties.
Context {S : Type} `{UsageStore S}.
Context (env : Env (S := S)) (host : Host) (store_required : bool) (snap : Snapshot).

(** ** The fallback *)

(** The calls a plan may make at most: every account of every target, once and
    then again for each retry. *)
Definition call_bound (r : CredentialResolver) (targets : list ExecutionTarget) : nat :=
  sum_list_with (fun t => length (account_ids r (t_provider_id t)) * per_account snap)%nat
    targets.

Lemma plan_calls_bound req pv cp r targets l :
  providers r = pv -> plan_calls snap req pv cp targets l ->
  (length l <= call_bound r targets)%nat.
Proof.
  intros <- (ls & -> & Hl). unfold call_bound.
  induction Hl as [|t lt targets ls (_ & _ & _ & Hn) Hl IH]; [done|]. simpl.
  rewrite length_app. pose proof (untried_bound (providers r) (t_provider_id t)) as Hu.
  change (account_ids r (t_provider_id t)) with (ids_of (providers r) (t_provider_id t)).
  nia.
Qed.

(** C38 (termination). Whatever the adapters answer and whatever other requests do in
    between, the two nested loops of the fallback end: they never use up the fuel
    of the account loop, and the calls they make are bounded by the configured
    accounts of the planned targets, each called once and then once per retry. *)
Theorem fallback_terminates req summary started scoped cp targets pg (w : World (S := S)) :
  let r := target_loop env host store_required snap req summary started scoped cp targets pg w in
  r.1 <> TOutOfFuel
  /\ (length (w_dispatched r.2)
      <= length (w_dispatched w) + call_bound (w_resolver w) targets)%nat.
Proof.
  destruct (triple_target_loop env host store_required snap req summary started scoped cp _
              targets pg _ _ w eq_refl) as (Hf & l & k & Hv & Hc & _).
  split; [done|]. injection Hv as _ -> _. rewrite length_app.
  pose proof (plan_calls_bound req _ cp (w_resolver w) targets l eq_refl Hc). lia.
Qed.

(** ** Settlement *)

(** C4 (invariant). Every call made to an adapter is finished exactly once: after a
    run the attempts reported as finished are the calls it made, but for the call
    behind a stream it committed to, which is left to the stream's finalizer, and
    a schema rejection, which is reported without a call. The finalizer makes
    no call and finishes exactly one. *)
Theorem attempts_finished_once req started scope (w : World (S := S)) c f :
  (let r := execute_inner env host store_required snap req started scope w in
   let finished := Z.of_nat (length (w_posts r.2)) - Z.of_nat (length (w_posts w)) in
   exists l, w_dispatched r.2 = w_dispatched w ++ l
   /\ finished = Z.of_nat (length l) + match r.1 with
        | OutStream _ _ _ => -1
        | OutError e => if str_eqb (xe_error_type e) "schema_downlevel_rejected" then 1 else 0
        | OutCollected _ _ => 0
        end)
  /\ let w' := (finalize_stream env host store_required snap req c f w).2 in
     w_dispatched w' = w_dispatched w
     /\ length (w_posts w') = Datatypes.S (length (w_posts w)).
Proof.
  split.
  - destruct (settles_execute env host store_required snap req started scope _ _ _ w eq_refl)
      as (l & k & Hv & Hk).
    injection Hv as _ Hd Hp. cbv zeta. exists l. split; [done|]. rewrite Hp. clear Hd Hp.
    destruct (execute_inner _ _ _ _ _ _ _ _).1; simpl in *; [lia|lia|].
    destruct (str_eqb _ _); lia.
  - cbv zeta. injection (triple_finalize env host store_required snap req c f _ _ _ w eq_refl)
      as _ -> Hn. split; [done|lia].
Qed.

(** ** Tenants *)

(** The policy of the request's tenant on a call: its provider is one of the
    tenant's, and so is its account, by a reference [provider/account]. *)
Definition tenant_permits (p : PreparedRequest) : Prop :=
  forall id t, req_tenant (pr_request p) = Some id -> tenant (sn_config snap) id = Some t ->
  let provider := t_provider_id (pr_target p) in
  (tn_allowed_providers t <> [] -> provider ∈ tn_allowed_providers t)
  /\ (tn_allowed_accounts t <> [] ->
      exists a, account_of p = Some a /\ (provider ^^ "/" ^^ a) ∈ tn_allowed_accounts t).

Lemma account_refs_spec refs provider a :
  a ∈ accounts_for_provider_refs refs provider -> (provider ^^ "/" ^^ a) ∈ refs.
Proof.
  unfold accounts_for_provider_refs. intros (ref & Hr & E)%elem_of_list_to_set%list_elem_of_omap.
  destruct (split_once "/" ref) as [[q b]|] eqn:Es; [|done].
  destruct (str_eqb q provider) eqn:Eq; [|done]. apply bool_decide_eq_true in Eq as ->.
  simplify_eq/=. by apply split_once_spec in Es as <-.
Qed.

Lemma provider_allowed_spec t provider :
  tenant_provider_allowed t provider = true -> tn_allowed_providers t <> [] ->
  provider ∈ tn_allowed_providers t.
Proof.
  unfold tenant_provider_allowed. intros [He|He]%orb_prop Hne.
  - by destruct (tn_allowed_providers t).
  - apply existsb_exists in He as (q & Hq & E). apply bool_decide_eq_true in E as ->.
    by apply list_elem_of_In.
Qed.

Lemma allowed_account_spec req cp id t provider a :
  req_tenant req = Some id -> tenant (sn_config snap) id = Some t ->
  tn_allowed_accounts t <> [] ->
  (forall s, request_allowed_accounts (sn_config snap) req cp provider = Some s -> a ∈ s) ->
  (provider ^^ "/" ^^ a) ∈ tn_allowed_accounts t.
Proof.
  intros Hid Ht Hne Ha. apply account_refs_spec. unfold request_allowed_accounts in Ha.
  rewrite Hid, Ht in Ha. destruct (tn_allowed_accounts t) as [|x l] eqn:E; [done|]. simpl in Ha.
  unfold tenant_allowed_accounts in Ha. rewrite E in Ha.
  destruct (client_profile_allowed_accounts cp provider); simpl in Ha;
    specialize (Ha _ eq_refl); set_solver.
Qed.

(** The targets of a plan are the candidates the tenant's policy leaves. *)
Lemma planned_provider_allowed rr r req cp resolved adv name plan id t c :
  (plan_resolved_route rr snap r req cp resolved adv).1 = Ok (name, plan) ->
  req_tenant req = Some id -> tenant (sn_config snap) id = Some t ->
  c ∈ plan_candidates plan -> tenant_provider_allowed t (t_provider_id c) = true.
Proof.
  intros Hp Hid Ht Hc. unfold plan_resolved_route in Hp.
  destruct (apply_combo_order _ _ _) as [res rr']. rewrite Hid, Ht in Hp.
  destruct (negb (tenant_route_allowed _ _)); [done|].
  destruct (retain_or (tenant_verdict r t) (cr_candidates res)) as [cs rej] eqn:Er.
  assert (Hcs : forall x, x ∈ cs -> tenant_provider_allowed t (t_provider_id x) = true).
  { unfold retain_or in Er. injection Er as <- _.
    intros x [_ Hx]%list_elem_of_In%filter_In. unfold tenant_verdict in Hx.
    by destruct (tenant_provider_allowed t _). }
  destruct (match cp with Some _ => _ | None => _ end) as [cs' rej'] eqn:Ep.
  apply Hcs. assert (Hsub : forall x, x ∈ cs' -> x ∈ cs).
  { intros x Hx. destruct cp as [p|]; [destruct (list_empty _)|]; simplify_eq; try done.
    unfold retain_or in Ep. injection Ep as <- _.
    apply list_elem_of_In, filter_In in Hx as [Hx _]. by apply list_elem_of_In. }
  apply Hsub. simplify_eq/=. rewrite plan_candidates_perm in Hc. unfold filtered, survivors_of in Hc.
  by apply list_elem_of_filter in Hc as [_ Hc].
Qed.

Lemma client_profile_tenant cfg req cp req' :
  apply_request_client_profile cfg req = Ok (cp, req') -> req_tenant req' = req_tenant req.
Proof.
  unfold apply_request_client_profile, try. intros E. repeat case_match; by simplify_eq/=.
Qed.

(** Every call the program makes is in [P]. *)
Definition emits {A} (m : M (S := S) A) (P : PreparedRequest -> Prop) : Prop :=
  forall w, exists l, w_dispatched (m w).2 = w_dispatched w ++ l /\ Forall P l.

Lemma emits_silent {A} (m : M A) P : silent m -> emits m P.
Proof.
  intros Hm w. exists []. rewrite app_nil_r. split; [|constructor].
  by injection (Hm w).
Qed.

(** A silent step in front, with what is known of its result. *)
Lemma emits_then {A B} (m : M A) (k : A -> M B) (post : A -> Prop) P :
  silent m -> (forall w, post (m w).1) -> (forall a, post a -> emits (k a) P) ->
  emits (bind m k) P.
Proof.
  intros Hm Hp Hk w. specialize (Hp w). injection (Hm w) as _ Hd _. unfold bind.
  destruct (m w) as [a w']. simpl in *. destruct (Hk a Hp w') as (l & E & Hl).
  exists l. by rewrite E, Hd.
Qed.

Lemma emits_bind {A B} (m : M A) (k : A -> M B) P :
  emits m P -> (forall a, emits (k a) P) -> emits (bind m k) P.
Proof.
  intros Hm Hk w. destruct (Hm w) as (l & E & Hl). unfold bind. destruct (m w) as [a w'].
  simpl in E. destruct (Hk a w') as (l' & E' & Hl'). exists (l ++ l').
  rewrite E', E, app_assoc. split; [done|]. by apply Forall_app.
Qed.

Lemma emits_target_loop req summary t scoped cp targets pg :
  (forall id tn c, req_tenant req = Some id -> tenant (sn_config snap) id = Some tn ->
     c ∈ targets -> tenant_provider_allowed tn (t_provider_id c) = true) ->
  emits (target_loop env host store_required snap req summary t scoped cp targets pg)
    (fun p => tenant_permits p /\ req_tenant (pr_request p) = req_tenant req).
Proof.
  intros Hp w.
  destruct (triple_target_loop env host store_required snap req summary t scoped cp _
              targets pg _ _ w eq_refl) as (_ & l & k & Hv & (ls & -> & Hl) & _).
  injection Hv as _ Hd _. exists (concat ls). split; [done|]. clear Hd.
  induction Hl as [|c lt targets ls (Hc & _) Hl IH]; [constructor|]. simpl. apply Forall_app.
  split; [|apply IH; intros; by eapply Hp; [| |constructor]].
  eapply List.Forall_impl; [|exact Hc]. intros p (Hr & Ht & a & Ha & _ & Hal).
  split; [|by rewrite Hr]. intros id tn Hid Htn. rewrite Hr in Hid. rewrite Ht. simpl. split.
  - apply provider_allowed_spec. apply (Hp id tn c Hid Htn). constructor.
  - intros Hne. exists a. split; [done|]. by eapply allowed_account_spec.
Qed.

Lemma silent_no_outcome req summary t d unknown pg :
  silent (no_outcome env host req summary t d unknown pg).
Proof.
  unfold no_outcome. destruct (pg_last_err pg), (pg_retry_after pg);
    (apply silent_bind; [apply silent_close_trace|]; intros _; apply silent_ret).
Qed.

Lemma emits_run_plan req cp scope t name unknown plan :
  rtm_hedge_enabled (sn_runtime snap) = false ->
  (forall id tn c, req_tenant req = Some id -> tenant (sn_config snap) id = Some tn ->
     c ∈ plan_candidates plan -> tenant_provider_allowed tn (t_provider_id c) = true) ->
  emits (run_plan env host store_required snap req cp scope t name unknown plan)
    (fun p => tenant_permits p /\ req_tenant (pr_request p) = req_tenant req).
Proof.
  intros Hh Hplan. unfold run_plan. rewrite Hh, andb_false_r. cbn [andb].
  set (req' := if degraded _ _ then _ else _).
  assert (Hten : req_tenant req' = req_tenant req).
  { unfold req'. destruct (degraded _ _); [|done]. by rewrite (proj1 (strip_image_parts_ok _ _)). }
  rewrite <- Hten in *. clearbody req'. apply emits_bind; [by apply emits_target_loop|].
  intros [o|pg|]; apply emits_silent; [apply silent_ret|apply silent_no_outcome|apply silent_ret].
Qed.

Lemma emits_run_route req cp scope t :
  rtm_hedge_enabled (sn_runtime snap) = false ->
  emits (run_route env host store_required snap req cp scope t)
    (fun p => tenant_permits p /\ req_tenant (pr_request p) = req_tenant req).
Proof.
  intros Hh. unfold run_route. apply emits_bind; [apply emits_silent, silent_now|]. intros now.
  apply emits_bind.
  { apply emits_silent. intros w. by destruct (resolve_candidates _ _ _ _ _ _). }
  intros [resolved|e]; [|apply emits_silent, silent_deny].
  destruct (match scope with Some _ => _ | None => _ end) as [cs rejected].
  apply (emits_then _ _ (fun r => forall name plan, r = Ok (name, plan) ->
    forall id tn c, req_tenant req = Some id -> tenant (sn_config snap) id = Some tn ->
     c ∈ plan_candidates plan -> tenant_provider_allowed tn (t_provider_id c) = true)).
  - intros w. by destruct (plan_resolved_route _ _ _ _ _ _ _).
  - intros w name plan E id tn c Hid Htn Hc.
    destruct (plan_resolved_route (w_combo_rr w) _ _ _ _ _ _) as [r rr] eqn:Ep. simpl in E.
    eapply planned_provider_allowed; try done. by rewrite Ep.
  - intros [[name plan]|e] Hp; [|apply emits_silent, silent_deny].
    apply emits_run_plan; [done|]. intros id tn c. simpl. by apply (Hp name plan).
Qed.

Lemma silent_spend_gate cap spend ty pre req t :
  silent spend -> silent (spend_gate env host snap cap spend ty pre req t).
Proof.
  intros Hs. unfold spend_gate. destruct cap as [max|]; [|apply silent_ret].
  apply silent_bind; [done|]. intros [spent|e]; [destruct (f_le max spent)|];
    try apply silent_ret; (apply silent_bind; [apply silent_deny|]; intros o; apply silent_ret).
Qed.

Lemma emits_unless {A} (gate : M (option A)) k P :
  silent gate -> emits k P -> emits (unless gate k) P.
Proof.
  intros Hg Hk. apply emits_bind; [by apply emits_silent|].
  intros [a|]; [apply emits_silent, silent_ret|done].
Qed.

(** C2 (safety). Tenant isolation: without hedging, every call made for a request of a
    tenant goes to a provider on the tenant's list and leases an account on its
    list (an empty list allows all), whatever other requests, adapters and token
    sources do and whatever plugins are installed; and the tenant is the one the
    request came with. *)
Theorem tenant_isolation req started scope (w : World (S := S)) :
  rtm_hedge_enabled (sn_runtime snap) = false ->
  exists l,
    w_dispatched (execute_inner env host store_required snap req started scope w).2
    = w_dispatched w ++ l
  /\ Forall (fun p => tenant_permits p /\ req_tenant (pr_request p) = req_tenant req) l.
Proof.
  intros Hh. revert w. change (emits (execute_inner env host store_required snap req started
    scope) (fun p => tenant_permits p /\ req_tenant (pr_request p) = req_tenant req)).
  unfold execute_inner. apply emits_unless; [by apply silent_spend_gate, silent_spend|].
  apply emits_unless; [by apply silent_spend_gate, silent_spend|].
  set (req1 := if sv_compress_tool_results _ then _ else _).
  assert (H1 : req_tenant req1 = req_tenant req)
    by (unfold req1; destruct (sv_compress_tool_results _); [rewrite compress_request_fields|]; done).
  destruct (pre_route_keeps (h_plugins host) req1) as [_ Hp]. fold (h_pre_route host) in Hp.
  destruct (h_pre_route host req1) as [verdict req2]. simpl in Hp.
  destruct verdict; [|apply emits_silent, silent_deny].
  destruct (apply_request_client_profile _ req2) as [[cp req3]|e] eqn:E;
    [|apply emits_silent, silent_deny].
  rewrite <- H1, <- Hp, <- (client_profile_tenant _ _ _ _ E). by apply emits_run_route.
Qed.

(** ** Order *)















(** ** Budgets *)

Lemma spend_gate_spec cap spend ty pre req t (w : World (S := S)) :
  (spend_gate env host snap (Some cap) spend ty pre req t w).1
  = match (spend w).1 with
    | Ok spent => if f_le cap spent then Some (OutError (ExecError_new 402 ty
        (pre ^^ "budget exceeded: spent $" ^^ fmt_fixed 4 spent ^^ " of $" ^^ fmt_fixed 4 cap
         ^^ " cap") None)) else None
    | Err e => Some (OutError (ExecError_new 503 "usage_store_unavailable"
        ("usage store unavailable for budget check: " ^^ e) None))
    end.
Proof.
  unfold spend_gate, bind, deny, bind, ret. destruct (spend w) as [[spent|e] w'];
    simpl; repeat case_match; by simplify_eq/=.
Qed.

Lemma unless_some {A} (gate : M (S := S) (option A)) k w a :
  (gate w).1 = Some a -> unless gate k w = (a, (gate w).2).
Proof. unfold unless, bind. destruct (gate w). by intros [= ->]. Qed.

Lemma unless_none {A} (gate : M (S := S) (option A)) k w :
  (gate w).1 = None -> unless gate k w = k (gate w).2.
Proof. unfold unless, bind. destruct (gate w). by intros [= ->]. Qed.

(** The two caps in front of a run, as the reader of the configuration sees them:
    the error the request gets at once, if any. *)
Definition refusal (spent : result f64 string) (error_type : string)
    (o : ExecOutcome) : Prop :=
  exists e, o = OutError e
  /\ match spent with
     | Ok _ => xe_status e = 402 /\ xe_error_type e = error_type
     | Err _ => xe_status e = 503 /\ xe_error_type e = "usage_store_unavailable"
     end.

Definition over (cap : f64) (spent : result f64 string) : bool :=
  match spent with Ok x => f_le cap x | Err _ => true end.

Lemma gate_refuses cap spend ty pre req t (w : World (S := S)) k :
  silent spend -> over cap (spend w).1 = true ->
  let r := unless (spend_gate env host snap (Some cap) spend ty pre req t) k w in
  refusal (spend w).1 ty r.1 /\ w_dispatched r.2 = w_dispatched w.
Proof.
  intros Hs Ho. pose proof (spend_gate_spec cap spend ty pre req t w) as Hg.
  injection (silent_spend_gate (Some cap) spend ty pre req t Hs w) as _ Hd _.
  destruct (spend w).1 as [spent|e] eqn:E; simpl in Ho; [rewrite Ho in Hg|];
    cbv zeta; rewrite (unless_some _ _ _ _ Hg); (split; [|done]); eexists; done.
Qed.

(** What is left of a run when the global cap does not stop it. *)
Lemma gate_lets_pass cap spend ty pre req t (w : World (S := S)) :
  match cap with Some c => over c (spend w).1 = false | None => True end ->
  (spend_gate env host snap cap spend ty pre req t w).1 = None.
Proof.
  destruct cap as [c|]; [|done]. intros Ho. rewrite spend_gate_spec.
  destruct (spend w).1 as [spent|e]; simpl in Ho; [by rewrite Ho|done].
Qed.

(** C39 (error). A budget that is used up stops a request before it costs anything:
    when the recorded spend has reached the global cap, or, with no global cap or one that
    is not reached, the cap of the request's tenant (read after the global check), the request
    ends with status 402, and with 503 when the spend cannot be read from a required store; no
    call is made. *)
Theorem over_budget_refused req started scope (w : World (S := S)) id t :
  let run := execute_inner env host store_required snap req started scope w in
  let global := rtm_budget_max_usd (sn_runtime snap) in
  let spent := (global_spend_usd env store_required w).1 in
  (forall cap, global = Some cap -> over cap spent = true ->
     refusal spent "budget_exceeded" run.1 /\ w_dispatched run.2 = w_dispatched w)
  /\ (match global with Some cap => over cap spent = false | None => True end ->
     req_tenant req = Some id -> tenant (sn_config snap) id = Some t ->
     forall cap, tn_budget_usd t = Some cap ->
     let w' := (spend_gate env host snap global (global_spend_usd env store_required)
                  "budget_exceeded" EmptyString req started w).2 in
     let spent := (engine_tenant_spend_usd env store_required id w').1 in
     over cap spent = true ->
     refusal spent "tenant_budget_exceeded" run.1
     /\ w_dispatched run.2 = w_dispatched w).
Proof.
  cbv zeta. unfold execute_inner. split.
  - intros cap -> Ho. apply gate_refuses; [apply silent_spend|done].
  - intros Hg Hid Ht cap Hcap Ho. rewrite Hid, Ht, Hcap.
    rewrite unless_none by (by apply gate_lets_pass).
    set (w' := (spend_gate _ _ _ _ _ _ _ _ _ w).2) in *.
    assert (Hd : w_dispatched w' = w_dispatched w)
      by (by injection (silent_spend_gate (rtm_budget_max_usd (sn_runtime snap))
            (global_spend_usd env store_required) "budget_exceeded" EmptyString req started (silent_spend _ _ _ _) w)).
    rewrite <- Hd. apply gate_refuses; [apply silent_spend|exact Ho].
Qed.

(** A provider whose budget is used up, whose circuit refuses or that has no
    adapter is passed over: its gate lets the fallback go on without it, and no
    call is made to it. *)
Theorem provider_gate_skips req summary started scoped cp target targets pg
    (w : World (S := S)) cap spent :
  let loop := target_loop env host store_required snap req summary started scoped cp in
  let gate := target_gate env host store_required snap req started target w in
  let circuit := engine_circuit_allows env (t_provider_id target) w in
  let spend := provider_spend_usd env store_required (t_provider_id target) circuit.2 in
  reg_has_adapter (sn_registry snap) (t_provider_id target) = false
  \/ circuit.1 = false
  \/ (bt_get (t_provider_id target) (per_provider_usd (sv_budget (cf_server (sn_config snap))))
        = Some cap /\ spend.1 = Ok spent /\ f_le cap spent = true) ->
  loop (target :: targets) pg w = loop targets pg gate.2
  /\ w_dispatched gate.2 = w_dispatched w.
Proof.
  cbv zeta. intros Hcase.
  assert (Hg : (target_gate env host store_required snap req started target w).1 = GateSkip).
  { unfold target_gate. destruct (reg_has_adapter _ _) eqn:Ea; [|done]. simpl. unfold bind.
    destruct Hcase as [|Hcase]; [done|].
    destruct (engine_circuit_allows env (t_provider_id target) w) as [ok w'] eqn:Ec. simpl in Hcase.
    destruct Hcase as [->|(Hb & Hs & Hle)]; [done|]. destruct ok; [|done]. simpl. rewrite Hb.
    destruct (provider_spend_usd _ _ _ w') as [sp w2]. simpl in Hs. by rewrite Hs, Hle. }
  injection (silent_gate env host store_required snap req started target w) as _ Hd _.
  split; [|done]. simpl. unfold bind at 1.
  destruct (target_gate env host store_required snap req started target w) as [g w'].
  simpl in Hg. by rewrite Hg.
Qed.

End Properties.
