(* ===== verification/EngineBilling.v ===== *)
(** * The execution engine: billing

    What a run does to the ledger, in an environment in which no other request
    records usage meanwhile, and which of its calls it bills. *)

From Stdlib Require Import ZArith Lia.
From stdpp Require Import base list strings gmap option.
From S2P Require Import Prelude Text BTree Float Time Ir Config Target Routing Router.
From S2P Require Import Catalog Ledger Breaker Availability ScorecardEntry Scorecard.
From S2P Require Import Plugins.
From S2P Require Import Resolver ResolverTheorems Collect Profiles Trace Engine EngineTheorems.
From S2P Require Import Compress.

#[local] Open Scope Z_scope.

Section Billing.
Context {S : Type} `{UsageStore S}.
Context (env : Env (S := S)) (host : Host) (store_required : bool) (snap : Snapshot).

Local Abbreviation L := (UsageLedger S).

(** Two ledgers that hold the same usage; only their health may differ. *)
Definition same_books (a b : L) : Prop :=
  l_records a = l_records b /\ l_store a = l_store b /\ l_base a = l_base b
  /\ l_sink a = l_sink b.

#[export] Instance same_books_equiv : Equivalence same_books.
Proof.
  split.
  - intros a. by split_and!.
  - intros a b (? & ? & ? & ?). by split_and!.
  - intros a b c (? & ? & ? & ?) (? & ? & ? & ?). split_and!; congruence.
Qed.

(** No other request records usage. *)
Context (alone : forall n l, same_books (o_ledger (e_others env n) l) l).

(** What a program does to the ledger. *)
Definition writes {A} (m : M (S := S) A) (Q : A -> L -> L -> Prop) : Prop :=
  forall w, Q (m w).1 (w_ledger w) (w_ledger (m w).2).

Definition quiet {A} (m : M (S := S) A) : Prop := writes m (fun _ l l' => same_books l' l).

Lemma writes_bind {A B} (m : M A) (k : A -> M B) R T (Q : B -> L -> L -> Prop) :
  writes m R -> (forall a, writes (k a) (T a)) ->
  (forall a b l0 l1 l2, R a l0 l1 -> T a b l1 l2 -> Q b l0 l2) -> writes (bind m k) Q.
Proof.
  intros Hm Hk Hq w. specialize (Hm w). unfold bind. destruct (m w) as [a w'].
  eapply Hq; [exact Hm|]. apply Hk.
Qed.

Lemma quiet_ret {A} (a : A) : quiet (ret a).
Proof. intros w. simpl. reflexivity. Qed.

Lemma quiet_bind {A B} (m : M A) (k : A -> M B) :
  quiet m -> (forall a, quiet (k a)) -> quiet (bind m k).
Proof.
  intros Hm Hk. eapply (writes_bind _ _ _ (fun _ _ l l' => same_books l' l)); [done|done|].
  intros a b l0 l1 l2 E1 E2. by etransitivity.
Qed.

Lemma quiet_modify f :
  (forall w : World (S := S), w_ledger (f w) = w_ledger w) -> quiet (modify f).
Proof. intros Hf w. simpl. by rewrite Hf. Qed.

Create HintDb billing.
#[local] Hint Resolve quiet_ret quiet_bind quiet_modify : billing.
#[local] Hint Extern 1 (quiet (if _ then _ else _)) => case_match : billing.
#[local] Hint Extern 1 (quiet (match _ with _ => _ end)) => case_match : billing.
#[local] Hint Extern 2 (w_ledger _ = w_ledger _) =>
  (reflexivity || (case_match; reflexivity)) : billing.

Lemma quiet_yield : quiet (yield env).
Proof. intros w. simpl. apply alone. Qed.
#[local] Hint Resolve quiet_yield : billing.

Lemma quiet_now : quiet (now env).
Proof. unfold now. eauto with billing. Qed.
Lemma quiet_now_unix : quiet (now_unix env).
Proof. unfold now_unix. eauto with billing. Qed.
#[local] Hint Resolve quiet_now quiet_now_unix : billing.

Lemma quiet_elapsed t : quiet (elapsed_ms env t).
Proof. unfold elapsed_ms. eauto with billing. Qed.

Lemma quiet_report_failure p a m c : quiet (engine_report_failure env p a m c).
Proof. unfold engine_report_failure. eauto with billing. Qed.

Lemma quiet_report_success p a : quiet (engine_report_success p a).
Proof. unfold engine_report_success. eauto with billing. Qed.

Lemma quiet_finish ctx o : quiet (engine_finish_attempt env snap ctx o).
Proof. unfold engine_finish_attempt. eauto with billing. Qed.

Lemma quiet_circuit_allows p : quiet (engine_circuit_allows env p).
Proof.
  unfold engine_circuit_allows. apply quiet_bind; [eauto with billing|]. intros t w.
  unfold circuit_allows. by destruct (Breaker.allows _ _ _).
Qed.

Lemma quiet_resolve p m ex s al : quiet (engine_resolve env p m ex s al).
Proof.
  unfold engine_resolve. apply quiet_bind; [eauto with billing|]. intros t w.
  by destruct (resolve_with_session_allowed _ _ _ _ _ _ _).
Qed.

Lemma quiet_dispatch p : quiet (dispatch env p).
Proof. unfold dispatch. eauto with billing. Qed.

Lemma quiet_record_trace r : quiet (engine_record_trace host r).
Proof. unfold engine_record_trace. apply quiet_modify. intros w. by destruct (opt_is_some _). Qed.
#[local] Hint Resolve quiet_elapsed quiet_report_failure quiet_report_success quiet_finish
  quiet_circuit_allows quiet_resolve quiet_dispatch quiet_record_trace : billing.

Lemma quiet_finish_trace tr s t b : quiet (finish_trace env tr s t b).
Proof. unfold finish_trace. eauto with billing. Qed.
#[local] Hint Resolve quiet_finish_trace : billing.
Lemma quiet_close_trace tr s t b : quiet (close_trace env host tr s t b).
Proof. unfold close_trace. eauto with billing. Qed.
#[local] Hint Resolve quiet_close_trace : billing.

Lemma quiet_deny req e t : quiet (deny env host snap req e t).
Proof. unfold deny, record_denial_trace. eauto with billing. Qed.

Lemma quiet_spend f g : quiet (spend_usd env store_required f g).
Proof.
  unfold spend_usd. apply quiet_bind; [eauto with billing|]. intros n w.
  destruct (l_store _) as [s|] eqn:El; [destruct (st_usage_rollup s) eqn:Er;
    [done|destruct store_required; [done|]]|]; unfold ledger_summary; rewrite El, ?Er; done.
Qed.
#[local] Hint Resolve quiet_deny quiet_spend : billing.

Lemma quiet_retry req fuel p account egress t exec :
  quiet (retry_loop env snap req fuel p account egress t exec).
Proof.
  revert exec. induction fuel as [|fuel IH]; intros exec; simpl; [destruct exec; eauto with billing|].
  destruct exec as [stream|err]; [eauto with billing|].
  destruct (retryable (err_class err)); eauto 9 with billing.
Qed.

Lemma quiet_fail req summary started target account egress t error tr :
  quiet (fail_attempt env host snap req summary started target account egress t error tr).
Proof. unfold fail_attempt. eauto 9 with billing. Qed.

Lemma quiet_gate req started target :
  quiet (target_gate env host store_required snap req started target).
Proof. unfold target_gate, provider_spend_usd. eauto 12 with billing. Qed.

Lemma quiet_hedge_attempt req dropped target :
  quiet (hedge_attempt env host snap req dropped target).
Proof. unfold hedge_attempt. eauto 30 with billing. Qed.
#[local] Hint Resolve quiet_retry quiet_fail quiet_gate quiet_hedge_attempt : billing.

Lemma quiet_fold {A B} (f : B -> A -> M B) (l : list A) (m : M B) :
  quiet m -> (forall b a, quiet (f b a)) ->
  quiet (fold_left (fun m a => bind m (fun b => f b a)) l m).
Proof.
  intros Hm Hf. revert m Hm. induction l as [|a l IH]; intros m Hm; [done|]. simpl.
  apply IH. eauto with billing.
Qed.

Lemma quiet_race req racers order : quiet (race env host snap req racers order).
Proof.
  induction order as [|i order IH]; simpl; [eauto with billing|].
  destruct (racers !! i) as [target|]; [|done].
  apply quiet_bind; [eauto with billing|]. intros [win|]; [|done].
  apply quiet_bind; [|eauto with billing]. apply (quiet_fold (fun _ j => _)); eauto 9 with billing.
Qed.

(** ** Entries *)

Lemma record_inner_books l l' r ph :
  same_books l l' ->
  (record_inner l r ph).1 = (record_inner l' r ph).1
  /\ same_books (record_inner l r ph).2 (record_inner l' r ph).2.
Proof.
  destruct l as [rs sk st bs h], l' as [rs' sk' st' bs' h']. intros (E1 & E2 & E3 & E4).
  simpl in *. subst. unfold record_inner. simpl.
  destruct st' as [s|]; [destruct (st_record_usage s _) as [[[]|] s']|]; destruct ph;
    by split_and!.
Qed.

(** An entry for a request: the usage, priced by the registry for the provider and
    model that answered. *)
Definition charges (req : AiRequest) (usage : Usage) (r : UsageRecord) : Prop :=
  ur_request_id r = req_id req /\ ur_tenant r = req_tenant req /\ ur_usage r = usage
  /\ ur_cost_micros r
     = Some (reg_cost_micros (sn_registry snap) (ur_provider_id r) (ur_model r) usage).

(** The entry [r] was written to the books [l], with this result. *)
Definition entered (ph : option RequiredUsagePhase) (r : UsageRecord) (res : result unit string)
    (l l' : L) : Prop :=
  (record_inner l r ph).1 = res /\ same_books l' (record_inner l r ph).2.

Definition phase : option RequiredUsagePhase :=
  if store_required then Some PreResponse else None.

Lemma entered_books ph r res l0 l1 l2 l3 :
  same_books l1 l0 -> entered ph r res l1 l2 -> same_books l3 l2 -> entered ph r res l0 l3.
Proof.
  intros E0 [E1 E2] E3. destruct (record_inner_books l1 l0 r ph E0) as [H1 H2].
  split; [congruence|]. etransitivity; [exact E3|]. by etransitivity.
Qed.

Lemma writes_entry req p m a u t b :
  writes (record_usage env store_required snap req p m a u t b)
    (fun res l l' => exists r, (charges req u r /\ ur_provider_id r = p /\ ur_model r = m
       /\ ur_account_id r = Some a) /\ entered phase r res l l').
Proof.
  unfold record_usage. set (Q := fun res l l' => exists r, _ /\ entered phase r res l l').
  assert (Hq : forall (x : result unit string) l0 l1 l2, same_books l1 l0 -> Q x l1 l2 -> Q x l0 l2).
  { intros x l0 l1 l2 E (r & Hc & He). exists r. split; [done|].
    by eapply entered_books; [exact E|exact He|]. }
  apply (writes_bind _ _ (fun _ l l' => same_books l' l) (fun _ => Q)); [apply quiet_elapsed| |by eauto].
  intros ms. apply (writes_bind _ _ (fun _ l l' => same_books l' l) (fun _ => Q));
    [apply quiet_now_unix| |by eauto].
  intros unix w. exists (usage_record snap req p m a u ms b unix). split; [by split_and!|].
  unfold entered, phase, record_checked, record_best_effort. destruct store_required.
  - by destruct (record_inner _ _ _).
  - simpl. split; [|reflexivity]. unfold record_inner. by repeat case_match.
Qed.

Lemma writes_record req p m a u t b :
  writes (record_usage env store_required snap req p m a u t b)
    (fun res l l' => exists r, charges req u r /\ entered phase r res l l').
Proof.
  intros w. destruct (writes_entry req p m a u t b w) as (r & (Hc & _) & He). by exists r.
Qed.

Lemma writes_quiet_ret {A B} (m : M A) (b : B) (P : B -> Prop) :
  quiet m -> P b -> writes (bind m (fun _ => ret b)) (fun o l l' => same_books l' l /\ P o).
Proof.
  intros Hm Hb. eapply (writes_bind _ _ _ (fun _ o l l' => l' = l /\ P o));
    [exact Hm|by intros a w|]. intros a o l0 l1 l2 E [-> HP]. by split.
Qed.

(** ** The run *)

(** The program ends with [o] and unchanged books. *)
Definition closes {A} (m : M (S := S) A) (P : A -> Prop) : Prop :=
  writes m (fun a l l' => same_books l' l /\ P a).

Lemma closes_ret {A} (a : A) (P : A -> Prop) : P a -> closes (ret a) P.
Proof. intros Ha w. by split. Qed.

Lemma closes_then {A B} (m : M A) (k : A -> M B) P :
  quiet m -> (forall a, closes (k a) P) -> closes (bind m k) P.
Proof.
  intros Hm Hk. eapply (writes_bind _ _ _ (fun _ b l l' => same_books l' l /\ P b));
    [exact Hm|exact Hk|]. intros a b l0 l1 l2 E [E' Hp]. split; [by etransitivity|done].
Qed.

Lemma flow_then {A B} (m : M A) (k : A -> M B) (Q : B -> L -> L -> Prop) :
  (forall b l0 l1 l2, same_books l1 l0 -> Q b l1 l2 -> Q b l0 l2) ->
  quiet m -> (forall a, writes (k a) Q) -> writes (bind m k) Q.
Proof.
  intros Hq Hm Hk. eapply (writes_bind _ _ _ (fun _ => Q)); [exact Hm|exact Hk|].
  intros a b l0 l1 l2 E. by apply Hq.
Qed.

(** The end of a response that was collected from this account of this target: it is billed
    and returned, or the write failed. *)
Definition billed (req : AiRequest) (target : ExecutionTarget) (account : string) (response : AiResponse)
    (o : ExecOutcome) (l l' : L) : Prop :=
  exists r res, (charges req (resp_usage response) r /\ ur_provider_id r = t_provider_id target
                 /\ ur_model r = t_model target /\ ur_account_id r = Some account)
  /\ entered phase r res l l'
  /\ match res with
     | Ok _ => exists sm, o = OutCollected response sm
     | Err _ => exists msg, o = OutError (ExecError_new 500 "usage_persistence_failed" msg None)
     end.

Lemma billed_before req target account response o l0 l1 l2 :
  same_books l1 l0 -> billed req target account response o l1 l2 -> billed req target account response o l0 l2.
Proof.
  intros E (r & res & Hr & He & Ho). exists r, res. split_and!; [apply Hr..| |done].
  by eapply entered_books; [exact E|exact He|].
Qed.

Lemma writes_billed req target account response t b (k : result unit string -> M ExecOutcome) :
  (forall res, closes (k res) (fun o => match res with
     | Ok _ => exists sm, o = OutCollected response sm
     | Err _ => exists msg, o = OutError (ExecError_new 500 "usage_persistence_failed" msg None)
     end)) ->
  writes (bind (record_usage env store_required snap req (t_provider_id target) (t_model target) account
                  (resp_usage response) t b) k) (billed req target account response).
Proof.
  intros Hk. eapply (writes_bind _ _ _ (fun res o l l' => same_books l' l /\ match res with
     | Ok _ => exists sm, o = OutCollected response sm
     | Err _ => exists msg, o = OutError (ExecError_new 500 "usage_persistence_failed" msg None)
     end)); [apply writes_entry|exact Hk|].
  intros res o l0 l1 l2 (r & Hc & He) [E Ho]. exists r, res. split_and!; [apply Hc..| |done].
  by eapply entered_books; [|exact He|].
Qed.

Lemma writes_collected req summary started scoped target account egress t response tr :
  writes (complete_collected env host store_required snap req summary started scoped target
            account egress t response tr) (billed req target account response).
Proof.
  unfold complete_collected.
  do 3 (apply flow_then; [intros ????; apply billed_before|eauto with billing|]; intros ?).
  apply writes_billed. intros [u|why].
  - do 4 (apply closes_then; [eauto with billing|]; intros _). apply closes_ret. eauto.
  - apply closes_then; [eauto with billing|]. intros _. apply closes_ret. eauto.
Qed.

Lemma writes_hedge req summary t tr win :
  writes (complete_hedge env host store_required snap req summary t tr win)
    (billed req (hw_target win) (hw_account_id win) (hw_response win)).
Proof.
  unfold complete_hedge. apply writes_billed. intros [u|why].
  - apply closes_then.
    { apply quiet_fold; [eauto with billing|]. intros b a. eauto with billing. }
    intros tr'. do 3 (apply closes_then; [eauto with billing|]; intros ?). apply closes_ret. eauto.
  - apply closes_then; [eauto with billing|]. intros _. apply closes_ret. eauto.
Qed.

(** ** Calls and entries

    The ledger and the calls of a run together: what is billed is the answer of a call. *)

Local Abbreviation W := (World (S := S)).

Definition calls_grow (w w' : W) : Prop := exists k, w_dispatched w' = w_dispatched w ++ k.

(** The books are the same; calls may have been made. *)
Definition kept (w w' : W) : Prop := same_books (w_ledger w') (w_ledger w) /\ calls_grow w w'.

#[export] Instance calls_grow_preorder : PreOrder calls_grow.
Proof.
  split.
  - intros w. exists []. by rewrite app_nil_r.
  - intros a b c [k E] [k' E']. exists (k ++ k'). by rewrite E', E, app_assoc.
Qed.

#[export] Instance kept_preorder : PreOrder kept.
Proof.
  split.
  - intros w. by split.
  - intros a b c [? ?] [? ?]. split; by etransitivity.
Qed.

(** This response was collected from the answer to a call made since [w]. *)
Definition answered (p : PreparedRequest) (resp : AiResponse) (w w' : W) : Prop :=
  (exists k, w_dispatched w' = w_dispatched w ++ k /\ p ∈ k)
  /\ exists n stream, e_execute env n p = Ok stream
     /\ collect_response (h_parse_json host) stream (req_id (pr_request p)) (req_model (pr_request p))
          (sv_max_response_bytes (cf_server (sn_config snap))) = Ok resp.

(** The entry names the provider, the model and the account of the call. *)
Definition entry_of (req : AiRequest) (p : PreparedRequest) (usage : Usage) (r : UsageRecord) : Prop :=
  charges req usage r /\ ur_provider_id r = t_provider_id (pr_target p) /\ ur_model r = t_model (pr_target p)
  /\ ur_account_id r = account_of p.

(** What an outcome says about the books. *)
Definition bill (req : AiRequest) (o : ExecOutcome) (w w' : W) : Prop :=
  match o with
  | OutStream _ _ _ => same_books (w_ledger w') (w_ledger w)
  | OutCollected resp _ => exists p r, answered p resp w w' /\ entry_of req p (resp_usage resp) r
      /\ entered phase r (Ok tt) (w_ledger w) (w_ledger w')
  | OutError e => same_books (w_ledger w') (w_ledger w)
      \/ (xe_status e = 500 /\ xe_error_type e = "usage_persistence_failed"
          /\ exists p resp r why, answered p resp w w' /\ entry_of req p (resp_usage resp) r
             /\ entered phase r (Err why) (w_ledger w) (w_ledger w'))
  end.

Lemma answered_before p resp w0 w1 w2 : calls_grow w0 w1 -> answered p resp w1 w2 -> answered p resp w0 w2.
Proof.
  intros [k E] [(k' & E' & Hp) Ha]. split; [|done]. exists (k ++ k').
  rewrite E', E, app_assoc. split; [done|]. apply elem_of_app. by right.
Qed.

Lemma answered_after p resp w0 w1 w2 : answered p resp w0 w1 -> calls_grow w1 w2 -> answered p resp w0 w2.
Proof.
  intros [(k' & E' & Hp) Ha] [k E]. split; [|done]. exists (k' ++ k).
  rewrite E, E', app_assoc. split; [done|]. apply elem_of_app. by left.
Qed.

Lemma bill_before req o w0 w1 w2 : kept w0 w1 -> bill req o w1 w2 -> bill req o w0 w2.
Proof.
  intros [E Hk] Hb. destruct o as [m c sm|resp sm|e]; simpl in *; [by etransitivity| |].
  - destruct Hb as (p & r & Ha & He & Hr). exists p, r. split_and!; [by eapply answered_before|apply He..|].
    by eapply entered_books; [exact E|exact Hr|].
  - destruct Hb as [Hb|(H5 & Ht & p & resp & r & why & Ha & He & Hr)]; [left; by etransitivity|right].
    split_and!; [done|done|]. exists p, resp, r, why. split_and!; [by eapply answered_before|apply He..|].
    by eapply entered_books; [exact E|exact Hr|].
Qed.

(** A response that was billed after its call. *)
Lemma bill_billed req target account p resp o w0 w1 w2 :
  answered p resp w0 w1 -> same_books (w_ledger w1) (w_ledger w0) -> calls_grow w1 w2 ->
  pr_target p = target -> account_of p = Some account ->
  billed req target account resp o (w_ledger w1) (w_ledger w2) -> bill req o w0 w2.
Proof.
  intros Ha E Hg <- Hacc (r & res & (Hc & Hp & Hm & Hu) & He & Ho).
  assert (Hent : entry_of req p (resp_usage resp) r) by (by split_and!; [..|rewrite Hacc]).
  pose proof (answered_after _ _ _ _ _ Ha Hg) as Ha'.
  pose proof (entered_books _ _ _ _ _ _ _ E He (reflexivity _)) as He'.
  destruct res as [[]|why].
  - destruct Ho as [sm ->]. by exists p, r.
  - destruct Ho as [msg ->]. right. split_and!; [done|done|]. by exists p, resp, r, why.
Qed.

Definition steps {A} (m : M (S := S) A) (Q : A -> W -> W -> Prop) : Prop := forall w, Q (m w).1 w (m w).2.

Lemma steps_bind {A B} (m : M A) (k : A -> M B) R T (Q : B -> W -> W -> Prop) :
  steps m R -> (forall a, steps (k a) (T a)) ->
  (forall a b w0 w1 w2, R a w0 w1 -> T a b w1 w2 -> Q b w0 w2) -> steps (bind m k) Q.
Proof.
  intros Hm Hk Hq w. specialize (Hm w). unfold bind. destruct (m w) as [a w'].
  eapply Hq; [exact Hm|]. apply Hk.
Qed.

(** A first step with what is known of its result. *)
Lemma steps_post {A B} (m : M A) (k : A -> M B) (post : A -> Prop) (R : W -> W -> Prop)
    (T Q : B -> W -> W -> Prop) :
  steps m (fun a w w' => R w w' /\ post a) -> (forall a, post a -> steps (k a) T) ->
  (forall b w0 w1 w2, R w0 w1 -> T b w1 w2 -> Q b w0 w2) -> steps (bind m k) Q.
Proof.
  intros Hm Hk Hq w. destruct (Hm w) as [Hr Hp]. unfold bind. destruct (m w) as [a w'].
  eapply Hq; [exact Hr|]. by apply Hk.
Qed.

(** A program without calls that leaves the books alone. *)
Definition idle {A} (m : M (S := S) A) : Prop := quiet m /\ forall w, w_dispatched (m w).2 = w_dispatched w.

Lemma idle_kept {A} (m : M A) : idle m -> steps m (fun _ => kept).
Proof. intros [Hq Hd] w. split; [apply Hq|]. exists []. by rewrite app_nil_r, Hd. Qed.

Lemma silent_idle {A} (m : M A) : quiet m -> silent m -> idle m.
Proof. intros Hq Hs. split; [done|]. intros w. by injection (Hs w). Qed.

Lemma idle_then {A B} (m : M A) (k : A -> M B) (Q : B -> W -> W -> Prop) :
  (forall b w0 w1 w2, kept w0 w1 -> Q b w1 w2 -> Q b w0 w2) ->
  idle m -> (forall a, steps (k a) Q) -> steps (bind m k) Q.
Proof.
  intros Hq Hm Hk. eapply (steps_bind _ _ (fun _ => kept) (fun _ => Q)); [by apply idle_kept|exact Hk|].
  intros a b w0 w1 w2. apply Hq.
Qed.

Definition bills (req : AiRequest) (m : M (S := S) ExecOutcome) : Prop := steps m (bill req).

Lemma bills_then {A} req (m : M A) k : idle m -> (forall a, bills req (k a)) -> bills req (bind m k).
Proof. apply idle_then. intros o. apply bill_before. Qed.

Lemma bills_error req e : bills req (ret (OutError e)).
Proof. intros w. left. reflexivity. Qed.

Lemma idle_now : idle (now env).
Proof. apply silent_idle; [apply quiet_now|apply silent_now]. Qed.
Lemma idle_yield : idle (yield env).
Proof. apply silent_idle; [apply quiet_yield|apply silent_yield]. Qed.
Lemma idle_elapsed t : idle (elapsed_ms env t).
Proof. apply silent_idle; [apply quiet_elapsed|apply silent_elapsed]. Qed.
Lemma idle_close tr st t b : idle (close_trace env host tr st t b).
Proof. apply silent_idle; [apply quiet_close_trace|apply silent_close_trace]. Qed.
Lemma idle_report p a m c : idle (engine_report_failure env p a m c).
Proof. apply silent_idle; [apply quiet_report_failure|apply silent_report_failure]. Qed.
Lemma idle_resolve p m ex s al : idle (engine_resolve env p m ex s al).
Proof. apply silent_idle; [apply quiet_resolve|apply silent_resolve]. Qed.
Lemma idle_deny req e t : idle (deny env host snap req e t).
Proof. apply silent_idle; [apply quiet_deny|apply silent_deny]. Qed.
Lemma idle_gate req started target : idle (target_gate env host store_required snap req started target).
Proof. apply silent_idle; [apply quiet_gate|apply silent_gate]. Qed.

Lemma idle_fail req summary started target account egress t error tr :
  idle (fail_attempt env host snap req summary started target account egress t error tr).
Proof.
  split; [apply quiet_fail|]. intros w.
  destruct (triple_fail env host snap req summary started target account egress t error tr _ _ _ w eq_refl)
    as [Hv _]. by injection Hv.
Qed.

Lemma bills_deny req e t : bills req (deny env host snap req e t).
Proof.
  intros w. pose proof (quiet_deny req e t w) as Hq. unfold deny, bind, ret in *.
  destruct (record_denial_trace _ _ _ _ _ _ _). by left.
Qed.

(** *** Accounts *)

Section Attempts.
Context (req : AiRequest) (summary : string) (started : Instant) (scoped : bool).

Definition bill_flow (f : Flow) (w w' : W) : Prop :=
  match f with FDone o => bill req o w w' | FNext _ _ => kept w w' end.

Definition bill_target (f : TargetFlow) (w w' : W) : Prop :=
  match f with TDone o => bill req o w w' | _ => kept w w' end.

Lemma bill_flow_before b w0 w1 w2 : kept w0 w1 -> bill_flow b w1 w2 -> bill_flow b w0 w2.
Proof. destruct b; simpl; [apply bill_before|]. intros. by etransitivity. Qed.

Lemma bill_target_before b w0 w1 w2 : kept w0 w1 -> bill_target b w1 w2 -> bill_target b w0 w2.
Proof. destruct b; simpl; [apply bill_before| |]; intros; by etransitivity. Qed.

Lemma steps_fail target account egress t error tr :
  steps (fail_attempt env host snap req summary started target account egress t error tr) bill_flow.
Proof.
  intros w. pose proof (idle_kept _ (idle_fail req summary started target account egress t error tr) w) as Hk.
  destruct (triple_fail env host snap req summary started target account egress t error tr _ _ _ w eq_refl)
    as [_ Hf]. destruct (fail_attempt _ _ _ _ _ _ _ _ _ _ _ _ w) as [f w']. simpl in *.
  destruct f as [o|e tr']; [|exact Hk]. destruct Hf as [-> _]. left. apply Hk.
Qed.

(** The stream is an answer to the call. *)
Definition answers (p : PreparedRequest) (exec : result EventStream AdapterError) : Prop :=
  match exec with Ok stream => exists n, e_execute env n p = Ok stream | Err _ => True end.

Definition called (p : PreparedRequest) (w w' : W) : Prop :=
  same_books (w_ledger w') (w_ledger w) /\ exists k, w_dispatched w' = w_dispatched w ++ k /\ p ∈ k.

Lemma called_kept p w w' : called p w w' -> kept w w'.
Proof. intros [E (k & Hk & _)]. split; [done|]. by exists k. Qed.

Lemma called_after p w0 w1 w2 : called p w0 w1 -> kept w1 w2 -> called p w0 w2.
Proof.
  intros [E (k & Hk & Hp)] [E' (k' & Hk')]. split; [by etransitivity|]. exists (k ++ k').
  rewrite Hk', Hk, app_assoc. split; [done|]. apply elem_of_app. by left.
Qed.

Lemma steps_dispatch p : steps (dispatch env p) (fun exec w w' => called p w w' /\ answers p exec).
Proof.
  intros w. split; [split|].
  - apply quiet_dispatch.
  - exists [p]. split; [|by left]. pose proof (triple_dispatch env _ _ _ p w eq_refl) as Hv. by injection Hv.
  - unfold dispatch, bind, modify, ret, answers. destruct (yield env w) as [n w1]. simpl.
    destruct (e_execute env n p) eqn:E; [by exists n|done].
Qed.

Lemma retry_answers fuel p account egress t : forall exec w,
  answers p exec -> answers p (retry_loop env snap req fuel p account egress t exec w).1.
Proof.
  induction fuel as [|fuel IH]; intros exec w Ha; simpl; [by destruct exec|].
  destruct exec as [stream|err]; [done|]. destruct (retryable (err_class err)); [|done].
  unfold bind. destruct (elapsed_ms env t w) as [ms w1].
  destruct (engine_finish_attempt _ _ _ _ w1) as [u w2]. destruct (yield env w2) as [n w3].
  pose proof (steps_dispatch p w3) as [_ Hp]. destruct (dispatch env p w3) as [exec' w4]. by apply IH.
Qed.

Lemma steps_retry p account egress t exec : pr_request p = req -> answers p exec ->
  steps (retry_loop env snap req (Z.to_nat (rtm_retry_max (sn_runtime snap))) p account egress t exec)
    (fun exec' w w' => kept w w' /\ answers p exec').
Proof.
  intros Hp Ha w. split; [split; [apply quiet_retry|]|by apply retry_answers].
  pose proof (triple_retry env snap (Z.to_nat (rtm_retry_max (sn_runtime snap))) p account egress t exec _ _ _ w
                eq_refl) as (k & _ & Hv). rewrite Hp in Hv. injection Hv as _ Hd _. by eexists.
Qed.

(** What follows the call [p]. *)
Definition after_call (p : PreparedRequest) (f : Flow) (w w' : W) : Prop :=
  forall w0, called p w0 w -> bill_flow f w0 w'.

Lemma after_kept p (f : Flow) w w' : bill_flow f w w' -> after_call p f w w'.
Proof. intros Hf w0 Hc. eapply bill_flow_before; [by eapply called_kept|exact Hf]. Qed.

Lemma steps_collected p target account egress t response tr :
  pr_target p = target -> account_of p = Some account ->
  (exists n stream, e_execute env n p = Ok stream
     /\ collect_response (h_parse_json host) stream (req_id (pr_request p)) (req_model (pr_request p))
          (sv_max_response_bytes (cf_server (sn_config snap))) = Ok response) ->
  steps (bind (complete_collected env host store_required snap req summary started scoped target account
                 egress t response tr) (fun o => ret (FDone o))) (after_call p).
Proof.
  intros Ht Ha Hr w w0 [E Hc]. unfold bind.
  pose proof (writes_collected req summary started scoped target account egress t response tr w) as Hb.
  pose proof (triple_collected env host store_required snap req summary started scoped target account egress
                t response tr _ _ _ w eq_refl) as [Hv _].
  destruct (complete_collected _ _ _ _ _ _ _ _ _ _ _ _ _ _ w) as [o w']. simpl in *. injection Hv as _ Hd _.
  eapply bill_billed; [by split|exact E| |exact Ht|exact Ha|exact Hb].
  exists []. by rewrite app_nil_r.
Qed.

Lemma steps_try target account le tr :
  provider_account_id le = account ->
  steps (try_account env host store_required snap req summary started scoped target account le tr) bill_flow.
Proof.
  intros Hle. unfold try_account.
  apply (idle_then _ _ _ bill_flow_before idle_now). intros t.
  apply (idle_then _ _ _ bill_flow_before idle_yield). intros tick.
  destruct (fresh_lease _ _ _ _ _) as [le'|e] eqn:Ef.
  2: { apply (idle_then _ _ _ bill_flow_before (idle_report _ _ _ _)). intros _.
       apply (idle_then _ _ _ bill_flow_before (idle_elapsed _)). intros ms w. simpl. reflexivity. }
  assert (Hle' : provider_account_id le' = account).
  { unfold fresh_lease in Ef. by repeat case_match; simplify_eq/=. }
  destruct (if sv_strict_schema_downlevel _ then _ else None) as [warning|].
  { apply (idle_then _ _ _ bill_flow_before (idle_elapsed _)). intros ms.
    apply (idle_then _ _ _ bill_flow_before); [split; [by apply quiet_modify|done]|]. intros _.
    apply (idle_then _ _ _ bill_flow_before (idle_close _ _ _ _)). intros _ w. left. reflexivity. }
  set (p := mkPreparedRequest _ _ _ _).
  assert (Hacc : account_of p = Some account) by (unfold account_of; simpl; by rewrite Hle').
  eapply (steps_post _ _ (answers p) (called p) (after_call p)); [apply steps_dispatch| |].
  2: { intros f w0 w1 w2 Hc Hf. by apply Hf. }
  intros exec Ha. eapply (steps_post _ _ (answers p) kept (after_call p)); [by apply steps_retry| |].
  2: { intros f w0 w1 w2 Hk Hf w Hc. apply Hf. by eapply called_after. }
  clear exec Ha. intros exec Ha. destruct exec as [stream|error]; [|intros w; apply after_kept, steps_fail].
  destruct (req_stream req).
  - destruct (precommit_stream stream); [|intros w; apply after_kept, steps_fail].
    intros w. apply after_kept. simpl. reflexivity.
  - destruct (collect_response _ _ _ _ _) as [response|error] eqn:Ec; [|intros w; apply after_kept, steps_fail].
    destruct Ha as [n Ha]. apply steps_collected; [done|done|]. by exists n, stream.
Qed.

Lemma steps_account_loop target allowed fuel : forall tried pg,
  steps (account_loop env host store_required snap req summary started scoped fuel target
           allowed tried pg) bill_target.
Proof.
  induction fuel as [|fuel IH]; intros tried pg; simpl; [intros w; simpl; reflexivity|].
  apply (steps_post _ _ (fun out => forall a l, out = Selected a l -> provider_account_id l = a) kept bill_target).
  - intros w. split; [apply (idle_kept _ (idle_resolve _ _ _ _ _))|]. intros a l E.
    destruct (triple_resolve env _ (t_provider_id target) (t_model target) tried (session_affinity_key req) allowed
                w eq_refl) as [_ Hs]. by apply Hs.
  - intros out Hout. destruct out as [account le|[d|]|]; try (intros w; simpl; reflexivity).
    specialize (Hout account le eq_refl).
    eapply (steps_bind _ _ _ (fun f r w w' => match f with
      | FDone o => w' = w /\ r = TDone o | FNext _ _ => bill_target r w w' end));
      [by apply steps_try| |].
    + intros [o|e tr]; [by intros w|apply IH].
    + intros [o|e tr] r w0 w1 w2 E Hr; [by destruct Hr as [-> ->]|]. by eapply bill_target_before.
  - intros r w0 w1 w2. apply bill_target_before.
Qed.

Lemma steps_gate target :
  steps (target_gate env host store_required snap req started target)
    (fun g w w' => kept w w' /\ match g with GateFail o => exists e, o = OutError e | _ => True end).
Proof.
  intros w. split; [apply (idle_kept _ (idle_gate _ _ _))|]. unfold target_gate, bind.
  repeat case_match; simplify_eq/=; try done.
  unfold deny, bind, ret in *. repeat case_match; simplify_eq/=. eauto.
Qed.

Lemma steps_target_loop cp targets : forall pg,
  steps (target_loop env host store_required snap req summary started scoped cp targets pg)
    bill_target.
Proof.
  induction targets as [|t targets IH]; intros pg; simpl; [intros w; simpl; reflexivity|].
  eapply (steps_bind _ _ _ (fun g r w w' => match g with
    | GateFail o => w' = w /\ r = TDone o | _ => bill_target r w w' end));
    [apply steps_gate| |].
  - intros [| |o]; [|apply IH|by intros w].
    eapply (steps_bind _ _ (fun _ w w' => w' = w) (fun _ => bill_target)); [by intros w| |by intros ????? ->].
    intros fuel. eapply (steps_bind _ _ _ (fun f r w w' => match f with
      | TNext _ => bill_target r w w' | d => w' = w /\ r = d end));
      [apply steps_account_loop| |].
    + intros [o|pg'|]; [by intros w|apply IH|by intros w].
    + intros [o|pg'|] r w0 w1 w2 E Hr; try (by destruct Hr as [-> ->]).
      by eapply bill_target_before.
  - intros [| |o] r w0 w1 w2 [E Ho] Hr; [by eapply bill_target_before..|].
    destruct Hr as [-> ->], Ho as [e ->]. left. apply E.
Qed.

End Attempts.

(** *** Hedging *)

(** The winner's response is the answer of one of the calls. *)
Definition won (win : HedgeWin) (w w' : W) : Prop :=
  exists p, answered p (hw_response win) w w' /\ pr_target p = hw_target win
            /\ account_of p = Some (hw_account_id win).

Definition racing (out : option HedgeWin) (w w' : W) : Prop :=
  kept w w' /\ match out with Some win => won win w w' | None => True end.

Lemma kept_racing (out : option HedgeWin) w0 w1 w2 : kept w0 w1 -> racing out w1 w2 -> racing out w0 w2.
Proof.
  intros Hk [Hk' Hw]. split; [by etransitivity|]. destruct out as [win|]; [|done].
  destruct Hw as (p & Ha & Hp). exists p. split; [|done]. eapply answered_before; [apply Hk|done].
Qed.

Lemma racing_kept (out : option HedgeWin) w0 w1 w2 : racing out w0 w1 -> kept w1 w2 -> racing out w0 w2.
Proof.
  intros [Hk Hw] Hk'. split; [by etransitivity|]. destruct out as [win|]; [|done].
  destruct Hw as (p & Ha & Hp). exists p. split; [|done]. eapply answered_after; [done|apply Hk'].
Qed.

Lemma kept_hedge_attempt req dropped target :
  steps (hedge_attempt env host snap req dropped target) (fun _ => kept).
Proof.
  intros w. split; [apply quiet_hedge_attempt|].
  destruct (settles_hedge_attempt env host snap req dropped target _ _ _ w eq_refl) as (l & k & Hv & _).
  injection Hv as _ Hd _. by exists l.
Qed.

Lemma idle_finish ctx o : idle (engine_finish_attempt env snap ctx o).
Proof.
  split; [apply quiet_finish|]. intros w. pose proof (triple_finish env snap _ _ _ ctx o w eq_refl) as Hv.
  by injection Hv.
Qed.

(** Whoever wins won with the answer to its call. *)
Lemma steps_hedge_attempt req dropped target :
  steps (hedge_attempt env host snap req dropped target) racing.
Proof.
  unfold hedge_attempt. apply (idle_then _ _ _ kept_racing idle_now). intros t.
  assert (Hno : steps (ret (None : option HedgeWin)) racing) by (intros w; split; [reflexivity|done]).
  destruct (negb _); [done|].
  apply (steps_post _ _ (fun out => forall a l, out = Selected a l -> provider_account_id l = a) kept racing).
  { intros w. split; [apply (idle_kept _ (idle_resolve _ _ _ _ _))|]. intros a l E.
    destruct (triple_resolve env _ (t_provider_id target) (t_model target) ∅ (session_affinity_key req) None
                w eq_refl) as [_ Hs]. by apply Hs. }
  2: apply kept_racing.
  intros out Hout. destruct out as [account le| |]; [|exact Hno..].
  specialize (Hout account le eq_refl).
  apply (idle_then _ _ _ kept_racing idle_yield). intros n.
  destruct (fresh_lease _ _ _ _ _) as [le'|] eqn:Ef; [|exact Hno].
  assert (Hle' : provider_account_id le' = account).
  { unfold fresh_lease in Ef. by repeat case_match; simplify_eq/=. }
  set (p := mkPreparedRequest _ _ _ _).
  assert (Hacc : account_of p = Some account) by (unfold account_of; simpl; by rewrite Hle').
  set (ended := fun (out : option HedgeWin) (w w' : W) => kept w w' /\ match out with
    | Some win => hw_target win = target /\ hw_account_id win = account
        /\ exists n stream, e_execute env n p = Ok stream
           /\ collect_response (h_parse_json host) stream (req_id req) (req_model req)
                (sv_max_response_bytes (cf_server (sn_config snap))) = Ok (hw_response win)
    | None => True end).
  assert (Hend : forall b w0 w1 w2, kept w0 w1 -> ended b w1 w2 -> ended b w0 w2)
    by (intros b w0 w1 w2 Hk [Hk' Hb]; split; [by etransitivity|exact Hb]).
  assert (Hnone : steps (ret (None : option HedgeWin)) ended) by (intros w; split; [reflexivity|done]).
  eapply (steps_post _ _ (answers p) (called p) ended); [apply steps_dispatch| |].
  2: { intros out w0 w1 w2 Hc [Hk Ht].
       split; [etransitivity; [by eapply called_kept|done]|]. destruct out as [win|]; [|done].
       destruct Ht as (<- & <- & Hr). exists p. split_and!; [|done|done]. split; [|exact Hr].
       apply (called_after _ _ _ _ Hc Hk). }
  intros exec Ha.
  assert (Hfin : forall (m : M (option HedgeWin)) o, steps m ended ->
    steps (bind (bind (elapsed_ms env t) (fun ms => engine_finish_attempt env snap (attempt_ctx req target account
             (reg_effective_egress (sn_registry snap) (pr_egress_id p)) ms) o)) (fun _ => m)) ended).
  { intros m o Hm. eapply (steps_bind _ _ (fun _ => kept) (fun _ => ended)); [|done|by eauto].
    eapply (steps_bind _ _ (fun _ => kept) (fun _ _ => kept)); [apply (idle_kept _ (idle_elapsed _))| |].
    - intros ms. apply (idle_kept _ (idle_finish _ _)).
    - intros ? ? ? ? ? ? ?. by etransitivity. }
  assert (Hfail : forall error, steps (bind (engine_report_failure env (t_provider_id target) account (t_model target)
             (err_class error)) (fun _ => bind (bind (elapsed_ms env t) (fun ms => engine_finish_attempt env snap
               (attempt_ctx req target account (reg_effective_egress (sn_registry snap) (pr_egress_id p)) ms)
               (FinishFailed (err_class error)))) (fun _ => ret (None : option HedgeWin)))) ended).
  { intros error. apply (idle_then _ _ _ Hend (idle_report _ _ _ _)). intros _. by apply Hfin. }
  destruct dropped; [by apply (Hfin (ret None))|].
  destruct exec as [stream|error]; [|apply Hfail].
  destruct (collect_response _ _ _ _ _) as [response|error] eqn:Ec; [|apply Hfail].
  apply (idle_then _ _ _ Hend); [split; [apply quiet_report_success|done]|]. intros _.
  apply (idle_then _ _ _ Hend (idle_elapsed _)). intros ms. apply Hfin.
  intros w. split; [reflexivity|]. destruct Ha as [m Ha]. by split_and!; [..|exists m, stream].
Qed.

Lemma steps_fold {A} (f : A -> M (S := S) unit) (l : list A) (m : M (S := S) unit) :
  steps m (fun _ => kept) -> (forall a, steps (f a) (fun _ => kept)) ->
  steps (fold_left (fun m a => bind m (fun _ => f a)) l m) (fun _ => kept).
Proof.
  intros Hm Hf. revert m Hm. induction l as [|a l IH]; intros m Hm; [done|]. simpl. apply IH.
  eapply (steps_bind _ _ (fun _ => kept) (fun _ _ => kept)); [done|by intros _|].
  intros ? ? ? ? ? ? ?. by etransitivity.
Qed.

Lemma steps_race req racers order : steps (race env host snap req racers order) racing.
Proof.
  induction order as [|i order IH]; simpl; [intros w; split; [reflexivity|done]|].
  destruct (racers !! i) as [target|]; [|done].
  eapply (steps_bind _ _ racing (fun out r w w' => match out with
    | None => racing r w w'
    | Some win => kept w w' /\ exists canceled, r = Some (mkHedgeWin (hw_response win) (hw_target win)
        (hw_account_id win) (hw_egress win) (hw_latency_ms win) canceled) end)); [apply steps_hedge_attempt| |].
  - intros [win|]; [|exact IH].
    eapply (steps_bind _ _ (fun _ => kept) (fun _ r w w' => w' = w /\ r = _)); [|by intros ? w|].
    + apply steps_fold; [intros w; reflexivity|]. intros j.
      destruct (racers !! j) as [u|]; [|intros w; reflexivity].
      destruct (e_in_flight env j); [|intros w; reflexivity].
      eapply (steps_bind _ _ (fun _ => kept) (fun _ _ w w' => w' = w)); [apply kept_hedge_attempt|by intros ? w|].
      by intros ? ? ? ? ? ? ->.
    + intros ? r w0 w1 w2 Hk [-> ->]. split; [exact Hk|by eexists].
  - intros [win|] r w0 w1 w2 H1 H2.
    + destruct H2 as [Hk [canceled ->]]. exact (racing_kept (Some win) _ _ _ H1 Hk).
    + eapply kept_racing; [apply H1|exact H2].
Qed.

Lemma bills_hedge req summary t tr win w0 w1 :
  won win w0 w1 -> kept w0 w1 ->
  let r := complete_hedge env host store_required snap req summary t tr win w1 in bill req r.1 w0 r.2.
Proof.
  intros (p & Ha & Ht & Hacc) Hk.
  pose proof (writes_hedge req summary t tr win w1) as Hb.
  destruct (settles_complete_hedge env host store_required snap req summary t tr win _ _ _ w1 eq_refl) as (l & k & Hv & _).
  cbv zeta. destruct (complete_hedge _ _ _ _ _ _ _ _ _ w1) as [o w2]. simpl in *. injection Hv as _ Hd _.
  eapply bill_billed; [exact Ha|apply Hk|by exists l|exact Ht|exact Hacc|exact Hb].
Qed.

Lemma bills_no_outcome req summary t d unknown pg :
  bills req (no_outcome env host req summary t d unknown pg).
Proof.
  unfold no_outcome. destruct (pg_last_err pg), (pg_retry_after pg);
    (apply bills_then; [apply idle_close|]; intros _; apply bills_error).
Qed.

(** Only the id and the tenant of a request matter. *)
Lemma bills_same req req' m :
  req_id req' = req_id req -> req_tenant req' = req_tenant req -> bills req' m -> bills req m.
Proof.
  intros Hi Ht Hb w. specialize (Hb w). unfold bill, entry_of, charges in *. by rewrite Hi, Ht in Hb.
Qed.

Lemma bills_run_plan req cp scope t name unknown plan :
  bills req (run_plan env host store_required snap req cp scope t name unknown plan).
Proof.
  unfold run_plan. set (req' := if degraded _ _ then _ else _). set (tr := with_client_metadata _ _ _).
  apply (bills_same req req').
  1,2: unfold req'; destruct (degraded _ _); [|done]; by rewrite (proj1 (strip_image_parts_ok _ _)).
  cbv zeta. set (seq := bind (target_loop _ _ _ _ _ _ _ _ _ _ _) _).
  assert (Hseq : bills req' seq).
  { eapply (steps_bind _ _ _ (fun f o w w' => match f with
      | TDone o' => w' = w /\ o = o' | _ => bill req' o w w' end)); [apply steps_target_loop| |].
    - intros [o|pg|]; [by intros w|apply bills_no_outcome|apply bills_error].
    - intros [o|pg|] o' w0 w1 w2 E Ho; [by destruct Ho as [-> ->]|by eapply bill_before..]. }
  clearbody seq. destruct (_ && _ && _ && _); [|done].
  intros w. unfold bind. set (cs := plan_candidates plan).
  assert (Hr : racing (run_hedge env host snap req' cs w).1 w (run_hedge env host snap req' cs w).2).
  { revert w. apply (idle_then _ _ _ kept_racing idle_yield). intros n. apply steps_race. }
  destruct (run_hedge env host snap req' cs w) as [[win|] w1]; simpl in Hr; destruct Hr as [Hk Hw].
  - by apply bills_hedge.
  - eapply bill_before; [exact Hk|apply Hseq].
Qed.

Lemma bills_run_route req cp scope t :
  bills req (run_route env host store_required snap req cp scope t).
Proof.
  unfold run_route. apply bills_then; [apply idle_now|]. intros now. apply bills_then.
  { split; intros w; by destruct (resolve_candidates _ _ _ _ _ _). }
  intros [resolved|e]; [|apply bills_deny].
  destruct (match scope with Some _ => _ | None => _ end) as [cs rejected]. apply bills_then.
  { split; intros w; by destruct (plan_resolved_route _ _ _ _ _ _ _). }
  intros [[name plan]|e]; [apply bills_run_plan|apply bills_deny].
Qed.

Lemma bills_unless req cap spend ty pre t k :
  idle spend -> bills req k ->
  bills req (unless (spend_gate env host snap cap spend ty pre req t) k).
Proof.
  intros Hs Hk. unfold unless, spend_gate. destruct cap as [max|]; [|exact Hk].
  eapply (steps_bind _ _ (fun g w w' => kept w w'
    /\ match g with Some o => exists e, o = OutError e | None => True end) (fun g o w w' =>
    match g with Some o' => w' = w /\ o = o' | None => bill req o w w' end)).
  - eapply (steps_bind _ _ (fun _ => kept) (fun _ g w w' => kept w w'
      /\ match g with Some o => exists e, o = OutError e | None => True end)); [by apply idle_kept| |].
    2: { intros ? g w0 w1 w2 E [E' Hg]. split; [by etransitivity|done]. }
    assert (Hdeny : forall e, steps (bind (deny env host snap req e t) (fun o => ret (Some o)))
      (fun g w w' => kept w w' /\ match g with Some o => exists e, o = OutError e | None => True end)).
    { intros e w. pose proof (idle_kept _ (idle_deny req e t) w) as Hd. unfold deny, bind, ret in *.
      destruct (record_denial_trace _ _ _ _ _ _ _). split; [exact Hd|by eexists]. }
    intros [spent|e]; [destruct (f_le max spent)|]; [apply Hdeny| |apply Hdeny].
    intros w. split; [reflexivity|done].
  - intros [o|]; [by intros w|exact Hk].
  - intros [o|] o' w0 w1 w2 [E Ho] Hr; [|by eapply bill_before].
    destruct Hr as [-> ->], Ho as [e ->]. left. apply E.
Qed.

Lemma client_profile_keeps cfg req cp req' :
  apply_request_client_profile cfg req = Ok (cp, req') ->
  req_id req' = req_id req /\ req_tenant req' = req_tenant req.
Proof.
  unfold apply_request_client_profile, try. intros E. repeat case_match; by simplify_eq/=.
Qed.

(** C3 (safety). Billing, while no other request writes to the ledger. A request that
    gets a collected response gets the answer of one of the calls the run made, and has entered
    exactly one usage record in the books, with its id, its tenant, the usage of that response, the
    provider, the model and the account of that call and their price, and the write succeeded; a
    request that fails has entered none, unless the write itself is what failed, which is a 500; a
    committed stream has entered none yet. *)
Theorem response_billed_once req started scope (w : World (S := S)) :
  let run := execute_inner env host store_required snap req started scope w in
  bill req run.1 w run.2.
Proof.
  cbv zeta. revert w. change (bills req (execute_inner env host store_required snap
    req started scope)).
  assert (Hs : forall f g, idle (spend_usd env store_required f g))
    by (intros f g; apply silent_idle; [apply quiet_spend|apply silent_spend]).
  unfold execute_inner. apply bills_unless; [apply Hs|].
  apply bills_unless; [apply Hs|].
  set (req1 := if sv_compress_tool_results _ then _ else _).
  assert (H1 : req_id req1 = req_id req /\ req_tenant req1 = req_tenant req)
    by (unfold req1; destruct (sv_compress_tool_results _); [rewrite compress_request_fields|]; done).
  pose proof (pre_route_keeps (h_plugins host) req1) as Hp. fold (h_pre_route host) in Hp.
  destruct (h_pre_route host req1) as [verdict req2]. simpl in Hp.
  destruct H1 as [Hi1 Ht1], Hp as [Hi2 Ht2].
  apply (bills_same req req2); [congruence..|].
  destruct verdict; [|apply bills_deny].
  destruct (apply_request_client_profile _ req2) as [[cp req3]|e] eqn:E; [|apply bills_deny].
  destruct (client_profile_keeps _ _ _ _ E). apply (bills_same req2 req3); [done..|].
  apply bills_run_route.
Qed.

(** A stream is billed when it ends cleanly, once, with the usage it
    reported; a stream that fails or whose client goes away is not billed. *)
Theorem stream_billed_on_clean_end req c usage reason finish (w : World (S := S)) :
  let l := w_ledger w in
  let l' := w_ledger (finalize_stream env host store_required snap req c
                        (usage, reason, finish) w).2 in
  match finish with
  | Clean => exists r res, charges req usage r
      /\ ur_provider_id r = t_provider_id (sm_target c) /\ ur_model r = t_model (sm_target c)
      /\ entered (if store_required then Some PostCommit else None) r res l l'
  | _ => same_books l' l
  end.
Proof.
  cbv zeta. revert w. set (ph := if store_required then Some PostCommit else None).
  set (Q := fun (_ : unit) (l l' : L) => exists r res, charges req usage r
      /\ ur_provider_id r = t_provider_id (sm_target c) /\ ur_model r = t_model (sm_target c)
      /\ entered ph r res l l').
  assert (Hq : forall b l0 l1 l2, same_books l1 l0 -> Q b l1 l2 -> Q b l0 l2).
  { intros b l0 l1 l2 E (r & res & H1 & H2 & H3 & He). exists r, res. split_and!; [done..|].
    by eapply entered_books. }
  destruct finish as [|class|].
  - change (writes (finalize_stream env host store_required snap req c (usage, reason, Clean)) Q).
    unfold finalize_stream. do 6 (apply (flow_then _ _ _ Hq); [eauto with billing|]; intros ?).
    eapply (writes_bind _ _ Q (fun _ _ l l' => same_books l' l)).
    + intros w. exists (usage_record snap req (t_provider_id (sm_target c)) (t_model (sm_target c))
        (sm_account_id c) usage a true a4), (record_inner (w_ledger w) (usage_record snap req
        (t_provider_id (sm_target c)) (t_model (sm_target c)) (sm_account_id c) usage a true a4)
        ph).1. split_and!; try done. split; [done|]. simpl. unfold ph. by destruct store_required.
    + intros _. apply quiet_bind; [eauto with billing|]. intros unix. apply quiet_record_trace.
    + intros _ b l0 l1 l2 (r & res & H1 & H2 & H3 & He) E. exists r, res. split_and!; [done..|].
      by eapply entered_books.
  - change (quiet (finalize_stream env host store_required snap req c (usage, reason,
      UpstreamError class))).
    unfold finalize_stream. eauto 9 with billing.
  - change (quiet (finalize_stream env host store_required snap req c (usage, reason, Aborted))).
    unfold finalize_stream. eauto 9 with billing.
Qed.

End Billing.
