(* ===== verification/EngineSamples.v ===== *)
(** * The execution engine: a concrete system

    Two providers, a tenant restricted to some of their accounts, and scripted
    adapters: the runs that show the hypotheses of the engine's theorems can hold,
    and the ones that show where its guarantees end. *)

From Stdlib Require Import ZArith Lia.
From stdpp Require Import base list strings gmap option.
From S2P Require Import Prelude Text BTree Float Time Ir Config Target Routing Router.
From S2P Require Import Catalog Ledger Breaker Availability ScorecardEntry Scorecard.
From S2P Require Import Plugins.
From S2P Require Import Resolver Collect Profiles Trace Engine EngineTheorems EngineProperties.
From S2P Require Import EngineBilling UsageTable LedgerTheorems.
Import LedgerSamples.

#[local] Open Scope Z_scope.

Module EngineSamples.

Definition target_p : ExecutionTarget := ExecutionTarget_new "p" "m" ModelApi.
Definition target_q : ExecutionTarget := ExecutionTarget_new "q" "m" ModelApi.

Definition acct (provider id : string) (priority : Z) : Account :=
  mkAccount id provider (RaApiKey ("key-" ^^ id)) priority [].

Definition resolver : CredentialResolver :=
  resolver_new
    {[ "p" := mkProviderAccounts [acct "p" "a" 0; acct "p" "b" 1] FillFirst 1;
       "q" := mkProviderAccounts [acct "q" "c" 0] FillFirst 1 ]}
    (Breaker.new BreakerConfig_default).

(** The tenant may use only the second account of [p]. *)
Definition acme : TenantConfig := mkTenantConfig "acme" [] [] ["p/b"; "q/c"] (Some f64_zero) None.
Definition acme_free : TenantConfig := mkTenantConfig "acme" [] [] ["p/b"; "q/c"] None None.

Definition server (hedge : bool) (per_provider : BTreeMap string f64) : ServerConfig :=
  mkServerConfig None false false None None false false None true true true CostAllow
    ContextAllow false (mkRetryConfig 1 10 100) (mkHedgeConfig hedge 0 2)
    (mkBudgetConfig None per_provider) ScorecardConfig_default QualityEvalConfig_default.

Definition config (t : TenantConfig) (hedge : bool) (per_provider : BTreeMap string f64)
  : EngineConfig :=
  mkEngineConfig (server hedge per_provider) [] []
    [mkRouteConfig "main" (Some "*") RouteRequire_default ["p/m"; "q/m"]] [t] [].

Definition registry : Registry :=
  mkRegistry (fun p => str_eqb p "p" || str_eqb p "q")
    (fun id => if str_eqb id "p/m" then Some target_p
               else if str_eqb id "q/m" then Some target_q else None)
    (fun _ _ => None) (fun _ _ u => 10 * output_tokens u) (fun _ _ _ => 0) (fun _ => "direct").

Definition snapshot (t : TenantConfig) (hedge : bool) (cap : option f64)
    (per_provider : BTreeMap string f64) : Snapshot :=
  let cfg := config t hedge per_provider in
  mkSnapshot 7 cfg registry (mkRuntime false false hedge 1 cap).

Definition host : Host :=
  mkHost [RequestTag []] (fun _ _ _ => [])
    (fun _ => false) (fun _ => true) (fun _ => "eval") (fun _ => None).

(** [p] is down, [q] answers; the racers complete in the order of the plan. *)
Definition answer (p : PreparedRequest) : result EventStream AdapterError :=
  if str_eqb (t_provider_id (pr_target p)) "p" then Err (AdapterError_new ServerError "down")
  else Ok [Ok (EvMessageStart "up" "m"); Ok (EvTextDelta "hi");
           Ok (EvUsageDelta (mkUsage 3 5 0 0 None)); Ok (EvMessageEnd Stop)].

Definition env : Env (S := UsageTable) :=
  mkEnv (fun n => Z.of_nat n) (fun n => Z.of_nat n)
    (fun _ => mkOthers [] (fun s => s) (fun l => l)) (fun _ => answer) (fun _ => [])
    (fun _ => [0%nat; 1%nat]) (fun _ => false).

Definition request : AiRequest :=
  let r := AiRequest_new "r1" "auto-model" [] in
  mkAiRequest (req_id r) (req_model r) (req_system r) (req_messages r) (req_tools r)
    (req_server_tools r) (req_response_format r) (req_stream r) (req_max_output_tokens r)
    (req_temperature r) (req_priority r) (req_privacy_class r) (req_metadata r) (Some "acme")
    (req_project r) (req_passthrough r) (req_protocol_passthrough r)
    (req_system_cache_hint r) (req_tools_cache_hint r).

Definition world : World (S := UsageTable) :=
  mkWorld 0 resolver Scorecard_new [] ledger ∅ (TraceLog_new 8) [] [] [] None [].

Definition snap (t : TenantConfig) (hedge : bool) : Snapshot := snapshot t hedge None [].

Definition run (t : TenantConfig) (hedge : bool) :=
  execute_inner env host true (snap t hedge) request 0 None world.

Definition call_of (p : PreparedRequest) : string * option string :=
  (t_id (pr_target p), account_of p).

(** The sequential run: the tenant's account of [p], its retry, then [q]. *)
Lemma sequential_calls :
  call_of <$> w_dispatched (run acme_free false).2
  = [("p/m", Some "b"); ("p/m", Some "b"); ("q/m", Some "c")].
Proof. vm_compute. reflexivity. Qed.

Lemma alone_env n l : same_books (o_ledger (e_others env n) l) l.
Proof. by split_and!. Qed.

Lemma tenant_isolation_witness :
  Forall (tenant_permits (snap acme_free false)) (w_dispatched (run acme_free false).2).
Proof.
  destruct (tenant_isolation env host true (snap acme_free false) request 0 None world eq_refl)
    as (l & E & Hl).
  unfold run. rewrite E. simpl. eapply List.Forall_impl; [|exact Hl]. by intros p [Hp _].
Defined.


(** A tenant whose cap is zero, with a global cap that is not reached. *)
Definition one_dollar : f64 := micros_usd 1000000.

Lemma over_budget_refused_witness :
  let capped := snapshot acme false (Some one_dollar) [] in
  let run := execute_inner env host true capped request 0 None world in
  refusal (Ok f64_zero) "tenant_budget_exceeded" run.1 /\ w_dispatched run.2 = [].
Proof.
  exact (proj2 (over_budget_refused env host true (snapshot acme false (Some one_dollar) []) request 0 None
    world "acme" acme) eq_refl eq_refl eq_refl f64_zero eq_refl eq_refl).
Defined.

Definition broke : Snapshot := snapshot acme_free false None [("p", f64_zero)].
Definition trace0 : RequestTrace :=
  trace_start "r1" 7 "auto-model" "main" (RouteDecision_new "r1" "main").

Lemma provider_gate_skips_witness :
  w_dispatched (target_gate env host true broke request 0 target_p world).2 = [].
Proof.
  exact (proj2 (provider_gate_skips env host true broke request EmptyString 0 false None target_p
    [target_q] (mkProgress trace0 None None) world f64_zero f64_zero
    (or_intror (or_intror (conj eq_refl (conj eq_refl eq_refl)))))).
Defined.

Lemma response_billed_once_witness :
  exists r, ur_request_id r = "r1" /\ ur_tenant r = Some "acme" /\ ur_cost_micros r = Some 50
  /\ same_books (w_ledger (run acme_free false).2) (record_checked ledger r).2.
Proof.
  pose proof (response_billed_once env host true (snap acme_free false) alone_env request 0 None
    world) as Hb.
  cbv zeta in Hb.
  assert (Ho : exists resp sm, (run acme_free false).1 = OutCollected resp sm
    /\ resp_usage resp = mkUsage 3 5 0 0 None) by (vm_compute; eauto).
  destruct Ho as (resp & sm & Ho & Hu). unfold run in Ho. rewrite Ho in Hb.
  destruct Hb as (p & r & _ & ((Hi & Ht & _ & Hc) & _) & _ & He). exists r.
  rewrite Hc, Hu. split_and!; [exact Hi|exact Ht|reflexivity|exact He].
Defined.

Definition commit : StreamCommit := mkStreamCommit target_q "c" "direct" 0 0 trace0.

Lemma stream_billed_on_clean_end_witness :
  exists r, ur_usage r = mkUsage 3 5 0 0 None /\ ur_provider_id r = "q".
Proof.
  destruct (stream_billed_on_clean_end env host true (snap acme_free false) alone_env request
    commit (mkUsage 3 5 0 0 None) (Some Stop) Clean world)
    as (r & res & (_ & _ & Hu & _) & Hp & _).
  exact (ex_intro _ r (conj Hu Hp)).
Defined.

(** Hedging bypasses the policies of the fallback loop: a racer resolves its
    account without the allow-list and passes no provider gate. In a hedged run
    a request of a tenant restricted to account [b] of [p] is sent with account
    [a]; and a provider whose budget is used up, which the fallback's gate skips
    in the same state, is called. *)
Theorem hedge_bypasses_policy :
  (exists p, p ∈ w_dispatched (run acme_free true).2
     /\ req_tenant (pr_request p) = Some (tn_id acme_free)
     /\ ~ tenant_permits (snap acme_free true) p)
  /\ let spent := snapshot acme_free true None [("p", f64_zero)] in
     (target_gate env host true spent request 0 target_p world).1 = GateSkip
     /\ "p" ∈ (fun p => t_provider_id (pr_target p)) <$>
        w_dispatched (execute_inner env host true spent request 0 None world).2.
Proof.
  split; [|split].
  - set (l := w_dispatched (run acme_free true).2).
    assert (Hl : exists p rest, l = p :: rest /\ req_tenant (pr_request p) = Some "acme"
      /\ t_provider_id (pr_target p) = "p" /\ account_of p = Some "a")
      by (vm_compute; eauto 9).
    destruct Hl as (p & rest & -> & Ht & Hp & Ha). exists p. split_and!; [constructor|done|].
    intros Hperm. destruct (Hperm "acme" acme_free Ht eq_refl) as [_ Hacc].
    destruct (Hacc ltac:(done)) as (a & Ea & Hin). rewrite Ha in Ea. simplify_eq/=.
    rewrite Hp in Hin. vm_compute in Hin. set_solver.
  - vm_compute. reflexivity.
  - vm_compute. constructor.
Qed.

(** The trace of a hedged win stays in the in-memory log: it is not written to
    the store, where the trace of the same request without hedging goes. *)
Theorem hedged_trace_not_stored :
  length (w_trace_rows (run acme_free false).2) = 1%nat
  /\ length (w_trace_rows (run acme_free true).2) = 0%nat
  /\ length (tl_ring (w_trace_log (run acme_free true).2)) = 1%nat.
Proof. vm_compute. by split_and!. Qed.

End EngineSamples.
