(* ===== verification/Leases.v ===== *)
(** * The coordination tables of the store

    [SqliteStore::idempotency_*], [tenant_slot_*] and [admission_slot_*] in
    [crates/sb-store/src/lib.rs]: stored responses, in-flight claims and
    concurrency slots with an expiry, shared by every gateway process on the same
    database. A call is one transaction: it runs at one reading of the clock, and
    a statement that fails leaves the tables as they were. A database that cannot
    be reached fails every call.

    Every table with an expiry column has the same three statements: the [DELETE]
    of what has expired, the guarded [UPDATE] of a renewal, and the [DELETE] of a
    release. They are written once, for a table of rows that can expire. *)

From Stdlib Require Import ZArith Lia.
From stdpp Require Import base list strings gmap.
From S2P Require Import Prelude Text UsageTable.

#[local] Open Scope Z_scope.

(** ** Rows that expire *)

Class Expires (R : Type) := {
  expires_at : R -> Z;
  set_expires : Z -> R -> R;
}.

Class ExpiresLaws (R : Type) `{Expires R} := {
  expires_set e r : expires_at (set_expires e r) = e;
}.

Section Rows.
Context {R : Type} `{Expires R}.

(** [DELETE .. WHERE expires_at <= now]. *)
Definition purge (now : Z) (m : gmap string R) : gmap string R :=
  filter (fun kr => now < expires_at kr.2) m.

(** [UPDATE .. SET expires_at = e WHERE key = k AND expires_at > now AND ok], and
    whether a row changed. *)
Definition renew_row (k : string) (ok : R -> bool) (now e : Z) (m : gmap string R)
  : bool * gmap string R :=
  match m !! k with
  | Some r => if ok r && (now <? expires_at r) then (true, <[k := set_expires e r]> m)
              else (false, m)
  | None => (false, m)
  end.

(** [DELETE .. WHERE key = k AND ok], and whether a row changed. *)
Definition release_row (k : string) (ok : R -> bool) (m : gmap string R)
  : bool * gmap string R :=
  match m !! k with
  | Some r => if ok r then (true, delete k m) else (false, m)
  | None => (false, m)
  end.

(** [SELECT COUNT( * ) .. WHERE p]. *)
Definition count_rows (p : R -> bool) (m : gmap string R) : Z :=
  Z.of_nat (size (filter (fun kr => p kr.2 = true) m)).

End Rows.

(** [now.saturating_add(ttl_ms as i64)]. *)
Definition lease_expiry (now ttl_ms : Z) : Z := i64_clamp (now + wrap_i64 ttl_ms).

(** ** The tables *)

Record IdempotencyRecord := mkIdempotencyRecord {
  ir_key : string;
  ir_fingerprint : string;
  ir_status : Z;
  ir_content_type : string;
  ir_body : string;
  ir_created_at_ms : Z
}.

Inductive IdempotencyBegin :=
| Claimed
| InProgress
| Mismatch
| Replay (rec : IdempotencyRecord).

Record InflightRow := mkInflightRow {
  if_fingerprint : string;
  if_lease_id : option string;
  if_created_at : Z;
  if_expires_at : Z
}.

Record TenantSlot := mkTenantSlot {
  ts_tenant : string;
  ts_created_at : Z;
  ts_expires_at : Z
}.

Record AdmissionSlot := mkAdmissionSlot {
  as_created_at : Z;
  as_expires_at : Z
}.

#[export] Instance inflight_expires : Expires InflightRow := {|
  expires_at := if_expires_at;
  set_expires e r := mkInflightRow (if_fingerprint r) (if_lease_id r) (if_created_at r) e
|}.
#[export] Instance inflight_laws : ExpiresLaws InflightRow.
Proof. by split. Qed.

#[export] Instance tenant_slot_expires : Expires TenantSlot := {|
  expires_at := ts_expires_at;
  set_expires e r := mkTenantSlot (ts_tenant r) (ts_created_at r) e
|}.
#[export] Instance tenant_slot_laws : ExpiresLaws TenantSlot.
Proof. by split. Qed.

#[export] Instance admission_slot_expires : Expires AdmissionSlot := {|
  expires_at := as_expires_at;
  set_expires e r := mkAdmissionSlot (as_created_at r) e
|}.
#[export] Instance admission_slot_laws : ExpiresLaws AdmissionSlot.
Proof. by split. Qed.

(** The database: four tables by primary key, and whether it can be reached. *)
Record Leases := mkLeases {
  ls_reachable : bool;
  ls_idempotency : gmap string IdempotencyRecord;
  ls_inflight : gmap string InflightRow;
  ls_tenant_slots : gmap string TenantSlot;
  ls_admission_slots : gmap string AdmissionSlot
}.

Definition Leases_new : Leases := mkLeases true ∅ ∅ ∅ ∅.

Definition set_inflight (m : gmap string InflightRow) (s : Leases) : Leases :=
  mkLeases (ls_reachable s) (ls_idempotency s) m (ls_tenant_slots s) (ls_admission_slots s).
Definition set_tenant_slots (m : gmap string TenantSlot) (s : Leases) : Leases :=
  mkLeases (ls_reachable s) (ls_idempotency s) (ls_inflight s) m (ls_admission_slots s).
Definition set_admission_slots (m : gmap string AdmissionSlot) (s : Leases) : Leases :=
  mkLeases (ls_reachable s) (ls_idempotency s) (ls_inflight s) (ls_tenant_slots s) m.

(** A call on a database that can be reached. *)
Definition reached {A} (s : Leases) (k : result A string * Leases) : result A string * Leases :=
  if ls_reachable s then k else (Err unreachable, s).

(** ** Idempotency *)

Definition idempotency_get (s : Leases) (key : string)
  : result (option IdempotencyRecord) string * Leases :=
  reached s (Ok (ls_idempotency s !! key), s).

(** [INSERT OR IGNORE]: the first writer wins. *)
Definition idempotency_put (s : Leases) (rec : IdempotencyRecord) : result bool string * Leases :=
  reached s
    match ls_idempotency s !! ir_key rec with
    | Some _ => (Ok false, s)
    | None =>
        (Ok true, mkLeases (ls_reachable s) (<[ir_key rec := rec]> (ls_idempotency s))
                    (ls_inflight s) (ls_tenant_slots s) (ls_admission_slots s))
    end.

Definition idempotency_begin (s : Leases) (now : Z) (key fingerprint lease_id : string)
    (ttl_ms : Z) : result IdempotencyBegin string * Leases :=
  reached s
    (let live := purge now (ls_inflight s) in
     match ls_idempotency s !! key with
     | Some rec =>
         (Ok (if str_eqb (ir_fingerprint rec) fingerprint then Replay rec else Mismatch),
          set_inflight live s)
     | None =>
         match live !! key with
         | Some row =>
             (Ok (if str_eqb (if_fingerprint row) fingerprint then InProgress else Mismatch),
              set_inflight live s)
         | None =>
             let row := mkInflightRow fingerprint (Some lease_id) now (lease_expiry now ttl_ms) in
             (Ok Claimed, set_inflight (<[key := row]> live) s)
         end
     end).

Definition held_by (lease_id : string) (row : InflightRow) : bool :=
  bool_decide (if_lease_id row = Some lease_id).

Definition idempotency_release (s : Leases) (key lease_id : string)
  : result bool string * Leases :=
  reached s
    (let '(changed, m) := release_row key (held_by lease_id) (ls_inflight s) in
     (Ok changed, set_inflight m s)).

Definition idempotency_renew (s : Leases) (now : Z) (key lease_id : string) (ttl_ms : Z)
  : result bool string * Leases :=
  reached s
    (let '(changed, m) := renew_row key (held_by lease_id) now (lease_expiry now ttl_ms)
                            (ls_inflight s) in
     (Ok changed, set_inflight m s)).

(** ** Slots *)

Definition of_tenant (tenant : string) (r : TenantSlot) : bool := str_eqb (ts_tenant r) tenant.

(** The [INSERT] of a slot fails on a primary key that is taken, and the
    transaction is rolled back. *)
Definition tenant_slot_acquire (s : Leases) (now : Z) (tenant slot_id : string)
    (max ttl_ms : Z) : result bool string * Leases :=
  reached s
    (let live := purge now (ls_tenant_slots s) in
     if max <=? count_rows (of_tenant tenant) live then (Ok false, set_tenant_slots live s)
     else match live !! slot_id with
     | Some _ => (Err "UNIQUE constraint failed: tenant_slots.slot_id", s)
     | None =>
         (Ok true, set_tenant_slots
            (<[slot_id := mkTenantSlot tenant now (lease_expiry now ttl_ms)]> live) s)
     end).

Definition tenant_slot_release (s : Leases) (slot_id : string) : result unit string * Leases :=
  reached s (Ok tt, set_tenant_slots (delete slot_id (ls_tenant_slots s)) s).

Definition tenant_slot_renew (s : Leases) (now : Z) (slot_id : string) (ttl_ms : Z)
  : result bool string * Leases :=
  reached s
    (let '(changed, m) := renew_row slot_id (fun _ => true) now (lease_expiry now ttl_ms)
                            (ls_tenant_slots s) in
     (Ok changed, set_tenant_slots m s)).

(** [active as u32]. *)
Definition tenant_slot_count (s : Leases) (now : Z) (tenant : string)
  : result Z string * Leases :=
  reached s
    (let live := purge now (ls_tenant_slots s) in
     (Ok (wrap32 (count_rows (of_tenant tenant) live)), set_tenant_slots live s)).

Definition admission_slot_acquire (s : Leases) (now : Z) (slot_id : string) (max ttl_ms : Z)
  : result bool string * Leases :=
  reached s
    (let live := purge now (ls_admission_slots s) in
     if max <=? count_rows (fun _ => true) live then (Ok false, set_admission_slots live s)
     else match live !! slot_id with
     | Some _ => (Err "UNIQUE constraint failed: admission_slots.slot_id", s)
     | None =>
         (Ok true, set_admission_slots
            (<[slot_id := mkAdmissionSlot now (lease_expiry now ttl_ms)]> live) s)
     end).

Definition admission_slot_release (s : Leases) (slot_id : string)
  : result unit string * Leases :=
  reached s (Ok tt, set_admission_slots (delete slot_id (ls_admission_slots s)) s).

Definition admission_slot_renew (s : Leases) (now : Z) (slot_id : string) (ttl_ms : Z)
  : result bool string * Leases :=
  reached s
    (let '(changed, m) := renew_row slot_id (fun _ => true) now (lease_expiry now ttl_ms)
                            (ls_admission_slots s) in
     (Ok changed, set_admission_slots m s)).

Definition admission_slot_count (s : Leases) (now : Z) : result Z string * Leases :=
  reached s
    (let live := purge now (ls_admission_slots s) in
     (Ok (wrap32 (count_rows (fun _ => true) live)), set_admission_slots live s)).

(** ** Runs

    Any process may issue any call; the database may go away and come back. *)

Inductive LOp :=
| LReachable (b : bool)
| LGet (key : string)
| LPut (rec : IdempotencyRecord)
| LBegin (key fingerprint lease_id : string) (ttl_ms : Z)
| LRelease (key lease_id : string)
| LRenew (key lease_id : string) (ttl_ms : Z)
| LTenantAcquire (tenant slot_id : string) (max ttl_ms : Z)
| LTenantRelease (slot_id : string)
| LTenantRenew (slot_id : string) (ttl_ms : Z)
| LTenantCount (tenant : string)
| LAdmitAcquire (slot_id : string) (max ttl_ms : Z)
| LAdmitRelease (slot_id : string)
| LAdmitRenew (slot_id : string) (ttl_ms : Z)
| LAdmitCount.

Definition lexec (s : Leases) (now : Z) (o : LOp) : Leases :=
  match o with
  | LReachable b => mkLeases b (ls_idempotency s) (ls_inflight s) (ls_tenant_slots s)
                      (ls_admission_slots s)
  | LGet key => (idempotency_get s key).2
  | LPut rec => (idempotency_put s rec).2
  | LBegin key fp lease ttl => (idempotency_begin s now key fp lease ttl).2
  | LRelease key lease => (idempotency_release s key lease).2
  | LRenew key lease ttl => (idempotency_renew s now key lease ttl).2
  | LTenantAcquire tenant slot max ttl => (tenant_slot_acquire s now tenant slot max ttl).2
  | LTenantRelease slot => (tenant_slot_release s slot).2
  | LTenantRenew slot ttl => (tenant_slot_renew s now slot ttl).2
  | LTenantCount tenant => (tenant_slot_count s now tenant).2
  | LAdmitAcquire slot max ttl => (admission_slot_acquire s now slot max ttl).2
  | LAdmitRelease slot => (admission_slot_release s slot).2
  | LAdmitRenew slot ttl => (admission_slot_renew s now slot ttl).2
  | LAdmitCount => (admission_slot_count s now).2
  end.

Definition lrun (s : Leases) (os : list (Z * LOp)) : Leases :=
  fold_left (fun s to => lexec s to.1 to.2) os s.

(** The interval of the background renewal ([crates/sb-server/src/lease.rs]), in
    milliseconds. *)
Definition renewal_interval (ttl_ms : Z) : Z :=
  if ttl_ms <=? 2 then 1 else Z.max 1 (Z.min 60000 (ttl_ms / 2)).
