(* ===== verification/LeaseTheorems.v ===== *)
(** * The coordination tables: theorems

    Whatever calls any number of processes make, in any order: slots stay within
    their bound, a claim is exclusive while it is held, renewals at the interval
    the server uses keep it, and a stored response is replayed for ever. *)

From Stdlib Require Import ZArith Lia.
From stdpp Require Import base list strings gmap.
From S2P Require Import Prelude Text UsageTable Leases.

#[local] Open Scope Z_scope.

(** ** Live rows *)

Section Live.
Context {R : Type} `{Expires R} `{!ExpiresLaws R} (p : R -> bool).

(** The keys of the rows in [p] that are live at [t]. *)
Definition live_keys (t : Z) (m : gmap string R) : gset string :=
  dom (filter (fun kr => p kr.2 = true /\ t < expires_at kr.2) m).

Definition live_count (t : Z) (m : gmap string R) : Z := Z.of_nat (size (live_keys t m)).

Lemma elem_of_live t m k :
  k ∈ live_keys t m <-> exists r, m !! k = Some r /\ p r = true /\ t < expires_at r.
Proof.
  unfold live_keys. rewrite elem_of_dom. split.
  - intros [r [Hr [Hp Ht]]%map_lookup_filter_Some]. eauto.
  - intros (r & Hr & Hp & Ht). exists r. by apply map_lookup_filter_Some.
Qed.

Lemma purge_lookup t m k r : purge t m !! k = Some r <-> m !! k = Some r /\ t < expires_at r.
Proof. unfold purge. by rewrite map_lookup_filter_Some. Qed.

Lemma count_purge t m : count_rows p (purge t m) = live_count t m.
Proof.
  unfold count_rows, live_count, live_keys. rewrite size_dom. do 2 f_equal.
  unfold purge. rewrite map_filter_filter. apply map_filter_ext. intros k r _. simpl. tauto.
Qed.

Lemma live_subset t u m m' : live_keys t m ⊆ live_keys u m' -> live_count t m <= live_count u m'.
Proof. intros Hs%subseteq_size. unfold live_count. lia. Qed.

Lemma live_later t u m : t <= u -> live_keys u m ⊆ live_keys t m.
Proof. intros Ht k. rewrite !elem_of_live. intros (r & ? & ? & ?). exists r. split_and!; [done|done|lia]. Qed.

Lemma live_purge t u m : t <= u -> live_keys u (purge t m) = live_keys u m.
Proof.
  intros Ht. apply set_eq. intros k. rewrite !elem_of_live. setoid_rewrite purge_lookup.
  split; [naive_solver|]. intros (r & ? & ? & ?). exists r. split_and!; [done|lia|done|done].
Qed.

Lemma live_delete t m k : live_keys t (delete k m) ⊆ live_keys t m.
Proof.
  intros x. rewrite !elem_of_live. intros (r & [_ Hr]%lookup_delete_Some & Hp). by exists r.
Qed.

Lemma live_insert t m k r : live_keys t (<[k := r]> m) ⊆ {[k]} ∪ live_keys t m.
Proof.
  intros x. rewrite elem_of_union, elem_of_singleton, !elem_of_live.
  destruct (decide (x = k)) as [->|Hne]; [by left|]. rewrite lookup_insert_ne by done. by right.
Qed.

(** A renewal revives nothing. *)
Lemma live_renew t k ok e m :
  (forall r, p (set_expires e r) = p r) ->
  live_keys t (renew_row k ok t e m).2 ⊆ live_keys t m.
Proof.
  intros Hp. unfold renew_row. destruct (m !! k) as [r|] eqn:E; [|done].
  destruct (ok r && (t <? expires_at r)) eqn:Eb; [|done]. simpl.
  apply andb_prop in Eb as [_ Ht%Z.ltb_lt]. intros x. rewrite !elem_of_live.
  destruct (decide (x = k)) as [->|Hne]; [|by rewrite lookup_insert_ne].
  rewrite lookup_insert_eq. intros (r' & [= <-] & Hpr & _). exists r. by rewrite Hp in Hpr.
Qed.

Lemma live_release t k ok m : live_keys t (release_row k ok m).2 ⊆ live_keys t m.
Proof.
  unfold release_row. destruct (m !! k) as [r|]; [|done]. destruct (ok r); [|done].
  apply live_delete.
Qed.

(** A new slot on a table that is below its bound. *)
Lemma live_insert_bound t m k r bound max :
  count_rows p (purge t m) < max -> max <= bound ->
  live_count t (<[k := r]> (purge t m)) <= bound.
Proof.
  rewrite count_purge. intros Hc Hm. pose proof (subseteq_size _ _ (live_insert t (purge t m) k r)) as Hs.
  rewrite live_purge in Hs by lia. unfold live_count in *.
  pose proof (size_union_alt {[k]} (live_keys t m)). rewrite size_singleton in *.
  pose proof (subseteq_size (live_keys t m ∖ {[k]}) (live_keys t m) ltac:(set_solver)). lia.
Qed.

End Live.

(** ** Slots *)

(** Clock readings that never go back, up to [t]. *)
Fixpoint ordered (t0 : Z) (os : list (Z * LOp)) (t : Z) : Prop :=
  match os with
  | [] => t0 <= t
  | (u, _) :: os => t0 <= u /\ ordered u os t
  end.

(** The bounds that acquisitions are made with. *)
Definition tenant_max (tenant : string) (bound : Z) (o : LOp) : Prop :=
  match o with LTenantAcquire t _ max _ => t = tenant -> max <= bound | _ => True end.

Definition admit_max (bound : Z) (o : LOp) : Prop :=
  match o with LAdmitAcquire _ max _ => max <= bound | _ => True end.

(** One operation, seen by a table: [live] is what it may have at the time. *)
Ltac reaches := unfold reached; destruct (ls_reachable _); simpl.
Ltac reach := reaches; [|done].

Lemma tenant_step tenant bound s t o :
  tenant_max tenant bound o ->
  live_count (of_tenant tenant) t (ls_tenant_slots s) <= bound ->
  live_count (of_tenant tenant) t (ls_tenant_slots (lexec s t o)) <= bound.
Proof.
  intros Hm Hb. destruct o; simpl; try done.
  1,2,3,4,5: unfold idempotency_get, idempotency_put, idempotency_begin, idempotency_release,
    idempotency_renew; reach; repeat case_match; done.
  - unfold tenant_slot_acquire. reach. rename tenant0 into owner.
    assert (Hl : live_count (of_tenant tenant) t (purge t (ls_tenant_slots s)) <= bound).
    { unfold live_count in *. by rewrite live_purge by lia. }
    case_match eqn:Ec; [done|]. case_match; [done|]. simpl. apply Z.leb_gt in Ec.
    destruct (decide (owner = tenant)) as [->|Hne].
    + eapply live_insert_bound; [exact Ec|by apply Hm].
    + etransitivity; [|exact Hl]. apply live_subset. intros k. rewrite !elem_of_live.
      destruct (decide (k = slot_id)) as [->|Hk]; [|by rewrite lookup_insert_ne].
      rewrite lookup_insert_eq. intros (r & [= <-] & Hp & _). unfold of_tenant in Hp. simpl in Hp.
      by apply bool_decide_eq_true in Hp.
  - unfold tenant_slot_release. reach. etransitivity; [|exact Hb]. apply live_subset, live_delete.
  - unfold tenant_slot_renew. reach. destruct (renew_row _ _ _ _ _) as [c m] eqn:E. simpl.
    etransitivity; [|exact Hb]. apply live_subset. change m with (c, m).2. rewrite <- E.
    by apply live_renew.
  - unfold tenant_slot_count. reach. etransitivity; [|exact Hb]. apply live_subset.
    by rewrite live_purge by lia.
  - unfold admission_slot_acquire. reach. repeat case_match; done.
  - unfold admission_slot_release. by reach.
  - unfold admission_slot_renew. reach. by destruct (renew_row _ _ _ _ _).
  - unfold admission_slot_count. by reach.
Qed.

Lemma admission_step bound s t o :
  admit_max bound o ->
  live_count (fun _ => true) t (ls_admission_slots s) <= bound ->
  live_count (fun _ => true) t (ls_admission_slots (lexec s t o)) <= bound.
Proof.
  intros Hm Hb. destruct o; simpl; try done.
  1,2,3,4,5: unfold idempotency_get, idempotency_put, idempotency_begin, idempotency_release,
    idempotency_renew; reach; repeat case_match; done.
  - unfold tenant_slot_acquire. reach. repeat case_match; done.
  - unfold tenant_slot_release. by reach.
  - unfold tenant_slot_renew. reach. by destruct (renew_row _ _ _ _ _).
  - unfold tenant_slot_count. by reach.
  - unfold admission_slot_acquire. reach. case_match eqn:Ec; simpl.
    { unfold live_count in *. by rewrite live_purge by lia. }
    case_match; [done|]. simpl. apply Z.leb_gt in Ec. eapply live_insert_bound; [exact Ec|done].
  - unfold admission_slot_release. reach. etransitivity; [|exact Hb]. apply live_subset, live_delete.
  - unfold admission_slot_renew. reach. destruct (renew_row _ _ _ _ _) as [c m] eqn:E. simpl.
    etransitivity; [|exact Hb]. apply live_subset. change m with (c, m).2. rewrite <- E.
    by apply live_renew.
  - unfold admission_slot_count. reach. etransitivity; [|exact Hb]. apply live_subset.
    by rewrite live_purge by lia.
Qed.

(** A bound that every operation keeps at its time, and that time only relaxes,
    holds at the end. *)
Lemma ordered_run (I : Z -> Leases -> Prop) (ok : LOp -> Prop) s t0 os t :
  (forall s u v, u <= v -> I u s -> I v s) ->
  (forall s u o, ok o -> I u s -> I u (lexec s u o)) ->
  I t0 s -> ordered t0 os t -> Forall (fun to => ok to.2) os -> I t (lrun s os).
Proof.
  intros Hlate Hstep. revert s t0. induction os as [|[u o] os IH]; intros s t0 HI Ho Hok.
  { by eapply Hlate. }
  destruct Ho as [Hu Ho]. apply Forall_cons_1 in Hok as [Hko Hok]. unfold lrun. simpl.
  apply (IH _ u); [|done|done]. apply Hstep; [done|]. by eapply Hlate.
Qed.

Lemma live_count_later {R} `{Expires R} (p : R -> bool) t u m bound :
  t <= u -> live_count p t m <= bound -> live_count p u m <= bound.
Proof. intros Ht Hb. etransitivity; [|exact Hb]. by apply live_subset, live_later. Qed.

(** C14 (bounds). The concurrency slots never exceed their bound: whatever calls any
    number of processes make on the shared tables, in any order, with a clock that
    does not go back, at every moment the unexpired slots of a tenant are at most
    the largest limit its slots were asked for with, and so are the unexpired
    admission slots; a renewal never brings an expired slot back. *)
Theorem slots_bounded s t0 os t tenant tenant_bound bound :
  live_count (of_tenant tenant) t0 (ls_tenant_slots s) <= tenant_bound ->
  live_count (fun _ => true) t0 (ls_admission_slots s) <= bound ->
  ordered t0 os t ->
  Forall (fun to => tenant_max tenant tenant_bound to.2 /\ admit_max bound to.2) os ->
  live_count (of_tenant tenant) t (ls_tenant_slots (lrun s os)) <= tenant_bound
  /\ live_count (fun _ => true) t (ls_admission_slots (lrun s os)) <= bound.
Proof.
  intros Ht Ha Ho Hok. split.
  - apply (ordered_run (fun u s => live_count (of_tenant tenant) u (ls_tenant_slots s) <= tenant_bound)
             (tenant_max tenant tenant_bound) s t0 os t); [|intros; by apply tenant_step|done|done|].
    { intros ? ? ? ?. by apply live_count_later. }
    eapply List.Forall_impl; [|exact Hok]. by intros to [? _].
  - apply (ordered_run (fun u s => live_count (fun _ => true) u (ls_admission_slots s) <= bound)
             (admit_max bound) s t0 os t); [|intros; by apply admission_step|done|done|].
    { intros ? ? ? ?. by apply live_count_later. }
    eapply List.Forall_impl; [|exact Hok]. by intros to [_ ?].
Qed.

(** ** Claims *)

(** The claim of [lease] on [key], with its expiry. *)
Definition holds (s : Leases) (key lease : string) (e : Z) : Prop :=
  exists row, ls_inflight s !! key = Some row /\ if_lease_id row = Some lease
    /\ if_expires_at row = e.

(** The expiry after an operation that is made in time: the holder's renewals
    extend it when they reach the database. *)
Definition extended (key lease : string) (s : Leases) (t e : Z) (o : LOp) : Z :=
  match o with
  | LRenew k l ttl => if str_eqb k key && str_eqb l lease && ls_reachable s
                      then lease_expiry t ttl else e
  | _ => e
  end.

Definition not_released (key lease : string) (o : LOp) : Prop :=
  match o with LRelease k l => ~ (k = key /\ l = lease) | _ => True end.

Lemma holds_step s key lease e t o :
  t < e -> not_released key lease o -> holds s key lease e ->
  holds (lexec s t o) key lease (extended key lease s t e o).
Proof.
  intros Ht Hn (row & Hr & Hl & He). destruct o as [ |k|rec|k fp l ttl|k l|k l ttl| | | | | | | | ];
    simpl; try (by exists row).
  - unfold idempotency_get. reaches; by exists row.
  - unfold idempotency_put. reaches; [|by exists row]. by case_match; exists row.
  - unfold idempotency_begin. reaches; [|by exists row].
    assert (Hp : purge t (ls_inflight s) !! key = Some row) by (apply purge_lookup; subst e; done).
    case_match; [by exists row|]. destruct (purge t (ls_inflight s) !! k) eqn:Ek; simpl; [by exists row|].
    exists row. simpl. rewrite lookup_insert_ne; [done|]. intros ->. congruence.
  - unfold idempotency_release. reaches; [|by exists row].
    unfold release_row. destruct (ls_inflight s !! k) as [r'|] eqn:Ek; [|by exists row].
    destruct (held_by l r') eqn:Eh; simpl; [|by exists row]. exists row. simpl.
    rewrite lookup_delete_ne; [done|]. intros ->. rewrite Hr in Ek. simplify_eq.
    apply bool_decide_eq_true in Eh. apply Hn. split; congruence.
  - unfold idempotency_renew, reached. destruct (ls_reachable s);
      rewrite ?andb_false_r, ?andb_true_r; [|by exists row].
    unfold renew_row. destruct (decide (k = key)) as [->|Hk].
    + rewrite Hr. unfold str_eqb. rewrite bool_decide_true by done. simpl.
      unfold held_by. rewrite Hl. destruct (decide (l = lease)) as [->|Hlne].
      * rewrite !bool_decide_true by done. replace (t <? if_expires_at row) with true
          by (symmetry; apply Z.ltb_lt; lia). simpl.
        eexists. simpl. rewrite lookup_insert_eq. by split_and!.
      * rewrite !bool_decide_false by congruence. simpl. by exists row.
    + unfold str_eqb. rewrite (bool_decide_false (k = key)) by done. simpl.
      destruct (ls_inflight s !! k) as [r'|]; [|by exists row].
      destruct (held_by l r' && _); simpl; [|by exists row].
      exists row. simpl. by rewrite lookup_insert_ne.
  - unfold tenant_slot_acquire. reaches; [|by exists row]. repeat case_match; by exists row.
  - unfold tenant_slot_release. reaches; by exists row.
  - unfold tenant_slot_renew. reaches; [|by exists row]. case_match. by exists row.
  - unfold tenant_slot_count. reaches; by exists row.
  - unfold admission_slot_acquire. reaches; [|by exists row]. repeat case_match; by exists row.
  - unfold admission_slot_release. reaches; by exists row.
  - unfold admission_slot_renew. reaches; [|by exists row]. case_match. by exists row.
  - unfold admission_slot_count. reaches; by exists row.
Qed.

(** The calls of a run are all made before the claim expires, counting its
    renewals; [e'] is its expiry at the end. *)
Fixpoint in_time (key lease : string) (s : Leases) (e : Z) (os : list (Z * LOp)) (e' : Z) : Prop :=
  match os with
  | [] => e' = e
  | (t, o) :: os =>
      t < e /\ not_released key lease o
      /\ in_time key lease (lexec s t o) (extended key lease s t e o) os e'
  end.

Lemma holds_run key lease os : forall s e e',
  holds s key lease e -> in_time key lease s e os e' -> holds (lrun s os) key lease e'.
Proof.
  induction os as [|[t o] os IH]; intros s e e' Hh Hin; simpl in Hin; [by subst|].
  destruct Hin as (Ht & Hn & Hin). unfold lrun. simpl. eapply IH; [|exact Hin].
  by apply holds_step.
Qed.

Lemma holds_refuses s key lease e t fp l ttl :
  holds s key lease e -> t < e -> (idempotency_begin s t key fp l ttl).1 <> Ok Claimed.
Proof.
  intros (row & Hr & _ & He) Ht. unfold idempotency_begin, reached.
  destruct (ls_reachable s); [|done]. destruct (ls_idempotency s !! key); simpl.
  { by case_match. }
  assert (Hp : purge t (ls_inflight s) !! key = Some row) by (apply purge_lookup; subst e; done).
  rewrite Hp. simpl. by case_match.
Qed.

(** C15 (safety). Single flight across processes: once a request has claimed a key, and
    until it releases it or the claim expires, no other request that any process
    makes with the key is let through, whatever else happens in between,
    releases with a stale lease included; renewals extend the time. *)
Theorem claim_exclusive s t0 key fp lease ttl os e' t fp' lease' ttl' :
  let '(res, s') := idempotency_begin s t0 key fp lease ttl in
  res = Ok Claimed ->
  in_time key lease s' (lease_expiry t0 ttl) os e' -> t < e' ->
  (idempotency_begin (lrun s' os) t key fp' lease' ttl').1 <> Ok Claimed.
Proof.
  destruct (idempotency_begin s t0 key fp lease ttl) as [res s'] eqn:E. intros -> Hin Ht.
  eapply holds_refuses; [|exact Ht]. eapply holds_run; [|exact Hin].
  unfold idempotency_begin, reached in E. destruct (ls_reachable s); [|done].
  destruct (ls_idempotency s !! key); [by case_match|].
  destruct (purge t0 (ls_inflight s) !! key); [by case_match|]. simplify_eq.
  eexists. simpl. rewrite lookup_insert_eq. by split_and!.
Qed.

(** ** Renewals *)

Lemma renewal_interval_lt ttl : 2 <= ttl -> 0 < renewal_interval ttl < ttl.
Proof.
  unfold renewal_interval. intros Ht. destruct (Z.leb_spec ttl 2); [lia|].
  pose proof (Z.div_lt_upper_bound ttl 2 ttl). pose proof (Z.div_le_lower_bound ttl 2 1). lia.
Qed.

Lemma lease_expiry_exact now ttl :
  0 <= now -> 0 <= ttl -> now + ttl <= i64_max -> lease_expiry now ttl = now + ttl.
Proof.
  unfold lease_expiry, i64_clamp, wrap_i64, i64_max, i64_min. intros Hn Ht Hs.
  rewrite Z.mod_small by lia. lia.
Qed.

(** The calls of a run, the last of which is at most [gap] after the claim or the
    last renewal by its holder, with a database that can be reached. *)
Fixpoint renewed (key lease : string) (ttl gap last : Z) (os : list (Z * LOp)) (t : Z) : Prop :=
  match os with
  | [] => t - last <= gap
  | (u, o) :: os =>
      0 <= u /\ u + ttl <= i64_max /\ u - last <= gap /\ not_released key lease o
      /\ (forall b, o = LReachable b -> b = true)
      /\ match o with
         | LRenew k l ttl' =>
             if decide (k = key /\ l = lease)
             then ttl' = ttl /\ renewed key lease ttl gap u os t
             else renewed key lease ttl gap last os t
         | _ => renewed key lease ttl gap last os t
         end
  end.

Lemma lexec_reachable s t o :
  (forall b, o = LReachable b -> b = true) -> ls_reachable s = true ->
  ls_reachable (lexec s t o) = true.
Proof.
  intros Hb Hr. destruct o; simpl; [by apply Hb| | | | | | | | | | | | | ];
    unfold idempotency_get, idempotency_put, idempotency_begin, idempotency_release,
      idempotency_renew, tenant_slot_acquire, tenant_slot_release, tenant_slot_renew,
      tenant_slot_count, admission_slot_acquire, admission_slot_release, admission_slot_renew,
      admission_slot_count, reached; rewrite Hr; simpl; repeat case_match; done.
Qed.

Lemma renewed_in_time key lease ttl gap os : forall s last t,
  0 <= ttl -> gap < ttl -> ls_reachable s = true -> renewed key lease ttl gap last os t ->
  exists e', in_time key lease s (last + ttl) os e' /\ t < e'.
Proof.
  induction os as [|[u o] os IH]; intros s last t Ht Hg Hs Hr.
  { exists (last + ttl). simpl in *. split; [done|lia]. }
  simpl in Hr. destruct Hr as (Hu & Hmax & Hgap & Hn & Hb & Hr).
  pose proof (lexec_reachable s u o Hb Hs) as Hs'.
  assert (Hext : exists next, extended key lease s u (last + ttl) o = next + ttl
    /\ renewed key lease ttl gap next os t).
  { destruct o as [ | | | | |k l ttl'| | | | | | | | ]; try (by exists last). simpl.
    unfold str_eqb. destruct (decide (k = key /\ l = lease)) as [[-> ->]|Hne].
    - rewrite !bool_decide_true by done. rewrite Hs. simpl. destruct Hr as [-> Hr].
      exists u. by rewrite lease_expiry_exact by lia.
    - exists last. split; [|done]. repeat case_bool_decide; simpl; [naive_solver|done..]. }
  destruct Hext as (next & He & Hnext).
  destruct (IH (lexec s u o) next t Ht Hg Hs' Hnext) as (e' & Hin & Hlt).
  exists e'. split; [|done]. simpl. rewrite He. split_and!; [lia|done|done].
Qed.

(** A claim whose holder renews it at the server's interval, with delays
    that leave room for it, is never lost, however long the request runs: nobody
    else is let through with the key. *)
Theorem renewal_keeps_claim s t0 key fp lease ttl delay os t fp' lease' ttl' :
  2 <= ttl -> 0 <= delay < ttl - renewal_interval ttl -> 0 <= t0 -> t0 + ttl <= i64_max ->
  let '(res, s') := idempotency_begin s t0 key fp lease ttl in
  res = Ok Claimed ->
  renewed key lease ttl (renewal_interval ttl + delay) t0 os t ->
  (idempotency_begin (lrun s' os) t key fp' lease' ttl').1 <> Ok Claimed.
Proof.
  intros Ht Hd H0 Hmax. pose proof (renewal_interval_lt ttl Ht).
  destruct (idempotency_begin s t0 key fp lease ttl) as [res s'] eqn:E. intros -> Hr.
  assert (Hs : ls_reachable s' = true /\ holds s' key lease (t0 + ttl)).
  { unfold idempotency_begin, reached in E. destruct (ls_reachable s) eqn:Er; [|done].
    destruct (ls_idempotency s !! key); [by case_match|].
    destruct (purge t0 (ls_inflight s) !! key); [by case_match|]. simplify_eq. split; [done|].
    eexists. simpl. rewrite lookup_insert_eq, lease_expiry_exact by lia. by split_and!. }
  destruct Hs as [Hs Hh].
  destruct (renewed_in_time key lease ttl (renewal_interval ttl + delay) os s' t0 t ltac:(lia) ltac:(lia) Hs Hr)
    as (e' & Hin & Hlt).
  eapply holds_refuses; [|exact Hlt]. by eapply holds_run.
Qed.

(** ** Replays *)

Lemma stored_step s t o key rec :
  ls_idempotency s !! key = Some rec -> ls_idempotency (lexec s t o) !! key = Some rec.
Proof.
  intros Hr. destruct o as [b|k|r| | | | | | | | | | | ]; simpl; [done|by unfold idempotency_get; reach| |..].
  { unfold idempotency_put. reach. destruct (ls_idempotency s !! ir_key r) eqn:E; [done|].
    simpl. rewrite lookup_insert_ne; [done|]. intros <-. congruence. }
  all: unfold idempotency_begin, idempotency_release,
      idempotency_renew, tenant_slot_acquire, tenant_slot_release, tenant_slot_renew,
      tenant_slot_count, admission_slot_acquire, admission_slot_release, admission_slot_renew,
      admission_slot_count; reach; repeat case_match; done.
Qed.

Lemma stored_run s os key rec :
  ls_idempotency s !! key = Some rec -> ls_idempotency (lrun s os) !! key = Some rec.
Proof.
  revert s. induction os as [|[t o] os IH]; intros s Hr; [done|]. unfold lrun. simpl.
  apply IH. by apply stored_step.
Qed.

(** A stored response is final: once a response was stored under a key,
    every later request with the key gets exactly that record if it has the same
    fingerprint and a mismatch otherwise, whatever else is stored, claimed or
    released; nothing executes again. *)
Theorem replay_forever s rec os t fp lease ttl :
  let '(res, s') := idempotency_put s rec in
  res = Ok true ->
  let s'' := lrun s' os in
  ls_reachable s'' = true ->
  (idempotency_begin s'' t (ir_key rec) fp lease ttl).1
    = Ok (if str_eqb (ir_fingerprint rec) fp then Replay rec else Mismatch)
  /\ (idempotency_get s'' (ir_key rec)).1 = Ok (Some rec).
Proof.
  destruct (idempotency_put s rec) as [res s'] eqn:E. intros -> s'' Hr.
  assert (Hs : ls_idempotency s'' !! ir_key rec = Some rec).
  { apply stored_run. unfold idempotency_put, reached in E. destruct (ls_reachable s); [|done].
    destruct (ls_idempotency s !! ir_key rec); [done|]. simplify_eq. apply lookup_insert_eq. }
  unfold idempotency_begin, idempotency_get, reached. by rewrite Hr, Hs.
Qed.

(** ** The history of a key

    What the calls made so far mean for one key: an automaton that knows nothing of
    other keys, of tables, or of when expired rows are deleted. *)

Record Claim := mkClaim {
  cl_fingerprint : string;
  cl_lease : option string;
  cl_made_at : Z;
  cl_until : Z
}.

Record KeyState := mkKeyState {
  ks_up : bool;
  ks_response : option IdempotencyRecord;
  ks_claim : option Claim
}.

(** The claim, while it has not expired. *)
Definition unexpired (t : Z) (c : option Claim) : option Claim :=
  match c with Some c => if t <? cl_until c then Some c else None | None => None end.

Definition held (lease : string) (c : Claim) : bool := bool_decide (cl_lease c = Some lease).

(** A call with the key: the first response stays; a claim is made when there is neither
    a response nor a claim; its holder may give it back, and extend it in time. *)
Definition respond (rec : IdempotencyRecord) (r : option IdempotencyRecord) : option IdempotencyRecord :=
  match r with Some r => Some r | None => Some rec end.

Definition take_claim (r : option IdempotencyRecord) (t : Z) (fp lease : string) (ttl : Z)
    (c : option Claim) : option Claim :=
  match r, unexpired t c with
  | None, None => Some (mkClaim fp (Some lease) t (lease_expiry t ttl))
  | _, _ => c
  end.

Definition claim_dropped (lease : string) (c : option Claim) : option Claim :=
  match c with Some c => if held lease c then None else Some c | None => None end.

Definition extend_claim (t : Z) (lease : string) (ttl : Z) (c : option Claim) : option Claim :=
  match unexpired t c with
  | Some c => Some (if held lease c
                    then mkClaim (cl_fingerprint c) (cl_lease c) (cl_made_at c) (lease_expiry t ttl) else c)
  | None => c
  end.

Definition key_call (key : string) (a : KeyState) (t : Z) (o : LOp) : KeyState :=
  let claim f := mkKeyState (ks_up a) (ks_response a) (f (ks_claim a)) in
  match o with
  | LPut rec => if str_eqb (ir_key rec) key
                then mkKeyState (ks_up a) (respond rec (ks_response a)) (ks_claim a) else a
  | LBegin k fp lease ttl => if str_eqb k key then claim (take_claim (ks_response a) t fp lease ttl) else a
  | LRelease k lease => if str_eqb k key then claim (claim_dropped lease) else a
  | LRenew k lease ttl => if str_eqb k key then claim (extend_claim t lease ttl) else a
  | _ => a
  end.

Definition key_step (key : string) (a : KeyState) (t : Z) (o : LOp) : KeyState :=
  match o with
  | LReachable b => mkKeyState b (ks_response a) (ks_claim a)
  | _ => if ks_up a then key_call key a t o else a
  end.

Definition key_run (key : string) (a : KeyState) (os : list (Z * LOp)) : KeyState :=
  fold_left (fun a to => key_step key a to.1 to.2) os a.

(** What a request that comes with the key is told. *)
Definition key_answer (a : KeyState) (t : Z) (fp : string) : result IdempotencyBegin string :=
  if ks_up a then
    Ok match ks_response a, unexpired t (ks_claim a) with
       | Some rec, _ => if str_eqb (ir_fingerprint rec) fp then Replay rec else Mismatch
       | None, Some c => if str_eqb (cl_fingerprint c) fp then InProgress else Mismatch
       | None, None => Claimed
       end
  else Err unreachable.

Definition claim_of (row : InflightRow) : Claim :=
  mkClaim (if_fingerprint row) (if_lease_id row) (if_created_at row) (if_expires_at row).

(** The claim on a key in a table. *)
Definition row_claim (key : string) (m : gmap string InflightRow) : option Claim :=
  claim_of <$> m !! key.

Definition key_state (s : Leases) (key : string) : KeyState :=
  mkKeyState (ls_reachable s) (ls_idempotency s !! key) (row_claim key (ls_inflight s)).

(** The tables and the automaton agree, at a time, on all that has not expired. *)
Definition agrees (key : string) (t : Z) (s : Leases) (a : KeyState) : Prop :=
  ls_reachable s = ks_up a /\ ls_idempotency s !! key = ks_response a
  /\ unexpired t (row_claim key (ls_inflight s)) = unexpired t (ks_claim a).

Lemma unexpired_later t u c : t <= u -> unexpired u c = unexpired u (unexpired t c).
Proof.
  intros H. destruct c as [c|]; [|done]. simpl. destruct (Z.ltb_spec t (cl_until c)); [done|].
  by rewrite (proj2 (Z.ltb_ge _ _)) by lia.
Qed.

Lemma unexpired_idem t c : unexpired t (unexpired t c) = unexpired t c.
Proof. symmetry. by apply unexpired_later. Qed.

Lemma agrees_later key t u s a : t <= u -> agrees key t s a -> agrees key u s a.
Proof.
  intros H (H1 & H2 & H3). split_and!; [done..|].
  by rewrite (unexpired_later t u), H3, <- unexpired_later.
Qed.

Lemma purge_claim key t m : row_claim key (purge t m) = unexpired t (row_claim key m).
Proof.
  unfold row_claim. destruct (purge t m !! key) as [r|] eqn:Ep.
  - apply purge_lookup in Ep as [-> He]. simpl in *. by rewrite (proj2 (Z.ltb_lt _ _)).
  - destruct (m !! key) as [row|] eqn:E; [|done]. simpl. destruct (Z.ltb_spec t (if_expires_at row)) as [H|H]; [|done].
    exfalso. assert (Hl : purge t m !! key = Some row) by (by apply purge_lookup). congruence.
Qed.

(** Expired claims do not matter to the automaton. *)
Lemma take_unexpired r t fp lease ttl c :
  unexpired t (take_claim r t fp lease ttl (unexpired t c)) = unexpired t (take_claim r t fp lease ttl c).
Proof.
  unfold take_claim. rewrite unexpired_idem.
  destruct r, (unexpired t c) as [c'|] eqn:E; rewrite <- ?E, ?unexpired_idem; done.
Qed.

Lemma drop_unexpired t lease c :
  unexpired t (claim_dropped lease (unexpired t c)) = unexpired t (claim_dropped lease c).
Proof.
  destruct c as [c|]; [|done]. simpl. destruct (t <? cl_until c) eqn:E; simpl; [done|].
  destruct (held lease c); simpl; by rewrite ?E.
Qed.

Lemma extend_unexpired t lease ttl c :
  unexpired t (extend_claim t lease ttl (unexpired t c)) = unexpired t (extend_claim t lease ttl c).
Proof.
  unfold extend_claim. rewrite unexpired_idem. destruct (unexpired t c) as [c'|] eqn:E; [done|]. done.
Qed.

(** The statements on the table of claims do what the automaton does. *)
Lemma release_claim key k lease m :
  row_claim key (release_row k (held_by lease) m).2
  = if str_eqb k key then claim_dropped lease (row_claim key m) else row_claim key m.
Proof.
  unfold row_claim, release_row, str_eqb. case_bool_decide as Hk; [subst k|].
  - destruct (m !! key) as [row|] eqn:E; simpl; [|by rewrite E].
    unfold held, held_by. simpl. case_bool_decide; simpl; [by rewrite lookup_delete_eq|by rewrite E].
  - destruct (m !! k); [|done]. destruct (held_by _ _); [|done]. simpl. by rewrite lookup_delete_ne.
Qed.

Lemma renew_claim key k lease t ttl m :
  row_claim key (renew_row k (held_by lease) t (lease_expiry t ttl) m).2
  = if str_eqb k key then extend_claim t lease ttl (row_claim key m) else row_claim key m.
Proof.
  unfold row_claim, renew_row, str_eqb. case_bool_decide as Hk; [subst k|].
  - destruct (m !! key) as [row|] eqn:E; simpl; [|by rewrite E].
    unfold extend_claim, held, held_by. simpl.
    destruct (t <? if_expires_at row) eqn:Et; rewrite ?andb_true_r, ?andb_false_r; simpl; [|by rewrite E].
    case_bool_decide; simpl; [by rewrite lookup_insert_eq|by rewrite E].
  - destruct (m !! k); [|done]. destruct (_ && _); [|done]. simpl. by rewrite lookup_insert_ne.
Qed.

Lemma begin_claim key s t k fp lease ttl :
  ls_reachable s = true ->
  unexpired t (row_claim key (ls_inflight (idempotency_begin s t k fp lease ttl).2))
  = unexpired t (if str_eqb k key then take_claim (ls_idempotency s !! key) t fp lease ttl (row_claim key (ls_inflight s))
                 else row_claim key (ls_inflight s)).
Proof.
  intros Hr. unfold idempotency_begin, reached. rewrite Hr.
  pose proof (purge_claim key t (ls_inflight s)) as Hp.
  assert (Hstay : unexpired t (row_claim key (purge t (ls_inflight s))) = unexpired t (row_claim key (ls_inflight s))).
  { by rewrite Hp, unexpired_idem. }
  unfold str_eqb. case_bool_decide as Hk; [subst k|].
  - rewrite <- take_unexpired, <- Hp. unfold take_claim. rewrite Hp, unexpired_idem, <- Hp.
    destruct (ls_idempotency s !! key); [done|]. unfold row_claim.
    destruct (purge t (ls_inflight s) !! key) as [row|] eqn:E; simpl; [by rewrite E|by rewrite lookup_insert_eq].
  - destruct (ls_idempotency s !! k); [done|]. destruct (purge t (ls_inflight s) !! k); [done|].
    simpl. rewrite <- Hstay. unfold row_claim. by rewrite lookup_insert_ne.
Qed.

(** The other operations do not touch the key. *)
Lemma put_response key s rec :
  ls_reachable s = true ->
  ls_idempotency (idempotency_put s rec).2 !! key
    = (if str_eqb (ir_key rec) key then respond rec (ls_idempotency s !! key) else ls_idempotency s !! key)
  /\ ls_inflight (idempotency_put s rec).2 = ls_inflight s /\ ls_reachable (idempotency_put s rec).2 = true.
Proof.
  intros Hr. unfold idempotency_put, reached, str_eqb. rewrite Hr. case_bool_decide as Hk; [rewrite Hk|].
  - destruct (ls_idempotency s !! key) eqn:E; simpl; [by rewrite E|]. by rewrite lookup_insert_eq.
  - destruct (ls_idempotency s !! ir_key rec); [done|]. simpl. by rewrite lookup_insert_ne.
Qed.

Lemma unreached s t o : (forall b, o <> LReachable b) -> ls_reachable s = false -> lexec s t o = s.
Proof.
  intros Ho Hr. destruct o as [b| | | | | | | | | | | | | ]; [by destruct (Ho b)|..]; simpl;
    unfold idempotency_get, idempotency_put, idempotency_begin, idempotency_release,
      idempotency_renew, tenant_slot_acquire, tenant_slot_release, tenant_slot_renew,
      tenant_slot_count, admission_slot_acquire, admission_slot_release, admission_slot_renew,
      admission_slot_count, reached; by rewrite Hr.
Qed.

Lemma agrees_step key t s a o : agrees key t s a -> agrees key t (lexec s t o) (key_step key a t o).
Proof.
  intros (H1 & H2 & H3).
  destruct (ls_reachable s) eqn:Hr.
  2: { destruct o as [b| | | | | | | | | | | | | ]; [by split_and!|..];
         (rewrite unreached by done; unfold key_step; rewrite <- H1; split_and!; [congruence|done..]). }
  destruct o as [b|k|rec|k fp l ttl|k l|k l ttl| | | | | | | | ];
    [by split_and!|..]; unfold key_step; rewrite <- H1; cbn [key_call].
  all: try (unfold agrees; simpl; unfold idempotency_get, tenant_slot_acquire, tenant_slot_release, tenant_slot_renew,
      tenant_slot_count, admission_slot_acquire, admission_slot_release, admission_slot_renew,
      admission_slot_count, reached; rewrite Hr; simpl; repeat case_match; simpl; rewrite ?Hr; by split_and!).
  - destruct (put_response key s rec Hr) as (P1 & P2 & P3). unfold agrees. simpl. rewrite P1, P2, P3, H2.
    destruct (str_eqb _ _); by split_and!.
  - unfold agrees. simpl. rewrite begin_claim by done.
    assert (E : ls_reachable (idempotency_begin s t k fp l ttl).2 = true
      /\ ls_idempotency (idempotency_begin s t k fp l ttl).2 = ls_idempotency s).
    { unfold idempotency_begin, reached. rewrite Hr. by repeat case_match. }
    destruct E as [-> ->]. destruct (str_eqb k key); [|by split_and!]. simpl. split_and!; [done..|].
    by rewrite <- take_unexpired, H3, take_unexpired, H2.
  - unfold agrees. simpl. unfold idempotency_release, reached. rewrite Hr.
    pose proof (release_claim key k l (ls_inflight s)) as E. destruct (release_row _ _ _) as [c m]. simpl in *. rewrite E, Hr.
    destruct (str_eqb k key); [|by split_and!]. simpl. split_and!; [done..|].
    by rewrite <- drop_unexpired, H3, drop_unexpired.
  - unfold agrees. simpl. unfold idempotency_renew, reached. rewrite Hr.
    pose proof (renew_claim key k l t ttl (ls_inflight s)) as E. destruct (renew_row _ _ _ _ _) as [c m]. simpl in *. rewrite E, Hr.
    destruct (str_eqb k key); [|by split_and!]. simpl. split_and!; [done..|].
    by rewrite <- extend_unexpired, H3, extend_unexpired.
Qed.

Lemma agrees_run key os : forall s a t0 t,
  agrees key t0 s a -> ordered t0 os t -> agrees key t (lrun s os) (key_run key a os).
Proof.
  induction os as [|[u o] os IH]; intros s a t0 t Ha Ho; simpl in Ho; [by eapply agrees_later|].
  destruct Ho as [Hu Ho]. apply (IH (lexec s u o) (key_step key a u o) u t); [|done].
  apply agrees_step. by eapply agrees_later.
Qed.

Lemma begin_answer key t s a fp lease ttl :
  agrees key t s a -> (idempotency_begin s t key fp lease ttl).1 = key_answer a t fp.
Proof.
  intros (H1 & H2 & H3). unfold idempotency_begin, reached, key_answer. rewrite H1, <- H2, <- H3.
  destruct (ks_up a); [|done]. destruct (ls_idempotency s !! key); [done|].
  rewrite <- (purge_claim key t (ls_inflight s)). unfold row_claim.
  by destruct (purge t (ls_inflight s) !! key).
Qed.

(** C40 (refinement). Whatever calls any number of processes make on the shared tables, with a
    clock that does not go back, the tables hold for every key exactly what the history of
    the calls with that key says: the response that was stored first, and the unexpired
    claim with the fingerprint, the lease, the time and the expiry of the request that made
    it or of its holder's last renewal, unless its holder gave it back; and a request that
    comes with the key is told what follows from these. Calls with other keys, calls with
    leases that do not hold the key, and when expired rows are deleted make no difference. *)
Theorem claims_refine key s t0 os t :
  ordered t0 os t ->
  let a := key_run key (key_state s key) os in
  ls_idempotency (lrun s os) !! key = ks_response a
  /\ unexpired t (row_claim key (ls_inflight (lrun s os))) = unexpired t (ks_claim a)
  /\ forall fp lease ttl,
       (idempotency_begin (lrun s os) t key fp lease ttl).1 = key_answer a t fp.
Proof.
  intros Ho a. assert (Ha : agrees key t (lrun s os) a) by (by apply (agrees_run key os s _ t0)).
  split_and!; [apply Ha|apply Ha|]. intros fp lease ttl. by apply begin_answer.
Qed.

(** ** Samples *)

Module LeaseSamples.

Definition acquired (n : Z) : list (Z * LOp) :=
  [(1, LTenantAcquire "acme" "s1" 1 n); (2, LAdmitAcquire "a1" 2 n);
   (3, LTenantAcquire "acme" "s2" 1 n); (4, LTenantRenew "s1" n);
   (5, LAdmitAcquire "a2" 2 n); (6, LAdmitAcquire "a3" 2 n)].

Lemma slots_bounded_witness :
  live_count (of_tenant "acme") 6 (ls_tenant_slots (lrun Leases_new (acquired 10))) <= 1
  /\ live_count (fun _ => true) 6 (ls_admission_slots (lrun Leases_new (acquired 10))) <= 2.
Proof.
  apply (slots_bounded Leases_new 0 (acquired 10) 6 "acme" 1 2).
  - vm_compute. discriminate.
  - vm_compute. discriminate.
  - simpl. lia.
  - repeat constructor; simpl; lia.
Defined.

Definition claimed : Leases := (idempotency_begin Leases_new 0 "k" "fp" "l1" 10).2.

Lemma claim_exclusive_witness :
  (idempotency_begin (lrun claimed [(5, LRelease "k" "stale"); (8, LRenew "k" "l1" 10)]) 15
     "k" "fp" "l2" 10).1 <> Ok Claimed.
Proof.
  apply (claim_exclusive Leases_new 0 "k" "fp" "l1" 10 _ 18 15 "fp" "l2" 10 eq_refl).
  - simpl. split_and!; try lia; try done. by intros [_ ?].
  - lia.
Defined.

Lemma renewal_keeps_claim_witness :
  (idempotency_begin (lrun claimed [(6, LRenew "k" "l1" 10); (12, LRenew "k" "l1" 10)]) 17
     "k" "fp" "l2" 10).1 <> Ok Claimed.
Proof.
  apply (renewal_keeps_claim Leases_new 0 "k" "fp" "l1" 10 1 _ 17 "fp" "l2" 10
    ltac:(lia) ltac:(vm_compute; split; [discriminate|reflexivity]) ltac:(lia)
    ltac:(vm_compute; discriminate) eq_refl).
  vm_compute. split_and!; try done; try (intros; discriminate).
Defined.

(** A claim on [k] expires and is taken again; the release with the lease of the first
    holder changes nothing, a renewal by the second one does. *)
Lemma claims_refine_witness :
  let os := [(1, LBegin "k" "fp" "l1" 10); (2, LBegin "other" "x" "y" 5); (12, LBegin "k" "fp" "l2" 10);
             (13, LRelease "k" "l1"); (14, LRenew "k" "l2" 10)] in
  unexpired 23 (row_claim "k" (ls_inflight (lrun Leases_new os))) = Some (mkClaim "fp" (Some "l2") 12 24)
  /\ (idempotency_begin (lrun Leases_new os) 23 "k" "fp" "l3" 10).1 = Ok InProgress.
Proof.
  intros os. destruct (claims_refine "k" Leases_new 0 os 23 ltac:(vm_compute; repeat split; discriminate))
    as (_ & Hc & Ha).
  split; [exact Hc|exact (Ha "fp" "l3" 10)].
Defined.

Definition record : IdempotencyRecord := mkIdempotencyRecord "k" "fp" 200 "application/json" "{}" 3.

Lemma replay_forever_witness :
  (idempotency_begin (lrun (idempotency_put Leases_new record).2
     [(4, LPut (mkIdempotencyRecord "k" "other" 500 "text/plain" "x" 4))]) 5 "k" "fp" "l" 10).1
  = Ok (Replay record).
Proof.
  exact (proj1 (replay_forever Leases_new record
    [(4, LPut (mkIdempotencyRecord "k" "other" 500 "text/plain" "x" 4))] 5 "fp" "l" 10
    eq_refl eq_refl)).
Defined.

End LeaseSamples.
