(* ===== verification/Gateway.v ===== *)
(** * Admission, single flight and tenant limits

    [crates/sb-server/src/idempotency.rs], [admission.rs] and the concurrency part of
    [tenancy.rs]: what a request passes before it is executed, and the guards it
    holds while it runs. With a state store the claims and slots are rows of the
    shared tables ([Leases.v]); without one, or when a store that is not required
    fails, they are the counters of this process. A guard is a value; dropping it
    is a call. Identifiers drawn by [new_id], the clock of the store and what
    other requests do while this one waits are arguments. *)

From Stdlib Require Import ZArith Lia Ascii.
From Stdlib Require String.
From stdpp Require Import base list strings gmap.
From S2P Require Import Prelude Text Lines BTree Float Time Ir Profiles UsageTable Leases Access.

#[local] Open Scope Z_scope.

(** ** State *)

(** The fields of the configuration that the edge reads. *)
Record EdgeConfig := mkEdgeConfig {
  ec_inflight_ttl_ms : Z;
  ec_persist_response_bodies : bool;
  ec_admission_slot_ttl_ms : Z;
  ec_tenant_concurrency_ttl_ms : Z;
  ec_engine : EngineConfig
}.

(** The part of the application's state the edge changes: the shared store, the
    keys in flight, the tenants' counters and the free permits of the semaphore
    ([None] without a limit). *)
Record Gate := mkGate {
  g_store : option Leases;
  g_inflight : gset string;
  g_counts : gmap string Z;
  g_permits : option Z
}.

Definition set_store (s : Leases) (g : Gate) : Gate :=
  mkGate (Some s) (g_inflight g) (g_counts g) (g_permits g).
Definition set_keys (k : gset string) (g : Gate) : Gate :=
  mkGate (g_store g) k (g_counts g) (g_permits g).
Definition set_counts (m : gmap string Z) (g : Gate) : Gate :=
  mkGate (g_store g) (g_inflight g) m (g_permits g).
Definition set_permits (n : Z) (g : Gate) : Gate :=
  mkGate (g_store g) (g_inflight g) (g_counts g) (Some n).

(** What is fixed when the server starts. *)
Record Admission := mkAdmission {
  ad_limit : option Z;
  ad_timeout : Duration
}.

Definition Admission_new (max_concurrency : option Z) (timeout_ms : Z) : Admission :=
  mkAdmission max_concurrency (from_millis timeout_ms).

Definition Gate_new (store : option Leases) (adm : Admission) : Gate :=
  mkGate store ∅ ∅ (ad_limit adm).

(** ** Guards *)

Inductive ClaimGuard :=
| ClaimLocal (key : string)
| ClaimDurable (key lease_id : string).

Inductive ConcurrencyGuard :=
| SlotLocal (tenant : string)
| SlotDurable (slot_id : string).

Inductive AdmissionGuard :=
| PermitLocal
| PermitDurable (slot_id : string).

(** [Drop for InFlightGuard] and [Drop for DurableClaimGuard]; a release that the
    store refuses is only logged. *)
Definition drop_claim (guard : ClaimGuard) (g : Gate) : Gate :=
  match guard with
  | ClaimLocal key => set_keys (g_inflight g ∖ {[key]}) g
  | ClaimDurable key lease_id =>
      match g_store g with
      | Some s => set_store (idempotency_release s key lease_id).2 g
      | None => g
      end
  end.

Definition drop_concurrency (guard : ConcurrencyGuard) (g : Gate) : Gate :=
  match guard with
  | SlotLocal tenant =>
      match g_counts g !! tenant with
      | Some count => set_counts (<[tenant := sat_sub count 1]> (g_counts g)) g
      | None => g
      end
  | SlotDurable slot_id =>
      match g_store g with
      | Some s => set_store (tenant_slot_release s slot_id).2 g
      | None => g
      end
  end.

(** The permit of the semaphore comes back when it is dropped. *)
Definition drop_admission (guard : AdmissionGuard) (g : Gate) : Gate :=
  match guard with
  | PermitLocal => match g_permits g with Some n => set_permits (n + 1) g | None => g end
  | PermitDurable slot_id =>
      match g_store g with
      | Some s => set_store (admission_slot_release s slot_id).2 g
      | None => g
      end
  end.

(** [drop] of an optional guard. *)
Definition drop_opt {A} (drop : A -> Gate -> Gate) (guard : option A) (g : Gate) : Gate :=
  match guard with Some x => drop x g | None => g end.

(** ** Responses *)

Definition idem_error (status : Z) (message : string) : Response :=
  json_response status (openai_error message "idempotency_error").

Definition store_error_response (message : string) : Response :=
  idem_error 503 ("idempotency store unavailable: " ^^ message).

Definition mismatch_response : Response :=
  idem_error 422 "idempotency key reused with different request parameters".

Definition in_progress_response : Response :=
  idem_error 409 "a request with this idempotency key is already in progress".

Definition over_capacity_response (tenant : string) : Response :=
  json_response 429
    (openai_error ("tenant `" ^^ tenant ^^ "` is at its concurrency limit") "rate_limit_error").

Definition tenant_coordination_error (error : string) : Response :=
  json_response 503
    (openai_error ("tenant concurrency store unavailable: " ^^ error) "coordination_error").

Definition overloaded_response : Response :=
  json_response 503 (openai_error "gateway at capacity: admission timed out" "overloaded").

Definition admission_coordination_error (error : string) : Response :=
  json_response 503
    (openai_error ("global admission store unavailable: " ^^ error) "coordination_error").

(** ** The edge *)

Section Gateway.
(** The digest; the JSON printer; which strings are header values and which numbers
    status codes, as the HTTP library decides; whether the store is required. *)
Context (sha256 : string -> string) (json_print : Json -> string)
        (header_ok : string -> bool) (status_ok : Z -> bool) (store_required : bool).

Definition replay_response (rec : IdempotencyRecord) : Response :=
  let status := if status_ok (ir_status rec) then ir_status rec else 200 in
  let ct := if header_ok (ir_content_type rec) then ir_content_type rec
            else "application/json" in
  mkResponse status (bt_insert "idempotent-replayed" "true" (bt_insert "content-type" ct []))
    (BodyBytes (ir_body rec)).

(** *** Idempotency *)

Definition key_from (headers : Headers) : option string :=
  match headers "idempotency-key" with
  | Some v => filled (Some (trim v))
  | None => None
  end.

Definition hex_sha256 (material : string) : string := "v2:" ^^ hex_bytes (sha256 material).

(** The separator, a zero byte. *)
Definition nul : string := String zero EmptyString.

Definition scoped_key (raw_key : string) (principal : Principal) (endpoint : string) : string :=
  let tenant := default "-" (pl_tenant principal) in
  let project := default "-" (pl_project principal) in
  hex_sha256 (endpoint ^^ nul ^^ tenant ^^ nul ^^ project ^^ nul ^^ raw_key).

Definition fingerprint (body : Json) : string := hex_sha256 (json_print body).

Inductive Begin :=
| Proceed (guard : ClaimGuard)
| ReplayWith (response : Response).

Definition try_claim (key : string) (g : Gate) : option ClaimGuard * Gate :=
  if decide (key ∈ g_inflight g) then (None, g)
  else (Some (ClaimLocal key), set_keys ({[key]} ∪ g_inflight g) g).

Definition begin_local (key : string) (g : Gate) : result Begin Response * Gate :=
  match try_claim key g with
  | (Some guard, g) => (Ok (Proceed guard), g)
  | (None, g) => (Err in_progress_response, g)
  end.

Definition begin (cfg : EdgeConfig) (now : Z) (lease_id key fp : string) (g : Gate)
  : result Begin Response * Gate :=
  match g_store g with
  | Some s =>
      let '(r, s) := idempotency_begin s now key fp lease_id (ec_inflight_ttl_ms cfg) in
      let g := set_store s g in
      match r with
      | Ok Claimed => (Ok (Proceed (ClaimDurable key lease_id)), g)
      | Ok InProgress => (Err in_progress_response, g)
      | Ok Mismatch => (Err mismatch_response, g)
      | Ok (Replay rec) => (Ok (ReplayWith (replay_response rec)), g)
      | Err e => if store_required then (Err (store_error_response e), g) else begin_local key g
      end
  | None => begin_local key g
  end.

Definition store_json (cfg : EdgeConfig) (now : Z) (key fp : string) (value : Json) (g : Gate)
  : result unit string * Gate :=
  if negb (ec_persist_response_bodies cfg) then (Ok tt, g)
  else match g_store g with
  | None => (if store_required then Err "idempotency store is required but not configured"
             else Ok tt, g)
  | Some s =>
      let rec := mkIdempotencyRecord key fp 200 "application/json" (json_print value) now in
      let '(r, s) := idempotency_put s rec in
      let g := set_store s g in
      match r with
      | Err e => (if store_required then Err ("idempotency store write failed: " ^^ e)
                  else Ok tt, g)
      | Ok _ => (Ok tt, g)
      end
  end.

(** *** Tenants *)

Definition reserve (tenant : string) (max : Z) (g : Gate) : option ConcurrencyGuard * Gate :=
  let count := default 0 (g_counts g !! tenant) in
  if max <=? count then (None, set_counts (<[tenant := count]> (g_counts g)) g)
  else (Some (SlotLocal tenant), set_counts (<[tenant := count + 1]> (g_counts g)) g).

Definition reserve_local (tenant : string) (max : Z) (g : Gate)
  : result (option ConcurrencyGuard) Response * Gate :=
  match reserve tenant max g with
  | (Some guard, g) => (Ok (Some guard), g)
  | (None, g) => (Err (over_capacity_response tenant), g)
  end.

Definition admit_concurrency (cfg : EdgeConfig) (now : Z) (slot_id : string)
    (principal : Principal) (g : Gate) : result (option ConcurrencyGuard) Response * Gate :=
  match pl_tenant principal with
  | None => (Ok None, g)
  | Some tenant =>
      match Profiles.tenant (ec_engine cfg) tenant ≫= tn_max_concurrency with
      | None => (Ok None, g)
      | Some max =>
          match g_store g with
          | Some s =>
              let '(r, s) := tenant_slot_acquire s now tenant slot_id max
                               (ec_tenant_concurrency_ttl_ms cfg) in
              let g := set_store s g in
              match r with
              | Ok true => (Ok (Some (SlotDurable slot_id)), g)
              | Ok false => (Err (over_capacity_response tenant), g)
              | Err e => if store_required then (Err (tenant_coordination_error e), g)
                         else reserve_local tenant max g
              end
          | None => reserve_local tenant max g
          end
      end
  end.

Definition in_flight (now : Z) (tenant : string) (g : Gate) : Z * Gate :=
  match g_store g with
  | Some s =>
      let '(r, s) := tenant_slot_count s now tenant in
      let g := set_store s g in
      match r with
      | Ok count => (count, g)
      | Err _ => (default 0 (g_counts g !! tenant), g)
      end
  | None => (default 0 (g_counts g !! tenant), g)
  end.

(** *** Global admission *)

(** Waiting for a permit: [waits] is what other requests do to the state before the
    timeout, one change at a time. *)
Fixpoint wait_permit (queue_ms : Z) (waits : list (Gate -> Gate)) (g : Gate)
  : result (option AdmissionGuard * Z) Response * Gate :=
  match g_permits g with
  | None => (Ok (None, 0), g)
  | Some n =>
      if 0 <? n then (Ok (Some PermitLocal, queue_ms), set_permits (n - 1) g)
      else match waits with
      | [] => (Err overloaded_response, g)
      | f :: waits => wait_permit queue_ms waits (f g)
      end
  end.

Definition acquire_local := wait_permit.

Inductive AdmissionAcquireError :=
| AcquireTimeout
| AcquireStore (e : string).

(** One round of the durable wait: what the others do before it, the clock of the
    store, the drawn identifier, and the time since the start after the attempt. *)
Record Round := mkRound {
  rd_others : Gate -> Gate;
  rd_now : Z;
  rd_slot_id : string;
  rd_elapsed : Duration
}.

(** The loop, over the rounds that there are; [None] when it would go on. A server
    that started with a store keeps it, so there is always one to ask. *)
Fixpoint acquire_durable (max ttl_ms : Z) (timeout : Duration) (rounds : list Round) (g : Gate)
  : option (result (AdmissionGuard * Z) AdmissionAcquireError) * Gate :=
  match rounds with
  | [] => (None, g)
  | r :: rounds =>
      let g := rd_others r g in
      match g_store g with
      | None => (None, g)
      | Some s =>
          let '(res, s) := admission_slot_acquire s (rd_now r) (rd_slot_id r) max ttl_ms in
          let g := set_store s g in
          match res with
          | Ok true => (Some (Ok (PermitDurable (rd_slot_id r), wrap64 (as_millis (rd_elapsed r)))), g)
          | Err e => (Some (Err (AcquireStore e)), g)
          | Ok false =>
              if timeout <=? rd_elapsed r then (Some (Err AcquireTimeout), g)
              else acquire_durable max ttl_ms timeout rounds g
          end
      end
  end.

(** How long a round sleeps before the next one. *)
Definition round_sleep (timeout elapsed : Duration) : Duration :=
  Z.min (timeout - elapsed) (from_millis 10).

(** [acquire]; [None] only if there are not enough rounds. *)
Definition acquire (cfg : EdgeConfig) (adm : Admission) (rounds : list Round)
    (queue_ms : Z) (waits : list (Gate -> Gate)) (g : Gate)
  : option (result (option AdmissionGuard * Z) Response) * Gate :=
  match ad_limit adm with
  | None => (Some (Ok (None, 0)), g)
  | Some max =>
      let local g := let '(r, g) := acquire_local queue_ms waits g in (Some r, g) in
      match g_store g with
      | None => local g
      | Some _ =>
          let '(r, g) := acquire_durable max (ec_admission_slot_ttl_ms cfg) (ad_timeout adm)
                           rounds g in
          match r with
          | None => (None, g)
          | Some (Ok (guard, queue_ms)) => (Some (Ok (Some guard, queue_ms)), g)
          | Some (Err AcquireTimeout) => (Some (Err overloaded_response), g)
          | Some (Err (AcquireStore e)) =>
              if store_required then (Some (Err (admission_coordination_error e)), g) else local g
          end
      end
  end.

Definition available (adm : Admission) (now : Z) (g : Gate) : option Z * Gate :=
  match ad_limit adm with
  | None => (None, g)
  | Some max =>
      match g_store g with
      | Some s =>
          let '(r, s) := admission_slot_count s now in
          let g := set_store s g in
          match r with
          | Ok active => (Some (sat_sub max active), g)
          | Err _ => if store_required then (Some 0, g) else (g_permits g, g)
          end
      | None => (g_permits g, g)
      end
  end.

End Gateway.
