(* ===== verification/GatewayTheorems.v ===== *)
(** * What the guards guarantee

    The counters of the process are exactly the guards that are out, whatever the
    requests do and in whatever order they finish, so nothing leaks and no limit is
    exceeded; the wait for a durable slot ends; keys of different callers do not
    meet. *)

From Stdlib Require Import ZArith Lia Ascii.
From Stdlib Require String.
From stdpp Require Import base list strings gmap sets.
From S2P Require Import Prelude Text Lines BTree Float Time Ir Profiles UsageTable Leases Access.
From S2P Require Import LeaseTheorems Access Gateway.

#[local] Open Scope Z_scope.

(** ** Runs of the edge *)

(** The state with the guards that are out. *)
Record Edge := mkEdge {
  eg_gate : Gate;
  eg_claims : list ClaimGuard;
  eg_slots : list ConcurrencyGuard;
  eg_permits : list AdmissionGuard
}.

(** A step of some request, or of another process on the store. An acquisition is
    taken at the moment it is decided; a request that waits makes no step. *)
Inductive GOp :=
| GBegin (cfg : EdgeConfig) (now : Z) (lease_id key fp : string)
| GDropClaim (n : nat)
| GAdmit (cfg : EdgeConfig) (now : Z) (slot_id : string) (principal : Principal)
| GDropSlot (n : nat)
| GAcquire (cfg : EdgeConfig) (now : Z) (slot_id : string) (elapsed : Duration)
| GDropPermit (n : nat)
| GDatabase (now : Z) (o : LOp).

Definition local_key (c : ClaimGuard) : option string :=
  match c with ClaimLocal k => Some k | ClaimDurable _ _ => None end.
Definition local_tenant (c : ConcurrencyGuard) : option string :=
  match c with SlotLocal t => Some t | SlotDurable _ => None end.
Definition local_permit (c : AdmissionGuard) : option unit :=
  match c with PermitLocal => Some tt | PermitDurable _ => None end.

Section Runs.
Context (header_ok : string -> bool) (status_ok : Z -> bool) (store_required : bool)
        (adm : Admission).

Definition gexec (e : Edge) (o : GOp) : Edge :=
  let g := eg_gate e in
  match o with
  | GBegin cfg now lease key fp =>
      let '(r, g) := begin header_ok status_ok store_required cfg now lease key fp g in
      mkEdge g (match r with Ok (Proceed c) => c :: eg_claims e | _ => eg_claims e end)
        (eg_slots e) (eg_permits e)
  | GDropClaim n =>
      match eg_claims e !! n with
      | Some c => mkEdge (drop_claim c g) (delete n (eg_claims e)) (eg_slots e) (eg_permits e)
      | None => e
      end
  | GAdmit cfg now slot p =>
      let '(r, g) := admit_concurrency store_required cfg now slot p g in
      mkEdge g (eg_claims e)
        (match r with Ok (Some c) => c :: eg_slots e | _ => eg_slots e end) (eg_permits e)
  | GDropSlot n =>
      match eg_slots e !! n with
      | Some c => mkEdge (drop_concurrency c g) (eg_claims e) (delete n (eg_slots e)) (eg_permits e)
      | None => e
      end
  | GAcquire cfg now slot elapsed =>
      let '(r, g) := acquire store_required cfg adm [mkRound id now slot elapsed] 0 [] g in
      mkEdge g (eg_claims e) (eg_slots e)
        (match r with Some (Ok (Some c, _)) => c :: eg_permits e | _ => eg_permits e end)
  | GDropPermit n =>
      match eg_permits e !! n with
      | Some c => mkEdge (drop_admission c g) (eg_claims e) (eg_slots e) (delete n (eg_permits e))
      | None => e
      end
  | GDatabase now o =>
      mkEdge (match g_store g with Some s => set_store (lexec s now o) g | None => g end)
        (eg_claims e) (eg_slots e) (eg_permits e)
  end.

Definition grun (e : Edge) (os : list GOp) : Edge := fold_left gexec os e.

Definition Edge_new (store : option Leases) : Edge := mkEdge (Gate_new store adm) [] [] [].

(** ** The accounting invariant *)

Definition out_keys (e : Edge) : list string := omap local_key (eg_claims e).
Definition out_slots (e : Edge) (t : string) : nat :=
  length (List.filter (str_eqb t) (omap local_tenant (eg_slots e))).
Definition out_permits (e : Edge) : nat := length (omap local_permit (eg_permits e)).

Record accounted (e : Edge) : Prop := {
  acc_nodup : NoDup (out_keys e);
  acc_keys : g_inflight (eg_gate e) = list_to_set (out_keys e);
  acc_counts : forall t, default 0 (g_counts (eg_gate e) !! t) = Z.of_nat (out_slots e t);
  acc_permits : g_permits (eg_gate e) = (fun l => l - Z.of_nat (out_permits e)) <$> ad_limit adm;
  acc_limit : match ad_limit adm with
              | Some l => Z.of_nat (out_permits e) <= l
              | None => out_permits e = 0%nat
              end
}.

(** The limit that an operation admits a tenant with. *)
Definition admit_limit (o : GOp) (t : string) : option Z :=
  match o with
  | GAdmit cfg _ _ p =>
      if bool_decide (pl_tenant p = Some t)
      then Profiles.tenant (ec_engine cfg) t ≫= tn_max_concurrency else None
  | _ => None
  end.

(** Dropping the [n]th element of a list, seen through a partial function. *)
Lemma omap_delete {A B} (f : A -> option B) (l : list A) n x :
  l !! n = Some x -> omap f l ≡ₚ match f x with Some y => [y] | None => [] end ++ omap f (delete n l).
Proof.
  intros Hn. rewrite (delete_Permutation l n x Hn) at 1. cbn [omap list_omap].
  by destruct (f x).
Qed.

Lemma count_permutation {A} (p : A -> bool) (l l' : list A) :
  l ≡ₚ l' -> length (List.filter p l) = length (List.filter p l').
Proof. induction 1; simpl; repeat case_match; simpl; congruence. Qed.

Lemma length_permits_delete l n x :
  l !! n = Some x ->
  length (omap local_permit l)
  = (length (omap local_permit (delete n l)) + if opt_is_some (local_permit x) then 1 else 0)%nat.
Proof.
  intros Hn. rewrite (Permutation_length (omap_delete local_permit l n x Hn)), length_app.
  destruct (local_permit x); simpl; lia.
Qed.

(** What each operation does to the counters of the process. *)
Lemma begin_counters cfg now lease key fp g :
  let '(r, g') := begin header_ok status_ok store_required cfg now lease key fp g in
  g_counts g' = g_counts g /\ g_permits g' = g_permits g
  /\ match r with
     | Ok (Proceed (ClaimLocal k)) => (k ∉ g_inflight g) /\ g_inflight g' = {[k]} ∪ g_inflight g
     | _ => g_inflight g' = g_inflight g
     end.
Proof.
  assert (Hl : forall g0, let '(r, g') := begin_local key g0 in
    g_counts g' = g_counts g0 /\ g_permits g' = g_permits g0
    /\ match r with
       | Ok (Proceed (ClaimLocal k)) => (k ∉ g_inflight g0) /\ g_inflight g' = {[k]} ∪ g_inflight g0
       | _ => g_inflight g' = g_inflight g0
       end).
  { intros g0. unfold begin_local, try_claim. by destruct (decide (key ∈ g_inflight g0)). }
  unfold begin. destruct (g_store g) as [s|]; [|apply Hl].
  destruct (idempotency_begin s now key fp lease (ec_inflight_ttl_ms cfg)) as [[[| | |rec]|e] s'];
    try done.
  destruct store_required; [done|]. apply (Hl (set_store s' g)).
Qed.

Lemma admit_counters cfg now slot p g :
  let '(r, g') := admit_concurrency store_required cfg now slot p g in
  g_inflight g' = g_inflight g /\ g_permits g' = g_permits g
  /\ match r with
     | Ok (Some (SlotLocal t)) =>
         (exists max, admit_limit (GAdmit cfg now slot p) t = Some max
            /\ default 0 (g_counts g !! t) < max)
         /\ g_counts g' = <[t := default 0 (g_counts g !! t) + 1]> (g_counts g)
     | _ => forall t, default 0 (g_counts g' !! t) = default 0 (g_counts g !! t)
     end.
Proof.
  unfold admit_concurrency. destruct (pl_tenant p) as [t|] eqn:Et; [|done].
  destruct (Profiles.tenant (ec_engine cfg) t ≫= tn_max_concurrency) as [max|] eqn:Em; [|done].
  assert (Hl : forall g0, let '(r, g') := reserve_local t max g0 in
    g_inflight g' = g_inflight g0 /\ g_permits g' = g_permits g0
    /\ match r with
       | Ok (Some (SlotLocal t)) =>
           (exists max, admit_limit (GAdmit cfg now slot p) t = Some max
              /\ default 0 (g_counts g0 !! t) < max)
           /\ g_counts g' = <[t := default 0 (g_counts g0 !! t) + 1]> (g_counts g0)
       | _ => forall t, default 0 (g_counts g' !! t) = default 0 (g_counts g0 !! t)
       end).
  { intros g0. unfold reserve_local, reserve.
    destruct (Z.leb_spec max (default 0 (g_counts g0 !! t))) as [Hle|Hlt].
    - split_and!; try done. intros t'. simpl.
      destruct (decide (t = t')) as [<-|Hne]; [by rewrite lookup_insert_eq|by rewrite lookup_insert_ne].
    - split_and!; try done. exists max. cbn [admit_limit]. rewrite Et, bool_decide_true by done. done. }
  destruct (g_store g) as [s|]; [|apply Hl].
  destruct (tenant_slot_acquire s now t slot max (ec_tenant_concurrency_ttl_ms cfg))
    as [[[|]|e] s']; try done.
  destruct store_required; [done|]. apply (Hl (set_store s' g)).
Qed.

Lemma acquire_counters cfg now slot elapsed g :
  let '(r, g') := acquire store_required cfg adm [mkRound id now slot elapsed] 0 [] g in
  g_inflight g' = g_inflight g /\ g_counts g' = g_counts g
  /\ match r with
     | Some (Ok (Some PermitLocal, _)) =>
         exists n, g_permits g = Some n /\ 0 < n /\ g_permits g' = Some (n - 1)
     | _ => g_permits g' = g_permits g
     end.
Proof.
  unfold acquire. destruct (ad_limit adm) as [max|]; [|done].
  assert (Hl : forall g0, let '(r, g') := acquire_local 0 [] g0 in
    g_inflight g' = g_inflight g0 /\ g_counts g' = g_counts g0
    /\ match r with
       | Ok (Some PermitLocal, _) =>
           exists n, g_permits g0 = Some n /\ 0 < n /\ g_permits g' = Some (n - 1)
       | _ => g_permits g' = g_permits g0
       end).
  { intros g0. unfold acquire_local. simpl. destruct (g_permits g0) as [n|] eqn:E; [|by rewrite E].
    destruct (Z.ltb_spec 0 n); [|by rewrite E]. simpl. split_and!; eauto. }
  destruct (g_store g) as [s|] eqn:Es.
  2:{ specialize (Hl g). by destruct (acquire_local 0 [] g) as [[[[[|]|] q]|] g']. }
  cbn [acquire_durable rd_others id rd_now rd_slot_id rd_elapsed]. rewrite Es.
  destruct (admission_slot_acquire s now slot max (ec_admission_slot_ttl_ms cfg))
    as [[[|]|e] s']; [done|by destruct (ad_timeout adm <=? elapsed)|].
  destruct store_required; [done|]. specialize (Hl (set_store s' g)).
  by destruct (acquire_local 0 [] (set_store s' g)) as [[[[[|]|] q]|] g'].
Qed.

Lemma drop_claim_counters c g :
  g_counts (drop_claim c g) = g_counts g /\ g_permits (drop_claim c g) = g_permits g
  /\ g_inflight (drop_claim c g)
     = match local_key c with Some k => g_inflight g ∖ {[k]} | None => g_inflight g end.
Proof. destruct c; simpl; [done|]. by destruct (g_store g). Qed.

Lemma drop_slot_counters c g :
  g_inflight (drop_concurrency c g) = g_inflight g
  /\ g_permits (drop_concurrency c g) = g_permits g
  /\ forall t, default 0 (g_counts (drop_concurrency c g) !! t)
     = if bool_decide (local_tenant c = Some t)
       then match g_counts g !! t with Some n => sat_sub n 1 | None => 0 end
       else default 0 (g_counts g !! t).
Proof.
  destruct c as [t|slot]; simpl; [|by destruct (g_store g)].
  destruct (g_counts g !! t) as [n|] eqn:E; (split_and!; [done..|]); intros t'; simpl.
  - destruct (decide (t = t')) as [<-|Hne].
    + rewrite lookup_insert_eq, bool_decide_true by done. by rewrite E.
    + rewrite lookup_insert_ne, bool_decide_false by congruence. done.
  - case_bool_decide; [|done]. simplify_eq. by rewrite E.
Qed.

Lemma drop_permit_counters c g :
  g_inflight (drop_admission c g) = g_inflight g /\ g_counts (drop_admission c g) = g_counts g
  /\ g_permits (drop_admission c g)
     = match local_permit c with Some _ => (fun n => n + 1) <$> g_permits g | None => g_permits g end.
Proof.
  destruct c; simpl; [|by destruct (g_store g)].
  by destruct (g_permits g) as [n|] eqn:E; simpl; rewrite ?E.
Qed.

Lemma out_slots_delete l n c t :
  l !! n = Some c ->
  length (List.filter (str_eqb t) (omap local_tenant l))
  = (length (List.filter (str_eqb t) (omap local_tenant (delete n l)))
     + if bool_decide (local_tenant c = Some t) then 1 else 0)%nat.
Proof.
  intros Hn. rewrite (count_permutation _ _ _ (omap_delete local_tenant l n c Hn)).
  rewrite List.filter_app, length_app. destruct (local_tenant c) as [t'|]; simpl; [|lia].
  unfold str_eqb. rewrite (bool_decide_ext (t = t') (Some t' = Some t)) by naive_solver.
  case_bool_decide; simpl; lia.
Qed.

(** Every step keeps the accounts. *)
Ltac accounts :=
  split; unfold out_keys, out_slots, out_permits in *;
  cbn [eg_gate eg_claims eg_slots eg_permits omap list_omap local_key local_tenant local_permit
       List.filter length] in *.

Lemma begin_accounted e cfg now lease key fp :
  accounted e -> accounted (gexec e (GBegin cfg now lease key fp)).
Proof.
  intros [Hnd Hk Hc Hp Hl]. cbn [gexec].
  pose proof (begin_counters cfg now lease key fp (eg_gate e)) as H.
  destruct (begin header_ok status_ok store_required cfg now lease key fp (eg_gate e)) as [r g'].
  destruct H as (H1 & H2 & H3).
  destruct r as [[[k|k l]|]|]; accounts; rewrite ?H1, ?H2, ?H3; try done.
  - constructor; [|done]. destruct H3 as [H3 _]. rewrite Hk in H3. set_solver.
  - destruct H3 as [_ ->]. by rewrite Hk.
Qed.

Lemma drop_claim_accounted e n : accounted e -> accounted (gexec e (GDropClaim n)).
Proof.
  intros [Hnd Hk Hc Hp Hl]. cbn [gexec]. destruct (eg_claims e !! n) as [c|] eqn:En; [|by split].
  destruct (drop_claim_counters c (eg_gate e)) as (H1 & H2 & H3).
  pose proof (omap_delete local_key _ _ _ En) as Hd. unfold out_keys in *.
  rewrite Hd in Hnd. accounts; rewrite ?H1, ?H2, ?H3; try done.
  - by apply NoDup_app in Hnd as (_ & _ & ?).
  - rewrite Hk, (list_to_set_perm_L _ _ Hd). destruct (local_key c) as [k|]; [|done].
    apply NoDup_cons in Hnd as [Hnot _]. simpl. set_solver.
Qed.

Lemma admit_accounted e cfg now slot p : accounted e -> accounted (gexec e (GAdmit cfg now slot p)).
Proof.
  intros [Hnd Hk Hc Hp Hl]. cbn [gexec].
  pose proof (admit_counters cfg now slot p (eg_gate e)) as H.
  destruct (admit_concurrency store_required cfg now slot p (eg_gate e)) as [r g'].
  destruct H as (H1 & H2 & H3).
  destruct r as [[[t|s]|]|]; accounts; rewrite ?H1, ?H2; try done; try (intros t'; by rewrite H3).
  intros t'. destruct H3 as [_ ->]. unfold str_eqb at 1. case_bool_decide as E.
  - subst. rewrite lookup_insert_eq. simpl. rewrite Hc. lia.
  - by rewrite lookup_insert_ne.
Qed.

Lemma drop_slot_accounted e n : accounted e -> accounted (gexec e (GDropSlot n)).
Proof.
  intros [Hnd Hk Hc Hp Hl]. cbn [gexec]. destruct (eg_slots e !! n) as [c|] eqn:En; [|by split].
  destruct (drop_slot_counters c (eg_gate e)) as (H1 & H2 & H3).
  accounts; rewrite ?H1, ?H2; try done.
  intros t. rewrite H3. specialize (Hc t). rewrite (out_slots_delete _ _ _ t En) in Hc.
  case_bool_decide; [|rewrite Hc; lia].
  destruct (g_counts (eg_gate e) !! t) as [m|]; simpl in Hc; unfold sat_sub; lia.
Qed.

Lemma acquire_accounted e cfg now slot el :
  accounted e -> accounted (gexec e (GAcquire cfg now slot el)).
Proof.
  intros [Hnd Hk Hc Hp Hl]. cbn [gexec].
  pose proof (acquire_counters cfg now slot el (eg_gate e)) as H.
  destruct (acquire store_required cfg adm [mkRound id now slot el] 0 [] (eg_gate e)) as [r g'].
  destruct H as (H1 & H2 & H3).
  destruct r as [[[[[|sl]|] q]|]|]; accounts; rewrite ?H1, ?H2, ?H3; try done.
  - destruct H3 as (m & Hm & Hpos & ->). rewrite Hp in Hm.
    destruct (ad_limit adm); simpl in *; [|done]. simplify_eq. f_equal. lia.
  - destruct H3 as (m & Hm & Hpos & _). rewrite Hp in Hm.
    destruct (ad_limit adm); simpl in *; [|done]. simplify_eq. lia.
Qed.

Lemma drop_permit_accounted e n : accounted e -> accounted (gexec e (GDropPermit n)).
Proof.
  intros [Hnd Hk Hc Hp Hl]. cbn [gexec]. destruct (eg_permits e !! n) as [c|] eqn:En; [|by split].
  destruct (drop_permit_counters c (eg_gate e)) as (H1 & H2 & H3).
  pose proof (length_permits_delete _ _ _ En) as Hd.
  accounts; rewrite ?H1, ?H2, ?H3; try done.
  - rewrite Hp. destruct (ad_limit adm) as [l|], (local_permit c); simpl in *; try done; f_equal; lia.
  - destruct (ad_limit adm) as [l|], (local_permit c); simpl in *; lia.
Qed.

Lemma gexec_accounted e o : accounted e -> accounted (gexec e o).
Proof.
  intros H. destruct o; [by apply begin_accounted|by apply drop_claim_accounted|
    by apply admit_accounted|by apply drop_slot_accounted|by apply acquire_accounted|
    by apply drop_permit_accounted|].
  destruct H as [Hnd Hk Hc Hp Hl]. cbn [gexec].
  accounts; by destruct (g_store (eg_gate e)).
Qed.

Lemma gexec_slots e o t :
  accounted e ->
  Z.of_nat (out_slots (gexec e o) t) <= Z.max (Z.of_nat (out_slots e t)) (default 0 (admit_limit o t)).
Proof.
  intros [_ _ Hc _ _]. specialize (Hc t).
  destruct o as [cfg now lease key fp|n|cfg now slot p|n|cfg now slot el|n|now o]; cbn [gexec].
  - destruct (begin _ _ _ _ _ _ _ _ _). apply Z.le_max_l.
  - destruct (eg_claims e !! n); apply Z.le_max_l.
  - pose proof (admit_counters cfg now slot p (eg_gate e)) as H.
    destruct (admit_concurrency store_required cfg now slot p (eg_gate e)) as [r g'].
    destruct H as (_ & _ & H). destruct r as [[[t'|s]|]|]; try apply Z.le_max_l.
    unfold out_slots in *. cbn [eg_slots omap list_omap local_tenant List.filter].
    unfold str_eqb at 1. case_bool_decide as E; [|apply Z.le_max_l]. subst t'.
    destruct H as ((max & Hm & Hlt) & _). rewrite Hm. cbn [length default from_option id]. lia.
  - destruct (eg_slots e !! n) as [c|] eqn:En; [|apply Z.le_max_l]. unfold out_slots in *.
    cbn [eg_slots]. rewrite (out_slots_delete _ _ _ t En). lia.
  - destruct (acquire _ _ _ _ _ _ _). apply Z.le_max_l.
  - destruct (eg_permits e !! n); apply Z.le_max_l.
  - apply Z.le_max_l.
Qed.

(** A step of a run, with an invariant that is kept. *)
Lemma grun_accounted os : forall e t bound,
  accounted e -> Z.of_nat (out_slots e t) <= bound ->
  Forall (fun o => default 0 (admit_limit o t) <= bound) os ->
  accounted (grun e os) /\ Z.of_nat (out_slots (grun e os) t) <= bound.
Proof.
  induction os as [|o os IH]; intros e t bound He Hb Hos; [done|].
  apply Forall_cons_1 in Hos as [Ho Hos]. apply IH; [by apply gexec_accounted| |done].
  pose proof (gexec_slots e o t He). lia.
Qed.

Lemma new_accounted store :
  match ad_limit adm with Some l => 0 <= l | None => True end -> accounted (Edge_new store).
Proof.
  intros Hl. split; [constructor|done|done| |].
  - cbn. destruct (ad_limit adm) as [l|] eqn:E; [|done]. cbn. f_equal. lia.
  - cbn. by destruct (ad_limit adm).
Qed.

(** C13 (invariant). Local accounting: in every state that the requests of a process
    reach, by claiming keys, taking slots and permits and dropping their guards in
    any order, while other processes work on the shared store, the keys in flight
    are the keys of the claims that are out, each once; the counter of a tenant is
    the number of its slots that are out, and at most the largest limit it was
    admitted with; the free permits and the permits that are out add up to the
    limit. So when every guard is dropped, everything is free again. *)
Theorem edge_accounts store os t bound :
  match ad_limit adm with Some l => 0 <= l | None => True end ->
  0 <= bound -> Forall (fun o => default 0 (admit_limit o t) <= bound) os ->
  let e := grun (Edge_new store) os in
  accounted e /\ Z.of_nat (out_slots e t) <= bound
  /\ (eg_claims e = [] -> eg_slots e = [] -> eg_permits e = [] ->
      g_inflight (eg_gate e) = ∅ /\ default 0 (g_counts (eg_gate e) !! t) = 0
      /\ g_permits (eg_gate e) = ad_limit adm).
Proof.
  intros Hl Hb Hos e.
  destruct (grun_accounted os (Edge_new store) t bound (new_accounted store Hl) Hb Hos) as [He Hn].
  split; [done|]. split; [done|]. intros E1 E2 E3.
  destruct He as [_ Hk Hc Hp _]. unfold out_keys, out_slots, out_permits in *. fold e in Hk, Hc, Hp.
  rewrite E1 in Hk. rewrite E3 in Hp. specialize (Hc t). rewrite E2 in Hc.
  split_and!; [done|done|]. rewrite Hp. destruct (ad_limit adm); simpl; [|done]. f_equal. lia.
Qed.

(** ** Waiting *)

(** Waiting for a permit is letting others go first: the request is decided in a
    state that others reached, as if it had come then. *)
Lemma wait_permit_interleaves q waits g :
  exists k, wait_permit q waits g = wait_permit q [] (fold_left (fun g f => f g) (take k waits) g).
Proof.
  revert g. induction waits as [|f waits IH]; intros g; [by exists 0%nat|].
  cbn [wait_permit]. destruct (g_permits g) as [n|] eqn:E.
  - destruct (0 <? n) eqn:Hn; [exists 0%nat; simpl; by rewrite E, Hn|].
    destruct (IH (f g)) as [k Hk]. exists (S k). by rewrite Hk.
  - exists 0%nat. simpl. by rewrite E.
Qed.

(** Rounds that the loop can have: what others do keeps the store, the clock does not
    go back, and between two attempts at least the sleep passes. *)
Fixpoint timely (timeout : Duration) (since : Duration) (rounds : list Round) : Prop :=
  match rounds with
  | [] => True
  | r :: rounds =>
      since <= rd_elapsed r /\ (forall g, opt_is_some (g_store g) = true ->
        opt_is_some (g_store (rd_others r g)) = true)
      /\ timely timeout (rd_elapsed r + round_sleep timeout (rd_elapsed r)) rounds
  end.

Lemma acquire_durable_within max ttl timeout rounds : forall since g,
  opt_is_some (g_store g) = true -> timely timeout since rounds ->
  timeout <= since + from_millis 10 * (Z.of_nat (length rounds) - 1) ->
  (0 < length rounds)%nat ->
  exists r, (acquire_durable max ttl timeout rounds g).1 = Some r
    /\ (r = Err AcquireTimeout -> exists rd, rd ∈ rounds /\ timeout <= rd_elapsed rd).
Proof.
  induction rounds as [|r rounds IH]; intros since g Hs Ht Hn Hpos; [simpl in Hpos; lia|].
  destruct Ht as (Hsince & Hkeep & Ht). cbn [acquire_durable]. specialize (Hkeep _ Hs).
  destruct (g_store (rd_others r g)) as [s|] eqn:Eg; [|done].
  destruct (admission_slot_acquire s (rd_now r) (rd_slot_id r) max ttl) as [[[|]|e] s'].
  - eexists. split; [reflexivity|done].
  - destruct (Z.leb_spec timeout (rd_elapsed r)).
    + eexists. split; [reflexivity|]. intros _. exists r. split; [by left|done].
    + assert (Hlen : (0 < length rounds)%nat).
      { destruct rounds; [|simpl; lia]. unfold from_millis in Hn. simpl in Hn. lia. }
      destruct (IH _ (set_store s' (rd_others r g)) ltac:(done) Ht) as (res & Hr & Hto); [|done|].
      { unfold round_sleep, from_millis in *. cbn [length] in Hn. lia. }
      exists res. split; [done|]. intros Hres. destruct (Hto Hres) as (rd & Hin & Hle).
      exists rd. split; [by right|done].
  - eexists. split; [reflexivity|done].
Qed.

(** The wait for a durable admission slot ends: after at most one
    attempt per 10 ms of the timeout and two more, [acquire] has answered, with a
    guard, with the refusal of the store or, only once the timeout has passed,
    with the shed. *)
Theorem acquire_terminates cfg max timeout_ms rounds waits g :
  adm = Admission_new (Some max) timeout_ms -> 0 <= timeout_ms ->
  opt_is_some (g_store g) = true -> timely (ad_timeout adm) 0 rounds ->
  timeout_ms / 10 + 2 <= Z.of_nat (length rounds) ->
  exists r, (acquire store_required cfg adm rounds 0 waits g).1 = Some r.
Proof.
  intros Hadm Ht Hs Hr Hn. unfold acquire. rewrite Hadm in Hr |- *. cbn [ad_limit ad_timeout
    Admission_new] in *.
  destruct (g_store g) as [s|] eqn:Eg; [|done].
  assert (H0 : (0 < length rounds)%nat).
  { pose proof (Z.div_pos timeout_ms 10). lia. }
  destruct (acquire_durable_within max (ec_admission_slot_ttl_ms cfg) (from_millis timeout_ms)
    rounds 0 g) as (r & E & _); [by rewrite Eg|done| |done|].
  { unfold from_millis. pose proof (Z.div_mod timeout_ms 10). pose proof (Z.mod_pos_bound timeout_ms 10).
    nia. }
  destruct (acquire_durable _ _ _ rounds g) as [r' g']. simpl in E. subst r'.
  destruct r as [[guard q]|[|e]]; [by eexists|by eexists|]. destruct store_required; [by eexists|].
  destruct (acquire_local 0 waits g'). by eexists.
Qed.

End Runs.

(** ** Scopes *)

Fixpoint no_nul (s : string) : bool :=
  match s with EmptyString => true | String c s' => negb (Ascii.eqb c zero) && no_nul s' end.

Lemma append_cons c a b : String c a ^^ b = String c (a ^^ b).
Proof. reflexivity. Qed.

Lemma nul_append b : EmptyString ^^ nul ^^ b = String zero b.
Proof. reflexivity. Qed.

Lemma nul_cut a : forall a' b b',
  no_nul a = true -> no_nul a' = true -> a ^^ nul ^^ b = a' ^^ nul ^^ b' -> a = a' /\ b = b'.
Proof.
  induction a as [|c a IH]; intros [|c' a'] b b' Ha Ha' H; rewrite ?append_cons, ?nul_append in H;
    simplify_eq; try done.
  apply andb_true_iff in Ha as [_ Ha], Ha' as [_ Ha'].
  by destruct (IH a' b b' Ha Ha') as [-> ->].
Qed.

Lemma hex_sha256_inj sha256 m m' : hex_sha256 sha256 m = hex_sha256 sha256 m' -> sha256 m = sha256 m'.
Proof. intros H. by injection H as H%hex_bytes_inj. Qed.

(** The tenant and the project under which a principal's keys are kept. *)
Definition scope_of (p : Principal) : string * string :=
  (default "-" (pl_tenant p), default "-" (pl_project p)).

Definition scope_material (raw_key : string) (p : Principal) (endpoint : string) : string :=
  endpoint ^^ nul ^^ (scope_of p).1 ^^ nul ^^ (scope_of p).2 ^^ nul ^^ raw_key.

(** Idempotency keys of different callers never meet: if two requests have
    the same stored key, they are for the same endpoint, of the same tenant and
    project, with the same client key, or their materials are two different
    strings with one digest. *)
Theorem scoped_key_isolates sha256 k p e k' p' e' :
  no_nul e = true -> no_nul e' = true ->
  no_nul (scope_of p).1 = true -> no_nul (scope_of p').1 = true ->
  no_nul (scope_of p).2 = true -> no_nul (scope_of p').2 = true ->
  scoped_key sha256 k p e = scoped_key sha256 k' p' e' ->
  (e = e' /\ scope_of p = scope_of p' /\ k = k')
  \/ (scope_material k p e <> scope_material k' p' e'
      /\ sha256 (scope_material k p e) = sha256 (scope_material k' p' e')).
Proof.
  intros He He' Ht Ht' Hp Hp' H%hex_sha256_inj.
  destruct (decide (scope_material k p e = scope_material k' p' e')) as [Heq|Hne]; [left|by right].
  unfold scope_material in Heq. destruct (nul_cut _ _ _ _ He He' Heq) as [-> H1].
  destruct (nul_cut _ _ _ _ Ht Ht' H1) as [E1 H2]. destruct (nul_cut _ _ _ _ Hp Hp' H2) as [E2 ->].
  split_and!; try done. by apply pair_eq.
Qed.
