(* ===== verification/Handlers.v ===== *)
(** * The request handlers

    [crates/sb-server/src/handlers/openai.rs] and [anthropic.rs], [handlers/common.rs],
    [http_response.rs] and [sse.rs]: the three endpoints that execute a request, as
    one handler over what they differ in. The codecs of the wire formats are the
    fields of an [Endpoint]; the engine is an argument, so that [Engine.execute] or
    another engine can be put there. *)

From Stdlib Require Import ZArith Lia Ascii.
From Stdlib Require String.
From stdpp Require Import base list strings gmap.
From S2P Require Import Prelude Text Lines BTree Float Time Ir Config Target Routing Router.
From S2P Require Import Catalog Ledger Breaker Availability ScorecardEntry Scorecard.
From S2P Require Import Resolver Collect Profiles Trace Compress Engine UsageTable Leases Access Gateway.

#[local] Open Scope Z_scope.

(** ** Metadata from headers *)

Definition is_ascii_alphanumeric (c : ascii) : bool :=
  let n := nat_of_ascii c in
  is_ascii_digit c || (Nat.leb 65 n && Nat.leb n 90) || (Nat.leb 97 n && Nat.leb n 122).

Definition is_token_byte (c : ascii) : bool :=
  is_ascii_alphanumeric c || Ascii.eqb c "-" || Ascii.eqb c "_" || Ascii.eqb c "."
  || Ascii.eqb c "/".

Definition is_ascii_hexdigit (c : ascii) : bool :=
  let n := nat_of_ascii c in
  is_ascii_digit c || (Nat.leb 65 n && Nat.leb n 70) || (Nat.leb 97 n && Nat.leb n 102).

Definition bounded_token (value : string) (max_len : Z) : option string :=
  let value := trim value in
  if is_empty value || (max_len <? byte_len value) || negb (all_bytes is_token_byte value)
  then None else Some value.

Definition valid_lane_revision (value : string) : option string :=
  match strip_prefix "sha256:" (trim value) with
  | Some digest =>
      if negb (byte_len digest =? 64) || negb (all_bytes is_ascii_hexdigit digest) then None
      else Some ("sha256:" ^^ to_ascii_lowercase digest)
  | None => None
  end.

(** [value.pointer(..)] for a path of member names, and [as_str]. *)
Fixpoint json_pointer (path : list string) (value : Json) : option Json :=
  match path with
  | [] => Some value
  | k :: path =>
      match value with
      | JObject l => match List.find (fun kv => str_eqb kv.1 k) l with
                     | Some (_, v) => json_pointer path v
                     | None => None
                     end
      | _ => None
      end
  end.

Definition json_as_str (value : Json) : option string :=
  match value with JString s => Some s | _ => None end.

Definition effort_pointers : list (list string) :=
  [["reasoning"; "effort"]; ["output_config"; "effort"]; ["reasoning_effort"]; ["effort"];
   ["response"; "reasoning"; "effort"]; ["response"; "output_config"; "effort"];
   ["response"; "reasoning_effort"]; ["response"; "effort"]].

(** [iter().find_map(f)]. *)
Fixpoint find_map {A B} (f : A -> option B) (l : list A) : option B :=
  match l with
  | [] => None
  | x :: l' => match f x with Some y => Some y | None => find_map f l' end
  end.

Definition pointer_text (path : list string) : string :=
  join EmptyString (String.append "/" <$> path).

Definition observed_effort (body : Json) : option (string * string) :=
  find_map (fun path =>
    effort ← (v ← json_pointer path body; s ← json_as_str v; bounded_token s 32);
    Some (effort, pointer_text path)) effort_pointers.

(** The trimmed value of a header, if there is any. *)
Definition trimmed_header (headers : Headers) (name : string) : option string :=
  v ← headers name; filled (Some (trim v)).

Definition session_id_from_headers (headers : Headers) : option string :=
  find_map (trimmed_header headers)
    ["x-switchback-session-id"; "x-codex-session-id"; "x-session-id"].

Definition insert_metadata (k v : string) (r : AiRequest) : AiRequest :=
  with_metadata (bt_insert k v (req_metadata r)) r.

Definition insert_opt (k : string) (v : option string) (r : AiRequest) : AiRequest :=
  match v with Some v => insert_metadata k v r | None => r end.

Definition attach_session_metadata (headers : Headers) (r : AiRequest) : AiRequest :=
  match bt_get "session_id" (req_metadata r) with
  | Some _ => r
  | None => insert_opt "session_id" (session_id_from_headers headers) r
  end.

Definition client_profile_header (headers : Headers) : option string :=
  v ← trimmed_header headers "x-switchback-client-profile";
  if byte_len v <=? 128 then Some v else None.

Definition attach_native_client_metadata (headers : Headers) (default_profile protocol : string)
    (r : AiRequest) : string * AiRequest :=
  let '(profile, source) := match client_profile_header headers with
    | Some v => (v, "header")
    | None => (default_profile, "default")
    end in
  (profile,
   insert_metadata "client_protocol" protocol
     (insert_metadata "client_profile_source" source (insert_metadata "client_profile" profile r))).

Definition attach_native_execution_metadata (headers : Headers) (body : Json) (r : AiRequest)
  : AiRequest :=
  let r := insert_opt "switchback_lane_id"
             (headers "x-switchback-lane-id" ≫= (fun v => bounded_token v 128)) r in
  let r := insert_opt "switchback_lane_revision"
             (headers "x-switchback-lane-revision" ≫= valid_lane_revision) r in
  let r := insert_opt "native_execution.launch_profile"
             (headers "x-switchback-launch-profile" ≫= (fun v => bounded_token v 128)) r in
  let r := insert_opt "native_execution.conformance_revision"
             (headers "x-switchback-conformance-revision" ≫= valid_lane_revision) r in
  let r := insert_opt "native_execution.harness"
             (headers "x-switchback-harness" ≫= (fun v => bounded_token v 64)) r in
  let r := insert_opt "requested_native_effort"
             (headers "x-switchback-requested-effort" ≫= (fun v => bounded_token v 32)) r in
  match observed_effort body with
  | Some (effort, path) =>
      insert_metadata "observed_native_effort_path" path
        (insert_metadata "observed_native_effort" effort r)
  | None => r
  end.

(** [req.tenant = ..; req.project = ..]. *)
Definition with_owner (tenant project : option string) (r : AiRequest) : AiRequest :=
  mkAiRequest (req_id r) (req_model r) (req_system r) (req_messages r) (req_tools r)
    (req_server_tools r) (req_response_format r) (req_stream r) (req_max_output_tokens r)
    (req_temperature r) (req_priority r) (req_privacy_class r) (req_metadata r) tenant project
    (req_passthrough r) (req_protocol_passthrough r) (req_system_cache_hint r)
    (req_tools_cache_hint r).

(** ** Streams of server-sent events *)

Inductive FinishState := SseRunning | SseClean | SseError.

Section Sse.
Context {E : Type} (encode : E -> AiStreamEvent -> list string * E)
        (error_frame : string -> string) (done : option string).

(** The state of the body: the metered stream, the encoder's state, the frames that
    are ready, and how the stream ended. *)
Record Sse := mkSse {
  ss_meter : Meter;
  ss_encoder : E;
  ss_pending : list string;
  ss_done_sent : bool;
  ss_finish : FinishState
}.

Inductive SseTurn :=
| SseYield (frame : string) (st : Sse)
| SseEnd (st : Sse)
| SseAgain (st : Sse).

(** One turn of the loop. *)
Definition sse_turn (st : Sse) : SseTurn :=
  let '(mkSse m enc pending done_sent finish) := st in
  match pending with
  | frame :: pending => SseYield frame (mkSse m enc pending done_sent finish)
  | [] =>
      match finish with
      | SseClean =>
          if done_sent then SseEnd st
          else match done with
          | Some frame => SseYield frame (mkSse m enc [] true finish)
          | None => SseEnd (mkSse m enc [] true finish)
          end
      | SseError => SseEnd st
      | SseRunning =>
          let '(item, m) := poll m in
          match item with
          | Some (Ok (EvError message _)) =>
              SseAgain (mkSse m enc [error_frame message] done_sent SseError)
          | Some (Ok event) =>
              let '(frames, enc) := encode enc event in
              SseAgain (mkSse m enc frames done_sent SseRunning)
          | Some (Err error) =>
              SseAgain (mkSse m enc [error_frame (err_message error)] done_sent SseError)
          | None => SseAgain (mkSse m enc [] done_sent SseClean)
          end
      end
  end.

(** The body read by a client that takes every frame: [None] when the turns do not
    suffice. *)
Fixpoint sse_drain (turns : nat) (st : Sse) : option (list string * Sse) :=
  match turns with
  | O => None
  | S n =>
      match sse_turn st with
      | SseYield frame st => prod_map (cons frame) id <$> sse_drain n st
      | SseEnd st => Some ([], st)
      | SseAgain st => sse_drain n st
      end
  end.

Definition sse_body (m : Meter) (enc : E) : Sse := mkSse m enc [] false SseRunning.

End Sse.

Arguments Sse : clear implicits.
Arguments SseTurn : clear implicits.

(** ** Responses *)

Section Respond.
Context (header_ok : string -> bool) (status_ok : Z -> bool).

(** [if let Ok(value) = HeaderValue::from_str(v) { headers.insert(k, value) }]. *)
Definition with_header (k v : string) (r : Response) : Response :=
  if header_ok v then mkResponse (rs_status r) (bt_insert k v (rs_headers r)) (rs_body r) else r.

Definition with_route_header (summary : string) (r : Response) : Response :=
  with_header "x-switchback-route" summary r.

Definition with_client_profile_header (profile protocol : string) (r : Response) : Response :=
  with_header "x-switchback-client-protocol" protocol
    (with_header "x-switchback-client-profile" profile r).

Definition with_request_id (request_id : string) (r : Response) : Response :=
  with_header "x-switchback-request-id" request_id r.

Definition with_revision_header (revision : Z) (r : Response) : Response :=
  with_header "x-switchback-revision" (fmt_int revision) r.

Definition with_queue_header (queue_ms : Z) (r : Response) : Response :=
  if 0 <? queue_ms then with_header "x-switchback-queue-ms" (fmt_int queue_ms) r else r.

(** The whole seconds of the hint, rounded up. *)
Definition retry_after_seconds (d : Duration) : Z :=
  sat_add u64_max (as_secs d) (if 0 <? d mod 1000000000 then 1 else 0).

Definition with_retry_after_headers (d : Duration) (r : Response) : Response :=
  with_header "retry-after-ms" (fmt_int (as_millis d))
    (with_header "retry-after" (fmt_int (retry_after_seconds d)) r).

Definition render_exec_error (e : ExecError) : Response :=
  let status := if status_ok (xe_status e) then xe_status e else 500 in
  let r := json_response status (openai_error (xe_message e) (xe_error_type e)) in
  let r := match xe_retry_after e with Some d => with_retry_after_headers d r | None => r end in
  match xe_summary e with Some summary => with_route_header summary r | None => r end.

End Respond.

(** ** The handler *)

(** What the endpoints differ in: the path, the codecs, and the native client they
    speak to. *)
Record Endpoint (E : Type) := mkEndpoint {
  ep_path : string;
  ep_parse : Json -> result AiRequest string;
  ep_render : AiResponse -> Json;
  ep_encoder : string -> string -> E;
  ep_encode : E -> AiStreamEvent -> list string * E;
  ep_error_frame : string -> string;
  ep_done : option string;
  ep_client : option (string * string)
}.

Arguments ep_path {E}.
Arguments ep_parse {E}.
Arguments ep_render {E}.
Arguments ep_encoder {E}.
Arguments ep_encode {E}.
Arguments ep_error_frame {E}.
Arguments ep_done {E}.
Arguments ep_client {E}.

(** The guards of a request. *)
Record Held := mkHeld {
  hd_claim : option ClaimGuard;
  hd_admit : option AdmissionGuard;
  hd_conc : option ConcurrencyGuard
}.

(** In the reverse order of their declaration. *)
Definition drop_held (h : Held) (g : Gate) : Gate :=
  drop_opt drop_claim (hd_claim h)
    (drop_opt drop_admission (hd_admit h) (drop_opt drop_concurrency (hd_conc h) g)).

(** What the request meets on its way: clock readings, drawn identifiers and what
    others do while it waits. *)
Record Arrival := mkArrival {
  ar_begin_now : Z;
  ar_lease_id : string;
  ar_rounds : list Round;
  ar_queue_ms : Z;
  ar_waits : list (Gate -> Gate);
  ar_admit_now : Z;
  ar_slot_id : string;
  ar_store_now : Z
}.

(** A request that got in: its key and fingerprint, its guards, how long it queued, the
    request itself and the client profile that is reported. *)
Record Entered := mkEntered {
  en_scope : option (string * string);
  en_held : Held;
  en_queue_ms : Z;
  en_request : AiRequest;
  en_profile : option (string * string)
}.

(** A body that is still being delivered, with the guards it holds. *)
Inductive Delivery (E : Type) :=
| Delivered
| Streaming (body : Sse E) (held : Held).

Arguments Delivered {E}.
Arguments Streaming {E}.

Section Handler.
Context (sha256 : string -> string) (json_print : Json -> string)
        (header_ok : string -> bool) (status_ok : Z -> bool) (store_required : bool).
Context {E : Type} (ep : Endpoint E) (cfg : EdgeConfig) (adm : Admission).

Definition scope_for (headers : Headers) (principal : Principal) (body : Json)
  : option (string * string) :=
  (fun key => (scoped_key sha256 key principal (ep_path ep), fingerprint sha256 json_print body))
  <$> key_from headers.

Definition bad_request (message : string) : Response :=
  json_response 400 (openai_error message "invalid_request_error").

(** The request as it goes to the engine. *)
Definition annotate (headers : Headers) (principal : Principal) (body : Json) (r : AiRequest)
  : AiRequest * option (string * string) :=
  let r := with_owner (pl_tenant principal) (pl_project principal) r in
  let r := attach_session_metadata headers r in
  let r := attach_native_execution_metadata headers body r in
  match ep_client ep with
  | Some (default_profile, protocol) =>
      let '(profile, r) := attach_native_client_metadata headers default_profile protocol r in
      (r, Some (profile, protocol))
  | None => (r, None)
  end.

(** Up to the engine: the claim, the admission slot, the tenant's slot, the request. A
    refusal drops the guards that are held by then. [None] only if [ar_rounds]
    does not suffice. *)
Definition enter (ar : Arrival) (headers : Headers) (principal : Principal) (body : Json) (g : Gate)
  : option (result Entered Response) * Gate :=
  let scope := scope_for headers principal body in
  let '(began, g) := match scope with
    | Some (key, fp) =>
        let '(r, g) := begin header_ok status_ok store_required cfg (ar_begin_now ar)
                         (ar_lease_id ar) key fp g in
        (match r with
         | Ok (Proceed guard) => Ok (Some guard)
         | Ok (ReplayWith resp) => Err resp
         | Err resp => Err resp
         end, g)
    | None => (Ok None, g)
    end in
  match began with
  | Err resp => (Some (Err resp), g)
  | Ok claim =>
      let '(admitted, g) := acquire store_required cfg adm (ar_rounds ar) (ar_queue_ms ar)
                              (ar_waits ar) g in
      match admitted with
      | None => (None, g)
      | Some (Err resp) => (Some (Err resp), drop_held (mkHeld claim None None) g)
      | Some (Ok (permit, queue_ms)) =>
          let '(slot, g) := admit_concurrency store_required cfg (ar_admit_now ar)
                              (ar_slot_id ar) principal g in
          match slot with
          | Err resp => (Some (Err resp), drop_held (mkHeld claim permit None) g)
          | Ok conc =>
              let held := mkHeld claim permit conc in
              match ep_parse ep body with
              | Err message => (Some (Err (bad_request message)), drop_held held g)
              | Ok r =>
                  let '(r, profile) := annotate headers principal body r in
                  (Some (Ok (mkEntered scope held queue_ms r profile)), g)
              end
          end
      end
  end.

(** The headers every answer of the engine gets. *)
Definition stamp (en : Entered) (revision : Z) (r : Response) : Response :=
  let r := with_queue_header header_ok (en_queue_ms en)
             (with_revision_header header_ok revision
                (with_request_id header_ok (req_id (en_request en)) r)) in
  match en_profile en with
  | Some (profile, protocol) => with_client_profile_header header_ok profile protocol r
  | None => r
  end.

(** From the engine: the response is stored before the claim is dropped; a stream
    takes the guards along. *)
Definition leave (ar : Arrival) (en : Entered) (revision : Z) (outcome : ExecOutcome) (g : Gate)
  : Response * Delivery E * Gate :=
  match outcome with
  | OutStream m _ summary =>
      let r := req_id (en_request en) in
      let body := sse_body m (ep_encoder ep r (req_model (en_request en))) in
      (stamp en revision
         (with_route_header header_ok summary
            (mkResponse 200 (bt_insert "content-type" "text/event-stream" []) (BodyStream []))),
       Streaming body (en_held en), g)
  | OutCollected response summary =>
      let value := ep_render ep response in
      let '(stored, g) := match en_scope en with
        | Some (key, fp) =>
            store_json json_print store_required cfg (ar_store_now ar) key fp value g
        | None => (Ok tt, g)
        end in
      match stored with
      | Err e => (json_response 503 (openai_error e "idempotency_store_unavailable"), Delivered,
                  drop_held (en_held en) g)
      | Ok _ =>
          (stamp en revision (with_route_header header_ok summary (json_response 200 value)),
           Delivered, drop_held (en_held en) g)
      end
  | OutError e =>
      (stamp en revision (render_exec_error header_ok status_ok e), Delivered,
       drop_held (en_held en) g)
  end.

(** The whole request. [exec] is the engine on its own state; [meanwhile] is what other
    requests do to the edge while it runs. *)
Definition handle {W} (exec : AiRequest -> W -> (Z * ExecOutcome) * W) (meanwhile : Gate -> Gate)
    (ar : Arrival) (headers : Headers) (principal : Principal) (body : Json) (g : Gate) (w : W)
  : option (Response * Delivery E) * Gate * W :=
  let '(entered, g) := enter ar headers principal body g in
  match entered with
  | None => (None, g, w)
  | Some (Err resp) => (Some (resp, Delivered), g, w)
  | Some (Ok en) =>
      let '((revision, outcome), w) := exec (en_request en) w in
      let '(resp, delivery, g) := leave ar en revision outcome (meanwhile g) in
      (Some (resp, delivery), g, w)
  end.

(** The end of a stream, read or abandoned: the metered stream and the guards are
    dropped. *)
Definition close_stream (d : Delivery E) (g : Gate) : Delivery E * Gate :=
  match d with
  | Delivered => (Delivered, g)
  | Streaming body held => (Delivered, drop_held held g)
  end.

End Handler.
