(* ===== verification/HandlerTheorems.v ===== *)
(** * What a request is promised

    A request whose key is taken or whose response is stored never reaches the
    engine; a request that ends has given back what it took; what goes to the engine
    belongs to the authenticated tenant; and the frames of a stream say how it
    ended. *)

From Stdlib Require Import ZArith Lia Ascii.
From Stdlib Require String.
From stdpp Require Import base list strings gmap sets.
From S2P Require Import Prelude Text Lines BTree Float Time Ir Config Target Routing Router.
From S2P Require Import Catalog Ledger Breaker Availability ScorecardEntry Scorecard.
From S2P Require Import Resolver Collect Profiles Trace Compress Engine UsageTable Leases Access Gateway.
From S2P Require Import Handlers LeaseTheorems GatewayTheorems StreamTheorems.

#[local] Open Scope Z_scope.

Section Handler.
Context (sha256 : string -> string) (json_print : Json -> string)
        (header_ok : string -> bool) (status_ok : Z -> bool) (store_required : bool).
Context {E : Type} (ep : Endpoint E) (cfg : EdgeConfig) (adm : Admission).

Abbreviation enter := (enter sha256 json_print header_ok status_ok store_required ep cfg adm).
Abbreviation leave := (leave json_print header_ok status_ok store_required ep cfg).
Abbreviation handle := (handle sha256 json_print header_ok status_ok store_required ep cfg adm).
Abbreviation scope_for := (scope_for sha256 json_print ep).
Abbreviation begin := (begin header_ok status_ok store_required).

(** A request whose claim is refused is answered at once. *)
Lemma handle_refused {W} (exec : AiRequest -> W -> (Z * ExecOutcome) * W) meanwhile ar headers p body
    g w key fp resp g' :
  scope_for headers p body = Some (key, fp) ->
  begin cfg (ar_begin_now ar) (ar_lease_id ar) key fp g = (Ok (ReplayWith resp), g')
  \/ begin cfg (ar_begin_now ar) (ar_lease_id ar) key fp g = (Err resp, g') ->
  handle exec meanwhile ar headers p body g w = (Some (resp, Delivered), g', w).
Proof.
  intros Hs Hb. unfold Handlers.handle, Handlers.enter. rewrite Hs. by destruct Hb as [-> | ->].
Qed.

(** ** Stored responses *)

(** The record that the first response leaves behind. *)
Definition own_record (ar : Arrival) (key fp : string) (response : AiResponse) : IdempotencyRecord :=
  mkIdempotencyRecord key fp 200 "application/json" (json_print (ep_render ep response))
    (ar_store_now ar).

Lemma drop_held_stored h g s key rec :
  g_store g = Some s -> ls_idempotency s !! key = Some rec ->
  exists s', g_store (drop_held h g) = Some s' /\ ls_idempotency s' !! key = Some rec.
Proof.
  intros Hg Hr.
  assert (Hstep : forall (f : Gate -> Gate) g s, g_store g = Some s ->
    ls_idempotency s !! key = Some rec ->
    (g_store (f g) = g_store g \/ exists o, g_store (f g) = Some (lexec s 0 o)) ->
    exists s', g_store (f g) = Some s' /\ ls_idempotency s' !! key = Some rec).
  { intros f g0 s0 H0 Hr0 [->|[o ->]]; [by exists s0|]. eexists. split; [done|]. by apply stored_step. }
  destruct h as [hc ha hs]. unfold drop_held. cbn [hd_claim hd_admit hd_conc].
  destruct (Hstep (drop_opt drop_concurrency hs) g s Hg Hr) as (s1 & H1 & Hr1).
  { destruct hs as [[t|slot]|]; simpl; [left; by destruct (g_counts g !! t)| |by left].
    right. rewrite Hg. by exists (LTenantRelease slot). }
  destruct (Hstep (drop_opt drop_admission ha) _ s1 H1 Hr1) as (s2 & H2 & Hr2).
  { destruct ha as [[|slot]|]; simpl; [left; by case_match| |by left].
    right. rewrite H1. by exists (LAdmitRelease slot). }
  apply (Hstep (drop_opt drop_claim hc) _ s2 H2 Hr2).
  destruct hc as [[k|k l]|]; simpl; [by left| |by left].
  right. rewrite H2. by exists (LRelease k l).
Qed.

Lemma stored_begin cfg' now lease key fp g s rec :
  g_store g = Some s -> ls_reachable s = true -> ls_idempotency s !! key = Some rec ->
  (begin cfg' now lease key fp g).1
  = if str_eqb (ir_fingerprint rec) fp
    then Ok (ReplayWith (replay_response header_ok status_ok rec)) else Err mismatch_response.
Proof.
  intros Hg Hr Hrec. unfold Gateway.begin, idempotency_begin, reached. rewrite Hg, Hr, Hrec.
  by destruct (str_eqb _ _).
Qed.

(** C11 (safety). A response is given once and then replayed: when a request with an
    idempotency key got its collected response from the engine, with persistence
    on and a store that can be reached, then whatever any process does to the
    store afterwards, every later request with the key is answered without
    reaching the engine: with the stored bytes if its body has the same
    fingerprint, and with a 422 otherwise. The stored record is that of the first
    response, unless one was stored before it. *)
Theorem duplicate_never_executes ar en key fp revision response summary g s :
  en_scope en = Some (key, fp) -> ec_persist_response_bodies cfg = true ->
  g_store g = Some s -> ls_reachable s = true ->
  let '(resp, delivery, g1) := leave ar en revision (OutCollected response summary) g in
  exists s1 rec, g_store g1 = Some s1 /\ delivery = Delivered
    /\ (ls_idempotency s !! key = None -> rec = own_record ar key fp response)
    /\ forall os g2 ar2 headers p body fp2 W (exec : AiRequest -> W -> (Z * ExecOutcome) * W)
         meanwhile w,
       g_store g2 = Some (lrun s1 os) -> ls_reachable (lrun s1 os) = true ->
       scope_for headers p body = Some (key, fp2) ->
       exists g3, handle exec meanwhile ar2 headers p body g2 w
         = (Some (if str_eqb (ir_fingerprint rec) fp2 then replay_response header_ok status_ok rec
                  else mismatch_response, Delivered), g3, w).
Proof.
  intros Hsc Hper Hg Hr. unfold Handlers.leave. rewrite Hsc. unfold store_json. rewrite Hper, Hg.
  cbn [negb]. fold (own_record ar key fp response). set (rec0 := own_record ar key fp response).
  assert (Hput : exists b s0 rec, idempotency_put s rec0 = (Ok b, s0)
            /\ ls_idempotency s0 !! key = Some rec
            /\ (ls_idempotency s !! key = None -> rec = rec0)).
  { unfold idempotency_put, reached. rewrite Hr. cbn [rec0 own_record ir_key].
    destruct (ls_idempotency s !! key) as [rec|] eqn:Ek.
    - exists false, s, rec. by split_and!.
    - eexists true, _, rec0. split_and!; [reflexivity| |done]. apply lookup_insert_eq. }
  destruct Hput as (b & s0 & rec & -> & Hrec & Hown).
  destruct (drop_held_stored (en_held en) (set_store s0 g) s0 key rec eq_refl Hrec)
    as (s1 & Hs1 & Hrec1).
  exists s1, rec. split_and!; [done|done|done|].
  intros os g2 ar2 headers p body fp2 W exec meanwhile w Hg2 Hr2 Hscope.
  pose proof (stored_begin cfg (ar_begin_now ar2) (ar_lease_id ar2) key fp2 g2 _ rec Hg2 Hr2
    (stored_run s1 os key rec Hrec1)) as Hb.
  destruct (begin cfg (ar_begin_now ar2) (ar_lease_id ar2) key fp2 g2) as [r g3] eqn:Eb.
  simpl in Hb. subst r. exists g3. eapply handle_refused; [exact Hscope|].
  rewrite Eb. destruct (str_eqb _ _); auto.
Qed.

(** ** Claims in flight *)

(** Somebody's claim on the key is alive: a row of the store, or a key of this process
    when there is no store. *)
Definition claim_alive (g : Gate) (now : Z) (key : string) : Prop :=
  match g_store g with
  | Some s => ls_reachable s = true /\ exists lease e, holds s key lease e /\ now < e
  | None => key ∈ g_inflight g
  end.

Lemma claimed_begin now lease key fp g :
  claim_alive g now key ->
  exists resp, ((begin cfg now lease key fp g).1 = Ok (ReplayWith resp)
                \/ (begin cfg now lease key fp g).1 = Err resp)
    /\ (resp = in_progress_response \/ resp = mismatch_response
        \/ exists s rec, g_store g = Some s /\ ls_idempotency s !! key = Some rec
             /\ resp = replay_response header_ok status_ok rec).
Proof.
  unfold claim_alive, Gateway.begin. destruct (g_store g) as [s|] eqn:Eg.
  - intros (Hr & l & e & (row & Hrow & Hl & He) & Hlt). unfold idempotency_begin, reached. rewrite Hr.
    destruct (ls_idempotency s !! key) as [rec|] eqn:Er; [destruct (str_eqb _ _)|].
    + eexists. split; [by left|]. right. right. by exists s, rec.
    + eexists. split; [by right|]. right. by left.
    + rewrite (proj2 (purge_lookup now (ls_inflight s) key row)) by (split; [done|simpl; lia]).
      destruct (str_eqb _ _); eexists; (split; [by right|]); auto.
  - intros Hin. unfold begin_local, try_claim. rewrite decide_True by done.
    eexists. split; [by right|]. by left.
Qed.

(** Single flight at the handler: while a claim on the key is alive, in the
    shared store or, without one, in this process, a request with the key does
    not reach the engine; it is answered 409, 422 or with a stored response. *)
Theorem concurrent_duplicate_refused {W} (exec : AiRequest -> W -> (Z * ExecOutcome) * W)
    meanwhile ar headers p body g w key fp :
  scope_for headers p body = Some (key, fp) -> claim_alive g (ar_begin_now ar) key ->
  exists resp g', handle exec meanwhile ar headers p body g w = (Some (resp, Delivered), g', w)
    /\ (resp = in_progress_response \/ resp = mismatch_response
        \/ exists s rec, g_store g = Some s /\ ls_idempotency s !! key = Some rec
             /\ resp = replay_response header_ok status_ok rec).
Proof.
  intros Hs Hc. destruct (claimed_begin (ar_begin_now ar) (ar_lease_id ar) key fp g Hc)
    as (resp & Hb & Hresp).
  destruct (begin cfg (ar_begin_now ar) (ar_lease_id ar) key fp g) as [r g'] eqn:Eb.
  exists resp, g'. split; [|done]. eapply handle_refused; [exact Hs|]. rewrite Eb.
  simpl in Hb. destruct Hb as [-> | ->]; auto.
Qed.

(** ** What the engine gets *)

(** The fields that annotation leaves alone. *)
Definition same_core (r r' : AiRequest) : Prop :=
  req_id r' = req_id r /\ req_model r' = req_model r /\ req_messages r' = req_messages r
  /\ req_tools r' = req_tools r /\ req_system r' = req_system r /\ req_stream r' = req_stream r.

Definition owned_by (p : Principal) (r : AiRequest) : Prop :=
  req_tenant r = pl_tenant p /\ req_project r = pl_project p.

Lemma insert_opt_keeps p k v r0 r :
  same_core r0 r /\ owned_by p r -> same_core r0 (insert_opt k v r) /\ owned_by p (insert_opt k v r).
Proof. by destruct v. Qed.

Lemma annotate_keeps headers p body r :
  let '(r', _) := annotate ep headers p body r in same_core r r' /\ owned_by p r'.
Proof.
  assert (H1 : forall r1, same_core r r1 /\ owned_by p r1 ->
            same_core r (attach_session_metadata headers r1)
            /\ owned_by p (attach_session_metadata headers r1)).
  { intros r1 H. unfold attach_session_metadata. case_match; [done|]. by apply insert_opt_keeps. }
  assert (H2 : forall r1, same_core r r1 /\ owned_by p r1 ->
            same_core r (attach_native_execution_metadata headers body r1)
            /\ owned_by p (attach_native_execution_metadata headers body r1)).
  { intros r1 H. unfold attach_native_execution_metadata.
    destruct (observed_effort body) as [[e pth]|]; [change (?f (insert_metadata ?a ?b ?c)) with
      (f (insert_opt a (Some b) c))|]; by repeat apply insert_opt_keeps. }
  unfold annotate.
  pose proof (H2 _ (H1 (with_owner (pl_tenant p) (pl_project p) r) ltac:(done))) as H.
  destruct (ep_client ep) as [[dp pr]|]; [|done].
  unfold attach_native_client_metadata. by destruct (client_profile_header headers).
Qed.

(** What reaches the engine is the parsed request, attributed to the
    caller: its tenant and project are those of the authenticated principal,
    whatever the body says, and its identifier, model, system prompt, messages,
    tools and stream flag are those of the body. *)
Theorem request_attributed ar headers p body g en g' :
  enter ar headers p body g = (Some (Ok en), g') ->
  exists r, ep_parse ep body = Ok r /\ same_core r (en_request en) /\ owned_by p (en_request en).
Proof.
  unfold Handlers.enter. intros H.
  destruct (match scope_for headers p body with Some _ => _ | None => _ end) as [[claim|resp] g1];
    [|done].
  destruct (acquire _ _ _ _ _ _ g1) as [[[[permit q]|]|] g2]; [|done|done].
  destruct (admit_concurrency _ _ _ _ _ g2) as [[conc|] g3]; [|done].
  destruct (ep_parse ep body) as [r|m]; [|done].
  pose proof (annotate_keeps headers p body r) as Ha. destruct (annotate ep headers p body r) as [r' pf].
  simplify_eq. by exists r.
Qed.

(** ** Giving back *)

(** The counters of the process are the same. *)
Definition same_local (g g' : Gate) : Prop :=
  g_inflight g' = g_inflight g /\ g_permits g' = g_permits g
  /\ forall t, default 0 (g_counts g' !! t) = default 0 (g_counts g !! t).

#[local] Instance same_local_refl : Reflexive same_local.
Proof. intros g. by split_and!. Qed.

#[local] Instance same_local_trans : Transitive same_local.
Proof. intros g1 g2 g3 (? & ? & H1) (? & ? & H2). split_and!; congruence || (intros t; by rewrite H2). Qed.

Definition opt_local {A B} (f : A -> option B) (x : option A) : option B := x ≫= f.

(** [g'] is [g] with the guards [h] taken. *)
Definition owes (h : Held) (g g' : Gate) : Prop :=
  match opt_local local_key (hd_claim h) with
  | Some k => (k ∉ g_inflight g) /\ g_inflight g' = {[k]} ∪ g_inflight g
  | None => g_inflight g' = g_inflight g
  end
  /\ match opt_local local_permit (hd_admit h) with
     | Some _ => exists n, g_permits g = Some n /\ g_permits g' = Some (n - 1)
     | None => g_permits g' = g_permits g
     end
  /\ forall t, default 0 (g_counts g' !! t)
       = default 0 (g_counts g !! t)
         + (if bool_decide (opt_local local_tenant (hd_conc h) = Some t) then 1 else 0).

Lemma owes_same h g g' g'' : owes h g g' -> same_local g' g'' -> owes h g g''.
Proof.
  unfold owes. intros (H1 & H2 & H3) (E1 & E2 & E3). rewrite E1, E2. split_and!; try done.
  intros t. by rewrite E3.
Qed.

Lemma owes_nothing g g' : same_local g g' -> owes (mkHeld None None None) g g'.
Proof. intros (H1 & H2 & H3). split_and!; try done. intros t. rewrite H3. simpl. lia. Qed.

Lemma drop_held_gives_back h g g' :
  (forall t, 0 <= default 0 (g_counts g !! t)) -> owes h g g' -> same_local g (drop_held h g').
Proof.
  intros Hpos (H1 & H2 & H3). destruct h as [hc ha hs]. unfold drop_held.
  cbn [hd_claim hd_admit hd_conc] in *.
  assert (Hs : g_inflight (drop_opt drop_concurrency hs g') = g_inflight g'
            /\ g_permits (drop_opt drop_concurrency hs g') = g_permits g'
            /\ forall t, default 0 (g_counts (drop_opt drop_concurrency hs g') !! t)
                 = default 0 (g_counts g !! t)).
  { destruct hs as [c|]; [|split_and!; try done; intros t; rewrite H3; simpl; lia].
    destruct (drop_slot_counters c g') as (E1 & E2 & E3). split_and!; [done|done|].
    intros t. simpl. rewrite E3. specialize (H3 t). specialize (Hpos t). cbn [opt_local mbind option_bind] in H3.
    case_bool_decide; [|lia]. destruct (g_counts g' !! t) as [m|]; simpl in H3; unfold sat_sub; lia. }
  destruct Hs as (S1 & S2 & S3). set (g1 := drop_opt drop_concurrency hs g') in *.
  assert (Ha : g_inflight (drop_opt drop_admission ha g1) = g_inflight g'
            /\ g_permits (drop_opt drop_admission ha g1) = g_permits g
            /\ g_counts (drop_opt drop_admission ha g1) = g_counts g1).
  { destruct ha as [c|]; [|simpl in *; split_and!; congruence].
    destruct (drop_permit_counters c g1) as (E1 & E2 & E3). cbn [drop_opt]. rewrite E1, E2, E3, S1, S2.
    split_and!; try done. cbn [opt_local mbind option_bind] in H2.
    destruct (local_permit c); [|done]. destruct H2 as (n & -> & ->). simpl. f_equal. lia. }
  destruct Ha as (A1 & A2 & A3). set (g2 := drop_opt drop_admission ha g1) in *.
  destruct hc as [c|]; cbn [drop_opt].
  - destruct (drop_claim_counters c g2) as (E1 & E2 & E3). unfold same_local. rewrite E1, E2, E3, A1, A2, A3.
    split_and!; try done. cbn [opt_local mbind option_bind] in H1.
    destruct (local_key c) as [k|]; [|done]. destruct H1 as [Hk ->]. set_solver.
  - unfold same_local. rewrite A1, A2, A3. by split_and!.
Qed.

(** The others do not touch the counters of the process while the request waits; they
    may change the store. *)
Definition undisturbed (f : Gate -> Gate) : Prop :=
  forall g, same_local g (f g) /\ opt_is_some (g_store (f g)) = opt_is_some (g_store g).

Lemma wait_permit_owes q waits g :
  Forall undisturbed waits ->
  let '(r, g') := wait_permit q waits g in
  match r with
  | Ok (permit, _) => owes (mkHeld None permit None) g g'
  | Err _ => same_local g g'
  end.
Proof.
  intros Hw. assert (H : forall g0, same_local g g0 ->
    let '(r, g') := wait_permit q waits g0 in
    match r with
    | Ok (permit, _) => owes (mkHeld None permit None) g g'
    | Err _ => same_local g g'
    end); [|by apply H].
  induction Hw as [|f waits Hf _ IH]; intros g0 Hg; cbn [wait_permit].
  all: destruct (g_permits g0) as [n|] eqn:En; [|by apply owes_nothing].
  all: destruct (Z.ltb_spec 0 n).
  1, 3: destruct Hg as (E1 & E2 & E3); split_and!; [done| |intros t; simpl; rewrite E3; simpl; lia];
    exists n; split; [congruence|done].
  - done.
  - apply IH. etransitivity; [exact Hg|apply Hf].
Qed.

Lemma acquire_durable_local max ttl timeout rounds : forall g,
  Forall (fun r => undisturbed (rd_others r)) rounds ->
  same_local g (acquire_durable max ttl timeout rounds g).2
  /\ (forall c q, (acquire_durable max ttl timeout rounds g).1 = Some (Ok (c, q)) ->
      local_permit c = None).
Proof.
  induction rounds as [|r rounds IH]; intros g Hr; [done|].
  apply Forall_cons_1 in Hr as [Hf Hr]. cbn [acquire_durable].
  destruct (Hf g) as [Hl _]. destruct (g_store (rd_others r g)) as [s|]; [|done].
  destruct (admission_slot_acquire s (rd_now r) (rd_slot_id r) max ttl) as [[[|]|e] s'].
  - split; [exact Hl|]. by intros c q [= <- _].
  - destruct (timeout <=? rd_elapsed r); [by split|].
    destruct (IH (set_store s' (rd_others r g)) Hr) as [H1 H2]. split; [|done].
    etransitivity; [|exact H1]. exact Hl.
  - by split.
Qed.

Lemma acquire_owes rounds q waits g :
  Forall (fun r => undisturbed (rd_others r)) rounds -> Forall undisturbed waits ->
  let '(r, g') := acquire store_required cfg adm rounds q waits g in
  match r with
  | Some (Ok (permit, _)) => owes (mkHeld None permit None) g g'
  | _ => same_local g g'
  end.
Proof.
  intros Hr Hw. unfold acquire. destruct (ad_limit adm) as [max|]; [|by apply owes_nothing].
  assert (Hl : forall g0, same_local g g0 ->
    let '(r, g') := acquire_local q waits g0 in
    match r with Ok (permit, _) => owes (mkHeld None permit None) g g' | Err _ => same_local g g' end).
  { intros g0 Hg. pose proof (wait_permit_owes q waits g0 Hw) as H. unfold acquire_local.
    destruct (wait_permit q waits g0) as [[[permit qq]|] g']; [|by etransitivity].
    destruct Hg as (E1 & E2 & E3), H as (H1 & H2 & H3). unfold owes. rewrite <- E1, <- E2.
    split_and!; try done. intros t. by rewrite H3, E3. }
  destruct (g_store g) as [s|].
  2:{ specialize (Hl g ltac:(done)). by destruct (acquire_local q waits g) as [[[permit qq]|] g']. }
  destruct (acquire_durable_local max (ec_admission_slot_ttl_ms cfg) (ad_timeout adm) rounds g Hr)
    as [H1 H2].
  destruct (acquire_durable _ _ _ rounds g) as [[[[c qq]|[|e]]|] g1]; simpl in *; try done.
  - specialize (H2 c qq eq_refl). destruct (owes_nothing g g1 H1) as (E1 & E2 & E3).
    unfold owes. cbn [opt_local hd_admit hd_claim hd_conc mbind option_bind] in *. by rewrite H2.
  - destruct store_required; [done|]. specialize (Hl g1 H1).
    by destruct (acquire_local q waits g1) as [[[permit qq]|] g'].
Qed.

(** The three acquisitions, put together. *)
Lemma owes_admit claim permit g g1 g2 g3 :
  owes (mkHeld claim None None) g g1 -> owes (mkHeld None permit None) g1 g2 -> same_local g2 g3 ->
  owes (mkHeld claim permit None) g g3.
Proof.
  intros (A1 & A2 & A3) (B1 & B2 & B3) (C1 & C2 & C3).
  unfold owes. cbn [opt_local hd_admit hd_claim hd_conc mbind option_bind] in *.
  split_and!.
  - rewrite C1, B1. done.
  - rewrite C2, <- A2. done.
  - intros t. rewrite C3, B3, A3. by rewrite !Z.add_0_r.
Qed.

Lemma begin_owes now lease key fp g :
  let '(r, g') := begin cfg now lease key fp g in
  match r with
  | Ok (Proceed c) => owes (mkHeld (Some c) None None) g g'
  | _ => same_local g g'
  end.
Proof.
  pose proof (begin_counters header_ok status_ok store_required cfg now lease key fp g) as H.
  destruct (begin cfg now lease key fp g) as [r g']. destruct H as (H1 & H2 & H3).
  destruct r as [[[k|k l]|]|]; try (split_and!; [done|done|by rewrite H1]).
  all: split_and!; [done|done|intros t; rewrite H1; simpl; lia].
Qed.

Lemma admit_owes now slot p claim permit g g1 :
  owes (mkHeld claim permit None) g g1 ->
  let '(r, g2) := admit_concurrency store_required cfg now slot p g1 in
  match r with
  | Ok conc => owes (mkHeld claim permit conc) g g2
  | Err _ => owes (mkHeld claim permit None) g g2
  end.
Proof.
  intros Ho. pose proof (admit_counters store_required cfg now slot p g1) as H.
  destruct (admit_concurrency store_required cfg now slot p g1) as [r g2].
  destruct H as (H1 & H2 & H3), Ho as (A1 & A2 & A3).
  destruct r as [[[t|s]|]|];
    unfold owes; cbn [opt_local hd_admit hd_claim hd_conc mbind option_bind local_tenant] in *;
    rewrite H1, H2; (split_and!; [done|done|]); intros t'.
  - destruct H3 as [_ ->]. case_bool_decide as Et.
    + simplify_eq. rewrite lookup_insert_eq. simpl. rewrite A3. simpl. lia.
    + rewrite lookup_insert_ne by congruence. rewrite A3. simpl. lia.
  - rewrite H3, A3. simpl. lia.
  - rewrite H3, A3. done.
  - rewrite H3, A3. done.
Qed.

Definition quiet_arrival (ar : Arrival) : Prop :=
  Forall (fun r => undisturbed (rd_others r)) (ar_rounds ar) /\ Forall undisturbed (ar_waits ar).

Lemma enter_owes ar headers p body g :
  quiet_arrival ar -> (forall t, 0 <= default 0 (g_counts g !! t)) ->
  let '(r, g') := enter ar headers p body g in
  match r with
  | None => True
  | Some (Err _) => same_local g g'
  | Some (Ok en) => owes (en_held en) g g'
  end.
Proof.
  intros [Hr Hw] Hpos. unfold Handlers.enter.
  assert (Hb : let '(began, g1) := match scope_for headers p body with
      | Some (key, fp) =>
          let '(r, g) := begin cfg (ar_begin_now ar) (ar_lease_id ar) key fp g in
          (match r with Ok (Proceed guard) => Ok (Some guard) | Ok (ReplayWith resp) => Err resp
           | Err resp => Err resp end, g)
      | None => (Ok None, g)
      end in
      match began with
      | Ok claim => owes (mkHeld claim None None) g g1
      | Err _ => same_local g g1
      end).
  { destruct (scope_for headers p body) as [[key fp]|]; [|by apply owes_nothing].
    pose proof (begin_owes (ar_begin_now ar) (ar_lease_id ar) key fp g) as H.
    by destruct (begin cfg (ar_begin_now ar) (ar_lease_id ar) key fp g) as [[[c|]|] g1]. }
  destruct (match scope_for headers p body with Some _ => _ | None => _ end) as [[claim|resp] g1];
    [|exact Hb].
  pose proof (acquire_owes (ar_rounds ar) (ar_queue_ms ar) (ar_waits ar) g1 Hr Hw) as Ha.
  destruct (acquire _ _ _ _ _ _ g1) as [[[[permit q]|r]|] g2]; [| |done].
  2:{ apply drop_held_gives_back; [done|]. by eapply owes_same. }
  pose proof (owes_admit claim permit g g1 g2 g2 Hb Ha ltac:(done)) as Hc.
  pose proof (admit_owes (ar_admit_now ar) (ar_slot_id ar) p claim permit g g2 Hc) as Hd.
  destruct (admit_concurrency _ _ _ _ _ g2) as [[conc|r] g3]; [|by apply drop_held_gives_back].
  destruct (ep_parse ep body) as [r|m]; [|by apply drop_held_gives_back].
  by destruct (annotate ep headers p body r) as [r' pf].
Qed.

Lemma leave_gives_back ar en revision outcome g g' :
  (forall t, 0 <= default 0 (g_counts g !! t)) -> owes (en_held en) g g' ->
  let '(_, delivery, g1) := leave ar en revision outcome g' in
  same_local g (close_stream delivery g1).2.
Proof.
  intros Hpos Ho. unfold Handlers.leave. destruct outcome as [m c summary|response summary|e].
  - by apply drop_held_gives_back.
  - assert (Hs : let '(stored, g1) := match en_scope en with
        | Some (key, fp) => store_json json_print store_required cfg (ar_store_now ar) key fp
                              (ep_render ep response) g'
        | None => (Ok tt, g') end in owes (en_held en) g g1).
    { destruct (en_scope en) as [[key fp]|]; [|done]. unfold store_json.
      destruct (negb _); [done|]. destruct (g_store g') as [s|]; [|done].
      destruct (idempotency_put s _) as [[b|e] s']; by eapply owes_same. }
    destruct (match en_scope en with Some _ => _ | None => _ end) as [[u|e] g1];
      by apply drop_held_gives_back.
  - by apply drop_held_gives_back.
Qed.

(** C12 (safety). Nothing leaks: a request that the handler has answered, on any path,
    refusals, replays, parse errors, store failures and engine errors included,
    leaves the keys in flight, the tenants' counters and the free permits of the
    process as it found them once its response is delivered or its stream is
    closed, whatever happens to the shared store meanwhile. *)
Theorem handler_gives_back {W} (exec : AiRequest -> W -> (Z * ExecOutcome) * W) meanwhile ar headers p
    body g w :
  quiet_arrival ar -> undisturbed meanwhile -> (forall t, 0 <= default 0 (g_counts g !! t)) ->
  let '(answer, g', _) := handle exec meanwhile ar headers p body g w in
  match answer with
  | None => True
  | Some (_, delivery) => same_local g (close_stream delivery g').2
  end.
Proof.
  intros Hq Hm Hpos. unfold Handlers.handle.
  pose proof (enter_owes ar headers p body g Hq Hpos) as He.
  destruct (enter ar headers p body g) as [[[en|resp]|] g1]; [|done|done].
  destruct (exec (en_request en) w) as [[revision outcome] w'].
  pose proof (leave_gives_back ar en revision outcome g (meanwhile g1) Hpos
    (owes_same _ _ _ _ He (proj1 (Hm g1)))) as Hl.
  by destruct (leave ar en revision outcome (meanwhile g1)) as [[resp d] g2].
Qed.

End Handler.

(** ** Streams *)

Section Stream.
Context {E : Type} (encode : E -> AiStreamEvent -> list string * E)
        (error_frame : string -> string) (done : option string).

(** The frames of a stream, by its items: what the encoder makes of each event, up to
    an error, which is reported and ends the body, or to the end, which is marked. *)
Fixpoint frames_of (enc : E) (items : EventStream) : list string :=
  match items with
  | [] => option_list done
  | Ok (EvError message _) :: _ => [error_frame message]
  | Err error :: _ => [error_frame (err_message error)]
  | Ok event :: items => let '(frames, enc) := encode enc event in frames ++ frames_of enc items
  end.

(** How the stream ended. *)
Fixpoint stream_end (items : EventStream) : StreamFinish :=
  match items with
  | [] => Clean
  | Ok (EvError _ class) :: _ => UpstreamError class
  | Err error :: _ => UpstreamError (err_class error)
  | Ok _ :: items => stream_end items
  end.

Definition is_error_event (ev : AiStreamEvent) : bool :=
  match ev with EvError _ _ => true | _ => false end.

(** An armed meter that has finished nothing. *)
Definition fresh_meter (items : EventStream) (m : Meter) : Prop :=
  m_stream m = items /\ m_open m = true /\ m_finishes m = [] /\ g_armed (m_guard m) = true.

Abbreviation turn := (sse_turn encode error_frame done).
Abbreviation drain := (sse_drain encode error_frame done).

Lemma drain_pending pending : forall m enc b fin fs st turns,
  drain turns (mkSse m enc [] b fin) = Some (fs, st) ->
  drain (length pending + turns)%nat (mkSse m enc pending b fin) = Some (pending ++ fs, st).
Proof.
  induction pending as [|f pending IH]; intros m enc b fin fs st turns H; [done|].
  cbn [length Nat.add sse_drain sse_turn]. by rewrite (IH _ _ _ _ _ _ _ H).
Qed.

Lemma drain_error m enc frame b : drain 2 (mkSse m enc [frame] b SseError)
  = Some ([frame], mkSse m enc [] b SseError).
Proof. done. Qed.

Lemma poll_item item items m :
  fresh_meter (item :: items) m ->
  let '(i, m') := poll m in
  i = Some item
  /\ match item with
     | Ok (EvError _ class) => exists u r, m_finishes (drop_meter m') = [(u, r, UpstreamError class)]
     | Err error => exists u r, m_finishes (drop_meter m') = [(u, r, UpstreamError (err_class error))]
     | Ok _ => fresh_meter items m'
     end.
Proof.
  intros (Hs & Ho & Hf & Ha). unfold poll. rewrite Ho, Hs. cbn [negb].
  destruct item as [ev|e]; [destruct ev|]; unfold fire; cbn [g_armed]; rewrite ?Ha, ?Hf;
    (split; [done|]); try (by split_and!); by eexists _, _.
Qed.

Lemma poll_end m :
  fresh_meter [] m ->
  let '(i, m') := poll m in
  i = None /\ exists u r, m_finishes (drop_meter m') = [(u, r, Clean)].
Proof.
  intros (Hs & Ho & Hf & Ha). unfold poll. rewrite Ho, Hs. unfold fire. cbn [negb].
  rewrite Ha, Hf. split; [done|]. by eexists _, _.
Qed.

(** One event taken from the stream. *)
Lemma drain_event n m enc item m' frames enc' r :
  poll m = (Some (Ok item), m') -> encode enc item = (frames, enc') ->
  (forall msg c, item <> EvError msg c) ->
  drain n (mkSse m' enc' frames false SseRunning) = r ->
  drain (S n) (mkSse m enc [] false SseRunning) = r.
Proof.
  intros Hp He Hne <-. cbn [sse_drain sse_turn]. rewrite Hp.
  destruct item; rewrite ?He; try done. by destruct (Hne message class).
Qed.

(** A streamed body says how it ended: a client that reads it to the end
    gets exactly the frames of the events, then the error frame and nothing more
    if the stream failed, and the end marker only if it ended cleanly; and the
    stream is metered once, with that outcome. *)
Theorem sse_body_honest items enc :
  exists turns frames st,
    sse_drain encode error_frame done turns (sse_body (meter_stream items) enc) = Some (frames, st)
    /\ frames = frames_of enc items
    /\ exists u r, m_finishes (drop_meter (ss_meter st)) = [(u, r, stream_end items)].
Proof.
  unfold sse_body. assert (Hm : fresh_meter items (meter_stream items)) by done.
  revert Hm. generalize (meter_stream items). revert enc.
  induction items as [|item items IH]; intros enc m Hm.
  - pose proof (poll_end m Hm) as Hp. destruct (poll m) as [i m'] eqn:Ep. destruct Hp as [-> Hf].
    exists 4%nat. cbn [sse_drain sse_turn frames_of stream_end]. rewrite Ep.
    destruct done; eexists _, _; (split; [reflexivity|]); by split.
  - pose proof (poll_item item items m Hm) as Hp. destruct (poll m) as [i m'] eqn:Ep.
    destruct Hp as [-> Hf]. destruct item as [ev|e].
    2:{ exists 3%nat. cbn [sse_drain sse_turn]. rewrite Ep. eexists _, _.
        split; [reflexivity|]. by split. }
    destruct (encode enc ev) as [fs enc'] eqn:Ee.
    destruct (is_error_event ev) eqn:Ev.
    + destruct ev; try done. exists 3%nat. cbn [sse_drain sse_turn]. rewrite Ep. eexists _, _.
      split; [reflexivity|]. by split.
    + assert (Hm' : fresh_meter items m') by (by destruct ev).
      destruct (IH enc' m' Hm') as (n & frames & st & Hd & -> & Hfin).
      exists (S (length fs + n)), (fs ++ frames_of enc' items), st. split_and!.
      * eapply drain_event; [exact Ep|exact Ee|by intros msg c ->|]. by apply drain_pending.
      * cbn [frames_of]. rewrite Ee. by destruct ev.
      * by destruct ev.
Qed.

End Stream.
