(* ===== verification/GatewaySamples.v ===== *)
(** * Concrete requests at the edge

    A gateway with one tenant limited to one request at a time and one admission
    slot, an endpoint that echoes, and the theorems on the edge applied to it. *)

From Stdlib Require Import ZArith Lia Ascii.
From Stdlib Require String.
From stdpp Require Import base list strings gmap sets.
From S2P Require Import Prelude Text Lines BTree Float Time Ir Config Target Routing Router.
From S2P Require Import Catalog Ledger Breaker Availability ScorecardEntry Scorecard.
From S2P Require Import Resolver Collect Profiles Trace Compress Engine EngineSamples UsageTable.
From S2P Require Import Leases Access Gateway Handlers LeaseTheorems.
From S2P Require Import GatewayTheorems HandlerTheorems.

#[local] Open Scope Z_scope.

Module GatewaySamples.

Definition digest := AccessSamples.digest.

Definition acme : TenantConfig := mkTenantConfig "acme" [] [] [] None (Some 1).

Definition cfg : EdgeConfig := mkEdgeConfig 1000 true 1000 1000 (EngineSamples.config acme false []).

Definition adm : Admission := Admission_new (Some 1) 25.

Definition user : Principal := mkPrincipal (Some "acme") None RoleClient.

Definition any_header (s : string) : bool := true.
Definition any_status (n : Z) : bool := true.

Definition print (j : Json) : string :=
  match j with JString s => s | _ => "json" end.

Definition echo : Endpoint unit :=
  mkEndpoint unit "/v1/echo"
    (fun j => match j with JString s => Ok (AiRequest_new "r1" s []) | _ => Err "not a string" end)
    (fun r => JString (resp_model r)) (fun _ _ => tt) (fun u _ => (["frame"], u)) (fun m => m)
    (Some "done") (Some ("codex", "openai_responses")).

Definition keyed (name : string) : option string :=
  if str_eqb name "idempotency-key" then Some " k1 " else None.

Definition arrival : Arrival :=
  mkArrival 5 "lease1" [mkRound id 6 "admit1" 0] 0 [] 7 "slot1" 8.

Definition response : AiResponse :=
  mkAiResponse "r1" "m" (message_assistant "hi") Stop Usage_default.

Definition exec (r : AiRequest) (calls : nat) : (Z * ExecOutcome) * nat :=
  ((3, OutCollected response "main"), S calls).

Definition gate0 : Gate := Gate_new (Some Leases_new) adm.
Definition gate_local : Gate := Gate_new None adm.

(** ** The accounts *)

Definition traffic : list GOp :=
  [GBegin cfg 1 "l1" "k1" "f1"; GAdmit cfg 1 "s1" user; GAcquire cfg 1 "a1" 0;
   GBegin cfg 2 "l2" "k1" "f1"; GAdmit cfg 2 "s2" user; GDropPermit 0; GDropSlot 0].

Lemma edge_accounts_witness :
  accounted adm (grun any_header any_status false adm (Edge_new adm None) traffic)
  /\ eg_claims (grun any_header any_status false adm (Edge_new adm None) traffic)
     = [ClaimLocal "k1"].
Proof.
  split; [|vm_compute; reflexivity].
  exact (proj1 (edge_accounts any_header any_status false adm None traffic "acme" 1
    ltac:(vm_compute; discriminate) ltac:(lia)
    ltac:(repeat constructor; vm_compute; discriminate))).
Defined.

(** ** The wait *)

Definition full : Gate :=
  mkGate (Some (set_admission_slots {[ "a0" := mkAdmissionSlot 0 100000 ]} Leases_new)) ∅ ∅ None.

Definition slow (ms : Z) : Round := mkRound id 1 "a1" (from_millis ms).

Lemma acquire_terminates_witness :
  exists r, (acquire true cfg adm [slow 0; slow 10; slow 20; slow 25] 0 [] full).1 = Some r.
Proof.
  apply (acquire_terminates true adm cfg 1 25); [done|lia|done| |vm_compute; discriminate].
  repeat (split; [vm_compute; discriminate|]; split; [done|]). done.
Defined.

Example shed_after_timeout :
  (acquire true cfg adm [slow 0; slow 10; slow 20; slow 25] 0 [] full).1
  = Some (Err overloaded_response).
Proof. vm_compute. reflexivity. Qed.

(** ** Keys *)

Definition other : Principal := mkPrincipal (Some "corp") None RoleClient.

Lemma scoped_key_isolates_witness :
  scoped_key digest "k1" user "/v1/echo" <> scoped_key digest "k1" other "/v1/echo".
Proof.
  intros H. destruct (scoped_key_isolates digest "k1" user "/v1/echo" "k1" other "/v1/echo"
    eq_refl eq_refl eq_refl eq_refl eq_refl eq_refl H) as [(_ & Hs & _)|[_ Hd]].
  - vm_compute in Hs. discriminate.
  - vm_compute in Hd. discriminate.
Defined.

(** ** A request and its duplicate *)

Definition run (g : Gate) (calls : nat) :=
  handle digest print any_header any_status true echo cfg adm exec id arrival keyed user
    (JString "hello") g calls.

Definition scope : string * string :=
  default (EmptyString, EmptyString) (scope_for digest print echo keyed user (JString "hello")).

(** The first request executes, the second is answered from the store. *)
Example first_executes_second_replays :
  let '(a1, g1, n1) := run gate0 0 in
  let '(a2, g2, n2) := run g1 n1 in
  n1 = 1%nat /\ n2 = 1%nat
  /\ (fun a => (rs_status a.1, rs_body a.1)) <$> a1 = Some (200, BodyJson (JString "m"))
  /\ (fun a => (rs_status a.1, rs_body a.1)) <$> a2 = Some (200, BodyBytes "m").
Proof. vm_compute. by split_and!. Qed.

Definition entered : Entered :=
  match (enter digest print any_header any_status true echo cfg adm arrival keyed user
           (JString "hello") gate0).1 with
  | Some (Ok en) => en
  | _ => mkEntered None (mkHeld None None None) 0 (AiRequest_new "r" "m" []) None
  end.

Definition gate_entered : Gate :=
  (enter digest print any_header any_status true echo cfg adm arrival keyed user
     (JString "hello") gate0).2.

Definition store_entered : Leases := default Leases_new (g_store gate_entered).

Definition left :=
  leave print any_header any_status true echo cfg arrival entered 3 (OutCollected response "main")
    gate_entered.

Lemma entered_store : g_store gate_entered = Some store_entered.
Proof. vm_compute. reflexivity. Qed.

Lemma left_store s : g_store left.2 = Some s -> ls_reachable s = true.
Proof.
  assert (H : ls_reachable <$> g_store left.2 = Some true) by (vm_compute; reflexivity).
  intros Hs. rewrite Hs in H. by injection H as ->.
Qed.

Lemma duplicate_never_executes_witness :
  exists g3, run left.2 7
  = (Some (replay_response any_header any_status
             (own_record print echo arrival scope.1 scope.2 response), Delivered), g3, 7%nat).
Proof.
  pose proof (duplicate_never_executes digest print any_header any_status true echo cfg adm
    arrival entered scope.1 scope.2 3 response "main" gate_entered store_entered
    ltac:(vm_compute; reflexivity) eq_refl entered_store ltac:(vm_compute; reflexivity)) as H.
  fold left in H. pose proof left_store as Hl. destruct left as [[resp d] g1].
  destruct H as (s1 & rec & Hs1 & _ & Hown & Hnext).
  rewrite (Hown ltac:(vm_compute; reflexivity)) in Hnext.
  destruct (Hnext [] g1 arrival keyed user (JString "hello") scope.2 nat exec id 7%nat Hs1 (Hl s1 Hs1))
    as [g3 H3]; [vm_compute; reflexivity|].
  exists g3. etransitivity; [exact H3|]. rewrite str_eqb_refl. reflexivity.
Defined.

Lemma concurrent_duplicate_refused_witness :
  exists resp g', run gate_entered 7 = (Some (resp, Delivered), g', 7%nat)
  /\ (resp = in_progress_response \/ resp = mismatch_response
      \/ exists s rec, g_store gate_entered = Some s /\ ls_idempotency s !! scope.1 = Some rec
           /\ resp = replay_response any_header any_status rec).
Proof.
  apply (concurrent_duplicate_refused digest print any_header any_status true echo cfg adm exec id
    arrival keyed user (JString "hello") gate_entered 7%nat scope.1 scope.2);
    [vm_compute; reflexivity|].
  unfold claim_alive. rewrite entered_store. split; [vm_compute; reflexivity|].
  exists "lease1", 1005. split; [|vm_compute; reflexivity].
  exists (mkInflightRow scope.2 (Some "lease1") 5 1005). split_and!; vm_compute; reflexivity.
Defined.

Lemma request_attributed_witness :
  req_tenant (en_request entered) = Some "acme" /\ req_model (en_request entered) = "hello".
Proof.
  assert (He : enter digest print any_header any_status true echo cfg adm arrival keyed user
    (JString "hello") gate0 = (Some (Ok entered), gate_entered)) by (vm_compute; reflexivity).
  destruct (request_attributed digest print any_header any_status true echo cfg adm _ _ _ _ _ _ _ He)
    as (r & Hp & (_ & Hm & _) & Ht & _).
  split; [exact Ht|]. rewrite Hm. by injection Hp as <-.
Defined.

(** Without a store: the slots are those of the process. *)
Lemma handler_gives_back_witness :
  let '(answer, g', _) := run gate_local 0 in
  match answer with
  | None => True
  | Some (_, delivery) => same_local gate_local (close_stream delivery g').2
  end.
Proof.
  apply (handler_gives_back digest print any_header any_status true echo cfg adm exec id arrival keyed
    user (JString "hello") gate_local 0%nat).
  - split; repeat constructor.
  - by split.
  - intros t. vm_compute. discriminate.
Defined.

End GatewaySamples.
