(* ===== verification/NetTheorems.v ===== *)
(** * What the egress guard lets out

    The bit masks of the address check are ranges; parsed addresses are well formed;
    and the guard passes a URL exactly when the host it was written with is not
    local and no address it resolves to is private. Two hosts that reach the local
    machine and pass are at the end. *)

From Stdlib Require Import ZArith Lia Ascii.
From Stdlib Require String.
From stdpp Require Import base list strings numbers.
From S2P Require Import Prelude Text Lines Ir Profiles Access Net.

#[local] Open Scope Z_scope.

(** ** Ranges *)

Definition ip_wf (ip : IpAddr) : Prop :=
  match ip with
  | V4 a b c d => Forall (fun x => 0 <= x <= 255) [a; b; c; d]
  | V6 segments => length segments = 8%nat /\ Forall (fun x => 0 <= x <= 65535) segments
  end.

(** The ranges that are private or local, as the registries give them. *)
Definition private_range (ip : IpAddr) : Prop :=
  match ip with
  | V4 a b c d =>
      a = 10 \/ (a = 172 /\ 16 <= b <= 31) \/ (a = 192 /\ b = 168) \/ a = 127
      \/ (a = 169 /\ b = 254) \/ (a = 0 /\ b = 0 /\ c = 0 /\ d = 0)
  | V6 segments =>
      segments = repeat 0 7 ++ [1] \/ segments = repeat 0 8
      \/ 0xfc00 <= segment0 segments <= 0xfdff \/ 0xfe80 <= segment0 segments <= 0xfebf
  end.

(** Masking off the low bits rounds down. *)
Lemma land_high x k n :
  0 <= n -> 0 < k -> 0 <= x < 2 ^ (k + n) -> Z.land x (Z.shiftl (Z.ones k) n) = x / 2 ^ n * 2 ^ n.
Proof.
  intros Hn Hk Hx. rewrite <- Z.shiftl_mul_pow2, <- Z.shiftr_div_pow2 by lia.
  rewrite <- (Z.land_ones_low (Z.shiftr x n) k).
  - apply Z.bits_inj'. intros i Hi. rewrite Z.land_spec, !Z.shiftl_spec by lia.
    destruct (Z.ltb_spec i n).
    + by rewrite !(Z.testbit_neg_r _ (i - n)), andb_false_r by lia.
    + rewrite Z.land_spec, Z.shiftr_spec by lia. by replace (i - n + n) with i by lia.
  - rewrite Z.shiftr_div_pow2 by lia. apply Z.div_pos; lia.
  - rewrite Z.shiftr_div_pow2 by lia. rewrite Z.pow_add_r in Hx by lia.
    destruct (Z.eq_dec (x / 2 ^ n) 0) as [->|]; [simpl; lia|].
    apply Z.log2_lt_pow2; [pose proof (Z.div_pos x (2 ^ n)); lia|].
    apply Z.div_lt_upper_bound; lia.
Qed.

Lemma unique_local_mask x :
  0 <= x <= 65535 -> (Z.land x 65024 =? 64512) = (0xfc00 <=? x) && (x <=? 0xfdff).
Proof.
  intros Hx. change 65024 with (Z.shiftl (Z.ones 7) 9). rewrite land_high by (simpl; lia).
  change (2 ^ 9) with 512. apply eq_true_iff_eq. rewrite andb_true_iff, Z.eqb_eq, !Z.leb_le.
  pose proof (Z.div_mod x 512). pose proof (Z.mod_pos_bound x 512). lia.
Qed.

Lemma link_local_mask x :
  0 <= x <= 65535 -> (Z.land x 65472 =? 65152) = (0xfe80 <=? x) && (x <=? 0xfebf).
Proof.
  intros Hx. change 65472 with (Z.shiftl (Z.ones 10) 6). rewrite land_high by (simpl; lia).
  change (2 ^ 6) with 64. apply eq_true_iff_eq. rewrite andb_true_iff, Z.eqb_eq, !Z.leb_le.
  pose proof (Z.div_mod x 64). pose proof (Z.mod_pos_bound x 64). lia.
Qed.

(** The value of eight segments determines them. *)
Lemma v6_value_spec l : ip_wf (V6 l) -> forall n, 0 <= n <= 1 ->
  v6_value l = n <-> l = repeat 0 7 ++ [n].
Proof.
  intros [Hl Hf] n Hn. do 8 (destruct l as [|? l]; [done|]).
  destruct l; [|done]. repeat (apply Forall_cons_1 in Hf as [? Hf]).
  unfold v6_value. cbn [fold_left repeat app]. split; [intros|intros [= -> -> -> -> -> -> -> ->]; lia].
  repeat f_equal; lia.
Qed.

(** The address check is the table of private and local ranges: an
    address is blocked if and only if it is in 10/8, 172.16/12, 192.168/16, 127/8,
    169.254/16 or is 0.0.0.0, or is ::1, :: or in fc00::/7 or fe80::/10. *)
Theorem private_ip_ranges ip :
  ip_wf ip -> private_ip_reason ip <> None <-> private_range ip.
Proof.
  intros Hwf. unfold private_ip_reason. destruct ip as [a b c d|l].
  - unfold v4_is_private, v4_is_loopback, v4_is_link_local, v4_is_unspecified, private_range.
    destruct (_ || _) eqn:E;
      rewrite ?orb_true_iff, ?orb_false_iff, ?andb_true_iff, ?andb_false_iff in E; split; try done; lia.
  - assert (Hs : 0 <= segment0 l <= 65535).
    { destruct Hwf as [_ Hf]. destruct l as [|x l]; [unfold segment0; simpl; lia|].
      by apply Forall_cons_1 in Hf as [? _]. }
    rewrite unique_local_mask, link_local_mask by done. unfold private_range.
    change (repeat 0 8) with (repeat 0 7 ++ [0]).
    rewrite <- (v6_value_spec l Hwf 1), <- (v6_value_spec l Hwf 0) by lia.
    destruct (_ || _) eqn:E;
      rewrite ?orb_true_iff, ?orb_false_iff, ?andb_true_iff, ?andb_false_iff in E; split; try done; lia.
Qed.

(** ** Parsed addresses *)

(** A bound on each element of a list that is written out. *)
Ltac each := repeat (apply Forall_cons_2; [lia|]); apply Forall_nil_2.

Lemma digit_value_range radix c d : digit_value radix c = Some d -> 0 <= d < radix.
Proof.
  unfold digit_value. pose proof (byte_val_range c). repeat case_match; intros; simplify_eq; lia.
Qed.

Lemma read_digits_range radix max digits s : forall count value n v rest,
  0 <= radix -> 0 <= value <= max ->
  read_digits radix max digits count value s = Some (n, v, rest) -> 0 <= v <= max.
Proof.
  induction s as [|c s IH]; intros count value n v rest Hr Hv; cbn [read_digits]; [by intros [= <- <- <-]|].
  destruct (digit_value radix c) as [d|] eqn:Ed; [|by intros [= <- <- <-]].
  apply digit_value_range in Ed. destruct (Z.ltb_spec max (value * radix + d)); [done|].
  destruct (digits <? count + 1); [done|]. apply IH; [done|nia].
Qed.

Lemma read_number_range radix max digits zeros s v rest :
  0 <= radix -> 0 <= max -> read_number radix max digits zeros s = Some (v, rest) -> 0 <= v <= max.
Proof.
  intros Hr Hm. unfold read_number.
  destruct (read_digits radix max digits 0 0 s) as [[[n w] r]|] eqn:E; [|done].
  destruct (n =? 0); [done|]. destruct (_ && _); [done|]. intros [= <- <-].
  by eapply read_digits_range in E.
Qed.

Lemma read_octet_range i s v rest : read_octet i s = Some (v, rest) -> 0 <= v <= 255.
Proof.
  unfold read_octet, read_separator. destruct i; [|destruct (strip_prefix "." s); [|done]];
    by apply read_number_range.
Qed.

Lemma read_ipv4_wf s a b c d rest : read_ipv4_addr s = Some ((a, b, c, d), rest) -> ip_wf (V4 a b c d).
Proof.
  unfold read_ipv4_addr. intros H.
  destruct (read_octet 0 s) as [[a' s1]|] eqn:E1; [|done].
  destruct (read_octet 1 s1) as [[b' s2]|] eqn:E2; [|done].
  destruct (read_octet 2 s2) as [[c' s3]|] eqn:E3; [|done].
  destruct (read_octet 3 s3) as [[d' s4]|] eqn:E4; [|done]. simplify_eq.
  apply read_octet_range in E1, E2, E3, E4. each.
Qed.

Lemma read_group_range i s v rest :
  read_separator ":" i (read_number 16 65535 4 true) s = Some (v, rest) -> 0 <= v <= 65535.
Proof.
  unfold read_separator. destruct i; [|destruct (strip_prefix ":" s); [|done]];
    by apply read_number_range.
Qed.

Lemma read_groups_wf left : forall index s gs v4 rest,
  read_groups left index s = (gs, v4, rest) ->
  (length gs <= left)%nat /\ Forall (fun x => 0 <= x <= 65535) gs.
Proof.
  induction left as [|left IH]; intros index s gs v4 rest; cbn [read_groups]; [by intros [= <- <- <-]|].
  assert (Hg : forall s0, match read_separator ":" index (read_number 16 65535 4 true) s0 with
      | Some (g, s) => let '(gs, v4, s) := read_groups left (S index) s in (g :: gs, v4, s)
      | None => ([], false, s0)
      end = (gs, v4, rest) -> (length gs <= S left)%nat /\ Forall (fun x => 0 <= x <= 65535) gs).
  { intros s0. destruct (read_separator _ _ _ s0) as [[g s']|] eqn:E; [|intros [= <- <- <-]; simpl; split; [lia|constructor]].
    destruct (read_groups left (S index) s') as [[gs' v'] r'] eqn:Er. intros [= <- <- <-].
    destruct (IH _ _ _ _ _ Er) as [Hl Hf]. apply read_group_range in E. simpl. split; [lia|by constructor]. }
  destruct left as [|left']; [apply Hg|].
  destruct (read_separator ":" index read_ipv4_addr s) as [[[[[a b] c] d] s']|] eqn:E; [|apply Hg].
  intros [= <- <- <-]. simpl. split; [lia|].
  assert (Hw : ip_wf (V4 a b c d)).
  { unfold read_separator in E. destruct index; [|destruct (strip_prefix ":" s); [|done]];
      by apply read_ipv4_wf in E. }
  repeat (apply Forall_cons_1 in Hw as [? Hw]). each.
Qed.

(** The parser of addresses is well typed: whatever it accepts is four octets
    or exactly eight 16-bit segments, the gap of an abbreviated IPv6 address
    filled. *)
Theorem parse_ip_wf s ip : parse_ip s = Some ip -> ip_wf ip.
Proof.
  unfold parse_ip. destruct (read_ipv4_addr s) as [[[[[a b] c] d] r]|] eqn:E4.
  { destruct r; [|done]. intros [= <-]. by eapply read_ipv4_wf. }
  destruct (read_ipv6_addr s) as [[l r]|] eqn:E6; [|done]. destruct r; [|done]. intros [= <-].
  unfold read_ipv6_addr in E6. destruct (read_groups 8 0 s) as [[hd v4] s1] eqn:Eh.
  destruct (read_groups_wf _ _ _ _ _ _ Eh) as [Hl Hf].
  destruct (Nat.eqb_spec (length hd) 8); [by simplify_eq|]. destruct v4; [done|].
  destruct (strip_prefix "::" s1) as [s2|]; [|done].
  destruct (read_groups (7 - length hd) 0 s2) as [[tl v] s3] eqn:Et.
  destruct (read_groups_wf _ _ _ _ _ _ Et) as [Hl' Hf']. simplify_eq. split.
  - rewrite !length_app, repeat_length. lia.
  - rewrite !Forall_app. split_and!; try done. apply List.Forall_forall.
    intros x Hx%repeat_spec. lia.
Qed.

(** ** The guard *)

Section Guard.
Context (url_parse : string -> result ParsedUrl string) (fmt_ip : IpAddr -> string)
        (resolve : string -> Z -> result (list IpAddr) string).

Abbreviation guard := (guard_with url_parse fmt_ip resolve).

(** The addresses a client that is given the parsed URL connects to. *)
Definition connects (parsed : ParsedUrl) (ip : IpAddr) : Prop :=
  exists host, pu_host_str parsed = Some host
  /\ (parse_ip host = Some ip
      \/ (parse_ip host = None
          /\ exists addrs, resolve host (default 443 (pu_port_or_known_default parsed)) = Ok addrs
             /\ ip ∈ addrs)).

Lemma check_resolved_spec kind host addrs :
  check_resolved fmt_ip kind host addrs = Ok tt <-> Forall (fun ip => private_ip_reason ip = None) addrs.
Proof.
  induction addrs as [|ip addrs IH]; simpl; [by split; [constructor|]|].
  destruct (private_ip_reason ip) eqn:E; simpl.
  - split; [done|]. intros [? _]%Forall_cons_1. congruence.
  - rewrite IH. split; [by constructor|]. by intros [_ ?]%Forall_cons_1.
Qed.

Lemma guard_passes_spec url kind :
  guard url kind true = Ok tt <->
  private_url_reason url = None
  /\ exists parsed host, url_parse url = Ok parsed /\ pu_host_str parsed = Some host
     /\ (parse_ip host <> None
         \/ (parse_ip host = None
             /\ exists addrs, resolve host (default 443 (pu_port_or_known_default parsed)) = Ok addrs
                /\ Forall (fun ip => private_ip_reason ip = None) addrs)).
Proof.
  unfold guard_with, guard_literal_url. cbn [negb].
  destruct (private_url_reason url); [by split; [|intros [? _]]|].
  destruct (url_parse url) as [parsed|e]; [|by split; [|intros (_ & p & h & ? & _)]].
  destruct (pu_host_str parsed) as [host|] eqn:Eh; [|split; [done|]; intros (_ & p & h & ? & ? & _); congruence].
  cbn [try]. destruct (parse_ip host) as [ip|] eqn:Ei.
  { split; [|done]. intros _. split; [done|]. exists parsed, host. rewrite Ei. by split_and!; [..|left]. }
  destruct (resolve host _) as [addrs|e] eqn:Er.
  - rewrite check_resolved_spec. split.
    + intros Hf. split; [done|]. exists parsed, host. rewrite Ei, Er. split_and!; try done. right. eauto.
    + intros (_ & p & h & [= <-] & Hh & [Hn|(_ & l & Hl & Hf)]); simplify_eq; congruence.
  - split; [done|]. intros (_ & p & h & [= <-] & Hh & [Hn|(_ & l & Hl & Hf)]); simplify_eq; congruence.
Qed.

(** The guard keeps requests off private networks: a URL that passes with
    blocking on connects to no address in a private or local range, as long as
    the URL parser, where it finds an address, finds the one that is written in
    the URL. *)
Theorem guard_blocks_private url kind parsed ip :
  (forall host, url_parse url = Ok parsed -> pu_host_str parsed = Some host ->
     parse_ip host = Some ip ->
     exists written, host_from_url url = Some written
       /\ parse_ip (to_ascii_lowercase written) = Some ip) ->
  ip_wf ip -> guard url kind true = Ok tt -> url_parse url = Ok parsed -> connects parsed ip ->
  ~ private_range ip.
Proof.
  intros Hagree Hwf Hg Hp (host & Hh & Hc). rewrite <- (private_ip_ranges ip Hwf). intros Hpriv.
  apply Hpriv. clear Hpriv.
  apply guard_passes_spec in Hg as (Hu & p & h & Hp' & Hh' & Hres).
  rewrite Hp in Hp'. injection Hp' as <-. rewrite Hh in Hh'. injection Hh' as <-.
  destruct Hc as [Hlit|(Hn & addrs & Hr & Hin)].
  - destruct (Hagree host Hp Hh Hlit) as (written & Hw & Hip). unfold private_url_reason in Hu.
    rewrite Hw, Hip in Hu. destruct (_ || _); [done|]. by destruct (private_ip_reason ip).
  - destruct Hres as [?|(_ & l & Hl & Hf)]; [congruence|]. rewrite Hr in Hl. injection Hl as <-.
    exact (proj1 (List.Forall_forall _ _) Hf ip (proj1 (list_elem_of_In _ _) Hin)).
Qed.

(** A host that is written as a number and that the URL parser reads as an address is
    not checked again: the guard passes it although it is the local machine. *)
Lemma numeric_host_passes kind parsed :
  url_parse "http://2130706433/" = Ok parsed -> pu_host_str parsed = Some "127.0.0.1" ->
  guard "http://2130706433/" kind true = Ok tt
  /\ connects parsed (V4 127 0 0 1) /\ private_ip_reason (V4 127 0 0 1) <> None.
Proof.
  intros Hp Hh. split_and!; [|exists "127.0.0.1"; split; [done|left; reflexivity]|vm_compute; discriminate].
  apply guard_passes_spec. split; [vm_compute; reflexivity|]. exists parsed, "127.0.0.1".
  split_and!; try done. left. vm_compute. discriminate.
Qed.

End Guard.

(** An IPv4-mapped IPv6 address is not recognised as the private address it stands for. *)
Lemma mapped_loopback_passes :
  parse_ip "::ffff:127.0.0.1" = Some (V6 [0; 0; 0; 0; 0; 65535; 32512; 1])
  /\ private_ip_reason (V6 [0; 0; 0; 0; 0; 65535; 32512; 1]) = None
  /\ private_url_reason "http://[::ffff:127.0.0.1]:8080/" = None.
Proof. vm_compute. by split_and!. Qed.

(** ** Samples *)

Module NetSamples.

Definition parser (url : string) : result ParsedUrl string :=
  if str_eqb url "https://api.example.com/v1" then Ok (mkParsedUrl (Some "api.example.com") (Some 443))
  else Err "unknown".

Definition dns (host : string) (port : Z) : result (list IpAddr) string := Ok [V4 93 184 216 34].

Lemma private_ip_ranges_witness : private_ip_reason (V6 [64513; 0; 0; 0; 0; 0; 0; 1]) <> None.
Proof.
  apply (proj2 (private_ip_ranges (V6 [64513; 0; 0; 0; 0; 0; 0; 1])
    ltac:(split; [done|each]))).
  right. right. left. vm_compute. split; discriminate.
Defined.

Lemma parse_ip_wf_witness : ip_wf (V6 [65152; 0; 0; 0; 0; 0; 1; 2]).
Proof. apply (parse_ip_wf "fe80::1:2"). vm_compute. reflexivity. Defined.

Lemma guard_blocks_private_witness : ~ private_range (V4 93 184 216 34).
Proof.
  apply (guard_blocks_private parser (fun _ => EmptyString) dns "https://api.example.com/v1"
    ProviderUpstream (mkParsedUrl (Some "api.example.com") (Some 443))).
  - intros host _ [= <-] H. vm_compute in H. discriminate.
  - each.
  - vm_compute. reflexivity.
  - vm_compute. reflexivity.
  - exists "api.example.com". split; [done|]. right. split; [vm_compute; reflexivity|].
    exists [V4 93 184 216 34]. split; [done|]. by left.
Defined.

End NetSamples.
