(* ===== verification/ConfigCheck.v ===== *)
(** * Validation of a configuration

    [Config::semantic_problems] and the helpers it calls
    ([crates/sb-core/src/config.rs]). The function is one long body that pushes
    messages; every part of it that has a heading here is a definition, and
    [semantic_problems] appends what they push in the order of the body. A
    [BTreeSet] that is only inserted into and asked for membership is a [gset]. *)

From Stdlib Require Import ZArith Lia Ascii.
From Stdlib Require String.
From stdpp Require Import base list strings gmap.
From S2P Require Import Prelude Text Lines BTree Float Ir Config Target Routing Catalog Resolver.
From S2P Require Import Profiles Access Net ConfigSchema.

#[local] Open Scope Z_scope.
#[local] Open Scope switchback_scope.

(** ** Loops that push messages *)

Definition when (b : bool) (message : string) : list string := if b then [message] else [].

(** [for (i, x) in l.iter().enumerate()]. *)
Fixpoint each_from {A} (f : Z -> A -> list string) (i : Z) (l : list A) : list string :=
  match l with
  | [] => []
  | x :: l => f i x ++ each_from f (i + 1) l
  end.

Definition each {A} (f : Z -> A -> list string) (l : list A) : list string := each_from f 0 l.

(** The same loop with a set of the keys seen so far: the body is told whether
    inserting its key found it there. An element without a key is not inserted. *)
Fixpoint each_unique {A} (key : A -> option string) (f : Z -> bool -> A -> list string) (i : Z)
    (seen : gset string) (l : list A) : list string * gset string :=
  match l with
  | [] => ([], seen)
  | x :: l =>
      let '(dup, seen) := match key x with
        | Some k => (bool_decide (k ∈ seen), {[k]} ∪ seen)
        | None => (false, seen)
        end in
      let '(rest, seen) := each_unique key f (i + 1) seen l in
      (f i dup x ++ rest, seen)
  end.

(** [name[i]]. *)
Definition at_ (name : string) (i : Z) : string := name ^^ "[" ^^ fmt_int i ^^ "]".

(** A key that is not blank. *)
Definition filled_id (id : string) : option string := if trim_is_empty id then None else Some id.

(** The three cases of a unique identifier: blank, a duplicate, or new. *)
Definition id_problems (label id : string) (dup : bool) : list string :=
  if trim_is_empty id then [label ^^ " is empty"]
  else if dup then [label ^^ " duplicates `" ^^ id ^^ "`"] else [].

Definition blank_opt (v : option string) : bool :=
  match v with Some s => trim_is_empty s | None => false end.

Definition non_empty (v : option string) : bool :=
  match v with Some s => negb (trim_is_empty s) | None => false end.

(** ** References *)

Definition provider_has_account (p : ProviderConfig) (account_id : string) : bool :=
  match pc_accounts p with
  | [] => str_eqb account_id "default"
  | l => existsb (fun a => str_eqb (acc_id a) account_id) l
  end.

Definition profile_model_ref_resolves (model : string) (route_models : gset string)
    (combos : BTreeMap string ComboConfig) (provider_ids : gset string) : bool :=
  if bool_decide (model ∈ route_models) || opt_is_some (bt_get model combos) then true
  else match split_once "/" model with
  | None => false
  | Some (provider_id, model_id) =>
      negb (is_empty provider_id) && negb (is_empty model_id)
      && bool_decide (provider_id ∈ provider_ids)
  end.

(** A target of a route or of a combo. *)
Definition target_problems (label : string) (provider_ids : gset string) (target : string)
  : list string :=
  match split_once "/" target with
  | None => [label ^^ " `" ^^ target ^^ "` must be `provider/model`"]
  | Some (provider, model) =>
      if is_empty provider || is_empty model
      then [label ^^ " `" ^^ target ^^ "` must be `provider/model`"]
      else when (negb (bool_decide (provider ∈ provider_ids)))
             (label ^^ " `" ^^ target ^^ "` references unknown provider `" ^^ provider ^^ "`")
  end.

(** An account of a client profile or of a tenant. *)
Definition account_ref_problems (label : string) (providers : list ProviderConfig)
    (account_ref : string) : list string :=
  match split_once "/" account_ref with
  | None => [label ^^ " `" ^^ account_ref ^^ "` must be `provider/account`"]
  | Some (provider_id, account_id) =>
      if is_empty provider_id || is_empty account_id
      then [label ^^ " `" ^^ account_ref ^^ "` must be `provider/account`"]
      else match List.find (fun p => str_eqb (pc_id p) provider_id) providers with
      | None => [label ^^ " `" ^^ account_ref ^^ "` references unknown provider `"
                   ^^ provider_id ^^ "`"]
      | Some p =>
          when (negb (provider_has_account p account_id))
            (label ^^ " `" ^^ account_ref ^^ "` references unknown account `" ^^ account_id ^^ "`")
      end
  end.

Definition egress_known (egress_ids : gset string) (egress : string) : bool :=
  str_eqb egress "direct" || bool_decide (egress ∈ egress_ids).

Definition egress_ref_problems (label : string) (egress_ids : gset string) (egress : option string)
  : list string :=
  match egress with
  | Some e => when (negb (egress_known egress_ids e))
                (label ^^ " `" ^^ e ^^ "` does not match an egress id")
  | None => []
  end.

(** ** Identifiers *)

Definition provider_problems (l : list ProviderConfig) : list string * gset string :=
  each_unique (fun p => filled_id (pc_id p)) (fun i dup p =>
    id_problems (at_ "providers" i ^^ ".id") (pc_id p) dup
    ++ when (blank_opt (pc_model_hint p)) (at_ "providers" i ^^ ".model_hint is empty")) 0 ∅ l.

Definition cache_problems (c : ExecutionCacheConfig) : list string :=
  when (bool_decide (xc_ttl_seconds c = Some 0))
    "server.execution_cache.ttl_seconds must be positive or null".

Definition harness_problems (l : list HarnessDescriptor) : list string * gset string :=
  each_unique (fun h => filled_id (hn_name h)) (fun i dup h =>
    let at_i := at_ "harnesses" i in
    id_problems (at_i ^^ ".name") (hn_name h) dup
    ++ when (trim_is_empty (hn_version h)) (at_i ^^ ".version is empty")
    ++ when (trim_is_empty (hn_input_contract h)) (at_i ^^ ".input_contract is empty")
    ++ when (trim_is_empty (hn_output_contract h)) (at_i ^^ ".output_contract is empty")
    ++ each (fun tool_i tool =>
         when (trim_is_empty tool) (at_ (at_i ^^ ".required_tools") tool_i ^^ " is empty"))
         (hn_required_tools h)) 0 ∅ l.

Definition tenant_id_problems (l : list TenantConfig) : list string * gset string :=
  each_unique (fun t => filled_id (tn_id t)) (fun i dup t =>
    id_problems (at_ "tenants" i ^^ ".id") (tn_id t) dup) 0 ∅ l.

Definition egress_key (e : EgressConfig) : option string :=
  if trim_is_empty (eg_id e) || str_eqb (eg_id e) "direct" then None else Some (eg_id e).

Definition egress_id_problems (l : list EgressConfig) : list string * gset string :=
  each_unique egress_key (fun i dup e =>
    let label := at_ "egress" i ^^ ".id" in
    if trim_is_empty (eg_id e) then [label ^^ " is empty"]
    else if str_eqb (eg_id e) "direct" then [label ^^ " `direct` is reserved"]
    else when dup (label ^^ " duplicates `" ^^ eg_id e ^^ "`")) 0 ∅ l.

(** ** Server settings *)

Definition server_ref_problems (c : Config) (provider_ids egress_ids : gset string) : list string :=
  match sv_default_provider (cg_server c) with
  | Some p => when (negb (bool_decide (p ∈ provider_ids)))
                ("server.default_provider `" ^^ p ^^ "` does not match a provider id")
  | None => []
  end
  ++ egress_ref_problems "server.default_egress" egress_ids (sv_default_egress (cg_server c))
  ++ when (non_empty (cg_api_key c) && negb (list_empty (cg_api_keys c)))
       "server.api_key and api_keys cannot both be configured; use api_keys for multi-tenant auth".

Definition provider_urls (p : ProviderConfig) : list (string * string) :=
  match pc_kind p with
  | PkOpenaiCompatible base_url _ _ _ _ | PkAnthropic base_url _ _ _ | PkGemini base_url _ _
  | PkComfyUi base_url _ => [("base_url", base_url)]
  | PkFal base_url platform _ _ _ => [("base_url", base_url); ("platform_base_url", platform)]
  | PkVertex _ _ base_url _ _ | PkBedrock _ _ _ _ base_url
  | PkCodexNativeRelay base_url | PkClaudeCodeNativeRelay base_url =>
      match base_url with Some url => [("base_url", url)] | None => [] end
  | PkMock => []
  end.

Definition blocked (label url : string) : list string :=
  match private_url_reason url with
  | Some reason => [label ^^ " `" ^^ url ^^ "` is blocked: " ^^ reason]
  | None => []
  end.

Definition token_url (a : AccountConfig) : option string :=
  match acc_auth a with AuthOauth o => oa_token_url o | _ => None end.

Definition private_network_problems (c : Config) : list string :=
  if cg_block_private_networks c then
    each (fun i p =>
      flat_map (fun fu => blocked (at_ "providers" i ^^ "." ^^ fu.1) fu.2) (provider_urls p)
      ++ each (fun ai a =>
           match token_url a with
           | Some url => blocked (at_ (at_ "providers" i ^^ ".accounts") ai ^^ ".auth.token_url") url
           | None => []
           end) (pc_accounts p)) (cg_providers c)
    ++ each (fun i e =>
         match eg_kind e with
         | EgressProxy (Some url) _ => blocked (at_ "egress" i ^^ ".url") url
         | _ => []
         end) (cg_egress c)
  else [].

Definition budget_problems (caps : BTreeMap string f64) (provider_ids : gset string) : list string :=
  flat_map (fun kv =>
    let label := "server.budget.per_provider_usd `" ^^ kv.1 ^^ "`" in
    when (negb (bool_decide (kv.1 ∈ provider_ids))) (label ^^ " does not match a provider id")
    ++ when (negb (is_finite kv.2) || f_lt kv.2 f64_zero)
         (label ^^ " must be a finite non-negative number")) caps.

(** ** API keys *)

Definition count_true (l : list bool) : Z := Z.of_nat (length (List.filter id l)).

Definition api_key_problems (l : list ApiKeyConfig) (tenant_ids : gset string) : list string :=
  each (fun i k =>
    let label := at_ "api_keys" i in
    when (negb (count_true [non_empty (ak_key k); non_empty (ak_key_env k); non_empty (ak_key_hash k)]
                =? 1)) (label ^^ " must set exactly one of key, key_env, key_hash")
    ++ when (blank_opt (ak_key k)) (label ^^ ".key is empty")
    ++ when (blank_opt (ak_key_env k)) (label ^^ ".key_env is empty")
    ++ match ak_key_hash k with
       | Some hash => when (negb (opt_is_some (normalize_sha256_hash hash)))
                        (label ^^ ".key_hash must be sha256:<64 hex chars>")
       | None => []
       end
    ++ when (blank_opt (ak_prefix k)) (label ^^ ".prefix is empty")
    ++ if trim_is_empty (ak_tenant k) then [label ^^ ".tenant is empty"]
       else when (negb (bool_decide (ak_tenant k ∈ tenant_ids)))
              (label ^^ ".tenant `" ^^ ak_tenant k ^^ "` does not match a tenant id")) l.

Definition seen_before (key : option string) (seen : gset string) : bool * gset string :=
  match key with
  | Some k => (bool_decide (k ∈ seen), {[k]} ∪ seen)
  | None => (false, seen)
  end.

Definition key_hash (k : ApiKeyConfig) : option string := ak_key_hash k ≫= normalize_sha256_hash.

Fixpoint api_key_duplicates (i : Z) (values hashes envs : gset string) (l : list ApiKeyConfig)
  : list string :=
  match l with
  | [] => []
  | k :: l =>
      let label := at_ "api_keys" i in
      let '(dup_value, values) := seen_before (filled (ak_key k)) values in
      let '(dup_env, envs) := seen_before (filled (ak_key_env k)) envs in
      let '(dup_hash, hashes) := seen_before (key_hash k) hashes in
      when dup_value (label ^^ ".key duplicates a previous API key")
      ++ when dup_env (label ^^ ".key_env duplicates a previous API key env reference")
      ++ when dup_hash (label ^^ ".key_hash duplicates a previous API key hash")
      ++ api_key_duplicates (i + 1) values hashes envs l
  end.

(** ** Accounts *)

Fixpoint tildes_escaped (s : string) : bool :=
  match s with
  | EmptyString => true
  | String c s' =>
      if bool_decide (c = "~"%char) then
        match s' with
        | String d s'' => if bool_decide (d = "0"%char \/ d = "1"%char) then tildes_escaped s'' else false
        | EmptyString => false
        end
      else tildes_escaped s'
  end.

Definition is_nonempty_json_pointer (pointer : string) : bool :=
  if starts_with "/" pointer then tildes_escaped pointer else false.

Definition named_ref (field : string) (name : option string) : list (string * string) :=
  match name with
  | Some n => if trim_is_empty n then [] else [(field, n)]
  | None => []
  end.

Definition auth_vault_refs (auth : AuthConfig) : list (string * string) :=
  match auth with
  | AuthApiKey _ _ vault => named_ref "vault" vault
  | AuthOauth o =>
      named_ref "token_vault" (oa_token_vault o) ++ named_ref "refresh_vault" (oa_refresh_vault o)
      ++ named_ref "client_secret_vault" (oa_client_secret_vault o)
  | AuthCodexOauth _ token_vault _ _ | AuthClaudeCodeOauth _ token_vault _ _ =>
      named_ref "token_vault" token_vault
  | _ => []
  end.

Definition auth_problems (label : string) (auth : AuthConfig) : list string :=
  match auth with
  | AuthJsonToken token_file pointer =>
      when (trim_is_empty token_file) (label ^^ ".auth.token_file is empty")
      ++ when (negb (is_nonempty_json_pointer pointer))
           (label ^^ ".auth.access_token_pointer must be a non-empty valid JSON pointer")
  | AuthKimiCodeOauth (Some home) => when (trim_is_empty home) (label ^^ ".auth.home is empty")
  | _ => []
  end.

Definition account_problems (c : Config) (egress_ids : gset string) : list string :=
  each (fun pi p =>
    egress_ref_problems (at_ "providers" pi ^^ ".egress") egress_ids (pc_egress p)
    ++ (each_unique (fun a => filled_id (acc_id a)) (fun ai dup a =>
          let label := at_ (at_ "providers" pi ^^ ".accounts") ai in
          id_problems (label ^^ ".id") (acc_id a) dup
          ++ egress_ref_problems (label ^^ ".egress") egress_ids (acc_egress a)
          ++ match cg_vault c with
             | None =>
                 (fun fn : string * string =>
                    label ^^ ".auth." ^^ fn.1 ^^ " references vault secret `" ^^ fn.2
                    ^^ "` but no `vault:` is configured") <$> auth_vault_refs (acc_auth a)
             | Some _ => []
             end
          ++ auth_problems label (acc_auth a)) 0 ∅ (pc_accounts p)).1) (cg_providers c).

(** ** Routes, client profiles, combos *)

(** The models routes match, with the route that matched each last. *)
Fixpoint route_match_problems (ri : Z) (matched : gmap string Z) (l : list RouteConfig)
  : list string * gmap string Z :=
  match l with
  | [] => ([], matched)
  | route :: l =>
      let '(here, matched) := match rt_match_model route with
        | None => ([], matched)
        | Some model =>
            if trim_is_empty model then ([at_ "routes" ri ^^ ".match.model is empty"], matched)
            else (match matched !! model with
                  | Some previous =>
                      [at_ "routes" ri ^^ ".match.model `" ^^ model ^^ "` conflicts with "
                       ^^ at_ "routes" previous
                       ^^ "; route order must not decide which one wins"]
                  | None => []
                  end, <[model := ri]> matched)
        end in
      let '(rest, matched) := route_match_problems (ri + 1) matched l in
      (here ++ rest, matched)
  end.

Definition client_profile_problems (c : Config) (route_models provider_ids : gset string)
  : list string :=
  (each_unique (fun p => filled_id (cp_id p)) (fun ci dup p =>
    let label := at_ "client_profiles" ci in
    id_problems (label ^^ ".id") (cp_id p) dup
    ++ each (fun mi model =>
         let label := at_ (label ^^ ".models") mi in
         if trim_is_empty model then [label ^^ " is empty"]
         else when (negb (profile_model_ref_resolves model route_models (cg_combos c) provider_ids))
                (label ^^ " `" ^^ model
                 ^^ "` does not match a route, combo, or provider/model target")) (cp_models p)
    ++ when (match cp_mode p with NativeRelay => list_empty (cp_accounts p) | _ => false end)
         (label ^^ " `" ^^ cp_id p ^^ "` uses mode native_relay but does not pin any accounts")
    ++ each (fun ai r => account_ref_problems (at_ (label ^^ ".accounts") ai) (cg_providers c) r)
         (cp_accounts p)) 0 ∅ (cg_client_profiles c)).1.

Definition route_problems (l : list RouteConfig) (provider_ids : gset string)
  : list string * gset string :=
  each_unique (fun r => filled_id (rt_name r)) (fun ri dup r =>
    let label := at_ "routes" ri in
    id_problems (label ^^ ".name") (rt_name r) dup
    ++ when (list_empty (rt_targets r)) (label ^^ ".targets must not be empty")
    ++ each (fun ti t => target_problems (at_ (label ^^ ".targets") ti) provider_ids t)
         (rt_targets r)) 0 ∅ l.

Definition combo_problems (combos : BTreeMap string ComboConfig) (exact_models provider_ids : gset string)
  : list string :=
  flat_map (fun kv =>
    let label := "combos[" ^^ kv.1 ^^ "]" in
    when (trim_is_empty kv.1) "combos contains an empty name"
    ++ when (contains "/" kv.1)
         (label ^^ ".name must not contain `/` (reserved for provider/model ids)")
    ++ when (opt_is_some (from_model kv.1))
         (label ^^ " conflicts with a built-in execution profile")
    ++ when (bool_decide (kv.1 ∈ exact_models)) (label ^^ " conflicts with an exact route match")
    ++ when (list_empty (combo_models kv.2)) (label ^^ ".models must not be empty")
    ++ each (fun mi t => target_problems (at_ (label ^^ ".models") mi) provider_ids t)
         (combo_models kv.2)) combos.

(** ** Tenants *)

Definition route_ref_known (route_names : gset string) (combos : BTreeMap string ComboConfig)
    (route : string) : bool :=
  bool_decide (route ∈ route_names) || opt_is_some (bt_get route combos) || str_eqb route "direct"
  || starts_with "combo/" route || starts_with "default:" route.

Definition tenant_problems (c : Config) (route_names provider_ids : gset string) : list string :=
  each (fun ti t =>
    let label := at_ "tenants" ti in
    each (fun ri route =>
      let label := at_ (label ^^ ".allowed_routes") ri in
      if trim_is_empty route then [label ^^ " is empty"]
      else when (negb (route_ref_known route_names (cg_combos c) route))
             (label ^^ " `" ^^ route ^^ "` does not match a route/combo name")) (tn_allowed_routes t)
    ++ each (fun pi p =>
         let label := at_ (label ^^ ".allowed_providers") pi in
         if trim_is_empty p then [label ^^ " is empty"]
         else when (negb (bool_decide (p ∈ provider_ids)))
                (label ^^ " `" ^^ p ^^ "` does not match a provider id")) (tn_allowed_providers t)
    ++ each (fun ai r => account_ref_problems (at_ (label ^^ ".allowed_accounts") ai)
                           (cg_providers c) r) (tn_allowed_accounts t)) (cg_tenants c).

(** ** Plugins and local executors *)

Definition plugin_problems (l : list PluginConfig) (egress_ids : gset string) : list string :=
  each (fun i p =>
    let label := at_ "plugins" i in
    match p with
    | PluginEgressPin egress _ => egress_ref_problems (label ^^ ".egress") egress_ids (Some egress)
    | PluginWasm path _ timeout_ms fuel =>
        when (trim_is_empty path) (label ^^ ".path must not be empty")
        ++ when (timeout_ms =? 0) (label ^^ ".timeout_ms must be greater than 0")
        ++ when (fuel =? 0) (label ^^ ".fuel must be greater than 0")
    | PluginModelBlocklist _ | PluginRequestTag _ => []
    end) l.

Definition local_executor_problems (l : list LocalExecutorConfig) (provider_ids : gset string)
  : list string :=
  (each_unique (fun e => filled_id (le_name e)) (fun i dup e =>
    let label := at_ "local_executors" i in
    (if trim_is_empty (le_name e) then [label ^^ ".name is empty"]
     else if dup then [label ^^ ".name duplicates `" ^^ le_name e ^^ "`"]
     else when (negb (bool_decide (le_name e ∈ provider_ids)))
            (label ^^ ".name `" ^^ le_name e ^^ "` does not match a provider id"))
    ++ when (trim_is_empty (le_base_url e)) (label ^^ ".base_url is empty")
    ++ when (trim_is_empty (le_health_endpoint e)) (label ^^ ".health_endpoint is empty")
    ++ when (le_boot_timeout_secs e =? 0) (label ^^ ".boot_timeout_secs must be greater than 0")
    ++ when (le_wake_retry_interval_secs e =? 0)
         (label ^^ ".wake_retry_interval_secs must be greater than 0")
    ++ when (le_idle_timeout_secs e =? 0) (label ^^ ".idle_timeout_secs must be greater than 0")
    ++ when (le_health_poll_interval_ms e =? 0)
         (label ^^ ".health_poll_interval_ms must be greater than 0")) 0 ∅ l).1.

(** ** Scorecard and quality evaluation *)

Definition in_unit_open (x : f64) : bool := is_finite x && f_lt f64_zero x && f_le x f64_one.

Definition scorecard_problems (sc : ScorecardConfig) : list string :=
  let d := sc_demotion sc in
  when (window_max_samples (sc_window sc) <? 1) "server.scorecard.window.max_samples must be >= 1"
  ++ when (window_ttl_secs (sc_window sc) =? 0) "server.scorecard.window.ttl_secs must be > 0"
  ++ when (persist_flush_secs (sc_persist sc) =? 0) "server.scorecard.persist.flush_secs must be > 0"
  ++ when (persist_stale_hydrate_secs (sc_persist sc) =? 0)
       "server.scorecard.persist.stale_hydrate_secs must be > 0"
  ++ when (negb (is_finite (demote_success_rate d) && is_finite (recover_success_rate d)
                 && f_lt f64_zero (demote_success_rate d)
                 && f_lt (demote_success_rate d) (recover_success_rate d)
                 && f_le (recover_success_rate d) f64_one))
       "server.scorecard.demotion.{demote_success_rate,recover_success_rate} must be finite and satisfy 0 < demote_success_rate < recover_success_rate <= 1"
  ++ when (negb (in_unit_open (trunc_demote_rate d)))
       "server.scorecard.demotion.trunc_demote_rate must be finite and in (0, 1]"
  ++ when (fast_demote_streak d <? 1) "server.scorecard.demotion.fast_demote_streak must be >= 1"
  ++ when (fast_recover_streak d <? 1) "server.scorecard.demotion.fast_recover_streak must be >= 1"
  ++ when (negb (is_finite (prior_config_weight (sc_prior sc)))
           || f_lt (prior_config_weight (sc_prior sc)) f64_one)
       "server.scorecard.prior.weight must be finite and >= 1"
  ++ when (negb (in_unit_open (prior_default_success_rate (sc_prior sc))))
       "server.scorecard.prior.default_success_rate must be finite and in (0, 1]"
  ++ when (negb (is_finite (sc_score_weight sc))
           || negb (f_le f64_zero (sc_score_weight sc) && f_le (sc_score_weight sc) f64_one))
       "server.scorecard.score_weight must be finite and in [0, 1]".

Definition quality_number_problems (qe : QualityEvalConfig) : list string :=
  when (qe_max_judgments_per_24h qe =? 0)
    "server.quality_eval.max_judgments_per_24h must be greater than 0"
  ++ when (qe_max_cost_micros_per_24h qe =? 0)
       "server.quality_eval.max_cost_micros_per_24h must be greater than 0"
  ++ when ((qe_min_input_chars qe =? 0) || (qe_max_input_bytes qe <? qe_min_input_chars qe))
       "server.quality_eval.min_input_chars must be in 1..=max_input_bytes"
  ++ when ((qe_min_output_chars qe =? 0) || (qe_max_output_bytes qe <? qe_min_output_chars qe))
       "server.quality_eval.min_output_chars must be in 1..=max_output_bytes"
  ++ when (qe_capture_slots qe =? 0) "server.quality_eval.capture_slots must be greater than 0"
  ++ when (qe_queue_capacity qe =? 0) "server.quality_eval.queue_capacity must be greater than 0"
  ++ when (qe_judge_timeout_ms qe =? 0) "server.quality_eval.judge_timeout_ms must be greater than 0"
  ++ when (qe_judge_max_output_tokens qe =? 0)
       "server.quality_eval.judge_max_output_tokens must be greater than 0"
  ++ when (qe_failure_backoff_after qe =? 0)
       "server.quality_eval.failure_backoff_after must be greater than 0"
  ++ when (qe_failure_backoff_secs qe =? 0)
       "server.quality_eval.failure_backoff_secs must be greater than 0"
  ++ when (negb (in_unit_open (qe_ewma_alpha qe)))
       "server.quality_eval.ewma_alpha must be finite and in (0, 1]"
  ++ when (qe_routing_min_samples qe =? 0)
       "server.quality_eval.routing_min_samples must be greater than 0"
  ++ when ((qe_routing_full_confidence_samples qe =? 0)
           || (qe_routing_full_confidence_samples qe <? qe_routing_min_samples qe))
       "server.quality_eval.routing_full_confidence_samples must be >= routing_min_samples"
  ++ when (negb (is_finite (qe_routing_weight qe))
           || negb (f_le f64_zero (qe_routing_weight qe) && f_le (qe_routing_weight qe) (f64_lit 1 10)))
       "server.quality_eval.routing_weight must be finite and in [0, 0.10]".

(** The targets the judge's route may resolve to. *)
Definition judge_candidates (c : Config) (judge_route : string) : option (list string) :=
  let e := engine_config c in
  match exact_route_for e judge_route with
  | Some r => Some (rt_targets r)
  | None => match wildcard_route e with
    | Some r => Some (rt_targets r)
    | None => combo_models <$> combo_for e judge_route
    end
  end.

Definition body_target_problems (c : Config) (qe : QualityEvalConfig) (i : Z) (dup : bool)
    (target : string) : list string :=
  let label := at_ "server.quality_eval.body_allowed_targets" i in
  if trim_is_empty target then [label ^^ " must not be empty"]
  else
    when dup (label ^^ " duplicates `" ^^ target ^^ "`")
    ++ when (negb (str_eqb (qe_judge_route qe) target && opt_is_some (split_once "/" target))
             && negb (match judge_candidates c (qe_judge_route qe) with
                      | Some candidates => existsb (str_eqb target) candidates
                      | None => false
                      end))
         (label ^^ " `" ^^ target ^^ "` is not a candidate of judge_route `"
          ^^ qe_judge_route qe ^^ "`").

Definition quality_eval_problems (c : Config) : list string :=
  let qe := sv_quality_eval (cg_server c) in
  if qe_enabled qe then
    quality_number_problems qe
    ++ when (negb (sc_enabled (sv_scorecard (cg_server c))))
         "server.quality_eval requires server.scorecard.enabled: true"
    ++ when (negb (opt_is_some (cg_state_store c)))
         "server.quality_eval requires server.state_store"
    ++ when (trim_is_empty (qe_judge_route qe)) "server.quality_eval.judge_route must not be empty"
    ++ when (list_empty (qe_body_allowed_targets qe))
         "server.quality_eval.body_allowed_targets must not be empty"
    ++ (each_unique filled_id (body_target_problems c qe) 0 ∅ (qe_body_allowed_targets qe)).1
  else [].

(** ** The whole check *)

Definition semantic_problems (c : Config) : list string :=
  let '(providers, provider_ids) := provider_problems (cg_providers c) in
  let '(harnesses, _) := harness_problems (cg_harnesses c) in
  let '(tenants, tenant_ids) := tenant_id_problems (cg_tenants c) in
  let '(egress, egress_ids) := egress_id_problems (cg_egress c) in
  let '(matches, matched) := route_match_problems 0 ∅ (cg_routes c) in
  let route_models := dom matched in
  let exact_models := route_models ∖ {["*"]} in
  let '(routes, route_names) := route_problems (cg_routes c) provider_ids in
  providers ++ cache_problems (cg_execution_cache c) ++ harnesses ++ tenants ++ egress
  ++ server_ref_problems c provider_ids egress_ids
  ++ private_network_problems c
  ++ budget_problems (per_provider_usd (sv_budget (cg_server c))) provider_ids
  ++ api_key_problems (cg_api_keys c) tenant_ids
  ++ api_key_duplicates 0 ∅ ∅ ∅ (cg_api_keys c)
  ++ account_problems c egress_ids
  ++ matches
  ++ client_profile_problems c route_models provider_ids
  ++ routes
  ++ combo_problems (cg_combos c) exact_models provider_ids
  ++ tenant_problems c route_names provider_ids
  ++ plugin_problems (cg_plugins c) egress_ids
  ++ local_executor_problems (cg_local_executors c) provider_ids
  ++ scorecard_problems (sv_scorecard (cg_server c))
  ++ quality_eval_problems c.

(** ** Inline secrets *)

Definition url_has_credentials (url : string) : bool :=
  match split_once "://" url with
  | None => false
  | Some (_, rest) => contains "@" (before_any ["/"; "?"; "#"]%char rest)
  end.

Definition provider_kind_has_inline_secret_material (k : ProviderKind) : bool :=
  match k with
  | PkMock | PkComfyUi _ _ | PkBedrock _ _ _ _ _ | PkCodexNativeRelay _
  | PkClaudeCodeNativeRelay _ => false
  | PkOpenaiCompatible _ _ api_key _ _ | PkAnthropic _ _ api_key _ | PkGemini _ _ api_key
  | PkVertex _ _ _ _ api_key | PkFal _ _ _ api_key _ => non_empty api_key
  end.

Definition auth_has_inline_secret_material (a : AuthConfig) : bool :=
  match a with
  | AuthNone | AuthCodexOauth _ _ _ _ | AuthClaudeCodeOauth _ _ _ _ | AuthKimiCodeOauth _
  | AuthJsonToken _ _ | AuthServiceAccount _ _ _ => false
  | AuthApiKey _ inline _ => non_empty inline
  | AuthOauth o => non_empty (oa_token o) || non_empty (oa_refresh o) || non_empty (oa_client_secret o)
  | AuthAwsSigV4 _ access_key _ secret_key _ session_token =>
      non_empty access_key || non_empty secret_key || non_empty session_token
  end.

Definition provider_has_inline_secret_material (p : ProviderConfig) : bool :=
  provider_kind_has_inline_secret_material (pc_kind p)
  || existsb (fun a => auth_has_inline_secret_material (acc_auth a)) (pc_accounts p).

Definition egress_has_inline_secret_material (e : EgressConfig) : bool :=
  match eg_kind e with EgressProxy (Some url) _ => url_has_credentials url | _ => false end.

Definition has_inline_secret_material (c : Config) : bool :=
  non_empty (cg_api_key c)
  || existsb (fun k => non_empty (ak_key k)) (cg_api_keys c)
  || existsb provider_has_inline_secret_material (cg_providers c)
  || existsb egress_has_inline_secret_material (cg_egress c).
