(* ===== verification/Adapters.v ===== *)
(** * The adapter registry

    [crates/sb-adapters/src/registry.rs], [egress.rs] and [latency.rs]: the providers
    that can execute a request, with the capabilities routing sees, prices, latency
    averages and outbound paths. Of an adapter the registry reads its capabilities.
    HTTP clients are not modelled: whether one can be built for a proxy URL
    ([client_ok]), the parameters of the network guard, the process environment and
    the parsed content of the cost map are parameters. *)

From Stdlib Require Import ZArith Lia SpecFloat.
From stdpp Require Import base list strings gmap.
From S2P Require Import Prelude Text Lines BTree Float Ir Config Target Catalog Ledger Resolver Profiles.
From S2P Require Import Access Net ConfigSchema ConfigCheck Routing ConfigTheorems.

#[local] Open Scope Z_scope.
#[local] Open Scope switchback_scope.

(** [f64::round]: to the nearest integer, halves away from zero. *)
Definition f64_round (x : f64) : f64 :=
  match x with
  | S754_finite s m e =>
      if 0 <=? e then x
      else
        let d := 2 ^ (- e) in
        binary_normalize 53 1024 (cond_Zopp s ((2 * Zpos m + d) / (2 * d))) 0 s
  | _ => x
  end.

(** ** Latency *)

Definition ALPHA : f64 := f64_lit 3 10.

Record LatencyTracker := mkLatencyTracker {
  lt_ewma_ms : gmap string f64;
  lt_ttft_ms : gmap string f64
}.

Definition LatencyTracker_new : LatencyTracker := mkLatencyTracker ∅ ∅.

Definition pair_key (provider_id model : string) : string := provider_id ^^ "/" ^^ model.

Definition fold_sample (m : gmap string f64) (provider_id model : string) (sample : f64)
  : gmap string f64 :=
  let key := pair_key provider_id model in
  let entry := default sample (m !! key) in
  <[key := f64_add (f64_mul ALPHA sample) (f64_mul (f64_sub f64_one ALPHA) entry)]> m.

Definition read_sample (m : gmap string f64) (provider_id model : string) : option f64 :=
  m !! pair_key provider_id model.

Definition record_latency (t : LatencyTracker) (provider_id model : string) (ms : f64)
  : LatencyTracker :=
  mkLatencyTracker (fold_sample (lt_ewma_ms t) provider_id model ms) (lt_ttft_ms t).

Definition record_ttft (t : LatencyTracker) (provider_id model : string) (ms : f64)
  : LatencyTracker :=
  mkLatencyTracker (lt_ewma_ms t) (fold_sample (lt_ttft_ms t) provider_id model ms).

Definition get_latency (t : LatencyTracker) (provider_id model : string) : option f64 :=
  read_sample (lt_ewma_ms t) provider_id model.

Definition get_ttft (t : LatencyTracker) (provider_id model : string) : option f64 :=
  read_sample (lt_ttft_ms t) provider_id model.

(** ** Outbound paths *)

Record EgressPath := mkEgressPath {
  ep_id : string;
  ep_proxy : option string;
  ep_user_agent : option string;
  ep_headers : BTreeMap string string
}.

Definition DIRECT : string := "direct".

Definition auth_headers : list string :=
  ["authorization"; "proxy-authorization"; "x-api-key"; "x-goog-api-key"; "api-key"; "cookie"].

Definition is_auth_header (name : string) : bool :=
  existsb (str_eqb (to_ascii_lowercase name)) auth_headers.

(** [apply_identity]: the headers added to a request, in order. *)
Definition apply_identity (p : EgressPath) : list (string * string) :=
  match ep_user_agent p with Some ua => [("user-agent", ua)] | None => [] end
  ++ List.filter (fun h => negb (is_auth_header h.1)) (ep_headers p).

Record EgressPool := mkEgressPool {
  pool_paths : gmap string EgressPath;
  pool_enabled : bool
}.

Section Pool.
Context (env_var : string -> option string) (client_ok : option string -> result unit string).
Context (url_parse : string -> result ParsedUrl string)
        (to_socket_addrs : string -> Z -> result (list IpAddr) string) (fmt_ip : IpAddr -> string).

Definition resolve_url (url url_env : option string) : option string :=
  match url_env ≫= env_var with Some v => Some v | None => url end.

Definition proxy_of (c : Config) (e : EgressConfig) : result (option string) string :=
  match eg_kind e with
  | EgressDirect => Ok None
  | EgressProxy url url_env =>
      match resolve_url url url_env with
      | None => Err ("egress `" ^^ eg_id e ^^ "`: proxy needs `url` or `url_env`")
      | Some resolved =>
          if cg_block_private_networks c then
            match guard_url_blocking url_parse to_socket_addrs fmt_ip resolved Proxy true with
            | Ok _ => Ok (Some resolved)
            | Err m => Err ("egress `" ^^ eg_id e ^^ "`: " ^^ guard_error_text m)
            end
          else Ok (Some resolved)
      end
  end.

Fixpoint build_paths (c : Config) (paths : gmap string EgressPath) (l : list EgressConfig)
  : result (gmap string EgressPath) string :=
  match l with
  | [] => Ok paths
  | e :: l =>
      if negb (eg_enabled e) then build_paths c paths l
      else
        let? proxy := proxy_of c e in
        match client_ok proxy with
        | Err m => Err ("egress `" ^^ eg_id e ^^ "`: " ^^ m)
        | Ok _ =>
            build_paths c (<[eg_id e := mkEgressPath (eg_id e) proxy (eg_user_agent e) (eg_headers e)]>
                             paths) l
        end
  end.

Definition EgressPool_from_config (c : Config) : result EgressPool string :=
  let? _ := client_ok None in
  let paths := {[DIRECT := mkEgressPath DIRECT None None []]} in
  let? paths := if cg_egress_enabled c then build_paths c paths (cg_egress c) else Ok paths in
  Ok (mkEgressPool paths (cg_egress_enabled c)).

End Pool.

(** [path]; the [expect] on the direct path is the [default], which is never taken. *)
Definition pool_path (p : EgressPool) (egress_id : option string) : EgressPath :=
  match (if pool_enabled p then egress_id ≫= fun id => pool_paths p !! id else None) with
  | Some path => path
  | None => default (mkEgressPath DIRECT None None []) (pool_paths p !! DIRECT)
  end.

Definition effective (p : EgressPool) (egress_id : option string) : string :=
  ep_id (pool_path p egress_id).

(** ** Prices *)

Record CostEntry := mkCostEntry {
  ce_cost : option CostProfile;
  ce_unit_price : option UnitPrice;
  ce_tags : list string
}.

Record CostMapProvider := mkCostMapProvider { cmp_id : string; cmp_aggregator : bool }.

Record CostMapEntry := mkCostMapEntry {
  cme_provider_id : string;
  cme_model_id : string;
  cme_input_micros_per_mtok : option Z;
  cme_output_micros_per_mtok : option Z;
  cme_pricing_unit : PricingUnit;
  cme_unit_price_micros : option Z;
  cme_effective_to : option string
}.

Record CostMapHost := mkCostMapHost {
  cmh_provider_id : string;
  cmh_input_micros_per_mtok : option Z;
  cmh_output_micros_per_mtok : option Z;
  cmh_note : option string
}.

Record CostMapSpread := mkCostMapSpread { cms_model : string; cms_hosts : list CostMapHost }.

Record CostMapFile := mkCostMapFile {
  cmf_schema : option string;
  cmf_providers : list CostMapProvider;
  cmf_models : list CostMapEntry;
  cmf_spread : list CostMapSpread
}.

Definition policy_tags (input output : Z) (promo aggregator : bool) : list string :=
  (if (input =? 0) && (output =? 0) then ["free"] else [])
  ++ (if promo then ["promo"] else []) ++ (if aggregator then ["aggregator"] else []).

Definition to_usd (micros : Z) : f64 := f64_div (f64_of_Z micros) (f64_of_Z 1000000).

Definition priced_entry (input output : Z) (promo aggregator : bool) : CostEntry :=
  mkCostEntry (Some (mkCostProfile (to_usd input) (to_usd output))) None
    (policy_tags input output promo aggregator).

Section CostMap.
(** [{:?}] of a pricing unit, and Unicode [to_lowercase]. *)
Context (debug_unit : PricingUnit -> string) (to_lowercase : string -> string) (path : string).

Definition aggregator_of (f : CostMapFile) (provider_id : string) : bool :=
  existsb (fun p => cmp_aggregator p && str_eqb (cmp_id p) provider_id) (cmf_providers f).

Definition index_model (f : CostMapFile) (index : gmap string CostEntry) (e : CostMapEntry)
  : result (gmap string CostEntry) string :=
  let key := pair_key (cme_provider_id e) (cme_model_id e) in
  let promo := opt_is_some (cme_effective_to e) in
  let aggregator := aggregator_of f (cme_provider_id e) in
  match cme_input_micros_per_mtok e, cme_output_micros_per_mtok e with
  | Some input, Some output => Ok (<[key := priced_entry input output promo aggregator]> index)
  | _, _ =>
      if bool_decide (cme_pricing_unit e = TokenMetered) then Ok index
      else match cme_unit_price_micros e with
      | None => Err ("cost_map `" ^^ path ^^ "` row " ^^ cme_provider_id e ^^ "/" ^^ cme_model_id e
                     ^^ " uses " ^^ debug_unit (cme_pricing_unit e) ^^ " without unit_price_micros")
      | Some micros =>
          Ok (<[key := mkCostEntry None (Some (mkUnitPrice (cme_pricing_unit e) micros))
                         (policy_tags micros micros promo aggregator)]> index)
      end
  end.

Fixpoint index_models (f : CostMapFile) (index : gmap string CostEntry) (l : list CostMapEntry)
  : result (gmap string CostEntry) string :=
  match l with
  | [] => Ok index
  | e :: l => let? index := index_model f index e in index_models f index l
  end.

(** A host of the spread only fills a gap. *)
Definition index_host (f : CostMapFile) (model : string) (index : gmap string CostEntry)
    (h : CostMapHost) : gmap string CostEntry :=
  match cmh_input_micros_per_mtok h, cmh_output_micros_per_mtok h with
  | Some input, Some output =>
      let key := pair_key (cmh_provider_id h) model in
      let promo := match cmh_note h with
        | Some n => contains "promo" (to_lowercase n) | None => false end in
      match index !! key with
      | Some _ => index
      | None => <[key := priced_entry input output promo (aggregator_of f (cmh_provider_id h))]> index
      end
  | _, _ => index
  end.

Definition known_schema (schema : option string) : bool :=
  match schema with
  | None => true
  | Some s => str_eqb s "switchback/provider-registry@2" || str_eqb s "switchback/provider-registry@3"
  end.

Definition load_cost_index (f : CostMapFile) : result (gmap string CostEntry) string :=
  if negb (known_schema (cmf_schema f)) then
    Err ("unsupported cost_map schema `" ^^ default EmptyString (cmf_schema f) ^^ "` in `" ^^ path
         ^^ "`; expected switchback/provider-registry@2 or @3")
  else
    let? index := index_models f ∅ (cmf_models f) in
    Ok (fold_left (fun index s => fold_left (index_host f (cms_model s)) (cms_hosts s) index)
          (cmf_spread f) index).

End CostMap.

(** ** Providers *)

Definition api_kind_of (kind : ProviderKind) : ApiKind :=
  match kind with
  | PkMock | PkComfyUi _ _ | PkFal _ _ _ _ _ => Mock
  | PkOpenaiCompatible _ _ _ _ _ | PkCodexNativeRelay _ => OpenAiCompatible
  | PkAnthropic _ _ _ _ | PkBedrock _ _ _ _ _ | PkClaudeCodeNativeRelay _ => Anthropic
  | PkGemini _ _ _ | PkVertex _ _ _ _ _ => Gemini
  end.

Definition set_vision (caps : CapabilityProfile) : CapabilityProfile :=
  mkCapabilityProfile (cap_text_in caps) (cap_text_out caps) true (cap_vision_sources caps)
    (cap_streaming caps) (cap_tool_calling caps) (cap_parallel_tool_calls caps)
    (cap_server_tools caps) (cap_server_tool_protocols caps) (cap_audio_in caps) (cap_file_in caps)
    (cap_image_out caps) (cap_reasoning_summary caps) (cap_json_schema caps)
    (cap_max_context_tokens caps) (cap_max_output_tokens caps).

(** Server tools with the protocols pushed, image output and reasoning summaries. *)
Definition set_server_tools (protocols : list ServerToolProtocol) (image_out : bool)
    (caps : CapabilityProfile) : CapabilityProfile :=
  mkCapabilityProfile (cap_text_in caps) (cap_text_out caps) (cap_vision_in caps)
    (cap_vision_sources caps) (cap_streaming caps) (cap_tool_calling caps)
    (cap_parallel_tool_calls caps) true (cap_server_tool_protocols caps ++ protocols)
    (cap_audio_in caps) (cap_file_in caps) (image_out || cap_image_out caps) true
    (cap_json_schema caps) (cap_max_context_tokens caps) (cap_max_output_tokens caps).

(** The capabilities computed for a provider, overrides last. *)
Definition provider_capabilities (p : ProviderConfig) : CapabilityProfile :=
  let caps := default_capabilities (api_kind_of (pc_kind p)) in
  let caps := match pc_kind p with
    | PkCodexNativeRelay _ | PkClaudeCodeNativeRelay _ => set_vision caps
    | _ => caps
    end in
  let caps := match pc_kind p with
    | PkCodexNativeRelay _ => set_server_tools [OpenAiResponses; Ir.Anthropic] true caps
    | PkAnthropic _ _ _ _ | PkClaudeCodeNativeRelay _ => set_server_tools [Ir.Anthropic] false caps
    | _ => caps
    end in
  apply_to (pc_capabilities p) caps.

(** [MockAdapter::capabilities]. *)
Definition mock_capabilities : CapabilityProfile :=
  mkCapabilityProfile true true true [] true true true false [] false false false false true None None.

(** The parts of an adapter that are chosen by the provider's kind. *)
Inductive WireCodec :=
| OpenAiCodec
| OpenAiResponsesCodec (id : string)
| AnthropicCodec
| GeminiCodec
| VertexCodec (project region : string)
| BedrockCodec
| ClaudeCodeNativeRelayCodec.

Inductive RequestSigner :=
| SchemeSigner (scheme : AuthScheme)
| CodexNativeSigner
| SigV4Signer (region service : string).

Inductive Transport := HttpTransport | EventStreamTransport.

(** The pool of outbound clients, which all adapters share, is the registry's. *)
Record ComposedAdapter := mkComposedAdapter {
  ca_codec : WireCodec;
  ca_signer : RequestSigner;
  ca_transport : Transport;
  ca_base_url : string;
  ca_capabilities : CapabilityProfile;
  ca_block_private_networks : bool
}.

Definition with_scheme (codec : WireCodec) (auth : AuthScheme) (base_url : string)
    (capabilities : CapabilityProfile) (block_private_networks : bool) : ComposedAdapter :=
  mkComposedAdapter codec (SchemeSigner auth) HttpTransport base_url capabilities
    block_private_networks.

Inductive ProviderAdapter := MockAdapter | Composed (adapter : ComposedAdapter).

Definition adapter_capabilities (a : ProviderAdapter) : CapabilityProfile :=
  match a with MockAdapter => mock_capabilities | Composed a => ca_capabilities a end.

Record ProviderEntry := mkProviderEntry {
  pen_adapter : ProviderAdapter;
  pen_kind : ExecutionTargetKind
}.

(** [None] for a provider that is skipped: media executors are not adapters. *)
Definition provider_entry (block : bool) (p : ProviderConfig) : option ProviderEntry :=
  let caps := provider_capabilities p in
  let composed a := Some (mkProviderEntry (Composed a) ModelApi) in
  match pc_kind p with
  | PkMock => Some (mkProviderEntry MockAdapter ModelApi)
  | PkComfyUi _ _ | PkFal _ _ _ _ _ => None
  | PkOpenaiCompatible base_url _ _ auth_scheme wire =>
      let codec := match wire with
        | WireChat => OpenAiCodec
        | WireResponses => OpenAiResponsesCodec "openai_responses"
        end in
      Some (mkProviderEntry
        (Composed (with_scheme codec (default SchemeBearer auth_scheme) base_url caps block))
        OpenAiCompatibleApi)
  | PkAnthropic base_url _ _ auth_scheme =>
      composed (with_scheme AnthropicCodec (default (SchemeHeader "x-api-key") auth_scheme) base_url
                  caps block)
  | PkGemini base_url _ _ =>
      composed (with_scheme GeminiCodec (SchemeHeader "x-goog-api-key") base_url caps block)
  | PkVertex project region base_url _ _ =>
      let base := default ("https://" ^^ region ^^ "-aiplatform.googleapis.com") base_url in
      composed (with_scheme (VertexCodec project region) SchemeBearer base caps block)
  | PkBedrock region _ _ _ base_url =>
      let base := default ("https://bedrock-runtime." ^^ region ^^ ".amazonaws.com") base_url in
      composed (mkComposedAdapter BedrockCodec (SigV4Signer region "bedrock") EventStreamTransport
                  base caps block)
  | PkCodexNativeRelay base_url =>
      let base := default "https://chatgpt.com/backend-api/codex" base_url in
      composed (mkComposedAdapter (OpenAiResponsesCodec "codex_native_relay") CodexNativeSigner
                  HttpTransport base caps block)
  | PkClaudeCodeNativeRelay base_url =>
      let base := default "https://api.anthropic.com" base_url in
      composed (with_scheme ClaudeCodeNativeRelayCodec SchemeBearer base caps block)
  end.

Record AdapterRegistry := mkAdapterRegistry {
  ar_providers : gmap string ProviderEntry;
  ar_order : list string;
  ar_catalog : Catalog;
  ar_egress : EgressPool;
  ar_cost_index : gmap string CostEntry
}.

Definition empty_catalog : Catalog := mkCatalog [] [] [] [] [].

Fixpoint register (block : bool) (providers : gmap string ProviderEntry) (order : list string)
    (l : list ProviderConfig) : result (gmap string ProviderEntry * list string) string :=
  match l with
  | [] => Ok (providers, order)
  | p :: l =>
      match providers !! pc_id p with
      | Some _ => Err ("duplicate provider id " ^^ pc_id p)
      | None =>
          match provider_entry block p with
          | None => register block providers order l
          | Some e => register block (<[pc_id p := e]> providers) (order ++ [pc_id p]) l
          end
      end
  end.

(** [from_config], given how the egress pool and the cost index come out. *)
Definition AdapterRegistry_from_config (pool : result EgressPool string)
    (load : string -> result (gmap string CostEntry) string) (c : Config)
  : result AdapterRegistry string :=
  let? egress := pool in
  let? cost_index := match cg_cost_map c with Some path => load path | None => Ok ∅ end in
  let? registered := register (cg_block_private_networks c) ∅ [] (cg_providers c) in
  Ok (mkAdapterRegistry registered.1 registered.2 (default empty_catalog (cg_catalog c)) egress
        cost_index).

(** ** Queries *)

Definition cost_entry (r : AdapterRegistry) (provider_id model : string) : option CostEntry :=
  ar_cost_index r !! pair_key provider_id model.

Definition map_cost (cost : CostProfile) (u : Usage) : Z :=
  let input := f64_mul (f64_of_Z (wrap64 (input_tokens u + cached_input_tokens u)))
                 (input_per_mtok cost) in
  let output := f64_mul (f64_of_Z (wrap64 (output_tokens u + reasoning_tokens u)))
                  (output_per_mtok cost) in
  f_to_uint u64_max (f_max (f64_round (f64_add input output)) f64_zero).

Definition registry_price (r : AdapterRegistry) (model : string) (kind : TokenKind) : option Z :=
  unit_price_micros_per_mtok <$> current_price (ar_catalog r) model kind.

Definition per_kind (r : AdapterRegistry) (model : string) (kind : TokenKind) (tokens : Z) : Z :=
  match registry_price r model kind with
  | Some p => sat_mul u64_max p tokens / 1000000
  | None => 0
  end.

Definition cost_micros (r : AdapterRegistry) (provider_id model : string) (u : Usage) : Z :=
  match cost_entry r provider_id model ≫= ce_cost with
  | Some cost => map_cost cost u
  | None =>
      sat_add u64_max (sat_add u64_max (sat_add u64_max
        (per_kind r model Input (input_tokens u)) (per_kind r model Output (output_tokens u)))
        (per_kind r model CachedInput (cached_input_tokens u)))
        (per_kind r model ReasoningTokens (reasoning_tokens u))
  end.

Definition cache_savings_micros (r : AdapterRegistry) (provider_id model : string) (u : Usage) : Z :=
  match cost_entry r provider_id model ≫= ce_cost with
  | Some _ => 0
  | None =>
      let cached := cached_input_tokens u in
      if cached =? 0 then 0
      else match registry_price r model Input, registry_price r model CachedInput with
      | Some input, Some cached_rate =>
          if cached_rate <? input
          then sat_mul u64_max (sat_sub input cached_rate) cached / 1000000 else 0
      | _, _ => 0
      end
  end.

Definition cost_profile (r : AdapterRegistry) (provider_id model : string) : option CostProfile :=
  match cost_entry r provider_id model with
  | Some entry => ce_cost entry
  | None =>
      if existsb (fun m => str_eqb (model_provider_id m) provider_id && str_eqb (model_id m) model)
           (cat_models (ar_catalog r))
      then
        input ← registry_price r model Input;
        output ← registry_price r model Output;
        Some (mkCostProfile (to_usd input) (to_usd output))
      else None
  end.

Definition unit_price (r : AdapterRegistry) (provider_id model : string) : option UnitPrice :=
  cost_entry r provider_id model ≫= ce_unit_price.

Definition target_for_provider_model (r : AdapterRegistry) (lat : LatencyTracker)
    (provider_id model : string) : option ExecutionTarget :=
  entry ← ar_providers r !! provider_id;
  let catalog_model := List.find (fun m => str_eqb (model_id m) model
                                           && str_eqb (model_provider_id m) provider_id)
                         (cat_models (ar_catalog r)) in
  Some (mkExecutionTarget (pair_key provider_id model) (pen_kind entry) provider_id model
    (match catalog_model with Some m => capability_profile m | None => adapter_capabilities (pen_adapter entry) end)
    (cost_entry r provider_id model ≫= ce_cost)
    (get_latency lat provider_id model) (get_ttft lat provider_id model)
    (match cost_entry r provider_id model with Some e => ce_tags e | None => [] end)
    (match catalog_model with Some m => model_tags m | None => [] end)
    Healthy None false None None).

Definition target_for (r : AdapterRegistry) (lat : LatencyTracker) (target_id : string)
  : option ExecutionTarget :=
  '(provider_id, model) ← split_once "/" target_id;
  target_for_provider_model r lat provider_id model.

(** The registry as the runtime sees it, at one reading of the latencies. *)
Definition runtime_registry (r : AdapterRegistry) (lat : LatencyTracker) : Registry :=
  mkRegistry (fun id => opt_is_some (ar_providers r !! id)) (target_for r lat)
    (target_for_provider_model r lat) (cost_micros r) (cache_savings_micros r)
    (effective (ar_egress r)).

(** ** What the adapter registry answers

    The registry built from a validated configuration knows every target the
    configuration names, media executors apart; the outbound path it reports is the
    one that is used; and its fallback prices are the ledger's. *)

#[local] Open Scope Z_scope.

(** ** Registration *)

Definition find_provider (l : list ProviderConfig) (id : string) : option ProviderConfig :=
  List.find (fun p => str_eqb (pc_id p) id) l.

Lemma register_spec block l : forall providers order,
  NoDup (pc_id <$> l) -> (forall p, p ∈ l -> providers !! pc_id p = None) ->
  exists m o, register block providers order l = Ok (m, o)
    /\ forall id, m !! id = match find_provider l id with
                            | Some p => provider_entry block p
                            | None => providers !! id
                            end.
Proof.
  induction l as [|p l IH]; intros providers order Hn Hfresh; simpl.
  { by eexists _, _. }
  apply NoDup_cons in Hn as [Hp Hn]. rewrite Hfresh by set_solver.
  assert (Hne : forall q, q ∈ l -> pc_id q <> pc_id p).
  { intros q Hq E. apply Hp. rewrite <- E. by apply list_elem_of_fmap_2. }
  assert (Hnone : find_provider l (pc_id p) = None) by (by apply find_none_ids).
  destruct (provider_entry block p) as [e|] eqn:Ee.
  - destruct (IH (<[pc_id p := e]> providers) (order ++ [pc_id p]) Hn) as (m & o & -> & Hm).
    { intros q Hq. rewrite lookup_insert_ne by (by apply not_eq_sym, Hne). apply Hfresh. set_solver. }
    eexists _, _. split; [done|]. intros id. rewrite Hm. unfold find_provider at 2. simpl.
    fold (find_provider l id). destruct (str_eqb (pc_id p) id) eqn:E.
    + apply str_eqb_eq in E as <-. by rewrite Hnone, lookup_insert_eq.
    + destruct (find_provider l id); [done|]. rewrite lookup_insert_ne; [done|].
      intros He. apply str_eqb_eq in He. congruence.
  - destruct (IH providers order Hn) as (m & o & -> & Hm).
    { intros q Hq. apply Hfresh. set_solver. }
    eexists _, _. split; [done|]. intros id. rewrite Hm. unfold find_provider at 2. simpl.
    fold (find_provider l id). destruct (str_eqb (pc_id p) id) eqn:E; [|done].
    apply str_eqb_eq in E as <-. rewrite Hnone. rewrite Hfresh by set_solver. by rewrite Ee.
Qed.

(** What the registry of a configuration keeps of a provider. *)
Definition entry_of (c : Config) (p : ProviderConfig) : option ProviderEntry :=
  provider_entry (cg_block_private_networks c) p.

(** The registry of a configuration with distinct provider ids. *)
Lemma from_config_spec pool load c r :
  NoDup (provider_ids c) -> AdapterRegistry_from_config pool load c = Ok r ->
  forall id, ar_providers r !! id = find_provider (cg_providers c) id ≫= entry_of c.
Proof.
  intros Hn. unfold AdapterRegistry_from_config. destruct pool as [eg|]; [|done]. simpl.
  destruct (match cg_cost_map c with Some path => load path | None => Ok ∅ end) as [ix|]; [|done].
  simpl. destruct (register_spec (cg_block_private_networks c) (cg_providers c) ∅ [] Hn) as (m & o & -> & Hm);
    [intros; apply lookup_empty|].
  simpl. intros [= <-] id. simpl. rewrite Hm. by destruct (find_provider _ _).
Qed.

Lemma from_config_ok pool load c egress index :
  NoDup (provider_ids c) -> pool = Ok egress ->
  match cg_cost_map c with Some path => load path | None => Ok ∅ end = Ok index ->
  exists r, AdapterRegistry_from_config pool load c = Ok r.
Proof.
  intros Hn -> Hl. unfold AdapterRegistry_from_config. simpl. rewrite Hl. simpl.
  destruct (register_spec (cg_block_private_networks c) (cg_providers c) ∅ [] Hn) as (m & o & -> & _);
    [intros; apply lookup_empty|]. by eexists.
Qed.

(** ** Resolution in a validated configuration *)

(** The target's provider executes media workloads, so it has no adapter. *)
Definition media_target (c : Config) (t : string) : Prop :=
  exists p m prov, split_once "/" t = Some (p, m) /\ prov ∈ cg_providers c /\ pc_id prov = p
    /\ entry_of c prov = None.

Definition declared (c : Config) (t : ExecutionTarget) : Prop := t_provider_id t ∈ provider_ids c.

Record resolved_ok (c : Config) (res : CandidateResolution) : Prop := {
  ro_unknown : forall t, t ∈ cr_unknown res -> media_target c t;
  ro_candidates : cr_unknown res = [] -> cr_candidates res <> [];
  ro_declared : Forall (declared c) (cr_candidates res)
}.

Section Resolution.
Context (c : Config) (r : AdapterRegistry) (lat : LatencyTracker).
Context (Hok : config_ok c).
Context (Hr : forall id, ar_providers r !! id = find_provider (cg_providers c) id ≫= entry_of c).

Lemma target_provider p m t : target_for_provider_model r lat p m = Some t -> declared c t.
Proof.
  unfold target_for_provider_model, declared. rewrite Hr.
  destruct (find_provider (cg_providers c) p) as [prov|] eqn:E; [|done]. simpl.
  destruct (entry_of c prov); [|done]. simpl. intros [= <-]. simpl.
  apply List.find_some in E as [Hin He]. apply str_eqb_eq in He as <-.
  apply list_elem_of_fmap_2. by rewrite list_elem_of_In.
Qed.

Lemma target_declared id t : target_for r lat id = Some t -> declared c t.
Proof.
  unfold target_for. destruct (split_once "/" id) as [[p m]|]; [|done]. simpl. apply target_provider.
Qed.

Lemma unresolved_media id : target_ok c id -> target_for r lat id = None -> media_target c id.
Proof.
  intros (p & m & Hs & _ & _ & Hp). unfold target_for. rewrite Hs. simpl.
  unfold target_for_provider_model. rewrite Hr.
  destruct (find_provider (cg_providers c) p) as [prov|] eqn:E.
  - simpl. destruct (entry_of c prov) eqn:Ep; [done|]. intros _. exists p, m, prov.
    apply (find_unique pc_id) in E as [Hin Hid]; [done|apply (ok_providers c Hok)].
  - apply find_none_ids in E. done.
Qed.

Lemma lookup_ok name require l profile combo :
  targets_ok c l ->
  let '(known, unknown) := lookup_targets (runtime_registry r lat) l in
  resolved_ok c (mkCandidateResolution name require known unknown profile combo).
Proof.
  intros [Hne Hl]. simpl. split; simpl.
  - intros t Ht. rewrite list_elem_of_In, filter_In, negb_true_iff, <- list_elem_of_In in Ht.
    destruct Ht as [Hin Ht]. apply unresolved_media.
    + rewrite list.Forall_forall in Hl. by apply Hl.
    + by destruct (target_for r lat t).
  - intros Hu. destruct l as [|t l]; [done|]. simpl in *.
    destruct (target_for r lat t); [done|]. by simpl in Hu.
  - apply list.Forall_forall. intros t (id & _ & Ht)%list_elem_of_omap. by eapply target_declared.
Qed.

Lemma route_targets l P route :
  Forall (fun x => targets_ok c (rt_targets x)) l -> List.find P l = Some route ->
  targets_ok c (rt_targets route).
Proof.
  intros Hl [Hin _]%List.find_some. rewrite List.Forall_forall in Hl. by apply Hl.
Qed.

Lemma combo_targets model combo :
  bt_get model (cg_combos c) = Some combo -> targets_ok c (combo_models combo).
Proof.
  intros Hg. pose proof (ok_combos c Hok) as Hc. induction (cg_combos c) as [|[k v] l IH]; [done|].
  simpl in Hg. apply Forall_cons_1 in Hc as [Hk Hc]. case_match; [|done|by apply IH].
  simplify_eq. apply (co_targets _ _ _ Hk).
Qed.

End Resolution.

(** In a validated configuration routing never meets a target it does not
    know: the candidates of every model belong to declared providers, the only
    names left without a target are those of media executors, which have no
    adapter, and there is a candidate if there are none of those. A model is
    refused (404) only if no route matches it and there is no catch-all. *)
Lemma validated_resolution c pool load r lat revision knobs model :
  semantic_problems c = [] -> AdapterRegistry_from_config pool load c = Ok r ->
  match match_candidates (mkSnapshot revision (engine_config c) (runtime_registry r lat) knobs) model with
  | Ok res => resolved_ok c res
  | Err e => xe_status e = 404 /\ exact_route_for (engine_config c) model = None
             /\ wildcard_route (engine_config c) = None
  end.
Proof.
  intros Hs Hr. apply no_problems_ok in Hs as Hok.
  pose proof (from_config_spec pool load c r (proj2 (ok_providers c Hok)) Hr) as Hp.
  pose proof (proj2 (ok_routes c Hok)) as Hroutes.
  assert (Hroute : forall P route name profile combo, List.find P (cg_routes c) = Some route ->
    resolved_ok c (let '(known, unknown) := lookup_targets (runtime_registry r lat) (rt_targets route) in
                   mkCandidateResolution name (rt_require route) known unknown profile combo)).
  { intros P route name profile combo Hf. apply (lookup_ok c r lat Hok Hp).
    by eapply route_targets. }
  assert (Hone : forall name require t profile combo, declared c t ->
    resolved_ok c (mkCandidateResolution name require [t] [] profile combo)).
  { intros name require t profile combo Ht. split; simpl; [set_solver|done|by constructor]. }
  unfold match_candidates, exact_route_for, wildcard_route, combo_for. cbn [sn_config sn_registry
    engine_config cf_routes cf_combos cf_server].
  destruct (from_model model) as [profile|].
  - destruct (List.find _ (cg_routes c)) as [route|] eqn:E1; [by apply (Hroute _ _ _ _ _ E1)|].
    destruct (List.find (fun x => bool_decide (rt_match_model x = Some "*")) _) as [route|] eqn:E2;
      [by apply (Hroute _ _ _ _ _ E2)|done].
  - destruct (List.find _ (cg_routes c)) as [route|] eqn:E1; [by apply (Hroute _ _ _ _ _ E1)|].
    destruct (bt_get model (cg_combos c)) as [combo|] eqn:E2.
    { apply (lookup_ok c r lat Hok Hp). by eapply combo_targets. }
    destruct (reg_target_for (runtime_registry r lat) model) as [t|] eqn:E3.
    { apply Hone. exact (target_declared c r lat Hp _ _ E3). }
    destruct (List.find (fun x => bool_decide (rt_match_model x = Some "*")) _) as [route|] eqn:E4;
      [by apply (Hroute _ _ _ _ _ E4)|].
    destruct (sv_default_provider (cg_server c)) as [p|]; [|done].
    destruct (reg_target_for_provider_model (runtime_registry r lat) p model) as [t|] eqn:E5; [|done].
    apply Hone. apply (target_provider c r lat Hp p model) in E5. by destruct t.
Qed.

(** ** Outbound paths *)

Section Paths.
Context (env_var : string -> option string) (client_ok : option string -> result unit string).
Context (url_parse : string -> result ParsedUrl string)
        (to_socket_addrs : string -> Z -> result (list IpAddr) string) (fmt_ip : IpAddr -> string).

Definition guarded (c : Config) (path : EgressPath) : Prop :=
  forall url, ep_proxy path = Some url -> cg_block_private_networks c = true ->
  guard_url_blocking url_parse to_socket_addrs fmt_ip url Proxy true = Ok tt.

Definition enabled_path (l : list EgressConfig) (id : string) : Prop :=
  exists e, e ∈ l /\ eg_enabled e = true /\ eg_id e = id.

Lemma enabled_cons e l k :
  enabled_path (e :: l) k <-> (eg_enabled e = true /\ eg_id e = k) \/ enabled_path l k.
Proof.
  unfold enabled_path. split.
  - intros (x & [->|Hx]%elem_of_cons & ? & ?); [by left|]. right. eauto.
  - intros [[? ?]|(x & ? & ? & ?)]; [exists e|exists x]; split_and!; try done; by constructor.
Qed.

Lemma proxy_guarded c e proxy :
  proxy_of env_var url_parse to_socket_addrs fmt_ip c e = Ok proxy ->
  guarded c (mkEgressPath (eg_id e) proxy (eg_user_agent e) (eg_headers e)).
Proof.
  unfold proxy_of, guarded. simpl. destruct (eg_kind e) as [|url env]; [intros [= <-]; done|].
  destruct (resolve_url env_var url env) as [u|]; [|done].
  destruct (cg_block_private_networks c); [|done].
  destruct (guard_url_blocking url_parse to_socket_addrs fmt_ip u Proxy true) as [[]|] eqn:E; [|done].
  by intros [= <-] ? [= <-].
Qed.

Lemma build_paths_spec c l : forall paths paths',
  build_paths env_var client_ok url_parse to_socket_addrs fmt_ip c paths l = Ok paths' ->
  (forall k p, paths !! k = Some p -> ep_id p = k /\ guarded c p) ->
  (forall k p, paths' !! k = Some p -> ep_id p = k /\ guarded c p)
  /\ (forall k, is_Some (paths' !! k) <-> is_Some (paths !! k) \/ enabled_path l k).
Proof.
  induction l as [|e l IH]; intros paths paths'; cbn [build_paths].
  { intros [= <-] Hp. split; [done|]. intros k. split; [by left|]. intros [?|(e & He & _)]; [done|by apply elem_of_nil in He]. }
  destruct (eg_enabled e) eqn:Ee; cbn [negb].
  - destruct (proxy_of _ _ _ _ c e) as [proxy|] eqn:Eq; [|done]. cbn [try].
    destruct (client_ok proxy); [|done]. intros Hb Hp.
    destruct (IH _ _ Hb) as [Hi Hd].
    { intros k p. rewrite lookup_insert. case_decide as Hk; [|apply Hp].
      intros [= <-]. split; [done|]. by apply proxy_guarded. }
    split; [done|]. intros k. rewrite Hd, lookup_insert_is_Some', enabled_cons.
    intuition congruence.
  - intros Hb Hp. destruct (IH _ _ Hb Hp) as [Hi Hd]. split; [done|]. intros k. rewrite Hd, enabled_cons.
    intuition congruence.
Qed.

(** The outbound path a request leaves by is the one that is
    reported: the named path if egress is switched on and a path of that name is
    declared and enabled, and [direct] otherwise; and with private networks
    blocked no path goes through a proxy that the network guard did not pass. *)
Theorem egress_honest c pool egress :
  EgressPool_from_config env_var client_ok url_parse to_socket_addrs fmt_ip c = Ok pool ->
  effective pool egress
  = match egress with
    | Some id =>
        if cg_egress_enabled c
           && existsb (fun e => eg_enabled e && str_eqb (eg_id e) id) (cg_egress c)
        then id else DIRECT
    | None => DIRECT
    end
  /\ forall url, ep_proxy (pool_path pool egress) = Some url -> cg_block_private_networks c = true ->
     guard_url_blocking url_parse to_socket_addrs fmt_ip url Proxy true = Ok tt.
Proof.
  unfold EgressPool_from_config. destruct (client_ok None); [|done]. cbn [try].
  set (direct := mkEgressPath DIRECT None None []).
  assert (Hd : forall k p, ({[DIRECT := direct]} : gmap string EgressPath) !! k = Some p ->
                ep_id p = k /\ guarded c p).
  { intros k p [<- <-]%lookup_singleton_Some. by split. }
  destruct (if cg_egress_enabled c then _ else _) as [paths|] eqn:Eb; [|done]. cbn [try].
  intros [= <-].
  assert (Hp : (forall k p, paths !! k = Some p -> ep_id p = k /\ guarded c p)
    /\ (forall k, is_Some (paths !! k)
         <-> k = DIRECT \/ (cg_egress_enabled c = true /\ enabled_path (cg_egress c) k))).
  { destruct (cg_egress_enabled c).
    - destruct (build_paths_spec _ _ _ _ Eb Hd) as [Hi Hs]. split; [done|]. intros k. rewrite Hs.
      rewrite lookup_singleton_is_Some. naive_solver.
    - injection Eb as <-. split; [done|]. intros k. rewrite lookup_singleton_is_Some. naive_solver. }
  destruct Hp as [Hi Hs].
  destruct (proj2 (Hs DIRECT) (or_introl eq_refl)) as [dp Hdp].
  destruct (Hi _ _ Hdp) as [Hdid Hdg].
  assert (Hon : forall id, cg_egress_enabled c
      && existsb (fun e => eg_enabled e && str_eqb (eg_id e) id) (cg_egress c) = true
      <-> cg_egress_enabled c = true /\ enabled_path (cg_egress c) id).
  { intros id. rewrite andb_true_iff, List.existsb_exists. unfold enabled_path.
    setoid_rewrite andb_true_iff. setoid_rewrite str_eqb_eq. setoid_rewrite list_elem_of_In. done. }
  unfold effective, pool_path. cbn [pool_enabled pool_paths]. rewrite Hdp. cbn [default from_option id].
  destruct egress as [id|]; [|by destruct (cg_egress_enabled c)]. cbn [mbind option_bind].
  specialize (Hon id). destruct (cg_egress_enabled c && _) eqn:E.
  - destruct (proj1 Hon eq_refl) as [Hen Hpath]. rewrite Hen.
    destruct (proj2 (Hs id) (or_intror (conj Hen Hpath))) as [path Hpath'].
    rewrite Hpath'. exact (Hi _ _ Hpath').
  - destruct (cg_egress_enabled c) eqn:Hen; [|done].
    destruct (paths !! id) as [path|] eqn:Hpath; [|done].
    destruct (proj1 (Hs id) ltac:(eauto)) as [->|Hbad].
    + rewrite Hdp in Hpath. by simplify_eq.
    + by apply Hon in Hbad.
Qed.

End Paths.

(** ** Prices *)

(** Without a price in the cost map, the registry bills and saves as the ledger does. *)
Lemma catalog_prices_agree r provider_id model u :
  cost_entry r provider_id model ≫= ce_cost = None ->
  cost_micros r provider_id model u = compute_cost_micros (ar_catalog r) model u
  /\ cache_savings_micros r provider_id model u = compute_cache_savings_micros (ar_catalog r) model u.
Proof. intros H. unfold cost_micros, cache_savings_micros. by rewrite H. Qed.

(** A host of the spread never changes a price that is already there. *)
Lemma index_host_keeps lower f model index h k e :
  index !! k = Some e -> index_host lower f model index h !! k = Some e.
Proof.
  intros Hk. unfold index_host. destruct (cmh_input_micros_per_mtok h), (cmh_output_micros_per_mtok h);
    try done. cbv zeta. destruct (index !! pair_key _ _) eqn:E; [done|].
  rewrite lookup_insert_ne; [done|]. congruence.
Qed.

(** ** Concrete registries *)

Module AdapterSamples.
Import ConfigSamples.

Definition no_proxy (proxy : option string) : result unit string :=
  match proxy with Some _ => Err "no proxies here" | None => Ok tt end.

Definition pool_of (c : Config) : result EgressPool string :=
  EgressPool_from_config (fun _ => None) no_proxy (fun _ => Err "unused")
    (fun _ _ => Err "unused") (fun _ => EmptyString) c.

Definition sample_pool : EgressPool := mkEgressPool {[DIRECT := mkEgressPath DIRECT None None []]} true.

Lemma egress_honest_witness : effective sample_pool (Some "missing") = DIRECT.
Proof.
  exact (proj1 (egress_honest (fun _ => None) no_proxy (fun _ => Err "unused")
    (fun _ _ => Err "unused") (fun _ => EmptyString) (sample "https://api.example") sample_pool
    (Some "missing") ltac:(vm_compute; reflexivity))).
Defined.

Definition sample_registry : AdapterRegistry :=
  match AdapterRegistry_from_config (pool_of (sample "https://api.example")) (fun _ => Err "unused")
          (sample "https://api.example") with
  | Ok r => r
  | Err _ => mkAdapterRegistry ∅ [] empty_catalog sample_pool ∅
  end.

Lemma validated_resolution_witness :
  exists res, match_candidates (mkSnapshot 1 (engine_config (sample "https://api.example"))
    (runtime_registry sample_registry LatencyTracker_new)
    (Runtime_from_config (engine_config (sample "https://api.example")))) "chat" = Ok res
  /\ resolved_ok (sample "https://api.example") res.
Proof.
  pose proof (validated_resolution (sample "https://api.example") (pool_of (sample "https://api.example"))
    (fun _ => Err "unused") sample_registry LatencyTracker_new 1
    (Runtime_from_config (engine_config (sample "https://api.example"))) "chat"
    ltac:(vm_compute; reflexivity) ltac:(vm_compute; reflexivity)) as H.
  destruct (match_candidates _ "chat") as [res|e] eqn:E.
  - by exists res.
  - vm_compute in E. discriminate E.
Defined.

(** A model priced in the catalog only: it is billed, but the target that the router
    compares has no price. *)
Definition priced_catalog : Catalog :=
  mkCatalog [] [mkModel "gpt" 0 "cloud" None None [] CapabilityProfile_default [] Active None] [] []
    [mkPrice 0 "gpt" Input 2000000 "2025" None; mkPrice 0 "gpt" Output 4000000 "2025" None].

Definition catalog_registry (index : gmap string CostEntry) : AdapterRegistry :=
  mkAdapterRegistry (ar_providers sample_registry) (ar_order sample_registry) priced_catalog
    sample_pool index.

Lemma router_and_ledger_prices_differ :
  cost_micros (catalog_registry ∅) "cloud" "gpt" (mkUsage 1000 0 0 0 None) = 2000
  /\ (t ← target_for (catalog_registry ∅) LatencyTracker_new "cloud/gpt"; t_cost t) = None
  /\ is_Some (target_for (catalog_registry ∅) LatencyTracker_new "cloud/gpt").
Proof. vm_compute. split_and!; [done|done|by eexists]. Qed.

(** With an entry of the cost map that has a price per unit but none per token,
    [cost_micros] falls back to the catalog and [cost_profile] does not. *)
Lemma cost_profile_precedence_differs :
  let r := catalog_registry {["cloud/gpt" := mkCostEntry None (Some (mkUnitPrice PerImage 7)) []]} in
  cost_micros r "cloud" "gpt" (mkUsage 1000 0 0 0 None) = 2000
  /\ cost_profile r "cloud" "gpt" = None /\ is_Some (cost_profile (catalog_registry ∅) "cloud" "gpt").
Proof. vm_compute. split_and!; [done|done|by eexists]. Qed.

(** Capability overrides of a mock provider have no effect: its adapter declares
    what it supports by itself. *)
Definition no_vision : CapabilityOverrides :=
  mkCapabilityOverrides (Some false) [] None None None None None None None None None None None.

Lemma mock_ignores_overrides :
  let p := mkProviderConfig "m" PkMock None [] FillFirst None None no_vision in
  cap_vision_in (provider_capabilities p) = false
  /\ (cap_vision_in ∘ adapter_capabilities ∘ pen_adapter <$> provider_entry true p) = Some true.
Proof. by split. Qed.

(** Latencies: the first sample, and an average. *)
Lemma latency_samples :
  let t := record_latency LatencyTracker_new "p" "m" (f64_of_Z 100) in
  get_latency t "p" "m" = Some (f64_of_Z 100)
  /\ get_latency (record_latency t "p" "m" (f64_of_Z 200)) "p" "m" = Some (f64_of_Z 130)
  /\ get_ttft t "p" "m" = None.
Proof. vm_compute. by split_and!. Qed.

End AdapterSamples.
