(* ===== verification/Accounts.v ===== *)
(** * Accounts from configuration

    [crates/sb-credentials/src/account.rs] (secrets and the leases of native token
    sources) and the part of [resolver.rs] that checks declarations and builds the
    account pools. The environment, files, the opened vault and the parsers of
    third-party formats are the record [Sources]; a [Secret] is the string it
    hides, a path the string it prints as. *)

From Stdlib Require Import ZArith Lia Ascii Sorted.
From stdpp Require Import base list strings gmap.
From S2P Require Import Prelude Text Lines BTree Float Ir Config Resolver Profiles ConfigSchema ConfigCheck.
From S2P Require Import ConfigTheorems.

#[local] Open Scope Z_scope.
#[local] Open Scope switchback_scope.

Record Sources := mkSources {
  env_var : string -> option string;
  vault_get : option (string -> option string);
  read_file : string -> result string string;
  parse_json : string -> result Json string;
  json_pointer : Json -> string -> option Json;
  json_as_i64 : Json -> option Z;
  base64_url : string -> option string;
  service_account_key : string -> result (string * string * string) string;
  debug_string : string -> string;
  now_unix : Z
}.

Section Accounts.
Context (src : Sources).

(** ** Secrets *)

Definition resolve_secret (vault_key env inline : option string) (what : string)
  : result string string :=
  match vault_key with
  | Some name =>
      match vault_get src with
      | None => Err (what ^^ ": vault secret `" ^^ name ^^ "` referenced but no vault is configured")
      | Some get =>
          match get name with
          | Some secret => Ok secret
          | None => Err (what ^^ ": secret `" ^^ name ^^ "` not found in vault")
          end
      end
  | None =>
      match (name ← env; value ← env_var src name; if is_empty value then None else Some value) with
      | Some value => Ok value
      | None =>
          match (value ← inline; if is_empty value then None else Some value) with
          | Some value => Ok value
          | None => Err ("no " ^^ what ^^ ": set vault, env " ^^ debug_string src (default "<none>" env)
                         ^^ ", or inline — got none")
          end
      end
  end.

Definition resolve_optional_secret (vault_key env inline : option string) (what : string)
  : result (option string) string :=
  if non_empty vault_key || non_empty env || non_empty inline
  then let? s := resolve_secret vault_key env inline what in Ok (Some s)
  else Ok None.

(** ** Paths and token files *)

Definition expand_path (path : string) : result string string :=
  if negb (str_eqb path "~") && negb (starts_with "~/" path) && negb (starts_with "${HOME}" path)
     && negb (starts_with "$HOME" path)
  then Ok path
  else match env_var src "HOME" with
  | None => Err "HOME is not set"
  | Some home =>
      Ok (if str_eqb path "~" then home
          else match strip_prefix "~/" path with
          | Some rest => home ^^ "/" ^^ rest
          | None => match strip_prefix "${HOME}" path with
            | Some rest => home ^^ rest
            | None => match strip_prefix "$HOME" path with
              | Some rest => home ^^ rest
              | None => path
              end
            end
          end)
  end.

(** [PathBuf::join] with a relative name. *)
Definition path_join (dir name : string) : string :=
  if is_empty dir || ends_with "/" dir then dir ^^ name else dir ^^ "/" ^^ name.

Definition resolve_kimi_home (explicit : option string) : result string string :=
  match explicit with
  | Some home => expand_path home
  | None =>
      match (home ← env_var src "KIMI_CODE_HOME"; if is_empty home then None else Some home) with
      | Some home => Ok home
      | None =>
          match env_var src "HOME" with
          | Some home => Ok (path_join home ".kimi-code")
          | None => Err "kimi_code_oauth: neither home, KIMI_CODE_HOME, nor HOME is set"
          end
      end
  end.

Definition read_json_secret (file pointer label : string) : result string string :=
  let? path := expand_path file in
  match read_file src path with
  | Err e => Err (label ^^ ": read JSON token file `" ^^ path ^^ "`: " ^^ e)
  | Ok body =>
      match parse_json src body with
      | Err e => Err (label ^^ ": parse JSON token file: " ^^ e)
      | Ok json =>
          match (v ← json_pointer src json pointer;
                 match v with
                 | JString s => if trim_is_empty s then None else Some s
                 | _ => None
                 end) with
          | Some token => Ok token
          | None => Err (label ^^ ": JSON token file `" ^^ path ^^ "` missing string at `"
                         ^^ pointer ^^ "`")
          end
      end
  end.

Definition kind_label (k : NativeOauthKind) : string :=
  match k with NativeCodex => "codex_oauth" | NativeClaudeCode => "claude_code_oauth" end.

Definition refresh_hint (k : NativeOauthKind) : string :=
  match k with
  | NativeCodex => "run `codex` (or `codex login`) to refresh ~/.codex/auth.json"
  | NativeClaudeCode => "run `claude setup-token` or relaunch Claude Code to refresh the token"
  end.

Definition read_json_token (file pointer : string) (kind : NativeOauthKind) : result string string :=
  read_json_secret file pointer (kind_label kind).

(** ** Native leases *)

Definition jwt_expiry_unix (token : string) : option Z :=
  payload ← split_char "."%char token !! 1%nat;
  bytes ← base64_url src payload;
  match parse_json src bytes with
  | Ok (JObject claims) =>
      kv ← List.find (fun kv => str_eqb kv.1 "exp") claims; json_as_i64 src kv.2
  | _ => None
  end.

(** A configured name that is not blank. *)
Definition named (name : option string) : option string :=
  match name with Some n => if trim_is_empty n then None else Some n | None => None end.

Definition access_token (kind : NativeOauthKind) (token token_env token_file : option string)
    (pointer : string) : result string string :=
  match (t ← token; if is_empty t then None else Some t) with
  | Some t => Ok t
  | None =>
      match (name ← named token_env; value ← env_var src name;
             if trim_is_empty value then None else Some value) with
      | Some value => Ok value
      | None =>
          match named token_file with
          | Some file => read_json_token file pointer kind
          | None => Err (kind_label kind ^^ ": no native OAuth access token source configured")
          end
      end
  end.

Definition codex_chatgpt_account_id (kind : NativeOauthKind) (token_file : option string)
  : result (option string) string :=
  match (value ← env_var src "CODEX_ACCOUNT_ID"; if trim_is_empty value then None else Some value) with
  | Some value => Ok (Some value)
  | None =>
      match named token_file with
      | None => Ok None
      | Some file =>
          match read_json_token file "/tokens/account_id" kind with
          | Ok value => Ok (Some value)
          | Err e => if contains "missing string at `/tokens/account_id`" e then Ok None else Err e
          end
      end
  end.

Definition lease_native (kind : NativeOauthKind) (token token_env token_file : option string)
    (pointer account_id : string) : result CredentialLease string :=
  let? tok := access_token kind token token_env token_file pointer in
  let expired := exp ← jwt_expiry_unix tok; if exp <=? now_unix src then Some exp else None in
  match expired with
  | Some exp => Err (kind_label kind ^^ ": native OAuth access token expired (exp " ^^ fmt_int exp
                     ^^ "); " ^^ refresh_hint kind)
  | None =>
      match kind with
      | NativeCodex =>
          let? chatgpt := codex_chatgpt_account_id kind token_file in
          Ok (match chatgpt with
              | Some id => mkCredentialLease account_id AuthBearer tok None (Some id)
              | None => lease_bearer account_id tok
              end)
      | NativeClaudeCode => Ok (lease_bearer account_id tok)
      end
  end.

Definition lease_json_token (token_file pointer account_id : string)
  : result CredentialLease string :=
  let? tok := read_json_secret token_file pointer "json_token" in
  Ok (lease_bearer account_id tok).

(** ** Resolution of a declaration *)

Definition resolve_service_account (key_file key_env scope : option string)
  : result ResolvedAuth string :=
  let? json := match key_env, key_file with
    | Some name, _ =>
        match env_var src name with
        | Some v => Ok v
        | None => Err ("service_account: env `" ^^ name ^^ "` not set for key JSON")
        end
    | None, Some path =>
        match read_file src path with
        | Ok v => Ok v
        | Err e => Err ("service_account: read key file `" ^^ path ^^ "`: " ^^ e)
        end
    | None, None => Err "service_account: provide key_file or key_env"
    end in
  let? key := service_account_key src json in
  let '(email, private_key, uri) := key in
  Ok (RaServiceAccount email private_key uri scope).

Definition resolve_auth (auth : AuthConfig) : result ResolvedAuth string :=
  match auth with
  | ConfigSchema.AuthNone => Ok RaNone
  | ConfigSchema.AuthApiKey env inline vault =>
      let? s := resolve_secret vault env inline "api_key" in Ok (RaApiKey s)
  | AuthJsonToken file pointer => Ok (RaJsonToken file pointer)
  | AuthKimiCodeOauth home => let? h := resolve_kimi_home home in Ok (RaKimiCodeOauth h)
  | AuthOauth o =>
      let? token := resolve_optional_secret (oa_token_vault o) (oa_token_env o) (oa_token o)
                      "oauth access token" in
      let? refresh := resolve_optional_secret (oa_refresh_vault o) (oa_refresh_env o) (oa_refresh o)
                        "oauth refresh token" in
      let? secret := resolve_optional_secret (oa_client_secret_vault o) (oa_client_secret_env o)
                       (oa_client_secret o) "oauth client secret" in
      Ok (RaOauth token refresh (oa_refresh_vault o) (oa_token_url o) (oa_client_id o) secret)
  | AuthCodexOauth env vault file pointer =>
      let? token := resolve_optional_secret vault None None "codex oauth access token" in
      Ok (RaNativeOauth NativeCodex token env file pointer)
  | AuthClaudeCodeOauth env vault file pointer =>
      let? token := resolve_optional_secret vault None None "claude code oauth access token" in
      Ok (RaNativeOauth NativeClaudeCode token env file pointer)
  | AuthServiceAccount key_file key_env scope => resolve_service_account key_file key_env scope
  | ConfigSchema.AuthAwsSigV4 access_env access secret_env secret session_env session =>
      let? a := resolve_secret None (Some access_env) access "aws_access_key_id" in
      let? s := resolve_secret None (Some secret_env) secret "aws_secret_access_key" in
      let? t := resolve_optional_secret None session_env session "aws session token" in
      Ok (RaAwsSigV4 a s t)
  end.

Definition is_missing_runtime_api_key (auth : AuthConfig) (err : string) : bool :=
  match auth with
  | ConfigSchema.AuthApiKey _ _ None => starts_with "no api_key:" err
  | _ => false
  end.

Definition resolve_account_auth (auth : AuthConfig) : result (option ResolvedAuth) string :=
  match resolve_auth auth with
  | Ok r => Ok (Some r)
  | Err e => if is_missing_runtime_api_key auth e then Ok None else Err e
  end.

(** ** Account pools *)

Definition default_auth_for_kind (kind : ProviderKind) : AuthConfig :=
  match kind with
  | PkMock | PkComfyUi _ _ => ConfigSchema.AuthNone
  | PkOpenaiCompatible _ api_key_env api_key _ _ | PkAnthropic _ api_key_env api_key _
  | PkGemini _ api_key_env api_key | PkVertex _ _ _ api_key_env api_key
  | PkFal _ _ api_key_env api_key _ =>
      if opt_is_some api_key || opt_is_some api_key_env
      then ConfigSchema.AuthApiKey api_key_env api_key None else ConfigSchema.AuthNone
  | PkBedrock _ access_env secret_env session_env _ =>
      ConfigSchema.AuthAwsSigV4 access_env None secret_env None session_env None
  | PkCodexNativeRelay _ =>
      AuthCodexOauth (Some "CODEX_ACCESS_TOKEN") None (Some "${HOME}/.codex/auth.json")
        "/tokens/access_token"
  | PkClaudeCodeNativeRelay _ =>
      AuthClaudeCodeOauth (Some "CLAUDE_CODE_OAUTH_TOKEN") None
        (Some "${HOME}/.claude/.credentials.json") "/claudeAiOauth/accessToken"
  end.

(** The accounts a provider declares, with the one that is synthesized for none. *)
Definition declared_accounts (p : ProviderConfig) : list AccountConfig :=
  match pc_accounts p with
  | [] => [mkAccountConfig "default" (default_auth_for_kind (pc_kind p)) 0 [] None]
  | l => l
  end.

Definition account_error (p : ProviderConfig) (a : AccountConfig) (e : string) : string :=
  match pc_accounts p with
  | [] => "provider " ^^ pc_id p ^^ " default account: " ^^ e
  | _ => "provider " ^^ pc_id p ^^ " account " ^^ ConfigSchema.acc_id a ^^ ": " ^^ e
  end.

Definition build_account (p : ProviderConfig) (a : AccountConfig) (auth : ResolvedAuth) : Account :=
  mkAccount (ConfigSchema.acc_id a) (pc_id p) auth (ConfigSchema.acc_priority a)
    (ConfigSchema.acc_policy_tags a).

Fixpoint build_accounts (p : ProviderConfig) (l : list AccountConfig)
  : result (list Account) string :=
  match l with
  | [] => Ok []
  | a :: l =>
      match resolve_account_auth (ConfigSchema.acc_auth a) with
      | Err e => Err (account_error p a e)
      | Ok auth =>
          let? rest := build_accounts p l in
          Ok (match auth with Some auth => build_account p a auth :: rest | None => rest end)
      end
  end.

Definition priority_cmp (a b : Account) : comparison :=
  Resolver.acc_priority a ?= Resolver.acc_priority b.

Definition build_provider_accounts (p : ProviderConfig) : result ProviderAccounts string :=
  let? accounts := build_accounts p (declared_accounts p) in
  Ok (mkProviderAccounts (sort_by priority_cmp accounts) (pc_selection p)
        (Z.max 1 (default 1 (pc_sticky p)))).

(** The pools of [from_config_with_token_fetcher]; the token sources registered
    beside them are the minters of the engine's environment. *)
Fixpoint build_pools (l : list ProviderConfig) (pools : gmap string ProviderAccounts)
  : result (gmap string ProviderAccounts) string :=
  match l with
  | [] => Ok pools
  | p :: l => let? pa := build_provider_accounts p in build_pools l (<[pc_id p := pa]> pools)
  end.

(** ** Declarations *)

Definition validate_optional_declaration (value : option string) (path field : string)
  : list string := when (blank_opt value) (path ^^ "." ^^ field ^^ " is empty").

Definition pointer_problems (pointer path : string) : list string :=
  when (is_empty pointer || negb (starts_with "/" pointer))
    (path ^^ ".access_token_pointer must be a JSON pointer").

Definition validate_native (env vault file : option string) (pointer : string)
    (vault_configured : bool) (path : string) : list string :=
  validate_optional_declaration env path "token_env"
  ++ validate_optional_declaration vault path "token_vault"
  ++ validate_optional_declaration file path "token_file"
  ++ pointer_problems pointer path
  ++ when (opt_is_some vault && negb vault_configured)
       (path ^^ ".token_vault requires top-level vault config").

Definition validate_auth_declaration (auth : AuthConfig) (vault_configured : bool) (path : string)
  : list string :=
  let optional value field := validate_optional_declaration value path field in
  match auth with
  | ConfigSchema.AuthNone => []
  | ConfigSchema.AuthApiKey env inline vault =>
      optional env "env" ++ optional inline "inline" ++ optional vault "vault"
      ++ when (opt_is_some vault && negb vault_configured)
           (path ^^ ".vault requires top-level vault config")
  | AuthJsonToken file pointer =>
      when (trim_is_empty file) (path ^^ ".token_file is empty") ++ pointer_problems pointer path
  | AuthKimiCodeOauth home => optional home "home"
  | AuthOauth o =>
      optional (oa_token_env o) "token_env" ++ optional (oa_token o) "token"
      ++ optional (oa_token_vault o) "token_vault" ++ optional (oa_refresh_env o) "refresh_env"
      ++ optional (oa_refresh o) "refresh" ++ optional (oa_refresh_vault o) "refresh_vault"
      ++ optional (oa_token_url o) "token_url" ++ optional (oa_client_id o) "client_id"
      ++ optional (oa_client_secret_env o) "client_secret_env"
      ++ optional (oa_client_secret o) "client_secret"
      ++ optional (oa_client_secret_vault o) "client_secret_vault"
      ++ when ((opt_is_some (oa_token_vault o) || opt_is_some (oa_refresh_vault o)
                || opt_is_some (oa_client_secret_vault o)) && negb vault_configured)
           (path ^^ " has vault references without top-level vault config")
  | AuthCodexOauth env vault file pointer | AuthClaudeCodeOauth env vault file pointer =>
      validate_native env vault file pointer vault_configured path
  | AuthServiceAccount key_file key_env scope =>
      optional key_file "key_file" ++ optional key_env "key_env" ++ optional scope "scope"
      ++ when (negb (non_empty key_file) && negb (non_empty key_env))
           (path ^^ " requires key_file or key_env")
  | ConfigSchema.AuthAwsSigV4 access_env access secret_env secret session_env session =>
      when (trim_is_empty access_env && negb (non_empty access))
        (path ^^ " requires access_key_env or access_key")
      ++ when (trim_is_empty secret_env && negb (non_empty secret))
           (path ^^ " requires secret_key_env or secret_key")
      ++ optional session_env "session_token_env" ++ optional session "session_token"
  end.

Definition credential_problems (c : Config) : list string :=
  let vault_configured := opt_is_some (cg_vault c) in
  each (fun pi p =>
    match pc_accounts p with
    | [] => validate_auth_declaration (default_auth_for_kind (pc_kind p)) vault_configured
              (at_ "providers" pi ^^ " default auth")
    | l => each (fun ai a => validate_auth_declaration (ConfigSchema.acc_auth a) vault_configured
                               (at_ (at_ "providers" pi ^^ ".accounts") ai ^^ ".auth")) l
    end) (cg_providers c).

Definition validate_credentials (c : Config) : result unit string :=
  match credential_problems c with
  | [] => Ok tt
  | problems => Err (join "; " problems)
  end.

End Accounts.

(** ** What the accounts of a configuration are

    The pool of a provider is its declared accounts by priority; a declaration that
    passes validation becomes an account when its secrets can be found; a native
    token that has expired is not leased. *)

#[local] Open Scope Z_scope.

#[export] Instance priority_preorder : TotalPreorder priority_cmp.
Proof. apply (on_preorder Resolver.acc_priority Z.compare). Qed.

Lemma each_silent {A} (f : Z -> A -> list string) l x :
  each f l = [] -> x ∈ l -> exists i, f i x = [].
Proof.
  unfold each. generalize 0. induction l as [|y l IH]; intros i; simpl; [set_solver|].
  rewrite app_nil. intros [Hy Hl] [->|Hx]%elem_of_cons; [by exists i|by apply (IH (i + 1))].
Qed.

Section Theorems.
Context (src : Sources).

(** ** Secrets *)

(** Where a secret comes from: a vault name excludes every other source, and the
    environment precedes the inline value. *)
Lemma resolve_secret_source vault_key env inline what s :
  resolve_secret src vault_key env inline what = Ok s <->
  match vault_key with
  | Some name => exists get, vault_get src = Some get /\ get name = Some s
  | None =>
      s <> "" /\ ((exists name, env = Some name /\ env_var src name = Some s)
        \/ (inline = Some s
            /\ forall name, env = Some name -> env_var src name = None \/ env_var src name = Some ""))
  end.
Proof.
  unfold resolve_secret. destruct vault_key as [name|].
  { destruct (vault_get src) as [get|]; [|naive_solver]. destruct (get name) eqn:E; naive_solver. }
  assert (Hin : forall e : string, match (value ← inline; if is_empty value then None else Some value) with
    | Some value => Ok value | None => Err e end = Ok s <-> s <> "" /\ inline = Some s).
  { intros e. destruct inline as [[|c v]|]; simpl; naive_solver. }
  destruct env as [name|]; simpl; [|rewrite Hin; naive_solver].
  destruct (env_var src name) as [[|ch v]|] eqn:E; simpl; rewrite ?Hin; naive_solver.
Qed.

Lemma missing_api_key env inline e :
  resolve_secret src None env inline "api_key" = Err e -> starts_with "no api_key:" e = true.
Proof.
  unfold resolve_secret. destruct (name ← env; _) as [v|]; [done|].
  destruct (value ← inline; _) as [v|]; [done|]. intros [= <-]. reflexivity.
Qed.

(** ** Pools *)

(** An API key that neither the environment nor the configuration provides. *)
Definition unavailable (d : AccountConfig) : Prop :=
  exists env inline e, ConfigSchema.acc_auth d = ConfigSchema.AuthApiKey env inline None
    /\ resolve_secret src None env inline "api_key" = Err e.

Definition built_from (p : ProviderConfig) (d : AccountConfig) (a : Account) : Prop :=
  exists auth, resolve_auth src (ConfigSchema.acc_auth d) = Ok auth /\ a = build_account p d auth.

Lemma resolve_account_cases auth :
  match resolve_account_auth src auth with
  | Ok (Some r) => resolve_auth src auth = Ok r
  | Ok None => exists env inline e, auth = ConfigSchema.AuthApiKey env inline None
      /\ resolve_secret src None env inline "api_key" = Err e
  | Err e => resolve_auth src auth = Err e
  end.
Proof.
  unfold resolve_account_auth. destruct (resolve_auth src auth) as [r|e] eqn:E; [done|].
  destruct (is_missing_runtime_api_key auth e) eqn:Em; [|done].
  destruct auth as [|env inline [v|]| | | | | | |]; try done. exists env, inline.
  cbn [resolve_auth] in E. destruct (resolve_secret src None env inline "api_key") as [s|e']; cbn in E; [discriminate E|by eexists].
Qed.

Lemma build_accounts_spec p l accounts :
  build_accounts src p l = Ok accounts ->
  exists kept, Forall2 (built_from p) kept accounts /\ kept `sublist_of` l
    /\ forall d, d ∈ l -> d ∈ kept \/ unavailable d.
Proof.
  revert accounts. induction l as [|d l IH]; intros accounts; simpl.
  { intros [= <-]. exists []. split_and!; [constructor|done|set_solver]. }
  pose proof (resolve_account_cases (ConfigSchema.acc_auth d)) as Hd.
  destruct (resolve_account_auth src (ConfigSchema.acc_auth d)) as [auth|e]; [|done].
  destruct (build_accounts src p l) as [rest|e]; [|done]. intros [= <-].
  destruct (IH _ eq_refl) as (kept & Hk & Hs & Hu). destruct auth as [auth|].
  - exists (d :: kept). split_and!; [by constructor; [exists auth|]|by constructor|].
    intros x [->|Hx]%elem_of_cons; [left; by constructor|].
    destruct (Hu x Hx); [left; by constructor|by right].
  - exists kept. split_and!; [done|by constructor|].
    intros x [->|Hx]%elem_of_cons; [by right|by apply Hu].
Qed.

(** The pool of a provider is its declared accounts: every account
    comes from one declaration (or from the synthesized default), with its id,
    priority, tags and resolved credential, no declaration gives two, and only API
    keys that cannot be found are left out; the pool is ordered by priority and
    the stickiness is at least one. *)
Theorem pool_from_declarations p pool :
  build_provider_accounts src p = Ok pool ->
  exists kept accounts, Forall2 (built_from p) kept accounts /\ kept `sublist_of` declared_accounts p
    /\ (forall d, d ∈ declared_accounts p -> d ∈ kept \/ unavailable d)
    /\ pa_accounts pool ≡ₚ accounts /\ StronglySorted (cmp_le priority_cmp) (pa_accounts pool)
    /\ 1 <= pa_sticky pool.
Proof.
  unfold build_provider_accounts.
  destruct (build_accounts src p (declared_accounts p)) as [accounts|e] eqn:E; [|done].
  intros [= <-]. destruct (build_accounts_spec _ _ _ E) as (kept & H1 & H2 & H3).
  exists kept, accounts. simpl. split_and!; try done.
  - apply sort_by_perm.
  - apply (sort_by_sorted priority_cmp).
  - lia.
Qed.

(** ** Native leases *)

Lemma bearer_secret account tok : lease_secret (lease_bearer account tok) = tok.
Proof. done. Qed.

(** A native token that can be seen to have expired is never leased: a
    lease carries the token of the native store for the account asked for, and if
    the token says when it expires, that lies in the future. *)
Theorem expired_token_never_leased kind token token_env token_file pointer account l :
  lease_native src kind token token_env token_file pointer account = Ok l ->
  provider_account_id l = account
  /\ access_token src kind token token_env token_file pointer = Ok (lease_secret l)
  /\ forall exp, jwt_expiry_unix src (lease_secret l) = Some exp -> now_unix src < exp.
Proof.
  unfold lease_native. destruct (access_token src kind token token_env token_file pointer) as [tok|];
    [|done]. simpl.
  destruct (exp ← jwt_expiry_unix src tok; _) as [e|] eqn:E; [done|]. intros Hl.
  assert (Hs : lease_secret l = tok /\ provider_account_id l = account).
  { destruct kind; [|by simplify_eq].
    destruct (codex_chatgpt_account_id src NativeCodex token_file) as [[id|]|]; by simplify_eq/=. }
  destruct Hs as [-> ->]. split_and!; [done|done|]. intros exp He. rewrite He in E. simpl in E.
  destruct (Z.leb_spec exp (now_unix src)); [done|lia].
Qed.

(** ** Validated declarations *)

(** Every secret a configuration may name can be found. *)
Record complete (vault_configured : bool) : Prop := {
  ce_env : forall name, exists v, env_var src name = Some v /\ v <> "";
  ce_vault : vault_configured = true -> exists get, vault_get src = Some get /\ forall n, is_Some (get n);
  ce_file : forall path, exists body, read_file src path = Ok body;
  ce_key : forall body, exists key, service_account_key src body = Ok key
}.

Lemma not_blank_filled s : ~ blank s -> s <> "".
Proof. by intros H ->. Qed.

Section Complete.
Context (vault_configured : bool) (Hc : complete vault_configured).

Lemma secret_found vault_key env inline what :
  (is_Some vault_key -> vault_configured = true) ->
  is_Some vault_key \/ is_Some env \/ (exists s, inline = Some s /\ s <> "") ->
  exists s, resolve_secret src vault_key env inline what = Ok s.
Proof.
  intros Hv Hs. unfold resolve_secret. destruct vault_key as [name|].
  { destruct (ce_vault _ Hc (Hv ltac:(eauto))) as (get & -> & Hg). destruct (Hg name) as [s ->]. eauto. }
  destruct env as [name|]; simpl.
  { destruct (ce_env _ Hc name) as (v & -> & Hne). simpl. destruct v; [done|]. simpl. eauto. }
  destruct Hs as [[? ?]|[[? ?]|(s & -> & Hne)]]; [done|done|]. simpl. destruct s; [done|]. simpl. eauto.
Qed.

Lemma optional_found vault_key env inline what :
  (is_Some vault_key -> vault_configured = true) ->
  exists s, resolve_optional_secret src vault_key env inline what = Ok s.
Proof.
  intros Hv. unfold resolve_optional_secret.
  destruct (non_empty vault_key || non_empty env || non_empty inline) eqn:E; [|eauto].
  destruct (secret_found vault_key env inline what Hv) as [s ->]; [|eauto].
  apply orb_true_iff in E as [[E|E]%orb_true_iff|E].
  - left. by destruct vault_key.
  - right; left. by destruct env.
  - right; right. destruct inline as [s|]; [|done]. exists s. split; [done|].
    apply not_blank_filled. simpl in E. unfold blank. by destruct (trim_is_empty s).
Qed.

Lemma vault_spec v m :
  when (opt_is_some v && negb vault_configured) m = [] ->
  is_Some (v : option string) -> vault_configured = true.
Proof. rewrite when_nil. intros H [x ->]. by destruct vault_configured. Qed.

Lemma expand_ok path : exists p, expand_path src path = Ok p.
Proof.
  unfold expand_path. case_match; [eauto|]. destruct (ce_env _ Hc "HOME") as (v & -> & _). eauto.
Qed.

Lemma resolve_ok auth path :
  validate_auth_declaration auth vault_configured path = [] ->
  auth <> ConfigSchema.AuthApiKey None None None -> exists r, resolve_auth src auth = Ok r.
Proof.
  intros Hv Hne. destruct auth as [|env inline vault|file pointer|home|o|env vault file pointer
    |env vault file pointer|key_file key_env scope|ae a se s te t];
    unfold resolve_auth, validate_auth_declaration, validate_native in *;
    rewrite ?app_nil in Hv.
  - eauto.
  - destruct Hv as (_ & Hi & _ & Hv). apply when_nil, blank_opt_false in Hi || idtac.
    unfold validate_optional_declaration in Hi. rewrite when_nil, blank_opt_false in Hi.
    destruct (secret_found vault env inline "api_key" (vault_spec _ _ Hv)) as [s ->]; [|by eexists].
    destruct vault; [by left; eauto|]. destruct env; [by right; left; eauto|]. right; right.
    destruct inline as [s|]; [|done]. exists s. split; [done|]. by apply not_blank_filled, Hi.
  - eauto.
  - assert (Hh : exists h, resolve_kimi_home src home = Ok h).
    { unfold resolve_kimi_home. destruct home; [apply expand_ok|]. case_match; [eauto|].
      destruct (ce_env _ Hc "HOME") as (v & -> & _). eauto. }
    destruct Hh as [h ->]. by eexists.
  - do 11 destruct Hv as [_ Hv]. rewrite when_nil in Hv.
    assert (H3 : forall v, v = oa_token_vault o \/ v = oa_refresh_vault o \/ v = oa_client_secret_vault o ->
              is_Some v -> vault_configured = true).
    { intros v Hor [x ->]. destruct vault_configured; [done|]. rewrite andb_true_r in Hv.
      apply orb_false_iff in Hv as [[? ?]%orb_false_iff ?]. destruct Hor as [Hx|[Hx|Hx]]; by rewrite <- Hx in *. }
    destruct (optional_found (oa_token_vault o) (oa_token_env o) (oa_token o) "oauth access token"
      (H3 _ ltac:(tauto))) as [t ->].
    destruct (optional_found (oa_refresh_vault o) (oa_refresh_env o) (oa_refresh o)
      "oauth refresh token" (H3 (oa_refresh_vault o) ltac:(tauto))) as [r ->].
    destruct (optional_found (oa_client_secret_vault o) (oa_client_secret_env o) (oa_client_secret o)
      "oauth client secret" (H3 (oa_client_secret_vault o) ltac:(tauto))) as [cs ->]. by eexists.
  - destruct Hv as (_ & _ & _ & _ & Hv).
    destruct (optional_found vault None None "codex oauth access token" (vault_spec _ _ Hv)) as [s ->].
    by eexists.
  - destruct Hv as (_ & _ & _ & _ & Hv).
    destruct (optional_found vault None None "claude code oauth access token" (vault_spec _ _ Hv))
      as [s ->]. by eexists.
  - unfold resolve_service_account. destruct Hv as (_ & _ & _ & Hv). rewrite when_nil in Hv.
    assert (Hj : exists j, match key_env, key_file with
      | Some name, _ => match env_var src name with Some v => Ok v
          | None => Err (String.append "service_account: env `" (String.append name "` not set for key JSON")) end
      | None, Some path => match read_file src path with Ok v => Ok v
          | Err e => Err (String.append "service_account: read key file `"
                       (String.append path (String.append "`: " e))) end
      | None, None => Err "service_account: provide key_file or key_env" end = Ok j).
    { destruct key_env as [name|]; [destruct (ce_env _ Hc name) as (v & -> & _); eauto|].
      destruct key_file as [f|]; [destruct (ce_file _ Hc f) as [b ->]; eauto|done]. }
    destruct Hj as [j ->]. simpl. destruct (ce_key _ Hc j) as [[[e k] u] ->]. by eexists.
  - destruct (secret_found None (Some ae) a "aws_access_key_id") as [x ->]; [by intros [? ?]|eauto|].
    destruct (secret_found None (Some se) s "aws_secret_access_key") as [y ->]; [by intros [? ?]|eauto|].
    destruct (optional_found None te t "aws session token") as [z ->]; [by intros [? ?]|]. by eexists.
Qed.

Definition declaration_ok (d : AccountConfig) : Prop :=
  exists path, validate_auth_declaration (ConfigSchema.acc_auth d) vault_configured path = [].

Lemma accounts_build p l :
  Forall declaration_ok l ->
  exists accounts, build_accounts src p l = Ok accounts
    /\ forall d, d ∈ l -> ConfigSchema.acc_auth d <> ConfigSchema.AuthApiKey None None None ->
       exists a, a ∈ accounts /\ Resolver.acc_id a = ConfigSchema.acc_id d.
Proof.
  induction 1 as [|d l [path Hd] _ (accounts & IH & Hin)]; simpl.
  { exists []. split; [done|set_solver]. }
  assert (Hr : exists auth, resolve_account_auth src (ConfigSchema.acc_auth d) = Ok auth
    /\ (auth = None -> ConfigSchema.acc_auth d = ConfigSchema.AuthApiKey None None None)).
  { destruct (ConfigSchema.acc_auth d) as [|[e|] [i|] [v|]| | | | | | |] eqn:E.
    9:{ exists None. split; [reflexivity|done]. }
    all: rewrite <- E in Hd; destruct (resolve_ok _ _ Hd ltac:(rewrite E; discriminate)) as [r Hr];
      rewrite E in Hr; unfold resolve_account_auth; rewrite Hr; by exists (Some r). }
  destruct Hr as (auth & -> & Hn). rewrite IH. simpl.
  destruct auth as [auth|]; (eexists; split; [done|]).
  - intros x [->|Hx]%elem_of_cons Hx'; [exists (build_account p d auth); split; [by constructor|done]|].
    destruct (Hin x Hx Hx') as (a & ? & ?). exists a. split; [by constructor|done].
  - intros x [->|Hx]%elem_of_cons Hx'; [by destruct Hx'; apply Hn|by apply Hin].
Qed.

Lemma pools_build l : forall pools,
  NoDup (pc_id <$> l) -> Forall (fun p => Forall declaration_ok (declared_accounts p)) l ->
  exists pools', build_pools src l pools = Ok pools'
    /\ (forall id, id ∉ pc_id <$> l -> pools' !! id = pools !! id)
    /\ forall p d, p ∈ l -> d ∈ declared_accounts p ->
       ConfigSchema.acc_auth d <> ConfigSchema.AuthApiKey None None None ->
       exists pool a, pools' !! pc_id p = Some pool /\ a ∈ pa_accounts pool
         /\ Resolver.acc_id a = ConfigSchema.acc_id d.
Proof.
  induction l as [|p l IH]; intros pools Hn Hl; simpl.
  { exists pools. split_and!; [done|done|set_solver]. }
  apply NoDup_cons in Hn as [Hp Hn]. apply Forall_cons_1 in Hl as [Hd Hl].
  destruct (accounts_build p (declared_accounts p) Hd) as (accounts & Ha & Hin).
  unfold build_provider_accounts. rewrite Ha. cbn [try].
  match goal with |- context [build_pools src l ?m] => destruct (IH m Hn Hl) as (pools' & -> & Hk & Hps) end.
  exists pools'. split_and!; [done| |].
  - intros id [Hne Hid]%not_elem_of_cons. rewrite Hk by done. by rewrite lookup_insert_ne.
  - intros q d [->|Hq]%elem_of_cons Hdq Hs; [|by apply Hps]. rewrite Hk by done.
    rewrite lookup_insert_eq. destruct (Hin d Hdq Hs) as (a & Ha' & Hid). eexists _, a.
    split_and!; [done| |done]. simpl. by rewrite elem_of_sort_by.
Qed.

End Complete.

(** Validated credentials work: if the declarations of a configuration
    pass validation and the secrets they name can be found, the account pools are
    built, and every declared account is in the pool of its provider; the one
    exception is an API key that names no source at all. *)
Theorem validated_accounts_build c :
  complete (opt_is_some (cg_vault c)) -> NoDup (provider_ids c) -> credential_problems c = [] ->
  exists pools, build_pools src (cg_providers c) ∅ = Ok pools
    /\ forall p d, p ∈ cg_providers c -> d ∈ declared_accounts p ->
       ConfigSchema.acc_auth d <> ConfigSchema.AuthApiKey None None None ->
       exists pool a, pools !! pc_id p = Some pool /\ a ∈ pa_accounts pool
         /\ Resolver.acc_id a = ConfigSchema.acc_id d.
Proof.
  intros Hc Hn Hp.
  destruct (pools_build (opt_is_some (cg_vault c)) Hc (cg_providers c) ∅ Hn) as (pools & ? & _ & ?);
    [|by exists pools].
  unfold credential_problems in Hp. cbv zeta in Hp. apply list.Forall_forall. intros p Hin.
  destruct (each_silent _ _ p Hp Hin) as [pi Hpi]. unfold declared_accounts.
  destruct (pc_accounts p) as [|d l].
  - constructor; [|constructor]. by eexists.
  - apply list.Forall_forall. intros d' Hd'. destruct (each_silent _ _ d' Hpi Hd') as [ai Hai].
    by eexists.
Qed.

End Theorems.

(** ** Samples *)

Module AccountSamples.
Import ConfigSamples.

(** Every variable is set, every file readable, and the clock stands at 100. *)
Definition sources : Sources :=
  mkSources (fun name => Some (String.append "secret of " name)) None (fun _ => Ok "{}")
    (fun _ => Ok (JObject [("exp", JInt 200)])) (fun _ _ => None)
    (fun j => match j with JInt n => Some n | _ => None end) Some
    (fun _ => Ok ("svc", "key", "uri")) (fun s => s) 100.

Definition two_accounts : ProviderConfig :=
  provider "cloud" (PkOpenaiCompatible "https://api.example" None None None WireChat)
    [mkAccountConfig "spare" (ConfigSchema.AuthApiKey (Some "SPARE") None None) 5 [] None;
     mkAccountConfig "main" (ConfigSchema.AuthApiKey None (Some "inline") None) 1 ["paid"] None].

Definition two_pool : ProviderAccounts :=
  mkProviderAccounts
    [mkAccount "main" "cloud" (RaApiKey "inline") 1 ["paid"];
     mkAccount "spare" "cloud" (RaApiKey "secret of SPARE") 5 []] FillFirst 1.

Lemma pool_from_declarations_witness :
  exists kept, kept `sublist_of` declared_accounts two_accounts
    /\ StronglySorted (cmp_le priority_cmp) (pa_accounts two_pool) /\ length kept = 2%nat.
Proof.
  destruct (pool_from_declarations sources two_accounts two_pool eq_refl)
    as (kept & accounts & Hk & Hs & _ & Hp & Hsort & _).
  exists kept. split_and!; [done|done|].
  rewrite (Forall2_length _ _ _ Hk), <- Hp. reflexivity.
Defined.

(** A token whose payload says that it expires at 200, at time 100. *)
Lemma expired_token_never_leased_witness :
  exists exp, jwt_expiry_unix sources "head.payload.sig" = Some exp /\ now_unix sources < exp.
Proof.
  exists 200. split; [vm_compute; reflexivity|].
  exact (proj2 (proj2 (expired_token_never_leased sources NativeClaudeCode (Some "head.payload.sig")
    None None "/x" "acct" (lease_bearer "acct" "head.payload.sig") ltac:(vm_compute; reflexivity)))
    200 ltac:(vm_compute; reflexivity)).
Defined.

Lemma sources_complete : complete sources false.
Proof.
  split; simpl; [|done|eauto|eauto]. intros name. eexists. split; [reflexivity|]. intros H.
  apply (f_equal String.length) in H. discriminate H.
Qed.

Lemma validated_accounts_build_witness :
  exists pools, build_pools sources (cg_providers (sample "https://api.example")) ∅ = Ok pools
    /\ is_Some (pools !! "cloud").
Proof.
  destruct (validated_accounts_build sources (sample "https://api.example") sources_complete
    ltac:(apply (bool_decide_unpack _); vm_compute; exact I) ltac:(vm_compute; reflexivity))
    as (pools & Hp & Hin).
  exists pools. split; [done|].
  destruct (Hin (cloud "https://api.example")
    (mkAccountConfig "work" (ConfigSchema.AuthApiKey (Some "CLOUD_KEY") None None) 0 [] None))
    as (pool & _ & Hpool & _); [set_solver|set_solver|done|by exists pool].
Defined.

(** An API key without any source passes both validations and gives no account. *)
Definition sourceless : ProviderConfig :=
  provider "p" PkMock [mkAccountConfig "a" (ConfigSchema.AuthApiKey None None None) 0 [] None].

Lemma sourceless_key_dropped :
  validate_auth_declaration (ConfigSchema.AuthApiKey None None None) false "x" = []
  /\ build_provider_accounts sources sourceless = Ok (mkProviderAccounts [] FillFirst 1).
Proof. by split. Qed.

End AccountSamples.
