(* ===== verification/Publish.v ===== *)
(** * Publication of configurations

    [crates/sb-runtime/src/snapshot.rs] (publishing, reloading, runtime knobs, route
    preview), [crates/sb-runtime/src/audit.rs] and the revision and audit tables of
    [crates/sb-store/src/lib.rs]. A publication holds the reload lock from its check
    to its swap, so each is one step; a request reads the snapshot once and keeps
    it. What a snapshot is compiled from (registry, resolver, plugins) is a
    parameter, with the validations that may fail. *)

From Stdlib Require Import ZArith Lia.
From stdpp Require Import base list strings gmap.
From S2P Require Import Prelude Text UsageTable.

#[local] Open Scope Z_scope.

(** ** Audit *)

Record AuditContext := mkAuditContext {
  ax_source : string;
  ax_detail : string;
  ax_actor_role : option string;
  ax_actor_tenant : option string;
  ax_actor_project : option string;
  ax_object_id : option string
}.

Definition AuditContext_new (source detail : string) : AuditContext :=
  mkAuditContext source detail None None None None.

Definition with_object_id (id : string) (a : AuditContext) : AuditContext :=
  mkAuditContext (ax_source a) (ax_detail a) (ax_actor_role a) (ax_actor_tenant a)
    (ax_actor_project a) (Some id).

Definition with_actor (role : string) (tenant project : option string) (a : AuditContext)
  : AuditContext :=
  mkAuditContext (ax_source a) (ax_detail a) (Some role) tenant project (ax_object_id a).

(** ** The tables *)

Record RevisionRecord := mkRevisionRecord {
  rv_revision : Z;
  rv_config_hash : string;
  rv_source : string;
  rv_created_at_ms : Z
}.

Record AuditEntry := mkAuditEntry {
  ae_revision : Z;
  ae_action : string;
  ae_detail : string;
  ae_actor_role : option string;
  ae_actor_tenant : option string;
  ae_actor_project : option string;
  ae_source : string;
  ae_object_id : option string;
  ae_created_at_ms : Z
}.

(** Revisions by their number as stored, and the audit rows by their id. *)
Record History := mkHistory {
  hs_reachable : bool;
  hs_revisions : gmap Z RevisionRecord;
  hs_audit : list AuditEntry
}.

Definition History_new : History := mkHistory true ∅ [].

Definition history_call {A} (h : History) (k : result A string * History)
  : result A string * History :=
  if hs_reachable h then k else (Err unreachable, h).

(** [INSERT OR REPLACE INTO revisions]. *)
Definition put_revision (rec : RevisionRecord) (h : History) : History :=
  mkHistory (hs_reachable h) (<[wrap_i64 (rv_revision rec) := rec]> (hs_revisions h)) (hs_audit h).

Definition record_revision (h : History) (rec : RevisionRecord) : result unit string * History :=
  history_call h (Ok tt, put_revision rec h).

Definition record_audit (h : History) (entry : AuditEntry) : result unit string * History :=
  history_call h (Ok tt, mkHistory (hs_reachable h) (hs_revisions h) (hs_audit h ++ [entry])).

(** One transaction. *)
Definition record_revision_and_audit (h : History) (rec : RevisionRecord) (entry : AuditEntry)
  : result unit string * History :=
  history_call h
    (let h := put_revision rec h in
     (Ok tt, mkHistory (hs_reachable h) (hs_revisions h) (hs_audit h ++ [entry]))).

Definition get_revision (h : History) (revision : Z)
  : result (option RevisionRecord) string * History :=
  history_call h (Ok (hs_revisions h !! wrap_i64 revision), h).

(** [LIMIT n]: a negative limit is none. *)
Definition sql_limit {A} (limit : Z) (l : list A) : list A :=
  let n := wrap_i64 limit in if n <? 0 then l else take (Z.to_nat n) l.

(** [ORDER BY revision DESC]. *)
Definition list_revisions (h : History) (limit : Z) : result (list RevisionRecord) string * History :=
  history_call h
    (Ok (sql_limit limit
           (snd <$> sort_by (fun a b : Z * RevisionRecord => Z.compare b.1 a.1)
                      (map_to_list (hs_revisions h)))), h).

Definition list_audit (h : History) (limit : Z) : result (list AuditEntry) string * History :=
  history_call h (Ok (sql_limit limit (rev (hs_audit h))), h).

(** ** The engine's snapshot *)

Inductive PublishError :=
| Conflict (expected current : Z)
| Failed (message : string).

Section Publish.
(** The configuration, and what is compiled from it: the adapter registry, the
    credential resolver, the runtime knobs and the plugins; the checks and the
    hash of the configuration, and the rendering of the knobs. *)
Context {Cfg Reg Res Knobs Plug : Type}.
Context (validate_config : Cfg -> result unit string) (registry_from : Cfg -> result Reg string)
        (resolver_from : Cfg -> result Res string) (plugins_from : Cfg -> result Plug string)
        (knobs_from : Cfg -> Knobs) (config_hash : Cfg -> string) (knobs_json : Knobs -> string).

Record PSnapshot := mkPSnapshot {
  ps_revision : Z;
  ps_config : Cfg;
  ps_registry : Reg;
  ps_resolver : Res;
  ps_runtime : Knobs;
  ps_plugins : Plug
}.

Record Publisher := mkPublisher {
  pb_snapshot : PSnapshot;
  pb_store : option History;
  pb_required : bool;
  pb_config_path : option string
}.

Definition set_snapshot (s : PSnapshot) (p : Publisher) : Publisher :=
  mkPublisher s (pb_store p) (pb_required p) (pb_config_path p).

Definition set_history (h : History) (p : Publisher) : Publisher :=
  mkPublisher (pb_snapshot p) (Some h) (pb_required p) (pb_config_path p).

Definition try_new (cfg : Cfg) (reg : Reg) (res : Res) : result Publisher string :=
  let? plugins := plugins_from cfg in
  Ok (mkPublisher (mkPSnapshot 1 cfg reg res (knobs_from cfg) plugins) None false None).

Definition persist_checked (now revision : Z) (hash : string) (audit : AuditContext) (p : Publisher)
  : result unit string * Publisher :=
  match pb_store p with
  | None => (Ok tt, p)
  | Some h =>
      let rec := mkRevisionRecord revision hash (ax_source audit) now in
      let entry := mkAuditEntry revision (ax_source audit) (ax_detail audit) (ax_actor_role audit)
                     (ax_actor_tenant audit) (ax_actor_project audit) (ax_source audit)
                     (ax_object_id audit) now in
      let '(r, h) := record_revision_and_audit h rec entry in
      (match r with
       | Ok _ => Ok tt
       | Err e => Err ("state store persistence failed for revision " ^^ fmt_int revision
                         ^^ ": " ^^ e)
       end, set_history h p)
  end.

Definition persist_best_effort (now revision : Z) (hash : string) (audit : AuditContext)
    (p : Publisher) : Publisher := (persist_checked now revision hash audit p).2.

Definition persist_for_publish (now revision : Z) (hash : string) (audit : AuditContext)
    (p : Publisher) : result unit string * Publisher :=
  if pb_required p then persist_checked now revision hash audit p
  else (Ok tt, persist_best_effort now revision hash audit p).

(** [with_store_policy], without the hydration of the scorecard. *)
Definition with_store_policy (h : History) (required : bool) (now : Z) (p : Publisher)
  : result Publisher string :=
  let p := mkPublisher (pb_snapshot p) (Some h) required (pb_config_path p) in
  let hash := config_hash (ps_config (pb_snapshot p)) in
  let audit := AuditContext_new "bootstrap" "engine start" in
  let revision := ps_revision (pb_snapshot p) in
  if required
  then let '(r, p) := persist_checked now revision hash audit p in let? _ := r in Ok p
  else Ok (persist_best_effort now revision hash audit p).

(** The end of a publication: persisted before the swap if the store is required, and
    after it otherwise. *)
Definition commit_snapshot (now : Z) (next : PSnapshot) (hash : string) (audit : AuditContext)
    (p : Publisher) : result Z string * Publisher :=
  let revision := ps_revision next in
  if pb_required p
  then match persist_for_publish now revision hash audit p with
       | (Ok _, p) => (Ok revision, set_snapshot next p)
       | (Err e, p) => (Err e, p)
       end
  else match persist_for_publish now revision hash audit (set_snapshot next p) with
       | (Ok _, p) => (Ok revision, p)
       | (Err e, p) => (Err e, p)
       end.

(** What [swap_config_locked] builds before it changes anything. *)
Definition compile_next (cfg : Cfg) (p : Publisher) : result PSnapshot string :=
  let? _ := validate_config cfg in
  let? registry := registry_from cfg in
  let? resolver := resolver_from cfg in
  let revision := wrap64 (ps_revision (pb_snapshot p) + 1) in
  let? plugins := plugins_from cfg in
  Ok (mkPSnapshot revision cfg registry resolver (knobs_from cfg) plugins).

Definition swap_config_locked (now : Z) (cfg : Cfg) (audit : AuditContext) (p : Publisher)
  : result Z string * Publisher :=
  match compile_next cfg p with
  | Err e => (Err e, p)
  | Ok next => commit_snapshot now next (config_hash cfg) audit p
  end.

Definition reload_with_audit := swap_config_locked.

Definition reload (now : Z) (cfg : Cfg) (p : Publisher) : result Z string * Publisher :=
  reload_with_audit now cfg (AuditContext_new "reload" "config file reload") p.

Definition publish_with_audit (now : Z) (cfg : Cfg) (audit : AuditContext)
    (expected_revision : option Z) (p : Publisher) : result Z PublishError * Publisher :=
  let current := ps_revision (pb_snapshot p) in
  match expected_revision with
  | Some expected =>
      if negb (current =? expected) then (Err (Conflict expected current), p)
      else let '(r, p) := swap_config_locked now cfg audit p in
           (match r with Ok n => Ok n | Err e => Err (Failed e) end, p)
  | None =>
      let '(r, p) := swap_config_locked now cfg audit p in
      (match r with Ok n => Ok n | Err e => Err (Failed e) end, p)
  end.

(** [read] is [Config::from_path]. *)
Definition reload_from_file_with_audit (now : Z) (read : string -> result Cfg string)
    (audit : AuditContext) (p : Publisher) : result Z string * Publisher :=
  match pb_config_path p with
  | None => (Err "no config file path to reload from", p)
  | Some path =>
      match read path with
      | Err e => (Err e, p)
      | Ok cfg => reload_with_audit now cfg (with_object_id path audit) p
      end
  end.

Definition reload_from_file (now : Z) (read : string -> result Cfg string) (p : Publisher)
  : result Z string * Publisher :=
  match pb_config_path p with
  | None => (Err "no config file path to reload from", p)
  | Some path =>
      reload_from_file_with_audit now read
        (with_object_id path (AuditContext_new "file_reload" "config file reload")) p
  end.

Definition update_runtime_with_audit (now : Z) (edit : Knobs -> Knobs) (audit : option AuditContext)
    (p : Publisher) : result Z string * Publisher :=
  let cur := pb_snapshot p in
  let runtime := edit (ps_runtime cur) in
  let revision := wrap64 (ps_revision cur + 1) in
  let detail := knobs_json runtime in
  let audit := match audit with Some a => a | None => AuditContext_new "runtime_patch" detail end in
  let audit := if is_empty (ax_detail audit)
    then mkAuditContext (ax_source audit) detail (ax_actor_role audit) (ax_actor_tenant audit)
           (ax_actor_project audit) (ax_object_id audit)
    else audit in
  commit_snapshot now
    (mkPSnapshot revision (ps_config cur) (ps_registry cur) (ps_resolver cur) runtime
       (ps_plugins cur)) (config_hash (ps_config cur)) audit p.

(** ** Runs *)

Inductive PubOp :=
| PoPublish (now : Z) (cfg : Cfg) (audit : AuditContext) (expected : option Z)
| PoReload (now : Z) (cfg : Cfg) (audit : AuditContext)
| PoKnobs (now : Z) (edit : Knobs -> Knobs) (audit : option AuditContext)
| PoStore (reachable : bool).

(** One operation: the revision it published, if it did. *)
Definition pexec (o : PubOp) (p : Publisher) : option Z * Publisher :=
  match o with
  | PoPublish now cfg audit expected =>
      let '(r, p) := publish_with_audit now cfg audit expected p in
      (match r with Ok n => Some n | Err _ => None end, p)
  | PoReload now cfg audit =>
      let '(r, p) := reload_with_audit now cfg audit p in
      (match r with Ok n => Some n | Err _ => None end, p)
  | PoKnobs now edit audit =>
      let '(r, p) := update_runtime_with_audit now edit audit p in
      (match r with Ok n => Some n | Err _ => None end, p)
  | PoStore b =>
      (None, match pb_store p with
             | Some h => set_history (mkHistory b (hs_revisions h) (hs_audit h)) p
             | None => p
             end)
  end.

(** A run, with the result of every operation. *)
Fixpoint prun (os : list PubOp) (p : Publisher) : list (PubOp * option Z) * Publisher :=
  match os with
  | [] => ([], p)
  | o :: os =>
      let '(r, p) := pexec o p in
      let '(rs, p) := prun os p in ((o, r) :: rs, p)
  end.

End Publish.
