(* ===== verification/PublishTheorems.v ===== *)
(** * What publishing guarantees

    Revisions are consecutive; a publication that fails changes nothing; of the
    publications that expect the same revision one succeeds at most; and with a
    required store the tables are the history of what was served. *)

From Stdlib Require Import ZArith Lia.
From stdpp Require Import base list strings gmap numbers.
From S2P Require Import Prelude Text UsageTable Publish.

#[local] Open Scope Z_scope.

Section Theorems.
Context {Cfg Reg Res Knobs Plug : Type}.
Context (validate_config : Cfg -> result unit string) (registry_from : Cfg -> result Reg string)
        (resolver_from : Cfg -> result Res string) (plugins_from : Cfg -> result Plug string)
        (knobs_from : Cfg -> Knobs) (config_hash : Cfg -> string) (knobs_json : Knobs -> string).

Abbreviation PState := (Publisher (Cfg := Cfg) (Reg := Reg) (Res := Res) (Knobs := Knobs) (Plug := Plug)).
Abbreviation exec := (pexec validate_config registry_from resolver_from plugins_from knobs_from
                        config_hash knobs_json).
Abbreviation run := (prun validate_config registry_from resolver_from plugins_from knobs_from
                       config_hash knobs_json).

Definition current (p : PState) : Z := ps_revision (pb_snapshot p).

(** ** One step *)

(** What a step may do: publish the next revision, or leave the snapshot alone. *)
Definition stepped (p : PState) (r : option Z) (p' : PState) : Prop :=
  pb_required p' = pb_required p
  /\ match r with
     | Some n => n = wrap64 (current p + 1) /\ current p' = n
     | None => pb_snapshot p' = pb_snapshot p
     end.

Lemma persist_keeps now rev hash audit (p : PState) :
  let '(r, p') := persist_checked now rev hash audit p in
  pb_snapshot p' = pb_snapshot p /\ pb_required p' = pb_required p.
Proof.
  unfold persist_checked. destruct (pb_store p) as [h|]; [|done].
  by destruct (record_revision_and_audit _ _ _) as [[]].
Qed.

Lemma commit_stepped now next hash audit (p : PState) :
  ps_revision next = wrap64 (current p + 1) ->
  let '(r, p') := commit_snapshot now next hash audit p in
  stepped p (match r with Ok n => Some n | Err _ => None end) p'.
Proof.
  intros Hn. unfold commit_snapshot, persist_for_publish. destruct (pb_required p) eqn:Er.
  - pose proof (persist_keeps now (ps_revision next) hash audit p) as H.
    destruct (persist_checked _ _ _ _ _) as [[u|e] p'], H as [H1 H2]; by split; [simpl; congruence|].
  - cbn [set_snapshot pb_required]. rewrite Er. unfold persist_best_effort.
    pose proof (persist_keeps now (ps_revision next) hash audit (set_snapshot next p)) as H.
    destruct (persist_checked _ _ _ _ _) as [r p'], H as [H1 H2]. cbn [snd].
    split; [done|]. split; [done|]. unfold current. by rewrite H1.
Qed.

Lemma swap_stepped now cfg audit (p : PState) :
  let '(r, p') := swap_config_locked validate_config registry_from resolver_from plugins_from
                    knobs_from config_hash now cfg audit p in
  stepped p (match r with Ok n => Some n | Err _ => None end) p'.
Proof.
  unfold swap_config_locked. destruct (compile_next _ _ _ _ _ cfg p) as [next|e] eqn:E; [|done].
  apply commit_stepped. unfold compile_next in E.
  destruct (validate_config cfg); [|done]. destruct (registry_from cfg); [|done].
  destruct (resolver_from cfg); [|done]. cbn [try] in E. destruct (plugins_from cfg); [|done].
  by injection E as <-.
Qed.

(** A publication that succeeds had the revision it expected. *)
Definition expects (o : PubOp (Cfg := Cfg) (Knobs := Knobs)) : option Z :=
  match o with PoPublish _ _ _ e => e | _ => None end.

Lemma exec_stepped o (p : PState) :
  let '(r, p') := exec o p in
  stepped p r p' /\ (r <> None -> forall e, expects o = Some e -> current p = e).
Proof.
  destruct o as [now cfg audit expected|now cfg audit|now edit audit|b]; cbn [pexec].
  - unfold publish_with_audit. pose proof (swap_stepped now cfg audit p) as H.
    destruct expected as [e|]; [destruct (Z.eqb_spec (ps_revision (pb_snapshot p)) e) as [Heq|]|].
    2:{ simpl. by split_and!. }
    all: cbn [negb]; destruct (swap_config_locked _ _ _ _ _ _ now cfg audit p) as [[n|er] p'].
    all: split; [exact H|]; intros _ e' He; simpl in He; simplify_eq; done.
  - unfold reload_with_audit. pose proof (swap_stepped now cfg audit p) as H.
    by destruct (swap_config_locked _ _ _ _ _ _ now cfg audit p) as [[n|er] p'].
  - unfold update_runtime_with_audit.
    match goal with |- context [commit_snapshot ?t ?n ?h ?a p] =>
      pose proof (commit_stepped t n h a p eq_refl) as H; destruct (commit_snapshot t n h a p) as [[x|e] p']
    end; by split.
  - split; [|done]. by destruct (pb_store p).
Qed.

(** ** What is served *)

(** A snapshot whose parts were compiled from its configuration after validation. *)
Definition compiled (s : PSnapshot (Cfg := Cfg) (Reg := Reg) (Res := Res) (Knobs := Knobs) (Plug := Plug))
  : Prop :=
  validate_config (ps_config s) = Ok tt /\ registry_from (ps_config s) = Ok (ps_registry s)
  /\ resolver_from (ps_config s) = Ok (ps_resolver s) /\ plugins_from (ps_config s) = Ok (ps_plugins s).

(** The configuration of another snapshot, with the parts compiled from it. *)
Definition same_parts (s s' : PSnapshot (Cfg := Cfg) (Reg := Reg) (Res := Res) (Knobs := Knobs)
    (Plug := Plug)) : Prop :=
  ps_config s = ps_config s' /\ ps_registry s = ps_registry s' /\ ps_resolver s = ps_resolver s'
  /\ ps_plugins s = ps_plugins s'.

Lemma commit_served now next hash audit (p : PState) :
  let '(_, p') := commit_snapshot now next hash audit p in
  pb_snapshot p' = pb_snapshot p \/ pb_snapshot p' = next.
Proof.
  unfold commit_snapshot, persist_for_publish. destruct (pb_required p) eqn:Er.
  - pose proof (persist_keeps now (ps_revision next) hash audit p) as H.
    destruct (persist_checked _ _ _ _ _) as [[u|e] p'], H as [H1 H2]; [by right|by left].
  - cbn [set_snapshot pb_required]. rewrite Er. unfold persist_best_effort.
    pose proof (persist_keeps now (ps_revision next) hash audit (set_snapshot next p)) as H.
    destruct (persist_checked _ _ _ _ _) as [r p'], H as [H1 H2]. by right.
Qed.

Lemma swap_served now cfg audit (p : PState) :
  let '(_, p') := swap_config_locked validate_config registry_from resolver_from plugins_from
                    knobs_from config_hash now cfg audit p in
  pb_snapshot p' = pb_snapshot p \/ compiled (pb_snapshot p').
Proof.
  unfold swap_config_locked. destruct (compile_next _ _ _ _ _ cfg p) as [next|e] eqn:E; [|by left].
  pose proof (commit_served now next (config_hash cfg) audit p) as H.
  destruct (commit_snapshot now next (config_hash cfg) audit p) as [r p'].
  destruct H as [H|H]; [by left|right]. rewrite H. unfold compile_next in E.
  destruct (validate_config cfg) as [[]|] eqn:E1; [|done]. destruct (registry_from cfg) eqn:E2; [|done].
  destruct (resolver_from cfg) eqn:E3; [|done]. cbn [try] in E.
  destruct (plugins_from cfg) eqn:E4; [|done]. by injection E as <-.
Qed.

(** A step keeps the parts that are served, or serves compiled ones. *)
Lemma exec_served o (p : PState) :
  same_parts (pb_snapshot (exec o p).2) (pb_snapshot p) \/ compiled (pb_snapshot (exec o p).2).
Proof.
  assert (Hs : forall now cfg audit,
    let '(_, p') := swap_config_locked validate_config registry_from resolver_from plugins_from
                      knobs_from config_hash now cfg audit p in
    same_parts (pb_snapshot p') (pb_snapshot p) \/ compiled (pb_snapshot p')).
  { intros now cfg audit. pose proof (swap_served now cfg audit p) as H.
    destruct (swap_config_locked _ _ _ _ _ _ now cfg audit p) as [r p'].
    destruct H as [->|H]; [left; by split_and!|by right]. }
  destruct o as [now cfg audit expected|now cfg audit|now edit audit|b]; cbn [pexec].
  - unfold publish_with_audit. specialize (Hs now cfg audit).
    destruct expected as [e|]; [destruct (negb _); [by left|]|].
    all: by destruct (swap_config_locked _ _ _ _ _ _ now cfg audit p) as [r p'].
  - unfold reload_with_audit. specialize (Hs now cfg audit).
    by destruct (swap_config_locked _ _ _ _ _ _ now cfg audit p) as [r p'].
  - unfold update_runtime_with_audit.
    match goal with |- context [commit_snapshot ?t ?n ?h ?a p] =>
      pose proof (commit_served t n h a p) as H; destruct (commit_snapshot t n h a p) as [r p']
    end. left. destruct H as [H|H]; cbn [snd]; rewrite H; by split_and!.
  - left. by destruct (pb_store p).
Qed.

Lemma run_served os : forall (p : PState),
  same_parts (pb_snapshot (run os p).2) (pb_snapshot p) \/ compiled (pb_snapshot (run os p).2).
Proof.
  induction os as [|o os IH]; intros p; cbn [prun]; [left; by split_and!|].
  pose proof (exec_served o p) as H. destruct (exec o p) as [r p1]. specialize (IH p1).
  destruct (run os p1) as [rs p2]. cbn [snd] in *.
  destruct IH as [(H1 & H2 & H3 & H4)|IH]; [|by right].
  destruct H as [(?&?&?&?)|H]; [left; split_and!; congruence|right].
  unfold compiled in *. by rewrite H1, H2, H3, H4.
Qed.

(** ** Runs *)

Definition published (rs : list (PubOp (Cfg := Cfg) (Knobs := Knobs) * option Z)) : list Z :=
  omap snd rs.

(** The expectations of the publications that succeeded. *)
Definition met (rs : list (PubOp (Cfg := Cfg) (Knobs := Knobs) * option Z)) : list Z :=
  omap (fun or => match or.2 with Some _ => expects or.1 | None => None end) rs.

(** C17 (invariant). Publications are linear: the revisions that a run of publications,
    reloads and knob changes publishes are the next ones, each exactly one more
    than the last, whatever fails in between; a failed operation leaves the
    snapshot as it was; and two publications that expect the same revision never
    both succeed. *)
Theorem publications_linear os : forall (p : PState),
  0 <= current p -> current p + Z.of_nat (length os) <= u64_max ->
  let '(rs, p') := run os p in
  published rs = seqZ (current p + 1) (current p' - current p)
  /\ current p <= current p' <= current p + Z.of_nat (length os)
  /\ (published rs = [] -> pb_snapshot p' = pb_snapshot p)
  /\ NoDup (met rs) /\ Forall (fun e => current p <= e < current p') (met rs).
Proof.
  induction os as [|o os IH]; intros p H0 Hmax; cbn [prun].
  { replace (current p - current p) with 0 by lia. split_and!; try done; [simpl; lia|constructor]. }
  pose proof (exec_stepped o p) as Hs. destruct (exec o p) as [r p1].
  destruct Hs as [[Hreq Hs] Hexp]. cbn [length] in Hmax.
  destruct r as [n|].
  - destruct Hs as [Hn Hc]. rewrite wrap64_small in Hn by (unfold in_u64; lia). subst n.
    specialize (IH p1 ltac:(lia) ltac:(lia)). destruct (run os p1) as [rs p2].
    destruct IH as (H1 & H2 & H3 & H4 & H5). cbn [length]. split_and!.
    + unfold published in *. cbn [omap list_omap snd]. rewrite H1, Hc.
      rewrite (seqZ_cons (current p + 1)) by lia. f_equal; f_equal; lia.
    + lia.
    + lia.
    + done.
    + unfold met in *. cbn [omap list_omap fst snd]. destruct (expects o) as [e|] eqn:Ee; [|done].
      specialize (Hexp ltac:(done) e eq_refl). constructor; [|done]. intros Hin.
      rewrite List.Forall_forall in H5. apply list_elem_of_In, H5 in Hin. lia.
    + unfold met in *. cbn [omap list_omap fst snd].
      assert (Hf : Forall (fun e => current p <= e < current p2)
        (omap (fun or : PubOp * option Z => match or.2 with Some _ => expects or.1 | None => None end) rs))
        by (eapply List.Forall_impl; [|exact H5]; simpl; lia).
      destruct (expects o) as [e|] eqn:Ee; [|done]. specialize (Hexp ltac:(done) e eq_refl).
      constructor; [lia|done].
  - assert (Hc : current p1 = current p) by (unfold current; by rewrite Hs).
    specialize (IH p1 ltac:(lia) ltac:(lia)). destruct (run os p1) as [rs p2].
    rewrite Hc in IH. destruct IH as (H1 & H2 & H3 & H4 & H5).
    unfold published, met in *. cbn [omap list_omap fst snd length]. split_and!; try done; try lia.
    intros Hnil. rewrite (H3 Hnil). done.
Qed.

(** ** The tables *)

(** With a required store, the tables are the history: one revision row and one audit
    row for every revision up to the current one, and the current row has the hash
    of the configuration that is served. *)
Definition history_of (p : PState) (h : History) : Prop :=
  pb_store p = Some h /\ pb_required p = true /\ 1 <= current p
  /\ ae_revision <$> hs_audit h = seqZ 1 (current p)
  /\ (forall n, is_Some (hs_revisions h !! n) <-> 1 <= n <= current p)
  /\ (forall n r, hs_revisions h !! n = Some r -> rv_revision r = n)
  /\ exists r, hs_revisions h !! current p = Some r
       /\ rv_config_hash r = config_hash (ps_config (pb_snapshot p)).

Lemma commit_history now next audit (p : PState) h :
  ps_revision next = current p + 1 -> current p < i64_max -> history_of p h ->
  let '(_, p') := commit_snapshot now next (config_hash (ps_config next)) audit p in
  exists h', history_of p' h'.
Proof.
  intros Hn Hmax (Hst & Hreq & H1 & Ha & Hd & Hk & Hh).
  unfold commit_snapshot, persist_for_publish, persist_checked. rewrite Hreq, Hst.
  unfold record_revision_and_audit, history_call. destruct (hs_reachable h) eqn:Er.
  - eexists. unfold history_of, current. cbn [set_snapshot set_history pb_store pb_required
      pb_snapshot put_revision hs_audit hs_revisions hs_reachable].
    cbn [rv_revision]. unfold current in *. rewrite wrap_i64_small, Hn by (unfold i64_min; lia).
    split_and!; [done|done|lia| | | |]; cbn [hs_audit hs_revisions].
    + rewrite fmap_app, Ha. cbn [fmap list_fmap ae_revision].
      rewrite seqZ_app by lia. f_equal. rewrite seqZ_cons by lia. f_equal. lia.
    + intros n. rewrite lookup_insert_is_Some', Hd. lia.
    + intros n r Hr. apply lookup_insert_Some in Hr as [[<- <-]|[_ Hr]]; [done|by apply Hk].
    + eexists. split; [apply lookup_insert_eq|done].
  - exists h. unfold history_of, current. cbn [set_history pb_store pb_required pb_snapshot].
    by split_and!.
Qed.

Lemma swap_history now cfg audit (p : PState) h :
  current p < i64_max -> history_of p h ->
  exists h', history_of (swap_config_locked validate_config registry_from resolver_from plugins_from
                knobs_from config_hash now cfg audit p).2 h'.
Proof.
  intros Hmax Hh. unfold swap_config_locked.
  destruct (compile_next _ _ _ _ _ cfg p) as [next|e] eqn:E; [|by exists h].
  assert (Hnext : ps_revision next = current p + 1 /\ ps_config next = cfg).
  { unfold compile_next in E. destruct (validate_config cfg); [|done].
    destruct (registry_from cfg); [|done]. destruct (resolver_from cfg); [|done]. cbn [try] in E.
    destruct (plugins_from cfg); [|done]. injection E as <-. split; [|done]. cbn [ps_revision].
    destruct Hh as (_ & _ & H1 & _). unfold current in *. apply wrap64_small. unfold in_u64, u64_max.
    unfold i64_max in Hmax. lia. }
  destruct Hnext as [Hn <-]. pose proof (commit_history now next audit p h Hn Hmax Hh) as H.
  destruct (commit_snapshot _ _ _ _ _) as [r p']. done.
Qed.

Lemma exec_history o (p : PState) h :
  current p < i64_max -> history_of p h -> exists h', history_of (exec o p).2 h'.
Proof.
  intros Hmax Hh. destruct o as [now cfg audit expected|now cfg audit|now edit audit|b]; cbn [pexec].
  - unfold publish_with_audit. destruct (swap_history now cfg audit p h Hmax Hh) as [h' H'].
    destruct expected as [e|]; [destruct (negb _); [by exists h|]|];
      destruct (swap_config_locked _ _ _ _ _ _ now cfg audit p) as [[n|er] p']; by exists h'.
  - unfold reload_with_audit. destruct (swap_history now cfg audit p h Hmax Hh) as [h' H'].
    destruct (swap_config_locked _ _ _ _ _ _ now cfg audit p) as [[n|er] p']; by exists h'.
  - unfold update_runtime_with_audit.
    match goal with |- context [commit_snapshot ?t ?n ?hh ?a p] =>
      pose proof (commit_history t n a p h) as H; cbn [ps_config ps_revision] in H;
      destruct (commit_snapshot t n hh a p) as [[x|e] p']
    end; apply H; try done; destruct Hh as (_ & _ & H1 & _); unfold current in *;
      apply wrap64_small; unfold in_u64, u64_max; unfold i64_max in Hmax; lia.
  - destruct Hh as (Hst & Hreq & H1 & Ha & Hd & Hk & Hh). rewrite Hst. simpl.
    eexists. unfold history_of, current. cbn [set_history pb_store pb_required pb_snapshot hs_audit hs_revisions].
    by split_and!.
Qed.

(** A required store holds the history: after the bootstrap on an empty
    store and any run of publications, with the store failing and coming back at
    any time, there is one revision row and one audit row for every revision that
    was ever served and for no other, the audit rows in the order of the
    revisions, and the current row has the hash of the configuration that is
    served. A publication that the store refuses is not served. *)
Theorem required_history os now cfg reg res p0 :
  try_new plugins_from knobs_from cfg reg res = Ok p0 ->
  Z.of_nat (length os) < i64_max ->
  exists p, with_store_policy config_hash History_new true now p0 = Ok p
  /\ exists h, history_of (run os p).2 h.
Proof.
  intros Hnew Hlen. unfold try_new in Hnew. destruct (plugins_from cfg) as [pl|]; [|done].
  injection Hnew as <-. eexists. split; [reflexivity|].
  assert (Hrun : forall os (p : PState) h, current p + Z.of_nat (length os) < i64_max + 1 ->
            history_of p h -> exists h', history_of (run os p).2 h').
  { clear. induction os as [|o os IH]; intros p h Hb Hh; [by exists h|]. cbn [prun length] in *.
    destruct (exec_history o p h ltac:(lia) Hh) as [h1 Hh1].
    pose proof (exec_stepped o p) as Hs. destruct (exec o p) as [r p1]. destruct Hs as [[_ Hs] _].
    cbn [snd] in Hh1. assert (Hc : current p1 <= current p + 1).
    { destruct r as [n|]; [|unfold current; rewrite Hs; lia]. destruct Hs as [-> ->].
      destruct Hh as (_ & _ & H1 & _). rewrite wrap64_small; [lia|].
      unfold in_u64, u64_max. unfold i64_max in Hb. lia. }
    destruct (IH p1 h1 ltac:(lia) Hh1) as [h2 Hh2]. destruct (run os p1) as [rs p2]. by exists h2. }
  eapply Hrun.
  - unfold current. cbn. lia.
  - unfold history_of, current. cbn [set_history pb_store pb_required pb_snapshot ps_revision
      ps_config hs_audit hs_revisions put_revision History_new hs_reachable rv_revision].
    split_and!; try done; cbn [hs_audit hs_revisions put_revision History_new rv_revision];
      rewrite ?wrap_i64_small by (unfold i64_min, i64_max; lia).
    + intros n. rewrite lookup_insert_is_Some', lookup_empty. split; [intros [<-|[? ?]]; [lia|done]|].
      intros. left. lia.
    + intros n r Hr. apply lookup_insert_Some in Hr as [[<- <-]|[_ Hr]]; [done|]. by rewrite lookup_empty in Hr.
    + eexists. split; [apply lookup_insert_eq|done].
Qed.

(** A restarted engine numbers its revisions from one again: its bootstrap replaces the
    row that an earlier process stored under the same number. *)
Lemma restart_replaces_revision now cfg reg res (p0 : PState) h required :
  hs_reachable h = true -> try_new plugins_from knobs_from cfg reg res = Ok p0 ->
  exists (p : PState) h', with_store_policy config_hash h required now p0 = Ok p /\ pb_store p = Some h'
  /\ hs_revisions h' !! 1 = Some (mkRevisionRecord 1 (config_hash cfg) "bootstrap" now).
Proof.
  intros Hr Hnew. unfold try_new in Hnew. destruct (plugins_from cfg) as [pl|]; [|done].
  injection Hnew as <-. unfold with_store_policy, persist_best_effort, persist_checked,
    record_revision_and_audit, history_call. cbn [pb_store]. rewrite Hr.
  destruct required; eexists _, _; (split; [reflexivity|]); (split; [reflexivity|]);
    apply lookup_insert_eq.
Qed.

End Theorems.

(** ** Samples *)

Module PublishSamples.

(** A configuration is a number; odd ones are refused. *)
Definition validate (c : Z) : result unit string := if Z.even c then Ok tt else Err "odd".
Definition unit_from (c : Z) : result unit string := Ok tt.
Definition hash (c : Z) : string := fmt_int c.

Definition publisher := mkPublisher (mkPSnapshot 1 0 tt tt 0 tt) None false None.

Definition race : list (PubOp (Cfg := Z) (Knobs := Z)) :=
  [PoPublish 10 2 (AuditContext_new "a" "") (Some 1); PoPublish 11 4 (AuditContext_new "b" "") (Some 1);
   PoReload 12 3 (AuditContext_new "c" ""); PoKnobs 13 (fun k => k + 1) None; PoStore false;
   PoReload 14 6 (AuditContext_new "d" "")].

Lemma publications_linear_witness :
  let '(rs, p') := prun validate unit_from unit_from unit_from (fun c => c) hash fmt_int race publisher in
  published rs = seqZ 2 (current p' - 1) /\ current p' = 4.
Proof.
  pose proof (publications_linear validate unit_from unit_from unit_from (fun c : Z => c) hash fmt_int
    race publisher ltac:(vm_compute; discriminate) ltac:(vm_compute; discriminate)) as H.
  destruct (prun _ _ _ _ _ _ _ race publisher) as [rs p'] eqn:E. split; [apply H|].
  apply (f_equal (fun x => current x.2)) in E. simpl in E. rewrite <- E. vm_compute. reflexivity.
Defined.

Lemma required_history_witness :
  exists p, with_store_policy hash History_new true 1 publisher = Ok p
  /\ exists h, history_of hash (prun validate unit_from unit_from unit_from (fun c => c) hash fmt_int
                 race p).2 h.
Proof.
  apply (required_history validate unit_from unit_from unit_from (fun c : Z => c) hash fmt_int race 1
    0 tt tt publisher); [reflexivity|vm_compute; reflexivity].
Defined.

End PublishSamples.
