(* ===== verification/Validate.v ===== *)
(** * Publishing valid configurations

    [Engine::validate_config] ([crates/sb-runtime/src/snapshot.rs]), which gathers the
    checks of all crates, and what it means for the snapshots that are served:
    publication, validation, the registry and routing put together. *)

From Stdlib Require Import ZArith Lia.
From stdpp Require Import base list strings gmap.
From S2P Require Import Prelude Text Lines BTree Float Ir Config Target Routing Catalog Ledger Resolver.
From S2P Require Import Profiles Access Net ConfigSchema ConfigCheck ConfigTheorems Accounts Plugins.
From S2P Require Import Adapters Publish PublishTheorems.

#[local] Open Scope Z_scope.
#[local] Open Scope switchback_scope.

(** The checks on a target that may receive bodies for judging. *)
Definition judge_target_problems (r : AdapterRegistry) (i : Z) (target_id : string) : list string :=
  let label := at_ "server.quality_eval.body_allowed_targets" i ^^ " `" ^^ target_id ^^ "`" in
  match target_for r LatencyTracker_new target_id with
  | None => [label ^^ " does not resolve"]
  | Some target =>
      let priced := match cost_profile r (t_provider_id target) (t_model target) with
        | Some cost => let blended := blended_per_mtok cost in is_finite blended && f_lt f64_zero blended
        | None => false
        end in
      when (negb priced) (label ^^ " must be positively priced")
      ++ flat_map (fun tag => when (existsb (str_eqb tag) (t_policy_tags target))
           (label ^^ " must not use a " ^^ tag ^^ " target")) ["free"; "aggregator"]
  end.

Section Validate.
Context (registry_from : Config -> result AdapterRegistry string)
        (plugins_from : list PluginConfig -> result PluginHost string).

Definition validation_problems (c : Config) : list string :=
  semantic_problems c
  ++ match cg_catalog c with
     | Some catalog => (fun p => "catalog: " ^^ p) <$> validate catalog
     | None => []
     end
  ++ match registry_from c with
     | Ok r =>
         if qe_enabled (sv_quality_eval (cg_server c))
         then each (judge_target_problems r) (qe_body_allowed_targets (sv_quality_eval (cg_server c)))
         else []
     | Err e => ["adapters: " ^^ e]
     end
  ++ match validate_credentials c with Ok _ => [] | Err e => ["credentials: " ^^ e] end
  ++ match plugins_from (cg_plugins c) with Ok _ => [] | Err e => ["plugins: " ^^ e] end.

Definition validate_config (c : Config) : result unit string :=
  match validation_problems c with
  | [] => Ok tt
  | problems => Err (join "; " problems)
  end.

Lemma validate_config_ok c : validate_config c = Ok tt -> validation_problems c = [].
Proof. unfold validate_config. by destruct (validation_problems c). Qed.

End Validate.

Section Served.
(** The environment of the registry (outbound clients, cost map), the credential
    resolver, the sandbox of plugins, and the hash and rendering for the audit. *)
Context {Res : Type} (pool : Config -> result EgressPool string)
        (load : string -> result (gmap string CostEntry) string)
        (resolver_from : Config -> result Res string)
        (plugins_from : list PluginConfig -> result PluginHost string)
        (config_hash : Config -> string) (knobs_json : Runtime -> string).

Definition registry_of (c : Config) : result AdapterRegistry string :=
  AdapterRegistry_from_config (pool c) load c.

(** Whatever is published, routing works on it: after any run of
    publications, reloads and knob changes the served snapshot either has the
    parts that were served at the start, or its configuration is sound, its
    registry was built from it, and for every model resolution finds targets of
    declared providers, meets no unknown name but those of media executors, and
    refuses a model only if no route matches it and there is no catch-all. *)
Theorem published_routes_resolve os p0 lat model :
  let p := (prun (validate_config registry_of plugins_from) registry_of resolver_from
              (fun c => plugins_from (cg_plugins c)) (fun c => Runtime_from_config (engine_config c))
              config_hash knobs_json os p0).2 in
  let s := pb_snapshot p in
  same_parts s (pb_snapshot p0)
  \/ (config_ok (ps_config s)
      /\ match match_candidates (mkSnapshot (ps_revision s) (engine_config (ps_config s))
                 (runtime_registry (ps_registry s) lat) (ps_runtime s)) model with
         | Ok res => resolved_ok (ps_config s) res
         | Err e => xe_status e = 404
             /\ exact_route_for (engine_config (ps_config s)) model = None
             /\ wildcard_route (engine_config (ps_config s)) = None
         end).
Proof.
  cbv zeta.
  destruct (run_served (validate_config registry_of plugins_from) registry_of resolver_from
    (fun c => plugins_from (cg_plugins c)) (fun c => Runtime_from_config (engine_config c))
    config_hash knobs_json os p0) as [H|(Hv & Hr & _ & _)]; [by left|right].
  apply validate_config_ok in Hv. unfold validation_problems in Hv. rewrite !app_nil in Hv.
  destruct Hv as [Hs _]. split; [by apply no_problems_ok|].
  exact (validated_resolution _ _ _ _ lat _ _ model Hs Hr).
Qed.

End Served.
