(* ===== verification/Preview.v ===== *)
(** * Route preview

    [Engine::preview_route] ([crates/sb-runtime/src/snapshot.rs]): the routing of a
    request without its execution, and the theorem that execution does what the
    preview says. The receipt that both attach to the plan is not modelled. *)

From Stdlib Require Import ZArith Lia.
From stdpp Require Import base list strings gmap.
From S2P Require Import Prelude Text BTree Float Time Ir Config Target Routing Router.
From S2P Require Import Catalog Ledger Breaker Availability ScorecardEntry Scorecard.
From S2P Require Import Plugins.
From S2P Require Import Resolver Collect Profiles Trace Compress Engine UsageTable EngineSamples.

#[local] Open Scope Z_scope.

Section Preview.
Context {S : Type} `{UsageStore S}.
Context (env : Env (S := S)) (host : Host) (store_required : bool) (snap : Snapshot).

#[local] Notation "'let*' x := m 'in' k" := (Engine.bind m (fun x => k))
  (at level 10, x pattern, m at level 100, k at level 200).

(** Candidates and plan, with the cursor of a combo left where it is. *)
Definition preview_planned (req : AiRequest) (client_profile : option ClientProfileConfig)
  : M (S := S) (result (string * list string * RoutePlan) ExecError) :=
  let* t := now env in
  let* resolved := (fun w =>
    let '(r, sc) := resolve_candidates (h_evaluator_id host) snap (req_model req)
                      (w_resolver w) (w_scorecard w) t in (r, set_scorecard sc w)) in
  match resolved with
  | Err e => Engine.ret (Err e)
  | Ok resolved =>
      let* planned := (fun w =>
        let '(p, c) := plan_resolved_route (w_combo_rr w) snap (w_resolver w) req client_profile
                         resolved false in (p, set_combo_rr c w)) in
      Engine.ret (match planned with
           | Ok (route_name, plan) => Ok (route_name, cr_unknown resolved, plan)
           | Err e => Err e
           end)
  end.

Definition preview_route (req : AiRequest) : M (S := S) (result (Z * RoutePlan) ExecError) :=
  let '(verdict, req) := h_pre_route host req in
  match verdict with
  | PluginReject status message =>
      Engine.ret (Err (ExecError_new status "plugin_rejected" message None))
  | PluginContinue =>
      match apply_request_client_profile (sn_config snap) req with
      | Err e => Engine.ret (Err e)
      | Ok (client_profile, req) =>
          let* planned := preview_planned req client_profile in
          Engine.ret (match planned with
               | Ok (_, _, plan) => Ok (sn_revision snap, plan)
               | Err e => Err e
               end)
      end
  end.

(** ** Lemmas *)

(** Whether the cursor advances does not show in the order. *)
Lemma combo_order_same rr res :
  (apply_combo_order rr res false).1 = (apply_combo_order rr res true).1.
Proof.
  unfold apply_combo_order. destruct (cr_combo res) as [c|]; [|done].
  destruct (rcb_strategy c); [done|]. by destruct (_ <=? 1).
Qed.

Lemma combo_order_still rr res n :
  default 0 ((apply_combo_order rr res false).2 !! n) = default 0 (rr !! n).
Proof.
  unfold apply_combo_order. destruct (cr_combo res) as [c|]; [|done].
  destruct (rcb_strategy c); [done|]. destruct (_ <=? 1); [done|]. cbn [snd].
  destruct (decide (rcb_name c = n)) as [<-|Hne]; [by rewrite lookup_insert_eq|].
  by rewrite lookup_insert_ne.
Qed.

Lemma combo_order_advances rr res n :
  let c := default 0 (rr !! n) in
  default 0 ((apply_combo_order rr res true).2 !! n) ∈ [c; wrap64 (c + 1)].
Proof.
  unfold apply_combo_order. destruct (cr_combo res) as [c|]; [|by left].
  destruct (rcb_strategy c); [by left|]. destruct (_ <=? 1); [by left|]. cbn [snd].
  destruct (decide (rcb_name c = n)) as [<-|Hne]; [rewrite lookup_insert_eq; right; by left|].
  rewrite lookup_insert_ne by done. by left.
Qed.

Lemma plan_same rr r req cp res :
  (plan_resolved_route rr snap r req cp res false).1
  = (plan_resolved_route rr snap r req cp res true).1.
Proof.
  unfold plan_resolved_route. pose proof (combo_order_same rr res) as E.
  destruct (apply_combo_order rr res false) as [res1 c1], (apply_combo_order rr res true) as [res2 c2].
  simpl in E. subst res2. by repeat case_match.
Qed.

Lemma plan_cursor rr r req cp res adv :
  (plan_resolved_route rr snap r req cp res adv).2 = (apply_combo_order rr res adv).2.
Proof.
  unfold plan_resolved_route. destruct (apply_combo_order rr res adv) as [res1 c1].
  by repeat case_match.
Qed.

(** The world after a preview, as far as later planning can tell. *)
Definition same_but_cursors (w w' : World (S := S)) : Prop :=
  w_ledger w' = w_ledger w /\ w_resolver w' = w_resolver w /\ w_dispatched w' = w_dispatched w
  /\ w_trace_log w' = w_trace_log w /\ w_trace_rows w' = w_trace_rows w
  /\ forall n, default 0 (w_combo_rr w' !! n) = default 0 (w_combo_rr w !! n).

(** The preview is what execution does: planned at the same moment on
    the same state, a request is executed exactly by running the plan that the
    preview shows (its candidates in their order and its decision), or refused
    with the preview's error; the only difference is the cursor of a round-robin
    combo, which execution advances and the preview does not. *)
Theorem preview_agrees req cp started (w : World (S := S)) :
  let '(previewed, w1) := preview_planned req cp w in
  exists rr, (forall n, let c := default 0 (w_combo_rr w1 !! n) in
                default 0 (rr !! n) ∈ [c; wrap64 (c + 1)])
    /\ run_route env host store_required snap req cp None started w
    = match previewed with
      | Err e => deny env host snap req e started (set_combo_rr rr w1)
      | Ok (route_name, unknown, plan) =>
          run_plan env host store_required snap req cp None started route_name unknown plan
            (set_combo_rr rr w1)
      end.
Proof.
  unfold preview_planned, run_route, Engine.bind. destruct (now env w) as [t w0].
  destruct (resolve_candidates (h_evaluator_id host) snap (req_model req) (w_resolver w0)
    (w_scorecard w0) t) as [[res|e] sc].
  2:{ exists (w_combo_rr w0). split; [intros n; by left|]. unfold Engine.ret. f_equal. }
  set (wp := set_scorecard sc w0).
  assert (Hc : set_candidates (cr_candidates res) res = res) by (by destruct res). rewrite Hc.
  pose proof (plan_same (w_combo_rr wp) (w_resolver wp) req cp res) as E.
  pose proof (plan_cursor (w_combo_rr wp) (w_resolver wp) req cp res false) as Ef.
  pose proof (plan_cursor (w_combo_rr wp) (w_resolver wp) req cp res true) as Et.
  destruct (plan_resolved_route (w_combo_rr wp) snap (w_resolver wp) req cp res false) as [p1 c1].
  destruct (plan_resolved_route (w_combo_rr wp) snap (w_resolver wp) req cp res true) as [p2 c2].
  cbn [fst snd] in E, Ef, Et. subst p2 c1 c2.
  exists (apply_combo_order (w_combo_rr wp) res true).2. split.
  { intros n. destruct p1 as [[? ?]|?]; cbn [snd set_combo_rr w_combo_rr fst];
      rewrite combo_order_still; apply combo_order_advances. }
  unfold Engine.ret. cbn [fst snd].
  destruct p1 as [[route_name plan]|e]; [|done].
  replace (mkRoutePlan (plan_candidates plan) (plan_decision plan)) with plan by (by destruct plan).
  done.
Qed.

(** A preview leaves the books, the traces, the accounts and the cursors alone, and
    calls nobody. *)
Lemma preview_has_no_effect req (w : World (S := S)) :
  (forall w, same_but_cursors w (now env w).2) -> same_but_cursors w (preview_route req w).2.
Proof.
  intros Hnow. unfold preview_route, preview_planned, Engine.bind, Engine.ret.
  destruct (h_pre_route host req) as [[|status msg] req1]; [|by split_and!].
  destruct (apply_request_client_profile (sn_config snap) req1) as [[cp req2]|e]; [|by split_and!].
  specialize (Hnow w). destruct (now env w) as [t w0]. cbn [snd] in Hnow.
  destruct (resolve_candidates _ snap (req_model req2) (w_resolver w0) (w_scorecard w0) t) as [[res|e] sc];
    [|done].
  pose proof (plan_cursor (w_combo_rr (set_scorecard sc w0)) (w_resolver (set_scorecard sc w0)) req2 cp
    res false) as Ec.
  destruct (plan_resolved_route _ snap _ req2 cp res false) as [p c]. cbn [snd] in Ec |- *. subst c.
  destruct Hnow as (H1 & H2 & H3 & H4 & H5 & H6). split_and!; try done.
  intros n. cbn [set_combo_rr w_combo_rr]. rewrite combo_order_still. apply H6.
Qed.

End Preview.

(** The sample configuration: the preview names the plan. *)
Example preview_sample :
  let '(r, _) := preview_route EngineSamples.env EngineSamples.host
                   (EngineSamples.snap EngineSamples.acme_free false) EngineSamples.request
                   EngineSamples.world in
  match r with
  | Ok (revision, plan) => revision = 7 /\ t_id <$> plan_candidates plan = ["p/m"; "q/m"]
  | Err _ => False
  end.
Proof. vm_compute. by split. Qed.
