(* ===== verification/Sign.v ===== *)
(** * Request signing

    [crates/sb-adapters/src/signer.rs] and [sigv4.rs]: what a lease adds to an
    outbound request. SHA-256 and HMAC come from libraries and are parameters, as
    is the time. *)

From Stdlib Require Import ZArith Lia Ascii.
From stdpp Require Import base list strings option.
From S2P Require Import Prelude Text Lines BTree Float Access Resolver ConfigSchema Adapters.

#[local] Open Scope Z_scope.
#[local] Open Scope switchback_scope.

#[export] Instance AuthKind_eq_dec : EqDecision AuthKind.
Proof. solve_decision. Defined.

Record SignTarget := mkSignTarget {
  st_method : string;
  st_host : string;
  st_path : string;
  st_query : string;
  st_body : string
}.

Record SignedAdditions := mkSignedAdditions {
  sa_headers : list (string * string);
  sa_query : list (string * string)
}.

Definition SignedAdditions_default : SignedAdditions := mkSignedAdditions [] [].

(** ** Secrets attached as they are *)

Definition scheme_sign (scheme : AuthScheme) (lease : option CredentialLease) : SignedAdditions :=
  match lease with
  | None => SignedAdditions_default
  | Some lease =>
      if bool_decide (auth_kind lease = Resolver.AuthNone) || is_empty (lease_secret lease)
      then SignedAdditions_default
      else match scheme with
      | SchemeNone => SignedAdditions_default
      | SchemeBearer => mkSignedAdditions [("authorization", "Bearer " ^^ lease_secret lease)] []
      | SchemeHeader name => mkSignedAdditions [(name, lease_secret lease)] []
      | SchemeQuery name => mkSignedAdditions [] [(name, lease_secret lease)]
      end
  end.

Definition codex_native_sign (lease : option CredentialLease) : SignedAdditions :=
  match lease with
  | None => SignedAdditions_default
  | Some lease =>
      if negb (bool_decide (auth_kind lease = Resolver.AuthBearer)) || is_empty (lease_secret lease)
      then SignedAdditions_default
      else mkSignedAdditions
             (("authorization", "Bearer " ^^ lease_secret lease)
              :: match chatgpt_account_id lease with
                 | Some account_id =>
                     if is_empty account_id then [] else [("chatgpt-account-id", account_id)]
                 | None => []
                 end) []
  end.

(** ** AWS Signature Version 4 *)

(** A moment in UTC. *)
Record DateTime := mkDateTime {
  dt_year : Z; dt_month : Z; dt_day : Z; dt_hour : Z; dt_minute : Z; dt_second : Z
}.

Definition amz_date (now : DateTime) : string :=
  pad_digits 4 (dt_year now) ^^ pad_digits 2 (dt_month now) ^^ pad_digits 2 (dt_day now) ^^ "T"
  ^^ pad_digits 2 (dt_hour now) ^^ pad_digits 2 (dt_minute now) ^^ pad_digits 2 (dt_second now) ^^ "Z".

Section SigV4.
Context (sha256 : string -> string) (hmac : string -> string -> string).

Definition payload_sha256_hex (data : string) : string := hex_bytes (sha256 data).

Definition canonical_header (h : string * string) : string := h.1 ^^ ":" ^^ trim h.2 ^^ nl.

(** The headers that are signed, by name. *)
Definition signed_header_list (target : SignTarget) (creds : AwsSigV4Lease) (date : string)
  : list (string * string) :=
  sort_by (fun a b => String.compare a.1 b.1)
    ([("host", st_host target); ("x-amz-content-sha256", payload_sha256_hex (st_body target));
      ("x-amz-date", date)]
     ++ match session_token creds with
        | Some token => [("x-amz-security-token", token)]
        | None => []
        end).

Definition canonical_request (target : SignTarget) (headers : list (string * string)) : string :=
  join nl [st_method target; st_path target; st_query target; join EmptyString (canonical_header <$> headers);
           join ";" (headers.*1); payload_sha256_hex (st_body target)].

Definition signing_key (creds : AwsSigV4Lease) (datestamp region service : string) : string :=
  hmac (hmac (hmac (hmac ("AWS4" ^^ secret_access_key creds) datestamp) region) service) "aws4_request".

Definition sigv4_sign (target : SignTarget) (creds : AwsSigV4Lease) (region service date : string)
  : list (string * string) :=
  let datestamp := String.substring 0 8 date in
  let headers := signed_header_list target creds date in
  let scope := datestamp ^^ "/" ^^ region ^^ "/" ^^ service ^^ "/aws4_request" in
  let string_to_sign :=
    join nl ["AWS4-HMAC-SHA256"; date; scope; payload_sha256_hex (canonical_request target headers)] in
  let signature := hex_bytes (hmac (signing_key creds datestamp region service) string_to_sign) in
  [("x-amz-date", date); ("x-amz-content-sha256", payload_sha256_hex (st_body target));
   ("authorization",
    "AWS4-HMAC-SHA256 Credential=" ^^ access_key_id creds ^^ "/" ^^ scope ^^ ", SignedHeaders="
      ^^ join ";" (headers.*1) ^^ ", Signature=" ^^ signature)]
  ++ match session_token creds with
     | Some token => [("x-amz-security-token", token)]
     | None => []
     end.

Context (now : DateTime).

Definition sigv4_lease_sign (region service : string) (target : SignTarget) (lease : option CredentialLease)
  : SignedAdditions :=
  match lease with
  | None => SignedAdditions_default
  | Some lease =>
      if negb (bool_decide (auth_kind lease = Resolver.AuthAwsSigV4)) then SignedAdditions_default
      else match lease_aws_sigv4 lease with
      | None => SignedAdditions_default
      | Some creds => mkSignedAdditions (sigv4_sign target creds region service (amz_date now)) []
      end
  end.

Definition signer_sign (signer : RequestSigner) (target : SignTarget) (lease : option CredentialLease)
  : SignedAdditions :=
  match signer with
  | SchemeSigner scheme => scheme_sign scheme lease
  | CodexNativeSigner => codex_native_sign lease
  | SigV4Signer region service => sigv4_lease_sign region service target lease
  end.

End SigV4.

(** [url.split("://").nth(1).unwrap_or(url)]. *)
Definition after_scheme (url : string) : string :=
  match split_once "://" url with
  | Some (_, rest) => match split_once "://" rest with Some (second, _) => second | None => rest end
  | None => url
  end.

(** Host, path and query. *)
Definition split_url (url : string) : string * string * string :=
  let '(authority_path, query) := match split_once "?" (after_scheme url) with
    | Some (ap, q) => (ap, q)
    | None => (after_scheme url, EmptyString)
    end in
  match split_once "/" authority_path with
  | Some (host, path) => (host, "/" ^^ path, query)
  | None => (authority_path, "/", query)
  end.

Example split_url_samples :
  split_url "https://h.example/model/a%3Ab/invoke" = ("h.example", "/model/a%3Ab/invoke", EmptyString)
  /\ split_url "https://h/v1?alt=sse" = ("h", "/v1", "alt=sse") /\ split_url "h" = ("h", "/", EmptyString).
Proof. done. Qed.
