(* ===== verification/Codecs.v ===== *)
(** * Wire codecs

    [crates/sb-adapters/src/codec.rs]: what differs between providers at the wire,
    for each of the codecs: URLs, fixed headers, bodies, responses and decoders.
    The formats themselves are in the files on protocols. [fresh] is the identifier
    that a parser draws for a response without one. *)

From Stdlib Require Import ZArith Lia Ascii.
From stdpp Require Import base list strings option gmap.
From S2P Require Import Prelude Text Lines BTree Float Ir Target Value OpenaiChat Messages Schema Gemini Responses.
From S2P Require Import Access Adapters.

#[local] Open Scope Z_scope.
#[local] Open Scope switchback_scope.

(** ** Names, URLs, headers *)

Definition is_codex_native_relay (id : string) : bool := str_eqb id "codex_native_relay".

Definition base_of (base_url : string) : string := trim_end_matches "/" base_url.

Definition is_unreserved (c : ascii) : bool :=
  let n := byte_val c in
  ((65 <=? n) && (n <=? 90)) || ((97 <=? n) && (n <=? 122)) || ((48 <=? n) && (n <=? 57))
  || existsb (Ascii.eqb c) ["-"; "."; "_"; "~"]%char.

(** [format!("{:X}", n)] for one digit. *)
Definition upper_hex_digit (n : Z) : ascii :=
  default "0"%char (String.get (Z.to_nat n) "0123456789ABCDEF").

Fixpoint percent_encode_segment (s : string) : string :=
  match s with
  | EmptyString => EmptyString
  | String b s =>
      if is_unreserved b then String b (percent_encode_segment s)
      else String "%" (String (upper_hex_digit (Z.shiftr (byte_val b) 4))
             (String (upper_hex_digit (Z.land (byte_val b) 15)) (percent_encode_segment s)))
  end.

Definition generate_method (stream : bool) : string :=
  if stream then "streamGenerateContent?alt=sse" else "generateContent".

(** ** Model lists *)

Definition string_field_array (body : Json) (array_key field_key : string) : result (list string) string :=
  let? items := ok_or (get_array array_key body) ("models response missing `" ^^ array_key ^^ "` array") in
  Ok (omap (get_str field_key) items).

(** Models that can generate, or do not say. *)
Definition generates (item : Json) : bool :=
  match or_else (get "supportedGenerationMethods" item) (get "supported_actions" item) ≫= as_array with
  | Some methods => existsb (fun m => str_eqb m "generateContent") (omap as_str methods)
  | None => true
  end.

Definition gemini_models (body : Json) : result (list string) string :=
  let? items := ok_or (get_array "models" body) "models response missing `models` array" in
  Ok ((fun id => default id (strip_prefix "models/" id))
      <$> omap (fun item => or_else (get_str "baseModelId" item) (get_str "name" item))
            (List.filter generates items)).

(** What a codec says about names, URLs, headers and model lists: the methods of
    [WireCodec] that no text is printed or parsed for. *)
Record CodecShape := mkCodecShape {
  cs_id : string;
  cs_url : string -> string -> bool -> string;
  cs_headers : list (string * string);
  cs_upstream_stream : bool -> bool;
  cs_embeddings_url : string -> option string;
  cs_models_url : string -> option string;
  cs_parse_models : Json -> result (list string) string
}.

(** The default methods of the trait. *)
Definition as_requested (requested : bool) : bool := requested.
Definition no_url (base_url : string) : option string := None.
Definition no_model_list (body : Json) : result (list string) string :=
  Err "model listing not supported by this wire format".

Definition data_ids (body : Json) : result (list string) string := string_field_array body "data" "id".

Definition openai_shape : CodecShape :=
  mkCodecShape "openai_compatible" (fun base_url _ _ => base_of base_url ^^ "/chat/completions") []
    as_requested (fun base_url => Some (base_of base_url ^^ "/embeddings"))
    (fun base_url => Some (base_of base_url ^^ "/models")) data_ids.

(** A native relay is always streamed from upstream. *)
Definition responses_upstream_stream (id : string) (requested : bool) : bool :=
  if is_codex_native_relay id then true else requested.

Definition responses_shape (id : string) : CodecShape :=
  mkCodecShape id (fun base_url _ _ => base_of base_url ^^ "/responses")
    [("openai-beta", "responses=experimental"); ("x-responsesapi-include-timing-metrics", "true")]
    (responses_upstream_stream id) no_url (fun base_url => Some (base_of base_url ^^ "/models")) data_ids.

Definition anthropic_shape : CodecShape :=
  mkCodecShape "anthropic" (fun base_url _ _ => base_of base_url ^^ "/v1/messages")
    [("anthropic-version", ANTHROPIC_VERSION)] as_requested no_url
    (fun base_url => Some (base_of base_url ^^ "/v1/models")) data_ids.

Definition claude_code_shape : CodecShape :=
  mkCodecShape "claude_code_native_relay" (cs_url anthropic_shape)
    [("anthropic-version", ANTHROPIC_VERSION); ("anthropic-beta", "oauth-2025-04-20"); ("x-app", "cli");
     ("x-anthropic-billing-header",
      "cc_version=switchback; cc_entrypoint=switchback-native-relay; cch=00000;")]
    as_requested no_url (cs_models_url anthropic_shape) (cs_parse_models anthropic_shape).

Definition gemini_shape : CodecShape :=
  mkCodecShape "gemini"
    (fun base_url model stream =>
       base_of base_url ^^ "/v1beta/models/" ^^ model ^^ ":" ^^ generate_method stream)
    [] as_requested no_url (fun base_url => Some (base_of base_url ^^ "/v1beta/models")) gemini_models.

Definition vertex_shape (project region : string) : CodecShape :=
  mkCodecShape "vertex"
    (fun base_url model stream =>
       base_of base_url ^^ "/v1/projects/" ^^ project ^^ "/locations/" ^^ region
         ^^ "/publishers/google/models/" ^^ model ^^ ":" ^^ generate_method stream)
    [] as_requested no_url no_url no_model_list.

Definition bedrock_shape : CodecShape :=
  mkCodecShape "bedrock"
    (fun base_url model stream =>
       base_of base_url ^^ "/model/" ^^ percent_encode_segment model ^^ "/"
         ^^ (if stream then "invoke-with-response-stream" else "invoke"))
    [] as_requested no_url no_url no_model_list.

Definition codec_shape (c : WireCodec) : CodecShape :=
  match c with
  | OpenAiCodec => openai_shape
  | OpenAiResponsesCodec id => responses_shape id
  | AnthropicCodec => anthropic_shape
  | ClaudeCodeNativeRelayCodec => claude_code_shape
  | GeminiCodec => gemini_shape
  | VertexCodec project region => vertex_shape project region
  | BedrockCodec => bedrock_shape
  end.

(** ** Bodies *)

(** [object.remove(key)]. *)
Definition remove_key (key : string) (v : Json) : Json :=
  match v with JObject m => JObject (List.filter (fun kv => negb (String.eqb kv.1 key)) m) | v => v end.

(** The inclusive bound that replaces an exclusive one. *)
Definition inclusive_minimum (object exclusive : Json) : option Json :=
  if bool_decide (get_str "type" object = Some "integer") then
    JInt <$> or_else (n ← as_i64 exclusive; if n <? 2 ^ 63 - 1 then Some (n + 1) else None)
                     (n ← as_u64 exclusive; if n <? u64_max then Some (n + 1) else None)
  else if is_number exclusive then Some exclusive else None.

Definition raise_minimum (object minimum : Json) : Json :=
  let should_replace := match as_f64 minimum, get_f64 "minimum" object with
    | Some replacement, Some current => f_lt current replacement
    | _, _ => true
    end in
  if should_replace then put "minimum" minimum object else object.

Fixpoint downlevel_codex_native_exclusive_minimum (schema : Json) : Json :=
  match schema with
  | JObject m =>
      let object := JObject (map (fun kv => (kv.1, downlevel_codex_native_exclusive_minimum kv.2)) m) in
      match get "exclusiveMinimum" object with
      | None => object
      | Some exclusive =>
          let object := remove_key "exclusiveMinimum" object in
          match inclusive_minimum object exclusive with
          | Some minimum => raise_minimum object minimum
          | None => object
          end
      end
  | v => v
  end.

Definition downlevel_tool (tool : Json) : Json :=
  match get "parameters" tool with
  | Some parameters => put "parameters" (downlevel_codex_native_exclusive_minimum parameters) tool
  | None => tool
  end.

(** What the native backend needs. *)
Definition codex_native_body (body : Json) : Json :=
  let body := remove_key "top_p" (remove_key "temperature" (remove_key "max_output_tokens"
                (put "store" (JBool false) body))) in
  let body := match get_array "tools" body with
    | Some tools => put "tools" (JArray (downlevel_tool <$> tools)) body
    | None => body
    end in
  if trim_is_empty (default EmptyString (get_str "instructions" body))
  then put "instructions" (JString "You are Codex, a helpful coding assistant.") body
  else body.

Definition bedrock_body (body : Json) : Json :=
  put "anthropic_version" (JString "bedrock-2023-05-31") (remove_key "stream" (remove_key "model" body)).

Section Codec.
Context (parse_json : string -> option Json) (print_json : Json -> string).

(** A decoder for one stream, of the format of its codec. *)
Inductive StreamDecoder :=
| OpenAiDecoder (d : OpenAiStreamDecoder)
| ResponsesDecoder (d : OpenAiResponsesDecoder)
| AnthropicDecoder (d : AnthropicStreamDecoder)
| GeminiDecoder (d : GeminiStreamDecoder).

Definition decoder_decode (d : StreamDecoder) (frame : Json) : StreamDecoder * list AiStreamEvent :=
  match d with
  | OpenAiDecoder d => let '(d, evs) := openai_decode d frame in (OpenAiDecoder d, evs)
  | ResponsesDecoder d => let '(d, evs) := responses_decode parse_json d frame in (ResponsesDecoder d, evs)
  | AnthropicDecoder d => let '(d, evs) := anthropic_decode d frame in (AnthropicDecoder d, evs)
  | GeminiDecoder d => let '(d, evs) := gemini_decode print_json d frame in (GeminiDecoder d, evs)
  end.

Definition decoder_finish (d : StreamDecoder) : StreamDecoder * list AiStreamEvent :=
  match d with
  | OpenAiDecoder d => let '(d, evs) := openai_finish d in (OpenAiDecoder d, evs)
  | ResponsesDecoder d => (ResponsesDecoder d, [])
  | AnthropicDecoder d => let '(d, evs) := anthropic_finish d in (AnthropicDecoder d, evs)
  | GeminiDecoder d => let '(d, evs) := gemini_finish d in (GeminiDecoder d, evs)
  end.

(** The methods that print and parse: bodies, warnings, responses, decoders. *)
Record CodecFormat := mkCodecFormat {
  cf_request_body : AiRequest -> string -> bool -> result Json string;
  cf_warnings : AiRequest -> list string;
  cf_parse_response : string -> Json -> result AiResponse string;
  cf_decoder : string -> StreamDecoder
}.

Definition no_warnings (req : AiRequest) : list string := [].

Definition openai_format : CodecFormat :=
  mkCodecFormat (request_to_openai_wire print_json) no_warnings (parse_openai_chat_response parse_json)
    (fun _ => OpenAiDecoder OpenAiStreamDecoder_new).

Definition responses_request_body (id : string) (req : AiRequest) (model : string) (stream : bool)
  : result Json string :=
  let? body := request_to_openai_responses_wire print_json req model (responses_upstream_stream id stream) in
  Ok (if is_codex_native_relay id then codex_native_body body else body).

Definition responses_format (id : string) : CodecFormat :=
  mkCodecFormat (responses_request_body id) no_warnings (fun _ => parse_openai_responses_response parse_json)
    (fun model => ResponsesDecoder (mkOpenAiResponsesDecoder model ∅ ∅)).

Definition anthropic_format : CodecFormat :=
  mkCodecFormat request_to_anthropic_wire no_warnings parse_anthropic_response
    (fun _ => AnthropicDecoder AnthropicStreamDecoder_new).

Definition schema_warnings (req : AiRequest) : list string :=
  warning_text <$> schema_downlevel_warnings print_json req.

Definition gemini_format : CodecFormat :=
  mkCodecFormat (fun req _ _ => request_to_gemini_wire print_json req) schema_warnings parse_gemini_response
    (fun model => GeminiDecoder (GeminiStreamDecoder_new model)).

Definition bedrock_format : CodecFormat :=
  mkCodecFormat
    (fun req model _ => let? body := request_to_anthropic_wire req model false in Ok (bedrock_body body))
    no_warnings parse_anthropic_response (fun _ => AnthropicDecoder AnthropicStreamDecoder_new).

(** The relay of Claude Code delegates to the Messages codec, and Vertex speaks the
    format of Gemini. *)
Definition codec_format (c : WireCodec) : CodecFormat :=
  match c with
  | OpenAiCodec => openai_format
  | OpenAiResponsesCodec id => responses_format id
  | AnthropicCodec | ClaudeCodeNativeRelayCodec => anthropic_format
  | GeminiCodec | VertexCodec _ _ => gemini_format
  | BedrockCodec => bedrock_format
  end.

End Codec.
