(* ===== verification/Wire.v ===== *)
(** * The composed adapter

    [crates/sb-adapters/src/composed.rs]: one loop for every provider, out of a
    codec, a signer and a transport. The client that sends a request over an
    outbound path is a parameter, with the guard's resolver, the clock, digests and
    JSON text. An upstream answers with a status and the pieces of its body, the
    last of which may be a read error. *)

From Stdlib Require Import ZArith Lia Ascii.
From stdpp Require Import base list strings option gmap tactics.
From S2P Require Import Prelude Text Lines BTree Float Ir Target Collect Value Net Framing Resolver Engine.
From S2P Require Import Adapters Sign Codecs StreamTheorems OpenaiChat OpenaiTheorems Access FramingTheorems.
From S2P Require Import ConfigSchema.

#[local] Open Scope Z_scope.
#[local] Open Scope switchback_scope.

Record HttpRequest := mkHttpRequest {
  hq_method : string;
  hq_url : string;
  hq_headers : list (string * string);
  hq_query : list (string * string);
  hq_body : string
}.

Record HttpResponse := mkHttpResponse {
  hs_status : Z;
  hs_body : list (result string string)
}.

(** ** Errors *)

Definition AdapterError_network (message : string) : AdapterError := AdapterError_new Network message.
Definition AdapterError_invalid (message : string) : AdapterError := AdapterError_new InvalidRequest message.
Definition with_err_status (status : Z) (e : AdapterError) : AdapterError :=
  mkAdapterError (err_class e) (err_message e) (Some status) (err_retry_after_ms e).

Definition guard_adapter_error (e : NetworkGuardError) : AdapterError :=
  match e with
  | InvalidUrl message => AdapterError_invalid message
  | ResolveFailed message => AdapterError_network message
  | BlockedPrivate message => AdapterError_new SafetyBlocked message
  end.

Definition stream_framing_error (message : string) : AdapterError :=
  let lower := to_ascii_lowercase message in
  let class :=
    if contains "throttl" lower || contains "rate limit" lower then RateLimited
    else if contains "quota" lower then QuotaExceeded
    else if contains "overload" lower then ProviderOverloaded
    else if contains "timeout" lower || contains "timed out" lower then Timeout
    else if contains "malformed" lower || contains "bad lengths" lower || contains "truncated" lower
            || contains "unsupported header" lower then InvalidRequest
    else StreamInterrupted in
  AdapterError_new class message.

Definition classify_error (status : option Z) : ErrorClass :=
  match status with
  | None => Unknown
  | Some n =>
      if n =? 401 then Authentication
      else if n =? 403 then Authorization
      else if n =? 429 then RateLimited
      else if (n =? 400) || (n =? 422) then InvalidRequest
      else if (n =? 408) || (n =? 504) then Timeout
      else if (500 <=? n) && (n <? 600) then ServerError
      else Unknown
  end.

Definition upstream_error (status : Z) : AdapterError :=
  with_err_status status
    (AdapterError_new (classify_error (Some status)) ("upstream " ^^ fmt_int status ^^ " error")).

(** [status.is_success()]. *)
Definition is_success (status : Z) : bool := (200 <=? status) && (status <? 300).

(** [response.bytes()]: all of the body, or its read error. *)
Fixpoint read_body (pieces : list (result string string)) : result string string :=
  match pieces with
  | [] => Ok EmptyString
  | piece :: pieces => let? s := piece in let? rest := read_body pieces in Ok (s ^^ rest)
  end.

Definition stream_accept (t : Transport) : option string :=
  match t with
  | HttpTransport => None
  | EventStreamTransport => Some "application/vnd.amazon.eventstream"
  end.

Section Adapter.
(** [serde_json::from_slice] with the text of its error, and [to_vec]. *)
Context (from_slice : string -> result Json string) (print_json : Json -> string).
Context (sha256 : string -> string) (hmac : string -> string -> string) (now : DateTime).
Context (crc32 : string -> Z) (base64_decode : string -> option string).
Context (url_parse : string -> result ParsedUrl string)
        (lookup_host : string -> Z -> result (list IpAddr) string) (fmt_ip : IpAddr -> string).
Context (send : EgressPath -> HttpRequest -> result HttpResponse string) (fresh : string).
Context (pool : EgressPool) (a : ComposedAdapter).

(** [from_str(..).ok()]. *)
Definition from_str_ok (s : string) : option Json :=
  match from_slice s with Ok v => Some v | Err _ => None end.

Definition adapter_guard_url (url : string) : result unit AdapterError :=
  match guard_url url_parse lookup_host fmt_ip url ProviderUpstream (ca_block_private_networks a) with
  | Ok _ => Ok tt
  | Err e => Err (guard_adapter_error e)
  end.

(** The request as it is built: fixed headers, the identity of the path, and what
    the signer adds, last. *)
Definition build_request (method url : string) (first : list (string * string)) (accept : option string)
    (body : string) (lease : option CredentialLease) (egress_id : option string)
  : EgressPath * HttpRequest :=
  let '(host, path, query) := split_url url in
  let additions := signer_sign sha256 hmac now (ca_signer a) (mkSignTarget method host path query body) lease in
  let epath := pool_path pool egress_id in
  (epath,
   mkHttpRequest method url
     (first ++ cs_headers (codec_shape (ca_codec a))
      ++ match accept with Some v => [("accept", v)] | None => [] end
      ++ apply_identity epath ++ sa_headers additions)
     (sa_query additions) body).

Definition send_request (call : EgressPath * HttpRequest) : result HttpResponse AdapterError :=
  match send call.1 call.2 with
  | Err e => Err (AdapterError_network e)
  | Ok response =>
      if is_success (hs_status response) then Ok response else Err (upstream_error (hs_status response))
  end.

Definition json_content : list (string * string) := [("content-type", "application/json")].

(** ** Streams *)

Definition framer_push : string -> string -> string * result (list Json) string :=
  match ca_transport a with
  | HttpTransport => sse_push from_slice
  | EventStreamTransport => event_stream_push crc32 from_str_ok base64_decode
  end.

Fixpoint decode_all (d : StreamDecoder) (values : list Json) : StreamDecoder * list AiStreamEvent :=
  match values with
  | [] => (d, [])
  | v :: values =>
      let '(d, evs) := decoder_decode from_str_ok print_json d v in
      let '(d, more) := decode_all d values in (d, evs ++ more)
  end.

Definition finish_decoder_if_clean (d : StreamDecoder) (had_stream_error : bool) : list AiStreamEvent :=
  if had_stream_error then [] else (decoder_finish d).2.

(** The task that reads the upstream: what a client that keeps reading is sent. *)
Fixpoint pump (buffer : string) (d : StreamDecoder) (pieces : list (result string string)) : EventStream :=
  match pieces with
  | [] => Ok <$> finish_decoder_if_clean d false
  | Err _ :: _ =>
      Err (AdapterError_network "stream byte error") :: (Ok <$> finish_decoder_if_clean d true)
  | Ok bytes :: pieces =>
      match framer_push buffer bytes with
      | (buffer, Ok values) =>
          let '(d, evs) := decode_all d values in (Ok <$> evs) ++ pump buffer d pieces
      | (_, Err e) => Err (stream_framing_error e) :: (Ok <$> finish_decoder_if_clean d true)
      end
  end.

(** ** Operations *)

Definition adapter_id : string := cs_id (codec_shape (ca_codec a)).

Definition adapter_request_warnings (req : AiRequest) : list string :=
  (fun w => adapter_id ^^ ": " ^^ w) <$> cf_warnings (codec_format from_str_ok print_json (ca_codec a)) req.

(** The call that [execute] makes. *)
Definition prepare_call (prepared : PreparedRequest) : result (EgressPath * HttpRequest) AdapterError :=
  let stream := cs_upstream_stream (codec_shape (ca_codec a)) (req_stream (pr_request prepared)) in
  let model := t_model (pr_target prepared) in
  match cf_request_body (codec_format from_str_ok print_json (ca_codec a)) (pr_request prepared) model (req_stream (pr_request prepared)) with
  | Err e => Err (AdapterError_invalid e)
  | Ok body =>
      let url := cs_url (codec_shape (ca_codec a)) (ca_base_url a) model stream in
      let? _ := adapter_guard_url url in
      Ok (build_request "POST" url json_content
            (if stream then stream_accept (ca_transport a) else None)
            (print_json body) (pr_lease prepared) (pr_egress_id prepared))
  end.

Definition execute (prepared : PreparedRequest) : result EventStream AdapterError :=
  let stream := cs_upstream_stream (codec_shape (ca_codec a)) (req_stream (pr_request prepared)) in
  let model := t_model (pr_target prepared) in
  let? call := prepare_call prepared in
  let? response := send_request call in
  if stream then Ok (pump EmptyString (cf_decoder (codec_format from_str_ok print_json (ca_codec a)) model) (hs_body response))
  else
    match read_body (hs_body response) with
    | Err e => Err (AdapterError_network e)
    | Ok full =>
        match from_slice full with
        | Err e => Err (AdapterError_invalid e)
        | Ok value =>
            match cf_parse_response (codec_format from_str_ok print_json (ca_codec a)) fresh value with
            | Err e => Err (AdapterError_invalid e)
            | Ok canonical => Ok (Ok <$> response_to_events print_json canonical)
            end
        end
    end.

(** [response.json()]: reading and parsing fail in the same way. *)
Definition read_json (response : HttpResponse) : result Json AdapterError :=
  match read_body (hs_body response) with
  | Err e => Err (AdapterError_invalid e)
  | Ok full => match from_slice full with Ok v => Ok v | Err e => Err (AdapterError_invalid e) end
  end.

Definition embeddings (body : Json) (lease : option CredentialLease) (egress_id : option string)
  : result Json AdapterError :=
  match cs_embeddings_url (codec_shape (ca_codec a)) (ca_base_url a) with
  | None => Err (AdapterError_new UnsupportedCapability "embeddings not supported by this wire format")
  | Some url =>
      let? _ := adapter_guard_url url in
      let? response :=
        send_request (build_request "POST" url json_content None (print_json body) lease egress_id) in
      read_json response
  end.

Definition list_models (lease : option CredentialLease) (egress_id : option string)
  : result (list string) AdapterError :=
  match cs_models_url (codec_shape (ca_codec a)) (ca_base_url a) with
  | None => Err (AdapterError_new UnsupportedCapability "model listing not supported by this wire format")
  | Some url =>
      let? _ := adapter_guard_url url in
      let? response := send_request (build_request "GET" url [] None EmptyString lease egress_id) in
      let? value := read_json response in
      match cs_parse_models (codec_shape (ca_codec a)) value with
      | Ok models => Ok models
      | Err e => Err (AdapterError_invalid e)
      end
  end.

End Adapter.

(** ** The composed adapter: theorems

    Credentials come from the lease and nothing else, what a client is sent does
    not depend on how the network cuts the upstream's bytes, and a stream that one
    gateway writes and another reads is the response again. *)

#[local] Open Scope Z_scope.
#[local] Open Scope switchback_scope.

(** ** Credentials *)

(** AWS Signature Version 4 as it is published: the authorization of a request out
    of its method, host, path, query and body, a key pair and a moment. *)
Section Aws.
Context (sha256 : string -> string) (hmac : string -> string -> string).
Context (method host path query body : string) (creds : AwsSigV4Lease) (region service date : string).

Definition aws_digest : string := hex_bytes (sha256 body).

(** The names of the headers that are signed. *)
Definition aws_names : string :=
  "host;x-amz-content-sha256;x-amz-date"
  ^^ match session_token creds with Some _ => ";x-amz-security-token" | None => EmptyString end.

Definition aws_canonical : string :=
  method ^^ nl ^^ path ^^ nl ^^ query ^^ nl
  ^^ "host:" ^^ trim host ^^ nl
  ^^ "x-amz-content-sha256:" ^^ trim aws_digest ^^ nl
  ^^ "x-amz-date:" ^^ trim date ^^ nl
  ^^ match session_token creds with
     | Some token => "x-amz-security-token:" ^^ trim token ^^ nl
     | None => EmptyString
     end
  ^^ nl ^^ aws_names ^^ nl ^^ aws_digest.

Definition aws_day : string := String.substring 0 8 date.
Definition aws_scope : string := join "/" [aws_day; region; service; "aws4_request"].

(** The key is derived from the secret step by step. *)
Definition aws_key : string :=
  fold_left hmac [aws_day; region; service; "aws4_request"] ("AWS4" ^^ secret_access_key creds).

Definition aws_authorization : string :=
  "AWS4-HMAC-SHA256 Credential=" ^^ access_key_id creds ^^ "/" ^^ aws_scope
  ^^ ", SignedHeaders=" ^^ aws_names
  ^^ ", Signature=" ^^ hex_bytes (hmac aws_key
       ("AWS4-HMAC-SHA256" ^^ nl ^^ date ^^ nl ^^ aws_scope ^^ nl ^^ hex_bytes (sha256 aws_canonical))).

Lemma signed_header_list_eq :
  signed_header_list sha256 (mkSignTarget method host path query body) creds date
  = [("host", host); ("x-amz-content-sha256", aws_digest); ("x-amz-date", date)]
    ++ match session_token creds with Some token => [("x-amz-security-token", token)] | None => [] end.
Proof. unfold signed_header_list. by destruct (session_token creds). Qed.

(** The signer computes the published authorization. *)
Lemma sigv4_sign_aws :
  sigv4_sign sha256 hmac (mkSignTarget method host path query body) creds region service date
  = [("x-amz-date", date); ("x-amz-content-sha256", aws_digest); ("authorization", aws_authorization)]
    ++ match session_token creds with Some token => [("x-amz-security-token", token)] | None => [] end.
Proof.
  assert (join ";" ((signed_header_list sha256 (mkSignTarget method host path query body) creds date).*1) = aws_names) as Hn.
  { rewrite signed_header_list_eq. unfold aws_names. by destruct (session_token creds). }
  assert (canonical_request sha256 (mkSignTarget method host path query body)
            (signed_header_list sha256 (mkSignTarget method host path query body) creds date) = aws_canonical) as Hc.
  { unfold canonical_request. rewrite Hn. cbn [st_method st_path st_query join]. rewrite signed_header_list_eq.
    unfold aws_canonical, canonical_header.
    destruct (session_token creds); cbn [app fmap list_fmap join fst snd]; rewrite !append_assoc; reflexivity. }
  unfold sigv4_sign. cbv zeta. rewrite Hc, Hn. reflexivity.
Qed.

End Aws.

Section Credentials.
Context (sha256 : string -> string) (hmac : string -> string -> string) (now : DateTime).

(** What the lease of an attempt puts on a request, by the signer of the adapter: a
    secret as it is, or what the signature of this very request needs. *)
Inductive lease_header (signer : RequestSigner) (l : CredentialLease) (r : HttpRequest) : string * string -> Prop :=
  | bearer_header :
      signer = SchemeSigner SchemeBearer -> auth_kind l <> Resolver.AuthNone -> lease_secret l <> EmptyString ->
      lease_header signer l r ("authorization", "Bearer " ^^ lease_secret l)
  | named_header name :
      signer = SchemeSigner (SchemeHeader name) -> auth_kind l <> Resolver.AuthNone ->
      lease_secret l <> EmptyString -> lease_header signer l r (name, lease_secret l)
  | codex_header :
      signer = CodexNativeSigner -> auth_kind l = Resolver.AuthBearer -> lease_secret l <> EmptyString ->
      lease_header signer l r ("authorization", "Bearer " ^^ lease_secret l)
  | codex_account account :
      signer = CodexNativeSigner -> auth_kind l = Resolver.AuthBearer -> lease_secret l <> EmptyString ->
      chatgpt_account_id l = Some account -> account <> EmptyString ->
      lease_header signer l r ("chatgpt-account-id", account)
  | aws_header region service creds host path query h :
      signer = SigV4Signer region service -> auth_kind l = Resolver.AuthAwsSigV4 ->
      lease_aws_sigv4 l = Some creds -> split_url (hq_url r) = (host, path, query) ->
      h ∈ [("x-amz-date", amz_date now); ("x-amz-content-sha256", aws_digest sha256 (hq_body r));
           ("authorization", aws_authorization sha256 hmac (hq_method r) host path query (hq_body r) creds
                               region service (amz_date now))]
          ++ match session_token creds with Some token => [("x-amz-security-token", token)] | None => [] end ->
      lease_header signer l r h.

Definition lease_query (signer : RequestSigner) (l : CredentialLease) (q : string * string) : Prop :=
  exists name, signer = SchemeSigner (SchemeQuery name) /\ auth_kind l <> Resolver.AuthNone
    /\ lease_secret l <> EmptyString /\ q = (name, lease_secret l).

Lemma not_empty s : is_empty s = false <-> s <> EmptyString.
Proof. by destruct s. Qed.

Lemma secret_usable (P : Prop) `{!Decision P} secret :
  bool_decide P || is_empty secret = false <-> ~ P /\ secret <> EmptyString.
Proof. by rewrite orb_false_iff, bool_decide_eq_false, not_empty. Qed.

(** The signer adds the credentials of the lease and nothing else. *)
Lemma signer_sign_exact signer r host path query lease :
  split_url (hq_url r) = (host, path, query) ->
  let added := signer_sign sha256 hmac now signer (mkSignTarget (hq_method r) host path query (hq_body r)) lease in
  (forall h, h ∈ sa_headers added <-> exists l, lease = Some l /\ lease_header signer l r h)
  /\ (forall q, q ∈ sa_query added <-> exists l, lease = Some l /\ lease_query signer l q).
Proof.
  intros Hu. cbv zeta.
  destruct lease as [l|]; [|split; intros ?; split; [destruct signer; by intros ?%elem_of_nil|by intros (? & ? & _)
    |destruct signer; by intros ?%elem_of_nil|by intros (? & ? & _)]].
  assert (forall P : CredentialLease -> Prop, (exists l', Some l = Some l' /\ P l') <-> P l) as Hl.
  { intros P. split; [by intros (? & [= <-] & ?)|eauto]. }
  setoid_rewrite Hl. clear Hl.
  destruct signer as [scheme| |region service]; cbn [signer_sign].
  - unfold scheme_sign.
    destruct (bool_decide (auth_kind l = Resolver.AuthNone) || is_empty (lease_secret l)) eqn:E.
    + assert (~ (auth_kind l <> Resolver.AuthNone /\ lease_secret l <> EmptyString)) as Hno.
      { rewrite <- secret_usable, E. done. }
      split; intros x; (split; [by intros ?%elem_of_nil|]); intros Hx; exfalso; apply Hno.
      * by inversion Hx; subst.
      * by destruct Hx as (? & _ & ? & ? & _).
    + apply secret_usable in E as [Hk Hs]. unfold lease_query.
      destruct scheme; cbn [sa_headers sa_query]; split; intros x; rewrite ?list_elem_of_singleton, ?elem_of_nil;
        (split; [intros Hx; first [done|subst x; by eauto 8 using lease_header]|intros Hx]);
        first [by inversion Hx; simplify_eq|by destruct Hx as (? & ? & _ & _ & ?); simplify_eq].
  - unfold codex_native_sign, lease_query.
    split; [|intros q; split; [|by intros (? & ? & _)]; case_match; by intros ?%elem_of_nil].
    intros h. destruct (negb (bool_decide (auth_kind l = Resolver.AuthBearer)) || is_empty (lease_secret l)) eqn:E.
    + split; [by intros ?%elem_of_nil|]. intros Hx. exfalso.
      inversion Hx as [| |? Hk Hs|? ? Hk Hs|]; simplify_eq; rewrite bool_decide_eq_true_2, (proj2 (not_empty _) Hs) in E; done.
    + apply orb_false_iff in E as [Hk%negb_false_iff%bool_decide_eq_true Hs%not_empty]. cbn [sa_headers].
      rewrite elem_of_cons. split.
      * intros [->|Hin]; [by apply codex_header|]. destruct (chatgpt_account_id l) as [i|] eqn:Ei; [|by apply elem_of_nil in Hin].
        destruct (is_empty i) eqn:En; [by apply elem_of_nil in Hin|]. apply list_elem_of_singleton in Hin as ->.
        apply codex_account; try done. by apply not_empty.
      * intros Hx. inversion Hx as [| |? _ _|account _ _ _ Ea Hne|]; simplify_eq; [by left|right].
        rewrite Ea, (proj2 (not_empty _) Hne). by left.
  - unfold sigv4_lease_sign, lease_query.
    split; [|intros q; split; [|by intros (? & ? & _)]; repeat case_match; by intros ?%elem_of_nil].
    intros h. split.
    + destruct (bool_decide (auth_kind l = Resolver.AuthAwsSigV4)) eqn:Ek; [|by intros ?%elem_of_nil].
      destruct (lease_aws_sigv4 l) as [creds|] eqn:Ec; [|by intros ?%elem_of_nil]. cbn [negb sa_headers].
      rewrite sigv4_sign_aws. apply bool_decide_eq_true in Ek. intros Hin. by eapply aws_header.
    + intros Hx. inversion Hx as [| | | |? ? creds ? ? ? ? Hsg Hk Hc Hu' Hin]; simplify_eq.
      rewrite bool_decide_eq_true_2 by done. cbn [negb]. rewrite Hc. cbn [sa_headers]. rewrite sigv4_sign_aws. rewrite Hu in Hu'. by injection Hu' as -> -> ->.
Qed.

End Credentials.

(** ** Path segments *)

Definition hex_value (c : ascii) : Z :=
  let n := byte_val c in if n <? 65 then n - 48 else n - 55.

(** What a server makes of an encoded segment. *)
Fixpoint percent_decode (s : string) : string :=
  match s with
  | String c s' =>
      match s' with
      | String x (String y s'') =>
          if Ascii.eqb c "%" then String (ascii_of_N (Z.to_N (16 * hex_value x + hex_value y))) (percent_decode s'')
          else String c (percent_decode s')
      | _ => String c (percent_decode s')
      end
  | EmptyString => EmptyString
  end.

Definition segment_byte (c : ascii) : bool := is_unreserved c || Ascii.eqb c "%".

Lemma encoded_byte b :
  is_unreserved b = false ->
  let x := upper_hex_digit (Z.shiftr (byte_val b) 4) in
  let y := upper_hex_digit (Z.land (byte_val b) 15) in
  ascii_of_N (Z.to_N (16 * hex_value x + hex_value y)) = b /\ segment_byte x = true /\ segment_byte y = true.
Proof. destruct b as [[] [] [] [] [] [] [] []]; intros H; vm_compute in H |- *; done. Qed.

(** A model in a URL is one segment of its path, and the server reads it back. *)
Lemma percent_encoding s :
  all_bytes segment_byte (percent_encode_segment s) = true /\ percent_decode (percent_encode_segment s) = s.
Proof.
  induction s as [|b s [IH1 IH2]]; [done|]. cbn [percent_encode_segment].
  destruct (is_unreserved b) eqn:E.
  - split; [cbn [all_bytes]; unfold segment_byte at 1; by rewrite E, IH1|].
    assert (Ascii.eqb b "%" = false) as Hb by (destruct (Ascii.eqb_spec b "%"); [by subst b|done]).
    cbn [percent_decode]. rewrite Hb. by repeat case_match; f_equal.
  - destruct (encoded_byte b E) as (Hd & Hx & Hy). split.
    + cbn [all_bytes]. rewrite Hx, Hy, IH1. done.
    + cbn [percent_decode]. rewrite Hd, IH2. done.
Qed.

Section Adapter.
Context (from_slice : string -> result Json string) (print_json : Json -> string).
Context (sha256 : string -> string) (hmac : string -> string -> string) (now : DateTime).
Context (crc32 : string -> Z) (base64_decode : string -> option string).
Context (url_parse : string -> result ParsedUrl string)
        (lookup_host : string -> Z -> result (list IpAddr) string) (fmt_ip : IpAddr -> string).
Context (send : EgressPath -> HttpRequest -> result HttpResponse string) (fresh : string).
Context (pool : EgressPool) (a : ComposedAdapter).

Lemma codec_headers_no_auth c : forallb (fun h => negb (is_auth_header h.1)) (cs_headers (codec_shape c)) = true.
Proof. by destruct c. Qed.

(** The headers that say what a call of the adapter is: its content, the version of
    the protocol and, for a stream of binary messages, what is accepted. *)
Definition plain_header (stream : bool) (h : string * string) : Prop :=
  h ∈ json_content \/ h ∈ cs_headers (codec_shape (ca_codec a))
  \/ exists v, stream = true /\ stream_accept (ca_transport a) = Some v /\ h = ("accept", v).

Lemma plain_no_auth stream h : plain_header stream h -> is_auth_header h.1 = false.
Proof.
  intros [->%list_elem_of_singleton|[H|(v & _ & _ & ->)]]; [done| |done].
  pose proof (codec_headers_no_auth (ca_codec a)) as Hc. rewrite forallb_forall in Hc.
  apply list_elem_of_In, Hc in H. by apply negb_true_iff.
Qed.

Lemma identity_no_auth p h : h ∈ apply_identity p -> is_auth_header h.1 = false.
Proof.
  intros [H|H]%elem_of_app.
  - destruct (ep_user_agent p); [|by apply elem_of_nil in H]. apply list_elem_of_singleton in H. by subst h.
  - apply list_elem_of_In, filter_In in H as [_ H]. by apply negb_true_iff.
Qed.

(** The headers of a call are exactly its plain ones, those of the outbound path and
    those of the lease. *)
Lemma build_request_exact (stream : bool) url body lease egress_id :
  let call := build_request sha256 hmac now pool a "POST" url json_content
                (if stream then stream_accept (ca_transport a) else None) body lease egress_id in
  call.1 = pool_path pool egress_id /\ hq_url call.2 = url
  /\ (forall h, h ∈ hq_headers call.2 <->
        plain_header stream h \/ h ∈ apply_identity (pool_path pool egress_id)
        \/ exists l, lease = Some l /\ lease_header sha256 hmac now (ca_signer a) l call.2 h)
  /\ (forall q, q ∈ hq_query call.2 <-> exists l, lease = Some l /\ lease_query (ca_signer a) l q).
Proof.
  unfold build_request. destruct (split_url url) as [[host path] query] eqn:Hu. cbv zeta. cbn [fst snd hq_url hq_query hq_headers].
  split; [done|]. split; [done|].
  match goal with |- context [lease_header _ _ _ _ _ ?r _] => set (request := r) end.
  destruct (signer_sign_exact sha256 hmac now (ca_signer a) request host path query lease Hu) as [Hh Hq].
  cbn [hq_method hq_body request] in Hh, Hq. split; [|exact Hq]. intros h. rewrite !elem_of_app, Hh. unfold plain_header.
  assert (h ∈ (match (if stream then stream_accept (ca_transport a) else None) with
               | Some v => [("accept", v)] | None => [] end)
          <-> exists v, stream = true /\ stream_accept (ca_transport a) = Some v /\ h = ("accept", v)) as Ha.
  { destruct stream; [|by rewrite elem_of_nil; split; [|intros (? & ? & _)]].
    destruct (stream_accept (ca_transport a)) as [v|]; rewrite ?list_elem_of_singleton, ?elem_of_nil;
      (split; [|by intros (? & _ & ? & ?); simplify_eq]); [by eauto|done]. }
  rewrite Ha. clear. tauto.
Qed.

(** C26 (safety). A call is built only for a URL that passed the guard and goes over
    the outbound path of the attempt. Its headers are exactly: the content type,
    those of the codec and the accepted type of a binary stream; those the outbound
    path sets; and those of the lease of the attempt, by the adapter's signer: the
    bearer secret, the secret under the scheme's name, the ChatGPT account, or the
    date, digest, token and authorization of AWS Signature Version 4, computed from
    the lease's key pair over the method, host, path, query and body of this call.
    A query parameter is added only for the secret of a lease whose scheme has it.
    Headers with one of the fixed names that outbound paths may not set come from the
    lease alone, so without a lease there is none; under the name of a custom scheme
    the path may set a header too, before that of the lease. A lease with a usable
    secret is always attached. *)
Theorem auth_only_from_lease prepared call :
  prepare_call from_slice print_json sha256 hmac now url_parse lookup_host fmt_ip pool a prepared = Ok call ->
  let stream := cs_upstream_stream (codec_shape (ca_codec a)) (req_stream (pr_request prepared)) in
  let leased (h : string * string) := exists l, pr_lease prepared = Some l /\ lease_header sha256 hmac now (ca_signer a) l call.2 h in
  call.1 = pool_path pool (pr_egress_id prepared)
  /\ guard_url url_parse lookup_host fmt_ip (hq_url call.2) ProviderUpstream (ca_block_private_networks a) = Ok tt
  /\ (forall h, h ∈ hq_headers call.2 <-> plain_header stream h \/ h ∈ apply_identity call.1 \/ leased h)
  /\ (forall q, q ∈ hq_query call.2 <-> exists l, pr_lease prepared = Some l /\ lease_query (ca_signer a) l q)
  /\ (forall h, h ∈ hq_headers call.2 -> is_auth_header h.1 = true -> leased h).
Proof.
  unfold prepare_call. destruct (cf_request_body _ _ _ _) as [body|e]; [|done].
  set (url := cs_url _ _ _ _). unfold adapter_guard_url.
  destruct (guard_url _ _ _ url _ _) as [[]|e] eqn:Hg; [|done]. simpl. intros [= <-].
  set (stream := cs_upstream_stream _ _).
  destruct (build_request_exact stream url (print_json body) (pr_lease prepared) (pr_egress_id prepared))
    as (H1 & H2 & H3 & H4).
  rewrite H1, H2. do 4 (split; [done|]). intros h [Hp|[Hi|Hl]]%H3 Ha; [| |done].
  - by rewrite (plain_no_auth _ _ Hp) in Ha.
  - by rewrite (identity_no_auth _ _ Hi) in Ha.
Qed.

(** ** Streams *)

(** Whole chunks that frame cleanly are decoded value by value. *)
Lemma pump_values chunks : forall buffer d rest values,
  push_all (framer_push from_slice crc32 base64_decode a) buffer chunks = (rest, Ok values) ->
  pump from_slice print_json crc32 base64_decode a buffer d (Ok <$> chunks)
  = Ok <$> (let '(d, evs) := decode_all from_slice print_json d values in evs ++ (decoder_finish d).2).
Proof.
  induction chunks as [|c chunks IH]; intros buffer d rest values; [by intros [= _ <-]|].
  rewrite fmap_cons. cbn [pump push_all].
  destruct (framer_push _ _ _ _ buffer c) as [b [vs|e]]; [|done].
  destruct (push_all _ b chunks) as [b' [ws|e]] eqn:E; [|done]. intros [= _ <-].
  assert (decode_all from_slice print_json d (vs ++ ws)
          = let '(d, evs) := decode_all from_slice print_json d vs in
            let '(d, more) := decode_all from_slice print_json d ws in (d, evs ++ more)) as ->.
  { clear. revert d. induction vs as [|v vs IH]; intros d; simpl; [by destruct (decode_all _ _ d ws)|].
    destruct (decoder_decode _ _ d v) as [d1 o1]. rewrite IH. destruct (decode_all _ _ d1 vs) as [d2 o2].
    destruct (decode_all _ _ d2 ws) as [d3 o3]. by rewrite app_assoc. }
  destruct (decode_all _ _ d vs) as [d1 o1]. rewrite (IH b d1 b' ws E).
  destruct (decode_all _ _ d1 ws) as [d2 o2]. by rewrite <- fmap_app, app_assoc.
Qed.

(** A stream without an error was framed cleanly. *)
Lemma pump_framed chunks : forall buffer d,
  Forall (fun i => match i with Ok _ => True | Err _ => False end)
    (pump from_slice print_json crc32 base64_decode a buffer d (Ok <$> chunks)) ->
  exists rest values, push_all (framer_push from_slice crc32 base64_decode a) buffer chunks = (rest, Ok values).
Proof.
  induction chunks as [|c chunks IH]; intros buffer d; [by eexists _, _|].
  rewrite fmap_cons. cbn [pump push_all]. destruct (framer_push _ _ _ _ buffer c) as [b [vs|e]].
  - destruct (decode_all _ _ d vs) as [d1 o1]. intros [_ H]%Forall_app.
    destruct (IH b d1 H) as (rest & values & ->). by eexists _, _.
  - intros [[] _]%Forall_cons_1.
Qed.

(** For text frames: no chunk ends inside a character or a line end. *)
Definition clean (chunks : list string) : Prop :=
  match ca_transport a with HttpTransport => forallb clean_cut chunks = true | EventStreamTransport => True end.

(** For text frames: no chunk fills the buffer with what is there of a frame. *)
Definition room (chunks : list string) : Prop :=
  match ca_transport a with
  | HttpTransport => ~ overfull (normal_text (concat_all chunks)) chunks
  | EventStreamTransport => True
  end.

Lemma framed_agree chunks chunks' rest values :
  clean chunks -> clean chunks' -> room chunks' -> concat_all chunks = concat_all chunks' ->
  push_all (framer_push from_slice crc32 base64_decode a) EmptyString chunks = (rest, Ok values) ->
  push_all (framer_push from_slice crc32 base64_decode a) EmptyString chunks' = (rest, Ok values).
Proof.
  unfold clean, room, framer_push. intros Hc Hc' Hr E Hp. destruct (ca_transport a).
  - pose proof (sse_chunking from_slice chunks Hc) as W. pose proof (sse_chunking from_slice chunks' Hc') as W'.
    rewrite Hp, E in W. cbv zeta iota beta in W, W'. rewrite W in W'.
    destruct (push_all _ _ chunks') as [r' [vs'|e]]; [by inversion W'|].
    destruct W' as [W'|[_ W']]; done.
  - pose proof (event_stream_chunking crc32 (from_str_ok from_slice) base64_decode chunks chunks' E) as Ha.
    rewrite Hp in Ha. destruct (push_all _ _ chunks') as [r' [vs'|e]]; [|done]. by destruct Ha as [-> ->].
Qed.

(** C25 (equivalence). How the network cuts what an upstream sends does not change
    what a client is sent: if the bytes read in one way give a stream without an
    error, then cut in another way they give the same stream, event for event.
    Binary messages may be cut anywhere. Text frames must not be cut inside a
    character or between carriage return and line feed, in either way, and in the
    other way no chunk may be more than the buffer of 1 MiB takes with the part of
    a frame that arrived before it. *)
Theorem adapter_stream_chunking d chunks chunks' :
  clean chunks -> clean chunks' -> room chunks' -> concat_all chunks = concat_all chunks' ->
  Forall (fun i => match i with Ok _ => True | Err _ => False end)
    (pump from_slice print_json crc32 base64_decode a EmptyString d (Ok <$> chunks)) ->
  pump from_slice print_json crc32 base64_decode a EmptyString d (Ok <$> chunks')
  = pump from_slice print_json crc32 base64_decode a EmptyString d (Ok <$> chunks).
Proof.
  intros Hc Hc' Hr E (rest & values & Hp)%pump_framed. pose proof (framed_agree _ _ _ _ Hc Hc' Hr E Hp) as Hp'.
  by rewrite (pump_values _ _ d _ _ Hp), (pump_values _ _ d _ _ Hp').
Qed.

End Adapter.
