(* ===== verification/Chain.v ===== *)
(** * Gateways in a chain

    What one gateway writes for a streaming client, another reads as the stream of
    an upstream: the text of the frames, cut anywhere, framed again, decoded and
    assembled, is the response. This puts together the encoders, the framing, the
    composed adapter and the collector. *)

From Stdlib Require Import ZArith Lia Ascii.
From stdpp Require Import base tactics list strings option gmap.
From S2P Require Import Prelude Text Lines BTree Float Ir Target Collect StreamTheorems Value OpenaiChat.
From S2P Require Import OpenaiTheorems Messages MessagesStream Responses ResponsesStream Net Framing.
From S2P Require Import FramingTheorems Resolver Engine ConfigSchema Adapters Sign Codecs Wire.
From S2P Require Import MessagesRequest Schema.

#[local] Open Scope Z_scope.
#[local] Open Scope switchback_scope.

#[local] Arguments str_eqb : simpl never.
#[local] Arguments openai_chunk : simpl never.

(** ** Lines of text *)

Definition not_break (c : ascii) : bool := negb (Ascii.eqb c newline) && negb (Ascii.eqb c carriage_return).

(** Text on one line. *)
Definition one_line (s : string) : bool := all_bytes not_break s.

Lemma one_line_app x y : one_line (x ^^ y) = one_line x && one_line y.
Proof. induction x as [|c x IH]; [done|]. simpl. unfold one_line in *. simpl. by rewrite IH, andb_assoc. Qed.

Lemma not_break_newline c : not_break c = true -> Ascii.eqb c newline = false /\ Ascii.eqb c carriage_return = false.
Proof. unfold not_break. intros [H1 H2]%andb_prop. by rewrite !negb_true_iff in *. Qed.

(** A blank line is not found inside a line. *)
Lemma split_blank_line x s :
  one_line x = true ->
  split_once (nl ^^ nl) (x ^^ s) = (fun r => (x ^^ r.1, r.2)) <$> split_once (nl ^^ nl) s.
Proof.
  induction x as [|c x IH]; intros H; [change (EmptyString ^^ s) with s; by destruct (split_once _ s) as [[]|]|].
  unfold one_line in H. cbn [all_bytes] in H. apply andb_prop in H as [[Hc _]%not_break_newline Hx].
  change (String c x ^^ s) with (String c (x ^^ s)). cbn [split_once].
  assert (strip_prefix (nl ^^ nl) (String c (x ^^ s)) = None) as ->.
  { change (nl ^^ nl) with (String newline nl). cbn [strip_prefix]. by rewrite Ascii.eqb_sym, Hc. }
  rewrite IH by done. by destruct (split_once (nl ^^ nl) s) as [[]|].
Qed.

Lemma split_lines_at x s : one_line x = true -> split_char newline (x ^^ nl ^^ s) = x :: split_char newline s.
Proof.
  induction x as [|c x IH]; intros H; [done|].
  unfold one_line in H. cbn [all_bytes] in H. apply andb_prop in H as [[Hc _]%not_break_newline Hx].
  change (String c x ^^ nl ^^ s) with (String c (x ^^ nl ^^ s)). cbn [split_char]. by rewrite Hc, IH.
Qed.

Lemma strip_cr_line x : one_line x = true -> strip_cr x = x.
Proof.
  induction x as [|c x IH]; intros H; [done|]. unfold one_line in H. cbn [all_bytes] in H.
  apply andb_prop in H as [[_ Hc]%not_break_newline Hx]. cbn [strip_cr]. destruct x as [|d x].
  - assert (Nat.eqb (nat_of_ascii c) 13 = false) as ->; [|done]. apply Nat.eqb_neq. intros E.
    apply (f_equal ascii_of_nat) in E. rewrite ascii_nat_embedding in E. subst c. by vm_compute in Hc.
  - f_equal. by apply IH.
Qed.

(** ** Frames of text *)

(** A frame: the name of its event, if it has one, and its data. *)
Definition TextFrame : Type := option string * string.

Definition frame_lines (f : TextFrame) : string :=
  match f.1 with Some event => "event: " ^^ event ^^ nl | None => EmptyString end ^^ "data: " ^^ f.2.

Definition frame_wire (f : TextFrame) : string := frame_lines f ^^ nl ^^ nl.

(** Data that a frame carries as it is. *)
Definition data_line (s : string) : bool := one_line s && str_eqb (trim s) s && negb (is_empty s).

Section Frames.
Context (from_slice : string -> result Json string).

(** A frame that gives a value, or is the mark at the end. *)
Definition frame_reads (f : TextFrame) (value : option Json) : Prop :=
  match f.1 with Some event => one_line event = true /\ event <> "error" | None => True end
  /\ data_line f.2 = true
  /\ match value with
     | Some v => f.2 <> "[DONE]" /\ from_slice f.2 = Ok v /\ stream_error_message v = None
     | None => f.2 = "[DONE]"
     end.

Lemma split_frame f value rest :
  frame_reads f value -> split_once (nl ^^ nl) (frame_wire f ^^ rest) = Some (frame_lines f, rest).
Proof.
  intros (He & Hd & _). unfold data_line in Hd. apply andb_prop in Hd as [[Hl _]%andb_prop _].
  unfold frame_wire, frame_lines. destruct f as [[event|] data]; cbn [fst snd] in *.
  - destruct He as [He _]. rewrite !append_assoc. rewrite split_blank_line by done.
    rewrite split_blank_line by done.
    change (nl ^^ "data: " ^^ data ^^ nl ^^ nl ^^ rest)
      with (String newline ("data: " ^^ data ^^ nl ^^ nl ^^ rest)).
    cbn [split_once]. change (strip_prefix (nl ^^ nl) (String newline ("data: " ^^ data ^^ nl ^^ nl ^^ rest))) with (@None string).
    rewrite split_blank_line by done. rewrite split_blank_line by done. simpl. by rewrite append_nil_r.
  - rewrite !append_assoc. rewrite (split_blank_line EmptyString) by done. rewrite split_blank_line by done.
    rewrite split_blank_line by done. simpl. by rewrite append_nil_r.
Qed.

Lemma frame_lines_read f value :
  frame_reads f value ->
  frame_fields None [] (lines (frame_lines f ^^ nl ^^ nl)) = (f.1, [f.2]).
Proof.
  intros (He & Hd & _). unfold data_line in Hd. apply andb_prop in Hd as [[Hl _]%andb_prop _].
  unfold frame_lines, lines. destruct f as [[event|] data]; cbn [fst snd] in *.
  - destruct He as [He _]. rewrite !append_assoc.
    assert (one_line ("event: " ^^ event) = true) as H1 by (by rewrite one_line_app, He).
    assert (one_line ("data: " ^^ data) = true) as H2 by (by rewrite one_line_app, Hl).
    change ("event: " ^^ event ^^ nl ^^ "data: " ^^ data ^^ nl ^^ nl)
      with (("event: " ^^ event) ^^ nl ^^ ("data: " ^^ data) ^^ nl ^^ nl).
    rewrite split_lines_at, split_lines_at by done. cbn [split_char nl ended_lines].
    rewrite !strip_cr_line by done. reflexivity.
  - rewrite !append_assoc.
    assert (one_line ("data: " ^^ data) = true) as H2 by (by rewrite one_line_app, Hl).
    change (EmptyString ^^ "data: " ^^ data ^^ nl ^^ nl) with (("data: " ^^ data) ^^ nl ^^ nl).
    rewrite split_lines_at by done. cbn [split_char nl ended_lines]. rewrite !strip_cr_line by done. reflexivity.
Qed.

Lemma parse_frame f value :
  frame_reads f value -> parse_sse_frame from_slice (frame_lines f ^^ nl ^^ nl) = Ok value.
Proof.
  intros Hr. unfold parse_sse_frame. rewrite (frame_lines_read f value Hr). destruct Hr as (He & Hd & Hv).
  unfold data_line in Hd. apply andb_prop in Hd as [[_ Ht%str_eqb_eq]%andb_prop Hn%negb_true_iff].
  cbn [join]. rewrite Ht, Hn. destruct value as [v|].
  - destruct Hv as (Hd & Hp & Hs). destruct (str_eqb f.2 "[DONE]") eqn:E; [by apply str_eqb_eq in E|].
    simpl. rewrite Hp, Hs. destruct f as [[event|] data]; simpl in *; [|done].
    destruct He as [_ He]. by rewrite bool_decide_eq_false_2 by congruence.
  - rewrite Hv. done.
Qed.

(** *** The text as it arrives *)

Definition not_cr (c : ascii) : bool := negb (Ascii.eqb c carriage_return).

Lemma all_bytes_app p x y : all_bytes p (x ^^ y) = all_bytes p x && all_bytes p y.
Proof. induction x as [|c x IH]; [done|]. simpl. by rewrite <- andb_assoc, <- IH. Qed.

Lemma one_line_not_cr x : one_line x = true -> all_bytes not_cr x = true.
Proof.
  unfold one_line. induction x as [|c x IH]; [done|]. cbn [all_bytes].
  intros [[_ Hc]%not_break_newline Hx]%andb_prop. unfold not_cr at 1. by rewrite Hc, IH.
Qed.

Lemma frame_wire_not_cr f value : frame_reads f value -> all_bytes not_cr (frame_wire f) = true.
Proof.
  intros (He & Hd & _). unfold data_line in Hd. apply andb_prop in Hd as [[Hl _]%andb_prop _].
  unfold frame_wire, frame_lines. rewrite !all_bytes_app. rewrite (one_line_not_cr f.2) by done.
  destruct f as [[event|] data]; [|done]. cbn [fst]. rewrite !all_bytes_app.
  destruct He as [He _]. by rewrite (one_line_not_cr event).
Qed.

Lemma replace_cr_id x : all_bytes not_cr x = true -> replace_cr x = x /\ replace_crlf x = x.
Proof.
  assert (all_bytes not_cr x = true -> replace_cr x = x) as H1.
  { induction x as [|c x IH]; [done|]. cbn [all_bytes replace_cr]. unfold not_cr at 1.
    intros [Hc%negb_true_iff Hx]%andb_prop. by rewrite Hc, IH. }
  intros Hx. split; [by apply H1|]. clear H1. revert Hx. induction x as [|c x IH]; [done|].
  cbn [all_bytes]. unfold not_cr at 1. intros [Hc%negb_true_iff Hx]%andb_prop.
  cbn [replace_crlf]. rewrite Hc. destruct x; [done|]. cbn [andb]. by rewrite IH.
Qed.

Lemma normal_text_id x : valid_utf8 x = true -> all_bytes not_cr x = true -> normal_text x = x.
Proof.
  intros Hv Hc. unfold normal_text. pose proof (from_utf8_lossy_app x EmptyString Hv) as H.
  rewrite !append_nil_r in H. change (from_utf8_lossy EmptyString) with EmptyString in H.
  rewrite ?append_nil_r in H. rewrite H. destruct (replace_cr_id x Hc) as [H1 H2]. by rewrite H2, H1.
Qed.

(** The texts of some frames. *)
Definition wires (fs : list TextFrame) : string := concat_all (frame_wire <$> fs).

(** What has arrived of the texts of some frames: the whole frames are read, one
    after another, and the part of one is kept. *)
Lemma drain_prefix fuel : forall fs values x y out,
  Forall2 frame_reads fs values -> x ^^ y = wires fs -> (String.length x <= fuel)%nat ->
  exists fs' values' read rest,
    drain_frames from_slice fuel x out = (rest, Ok (out ++ omap id read)) /\ values = read ++ values'
    /\ Forall2 frame_reads fs' values' /\ rest ^^ y = wires fs' /\ split_once (nl ^^ nl) rest = None
    /\ (forall f, f ∈ fs' -> f ∈ fs).
Proof.
  induction fuel as [|fuel IH]; intros fs values x y out Hr Ht Hf.
  { exists fs, values, [], x. cbn. rewrite app_nil_r. destruct x; [by repeat split|simpl in Hf; lia]. }
  cbn [drain_frames]. destruct (split_once (nl ^^ nl) x) as [[text rest]|] eqn:E; cycle 1.
  { exists fs, values, [], x. cbn. rewrite app_nil_r. by repeat split. }
  pose proof (split_once_more _ _ _ _ y E) as Em. apply split_once_spec in E.
  rewrite Ht in Em. inversion Hr as [|f v fs0 values0 Hv Hrest]; subst; [done|].
  unfold wires in Em. rewrite fmap_cons in Em. cbn [concat_all foldr] in Em.
  rewrite (split_frame f v) in Em by done. injection Em as <- Hy. rewrite (parse_frame f v) by done.
  rewrite !length_append in Hf. cbn [String.length nl] in Hf.
  destruct (IH fs0 values0 rest y (match v with Some j => out ++ [j] | None => out end) Hrest)
    as (fs' & values' & read & r & Hd & -> & H1 & H2 & H3 & H4); [done|lia|].
  exists fs', values', (v :: read), r. split; [|set_solver].
  destruct v as [v|]; cbn [omap list_omap id]; rewrite Hd; [|done]. by rewrite <- app_assoc.
Qed.

(** A frame and a chunk fit the buffer together. *)
Definition fits (frames chunks : list string) : Prop :=
  Forall (fun c => Forall (fun t => byte_len t + byte_len c <= MAX_SSE_BUFFER_BYTES) frames) chunks.

(** Nothing whole is kept, so what is kept is shorter than the next frame. *)
Lemma kept_shorter f v fs rest y :
  frame_reads f v -> rest ^^ y = wires (f :: fs) -> split_once (nl ^^ nl) rest = None ->
  byte_len rest <= byte_len (frame_wire f).
Proof.
  intros Hf Ht Hn. unfold byte_len. destruct (Nat.le_gt_cases (String.length rest) (String.length (frame_wire f))) as [|Hl]; [lia|].
  exfalso. unfold wires in Ht. rewrite fmap_cons in Ht. cbn [concat_all foldr] in Ht.
  apply (f_equal (first_bytes (String.length (frame_wire f)))) in Ht.
  rewrite first_app, first_prefix in Ht by lia.
  pose proof (first_drop (String.length (frame_wire f)) rest) as E. rewrite Ht in E.
  pose proof (split_frame f v (drop_bytes (String.length (frame_wire f)) rest) Hf) as Hs. rewrite E in Hs. congruence.
Qed.

(** Frames whose text arrives in clean cuts, small enough for the buffer, are all
    read, however many they are. *)
Lemma frames_arrive_from chunks : forall fs values rest,
  Forall2 frame_reads fs values -> forallb clean_cut chunks = true ->
  rest ^^ concat_all chunks = wires fs -> split_once (nl ^^ nl) rest = None -> fits (frame_wire <$> fs) chunks ->
  push_all (sse_push from_slice) rest chunks = (EmptyString, Ok (omap id values)).
Proof.
  induction chunks as [|c chunks IH]; intros fs values rest Hr Hc Ht Hn Hfit.
  { simpl in Ht. rewrite append_nil_r in Ht. subst rest. inversion Hr as [|f v fs0 vs Hf _]; subst; [done|].
    unfold wires in Hn. rewrite fmap_cons in Hn. cbn [concat_all foldr] in Hn. by rewrite (split_frame f v) in Hn. }
  cbn [forallb] in Hc. apply andb_prop in Hc as [Hc Hcs]. apply Forall_cons in Hfit as [Hfc Hfit].
  assert (all_bytes not_cr (wires fs) = true) as Hcr.
  { clear -Hr. unfold wires. induction Hr as [|f v fs vs Hf _ IHr]; [done|]. rewrite fmap_cons.
    cbn [concat_all foldr]. rewrite all_bytes_app, (frame_wire_not_cr f v) by done. exact IHr. }
  rewrite <- Ht in Hcr. cbn [concat_all foldr] in Ht, Hcr. fold (concat_all chunks) in Ht, Hcr.
  rewrite !all_bytes_app in Hcr. apply andb_prop in Hcr as [_ [Hcr _]%andb_prop].
  rewrite <- append_assoc in Ht.
  assert (byte_len (rest ^^ c) <= MAX_SSE_BUFFER_BYTES) as Hlen.
  { inversion Hr as [|f v fs0 vs Hf _]; subst.
    - destruct rest, c; done.
    - rewrite append_assoc in Ht. pose proof (kept_shorter f v fs0 rest _ Hf Ht Hn). rewrite fmap_cons in Hfc.
      apply Forall_cons in Hfc as [Hfc _]. unfold byte_len in *. rewrite length_append. lia. }
  cbn [push_all]. unfold sse_push. fold (normal_text c). unfold clean_cut in Hc. apply andb_prop in Hc as [Hv _].
  rewrite (normal_text_id c Hv Hcr). apply Z.ltb_ge in Hlen as ->.
  destruct (drain_prefix (String.length (rest ^^ c)) fs values (rest ^^ c) (concat_all chunks) [] Hr Ht)
    as (fs' & values' & read & r & -> & -> & H1 & H2 & H3 & H4); [done|].
  fold (sse_push from_slice). rewrite (IH fs' values' r H1 Hcs H2 H3).
  - cbn [app]. by rewrite omap_app.
  - apply (Forall_impl _ _ _ Hfit). intros c' Hc'. rewrite Forall_fmap, Forall_forall in *. auto.
Qed.

Lemma frames_arrive fs values chunks :
  Forall2 frame_reads fs values -> forallb clean_cut chunks = true ->
  concat_all chunks = concat_all (frame_wire <$> fs) -> fits (frame_wire <$> fs) chunks ->
  push_all (sse_push from_slice) EmptyString chunks = (EmptyString, Ok (omap id values)).
Proof. intros Hr Hc Ht Hf. by apply (frames_arrive_from chunks fs). Qed.

End Frames.

(** ** One gateway writes, another reads *)

(** Compact JSON text of an object is one line with nothing around it, which is not
    the mark at the end of a stream. *)
Class LineJson (print_json : Json -> string) : Prop :=
  line_json : forall v, is_obj v -> data_line (print_json v) = true /\ print_json v <> "[DONE]".

Section Chain.
Context (from_slice : string -> result Json string) (print_json : Json -> string) `{!LineJson print_json}.
Context (sha256 : string -> string) (hmac : string -> string -> string) (now : DateTime).
Context (crc32 : string -> Z) (base64_decode : string -> option string).
Context (url_parse : string -> result ParsedUrl string)
        (lookup_host : string -> Z -> result (list IpAddr) string) (fmt_ip : IpAddr -> string).
Context (send : EgressPath -> HttpRequest -> result HttpResponse string) (fresh : string).
Context (pool : EgressPool) (a : ComposedAdapter).

(** The upstream answers the call of an attempt with a stream of these bytes. *)
Definition answers (prepared : PreparedRequest) (chunks : list string) : Prop :=
  exists call status,
    prepare_call from_slice print_json sha256 hmac now url_parse lookup_host fmt_ip pool a prepared = Ok call
    /\ send call.1 call.2 = Ok (mkHttpResponse status (Ok <$> chunks)) /\ is_success status = true.

(** The bytes of the frames of a stream, cut cleanly; the buffer holds each of the
    frames and a chunk more. The stream may be as long as it likes. *)
Definition carries (chunks frames : list string) : Prop :=
  concat_all chunks = concat_all frames /\ forallb clean_cut chunks = true /\ fits frames chunks.

Definition frame_of (event : option string) (v : Json) : TextFrame := (event, print_json v).

(** A value that can be sent in a frame. *)
Definition sendable (v : Json) : Prop := is_obj v /\ get "error" v = None.

Lemma frame_of_reads event v :
  match event with Some e => one_line e = true /\ e <> "error" | None => True end ->
  sendable v -> from_slice (print_json v) = Ok v ->
  frame_reads from_slice (frame_of event v) (Some v).
Proof.
  intros He [Ho Hg] Hb. destruct (line_json v Ho) as [Hl Hd]. split; [done|]. split; [done|].
  split; [done|]. split; [done|]. unfold stream_error_message. by rewrite Hg.
Qed.

Lemma execute_streams prepared fs values chunks :
  cs_upstream_stream (codec_shape (ca_codec a)) (req_stream (pr_request prepared)) = true -> ca_transport a = HttpTransport ->
  answers prepared chunks -> carries chunks (frame_wire <$> fs) -> Forall2 (frame_reads from_slice) fs values ->
  execute from_slice print_json sha256 hmac now crc32 base64_decode url_parse lookup_host fmt_ip send fresh pool a
    prepared
  = Ok (Ok <$> (let '(d, evs) := decode_all from_slice print_json
                                   (cf_decoder (codec_format (from_str_ok from_slice) print_json (ca_codec a)) (t_model (pr_target prepared))) (omap id values) in
                evs ++ (decoder_finish d).2)).
Proof.
  intros Hs Ht (call & status & Hp & Hsend & Hok) (Hc & Hcut & Hfit) Hr. unfold execute. rewrite Hp. simpl.
  unfold send_request. rewrite Hsend. cbn [hs_status hs_body]. rewrite Hok. simpl. rewrite Hs.
  rewrite (pump_values from_slice print_json crc32 base64_decode a chunks EmptyString _ EmptyString (omap id values));
    [done|].
  unfold framer_push. rewrite Ht. by apply frames_arrive with (fs := fs).
Qed.

(** *** Chat *)

(** The body of a chat stream. *)
Fixpoint chat_body (e : OpenAiStreamEncoder) (evs : list AiStreamEvent) : list string :=
  match evs with
  | [] => [openai_done]
  | ev :: evs => let '(e, texts) := openai_encode print_json e ev in texts ++ chat_body e evs
  end.

Lemma chat_body_frames evs : forall e,
  chat_body e evs = frame_wire <$> (frame_of None <$> encode_values e evs) ++ [(None, "[DONE]")].
Proof.
  induction evs as [|ev evs IH]; intros e; [done|]. cbn [chat_body encode_values]. unfold openai_encode.
  destruct (openai_encode_chunk e ev) as [e' [v|]]; rewrite IH; reflexivity.
Qed.

Lemma chunk_sendable e ev v : (openai_encode_chunk e ev).2 = Some v -> sendable v.
Proof.
  assert (forall e choices usage, sendable (openai_chunk e choices usage)) as H.
  { intros e' choices usage. unfold sendable, openai_chunk. split; [auto with json|by json_get]. }
  unfold openai_encode_chunk. destruct ev; try done; try (destruct (oe_message_started e); [done|]);
    intros Hv; injection Hv as <-; apply H.
Qed.

Lemma chat_sendable evs : forall e, Forall sendable (encode_values e evs).
Proof.
  induction evs as [|ev evs IH]; intros e; [constructor|]. cbn [encode_values].
  pose proof (chunk_sendable e ev) as H. destruct (openai_encode_chunk e ev) as [e' [v|]]; [|apply IH].
  constructor; [by apply H|apply IH].
Qed.

Lemma frames_read event vs :
  match event with Some e => one_line e = true /\ e <> "error" | None => True end ->
  Forall sendable vs -> Forall (fun v => from_slice (print_json v) = Ok v) vs ->
  Forall2 (frame_reads from_slice) (frame_of event <$> vs) (Some <$> vs).
Proof.
  intros He Hs Hb. induction Hs as [|v vs Hv Hs IH]; [constructor|]. apply Forall_cons in Hb as [Hb1 Hb2].
  constructor; [by apply frame_of_reads|by apply IH].
Qed.

Lemma omap_some {A} (l : list A) (rest : list (option A)) : omap id ((Some <$> l) ++ rest) = l ++ omap id rest.
Proof. induction l as [|x l IH]; [done|]. cbn. by f_equal. Qed.

Lemma decode_all_chat vs : forall d,
  decode_all from_slice print_json (OpenAiDecoder d) vs
  = (OpenAiDecoder (decode_values d vs).1, (decode_values d vs).2).
Proof.
  induction vs as [|v vs IH]; intros d; [done|]. cbn [decode_all decoder_decode decode_values].
  destruct (openai_decode d v) as [d1 o1]. rewrite IH. by destruct (decode_values d1 vs).
Qed.

(** C19 (roundtrip). A chat stream that a gateway writes, read through the adapter of
    another gateway and collected there, is the chat view of the response that the
    first one collects. The stream is collected without an error, opens each tool
    call once, before its arguments and under an index of 32 bits, and its usage can
    be written; JSON prints an object on one line and reads it back; the answer to the
    streaming call of the second gateway is this text, with success. The text may be
    cut between any two characters, and may be as long as it likes, but a frame and a
    chunk together are at most the 1 MiB the buffer holds. *)
Theorem chat_chain parse clock id wire_model evs prepared chunks request_id model resp :
  ca_codec a = OpenAiCodec -> ca_transport a = HttpTransport -> req_stream (pr_request prepared) = true ->
  stream_wf ∅ evs = true ->
  collect_response parse (Ok <$> evs) request_id model None = Ok resp ->
  let values := encode_values (OpenAiStreamEncoder_new clock id wire_model) evs in
  Forall (fun v => from_slice (print_json v) = Ok v) values ->
  answers prepared chunks ->
  carries chunks (chat_body (OpenAiStreamEncoder_new clock id wire_model) evs) ->
  exists stream,
    execute from_slice print_json sha256 hmac now crc32 base64_decode url_parse lookup_host fmt_ip send fresh pool a
      prepared = Ok stream
    /\ collect_response parse stream request_id model None = Ok (chat_view resp).
Proof.
  intros Hcd Ht Hst Hwf Hcol values Hb Ha Hc. rewrite chat_body_frames in Hc. eexists. split.
  - eapply (execute_streams prepared ((frame_of None <$> values) ++ [(None, "[DONE]")])
              ((Some <$> values) ++ [None])); try done.
    + by rewrite Hcd.
    + apply Forall2_app; [by apply frames_read; [|apply chat_sendable|]|]. by repeat constructor.
  - rewrite omap_some, app_nil_r, Hcd. cbn [codec_format cf_decoder openai_format anthropic_format responses_format]. rewrite decode_all_chat. cbn [decoder_finish].
    pose proof (chat_stream_roundtrip parse clock id wire_model evs request_id model resp Hwf Hcol) as H.
    fold values in H. unfold decode_stream in H. destruct (decode_values OpenAiStreamDecoder_new values) as [d evs'].
    cbn [fst snd]. by destruct (openai_finish d).
Qed.

(** *** Messages and Responses *)

(** A frame of a protocol that names its events. *)
Definition named_frame (f : Frame) : Prop :=
  exists fields, f = typed f.1 fields /\ one_line f.1 = true /\ f.1 <> "error" /\ find_last "error" fields = None.

Lemma named_typed kind fields :
  one_line kind && negb (str_eqb kind "error") && negb (opt_is_some (find_last "error" fields)) = true ->
  named_frame (typed kind fields).
Proof.
  intros [[H1 H2%negb_true_iff]%andb_prop H3%negb_true_iff]%andb_prop. exists fields.
  split; [done|]. split; [done|]. split.
  - simpl. intros ->. by vm_compute in H2.
  - by destruct (find_last "error" fields).
Qed.

Lemma named_sendable f : named_frame f -> sendable f.2.
Proof.
  intros (fields & -> & _ & _ & Hn). unfold typed. cbn [snd]. split; [auto with json|]. by rewrite get_typed.
Qed.

Definition frame_text_of (f : Frame) : TextFrame := frame_of (Some f.1) f.2.

Lemma frame_text_wire f : frame_text print_json f = frame_wire (frame_text_of f).
Proof. unfold frame_text, frame_wire, frame_lines, frame_text_of, frame_of. cbn [fst snd]. by rewrite !append_assoc. Qed.

Lemma named_frames_read fs :
  Forall named_frame fs -> Forall (fun f => from_slice (print_json f.2) = Ok f.2) fs ->
  Forall2 (frame_reads from_slice) (frame_text_of <$> fs) ((fun f => Some f.2) <$> fs).
Proof.
  intros Hn Hb. induction Hn as [|f fs Hf Hn IH]; [constructor|]. apply Forall_cons in Hb as [Hb1 Hb2].
  constructor; [|by apply IH]. apply frame_of_reads; [|by apply named_sendable|done].
  destruct Hf as (fields & _ & H1 & H2 & _). done.
Qed.

Lemma omap_frames (fs : list Frame) : omap id ((fun f => Some f.2) <$> fs) = fs.*2.
Proof. induction fs as [|f fs IH]; [done|]. cbn. by f_equal. Qed.

Lemma named_then r f :
  Forall named_frame r.2 -> (forall e, Forall named_frame (f e).2) -> Forall named_frame (then_frames r f).2.
Proof.
  intros Hr Hf. rewrite then_frames_eq. cbn [snd]. apply Forall_app. by split.
Qed.

Lemma named_started e : Forall named_frame (ensure_started e).2.
Proof. unfold ensure_started. destruct (ae_message_started e); repeat constructor. by apply named_typed. Qed.

Lemma named_close e : Forall named_frame (close_block e).2.
Proof. unfold close_block. destruct (ae_open_block e); repeat constructor. by apply named_typed. Qed.

Lemma named_open make block e : Forall named_frame (open_block make block e).2.
Proof. repeat constructor. by apply named_typed. Qed.

Lemma named_delta_in is_kind make block delta e : Forall named_frame (delta_in is_kind make block delta e).2.
Proof.
  unfold delta_in. apply named_then.
  - destruct (match ae_open_block e with Some b => is_kind b | None => false end); [constructor|].
    apply named_then; [apply named_close|]. intros. apply named_open.
  - intros e'. repeat constructor. by apply named_typed.
Qed.

Lemma named_event e ev : Forall named_frame (anthropic_frames e ev).2.
Proof.
  unfold anthropic_frames. destruct (ae_ended e); [constructor|]. destruct ev; try constructor.
  - apply named_started.
  - destruct (is_empty text); [constructor|]. apply named_then; [apply named_started|intros; apply named_delta_in].
  - apply named_then; [apply named_started|intros; apply named_delta_in].
  - apply named_then; [|intros; apply named_open]. apply named_then; [apply named_started|apply named_close].
  - apply named_then; [apply named_started|]. intros. repeat constructor. by apply named_typed.
  - destruct (ae_open_block e) as [[]|]; try constructor. destruct (_ =? _); [apply named_close|constructor].
  - apply named_then; [apply named_then; [apply named_started|apply named_close]|].
    intros. repeat constructor; by apply named_typed.
Qed.

Lemma named_messages evs : forall e, Forall named_frame (encode_frames e evs).
Proof.
  induction evs as [|ev evs IH]; intros e; [constructor|]. cbn [encode_frames].
  pose proof (named_event e ev) as H. destruct (anthropic_frames e ev) as [e' fs]. apply Forall_app. by split.
Qed.

(** The body of a Messages stream. *)
Fixpoint messages_body (e : AnthropicStreamEncoder) (evs : list AiStreamEvent) : list string :=
  match evs with
  | [] => []
  | ev :: evs => let '(e, texts) := anthropic_encode print_json e ev in texts ++ messages_body e evs
  end.

Lemma messages_body_frames evs : forall e, messages_body e evs = frame_wire <$> (frame_text_of <$> encode_frames e evs).
Proof.
  induction evs as [|ev evs IH]; intros e; [done|]. cbn [messages_body encode_frames]. unfold anthropic_encode.
  destruct (anthropic_frames e ev) as [e' fs]. rewrite IH, !fmap_app. f_equal.
  rewrite <- list_fmap_compose. apply list_fmap_ext. intros i f _. apply frame_text_wire.
Qed.

Lemma decode_all_messages fs : forall d,
  decode_all from_slice print_json (AnthropicDecoder d) fs.*2
  = (AnthropicDecoder (decode_frames d fs).1, (decode_frames d fs).2).
Proof.
  induction fs as [|f fs IH]; intros d; [done|]. rewrite fmap_cons. cbn [decode_all decoder_decode decode_frames].
  destruct (anthropic_decode d f.2) as [d1 o1]. rewrite IH. by destruct (decode_frames d1 fs).
Qed.

(** C20 (roundtrip). A Messages stream that a gateway writes, read through the adapter of
    another gateway and collected there, is the Messages view of the response that the
    first one collects: text, reasoning, tool calls, the reason for the end and the
    output tokens. The stream is collected without an error and has at most 2^32 - 1
    events after its start; it ends with its message and nothing comes after that, not
    even usage; tool calls start in the order of their indices, arguments are for the
    call that started last, with no text, reasoning or end in between, and so is an end
    of a call; the output tokens have 64 bits; JSON prints an object on one line and
    reads it back; the answer to the streaming call is this text, with success, cut
    between any two characters, a frame and a chunk together at most 1 MiB. *)
Theorem messages_chain parse wire_id wire_model id0 model0 evs prepared chunks request_id model resp :
  ca_codec a = AnthropicCodec -> ca_transport a = HttpTransport -> req_stream (pr_request prepared) = true ->
  complete None (-1) evs = true -> Z.of_nat (length evs) <= u32_max ->
  collect_response parse (Ok <$> EvMessageStart id0 model0 :: evs) request_id model None = Ok resp ->
  let encoder := AnthropicStreamEncoder_new wire_id wire_model in
  Forall (fun f => from_slice (print_json f.2) = Ok f.2) (encode_frames encoder (EvMessageStart id0 model0 :: evs)) ->
  answers prepared chunks -> carries chunks (messages_body encoder (EvMessageStart id0 model0 :: evs)) ->
  exists stream,
    execute from_slice print_json sha256 hmac now crc32 base64_decode url_parse lookup_host fmt_ip send fresh pool a
      prepared = Ok stream
    /\ collect_response parse stream request_id model None
       = Ok (messages_view (mkUsage 0 (output_tokens (resp_usage resp)) 0 0 None) resp).
Proof.
  intros Hcd Ht Hst Hc Hlen Hcol encoder Hb Ha Hcar. rewrite messages_body_frames in Hcar.
  pose proof (messages_stream_roundtrip parse wire_id wire_model id0 model0 evs request_id model resp Hc Hlen Hcol) as H.
  fold encoder in H. set (fs := encode_frames encoder (EvMessageStart id0 model0 :: evs)) in *.
  eexists. split.
  - eapply (execute_streams prepared (frame_text_of <$> fs)); try done.
    + by rewrite Hcd.
    + by apply named_frames_read; [apply named_messages|].
  - rewrite omap_frames, Hcd. cbn [codec_format cf_decoder openai_format anthropic_format responses_format]. rewrite decode_all_messages. cbn [decoder_finish].
    unfold decode_messages in H. destruct (decode_frames AnthropicStreamDecoder_new fs) as [d evs'].
    cbn [fst snd]. by destruct (anthropic_finish d).
Qed.

(** The life cycle of a server tool is named on one line. *)
Definition event_named (ev : AiStreamEvent) : bool :=
  match ev with EvServerToolCall _ name status => followed name && one_line status | _ => true end.

Context (new_id : string -> nat -> string).

Ltac named := repeat (apply Forall_cons; split; [by apply named_typed|]); try apply Forall_nil_2.

Lemma named_reasoning e : Forall named_frame (close_reasoning e).2.
Proof. unfold close_reasoning. destruct (_ || _); named. Qed.

Lemma named_item i item : Forall named_frame (whole_item i item).
Proof. unfold whole_item. named. Qed.

Lemma named_tools calls : forall i, Forall named_frame (finish_tools new_id i calls).1.2.
Proof.
  induction calls as [|[[call_id name] args] calls IH]; intros i; [constructor|]. cbn [finish_tools].
  specialize (IH (wrap32 (i + 1))). destruct (finish_tools new_id _ calls) as [[last fs] items]. cbn [fst snd] in *.
  apply Forall_app. split; [apply named_item|done].
Qed.

Lemma named_finish e : Forall named_frame (responses_finish new_id e).2.
Proof.
  rewrite responses_finish_frames. rewrite !Forall_app. split; [apply named_reasoning|]. split.
  - unfold finish_text. destruct (re_text_open _); named.
  - split; [apply named_tools|]. named.
Qed.

Lemma named_server_tool id i name status :
  followed name = true -> one_line status = true ->
  named_frame (typed ("response." ^^ name ^^ "_call." ^^ status) [("item_id", JString id); ("output_index", JInt i)]).
Proof.
  intros Hn Hs. apply named_typed. rewrite !one_line_app, Hs.
  apply followed_names in Hn as [->|[-> | ->]]; reflexivity.
Qed.

Lemma named_response_event e ev :
  event_named ev = true -> Forall named_frame (responses_frames new_id e ev).2.
Proof.
  intros Hn. destruct ev; cbn [responses_frames]; try (by named).
  - pose proof (named_reasoning e) as H. destruct (close_reasoning e) as [e1 fs1]. cbn [fst snd] in *.
    apply Forall_app. split; [done|]. destruct (re_text_open e1); named.
  - cbn [snd]. destruct (re_reasoning_open e); named.
  - pose proof (named_reasoning e) as H. destruct (close_reasoning e) as [e1 fs1]. cbn [fst snd] in *.
    apply Forall_app. split; [done|apply named_item].
  - simpl in Hn. apply andb_prop in Hn as [Hn Hs]. cbn [snd]. repeat constructor. by apply named_server_tool.
  - apply named_finish.
Qed.

Lemma named_responses evs : forall e,
  forallb event_named evs = true -> Forall named_frame (encode_responses new_id e evs).2.
Proof.
  induction evs as [|ev evs IH]; intros e; [constructor|]. cbn [encode_responses forallb].
  intros [H1 H2]%andb_prop. pose proof (named_response_event e ev H1) as H.
  destruct (responses_frames new_id e ev) as [e' fs]. specialize (IH e' H2).
  destruct (encode_responses new_id e' evs) as [e2 fs2]. cbn [snd] in *. apply Forall_app. by split.
Qed.

(** The body of a Responses stream. *)
Fixpoint responses_body (e : OpenAiResponsesStreamEncoder) (evs : list AiStreamEvent) : list string :=
  match evs with
  | [] => []
  | ev :: evs => let '(e, texts) := responses_encode print_json new_id e ev in texts ++ responses_body e evs
  end.

Lemma responses_body_frames evs : forall e,
  responses_body e evs = frame_wire <$> (frame_text_of <$> (encode_responses new_id e evs).2).
Proof.
  induction evs as [|ev evs IH]; intros e; [done|]. cbn [responses_body encode_responses]. unfold responses_encode.
  destruct (responses_frames new_id e ev) as [e' fs]. rewrite IH.
  destruct (encode_responses new_id e' evs) as [e2 fs2]. cbn [snd]. rewrite !fmap_app. f_equal.
  rewrite <- list_fmap_compose. apply list_fmap_ext. intros i f _. apply frame_text_wire.
Qed.

Lemma decode_all_responses fs : forall d,
  decode_all from_slice print_json (ResponsesDecoder d) fs.*2
  = (ResponsesDecoder (decode_responses (from_str_ok from_slice) d fs).1,
     (decode_responses (from_str_ok from_slice) d fs).2).
Proof.
  induction fs as [|f fs IH]; intros d; [done|]. rewrite fmap_cons. cbn [decode_all decoder_decode decode_responses].
  destruct (responses_decode (from_str_ok from_slice) d f.2) as [d1 o1]. rewrite IH.
  by destruct (decode_responses (from_str_ok from_slice) d1 fs).
Qed.

(** C21 (roundtrip). A Responses stream that a gateway writes, read through the adapter of
    another gateway and collected there, is the response that the first one collects,
    less its images and with a plain stop as its end: text, reasoning, citations,
    server tools, tool calls and usage arrive. The stream is collected without an error
    and has fewer than 2^31 events after its only start; it ends with its message and
    nothing comes after that, not even usage; tool calls start in the order of their
    indices, and arguments are for the call that is being written; usage can be
    written, and server tools have one of the three known names and a status on one
    line; JSON prints an object on one line and reads it back; the answer to the
    streaming call is this text, with success, cut between any two characters, a frame
    and a chunk together at most 1 MiB. *)
Theorem responses_chain parse codec response_id wire_model id0 model0 evs prepared chunks request_id model resp :
  ca_codec a = OpenAiResponsesCodec codec -> ca_transport a = HttpTransport ->
  req_stream (pr_request prepared) = true ->
  responses_complete None (-1) evs = true -> 2 * Z.of_nat (length evs) <= u32_max ->
  forallb event_named evs = true -> Forall (fun ev => forall id m, ev <> EvMessageStart id m) evs ->
  collect_response parse (Ok <$> EvMessageStart id0 model0 :: evs) request_id model None = Ok resp ->
  let encoder := OpenAiResponsesStreamEncoder_new new_id response_id wire_model in
  Forall (fun f => from_slice (print_json f.2) = Ok f.2)
    (encode_responses new_id encoder (EvMessageStart id0 model0 :: evs)).2 ->
  answers prepared chunks -> carries chunks (responses_body encoder (EvMessageStart id0 model0 :: evs)) ->
  exists stream,
    execute from_slice print_json sha256 hmac now crc32 base64_decode url_parse lookup_host fmt_ip send fresh pool a
      prepared = Ok stream
    /\ collect_response parse stream request_id model None = Ok (responses_stream_view resp).
Proof.
  intros Hcd Ht Hst Hc Hlen Hn Hms Hcol encoder Hb Ha Hcar. rewrite responses_body_frames in Hcar.
  pose proof (responses_stream_roundtrip (from_str_ok from_slice) new_id parse response_id wire_model
    (t_model (pr_target prepared)) id0 model0 evs request_id model resp Hc Hlen Hms Hcol) as H.
  fold encoder in H.
  set (fs := (encode_responses new_id encoder (EvMessageStart id0 model0 :: evs)).2) in *.
  eexists. split.
  - eapply (execute_streams prepared (frame_text_of <$> fs)); try done.
    + rewrite Hcd, Hst. cbn. unfold responses_upstream_stream. by destruct (is_codex_native_relay codec).
    + by apply named_frames_read; [apply (named_responses (EvMessageStart id0 model0 :: evs) encoder Hn)|].
  - rewrite omap_frames, Hcd. cbn [codec_format cf_decoder openai_format anthropic_format responses_format]. rewrite decode_all_responses. cbn [decoder_finish].
    destruct (decode_responses _ _ fs) as [d evs']. cbn [fst snd] in *. by rewrite app_nil_r.
Qed.

End Chain.

(** ** Gateways in a chain: samples

    A concrete client, upstream and JSON text for the theorems on adapters and on
    chains of gateways, and what they show of the code. *)

#[local] Open Scope Z_scope.
#[local] Open Scope switchback_scope.

Module ChainSamples.

(** ** JSON text *)

(** Each of some values has a text of its own, and everything else the same one. *)
Fixpoint text_in (table : list (Json * string)) (v : Json) : string :=
  match table with
  | [] => "{}"
  | (w, s) :: table => if json_eqb v w then s else text_in table v
  end.

Fixpoint value_in (table : list (Json * string)) (s : string) : result Json string :=
  match table with
  | [] => Err "unknown text"
  | (w, t) :: table => if String.eqb s t then Ok w else value_in table s
  end.

Definition numbered (vs : list Json) : list (Json * string) :=
  imap (fun n v => (v, "{" ^^ fmt_int (Z.of_nat n) ^^ "}")) vs.

Definition good_text (s : string) : bool := data_line s && negb (str_eqb s "[DONE]").

Lemma text_in_good table v : forallb good_text (table.*2) = true -> good_text (text_in table v) = true.
Proof.
  induction table as [|[w s] table IH]; [done|]. simpl. intros [Hs Ht]%andb_prop.
  destruct (json_eqb v w); [done|by apply IH].
Qed.

Lemma text_in_lines table : forallb good_text (table.*2) = true -> LineJson (text_in table).
Proof.
  intros H v _. pose proof (text_in_good table v H) as Hg. unfold good_text in Hg.
  apply andb_prop in Hg as [Hd Hn%negb_true_iff]. split; [done|]. intros E. by rewrite E in Hn.
Qed.

(** ** A client and an upstream *)

Definition no_digest (s : string) : string := s.
Definition no_mac (k s : string) : string := k ^^ s.
Definition noon : DateTime := mkDateTime 2024 1 2 12 0 0.
Definition no_crc (s : string) : Z := 0.
Definition no_base64 (s : string) : option string := None.
Definition unparsed (s : string) : result ParsedUrl string := Err "not parsed".
Definition no_host (s : string) (port : Z) : result (list IpAddr) string := Ok [].
Definition no_ip (ip : IpAddr) : string := EmptyString.

Definition direct : EgressPool := mkEgressPool {[DIRECT := mkEgressPath DIRECT None None []]} false.

Definition answering (chunks : list string) (p : EgressPath) (r : HttpRequest) : result HttpResponse string :=
  Ok (mkHttpResponse 200 (Ok <$> chunks)).

Definition adapter (c : WireCodec) : ComposedAdapter :=
  with_scheme c SchemeBearer "https://up.example/v1/" CapabilityProfile_default false.

Definition streaming : AiRequest :=
  mkAiRequest "r" "gpt" None [message_user "hi"] [] [] None true None None PriorityNormal Standard [] None None
    [] [] None None.

Definition attempt : PreparedRequest :=
  mkPreparedRequest streaming (ExecutionTarget_new "p" "gpt" ModelApi) (Some (lease_bearer "acct" "s3cret")) None.

Definition cut_at (n : nat) (s : string) : list string := [first_bytes n s; drop_bytes n s].

(** The sum of two lengths is compared, so that a sample can compute it. *)
Lemma fits_sample frames chunks :
  forallb (fun c => forallb (fun t => byte_len t + byte_len c <=? MAX_SSE_BUFFER_BYTES) frames) chunks = true ->
  fits frames chunks.
Proof.
  intros H. apply Forall_forall. intros c Hc. apply Forall_forall. intros t Ht.
  rewrite forallb_forall in H. specialize (H c ltac:(by apply list_elem_of_In)). rewrite forallb_forall in H.
  apply Z.leb_le, (H t). by apply list_elem_of_In.
Qed.

Definition no_parse (s : string) : option Json := None.

Lemma sample_answers table chunks c :
  match prepare_call (value_in table) (text_in table) no_digest no_mac noon unparsed no_host no_ip direct (adapter c) attempt with
  | Ok _ => true | Err _ => false end = true ->
  answers (value_in table) (text_in table) no_digest no_mac noon unparsed no_host no_ip (answering chunks) direct (adapter c) attempt
    chunks.
Proof.
  intros H. unfold answers. destruct (prepare_call _ _ _ _ _ _ _ _ _ _ _) as [call|]; [|done].
  exists call, 200. done.
Qed.

(** Read back each of the values, which are computed first. *)
Ltac read_back :=
  match goal with |- Forall _ ?l =>
    let x := eval vm_compute in l in
    let E := fresh "E" in
    assert (l = x) as E by (vm_compute; reflexivity); rewrite E; clear E
  end; repeat (apply Forall_cons; split; [vm_compute; reflexivity|]); apply Forall_nil_2.

(** ** Chains *)

Definition chat_encoder : OpenAiStreamEncoder := OpenAiStreamEncoder_new 7 "chatcmpl" "gpt".
Definition chat_events : list AiStreamEvent := EvMessageStart "up" "gpt" :: MessagesSamples.ask.
Definition chat_table : list (Json * string) := numbered (encode_values chat_encoder chat_events).
Definition chat_chunks : list string := cut_at 25 (concat_all (chat_body (text_in chat_table) chat_encoder chat_events)).

#[local] Instance chat_lines : LineJson (text_in chat_table).
Proof. apply text_in_lines. vm_compute. reflexivity. Defined.

Definition chat_collected : AiResponse := collected no_parse "r" "m" (fold_left absorb (Ok <$> chat_events) Collector_new).

Lemma chat_chain_witness :
  exists stream,
    execute (value_in chat_table) (text_in chat_table) no_digest no_mac noon no_crc no_base64 unparsed no_host no_ip
      (answering chat_chunks) "fresh" direct (adapter OpenAiCodec) attempt = Ok stream
    /\ collect_response no_parse stream "r" "m" None = Ok (chat_view chat_collected).
Proof.
  apply (chat_chain (value_in chat_table) (text_in chat_table) no_digest no_mac noon no_crc no_base64 unparsed no_host
           no_ip (answering chat_chunks) "fresh" direct (adapter OpenAiCodec) no_parse 7 "chatcmpl" "gpt" chat_events
           attempt chat_chunks "r" "m" chat_collected).
  - reflexivity.
  - reflexivity.
  - reflexivity.
  - vm_compute. reflexivity.
  - apply collect_no_errors. repeat constructor.
  - read_back.
  - by apply sample_answers; vm_compute.
  - split; [vm_compute; reflexivity|]. split; [vm_compute; reflexivity|]. by apply fits_sample; vm_compute.
Defined.

Definition messages_encoder : AnthropicStreamEncoder := AnthropicStreamEncoder_new "msg" "claude".
Definition messages_table : list (Json * string) :=
  numbered ((encode_frames messages_encoder chat_events).*2).
Definition messages_chunks : list string :=
  cut_at 40 (concat_all (messages_body (text_in messages_table) messages_encoder chat_events)).

#[local] Instance messages_lines : LineJson (text_in messages_table).
Proof. apply text_in_lines. vm_compute. reflexivity. Defined.

Lemma messages_chain_witness :
  exists stream,
    execute (value_in messages_table) (text_in messages_table) no_digest no_mac noon no_crc no_base64 unparsed no_host
      no_ip (answering messages_chunks) "fresh" direct (adapter AnthropicCodec) attempt = Ok stream
    /\ collect_response no_parse stream "r" "m" None
       = Ok (messages_view (mkUsage 0 7 0 0 None) chat_collected).
Proof.
  apply (messages_chain (value_in messages_table) (text_in messages_table) no_digest no_mac noon no_crc no_base64 unparsed
           no_host no_ip (answering messages_chunks) "fresh" direct (adapter AnthropicCodec) no_parse "msg" "claude"
           "up" "gpt" MessagesSamples.ask attempt messages_chunks "r" "m" chat_collected).
  - reflexivity.
  - reflexivity.
  - reflexivity.
  - vm_compute. reflexivity.
  - vm_compute. discriminate.
  - apply collect_no_errors. repeat constructor.
  - read_back.
  - by apply sample_answers; vm_compute.
  - split; [vm_compute; reflexivity|]. split; [vm_compute; reflexivity|]. by apply fits_sample; vm_compute.
Defined.

Definition any_id : string -> nat -> string := ResponsesSamples.any_id.
Definition responses_encoder : OpenAiResponsesStreamEncoder := OpenAiResponsesStreamEncoder_new any_id "resp" "gpt".
Definition responses_events : list AiStreamEvent := EvMessageStart "up" "gpt" :: ResponsesSamples.told.
Definition responses_table : list (Json * string) :=
  numbered ((encode_responses any_id responses_encoder responses_events).2.*2).
Definition responses_chunks : list string :=
  cut_at 60 (concat_all (responses_body (text_in responses_table) any_id responses_encoder responses_events)).

#[local] Instance responses_lines : LineJson (text_in responses_table).
Proof. apply text_in_lines. vm_compute. reflexivity. Defined.

Definition responses_collected : AiResponse :=
  collected no_parse "r" "m" (fold_left absorb (Ok <$> responses_events) Collector_new).

Lemma responses_chain_witness :
  exists stream,
    execute (value_in responses_table) (text_in responses_table) no_digest no_mac noon no_crc no_base64 unparsed no_host
      no_ip (answering responses_chunks) "fresh" direct (adapter (OpenAiResponsesCodec "openai_responses")) attempt
    = Ok stream
    /\ collect_response no_parse stream "r" "m" None = Ok (responses_stream_view responses_collected).
Proof.
  apply (responses_chain (value_in responses_table) (text_in responses_table) no_digest no_mac noon no_crc no_base64
           unparsed no_host no_ip (answering responses_chunks) "fresh" direct
           (adapter (OpenAiResponsesCodec "openai_responses")) any_id no_parse "openai_responses" "resp" "gpt" "up"
           "gpt" ResponsesSamples.told attempt responses_chunks "r" "m" responses_collected).
  - reflexivity.
  - reflexivity.
  - reflexivity.
  - vm_compute. reflexivity.
  - vm_compute. discriminate.
  - vm_compute. reflexivity.
  - repeat constructor; discriminate.
  - apply collect_no_errors. repeat constructor.
  - read_back.
  - by apply sample_answers; vm_compute.
  - split; [vm_compute; reflexivity|]. split; [vm_compute; reflexivity|]. by apply fits_sample; vm_compute.
Defined.

(** ** Adapters *)

Definition chat_call : EgressPath * HttpRequest :=
  match prepare_call (value_in chat_table) (text_in chat_table) no_digest no_mac noon unparsed no_host no_ip direct (adapter OpenAiCodec) attempt with
  | Ok call => call
  | Err _ => (pool_path direct None, mkHttpRequest EmptyString EmptyString [] [] EmptyString)
  end.

Lemma auth_only_from_lease_witness :
  prepare_call (value_in chat_table) (text_in chat_table) no_digest no_mac noon unparsed no_host no_ip direct
    (adapter OpenAiCodec) attempt = Ok chat_call
  /\ hq_url chat_call.2 = "https://up.example/v1/chat/completions"
  /\ ("authorization", "Bearer s3cret") ∈ hq_headers chat_call.2
  /\ (exists l, pr_lease attempt = Some l
        /\ lease_header no_digest no_mac noon (SchemeSigner SchemeBearer) l chat_call.2 ("authorization", "Bearer s3cret")).
Proof.
  assert (E : prepare_call (value_in chat_table) (text_in chat_table) no_digest no_mac noon unparsed no_host no_ip direct
    (adapter OpenAiCodec) attempt = Ok chat_call) by reflexivity.
  assert (Hin : ("authorization", "Bearer s3cret") ∈ hq_headers chat_call.2) by (vm_compute; right; left).
  split; [exact E|]. split; [reflexivity|]. split; [exact Hin|].
  destruct (auth_only_from_lease (value_in chat_table) (text_in chat_table) no_digest no_mac noon unparsed no_host no_ip
              direct (adapter OpenAiCodec) attempt chat_call E) as (_ & _ & _ & _ & H).
  exact (H _ Hin eq_refl).
Defined.

Lemma adapter_stream_chunking_witness :
  let text := concat_all (chat_body (text_in chat_table) chat_encoder chat_events) in
  pump (value_in chat_table) (text_in chat_table) no_crc no_base64 (adapter OpenAiCodec) EmptyString
    (OpenAiDecoder OpenAiStreamDecoder_new) (Ok <$> cut_at 30 text)
  = pump (value_in chat_table) (text_in chat_table) no_crc no_base64 (adapter OpenAiCodec) EmptyString
      (OpenAiDecoder OpenAiStreamDecoder_new) (Ok <$> [text]).
Proof.
  apply (adapter_stream_chunking (value_in chat_table) (text_in chat_table) no_crc no_base64 (adapter OpenAiCodec)
           (OpenAiDecoder OpenAiStreamDecoder_new)); [vm_compute; reflexivity..| |vm_compute; reflexivity|].
  - intros H. apply overfull_long in H. vm_compute in H. discriminate.
  - vm_compute. repeat constructor.
Defined.

(** An outbound path may set a header that a provider uses for its secret, when it
    is not one of the names that are refused: both values are sent, that of the
    path first. *)
Definition spoofing : EgressPool :=
  mkEgressPool {["p" := mkEgressPath "p" None None [("x-token", "path")]]} true.

Lemma path_sets_scheme_header :
  hq_headers (build_request no_digest no_mac noon spoofing
    (with_scheme OpenAiCodec (SchemeHeader "x-token") "https://up.example" CapabilityProfile_default false)
    "POST" "https://up.example/chat/completions" json_content None "{}" (Some (lease_bearer "acct" "s3cret"))
    (Some "p")).2
  = [("content-type", "application/json"); ("x-token", "path"); ("x-token", "s3cret")].
Proof. reflexivity. Qed.

(** A tool parameter that is called like the keyword is removed from the schema. *)
Lemma parameter_named_keyword_removed :
  downlevel_codex_native_exclusive_minimum
    (obj [("type", JString "object");
          ("properties", obj [("exclusiveMinimum", obj [("type", JString "string")])]);
          ("required", JArray [JString "exclusiveMinimum"])])
  = obj [("type", JString "object"); ("properties", obj []); ("required", JArray [JString "exclusiveMinimum"])].
Proof. reflexivity. Qed.

(** A bound inside a list of alternatives is not replaced. *)
Lemma bound_in_alternatives_kept :
  let schema := obj [("anyOf", JArray [obj [("type", JString "integer"); ("exclusiveMinimum", JInt 0)]])] in
  downlevel_codex_native_exclusive_minimum schema = schema.
Proof. reflexivity. Qed.

(** The digest of the body is a header for an empty body too. *)
Lemma empty_body_digest_sent :
  ("x-amz-content-sha256", EmptyString)
  ∈ sigv4_sign no_digest no_mac (mkSignTarget "GET" "h" "/" EmptyString EmptyString) (mkAwsSigV4Lease "ak" "sk" None)
      "us-east-1" "bedrock" "20240102T120000Z".
Proof. right. left. Qed.

End ChainSamples.
