(* ===== verification/Execution.v ===== *)
(** * Execution metadata

    [crates/sb-core/src/execution.rs] and [crates/sb-runtime/src/execution_meta.rs]:
    the summary of a request as a job, its fingerprint, the cache of fingerprints,
    the receipt a route decision carries, and the harnesses for a task. The field
    [receipt] of the decision is kept beside the plan. The derived serializer of
    the fingerprint material and the digest are parameters; a poisoned lock does
    not occur. *)

From Stdlib Require Import ZArith Lia Ascii.
From stdpp Require Import base list strings gmap option.
From S2P Require Import Prelude Text Lines BTree Float Ir Config Target Routing Router RouterTheorems.
From S2P Require Import ConfigSchema.

#[local] Open Scope Z_scope.
#[local] Open Scope switchback_scope.

Definition EXECUTION_POLICY_VERSION : string := "execution-policy/v1".
Definition CACHE_KEY_VERSION : string := "execution-cache-key/v1".

(** ** Jobs *)

Definition one_of (values : list string) (s : string) : bool := existsb (str_eqb s) values.

Definition task_parse (value : string) : ExecutionTaskType :=
  if one_of ["chat"] value then TaskChat
  else if one_of ["coding"; "code"; "code_patch"] value then TaskCoding
  else if one_of ["extract"; "extraction"; "classify"; "classification"] value then TaskExtraction
  else if one_of ["judge"; "critique"; "review"] value then TaskJudge
  else if one_of ["tool_agent"; "agent"] value then TaskToolAgent
  else if one_of ["embedding"; "embeddings"] value then TaskEmbeddings
  else TaskUnknown.

Definition task_infer (req : AiRequest) : ExecutionTaskType :=
  match bt_get "task_type" (req_metadata req) with
  | Some task => task_parse task
  | None =>
      if requires_tools req then TaskToolAgent
      else if one_of ["auto/coding"; "coding"] (req_model req) then TaskCoding
      else if one_of ["auto/extract"; "auto/classify"] (req_model req) then TaskExtraction
      else if one_of ["auto/judge"; "auto/critique"] (req_model req) then TaskJudge
      else TaskChat
  end.

Inductive ExecutionSource :=
| SourceApi | SourceCodex | SourceClaudeCode | SourceOpencode | SourceTap | SourceHarness | SourceUnknown.

Definition source_parse (value : string) : ExecutionSource :=
  if one_of ["api"; "openai_chat"; "openai_responses"; "anthropic_messages"] value then SourceApi
  else if one_of ["codex"] value then SourceCodex
  else if one_of ["claude"; "claude-code"; "claude_code"] value then SourceClaudeCode
  else if one_of ["opencode"] value then SourceOpencode
  else if one_of ["tap"; "native_tap"] value then SourceTap
  else if one_of ["harness"] value then SourceHarness
  else SourceUnknown.

Definition source_infer (req : AiRequest) : ExecutionSource :=
  match bt_get "execution_source" (req_metadata req) with
  | Some source => source_parse source
  | None =>
      match bt_get "client_profile" (req_metadata req) with
      | Some profile => source_parse profile
      | None => SourceApi
      end
  end.

Inductive LatencyPreference := Interactive | Balanced | Batch.

Definition latency_infer (req : AiRequest) : LatencyPreference :=
  match bt_get "latency_preference" (req_metadata req) with
  | Some value =>
      if one_of ["interactive"; "fast"; "low_latency"] value then Interactive
      else if one_of ["batch"; "cheap"; "throughput"] value then Batch
      else Balanced
  | None => if req_stream req then Interactive else Balanced
  end.

Record RequestedCapabilities := mkRequestedCapabilities {
  rc_streaming : bool;
  rc_tool_calling : bool;
  rc_vision_in : bool;
  rc_json_schema : bool
}.

Definition capabilities_from_request (req : AiRequest) : RequestedCapabilities :=
  mkRequestedCapabilities (req_stream req) (requires_tools req) (requires_vision req)
    match req_response_format req with Some (RfJsonSchema _ _ _) => true | _ => false end.

Record InputSize := mkInputSize {
  is_message_count : Z;
  is_tool_count : Z;
  is_approx_input_chars : Z
}.

Definition sum_Z (l : list Z) : Z := foldr Z.add 0 l.

Definition system_chars (req : AiRequest) : Z :=
  match req_system req with Some s => byte_len s | None => 0 end.

Definition size_from_request (req : AiRequest) : InputSize :=
  mkInputSize (Z.of_nat (length (req_messages req))) (Z.of_nat (length (req_tools req)))
    (sum_Z ((fun m => byte_len (message_text m)) <$> req_messages req) + system_chars req).

(** [str::parse::<u64>]: an optional sign, at least one digit, and no more than
    the largest [u64]. *)
Fixpoint read_u64 (acc : Z) (s : string) : option Z :=
  match s with
  | EmptyString => Some acc
  | String c s =>
      let acc := 10 * acc + (Z.of_N (N_of_ascii c) - 48) in
      if is_ascii_digit c && (acc <? 2 ^ 64) then read_u64 acc s else None
  end.

Definition parse_u64 (s : string) : option Z :=
  let digits := match s with String c rest => if Ascii.eqb c "+" then rest else s | _ => s end in
  if is_empty digits then None else read_u64 0 digits.

Record ExecutionJob := mkExecutionJob {
  job_id : string;
  job_task_type : ExecutionTaskType;
  job_source : ExecutionSource;
  job_privacy_level : PrivacyClass;
  job_latency_preference : LatencyPreference;
  job_cost_ceiling_micros : option Z;
  job_context_fingerprint : string;
  job_requested_capabilities : RequestedCapabilities;
  job_input_size : InputSize;
  job_tenant : option string;
  job_project : option string;
  job_workspace_id : option string
}.

(** ** Fingerprints *)

Inductive CacheLayer :=
| ExactRequest | ContextArtifact | ToolResultLayer | ProviderResponse | HarnessExecution | NegativeFailure.

Record CacheKey := mkCacheKey {
  key_version : string;
  key_layer : CacheLayer;
  key_key : string
}.

Record FingerprintMessage := mkFingerprintMessage {
  fm_role : Role;
  fm_content : list ContentPart
}.

Definition fingerprint_message (m : Message) : FingerprintMessage :=
  mkFingerprintMessage (msg_role m) (msg_content m).

Record ExactRequestFingerprint := mkExactRequestFingerprint {
  fp_model : string;
  fp_system : option string;
  fp_messages : list FingerprintMessage;
  fp_tools : list ToolSpec;
  fp_response_format : option ResponseFormat;
  fp_stream : bool;
  fp_max_output_tokens : option Z;
  fp_temperature : option f32;
  fp_priority : Priority;
  fp_privacy_class : PrivacyClass;
  fp_metadata : BTreeMap string string;
  fp_tenant : option string;
  fp_project : option string;
  fp_passthrough : BTreeMap string Json
}.

Definition fingerprint_from (req : AiRequest) : ExactRequestFingerprint :=
  mkExactRequestFingerprint (req_model req) (req_system req)
    (fingerprint_message <$> req_messages req) (req_tools req) (req_response_format req)
    (req_stream req) (req_max_output_tokens req) (req_temperature req) (req_priority req)
    (req_privacy_class req) (req_metadata req) (req_tenant req) (req_project req)
    (req_passthrough req).

(** ** Policy *)

Record CachePolicy := mkCachePolicy {
  cpo_version : string;
  cpo_layer : CacheLayer;
  cpo_enabled : bool;
  cpo_ttl_seconds : option Z;
  cpo_allow_sensitive : bool;
  cpo_allow_confidential : bool
}.

Definition CachePolicy_default : CachePolicy :=
  mkCachePolicy CACHE_KEY_VERSION ExactRequest true (Some 3600) false false.

(** [ExecutionCacheConfig::policy]. *)
Definition cache_policy (c : ExecutionCacheConfig) : CachePolicy :=
  mkCachePolicy CACHE_KEY_VERSION ExactRequest (xc_enabled c) (xc_ttl_seconds c)
    (xc_allow_sensitive c) (xc_allow_confidential c).

Inductive CacheEligibility := Eligible | BypassFor (reason : string).

Definition eligibility (p : CachePolicy) (req : AiRequest) : CacheEligibility :=
  if negb (cpo_enabled p) then BypassFor "cache_policy=disabled"
  else match req_privacy_class req with
  | Standard => Eligible
  | Sensitive => if cpo_allow_sensitive p then Eligible else BypassFor "privacy_class=sensitive"
  | Confidential =>
      if cpo_allow_confidential p then Eligible else BypassFor "privacy_class=confidential"
  end.

Inductive CacheStatus := CacheHit | CacheMiss | CacheBypass.

Record CacheLookupReceipt := mkCacheLookupReceipt {
  cr_layer : CacheLayer;
  cr_status : CacheStatus;
  cr_key : option string;
  cr_reason : option string;
  cr_policy_version : string;
  cr_ttl_seconds : option Z
}.

(** ** The cache *)

Definition ExactRequestCache : Type := BTreeMap string Z.

Definition ExactRequestCache_new : ExactRequestCache := [].

Definition cache_contains (c : ExactRequestCache) (k : CacheKey) : bool :=
  match bt_get (key_key k) c with Some _ => true | None => false end.

Definition contains_at (c : ExactRequestCache) (k : CacheKey) (now_unix : Z) (ttl : option Z) : bool :=
  match bt_get (key_key k) c with
  | None => false
  | Some seen_at =>
      match ttl with
      | Some ttl => sat_sub now_unix seen_at <=? ttl
      | None => true
      end
  end.

Definition remember_at (c : ExactRequestCache) (k : CacheKey) (now_unix : Z) : ExactRequestCache :=
  bt_insert (key_key k) now_unix c.

Definition remember (c : ExactRequestCache) (k : CacheKey) : ExactRequestCache := remember_at c k 0.

Section Keys.
Context (to_vec : ExactRequestFingerprint -> string) (sha256_hex : string -> string).

(** [CacheKey::exact_request]. *)
Definition exact_request (req : AiRequest) : CacheKey :=
  mkCacheKey CACHE_KEY_VERSION ExactRequest (sha256_hex (to_vec (fingerprint_from req))).

Definition job_from_request (req : AiRequest) : ExecutionJob :=
  mkExecutionJob (req_id req) (task_infer req) (source_infer req) (req_privacy_class req)
    (latency_infer req)
    (match bt_get "cost_ceiling_micros" (req_metadata req) with Some v => parse_u64 v | None => None end)
    (key_key (exact_request req)) (capabilities_from_request req) (size_from_request req)
    (req_tenant req) (req_project req) (bt_get "workspace_id" (req_metadata req)).

Definition receipt_for_request (req : AiRequest) (p : CachePolicy) (c : ExactRequestCache)
    (now_unix : Z) : CacheLookupReceipt :=
  match eligibility p req with
  | Eligible =>
      let key := exact_request req in
      mkCacheLookupReceipt (key_layer key)
        (if contains_at c key now_unix (cpo_ttl_seconds p) then CacheHit else CacheMiss)
        (Some (key_key key)) None (cpo_version p) (cpo_ttl_seconds p)
  | BypassFor reason =>
      mkCacheLookupReceipt (cpo_layer p) CacheBypass None (Some reason) (cpo_version p)
        (cpo_ttl_seconds p)
  end.

Definition body_redacted_cache_bypass (p : CachePolicy) : CacheLookupReceipt :=
  mkCacheLookupReceipt (cpo_layer p) CacheBypass None (Some "scoped_body_redacted") (cpo_version p)
    (cpo_ttl_seconds p).

(** [lookup_exact_cache], under the lock of the engine's cache. *)
Definition lookup_exact_cache (c : ExactRequestCache) (req : AiRequest) (p : CachePolicy)
    (body_redacted : bool) (now_unix : Z) : CacheLookupReceipt * ExactRequestCache :=
  if body_redacted then (body_redacted_cache_bypass p, c)
  else
    let receipt := receipt_for_request req p c now_unix in
    (receipt, match cr_status receipt with
              | CacheMiss => remember_at c (exact_request req) now_unix
              | _ => c
              end).

Definition preview_cache_receipt (req : AiRequest) (p : CachePolicy) (now_unix : Z)
  : CacheLookupReceipt := receipt_for_request req p ExactRequestCache_new now_unix.

(** The job of a run whose body must not be described: no fingerprint, only sizes. *)
Definition execution_job_for_receipt (req : AiRequest) (body_redacted : bool) : ExecutionJob :=
  if negb body_redacted then job_from_request req
  else
    let input_chars := sat_add (2 ^ 64 - 1) (system_chars req)
      (sum_Z ((fun part => match part with Text text => byte_len text | _ => 0 end)
              <$> concat (msg_content <$> req_messages req))) in
    mkExecutionJob (req_id req) (task_infer req) (source_infer req) (req_privacy_class req)
      (latency_infer req)
      (match bt_get "cost_ceiling_micros" (req_metadata req) with Some v => parse_u64 v | None => None end)
      "redacted:quality_eval" (capabilities_from_request req)
      (mkInputSize (Z.of_nat (length (req_messages req))) (Z.of_nat (length (req_tools req))) input_chars)
      (req_tenant req) (req_project req) (bt_get "workspace_id" (req_metadata req)).

(** ** Receipts *)

Record ExecutionReceipt := mkExecutionReceipt {
  er_policy_version : string;
  er_job : ExecutionJob;
  er_candidates : list string;
  er_selected_route : option string;
  er_fallback_path : list string;
  er_reasons : list string;
  er_estimated_cost_micros : option Z;
  er_estimated_latency_ms : option f64;
  er_cache : CacheLookupReceipt
}.

(** [attach_execution_receipt]: the receipt that is set on the plan's decision. *)
Definition attach_execution_receipt (plan : RoutePlan) (req : AiRequest) (cache : CacheLookupReceipt)
    (body_redacted : bool) : ExecutionReceipt :=
  let d := plan_decision plan in
  let selected_route := tr_target_id <$> d_selected d in
  let estimated := match selected_route with
    | Some selected =>
        match List.find (fun t => str_eqb (t_id t) selected) (plan_candidates plan) with
        | Some t =>
            if req_stream req then
              match t_ttft_ewma_ms t with Some x => Some x | None => t_latency_ewma_ms t end
            else t_latency_ewma_ms t
        | None => None
        end
    | None => None
    end in
  mkExecutionReceipt EXECUTION_POLICY_VERSION (execution_job_for_receipt req body_redacted)
    (t_id <$> plan_candidates plan) selected_route (tr_target_id <$> d_fallbacks d) (d_reason d)
    None estimated cache.

End Keys.

(** ** Events *)

Inductive EvaluationEventKind :=
| RunStarted | RouteSelected | CacheLookup | ProviderCallStarted | ProviderCallFinished
| HarnessCallStarted | HarnessCallFinished | FallbackTriggered | FinalStatus.

Record EvaluationEvent := mkEvaluationEvent {
  ee_kind : EvaluationEventKind;
  ee_policy_version : string;
  ee_target_id : option string;
  ee_cache : option CacheLookupReceipt;
  ee_status : option string;
  ee_latency_ms : option Z;
  ee_cost_micros : option Z;
  ee_metadata : BTreeMap string string
}.

Definition EvaluationEvent_new (kind : EvaluationEventKind) : EvaluationEvent :=
  mkEvaluationEvent kind EXECUTION_POLICY_VERSION None None None None None [].

Definition cache_lookup_event (receipt : CacheLookupReceipt) : EvaluationEvent :=
  mkEvaluationEvent CacheLookup EXECUTION_POLICY_VERSION None (Some receipt) None None None [].

Definition count_text (n : nat) : string := fmt_int (Z.of_nat n).

Definition route_selected_event (d : RouteDecision) : EvaluationEvent :=
  mkEvaluationEvent RouteSelected EXECUTION_POLICY_VERSION (tr_target_id <$> d_selected d) None None
    None None
    (bt_insert "rejected_count" (count_text (length (d_rejected d)))
       (bt_insert "fallback_count" (count_text (length (d_fallbacks d)))
          (bt_insert "strategy" (d_strategy d) []))).

(** ** Harnesses *)

#[export] Instance task_type_eq : EqDecision ExecutionTaskType.
Proof. solve_decision. Defined.

Definition harness_candidates_for_task (harnesses : list HarnessDescriptor) (task : ExecutionTaskType)
  : list HarnessDescriptor :=
  List.filter (fun h => list_empty (hn_supported_task_types h)
                        || existsb (fun t => bool_decide (t = task)) (hn_supported_task_types h))
    harnesses.

Definition harness_candidates_for_plan (harnesses : list HarnessDescriptor)
    (receipt : option ExecutionReceipt) : list HarnessDescriptor :=
  harness_candidates_for_task harnesses
    match receipt with Some r => job_task_type (er_job r) | None => TaskUnknown end.

(** ** Observations of native clients *)

Record NativeExecutionObservation := mkNativeExecutionObservation {
  ne_lane_id : option string;
  ne_lane_revision : option string;
  ne_launch_profile : option string;
  ne_conformance_revision : option string;
  ne_harness : option string;
  ne_requested_effort : option string;
  ne_observed_effort : option string;
  ne_observed_effort_path : option string
}.

Definition observation_is_empty (o : NativeExecutionObservation) : bool :=
  forallb (fun x => negb (opt_is_some x))
    [ne_lane_id o; ne_lane_revision o; ne_launch_profile o; ne_conformance_revision o; ne_harness o;
     ne_requested_effort o; ne_observed_effort o; ne_observed_effort_path o].

Definition native_execution_observation (req : AiRequest) : option NativeExecutionObservation :=
  let meta k := bt_get k (req_metadata req) in
  let o := mkNativeExecutionObservation (meta "switchback_lane_id") (meta "switchback_lane_revision")
    (meta "native_execution.launch_profile") (meta "native_execution.conformance_revision")
    (meta "native_execution.harness") (meta "requested_native_effort") (meta "observed_native_effort")
    (meta "observed_native_effort_path") in
  if observation_is_empty o then None else Some o.

(** ** The cache against its history *)

(** One lookup of the engine, with everything it depends on. *)
Record Lookup := mkLookup {
  lk_req : AiRequest;
  lk_policy : CachePolicy;
  lk_body_redacted : bool;
  lk_now : Z
}.

Section History.
Context (to_vec : ExactRequestFingerprint -> string) (sha256_hex : string -> string).

#[local] Abbreviation key_of r := (key_key (exact_request to_vec sha256_hex r)).
#[local] Abbreviation History := (list (Lookup * CacheLookupReceipt)).

(** The lookups of all requests in the order in which they take the lock. *)
Fixpoint lookups (c : ExactRequestCache) (ls : list Lookup) : History * ExactRequestCache :=
  match ls with
  | [] => ([], c)
  | l :: ls =>
      let '(r, c) := lookup_exact_cache to_vec sha256_hex c (lk_req l) (lk_policy l)
                       (lk_body_redacted l) (lk_now l) in
      let '(rs, c) := lookups c ls in ((l, r) :: rs, c)
  end.

(** A lookup that may use the cache. *)
Definition uses_cache (l : Lookup) : bool :=
  negb (lk_body_redacted l)
  && match eligibility (lk_policy l) (lk_req l) with Eligible => true | BypassFor _ => false end.

(** The time of the last miss of a key. *)
Fixpoint last_miss (k : string) (h : History) : option Z :=
  match h with
  | [] => None
  | (l, r) :: h =>
      match last_miss k h with
      | Some t => Some t
      | None => match cr_status r, cr_key r with
                | CacheMiss, Some k' => if str_eqb k' k then Some (lk_now l) else None
                | _, _ => None
                end
      end
  end.

(** Whether a time is within the window of a policy; a clock that went back does
    not close it. *)
Definition fresh_at (ttl : option Z) (now seen : Z) : bool :=
  match ttl with Some ttl => sat_sub now seen <=? ttl | None => true end.

(** What a lookup reports, from the history alone. *)
Definition reported (h : History) (l : Lookup) : CacheStatus * option string :=
  if uses_cache l then
    (match last_miss (key_of (lk_req l)) h with
     | Some t => if fresh_at (cpo_ttl_seconds (lk_policy l)) (lk_now l) t then CacheHit else CacheMiss
     | None => CacheMiss
     end, Some (key_of (lk_req l)))
  else (CacheBypass, None).

Fixpoint reported_all (h : History) (rest : History) : Prop :=
  match rest with
  | [] => True
  | (l, r) :: rest => (cr_status r, cr_key r) = reported h l /\ reported_all (h ++ [(l, r)]) rest
  end.

Lemma last_miss_app k h h' :
  last_miss k (h ++ h') = match last_miss k h' with Some t => Some t | None => last_miss k h end.
Proof.
  induction h as [|[l r] h IH]; cbn [app last_miss]; [by destruct (last_miss k h')|].
  rewrite IH. by destruct (last_miss k h').
Qed.

Definition cached (h : History) (c : ExactRequestCache) : Prop :=
  bt_wf c /\ forall k, bt_get k c = last_miss k h.

(** One lookup: what it reports and what it leaves. *)
Lemma lookup_step h c l :
  cached h c ->
  let '(r, c') := lookup_exact_cache to_vec sha256_hex c (lk_req l) (lk_policy l)
                    (lk_body_redacted l) (lk_now l) in
  (cr_status r, cr_key r) = reported h l /\ cached (h ++ [(l, r)]) c'.
Proof.
  intros [Hwf Hc]. unfold lookup_exact_cache, reported, uses_cache.
  assert (Hskip : forall r, cr_status r <> CacheMiss -> cached (h ++ [(l, r)]) c).
  { intros r Hr. split; [done|]. intros k. rewrite last_miss_app. simpl. destruct (cr_status r); [apply Hc|done|apply Hc]. }
  destruct (lk_body_redacted l); cbn [negb andb]; [by split; [|apply Hskip]|].
  unfold receipt_for_request. destruct (eligibility _ _); [|by split; [|apply Hskip]].
  unfold contains_at. rewrite Hc.
  set (b := match last_miss _ h with Some _ => _ | None => false end).
  assert (Hb : b = match last_miss (key_of (lk_req l)) h with
                   | Some t => fresh_at (cpo_ttl_seconds (lk_policy l)) (lk_now l) t
                   | None => false end) by done.
  split; [cbn [cr_status cr_key]; rewrite Hb; by destruct (last_miss _ h)|].
  destruct b; cbn [cr_status]; [by apply Hskip|].
  unfold remember_at. split; [by apply bt_insert_wf|].
  intros k. rewrite last_miss_app. cbn [last_miss cr_status cr_key].
  destruct (str_eqb (key_of (lk_req l)) k) eqn:E.
  - apply str_eqb_eq in E. subst k. by rewrite bt_get_insert_eq.
  - rewrite bt_get_insert_ne; [apply Hc|done|]. intros ->. by rewrite str_eqb_refl in E.
Qed.

Lemma lookups_step ls : forall h c,
  cached h c ->
  reported_all h (lookups c ls).1 /\ cached (h ++ (lookups c ls).1) (lookups c ls).2.
Proof.
  induction ls as [|l ls IH]; intros h c Hc; [by rewrite app_nil_r|]. simpl.
  pose proof (lookup_step h c l Hc) as Hs. destruct (lookup_exact_cache _ _ _ _ _ _ _) as [r c'].
  destruct Hs as [Hr Hc']. specialize (IH _ _ Hc'). destruct (lookups c' ls) as [rs c'']. simpl in *.
  destruct IH as [IH1 IH2]. rewrite <- app_assoc in IH2. done.
Qed.

Lemma last_miss_eligible h0 h k t :
  reported_all h0 h -> last_miss k h = Some t ->
  exists l r, (l, r) ∈ h /\ uses_cache l = true /\ key_of (lk_req l) = k /\ lk_now l = t.
Proof.
  revert h0. induction h as [|[l r] h IH]; intros h0 Hr Hm; [done|]. simpl in Hr, Hm.
  destruct Hr as [Hr Hrest]. destruct (last_miss k h) as [t'|] eqn:E.
  - destruct (IH _ Hrest Hm) as (l' & r' & ? & ?). exists l', r'. split; [by right|done].
  - exists l, r. split; [by left|]. unfold reported in Hr.
    destruct (uses_cache l); [|by destruct (cr_status r), (cr_key r)]. injection Hr as _ Hk.
    rewrite Hk in Hm. destruct (cr_status r); try done.
    destruct (str_eqb _ k) eqn:Ek; [|done]. apply str_eqb_eq in Ek. by injection Hm.
Qed.

Lemma lookups_ids ls : forall c, (lookups c ls).1.*1 = ls.
Proof.
  induction ls as [|l ls IH]; intros c; [done|]. simpl.
  destruct (lookup_exact_cache _ _ _ _ _ _ _) as [r c']. specialize (IH c').
  destruct (lookups c' ls). simpl in *. by f_equal.
Qed.

(** C27 (refinement). The exact-request cache is a function of its history. From an empty cache and for every
    sequence of lookups: each one reports a hit exactly when the last reported miss of the same
    fingerprint is within the window of its policy, a miss when it is not, and a bypass, without
    a fingerprint, when the body is redacted or the privacy class is not allowed; and every
    fingerprint that is kept is that of a lookup that was allowed to use the cache. *)
Theorem exact_cache_refines ls :
  let '(h, c) := lookups ExactRequestCache_new ls in
  h.*1 = ls /\ reported_all [] h
  /\ forall k, bt_get k c = last_miss k h
     /\ (forall t, bt_get k c = Some t ->
           exists l, l ∈ ls /\ uses_cache l = true /\ key_of (lk_req l) = k /\ lk_now l = t).
Proof.
  pose proof (lookups_step ls [] ExactRequestCache_new) as [Hr [_ Hc]];
    [by split; [constructor|]|].
  pose proof (lookups_ids ls ExactRequestCache_new) as Hi.
  destruct (lookups ExactRequestCache_new ls) as [h c]. simpl in *. split_and!; [done|done|]. intros k.
  split; [apply Hc|]. intros t Ht. rewrite Hc in Ht.
  destruct (last_miss_eligible [] h k t Hr Ht) as (l & r & Hl & ?). exists l. split; [|done].
  rewrite <- Hi. apply list_elem_of_fmap. by exists (l, r).
Qed.

(** Fingerprints tell apart what the material tells apart, as far as printing and
    digest do. *)
Lemma fingerprints_separate r r' :
  (to_vec (fingerprint_from r) = to_vec (fingerprint_from r') -> fingerprint_from r = fingerprint_from r') ->
  (sha256_hex (to_vec (fingerprint_from r)) = sha256_hex (to_vec (fingerprint_from r')) ->
     to_vec (fingerprint_from r) = to_vec (fingerprint_from r')) ->
  key_of r = key_of r' <-> fingerprint_from r = fingerprint_from r'.
Proof.
  intros Hv Hd. split.
  - intros E. apply Hv, Hd, E.
  - intros E. unfold exact_request. by rewrite E.
Qed.

(** Identifier, cache hints and the parameters of server tools are not part of it. *)
Lemma fingerprint_ignores r id hints system_hint tools_hint server_tools :
  let set_hint m h := mkMessage (msg_role m) (msg_content m) h in
  length hints = length (req_messages r) ->
  key_of (mkAiRequest id (req_model r) (req_system r) (zip_with set_hint (req_messages r) hints)
            (req_tools r) server_tools (req_response_format r) (req_stream r) (req_max_output_tokens r)
            (req_temperature r) (req_priority r) (req_privacy_class r) (req_metadata r) (req_tenant r)
            (req_project r) (req_passthrough r) (req_protocol_passthrough r) system_hint tools_hint)
  = key_of r.
Proof.
  intros set_hint Hlen.
  assert (Hm : fingerprint_message <$> zip_with set_hint (req_messages r) hints
               = fingerprint_message <$> req_messages r).
  { revert hints Hlen. induction (req_messages r) as [|m ms IH]; intros [|h hints] Hlen; try done.
    simpl in *. f_equal. apply IH. lia. }
  unfold exact_request, fingerprint_from. simpl. by rewrite Hm.
Qed.

(** ** Redaction *)

(** What a redacted receipt may depend on: everything but the text itself. *)
Definition outline (r : AiRequest) :=
  (req_id r, req_model r, req_stream r, req_privacy_class r, req_metadata r, (req_tenant r, req_project r),
   (length (req_messages r), length (req_tools r), capabilities_from_request r,
    is_approx_input_chars (size_from_request r))).

Lemma join_empty_length (l : list string) :
  byte_len (join EmptyString l) = sum_Z (byte_len <$> l).
Proof.
  assert (Hc : forall a b, byte_len (a ^^ b) = byte_len a + byte_len b)
    by (intros a b; unfold byte_len; rewrite length_append; lia).
  induction l as [|s [|s' l] IH]; [done|simpl; unfold byte_len; lia|].
  change (join EmptyString (s :: s' :: l)) with (s ^^ join EmptyString (s' :: l)).
  rewrite Hc, IH. done.
Qed.

Lemma text_parts_length (ps : list ContentPart) :
  sum_Z ((fun part => match part with Text text => byte_len text | _ => 0 end) <$> ps)
  = sum_Z (byte_len <$> omap (fun p => match p with Text t => Some t | _ => None end) ps).
Proof. induction ps as [|[] ps IH]; [done|..]; cbn; f_equal; apply IH. Qed.

Lemma sum_Z_app l l' : sum_Z (l ++ l') = sum_Z l + sum_Z l'.
Proof. induction l as [|x l IH]; simpl; [done|]. rewrite IH. lia. Qed.

(** The size of a redacted job is counted part by part, that of a plain one message
    by message: they agree. *)
Lemma redacted_size_agrees r :
  is_approx_input_chars (job_input_size (execution_job_for_receipt to_vec sha256_hex r true))
  = Z.min (2 ^ 64 - 1) (is_approx_input_chars (size_from_request r)).
Proof.
  unfold execution_job_for_receipt, size_from_request, sat_add. cbn [negb job_input_size is_approx_input_chars].
  rewrite Z.add_comm. do 2 f_equal. induction (req_messages r) as [|m ms IH]; [done|].
  rewrite !fmap_cons. cbn [concat]. rewrite fmap_app, sum_Z_app, IH, text_parts_length.
  cbn [sum_Z foldr]. unfold message_text. by rewrite join_empty_length.
Qed.

(** The receipt of a run whose body is redacted says nothing about the body: two requests with
    the same identifier, model, metadata, principal, capabilities and sizes get the same receipt,
    whatever their texts, tools and images are, and it holds neither a fingerprint nor a cache key. *)
Theorem redacted_receipt_hides_body plan c p now r r' :
  outline r = outline r' ->
  let receipt r := attach_execution_receipt to_vec sha256_hex plan r
                     (lookup_exact_cache to_vec sha256_hex c r p true now).1 true in
  receipt r = receipt r'
  /\ job_context_fingerprint (er_job (receipt r)) = "redacted:quality_eval"
  /\ cr_key (er_cache (receipt r)) = None
  /\ (lookup_exact_cache to_vec sha256_hex c r p true now).2 = c.
Proof.
  intros Ho receipt. split; [|done]. unfold outline in Ho. rewrite !pair_equal_spec in Ho.
  destruct Ho as [[[[[[Hid Hmodel] Hstream] Hpriv] Hmeta] [Ht Hp]] [[[Hm Htl] Hcap] Hsize]].
  assert (Hs : job_input_size (execution_job_for_receipt to_vec sha256_hex r true)
               = job_input_size (execution_job_for_receipt to_vec sha256_hex r' true)).
  { pose proof (redacted_size_agrees r) as Hr. pose proof (redacted_size_agrees r') as Hr'.
    rewrite Hsize, <- Hr' in Hr.
    unfold execution_job_for_receipt in *. cbn [negb job_input_size is_approx_input_chars] in *.
    by rewrite Hm, Htl, Hr. }
  assert (Htools : requires_tools r = requires_tools r') by (by injection Hcap).
  subst receipt. unfold attach_execution_receipt. cbv beta. rewrite Hstream. f_equal.
  unfold execution_job_for_receipt in *. cbn [negb job_input_size] in *.
  unfold task_infer, source_infer, latency_infer.
  by rewrite Hid, Hmodel, Hstream, Hpriv, Hmeta, Ht, Hp, Hcap, Htools, Hs.
Qed.

(** ** Receipts of plans *)

(** The receipt describes the plan it is attached to: its candidates are the selected route
    followed by the fallback path, in the order of the plan, the estimated latency is the average of
    the target that is tried first (the time to the first token for a stream that has one), and with
    no candidate there is neither a route nor an estimate. *)
Theorem receipt_describes_plan req route_name require cs policy cache redacted :
  let plan := plan_route req route_name require cs policy in
  let receipt := attach_execution_receipt to_vec sha256_hex plan req cache redacted in
  match plan_candidates plan with
  | [] => er_candidates receipt = [] /\ er_selected_route receipt = None
          /\ er_fallback_path receipt = [] /\ er_estimated_latency_ms receipt = None
  | t :: _ =>
      er_candidates receipt = t_id t :: er_fallback_path receipt
      /\ er_selected_route receipt = Some (t_id t)
      /\ er_estimated_latency_ms receipt
         = (if req_stream req && opt_is_some (t_ttft_ewma_ms t) then t_ttft_ewma_ms t
            else t_latency_ewma_ms t)
  end.
Proof.
  intros plan receipt. subst receipt.
  pose proof (plan_route_selection req route_name require cs policy) as (Hsel & Hf & _). fold plan in Hsel, Hf.
  unfold attach_execution_receipt. cbn [er_candidates er_selected_route er_fallback_path er_estimated_latency_ms].
  rewrite Hsel, Hf. destruct (plan_candidates plan) as [|t ts]; [done|]. simpl. rewrite str_eqb_refl.
  split_and!; [done|done|]. destruct (req_stream req), (t_ttft_ewma_ms t); done.
Qed.

End History.

Module ExecutionSamples.

(** A printer that keeps the model only, and no digest. *)
Definition print_model (f : ExactRequestFingerprint) : string := fp_model f.

Definition digest (s : string) : string := s.

Definition asks (text : string) : AiRequest := AiRequest_new "r1" "m" [message_user text].

Definition no_plan : RoutePlan := mkRoutePlan [] (RouteDecision_new "r1" "auto").

Lemma redacted_receipt_hides_body_witness :
  outline (asks "hello") = outline (asks "world")
  /\ er_job (attach_execution_receipt print_model digest no_plan (asks "hello")
               (lookup_exact_cache print_model digest [] (asks "hello") CachePolicy_default true 7).1 true)
     = er_job (attach_execution_receipt print_model digest no_plan (asks "world")
                 (lookup_exact_cache print_model digest [] (asks "world") CachePolicy_default true 7).1 true).
Proof.
  split; [reflexivity|].
  destruct (redacted_receipt_hides_body print_model digest no_plan [] CachePolicy_default 7
              (asks "hello") (asks "world") eq_refl) as [E _].
  exact (f_equal er_job E).
Defined.

(** A hit does not renew its entry: the third lookup is past the window of the first. *)
Lemma hit_does_not_renew :
  let at_ t := mkLookup (asks "a") CachePolicy_default false t in
  (cr_status ∘ snd) <$> (lookups print_model digest ExactRequestCache_new [at_ 0; at_ 3600; at_ 3601; at_ 3602]).1
  = [CacheMiss; CacheHit; CacheMiss; CacheHit].
Proof. reflexivity. Qed.

(** Two requests that differ only in the server tools they offer have one fingerprint. *)
Lemma server_tools_not_fingerprinted to_vec sha256_hex tool :
  let r := asks "a" in
  let with_tool := mkAiRequest (req_id r) (req_model r) (req_system r) (req_messages r) (req_tools r)
    [tool] (req_response_format r) (req_stream r) (req_max_output_tokens r) (req_temperature r)
    (req_priority r) (req_privacy_class r) (req_metadata r) (req_tenant r) (req_project r)
    (req_passthrough r) (req_protocol_passthrough r) (req_system_cache_hint r) (req_tools_cache_hint r) in
  exact_request to_vec sha256_hex with_tool = exact_request to_vec sha256_hex r /\ with_tool <> r.
Proof. split; [reflexivity|discriminate]. Qed.

(** Signs and bounds of a cost ceiling. *)
Lemma parse_u64_samples :
  parse_u64 "18446744073709551615" = Some 18446744073709551615
  /\ parse_u64 "18446744073709551616" = None /\ parse_u64 "+7" = Some 7 /\ parse_u64 "+" = None
  /\ parse_u64 EmptyString = None /\ parse_u64 "-1" = None.
Proof. repeat split; reflexivity. Qed.

End ExecutionSamples.
