(* ===== verification/Embeddings.v ===== *)
(** * The embeddings run

    [crates/sb-runtime/src/embeddings.rs]: an embeddings request through the
    budgets, the plugins, the plan and the fallback over targets and accounts. The
    code repeats the structure of [execute_inner] without client profiles, retries,
    hedging and streams, and so does the model, as a program of [Engine.v] over the
    same world. A call of an adapter is an [EmbedCall]; the world's log of calls
    keeps it as the routing request with target, lease and egress. *)

From Stdlib Require Import ZArith Lia.
From stdpp Require Import base list strings gmap option.
From S2P Require Import Prelude Text BTree Float Time Ir Config Target Routing Router.
From S2P Require Import Catalog Ledger Breaker Availability ScorecardEntry Scorecard.
From S2P Require Import Plugins Value.
From S2P Require Import Resolver ResolverTheorems Collect Profiles Trace Engine EngineTheorems.
From S2P Require Import EngineProperties EngineBilling UsageTable LedgerTheorems EngineSamples.

#[local] Open Scope Z_scope.
#[local] Open Scope switchback_scope.

Record EmbedCall := mkEmbedCall {
  ec_body : Json;
  ec_target : ExecutionTarget;
  ec_lease : option CredentialLease;
  ec_egress_id : option string
}.

Inductive EmbeddingsOutcome :=
| EmbJson (value : Json) (summary request_id : string)
| EmbError (error : ExecError) (request_id : string).

(** [embeddings_usage]. *)
Definition embeddings_usage (value : Json) : Usage :=
  let tokens name := pointer ["usage"; name] value ≫= as_u64 in
  mkUsage (default 0 (or_else (tokens "prompt_tokens") (tokens "total_tokens"))) 0 0 0 None.

(** The body that is sent: the client's with the model of the target. *)
Definition call_body (body : Json) (target : ExecutionTarget) : Json :=
  match as_object body with
  | Some _ => put "model" (JString (t_model target)) body
  | None => body
  end.

(** The request that is routed. *)
Definition embeddings_request (id model : string) (tenant project session_id : option string)
  : AiRequest :=
  let r := AiRequest_new id model [] in
  let r := mkAiRequest (req_id r) (req_model r) (req_system r) (req_messages r) (req_tools r)
    (req_server_tools r) (req_response_format r) (req_stream r) (req_max_output_tokens r)
    (req_temperature r) (req_priority r) (req_privacy_class r) (req_metadata r) tenant project
    (req_passthrough r) (req_protocol_passthrough r) (req_system_cache_hint r)
    (req_tools_cache_hint r) in
  match session_id with
  | Some s => set_req_metadata (bt_insert "session_id" s (req_metadata r)) r
  | None => r
  end.

Section Embeddings.
Context {S : Type} `{UsageStore S}.
Context (env : Env (S := S)) (host : Host) (store_required : bool) (snap : Snapshot).
Context (e_embeddings : nat -> EmbedCall -> result Json AdapterError).

#[local] Notation "'let*' x := m 'in' k" := (Engine.bind m (fun x => k))
  (at level 10, x pattern, m at level 100, k at level 200).

(** A refusal before any attempt. *)
Definition deny_embeddings (req : AiRequest) (e : ExecError) (started : Instant)
  : M (S := S) EmbeddingsOutcome :=
  let* _ := record_denial_trace env host snap req e started in
  ret (EmbError e (req_id req)).

Definition store_unavailable (e : string) : ExecError :=
  ExecError_new 503 "usage_store_unavailable" ("usage store unavailable for budget check: " ^^ e) None.

Definition embeddings_spend_gate (cap : option f64) (spend : M (S := S) (result f64 string))
    (error_type prefix : string) (req : AiRequest) (started : Instant)
  : M (S := S) (option EmbeddingsOutcome) :=
  match cap with
  | None => ret None
  | Some max =>
      let* spent := spend in
      match spent with
      | Err e => let* o := deny_embeddings req (store_unavailable e) started in ret (Some o)
      | Ok spent =>
          if f_le max spent then
            let* o := deny_embeddings req (ExecError_new 402 error_type
              (prefix ^^ "budget exceeded: spent $" ^^ fmt_fixed 4 spent ^^ " of $"
               ^^ fmt_fixed 4 max ^^ " cap") None) started in
            ret (Some o)
          else ret None
      end
  end.

(** ** One attempt *)

Section Request.
Context (req : AiRequest) (body : Json) (summary : string) (started : Instant).

Inductive EmbedFlow :=
| EDone (o : EmbeddingsOutcome)
| ENext (e : AdapterError) (tr : RequestTrace).

Definition embed_dispatch (target : ExecutionTarget) (l : CredentialLease) (egress_id : option string)
  : M (S := S) (result Json AdapterError) :=
  let* n := yield env in
  let* _ := modify (log_dispatch (mkPreparedRequest req target (Some l) egress_id)) in
  ret (e_embeddings n (mkEmbedCall (call_body body target) target (Some l) egress_id)).

(** An answer: the attempt is finished before its usage is recorded. *)
Definition embed_answered (target : ExecutionTarget) (account egress : string)
    (attempt_started : Instant) (value : Json) (tr : RequestTrace) : M (S := S) EmbeddingsOutcome :=
  let provider := t_provider_id target in
  let model := t_model target in
  let* _ := engine_report_success provider account in
  let usage := embeddings_usage value in
  let* ms := elapsed_ms env attempt_started in
  let cost := reg_cost_micros (sn_registry snap) provider model usage in
  let* _ := engine_finish_attempt env snap (attempt_ctx req target account egress ms)
              (FinishOk Stop (Some cost)) in
  let* recorded := Engine.record_usage env store_required snap req provider model account usage started false in
  match recorded with
  | Err e =>
      let* _ := close_trace env host tr 500 started false in
      ret (EmbError (ExecError_new 500 "usage_persistence_failed"
                       ("usage persistence failed: " ^^ e) None) (req_id req))
  | Ok _ =>
      let tr := trace_attempt (attempt_of target account egress ms AttemptSuccess) tr in
      let* _ := modify (log_latency provider model ms) in
      let* _ := close_trace env host (trace_set_usage usage cost tr) 200 started false in
      ret (EmbJson value summary (req_id req))
  end.

Definition embed_failed (target : ExecutionTarget) (account egress : string)
    (attempt_started : Instant) (error : AdapterError) (tr : RequestTrace) : M (S := S) EmbedFlow :=
  let* _ := engine_report_failure env (t_provider_id target) account (t_model target) (err_class error) in
  let fell_over := should_fallback (err_class error) in
  let* ms := elapsed_ms env attempt_started in
  let tr := trace_attempt (attempt_of target account egress ms
              (AttemptFailure (error_class_as_str (err_class error)) fell_over)) tr in
  let* _ := engine_finish_attempt env snap (attempt_ctx req target account egress ms)
              (FinishFailed (err_class error)) in
  if fell_over then ret (ENext error tr)
  else
    let* _ := close_trace env host tr (http_status (err_class error)) started false in
    ret (EDone (EmbError (upstream error summary) (req_id req))).

(** The work on one selected account. *)
Definition embed_account (target : ExecutionTarget) (account : string) (l : CredentialLease)
    (tr : RequestTrace) : M (S := S) EmbedFlow :=
  let provider := t_provider_id target in
  let* attempt_started := now env in
  let egress_id := match h_select_egress host req (t_id target) with
    | Some e => Some e
    | None => resolve_egress (sn_config snap) provider account
    end in
  let egress := reg_effective_egress (sn_registry snap) egress_id in
  let* n := yield env in
  match fresh_lease env n provider account l with
  | Err e =>
      let error := AdapterError_new Authentication ("oauth refresh failed: " ^^ e) in
      let* _ := engine_report_failure env provider account (t_model target) (err_class error) in
      let* ms := elapsed_ms env attempt_started in
      ret (ENext error (trace_attempt (attempt_of target account egress ms
             (AttemptFailure (error_class_as_str (err_class error)) true)) tr))
  | Ok l =>
      let* answer := embed_dispatch target l egress_id in
      match answer with
      | Ok value =>
          let* o := embed_answered target account egress attempt_started value tr in ret (EDone o)
      | Err error => embed_failed target account egress attempt_started error tr
      end
  end.

(** ** The loops *)

Inductive EmbedTarget :=
| ETDone (o : EmbeddingsOutcome)
| ETNext (pg : Progress)
| ETOutOfFuel.

Fixpoint embed_accounts (fuel : nat) (target : ExecutionTarget) (allowed : option (gset string))
    (tried : gset string) (pg : Progress) : M (S := S) EmbedTarget :=
  match fuel with
  | O => ret ETOutOfFuel
  | Datatypes.S fuel' =>
      let* out := engine_resolve env (t_provider_id target) (t_model target) tried
                    (session_affinity_key req) allowed in
      match out with
      | Selected account l =>
          let* flow := embed_account target account l (pg_trace pg) in
          match flow with
          | EDone o => ret (ETDone o)
          | ENext error tr =>
              embed_accounts fuel' target allowed ({[account]} ∪ tried)
                (mkProgress tr (Some error) (pg_retry_after pg))
          end
      | AllUnavailable (Some d) =>
          ret (ETNext (mkProgress (pg_trace pg) (pg_last_err pg)
                 (Some match pg_retry_after pg with Some c => Z.min c d | None => d end)))
      | AllUnavailable None => ret (ETNext pg)
      | NoAccounts => ret (ETNext pg)
      end
  end.

Inductive EmbedGate := EGateOpen | EGateSkip | EGateFail (o : EmbeddingsOutcome).

Definition embed_gate (target : ExecutionTarget) : M (S := S) EmbedGate :=
  let provider := t_provider_id target in
  if negb (reg_has_adapter (sn_registry snap) provider) then ret EGateSkip
  else
    let* allows := engine_circuit_allows env provider in
    if negb allows then ret EGateSkip
    else match bt_get provider (per_provider_usd (sv_budget (cf_server (sn_config snap)))) with
    | None => ret EGateOpen
    | Some cap =>
        let* spent := provider_spend_usd env store_required provider in
        match spent with
        | Err e => let* o := deny_embeddings req (store_unavailable e) started in ret (EGateFail o)
        | Ok spent => ret (if f_le cap spent then EGateSkip else EGateOpen)
        end
    end.

(** The accounts the tenant may use of a provider. *)
Definition embed_allowed (provider : string) : option (gset string) :=
  match req_tenant req with
  | Some id =>
      match tenant (sn_config snap) id with
      | Some t => if list_empty (tn_allowed_accounts t) then None
                  else Some (tenant_allowed_accounts t provider)
      | None => None
      end
  | None => None
  end.

Fixpoint embed_targets (targets : list ExecutionTarget) (pg : Progress) : M (S := S) EmbedTarget :=
  match targets with
  | [] => ret (ETNext pg)
  | target :: targets' =>
      let* gate := embed_gate target in
      match gate with
      | EGateFail o => ret (ETDone o)
      | EGateSkip => embed_targets targets' pg
      | EGateOpen =>
          let* fuel := account_fuel target in
          let* flow := embed_accounts fuel target (embed_allowed (t_provider_id target)) ∅ pg in
          match flow with
          | ETNext pg => embed_targets targets' pg
          | done => ret done
          end
      end
  end.

(** [self.traces.record(trace.finish(..))]: to the log only. *)
Definition log_only (tr : RequestTrace) (status : Z) : M (S := S) unit :=
  let* r := finish_trace env tr status started false in modify (log_trace host r).

Definition embed_no_outcome (d : RouteDecision) (unknown : list string) (pg : Progress)
  : M (S := S) EmbeddingsOutcome :=
  match pg_last_err pg, pg_retry_after pg with
  | Some error, _ =>
      let* _ := close_trace env host (pg_trace pg) (http_status (err_class error)) started false in
      ret (EmbError (upstream error summary) (req_id req))
  | None, Some d =>
      let* _ := log_only (pg_trace pg) 503 in
      ret (EmbError (with_retry_after (ExecError_new 503 "provider_unavailable"
        ("all accounts for eligible targets are temporarily unavailable; retry after "
         ^^ fmt_int (as_millis d) ^^ "ms") (Some summary)) d) (req_id req))
  | None, None =>
      let rejected := join "," ((fun r => rej_target_id r ^^ ":" ^^ rej_reason r)
                                <$> d_rejected d) in
      let* _ := log_only (pg_trace pg) 400 in
      ret (EmbError (ExecError_new 400 "invalid_request_error"
        ("no eligible target: rejected=" ^^ rejected ^^ " unknown=[" ^^ join "," unknown ^^ "]")
        (Some summary)) (req_id req))
  end.

End Request.

(** ** The run *)

(** The word is written between double quotes. *)
Definition missing_model : string :=
  let q := String (Ascii.ascii_of_nat 34) EmptyString in "missing or invalid " ^^ q ^^ "model" ^^ q.

Definition embed_plan (req : AiRequest) (body : Json) (started : Instant) (route_name : string)
    (unknown : list string) (plan : RoutePlan) : M (S := S) EmbeddingsOutcome :=
  let d := plan_decision plan in
  let summary := summary d ^^ " embeddings" in
  let tr := with_session_id (session_affinity_key req)
              (with_principal (req_tenant req) (req_project req)
                 (trace_start (req_id req) (sn_revision snap) (req_model req) route_name d)) in
  let* flow := embed_targets req body summary started (plan_candidates plan) (mkProgress tr None None) in
  match flow with
  | ETDone o => ret o
  | ETNext pg => embed_no_outcome req summary started d unknown pg
  | ETOutOfFuel => ret (EmbError (ExecError_new 0 "out of fuel" EmptyString None) (req_id req))
  end.

Definition embed_route (req : AiRequest) (body : Json) (started : Instant)
  : M (S := S) EmbeddingsOutcome :=
  let* t := now env in
  let* resolved := (fun w =>
    let '(r, sc) := resolve_candidates (h_evaluator_id host) snap (req_model req)
                      (w_resolver w) (w_scorecard w) t in (r, set_scorecard sc w)) in
  match resolved with
  | Err e => deny_embeddings req e started
  | Ok resolved =>
      let* planned := (fun w =>
        let '(p, c) := plan_resolved_route (w_combo_rr w) snap (w_resolver w) req None resolved true in
        (p, set_combo_rr c w)) in
      match planned with
      | Err e => deny_embeddings req e started
      | Ok (route_name, plan) => embed_plan req body started route_name (cr_unknown resolved) plan
      end
  end.

Definition execute_embeddings_inner (fresh : string) (body : Json)
    (tenant_id project session_id : option string) (started : Instant)
  : M (S := S) EmbeddingsOutcome :=
  let cfg := sn_config snap in
  match get "model" body ≫= as_str with
  | Some (String _ _ as model) =>
      let req := embeddings_request fresh model tenant_id project session_id in
      unless (embeddings_spend_gate (rtm_budget_max_usd (sn_runtime snap))
                (global_spend_usd env store_required) "budget_exceeded" EmptyString req started)
      (let tenant_cap := match req_tenant req with
         | Some id => match tenant cfg id with Some t => tn_budget_usd t | None => None end
         | None => None
         end in
       let id := default EmptyString (req_tenant req) in
       unless (embeddings_spend_gate tenant_cap (engine_tenant_spend_usd env store_required id)
                 "tenant_budget_exceeded" ("tenant `" ^^ id ^^ "` ") req started)
       (let '(verdict, req) := h_pre_route host req in
        match verdict with
        | PluginReject status message =>
            deny_embeddings req (ExecError_new status "plugin_rejected" message None) started
        | PluginContinue => embed_route req body started
        end))
  | _ =>
      deny_embeddings (AiRequest_new fresh "<missing>" [])
        (ExecError_new 400 "invalid_request_error" missing_model None) started
  end.

Definition execute_embeddings (fresh : string) (body : Json)
    (tenant_id project session_id : option string) (started : Instant)
  : M (S := S) (Z * EmbeddingsOutcome) :=
  let* o := execute_embeddings_inner fresh body tenant_id project session_id started in
  ret (sn_revision snap, o).

End Embeddings.

(** ** Calls, attempts and termination *)

Section EmbeddingsCalls.
Context {S : Type} `{UsageStore S}.
Context (env : Env (S := S)) (host : Host) (store_required : bool) (snap : Snapshot).
Context (e_embeddings : nat -> EmbedCall -> result Json AdapterError).

Create HintDb engine.
#[local] Hint Resolve silent_ret silent_bind silent_modify silent_yield silent_now silent_now_unix
  silent_elapsed silent_report_failure silent_report_success silent_circuit_allows silent_record_trace
  silent_finish_trace silent_close_trace silent_record_usage silent_spend : engine.
#[local] Hint Extern 1 (silent (if _ then _ else _)) => case_match : engine.
#[local] Hint Extern 1 (silent (match _ with _ => _ end)) => case_match : engine.
#[local] Hint Extern 2 (view _ = view _) => (reflexivity || (case_match; reflexivity)) : engine.

Lemma silent_deny_embeddings req e t : silent (deny_embeddings (S := S) env host snap req e t).
Proof. unfold deny_embeddings, record_denial_trace. eauto with engine. Qed.
#[local] Hint Resolve silent_deny_embeddings : engine.

(** The model's own answer, when fuel is exhausted. *)
Definition out_of_fuel (o : EmbeddingsOutcome) : bool :=
  match o with EmbError e _ => str_eqb (xe_error_type e) "out of fuel" | EmbJson _ _ _ => false end.

(** An outcome from the loops is not the one of exhausted fuel. *)
Lemma embed_account_fuel req body summary t target account le tr w o w' :
  embed_account (S := S) env host store_required snap e_embeddings req body summary t target account le tr w
  = (EDone o, w') -> out_of_fuel o = false.
Proof.
  unfold embed_account, embed_answered, embed_failed, bind, ret. intros E.
  repeat (case_match; simplify_eq/=); done.
Qed.

Section OneRequest.
Context (req : AiRequest) (body : Json) (summary : string) (started : Instant).

(** At most one call of an account, with the request's routing data. *)
Definition one_call (target : ExecutionTarget) (account : string) (l : list PreparedRequest) : Prop :=
  l = [] \/ exists p, l = [p] /\ pr_request p = req /\ pr_target p = target
                      /\ account_of p = Some account.

Lemma triple_embed_account target account le tr pv d n :
  provider_account_id le = account ->
  triple (pv, d, n)
    (embed_account (S := S) env host store_required snap e_embeddings req body summary started target account le tr)
    (fun flow v' => (exists l, v' = (pv, d ++ l, n + Z.of_nat (length l)) /\ one_call target account l)
       /\ forall o, flow = EDone o -> out_of_fuel o = false).
Proof.
  intros Hle. assert (Hfuel : forall (m : M (S := S) EmbedFlow) v Q, (forall w o w', m w = (EDone o, w') ->
      out_of_fuel o = false) -> triple v m Q ->
      triple v m (fun flow v' => Q flow v' /\ forall o, flow = EDone o -> out_of_fuel o = false)).
  { intros m v Q Hm Hq w Hw. split; [by apply Hq|]. intros o Ho. destruct (m w) eqn:E. simpl in Ho. subst.
    by eapply Hm. }
  apply Hfuel; [intros w o w'; apply embed_account_fuel|]. clear Hfuel. unfold embed_account. apply triple_then; [eauto with engine|]. intros t.
  apply triple_then; [eauto with engine|]. intros tick.
  destruct (fresh_lease env tick (t_provider_id target) account le) as [le'|e] eqn:Efresh.
  2: { apply triple_then; [eauto with engine|]. intros _. apply triple_then; [eauto with engine|].
       intros ms. apply triple_ret. exists []. rewrite app_nil_r, Z.add_0_r. by split; [|left]. }
  assert (Hle' : provider_account_id le' = account).
  { unfold fresh_lease in Efresh. by repeat case_match; simplify_eq/=. }
  unfold embed_dispatch. set (p := mkPreparedRequest req target (Some le') _).
  assert (Hone : one_call target account [p]).
  { right. exists p. split_and!; [done|done|done|]. unfold account_of. simpl. by rewrite Hle'. }
  apply (triple_bind _ _ _ (fun _ v' => v' = (pv, d ++ [p], n))).
  { apply triple_then; [eauto with engine|]. intros m w [= <- <- <-]. done. }
  assert (Hend : forall v' : View, v' = (pv, d ++ [p], n + 1) ->
    exists l, v' = (pv, d ++ l, n + Z.of_nat (length l)) /\ one_call target account l).
  { intros v' ->. by exists [p]. }
  intros [value|error] v' ->.
  - unfold embed_answered. eapply triple_bind; [|intros o v' Hv; apply triple_ret, Hend, Hv].
    apply triple_then; [eauto with engine|]. intros _. apply triple_then; [eauto with engine|]. intros ms.
    eapply triple_bind; [apply triple_finish|]. intros _ v' ->.
    apply triple_silent; [|done]. apply silent_bind; [apply silent_record_usage|].
    intros [u|why]; eauto with engine.
  - unfold embed_failed. apply triple_then; [eauto with engine|]. intros _.
    apply triple_then; [eauto with engine|]. intros ms.
    eapply triple_bind; [apply triple_finish|]. intros _ v' ->.
    destruct (should_fallback (err_class error)); [by apply triple_ret, Hend|].
    apply triple_then; [eauto with engine|]. intros _. by apply triple_ret, Hend.
Qed.

(** The calls of one target: permitted, and each account at most once. *)
Definition embed_calls (pv : gmap string ProviderAccounts) (target : ExecutionTarget)
    (allowed : option (gset string)) (tried : gset string) (l : list PreparedRequest) : Prop :=
  Forall (permitted req pv target allowed) l /\ NoDup (account_of <$> l)
  /\ Forall (fun p => forall a, account_of p = Some a -> a ∉ tried) l.

Lemma embed_calls_nil pv target allowed tried : embed_calls pv target allowed tried [].
Proof. split_and!; constructor. Qed.

Lemma embed_calls_turn pv target allowed tried a l1 l2 :
  a ∈ ids_of pv (t_provider_id target) -> (a ∉ tried) -> (forall s, allowed = Some s -> a ∈ s) ->
  one_call target a l1 -> embed_calls pv target allowed ({[a]} ∪ tried) l2 ->
  embed_calls pv target allowed tried (l1 ++ l2).
Proof.
  intros Ha Ht Hal H1 (Hp & Hn & Hf).
  assert (Hf' : Forall (fun p => forall b, account_of p = Some b -> b ∉ tried) l2).
  { eapply List.Forall_impl; [|exact Hf]. intros p H2 b Hb. specialize (H2 b Hb). set_solver. }
  destruct H1 as [->|(p & -> & Hr & Htg & Hacc)]; [done|]. simpl. split_and!.
  - constructor; [|done]. split_and!; [done|done|]. by exists a.
  - constructor; [|done]. rewrite Hacc. intros Hin. apply list_elem_of_fmap in Hin as (q & Hq & Hin).
    apply list_elem_of_In in Hin. rewrite List.Forall_forall in Hf.
    specialize (Hf q Hin a (eq_sym Hq)). set_solver.
  - constructor; [|done]. intros b Hb. congruence.
Qed.

(** Where the loop over accounts ends. *)
Definition accounts_end (pv : gmap string ProviderAccounts) (d : list PreparedRequest) (n : Z)
    (Q : list PreparedRequest -> Prop) (flow : EmbedTarget) (v : View) : Prop :=
  match flow with ETDone o => out_of_fuel o = false | ETNext _ => True | ETOutOfFuel => False end
  /\ exists l, v = (pv, d ++ l, n + Z.of_nat (length l)) /\ Q l.

Lemma end_now pv d n (Q : list PreparedRequest -> Prop) flow :
  match flow with ETDone o => out_of_fuel o = false | ETNext _ => True | ETOutOfFuel => False end ->
  Q [] -> triple (S := S) (pv, d, n) (ret flow) (accounts_end pv d n Q).
Proof.
  intros Hf Hq. apply triple_ret. split; [done|]. exists []. by rewrite app_nil_r, Z.add_0_r.
Qed.

Lemma end_later pv d n (Q Q' : list PreparedRequest -> Prop) l flow v :
  accounts_end pv (d ++ l) (n + Z.of_nat (length l)) Q flow v ->
  (forall l', Q l' -> Q' (l ++ l')) -> accounts_end pv d n Q' flow v.
Proof.
  intros (Hf & l' & -> & Hq) Hqq. split; [done|]. exists (l ++ l').
  rewrite length_app, app_assoc, Nat2Z.inj_add, Z.add_assoc. split; [done|by apply Hqq].
Qed.

Lemma triple_embed_accounts target allowed pv :
  forall fuel tried pg d n, (untried pv (t_provider_id target) tried < fuel)%nat ->
  triple (pv, d, n)
    (embed_accounts (S := S) env host store_required snap e_embeddings req body summary started fuel
       target allowed tried pg)
    (accounts_end pv d n (embed_calls pv target allowed tried)).
Proof.
  induction fuel as [|fuel IH]; intros tried pg d n Hfuel; [lia|]. simpl.
  eapply triple_bind; [apply triple_resolve|]. intros out v' [-> Hsel].
  destruct out as [account le|[hint|]|]; try (apply end_now; [done|apply embed_calls_nil]).
  destruct (Hsel account le eq_refl) as (Ha & Ht & Hal & Hle). simpl in Ha.
  eapply triple_bind; [by apply triple_embed_account|]. intros flow v' [(l1 & -> & Hone) Hfuel'].
  destruct flow as [o|error tr].
  - eapply triple_weaken; [by apply (end_now _ _ _ (fun l => l = [])); [apply Hfuel'|]|].
    intros flow v' Hend. eapply end_later; [exact Hend|]. intros l ->.
    eapply embed_calls_turn; try done. apply embed_calls_nil.
  - eapply triple_weaken; [apply IH|].
    + rewrite (untried_step _ _ _ account) in Hfuel by done. lia.
    + intros flow v' Hend. eapply end_later; [exact Hend|]. intros l Hl. by eapply embed_calls_turn.
Qed.

(** The calls of a plan, in its order. *)
Definition embed_plan_calls (pv : gmap string ProviderAccounts) (targets : list ExecutionTarget)
    (l : list PreparedRequest) : Prop :=
  exists ls, l = concat ls
  /\ Forall2 (fun t lt => embed_calls pv t (embed_allowed snap req (t_provider_id t)) ∅ lt) targets ls.

Lemma embed_plan_nil pv targets : embed_plan_calls pv targets [].
Proof.
  exists ((fun _ => []) <$> targets). split.
  - induction targets as [|t targets IH]; [done|]. exact IH.
  - apply Forall2_fmap_r, Forall_Forall2_diag, Forall_true. intros t. apply embed_calls_nil.
Qed.

Lemma embed_plan_cons pv t targets l1 l2 :
  embed_calls pv t (embed_allowed snap req (t_provider_id t)) ∅ l1 ->
  embed_plan_calls pv targets l2 -> embed_plan_calls pv (t :: targets) (l1 ++ l2).
Proof. intros H1 (ls & -> & H2). exists (l1 :: ls). split; [done|by constructor]. Qed.

Lemma silent_embed_gate target :
  silent (embed_gate (S := S) env host store_required snap req started target).
Proof. unfold embed_gate, provider_spend_usd. eauto 12 with engine. Qed.

Lemma embed_gate_fuel target w o w' :
  embed_gate (S := S) env host store_required snap req started target w = (EGateFail o, w') ->
  out_of_fuel o = false.
Proof.
  unfold embed_gate, deny_embeddings, bind, ret. intros E. repeat (case_match; simplify_eq/=); done.
Qed.

Lemma triple_embed_targets pv :
  forall targets pg d n,
  triple (pv, d, n)
    (embed_targets (S := S) env host store_required snap e_embeddings req body summary started targets pg)
    (accounts_end pv d n (embed_plan_calls pv targets)).
Proof.
  induction targets as [|t targets IH]; intros pg d n; simpl; [apply end_now; [done|apply embed_plan_nil]|].
  apply (triple_bind _ _ _ (fun g v' => v' = (pv, d, n) /\ forall o, g = EGateFail o -> out_of_fuel o = false)).
  { intros w Hw. split; [by rewrite silent_embed_gate|]. intros o Ho.
    destruct (embed_gate _ _ _ _ _ _ _ w) eqn:E. simpl in Ho. subst. by eapply embed_gate_fuel. }
  intros [| |o] v' [-> Hg].
  - apply (triple_bind _ _ _ (fun fuel v' => v' = (pv, d, n)
      /\ fuel = Datatypes.S (length (ids_of pv (t_provider_id t))))).
    { intros w [= <- <- <-]. done. }
    intros fuel v' [-> ->]. eapply triple_bind.
    { apply triple_embed_accounts. pose proof (untried_bound pv (t_provider_id t)). lia. }
    intros flow v' (Hf & l1 & -> & Hc). destruct flow as [o|pg'|]; [| |done].
    + eapply triple_weaken; [apply (end_now _ _ _ (fun l => l = [])); done|]. intros flow v' Hend.
      eapply end_later; [exact Hend|]. intros l ->. apply embed_plan_cons; [done|apply embed_plan_nil].
    + eapply triple_weaken; [apply IH|]. intros flow v' Hend. eapply end_later; [exact Hend|].
      intros l Hl. by apply embed_plan_cons.
  - eapply triple_weaken; [apply IH|]. intros flow v' (Hf & l & -> & Hl). split; [done|].
    exists l. split; [done|]. apply (embed_plan_cons pv t targets [] l); [apply embed_calls_nil|done].
  - apply end_now; [by apply Hg|apply embed_plan_nil].
Qed.

End OneRequest.

(** ** Whole runs *)

(** The targets of a request, all of them of providers its tenant may use. *)
Definition allowed_targets (req : AiRequest) (targets : list ExecutionTarget) : Prop :=
  forall id tn c, req_tenant req = Some id -> tenant (sn_config snap) id = Some tn ->
  c ∈ targets -> tenant_provider_allowed tn (t_provider_id c) = true.

(** What a run with this request leaves. *)
Definition ran (req : AiRequest) (pv : gmap string ProviderAccounts) (d : list PreparedRequest) (n : Z)
    (o : EmbeddingsOutcome) (v : View) : Prop :=
  out_of_fuel o = false
  /\ exists targets l, v = (pv, d ++ l, n + Z.of_nat (length l))
     /\ allowed_targets req targets /\ embed_plan_calls req pv targets l.

Lemma ran_silent req pv d n (m : M (S := S) EmbeddingsOutcome) :
  silent m -> (forall w, out_of_fuel (m w).1 = false) -> triple (pv, d, n) m (ran req pv d n).
Proof.
  intros Hm Ho w Hw. split; [done|]. exists [], []. rewrite Hm, Hw, app_nil_r, Z.add_0_r.
  split_and!; [done|by intros ? ? ? _ _ ?%not_elem_of_nil|apply embed_plan_nil].
Qed.

Lemma ran_deny req pv d n r e t :
  xe_error_type e <> "out of fuel" ->
  triple (pv, d, n) (deny_embeddings (S := S) env host snap r e t) (ran req pv d n).
Proof.
  intros He. apply ran_silent; [apply silent_deny_embeddings|]. intros w. unfold deny_embeddings, bind.
  destruct (record_denial_trace _ _ _ _ _ _ _). simpl. unfold str_eqb. by apply bool_decide_eq_false.
Qed.

Lemma ran_no_outcome req summary t d unknown pg :
  silent (embed_no_outcome (S := S) env host req summary t d unknown pg)
  /\ forall w, out_of_fuel (embed_no_outcome (S := S) env host req summary t d unknown pg w).1 = false.
Proof.
  unfold embed_no_outcome, log_only.
  split; [|intros w]; destruct (pg_last_err pg), (pg_retry_after pg); try (eauto 9 with engine);
    unfold bind; by repeat case_match; simplify_eq/=.
Qed.

Lemma ran_plan req body t name unknown plan pv d n :
  allowed_targets req (plan_candidates plan) ->
  triple (pv, d, n)
    (embed_plan (S := S) env host store_required snap e_embeddings req body t name unknown plan)
    (ran req pv d n).
Proof.
  intros Hp. unfold embed_plan. eapply triple_bind; [apply triple_embed_targets|].
  intros flow v' (Hf & l & -> & Hl).
  assert (Hran : forall o, out_of_fuel o = false -> ran req pv d n o (pv, d ++ l, n + Z.of_nat (length l))).
  { intros o Ho. split; [done|]. by exists (plan_candidates plan), l. }
  destruct flow as [o|pg|]; [by apply triple_ret, Hran| |done].
  destruct (ran_no_outcome req (summary (plan_decision plan) ^^ " embeddings") t (plan_decision plan) unknown pg)
    as [Hs Ho].
  intros w Hw. rewrite Hs, Hw. apply Hran, Ho.
Qed.

(** A step of the routing, with what is known of its result. *)
Lemma triple_known {A B} v (m : M (S := S) A) (k : A -> M B) (post : A -> Prop) Q :
  silent m -> (forall w, post (m w).1) -> (forall a, post a -> triple v (k a) Q) -> triple v (bind m k) Q.
Proof.
  intros Hm Hp Hk. apply (triple_bind _ _ _ (fun a v' => v' = v /\ post a)).
  - intros w Hw. by rewrite Hm.
  - intros a v' [-> Ha]. by apply Hk.
Qed.

Lemma ran_route req body t pv d n :
  triple (pv, d, n) (embed_route (S := S) env host store_required snap e_embeddings req body t)
    (ran req pv d n).
Proof.
  unfold embed_route. apply triple_then; [eauto with engine|]. intros now.
  apply (triple_known _ _ _ (fun r => match r with Err e => xe_error_type e <> "out of fuel" | Ok _ => True end)).
  - intros w. by destruct (resolve_candidates _ _ _ _ _ _).
  - intros w. unfold resolve_candidates, match_candidates. repeat (case_match; simplify_eq/=); done.
  - intros [resolved|e] He; [|by apply ran_deny].
    apply (triple_known _ _ _ (fun r => match r with
      | Err e => xe_error_type e <> "out of fuel"
      | Ok (_, plan) => allowed_targets req (plan_candidates plan)
      end)).
    + intros w. by destruct (plan_resolved_route _ _ _ _ _ _ _).
    + intros w. destruct (plan_resolved_route (w_combo_rr w) _ _ _ _ _ _) as [[[name plan]|e] rr] eqn:Ep; simpl.
      * intros id tn c Hid Htn Hc. eapply planned_provider_allowed; try done. by rewrite Ep.
      * unfold plan_resolved_route in Ep. repeat (case_match; simplify_eq/=); done.
    + intros [[name plan]|e] Hp; [by apply ran_plan|by apply ran_deny].
Qed.

Lemma triple_assoc {A B C} v (m : M (S := S) A) (f : A -> M B) (g : B -> M C) Q :
  triple v (bind m (fun a => bind (f a) g)) Q -> triple v (bind (bind m f) g) Q.
Proof. intros Hm w Hw. specialize (Hm w Hw). unfold bind in *. by destruct (m w). Qed.

Lemma ran_gate req cap spend ty pre r t (k : M (S := S) EmbeddingsOutcome) pv d n :
  silent spend -> ty <> "out of fuel" -> triple (pv, d, n) k (ran req pv d n) ->
  triple (pv, d, n) (unless (embeddings_spend_gate (S := S) env host snap cap spend ty pre r t) k)
    (ran req pv d n).
Proof.
  intros Hs Hty Hk. unfold unless, embeddings_spend_gate. destruct cap as [max|]; [|exact Hk].
  assert (Hdeny : forall e, xe_error_type e <> "out of fuel" -> triple (pv, d, n)
    (bind (bind (deny_embeddings (S := S) env host snap r e t) (fun o => ret (Some o)))
          (fun g => match g with Some a => ret a | None => k end)) (ran req pv d n)).
  { intros e He w Hw. pose proof (ran_deny req pv d n r e t He w Hw) as Hr.
    unfold bind. by destruct (deny_embeddings _ _ _ _ _ _ w). }
  apply triple_assoc.
  apply triple_then; [done|]. intros [spent|e]; [|by apply Hdeny].
  destruct (f_le max spent); [by apply Hdeny|exact Hk].
Qed.

(** The request as the plugins leave it. *)
Definition routed_request (fresh model : string) (tenant_id project session_id : option string) : AiRequest :=
  (h_pre_route host (embeddings_request fresh model tenant_id project session_id)).2.

(** An embeddings run in every environment, whatever adapters and token sources answer and other
    requests do: it ends without using up its fuel; its calls come in groups, one per planned target;
    in a group no account is called twice, and every call goes to a configured account that the tenant
    may use, of a provider it may use; and each call is finished exactly once. *)
Theorem embeddings_run fresh model body tenant_id project session_id started (w : World (S := S)) :
  get "model" body ≫= as_str = Some model -> model <> EmptyString ->
  let req := routed_request fresh model tenant_id project session_id in
  let r := execute_embeddings_inner env host store_required snap e_embeddings fresh body
             tenant_id project session_id started w in
  out_of_fuel r.1 = false
  /\ exists targets groups,
       w_dispatched r.2 = w_dispatched w ++ concat groups
       /\ length (w_posts r.2) = (length (w_posts w) + length (concat groups))%nat
       /\ Forall2 (fun target group =>
            NoDup (account_of <$> group)
            /\ Forall (fun p => pr_request p = req /\ pr_target p = target
                 /\ (exists a, account_of p = Some a /\ a ∈ account_ids (w_resolver w) (t_provider_id target))
                 /\ tenant_permits snap p) group) targets groups.
Proof.
  intros Hm Hne req.
  assert (Hran : ran req (providers (w_resolver w)) (w_dispatched w) (Z.of_nat (length (w_posts w)))
    (execute_embeddings_inner env host store_required snap e_embeddings fresh body tenant_id project
       session_id started w).1
    (view (execute_embeddings_inner env host store_required snap e_embeddings fresh body tenant_id
       project session_id started w).2)).
  { revert w. intros w. unfold execute_embeddings_inner. rewrite Hm. destruct model as [|c s]; [done|].
    set (req0 := embeddings_request fresh (String c s) tenant_id project session_id).
    apply (ran_gate req); [by apply silent_spend|done| |done].
    apply (ran_gate req); [by apply silent_spend|done|].
    subst req. unfold routed_request. fold req0. destruct (h_pre_route host req0) as [[|status msg] req1];
      [apply ran_route|by apply ran_deny]. }
  destruct Hran as (Ho & targets & l & Hv & Hal & ls & -> & Hl). cbv zeta. split; [done|].
  injection Hv as _ Hd Hp. exists targets, ls. split_and!; [done|lia|]. clear Hd Hp Ho.
  induction Hl as [|c lt targets ls (Hc & Hn & _) Hl IH]; [constructor|].
  constructor; [|apply IH; intros id tn x Hid Htn Hx; apply (Hal id tn x Hid Htn); by right].
  split; [done|]. eapply List.Forall_impl; [|exact Hc]. intros p (Hr & Ht & a & Ha & Hids & Hsa).
  split_and!; [done|done|by exists a|]. intros id tn Hid Htn. rewrite Hr in Hid. rewrite Ht. simpl. split.
  - apply provider_allowed_spec. apply (Hal id tn c Hid Htn). by left.
  - intros Hacc. exists a. split; [done|]. apply account_refs_spec. apply Hsa. unfold embed_allowed.
    rewrite Hid, Htn. unfold tenant_allowed_accounts. by destruct (tn_allowed_accounts tn).
Qed.

End EmbeddingsCalls.

(** ** Billing *)

Section EmbeddingsBilling.
Context {S : Type} `{UsageStore S}.
Context (env : Env (S := S)) (host : Host) (store_required : bool) (snap : Snapshot).
Context (e_embeddings : nat -> EmbedCall -> result Json AdapterError).
Context (alone : forall n l, same_books (o_ledger (e_others env n) l) l).

#[local] Abbreviation L := (UsageLedger S).

Create HintDb billing.
#[local] Hint Resolve quiet_ret quiet_bind quiet_modify quiet_yield quiet_now quiet_now_unix
  quiet_elapsed quiet_report_failure quiet_report_success quiet_finish quiet_circuit_allows
  quiet_resolve quiet_record_trace quiet_finish_trace quiet_close_trace quiet_spend : billing.
#[local] Hint Extern 1 (quiet (if _ then _ else _)) => case_match : billing.
#[local] Hint Extern 1 (quiet (match _ with _ => _ end)) => case_match : billing.
#[local] Hint Extern 2 (w_ledger _ = w_ledger _) =>
  (reflexivity || (case_match; reflexivity)) : billing.

(** What an outcome says about the books. *)
Definition embed_bill (req : AiRequest) (o : EmbeddingsOutcome) (l l' : L) : Prop :=
  match o with
  | EmbJson value _ _ => exists r, charges snap req (embeddings_usage value) r
      /\ entered (phase store_required) r (Ok tt) l l'
  | EmbError e _ => same_books l' l
      \/ (xe_status e = 500 /\ xe_error_type e = "usage_persistence_failed"
          /\ exists r usage why, charges snap req usage r /\ entered (phase store_required) r (Err why) l l')
  end.

Lemma embed_bill_books req o l0 l1 l2 l3 :
  same_books l1 l0 -> embed_bill req o l1 l2 -> same_books l3 l2 -> embed_bill req o l0 l3.
Proof.
  intros E0 Hb E3. destruct o as [v s id|e id]; simpl in *.
  - destruct Hb as (r & Hc & He). exists r. split; [done|]. by eapply entered_books.
  - destruct Hb as [E|(H5 & Ht & r & u & why & Hc & He)].
    + left. etransitivity; [exact E3|]. by etransitivity.
    + right. split_and!; [done|done|]. exists r, u, why. split; [done|]. by eapply entered_books.
Qed.

Definition embed_bills (req : AiRequest) (m : M (S := S) EmbeddingsOutcome) : Prop :=
  writes m (embed_bill req).

Lemma embed_then {A} req (m : M (S := S) A) k :
  quiet m -> (forall a, embed_bills req (k a)) -> embed_bills req (bind m k).
Proof.
  intros Hm Hk. apply (flow_then m k (embed_bill req)); [|done|exact Hk].
  intros b l0 l1 l2 E Hb. by eapply embed_bill_books.
Qed.

Lemma embed_error req e id : embed_bills req (ret (EmbError e id)).
Proof. intros w. left. reflexivity. Qed.

Lemma quiet_embed_denial req e t : quiet (record_denial_trace (S := S) env host snap req e t).
Proof. unfold record_denial_trace. eauto with billing. Qed.

Lemma embed_deny req r e t : embed_bills req (deny_embeddings (S := S) env host snap r e t).
Proof. unfold deny_embeddings. apply embed_then; [apply quiet_embed_denial|]. intros _. apply embed_error. Qed.

Section OneRequest.
Context (req : AiRequest) (body : Json) (summary : string) (started : Instant).

Lemma bills_answered target account egress t value tr :
  embed_bills req (embed_answered (S := S) env host store_required snap req summary started target
                     account egress t value tr).
Proof.
  unfold embed_answered. do 3 (apply embed_then; [eauto with billing|]; intros ?).
  eapply (writes_bind _ _ _ (fun res o l l' => same_books l' l /\ match res with
     | Ok _ => exists s id, o = EmbJson value s id
     | Err why => exists msg id, o = EmbError (ExecError_new 500 "usage_persistence_failed" msg None) id
     end)); [by apply writes_record| |].
  - intros [u|why].
    + do 2 (apply closes_then; [eauto with billing|]; intros _). apply closes_ret. eauto.
    + apply closes_then; [eauto with billing|]. intros _. apply closes_ret. eauto.
  - intros res o l0 l1 l2 (r & Hc & He) [E Ho]. destruct res as [[]|why].
    + destruct Ho as (s & id & ->). exists r. split; [done|]. by eapply entered_books; [|exact He|].
    + destruct Ho as (msg & id & ->). right. split_and!; [done|done|]. exists r, (embeddings_usage value), why.
      split; [done|]. by eapply entered_books; [|exact He|].
Qed.

Definition bill_embed_flow (f : EmbedFlow) (l l' : L) : Prop :=
  match f with EDone o => embed_bill req o l l' | ENext _ _ => same_books l' l end.

Definition bill_embed_target (f : EmbedTarget) (l l' : L) : Prop :=
  match f with ETDone o => embed_bill req o l l' | _ => same_books l' l end.

Lemma bill_flow_books b l0 l1 l2 : same_books l1 l0 -> bill_embed_flow b l1 l2 -> bill_embed_flow b l0 l2.
Proof. intros E. destruct b; simpl; [intros Hb; by eapply embed_bill_books|intros ?; by etransitivity]. Qed.

Lemma bill_target_books b l0 l1 l2 : same_books l1 l0 -> bill_embed_target b l1 l2 -> bill_embed_target b l0 l2.
Proof. intros E. destruct b; simpl; [intros Hb; by eapply embed_bill_books|intros ?; by etransitivity..]. Qed.

Lemma bills_embed_account target account le tr :
  writes (embed_account (S := S) env host store_required snap e_embeddings req body summary started target
            account le tr) bill_embed_flow.
Proof.
  unfold embed_account, embed_dispatch.
  do 2 (apply flow_then; [apply bill_flow_books|eauto with billing|]; intros ?).
  destruct (fresh_lease _ _ _ _ _) as [le'|e].
  - apply flow_then; [apply bill_flow_books|eauto with billing|]. intros [value|error].
    + eapply (writes_bind _ _ _ (fun o f l l' => f = EDone o /\ l' = l)); [apply bills_answered| |].
      * intros o w. done.
      * intros o f l0 l1 l2 Hb [-> ->]. exact Hb.
    + unfold embed_failed. do 3 (apply flow_then; [apply bill_flow_books|eauto with billing|]; intros ?).
      destruct (should_fallback _); [intros w; simpl; reflexivity|].
      apply flow_then; [apply bill_flow_books|eauto with billing|]. intros _ w. left. reflexivity.
  - do 2 (apply flow_then; [apply bill_flow_books|eauto with billing|]; intros ?). intros w. simpl. reflexivity.
Qed.

Lemma bills_embed_accounts target allowed : forall fuel tried pg,
  writes (embed_accounts (S := S) env host store_required snap e_embeddings req body summary started fuel
            target allowed tried pg) bill_embed_target.
Proof.
  induction fuel as [|fuel IH]; intros tried pg; simpl; [intros w; simpl; reflexivity|].
  apply flow_then; [apply bill_target_books|eauto with billing|].
  intros [account le|[hint|]|]; try (intros w; simpl; reflexivity).
  eapply (writes_bind _ _ _ (fun f => match f with
    | EDone o => fun r l l' => r = ETDone o /\ l' = l
    | ENext _ _ => bill_embed_target end)); [apply bills_embed_account| |].
  - intros [o|error tr]; [by intros w|apply IH].
  - intros [o|error tr] r l0 l1 l2 Hb.
    + intros [-> ->]. exact Hb.
    + simpl in Hb. by apply bill_target_books.
Qed.

Lemma embed_gate_error target w o w' :
  embed_gate (S := S) env host store_required snap req started target w = (EGateFail o, w') ->
  exists e id, o = EmbError e id.
Proof.
  unfold embed_gate, deny_embeddings, bind, ret. intros E. repeat (case_match; simplify_eq/=); eauto.
Qed.

Lemma bills_embed_targets : forall targets pg,
  writes (embed_targets (S := S) env host store_required snap e_embeddings req body summary started targets pg)
    bill_embed_target.
Proof.
  induction targets as [|t targets IH]; intros pg; simpl; [intros w; simpl; reflexivity|].
  eapply (writes_bind _ _
    (fun g l l' => same_books l' l /\ forall o, g = EGateFail o -> exists e id, o = EmbError e id)
    (fun g => match g with
       | EGateFail o => fun r l l' => r = ETDone o /\ l' = l
       | _ => bill_embed_target end)); [| |].
  { assert (Hq : quiet (embed_gate (S := S) env host store_required snap req started t)).
    { unfold embed_gate, provider_spend_usd, deny_embeddings.
      pose proof quiet_embed_denial. eauto 14 with billing. }
    intros w. split; [apply Hq|]. intros o Ho. destruct (embed_gate _ _ _ _ _ _ _ w) eqn:E.
    simpl in Ho. subst. by eapply embed_gate_error. }
  2: { intros g r l0 l1 l2 [E Hg] Hr. destruct g as [| |o]; try (by eapply bill_target_books).
       destruct Hr as [-> ->]. destruct (Hg o eq_refl) as (e & id & ->). by left. }
  intros [| |o].
  - apply flow_then; [apply bill_target_books|by intros w|]. intros fuel.
    eapply (writes_bind _ _ _ (fun f => match f with
      | ETNext _ => bill_embed_target
      | done => fun r l l' => r = done /\ l' = l end)); [apply bills_embed_accounts| |].
    + intros [o|pg'|]; [by intros w|apply IH|by intros w].
    + intros [o|pg'|] r l0 l1 l2 Hb; simpl in Hb; [by intros [-> ->]|by apply bill_target_books|].
      by intros [-> ->].
  - apply IH.
  - by intros w.
Qed.

End OneRequest.

Lemma bills_embed_plan req body t name unknown plan :
  embed_bills req (embed_plan (S := S) env host store_required snap e_embeddings req body t name unknown plan).
Proof.
  unfold embed_plan. eapply (writes_bind _ _ _ (fun f => match f with
    | ETDone o => fun r l l' => r = o /\ l' = l
    | _ => embed_bill req end)); [apply bills_embed_targets| |].
  - intros [o|pg|]; [by intros w| |apply embed_error].
    unfold embed_no_outcome, log_only. destruct (pg_last_err pg), (pg_retry_after pg);
      (apply embed_then; [eauto with billing|]; intros _; apply embed_error).
  - intros [o|pg|] r l0 l1 l2 Hb; simpl in Hb; [by intros [-> ->]|intros Hr..]; by eapply embed_bill_books.
Qed.

Lemma bills_embed_route req body t :
  embed_bills req (embed_route (S := S) env host store_required snap e_embeddings req body t).
Proof.
  unfold embed_route. apply embed_then; [eauto with billing|]. intros now. apply embed_then.
  { intros w. by destruct (resolve_candidates _ _ _ _ _ _). }
  intros [resolved|e]; [|apply embed_deny]. apply embed_then.
  { intros w. by destruct (plan_resolved_route _ _ _ _ _ _ _). }
  intros [[name plan]|e]; [apply bills_embed_plan|apply embed_deny].
Qed.

Lemma writes_assoc {A B C} (m : M (S := S) A) (f : A -> M B) (g : B -> M C) Q :
  writes (bind m (fun a => bind (f a) g)) Q -> writes (bind (bind m f) g) Q.
Proof. intros Hm w. specialize (Hm w). unfold bind in *. by destruct (m w). Qed.

Lemma embed_unless req cap spend ty pre r t k :
  quiet spend -> embed_bills req k ->
  embed_bills req (unless (embeddings_spend_gate (S := S) env host snap cap spend ty pre r t) k).
Proof.
  intros Hs Hk. unfold unless, embeddings_spend_gate. destruct cap as [max|]; [|exact Hk].
  assert (Hd : forall e, embed_bills req
    (bind (bind (deny_embeddings (S := S) env host snap r e t) (fun o => ret (Some o)))
          (fun g => match g with Some a => ret a | None => k end))).
  { intros e w. pose proof (embed_deny req r e t w) as Hr. unfold bind.
    by destruct (deny_embeddings _ _ _ _ _ _ w). }
  apply writes_assoc, embed_then; [done|]. intros [spent|e]; [|apply Hd].
  destruct (f_le max spent); [apply Hd|exact Hk].
Qed.
(** An embeddings answer is billed once and nothing else is: when no other request records usage
    meanwhile, an answered request has exactly one entry in the ledger, with its tokens, priced for the
    provider and model that answered; a refused or failed one has none, unless its entry was refused by
    a required store, which is what the error then says. *)
Theorem embeddings_billed_once fresh model body tenant_id project session_id started (w : World (S := S)) :
  get "model" body ≫= as_str = Some model -> model <> EmptyString ->
  let r := execute_embeddings_inner env host store_required snap e_embeddings fresh body
             tenant_id project session_id started w in
  embed_bill (routed_request host fresh model tenant_id project session_id) r.1 (w_ledger w) (w_ledger r.2).
Proof.
  intros Hm Hne. cbv zeta. revert w. unfold execute_embeddings_inner. rewrite Hm.
  destruct model as [|c s]; [done|]. unfold routed_request.
  set (req0 := embeddings_request fresh (String c s) tenant_id project session_id). cbv zeta.
  apply embed_unless; [by apply quiet_spend|]. apply embed_unless; [by apply quiet_spend|].
  destruct (h_pre_route host req0) as [[|status msg] req1]; [apply bills_embed_route|apply embed_deny].
Qed.

End EmbeddingsBilling.

(** ** Bodies *)

(** What is sent is the client's body but for the model, which is the target's. *)
Lemma call_body_spec body target k :
  is_obj body -> get k (call_body body target) = (if str_eqb k "model" then Some (JString (t_model target))
                                                  else get k body).
Proof.
  intros (m & -> & Hwf). unfold call_body, get, put. simpl. destruct (str_eqb k "model") eqn:E.
  - apply str_eqb_eq in E as ->. by rewrite bt_get_insert_eq.
  - rewrite bt_get_insert_ne; [done|done|]. intros ->. by rewrite str_eqb_refl in E.
Qed.

Module EmbeddingsSamples.
Import LedgerSamples EngineSamples.

(** [p] is down, [q] answers. *)
Definition embed_answer (_ : nat) (c : EmbedCall) : result Json AdapterError :=
  if str_eqb (t_provider_id (ec_target c)) "p" then Err (AdapterError_new ServerError "down")
  else Ok (obj [("model", default JNull (get "model" (ec_body c)));
                ("usage", obj [("total_tokens", JInt 4)])]).

Definition client_body : Json := obj [("model", JString "auto-model"); ("input", JString "hello")].

Definition embed_run (t : TenantConfig) (session : option string) :=
  execute_embeddings_inner env host true (snap t false) embed_answer "r1" client_body (Some "acme") None
    session 0 world.

Lemma embeddings_answered :
  match (embed_run acme_free None).1 with EmbJson v _ id => (get "model" v, id) | _ => (None, EmptyString) end
  = (Some (JString "m"), "r1")
  /\ call_of <$> w_dispatched (embed_run acme_free None).2 = [("p/m", Some "b"); ("q/m", Some "c")].
Proof. by vm_compute. Qed.

Lemma embeddings_run_witness :
  exists (targets : list ExecutionTarget) (groups : list (list PreparedRequest)),
    w_dispatched (embed_run acme_free None).2 = concat groups
  /\ length (w_posts (embed_run acme_free None).2) = length (concat groups) /\ length groups = length targets.
Proof.
  destruct (embeddings_run env host true (snap acme_free false) embed_answer "r1" "auto-model" client_body
    (Some "acme") None None 0 world eq_refl ltac:(discriminate)) as (_ & targets & groups & Hd & Hp & Hl).
  exists targets, groups. split_and!; [exact Hd|exact Hp|]. symmetry. exact (Forall2_length Hl).
Defined.

Lemma embeddings_billed_once_witness :
  exists r, ur_usage r = mkUsage 4 0 0 0 None /\ ur_tenant r = Some "acme"
  /\ same_books (w_ledger (embed_run acme_free None).2) (record_checked ledger r).2.
Proof.
  pose proof (embeddings_billed_once env host true (snap acme_free false) embed_answer alone_env "r1"
    "auto-model" client_body (Some "acme") None None 0 world eq_refl ltac:(discriminate)) as Hb.
  cbv zeta in Hb.
  assert (Hu : match (embed_run acme_free None).1 with
    | EmbJson v _ _ => embeddings_usage v = mkUsage 4 0 0 0 None | EmbError _ _ => False end)
    by (vm_compute; reflexivity).
  unfold embed_run in Hu.
  destruct (execute_embeddings_inner env host true (snap acme_free false) embed_answer "r1" client_body
    (Some "acme") None None 0 world).1 as [v s id|e id]; [|destruct Hu].
  destruct Hb as (r & (_ & Ht & Hur & _) & _ & He). exists r. rewrite Hur, Hu.
  split_and!; [reflexivity|exact Ht|exact He].
Defined.

(** A request that no account can take leaves a trace in the log and none in the store, while a chat
    request in the same state leaves both. *)
Lemma unavailable_trace_not_stored :
  let busy := mkWorld 0 (resolver_new ∅ (Breaker.new BreakerConfig_default)) Scorecard_new [] ledger ∅
                (TraceLog_new 8) [] [] [] None [] in
  let chat := (execute_inner env host true (snap acme_free false) request 0 None busy).2 in
  let embeddings := (execute_embeddings_inner env host true (snap acme_free false) embed_answer "r1"
                       client_body (Some "acme") None None 0 busy).2 in
  (length (w_trace_rows chat), length (w_trace_rows embeddings)) = (1%nat, 0%nat)
  /\ length (tl_ring (w_trace_log embeddings)) = 1%nat.
Proof. by vm_compute. Qed.

End EmbeddingsSamples.
