(* ===== verification/Pressure.v ===== *)
(** * Capture pressure

    [crates/sb-bodylog/src/pressure.rs]: the controller that decides whether the
    bodies of requests are captured in full. Its state lives in a file that several
    processes share under a lock, next to counters of each process. A file is
    missing, unreadable, not understood, or a state that was written ([StateFile]);
    taking the lock and writing the file may fail, and whether they do is an
    argument ([Disk]). The sizes of filesystems and the receipt of the last backup
    are arguments too. Log lines are left out, and so are the schema and the thresholds of a
    status, which are constants. *)

From Stdlib Require Import ZArith Lia.
From stdpp Require Import base list strings option.
From S2P Require Import Prelude Text Lines Ir.

#[local] Open Scope Z_scope.
#[local] Open Scope switchback_scope.

Definition PRESSURE_STATE_SCHEMA : string := "switchback/capture-pressure-state@1".
Definition BACKUP_RECEIPT_SCHEMA : string := "switchback/capture-backup@2".

Definition BACKUP_WARN_AGE_MS : Z := 6 * 60 * 60 * 1000.
Definition BACKUP_DEGRADE_AGE_MS : Z := 24 * 60 * 60 * 1000.
Definition FREE_WARN_BYTES : Z := 100000000000.
Definition FREE_DEGRADE_BYTES : Z := 50000000000.
Definition FREE_WARN_BPS : Z := 1500.
Definition FREE_DEGRADE_BPS : Z := 800.
Definition UNBACKED_DEGRADE_BYTES : Z := 50000000000.
Definition UNBACKED_RESUME_BYTES : Z := 10000000000.
Definition HEALTHY_BACKUP_CYCLES_TO_RESUME : Z := 2.
Definition UNBACKED_SNAPSHOT_BYTES : Z := 64 * 1024 * 1024.
Definition UNBACKED_SNAPSHOT_INTERVAL_MS : Z := 60 * 1000.

Definition u32_top : Z := 2 ^ 32 - 1.
Definition mul64 (a b : Z) : Z := sat_mul u64_max a b.

Inductive CaptureMode := SegmentedFullWire | HealingProbe | MetadataOnly.

#[export] Instance capture_mode_eq : EqDecision CaptureMode.
Proof. solve_decision. Defined.

Record PressureObservation := mkPressureObservation {
  po_free_bytes : Z;
  po_capacity_bytes : Z;
  po_last_backup_success_at_unix_ms : option Z;
  po_backup_generation : Z;
  po_unbacked_bytes : Z
}.

Record PressureThresholds := mkPressureThresholds {
  pt_degrade_free_bytes : Z;
  pt_degrade_free_bps : Z;
  pt_resume_free_bytes : Z;
  pt_resume_free_bps : Z;
  pt_healthy_backup_cycles_to_resume : Z
}.

Definition PressureThresholds_current : PressureThresholds :=
  mkPressureThresholds FREE_DEGRADE_BYTES FREE_DEGRADE_BPS FREE_WARN_BYTES FREE_WARN_BPS
    HEALTHY_BACKUP_CYCLES_TO_RESUME.

Record PressureStatus := mkPressureStatus {
  ps_mode : CaptureMode;
  ps_reasons : list string;
  ps_warnings : list string;
  ps_resume_blockers : list string;
  ps_healthy_backup_cycles : Z;
  ps_last_backup_generation : Z;
  ps_writer_failures : Z;
  ps_metadata_only_events : Z;
  ps_queue_depth : Z;
  ps_queue_drops : Z;
  ps_queue_high_watermark : Z;
  ps_queue_full_spools : Z;
  ps_queue_wait_ms_last : Z;
  ps_queue_wait_ms_high_watermark : Z;
  ps_unbacked_bytes : Z;
  ps_free_bytes : option Z;
  ps_capacity_bytes : option Z;
  ps_limiting_filesystem : option string;
  ps_last_backup_success_at_unix_ms : option Z;
  ps_backup_age_ms : option Z;
  ps_verified_through_day : option string;
  ps_updated_at_unix_ms : Z
}.

(** What is kept in the file; the schema tag, which every state written here has, is
    checked when a file is read. *)
Record PersistedPressureState := mkPersistedPressureState {
  pp_mode : CaptureMode;
  pp_reasons : list string;
  pp_resume_blockers : list string;
  pp_healthy_backup_cycles : Z;
  pp_last_backup_generation : Z;
  pp_writer_failures : Z;
  pp_queue_depth : Z;
  pp_queue_drops : Z;
  pp_queue_high_watermark : Z;
  pp_unbacked_bytes : Z;
  pp_updated_at_unix_ms : Z
}.

#[export] Instance persisted_state_eq : EqDecision PersistedPressureState.
Proof. solve_decision. Defined.

Definition PersistedPressureState_default : PersistedPressureState :=
  mkPersistedPressureState SegmentedFullWire [] [] 0 0 0 0 0 0 0 0.

(** The state with the mode and what goes with it replaced. *)
Definition set_mode (m : CaptureMode) (reasons blockers : list string) (cycles : Z)
    (s : PersistedPressureState) : PersistedPressureState :=
  mkPersistedPressureState m reasons blockers cycles (pp_last_backup_generation s)
    (pp_writer_failures s) (pp_queue_depth s) (pp_queue_drops s) (pp_queue_high_watermark s)
    (pp_unbacked_bytes s) (pp_updated_at_unix_ms s).

Definition set_unbacked (bytes : Z) (s : PersistedPressureState) : PersistedPressureState :=
  mkPersistedPressureState (pp_mode s) (pp_reasons s) (pp_resume_blockers s) (pp_healthy_backup_cycles s)
    (pp_last_backup_generation s) (pp_writer_failures s) (pp_queue_depth s) (pp_queue_drops s)
    (pp_queue_high_watermark s) bytes (pp_updated_at_unix_ms s).

Definition set_updated_at (now : Z) (s : PersistedPressureState) : PersistedPressureState :=
  mkPersistedPressureState (pp_mode s) (pp_reasons s) (pp_resume_blockers s) (pp_healthy_backup_cycles s)
    (pp_last_backup_generation s) (pp_writer_failures s) (pp_queue_depth s) (pp_queue_drops s)
    (pp_queue_high_watermark s) (pp_unbacked_bytes s) now.

Definition no_queue (s : PersistedPressureState) : PersistedPressureState :=
  mkPersistedPressureState (pp_mode s) (pp_reasons s) (pp_resume_blockers s) (pp_healthy_backup_cycles s)
    (pp_last_backup_generation s) (pp_writer_failures s) 0 (pp_queue_drops s) 0
    (pp_unbacked_bytes s) (pp_updated_at_unix_ms s).

(** ** The shared file *)

Inductive StateFile :=
| FileMissing
| FileUnreadable
| FileInvalid
| FileState (s : PersistedPressureState).

Definition refused_state (reason : string) : PersistedPressureState :=
  set_mode MetadataOnly [reason] [] 0 PersistedPressureState_default.

Definition read_persisted_state (f : StateFile) : PersistedPressureState :=
  match f with
  | FileState s => no_queue s
  | FileInvalid => refused_state "pressure_state_invalid"
  | FileMissing => PersistedPressureState_default
  | FileUnreadable => refused_state "pressure_state_unreadable"
  end.

(** Whether the lock is taken and whether a write of the file succeeds. *)
Record Disk := mkDisk {
  dk_lock : result unit string;
  dk_write : result unit string
}.

(** ** Measures *)

Definition ratio_bps (free capacity : Z) : Z :=
  if capacity =? 0 then 0 else mul64 free 10000 / capacity.

Definition resume_free_threshold_bytes (capacity : Z) : Z :=
  Z.min FREE_WARN_BYTES (mul64 FREE_WARN_BPS capacity / 10000).

Definition filesystem_pressure_score (fs : Z * Z) : Z * Z :=
  let '(free, capacity) := fs in
  let bps := ratio_bps free capacity in
  let severity :=
    if (free <? FREE_DEGRADE_BYTES) || (bps <? FREE_DEGRADE_BPS) then 2
    else if (free <? FREE_WARN_BYTES) || (bps <? FREE_WARN_BPS) then 1 else 0 in
  let '(free_threshold, ratio_threshold) :=
    if severity =? 2 then (FREE_DEGRADE_BYTES, FREE_DEGRADE_BPS) else (FREE_WARN_BYTES, FREE_WARN_BPS) in
  (severity, sat_sub 10000 (Z.min (mul64 free 10000 / free_threshold) (mul64 bps 10000 / ratio_threshold))).

(** The comparison of [max_by]; of equal ones the last is taken. *)
Definition filesystem_cmp (l r : string * (Z * Z)) : comparison :=
  let '(sl, ml) := filesystem_pressure_score l.2 in
  let '(sr, mr) := filesystem_pressure_score r.2 in
  match Z.compare sl sr with
  | Eq => match Z.compare ml mr with Eq => Z.compare r.2.1 l.2.1 | c => c end
  | c => c
  end.

Definition most_constrained_filesystem (l : list (string * (Z * Z))) : option (string * (Z * Z)) :=
  match l with
  | [] => None
  | x :: l => Some (fold_left (fun best y => match filesystem_cmp best y with Gt => best | _ => y end) l x)
  end.

(** ** The decision *)

Section Decision.
Context (s : PersistedPressureState) (o : PressureObservation) (now : Z).

Definition backup_age_ms : option Z :=
  (fun completed => Z.max 0 (i64_sat_sub now completed)) <$> po_last_backup_success_at_unix_ms o.

Definition age_above (limit : Z) : bool :=
  match backup_age_ms with Some age => limit <? age | None => false end.

Definition age_within (limit : Z) : bool :=
  match backup_age_ms with Some age => age <=? limit | None => false end.

Definition nothing_left_to_back_up : bool := po_unbacked_bytes o =? 0.

Definition free_bps : Z := ratio_bps (po_free_bytes o) (po_capacity_bytes o).

Definition severe : list string :=
  (if (age_above BACKUP_DEGRADE_AGE_MS && negb nothing_left_to_back_up)
      || (negb (opt_is_some backup_age_ms) && (0 <? pp_last_backup_generation s))
   then ["backup_stale"] else [])
  ++ (if (po_free_bytes o <? FREE_DEGRADE_BYTES) || (free_bps <? FREE_DEGRADE_BPS)
      then ["free_bytes"] else [])
  ++ (if UNBACKED_DEGRADE_BYTES <? po_unbacked_bytes o then ["unbacked_bytes"] else []).

Definition warnings : list string :=
  (if age_above BACKUP_WARN_AGE_MS then ["backup_stale"]
   else if negb (opt_is_some backup_age_ms) then ["backup_missing"] else [])
  ++ (if (po_free_bytes o <? FREE_WARN_BYTES) || (free_bps <? FREE_WARN_BPS) then ["free_bytes"] else []).

Definition backup_fresh_enough : bool := age_within BACKUP_WARN_AGE_MS || nothing_left_to_back_up.

Definition resume_blockers : list string :=
  (if backup_fresh_enough then [] else ["backup_stale_for_resume"])
  ++ (if po_free_bytes o <? resume_free_threshold_bytes (po_capacity_bytes o)
      then ["free_bytes_below_resume"] else [])
  ++ (if UNBACKED_RESUME_BYTES <=? po_unbacked_bytes o then ["unbacked_bytes_above_resume"] else []).

Definition is_nil {A} (l : list A) : bool := match l with [] => true | _ => false end.

Definition healing : PersistedPressureState :=
  let healthy := is_nil resume_blockers in
  let cycles :=
    if healthy && (age_within BACKUP_WARN_AGE_MS || (pp_last_backup_generation s <? po_backup_generation o)
                   || nothing_left_to_back_up)
    then sat_add u32_top (pp_healthy_backup_cycles s) 1
    else if negb healthy then 0 else pp_healthy_backup_cycles s in
  if HEALTHY_BACKUP_CYCLES_TO_RESUME <=? cycles then set_mode SegmentedFullWire [] [] 0 s
  else if healthy && (cycles =? 1) then
    set_mode HealingProbe ["healing_backup_probe"] resume_blockers cycles s
  else set_mode MetadataOnly ["healing_backup_cycles"] resume_blockers cycles s.

Definition decide_mode : PersistedPressureState :=
  if negb (is_nil severe) then set_mode MetadataOnly severe [] 0 s
  else if negb (opt_is_some backup_age_ms) && (po_backup_generation o =? 0) then
    set_mode SegmentedFullWire [] [] 0 s
  else match pp_mode s with
  | MetadataOnly | HealingProbe => healing
  | SegmentedFullWire => set_mode SegmentedFullWire [] [] 0 s
  end.

(** The state after an evaluation. *)
Definition evaluated : PersistedPressureState :=
  let s' := decide_mode in
  mkPersistedPressureState (pp_mode s') (pp_reasons s') (pp_resume_blockers s') (pp_healthy_backup_cycles s')
    (Z.max (pp_last_backup_generation s') (po_backup_generation o)) (pp_writer_failures s')
    (pp_queue_depth s') (pp_queue_drops s') (pp_queue_high_watermark s') (po_unbacked_bytes o) now.

End Decision.

Definition persisted_changed (before after : PersistedPressureState) : bool :=
  negb (bool_decide (pp_mode before = pp_mode after))
  || negb (bool_decide (pp_reasons before = pp_reasons after))
  || negb (bool_decide (pp_resume_blockers before = pp_resume_blockers after))
  || negb (pp_healthy_backup_cycles before =? pp_healthy_backup_cycles after)
  || negb (pp_last_backup_generation before =? pp_last_backup_generation after)
  || negb (pp_writer_failures before =? pp_writer_failures after)
  || negb (pp_queue_drops before =? pp_queue_drops after).

Definition snapshot_due (before after : PersistedPressureState) (now : Z) : bool :=
  let drift := Z.abs (pp_unbacked_bytes after - pp_unbacked_bytes before) in
  (0 <? drift)
  && ((UNBACKED_SNAPSHOT_BYTES <=? drift)
      || (UNBACKED_SNAPSHOT_INTERVAL_MS <=? i64_sat_sub now (pp_updated_at_unix_ms before))).

(** ** The controller *)

Record PressureController := mkPressureController {
  pc_state : PersistedPressureState;
  pc_latest : PressureStatus;
  pc_last_persisted_at_unix_ms : Z;
  pc_latest_verified_through_day : option string;
  pc_latest_limiting_filesystem : option string;
  pc_local_queue_depth : Z;
  pc_local_queue_high_watermark : Z
}.

Definition status_from_state (s : PersistedPressureState) : PressureStatus :=
  mkPressureStatus (pp_mode s) (pp_reasons s) [] (pp_resume_blockers s) (pp_healthy_backup_cycles s)
    (pp_last_backup_generation s) (pp_writer_failures s) 0 (pp_queue_depth s) (pp_queue_drops s)
    (pp_queue_high_watermark s) 0 0 0 (pp_unbacked_bytes s) None None None None None None
    (pp_updated_at_unix_ms s).

Definition load (f : StateFile) : PressureController :=
  let s := read_persisted_state f in
  mkPressureController s (status_from_state s) (pp_updated_at_unix_ms s) None None 0 0.

(** The controller with this state and status. *)
Definition with_state (s : PersistedPressureState) (latest : PressureStatus) (c : PressureController)
  : PressureController :=
  mkPressureController s latest (pc_last_persisted_at_unix_ms c) (pc_latest_verified_through_day c)
    (pc_latest_limiting_filesystem c) (pc_local_queue_depth c) (pc_local_queue_high_watermark c).

Definition persisted_at (now : Z) (c : PressureController) : PressureController :=
  mkPressureController (pc_state c) (pc_latest c) now (pc_latest_verified_through_day c)
    (pc_latest_limiting_filesystem c) (pc_local_queue_depth c) (pc_local_queue_high_watermark c).

(** [persist]. *)
Definition persist (dk : Disk) (c : PressureController) (f : StateFile) : result unit string * StateFile :=
  match dk_write dk with
  | Ok _ => (Ok tt, FileState (pc_state c))
  | Err e => (Err e, f)
  end.

(** [note_queue_wait], and [note_queue_full_spool] with [spooled]. *)
Definition note_queue (spooled : bool) (wait_ms : Z) (c : PressureController) : PressureController :=
  let l := pc_latest c in
  with_state (pc_state c)
    (mkPressureStatus (ps_mode l) (ps_reasons l) (ps_warnings l) (ps_resume_blockers l)
       (ps_healthy_backup_cycles l) (ps_last_backup_generation l) (ps_writer_failures l)
       (ps_metadata_only_events l) (ps_queue_depth l) (ps_queue_drops l) (ps_queue_high_watermark l)
       (if spooled then sat_add u64_max (ps_queue_full_spools l) 1 else ps_queue_full_spools l) wait_ms
       (Z.max (ps_queue_wait_ms_high_watermark l) wait_ms) (ps_unbacked_bytes l) (ps_free_bytes l)
       (ps_capacity_bytes l) (ps_limiting_filesystem l) (ps_last_backup_success_at_unix_ms l)
       (ps_backup_age_ms l) (ps_verified_through_day l) (ps_updated_at_unix_ms l)) c.

(** The receipt of the last backup, as far as it is read. *)
Record LatestBackupReceipt := mkLatestBackupReceipt {
  br_schema : string;
  br_generation : Z;
  br_completed_at_unix_ms : option Z;
  br_verified_through_day : option string
}.

(** [read_latest_backup_receipt] after the file is parsed. *)
Definition check_receipt (r : option LatestBackupReceipt) : result (option LatestBackupReceipt) string :=
  match r with
  | Some r => if str_eqb (br_schema r) BACKUP_RECEIPT_SCHEMA then Ok (Some r)
              else Err ("unsupported backup receipt schema " ^^ br_schema r)
  | None => Ok None
  end.

(** [observe], from the sizes of the filesystems and the receipt. *)
Definition observe (filesystems : list (string * (Z * Z)))
    (receipt : result (option LatestBackupReceipt) string) (c : PressureController)
  : result PressureObservation string * PressureController :=
  match most_constrained_filesystem filesystems with
  | None => (Err "no capture filesystem was observable", c)
  | Some (name, (free, capacity)) =>
      let c := mkPressureController (pc_state c) (pc_latest c) (pc_last_persisted_at_unix_ms c)
                 (pc_latest_verified_through_day c) (Some name) (pc_local_queue_depth c)
                 (pc_local_queue_high_watermark c) in
      match try receipt check_receipt with
      | Err e => (Err e, c)
      | Ok receipt =>
          let c := mkPressureController (pc_state c) (pc_latest c) (pc_last_persisted_at_unix_ms c)
                     (receipt ≫= br_verified_through_day) (pc_latest_limiting_filesystem c)
                     (pc_local_queue_depth c) (pc_local_queue_high_watermark c) in
          (Ok (mkPressureObservation free capacity (receipt ≫= br_completed_at_unix_ms)
                 (match receipt with Some r => br_generation r
                  | None => pp_last_backup_generation (pc_state c) end)
                 (pp_unbacked_bytes (pc_state c))), c)
      end
  end.

Definition evaluate (dk : Disk) (o : PressureObservation) (now : Z) (c : PressureController) (f : StateFile)
  : result PressureStatus string * PressureController * StateFile :=
  match dk_lock dk with
  | Err e => (Err e, c, f)
  | Ok _ =>
      let previous := read_persisted_state f in
      let s := evaluated previous o now in
      let l := pc_latest c in
      let latest := mkPressureStatus (pp_mode s) (pp_reasons s) (warnings o now) (pp_resume_blockers s)
        (pp_healthy_backup_cycles s) (pp_last_backup_generation s) (pp_writer_failures s)
        (ps_metadata_only_events l) (pc_local_queue_depth c) (pp_queue_drops s)
        (pc_local_queue_high_watermark c) (ps_queue_full_spools l) (ps_queue_wait_ms_last l)
        (ps_queue_wait_ms_high_watermark l) (po_unbacked_bytes o) (Some (po_free_bytes o))
        (Some (po_capacity_bytes o)) (pc_latest_limiting_filesystem c)
        (po_last_backup_success_at_unix_ms o) (backup_age_ms o now) (pc_latest_verified_through_day c) now in
      let c := with_state s latest c in
      if persisted_changed previous s || snapshot_due previous s now then
        let '(res, f) := persist dk c f in
        match res with
        | Ok _ => (Ok latest, persisted_at now c, f)
        | Err e => (Err e, c, f)
        end
      else (Ok latest, c, f)
  end.

Definition status_from_shared_state (c : PressureController) (s : PersistedPressureState) : PressureStatus :=
  let l := pc_latest c in
  let st := status_from_state s in
  mkPressureStatus (ps_mode st) (ps_reasons st) (ps_warnings st) (ps_resume_blockers st)
    (ps_healthy_backup_cycles st) (ps_last_backup_generation st) (ps_writer_failures st)
    (ps_metadata_only_events l) (pc_local_queue_depth c) (ps_queue_drops st)
    (pc_local_queue_high_watermark c) (ps_queue_full_spools l) (ps_queue_wait_ms_last l)
    (ps_queue_wait_ms_high_watermark l) (ps_unbacked_bytes st) (ps_free_bytes st) (ps_capacity_bytes st)
    (pc_latest_limiting_filesystem c) (ps_last_backup_success_at_unix_ms st) (ps_backup_age_ms st)
    (ps_verified_through_day st) (ps_updated_at_unix_ms st).

(** The shared tail of the operations that always write. *)
Definition write_state (dk : Disk) (s : PersistedPressureState) (latest : PressureStatus) (now : Z)
    (c : PressureController) (f : StateFile) : result unit string * PressureController * StateFile :=
  let c := with_state s latest c in
  let '(res, f) := persist dk c f in
  match res with
  | Ok _ => (Ok tt, persisted_at now c, f)
  | Err e => (Err e, c, f)
  end.

Definition mark_writer_failure (dk : Disk) (now : Z) (reason : string) (c : PressureController) (f : StateFile)
  : result PressureStatus string * PressureController * StateFile :=
  match dk_lock dk with
  | Err e => (Err e, c, f)
  | Ok _ =>
      let s := read_persisted_state f in
      let s := set_mode MetadataOnly ["writer_failed:" ^^ reason] [] 0 s in
      let s := mkPersistedPressureState (pp_mode s) (pp_reasons s) (pp_resume_blockers s)
        (pp_healthy_backup_cycles s) (pp_last_backup_generation s)
        (sat_add u64_max (pp_writer_failures s) 1) (pp_queue_depth s) (pp_queue_drops s)
        (pp_queue_high_watermark s) (pp_unbacked_bytes s) now in
      let latest := status_from_shared_state c s in
      let '(res, c, f) := write_state dk s latest now c f in
      (match res with Ok _ => Ok latest | Err e => Err e end, c, f)
  end.

(** The published number of bytes without a backup. *)
Definition set_latest_unbacked (bytes : Z) (l : PressureStatus) : PressureStatus :=
  mkPressureStatus (ps_mode l) (ps_reasons l) (ps_warnings l) (ps_resume_blockers l)
    (ps_healthy_backup_cycles l) (ps_last_backup_generation l) (ps_writer_failures l)
    (ps_metadata_only_events l) (ps_queue_depth l) (ps_queue_drops l) (ps_queue_high_watermark l)
    (ps_queue_full_spools l) (ps_queue_wait_ms_last l) (ps_queue_wait_ms_high_watermark l) bytes
    (ps_free_bytes l) (ps_capacity_bytes l) (ps_limiting_filesystem l)
    (ps_last_backup_success_at_unix_ms l) (ps_backup_age_ms l) (ps_verified_through_day l)
    (ps_updated_at_unix_ms l).

(** The published queue counters, and the number of metadata-only events. *)
Definition set_latest_queue (depth drops high events now : Z) (l : PressureStatus) : PressureStatus :=
  mkPressureStatus (ps_mode l) (ps_reasons l) (ps_warnings l) (ps_resume_blockers l)
    (ps_healthy_backup_cycles l) (ps_last_backup_generation l) (ps_writer_failures l) events depth drops high
    (ps_queue_full_spools l) (ps_queue_wait_ms_last l) (ps_queue_wait_ms_high_watermark l)
    (ps_unbacked_bytes l) (ps_free_bytes l) (ps_capacity_bytes l) (ps_limiting_filesystem l)
    (ps_last_backup_success_at_unix_ms l) (ps_backup_age_ms l) (ps_verified_through_day l) now.

Definition note_full_capture (body_bytes : Z) (c : PressureController) : PressureController :=
  let bytes := sat_add u64_max (pp_unbacked_bytes (pc_state c)) body_bytes in
  with_state (set_unbacked bytes (pc_state c)) (set_latest_unbacked bytes (pc_latest c)) c.

Definition reconcile_unbacked_bytes (dk : Disk) (bytes now : Z) (c : PressureController) (f : StateFile)
  : result unit string * PressureController * StateFile :=
  match dk_lock dk with
  | Err e => (Err e, c, f)
  | Ok _ =>
      let l := set_latest_unbacked bytes (pc_latest c) in
      write_state dk (set_updated_at now (set_unbacked bytes (read_persisted_state f)))
        (set_latest_queue (ps_queue_depth l) (ps_queue_drops l) (ps_queue_high_watermark l)
           (ps_metadata_only_events l) now l) now c f
  end.

Definition set_metadata_only_events (events : Z) (c : PressureController) : PressureController :=
  let l := pc_latest c in
  with_state (pc_state c) (set_latest_queue (ps_queue_depth l) (ps_queue_drops l) (ps_queue_high_watermark l)
                             events (ps_updated_at_unix_ms l) l) c.

(** [seed_metadata_only_count] with the count of the index, zero when it cannot be read. *)
Definition seed_metadata_only_count (count : Z) (c : PressureController) : PressureController :=
  set_metadata_only_events (Z.max count 0) c.

Definition note_metadata_only_recorded (c : PressureController) : PressureController :=
  set_metadata_only_events (sat_add u64_max (ps_metadata_only_events (pc_latest c)) 1) c.

Definition set_local_queue (depth high : Z) (c : PressureController) : PressureController :=
  let l := pc_latest c in
  mkPressureController (pc_state c)
    (set_latest_queue depth (ps_queue_drops l) high (ps_metadata_only_events l) (ps_updated_at_unix_ms l) l)
    (pc_last_persisted_at_unix_ms c) (pc_latest_verified_through_day c) (pc_latest_limiting_filesystem c)
    depth high.

Definition note_queue_enqueued (c : PressureController) : PressureController :=
  let depth := sat_add u64_max (pc_local_queue_depth c) 1 in
  set_local_queue depth (Z.max (pc_local_queue_high_watermark c) depth) c.

(** The published high-water mark is left as it is. *)
Definition note_queue_dequeued (c : PressureController) : PressureController :=
  let depth := sat_sub (pc_local_queue_depth c) 1 in
  let l := pc_latest c in
  mkPressureController (pc_state c)
    (set_latest_queue depth (ps_queue_drops l) (ps_queue_high_watermark l) (ps_metadata_only_events l)
       (ps_updated_at_unix_ms l) l)
    (pc_last_persisted_at_unix_ms c) (pc_latest_verified_through_day c) (pc_latest_limiting_filesystem c)
    depth (pc_local_queue_high_watermark c).

Definition note_queue_drop (dk : Disk) (now : Z) (c : PressureController) (f : StateFile)
  : result unit string * PressureController * StateFile :=
  match dk_lock dk with
  | Err e => (Err e, c, f)
  | Ok _ =>
      let s := read_persisted_state f in
      let drops := sat_add u64_max (pp_queue_drops s) 1 in
      let s := mkPersistedPressureState (pp_mode s) (pp_reasons s) (pp_resume_blockers s)
        (pp_healthy_backup_cycles s) (pp_last_backup_generation s) (pp_writer_failures s) (pp_queue_depth s)
        drops (pp_queue_high_watermark s) (pp_unbacked_bytes s) now in
      let l := pc_latest c in
      let c := with_state s (set_latest_queue (ps_queue_depth l) drops (ps_queue_high_watermark l)
                               (ps_metadata_only_events l) now l) c in
      let '(res, f) := persist dk c f in (res, c, f)
  end.

(** ** The automaton

    What the controller does with its mode, apart from all numbers. *)

Inductive Verdict := VSevere | VNeverBackedUp | VHealthy | VBlocked.

Definition next (m : CaptureMode) (v : Verdict) : CaptureMode :=
  match m, v with
  | _, VSevere => MetadataOnly
  | _, VNeverBackedUp => SegmentedFullWire
  | SegmentedFullWire, (VHealthy | VBlocked) => SegmentedFullWire
  | MetadataOnly, VHealthy => HealingProbe
  | HealingProbe, VHealthy => SegmentedFullWire
  | (MetadataOnly | HealingProbe), VBlocked => MetadataOnly
  end.

(** The verdict on an observation, when backups got to this generation. *)
Definition verdict (s : PersistedPressureState) (o : PressureObservation) (now : Z) : Verdict :=
  if negb (is_nil (severe s o now)) then VSevere
  else if negb (opt_is_some (backup_age_ms o now)) && (po_backup_generation o =? 0) then VNeverBackedUp
  else if is_nil (resume_blockers o now) then VHealthy else VBlocked.

(** What goes with each mode. *)
Definition state_ok (s : PersistedPressureState) : Prop :=
  match pp_mode s with
  | SegmentedFullWire => pp_reasons s = [] /\ pp_resume_blockers s = [] /\ pp_healthy_backup_cycles s = 0
  | HealingProbe => pp_reasons s = ["healing_backup_probe"] /\ pp_resume_blockers s = []
                    /\ pp_healthy_backup_cycles s = 1
  | MetadataOnly => pp_reasons s <> [] /\ pp_healthy_backup_cycles s = 0
  end.

Definition file_ok (f : StateFile) : Prop := match f with FileState s => state_ok s | _ => True end.

Lemma read_ok f : file_ok f -> state_ok (read_persisted_state f).
Proof. by destruct f. Qed.

(** An observation with no blocker always counts as a healthy cycle. *)
Lemma healthy_counts o now s :
  is_nil (resume_blockers o now) = true ->
  age_within o now BACKUP_WARN_AGE_MS || (pp_last_backup_generation s <? po_backup_generation o)
  || nothing_left_to_back_up o = true.
Proof.
  unfold resume_blockers, backup_fresh_enough. intros Hn.
  destruct (age_within o now BACKUP_WARN_AGE_MS); [done|]. destruct (nothing_left_to_back_up o); [|done].
  by rewrite orb_true_r.
Qed.

Lemma evaluated_mode s o now :
  state_ok s -> pp_mode (evaluated s o now) = next (pp_mode s) (verdict s o now).
Proof.
  intros Hs. unfold evaluated, decide_mode, verdict. cbn [pp_mode].
  destruct (negb (is_nil (severe s o now))); [by destruct (pp_mode s)|].
  destruct (negb (opt_is_some _) && _); [by destruct (pp_mode s)|].
  destruct (is_nil (resume_blockers o now)) eqn:Hn; unfold state_ok in Hs; destruct (pp_mode s) eqn:Em;
    try done; unfold healing; rewrite Hn; cbn [andb negb]; try done; rewrite healthy_counts by done;
    destruct Hs as [_ Hs]; [destruct Hs as [_ ->]|rewrite Hs]; done.
Qed.

Lemma evaluated_ok s o now : state_ok s -> state_ok (evaluated s o now).
Proof.
  intros Hs. unfold evaluated, decide_mode. unfold state_ok. cbn [pp_mode pp_reasons pp_resume_blockers pp_healthy_backup_cycles].
  destruct (severe s o now) as [|r rs] eqn:Es; cbn [is_nil negb]; [|done].
  destruct (negb (opt_is_some _) && _); [done|].
  destruct (is_nil (resume_blockers o now)) eqn:Hn; unfold state_ok in Hs; destruct (pp_mode s) eqn:Em;
    try done; unfold healing; rewrite Hn; cbn [andb negb]; try done; rewrite healthy_counts by done;
    destruct Hs as [_ Hs]; [destruct Hs as [_ ->]|rewrite Hs]; try done.
  cbn. by destruct (resume_blockers o now).
Qed.

(** ** Processes that share the file *)

Inductive Op :=
| OpEvaluate (dk : Disk) (o : PressureObservation) (now : Z)
| OpObserve (filesystems : list (string * (Z * Z))) (receipt : result (option LatestBackupReceipt) string)
| OpWriterFailure (dk : Disk) (now : Z) (reason : string)
| OpReconcile (dk : Disk) (bytes now : Z)
| OpQueueDrop (dk : Disk) (now : Z)
| OpFullCapture (bytes : Z)
| OpQueue (spooled : bool) (wait_ms : Z)
| OpEnqueued
| OpDequeued
| OpSeedEvents (count : Z)
| OpMetadataOnly.

Definition is_ok {A E} (r : result A E) : bool := match r with Ok _ => true | Err _ => false end.

(** One operation of one process: whether it succeeded, its controller and the file. *)
Definition exec (op : Op) (c : PressureController) (f : StateFile) : bool * PressureController * StateFile :=
  match op with
  | OpEvaluate dk o now => let '(r, c, f) := evaluate dk o now c f in (is_ok r, c, f)
  | OpObserve fs receipt => let '(r, c) := observe fs receipt c in (is_ok r, c, f)
  | OpWriterFailure dk now reason => let '(r, c, f) := mark_writer_failure dk now reason c f in (is_ok r, c, f)
  | OpReconcile dk bytes now => let '(r, c, f) := reconcile_unbacked_bytes dk bytes now c f in (is_ok r, c, f)
  | OpQueueDrop dk now => let '(r, c, f) := note_queue_drop dk now c f in (is_ok r, c, f)
  | OpFullCapture bytes => (true, note_full_capture bytes c, f)
  | OpQueue spooled ms => (true, note_queue spooled ms c, f)
  | OpEnqueued => (true, note_queue_enqueued c, f)
  | OpDequeued => (true, note_queue_dequeued c, f)
  | OpSeedEvents n => (true, seed_metadata_only_count n c, f)
  | OpMetadataOnly => (true, note_metadata_only_recorded c, f)
  end.

(** The controllers of the processes and the file. *)
Record System := mkSystem {
  sy_processes : list PressureController;
  sy_file : StateFile
}.

(** A step: the number of the process and its operation; the result says whether it succeeded. *)
Definition sys_step (sy : System) (st : nat * Op) : bool * System :=
  match sy_processes sy !! st.1 with
  | None => (false, sy)
  | Some c =>
      let '(ok, c, f) := exec st.2 c (sy_file sy) in
      (ok, mkSystem (<[st.1 := c]> (sy_processes sy)) f)
  end.

(** The operations that succeeded, and the system at the end. *)
Fixpoint sys_run (sy : System) (l : list (nat * Op)) : list Op * System :=
  match l with
  | [] => ([], sy)
  | st :: l =>
      let '(ok, sy) := sys_step sy st in
      let '(done, sy) := sys_run sy l in (if ok then st.2 :: done else done, sy)
  end.

(** Mode and generation of the file. *)
Definition shared (f : StateFile) : CaptureMode * Z :=
  (pp_mode (read_persisted_state f), pp_last_backup_generation (read_persisted_state f)).

Definition at_generation (g : Z) : PersistedPressureState :=
  mkPersistedPressureState SegmentedFullWire [] [] 0 g 0 0 0 0 0 0.

(** The automaton on a successful operation. *)
Definition spec_step (a : CaptureMode * Z) (op : Op) : CaptureMode * Z :=
  match op with
  | OpEvaluate _ o now => (next a.1 (verdict (at_generation a.2) o now), Z.max a.2 (po_backup_generation o))
  | OpWriterFailure _ _ _ => (MetadataOnly, a.2)
  | _ => a
  end.

Lemma verdict_generation s o now :
  verdict s o now = verdict (at_generation (pp_last_backup_generation s)) o now.
Proof. reflexivity. Qed.

Lemma changed_mode s s' :
  persisted_changed s s' = false ->
  pp_mode s' = pp_mode s /\ pp_last_backup_generation s' = pp_last_backup_generation s.
Proof.
  unfold persisted_changed. rewrite !orb_false_iff, !negb_false_iff. intros [[[[[[Hm _] _] _] Hg] _] _].
  apply bool_decide_eq_true in Hm. by apply Z.eqb_eq in Hg.
Qed.

Lemma evaluated_generation s o now :
  pp_last_backup_generation (evaluated s o now) = Z.max (pp_last_backup_generation s) (po_backup_generation o).
Proof. unfold evaluated, decide_mode, healing. by repeat case_match. Qed.

Lemma evaluated_shared f o now dk :
  file_ok f -> shared (FileState (evaluated (read_persisted_state f) o now))
               = spec_step (shared f) (OpEvaluate dk o now).
Proof.
  intros Hf. unfold shared, spec_step. cbn [fst snd read_persisted_state no_queue pp_mode pp_last_backup_generation].
  by rewrite <- verdict_generation, <- evaluated_mode, evaluated_generation by (by apply read_ok).
Qed.

Lemma evaluate_shared dk o now c f :
  file_ok f ->
  let '(r, c', f') := evaluate dk o now c f in
  file_ok f' /\ shared f' = (if is_ok r then spec_step (shared f) (OpEvaluate dk o now) else shared f)
  /\ forall st, r = Ok st -> ps_mode st = (shared f').1.
Proof.
  intros Hf. unfold evaluate. destruct (dk_lock dk) as [[]|e]; [|done].
  pose proof (evaluated_shared f o now dk Hf) as Hm.
  pose proof (evaluated_ok (read_persisted_state f) o now (read_ok f Hf)) as Hok.
  destruct (persisted_changed _ _) eqn:Ec; [|destruct (snapshot_due _ _ _)]; cbn [orb].
  1, 2: unfold persist; destruct (dk_write dk) as [[]|e]; [|done]; cbn [is_ok pc_state with_state];
    (split_and!; [exact Hok|exact Hm|by intros st [= <-]]).
  apply changed_mode in Ec as [Em Eg]. cbn [is_ok]. rewrite <- Hm. unfold shared.
  cbn [read_persisted_state no_queue pp_mode pp_last_backup_generation]. rewrite Em, Eg.
  split_and!; [done|done|]. by intros st [= <-].
Qed.






(** ** Recovery *)















(** ** Guarantees of an evaluation *)

Lemma if_nil {A} (b : bool) (x : A) : (if b then [x] else []) = [] <-> b = false.
Proof. by destruct b. Qed.

Lemma if_nil' {A} (b : bool) (x : A) : (if b then [] else [x]) = [] <-> b = true.
Proof. by destruct b. Qed.

Lemma app_nil_iff {A} (l l' : list A) : l ++ l' = [] <-> l = [] /\ l' = [].
Proof. split; [by destruct l|by intros [-> ->]]. Qed.

Lemma severe_nil s o now :
  severe s o now = [] ->
  FREE_DEGRADE_BYTES <= po_free_bytes o /\ FREE_DEGRADE_BPS <= free_bps o
  /\ po_unbacked_bytes o <= UNBACKED_DEGRADE_BYTES
  /\ (forall age, backup_age_ms o now = Some age -> age <= BACKUP_DEGRADE_AGE_MS \/ po_unbacked_bytes o = 0)
  /\ (backup_age_ms o now = None -> pp_last_backup_generation s <= 0).
Proof.
  unfold severe, age_above, nothing_left_to_back_up.
  rewrite !app_nil_iff, !if_nil, !orb_false_iff, !andb_false_iff, !Z.ltb_ge.
  intros ([Ha Hg] & [Hf Hb] & Hu). split_and!; [done..|intros age Hage|intros Hage]; rewrite Hage in *.
  - destruct Ha as [Ha|Ha]; [left; by apply Z.ltb_ge|right].
    apply negb_false_iff in Ha. by apply Z.eqb_eq.
  - by destruct Hg.
Qed.

Lemma blockers_nil o now :
  resume_blockers o now = [] ->
  resume_free_threshold_bytes (po_capacity_bytes o) <= po_free_bytes o
  /\ po_unbacked_bytes o < UNBACKED_RESUME_BYTES
  /\ (po_unbacked_bytes o = 0 \/ exists age, backup_age_ms o now = Some age /\ age <= BACKUP_WARN_AGE_MS).
Proof.
  unfold resume_blockers, backup_fresh_enough, age_within, nothing_left_to_back_up.
  rewrite !app_nil_iff, !if_nil, if_nil', Z.ltb_ge, Z.leb_gt. intros (Hb & ? & ?). split_and!; [done..|].
  apply orb_true_iff in Hb as [Hb|Hb]; [right|left; by apply Z.eqb_eq].
  destruct (backup_age_ms o now) as [age|]; [|done]. exists age. split; [done|by apply Z.leb_le].
Qed.

Lemma is_nil_eq {A} (l : list A) : is_nil l = true <-> l = [].
Proof. by destruct l. Qed.

(** When full capture is reported there is room for it: space above the floor, and the bytes without a
    backup within their limit and backed up within a day, unless there are none or nothing was ever
    backed up. When a degraded capture is let back in after backups exist, the stricter bounds hold. *)
Theorem full_capture_safe dk o now c f st c' f' :
  file_ok f -> evaluate dk o now c f = (Ok st, c', f') -> ps_mode st <> MetadataOnly ->
  FREE_DEGRADE_BYTES <= po_free_bytes o /\ FREE_DEGRADE_BPS <= free_bps o
  /\ po_unbacked_bytes o <= UNBACKED_DEGRADE_BYTES
  /\ (forall age, backup_age_ms o now = Some age -> age <= BACKUP_DEGRADE_AGE_MS \/ po_unbacked_bytes o = 0)
  /\ (backup_age_ms o now = None -> pp_last_backup_generation (read_persisted_state f) <= 0)
  /\ (pp_mode (read_persisted_state f) <> SegmentedFullWire ->
      (backup_age_ms o now = None /\ po_backup_generation o = 0)
      \/ resume_free_threshold_bytes (po_capacity_bytes o) <= po_free_bytes o
         /\ po_unbacked_bytes o < UNBACKED_RESUME_BYTES
         /\ (po_unbacked_bytes o = 0
             \/ exists age, backup_age_ms o now = Some age /\ age <= BACKUP_WARN_AGE_MS)).
Proof.
  intros Hf He Hm. pose proof (evaluate_shared dk o now c f Hf) as Hs. rewrite He in Hs.
  destruct Hs as (_ & Hs & Hst). rewrite (Hst st eq_refl), Hs in Hm. cbn [is_ok spec_step fst] in Hm.
  change (verdict (at_generation (shared f).2) o now) with (verdict (read_persisted_state f) o now) in Hm.
  change (shared f).1 with (pp_mode (read_persisted_state f)) in Hm. unfold verdict in Hm.
  destruct (is_nil (severe _ o now)) eqn:Esev; [|by destruct (pp_mode _) in Hm].
  apply is_nil_eq, severe_nil in Esev as (? & ? & ? & ? & ?). split_and!; [done..|]. intros Hmode.
  cbn [negb] in Hm. destruct (backup_age_ms o now) as [age|] eqn:Eage.
  - right. rewrite <- Eage. apply blockers_nil, is_nil_eq. cbn [opt_is_some negb andb] in Hm.
    destruct (is_nil (resume_blockers o now)); [done|by destruct (pp_mode _)].
  - cbn [opt_is_some negb andb] in Hm. destruct (po_backup_generation o =? 0) eqn:Eg.
    + left. split; [done|by apply Z.eqb_eq].
    + right. destruct (is_nil (resume_blockers o now)) eqn:En; [|by destruct (pp_mode _)].
      apply is_nil_eq, blockers_nil in En. by rewrite Eage in En.
Qed.

(** The file does not fall behind: after an evaluation that succeeded, what is in it is the state of
    the controller, but for the number of bytes without a backup and the time of the update, and those
    differ by less than the snapshot size and only within a minute of what the file says. *)
Theorem published_state_current dk o now c f st c' f' :
  evaluate dk o now c f = (Ok st, c', f') ->
  f' = FileState (pc_state c')
  \/ persisted_changed (read_persisted_state f') (pc_state c') = false
     /\ let drift := Z.abs (pp_unbacked_bytes (pc_state c') - pp_unbacked_bytes (read_persisted_state f')) in
        drift = 0
        \/ drift < UNBACKED_SNAPSHOT_BYTES
           /\ i64_sat_sub now (pp_updated_at_unix_ms (read_persisted_state f')) < UNBACKED_SNAPSHOT_INTERVAL_MS.
Proof.
  unfold evaluate, persist. destruct (dk_lock dk); [|done].
  destruct (persisted_changed _ _) eqn:Ec; [|destruct (snapshot_due _ _ _) eqn:Es]; cbn [orb].
  1, 2: destruct (dk_write dk); [|done]; intros [= <- <- <-]; by left.
  intros [= <- <- <-]. right. cbn [pc_state with_state]. split; [done|]. cbv zeta.
  unfold snapshot_due in Es. rewrite andb_false_iff, orb_false_iff, Z.ltb_ge, !Z.leb_gt in Es. lia.
Qed.

(** ** The filesystem that limits *)

Definition is_severe (fs : string * (Z * Z)) : bool := (filesystem_pressure_score fs.2).1 =? 2.

Lemma score_severity fs :
  let s := (filesystem_pressure_score fs).1 in
  0 <= s <= 2
  /\ (s = 2 <-> fs.1 < FREE_DEGRADE_BYTES \/ ratio_bps fs.1 fs.2 < FREE_DEGRADE_BPS).
Proof.
  destruct fs as [free capacity]. unfold filesystem_pressure_score. cbn [fst snd].
  rewrite <- !Z.ltb_lt, <- orb_true_iff.
  destruct ((free <? FREE_DEGRADE_BYTES) || _) eqn:E1; [simpl; split; [lia|done]|].
  destruct ((free <? FREE_WARN_BYTES) || _); simpl; (split; [lia|split; [lia|done]]).
Qed.

Lemma cmp_severity l r :
  match filesystem_cmp l r with
  | Gt => (filesystem_pressure_score r.2).1 <= (filesystem_pressure_score l.2).1
  | _ => (filesystem_pressure_score l.2).1 <= (filesystem_pressure_score r.2).1
  end.
Proof.
  unfold filesystem_cmp. destruct (filesystem_pressure_score l.2) as [sl ml], (filesystem_pressure_score r.2) as [sr mr].
  cbn [fst]. destruct (Z.compare_spec sl sr); try lia. destruct (Z.compare ml mr); try lia.
  destruct (Z.compare _ _); lia.
Qed.

(** The chosen filesystem is one of those observed, and severe when any of them is: no full disk hides
    behind one with room. *)
Theorem limiting_filesystem_worst l x :
  most_constrained_filesystem l = Some x ->
  x ∈ l /\ Forall (fun y => (filesystem_pressure_score y.2).1 <= (filesystem_pressure_score x.2).1) l
  /\ (is_severe x = true <-> exists y, y ∈ l /\ (y.2.1 < FREE_DEGRADE_BYTES \/ ratio_bps y.2.1 y.2.2 < FREE_DEGRADE_BPS)).
Proof.
  destruct l as [|z l]; [done|]. simpl. intros [= <-].
  assert (Hmax : let x := fold_left (fun best y => match filesystem_cmp best y with Gt => best | _ => y end) l z in
    x ∈ z :: l /\ Forall (fun y => (filesystem_pressure_score y.2).1 <= (filesystem_pressure_score x.2).1) (z :: l)).
  { cbv zeta. revert z. induction l as [|y l IH]; intros z.
    - split; [by left|]. constructor; [apply Z.le_refl|constructor].
    - cbn [fold_left]. set (b := match filesystem_cmp z y with Gt => z | _ => y end).
      assert (Hb : (b = z \/ b = y) /\ (filesystem_pressure_score z.2).1 <= (filesystem_pressure_score b.2).1
                   /\ (filesystem_pressure_score y.2).1 <= (filesystem_pressure_score b.2).1).
      { unfold b. pose proof (cmp_severity z y). destruct (filesystem_cmp z y);
          split_and!; first [by left|by right|apply Z.le_refl|done]. }
      clearbody b. destruct (IH b) as [Hin Hall]. apply List.Forall_cons_iff in Hall as [Hle Hall].
      destruct Hb as (Hb & Hz & Hy). split.
      + apply elem_of_cons in Hin as [->|Hin]; [destruct Hb as [->| ->]; [by left|right; by left]|].
        right. by right.
      + constructor; [by etransitivity|]. constructor; [by etransitivity|done]. }
  cbv zeta in Hmax. destruct Hmax as [Hin Hall]. set (x := fold_left _ l z) in *. split_and!; [done|done|].
  unfold is_severe. rewrite Z.eqb_eq. split.
  - intros Hx. exists x. split; [done|]. by apply (score_severity x.2).
  - intros (y & Hy & Hs). apply (score_severity y.2) in Hs. rewrite List.Forall_forall in Hall.
    specialize (Hall y (proj1 (list_elem_of_In _ _) Hy)). pose proof (proj1 (score_severity x.2)). lia.
Qed.

(** ** Concrete controllers *)

Module PressureSamples.

Definition works : Disk := mkDisk (Ok tt) (Ok tt).

Definition gb (n : Z) : Z := n * 1000000000.

Definition hour : Z := 60 * 60 * 1000.

(** A terabyte with 200 GB free, a backup of the given age, the given bytes without one. *)
Definition seen (free age unbacked generation : Z) : PressureObservation :=
  mkPressureObservation (gb free) (gb 1000) (Some (100 * hour - age * hour)) generation unbacked.

Definition fresh_system (f : StateFile) : System := mkSystem [load f; load f] f.

Definition eval_at (i : nat) (o : PressureObservation) : nat * Op := (i, OpEvaluate works o (100 * hour)).




Lemma full_capture_safe_witness :
  FREE_DEGRADE_BYTES <= po_free_bytes (seen 90 3 1000 4).
Proof.
  destruct (evaluate works (seen 90 3 1000 4) (100 * hour) (load FileMissing) FileMissing) as [[r c] f] eqn:E.
  assert (Hr : exists st, r = Ok st /\ ps_mode st = SegmentedFullWire)
    by (vm_compute in E; injection E as <- <- <-; eexists; split; reflexivity).
  destruct Hr as (st & -> & Hm).
  refine (proj1 (full_capture_safe works (seen 90 3 1000 4) (100 * hour) (load FileMissing) FileMissing st c f
                   I E _)). rewrite Hm. discriminate.
Defined.

Lemma published_state_current_witness :
  let x := evaluate works (seen 90 3 1000 4) (100 * hour) (load FileMissing) FileMissing in
  x.2 = FileState (pc_state x.1.2).
Proof.
  intros x. assert (E : evaluate works (seen 90 3 1000 4) (100 * hour) (load FileMissing) FileMissing
    = (Ok (pc_latest x.1.2), x.1.2, x.2)) by (vm_compute; reflexivity).
  destruct (published_state_current works (seen 90 3 1000 4) (100 * hour) (load FileMissing) FileMissing
    (pc_latest x.1.2) x.1.2 x.2 E) as [Hf|_]; [exact Hf|].
  vm_compute. reflexivity.
Defined.

Lemma limiting_filesystem_worst_witness :
  is_severe ("/b", (gb 10, gb 100)) = true.
Proof.
  refine (proj2 (proj2 (proj2 (limiting_filesystem_worst
    [("/a", (gb 500, gb 1000)); ("/b", (gb 10, gb 100))] ("/b", (gb 10, gb 100)) _))) _).
  - vm_compute. reflexivity.
  - exists ("/b", (gb 10, gb 100)). split; [right; left|]. left. vm_compute. reflexivity.
Defined.

(** The two cycles that let capture back in are evaluations, not backups: one receipt serves for both. *)
Lemma one_backup_resumes :
  shared (sy_file (sys_run (fresh_system FileInvalid)
    [eval_at 0 (seen 200 3 1000 4); eval_at 0 (seen 200 3 1000 4)]).2) = (SegmentedFullWire, 4).
Proof. vm_compute. reflexivity. Qed.

(** On a disk of 300 GB capture comes back with 50 GB free, where the published threshold says 100 GB. *)
Lemma resumes_below_published_threshold :
  let o := mkPressureObservation (gb 50) (gb 300) (Some (99 * hour)) 4 0 in
  shared (sy_file (sys_run (fresh_system FileInvalid) [eval_at 0 o; eval_at 0 o]).2) = (SegmentedFullWire, 4)
  /\ po_free_bytes o < pt_resume_free_bytes PressureThresholds_current.
Proof. by vm_compute. Qed.

(** A queue drop takes the state from the file again and forgets the bytes captured since. *)
Lemma queue_drop_forgets_unbacked :
  let c := note_full_capture 1000 (load FileMissing) in
  pp_unbacked_bytes (pc_state c) = 1000
  /\ pp_unbacked_bytes (pc_state (note_queue_drop works 5 c FileMissing).1.2) = 0.
Proof. by vm_compute. Qed.

End PressureSamples.
