(* ===== verification/Segments.v ===== *)
(** * Capture segments

    The store of captured bodies in [crates/sb-bodylog/src/lib.rs]: records are
    appended as checksummed frames to segment files and indexed in SQLite; a
    segment is sealed by a manifest; recovery scans what a crash left. A file is a
    string of bytes. Compression, checksums, digests and the JSON text of a record
    are parameters. Calls of the file system succeed, and a crash in the middle of
    an append leaves a prefix of what was to be written; which segment locks are
    free is an argument. File modes, directories, log lines and the custody of
    locks are left out. *)

From Stdlib Require Import ZArith Lia Ascii.
From stdpp Require Import base list strings gmap option.
From S2P Require Import Prelude Text Lines BTree Float Ir Value Framing FramingTheorems Pressure.

#[local] Open Scope Z_scope.
#[local] Open Scope switchback_scope.

Definition CAPTURE_SEGMENT_SCHEMA : string := "switchback/capture-segment@1".
Definition CAPTURE_SEGMENT_MAGIC : string := "SBCAP001".
Definition CAPTURE_GAP_SCHEMA : string := "switchback/capture-gap@1".
Definition CAPTURE_RECORD_MAGIC : string := "REC1".
Definition CAPTURE_RECORD_HEADER_BYTES : Z := 4 + 8 + 8 + 4.
Definition CAPTURE_SEGMENT_MAX_BYTES : Z := 64 * 1024 * 1024.
Definition CAPTURE_SEGMENT_ROTATE_MS : Z := 15 * 60 * 1000.
Definition CAPTURE_RECORD_MAX_BYTES : Z := 512 * 1024 * 1024.

Inductive CaptureStage :=
| ClientInbound | HeadroomInbound | HeadroomOutbound | UpstreamResponse | ClientResponse | ClientSession
| DerivedFact.

Definition capture_stage_as_str (s : CaptureStage) : string :=
  match s with
  | ClientInbound => "client_inbound"
  | HeadroomInbound => "headroom_inbound"
  | HeadroomOutbound => "headroom_outbound"
  | UpstreamResponse => "upstream_response"
  | ClientResponse => "client_response"
  | ClientSession => "client_session"
  | DerivedFact => "derived_fact"
  end.

Record BodyEventInput := mkBodyEventInput {
  be_request_id : string;
  be_capture_stage : CaptureStage;
  be_protocol : string;
  be_upstream : option string;
  be_model : option string;
  be_status : option Z;
  be_content_type : option string;
  be_metadata : Json;
  be_body : string
}.

Record BodyRecord := mkBodyRecord {
  bo_event_id : string;
  bo_request_id : string;
  bo_observed_at_unix_ms : Z;
  bo_capture_stage : string;
  bo_protocol : string;
  bo_upstream : option string;
  bo_model : option string;
  bo_status : option Z;
  bo_content_type : option string;
  bo_body_sha256 : string;
  bo_body_bytes : Z;
  bo_compressed_bytes : Z;
  bo_archive_path : string;
  bo_storage : string;
  bo_protected : bool;
  bo_redaction_state : string;
  bo_threshold_shrunk : bool;
  bo_metadata : Json
}.

Definition set_compressed_bytes (n : Z) (r : BodyRecord) : BodyRecord :=
  mkBodyRecord (bo_event_id r) (bo_request_id r) (bo_observed_at_unix_ms r) (bo_capture_stage r)
    (bo_protocol r) (bo_upstream r) (bo_model r) (bo_status r) (bo_content_type r) (bo_body_sha256 r)
    (bo_body_bytes r) n (bo_archive_path r) (bo_storage r) (bo_protected r) (bo_redaction_state r)
    (bo_threshold_shrunk r) (bo_metadata r).

Definition set_location (path storage : string) (r : BodyRecord) : BodyRecord :=
  mkBodyRecord (bo_event_id r) (bo_request_id r) (bo_observed_at_unix_ms r) (bo_capture_stage r)
    (bo_protocol r) (bo_upstream r) (bo_model r) (bo_status r) (bo_content_type r) (bo_body_sha256 r)
    (bo_body_bytes r) (bo_compressed_bytes r) path storage (bo_protected r) (bo_redaction_state r)
    (bo_threshold_shrunk r) (bo_metadata r).

Record SegmentFrame := mkSegmentFrame {
  sf_record : BodyRecord;
  sf_body : string
}.

Record SegmentManifest := mkSegmentManifest {
  mf_schema_version : string;
  mf_segment_file : string;
  mf_segment_sha256 : string;
  mf_segment_bytes : Z;
  mf_record_count : Z;
  mf_body_bytes : Z;
  mf_first_observed_at_unix_ms : option Z;
  mf_last_observed_at_unix_ms : option Z;
  mf_sealed : bool
}.

(** [Path::file_name] of a path that ends in a name. *)
Fixpoint file_name (path : string) : string :=
  match path with
  | EmptyString => EmptyString
  | String c rest =>
      if contains "/" path then file_name rest else path
  end.

Definition segment_would_exceed_limit (existing frame limit : Z) : bool :=
  (byte_len CAPTURE_SEGMENT_MAGIC <? existing) && (limit <? sat_add u64_max existing frame).

Section Segments.
Context (to_vec : BodyRecord -> string) (from_slice : string -> result BodyRecord string).
Context (zstd_encode zstd_decode : string -> result string string).
Context (crc32 : string -> Z) (sha256_hex : string -> string).

(** ** Frames *)

(** The payload of a frame: the length of the metadata, the metadata and the body. *)
Definition frame_payload (r : BodyRecord) (body : string) : string :=
  be_bytes 4 (byte_len (to_vec r)) ^^ to_vec r ^^ body.

(** The loop that settles the compressed length a record states of itself: [n]
    rounds are left. *)
Fixpoint encode_rounds (n : nat) (r : BodyRecord) (body compressed : string) (payload_len : Z)
  : result (BodyRecord * string * Z) string :=
  match n with
  | O => Ok (r, compressed, payload_len)
  | S n =>
      if 2 ^ 32 - 1 <? byte_len (to_vec r) then Err "capture segment metadata exceeds u32"
      else
        let payload := frame_payload r body in
        match zstd_encode payload with
        | Err e => Err e
        | Ok compressed =>
            if bo_compressed_bytes r =? byte_len compressed then Ok (r, compressed, byte_len payload)
            else encode_rounds n (set_compressed_bytes (byte_len compressed) r) body compressed (byte_len payload)
        end
  end.

(** Magic, lengths, checksum and the compressed payload. *)
Definition frame_bytes (compressed : string) (payload_len : Z) : string :=
  CAPTURE_RECORD_MAGIC ^^ be_bytes 8 (byte_len compressed) ^^ be_bytes 8 payload_len
  ^^ be_bytes 4 (crc32 compressed) ^^ compressed.

Definition encode_segment_frame (r : BodyRecord) (body : string) : result (BodyRecord * string) string :=
  match encode_rounds 4 r body EmptyString 0 with
  | Err e => Err e
  | Ok (r, compressed, payload_len) =>
      if (CAPTURE_RECORD_MAX_BYTES <? byte_len compressed) || (CAPTURE_RECORD_MAX_BYTES <? payload_len)
      then Err "capture segment record exceeds safety limit"
      else Ok (r, frame_bytes compressed payload_len)
  end.

(** The frame behind the header of [rest]: what is left after it, or nothing when
    its body is cut off. *)
Definition read_frame (rest : string) : result (option (SegmentFrame * string)) string :=
  let '(magic, rest) := (first_bytes 4 rest, drop_bytes 4 rest) in
  if negb (str_eqb magic CAPTURE_RECORD_MAGIC) then Err "capture segment record magic mismatch"
  else
    let compressed_len := read_be 8 0 rest in
    let payload_len := read_be 8 0 (drop_bytes 8 rest) in
    let checksum := read_be 4 0 (drop_bytes 16 rest) in
    let rest := drop_bytes 20 rest in
    if (CAPTURE_RECORD_MAX_BYTES <? compressed_len) || (CAPTURE_RECORD_MAX_BYTES <? payload_len)
    then Err "capture segment record exceeds safety limit"
    else if byte_len rest <? compressed_len then Ok None
    else
      let compressed := first_bytes (Z.to_nat compressed_len) rest in
      if negb (crc32 compressed =? checksum) then Err "capture segment record checksum mismatch"
      else
        let? payload := zstd_decode compressed in
        if negb (byte_len payload =? payload_len) || (byte_len payload <? 4)
        then Err "capture segment payload length mismatch"
        else
          let metadata_len := read_be 4 0 payload in
          let metadata_end := 4 + metadata_len in
          if byte_len payload <? metadata_end then Err "capture segment metadata is incomplete"
          else
            let? record := from_slice (first_bytes (Z.to_nat metadata_len) (drop_bytes 4 payload)) in
            let body := drop_bytes (Z.to_nat metadata_end) payload in
            if negb (bo_body_bytes record =? byte_len body) || negb (str_eqb (bo_body_sha256 record) (sha256_hex body))
            then Err "capture segment body integrity mismatch"
            else Ok (Some (mkSegmentFrame record body, drop_bytes (Z.to_nat compressed_len) rest)).

(** The loop of [scan_segment]: [kept] was read, [rest] is ahead. The second
    result is the file, cut when a partial tail is recovered. *)
Fixpoint scan_frames (fuel : nat) (recover_tail : bool) (kept rest : string)
  : result (list SegmentFrame) string * string :=
  match fuel with
  | O => (Ok [], kept ^^ rest)
  | S fuel =>
      if is_empty rest then (Ok [], kept)
      else if byte_len rest <? CAPTURE_RECORD_HEADER_BYTES then
        if recover_tail then (Ok [], kept)
        else (Err "capture segment has incomplete record header", kept ^^ rest)
      else match read_frame rest with
      | Err e => (Err e, kept ^^ rest)
      | Ok None =>
          if recover_tail then (Ok [], kept)
          else (Err "capture segment record body is incomplete", kept ^^ rest)
      | Ok (Some (frame, rest')) =>
          let read := first_bytes (String.length rest - String.length rest') rest in
          let '(frames, file) := scan_frames fuel recover_tail (kept ^^ read) rest' in
          (match frames with Ok frames => Ok (frame :: frames) | Err e => Err e end, file)
      end
  end.

Definition scan_segment (path : string) (recover_tail : bool) (file : string)
  : result (list SegmentFrame) string * string :=
  if byte_len file <? byte_len CAPTURE_SEGMENT_MAGIC
  then (Err ("capture segment header incomplete: " ^^ path), file)
  else if negb (str_eqb (first_bytes 8 file) CAPTURE_SEGMENT_MAGIC)
  then (Err ("capture segment magic mismatch: " ^^ path), file)
  else scan_frames (S (String.length file)) recover_tail (first_bytes 8 file) (drop_bytes 8 file).

Definition read_body_from_segment (path file body_sha256 : string) : result string string :=
  let? frames := (scan_segment path false file).1 in
  match List.find (fun f => str_eqb (bo_body_sha256 (sf_record f)) body_sha256) frames with
  | Some f => Ok (sf_body f)
  | None => Err "body blob not found in capture segment"
  end.

(** ** Manifests *)

Definition sum_body_bytes (frames : list SegmentFrame) : Z :=
  fold_left (fun n f => sat_add u64_max n (bo_body_bytes (sf_record f))) frames 0.

Definition observed_of (frames : list SegmentFrame) : option Z :=
  match frames with f :: _ => Some (bo_observed_at_unix_ms (sf_record f)) | [] => None end.

(** The manifest [write_segment_manifest] states of a file called [name]. *)
Definition segment_manifest (name file : string) (frames : list SegmentFrame) (sealed : bool)
  : SegmentManifest :=
  mkSegmentManifest CAPTURE_SEGMENT_SCHEMA name (sha256_hex file) (byte_len file)
    (Z.of_nat (length frames)) (sum_body_bytes frames) (observed_of frames) (observed_of (rev frames)) sealed.

(** [read_verified_segment_manifest] where a manifest file exists: [m] is what it
    parses to. *)
Definition verify_manifest (path file : string) (m : result SegmentManifest string)
  : result SegmentManifest string :=
  let? m := m in
  if negb (str_eqb (mf_schema_version m) CAPTURE_SEGMENT_SCHEMA)
  then Err ("unsupported capture segment manifest schema at " ^^ path ^^ ".manifest.json")
  else if negb (str_eqb (mf_segment_file m) (file_name path))
  then Err ("capture segment manifest file mismatch at " ^^ path ^^ ".manifest.json")
  else if negb (mf_segment_bytes m =? byte_len file) || negb (str_eqb (mf_segment_sha256 m) (sha256_hex file))
  then Err ("capture segment checksum proof failed at " ^^ path)
  else Ok m.

End Segments.

(** ** The index *)

Record BlobRow := mkBlobRow {
  bb_body_bytes : Z;
  bb_compressed_bytes : Z;
  bb_storage : string;
  bb_archive_path : string;
  bb_protected : bool;
  bb_created_at_unix_ms : Z
}.

Record SegmentRow := mkSegmentRow {
  sp_storage : string;
  sp_segment_sha256 : option string;
  sp_segment_bytes : Z;
  sp_record_count : Z;
  sp_body_bytes : Z;
  sp_first_observed_at_unix_ms : Z;
  sp_last_observed_at_unix_ms : Z;
  sp_sealed : bool
}.

(** [body_blobs] by digest, [body_events] in the order of their row ids,
    [body_segments] by path. *)
Record Index := mkIndex {
  ix_blobs : gmap string BlobRow;
  ix_events : list BodyRecord;
  ix_segments : gmap string SegmentRow
}.

Definition empty_index : Index := mkIndex ∅ [] ∅.

Definition find_event (id : string) (l : list BodyRecord) : option BodyRecord :=
  List.find (fun e => str_eqb (bo_event_id e) id) l.

Definition insert_event_only_on (ix : Index) (r : BodyRecord) : result unit string * Index :=
  match find_event (bo_event_id r) (ix_events ix) with
  | Some _ => (Err "UNIQUE constraint failed: body_events.event_id", ix)
  | None => (Ok tt, mkIndex (ix_blobs ix) (ix_events ix ++ [r]) (ix_segments ix))
  end.

Definition insert_blob (ix : Index) (r : BodyRecord) : Index :=
  mkIndex
    (match ix_blobs ix !! bo_body_sha256 r with
     | Some _ => ix_blobs ix
     | None => <[bo_body_sha256 r := mkBlobRow (bo_body_bytes r) (bo_compressed_bytes r) (bo_storage r)
                  (bo_archive_path r) (bo_protected r) (bo_observed_at_unix_ms r)]> (ix_blobs ix)
     end) (ix_events ix) (ix_segments ix).

(** Two statements: the blob stays when the event is refused, unless the caller
    rolls a transaction back. *)
Definition insert_record_on (ix : Index) (r : BodyRecord) : result unit string * Index :=
  insert_event_only_on (insert_blob ix r) r.

Definition recovery_identity_divergence (existing replay : BodyRecord) : list string :=
  (if str_eqb (bo_request_id existing) (bo_request_id replay) then [] else ["request_id"])
  ++ (if bo_observed_at_unix_ms existing =? bo_observed_at_unix_ms replay then [] else ["observed_at_unix_ms"])
  ++ (if str_eqb (bo_capture_stage existing) (bo_capture_stage replay) then [] else ["capture_stage"])
  ++ (if str_eqb (bo_protocol existing) (bo_protocol replay) then [] else ["protocol"])
  ++ (if str_eqb (bo_body_sha256 existing) (bo_body_sha256 replay) then [] else ["body_sha256"])
  ++ (if bo_body_bytes existing =? bo_body_bytes replay then [] else ["body_bytes"]).

Definition reconcile_recovered_location_on (ix : Index) (r : BodyRecord) : Index :=
  mkIndex (ix_blobs ix)
    (map (fun e => if str_eqb (bo_event_id e) (bo_event_id r)
                   then set_location (bo_archive_path r) (bo_storage r) e else e) (ix_events ix))
    (ix_segments ix).

(** The record that is equal to [r] is rewritten to itself, which the code skips. *)
Definition insert_recovered_record_on (ix : Index) (r : BodyRecord) : result unit string * Index :=
  match find_event (bo_event_id r) (ix_events ix) with
  | None => insert_record_on ix r
  | Some existing =>
      match recovery_identity_divergence existing r with
      | [] => (Ok tt, reconcile_recovered_location_on ix r)
      | diverged =>
          (Err ("capture recovery event id collision for " ^^ bo_event_id r
                ^^ ": identity fields differ (" ^^ join ", " diverged ^^ ")"), ix)
      end
  end.

Definition upsert_segment_projection_on (ix : Index) (r : BodyRecord) : Index :=
  let at_ := bo_observed_at_unix_ms r in
  let row := match ix_segments ix !! bo_archive_path r with
    | None => mkSegmentRow (bo_storage r) None (bo_compressed_bytes r) 1 (bo_body_bytes r) at_ at_ false
    | Some o => mkSegmentRow (bo_storage r) (sp_segment_sha256 o) (sp_segment_bytes o + bo_compressed_bytes r)
        (sp_record_count o + 1) (sp_body_bytes o + bo_body_bytes r)
        (Z.min (sp_first_observed_at_unix_ms o) at_) (Z.max (sp_last_observed_at_unix_ms o) at_) (sp_sealed o)
    end in
  mkIndex (ix_blobs ix) (ix_events ix) (<[bo_archive_path r := row]> (ix_segments ix)).

Definition upsert_segment_manifest_projection_on (ix : Index) (path storage : string) (m : SegmentManifest)
    (recovered_body_bytes : option Z) : Index :=
  match mf_first_observed_at_unix_ms m, mf_last_observed_at_unix_ms m with
  | Some first, Some last =>
      let body_bytes := default (mf_body_bytes m) recovered_body_bytes in
      let kept := match ix_segments ix !! path with
        | Some o => if 0 <? body_bytes then body_bytes else sp_body_bytes o
        | None => body_bytes
        end in
      mkIndex (ix_blobs ix) (ix_events ix)
        (<[path := mkSegmentRow storage (Some (mf_segment_sha256 m)) (mf_segment_bytes m)
                     (mf_record_count m) kept first last (mf_sealed m)]> (ix_segments ix))
  | _, _ => ix
  end.

(** *** Queries *)

Record BodyEventQuery := mkBodyEventQuery {
  bq_request_id : option string;
  bq_capture_stage : option CaptureStage;
  bq_protocol : option string;
  bq_limit : Z
}.

(** [column = ?] for a filter that may be absent. *)
Definition matches_filter (f : option string) (v : string) : bool :=
  match f with Some w => str_eqb v w | None => true end.

(** [ORDER BY observed_at_unix_ms DESC, rowid DESC] *)
Definition observed_desc (a b : BodyRecord) : comparison :=
  Z.compare (bo_observed_at_unix_ms b) (bo_observed_at_unix_ms a).

Definition query_events (ix : Index) (q : BodyEventQuery) : list BodyRecord :=
  take (Z.to_nat (Z.min 1000 (Z.max 1 (bq_limit q))))
    (sort_by observed_desc (rev (List.filter (fun e =>
       matches_filter (bq_request_id q) (bo_request_id e)
       && matches_filter (capture_stage_as_str <$> bq_capture_stage q) (bo_capture_stage e)
       && matches_filter (bq_protocol q) (bo_protocol e)) (ix_events ix)))).

Definition events_for_request (ix : Index) (request_id : string) : list BodyRecord :=
  query_events ix (mkBodyEventQuery (Some request_id) None None 100).

Definition latest_events (ix : Index) (limit : Z) : list BodyRecord :=
  query_events ix (mkBodyEventQuery None None None limit).

(** ** The logger *)

Record SegmentFile := mkSegmentFile {
  sg_bytes : string;
  sg_manifest : option (result SegmentManifest string)
}.

Record ActiveSegment := mkActiveSegment {
  ac_path : string;
  ac_storage : string;
  ac_bucket_start_ms : Z;
  ac_last_write_at_unix_ms : Z
}.

Record BodyLoggerConfig := mkBodyLoggerConfig {
  bc_state_dir : string;
  bc_archive_root : string;
  bc_inline_threshold_bytes : Z
}.

Definition spool_dir (c : BodyLoggerConfig) : string := bc_state_dir c ^^ "/body/spool".

(** The segment files by path, the paths whose lock is held (by this logger or by
    another), the index, and what the logger keeps in memory. *)
Record Logger := mkLogger {
  lg_files : gmap string SegmentFile;
  lg_locked : gset string;
  lg_index : Index;
  lg_active : option ActiveSegment;
  lg_next_event_id : Z;
  lg_next_segment_id : Z;
  lg_pressure : PressureController
}.

Definition with_files (files : gmap string SegmentFile) (s : Logger) : Logger :=
  mkLogger files (lg_locked s) (lg_index s) (lg_active s) (lg_next_event_id s) (lg_next_segment_id s)
    (lg_pressure s).
Definition with_locked (locked : gset string) (s : Logger) : Logger :=
  mkLogger (lg_files s) locked (lg_index s) (lg_active s) (lg_next_event_id s) (lg_next_segment_id s)
    (lg_pressure s).
Definition with_index (ix : Index) (s : Logger) : Logger :=
  mkLogger (lg_files s) (lg_locked s) ix (lg_active s) (lg_next_event_id s) (lg_next_segment_id s)
    (lg_pressure s).
Definition with_active (a : option ActiveSegment) (s : Logger) : Logger :=
  mkLogger (lg_files s) (lg_locked s) (lg_index s) a (lg_next_event_id s) (lg_next_segment_id s)
    (lg_pressure s).
Definition with_event_id (n : Z) (s : Logger) : Logger :=
  mkLogger (lg_files s) (lg_locked s) (lg_index s) (lg_active s) n (lg_next_segment_id s) (lg_pressure s).
Definition with_segment_id (n : Z) (s : Logger) : Logger :=
  mkLogger (lg_files s) (lg_locked s) (lg_index s) (lg_active s) (lg_next_event_id s) n (lg_pressure s).
Definition with_pressure (p : PressureController) (s : Logger) : Logger :=
  mkLogger (lg_files s) (lg_locked s) (lg_index s) (lg_active s) (lg_next_event_id s) (lg_next_segment_id s) p.

(** An operation of the logger: a result or an error, and the logger after it. *)
Definition M (A : Type) : Type := Logger -> result A string * Logger.

Definition ret {A} (a : A) : M A := fun s => (Ok a, s).
Definition fail {A} (e : string) : M A := fun s => (Err e, s).
Definition bind {A B} (m : M A) (k : A -> M B) : M B :=
  fun s => match m s with
           | (Ok a, s') => k a s'
           | (Err e, s') => (Err e, s')
           end.
Definition modify (f : Logger -> Logger) : M unit := fun s => (Ok tt, f s).
Definition get {A} (f : Logger -> A) : M A := fun s => (Ok (f s), s).

#[local] Notation "'let!' x := m 'in' k" := (bind m (fun x => k))
  (at level 10, x pattern, m at level 100, k at level 200).

Definition wrap64 (n : Z) : Z := n mod 2 ^ 64.
Definition DAY_MS : Z := 86400000.
Definition day_floor_ms (unix_ms : Z) : Z := unix_ms / DAY_MS * DAY_MS.

(** [div_euclid] by a positive constant rounds down, as [Z.div] does. *)
Definition bucket_start (observed_at_unix_ms : Z) : Z :=
  observed_at_unix_ms / CAPTURE_SEGMENT_ROTATE_MS * CAPTURE_SEGMENT_ROTATE_MS.

(** What a [write_all] does: all of it, or some bytes and then an error. *)
Definition WriteOutcome := option nat.

Section Logging.
Context (cfg : BodyLoggerConfig) (pid : Z).
Context (date_parts : Z -> Z * Z * Z).
Context (to_vec : BodyRecord -> string) (from_slice : string -> result BodyRecord string).
Context (zstd_encode zstd_decode : string -> result string string).
Context (crc32 : string -> Z) (sha256_hex : string -> string).

#[local] Abbreviation scan := (scan_segment from_slice zstd_decode crc32 sha256_hex).
#[local] Abbreviation encode := (encode_segment_frame to_vec zstd_encode crc32).
#[local] Abbreviation verify := (verify_manifest sha256_hex).

Definition new_event_id (now_ms : Z) : M string :=
  let! seq := get lg_next_event_id in
  let! _ := modify (with_event_id (wrap64 (seq + 1))) in
  ret ("body_" ^^ fmt_int now_ms ^^ "_p" ^^ fmt_int pid ^^ "_" ^^ fmt_int seq).

(** [NEXT_SEGMENT_ID.fetch_add(1)] *)
Definition next_segment_id : M Z :=
  let! seq := get lg_next_segment_id in
  let! _ := modify (with_segment_id (wrap64 (seq + 1))) in
  ret seq.

Definition get_file (path : string) : M SegmentFile :=
  let! files := get lg_files in
  match files !! path with
  | Some f => ret f
  | None => fail "No such file or directory (os error 2)"
  end.

Definition put_file (path : string) (f : SegmentFile) : M unit :=
  modify (fun s => with_files (<[path := f]> (lg_files s)) s).

Definition lift {A} (r : result A string) : M A := fun s => (r, s).

(** [scan_segment] on the file at [path], which it may cut. *)
Definition scan_file (path : string) (recover_tail : bool) : M (list SegmentFrame) :=
  let! f := get_file path in
  let '(frames, bytes) := scan path recover_tail (sg_bytes f) in
  let! _ := put_file path (mkSegmentFile bytes (sg_manifest f)) in
  lift frames.

Definition write_segment_manifest (path : string) (frames : list SegmentFrame) (sealed : bool) : M unit :=
  let! f := get_file path in
  let! _ := next_segment_id in
  put_file path (mkSegmentFile (sg_bytes f)
    (Some (Ok (segment_manifest sha256_hex (file_name path) (sg_bytes f) frames sealed)))).

Definition read_verified_segment_manifest (path : string) : M (option SegmentManifest) :=
  let! f := get_file path in
  match sg_manifest f with
  | None => ret None
  | Some m => let! m := lift (verify path (sg_bytes f) m) in ret (Some m)
  end.

Definition seal_segment (path : string) : M unit :=
  let! frames := scan_file path true in
  write_segment_manifest path frames true.

Definition unlock (path : string) : M unit :=
  modify (fun s => with_locked (lg_locked s ∖ {[path]}) s).

(** Dropping the segment closes its lock, also when sealing failed. *)
Definition seal_active_segment (a : ActiveSegment) : M unit := fun s =>
  let '(r, s) := seal_segment (ac_path a) s in
  (r, (unlock (ac_path a) s).2).

Definition day_dir (day_ms : Z) : string :=
  let '(y, m, d) := date_parts day_ms in
  bc_archive_root cfg ^^ "/" ^^ pad_digits 4 y ^^ "/" ^^ pad_digits 2 m ^^ "/" ^^ pad_digits 2 d.

Definition segment_root (storage : string) (bucket_start_ms : Z) : string :=
  let day_ms := day_floor_ms bucket_start_ms in
  if str_eqb storage "archive_segment" then day_dir day_ms ^^ "/segments"
  else let '(y, m, d) := date_parts day_ms in
    spool_dir cfg ^^ "/segments/" ^^ pad_digits 4 y ^^ "/" ^^ pad_digits 2 m ^^ "/" ^^ pad_digits 2 d.

(** [create_new] refuses a path that exists. *)
Definition create_segment_at (path storage : string) (bucket_start_ms : Z) : M ActiveSegment :=
  let! locked := get lg_locked in
  if bool_decide (path ∈ locked) then fail ("cannot lock new capture segment " ^^ path)
  else
    let! files := get lg_files in
    match files !! path with
    | Some _ => fail "File exists (os error 17)"
    | None =>
        let! _ := put_file path (mkSegmentFile CAPTURE_SEGMENT_MAGIC None) in
        let! _ := modify (with_locked ({[path]} ∪ locked)) in
        ret (mkActiveSegment path storage bucket_start_ms bucket_start_ms)
    end.

Definition create_segment (storage : string) (bucket_start_ms : Z) : M ActiveSegment :=
  let! sequence := next_segment_id in
  create_segment_at (segment_root storage bucket_start_ms ^^ "/capture-" ^^ fmt_int bucket_start_ms
    ^^ "-p" ^^ fmt_int pid ^^ "-" ^^ fmt_int sequence ^^ ".sbcap") storage bucket_start_ms.

(** The writer lets its segment go before it seals it. *)
Definition seal_current (a : ActiveSegment) : M unit :=
  let! _ := modify (with_active None) in
  seal_active_segment a.

Definition open_segment (storage : string) (bucket_start_ms : Z) : M ActiveSegment :=
  let! a := create_segment storage bucket_start_ms in
  let! _ := modify (with_active (Some a)) in
  ret a.

(** The segment a record of this storage and bucket goes to. *)
Definition active_for (storage : string) (bucket_start_ms : Z) : M ActiveSegment :=
  let! active := get lg_active in
  match active with
  | Some a =>
      if str_eqb (ac_storage a) storage && (ac_bucket_start_ms a =? bucket_start_ms) then ret a
      else let! _ := seal_current a in open_segment storage bucket_start_ms
  | None => open_segment storage bucket_start_ms
  end.

Definition append_bytes (path frame : string) (wr : WriteOutcome) : M unit := fun s =>
  let f := default (mkSegmentFile EmptyString None) (lg_files s !! path) in
  match wr with
  | None => put_file path (mkSegmentFile (sg_bytes f ^^ frame) (sg_manifest f)) s
  | Some n =>
      (Err "write failed",
       (put_file path (mkSegmentFile (sg_bytes f ^^ first_bytes n frame) (sg_manifest f)) s).2)
  end.

Definition existing_bytes (s : Logger) (path : string) : Z :=
  match lg_files s !! path with Some f => byte_len (sg_bytes f) | None => 0 end.

Definition touch (observed_at_unix_ms : Z) (a : ActiveSegment) : ActiveSegment :=
  mkActiveSegment (ac_path a) (ac_storage a) (ac_bucket_start_ms a) observed_at_unix_ms.

(** The segment after a full one, and the frame as it is encoded for it; a segment
    that is given up on is unlocked. *)
Definition reopen (storage : string) (bucket_start_ms : Z) (r : BodyRecord) (body : string)
  : M (ActiveSegment * (BodyRecord * string)) :=
  let! a := create_segment storage bucket_start_ms in
  fun s => match encode (set_location (ac_path a) (ac_storage a) r) body with
           | Ok enc => (Ok (a, enc), with_active (Some a) s)
           | Err e => (Err e, (unlock (ac_path a) s).2)
           end.

Definition append_segment_frame (archive_available : bool) (wr : WriteOutcome) (r : BodyRecord)
    (body : string) : M BodyRecord :=
  let storage := if archive_available then "archive_segment" else "spool_segment" in
  let bucket_start_ms := bucket_start (bo_observed_at_unix_ms r) in
  let! a := active_for storage bucket_start_ms in
  let! enc := lift (encode (set_location (ac_path a) (ac_storage a) r) body) in
  let! existing := get (fun s => existing_bytes s (ac_path a)) in
  let! (a, (r, frame)) :=
    if segment_would_exceed_limit existing (byte_len enc.2) CAPTURE_SEGMENT_MAX_BYTES
    then let! _ := seal_current a in reopen storage bucket_start_ms enc.1 body
    else ret (a, enc) in
  let! _ := append_bytes (ac_path a) frame wr in
  let! _ := modify (with_active (Some (touch (bo_observed_at_unix_ms r) a))) in
  ret r.

(** The index's transactions: whether one begins and whether it commits. *)
Record Db := mkDb { db_begin : result unit string; db_commit : result unit string }.

Definition note_full_capture_on (r : BodyRecord) : M unit :=
  modify (fun s => with_pressure (note_full_capture (bo_body_bytes r) (lg_pressure s)) s).

(** What of the transaction reaches the index: all of it, or nothing. *)
Definition index_record (db : Db) (r : BodyRecord) : M unit := fun s =>
  match insert_record_on (lg_index s) r with
  | (Err e, _) => (Err e, s)
  | (Ok _, ix) =>
      match db_commit db with
      | Err e => (Err e, s)
      | Ok _ => (Ok tt, with_index (upsert_segment_projection_on ix r) s)
      end
  end.

Definition fresh_record (event_id : string) (i : BodyEventInput) (observed_at_unix_ms : Z) : BodyRecord :=
  mkBodyRecord event_id (be_request_id i) observed_at_unix_ms (capture_stage_as_str (be_capture_stage i))
    (be_protocol i) (be_upstream i) (be_model i) (be_status i) (be_content_type i)
    (sha256_hex (be_body i)) (byte_len (be_body i)) 0 EmptyString EmptyString true "raw_local"
    (bc_inline_threshold_bytes cfg <? byte_len (be_body i)) (be_metadata i).

Definition record_segmented_at (archive_available : bool) (wr : WriteOutcome) (db : Db)
    (i : BodyEventInput) (observed_at_unix_ms : Z) : M BodyRecord :=
  let! _ := lift (db_begin db) in
  let! id := new_event_id observed_at_unix_ms in
  let! r := append_segment_frame archive_available wr (fresh_record id i observed_at_unix_ms) (be_body i) in
  let! _ := index_record db r in
  let! _ := note_full_capture_on r in
  ret r.

Record BodyCaptureGap := mkBodyCaptureGap {
  cg_reason : string;
  cg_body_sha256 : string;
  cg_body_bytes : Z
}.

Definition gap_json (g : BodyCaptureGap) : Json :=
  obj [("reason", JString (cg_reason g)); ("body_sha256", JString (cg_body_sha256 g));
       ("body_bytes", JInt (cg_body_bytes g))].

Definition gap_record (event_id : string) (now : Z) (i : BodyEventInput) (admission : PressureStatus)
    (g : BodyCaptureGap) (redaction_state : string) : BodyRecord :=
  mkBodyRecord event_id (be_request_id i) now (capture_stage_as_str (be_capture_stage i))
    (be_protocol i) (be_upstream i) (be_model i) (be_status i) (be_content_type i)
    (cg_body_sha256 g) (cg_body_bytes g) 0 EmptyString "metadata_only" false redaction_state false
    (obj [("schema", JString CAPTURE_GAP_SCHEMA);
          ("pressure_reasons", JArray (map JString (ps_reasons admission)));
          ("gap", gap_json g); ("capture_metadata", be_metadata i)]).

Definition record_gap_inner (now : Z) (i : BodyEventInput) (admission : PressureStatus)
    (g : BodyCaptureGap) (redaction_state : string) : M BodyRecord :=
  let! id := new_event_id now in
  let r := gap_record id now i admission g redaction_state in
  let! _ := (fun s => let '(res, ix) := insert_event_only_on (lg_index s) r in (res, with_index ix s)) in
  let! _ := modify (fun s => with_pressure (note_metadata_only_recorded (lg_pressure s)) s) in
  ret r.

Definition record_metadata_only (now : Z) (i : BodyEventInput) (admission : PressureStatus) : M BodyRecord :=
  record_gap_inner now i admission
    (mkBodyCaptureGap "pressure_policy" (sha256_hex (be_body i)) (byte_len (be_body i))) "metadata_only_pressure".

Definition record_capture_gap (now : Z) (i : BodyEventInput) (admission : PressureStatus)
    (g : BodyCaptureGap) : M BodyRecord :=
  record_gap_inner now i admission g "metadata_only_capture_gap".

Definition seal_active : M (option string) :=
  let! active := get lg_active in
  match active with
  | None => ret None
  | Some a => let! _ := seal_current a in ret (Some (ac_path a))
  end.

Definition seal_idle_at (now minimum_idle_ms : Z) : M (option string) :=
  let! active := get lg_active in
  match active with
  | Some a =>
      if Z.max 0 minimum_idle_ms <=? i64_sat_sub now (ac_last_write_at_unix_ms a)
      then let! _ := seal_current a in ret (Some (ac_path a))
      else ret None
  | None => ret None
  end.

Definition is_segment_storage (storage : string) : bool :=
  str_eqb storage "archive_segment" || str_eqb storage "spool_segment".

(** [read_legacy] reads a blob file of its own. *)
Definition read_blob (read_legacy : string -> result string string) (s : Logger) (body_sha256 : string)
  : result string string :=
  match ix_blobs (lg_index s) !! body_sha256 with
  | None => Err "body blob not indexed"
  | Some row =>
      if is_segment_storage (bb_storage row) then
        match lg_files s !! bb_archive_path row with
        | None => Err "No such file or directory (os error 2)"
        | Some f => read_body_from_segment from_slice zstd_decode crc32 sha256_hex
                      (bb_archive_path row) (sg_bytes f) body_sha256
        end
      else let? compressed := read_legacy (bb_archive_path row) in zstd_decode compressed
  end.

(** ** Recovery *)

Definition segment_storage (path : string) : string :=
  match strip_prefix (spool_dir cfg ^^ "/segments/") path with
  | Some _ => "spool_segment"
  | None => "archive_segment"
  end.

(** A frame that cannot be reconciled is counted and skipped; a frame that cannot be
    inserted in an index that is being rebuilt ends the recovery. *)
Definition replay_frame (rebuild_index : bool) (path : string) (f : SegmentFrame) : M unit := fun s =>
  let r := set_location path (segment_storage path) (sf_record f) in
  if rebuild_index
  then let '(res, ix) := insert_record_on (lg_index s) r in (res, with_index ix s)
  else (Ok tt, with_index (insert_recovered_record_on (lg_index s) r).2 s).

Fixpoint for_each {A} (f : A -> M unit) (l : list A) : M unit :=
  match l with
  | [] => ret tt
  | x :: l => let! _ := f x in for_each f l
  end.

Definition verified_manifest (path : string) : M SegmentManifest :=
  let! m := read_verified_segment_manifest path in
  match m with
  | Some m => ret m
  | None => fail "capture segment manifest disappeared"
  end.

Definition project_manifest (path : string) (m : SegmentManifest) (recovered : option Z) : M unit :=
  modify (fun s => with_index
    (upsert_segment_manifest_projection_on (lg_index s) path (segment_storage path) m recovered) s).

Definition recover_segment (rebuild_index : bool) (path : string) : M unit :=
  let! locked := get lg_locked in
  if bool_decide (path ∈ locked) then ret tt
  else
    let! f := get_file path in
    let sealed := match sg_manifest f with Some _ => true | None => false end in
    if negb rebuild_index && sealed then
      let! m := verified_manifest path in
      project_manifest path m None
    else
      let! frames :=
        if sealed then let! _ := verified_manifest path in scan_file path false
        else scan_file path true in
      let! _ := for_each (replay_frame rebuild_index path) frames in
      let! _ := if sealed then ret tt else write_segment_manifest path frames true in
      let! m := verified_manifest path in
      project_manifest path m (Some (sum_body_bytes frames)).

(** [paths] is the listing of the archive, of the spool's segments and of the
    archive beside the index, sorted and without duplicates. *)
Definition recover_segments (rebuild_index : bool) (paths : list string) : M unit :=
  for_each (recover_segment rebuild_index) paths.

Definition metadata_only_event_count (ix : Index) : Z :=
  Z.of_nat (length (List.filter (fun e => str_eqb (bo_storage e) "metadata_only") (ix_events ix))).

(** [BodyLogger::new] from the index file on: [index] is what the file holds. *)
Definition start (index : option Index) (paths : list string) : M unit :=
  let ix := default empty_index index in
  let! _ := modify (with_index ix) in
  let! _ := modify (fun s =>
    with_pressure (seed_metadata_only_count (metadata_only_event_count ix) (lg_pressure s)) s) in
  recover_segments (match index with None => true | Some _ => false end) paths.

End Logging.
