(* ===== verification/SegmentTheorems.v ===== *)
(** * Capture segments: theorems

    What is written is read back; whatever a crash leaves, recovery restores the
    store and a lost index is rebuilt from the segments; what a retry after a torn
    write does. *)

From Stdlib Require Import ZArith Lia Ascii.
From stdpp Require Import base list strings gmap option.
From S2P Require Import Prelude Text Lines BTree Float Ir Value Framing FramingTheorems Pressure Segments.

#[local] Open Scope Z_scope.
#[local] Open Scope switchback_scope.

(** What the code relies on: a record of faithful metadata is read back as it was
    written, decompression undoes compression, and a checksum fits 32 bits. *)
Class CodecLaws (faithful : Json -> Prop) (to_vec : BodyRecord -> string)
    (from_slice : string -> result BodyRecord string)
    (zstd_encode zstd_decode : string -> result string string) (crc32 : string -> Z) : Prop := {
  law_record : forall r, faithful (bo_metadata r) -> from_slice (to_vec r) = Ok r;
  law_zstd : forall p c, zstd_encode p = Ok c -> zstd_decode c = Ok p;
  law_crc : forall s, 0 <= crc32 s < 2 ^ 32
}.

Section Frames.
Context (faithful : Json -> Prop).
Context (to_vec : BodyRecord -> string) (from_slice : string -> result BodyRecord string).
Context (zstd_encode zstd_decode : string -> result string string).
Context (crc32 : string -> Z) (sha256_hex : string -> string).
Context `{!CodecLaws faithful to_vec from_slice zstd_encode zstd_decode crc32}.

#[local] Abbreviation scan := (scan_segment from_slice zstd_decode crc32 sha256_hex).
#[local] Abbreviation scan_loop := (scan_frames from_slice zstd_decode crc32 sha256_hex).
#[local] Abbreviation encode := (encode_segment_frame to_vec zstd_encode crc32).
#[local] Abbreviation payload_of := (frame_payload to_vec).

(** The record states the length and the digest of its body. *)
Definition describes (r : BodyRecord) (body : string) : Prop :=
  bo_body_bytes r = byte_len body /\ bo_body_sha256 r = sha256_hex body /\ faithful (bo_metadata r).

(** [b] is the frame of [f]. *)
Definition frame_of (f : SegmentFrame) (b : string) : Prop :=
  describes (sf_record f) (sf_body f) /\
  exists c, zstd_encode (payload_of (sf_record f) (sf_body f)) = Ok c
    /\ b = frame_bytes crc32 c (byte_len (payload_of (sf_record f) (sf_body f)))
    /\ byte_len (to_vec (sf_record f)) <= 2 ^ 32 - 1
    /\ byte_len c <= CAPTURE_RECORD_MAX_BYTES
    /\ byte_len (payload_of (sf_record f) (sf_body f)) <= CAPTURE_RECORD_MAX_BYTES.

Lemma byte_len_app a b : byte_len (a ^^ b) = byte_len a + byte_len b.
Proof. unfold byte_len. rewrite length_append. lia. Qed.

Lemma byte_len_be n z : byte_len (be_bytes n z) = Z.of_nat n.
Proof. unfold byte_len. by rewrite length_be. Qed.

Lemma byte_len_pos s : 0 <= byte_len s.
Proof. unfold byte_len. lia. Qed.

Lemma drop_two a b c n : n = (String.length a + String.length b)%nat -> drop_bytes n (a ^^ b ^^ c) = c.
Proof. intros ->. rewrite <- append_assoc. apply drop_prefix. by rewrite length_append. Qed.

Lemma drop_three a b c d n :
  n = (String.length a + String.length b + String.length c)%nat -> drop_bytes n (a ^^ b ^^ c ^^ d) = d.
Proof. intros ->. rewrite <- (append_assoc a). apply drop_two. by rewrite length_append. Qed.

(** *** One frame *)

Lemma describes_sized n r body : describes r body -> describes (set_compressed_bytes n r) body.
Proof. done. Qed.

Lemma encode_rounds_spec body : forall n r c0 l0 r' c l,
  encode_rounds to_vec zstd_encode (S n) r body c0 l0 = Ok (r', c, l) ->
  exists k, r' = set_compressed_bytes (byte_len c) (set_compressed_bytes k r)
    /\ zstd_encode (payload_of (set_compressed_bytes k r) body) = Ok c
    /\ l = byte_len (payload_of (set_compressed_bytes k r) body)
    /\ byte_len (to_vec (set_compressed_bytes k r)) <= 2 ^ 32 - 1.
Proof.
  intros n; induction n as [|n IH]; intros r c0 l0 r' c l;
    [|change (encode_rounds to_vec zstd_encode (S (S n)) r body c0 l0) with
        (if 2 ^ 32 - 1 <? byte_len (to_vec r) then Err "capture segment metadata exceeds u32"
         else match zstd_encode (payload_of r body) with
         | Err e => Err e
         | Ok c => if bo_compressed_bytes r =? byte_len c then Ok (r, c, byte_len (payload_of r body))
             else encode_rounds to_vec zstd_encode (S n) (set_compressed_bytes (byte_len c) r) body c
                    (byte_len (payload_of r body))
         end)].
  all: assert (Hr : set_compressed_bytes (bo_compressed_bytes r) r = r) by (by destruct r).
  1: cbn [encode_rounds]. all: destruct (Z.ltb_spec (2 ^ 32 - 1) (byte_len (to_vec r))) as [|Hl]; [done|].
  all: destruct (zstd_encode (payload_of r body)) as [c1|] eqn:Hc; [|done].
  all: destruct (Z.eqb_spec (bo_compressed_bytes r) (byte_len c1)) as [He|He].
  - intros [= <- <- <-]. exists (bo_compressed_bytes r). rewrite Hr, <- He, Hr. done.
  - intros [= <- <- <-]. exists (bo_compressed_bytes r). by rewrite Hr.
  - intros [= <- <- <-]. exists (bo_compressed_bytes r). rewrite Hr, <- He, Hr. done.
  - intros H. apply IH in H as (k & -> & Hz & -> & Hm). by exists k.
Qed.

(** What is written for a record is the frame of that record, but for the compressed
    length the record states of itself. *)
Lemma encode_frame_of r body r' b :
  describes r body -> encode r body = Ok (r', b) ->
  exists k n, frame_of (mkSegmentFrame (set_compressed_bytes k r) body) b /\ r' = set_compressed_bytes n r.
Proof.
  intros Hd. unfold encode_segment_frame.
  destruct (encode_rounds _ _ 4 r body EmptyString 0) as [[[r1 c] l]|] eqn:E; [|done].
  apply encode_rounds_spec in E as (k & -> & Hz & -> & Hm).
  destruct (_ || _) eqn:Hb; [done|]. apply orb_false_iff in Hb as [H1 H2].
  apply Z.ltb_ge in H1, H2. intros [= <- <-]. exists k, (byte_len c). split; [|by destruct r].
  split; [by apply describes_sized|]. exists c. done.
Qed.

Lemma max_bytes : CAPTURE_RECORD_MAX_BYTES = 536870912.
Proof. done. Qed.

Lemma read_frame_of f b rest :
  frame_of f b ->
  read_frame from_slice zstd_decode crc32 sha256_hex (b ^^ rest) = Ok (Some (f, rest)).
Proof.
  intros [(Hlen & Hsha & Hf) (c & Hz & -> & Hm & Hc & Hp)]. destruct f as [r body]. cbn [sf_record sf_body] in *.
  unfold read_frame, frame_bytes. rewrite !append_assoc.
  rewrite (first_prefix _ _ 4), (drop_prefix _ _ 4) by done. rewrite str_eqb_refl. cbn [negb].
  pose proof (byte_len_pos c). pose proof (byte_len_pos (payload_of r body)).
  pose proof (byte_len_pos (to_vec r)). pose proof max_bytes as Hmax.
  rewrite read_be_value by (change (256 ^ Z.of_nat 8) with 18446744073709551616; lia).
  rewrite (drop_prefix _ _ 8) by (by rewrite length_be).
  rewrite read_be_value by (change (256 ^ Z.of_nat 8) with 18446744073709551616; lia).
  rewrite (drop_two _ _ _ 16) by (by rewrite !length_be).
  rewrite read_be_value by apply law_crc.
  rewrite (drop_three _ _ _ _ 20) by (by rewrite !length_be).
  rewrite (proj2 (Z.ltb_ge _ _) Hc), (proj2 (Z.ltb_ge _ _) Hp). cbn [orb].
  rewrite byte_len_app. pose proof (byte_len_pos rest).
  rewrite (proj2 (Z.ltb_ge _ _)) by lia.
  rewrite first_prefix, drop_prefix by (unfold byte_len; lia).
  rewrite Z.eqb_refl. cbn [negb]. rewrite (law_zstd _ _ Hz). cbn [try].
  rewrite Z.eqb_refl. unfold frame_payload. rewrite !byte_len_app, byte_len_be.
  pose proof (byte_len_pos body). rewrite (proj2 (Z.ltb_ge _ _)) by lia. cbn [negb orb].
  rewrite read_be_value by (change (256 ^ Z.of_nat 4) with 4294967296; lia).
  rewrite (proj2 (Z.ltb_ge _ _)) by lia.
  rewrite (drop_prefix _ _ 4) by (by rewrite length_be).
  rewrite first_prefix by (unfold byte_len; lia). rewrite (law_record _ Hf). cbn [try].
  rewrite drop_two by (rewrite length_be; unfold byte_len; lia).
  rewrite Hlen, Hsha, Z.eqb_refl, str_eqb_refl. done.
Qed.

(** *** Segments *)

Fixpoint glue (bs : list string) : string :=
  match bs with [] => EmptyString | b :: bs => b ^^ glue bs end.

Lemma glue_app a b : glue (a ++ b) = glue a ^^ glue b.
Proof. induction a as [|x a IH]; [done|]. cbn. by rewrite IH, append_assoc. Qed.

(** What a crash in the middle of an append leaves of a frame, or nothing. *)
Definition torn (tail : string) : Prop :=
  tail = EmptyString \/ exists f b n, frame_of f b /\ (n < String.length b)%nat /\ tail = first_bytes n b.

(** The file holds these frames, and then a tail. *)
Definition holds (frames : list SegmentFrame) (tail file : string) : Prop :=
  exists bs, Forall2 frame_of frames bs /\ file = CAPTURE_SEGMENT_MAGIC ^^ glue bs ^^ tail.

Lemma frame_length f b :
  frame_of f b -> exists h c, String.length h = 24%nat /\ b = h ^^ c /\
  forall c' rest, byte_len (c' ^^ rest) < byte_len c ->
    read_frame from_slice zstd_decode crc32 sha256_hex (h ^^ c' ^^ rest) = Ok None.
Proof.
  intros [_ (c & Hz & -> & Hm & Hc & Hp)].
  set (l := byte_len (payload_of (sf_record f) (sf_body f))) in *.
  exists (CAPTURE_RECORD_MAGIC ^^ be_bytes 8 (byte_len c) ^^ be_bytes 8 l ^^ be_bytes 4 (crc32 c)), c.
  split; [by rewrite !length_append, !length_be|]. unfold frame_bytes. rewrite !append_assoc. split; [done|].
  intros c' rest Hlt. unfold read_frame. rewrite !append_assoc.
  rewrite (first_prefix _ _ 4), (drop_prefix _ _ 4) by done. rewrite str_eqb_refl. cbn [negb].
  pose proof (byte_len_pos c). pose proof (byte_len_pos (payload_of (sf_record f) (sf_body f))) as Hl.
  fold l in Hl. pose proof max_bytes as Hmax.
  rewrite read_be_value by (change (256 ^ Z.of_nat 8) with 18446744073709551616; lia).
  rewrite (drop_prefix _ _ 8) by (by rewrite length_be).
  rewrite read_be_value by (change (256 ^ Z.of_nat 8) with 18446744073709551616; lia).
  rewrite (drop_three _ _ _ _ 20) by (by rewrite !length_be).
  rewrite (proj2 (Z.ltb_ge _ _) Hc), (proj2 (Z.ltb_ge _ _) Hp). cbn [orb].
  by rewrite (proj2 (Z.ltb_lt _ _) Hlt).
Qed.

Lemma frame_nonempty f b : frame_of f b -> (24 <= String.length b)%nat.
Proof. intros (h & c & Hh & -> & _)%frame_length. rewrite length_append. lia. Qed.

Lemma first_long n a b : (String.length a <= n)%nat ->
  first_bytes n (a ^^ b) = a ^^ first_bytes (n - String.length a) b.
Proof.
  revert n; induction a as [|x a IH]; intros n H; [cbn; by rewrite Nat.sub_0_r|].
  cbn [String.length] in *. destruct n as [|n]; [lia|].
  change (String x (first_bytes n (a ^^ b)) = String x (a ^^ first_bytes (n - String.length a) b)).
  by rewrite IH by lia.
Qed.

Lemma length_first_le n s : (String.length (first_bytes n s) <= n)%nat.
Proof. revert n; induction s as [|x s IH]; intros [|n]; cbn; [lia..|]. specialize (IH n). lia. Qed.

(** A tail is cut off, or is an error. *)
Lemma scan_torn fuel (rt : bool) kept tail :
  torn tail ->
  if rt then scan_loop (S fuel) rt kept tail = (Ok [], kept)
  else tail = EmptyString /\ scan_loop (S fuel) rt kept tail = (Ok [], kept)
    \/ exists e, scan_loop (S fuel) rt kept tail = (Err e, kept ^^ tail).
Proof.
  intros [->|(f & b & n & Hf & Hn & ->)]; [destruct rt; [done|by left]|].
  destruct (is_empty (first_bytes n b)) eqn:He.
  { destruct (first_bytes n b); [|done]. destruct rt; [done|by left]. }
  cbn [scan_frames]. rewrite He.
  destruct (Z.ltb_spec (byte_len (first_bytes n b)) CAPTURE_RECORD_HEADER_BYTES) as [|Hlen];
    [destruct rt; [done|right; by eexists]|].
  pose proof (frame_length _ _ Hf) as (h & c & Hh & -> & Hread).
  assert (Hge : (24 <= n)%nat).
  { pose proof (length_first_le n (h ^^ c)). unfold byte_len, CAPTURE_RECORD_HEADER_BYTES in Hlen. lia. }
  rewrite first_long in * by lia. rewrite length_append in Hn.
  specialize (Hread (first_bytes (n - String.length h) c) EmptyString). rewrite append_nil_r in Hread.
  rewrite Hread by (unfold byte_len; rewrite length_first by lia; lia).
  destruct rt; [done|right; by eexists].
Qed.

Lemma scan_many rt tail frames bs : Forall2 frame_of frames bs -> forall fuel kept,
  scan_loop (length bs + fuel) rt kept (glue bs ^^ tail)
  = let '(r, file) := scan_loop fuel rt (kept ^^ glue bs) tail in
    (match r with Ok l => Ok (frames ++ l) | Err e => Err e end, file).
Proof.
  induction 1 as [|f b frames bs Hf H IH]; intros fuel kept.
  { cbn [length Nat.add glue]. change (EmptyString ^^ tail) with tail. rewrite append_nil_r.
    by destruct (scan_loop fuel rt kept tail) as [[] ?]. }
  cbn [length Nat.add glue scan_frames]. rewrite append_assoc.
  pose proof (frame_nonempty _ _ Hf) as Hn.
  assert (He : is_empty (b ^^ glue bs ^^ tail) = false) by (destruct b; [cbn in Hn; lia|done]).
  rewrite He. unfold CAPTURE_RECORD_HEADER_BYTES. rewrite (proj2 (Z.ltb_ge _ _)) by
    (unfold byte_len; rewrite length_append; lia).
  rewrite (read_frame_of f b) by done.
  rewrite first_prefix by (rewrite (length_append b); lia). rewrite IH, append_assoc.
  by destruct (scan_loop fuel rt _ tail) as [[] ?].
Qed.

Lemma glue_length bs frames : Forall2 frame_of frames bs -> (length bs <= String.length (glue bs))%nat.
Proof.
  induction 1 as [|f b frames bs Hf H IH]; [done|]. cbn. rewrite length_append.
  apply frame_nonempty in Hf. lia.
Qed.

Lemma scan_holds path (rt : bool) frames tail file :
  holds frames tail file -> torn tail ->
  if rt then exists file', scan path rt file = (Ok frames, file') /\ holds frames EmptyString file'
  else tail = EmptyString /\ scan path rt file = (Ok frames, file) \/ exists e, scan path rt file = (Err e, file).
Proof.
  intros (bs & Hbs & ->) Ht. unfold scan_segment.
  rewrite (proj2 (Z.ltb_ge _ _)) by (unfold byte_len; rewrite length_append; lia).
  rewrite (first_prefix _ _ 8), (drop_prefix _ _ 8), str_eqb_refl by done. cbn [negb].
  pose proof (glue_length _ _ Hbs) as Hl.
  replace (S (String.length _)) with
    (length bs + S (String.length (CAPTURE_SEGMENT_MAGIC ^^ glue bs ^^ tail) - length bs))%nat
    by (rewrite !length_append; lia).
  rewrite (scan_many _ _ _ _ Hbs).
  set (n := (_ - length bs)%nat). clearbody n.
  pose proof (scan_torn n rt (CAPTURE_SEGMENT_MAGIC ^^ glue bs) tail Ht) as H. destruct rt.
  - rewrite H, app_nil_r. eexists. split; [done|]. exists bs. by rewrite append_nil_r.
  - destruct H as [[-> H]|[e H]]; rewrite H; [left|right; exists e; by rewrite append_assoc].
    by rewrite app_nil_r, append_nil_r.
Qed.

(** What was written is what is read. *)
Lemma scan_written path rt frames file :
  holds frames EmptyString file -> scan path rt file = (Ok frames, file).
Proof.
  intros (bs & Hbs & ->). unfold scan_segment. rewrite append_nil_r.
  rewrite (proj2 (Z.ltb_ge _ _)) by (unfold byte_len; rewrite length_append; lia).
  rewrite (first_prefix _ _ 8), (drop_prefix _ _ 8), str_eqb_refl by done. cbn [negb].
  pose proof (glue_length _ _ Hbs) as Hl.
  replace (S (String.length _)) with
    (length bs + S (String.length (CAPTURE_SEGMENT_MAGIC ^^ glue bs) - length bs))%nat
    by (rewrite !length_append; lia).
  rewrite <- (append_nil_r (glue bs)) at 2. rewrite (scan_many _ _ _ _ Hbs). cbn. by rewrite app_nil_r.
Qed.

Lemma holds_describes frames tail file f : holds frames tail file -> f ∈ frames -> describes (sf_record f) (sf_body f).
Proof.
  intros (bs & H & _) Hf. apply list_elem_of_lookup in Hf as [i Hi].
  destruct (Forall2_lookup_l _ _ _ _ _ H Hi) as (b & _ & [Hd _]). done.
Qed.
End Frames.

(** ** The store *)

Section Store.
Context (cfg : BodyLoggerConfig) (pid : Z) (date_parts : Z -> Z * Z * Z) (faithful : Json -> Prop).
Context (to_vec : BodyRecord -> string) (from_slice : string -> result BodyRecord string).
Context (zstd_encode zstd_decode : string -> result string string).
Context (crc32 : string -> Z) (sha256_hex : string -> string).
Context `{!CodecLaws faithful to_vec from_slice zstd_encode zstd_decode crc32}.

#[local] Abbreviation scan := (scan_segment from_slice zstd_decode crc32 sha256_hex).
#[local] Abbreviation encode := (encode_segment_frame to_vec zstd_encode crc32).
#[local] Abbreviation holding := (holds faithful to_vec zstd_encode crc32 sha256_hex).
#[local] Abbreviation torn_tail := (torn faithful to_vec zstd_encode crc32 sha256_hex).
#[local] Abbreviation describing := (describes faithful sha256_hex).
#[local] Abbreviation framing := (frame_of faithful to_vec zstd_encode crc32 sha256_hex).
#[local] Abbreviation sealing := (seal_current from_slice zstd_decode crc32 sha256_hex).
#[local] Abbreviation recording :=
  (record_segmented_at cfg pid date_parts to_vec from_slice zstd_encode zstd_decode crc32 sha256_hex).

(** The frames of a file: those recovery finds in it. *)
Definition frames_in (f : SegmentFile) : list SegmentFrame :=
  match (scan EmptyString true (sg_bytes f)).1 with Ok l => l | Err _ => [] end.

(** Frames and perhaps a torn tail; a sealed file has no tail and the manifest of its
    frames. *)
Definition file_ok (p : string) (f : SegmentFile) : Prop :=
  exists tail, holding (frames_in f) tail (sg_bytes f) /\ torn_tail tail /\
    forall m, sg_manifest f = Some m ->
      tail = EmptyString /\ m = Ok (segment_manifest sha256_hex (file_name p) (sg_bytes f) (frames_in f) true).

Definition intact_file (f : SegmentFile) : Prop := holding (frames_in f) EmptyString (sg_bytes f).

(** The body of the row is in the file the row names. *)
Definition blob_ok (files : gmap string SegmentFile) (d : string) (row : BlobRow) : Prop :=
  is_segment_storage (bb_storage row) = true ->
  exists f fr, files !! bb_archive_path row = Some f /\ fr ∈ frames_in f /\ bo_body_sha256 (sf_record fr) = d.

Definition active_ok (s : Logger) : Prop :=
  forall a, lg_active s = Some a ->
    is_segment_storage (ac_storage a) = true /\ ac_path a ∈ lg_locked s
    /\ exists f, lg_files s !! ac_path a = Some f /\ sg_manifest f = None /\ intact_file f.

Definition contents_ok (s : Logger) : Prop :=
  map_Forall file_ok (lg_files s) /\ map_Forall (blob_ok (lg_files s)) (ix_blobs (lg_index s)).

Definition store_ok (s : Logger) : Prop := contents_ok s /\ active_ok s.

(** No file has a torn tail. *)
Definition intact (s : Logger) : Prop := map_Forall (fun _ => intact_file) (lg_files s).

(** Files stay and only gain frames. *)
Definition grows (a b : gmap string SegmentFile) : Prop :=
  forall p f, a !! p = Some f -> exists f', b !! p = Some f' /\ frames_in f `prefix_of` frames_in f'.

Lemma grows_refl a : grows a a.
Proof. intros p f H. by exists f. Qed.

Lemma grows_trans a b c : grows a b -> grows b c -> grows a c.
Proof.
  intros H1 H2 p f (f1 & Hf1 & P1)%H1. apply H2 in Hf1 as (f2 & Hf2 & P2). exists f2.
  split; [done|]. by transitivity (frames_in f1).
Qed.

Lemma grows_insert files p f' :
  (forall f, files !! p = Some f -> frames_in f `prefix_of` frames_in f') -> grows files (<[p := f']> files).
Proof.
  intros H q f Hq. destruct (decide (q = p)) as [->|Hn]; [exists f'|exists f].
  - split; [by rewrite lookup_insert_eq|by apply H].
  - by rewrite lookup_insert_ne by done.
Qed.

Lemma blob_ok_grows a b d row : grows a b -> blob_ok a d row -> blob_ok b d row.
Proof.
  intros Hg H Hs. destruct (H Hs) as (f & fr & Hf & Hin & Hd).
  apply Hg in Hf as (f' & Hf' & Hp). exists f', fr. split_and!; [done| |done].
  destruct Hp as [k ->]. apply elem_of_app. by left.
Qed.

Lemma frames_in_holds f frames tail :
  holding frames tail (sg_bytes f) -> torn_tail tail -> frames_in f = frames.
Proof.
  intros H Ht. unfold frames_in. pose proof (scan_holds _ _ from_slice _ zstd_decode _ _ EmptyString true _ _ _ H Ht)
    as (file' & E & _). by rewrite E.
Qed.

(** ** Sealing *)

(** A file as it is when it is sealed. *)
Definition sealed_file (p : string) (f f' : SegmentFile) : Prop :=
  file_ok p f' /\ intact_file f' /\ frames_in f' = frames_in f
  /\ sg_manifest f' = Some (Ok (segment_manifest sha256_hex (file_name p) (sg_bytes f') (frames_in f') true)).

Lemma file_sealed p f bytes :
  holding (frames_in f) EmptyString bytes ->
  sealed_file p f (mkSegmentFile bytes
    (Some (Ok (segment_manifest sha256_hex (file_name p) bytes (frames_in f) true)))).
Proof.
  intros H. assert (E : frames_in (mkSegmentFile bytes
    (Some (Ok (segment_manifest sha256_hex (file_name p) bytes (frames_in f) true)))) = frames_in f).
  { eapply frames_in_holds; [exact H|by left]. }
  split_and!; [|by unfold intact_file; rewrite E|done|by rewrite E].
  exists EmptyString. rewrite E. split_and!; [done|by left|]. intros m [= <-]. done.
Qed.

Lemma scan_file_ok p f s :
  lg_files s !! p = Some f -> file_ok p f ->
  exists bytes, holding (frames_in f) EmptyString bytes
    /\ scan_file from_slice zstd_decode crc32 sha256_hex p true s
       = (Ok (frames_in f), with_files (<[p := mkSegmentFile bytes (sg_manifest f)]> (lg_files s)) s).
Proof.
  intros Hf (tail & H & Ht & _).
  pose proof (scan_holds _ _ from_slice _ zstd_decode _ _ p true _ _ _ H Ht) as (file' & E & H').
  exists file'. split; [done|]. unfold scan_file, bind, get_file, get, ret, bind. cbn.
  rewrite Hf, E. done.
Qed.

Lemma seal_segment_ok p f s :
  lg_files s !! p = Some f -> file_ok p f ->
  exists f', sealed_file p f f'
    /\ seal_segment from_slice zstd_decode crc32 sha256_hex p s
       = (Ok tt, with_segment_id (wrap64 (lg_next_segment_id s + 1))
                   (with_files (<[p := f']> (lg_files s)) s)).
Proof.
  intros Hf Hok. destruct (scan_file_ok p f s Hf Hok) as (bytes & H & E).
  eexists. split; [exact (file_sealed p f bytes H)|].
  unfold seal_segment, bind. rewrite E. unfold write_segment_manifest, get_file, next_segment_id, bind, get, ret.
  cbn. rewrite lookup_insert_eq. unfold put_file, modify, with_files, with_segment_id. cbn.
  by rewrite insert_insert_eq.
Qed.

(** What an operation that leaves the index alone does: files gain frames. *)
Definition step (s s' : Logger) : Prop :=
  grows (lg_files s) (lg_files s') /\ lg_index s' = lg_index s.

Lemma step_trans a b c : step a b -> step b c -> step a c.
Proof. intros [G1 E1] [G2 E2]. split; [by eapply grows_trans|congruence]. Qed.

Lemma step_same s s' : lg_files s' = lg_files s -> lg_index s' = lg_index s -> step s s'.
Proof. intros E1 E2. split; [rewrite E1; apply grows_refl|done]. Qed.

(** Replacing or adding one file keeps the contents right. *)
Lemma contents_insert s s' p f' :
  contents_ok s -> file_ok p f' ->
  (forall f, lg_files s !! p = Some f -> frames_in f `prefix_of` frames_in f') ->
  lg_files s' = <[p := f']> (lg_files s) -> lg_index s' = lg_index s ->
  contents_ok s' /\ step s s'.
Proof.
  intros [Hf Hb] Hok Hp Ef Ei. assert (Hg : grows (lg_files s) (lg_files s')) by (rewrite Ef; by apply grows_insert).
  split; [|by split]. split; [rewrite Ef; by apply map_Forall_insert_2|].
  rewrite Ei. intros d row Hd. eapply blob_ok_grows; [exact Hg|]. by apply Hb.
Qed.

Lemma intact_insert s s' p f' :
  intact s -> intact_file f' -> lg_files s' = <[p := f']> (lg_files s) -> intact s'.
Proof. intros H Hf E. unfold intact. rewrite E. by apply map_Forall_insert_2. Qed.

Lemma seal_current_ok a s :
  contents_ok s -> active_ok s -> lg_active s = Some a ->
  exists s', sealing a s = (Ok tt, s') /\ contents_ok s' /\ step s s' /\ lg_active s' = None
    /\ (intact s -> intact s').
Proof.
  intros Hc Ha Hact. destruct (Ha a Hact) as (_ & _ & f & Hf & _ & _).
  pose proof (proj1 Hc _ _ Hf) as Hok.
  destruct (seal_segment_ok (ac_path a) f (with_active None s) Hf Hok) as (f' & (H1 & H2 & H3 & _) & E).
  eexists. split; [unfold seal_current, bind, modify, seal_active_segment; rewrite E; reflexivity|].
  destruct (contents_insert s (with_segment_id (wrap64 (lg_next_segment_id (with_active None s) + 1))
    (with_files (<[ac_path a := f']> (lg_files s)) (with_active None s))) (ac_path a) f' Hc H1) as [Hc' Hs'];
    [|done..|].
  { intros f0 Hf0. rewrite Hf in Hf0. injection Hf0 as <-. by rewrite H3. }
  split_and!; [exact Hc'|exact Hs'|done|]. intros Hi. by eapply intact_insert.
Qed.

(** ** Creating a segment *)

Lemma fresh_file_ok p : let f := mkSegmentFile CAPTURE_SEGMENT_MAGIC None in file_ok p f /\ intact_file f.
Proof.
  intros f. assert (H : holding [] EmptyString (sg_bytes f)) by (exists []; split; [constructor|done]).
  assert (E : frames_in f = []) by (eapply frames_in_holds; [exact H|by left]).
  unfold file_ok, intact_file. rewrite E. split; [|exact H].
  exists EmptyString. split_and!; [exact H|by left|done].
Qed.

Lemma create_segment_ok st b s :
  contents_ok s ->
  let '(r, s') := create_segment cfg pid date_parts st b s in
  contents_ok s' /\ step s s' /\ lg_active s' = lg_active s /\ (intact s -> intact s')
  /\ forall a, r = Ok a -> ac_storage a = st /\ ac_path a ∈ lg_locked s'
       /\ exists f, lg_files s' !! ac_path a = Some f /\ sg_manifest f = None /\ intact_file f.
Proof.
  intros Hc. unfold create_segment, create_segment_at, next_segment_id, bind, get, modify, ret, put_file.
  cbn -[contents_ok]. case_bool_decide as Hl; [split_and!; [done|by apply step_same|done..]|].
  change (lg_files (with_segment_id ?n s)) with (lg_files s).
  match goal with |- context [lg_files s !! ?q] => set (p := q) in *; destruct (lg_files s !! p) as [f|] eqn:Hf end;
    [split_and!; [done|by apply step_same|done|done|done]|].
  cbn -[contents_ok]. destruct (fresh_file_ok p) as [H1 H2].
  match goal with |- contents_ok ?t /\ _ => set (s' := t) end.
  destruct (contents_insert s s' p _ Hc H1) as [Hc' Hs']; [by rewrite Hf|done..|].
  split_and!; [exact Hc'|exact Hs'|done|intros Hi; by eapply intact_insert|].
  intros a [= <-]. cbn. split_and!; [done|set_solver|]. eexists. rewrite lookup_insert_eq. done.
Qed.

(** ** Appending *)

Definition usable (s : Logger) : Prop := store_ok s /\ intact s.

Lemma open_segment_ok st b s :
  contents_ok s -> lg_active s = None -> is_segment_storage st = true ->
  let '(r, s') := open_segment cfg pid date_parts st b s in
  contents_ok s' /\ active_ok s' /\ step s s' /\ (intact s -> intact s')
  /\ forall a, r = Ok a -> lg_active s' = Some a.
Proof.
  intros Hc Hn Hst. unfold open_segment, bind.
  pose proof (create_segment_ok st b s Hc) as H.
  destruct (create_segment cfg pid date_parts st b s) as [[a|e] s1]; destruct H as (H1 & H2 & H3 & H4 & H5).
  - destruct (H5 a eq_refl) as (E & Hl & f & Hf). cbn -[contents_ok active_ok].
    split_and!; [exact H1| |exact H2|exact H4|by intros ? [= <-]].
    intros a' [= <-]. rewrite E. split_and!; [done..|by exists f].
  - split_and!; [done| |done|done|done]. intros a Ha. congruence.
Qed.

Lemma active_for_ok st b s :
  store_ok s -> is_segment_storage st = true ->
  let '(r, s') := active_for cfg pid date_parts from_slice zstd_decode crc32 sha256_hex st b s in
  store_ok s' /\ step s s' /\ (intact s -> intact s') /\ forall a, r = Ok a -> lg_active s' = Some a.
Proof.
  intros [Hc Ha] Hst. unfold active_for, bind at 1, get.
  assert (Hopen : forall s0, contents_ok s0 -> lg_active s0 = None -> step s s0 -> (intact s -> intact s0) ->
    let '(r, s') := open_segment cfg pid date_parts st b s0 in
    store_ok s' /\ step s s' /\ (intact s -> intact s') /\ forall a, r = Ok a -> lg_active s' = Some a).
  { intros s0 H0 H1 H2 H3. pose proof (open_segment_ok st b s0 H0 H1 Hst) as H.
    destruct (open_segment _ _ _ st b s0) as [r s'], H as (G1 & G2 & G3 & G4 & G5).
    split_and!; [by split|by eapply step_trans|auto|done]. }
  destruct (lg_active s) as [a|] eqn:Hact; [|apply Hopen; [done|done|by apply step_same|done]].
  destruct (_ && _).
  { cbn -[store_ok]. split_and!; [by split|by apply step_same|done|by intros ? [= <-]]. }
  destruct (seal_current_ok a s Hc Ha Hact) as (s0 & E & H1 & H2 & H3 & H4).
  unfold bind. rewrite E. by apply Hopen.
Qed.

Lemma holds_append frames file fr b :
  holding frames EmptyString file -> framing fr b -> holding (frames ++ [fr]) EmptyString (file ^^ b).
Proof.
  intros (bs & H & ->) Hb. exists (bs ++ [b]). split; [by apply Forall2_app; [|constructor]|].
  rewrite glue_app. cbn [glue]. rewrite !append_nil_r, append_assoc. done.
Qed.

Lemma holds_tail frames file tail : holding frames EmptyString file -> holding frames tail (file ^^ tail).
Proof. intros (bs & H & ->). exists bs. split; [done|]. by rewrite append_nil_r, append_assoc. Qed.

Lemma first_all n s : (String.length s <= n)%nat -> first_bytes n s = s.
Proof.
  intros H. rewrite <- (append_nil_r s) at 1. rewrite first_long by done.
  by destruct (n - String.length s)%nat; rewrite append_nil_r.
Qed.

(** Appending a frame to a file without a tail: the frame is there, or a torn tail is. *)
Lemma append_file_ok p f fr b wr f' :
  intact_file f -> sg_manifest f = None -> framing fr b ->
  f' = mkSegmentFile (sg_bytes f ^^ match wr with None => b | Some n => first_bytes n b end) (sg_manifest f) ->
  file_ok p f' /\ frames_in f `prefix_of` frames_in f'
  /\ (wr = None -> intact_file f' /\ fr ∈ frames_in f').
Proof.
  intros Hi Hm Hb ->. set (f' := mkSegmentFile _ _).
  assert (Hfull : sg_bytes f' = sg_bytes f ^^ b -> file_ok p f' /\ frames_in f `prefix_of` frames_in f'
    /\ intact_file f' /\ fr ∈ frames_in f').
  { intros E. pose proof (holds_append _ _ _ _ Hi Hb) as H. rewrite <- E in H.
    assert (Ef : frames_in f' = frames_in f ++ [fr]) by (eapply frames_in_holds; [exact H|by left]).
    unfold file_ok, intact_file. rewrite Ef. split_and!; [|by exists [fr]|done|set_solver].
    exists EmptyString. split_and!; [done|by left|]. cbn. by rewrite Hm. }
  destruct wr as [n|]; [|by destruct Hfull as (? & ? & ? & ?)].
  destruct (decide (String.length b <= n)%nat) as [Hn|Hn].
  { destruct Hfull as (? & ? & _); [cbn; by rewrite first_all|]. done. }
  assert (H : holding (frames_in f) (first_bytes n b) (sg_bytes f')) by (by apply holds_tail).
  assert (Ht : torn_tail (first_bytes n b)) by (right; exists fr, b, n; split_and!; [done|lia|done]).
  assert (Ef : frames_in f' = frames_in f) by (by eapply frames_in_holds).
  unfold file_ok. rewrite Ef. split_and!; [|done|done]. exists (first_bytes n b). split_and!; [done..|].
  cbn. by rewrite Hm.
Qed.

Lemma append_bytes_ok p f fr b wr s :
  contents_ok s -> lg_files s !! p = Some f -> intact_file f -> sg_manifest f = None -> framing fr b ->
  let '(r, s') := append_bytes p b wr s in
  contents_ok s' /\ step s s' /\ lg_active s' = lg_active s /\ lg_locked s' = lg_locked s
  /\ match wr with
     | Some _ => exists e, r = Err e
     | None => r = Ok tt /\ (intact s -> intact s')
         /\ exists f', lg_files s' !! p = Some f' /\ sg_manifest f' = None /\ intact_file f' /\ fr ∈ frames_in f'
     end.
Proof.
  intros Hc Hf Hi Hm Hb. unfold append_bytes. rewrite Hf. cbn [default].
  set (f' := mkSegmentFile (sg_bytes f ^^ match wr with None => b | Some n => first_bytes n b end) (sg_manifest f)).
  destruct (append_file_ok p f fr b wr f' Hi Hm Hb eq_refl) as (H1 & H2 & H3).
  destruct (contents_insert s (with_files (<[p := f']> (lg_files s)) s) p f' Hc H1) as [Hc' Hs'];
    [intros f0 Hf0; by simplify_eq|done..|].
  destruct wr as [n|]; cbn -[contents_ok]; [split_and!; [exact Hc'|exact Hs'|done|done|by eexists]|].
  split_and!; [exact Hc'|exact Hs'|done|done|done|intros HI; apply (intact_insert s _ p f' HI); [by apply H3|done]|].
  exists f'. split_and!; [by rewrite lookup_insert_eq|done|by apply H3|by apply H3].
Qed.

(** The record as it is stored: where its frame went and how long it claims to be. *)
Definition stored (r r' : BodyRecord) : Prop :=
  exists n path st, r' = set_compressed_bytes n (set_location path st r) /\ is_segment_storage st = true.

(** A frame of this digest is in the file at this path. *)
Definition in_file (s : Logger) (path d : string) : Prop :=
  exists f fr, lg_files s !! path = Some f /\ fr ∈ frames_in f /\ bo_body_sha256 (sf_record fr) = d.

Lemma sized_located n path st k path' st' r :
  set_location path st (set_compressed_bytes n (set_location path' st' (set_compressed_bytes k r)))
  = set_compressed_bytes n (set_location path st r).
Proof. done. Qed.

Lemma reopen_ok st b r body s :
  contents_ok s -> lg_active s = None -> is_segment_storage st = true ->
  let '(res, s') := reopen cfg pid date_parts to_vec zstd_encode crc32 st b r body s in
  contents_ok s' /\ active_ok s' /\ step s s' /\ (intact s -> intact s')
  /\ forall a r' frame, res = Ok (a, (r', frame)) ->
       lg_active s' = Some a /\ encode (set_location (ac_path a) (ac_storage a) r) body = Ok (r', frame).
Proof.
  intros Hc Hn Hst. unfold reopen, bind.
  pose proof (create_segment_ok st b s Hc) as H.
  destruct (create_segment cfg pid date_parts st b s) as [[a|e] s1]; destruct H as (H1 & H2 & H3 & H4 & H5).
  2: { split_and!; [done| |done|done|done]. intros a Ha. congruence. }
  destruct (H5 a eq_refl) as (E & Hl & f & Hf).
  destruct (encode _ body) as [[r' frame]|e] eqn:He; cbn -[contents_ok active_ok].
  - split_and!; [exact H1| |exact H2|exact H4|by intros ??? [= <- <- <-]].
    intros a' [= <-]. rewrite E. split_and!; [done..|by exists f].
  - split_and!; [exact H1| |exact H2|exact H4|done]. intros a' Ha. cbn in Ha. congruence.
Qed.

(** What an append leads to. *)
Definition append_result (s : Logger) (wr : WriteOutcome) (r : BodyRecord)
    (out : result BodyRecord string * Logger) : Prop :=
  let '(res, s') := out in
  contents_ok s' /\ step s s' /\ (wr = None -> active_ok s' /\ intact s')
  /\ forall r', res = Ok r' -> wr = None /\ stored r r' /\ in_file s' (bo_archive_path r') (bo_body_sha256 r).

Lemma append_to_ok s0 s1 a r0 r body n frame wr :
  contents_ok s1 -> active_ok s1 -> intact s1 -> step s0 s1 -> lg_active s1 = Some a ->
  describing r0 body -> r = set_compressed_bytes n (set_location (ac_path a) (ac_storage a) r0) ->
  (exists k, framing (mkSegmentFrame (set_compressed_bytes k r) body) frame) ->
  append_result s0 wr r0
    (bind (append_bytes (ac_path a) frame wr) (fun _ =>
     bind (modify (with_active (Some (touch (bo_observed_at_unix_ms r) a)))) (fun _ => ret r)) s1).
Proof.
  intros Hc Ha Hi Hs Hact Hd -> [k Hb]. destruct (Ha a Hact) as (Hst & Hl & f & Hf & Hm & Hif).
  pose proof (append_bytes_ok _ _ _ _ wr _ Hc Hf Hif Hm Hb) as H. unfold bind.
  destruct (append_bytes (ac_path a) frame wr s1) as [res s2], H as (H1 & H2 & H3 & H4 & H5).
  destruct wr as [m|]; [destruct H5 as [e ->]|destruct H5 as (-> & H5 & f' & Hf' & Hm' & Hi' & Hin)];
    cbn -[contents_ok active_ok].
  { split_and!; [done|by eapply step_trans|done|done]. }
  split_and!; [exact H1|by eapply step_trans| |].
  - intros _. split; [|by apply H5]. intros a' [= <-]. cbn. split_and!; [done|by rewrite H4|by exists f'].
  - intros r' [= <-]. split_and!; [done|by exists n, (ac_path a), (ac_storage a)|].
    exists f'. eexists. split_and!; [exact Hf'|exact Hin|done].
Qed.

Lemma append_segment_frame_ok aa wr r body s :
  usable s -> describing r body ->
  append_result s wr r
    (append_segment_frame cfg pid date_parts to_vec from_slice zstd_encode zstd_decode crc32 sha256_hex
       aa wr r body s).
Proof.
  intros [Hst Hi] Hd. unfold append_segment_frame.
  set (st := if aa then _ else _). set (b := bucket_start _).
  assert (Hseg : is_segment_storage st = true) by (by destruct aa). clearbody st b.
  unfold bind at 1. pose proof (active_for_ok st b s Hst Hseg) as H.
  destruct (active_for _ _ _ _ _ _ _ st b s) as [[a|e] s1], H as ([Hc Ha] & Hs & Hi1 & Hact).
  2: { split_and!; [done|done|by auto|done]. }
  specialize (Hact a eq_refl). specialize (Hi1 Hi). unfold bind at 1, lift.
  destruct (encode (set_location (ac_path a) (ac_storage a) r) body) as [[r1 frame]|e] eqn:He.
  2: { split_and!; [done|done|by auto|done]. }
  unfold bind at 1, get. cbn [snd fst]. unfold bind at 1.
  assert (Hd1 : describing (set_location (ac_path a) (ac_storage a) r) body) by done.
  destruct (encode_frame_of _ _ _ _ _ _ _ _ _ Hd1 He) as (k1 & n1 & Hf1 & Hr1).
  destruct (segment_would_exceed_limit _ _ _).
  2: { cbn [ret]. apply (append_to_ok s s1 a r r1 body n1 frame wr); try done. exists k1. by rewrite Hr1. }
  unfold bind at 1. destruct (seal_current_ok a s1 Hc Ha Hact) as (s2 & -> & G1 & G2 & G3 & G4).
  pose proof (reopen_ok st b r1 body s2 G1 G3 Hseg) as H.
  destruct (reopen _ _ _ _ _ _ st b r1 body s2) as [[[a2 [r2 frame2]]|e] s3], H as (K1 & K2 & K3 & K4 & K5).
  2: { split_and!; [done|by do 2 (eapply step_trans; [done|])|by auto|done]. }
  destruct (K5 _ _ _ eq_refl) as [K6 K7].
  assert (Hd2 : describing (set_location (ac_path a2) (ac_storage a2) r1) body) by (by rewrite Hr1).
  destruct (encode_frame_of _ _ _ _ _ _ _ _ _ Hd2 K7) as (k2 & n2 & Hf2 & Hr2).
  apply (append_to_ok s s3 a2 r r2 body n2 frame2 wr); try done; [by auto| | |].
  - by do 2 (eapply step_trans; [done|]).
  - by rewrite Hr2, Hr1.
  - exists k2. by rewrite Hr2.
Qed.

(** ** Recording *)

Lemma find_event_app id l r : find_event id l = None -> bo_event_id r = id -> find_event id (l ++ [r]) = Some r.
Proof.
  intros H <-. unfold find_event in *. induction l as [|e l IH]; cbn in *; [by rewrite str_eqb_refl|].
  destruct (str_eqb _ _); [done|by apply IH].
Qed.

Lemma find_event_id id l e : find_event id l = Some e -> bo_event_id e = id.
Proof. intros H. apply List.find_some in H as [_ H]. by apply str_eqb_eq. Qed.

(** A body that is indexed in a segment is read back. *)
Lemma read_blob_ok read_legacy s d row :
  usable s -> ix_blobs (lg_index s) !! d = Some row -> is_segment_storage (bb_storage row) = true ->
  exists b, read_blob from_slice zstd_decode crc32 sha256_hex read_legacy s d = Ok b /\ sha256_hex b = d.
Proof.
  intros [[[Hfiles Hb] _] Hi] Hd Hst. unfold read_blob. rewrite Hd, Hst.
  destruct (Hb d row Hd Hst) as (f & fr & Hf & Hin & Hsha). rewrite Hf.
  pose proof (Hi _ _ Hf) as Hh. unfold read_body_from_segment.
  pose proof (scan_written _ _ from_slice _ zstd_decode _ _ (bb_archive_path row) false _ _ Hh) as E.
  rewrite E. cbn [fst try].
  destruct (List.find _ (frames_in f)) as [fr'|] eqn:Efind.
  - apply List.find_some in Efind as [Hin' Hs]. apply str_eqb_eq in Hs. apply list_elem_of_In in Hin'.
    eexists. split; [done|]. destruct (holds_describes _ _ _ _ _ _ _ _ _ Hh Hin') as (_ & E' & _). congruence.
  - apply list_elem_of_In in Hin. apply (List.find_none _ _ Efind) in Hin.
    rewrite Hsha, str_eqb_refl in Hin. done.
Qed.

Lemma insert_blob_ok files ix r :
  map_Forall (blob_ok files) (ix_blobs ix) ->
  (exists f fr, files !! bo_archive_path r = Some f /\ fr ∈ frames_in f
     /\ bo_body_sha256 (sf_record fr) = bo_body_sha256 r) ->
  map_Forall (blob_ok files) (ix_blobs (insert_blob ix r))
  /\ is_Some (ix_blobs (insert_blob ix r) !! bo_body_sha256 r)
  /\ forall d, is_Some (ix_blobs ix !! d) -> is_Some (ix_blobs (insert_blob ix r) !! d).
Proof.
  intros H Hin. unfold insert_blob. cbn [ix_blobs].
  destruct (ix_blobs ix !! bo_body_sha256 r) as [row|] eqn:E; [by rewrite E; eauto|].
  split_and!.
  - apply map_Forall_insert_2; [|done]. intros _. exact Hin.
  - by rewrite lookup_insert_eq.
  - intros d Hd. destruct (decide (d = bo_body_sha256 r)) as [->|Hn]; [by rewrite lookup_insert_eq|].
    by rewrite lookup_insert_ne by done.
Qed.

Lemma index_record_ok db r s res s' :
  contents_ok s -> in_file s (bo_archive_path r) (bo_body_sha256 r) ->
  index_record db r s = (res, s') ->
  contents_ok s' /\ lg_files s' = lg_files s /\ lg_active s' = lg_active s /\ lg_locked s' = lg_locked s
  /\ (res = Ok tt -> find_event (bo_event_id r) (ix_events (lg_index s')) = Some r
      /\ is_Some (ix_blobs (lg_index s') !! bo_body_sha256 r)).
Proof.
  intros [Hf Hb] Hin. destruct (insert_blob_ok _ _ _ Hb Hin) as (G1 & G2 & _).
  unfold index_record, insert_record_on, insert_event_only_on.
  change (ix_events (insert_blob (lg_index s) r)) with (ix_events (lg_index s)).
  destruct (find_event _ _) eqn:E; [intros [= <- <-]; split_and!; [by split|done..]|].
  destruct (db_commit db); intros [= <- <-]; [|split_and!; [by split|done..]].
  split_and!; [split; [exact Hf|exact G1]|done..|]. intros _. split; [|exact G2].
  by apply find_event_app.
Qed.

Lemma stored_ids r r' : stored r r' -> bo_body_sha256 r' = bo_body_sha256 r.
Proof. intros (n & p & st & -> & _). done. Qed.

(** Events and bodies stay in the index. *)
Definition index_grows (ix ix' : Index) : Prop :=
  ix_events ix `prefix_of` ix_events ix' /\ ix_blobs ix ⊆ ix_blobs ix'.

Lemma index_grows_refl ix : index_grows ix ix.
Proof. done. Qed.


Lemma index_record_grows db r s : index_grows (lg_index s) (lg_index (index_record db r s).2).
Proof.
  unfold index_record, insert_record_on, insert_event_only_on.
  change (ix_events (insert_blob (lg_index s) r)) with (ix_events (lg_index s)).
  destruct (find_event _ _); [done|]. destruct (db_commit db); [|done]. split; cbn; [by eexists|].
  destruct (ix_blobs (lg_index s) !! bo_body_sha256 r) eqn:E; [done|]. by apply insert_subseteq.
Qed.

(** The record says of the capture what it was. *)
Definition records (i : BodyEventInput) (r : BodyRecord) : Prop :=
  bo_request_id r = be_request_id i /\ bo_body_sha256 r = sha256_hex (be_body i)
  /\ bo_body_bytes r = byte_len (be_body i).

Lemma record_ok aa wr db i t s :
  usable s -> faithful (be_metadata i) ->
  let '(res, s') := recording aa wr db i t s in
  contents_ok s' /\ grows (lg_files s) (lg_files s') /\ (wr = None -> usable s')
  /\ index_grows (lg_index s) (lg_index s')
  /\ forall r, res = Ok r ->
       wr = None /\ records i r /\ find_event (bo_event_id r) (ix_events (lg_index s')) = Some r
       /\ is_Some (ix_blobs (lg_index s') !! bo_body_sha256 r).
Proof.
  intros Hu Hm. unfold record_segmented_at, bind at 1, lift.
  destruct (db_begin db) as [[]|e].
  2: { split_and!; [apply Hu|apply grows_refl|done|apply index_grows_refl|done]. }
  unfold bind at 1, new_event_id, get, modify, ret, bind at 1. cbn -[contents_ok usable index_grows].
  set (s0 := with_event_id _ s). assert (Hu0 : usable s0) by exact Hu.
  set (r0 := fresh_record _ _ _ _ _). assert (Hd : describing r0 (be_body i)) by (split_and!; done).
  unfold bind at 1. pose proof (append_segment_frame_ok aa wr r0 (be_body i) s0 Hu0 Hd) as H. unfold append_result in H.
  destruct (append_segment_frame _ _ _ _ _ _ _ _ _ aa wr r0 _ s0) as [[r|e] s1], H as (H1 & [H2 Hix] & H3 & H4).
  2: { split_and!; [done|exact H2|intros E; destruct (H3 E); by split|rewrite Hix; apply index_grows_refl|done]. }
  destruct (H4 r eq_refl) as (-> & Hst & Hin). destruct (H3 eq_refl) as [Ha Hi].
  rewrite <- (stored_ids _ _ Hst) in Hin. unfold bind at 1.
  pose proof (index_record_grows db r s1) as Hgr. rewrite Hix in Hgr.
  destruct (index_record db r s1) as [res s2] eqn:Ei.
  apply index_record_ok in Ei as (G1 & G2 & G3 & G4 & G5); [|done..].
  assert (Hg : grows (lg_files s) (lg_files s2)) by (rewrite G2; exact H2).
  assert (Hu2 : usable s2).
  { split; [split; [done|]|unfold intact; by rewrite G2]. unfold active_ok. by rewrite G2, G3, G4. }
  destruct res as [[]|e]; [|split_and!; [exact G1|exact Hg|done|exact Hgr|done]].
  cbn -[contents_ok usable index_grows]. destruct (G5 eq_refl) as [E1 E2].
  split_and!; [exact G1|exact Hg|intros _; exact Hu2|exact Hgr|]. intros r' [= <-].
  split_and!; [done| |done|done]. by destruct Hst as (n & p & st & -> & _).
Qed.

(** ** Recovery *)

Lemma verify_sealed p bytes frames :
  verify_manifest sha256_hex p bytes (Ok (segment_manifest sha256_hex (file_name p) bytes frames true))
  = Ok (segment_manifest sha256_hex (file_name p) bytes frames true).
Proof. unfold verify_manifest. cbn. by rewrite !str_eqb_refl, Z.eqb_refl. Qed.

(** An event with another location. *)
Definition moved (e e' : BodyRecord) : Prop := exists p st, e' = set_location p st e.

(** What recovery does to an index: the events that were there keep everything but
    their location, those that are new have their blob, and no blob goes. *)
Definition replays (ix ix' : Index) : Prop :=
  (exists pre more, ix_events ix' = pre ++ more /\ Forall2 moved (ix_events ix) pre
     /\ Forall (fun e => is_Some (ix_blobs ix' !! bo_body_sha256 e)) more)
  /\ forall d, is_Some (ix_blobs ix !! d) -> is_Some (ix_blobs ix' !! d).

Definition event_ids (ix : Index) : list string := map bo_event_id (ix_events ix).

Lemma moved_refl e : moved e e.
Proof. exists (bo_archive_path e), (bo_storage e). by destruct e. Qed.

Lemma moved_list_refl l : Forall2 moved l l.
Proof. induction l; constructor; auto using moved_refl. Qed.

Lemma moved_trans a b c : moved a b -> moved b c -> moved a c.
Proof. intros (p & st & ->) (p' & st' & ->). by exists p', st'. Qed.

Lemma moved_list_trans a b c : Forall2 moved a b -> Forall2 moved b c -> Forall2 moved a c.
Proof. apply Forall2_trans, moved_trans. Qed.

Lemma moved_ids a b : Forall2 moved a b -> map bo_event_id b = map bo_event_id a.
Proof. induction 1 as [|x y a b (p & st & ->) H IH]; [done|]. cbn. by rewrite IH. Qed.

Lemma replays_refl ix : replays ix ix.
Proof.
  split; [|done]. exists (ix_events ix), []. rewrite app_nil_r. split_and!; [done|apply moved_list_refl|constructor].
Qed.

Lemma replays_trans a b c : replays a b -> replays b c -> replays a c.
Proof.
  intros [(pre & more & E & H1 & H2) Hb] [(pre' & more' & E' & H1' & H2') Hb']. split; [|by auto].
  rewrite E in H1'. apply Forall2_app_inv_l in H1' as (x & y & Hx & Hy & ->).
  exists x, (y ++ more'). rewrite app_assoc. split_and!; [done|by eapply moved_list_trans|].
  apply Forall_app. split; [|done]. clear -Hy H2 Hb'.
  induction Hy as [|e e' l l' (p & st & ->) Hy IH]; [constructor|].
  apply Forall_cons_1 in H2 as [He H2]. constructor; auto.
Qed.

Lemma replays_ids a b : replays a b -> event_ids a ⊆ event_ids b.
Proof.
  intros [(pre & more & E & H & _) _] id Hid. unfold event_ids. rewrite E, map_app, (moved_ids _ _ H).
  apply elem_of_app. by left.
Qed.

Lemma find_event_ids id l : is_Some (find_event id l) <-> id ∈ map bo_event_id l.
Proof.
  unfold find_event. induction l as [|e l IH]; cbn; [split; [by intros [? [=]]|by intros ?%elem_of_nil]|].
  rewrite elem_of_cons. destruct (str_eqb (bo_event_id e) id) eqn:E.
  - apply str_eqb_eq in E as <-. split; [by left|by eexists].
  - rewrite IH. split; [by right|]. intros [->|]; [|done]. by rewrite str_eqb_refl in E.
Qed.

(** One frame, in an index that is kept. *)
Lemma insert_recovered_ok files ix r :
  map_Forall (blob_ok files) (ix_blobs ix) ->
  (exists f fr, files !! bo_archive_path r = Some f /\ fr ∈ frames_in f
     /\ bo_body_sha256 (sf_record fr) = bo_body_sha256 r) ->
  let ix' := (insert_recovered_record_on ix r).2 in
  map_Forall (blob_ok files) (ix_blobs ix') /\ replays ix ix' /\ bo_event_id r ∈ event_ids ix'.
Proof.
  intros H Hin. unfold insert_recovered_record_on.
  destruct (find_event (bo_event_id r) (ix_events ix)) as [e|] eqn:E.
  - assert (Hid : bo_event_id r ∈ event_ids ix) by (apply find_event_ids; eauto).
    destruct (recovery_identity_divergence e r); [|split_and!; [done|apply replays_refl|done]].
    assert (Hr : replays ix (reconcile_recovered_location_on ix r)).
    { split; [|done]. eexists _, []. rewrite app_nil_r. split_and!; [done| |constructor].
      cbn [ix_events reconcile_recovered_location_on]. generalize (ix_events ix). intros l.
      induction l as [|e0 l IH]; cbn; constructor; [|done].
      destruct (str_eqb _ _); [by eexists _, _|apply moved_refl]. }
    cbn [snd]. split_and!; [done|done|by apply (replays_ids _ _ Hr)].
  - destruct (insert_blob_ok _ _ _ H Hin) as (G1 & G2 & G3). unfold insert_record_on, insert_event_only_on.
    change (ix_events (insert_blob ix r)) with (ix_events ix). rewrite E. cbn [snd].
    split_and!; [exact G1| |]; cbn.
    + split; [|exact G3]. exists (ix_events ix), [r].
      split_and!; [done|apply moved_list_refl|]. constructor; [exact G2|constructor].
    + unfold event_ids. cbn. rewrite map_app. apply elem_of_app. right. left.
Qed.

(** All the frames of a file. *)
Lemma replay_ok p : forall frames s,
  map_Forall (blob_ok (lg_files s)) (ix_blobs (lg_index s)) ->
  Forall (fun fr => exists f, lg_files s !! p = Some f /\ fr ∈ frames_in f) frames ->
  exists ix, for_each (replay_frame cfg false p) frames s = (Ok tt, with_index ix s)
    /\ map_Forall (blob_ok (lg_files s)) (ix_blobs ix) /\ replays (lg_index s) ix
    /\ Forall (fun fr => bo_event_id (sf_record fr) ∈ event_ids ix) frames.
Proof.
  intros frames; induction frames as [|fr frames IH]; intros s Hb Hf.
  { exists (lg_index s). split_and!; [by destruct s|done|apply replays_refl|constructor]. }
  apply Forall_cons_1 in Hf as [(f & Hf1 & Hf2) Hf3].
  cbn [for_each]. unfold bind. set (r := set_location p (segment_storage cfg p) (sf_record fr)).
  destruct (insert_recovered_ok (lg_files s) (lg_index s) r Hb) as (H1 & H2 & H3); [by exists f, fr|].
  change (replay_frame cfg false p fr s) with
    (Ok tt : result unit string, with_index (insert_recovered_record_on (lg_index s) r).2 s).
  set (ix1 := (insert_recovered_record_on (lg_index s) r).2) in *.
  destruct (IH (with_index ix1 s) H1 Hf3) as (ix & E & G1 & G2 & G3).
  exists ix. rewrite E. split_and!; [done|done|by eapply replays_trans|].
  constructor; [|done]. by apply (replays_ids _ _ G2).
Qed.

Lemma project_index ix p st m n :
  let ix' := upsert_segment_manifest_projection_on ix p st m n in
  ix_blobs ix' = ix_blobs ix /\ ix_events ix' = ix_events ix.
Proof. unfold upsert_segment_manifest_projection_on. by repeat case_match. Qed.

Lemma project_replays ix ix' p st m n :
  replays ix ix' -> replays ix (upsert_segment_manifest_projection_on ix' p st m n).
Proof.
  destruct (project_index ix' p st m n) as [E1 E2]. unfold replays. by rewrite E1, E2.
Qed.

(** What recovering the file at [p] leads to, when its frames turn the index into one
    that [Q] describes. *)
Definition recovered_file (Q : Index -> Prop) (s s' : Logger) (p : string) (f : SegmentFile) : Prop :=
  exists f', lg_files s' = <[p := f']> (lg_files s) /\ sealed_file p f f' /\ contents_ok s'
    /\ lg_active s' = lg_active s /\ lg_locked s' = lg_locked s
    /\ exists ix, Q ix /\ ix_blobs (lg_index s') = ix_blobs ix /\ ix_events (lg_index s') = ix_events ix.

(** The replay of frames that are in the file at [p]. *)
Definition replayable (rebuild : bool) (Q : Index -> Prop) (p : string) (frames : list SegmentFrame) (ix0 : Index) : Prop :=
  forall s, lg_index s = ix0 -> map_Forall (blob_ok (lg_files s)) (ix_blobs ix0) ->
    Forall (fun fr => exists f, lg_files s !! p = Some f /\ fr ∈ frames_in f) frames ->
    exists ix, for_each (replay_frame cfg rebuild p) frames s = (Ok tt, with_index ix s)
      /\ map_Forall (blob_ok (lg_files s)) (ix_blobs ix) /\ Q ix.

Lemma sealed_twice p f m :
  file_ok p f -> sg_manifest f = Some m -> sealed_file p f f.
Proof.
  intros (tail & H & Ht & Hm) E. destruct (Hm m E) as [-> ->].
  split_and!; [|exact H|done|done]. exists EmptyString. by split_and!.
Qed.

Lemma verified_sealed p s f f' :
  lg_files s !! p = Some f' -> sealed_file p f f' ->
  verified_manifest sha256_hex p s
  = (Ok (segment_manifest sha256_hex (file_name p) (sg_bytes f') (frames_in f') true), s).
Proof.
  intros Hf (_ & _ & _ & Hm). unfold verified_manifest, read_verified_segment_manifest, get_file, bind, get, ret.
  rewrite Hf, Hm. unfold lift. by rewrite verify_sealed.
Qed.

Lemma frames_at p f g s : lg_files s !! p = Some g -> frames_in g = frames_in f ->
  Forall (fun fr => exists f, lg_files s !! p = Some f /\ fr ∈ frames_in f) (frames_in f).
Proof.
  intros Hf E. apply Forall_forall. intros fr Hfr. exists g. split; [done|]. rewrite E. by apply list_elem_of_In.
Qed.

Lemma contents_reindexed s s' f p f' :
  map_Forall file_ok (lg_files s) -> sealed_file p f f' -> lg_files s' = <[p := f']> (lg_files s) ->
  map_Forall (blob_ok (lg_files s')) (ix_blobs (lg_index s')) -> contents_ok s'.
Proof. intros H Hs E Hb. split; [rewrite E; apply map_Forall_insert_2; [apply Hs|done]|done]. Qed.

(** A sealed file, when the index is rebuilt. *)
Lemma rebuild_sealed_ok Q p f m s :
  contents_ok s -> p ∉ lg_locked s -> lg_files s !! p = Some f -> sg_manifest f = Some m ->
  replayable true Q p (frames_in f) (lg_index s) ->
  exists s', recover_segment cfg from_slice zstd_decode crc32 sha256_hex true p s = (Ok tt, s')
    /\ recovered_file Q s s' p f.
Proof.
  intros [Hfiles Hb] Hl Hf Em HQ. pose proof (sealed_twice p f m (Hfiles _ _ Hf) Em) as Hs.
  unfold recover_segment. unfold bind at 1, get. rewrite bool_decide_false by done.
  unfold bind at 1, get_file, bind at 1, get. rewrite Hf. cbn [ret]. rewrite Em. cbn [negb andb].
  unfold ret. unfold bind at 1, bind at 1. rewrite (verified_sealed p s f f Hf Hs).
  unfold scan_file, bind at 1, get_file, bind at 1, get. rewrite Hf. cbn [ret]. unfold ret.
  rewrite (scan_written _ _ from_slice _ zstd_decode _ _ p false _ _ (proj1 (proj2 Hs))).
  unfold put_file, modify, bind at 1, lift. replace (mkSegmentFile (sg_bytes f) (sg_manifest f)) with f by (by destruct f).
  rewrite insert_id by done. replace (with_files (lg_files s) s) with s by (by destruct s).
  unfold bind at 1. destruct (HQ s eq_refl Hb (frames_at p f f s Hf eq_refl)) as (ix & -> & G1 & G2).
  unfold bind at 1, bind at 1. rewrite (verified_sealed p (with_index ix s) f f Hf Hs).
  eexists. split; [reflexivity|]. exists f. unfold project_manifest, modify. cbn [snd].
  match goal with |- context [upsert_segment_manifest_projection_on ?a ?b ?c ?d ?e] =>
    destruct (project_index a b c d e) as [E1 E2] end.
  cbn [lg_index with_index] in E1, E2.
  split_and!; [cbn; by rewrite insert_id|done| |done|done|].
  - split; [exact Hfiles|]. cbn [lg_index with_index]. by rewrite E1.
  - exists ix. cbn [lg_index with_index]. by rewrite E1, E2.
Qed.

Lemma recover_unsealed_ok rebuild Q p f s :
  contents_ok s -> p ∉ lg_locked s -> lg_files s !! p = Some f -> sg_manifest f = None ->
  replayable rebuild Q p (frames_in f) (lg_index s) ->
  exists s', recover_segment cfg from_slice zstd_decode crc32 sha256_hex rebuild p s = (Ok tt, s')
    /\ recovered_file Q s s' p f.
Proof.
  intros [Hfiles Hb] Hl Hf Em HQ. pose proof (Hfiles _ _ Hf) as Hok. unfold recover_segment.
  unfold bind at 1, get. rewrite bool_decide_false by done. unfold bind at 1, get_file, bind at 1, get.
  rewrite Hf. cbn [ret]. rewrite Em, andb_false_r. unfold ret. unfold bind at 1.
  destruct (scan_file_ok p f s Hf Hok) as (bytes & Hh & ->). rewrite Em.
  pose proof (file_sealed p f bytes Hh) as Hs. set (f' := mkSegmentFile bytes (Some _)) in Hs.
  set (s1 := with_files _ s).
  assert (Hp : frames_in (mkSegmentFile bytes None) = frames_in f) by (eapply frames_in_holds; [exact Hh|by left]).
  assert (Hb1 : map_Forall (blob_ok (lg_files s1)) (ix_blobs (lg_index s))).
  { intros d row Hd. eapply blob_ok_grows; [|by apply Hb].
    apply grows_insert. intros f0 Hf0. simplify_eq. rewrite Hp. reflexivity. }
  unfold bind at 1. destruct (HQ s1 eq_refl Hb1) as (ix & -> & G1 & G2).
  { eapply frames_at; [cbn; by rewrite lookup_insert_eq|done]. }
  unfold bind at 1, write_segment_manifest, bind at 1, get_file, bind at 1, get.
  cbn [lg_files with_index s1 with_files]. rewrite lookup_insert_eq. unfold ret, next_segment_id, bind, get, modify, ret.
  unfold put_file, modify. cbn [sg_bytes lg_files with_index with_files with_segment_id].
  change (lg_files s1) with (<[p := mkSegmentFile bytes None]> (lg_files s)).
  fold f'. rewrite insert_insert_eq.
  match goal with |- context [verified_manifest sha256_hex p ?t] => set (s2 := t) end.
  rewrite (verified_sealed p s2 f f') by (done || by cbn; rewrite lookup_insert_eq).
  eexists. split; [reflexivity|]. exists f'.
  match goal with |- context [upsert_segment_manifest_projection_on ?a ?b ?c ?d ?e] =>
    destruct (project_index a b c d e) as [E1 E2] end.
  split_and!; [done|exact Hs| |done|done|exists ix; cbn [lg_index with_index]; by rewrite E1, E2].
  eapply (contents_reindexed s); [done|exact Hs|done|]. cbn [lg_index with_index]. rewrite E1.
  intros d row Hd. eapply blob_ok_grows; [|by apply G1]. cbn [lg_files with_index s2 with_segment_id with_files s1].
  rewrite <- (insert_insert_eq (lg_files s) p f' (mkSegmentFile bytes None)).
  apply grows_insert. intros f0 Hf0. rewrite lookup_insert_eq in Hf0. simplify_eq.
  rewrite Hp. destruct Hs as (_ & _ & -> & _). reflexivity.
Qed.

Lemma recover_sealed_ok Q p f m s :
  contents_ok s -> p ∉ lg_locked s -> lg_files s !! p = Some f -> sg_manifest f = Some m -> Q (lg_index s) ->
  exists s', recover_segment cfg from_slice zstd_decode crc32 sha256_hex false p s = (Ok tt, s')
    /\ recovered_file Q s s' p f.
Proof.
  intros [Hfiles Hb] Hl Hf Em HQ. pose proof (sealed_twice p f m (Hfiles _ _ Hf) Em) as Hs.
  unfold recover_segment. unfold bind at 1, get. rewrite bool_decide_false by done.
  unfold bind at 1, get_file, bind at 1, get. rewrite Hf. cbn [ret]. rewrite Em. cbn [negb andb].
  unfold ret. unfold bind at 1. rewrite (verified_sealed p s f f Hf Hs).
  eexists. split; [reflexivity|]. exists f.
  destruct (project_index (lg_index s) p (segment_storage cfg p)
    (segment_manifest sha256_hex (file_name p) (sg_bytes f) (frames_in f) true) None) as [E1 E2].
  split_and!; [cbn; by rewrite insert_id|done| |done|done|exists (lg_index s); cbn; by rewrite E1, E2].
  split; [done|]. cbn. by rewrite E1.
Qed.

(** Recovery of a listing: [P] says what the index is while [l] is still ahead. *)
Section Loop.
Context (rebuild : bool) (files0 : gmap string SegmentFile) (P : list string -> Index -> Prop).
Hypothesis P_step : forall p rest f ix, files0 !! p = Some f -> P (p :: rest) ix ->
  (rebuild = true \/ sg_manifest f = None -> replayable rebuild (P rest) p (frames_in f) ix)
  /\ (rebuild = false -> is_Some (sg_manifest f) -> P rest ix).
Hypothesis P_same : forall l ix ix', ix_blobs ix' = ix_blobs ix -> ix_events ix' = ix_events ix -> P l ix -> P l ix'.

Lemma recover_loop : forall paths s,
  (forall p, p ∈ paths -> lg_files s !! p = files0 !! p /\ is_Some (files0 !! p) /\ p ∉ lg_locked s) ->
  NoDup paths -> contents_ok s -> P paths (lg_index s) ->
  exists s', recover_segments cfg from_slice zstd_decode crc32 sha256_hex rebuild paths s = (Ok tt, s')
    /\ contents_ok s' /\ P [] (lg_index s') /\ lg_active s' = lg_active s /\ lg_locked s' = lg_locked s
    /\ (forall p f, lg_files s !! p = Some f -> exists f', lg_files s' !! p = Some f'
          /\ (p ∈ paths -> sealed_file p f f') /\ (p ∉ paths -> f' = f))
    /\ forall p, lg_files s !! p = None -> lg_files s' !! p = None.
Proof.
  clear pid date_parts. intros paths; induction paths as [|p paths IH]; intros s Hin Hnd Hc HP.
  { exists s. split_and!; [done..| |done]. intros p f Hf. exists f. split_and!; [done|set_solver|done]. }
  destruct (Hin p) as (E & [f Hf] & Hl); [set_solver|]. rewrite Hf in E.
  destruct (P_step p paths f (lg_index s) Hf HP) as [H1 H2].
  assert (exists s1, recover_segment cfg from_slice zstd_decode crc32 sha256_hex rebuild p s = (Ok tt, s1)
    /\ recovered_file (P paths) s s1 p f) as (s1 & Es1 & f1 & Ef1 & Hs1 & Hc1 & Ea1 & El1 & ix & HP1 & Eb & Ee).
  { destruct (sg_manifest f) as [m|] eqn:Em; [|by apply recover_unsealed_ok; auto].
    destruct rebuild; [by eapply rebuild_sealed_ok; eauto|]. eapply recover_sealed_ok; eauto. }
  apply list.NoDup_cons in Hnd as [Hnp Hnd'].
  destruct (IH s1) as (s' & E' & G1 & G2 & G3 & G4 & G5 & G6); [|exact Hnd'|exact Hc1|by apply (P_same _ ix)|].
  { intros q Hq. rewrite Ef1, El1, lookup_insert_ne by set_solver. apply Hin. set_solver. }
  exists s'. unfold recover_segments. cbn [for_each]. unfold bind. rewrite Es1.
  split_and!; [done|done|done|congruence|congruence| |].
  - intros q g Hq. destruct (decide (q = p)) as [->|Hn].
    + rewrite E in Hq. injection Hq as <-. destruct (G5 p f1) as (f2 & Hf2 & _ & Hsame); [by rewrite Ef1, lookup_insert_eq|].
      exists f2. split_and!; [done|intros _; by rewrite (Hsame Hnp)|set_solver].
    + destruct (G5 q g) as (f2 & Hf2 & Ha & Hb); [by rewrite Ef1, lookup_insert_ne|].
      exists f2. split_and!; [done|intros Hq'; apply Ha; set_solver|intros Hq'; apply Hb; set_solver].
  - intros q Hq. apply G6. rewrite Ef1, lookup_insert_ne; [done|]. intros ->. congruence.
Qed.
End Loop.

(** A restart: no segment is open and no lock is held. *)
Definition stopped (s : Logger) : Prop := lg_active s = None /\ lg_locked s = ∅.

(** [paths] lists the segment files of the store. *)
Definition listing (paths : list string) (s : Logger) : Prop :=
  NoDup paths /\ forall p, p ∈ paths <-> is_Some (lg_files s !! p).

Lemma listing_all paths s : listing paths s -> forall p f, lg_files s !! p = Some f -> p ∈ paths.
Proof. intros [_ H] p f Hf. apply H. by eexists. Qed.

Lemma recovered_usable paths s s' :
  listing paths s -> stopped s -> contents_ok s' -> lg_active s' = lg_active s ->
  (forall p f, lg_files s !! p = Some f -> exists f', lg_files s' !! p = Some f'
     /\ (p ∈ paths -> sealed_file p f f') /\ (p ∉ paths -> f' = f)) ->
  (forall p, lg_files s !! p = None -> lg_files s' !! p = None) -> usable s'.
Proof.
  intros Hl [Ha _] Hc Ea Hs Hn. split; [split; [done|]|].
  - intros a E. congruence.
  - intros p f' Hf'. destruct (lg_files s !! p) as [f|] eqn:Hf; [|by rewrite Hn in Hf'].
    destruct (Hs p f Hf) as (f2 & Hf2 & H & _). simplify_eq. exact (proj1 (proj2 (H (listing_all _ _ Hl _ _ Hf)))).
Qed.

Lemma recover_ok paths s :
  contents_ok s -> stopped s -> listing paths s ->
  exists s', recover_segments cfg from_slice zstd_decode crc32 sha256_hex false paths s = (Ok tt, s')
    /\ usable s' /\ replays (lg_index s) (lg_index s')
    /\ forall p f, lg_files s !! p = Some f -> exists f', lg_files s' !! p = Some f' /\ sealed_file p f f'
       /\ (sg_manifest f = None ->
           Forall (fun fr => bo_event_id (sf_record fr) ∈ event_ids (lg_index s')) (frames_in f)).
Proof.
  clear pid date_parts. intros Hc Hs Hl. pose proof (listing_all _ _ Hl) as Hall.
  set (P := fun (l : list string) ix => replays (lg_index s) ix /\ forall p f, lg_files s !! p = Some f -> p ∉ l ->
    sg_manifest f = None -> Forall (fun fr => bo_event_id (sf_record fr) ∈ event_ids ix) (frames_in f)).
  destruct (recover_loop false (lg_files s) P) with (paths := paths) (s := s)
    as (s' & E & G1 & [G2 G2'] & G3 & _ & G5 & G6).
  - intros p rest f ix Hf [HP HP']. split; [intros _ s0 <- Hb Hin|].
    + destruct (replay_ok p (frames_in f) s0 Hb Hin) as (ix' & E & H1 & H2 & H3).
      exists ix'. split_and!; [done|done|]. split; [by eapply replays_trans|].
      intros q g Hq Hnq Hm. destruct (decide (q = p)) as [->|Hn]; [by simplify_eq|].
      eapply List.Forall_impl; [|apply (HP' q g Hq); [set_solver|done]]. intros fr Hfr. by apply (replays_ids _ _ H2).
    + intros _ Hm. split; [done|]. intros q g Hq Hnq Hm'.
      destruct (decide (q = p)) as [->|Hn]; [simplify_eq; rewrite Hm' in Hm; by destruct Hm|].
      apply (HP' q g Hq); [set_solver|done].
  - intros l ix ix' Eb Ee [HP HP']. unfold P, replays, event_ids. by rewrite Eb, Ee.
  - intros p Hp. split_and!; [done|by apply (proj1 (proj2 Hl p))|rewrite (proj2 Hs); set_solver].
  - apply Hl.
  - done.
  - split; [apply replays_refl|]. intros p f Hf Hnp. destruct Hnp. exact (Hall _ _ Hf).
  - exists s'. split_and!; [done|by eapply recovered_usable|done|].
    intros p f Hf. destruct (G5 p f Hf) as (f' & Hf' & H & _). exists f'.
    split_and!; [done|exact (H (Hall _ _ Hf))|]. apply (G2' p f Hf). set_solver.
Qed.

(** C31 (refinement). Whatever a crash left (frames, and at most a torn tail in a file that is not
    sealed), recovery succeeds: the torn tails are gone, every file keeps its frames
    and is sealed, every frame of a file that was open is in the index, the events
    that were indexed keep everything but their location, and what is indexed can
    be read. *)
Theorem recovery_restores paths s :
  contents_ok s -> stopped s -> listing paths s ->
  exists s', recover_segments cfg from_slice zstd_decode crc32 sha256_hex false paths s = (Ok tt, s')
    /\ usable s' /\ replays (lg_index s) (lg_index s')
    /\ forall p f, lg_files s !! p = Some f -> exists f', lg_files s' !! p = Some f' /\ sealed_file p f f'
       /\ (sg_manifest f = None ->
           Forall (fun fr => bo_event_id (sf_record fr) ∈ event_ids (lg_index s')) (frames_in f)).
Proof. intros Hc Hs Hl. by apply recover_ok. Qed.

(** ** What survives *)





(** A body of this digest can be read. A digest that was indexed before, outside the
    segments, stays there. *)
Definition readable (s : Logger) (d : string) : Prop :=
  exists row, ix_blobs (lg_index s) !! d = Some row
    /\ forall read_legacy, is_segment_storage (bb_storage row) = true ->
       exists b, read_blob from_slice zstd_decode crc32 sha256_hex read_legacy s d = Ok b /\ sha256_hex b = d.

(** The event of a capture is indexed, with everything but perhaps its location, and
    so is its body. *)
Definition known (s : Logger) (i : BodyEventInput) (r : BodyRecord) : Prop :=
  records i r /\ (exists e, find_event (bo_event_id r) (ix_events (lg_index s)) = Some e /\ moved r e)
  /\ is_Some (ix_blobs (lg_index s) !! sha256_hex (be_body i)).

Definition kept (s : Logger) (i : BodyEventInput) (r : BodyRecord) : Prop :=
  known s i r /\ readable s (sha256_hex (be_body i)).












(** The machine stops: the writer is gone and so are its locks. *)
Definition crash (s : Logger) : Logger := with_locked ∅ (with_active None s).


(** ** Rebuilding a lost index *)

Definition located (p : string) (fr : SegmentFrame) : BodyRecord :=
  set_location p (segment_storage cfg p) (sf_record fr).

Definition frames_at_path (s : Logger) (p : string) : list SegmentFrame :=
  match lg_files s !! p with Some f => frames_in f | None => [] end.

(** The events the segments hold, in the order of the listing. *)
Definition store_events (s : Logger) (paths : list string) : list BodyRecord :=
  concat (map (fun p => map (located p) (frames_at_path s p)) paths).

(** Every event has its blob, and every blob is in a segment. *)
Definition indexed (ix : Index) : Prop :=
  Forall (fun e => is_Some (ix_blobs ix !! bo_body_sha256 e)) (ix_events ix)
  /\ map_Forall (fun _ row => is_segment_storage (bb_storage row) = true) (ix_blobs ix).

Lemma segment_storage_ok p : is_segment_storage (segment_storage cfg p) = true.
Proof. unfold segment_storage. by destruct (strip_prefix _ p). Qed.

Lemma insert_located_ok files ix p fr f :
  map_Forall (blob_ok files) (ix_blobs ix) -> indexed ix -> files !! p = Some f -> fr ∈ frames_in f ->
  bo_event_id (sf_record fr) ∉ event_ids ix ->
  exists ix', insert_record_on ix (located p fr) = (Ok tt, ix') /\ map_Forall (blob_ok files) (ix_blobs ix')
    /\ indexed ix' /\ ix_events ix' = ix_events ix ++ [located p fr].
Proof.
  intros Hb [Hi1 Hi2] Hf Hin Hid.
  destruct (insert_blob_ok files ix (located p fr) Hb) as (G1 & G2 & G3); [by exists f, fr|].
  unfold insert_record_on, insert_event_only_on. change (ix_events (insert_blob ix (located p fr))) with (ix_events ix).
  destruct (find_event _ _) eqn:E; [exfalso; apply Hid, find_event_ids; by eexists|].
  eexists. split_and!; [done|exact G1| |done]. split; cbn.
  - apply Forall_app. split; [|by constructor].
    eapply List.Forall_impl; [|exact Hi1]. intros e He. by apply G3.
  - destruct (ix_blobs ix !! _); [done|]. apply map_Forall_insert_2; [apply segment_storage_ok|done].
Qed.

Lemma rebuild_replay p : forall frames s,
  map_Forall (blob_ok (lg_files s)) (ix_blobs (lg_index s)) -> indexed (lg_index s) ->
  Forall (fun fr => exists f, lg_files s !! p = Some f /\ fr ∈ frames_in f) frames ->
  NoDup (event_ids (lg_index s) ++ map bo_event_id (map (located p) frames)) ->
  exists ix, for_each (replay_frame cfg true p) frames s = (Ok tt, with_index ix s)
    /\ map_Forall (blob_ok (lg_files s)) (ix_blobs ix) /\ indexed ix
    /\ ix_events ix = ix_events (lg_index s) ++ map (located p) frames.
Proof.
  intros frames; induction frames as [|fr frames IH]; intros s Hb Hi Hf Hnd.
  { exists (lg_index s). rewrite app_nil_r. split_and!; [by destruct s|done..]. }
  apply Forall_cons_1 in Hf as [(f & Hf1 & Hf2) Hf3]. cbn [map] in Hnd.
  destruct (insert_located_ok (lg_files s) (lg_index s) p fr f) as (ix1 & E & G1 & G2 & G3); [done..| |].
  { apply list.NoDup_app in Hnd as (_ & Hd & _). intros Hx. apply (Hd _ Hx). left. }
  destruct (IH (with_index ix1 s)) as (ix & E' & K1 & K2 & K3); [done|done|done| |].
  { unfold event_ids. cbn [lg_index with_index]. rewrite G3, map_app, <- app_assoc. exact Hnd. }
  assert (E1 : replay_frame cfg true p fr s = (Ok tt, with_index ix1 s)).
  { unfold replay_frame. fold (located p fr). by rewrite E. }
  exists ix. cbn [for_each]. unfold bind. rewrite E1, E'. split_and!; [done..|].
  rewrite K3. cbn [lg_index with_index]. by rewrite G3, <- app_assoc.
Qed.

Lemma store_events_app s a b : store_events s (a ++ b) = store_events s a ++ store_events s b.
Proof. unfold store_events. by rewrite map_app, concat_app. Qed.

(** A lost index is rebuilt from the segments alone, also after a crash: the
    events are those of the frames, each where it was found, every event's body is
    read back, and the store can be used on. *)
Theorem rebuild_complete paths s read_legacy :
  map_Forall file_ok (lg_files s) -> stopped s -> listing paths s ->
  NoDup (map bo_event_id (store_events s paths)) ->
  exists s', start cfg from_slice zstd_decode crc32 sha256_hex None paths s = (Ok tt, s')
    /\ usable s' /\ ix_events (lg_index s') = store_events s paths
    /\ forall e, e ∈ store_events s paths ->
       exists b, read_blob from_slice zstd_decode crc32 sha256_hex read_legacy s' (bo_body_sha256 e) = Ok b
         /\ sha256_hex b = bo_body_sha256 e.
Proof.
  clear pid date_parts. intros Hc Hs Hl Hnd. pose proof (listing_all _ _ Hl) as Hall. unfold start, bind, modify. cbn [default].
  set (s0 := with_pressure _ _).
  set (P := fun (l : list string) ix => exists done, paths = done ++ l /\ ix_events ix = store_events s done /\ indexed ix).
  destruct (recover_loop true (lg_files s) P) with (paths := paths) (s := s0)
    as (s' & E & G1 & (done & Hd & Ge & Gi) & G3 & _ & G5 & G6).
  - intros p rest f ix Hf (done & Hd & He & Hi). split; [|done]. intros _ s1 <- Hb Hin.
    assert (Hfr : frames_at_path s p = frames_in f) by (unfold frames_at_path; by rewrite Hf).
    destruct (rebuild_replay p (frames_in f) s1 Hb Hi Hin) as (ix' & E & K1 & K2 & K3).
    { rewrite Hd, store_events_app, map_app in Hnd. unfold event_ids. rewrite He.
      unfold store_events in Hnd at 2. cbn [map concat] in Hnd. rewrite Hfr, map_app, app_assoc in Hnd.
      by apply list.NoDup_app in Hnd as (Hnd & _). }
    exists ix'. split_and!; [done..|]. exists (done ++ [p]). rewrite <- app_assoc. split_and!; [done| |done].
    rewrite K3, He, store_events_app. unfold store_events at 3. cbn [map concat]. by rewrite Hfr, app_nil_r.
  - intros l ix ix' Eb Ee (done & Hd & He & Hi). exists done. unfold indexed. by rewrite Ee, Eb.
  - intros p Hp. split_and!; [done|by apply (proj1 (proj2 Hl p))|]. cbn. rewrite (proj2 Hs). set_solver.
  - apply Hl.
  - split; [done|]. cbn. intros d row Hd. by rewrite lookup_empty in Hd.
  - exists []. split_and!; [done|done|]. split; [constructor|]. cbn. intros d row Hd. by rewrite lookup_empty in Hd.
  - rewrite app_nil_r in Hd. subst done.
    assert (Hu : usable s') by (apply (recovered_usable paths s); done).
    exists s'. split_and!; [done|done|done|]. intros e He. rewrite <- Ge in He. destruct Gi as [Gi1 Gi2].
    destruct (proj1 (Forall_forall _ _) Gi1 e) as [row Hrow]; [by apply list_elem_of_In|].
    apply (read_blob_ok read_legacy s' _ row Hu Hrow). by apply (Gi2 _ _ Hrow).
Qed.
End Store.

(** ** Samples *)

Module SegmentsSamples.

(** A codec that satisfies the laws: the fields of a record as one string of bits,
    no compression, and a digest that is the body itself. *)
Fixpoint bits (p : positive) : string :=
  match p with
  | xH => EmptyString
  | xO p => String "0" (bits p)
  | xI p => String "1" (bits p)
  end.

Fixpoint unbits (s : string) : positive :=
  match s with
  | EmptyString => xH
  | String c s => if Ascii.eqb c "0" then xO (unbits s) else xI (unbits s)
  end.

Lemma unbits_bits p : unbits (bits p) = p.
Proof. induction p as [p IH|p IH|]; cbn; by rewrite ?IH. Qed.

Definition fields (r : BodyRecord) : list positive :=
  [encode (bo_event_id r); encode (bo_request_id r); encode (bo_observed_at_unix_ms r);
   encode (bo_capture_stage r); encode (bo_protocol r); encode (bo_upstream r); encode (bo_model r);
   encode (bo_status r); encode (bo_content_type r); encode (bo_body_sha256 r); encode (bo_body_bytes r);
   encode (bo_compressed_bytes r); encode (bo_archive_path r); encode (bo_storage r);
   encode (bo_protected r); encode (bo_redaction_state r); encode (bo_threshold_shrunk r)].

Definition of_fields (l : list positive) : option BodyRecord :=
  match l with
  | [a; b; c; d; e; f; g; h; i; j; k; l; m; n; o; p; q] =>
      a ← decode a; b ← decode b; c ← decode c; d ← decode d; e ← decode e; f ← decode f; g ← decode g;
      h ← decode h; i ← decode i; j ← decode j; k ← decode k; l ← decode l; m ← decode m; n ← decode n;
      o ← decode o; p ← decode p; q ← decode q;
      Some (mkBodyRecord a b c d e f g h i j k l m n o p q JNull)
  | _ => None
  end.

Definition to_bits (r : BodyRecord) : string := bits (positives_flatten (fields r)).

Definition of_bits (s : string) : result BodyRecord string :=
  match positives_unflatten (unbits s) ≫= of_fields with
  | Some r => Ok r
  | None => Err "expected value"
  end.

Definition plain (s : string) : result string string := Ok s.
Fixpoint add_bytes (n : Z) (s : string) : Z :=
  match s with EmptyString => n | String c s => add_bytes ((3 * n + Z.of_nat (nat_of_ascii c)) mod 2 ^ 32) s end.
Definition checksum (s : string) : Z := add_bytes 0 s mod 2 ^ 32.
Definition digest (s : string) : string := "#" ^^ s.
Definition no_metadata (m : Json) : Prop := m = JNull.

Lemma fields_back r : bo_metadata r = JNull -> of_fields (fields r) = Some r.
Proof.
  intros H. unfold fields, of_fields. rewrite !decode_encode. cbn. rewrite <- H. by destruct r.
Qed.

#[local] Instance sample_laws : CodecLaws no_metadata to_bits of_bits plain plain checksum.
Proof.
  split.
  - intros r H. unfold of_bits, to_bits. rewrite unbits_bits, positives_unflatten_flatten. cbn [mbind option_bind].
    by rewrite fields_back.
  - intros p c [= <-]. done.
  - intros s. unfold checksum. apply Z.mod_pos_bound. lia.
Defined.

Definition sample_config : BodyLoggerConfig := mkBodyLoggerConfig "/s" "/a" 100.
Definition sample_date (ms : Z) : Z * Z * Z := (2026, 7, 27).
Definition db_up : Db := mkDb (Ok tt) (Ok tt).
Definition fresh (s : gmap string SegmentFile) (ix : Index) : Logger :=
  mkLogger s ∅ ix None 1 1 (load FileMissing).
Definition empty_logger : Logger := fresh ∅ empty_index.

Definition input (request body : string) : BodyEventInput :=
  mkBodyEventInput request ClientInbound "openai" None None None None JNull body.

#[local] Abbreviation record := (record_segmented_at sample_config 7 sample_date to_bits of_bits plain plain checksum digest).
#[local] Abbreviation sealing_now := (seal_active of_bits plain checksum digest).
#[local] Abbreviation starting := (start sample_config of_bits plain checksum digest).
#[local] Abbreviation reading := (read_blob of_bits plain checksum digest (fun _ => Err "no such file")).

(** The logger after an operation, and whether it succeeded. *)
Definition after {A} (m : M A) (s : Logger) : Logger := (m s).2.
Definition worked {A} (out : result A string * Logger) : bool := match out.1 with Ok _ => true | Err _ => false end.

Definition two : Logger :=
  after (record true None db_up (input "r2" "world") 2000) (after (record true None db_up (input "r1" "hello") 1000) empty_logger).

Example two_read :
  (reading two "#hello", reading two "#world", reading two "#none")
  = (Ok "hello", Ok "world", Err "body blob not indexed").
Proof. vm_compute. reflexivity. Qed.

(** The segment all samples write to. *)
Definition segment1 : string := "/a/2026/07/27/segments/capture-0-p7-1.sbcap".

Lemma empty_usable :
  usable no_metadata to_bits of_bits plain plain checksum digest empty_logger.
Proof.
  split; [split; [split|]|]; [| |intros a [=]|]; intros ?? E; cbn in E; by rewrite lookup_empty in E.
Qed.

(** A capture whose second write is cut off, and the machine stops. *)
Definition torn_store : Logger :=
  crash (after (record true (Some 30%nat) db_up (input "r2" "world") 2000)
    (after (record true None db_up (input "r1" "hello") 1000) empty_logger)).

Lemma torn_contents : contents_ok no_metadata to_bits of_bits plain plain checksum digest torn_store.
Proof.
  pose proof (record_ok sample_config 7 sample_date no_metadata to_bits of_bits plain plain checksum digest
    true None db_up (input "r1" "hello") 1000 empty_logger empty_usable eq_refl) as H.
  unfold torn_store, after. destruct (record true None db_up _ 1000 empty_logger) as [res s1].
  destruct H as (_ & _ & Hu & _). specialize (Hu eq_refl). cbn [snd].
  pose proof (record_ok sample_config 7 sample_date no_metadata to_bits of_bits plain plain checksum digest
    true (Some 30%nat) db_up (input "r2" "world") 2000 s1 Hu eq_refl) as H.
  destruct (record true (Some 30%nat) db_up _ 2000 s1) as [res2 s2]. exact (proj1 H).
Qed.

Lemma torn_files : lg_files torn_store = <[segment1 := default (mkSegmentFile EmptyString None)
  (lg_files torn_store !! segment1)]> ∅.
Proof. vm_compute. reflexivity. Qed.

Lemma torn_listing : listing [segment1] torn_store.
Proof.
  split; [by apply NoDup_singleton|]. intros p. rewrite torn_files, list_elem_of_singleton. split.
  - intros ->. rewrite lookup_insert_eq. by eexists.
  - intros Hp. destruct (decide (p = segment1)) as [|Hn]; [done|].
    rewrite lookup_insert_ne, lookup_empty in Hp by done. by destruct Hp.
Qed.


Lemma recovery_restores_witness :
  exists s', recover_segments sample_config of_bits plain checksum digest false [segment1] torn_store = (Ok tt, s')
    /\ usable no_metadata to_bits of_bits plain plain checksum digest s'.
Proof.
  destruct (recovery_restores sample_config no_metadata to_bits of_bits plain plain checksum digest
    [segment1] torn_store torn_contents (conj eq_refl eq_refl) torn_listing) as (s' & E & Hu & _).
  exists s'. split; [exact E|exact Hu].
Defined.

Lemma rebuild_complete_witness :
  exists s', starting None [segment1] torn_store = (Ok tt, s')
    /\ length (ix_events (lg_index s')) = 1%nat.
Proof.
  destruct (rebuild_complete sample_config no_metadata to_bits of_bits plain plain checksum digest
    [segment1] torn_store (fun _ => Err "no such file") (proj1 torn_contents) (conj eq_refl eq_refl) torn_listing)
    as (s' & E & _ & Ev & _).
  - vm_compute. apply NoDup_singleton.
  - exists s'. split; [exact E|]. rewrite Ev. vm_compute. reflexivity.
Defined.

(** A write that fails half way leaves its bytes in the segment, and the retry
    appends after them: it is reported done, but the segment cannot be read, sealed or
    recovered any more. *)
Definition retried : result BodyRecord string * Logger :=
  record true None db_up (input "r2" "world") 2000
    (after (record true (Some 30%nat) db_up (input "r2" "world") 2000)
      (after (record true None db_up (input "r1" "hello") 1000) empty_logger)).

Lemma retry_after_torn_append :
  (worked retried, reading retried.2 "#hello", reading retried.2 "#world",
   worked (sealing_now retried.2), worked (starting (Some (lg_index retried.2)) [segment1] (crash retried.2)))
  = (true, Err "capture segment record checksum mismatch", Err "capture segment record checksum mismatch",
     false, false).
Proof. vm_compute. reflexivity. Qed.

(** A crash between the creation of a segment and its header: the next start fails. *)
Lemma short_segment_blocks_start :
  (starting (Some empty_index) [segment1] (fresh {[segment1 := mkSegmentFile "SBC" None]} empty_index)).1
  = Err ("capture segment header incomplete: " ^^ segment1).
Proof. vm_compute. reflexivity. Qed.

(** A rebuild that fails leaves an index behind, and the start after it takes that
    index for whole: the events of the sealed segment are not there. *)
Definition sealed_store : Logger := crash (after sealing_now two).

Definition failed_rebuild : Logger :=
  (starting None ["/a/x.sbcap"; segment1]
     (fresh (<["/a/x.sbcap" := mkSegmentFile EmptyString None]> (lg_files sealed_store)) empty_index)).2.

Lemma interrupted_rebuild_not_resumed :
  let s := starting (Some (lg_index failed_rebuild)) [segment1] (fresh (lg_files sealed_store) empty_index) in
  (worked s, length (ix_events (lg_index s.2)), reading s.2 "#hello",
   length (ix_events (lg_index (starting None [segment1] sealed_store).2)))
  = (true, 0%nat, Err "body blob not indexed", 2%nat).
Proof. vm_compute. reflexivity. Qed.
End SegmentsSamples.
