(* ===== verification/Enrollment.v ===== *)
(** * Enrollment of provider accounts

    The authority over provider accounts ([crates/sb-credentials/src/provider_accounts/]):
    aliases and their normalization, the importers of other tools' files, reconciliation
    of what they observe with the enrolled accounts, the revisions in the database,
    resolution of an alias and adjudication. SHA-256, the JSON parser, Unicode
    normalization, base64 and the date parser are parameters; the file system is a record
    of what is found in it, and what other processes commit to the database meanwhile is an
    argument. Failures of SQLite other than a violated key and the permissions of the
    database file are left out; a stored snapshot is read back as it was written. *)

From Stdlib Require Import ZArith Lia Ascii.
From stdpp Require Import base list strings option gmap.
From S2P Require Import Prelude Text Lines BTree Float Ir Value Access Framing FramingTheorems Execution.

#[local] Open Scope Z_scope.
#[local] Open Scope switchback_scope.

(** ** Data *)

Definition NORMALIZATION_VERSION : string := "provider-alias/v1".
Definition POLICY_VERSION : string := "provider-reconciliation/v0".

Inductive AliasScheme :=
| OpenAiAccountUuid | CodexBarAccountKey | CodexMultiAuthAccountId | OpenAiOrgId
| AnthropicAccountUuid | AnthropicOrgUuid | ZaiTokenAccountId | Email | Label.

#[export] Instance alias_scheme_eq_dec : EqDecision AliasScheme.
Proof. solve_decision. Defined.

(** The rank and the printed name of a scheme. *)
Definition scheme_rank (s : AliasScheme) : Z :=
  match s with
  | OpenAiAccountUuid | AnthropicAccountUuid => 1
  | CodexBarAccountKey => 2
  | CodexMultiAuthAccountId | ZaiTokenAccountId => 3
  | OpenAiOrgId | AnthropicOrgUuid => 4
  | Email => 5
  | Label => 6
  end.

Definition scheme_as_str (s : AliasScheme) : string :=
  match s with
  | OpenAiAccountUuid => "openai.account_uuid"
  | CodexBarAccountKey => "codexbar.account_key"
  | CodexMultiAuthAccountId => "codex_multi_auth.account_id"
  | OpenAiOrgId => "openai.org_id"
  | AnthropicAccountUuid => "anthropic.account_uuid"
  | AnthropicOrgUuid => "anthropic.org_uuid"
  | ZaiTokenAccountId => "zai.token_account_id"
  | Email => "email"
  | Label => "label"
  end.

Definition scheme_provider (s : AliasScheme) : option string :=
  match s with
  | OpenAiAccountUuid | OpenAiOrgId | CodexBarAccountKey | CodexMultiAuthAccountId => Some "openai"
  | AnthropicAccountUuid | AnthropicOrgUuid => Some "anthropic"
  | ZaiTokenAccountId => Some "zai"
  | Email | Label => None
  end.

Definition strong_identity_provider (s : AliasScheme) : option string :=
  match s with
  | OpenAiAccountUuid => Some "openai"
  | AnthropicAccountUuid => Some "anthropic"
  | ZaiTokenAccountId => Some "zai"
  | _ => None
  end.

Definition scheme_from_str (value : string) : result AliasScheme string :=
  if one_of ["openai.account_uuid"; "account_uuid"; "uuid"] value then Ok OpenAiAccountUuid
  else if one_of ["codexbar.account_key"; "account_key"] value then Ok CodexBarAccountKey
  else if one_of ["codex_multi_auth.account_id"; "account_id"] value then Ok CodexMultiAuthAccountId
  else if one_of ["openai.org_id"; "org_id"] value then Ok OpenAiOrgId
  else if str_eqb value "anthropic.account_uuid" then Ok AnthropicAccountUuid
  else if str_eqb value "anthropic.org_uuid" then Ok AnthropicOrgUuid
  else if str_eqb value "zai.token_account_id" then Ok ZaiTokenAccountId
  else if str_eqb value "email" then Ok Email
  else if str_eqb value "label" then Ok Label
  else Err ("unsupported alias scheme: " ^^ value).

(** An alias before normalization: the enum has one constructor per scheme. *)
Record ProviderAccountAlias := mkAlias { al_scheme : AliasScheme; al_raw : string }.

Record NormalizedAlias := mkNormalizedAlias {
  na_scheme : AliasScheme;
  na_value : string;
  na_display : string;
  na_rank : Z
}.

Inductive ImportSource :=
| CodexActiveAuth | SwitchbackCodexRegistry | CodexMultiAuth | CodexMultiAuthQuota | CodexBar
| ClaudeAuth | CodexBarConfig.

#[export] Instance import_source_eq_dec : EqDecision ImportSource.
Proof. solve_decision. Defined.

Definition source_as_str (s : ImportSource) : string :=
  match s with
  | CodexActiveAuth => "codex_active_auth"
  | SwitchbackCodexRegistry => "switchback_codex_registry"
  | CodexMultiAuth => "codex_multi_auth"
  | CodexMultiAuthQuota => "codex_multi_auth_quota"
  | CodexBar => "codex_bar"
  | ClaudeAuth => "claude_auth"
  | CodexBarConfig => "codexbar_config"
  end.

(** [{:?}] of a source. *)
Definition source_debug (s : ImportSource) : string :=
  match s with
  | CodexActiveAuth => "CodexActiveAuth"
  | SwitchbackCodexRegistry => "SwitchbackCodexRegistry"
  | CodexMultiAuth => "CodexMultiAuth"
  | CodexMultiAuthQuota => "CodexMultiAuthQuota"
  | CodexBar => "CodexBar"
  | ClaudeAuth => "ClaudeAuth"
  | CodexBarConfig => "CodexBarConfig"
  end.

(** The derived order is that of the declaration. *)
Definition source_index (s : ImportSource) : Z :=
  match s with
  | CodexActiveAuth => 0 | SwitchbackCodexRegistry => 1 | CodexMultiAuth => 2 | CodexMultiAuthQuota => 3
  | CodexBar => 4 | ClaudeAuth => 5 | CodexBarConfig => 6
  end.

Inductive AliasBindingState := Bound | ParkedConflict | Superseded.

#[export] Instance binding_state_eq_dec : EqDecision AliasBindingState.
Proof. solve_decision. Defined.

Record AliasBinding := mkAliasBinding {
  ab_scheme : AliasScheme;
  ab_normalized_value : string;
  ab_display : string;
  ab_source : ImportSource;
  ab_source_record_key : string;
  ab_first_seen_at_ms : Z;
  ab_last_seen_at_ms : Z;
  ab_binding_state : AliasBindingState
}.

Inductive EnrollmentState := Enrolled | Parked | Retired.

#[export] Instance enrollment_state_eq_dec : EqDecision EnrollmentState.
Proof. solve_decision. Defined.

Record ProviderAccountEnrollment := mkEnrollment {
  pe_id : string;
  pe_provider : string;
  pe_state : EnrollmentState;
  pe_aliases : list AliasBinding;
  pe_created_revision : Z;
  pe_updated_revision : Z;
  pe_created_at_ms : Z;
  pe_updated_at_ms : Z;
  pe_superseded_by : option string
}.

Inductive NativeTokenPointer := AccessToken.

Inductive CredentialPointer :=
| PtrRegistry (slot : string) (json_pointer : NativeTokenPointer)
| PtrActiveAuth (json_pointer : NativeTokenPointer)
| PtrConfigured (provider_id account_id : string).

#[export] Instance token_pointer_eq_dec : EqDecision NativeTokenPointer.
Proof. solve_decision. Defined.
#[export] Instance credential_pointer_eq_dec : EqDecision CredentialPointer.
Proof. solve_decision. Defined.

Inductive CredentialKind := KindOAuth | KindApiKey.

Inductive CredentialReadiness := Ready | CredMissing | Expired | Conflict | Stale.

#[export] Instance readiness_eq_dec : EqDecision CredentialReadiness.
Proof. solve_decision. Defined.

Record CredentialMetadata := mkCredential {
  cm_account_id : string;
  cm_pointer : CredentialPointer;
  cm_credential_kind : CredentialKind;
  cm_access_present : bool;
  cm_refresh_present : bool;
  cm_id_token_present : bool;
  cm_expires_at_ms : option Z;
  cm_source_revision : string;
  cm_observed_at_ms : Z;
  cm_readiness : CredentialReadiness
}.

Inductive Freshness := FFresh | FStale | FUnknown | FError.

Inductive ActiveAccountSource := ActiveFromCodex | ActiveUnknown.

Record ActiveRun := mkActiveRun { ar_pid : Z; ar_account_label : string; ar_started : string }.

(** The client is Codex and its session mode is shared: the enums have no other value. *)
Record ActiveClientState := mkActiveClientState {
  acs_active_account : option string;
  acs_active_source : ActiveAccountSource;
  acs_active_runs : list ActiveRun;
  acs_source_revision : string;
  acs_observed_at_ms : Z;
  acs_freshness : Freshness
}.

Inductive CapacityWindowKind :=
| WPrimary | WSecondary | WRequestsPerMinute | WTokensPerMinute | WConcurrentSessions
| WProviderDefined (name : string).

#[export] Instance window_kind_eq_dec : EqDecision CapacityWindowKind.
Proof. solve_decision. Defined.

(** The derived order: by constructor, then by the name. *)
Definition kind_index (k : CapacityWindowKind) : Z :=
  match k with
  | WPrimary => 0 | WSecondary => 1 | WRequestsPerMinute => 2 | WTokensPerMinute => 3
  | WConcurrentSessions => 4 | WProviderDefined _ => 5
  end.

Definition kind_name (k : CapacityWindowKind) : string :=
  match k with WProviderDefined n => n | _ => EmptyString end.

Definition kind_cmp : CapacityWindowKind -> CapacityWindowKind -> comparison :=
  fun a b => match Z.compare (kind_index a) (kind_index b) with
             | Eq => String.compare (kind_name a) (kind_name b)
             | c => c
             end.

Inductive CapacityUsed :=
| UsedPercent (used_percent : f64)
| UsedRequests (used : Z) (limit : option Z)
| UsedTokens (used : Z) (limit : option Z)
| UsedConcurrent (in_use : Z) (limit : option Z)
| UsedUnknown.

Inductive CapacityReset := ResetAt (resets_at_ms : Z) | ResetRolling | ResetUnknown.

Record CapacityWindow := mkCapacityWindow {
  cw_window_kind : CapacityWindowKind;
  cw_window_minutes : option Z;
  cw_used : CapacityUsed;
  cw_resets_at : CapacityReset;
  cw_source : ImportSource
}.

Record AccountCapacityHealth := mkCapacityHealth {
  ch_account_id : string;
  ch_model : option string;
  ch_windows : list CapacityWindow;
  ch_sampled_at_ms : Z;
  ch_ingested_at_ms : Z;
  ch_source_revision : string;
  ch_freshness : Freshness
}.

Inductive SourceReadStatus :=
| StOk | StMissing | StMalformed | StUnsafePermissions | StConcurrentWrite | StError.

#[export] Instance read_status_eq_dec : EqDecision SourceReadStatus.
Proof. solve_decision. Defined.

Record ImportSourceStatus := mkSourceStatus {
  iss_source : ImportSource;
  iss_fingerprint : option string;
  iss_status : SourceReadStatus;
  iss_observed_at_ms : Z;
  iss_last_good_revision : option Z;
  iss_detail : option string
}.

Record ProviderAccountSnapshot := mkSnapshot {
  ps_revision : Z;
  ps_freshness : Freshness;
  ps_accounts : list ProviderAccountEnrollment;
  ps_credentials : list CredentialMetadata;
  ps_active_clients : list ActiveClientState;
  ps_capacity : list AccountCapacityHealth;
  ps_sources : list ImportSourceStatus;
  ps_conflicts : list string
}.

Definition snapshot_empty : ProviderAccountSnapshot := mkSnapshot 0 FUnknown [] [] [] [] [] [].

Inductive AuthorityError :=
| EAbsent | EReadOnly | EConcurrentWrite | ERevisionConflict
| EInvalidAlias (m : string) | EMalformedSource (m : string) | EUnsafeSource (m : string)
| ESourceRead (m : string) | ECredentialConflict (m : string)
| EStaleRevision (expected current : Z)
| EResolution (m : string) | EStore (m : string) | ESqlite (m : string).

Definition authority_error_display (e : AuthorityError) : string :=
  match e with
  | EAbsent => "provider-account authority is absent"
  | EReadOnly => "authority is read-only"
  | EInvalidAlias m => "invalid alias: " ^^ m
  | EMalformedSource m => "malformed source: " ^^ m
  | EUnsafeSource m => "unsafe source: " ^^ m
  | ESourceRead m => "source read failed: " ^^ m
  | EConcurrentWrite => "source changed while being read"
  | ECredentialConflict m => "credential identity conflict: " ^^ m
  | ERevisionConflict => "authority revision conflict"
  | EStaleRevision expected current =>
      "stale revision: expected " ^^ fmt_int expected ^^ ", current " ^^ fmt_int current
  | EResolution m => "account resolution failed: " ^^ m
  | EStore m => "authority store: " ^^ m
  | ESqlite m => m
  end.

Record Observation := mkObservation {
  ob_source : ImportSource;
  ob_record_key : string;
  ob_fingerprint : string;
  ob_aliases : list NormalizedAlias;
  ob_credential : option CredentialMetadata;
  ob_capacity : list AccountCapacityHealth;
  ob_active : bool;
  ob_runs : list ActiveRun
}.

Record ImportBatch := mkImportBatch {
  ib_source : ImportSource;
  ib_fingerprint : option string;
  ib_status : SourceReadStatus;
  ib_detail : option string;
  ib_observations : list Observation
}.

Definition batch_failed (source : ImportSource) (status : SourceReadStatus) (detail : string) : ImportBatch :=
  mkImportBatch source None status (Some detail) [].

(** ** Files *)

Record Metadata := mkMetadata {
  md_is_file : bool;
  md_uid : Z;
  md_mode : Z;
  md_dev : Z;
  md_ino : Z;
  md_len : Z;
  md_mtime : Z;
  md_mtime_nsec : Z
}.

(** What one turn of [stable_read] meets: errors are their texts. *)
Record ReadTurn := mkReadTurn {
  rt_before : result Metadata string;
  rt_bytes : result string string;
  rt_after : result Metadata string
}.

Inductive DirError := DirNotFound | DirOther (m : string).

Record SourceFs := mkSourceFs {
  fs_exists : string -> bool;
  fs_file_name : string -> option string;
  fs_open : string -> nat -> result unit string;
  fs_read : string -> nat -> ReadTurn;
  fs_parent_mode : string -> option (result Z string);
  fs_dir : string -> result (list string) DirError;
  fs_euid : Z
}.

Definition map_err {A E F} (f : E -> F) (r : result A E) : result A F :=
  match r with Ok a => Ok a | Err e => Err (f e) end.

Definition source_kind_path (fs : SourceFs) (path : string) : string :=
  if bool_decide (fs_file_name fs path = Some "auth.json") then "codex_active_auth"
  else "provider_account_source".

Definition validate_metadata (fs : SourceFs) (path : string) (meta : Metadata) (token_bearing : bool)
  : result unit AuthorityError :=
  if negb (md_is_file meta) then Err (EUnsafeSource "source is not a regular file")
  else if negb (md_uid meta =? fs_euid fs) then Err (EUnsafeSource "source owner differs from current user")
  else if (token_bearing && negb (Z.land (md_mode meta) 63 =? 0))
          || (negb token_bearing && negb (Z.land (md_mode meta) 18 =? 0))
  then Err (EUnsafeSource "unsafe source permissions")
  else if token_bearing then
    match fs_parent_mode fs path with
    | None => Ok tt
    | Some (Err e) => Err (ESourceRead e)
    | Some (Ok pmode) =>
        if negb (Z.land pmode 18 =? 0) then Err (EUnsafeSource "unsafe parent permissions") else Ok tt
    end
  else Ok tt.

Definition stamp (m : Metadata) : Z * Z * Z * Z * Z :=
  (md_dev m, md_ino m, md_len m, md_mtime m, md_mtime_nsec m).

(** 0o077 is 63 and 0o022 is 18. *)
Definition read_turn (fs : SourceFs) (path : string) (limit : Z) (token_bearing : bool) (turn : nat)
  : result (option string) AuthorityError :=
  let? _ := map_err (fun e => ESourceRead (source_kind_path fs path ^^ ": " ^^ e)) (fs_open fs path turn) in
  let t := fs_read fs path turn in
  let? before := map_err ESourceRead (rt_before t) in
  let? _ := validate_metadata fs path before token_bearing in
  if limit <? md_len before then Err (ESourceRead "source exceeds size limit")
  else
    let? bytes := map_err ESourceRead (rt_bytes t) in
    if limit <? byte_len bytes then Err (ESourceRead "source exceeds size limit")
    else
      let? after := map_err ESourceRead (rt_after t) in
      Ok (if bool_decide (stamp before = stamp after) then Some bytes else None).

(** ** Normalization and import *)

Definition ellipsis : string := String "226" (String "128" (String "166" EmptyString)).
Definition nul : string := String "000" EmptyString.

(** The first [n] characters. *)
Fixpoint take_chars (n : nat) (s : string) : string :=
  match s with
  | EmptyString => EmptyString
  | String c rest =>
      let v := byte_val c in
      if (128 <=? v) && (v <? 192) then String c (take_chars n rest)
      else match n with O => EmptyString | S n => String c (take_chars n rest) end
  end.

Definition mask (value : string) : string := take_chars 4 value ^^ ellipsis.

Definition is_hexdigit (c : ascii) : bool :=
  let v := byte_val c in
  ((48 <=? v) && (v <=? 57)) || ((97 <=? v) && (v <=? 102)) || ((65 <=? v) && (v <=? 70)).

Fixpoint uuid_bytes (i : Z) (s : string) : bool :=
  match s with
  | EmptyString => true
  | String c s =>
      (if (i =? 8) || (i =? 13) || (i =? 18) || (i =? 23) then Ascii.eqb c "-" else is_hexdigit c)
      && uuid_bytes (i + 1) s
  end.

Definition normalize_uuid (value : string) : result string AuthorityError :=
  let value := to_ascii_lowercase value in
  if (byte_len value =? 36) && uuid_bytes 0 value then Ok value else Err (EInvalidAlias "invalid UUID").

Definition last_bytes (n : nat) (s : string) : string := drop_bytes (String.length s - n) s.

(** [base32_lower]: one byte. *)
Definition base32_digit (n : Z) : ascii :=
  default "a"%char (String.get (Z.to_nat n) "abcdefghijklmnopqrstuvwxyz234567").

Fixpoint base32_drain (fuel : nat) (buffer bits : Z) : string * Z :=
  match fuel with
  | O => (EmptyString, bits)
  | S fuel =>
      if 5 <=? bits then
        let '(out, rest) := base32_drain fuel buffer (bits - 5) in
        (String (base32_digit (Z.land (Z.shiftr buffer (bits - 5)) 31)) out, rest)
      else (EmptyString, bits)
  end.

Fixpoint base32_loop (buffer bits : Z) (s : string) : string :=
  match s with
  | EmptyString =>
      if 0 <? bits
      then String (base32_digit (Z.land (wrap32 (Z.shiftl buffer (5 - bits))) 31)) EmptyString
      else EmptyString
  | String c s =>
      let buffer := Z.lor (wrap32 (Z.shiftl buffer 8)) (byte_val c) in
      let '(out, rest) := base32_drain 2 buffer (bits + 8) in
      out ^^ base32_loop buffer rest s
  end.

Definition base32_lower (bytes : string) : string := base32_loop 0 0 bytes.

Fixpoint depth (v : Json) : Z :=
  match v with
  | JArray l => 1 + fold_right Z.max 0 (map depth l)
  | JObject l => 1 + fold_right Z.max 0 (map (fun '(_, x) => depth x) l)
  | _ => 1
  end.

Definition ends_with (suffix s : string) : bool :=
  (String.length suffix <=? String.length s)%nat && str_eqb (last_bytes (String.length suffix) s) suffix.

Definition invalid_slot (slot : string) : bool :=
  is_empty slot || (128 <? byte_len slot) || str_eqb slot "." || str_eqb slot ".."
  || contains "/" slot || contains "\" slot || contains nul slot.

(** Every line with its end. *)
Fixpoint split_inclusive (l : list string) : list string :=
  match l with
  | [] => []
  | [last] => if is_empty last then [] else [last]
  | line :: l => (line ^^ nl) :: split_inclusive l
  end.

Fixpoint trim_line_end (s : string) : string :=
  match s with
  | EmptyString => EmptyString
  | String c s =>
      let rest := trim_line_end s in
      if is_empty rest && ((byte_val c =? 10) || (byte_val c =? 13)) then EmptyString else String c rest
  end.

Definition malformed {A} (o : option A) (message : string) : result A AuthorityError :=
  match o with Some a => Ok a | None => Err (EMalformedSource message) end.

Definition source_error (source : ImportSource) (err : AuthorityError) : ImportBatch :=
  batch_failed source
    match err with
    | EConcurrentWrite => StConcurrentWrite
    | EUnsafeSource _ => StUnsafePermissions
    | EMalformedSource _ => StMalformed
    | _ => StError
    end (authority_error_display err).

Definition imported (source : ImportSource) (r : result (string * list Observation) AuthorityError) : ImportBatch :=
  match r with
  | Ok (fp, observations) => mkImportBatch source (Some fp) StOk None observations
  | Err e => source_error source e
  end.

Definition parse_u32 (s : string) : option Z := parse_u64 s ≫= to_u32.

Definition read_run (line : string) : option ActiveRun :=
  match split_char (ascii_of_nat 9) line with
  | pid :: label :: rest =>
      pid ← parse_u32 pid; Some (mkActiveRun pid label (match rest with s :: _ => s | [] => EmptyString end))
  | _ => None
  end.

(** Every step of the list in turn, with its position, until one fails. *)
Fixpoint try_each {A B} (f : Z -> A -> result B AuthorityError) (i : Z) (l : list A)
  : result (list B) AuthorityError :=
  match l with
  | [] => Ok []
  | x :: l => let? y := f i x in let? ys := try_each f (i + 1) l in Ok (y :: ys)
  end.

Definition freshness_of (now_ms sampled : Z) : Freshness :=
  if wrap_i64 (now_ms - sampled) <=? 900000 then FFresh else FStale.

Definition percent_used (v : option Json) : CapacityUsed :=
  match v ≫= as_f64 with
  | Some x => if is_finite x && f_le f64_zero x then UsedPercent x else UsedUnknown
  | None => UsedUnknown
  end.

Definition window_kind_of (name : string) : CapacityWindowKind :=
  if str_eqb name "primary" then WPrimary
  else if str_eqb name "secondary" then WSecondary
  else if str_eqb name "requests_per_minute" then WRequestsPerMinute
  else if str_eqb name "tokens_per_minute" then WTokensPerMinute
  else if str_eqb name "concurrent_sessions" then WConcurrentSessions
  else WProviderDefined name.

Section Importers.
Context (sha256 : string -> string) (parse_json : string -> result Json string).
Context (nfc to_lowercase : string -> string) (base64url : string -> option string).
Context (parse_rfc3339 : string -> option Z) (utf8_error : string -> string).

Definition hex_digest (bytes : string) : string := hex_bytes (sha256 bytes).

Definition deterministic_id (provider anchor : string) : string :=
  "pa_" ^^ first_bytes 26 (base32_lower (sha256
    ("switchback-provider-account" ^^ nul ^^ provider ^^ nul ^^ NORMALIZATION_VERSION ^^ nul ^^ anchor))).

Definition binding_id (b : AliasBinding) : string :=
  "pab_" ^^ first_bytes 24 (hex_digest
    (source_as_str (ab_source b) ^^ nul ^^ ab_source_record_key b ^^ nul ^^ scheme_as_str (ab_scheme b)
     ^^ nul ^^ ab_normalized_value b)).

Definition uuid_value (trimmed : string) : result (string * string) AuthorityError :=
  let? value := normalize_uuid trimmed in
  Ok (value, first_bytes 4 value ^^ ellipsis ^^ last_bytes 4 value).

Definition normalize_value (scheme : AliasScheme) (trimmed : string) : result (string * string) AuthorityError :=
  match scheme with
  | OpenAiAccountUuid | AnthropicAccountUuid | AnthropicOrgUuid | ZaiTokenAccountId => uuid_value trimmed
  | OpenAiOrgId =>
      if negb (starts_with "org-" trimmed || starts_with "org_" trimmed) || (byte_len trimmed <? 5)
      then Err (EInvalidAlias "invalid OpenAI org id") else Ok (trimmed, mask trimmed)
  | CodexBarAccountKey =>
      let parts := split_char ":" trimmed in
      if (length parts <? 4)%nat || negb (bool_decide (parts !! 0%nat = Some "codex"))
         || negb (bool_decide (parts !! 1%nat = Some "v1")) || existsb is_empty parts
      then Err (EInvalidAlias "invalid CodexBar account key")
      else Ok (trimmed, "codex:v1:***:" ^^ mask (List.last parts EmptyString))
  | CodexMultiAuthAccountId => Ok (trimmed, mask trimmed)
  | Email =>
      if (320 <? byte_len trimmed) || negb (contains "@" trimmed) then Err (EInvalidAlias "invalid email hint")
      else
        let normalized := to_lowercase (nfc trimmed) in
        let local := List.hd EmptyString (split_char "@" normalized) in
        Ok ("email_sha256:" ^^ hex_digest normalized,
            (if is_empty local then "*" else take_chars 1 local) ^^ "***@***")
  | Label =>
      if (128 <? byte_len trimmed) || str_eqb trimmed "." || str_eqb trimmed ".." || contains "/" trimmed
         || contains "\" trimmed
      then Err (EInvalidAlias "invalid label") else Ok (nfc trimmed, nfc trimmed)
  end.

Definition normalize_alias (alias : ProviderAccountAlias) : result NormalizedAlias AuthorityError :=
  let raw := al_raw alias in
  if (1024 <? byte_len raw) || contains nul raw then Err (EInvalidAlias "alias exceeds bounds")
  else if is_empty (trim raw) then Err (EInvalidAlias "alias is empty")
  else
    let? vd := normalize_value (al_scheme alias) (trim raw) in
    Ok (mkNormalizedAlias (al_scheme alias) vd.1 vd.2 (scheme_rank (al_scheme alias))).

(** Aliases that may be missing, in order. *)
Fixpoint normalize_present (l : list (AliasScheme * option string)) : result (list NormalizedAlias) AuthorityError :=
  match l with
  | [] => Ok []
  | (_, None) :: l => normalize_present l
  | (scheme, Some raw) :: l =>
      let? a := normalize_alias (mkAlias scheme raw) in
      let? rest := normalize_present l in
      Ok (a :: rest)
  end.

Definition stable_read (fs : SourceFs) (path : string) (limit : Z) (token_bearing : bool)
  : result (string * string) AuthorityError :=
  let? first := read_turn fs path limit token_bearing 0 in
  match first with
  | Some bytes => Ok (bytes, hex_digest bytes)
  | None =>
      let? second := read_turn fs path limit token_bearing 1 in
      match second with
      | Some bytes => Ok (bytes, hex_digest bytes)
      | None => Err EConcurrentWrite
      end
  end.

Definition json (bytes : string) (max_depth : Z) : result Json AuthorityError :=
  let? value := map_err EMalformedSource (parse_json bytes) in
  if max_depth <? depth value then Err (EMalformedSource "JSON nesting exceeds limit") else Ok value.

Definition jwt_claims (token : string) : option Json :=
  payload ← split_char "." token !! 1%nat;
  decoded ← base64url payload;
  match parse_json decoded with Ok v => Some v | Err _ => None end.

Definition is_string (v : option Json) : bool := match v with Some (JString _) => true | _ => false end.

(** The aliases of an auth file: of the account, of the claims in its id token, and of
    the registry slot. *)
Definition auth_aliases (tokens : Json) (slot : option string)
  : result (list NormalizedAlias * option Json) AuthorityError :=
  let? account := malformed (get_str "account_id" tokens) "tokens.account_id missing" in
  let? uuid := normalize_alias (mkAlias OpenAiAccountUuid account) in
  let id_claims := get_str "id_token" tokens ≫= jwt_claims in
  let? hints := match id_claims with
    | None => Ok []
    | Some claims =>
        let? _ := match get_str "https://api.openai.com/auth.chatgpt_account_id" claims with
          | None => Ok tt
          | Some claim =>
              let? n := normalize_alias (mkAlias OpenAiAccountUuid claim) in
              if str_eqb (na_value n) (na_value uuid) then Ok tt
              else Err (ECredentialConflict "ID token account differs from tokens.account_id")
          end in
        normalize_present
          ((Email, get_str "email" claims)
           :: map (fun org => (OpenAiOrgId, get_str "id" org))
                (default [] (get_array "https://api.openai.com/auth.organizations" claims)))
    end in
  let? label := normalize_present [(Label, slot)] in
  Ok (uuid :: hints ++ label, id_claims).

Definition import_auth_file (fs : SourceFs) (path : string) (source : ImportSource) (key : string)
    (slot : option string) (now_ms : Z) (active : bool) : result (string * Observation) AuthorityError :=
  let? file := stable_read fs path (1024 * 1024) true in
  let '(bytes, fingerprint) := file in
  let? root := json bytes 32 in
  let? tokens := malformed (get_object "tokens" root) "tokens object missing" in
  let? found := auth_aliases tokens slot in
  let '(aliases, id_claims) := found in
  let access_claims := get_str "access_token" tokens ≫= jwt_claims in
  let exp := match (or_else access_claims id_claims ≫= get "exp") ≫= as_i64 with
    | Some v => Some (wrap_i64 (v * 1000))
    | None => None
    end in
  let credential := mkCredential EmptyString
    (match slot with Some slot => PtrRegistry slot AccessToken | None => PtrActiveAuth AccessToken end)
    (if bool_decide (get_str "auth_mode" root = Some "apikey") then KindApiKey else KindOAuth)
    (is_string (get "access_token" tokens)) (is_string (get "refresh_token" tokens))
    (is_string (get "id_token" tokens)) exp fingerprint now_ms
    (match exp with Some v => if v <=? now_ms then Expired else Ready | None => Ready end) in
  Ok (fingerprint, mkObservation source key fingerprint aliases (Some credential) [] active []).

Definition import_active (fs : SourceFs) (path : string) (now_ms : Z) : ImportBatch :=
  imported CodexActiveAuth
    (let? r := import_auth_file fs path CodexActiveAuth "active" None now_ms true in Ok (r.1, [r.2])).

Fixpoint import_slots (fs : SourceFs) (dir : string) (now_ms : Z) (names : list string)
  : result (list (string * Observation)) ImportBatch :=
  match names with
  | [] => Ok []
  | name :: names =>
      if negb (valid_utf8 name) || negb (ends_with ".json" name)
         || bool_decide (fs_file_name fs dir = Some "backups")
      then import_slots fs dir now_ms names
      else
        let slot := first_bytes (String.length name - 5) name in
        if invalid_slot slot
        then Err (batch_failed SwitchbackCodexRegistry StMalformed "invalid registry slot label")
        else
          let? r := map_err (source_error SwitchbackCodexRegistry)
            (import_auth_file fs (dir ^^ "/" ^^ name) SwitchbackCodexRegistry slot (Some slot) now_ms false) in
          let? rest := import_slots fs dir now_ms names in
          Ok (r :: rest)
  end.

Definition read_small_text (fs : SourceFs) (path : string) : option string :=
  match stable_read fs path 4096 false with
  | Err _ => None
  | Ok (bytes, _) =>
      if valid_utf8 bytes && negb (invalid_slot (trim bytes)) then Some (trim bytes) else None
  end.

Definition read_runs (fs : SourceFs) (path : string) : list ActiveRun :=
  match stable_read fs path (1024 * 1024) false with
  | Err _ => []
  | Ok (bytes, _) => if valid_utf8 bytes then omap read_run (lines bytes) else []
  end.

Definition import_registry (fs : SourceFs) (path : string) (now_ms : Z) : ImportBatch :=
  let source := SwitchbackCodexRegistry in
  match fs_dir fs path with
  | Err DirNotFound => batch_failed source StMissing "registry missing"
  | Err (DirOther e) => batch_failed source StError e
  | Ok names =>
      match import_slots fs path now_ms (sort_by String.compare names) with
      | Err batch => batch
      | Ok found =>
          let active := read_small_text fs (path ^^ "/.active") in
          let runs := read_runs fs (path ^^ "/.runs") in
          mkImportBatch source (Some (hex_digest (join nul (map fst found)))) StOk None
            (map (fun '(_, o) =>
               mkObservation (ob_source o) (ob_record_key o) (ob_fingerprint o) (ob_aliases o) (ob_credential o)
                 (ob_capacity o) (ob_active o || bool_decide (active = Some (ob_record_key o))) runs) found)
      end
  end.

Definition import_claude (fs : SourceFs) (path : string) : ImportBatch :=
  imported ClaudeAuth (
    let? file := stable_read fs path (8 * 1024 * 1024) false in
    let '(bytes, fp) := file in
    let? root := json bytes 32 in
    let? account := malformed (get_object "oauthAccount" root) "oauthAccount missing" in
    let? uuid := malformed (get_str "accountUuid" account) "oauthAccount.accountUuid missing" in
    let? aliases := normalize_present
      [(AnthropicAccountUuid, Some uuid); (AnthropicOrgUuid, get_str "organizationUuid" account);
       (Email, get_str "emailAddress" account)] in
    Ok (fp, [mkObservation ClaudeAuth "oauthAccount" fp aliases None [] false []])).

(** Only [id] and [label] of a row are read. *)
Definition zai_row (fp : string) (index : Z) (row : Json) : result Observation AuthorityError :=
  let? id := malformed (get_str "id" row) "zai tokenAccounts[].id missing" in
  let? aliases := normalize_present [(ZaiTokenAccountId, Some id); (Label, get_str "label" row)] in
  Ok (mkObservation CodexBarConfig ("tokenAccounts[" ^^ fmt_int index ^^ "]") fp aliases None [] false []).

Definition zai_accounts (fp : string) (root : Json) : result (list Observation) AuthorityError :=
  let? providers := malformed (get_array "providers" root) "providers array missing" in
  let zai := List.find (fun p => bool_decide (get_str "id" p = Some "zai")) providers in
  let accounts := default [] ((zai ≫= pointer ["tokenAccounts"; "accounts"]) ≫= as_array) in
  if 1000 <? Z.of_nat (length accounts) then Err (EMalformedSource "too many zai token accounts")
  else try_each (zai_row fp) 0 accounts.

Definition import_codexbar_config (fs : SourceFs) (path : string) : ImportBatch :=
  imported CodexBarConfig (
    let? file := stable_read fs path (4 * 1024 * 1024) true in
    let '(bytes, fp) := file in
    let? root := json bytes 32 in
    let? observations := zai_accounts fp root in
    Ok (fp, observations)).

Definition inventory_row (fp : string) (index : Z) (row : Json) : result Observation AuthorityError :=
  let? obj := malformed (as_object row) "account row is not object" in
  let? id := malformed (get_str "accountId" row) "accountId missing" in
  let? aliases := normalize_present
    [(CodexMultiAuthAccountId, Some id);
     (OpenAiOrgId, if bool_decide (get_str "accountIdSource" row = Some "org") then Some id else None);
     (Label, get_str "accountLabel" row); (Email, get_str "email" row)] in
  Ok (mkObservation CodexMultiAuth ("accounts[" ^^ fmt_int index ^^ "]") fp aliases None [] false []).

Definition import_inventory (fs : SourceFs) (path : string) : ImportBatch :=
  imported CodexMultiAuth (
    let? file := stable_read fs path (16 * 1024 * 1024) true in
    let '(bytes, fp) := file in
    let? root := json bytes 32 in
    let? _ := malformed (get_u64 "version" root) "unsupported multi-auth version" in
    let? accounts := malformed (get_array "accounts" root) "accounts array missing" in
    if 10000 <? Z.of_nat (length accounts) then Err (EMalformedSource "too many accounts")
    else let? observations := try_each (inventory_row fp) 0 accounts in Ok (fp, observations)).

Definition quota_window (source : ImportSource) (row : Json) (name : string) (kind : CapacityWindowKind)
  : option CapacityWindow :=
  window ← get name row;
  Some (mkCapacityWindow kind (get_u64 "windowMinutes" window ≫= to_u32) (percent_used (get "usedPercent" window))
          (match get "resetAtMs" window ≫= as_i64 with Some ms => ResetAt ms | None => ResetUnknown end) source).

Definition quota_row (fp : string) (now_ms : Z) (_ : Z) (entry : string * Json) : result Observation AuthorityError :=
  let '(id, row) := entry in
  let? aliases := normalize_present
    [(CodexMultiAuthAccountId, Some id);
     (OpenAiAccountUuid, match normalize_uuid id with Ok _ => Some id | Err _ => None end)] in
  let sampled := default now_ms (get "updatedAt" row ≫= as_i64) in
  if wrap_i64 (now_ms + 300000) <? sampled then Err (EMalformedSource "sample timestamp too far in future")
  else
    let windows := omap (fun '(name, kind) => quota_window CodexMultiAuthQuota row name kind)
      [("primary", WPrimary); ("secondary", WSecondary)] in
    Ok (mkObservation CodexMultiAuthQuota id fp aliases None
          [mkCapacityHealth EmptyString (get_str "model" row) windows sampled now_ms fp (freshness_of now_ms sampled)]
          false []).

Definition import_quota (fs : SourceFs) (path : string) (now_ms : Z) : ImportBatch :=
  imported CodexMultiAuthQuota (
    let? file := stable_read fs path (16 * 1024 * 1024) false in
    let '(bytes, fp) := file in
    let? root := json bytes 32 in
    let? _ := malformed (get_u64 "version" root) "unsupported quota version" in
    let? by_account := malformed (get "byAccountId" root ≫= as_object) "byAccountId missing" in
    let? observations := try_each (quota_row fp now_ms) 0 by_account in
    Ok (fp, observations)).

Definition parse_epoch_ms (value : option Json) : option Z :=
  match value with
  | Some (JString s) => (fun ns => wrap_i64 (Z.quot ns 1000000)) <$> parse_rfc3339 s
  | Some v => as_i64 v
  | None => None
  end.

Definition codexbar_row (fp : string) (now_ms index : Z) (row : Json) : result Observation AuthorityError :=
  let? key := malformed (get_str "accountKey" row) "accountKey missing" in
  let terminal := match rsplit_once ":" key with Some (_, t) => t | None => key end in
  let? aliases := normalize_present
    [(CodexBarAccountKey, Some key);
     (OpenAiAccountUuid, match normalize_uuid terminal with Ok _ => Some terminal | Err _ => None end)] in
  let? sampled := malformed (parse_epoch_ms (get "sampledAt" row)) "sampledAt missing or invalid" in
  if wrap_i64 (now_ms + 300000) <? sampled then Err (EMalformedSource "sample timestamp too far in future")
  else
    let reset := match get "resetsAt" row with
      | Some (JString v) =>
          if str_eqb v "rolling" then ResetRolling
          else match parse_epoch_ms (Some (JString v)) with Some ms => ResetAt ms | None => ResetUnknown end
      | Some v => match parse_epoch_ms (Some v) with Some ms => ResetAt ms | None => ResetUnknown end
      | None => ResetUnknown
      end in
    let window := mkCapacityWindow (window_kind_of (default "unknown" (get_str "windowKind" row)))
      (get_u64 "windowMinutes" row ≫= to_u32) (percent_used (get "usedPercent" row)) reset CodexBar in
    Ok (mkObservation CodexBar ("line:" ^^ fmt_int (index + 1)) fp aliases None
          [mkCapacityHealth EmptyString None [window] sampled now_ms fp (freshness_of now_ms sampled)] false []).

(** The lines of the history; one that does not parse is forgiven at the end. *)
Fixpoint codexbar_lines (fp : string) (now_ms index : Z) (l : list string)
  : result (list Observation) AuthorityError :=
  match l with
  | [] => Ok []
  | raw :: l =>
      let line := trim_line_end raw in
      if is_empty line then codexbar_lines fp now_ms (index + 1) l
      else if 64 * 1024 <? byte_len line then Err (EMalformedSource "CodexBar line exceeds limit")
      else match parse_json line with
      | Err e =>
          match l with
          | [] => if 0 <? index then Ok [] else Err (EMalformedSource e)
          | _ => Err (EMalformedSource e)
          end
      | Ok row =>
          if negb (bool_decide (get_str "provider" row = Some "codex")) then codexbar_lines fp now_ms (index + 1) l
          else
            let? o := codexbar_row fp now_ms index row in
            let? rest := codexbar_lines fp now_ms (index + 1) l in
            Ok (o :: rest)
      end
  end.

Definition import_codexbar (fs : SourceFs) (path : string) (now_ms : Z) : ImportBatch :=
  imported CodexBar (
    let? file := stable_read fs path (64 * 1024 * 1024) false in
    let '(bytes, fp) := file in
    if negb (valid_utf8 bytes) then Err (EMalformedSource (utf8_error bytes))
    else
      let l := split_inclusive (split_char newline bytes) in
      if 100000 <? Z.of_nat (length l) then Err (EMalformedSource "too many CodexBar records")
      else let? observations := codexbar_lines fp now_ms 0 l in Ok (fp, observations)).

(** ** The sources of a reconciliation *)

Definition push_source (fs : SourceFs) (path : option string) (source : ImportSource)
    (load : string -> ImportBatch) : ImportBatch :=
  match path with
  | Some path => if fs_exists fs path then load path else batch_failed source StMissing "source missing"
  | None => batch_failed source StMissing "source not configured"
  end.

Record SourcePaths := mkSourcePaths {
  sp_codex_auth : option string;
  sp_switchback_auth_registry : option string;
  sp_codex_multi_auth : option string;
  sp_quota_cache : option string;
  sp_codexbar_history : option string;
  sp_claude_auth : option string;
  sp_codexbar_config : option string
}.

Definition load_batches (fs : SourceFs) (sources : SourcePaths) (now_ms : Z) : list ImportBatch :=
  [push_source fs (sp_codex_auth sources) CodexActiveAuth (fun p => import_active fs p now_ms);
   push_source fs (sp_switchback_auth_registry sources) SwitchbackCodexRegistry
     (fun p => import_registry fs p now_ms);
   push_source fs (sp_codex_multi_auth sources) CodexMultiAuth (fun p => import_inventory fs p);
   push_source fs (sp_quota_cache sources) CodexMultiAuthQuota (fun p => import_quota fs p now_ms);
   push_source fs (sp_codexbar_history sources) CodexBar (fun p => import_codexbar fs p now_ms);
   push_source fs (sp_claude_auth sources) ClaudeAuth (fun p => import_claude fs p);
   push_source fs (sp_codexbar_config sources) CodexBarConfig (fun p => import_codexbar_config fs p)].

End Importers.

(** ** Reconciliation *)

Definition status_word (s : SourceReadStatus) : string :=
  match s with
  | StMissing => "missing"
  | StMalformed => "malformed"
  | StUnsafePermissions => "unsafe_permissions"
  | StConcurrentWrite => "concurrent_write"
  | StError => "error"
  | StOk => "ok"
  end.

(** [min_by_key]: the first of the least. *)
Fixpoint least {A} (key : A -> Z) (best : option A) (l : list A) : option A :=
  match l with
  | [] => best
  | x :: l =>
      least key (match best with Some b => if key x <? key b then Some x else best | None => Some x end) l
  end.

Definition uuid_alias (o : Observation) : option NormalizedAlias :=
  List.find (fun a => opt_is_some (strong_identity_provider (na_scheme a))) (ob_aliases o).

Definition observation_provider (o : Observation) : string :=
  default "openai" (least na_rank None (ob_aliases o) ≫= (fun a => scheme_provider (na_scheme a))).

Definition Accounts := BTreeMap string ProviderAccountEnrollment.

Definition binds (scheme : AliasScheme) (value : string) (a : ProviderAccountEnrollment) : bool :=
  existsb (fun b => bool_decide (ab_scheme b = scheme) && str_eqb (ab_normalized_value b) value
                    && bool_decide (ab_binding_state b = Bound)) (pe_aliases a).

Definition match_existing (o : Observation) (accounts : Accounts) : option string :=
  foldr (fun alias rest =>
    match List.find (binds (na_scheme alias) (na_value alias)) (map snd accounts) with
    | Some account => Some (pe_id account)
    | None => rest
    end) None (List.filter (fun a => na_rank a <=? 3) (ob_aliases o)).

(** A map from strong aliases; the newest entry is first. *)
Definition StrongMap := list (AliasScheme * string * string).

Definition strong_get (scheme : AliasScheme) (value : string) (m : StrongMap) : option string :=
  snd <$> List.find (fun '(s, v, _) => bool_decide (s = scheme) && str_eqb v value) m.

Definition strong_put (scheme : AliasScheme) (value id : string) (m : StrongMap) : StrongMap :=
  (scheme, value, id) :: m.

Definition bound_uuids (accounts : Accounts) : StrongMap :=
  fold_left (fun m a =>
    fold_left (fun m b =>
      if opt_is_some (strong_identity_provider (ab_scheme b)) && bool_decide (ab_binding_state b = Bound)
      then strong_put (ab_scheme b) (ab_normalized_value b) (pe_id a) m else m) (pe_aliases a) m)
    (map snd accounts) [].

Definition is_ok (b : ImportBatch) : bool := bool_decide (ib_status b = StOk).

Definition new_account (id provider : string) (proven : bool) (revision now_ms : Z) : ProviderAccountEnrollment :=
  mkEnrollment id provider (if proven then Enrolled else Parked) [] revision revision now_ms now_ms None.

Definition touched (proven : bool) (revision now_ms : Z) (a : ProviderAccountEnrollment) : ProviderAccountEnrollment :=
  mkEnrollment (pe_id a) (pe_provider a)
    (if proven && negb (bool_decide (pe_state a = Retired)) then Enrolled else pe_state a)
    (pe_aliases a) (pe_created_revision a) revision (pe_created_at_ms a) now_ms (pe_superseded_by a).

Definition with_aliases (l : list AliasBinding) (a : ProviderAccountEnrollment) : ProviderAccountEnrollment :=
  mkEnrollment (pe_id a) (pe_provider a) (pe_state a) l (pe_created_revision a) (pe_updated_revision a)
    (pe_created_at_ms a) (pe_updated_at_ms a) (pe_superseded_by a).

Definition known_binding (o : Observation) (alias : NormalizedAlias) (b : AliasBinding) : bool :=
  bool_decide (ab_source b = ob_source o) && str_eqb (ab_source_record_key b) (ob_record_key o)
  && bool_decide (ab_scheme b = na_scheme alias) && str_eqb (ab_normalized_value b) (na_value alias).

(** The owners of strong aliases and the conflicts met so far. *)
Definition Owners : Type := StrongMap * list string.

Definition bind_alias (o : Observation) (id : string) (now_ms : Z)
    (st : list AliasBinding * Owners) (alias : NormalizedAlias) : list AliasBinding * Owners :=
  let '(bindings, (owners, conflicts)) := st in
  let '(state, (owners, conflicts)) :=
    if na_rank alias <=? 3 then
      match strong_get (na_scheme alias) (na_value alias) owners with
      | Some owner =>
          if negb (str_eqb owner id)
          then (ParkedConflict, (owners, conflicts ++ [scheme_as_str (na_scheme alias) ^^ " alias collision"]))
          else (Bound, (strong_put (na_scheme alias) (na_value alias) id owners, conflicts))
      | None => (Bound, (strong_put (na_scheme alias) (na_value alias) id owners, conflicts))
      end
    else (Bound, (owners, conflicts)) in
  (if existsb (known_binding o alias) bindings then bindings
   else bindings ++ [mkAliasBinding (na_scheme alias) (na_value alias) (na_display alias) (ob_source o)
                       (ob_record_key o) now_ms now_ms state],
   (owners, conflicts)).

Definition enroll (revision now_ms : Z) (st : Accounts * Owners) (assignment : Observation * string)
  : Accounts * Owners :=
  let '(accounts, owners) := st in
  let '(o, id) := assignment in
  let proven := opt_is_some (uuid_alias o) in
  let account := match bt_get id accounts with
    | Some a => a
    | None => new_account id (observation_provider o) proven revision now_ms
    end in
  let account := touched proven revision now_ms account in
  let '(bindings, owners) := fold_left (bind_alias o id now_ms) (ob_aliases o) (pe_aliases account, owners) in
  (bt_insert id (with_aliases bindings account) accounts, owners).

Definition credential_source_replaced (successful : list ImportSource) (c : CredentialMetadata) : bool :=
  match cm_pointer c with
  | PtrActiveAuth _ => bool_decide (CodexActiveAuth ∈ successful)
  | PtrRegistry _ _ => bool_decide (SwitchbackCodexRegistry ∈ successful)
  | PtrConfigured _ _ => false
  end.

Definition with_account (id : string) (c : CredentialMetadata) : CredentialMetadata :=
  mkCredential id (cm_pointer c) (cm_credential_kind c) (cm_access_present c) (cm_refresh_present c)
    (cm_id_token_present c) (cm_expires_at_ms c) (cm_source_revision c) (cm_observed_at_ms c) (cm_readiness c).

Definition with_readiness (r : CredentialReadiness) (c : CredentialMetadata) : CredentialMetadata :=
  mkCredential (cm_account_id c) (cm_pointer c) (cm_credential_kind c) (cm_access_present c) (cm_refresh_present c)
    (cm_id_token_present c) (cm_expires_at_ms c) (cm_source_revision c) (cm_observed_at_ms c) r.

Definition put_credential (accounts : Accounts) (l : list CredentialMetadata) (assignment : Observation * string)
  : list CredentialMetadata :=
  let '(o, id) := assignment in
  match ob_credential o with
  | None => l
  | Some c =>
      let c := with_account id c in
      let c := match bt_get id accounts with
        | Some a => if negb (bool_decide (pe_state a = Enrolled)) then with_readiness Conflict c else c
        | None => c
        end in
      List.filter (fun x => negb (bool_decide (cm_pointer x = cm_pointer c))) l ++ [c]
  end.

Definition with_windows (l : list CapacityWindow) (h : AccountCapacityHealth) : AccountCapacityHealth :=
  mkCapacityHealth (ch_account_id h) (ch_model h) l (ch_sampled_at_ms h) (ch_ingested_at_ms h)
    (ch_source_revision h) (ch_freshness h).

Definition health_of (id : string) (h : AccountCapacityHealth) : AccountCapacityHealth :=
  mkCapacityHealth id (ch_model h) (ch_windows h) (ch_sampled_at_ms h) (ch_ingested_at_ms h)
    (ch_source_revision h) (ch_freshness h).

(** A sample of one window. *)
Definition Sample : Type := AccountCapacityHealth * CapacityWindow.

Definition sample_health (x : Sample) : AccountCapacityHealth := with_windows [x.2] x.1.

Definition flatten_windows (l : list AccountCapacityHealth) : list Sample :=
  flat_map (fun h => map (fun w => (h, w)) (ch_windows h)) l.

Definition then_cmp (a b : comparison) : comparison := match a with Eq => b | c => c end.

Definition newest_first (a b : Sample) : comparison :=
  then_cmp (Z.compare (ch_sampled_at_ms b.1) (ch_sampled_at_ms a.1))
    (then_cmp (Z.compare (ch_ingested_at_ms b.1) (ch_ingested_at_ms a.1))
       (String.compare (ch_source_revision b.1) (ch_source_revision a.1))).

Definition sample_key (x : Sample) : string * option string * CapacityWindowKind * ImportSource :=
  (ch_account_id x.1, ch_model x.1, cw_window_kind x.2, cw_source x.2).

Definition same_key (x y : Sample) : bool := bool_decide (sample_key x = sample_key y).

Definition SAMPLES_KEPT : nat := 8.

(** [retain] with a count per key: what is kept so far is in [kept]. *)
Fixpoint retain_newest (kept l : list Sample) : list Sample :=
  match l with
  | [] => kept
  | x :: l =>
      retain_newest (if (SAMPLES_KEPT <=? length (List.filter (same_key x) kept))%nat then kept else kept ++ [x]) l
  end.

Definition opt_cmp (a b : option string) : comparison := none_first String.compare a b.

Definition by_account (a b : Sample) : comparison :=
  then_cmp (String.compare (ch_account_id a.1) (ch_account_id b.1))
    (then_cmp (opt_cmp (ch_model a.1) (ch_model b.1))
       (then_cmp (kind_cmp (cw_window_kind a.2) (cw_window_kind b.2))
          (Z.compare (ch_sampled_at_ms a.1) (ch_sampled_at_ms b.1)))).

Definition same_sample (a b : Sample) : bool :=
  same_key a b && (ch_sampled_at_ms a.1 =? ch_sampled_at_ms b.1)
  && str_eqb (ch_source_revision a.1) (ch_source_revision b.1).

(** [dedup_by]: an element goes when it is like the last one kept. *)
Fixpoint dedup_by {A} (same : A -> A -> bool) (last : option A) (l : list A) : list A :=
  match l with
  | [] => []
  | x :: l =>
      if match last with Some y => same x y | None => false end then dedup_by same last l
      else x :: dedup_by same (Some x) l
  end.

Definition settle_capacity (l : list AccountCapacityHealth) : list AccountCapacityHealth :=
  map sample_health
    (dedup_by same_sample None
       (sort_by by_account (retain_newest [] (sort_by newest_first (flatten_windows l))))).

Definition active_clients_of (assignments : list (Observation * string)) (now_ms : Z) : list ActiveClientState :=
  match List.find (fun '(o, _) => bool_decide (ob_source o = CodexActiveAuth) && ob_active o) assignments with
  | Some (o, id) =>
      [mkActiveClientState (Some id) ActiveFromCodex
         (match List.find (fun '(o, _) => bool_decide (ob_source o = SwitchbackCodexRegistry)) assignments with
          | Some (row, _) => ob_runs row
          | None => []
          end) (ob_fingerprint o) now_ms FFresh]
  | None => [mkActiveClientState None ActiveUnknown [] EmptyString now_ms FUnknown]
  end.

Definition source_status (current : ProviderAccountSnapshot) (revision now_ms : Z) (b : ImportBatch)
  : ImportSourceStatus :=
  mkSourceStatus (ib_source b) (ib_fingerprint b) (ib_status b) now_ms
    (if is_ok b then Some revision
     else List.find (fun s => bool_decide (iss_source s = ib_source b)) (ps_sources current)
            ≫= iss_last_good_revision)
    (ib_detail b).

Definition alias_cmp (x y : AliasBinding) : comparison :=
  then_cmp (Z.compare (scheme_rank (ab_scheme x)) (scheme_rank (ab_scheme y)))
    (then_cmp (Z.compare (source_index (ab_source x)) (source_index (ab_source y)))
       (String.compare (ab_normalized_value x) (ab_normalized_value y))).

Definition account_cmp (x y : ProviderAccountEnrollment) : comparison :=
  then_cmp (String.compare (pe_provider x) (pe_provider y)) (String.compare (pe_id x) (pe_id y)).

Record ReconcilePlan := mkPlan {
  rp_base_revision : Z;
  rp_digest : string;
  rp_changed : bool;
  rp_snapshot : ProviderAccountSnapshot;
  rp_now_ms : Z
}.

Section Reconcile.
Context (sha256 : string -> string) (debug_string : string -> string).

Definition pointer_debug (p : CredentialPointer) : string :=
  match p with
  | PtrRegistry slot _ => "SwitchbackCodexRegistry { slot: " ^^ debug_string slot ^^ ", json_pointer: AccessToken }"
  | PtrActiveAuth _ => "CodexActiveAuth { json_pointer: AccessToken }"
  | PtrConfigured p a =>
      "ConfiguredAccount { provider_id: " ^^ debug_string p ^^ ", account_id: " ^^ debug_string a ^^ " }"
  end.

Definition credential_cmp (x y : CredentialMetadata) : comparison :=
  then_cmp (String.compare (cm_account_id x) (cm_account_id y))
    (String.compare (pointer_debug (cm_pointer x)) (pointer_debug (cm_pointer y))).

Definition input_tuple (b : ImportBatch) : string :=
  source_debug (ib_source b) ^^ nul ^^ "configured" ^^ nul
  ^^ default (status_word (ib_status b)) (ib_fingerprint b) ^^ nul ^^ "provider-import/v0".

Definition input_digest (batches : list ImportBatch) : string :=
  hex_digest sha256 (join EmptyString (sort_by String.compare (map input_tuple batches))
                     ^^ NORMALIZATION_VERSION ^^ POLICY_VERSION).

Definition observed_uuids (observations : list Observation) (m : StrongMap) : StrongMap :=
  fold_left (fun m o =>
    match uuid_alias o with
    | None => m
    | Some uuid =>
        match strong_get (na_scheme uuid) (na_value uuid) m with
        | Some _ => m
        | None => strong_put (na_scheme uuid) (na_value uuid)
                    (deterministic_id sha256 (observation_provider o) (na_value uuid)) m
        end
    end) observations m.

Definition anchor_of (o : Observation) : string :=
  match least na_rank None (ob_aliases o) with
  | Some a => source_debug (ob_source o) ^^ nul ^^ ob_record_key o ^^ nul ^^ na_value a
  | None => source_debug (ob_source o) ^^ nul ^^ ob_record_key o
  end.

(** The account of an observation. [observed_uuids] has an entry for every uuid. *)
Definition assign (uuids : StrongMap) (accounts : Accounts) (o : Observation) : string :=
  match uuid_alias o with
  | Some uuid => default EmptyString (strong_get (na_scheme uuid) (na_value uuid) uuids)
  | None =>
      match match_existing o accounts with
      | Some id => id
      | None => deterministic_id sha256 (observation_provider o) (anchor_of o)
      end
  end.

Definition current_accounts (current : ProviderAccountSnapshot) : Accounts :=
  bt_collect (map (fun a => (pe_id a, a)) (ps_accounts current)).

Definition observations_of (batches : list ImportBatch) : list Observation :=
  flat_map ib_observations (List.filter is_ok batches).

Definition assignments_of (current : ProviderAccountSnapshot) (batches : list ImportBatch)
  : list (Observation * string) :=
  let accounts := current_accounts current in
  let observations := observations_of batches in
  let uuids := observed_uuids observations (bound_uuids accounts) in
  map (fun o => (o, assign uuids accounts o)) observations.

Definition compose (current : ProviderAccountSnapshot) (batches : list ImportBatch) (revision now_ms : Z)
  : ProviderAccountSnapshot :=
  let assignments := assignments_of current batches in
  let '(accounts, (_, conflicts)) :=
    fold_left (enroll revision now_ms) assignments (current_accounts current, ([], [])) in
  let successful := map ib_source (List.filter is_ok batches) in
  let credentials := fold_left (put_credential accounts) assignments
    (List.filter (fun c => negb (credential_source_replaced successful c)) (ps_credentials current)) in
  let capacity := ps_capacity current ++ flat_map (fun '(o, id) => map (health_of id) (ob_capacity o)) assignments in
  mkSnapshot revision
    (if forallb (fun b => is_ok b || bool_decide (ib_status b = StMissing)) batches then FFresh else FError)
    (sort_by account_cmp (map (fun a => with_aliases (sort_by alias_cmp (pe_aliases a)) a) (map snd accounts)))
    (sort_by credential_cmp credentials)
    (active_clients_of assignments now_ms) (settle_capacity capacity)
    (map (source_status current revision now_ms) batches) conflicts.

(** [build], with the batches loaded. *)
Definition build (batches : list ImportBatch) (now_ms : Z) (current : ProviderAccountSnapshot)
    (current_digest : option string) : ReconcilePlan :=
  let digest := input_digest batches in
  if (0 <? ps_revision current) && bool_decide (current_digest = Some digest)
  then mkPlan (ps_revision current) digest false current now_ms
  else mkPlan (ps_revision current) digest true (compose current batches (ps_revision current + 1) now_ms) now_ms.

End Reconcile.

(** ** The database *)

Record RevisionRow := mkRevisionRow {
  rv_revision : Z;
  rv_input_digest : string;
  rv_created_at_ms : Z;
  rv_snapshot : ProviderAccountSnapshot
}.

(** The tables that describe the newest snapshot, by their keys. *)
Record Projection := mkProjection {
  pj_enrollments : list (string * (string * EnrollmentState * Z));
  pj_aliases : list ((string * AliasScheme * string * ImportSource * string) * AliasBindingState);
  pj_credentials : list ((string * CredentialPointer) * CredentialReadiness);
  pj_active_clients : list ActiveClientState;
  pj_capacity : list ((string * string) * AccountCapacityHealth);
  pj_sources : list (ImportSource * ImportSourceStatus)
}.

Record AuthorityDb := mkAuthorityDb {
  db_revisions : list RevisionRow;
  db_projection : Projection;
  db_observations : gmap string Z;
  db_audit : list (Z * string * Z)
}.

Definition no_projection : Projection := mkProjection [] [] [] [] [] [].

Definition db_empty : AuthorityDb := mkAuthorityDb [] no_projection ∅ [].

(** [ORDER BY revision DESC LIMIT 1] *)
Definition newest_row (l : list RevisionRow) : option RevisionRow :=
  fold_left (fun best r => match best with
    | Some b => if rv_revision b <? rv_revision r then Some r else best
    | None => Some r
    end) l None.

Definition current_revision (db : AuthorityDb) : Z * option string :=
  match newest_row (db_revisions db) with
  | Some r => (rv_revision r, Some (rv_input_digest r))
  | None => (0, None)
  end.

Definition authority_snapshot (db : AuthorityDb) : result ProviderAccountSnapshot AuthorityError :=
  match newest_row (db_revisions db) with Some r => Ok (rv_snapshot r) | None => Err EAbsent end.

Definition alias_rows (a : ProviderAccountEnrollment)
  : list ((string * AliasScheme * string * ImportSource * string) * AliasBindingState) :=
  map (fun b => ((pe_id a, ab_scheme b, ab_normalized_value b, ab_source b, ab_source_record_key b),
                 ab_binding_state b)) (pe_aliases a).

Definition project (s : ProviderAccountSnapshot) : Projection :=
  mkProjection
    (map (fun a => (pe_id a, (pe_provider a, pe_state a, pe_updated_revision a))) (ps_accounts s))
    (flat_map alias_rows (ps_accounts s))
    (map (fun c => ((cm_account_id c, cm_pointer c), cm_readiness c)) (ps_credentials s))
    (ps_active_clients s)
    (imap (fun i c => ((ch_account_id c, fmt_int (ch_sampled_at_ms c) ^^ ":" ^^ fmt_int (Z.of_nat i)), c))
       (ps_capacity s))
    (map (fun x => (iss_source x, x)) (ps_sources s)).

(** The primary keys of the tables; there is one kind of client. *)
Definition keys_unique (p : Projection) : bool :=
  bool_decide (NoDup (map fst (pj_enrollments p))) && bool_decide (NoDup (map fst (pj_aliases p)))
  && bool_decide (NoDup (map fst (pj_credentials p))) && (length (pj_active_clients p) <=? 1)%nat
  && bool_decide (NoDup (map fst (pj_capacity p))) && bool_decide (NoDup (map fst (pj_sources p))).

Section Authority.
Context (sha256 : string -> string) (debug_string : string -> string).

Definition observation_key (source : ImportSource) (record fingerprint : string) : string :=
  hex_digest sha256 (source_debug source ^^ record ^^ fingerprint ^^ NORMALIZATION_VERSION ^^ POLICY_VERSION).

(** [INSERT OR IGNORE]. *)
Definition note_observations (s : ProviderAccountSnapshot) (m : gmap string Z) : gmap string Z :=
  fold_left (fun m b =>
    let key := observation_key (ab_source b) (ab_source_record_key b) (ab_normalized_value b) in
    match m !! key with Some _ => m | None => <[key := ps_revision s]> m end)
    (flat_map pe_aliases (ps_accounts s)) m.

(** [AuthorityStore::apply]: one transaction. *)
Definition apply (read_only : bool) (plan : ReconcilePlan) (audit_kind : string) (db : AuthorityDb)
  : result unit AuthorityError * AuthorityDb :=
  let s := rp_snapshot plan in
  if read_only then (Err EReadOnly, db)
  else if negb ((current_revision db).1 =? rp_base_revision plan) then (Err ERevisionConflict, db)
  else if existsb (fun r => rv_revision r =? ps_revision s) (db_revisions db) || negb (keys_unique (project s))
  then (Err (ESqlite "UNIQUE constraint failed"), db)
  else (Ok tt, mkAuthorityDb
    (db_revisions db ++ [mkRevisionRow (ps_revision s) (rp_digest plan) (rp_now_ms plan) s])
    (project s) (note_observations s (db_observations db))
    (db_audit db ++ [(ps_revision s, audit_kind, rp_now_ms plan)])).

(** ** The authority *)

Record ReconcileCounts := mkCounts {
  rc_accounts : Z;
  rc_aliases : Z;
  rc_credentials : Z;
  rc_active_clients : Z;
  rc_capacity_samples : Z;
  rc_conflicts : Z;
  rc_sources : Z
}.

Definition zlen {A} (l : list A) : Z := Z.of_nat (length l).

Definition counts_from_snapshot (s : ProviderAccountSnapshot) : ReconcileCounts :=
  mkCounts (zlen (ps_accounts s)) (zlen (flat_map pe_aliases (ps_accounts s))) (zlen (ps_credentials s))
    (zlen (ps_active_clients s)) (zlen (ps_capacity s)) (zlen (ps_conflicts s)) (zlen (ps_sources s)).

Record ReconcileResult := mkReconcileResult {
  rr_base_revision : Z;
  rr_would_revision : Z;
  rr_revision : Z;
  rr_changed : bool;
  rr_counts : ReconcileCounts;
  rr_snapshot : ProviderAccountSnapshot
}.

(** What one attempt meets: what others commit before the snapshot is read and before
    the plan is applied, and the batches it loads. *)
Record Attempt := mkAttempt {
  at_before_snapshot : AuthorityDb -> AuthorityDb;
  at_batches : list ImportBatch;
  at_before_apply : AuthorityDb -> AuthorityDb
}.

Definition result_of (dry_run : bool) (plan : ReconcilePlan) : ReconcileResult :=
  mkReconcileResult (rp_base_revision plan)
    (if rp_changed plan then rp_base_revision plan + 1 else rp_base_revision plan)
    (if dry_run then rp_base_revision plan else ps_revision (rp_snapshot plan))
    (rp_changed plan) (counts_from_snapshot (rp_snapshot plan)) (rp_snapshot plan).

(** One turn of [reconcile]. *)
Definition reconcile_turn (read_only dry_run : bool) (now_ms : Z) (at_ : Attempt) (db : AuthorityDb)
  : result ReconcileResult AuthorityError * AuthorityDb :=
  let '(revision, digest) := current_revision db in
  let db := at_before_snapshot at_ db in
  match (if revision =? 0 then Ok snapshot_empty else authority_snapshot db) with
  | Err e => (Err e, db)
  | Ok current =>
      let plan := build sha256 debug_string (at_batches at_) now_ms current digest in
      if dry_run || negb (rp_changed plan) then (Ok (result_of dry_run plan), db)
      else
        let '(applied, db) := apply read_only plan "reconcile" (at_before_apply at_ db) in
        match applied with
        | Ok _ => (Ok (result_of dry_run plan), db)
        | Err e => (Err e, db)
        end
  end.

Definition reconcile (read_only dry_run : bool) (now_ms : Z) (first second : Attempt) (db : AuthorityDb)
  : result ReconcileResult AuthorityError * AuthorityDb :=
  match reconcile_turn read_only dry_run now_ms first db with
  | (Err ERevisionConflict, db) => reconcile_turn read_only dry_run now_ms second db
  | r => r
  end.

Record AccountResolutionQuery := mkQuery {
  q_provider : string;
  q_client : string;
  q_alias_scheme : AliasScheme;
  q_alias_value : string;
  q_expected_revision : option Z
}.

Record AccountResolution := mkResolution {
  rs_authority_revision : Z;
  rs_account_id : string;
  rs_credential_pointer : CredentialPointer;
  rs_fresh : bool
}.

Context (nfc to_lowercase : string -> string).

Definition normalize_query (scheme : AliasScheme) (value : string) : result string AuthorityError :=
  let? a := normalize_alias sha256 nfc to_lowercase (mkAlias scheme value) in Ok (na_value a).

Definition query_binding (q : AccountResolutionQuery) (normalized : string) (b : AliasBinding) : bool :=
  bool_decide (ab_scheme b = q_alias_scheme q) && str_eqb (ab_normalized_value b) normalized
  && bool_decide (ab_binding_state b = Bound)
  && (negb (bool_decide (q_alias_scheme q = Label)) || bool_decide (ab_source b = SwitchbackCodexRegistry)).

Definition ready_for (account : ProviderAccountEnrollment) (c : CredentialMetadata) : bool :=
  str_eqb (cm_account_id c) (pe_id account) && bool_decide (cm_readiness c = Ready).

Definition is_registry (p : CredentialPointer) : bool := match p with PtrRegistry _ _ => true | _ => false end.

Definition labelled (q : AccountResolutionQuery) (p : CredentialPointer) : bool :=
  match p with
  | PtrRegistry slot _ => bool_decide (q_alias_scheme q = Label) && str_eqb slot (trim (q_alias_value q))
  | _ => false
  end.

Definition resolve (q : AccountResolutionQuery) (db : AuthorityDb) : result AccountResolution AuthorityError :=
  let? snapshot := authority_snapshot db in
  let? _ := match q_expected_revision q with
    | Some expected =>
        if negb (expected =? ps_revision snapshot) then Err (EStaleRevision expected (ps_revision snapshot)) else Ok tt
    | None => Ok tt
    end in
  if negb (str_eqb (q_provider q) "openai") || negb (str_eqb (q_client q) "codex")
  then Err (EResolution "v0 supports only provider=openai client=codex")
  else
    let? normalized := normalize_query (q_alias_scheme q) (q_alias_value q) in
    match List.find (fun a => str_eqb (pe_provider a) (q_provider q)
                              && existsb (query_binding q normalized) (pe_aliases a)) (ps_accounts snapshot) with
    | None => Err (EResolution "alias does not identify an account")
    | Some account =>
        if negb (bool_decide (pe_state account = Enrolled)) then Err (EResolution "account is not enrolled")
        else if existsb (fun b => bool_decide (ab_binding_state b = ParkedConflict)) (pe_aliases account)
        then Err (EResolution "account has conflicting bindings")
        else
          match or_else
            (List.find (fun c => ready_for account c && labelled q (cm_pointer c)) (ps_credentials snapshot))
            (List.find (fun c => ready_for account c && is_registry (cm_pointer c)) (ps_credentials snapshot)) with
          | None => Err (EResolution "no fresh, conflict-free Switchback registry credential")
          | Some c => Ok (mkResolution (ps_revision snapshot) (pe_id account) (cm_pointer c) true)
          end
    end.

(** ** Adjudication *)

Inductive AdjudicationCommand :=
| Merge (from into : string) (expected_revision : Z)
| Split (account binding : string) (expected_revision : Z).

Definition expected_of (c : AdjudicationCommand) : Z :=
  match c with Merge _ _ r | Split _ _ r => r end.

Definition rebind (b : AliasBinding) : AliasBinding :=
  mkAliasBinding (ab_scheme b) (ab_normalized_value b) (ab_display b) (ab_source b) (ab_source_record_key b)
    (ab_first_seen_at_ms b) (ab_last_seen_at_ms b) Bound.

Definition position_of (id : string) (s : ProviderAccountSnapshot) : option (nat * ProviderAccountEnrollment) :=
  list_find (fun a => pe_id a = id) (ps_accounts s).

Definition with_lists (accounts : list ProviderAccountEnrollment) (credentials : list CredentialMetadata)
    (capacity : list AccountCapacityHealth) (s : ProviderAccountSnapshot) : ProviderAccountSnapshot :=
  mkSnapshot (ps_revision s) (ps_freshness s) accounts credentials (ps_active_clients s) capacity (ps_sources s)
    (ps_conflicts s).

Definition merge (from into : string) (s : ProviderAccountSnapshot) : result ProviderAccountSnapshot AuthorityError :=
  if str_eqb from into then Err (EResolution "merge source and survivor must differ")
  else match position_of from s with
  | None => Err (EResolution "merge source missing")
  | Some (from_index, f) =>
      match position_of into s with
      | None => Err (EResolution "merge survivor missing")
      | Some (into_index, i) =>
          let survivor := mkEnrollment (pe_id i) (pe_provider i) Enrolled (pe_aliases i ++ map rebind (pe_aliases f))
            (pe_created_revision i) (ps_revision s + 1) (pe_created_at_ms i) (pe_updated_at_ms i)
            (pe_superseded_by i) in
          let retired := mkEnrollment (pe_id f) (pe_provider f) Retired (pe_aliases f)
            (pe_created_revision f) (ps_revision s + 1) (pe_created_at_ms f) (pe_updated_at_ms f) (Some into) in
          let moved id := if str_eqb id from then into else id in
          Ok (with_lists (<[from_index := retired]> (<[into_index := survivor]> (ps_accounts s)))
                (map (fun c => with_account (moved (cm_account_id c)) c) (ps_credentials s))
                (map (fun h => health_of (moved (ch_account_id h)) h) (ps_capacity s)) s)
      end
  end.

Definition of_record (source : ImportSource) (key : string) (b : AliasBinding) : bool :=
  bool_decide (ab_source b = source) && str_eqb (ab_source_record_key b) key.

Definition belongs (source : ImportSource) (key : string) (p : CredentialPointer) : bool :=
  match p with
  | PtrRegistry slot _ => bool_decide (source = SwitchbackCodexRegistry) && str_eqb slot key
  | PtrActiveAuth _ => bool_decide (source = CodexActiveAuth)
  | PtrConfigured _ _ => false
  end.

Definition split (account binding : string) (now_ms : Z) (s : ProviderAccountSnapshot)
  : result ProviderAccountSnapshot AuthorityError :=
  match position_of account s with
  | None => Err (EResolution "split account missing")
  | Some (index, a) =>
      match List.find (fun b => str_eqb (binding_id sha256 b) binding) (pe_aliases a) with
      | None => Err (EResolution "split binding missing")
      | Some selected =>
          let source := ab_source selected in
          let key := ab_source_record_key selected in
          let moved := List.filter (of_record source key) (pe_aliases a) in
          let kept := List.filter (fun b => negb (of_record source key b)) (pe_aliases a) in
          match least (fun b => scheme_rank (ab_scheme b)) None moved with
          | None => Err (EResolution "split observation has no aliases")
          | Some anchor =>
              let provider := default "openai" (scheme_provider (ab_scheme anchor)) in
              let id := deterministic_id sha256 provider
                ("split" ^^ nul ^^ source_as_str source ^^ nul ^^ key ^^ nul ^^ scheme_as_str (ab_scheme anchor)
                 ^^ nul ^^ ab_normalized_value anchor) in
              let state := if existsb (fun b => opt_is_some (strong_identity_provider (ab_scheme b))) moved
                then Enrolled else Parked in
              Ok (with_lists
                (<[index := with_aliases kept a]> (ps_accounts s)
                 ++ [mkEnrollment id provider state moved (ps_revision s + 1) (ps_revision s + 1) now_ms now_ms None])
                (map (fun c => if belongs source key (cm_pointer c) then with_account id c else c) (ps_credentials s))
                (ps_capacity s) s)
          end
      end
  end.

Definition stamp_revision (revision now_ms : Z) (a : ProviderAccountEnrollment) : ProviderAccountEnrollment :=
  if pe_updated_revision a =? revision
  then mkEnrollment (pe_id a) (pe_provider a) (pe_state a) (pe_aliases a) (pe_created_revision a)
         (pe_updated_revision a) (pe_created_at_ms a) now_ms (pe_superseded_by a)
  else a.

Definition with_revision (revision now_ms : Z) (s : ProviderAccountSnapshot) : ProviderAccountSnapshot :=
  mkSnapshot revision (ps_freshness s) (map (stamp_revision revision now_ms) (ps_accounts s)) (ps_credentials s)
    (ps_active_clients s) (ps_capacity s) (ps_sources s) (ps_conflicts s).

(** [adjudicate]; [others] is what is committed before the change is applied. *)
Definition adjudicate (read_only : bool) (command : AdjudicationCommand) (now_ms : Z)
    (others : AuthorityDb -> AuthorityDb) (db : AuthorityDb)
  : result ProviderAccountSnapshot AuthorityError * AuthorityDb :=
  match authority_snapshot db with
  | Err e => (Err e, db)
  | Ok snapshot =>
      let current := ps_revision snapshot in
      if negb (expected_of command =? current) then (Err (EStaleRevision (expected_of command) current), db)
      else match (match command with
                  | Merge from into _ => merge from into snapshot
                  | Split account binding _ => split account binding now_ms snapshot
                  end) with
      | Err e => (Err e, db)
      | Ok changed =>
          let next := with_revision (current + 1) now_ms changed in
          let plan := mkPlan current ("adjudication:" ^^ fmt_int (current + 1)) true next now_ms in
          match apply read_only plan "adjudication" (others db) with
          | (Ok _, db) => (Ok next, db)
          | (Err e, db) => (Err e, db)
          end
      end
  end.

(** [validate_live_resolution]: the slot's file still names the account. *)
Definition validate_live_resolution (parse_json : string -> result Json string) (fs : SourceFs)
    (resolution : AccountResolution) (registry : option string) (db : AuthorityDb) : result unit AuthorityError :=
  match rs_credential_pointer resolution with
  | PtrRegistry slot _ =>
      let? _ := normalize_alias sha256 nfc to_lowercase (mkAlias Label slot) in
      let? root := match registry with
        | Some root => Ok root
        | None => Err (EResolution "Switchback registry source missing")
        end in
      let? file := stable_read sha256 fs (root ^^ "/" ^^ slot ^^ ".json") (1024 * 1024) true in
      let? value := json parse_json file.1 32 in
      let? live := match pointer ["tokens"; "account_id"] value ≫= as_str with
        | Some live => Ok live
        | None => Err (EResolution "registry slot has no tokens.account_id")
        end in
      let? live := normalize_alias sha256 nfc to_lowercase (mkAlias OpenAiAccountUuid live) in
      let? snapshot := authority_snapshot db in
      match List.find (fun a => str_eqb (pe_id a) (rs_account_id resolution)) (ps_accounts snapshot) with
      | None => Err (EResolution "resolved account disappeared")
      | Some account =>
          if binds OpenAiAccountUuid (na_value live) account then Ok tt
          else Err (ECredentialConflict "registry slot UUID differs from canonical account")
      end
  | _ => Err (EResolution "v0 shared activation requires a Switchback registry pointer")
  end.

End Authority.
