(* ===== verification/EnrollmentTheorems.v ===== *)
(** * Enrollment of provider accounts: theorems

    The revisions of the database are a log that every change extends by one entry made from
    the entry before it; the invariants of every committed snapshot; what an importer may read. *)

From Stdlib Require Import ZArith Lia Ascii Sorted.
From stdpp Require Import base list strings option gmap relations.
From S2P Require Import Prelude Text Lines BTree Float Ir Value Access Framing FramingTheorems Execution Enrollment.

#[local] Open Scope Z_scope.
#[local] Open Scope switchback_scope.

(** ** The log *)

(** Revisions count from one, and each row holds the snapshot of its number. *)
Definition linear (db : AuthorityDb) : Prop :=
  map rv_revision (db_revisions db) = seqZ 1 (Z.of_nat (length (db_revisions db)))
  /\ Forall (fun r => ps_revision (rv_snapshot r) = rv_revision r) (db_revisions db).

Definition latest (db : AuthorityDb) : ProviderAccountSnapshot :=
  match newest_row (db_revisions db) with Some r => rv_snapshot r | None => snapshot_empty end.

Definition rows (db : AuthorityDb) : Z := Z.of_nat (length (db_revisions db)).

Lemma newest_row_in l : forall acc b,
  fold_left (fun best r => match best with
    | Some b => if rv_revision b <? rv_revision r then Some r else best
    | None => Some r
    end) l acc = Some b -> acc = Some b \/ b ∈ l.
Proof.
  induction l as [|x l IH]; intros acc b; cbn; [by left|]. intros H. apply IH in H as [H|H]; [|by right; right].
  destruct acc as [y|]; [|by injection H as ->; right; left].
  destruct (_ <? _); [by injection H as ->; right; left|by left].
Qed.

Lemma seqZ_last l x n : l ++ [x] = seqZ 1 (Z.of_nat (S n)) -> l = seqZ 1 (Z.of_nat n) /\ x = Z.of_nat n + 1.
Proof.
  rewrite seqZ_S. intros H. apply app_inj_tail in H as [-> ->]. split; [done|lia].
Qed.

Lemma linear_snoc l r :
  map rv_revision (l ++ [r]) = seqZ 1 (Z.of_nat (length (l ++ [r]))) ->
  newest_row (l ++ [r]) = Some r /\ rv_revision r = Z.of_nat (length l) + 1.
Proof.
  rewrite map_app, length_app. cbn [map length]. replace (length l + 1)%nat with (S (length l)) by lia.
  intros [Hl Hr]%seqZ_last. split; [|done]. unfold newest_row. rewrite fold_left_app. cbn.
  destruct (fold_left _ l None) as [b|] eqn:E; [|done].
  apply newest_row_in in E as [E|E]; [done|].
  assert (Hb : rv_revision b ∈ map rv_revision l) by (apply list_elem_of_fmap; eauto).
  rewrite Hl in Hb. apply elem_of_seqZ in Hb. by rewrite (proj2 (Z.ltb_lt _ _)) by lia.
Qed.

(** The newest row is the last one. *)
Lemma linear_latest db : linear db ->
  (current_revision db).1 = rows db /\ ps_revision (latest db) = rows db
  /\ (rows db <> 0 -> authority_snapshot db = Ok (latest db)).
Proof.
  intros [H1 H2]. unfold current_revision, latest, authority_snapshot, rows.
  destruct (db_revisions db) as [|r0 l0 _] eqn:E using rev_ind; [done|].
  destruct (linear_snoc _ _ H1) as [-> Hr]. cbn. rewrite Forall_app, Forall_singleton in H2. destruct H2 as [_ ->].
  rewrite length_app, Hr. cbn. split_and!; [lia|lia|done].
Qed.

Section Theorems.
Context (sha256 : string -> string) (debug_string : string -> string).

#[local] Abbreviation apply := (apply sha256).
#[local] Abbreviation compose := (compose sha256 debug_string).
#[local] Abbreviation build := (build sha256 debug_string).

(** Something that some process commits. *)
Definition commit (db db' : AuthorityDb) : Prop :=
  exists plan kind, ps_revision (rp_snapshot plan) = rp_base_revision plan + 1
    /\ apply false plan kind db = (Ok tt, db').

Definition row_of (plan : ReconcilePlan) : RevisionRow :=
  mkRevisionRow (ps_revision (rp_snapshot plan)) (rp_digest plan) (rp_now_ms plan) (rp_snapshot plan).

(** Applying a plan appends its row to the rows it was made from, or does nothing. *)
Lemma apply_appends ro plan kind db res db' :
  linear db -> ps_revision (rp_snapshot plan) = rp_base_revision plan + 1 ->
  apply ro plan kind db = (res, db') ->
  match res with
  | Ok _ => ro = false /\ rp_base_revision plan = rows db /\ linear db'
            /\ db_revisions db' = db_revisions db ++ [row_of plan]
            /\ keys_unique (project (rp_snapshot plan)) = true
  | Err _ => db' = db
  end.
Proof.
  intros Hlin Hnext. pose proof (linear_latest db Hlin) as (Hcur & _ & _). unfold Enrollment.apply.
  destruct ro; [by intros [= <- <-]|]. rewrite Hcur. destruct (Z.eqb_spec (rows db) (rp_base_revision plan)) as [Hb|Hb];
    cbn [negb]; [|by intros [= <- <-]].
  destruct (existsb _ _ || _) eqn:E; [by intros [= <- <-]|]. intros [= <- <-]. apply orb_false_iff in E as [_ Ek].
  apply negb_false_iff in Ek. split_and!; [done|done| |done|done].
  destruct Hlin as [H1 H2]. unfold linear. cbn. rewrite map_app, length_app, H1. cbn. split.
  - rewrite Nat.add_1_r, seqZ_S. do 2 f_equal. unfold rows in Hb. lia.
  - apply Forall_app. split; [done|]. by constructor.
Qed.

Lemma commit_grows db db' : linear db -> commit db db' ->
  linear db' /\ rows db' = rows db + 1 /\ exists row, db_revisions db' = db_revisions db ++ [row].
Proof.
  intros Hlin (plan & kind & Hnext & Ha). pose proof (apply_appends _ _ _ _ _ _ Hlin Hnext Ha) as (_ & _ & H1 & H2 & _).
  split_and!; [done| |by eexists]. unfold rows. rewrite H2, length_app. cbn. lia.
Qed.

Lemma commits_grow db db' : linear db -> rtc commit db db' ->
  linear db' /\ rows db <= rows db' /\ (rows db' = rows db -> db' = db).
Proof.
  intros Hlin Hc. induction Hc as [db|db d db' Hd _ IH]; [split_and!; [done|lia|done]|].
  destruct (commit_grows _ _ Hlin Hd) as (H1 & H2 & _). destruct (IH H1) as (H3 & H4 & H5).
  split_and!; [done|lia|lia].
Qed.

(** What others do between two steps of a process. *)
Definition polite (f : AuthorityDb -> AuthorityDb) : Prop := forall db, rtc commit db (f db).

(** A change that took effect: the row is made from the newest one before it. *)
Definition extends (d db' : AuthorityDb) (res : ReconcileResult) (batches : list ImportBatch) (now_ms : Z) : Prop :=
  rr_changed res = true /\ rr_revision res = rows d + 1
  /\ rr_snapshot res = compose (latest d) batches (rows d + 1) now_ms
  /\ db_revisions db' = db_revisions d
       ++ [mkRevisionRow (rows d + 1) (input_digest sha256 batches) now_ms (rr_snapshot res)].

Definition atomic (db : AuthorityDb) (dry_run : bool) (batches : list (list ImportBatch)) (now_ms : Z)
    (out : result ReconcileResult AuthorityError * AuthorityDb) : Prop :=
  linear out.2 /\ exists d, rtc commit db d
    /\ ((out.2 = d /\ forall res, out.1 = Ok res -> dry_run = true \/ rr_changed res = false)
        \/ (dry_run = false /\ exists res b, out.1 = Ok res /\ b ∈ batches /\ extends d out.2 res b now_ms)).

Lemma turn_atomic ro dry now_ms at_ db :
  linear db -> polite (at_before_snapshot at_) -> polite (at_before_apply at_) ->
  atomic db dry [at_batches at_] now_ms (reconcile_turn sha256 debug_string ro dry now_ms at_ db).
Proof.
  intros Hlin Hp1 Hp2. unfold reconcile_turn. pose proof (linear_latest db Hlin) as (Hcur & _ & _).
  destruct (current_revision db) as [revision digest]. cbn in Hcur. subst revision.
  set (db1 := at_before_snapshot at_ db). pose proof (Hp1 db : rtc commit db db1) as Hc1.
  destruct (commits_grow _ _ Hlin Hc1) as (Hlin1 & Hle1 & _).
  destruct (linear_latest db1 Hlin1) as (_ & Hrev1 & Hsnap1).
  assert (Hcur : exists current, (if rows db =? 0 then Ok snapshot_empty else authority_snapshot db1) = Ok current
    /\ forall d, rtc commit db1 d -> rows d = ps_revision current -> d = db1 /\ current = latest d).
  { destruct (Z.eqb_spec (rows db) 0) as [H0|H0].
    - exists snapshot_empty. split; [done|]. intros d Hd Hr. destruct (commits_grow _ _ Hlin1 Hd) as (Hlind & Hle & Heq).
      assert (rows db1 = 0) by (cbn in Hr; unfold rows in *; lia). cbn in Hr. rewrite Heq by lia. split; [done|].
      unfold latest. unfold rows in H. by destruct (db_revisions db1).
    - exists (latest db1). split; [apply Hsnap1; unfold rows in *; lia|]. intros d Hd Hr.
      destruct (commits_grow _ _ Hlin1 Hd) as (_ & _ & Heq). rewrite Heq by lia. done. }
  destruct Hcur as (current & -> & Hcurrent). set (plan := build _ _ _ _).
  destruct (dry || negb (rp_changed plan)) eqn:Ed.
  { split; [done|]. exists db1. split; [done|]. left. split; [done|]. intros res [= <-]. cbn.
    apply orb_prop in Ed as [?|?%negb_true_iff]; auto. }
  apply orb_false_iff in Ed as [-> Ech%negb_false_iff]. set (d := at_before_apply at_ db1).
  pose proof (Hp2 db1 : rtc commit db1 d) as Hc2. destruct (commits_grow _ _ Hlin1 Hc2) as (Hlind & _ & _).
  assert (Hplan : plan = mkPlan (ps_revision current) (input_digest sha256 (at_batches at_)) true
            (compose current (at_batches at_) (ps_revision current + 1) now_ms) now_ms).
  { subst plan. unfold Enrollment.build in *. by destruct (_ && _). }
  assert (Hnext : ps_revision (rp_snapshot plan) = rp_base_revision plan + 1).
  { rewrite Hplan. cbn [rp_snapshot rp_base_revision]. unfold Enrollment.compose. by destruct (fold_left _ _ _) as [? [? ?]]. }
  destruct (apply ro plan "reconcile" d) as [res db'] eqn:Ea.
  pose proof (apply_appends _ _ _ _ _ _ Hlind Hnext Ea) as H. destruct res as [[]|e].
  - destruct H as (_ & Hbase & Hlin' & Hrows & _). split; [done|]. exists d. split; [by transitivity db1|].
    right. split; [done|]. eexists _, (at_batches at_). split; [done|]. split; [left|].
    assert (Hb : rows d = ps_revision current) by (rewrite <- Hbase, Hplan; done).
    destruct (Hcurrent d Hc2 Hb) as [_ ->]. unfold extends. cbn -[Enrollment.compose]. rewrite Hb, Hrows. unfold row_of.
    rewrite Hplan in Hnext |- *. cbn in Hnext |- *. rewrite Hnext. done.
  - subst db'. split; [done|]. exists d. split; [by transitivity db1|]. left. done.
Qed.

(** C34 (refinement). Reconciliation is atomic. Whatever others commit between the steps of either attempt: the
    revisions stay a log without gaps, and either nothing was written (a dry run, no news, or an
    error) or exactly one row was appended, composed from the row before it and from what the
    successful attempt read. *)
Theorem reconcile_atomic ro dry now_ms first second db :
  linear db ->
  polite (at_before_snapshot first) -> polite (at_before_apply first) ->
  polite (at_before_snapshot second) -> polite (at_before_apply second) ->
  atomic db dry [at_batches first; at_batches second] now_ms
    (reconcile sha256 debug_string ro dry now_ms first second db).
Proof.
  intros Hlin H1 H2 H3 H4. unfold reconcile.
  pose proof (turn_atomic ro dry now_ms first db Hlin H1 H2) as T1.
  assert (Hweak : forall b out, atomic db dry [b] now_ms out -> b ∈ [at_batches first; at_batches second] ->
    atomic db dry [at_batches first; at_batches second] now_ms out).
  { intros b out (Hl & d & Hd & Hor) Hb. split; [done|]. exists d. split; [done|].
    destruct Hor as [?|(? & res & b' & ? & Hb' & ?)]; [by left|]. right. split; [done|].
    apply list_elem_of_singleton in Hb' as ->. by exists res, b. }
  destruct (reconcile_turn _ _ _ _ _ first db) as [r d1]. destruct r as [res|e]; [eapply Hweak; [done|left]|].
  destruct e; try (eapply Hweak; [done|left]).
  destruct T1 as (Hl1 & d & Hd & [[<- _]|(_ & res & b & [=] & _)]). cbn in Hd, Hl1.
  destruct (turn_atomic ro dry now_ms second d1 Hl1 H3 H4) as (Hl2 & d2 & Hd2 & Hor). split; [done|].
  exists d2. split; [by transitivity d1|]. destruct Hor as [?|(? & res & b & ? & Hb & ?)]; [by left|].
  right. split; [done|]. apply list_elem_of_singleton in Hb as ->. exists res, (at_batches second).
  split_and!; [done|right; left|done].
Qed.

(** ** Invariants of snapshots *)

Definition ids (s : ProviderAccountSnapshot) : list string := map pe_id (ps_accounts s).

Record wf (s : ProviderAccountSnapshot) : Prop := mkWf {
  wf_ids : NoDup (ids s);
  wf_pointers : NoDup (map cm_pointer (ps_credentials s));
  wf_credentials : Forall (fun c => cm_account_id c ∈ ids s) (ps_credentials s);
  wf_capacity : Forall (fun h => ch_account_id h ∈ ids s) (ps_capacity s)
}.

Lemma snapshot_empty_wf : wf snapshot_empty.
Proof. split; constructor. Qed.

Lemma keys_unique_ids s : keys_unique (project s) = true -> NoDup (ids s).
Proof.
  unfold keys_unique. rewrite !andb_true_iff. intros [[[[[H _] _] _] _] _]. apply bool_decide_eq_true in H.
  unfold project in H. cbn in H. by rewrite map_map in H.
Qed.

Lemma bt_insert_keys {V} k (v : V) (m : BTreeMap string V) x :
  x ∈ (bt_insert k v m).*1 <-> x = k \/ x ∈ m.*1.
Proof.
  induction m as [|[k' v'] m IH]; cbn; [set_solver|].
  destruct (key_cmp k k') eqn:E; cbn; [apply key_cmp_eq in E as ->| |rewrite elem_of_cons, IH]; set_solver.
Qed.

Lemma bt_elem_get {V} k (v : V) (m : BTreeMap string V) : bt_wf m -> (k, v) ∈ m -> bt_get k m = Some v.
Proof.
  induction m as [|[k' v'] m IH]; intros Hwf Hin; [by apply elem_of_nil in Hin|]. cbn.
  apply StronglySorted_inv in Hwf as [Hwf Hall]. apply elem_of_cons in Hin as [[= -> ->]|Hin]; [by rewrite key_cmp_refl|].
  rewrite Forall_forall in Hall. specialize (Hall _ Hin). unfold bt_lt in Hall. cbn in Hall.
  rewrite (key_cmp_antisym k' k), Hall. cbn. by apply IH.
Qed.

(** Keys are the ids of the accounts they hold. *)
Definition keyed (m : Accounts) : Prop := bt_wf m /\ Forall (fun kv => pe_id kv.2 = kv.1) m.

Lemma keyed_ids m : keyed m -> map pe_id (map snd m) = m.*1.
Proof. intros [_ H]. induction H as [|[k a] m Hk _ IH]; [done|]. cbn in *. by rewrite Hk, IH. Qed.

Lemma keyed_insert id a m : keyed m -> pe_id a = id -> keyed (bt_insert id a m).
Proof. intros [H1 H2] H. split; [by apply bt_insert_wf|by apply bt_insert_forall]. Qed.

Lemma keyed_get m id a : keyed m -> bt_get id m = Some a -> pe_id a = id.
Proof.
  intros [_ H]. induction H as [|[k b] m Hk _ IH]; [done|]. cbn in *.
  destruct (key_cmp id k) eqn:E; [|done|done]. intros [= <-]. by apply key_cmp_eq in E as ->.
Qed.

Lemma current_keyed s : keyed (current_accounts s).
Proof.
  unfold current_accounts, bt_collect. assert (H : keyed []) by (split; constructor). revert H. generalize (@nil (string * ProviderAccountEnrollment)).
  induction (ps_accounts s) as [|a l IH]; intros m Hm; [done|]. cbn. apply IH, keyed_insert; done.
Qed.

Lemma current_keys s x : x ∈ ids s -> x ∈ (current_accounts s).*1.
Proof.
  unfold current_accounts, bt_collect, ids. intros H.
  assert (Hgen : forall l m, x ∈ map pe_id l \/ x ∈ m.*1 ->
    x ∈ (fold_left (fun m kv => bt_insert kv.1 kv.2 m) (map (fun a => (pe_id a, a)) l) m).*1).
  { induction l as [|a l IH]; intros m; cbn; [set_solver|]. intros Hx. apply IH. rewrite bt_insert_keys. cbn. set_solver. }
  apply Hgen. by left.
Qed.

Definition enrolled_id (proven : bool) revision now_ms l a :
  pe_id (with_aliases l (touched proven revision now_ms a)) = pe_id a := eq_refl.

(** One observation: its account is there, and nothing else goes. *)
Lemma enroll_step revision now_ms accounts owners o id :
  keyed accounts ->
  let accounts' := (enroll revision now_ms (accounts, owners) (o, id)).1 in
  keyed accounts' /\ (forall x, x ∈ accounts'.*1 <-> x = id \/ x ∈ accounts.*1)
  /\ (forall k a, bt_get k accounts = Some a -> pe_state a = Retired ->
        exists a', bt_get k accounts' = Some a' /\ pe_state a' = Retired).
Proof.
  intros Hk. unfold enroll. set (a0 := match bt_get id accounts with Some a => a | None => _ end).
  assert (Hid : pe_id a0 = id).
  { subst a0. destruct (bt_get id accounts) eqn:E; [by eapply keyed_get|done]. }
  destruct (fold_left _ _ _) as [bindings owners']. cbn [fst]. split_and!.
  - by apply keyed_insert.
  - intros x. apply bt_insert_keys.
  - intros k a Ha Hr. destruct (decide (k = id)) as [->|Hne].
    + rewrite bt_get_insert_eq. eexists. split; [done|]. subst a0. rewrite Ha. cbn. by rewrite Hr, andb_false_r.
    + rewrite bt_get_insert_ne; [by exists a|apply Hk|done].
Qed.

Lemma enroll_all revision now_ms assignments : forall accounts owners,
  keyed accounts ->
  let accounts' := (fold_left (enroll revision now_ms) assignments (accounts, owners)).1 in
  keyed accounts' /\ (forall x, x ∈ accounts'.*1 <-> x ∈ map snd assignments \/ x ∈ accounts.*1)
  /\ (forall k a, bt_get k accounts = Some a -> pe_state a = Retired ->
        exists a', bt_get k accounts' = Some a' /\ pe_state a' = Retired).
Proof.
  induction assignments as [|[o id] l IH]; intros accounts owners Hk.
  { cbn. split_and!; [done|set_solver|eauto]. }
  pose proof (enroll_step revision now_ms accounts owners o id Hk) as (H1 & H2 & H3).
  cbn [fold_left]. destruct (enroll revision now_ms (accounts, owners) (o, id)) as [accounts1 owners1]. cbn in H1, H2, H3.
  destruct (IH accounts1 owners1 H1) as (H4 & H5 & H6). split_and!; [done| |].
  - intros x. rewrite H5, H2. cbn. set_solver.
  - intros k a Ha Hr. destruct (H3 k a Ha Hr) as (a' & Ha' & Hr'). by eapply H6.
Qed.

Lemma NoDup_map_filter {A B} (f : A -> B) p l : NoDup (map f l) -> NoDup (map f (List.filter p l)).
Proof.
  induction l as [|x l IH]; [done|]. cbn. intros [H1 H2]%NoDup_cons. destruct (p x); cbn; [|by apply IH].
  apply NoDup_cons. split; [|by apply IH]. intros Hx. apply H1.
  apply list_elem_of_fmap in Hx as (y & -> & Hy). apply list_elem_of_In, filter_In in Hy as [Hy _].
  apply list_elem_of_fmap. exists y. split; [done|by apply list_elem_of_In].
Qed.

Lemma Forall_list_filter {A} (P : A -> Prop) p l : Forall P l -> Forall P (List.filter p l).
Proof. induction 1 as [|x l Hx _ IH]; cbn; [done|]. destruct (p x); [by constructor|done]. Qed.

(** Credentials keep distinct pointers and belong to accounts. *)
Lemma put_credential_ok accounts P assignments : forall l,
  NoDup (map cm_pointer l) -> Forall (fun c => P (cm_account_id c)) l ->
  Forall (fun a => P a.2) assignments ->
  NoDup (map cm_pointer (fold_left (put_credential accounts) assignments l))
  /\ Forall (fun c => P (cm_account_id c)) (fold_left (put_credential accounts) assignments l).
Proof.
  induction assignments as [|[o id] rest IH]; intros l Hn Hl Ha; [done|]. apply Forall_cons in Ha as [Hid Ha].
  cbn [fold_left]. assert (Hput : NoDup (map cm_pointer (put_credential accounts l (o, id)))
    /\ Forall (fun c => P (cm_account_id c)) (put_credential accounts l (o, id))).
  { unfold put_credential. destruct (ob_credential o) as [c|]; [|done].
    set (c' := match bt_get id accounts with Some a => _ | None => _ end).
    assert (Hc : cm_account_id c' = id) by (subst c'; by repeat case_match). clearbody c'. split.
    - rewrite map_app. cbn. apply NoDup_app. split_and!; [|intros x Hx Hx'|apply NoDup_singleton].
      + by apply NoDup_map_filter.
      + apply list_elem_of_singleton in Hx' as ->. apply list_elem_of_fmap in Hx as (y & Hy & Hin).
        apply list_elem_of_In, filter_In in Hin as [_ Hin]. by rewrite bool_decide_true in Hin.
    - apply Forall_app. split; [by apply Forall_list_filter|by repeat constructor; rewrite Hc]. }
  destruct Hput. by apply IH.
Qed.

Lemma retain_newest_sub l : forall kept x, x ∈ retain_newest kept l -> x ∈ kept \/ x ∈ l.
Proof.
  induction l as [|y l IH]; intros kept x; cbn; [by left|]. intros [H|H]%IH; [|by right; right].
  case_match; [by left|]. apply elem_of_app in H as [H|H]; [by left|]. right. set_solver.
Qed.

Lemma dedup_by_sub {A} (same : A -> A -> bool) l : forall last x, x ∈ dedup_by same last l -> x ∈ l.
Proof.
  induction l as [|y l IH]; intros last x; cbn; [done|]. destruct (match last with Some _ => _ | None => _ end).
  - intros H. right. by eapply IH.
  - intros [->|H]%elem_of_cons; [left|right; by eapply IH].
Qed.

(** Settled capacity is of the accounts it was reported for. *)
Lemma settle_capacity_sub l h : h ∈ settle_capacity l -> exists h', h' ∈ l /\ ch_account_id h = ch_account_id h'.
Proof.
  unfold settle_capacity. intros H. apply list_elem_of_fmap in H as ([h' w] & -> & H). apply dedup_by_sub in H.
  rewrite elem_of_sort_by in H. apply retain_newest_sub in H as [H|H]; [by apply elem_of_nil in H|].
  rewrite elem_of_sort_by in H. unfold flatten_windows in H. apply list_elem_of_In, in_flat_map in H as (x & Hx & Hin).
  apply in_map_iff in Hin as (w' & [= <- <-] & _). exists x. split; [by apply list_elem_of_In|done].
Qed.

(** What the authority makes of the newest snapshot. *)
Inductive change (s : ProviderAccountSnapshot) : ProviderAccountSnapshot -> Prop :=
| change_reconcile batches now_ms : change s (compose s batches (ps_revision s + 1) now_ms)
| change_merge from into now_ms s' :
    merge from into s = Ok s' -> change s (with_revision (ps_revision s + 1) now_ms s')
| change_split account binding now_ms s' :
    split sha256 account binding now_ms s = Ok s' -> change s (with_revision (ps_revision s + 1) now_ms s').

Lemma compose_ids s batches revision now_ms x :
  x ∈ ids (compose s batches revision now_ms)
  <-> x ∈ map snd (assignments_of sha256 s batches) \/ x ∈ (current_accounts s).*1.
Proof.
  unfold Enrollment.compose. set (assignments := assignments_of sha256 s batches).
  destruct (enroll_all revision now_ms assignments _ ([], []) (current_keyed s)) as (Hk & Hx & _).
  destruct (fold_left _ assignments _) as [accounts [owners conflicts]]. cbn in Hk, Hx. rewrite <- Hx. unfold ids. cbn.
  rewrite <- (keyed_ids _ Hk). rewrite !list_elem_of_fmap.
  split; intros (a & -> & Ha).
  - rewrite elem_of_sort_by in Ha. apply list_elem_of_fmap in Ha as (b & -> & Hb). by exists b.
  - exists (with_aliases (sort_by alias_cmp (pe_aliases a)) a). split; [done|]. rewrite elem_of_sort_by.
    apply list_elem_of_fmap. by exists a.
Qed.

Lemma compose_wf s batches revision now_ms :
  wf s -> keys_unique (project (compose s batches revision now_ms)) = true ->
  wf (compose s batches revision now_ms).
Proof.
  intros [Hn Hp Hc Hcap] Hu. assert (Hgrow : forall x, x ∈ ids s -> x ∈ ids (compose s batches revision now_ms)).
  { intros x Hx. apply compose_ids. right. by apply current_keys. }
  assert (Has : Forall (fun a => a.2 ∈ ids (compose s batches revision now_ms)) (assignments_of sha256 s batches)).
  { apply Forall_forall. intros [o id] Ha. apply compose_ids. left. apply list_elem_of_fmap. by exists (o, id). }
  assert (Hout : NoDup (map cm_pointer (ps_credentials (compose s batches revision now_ms)))
    /\ Forall (fun c => cm_account_id c ∈ ids (compose s batches revision now_ms))
         (ps_credentials (compose s batches revision now_ms))
    /\ Forall (fun h => ch_account_id h ∈ ids (compose s batches revision now_ms))
         (ps_capacity (compose s batches revision now_ms))).
  { revert Hgrow Has. generalize (ids (compose s batches revision now_ms)). intros P Hgrow Has.
    unfold Enrollment.compose. destruct (fold_left (enroll _ _) _ _) as [accounts [owners conflicts]].
    cbn [ps_credentials ps_capacity]. rewrite sort_by_perm.
    destruct (put_credential_ok accounts (fun x => x ∈ P) (assignments_of sha256 s batches)
      (List.filter (fun c => negb (credential_source_replaced (map ib_source (List.filter is_ok batches)) c))
         (ps_credentials s))) as [H1 H2].
    { by apply NoDup_map_filter. }
    { apply Forall_list_filter. eapply Forall_impl; [exact Hc|]. intros c. apply Hgrow. }
    { done. }
    split_and!; [done|done|]. apply Forall_forall. intros h Hh.
    apply settle_capacity_sub in Hh as (h' & Hin & ->). apply elem_of_app in Hin as [Hin|Hin].
    - rewrite Forall_forall in Hcap. by apply Hgrow, Hcap.
    - apply list_elem_of_In, in_flat_map in Hin as ([o id] & Ha & Hin). apply in_map_iff in Hin as (x & <- & _).
      rewrite Forall_forall in Has. apply (Has (o, id)). by apply list_elem_of_In. }
  destruct Hout as (H1 & H2 & H3). by split; [apply keys_unique_ids|..].
Qed.

(** The state of an account that reconciliation meets retired. *)
Lemma compose_keeps_retired s batches revision now_ms a a' :
  NoDup (ids s) -> a ∈ ps_accounts s -> pe_state a = Retired ->
  a' ∈ ps_accounts (compose s batches revision now_ms) -> pe_id a' = pe_id a -> pe_state a' = Retired.
Proof.
  intros Hn Ha Hr. unfold Enrollment.compose. set (assignments := assignments_of sha256 s batches).
  destruct (enroll_all revision now_ms assignments _ ([], []) (current_keyed s)) as (Hk & _ & Hret).
  destruct (fold_left _ assignments _) as [accounts [owners conflicts]]. cbn in Hk, Hret |- *.
  intros Hin Hid. rewrite elem_of_sort_by in Hin. apply list_elem_of_fmap in Hin as (b & -> & Hb).
  apply list_elem_of_fmap in Hb as ([k b'] & -> & Hb). cbn in Hid |- *.
  destruct Hk as [Hwf Hkeys]. rewrite Forall_forall in Hkeys. pose proof (Hkeys _ Hb) as Hkb. cbn in Hkb.
  apply (bt_elem_get _ _ _ Hwf) in Hb. destruct (Hret (pe_id a) a) as (a'' & Ha'' & Hr''); [|done|].
  { apply bt_collect_get; [by rewrite <- list_fmap_compose|]. apply list_elem_of_fmap. by exists a. }
  rewrite <- Hkb, Hid in Hb. rewrite Ha'' in Hb. by injection Hb as <-.
Qed.

Lemma insert_ids l i (a b : ProviderAccountEnrollment) :
  l !! i = Some a -> pe_id b = pe_id a -> map pe_id (<[i := b]> l) = map pe_id l.
Proof.
  intros Hi Hb. change (map pe_id) with (fmap (M:=list) pe_id). rewrite list_fmap_insert, Hb.
  apply list_insert_id. by rewrite list_lookup_fmap, Hi.
Qed.

Lemma position_lookup id s i a : position_of id s = Some (i, a) -> ps_accounts s !! i = Some a /\ pe_id a = id.
Proof. unfold position_of. intros H. apply list_find_Some in H as (H1 & H2 & _). done. Qed.

Lemma stamped_ids revision now_ms s : ids (with_revision revision now_ms s) = ids s.
Proof.
  unfold ids. cbn. rewrite map_map. apply map_ext. intros a. unfold stamp_revision. by destruct (_ =? _).
Qed.

Lemma merge_wf from into s s' : wf s -> merge from into s = Ok s' -> wf s' /\ ids s' = ids s.
Proof.
  intros [Hn Hp Hc Hcap]. unfold merge. destruct (str_eqb from into); [done|].
  destruct (position_of from s) as [[fi f]|] eqn:Ef; [|done]. destruct (position_of into s) as [[ii i]|] eqn:Ei; [|done].
  apply position_lookup in Ef as [Ef Hf]. apply position_lookup in Ei as [Ei Hi]. intros [= <-].
  set (l := <[ii := _]> (ps_accounts s)). assert (Hl : exists f', l !! fi = Some f' /\ pe_id f' = pe_id f).
  { subst l. destruct (decide (ii = fi)) as [->|Hne].
    - rewrite list_lookup_insert_eq by (by eapply lookup_lt_Some). rewrite Ei in Ef. injection Ef as ->. by eexists.
    - rewrite list_lookup_insert_ne by done. by exists f. }
  destruct Hl as (f' & Hl & Hf').
  match goal with |- wf ?t /\ _ => assert (Hids : ids t = ids s) end.
  { unfold ids. cbn. erewrite insert_ids; [|exact Hl|by rewrite Hf']. subst l. by eapply insert_ids. }
  split; [|done]. assert (Hin : into ∈ ids s).
  { unfold ids. apply list_elem_of_fmap. exists i. split; [done|]. by eapply list_elem_of_lookup_2. }
  split; rewrite ?Hids; [done|..]; cbn.
  - by rewrite map_map.
  - apply Forall_fmap. eapply Forall_impl; [exact Hc|]. intros c Hx. cbn. by destruct (str_eqb _ _).
  - apply Forall_fmap. eapply Forall_impl; [exact Hcap|]. intros h Hx. cbn. by destruct (str_eqb _ _).
Qed.

Lemma split_wf account binding now_ms s s' :
  wf s -> split sha256 account binding now_ms s = Ok s' -> NoDup (ids s') -> wf s' /\ exists id, ids s' = ids s ++ [id].
Proof.
  intros [Hn Hp Hc Hcap]. unfold split. destruct (position_of account s) as [[i a]|] eqn:Ea; [|done].
  apply position_lookup in Ea as [Ea _]. destruct (List.find _ _) as [sel|]; [|done].
  destruct (least _ _ _) as [anchor|]; [|done]. intros [= <-] Hnd.
  set (id := deterministic_id _ _ _) in *.
  match goal with |- wf ?t /\ _ => assert (Hids : ids t = ids s ++ [id]) end.
  { unfold ids. cbn. rewrite map_app. cbn. f_equal. by eapply insert_ids. }
  split; [|by eexists]. split; [done|..]; rewrite ?Hids; cbn.
  - rewrite map_map. erewrite map_ext; [exact Hp|]. intros c. by destruct (belongs _ _ _).
  - apply Forall_fmap. eapply Forall_impl; [exact Hc|]. intros c Hx. cbn. destruct (belongs _ _ _); cbn; set_solver.
  - eapply Forall_impl; [exact Hcap|]. set_solver.
Qed.

Lemma stamped_wf revision now_ms s : wf s -> wf (with_revision revision now_ms s).
Proof. intros [H1 H2 H3 H4]. by split; rewrite ?stamped_ids. Qed.

Lemma change_wf s s' : wf s -> change s s' -> keys_unique (project s') = true -> wf s' /\ ids s ⊆ ids s'.
Proof.
  intros Hwf Hch Hu. destruct Hch as [batches now_ms|from into now_ms s' H|account binding now_ms s' H].
  - split; [by apply compose_wf|]. intros x Hx. apply compose_ids. right. by apply current_keys.
  - destruct (merge_wf _ _ _ _ Hwf H) as [H1 H2]. split; [by apply stamped_wf|]. by rewrite stamped_ids, H2.
  - apply keys_unique_ids in Hu. rewrite stamped_ids in Hu. destruct (split_wf _ _ _ _ _ Hwf H Hu) as [H1 [id H2]].
    split; [by apply stamped_wf|]. rewrite stamped_ids, H2. set_solver.
Qed.

(** Databases that processes of the program reach. *)
Inductive reachable : AuthorityDb -> Prop :=
| reach_empty : reachable db_empty
| reach_change db plan kind db' :
    reachable db -> change (latest db) (rp_snapshot plan) -> rp_base_revision plan = ps_revision (latest db) ->
    apply false plan kind db = (Ok tt, db') -> reachable db'.

Lemma change_revision s s' : change s s' -> ps_revision s' = ps_revision s + 1.
Proof. destruct 1; [|done..]. unfold Enrollment.compose. by destruct (fold_left _ _ _) as [? [? ?]]. Qed.

Lemma reachable_ok db :
  reachable db ->
  linear db /\ Forall (fun r => wf (rv_snapshot r)) (db_revisions db) /\ wf (latest db)
    /\ (forall i r, db_revisions db !! i = Some r -> ids (rv_snapshot r) ⊆ ids (latest db))
    /\ (forall i j r r', (i <= j)%nat -> db_revisions db !! i = Some r -> db_revisions db !! j = Some r' ->
        ids (rv_snapshot r) ⊆ ids (rv_snapshot r')).
Proof.
  intros Hr.
  induction Hr as [|db plan kind db' _ (Hlin & Hall & Hwf & Hsub & Hmono) Hch Hbase Happ].
  { split_and!; [done|constructor|apply snapshot_empty_wf|done|done]. }
  assert (Hnext : ps_revision (rp_snapshot plan) = rp_base_revision plan + 1) by (rewrite Hbase; by apply change_revision).
  destruct (apply_appends _ _ _ _ _ _ Hlin Hnext Happ) as (_ & _ & Hlin' & Hrows & Hu).
  destruct (change_wf _ _ Hwf Hch Hu) as [Hwf' Hsub'].
  assert (Hlast : latest db' = rp_snapshot plan).
  { unfold latest. rewrite Hrows. destruct Hlin' as [Hl _]. rewrite Hrows in Hl. by destruct (linear_snoc _ _ Hl) as [-> _]. }
  assert (Hsub2 : forall i r, db_revisions db' !! i = Some r -> ids (rv_snapshot r) ⊆ ids (latest db')).
  { intros i r. rewrite Hrows, Hlast. intros [H|[_ H]]%lookup_app_Some; [etrans; [by eapply Hsub|done]|].
    apply list_lookup_singleton_Some in H as [_ <-]. done. }
  split_and!; [done|rewrite Hrows; apply Forall_app; split; [done|by apply Forall_singleton]|by rewrite Hlast|done|].
  intros i j r r' Hij. rewrite Hrows. intros Hi [Hj|[Hge Hj]]%lookup_app_Some.
  - apply lookup_lt_Some in Hj as Hlt. rewrite lookup_app_l in Hi by lia. exact (Hmono i j r r' Hij Hi Hj).
  - apply list_lookup_singleton_Some in Hj as [_ <-]. cbn. rewrite <- Hlast. eapply (Hsub2 i). by rewrite Hrows.
Qed.

(** C35 (invariant). In every database that reconciliations, merges and splits reach: the revisions count from one; in
    each of them ids and credential pointers are unique, and every credential and capacity sample belongs
    to an account of the revision; and no account of a revision is missing from a later one. *)
Theorem enrollments_invariant db :
  reachable db ->
  linear db /\ Forall (fun r => wf (rv_snapshot r)) (db_revisions db)
  /\ (forall i j r r', (i <= j)%nat -> db_revisions db !! i = Some r -> db_revisions db !! j = Some r' ->
        ids (rv_snapshot r) ⊆ ids (rv_snapshot r')).
Proof. intros Hr. destruct (reachable_ok db Hr) as (H1 & H2 & _ & _ & H3). done. Qed.

(** ** Resolution *)

Context (nfc to_lowercase : string -> string).

Lemma NoDup_map_inj {A B} (f : A -> B) l x y : NoDup (map f l) -> x ∈ l -> y ∈ l -> f x = f y -> x = y.
Proof.
  intros Hn Hx Hy E. apply list_elem_of_lookup in Hx as [i Hi]. apply list_elem_of_lookup in Hy as [j Hj].
  assert (i = j).
  { eapply (NoDup_lookup (map f l)); [done|by rewrite list_lookup_fmap, Hi|]. by rewrite list_lookup_fmap, Hj, E. }
  subst j. rewrite Hi in Hj. by injection Hj.
Qed.

(** C36 (safety). What an alias resolves to is sound and unambiguous: the account is of the newest revision, is enrolled,
    has no binding in conflict, and the alias is bound to it; the credential is a ready one of the
    registry and of that account; and the revision has no other account of that id and no other
    credential of that pointer. *)
Theorem resolution_unambiguous q db res :
  reachable db -> resolve sha256 nfc to_lowercase q db = Ok res ->
  exists account c normalized,
    normalize_query sha256 nfc to_lowercase (q_alias_scheme q) (q_alias_value q) = Ok normalized
    /\ rs_authority_revision res = rows db
    /\ account ∈ ps_accounts (latest db) /\ pe_id account = rs_account_id res /\ pe_state account = Enrolled
    /\ Forall (fun b => ab_binding_state b <> ParkedConflict) (pe_aliases account)
    /\ binds (q_alias_scheme q) normalized account = true
    /\ c ∈ ps_credentials (latest db) /\ cm_pointer c = rs_credential_pointer res
    /\ cm_account_id c = rs_account_id res /\ cm_readiness c = Ready /\ is_registry (cm_pointer c) = true
    /\ (forall a, a ∈ ps_accounts (latest db) -> pe_id a = rs_account_id res -> a = account)
    /\ (forall c', c' ∈ ps_credentials (latest db) -> cm_pointer c' = rs_credential_pointer res -> c' = c).
Proof.
  intros Hr. destruct (reachable_ok db Hr) as (Hlin & _ & [Hn Hp _ _] & _). destruct (linear_latest db Hlin) as (_ & Hrev & Hsnap).
  unfold resolve. destruct (decide (rows db = 0)) as [H0|H0].
  { unfold authority_snapshot, rows in *. destruct (db_revisions db); [cbn; discriminate|cbn in H0; lia]. }
  rewrite (Hsnap H0). cbn [try]. intros H. destruct (match q_expected_revision q with Some _ => _ | None => _ end); [|done].
  cbn [try] in H. destruct (_ || _); [done|].
  destruct (normalize_query _ _ _ _ _) as [normalized|] eqn:En; [|done]. cbn [try] in H.
  destruct (List.find _ (ps_accounts _)) as [account|] eqn:Ea; [|done]. apply find_some in Ea as [Ha Hq].
  destruct (bool_decide_reflect (pe_state account = Enrolled)) as [Hen|]; [|done]. cbn [negb] in H.
  destruct (existsb (fun b => bool_decide (ab_binding_state b = ParkedConflict)) (pe_aliases account)) eqn:Econf; [done|].
  destruct (or_else _ _) as [c|] eqn:Ec; [|done]. injection H as <-.
  assert (Hc : In c (ps_credentials (latest db)) /\ ready_for account c = true /\ is_registry (cm_pointer c) = true).
  { unfold or_else in Ec. destruct (List.find (fun c => _ && labelled _ _) _) as [c'|] eqn:E.
    - injection Ec as ->. apply find_some in E as [E1 E2]. apply andb_prop in E2 as [E2 E3].
      split_and!; [done|done|]. by destruct (cm_pointer c).
    - apply find_some in Ec as [E1 E2]. by apply andb_prop in E2. }
  destruct Hc as (Hin & Hready & Hreg). unfold ready_for in Hready. apply andb_prop in Hready as [Hid Hrd].
  apply bool_decide_eq_true in Hid, Hrd. apply list_elem_of_In in Ha, Hin. exists account, c, normalized. cbn.
  apply andb_prop in Hq as [_ Hq]. split_and!; try done.
  - apply List.Forall_forall. intros b Hb Hs. apply not_true_iff_false in Econf. apply Econf, existsb_exists.
    exists b. split; [done|]. by rewrite bool_decide_true.
  - apply existsb_exists in Hq as (b & Hb & Hq). apply existsb_exists. exists b. split; [done|].
    unfold query_binding in Hq. by apply andb_prop in Hq as [Hq _].
  - intros x Hx Hidx. by eapply (NoDup_map_inj pe_id).
  - intros c' Hc' Hptr. by eapply (NoDup_map_inj cm_pointer).
Qed.

(** ** Replay *)

Definition quiet (batches : list ImportBatch) : Attempt := mkAttempt (fun db => db) batches (fun db => db).

Lemma quiet_turn ro dry now_ms batches db :
  linear db ->
  reconcile_turn sha256 debug_string ro dry now_ms (quiet batches) db =
    let plan := build batches now_ms (latest db) (current_revision db).2 in
    if dry || negb (rp_changed plan) then (Ok (result_of dry plan), db)
    else match apply ro plan "reconcile" db with
         | (Ok _, db') => (Ok (result_of dry plan), db')
         | (Err e, db') => (Err e, db')
         end.
Proof.
  intros Hlin. destruct (linear_latest db Hlin) as (Hcur & _ & Hsnap). unfold reconcile_turn.
  destruct (current_revision db) as [revision digest]. cbn in Hcur |- *. subst revision.
  destruct (Z.eqb_spec (rows db) 0) as [H0|H0].
  - replace snapshot_empty with (latest db); [by destruct (apply _ _ _ _) as [[]]|].
    unfold latest, rows in *. destruct (db_revisions db); [done|cbn in H0; lia].
  - rewrite (Hsnap H0). by destruct (apply _ _ _ _) as [[]].
Qed.

(** Nothing new is left to do. *)
Definition settled (batches : list ImportBatch) (db : AuthorityDb) : Prop :=
  linear db /\ 0 < rows db /\ (current_revision db).2 = Some (input_digest sha256 batches).

Lemma settled_turn ro dry now_ms batches db : settled batches db ->
  reconcile_turn sha256 debug_string ro dry now_ms (quiet batches) db
  = (Ok (result_of dry (mkPlan (rows db) (input_digest sha256 batches) false (latest db) now_ms)), db).
Proof.
  intros (Hlin & Hpos & Hd). rewrite quiet_turn by done. destruct (linear_latest db Hlin) as (_ & Hrev & _).
  unfold Enrollment.build. rewrite Hd, Hrev, (proj2 (Z.ltb_lt _ _) Hpos), bool_decide_true by done. cbn.
  by rewrite orb_true_r.
Qed.

Lemma turn_settles now_ms batches db res db' :
  linear db -> reconcile_turn sha256 debug_string false false now_ms (quiet batches) db = (Ok res, db') ->
  settled batches db' /\ rr_snapshot res = latest db'.
Proof.
  intros Hlin. rewrite quiet_turn by done. destruct (linear_latest db Hlin) as (_ & Hrev & _).
  unfold Enrollment.build. destruct ((0 <? _) && _) eqn:E; cbn [rp_changed negb orb].
  { intros [= <- <-]. apply andb_prop in E as [H1%Z.ltb_lt H2%bool_decide_eq_true].
    split; [|done]. split_and!; [done|lia|done]. }
  set (plan := mkPlan _ _ _ _ _). assert (Hnext : ps_revision (rp_snapshot plan) = rp_base_revision plan + 1).
  { cbn [plan rp_snapshot rp_base_revision]. unfold Enrollment.compose. by destruct (fold_left _ _ _) as [? [? ?]]. }
  destruct (apply false plan "reconcile" db) as [[[]|] d] eqn:Ea; [|done]. intros [= <- <-].
  destruct (apply_appends _ _ _ _ _ _ Hlin Hnext Ea) as (_ & _ & Hlin' & Hrows & _).
  pose proof Hlin' as [Hl _]. rewrite Hrows in Hl. destruct (linear_snoc _ _ Hl) as [Hnew _].
  unfold settled, current_revision, latest, rows. rewrite Hrows, Hnew, length_app. cbn.
  split_and!; [done|lia|done|done].
Qed.

(** Reconciling again what was reconciled, at any time, changes nothing: as long as the sources have the
    same contents the snapshot that is reported is the one that was stored, and nothing is written. *)
Theorem reconcile_settled now_ms now_ms' batches batches' second second' ro dry db db' res :
  linear db -> reconcile sha256 debug_string false false now_ms (quiet batches) second db = (Ok res, db') ->
  input_digest sha256 batches' = input_digest sha256 batches ->
  exists res', reconcile sha256 debug_string ro dry now_ms' (quiet batches') second' db' = (Ok res', db')
    /\ rr_changed res' = false /\ rr_snapshot res' = rr_snapshot res.
Proof.
  intros Hlin H Hd. assert (Ht : reconcile_turn sha256 debug_string false false now_ms (quiet batches) db = (Ok res, db')).
  { unfold reconcile in H. destruct (reconcile_turn _ _ _ _ _ (quiet batches) db) as [[r|e] d] eqn:E; [done|].
    exfalso. destruct e; try done. rewrite quiet_turn in E by done.
    destruct (linear_latest db Hlin) as (Hcur & Hrev & _).
    unfold Enrollment.build in E. destruct ((0 <? _) && _); cbn [rp_changed negb orb] in E; [done|].
    unfold Enrollment.apply in E. cbn [rp_base_revision] in E. rewrite Hcur, Hrev, Z.eqb_refl in E.
    cbn [negb] in E. revert E. by destruct (_ || _). }
  destruct (turn_settles _ _ _ _ _ Hlin Ht) as [Hs Hsnap]. unfold settled in Hs. rewrite <- Hd in Hs.
  eexists. unfold reconcile. rewrite (settled_turn ro dry now_ms' batches' db' Hs). split; [done|]. by rewrite Hsnap.
Qed.
End Theorems.

(** ** What an importer reads *)

Definition over (key : string) (f : Json -> Json) (v : Json) : Json :=
  match v with
  | JObject m => JObject (map (fun kx => if str_eqb kx.1 key then (kx.1, f kx.2) else kx) m)
  | _ => v
  end.

Definition each (f : Json -> Json) (v : Json) : Json := match v with JArray l => JArray (map f l) | _ => v end.

(** The configuration of CodexBar without the tokens of its accounts. *)
Definition redact_tokens : Json -> Json :=
  over "providers" (each (over "tokenAccounts" (over "accounts" (each (over "token" (fun _ => JNull)))))).

Lemma get_over k key f v : get k (over key f v) = if str_eqb k key then f <$> get k v else get k v.
Proof.
  destruct v; cbn; try (by destruct (str_eqb k key)). unfold get. cbn.
  induction l as [|[k' x] l IH]; cbn; [by destruct (str_eqb k key)|].
  assert (Hfst : (if str_eqb k' key then (k', f x) else (k', x)) = (k', if str_eqb k' key then f x else x))
    by (by destruct (str_eqb k' key)).
  rewrite Hfst. cbn. destruct (key_cmp k k') eqn:E; [|by destruct (str_eqb k key)|done].
  apply key_cmp_eq in E as ->. by destruct (str_eqb k' key).
Qed.

Lemma get_str_over k key f v : k <> key -> get_str k (over key f v) = get_str k v.
Proof. intros H. unfold get_str. rewrite get_over. unfold str_eqb. by rewrite bool_decide_false. Qed.

Lemma as_array_each f v : as_array (each f v) = map f <$> as_array v.
Proof. by destruct v. Qed.

Section Secrets.
Context (sha256 : string -> string) (nfc to_lowercase : string -> string).

Lemma zai_row_redacted fp i row :
  zai_row sha256 nfc to_lowercase fp i (over "token" (fun _ => JNull) row) = zai_row sha256 nfc to_lowercase fp i row.
Proof. unfold zai_row. by rewrite !get_str_over. Qed.

Lemma try_each_map {A B} (f : Z -> A -> result B AuthorityError) (g : A -> A) l : forall i,
  (forall i x, f i (g x) = f i x) -> try_each f i (map g l) = try_each f i l.
Proof. induction l as [|x l IH]; intros i H; cbn; [done|]. by rewrite H, IH. Qed.

Lemma find_map_fst {A} (p : A -> bool) (g : A -> A) l :
  (forall x, p (g x) = p x) -> List.find p (map g l) = g <$> List.find p l.
Proof. intros H. induction l as [|x l IH]; cbn; [done|]. rewrite H. by destruct (p x). Qed.

(** The tokens of the accounts in CodexBar's configuration never reach an observation: the
    importer finds the same, or fails with the same error, when every one of them is blanked out. *)
Theorem zai_token_never_read fp root :
  zai_accounts sha256 nfc to_lowercase fp (redact_tokens root) = zai_accounts sha256 nfc to_lowercase fp root.
Proof.
  unfold zai_accounts, redact_tokens. unfold get_array. rewrite get_over. change (str_eqb "providers" "providers") with true.
  cbn match. destruct (get "providers" root) as [v|]; [|done]. cbn [fmap option_fmap option_map mbind option_bind].
  rewrite as_array_each. destruct (as_array v) as [l|]; [|done]. cbn [fmap option_fmap option_map malformed try].
  rewrite find_map_fst by (intros p; by rewrite get_str_over).
  destruct (List.find _ l) as [p|]; [|done]. cbn [fmap option_fmap option_map mbind option_bind pointer].
  rewrite get_over. change (str_eqb "tokenAccounts" "tokenAccounts") with true. cbn match.
  destruct (get "tokenAccounts" p) as [t|]; [|done]. cbn [fmap option_fmap option_map mbind option_bind].
  rewrite get_over. change (str_eqb "accounts" "accounts") with true. cbn match.
  destruct (get "accounts" t) as [a|]; [|done]. cbn [fmap option_fmap option_map mbind option_bind].
  rewrite as_array_each. destruct (as_array a) as [accounts|]; [|done]. cbn [fmap option_fmap option_map from_option id].
  rewrite length_map, try_each_map; [done|]. intros. apply zai_row_redacted.
Qed.
End Secrets.

(** ** Samples *)

Module EnrollmentSamples.

Fixpoint backwards (s acc : string) : string :=
  match s with EmptyString => acc | String c s => backwards s (String c acc) end.

(** A digest that tells the inputs below apart. *)
Definition digest (s : string) : string := backwards s EmptyString.

Definition alias (scheme : AliasScheme) (value : string) : NormalizedAlias :=
  mkNormalizedAlias scheme value value (scheme_rank scheme).

Definition slot_observation (slot uuid : string) : Observation :=
  mkObservation SwitchbackCodexRegistry slot "fp" [alias OpenAiAccountUuid uuid; alias Label slot]
    (Some (mkCredential EmptyString (PtrRegistry slot AccessToken) KindOAuth true true true (Some 5000) "fp" 1000 Ready))
    [] false [].

Definition registry (fp : string) (l : list Observation) : ImportBatch :=
  mkImportBatch SwitchbackCodexRegistry (Some fp) StOk None l.

Definition u1 : string := "01234567-89ab-cdef-8123-456789abcde1".
Definition u2 : string := "01234567-89ab-cdef-8123-456789abcde2".

Definition two_slots : list ImportBatch := [registry "fp" [slot_observation "a" u1; slot_observation "b" u2]].

#[local] Abbreviation reconciled now b db := (reconcile digest id false false now (quiet b) (quiet b) db).
#[local] Abbreviation adjudicated c now d := (adjudicate digest false c now (fun x => x) d).

Definition label (slot : string) : AccountResolutionQuery := mkQuery "openai" "codex" Label slot None.

Definition plan1 : ReconcilePlan :=
  mkPlan 0 (input_digest digest two_slots) true (compose digest id snapshot_empty two_slots (0 + 1) 1000) 1000.

(** The database after the first reconciliation. *)
Definition db1 : AuthorityDb := (apply digest false plan1 "reconcile" db_empty).2.
Definition id1 : string := Eval vm_compute in deterministic_id digest "openai" u1.
Definition id2 : string := Eval vm_compute in deterministic_id digest "openai" u2.

Lemma db1_applied : apply digest false plan1 "reconcile" db_empty = (Ok tt, db1).
Proof.
  unfold db1. assert (H : (apply digest false plan1 "reconcile" db_empty).1 = Ok tt) by (vm_compute; reflexivity).
  destruct (apply digest false plan1 "reconcile" db_empty) as [r d]. cbn in H |- *. by rewrite H.
Qed.

Lemma db1_reachable : reachable digest id db1.
Proof.
  eapply reach_change; [apply reach_empty| | |apply db1_applied]; [|reflexivity].
  apply (change_reconcile digest id snapshot_empty two_slots 1000).
Qed.

Lemma enrollments_invariant_witness : linear db1 /\ ids (latest db1) = [id1; id2].
Proof. split; [apply (enrollments_invariant digest id db1 db1_reachable)|vm_compute; reflexivity]. Defined.

Lemma resolution_unambiguous_witness :
  exists account, account ∈ ps_accounts (latest db1) /\ pe_id account = id1 /\ pe_state account = Enrolled.
Proof.
  destruct (resolution_unambiguous digest id id id (label "a") db1
    (mkResolution 1 id1 (PtrRegistry "a" AccessToken) true) db1_reachable) as (account & c & n & _ & _ & H1 & H2 & H3 & _).
  - vm_compute. reflexivity.
  - exists account. split; [exact H1|]. split; [exact H2|exact H3].
Defined.

(** Someone else commits the plan of the first revision. *)
Definition rival (db : AuthorityDb) : AuthorityDb :=
  match apply digest false plan1 "reconcile" db with (Ok _, d) => d | (Err _, _) => db end.

Lemma rival_polite : polite digest rival.
Proof.
  intros db. unfold rival. destruct (apply digest false plan1 "reconcile" db) as [[[]|] d] eqn:E; [|reflexivity].
  apply rtc_once. exists plan1, "reconcile". split; [reflexivity|exact E].
Qed.

Lemma quiet_polite : polite digest (fun db => db).
Proof. intros db. reflexivity. Qed.

Definition one_more : list ImportBatch := [registry "fp2" [slot_observation "a" u1; slot_observation "c" u2]].

(** The first attempt loses to the rival, the second takes effect on top of it. *)
Lemma reconcile_atomic_witness :
  let out := reconcile digest id false false 2000 (mkAttempt (fun db => db) one_more rival) (quiet one_more) db_empty in
  rows out.2 = 2 /\ atomic digest id db_empty false [one_more; one_more] 2000 out.
Proof.
  split; [vm_compute; reflexivity|].
  apply (reconcile_atomic digest id false false 2000 (mkAttempt (fun db => db) one_more rival) (quiet one_more) db_empty).
  - split; [reflexivity|constructor].
  - apply quiet_polite.
  - apply rival_polite.
  - apply quiet_polite.
  - apply quiet_polite.
Defined.

Lemma reconcile_settled_witness :
  exists res, let db := (reconciled 1000 two_slots db_empty).2 in
  reconciled 9000 two_slots db = (Ok res, db) /\ rr_changed res = false.
Proof.
  assert (H : match (reconciled 1000 two_slots db_empty).1 with Ok _ => true | Err _ => false end = true) by (vm_compute; reflexivity).
  destruct (reconciled 1000 two_slots db_empty) as [[r|e] d] eqn:E; [clear H|discriminate H].
  destruct (reconcile_settled digest id 1000 9000 two_slots two_slots (quiet two_slots) (quiet two_slots) false false
    db_empty d r) as (res & H1 & H2 & _).
  - split; [reflexivity|constructor].
  - exact E.
  - reflexivity.
  - exists res. split; [exact H1|exact H2].
Defined.

(** A merge keeps the aliases of the account it retires, and they are found there first. *)
Lemma merged_alias_unresolvable :
  let db := (adjudicated (Merge id1 id2 1) 2000 db1).2 in
  rows db = 2
  /\ resolve digest id id (label "a") db1 = Ok (mkResolution 1 id1 (PtrRegistry "a" AccessToken) true)
  /\ resolve digest id id (label "a") db = Err (EResolution "account is not enrolled").
Proof. vm_compute. split_and!; reflexivity. Qed.

(** The next reconciliation gives the credentials back to the retired account: the label of
    one slot then resolves to another slot. *)
Lemma merge_undone_by_reconcile :
  let merged := (adjudicated (Merge id2 id1 1) 2000 db1).2 in
  let again := (reconciled 3000 two_slots merged).2 in
  resolve digest id id (label "b") merged = Ok (mkResolution 2 id1 (PtrRegistry "b" AccessToken) true)
  /\ resolve digest id id (label "b") again = Ok (mkResolution 3 id1 (PtrRegistry "a" AccessToken) true).
Proof. vm_compute. split_and!; reflexivity. Qed.

(** A credential that expires at 5000 is resolved as fresh at 9000, after a reconciliation. *)
Lemma expired_credential_fresh :
  let db := (reconciled 9000 two_slots db1).2 in
  map cm_expires_at_ms (ps_credentials (latest db)) = [Some 5000; Some 5000]
  /\ resolve digest id id (label "a") db = Ok (mkResolution 1 id1 (PtrRegistry "a" AccessToken) true).
Proof. vm_compute. split_and!; reflexivity. Qed.

Definition keyed_observation (uuid : string) : list ImportBatch :=
  [mkImportBatch CodexBar (Some uuid) StOk None
     [mkObservation CodexBar "line:1" uuid [alias CodexBarAccountKey "codex:v1:x:k"; alias OpenAiAccountUuid uuid]
        None [] false []]].

(** A strong alias that moves to another account between two reconciliations is bound to both, and
    no conflict is reported. *)
Lemma collision_across_revisions_missed :
  let db := (reconciled 2000 (keyed_observation u2) (reconciled 1000 (keyed_observation u1) db_empty).2).2 in
  map (binds CodexBarAccountKey "codex:v1:x:k") (ps_accounts (latest db)) = [true; true]
  /\ ps_conflicts (latest db) = [].
Proof. vm_compute. split_and!; reflexivity. Qed.
End EnrollmentSamples.
